(* ===== verification/_CoqProject ===== *)
-Q . S2P
Prelude.v
GoSort.v
Dedup.v
GoStrings.v
Regex.v
Sha256.v
Json.v
Base64.v
GoTime.v
Netip.v
Policy.v
PolicySpec.v
ResponsePolicy.v
ResponsePolicySpec.v
PolicyLifecycle.v
Capability.v
CapabilitySpec.v
ExecResult.v
ExecResultSpec.v
JournalFrame.v
Ipc.v
IpcSpec.v
JournalRecord.v
JournalRecordSpec.v
Journal.v
JournalSpec.v
JournalTrace.v
Executor.v
ExecutorSpec.v
ExecutorTrace.v
GatewayPath.v
GatewaySpec.v
Detection.v
DetectionSpec.v
Correlation.v
CorrelationSpec.v
SignalContract.v
Incident.v
IncidentSpec.v
Limiter.v
LimiterSpec.v
Hmac.v
Session.v
SessionSpec.v
AdminAuth.v
AdminAuthSpec.v
JsonTree.v
NftRunner.v
NftRunnerSpec.v
NetPrefix.v
CanonicalJson.v
Protected.v
ProtectedSpec.v
ProtectedShipped.v
NftValidate.v
NftValidateSpec.v
Consistency.v
ConsistencySpec.v
ValidationGates.v
GoTimeParse.v
Snapshot.v
SnapshotSpec.v
History.v
HistorySpec.v
NftCheck.v
NftCheckSpec.v
Worker.v
WorkerSpec.v
ValidationWorker.v
ValidationWorkerSpec.v
ValidationRun.v
ValidationRunSpec.v
PolicyReader.v
Hil.v
HilDecision.v
HilSpec.v
HilServiceSpec.v
HilReview.v
LifecycleArtifact.v
Revocation.v
