(* ===== verification/Prelude.v ===== *)
(** * SentinelFlow: a verification library for its Go program

    SentinelFlow watches HTTP traffic at a gateway, detects abusive sources,
    groups the signals into incidents, lets an administrator approve a block
    with a lifetime, and has an isolated executor apply it to an nftables set.
    This library models the decision logic of that path and proves what makes
    it safe.  The files, in the order of a block's life, with the sources they
    translate (all under src/internal):

    - GatewayPath / GatewaySpec: gateway/path.go, gateway/host.go.  Request
      targets and hosts as byte strings; canonicalisation and rejection.
    - Detection / DetectionSpec, Dedup: detection/*.go.  The four rules over a
      batch of gateway and authentication events with source health.
    - Correlation / CorrelationSpec, SignalContract: correlation/validate.go,
      snapshot.go, correlate.go.  Signals to groups; what the detector promises
      the correlator.
    - Incident / IncidentSpec: correlation/lifecycle.go, lifecycle_types.go.  The
      incident aggregate: a record updated by commands, with their log.
    - Policy / PolicySpec, ResponsePolicy / ResponsePolicySpec, PolicyReader,
      PolicyLifecycle: policy/*.go.  The one nft command a policy may stand for, the
      artifact built from it, the response policy with its reader and its revisions, the
      state machine.
    - Capability / CapabilitySpec: enforcement/capability.  The signed, expiring
      permission the dispatcher sends: checking, canonical JSON, strict
      decoding, signing, verification, freshness, replay identity.
    - ExecResult / ExecResultSpec: enforcement/capability/result.go.  The
      executor's signed attestation.
    - JournalFrame, JournalRecord / JournalRecordSpec, Journal / JournalSpec,
      JournalTrace: enforcement/journal.  The append-only replay journal: frame
      and payload codecs, the startup scan, the index, permits, failing writes.
    - Ipc / IpcSpec: enforcement/ipc/frame.go, envelope.go.  The frames and JSON
      envelopes of the executor's socket.
    - Executor / ExecutorSpec / ExecutorTrace: enforcement/executor.  The service
      that turns one capability into at most one nft run and one result.
    - NftRunner / NftRunnerSpec: enforcement/nftrunner.  The adapter that runs
      nft with bounded output and reads the set back.
    - Protected / ProtectedSpec / ProtectedShipped: validation/protected*.go.  The
      contract of networks that are never blocked, the gate over it and over the
      deployment's own addresses; ProtectedShipped holds the shipped contract.
    - Consistency / ConsistencySpec: validation/consistency.go.  The gate that binds
      analysis, policy, evidence and command.
    - NftValidate / NftValidateSpec: enforcement/nftvalidate.  The second, independent
      parser of the command and the check of the owned nftables schema.
    - ValidationGates: the three gates composed as validationworker/runtime.go does.
    - Snapshot / SnapshotSpec: validation/snapshot.go.  The evidence snapshot and the
      validation snapshot, their canonical bytes, readers and freshness.
    - History / HistorySpec: validation/history.go.  The gate over the recorded traffic
      of the target: coverage, records, source health, receiver gaps, the report.
    - NftCheck / NftCheckSpec: enforcement/nftcheck.  The syntax check of the canonical
      command by two runs of the fixed binary.
    - Worker / WorkerSpec: worker/*.go.  The generic runner of leased jobs, its backoff,
      its tokens and the guards of its store.
    - ValidationWorker / ValidationWorkerSpec, ValidationRun / ValidationRunSpec:
      validationworker/*.go.  The six gates on a prepared snapshot, and one leased run
      that publishes their verdict.
    - Hil, HilDecision / HilSpec / HilServiceSpec, HilReview: hil/types.go, jcs.go,
      reason.go, artifact.go, challenge.go, decision.go.  The exact artifact put to an
      administrator, the challenge with its nonce, the one decision that answers it, and
      the service that issues and consumes them; HilReview joins it to the worker.
    - LifecycleArtifact: lifecycleartifact/*.go.  Inspections, the short-lived
      authorizations for them, and the deletion of one address.
    - Revocation: hil/revocation_binding.go.  The challenge and the decision that are
      bound to one deletion.
    - Limiter / LimiterSpec, Session / SessionSpec, AdminAuth / AdminAuthSpec:
      adminauth/*.go.  Rate limits, sessions and CSRF tokens, credentials, origins,
      cookies, and the boundary that composes them.

    Shared: this prelude (results, machine integers, tactics), GoSort (sort.Slice),
    GoStrings (Go string functions on byte strings), Regex (the anchored
    regular expressions of the sources, with their submatches), Sha256 (executable
    FIPS 180-4), Json (encoding/json as the strict decoders use it), Base64,
    GoTime and GoTimeParse (instants as nanoseconds since year 1, calendar, printing
    and reading of RFC 3339), Netip and NetPrefix (IPv4 addresses, classes and
    prefixes), JsonTree (values, json.Decoder into structs), CanonicalJson (the
    strict scan and the canonical writer of internal/validation), Hmac.

    How the parts interact.  Gateway events feed Detection; its signals feed
    Correlation (SignalContract shows they are always accepted), whose groups
    open Incidents.  A policy's canonical command is the artifact a Capability
    carries (CapabilitySpec.add_artifact_is_canonical_command connects the two
    grammars).  The Executor verifies the capability, asks the Journal to record
    its start, runs the artifact through the NftRunner, and has the Journal record the
    signed result.  Before approval, the validation gates vet the command:
    Consistency's result is what the Protected gate needs, its verdict is the callback
    of NftValidate (ValidationGates), NftCheck tries the canonical bytes, History judges
    the target's past, and the Snapshot records the six checks; ValidationWorker is
    this chain, and ValidationRun leases the job and publishes the outcome.  What it
    publishes is the exact artifact of Hil, for which HilDecision issues a challenge and
    takes the decision.  Revocation takes the same two
    artifacts the other way, bound to a deletion of LifecycleArtifact, whose bytes are
    those a Capability may carry.

    How code becomes definitions.  A Go function with an error result is a
    function into [result], a struct is a record, an enum an inductive type or
    its string, a [map] a [gmap] (its iteration order never reaches a result: the
    sources sort, and so do the models).  Strings and byte slices are byte
    strings; integers are Z with their width's wrap-around where it can show;
    an instant is Z nanoseconds.  Mutation is explicit: a method that changes its
    receiver returns the new one.  The journal's file is a list of bytes, and
    what the operating system answers during an append (short writes, failed
    syncs) is an argument.  The executor's questions to its surroundings (clock,
    context, randomness, runner, journal) are constructors of the free monad
    [prog]; [exec] answers them from a script, and a script that ends is a
    process that died there.  crypto/ed25519 is the class [Ed25519] with the
    documented laws of its sizes and of signing then verifying; [toy_ed25519]
    shows the laws can hold and lets the sample runs evaluate.  Argon2id and Unicode
    normalisation are function parameters without laws; random bytes and clock
    readings are arguments (readings do not decrease in the order in which a lock
    is taken); what nft prints and how it ends is an answer of the environment.  The
    workers' runs take what the store, the clock, the contexts and the handler answer
    as one record, and return the calls they make as a list in order.

    What the theorems show (the claims are numbered C1 to C40 in the order of
    their importance; here by part).
    - Executor, over whole histories of payloads: at most one mutation per
      capability with the process dying anywhere, responses durable and true,
      recovery that only reads.  Proved with a small program logic ([wp] of
      ExecutorSpec), sound for every script.
    - IPC: envelopes are exact up to line breaks, frames arrive whole or not at
      all.
    - Journal: restart rebuilds the index, crash containment, at most one
      execution, permanence of results, codec round trip, equality of the
      offline validator with the startup scan, progress, termination.
    - Capabilities and results: round trips, exactness of verification,
      freshness, truthful binding, one grammar with the policy.
    - Detection, correlation, incidents: one abstract specification of all
      rules, independence of input order, groups as exactly the connected
      components, the aggregate's invariant, commands applied once, at most
      two analyses.
    - Policies: exactly which texts parse, round trips, artifacts bound to
      policy and evidence, the revision chain, approval before enforcement.
    - Gateway: accepted targets have safe canonical paths.
    - Validation: which targets the protected gate lets through, that built-in
      networks stay closed outside an isolated demonstration, that configuration
      only adds protection and that the recorded digest determines the verdicts; the
      consistency gate as one chain of bindings; agreement of the two parsers; the
      gates composed; snapshots that read back and stay fresh for five minutes; exactly
      which histories are harmless, whatever the order of the records; exactly when the
      syntax check passes.
    - Validation worker: the recorded gates are an ordered prefix of the six, a valid
      verdict implies the whole chain of the gates' meanings, a run publishes at most
      one verdict under its lease, and success is only reported when it was confirmed.
    - Human decisions: a challenge yields one decision whatever is presented to it and in
      whatever order; the decision is bound to artifact, session, nonce and reason and
      authorizes for exactly as long as its challenge lasts; an issued challenge can be
      decided; a valid verdict can be put to an administrator; decisions read back.
    - Lifecycle artifacts and revocations: the deletions and inspections accepted are
      exactly the executor's, an inspection authorization serves one inspection, a bound
      revocation deletes one address, only while it lasts, and one on schedule completes.
    - Generic worker: reports are made under a live lease and as the handler's answer
      demands, the store accepts every request, delays stay within their bounds.
    - nft adapter: the listing parser is exact, inspections see the set, verified
      artifacts reach nft unchanged.
    - Administrator: the limiters refine the rolling-window rule, sessions are well
      formed, authenticate exactly while live, and stay dead once revoked; password
      hashing is bounded; hashes and cookies round trip.

    Fuel.  Structural recursion is used where the data allows it.  The journal
    scan takes the file's length as fuel and each round consumes a frame header
    (scan_needs_no_more_fuel: more changes nothing); Json.parse_document takes the text's length plus
    one, each call consuming a byte, and the round trips prove it enough for
    the canonical texts; decimal printing takes the bit length; the doubling of a
    delay takes 64 rounds, enough for any int64 (backoff_exact).  Regex
    matching, the path loop, the sweep of Correlate and the rule loops are
    structural.

    Not modelled, and why: the PostgreSQL stores (their state changes are SQL
    functions), HTTP handlers and clients, process wiring under cmd, the
    Unix-socket server, the nft process itself and operating-system checks of
    paths, modes and locks (they are answers of the environment), nil receivers
    and redacting String methods.  Left for later: the wire contracts of
    events and their authentication (internal/events, internal/ingestion), the
    detection, dispatch and lifecycle workers, and the IPv6 peer address of
    gateway/host.go. *)

From stdpp Require Export base tactics numbers list sets gmap strings sorting finite.
From Stdlib Require Export ZArith Lia Bool.
From Stdlib Require Ascii.
Export Stdlib.Strings.Ascii (ascii(..), ascii_of_N, N_of_ascii, ascii_dec,
  ascii_N_embedding, N_ascii_embedding, N_ascii_bounded).
Export (notations) Stdlib.Strings.Ascii.

(** ** Results: Go's [(value, error)] pairs

    Every Go function of the program returns either a value and a nil error or
    the zero value and an error; [result] keeps exactly the two outcomes. *)

Inductive result (E A : Type) : Type :=
| Ok (a : A)
| Err (e : E).

Arguments Ok {E A} a.
Arguments Err {E A} e.

Global Instance result_ret E : MRet (result E) := fun A a => Ok a.

Global Instance result_bind E : MBind (result E) :=
  fun A B f r => match r with Ok a => f a | Err e => Err e end.

Global Instance result_fmap E : FMap (result E) :=
  fun A B f r => match r with Ok a => Ok (f a) | Err e => Err e end.

Definition is_ok {E A} (r : result E A) : bool :=
  match r with Ok _ => true | Err _ => false end.

(** The value, or [d] in place of an error. *)
Definition from_ok {E A} (d : A) (r : result E A) : A :=
  match r with Ok a => a | Err _ => d end.

(** Change only the error, as [if err != nil { return reject(code) }] does. *)
Definition map_err {E F A} (f : E → F) (r : result E A) : result F A :=
  match r with Ok a => Ok a | Err e => Err (f e) end.

(** ** Machine integers

    Go's fixed-width unsigned arithmetic wraps; the widths the program uses. *)

Definition u8 (z : Z) : Z := (z mod 2 ^ 8)%Z.
Definition u32 (z : Z) : Z := (z mod 2 ^ 32)%Z.
Definition u64 (z : Z) : Z := (z mod 2 ^ 64)%Z.

Definition MaxUint64 : Z := (2 ^ 64 - 1)%Z.
Definition MaxInt32 : Z := (2 ^ 31 - 1)%Z.

(** ** Automation *)

Create Rewrite HintDb breflect.

#[export] Hint Rewrite andb_true_iff orb_true_iff negb_true_iff
  andb_false_iff orb_false_iff negb_false_iff
  Z.eqb_eq Z.eqb_neq Z.ltb_lt Z.ltb_ge Z.leb_le Z.leb_gt
  Nat.eqb_eq Nat.eqb_neq Nat.ltb_lt Nat.ltb_ge Nat.leb_le Nat.leb_gt
  bool_decide_eq_true bool_decide_eq_false
  String.eqb_eq String.eqb_neq : breflect.

(** Turn the code's boolean guards into propositions, everywhere. *)
Ltac breflect := autorewrite with breflect in *.

(** Split the conjunctions the guards leave behind. *)
Ltac bsplit := breflect; destruct_and?.

(** Case analysis over every [match] and [if] of goal and hypotheses, with the
    impossible branches closed; the shape of a proof about early returns. *)
Ltac go_cases := repeat (case_match; simplify_eq/=); simplify_eq/=.

(** Go through the failing guards of [H : (if g1 then Err _ else ...) = Ok _]. *)
Ltac pass_guards H :=
  repeat (match type of H with
          | (if ?b then Err _ else _) = Ok _ => destruct b eqn:? in H
          end; [discriminate H|]).

(** Run a monadic hypothesis [H : (x ← c; k) = Ok v] one bind at a time. *)
Ltac inv_bind H :=
  unfold mbind, result_bind in H;
  match type of H with
  | (match ?c with Ok _ => _ | Err _ => _ end) = Ok _ =>
      let E := fresh "Hbind" in
      destruct c eqn:E; [|discriminate H]
  end.

(** ** Generic lemmas shared by the components *)

Lemma is_ok_true {E A} (r : result E A) : is_ok r = true ↔ ∃ a, r = Ok a.
Proof. destruct r; simpl; split; [by eauto|done|done|by intros [? ?]]. Qed.

Lemma forallb_Forall {A} (f : A → bool) (l : list A) :
  forallb f l = true ↔ Forall (λ x, f x = true) l.
Proof.
  rewrite forallb_forall, Forall_forall. setoid_rewrite list_elem_of_In. done.
Qed.

Lemma existsb_Exists {A} (f : A → bool) (l : list A) :
  existsb f l = true ↔ Exists (λ x, f x = true) l.
Proof.
  rewrite existsb_exists, List.Exists_exists. done.
Qed.

Lemma existsb_false {A} (f : A → bool) (l : list A) :
  existsb f l = false ↔ Forall (λ x, f x = false) l.
Proof.
  induction l as [|x l IH]; simpl; [by split|].
  rewrite orb_false_iff, IH, Forall_cons. done.
Qed.

Lemma existsb_perm {A} (f : A → bool) (l k : list A) :
  l ≡ₚ k → existsb f l = existsb f k.
Proof.
  induction 1; simpl; try congruence.
  by destruct (f x), (f y).
Qed.

Lemma filter_perm_length {A} (P : A → Prop) `{∀ x, Decision (P x)} (l k : list A) :
  l ≡ₚ k → length (filter P l) = length (filter P k).
Proof. intros ->. done. Qed.

Lemma elem_of_concat {A} (x : A) (ls : list (list A)) : x ∈ concat ls ↔ ∃ l, l ∈ ls ∧ x ∈ l.
Proof. rewrite list_elem_of_In, in_concat. by setoid_rewrite <-list_elem_of_In. Qed.

Lemma StronglySorted_sublist {A} (R : relation A) (l k : list A) :
  sublist k l → StronglySorted R l → StronglySorted R k.
Proof.
  induction 1 as [|x k l Hs IH|x k l Hs IH]; intros Hl; [done| |]; apply StronglySorted_cons in Hl as [Hf Hl]; auto.
  constructor; [auto|]. apply Forall_forall. rewrite Forall_forall in Hf.
  intros y Hy. apply Hf. by apply (sublist_subseteq k l).
Qed.
