(* ===== verification/GoSort.v ===== *)
(** * Go's [sort.Slice]: comparators, sorting and deduplication

    [sort.Slice] takes a [less] function and may order elements that compare
    equal in any way.  The library gives comparators as three-way comparisons
    built by projection and lexicographic composition, sorts with a merge sort,
    and proves that whenever the comparator separates the elements of the list
    the result is the only sorted permutation: what the program computes does
    not depend on the sorting algorithm nor on the order the elements came in
    (in particular not on Go's random map iteration order). *)

From S2P Require Import Prelude.

(** ** Comparators *)

(** A weak order: comparing the other way round gives the opposite answer, and
    "not greater" is transitive. *)
Class WeakOrder {A} (c : A → A → comparison) : Prop := {
  cmp_opp x y : c y x = CompOpp (c x y);
  cmp_le_trans x y z : c x y ≠ Gt → c y z ≠ Gt → c x z ≠ Gt
}.

(** Compare by a key. *)
Definition cmp_on {A B} (f : A → B) (c : B → B → comparison) (x y : A) : comparison :=
  c (f x) (f y).

(** Compare by [c1], then by [c2]: the shape of every [less] closure of the
    program ([if a.K1 != b.K1 { return a.K1 < b.K1 }; return a.K2 < b.K2]). *)
Definition cmp_lex {A} (c1 c2 : A → A → comparison) (x y : A) : comparison :=
  match c1 x y with Eq => c2 x y | r => r end.

(** The [less] argument of [sort.Slice]. *)
Definition less_of {A} (c : A → A → comparison) (x y : A) : bool :=
  match c x y with Lt => true | _ => false end.

Definition cmp_le {A} (c : A → A → comparison) (x y : A) : Prop := c x y ≠ Gt.

Global Instance cmp_le_dec {A} (c : A → A → comparison) : RelDecision (cmp_le c).
Proof. intros x y. unfold cmp_le. apply _. Defined.

(** [sort.Slice(l, less)] for [less = less_of c]. *)
Definition sort_slice {A} (c : A → A → comparison) (l : list A) : list A :=
  merge_sort (cmp_le c) l.

(** ** Laws of the comparators *)

Section WeakOrderLaws.
Context {A : Type} (c : A → A → comparison) `{!WeakOrder c}.

Lemma cmp_refl x : c x x = Eq.
Proof. pose proof (cmp_opp (c:=c) x x). by destruct (c x x). Qed.

Lemma cmp_eq_l x y z : c x y = Eq → c x z = c y z.
Proof.
  intros Hxy.
  pose proof (cmp_le_trans (c:=c) x y z) as H1.
  pose proof (cmp_le_trans (c:=c) y x z) as H2.
  pose proof (cmp_le_trans (c:=c) z x y) as H3.
  pose proof (cmp_le_trans (c:=c) z y x) as H4.
  rewrite (cmp_opp (c:=c) x y), (cmp_opp (c:=c) y z), (cmp_opp (c:=c) x z) in *.
  rewrite Hxy in *. simpl in *.
  destruct (c x z), (c y z); simpl in *; naive_solver.
Qed.

Lemma cmp_eq_r x y z : c x y = Eq → c z x = c z y.
Proof.
  intros Hxy. rewrite (cmp_opp (c:=c) x z), (cmp_opp (c:=c) y z).
  f_equal. by apply cmp_eq_l.
Qed.

Lemma cmp_lt_trans x y z : c x y = Lt → c y z = Lt → c x z = Lt.
Proof.
  intros Hxy Hyz.
  pose proof (cmp_le_trans (c:=c) x y z) as H1.
  rewrite Hxy, Hyz in H1.
  destruct (c x z) eqn:Hxz; [|done|naive_solver].
  rewrite (cmp_eq_l x z y) in Hxy by done.
  rewrite (cmp_opp (c:=c) y z), Hyz in Hxy. done.
Qed.

Global Instance cmp_le_preorder : PreOrder (cmp_le c).
Proof.
  split.
  - intros x. unfold cmp_le. by rewrite cmp_refl.
  - intros x y z. apply cmp_le_trans.
Qed.

Global Instance cmp_le_total : Total (cmp_le c).
Proof.
  intros x y. unfold cmp_le. rewrite (cmp_opp (c:=c) x y).
  destruct (c x y); simpl; auto.
Qed.

Lemma less_of_irrefl x : less_of c x x = false.
Proof. unfold less_of. by rewrite cmp_refl. Qed.

Lemma cmp_le_antisym_eq x y : cmp_le c x y → cmp_le c y x → c x y = Eq.
Proof.
  unfold cmp_le. rewrite (cmp_opp (c:=c) x y).
  by destruct (c x y); simpl.
Qed.

Lemma sort_slice_perm l : sort_slice c l ≡ₚ l.
Proof. apply merge_sort_Permutation. Qed.

Lemma sort_slice_sorted l : StronglySorted (cmp_le c) (sort_slice c l).
Proof. apply StronglySorted_merge_sort; apply _. Qed.

Lemma sort_slice_length l : length (sort_slice c l) = length l.
Proof. by rewrite sort_slice_perm. Qed.

Lemma sort_slice_elem x l : x ∈ sort_slice c l ↔ x ∈ l.
Proof. by rewrite sort_slice_perm. Qed.

(** The comparator tells the elements of [l] apart. *)
Definition separates (l : list A) : Prop :=
  ∀ x y, x ∈ l → y ∈ l → c x y = Eq → x = y.

(** The only sorted arrangement: whatever permutation of [l] the code sorts
    (and whatever sorting algorithm it uses), the result is the same list. *)
Lemma sorted_perm_unique l k :
  separates l → StronglySorted (cmp_le c) l → StronglySorted (cmp_le c) k →
  l ≡ₚ k → l = k.
Proof.
  intros Hsep Hl Hk Hp. apply (StronglySorted_unique_strong (cmp_le c)); [|done..].
  intros x y Hx Hy Hxy Hyx. apply Hsep; [done| |by apply cmp_le_antisym_eq].
  by rewrite Hp.
Qed.

Lemma separates_perm l k : l ≡ₚ k → separates l → separates k.
Proof. intros Hp Hs x y. rewrite <-Hp. apply Hs. Qed.

Lemma sort_slice_perm_eq l k : separates l → l ≡ₚ k → sort_slice c l = sort_slice c k.
Proof.
  intros Hs Hp. apply sorted_perm_unique; auto using sort_slice_sorted.
  - eapply separates_perm; [|done]. by rewrite sort_slice_perm.
  - by rewrite !sort_slice_perm.
Qed.

Lemma sort_slice_id l :
  separates l → StronglySorted (cmp_le c) l → sort_slice c l = l.
Proof.
  intros Hs Hl. symmetry. apply sorted_perm_unique; auto using sort_slice_sorted.
  by rewrite sort_slice_perm.
Qed.
End WeakOrderLaws.

Global Instance cmp_on_weak {A B} (f : A → B) c `{!WeakOrder c} : WeakOrder (cmp_on f c).
Proof. unfold cmp_on. split; intros *; [apply cmp_opp|apply cmp_le_trans]. Qed.

Global Instance cmp_lex_weak {A} (c1 c2 : A → A → comparison)
  `{!WeakOrder c1, !WeakOrder c2} : WeakOrder (cmp_lex c1 c2).
Proof.
  unfold cmp_lex. split.
  - intros x y. rewrite (cmp_opp (c:=c1) x y). destruct (c1 x y); simpl; [apply cmp_opp|done..].
  - intros x y z. destruct (c1 x y) eqn:E1; [| |done].
    + rewrite (cmp_eq_l c1 x y z) by done.
      destruct (c1 y z); [apply cmp_le_trans|done..].
    + destruct (c1 y z) eqn:E2; intros; [| |done].
      * by rewrite <-(cmp_eq_r c1 y z x), E1.
      * by rewrite (cmp_lt_trans c1 x y z).
Qed.

Global Instance Zcompare_weak : WeakOrder Z.compare.
Proof.
  split.
  - intros x y. apply Z.compare_antisym.
  - intros x y z. rewrite !Z.compare_le_iff. lia.
Qed.

Global Instance Scompare_weak : WeakOrder String.compare.
Proof.
  assert (Hle : ∀ x y, String.compare x y ≠ Gt ↔ String.le x y).
  { intros x y. unfold String.le, String.leb. destruct (String.compare x y); naive_solver. }
  split.
  - intros x y. apply String.compare_antisym.
  - intros x y z. rewrite !Hle. apply (transitivity (R:=String.le)).
Qed.

(** ** Strings: Go's [<] on strings is the bytewise lexicographic order *)

Lemma scompare_eq x y : String.compare x y = Eq ↔ x = y.
Proof. split; [apply String.compare_eq_iff|intros ->; apply (cmp_refl String.compare)]. Qed.

Lemma ltb_compare x y : String.ltb x y = true ↔ String.compare x y = Lt.
Proof. unfold String.ltb. by destruct (String.compare x y). Qed.

Lemma string_separates (l : list string) : separates String.compare l.
Proof. intros x y _ _. apply scompare_eq. Qed.

Lemma separates_on {A B} (f : A → B) (c : B → B → comparison) (l : list A) :
  (∀ x y, c x y = Eq → x = y) → NoDup (f <$> l) → separates (cmp_on f c) l.
Proof.
  intros Hc Hnd x y Hx Hy Heq%Hc. revert Hnd Hx Hy Heq.
  induction l as [|a l IH]; simpl; intros Hnd Hx Hy Heq; [by apply elem_of_nil in Hx|].
  apply NoDup_cons in Hnd as [Ha Hnd].
  apply elem_of_cons in Hx as [->|Hx], Hy as [->|Hy]; [done|..].
  - destruct Ha. rewrite Heq. by apply list_elem_of_fmap_2.
  - destruct Ha. rewrite <-Heq. by apply list_elem_of_fmap_2.
  - auto.
Qed.

Lemma separates_lex_r {A} (c1 c2 : A → A → comparison) (l : list A) :
  separates c2 l → separates (cmp_lex c1 c2) l.
Proof.
  intros Hs x y Hx Hy. unfold cmp_lex.
  destruct (c1 x y); [by apply Hs|done..].
Qed.

(** [sort.Strings] *)
Definition sort_strings (l : list string) : list string := sort_slice String.compare l.

(** Collapse runs of equal neighbours: the in-place [write] loop of
    [sortedUniqueStrings] and [sortedUnique], on a sorted slice. *)
Fixpoint dedup_adjacent (l : list string) : list string :=
  match l with
  | [] => []
  | x :: l' =>
      match dedup_adjacent l' with
      | (y :: _) as k => if String.eqb x y then k else x :: k
      | [] => [x]
      end
  end.

Definition sorted_unique (l : list string) : list string :=
  dedup_adjacent (sort_strings l).

(** Strictly increasing byte strings. *)
Definition str_lt (x y : string) : Prop := String.compare x y = Lt.

Lemma dedup_adjacent_elem x l : x ∈ dedup_adjacent l ↔ x ∈ l.
Proof.
  induction l as [|a l IH]; simpl; [done|].
  destruct (dedup_adjacent l) as [|b k] eqn:E.
  - by rewrite !elem_of_cons, <-IH.
  - rewrite (elem_of_cons l), <-IH.
    destruct (String.eqb a b) eqn:Eab; [apply String.eqb_eq in Eab as ->|];
      rewrite !elem_of_cons; tauto.
Qed.

Lemma dedup_adjacent_sorted l :
  StronglySorted (cmp_le String.compare) l → StronglySorted str_lt (dedup_adjacent l).
Proof.
  induction l as [|a l IH]; simpl; intros Hl; [constructor|].
  apply StronglySorted_cons in Hl as [Ha Hl]. specialize (IH Hl).
  destruct (dedup_adjacent l) as [|b k] eqn:E; [repeat constructor|].
  destruct (String.eqb a b) eqn:Eab; [done|]. apply String.eqb_neq in Eab.
  constructor; [done|].
  assert (Hab : str_lt a b).
  { assert (b ∈ l) as Hb by (rewrite <-(dedup_adjacent_elem b l), E; left).
    rewrite Forall_forall in Ha. specialize (Ha b Hb). unfold cmp_le, str_lt in *.
    destruct (String.compare a b) eqn:Ec; [|done..]. by apply scompare_eq in Ec. }
  constructor; [done|].
  apply StronglySorted_cons in IH as [Hb _]. eapply Forall_impl; [exact Hb|].
  intros y. unfold str_lt in *. by apply (cmp_lt_trans String.compare).
Qed.

Lemma sorted_unique_elem x l : x ∈ sorted_unique l ↔ x ∈ l.
Proof. unfold sorted_unique, sort_strings. by rewrite dedup_adjacent_elem, sort_slice_perm. Qed.

Lemma sorted_unique_sorted l : StronglySorted str_lt (sorted_unique l).
Proof. apply dedup_adjacent_sorted, sort_slice_sorted, _. Qed.

Lemma str_lt_sorted_NoDup l : StronglySorted str_lt l → NoDup l.
Proof.
  induction 1 as [|x l Hl IH Hx]; constructor; [|done].
  intros Hin. rewrite Forall_forall in Hx. specialize (Hx x Hin).
  unfold str_lt in Hx. by rewrite (cmp_refl String.compare) in Hx.
Qed.

Lemma sorted_unique_NoDup l : NoDup (sorted_unique l).
Proof. apply str_lt_sorted_NoDup, sorted_unique_sorted. Qed.

Lemma str_lt_le l : StronglySorted str_lt l → StronglySorted (cmp_le String.compare) l.
Proof.
  induction 1 as [|x l Hl IH Hx]; constructor; [done|].
  eapply Forall_impl; [exact Hx|]. unfold str_lt, cmp_le. by intros y ->.
Qed.

(** Two strictly sorted lists with the same elements are the same list. *)
Lemma str_lt_sorted_ext l k :
  StronglySorted str_lt l → StronglySorted str_lt k → (∀ x, x ∈ l ↔ x ∈ k) → l = k.
Proof.
  intros Hl Hk Hlk. apply (sorted_perm_unique String.compare);
    auto using string_separates, str_lt_le.
  apply NoDup_Permutation; auto using str_lt_sorted_NoDup.
Qed.

Lemma sorted_unique_ext l k : (∀ x, x ∈ l ↔ x ∈ k) → sorted_unique l = sorted_unique k.
Proof.
  intros Hlk. apply str_lt_sorted_ext; auto using sorted_unique_sorted.
  intros x. by rewrite !sorted_unique_elem.
Qed.

Lemma sorted_unique_perm_NoDup l : NoDup l → sorted_unique l ≡ₚ l.
Proof.
  intros Hl. apply NoDup_Permutation; auto using sorted_unique_NoDup.
  intros x. apply sorted_unique_elem.
Qed.
