(* ===== verification/Dedup.v ===== *)
(** * Validate, deduplicate and order

    The loop shared by the packages that take batches: every element is
    validated, an exact repetition of a key is skipped, a different element
    under a used key is an error, and the survivors are sorted.  The map the
    code iterates over has no order; the result has exactly one. *)

From S2P Require Import Prelude GoSort.
Local Open Scope Z_scope.

Section dedup.
  Context {A E : Type}.
  Variables (key : A → string) (equal : A → A → bool).
  Variables (check : Z → A → option E) (conflict : Z → A → E).
  Implicit Types (l seen : list A).

Fixpoint collect (index : Z) (byID : gmap string A) (values : list A) : result E (gmap string A) :=
  match values with
  | [] => Ok byID
  | value :: values =>
      match check index value with
      | Some e => Err e
      | None =>
          match byID !! key value with
          | Some previous =>
              if negb (equal previous value) then Err (conflict index value)
              else collect (index + 1) byID values
          | None => collect (index + 1) (<[key value := value]> byID) values
          end
      end
  end.

(** Collect, then list the map's values in the given order. *)
Definition dedup_sort (order : A → A → comparison) (values : list A) : result E (list A) :=
  byID ← collect 0 ∅ values;
  Ok (sort_slice order (map_to_list byID).*2).

(** ** Specification *)

Variable valid : A → Prop.
Hypothesis equal_spec : ∀ x y, equal x y = true ↔ x = y.
Hypothesis check_spec : ∀ i x, check i x = None ↔ valid x.

(** What the loop accepts: every element is valid, and no key is used for two
    different elements. *)
Definition acceptable l : Prop :=
  Forall valid l ∧ ∀ x y, x ∈ l → y ∈ l → key x = key y → x = y.

(** The map the loop keeps, as a set of elements. *)
Definition represents (m : gmap string A) seen : Prop :=
  ∀ id x, m !! id = Some x ↔ x ∈ seen ∧ key x = id.

Lemma represents_inj m seen x y : represents m seen → x ∈ seen → y ∈ seen → key x = key y → x = y.
Proof.
  intros Hm Hx Hy He.
  assert (m !! key x = Some x) by (by apply Hm).
  assert (m !! key x = Some y) by (by apply Hm). congruence.
Qed.

Lemma represents_insert m seen x : represents m seen → m !! key x = None →
  represents (<[key x := x]> m) (seen ++ [x]).
Proof.
  unfold represents. intros Hm Hn id y. rewrite elem_of_app, list_elem_of_singleton.
  destruct (decide (key x = id)) as [<-|Hne].
  - rewrite lookup_insert_eq. split.
    + intros [= <-]. auto.
    + intros [[Hy| ->] He]; [|done]. assert (m !! key x = Some y) by (by apply Hm). congruence.
  - rewrite lookup_insert_ne, Hm by done. naive_solver.
Qed.

Lemma collect_spec l : ∀ index m seen, represents m seen →
  match collect index m l with
  | Ok m' => represents m' (seen ++ l) ∧ Forall valid l
  | Err _ => ¬ (Forall valid l ∧ ∀ x y, x ∈ seen ++ l → y ∈ seen ++ l → key x = key y → x = y)
  end.
Proof.
  induction l as [|v l IH]; intros index m seen Hm; simpl; [by rewrite app_nil_r|].
  destruct (check index v) as [e|] eqn:Ec.
  { intros [[H _]%Forall_cons _]. apply (check_spec index) in H. congruence. }
  apply check_spec in Ec. rewrite (cons_middle v seen l), app_assoc.
  destruct (m !! key v) as [p|] eqn:Em.
  - apply Hm in Em as [Hp He]. destruct (equal p v) eqn:Eq; simpl.
    + apply equal_spec in Eq as ->.
      assert (represents m (seen ++ [v])) as Hm' by (unfold represents in *; intros id x; rewrite Hm; set_solver).
      specialize (IH (index + 1) m _ Hm'). destruct (collect _ _ l); rewrite Forall_cons; naive_solver.
    + intros [_ H]. assert (p = v) as -> by (apply H; set_solver).
      assert (equal v v = true) by (by apply equal_spec). congruence.
  - specialize (IH (index + 1) _ _ (represents_insert _ _ _ Hm Em)). destruct (collect _ _ l); rewrite Forall_cons; naive_solver.
Qed.

Context (order : A → A → comparison) `{!WeakOrder order}.
Hypothesis order_key : ∀ x y, order x y = Eq → key x = key y.

(** The normalised list: the elements themselves, once each, in order. *)
Record normalised l (r : list A) : Prop := {
  nm_elem : ∀ x, x ∈ r ↔ x ∈ l;
  nm_keys : NoDup (key <$> r);
  nm_sorted : StronglySorted (cmp_le order) r
}.

Lemma keys_inj r x y : NoDup (key <$> r) → x ∈ r → y ∈ r → key x = key y → x = y.
Proof.
  intros Hn Hx Hy He. apply list_elem_of_lookup_1 in Hx as [i Hi], Hy as [j Hj].
  assert (i = j) as ->; [|congruence].
  apply (NoDup_lookup (key <$> r) i j (key x)); [done|rewrite list_lookup_fmap, Hi|rewrite list_lookup_fmap, Hj];
    simpl; congruence.
Qed.

Lemma order_separates r : NoDup (key <$> r) → separates order r.
Proof. intros Hn x y Hx Hy Hc. eapply keys_inj; eauto. Qed.

Lemma normalised_unique l k r s : (∀ x, x ∈ l ↔ x ∈ k) → normalised l r → normalised k s → r = s.
Proof.
  intros Hlk [Er Ir Sr] [Es Is Ss].
  assert (r ≡ₚ s) as Hp.
  { apply NoDup_Permutation; [by eapply NoDup_fmap_1|by eapply NoDup_fmap_1|]. intros x. by rewrite Er, Es. }
  apply (sorted_perm_unique order); try done. by apply order_separates.
Qed.

Lemma dedup_sort_spec l :
  match dedup_sort order l with
  | Ok r => acceptable l ∧ normalised l r
  | Err _ => ¬ acceptable l
  end.
Proof.
  unfold dedup_sort. pose proof (collect_spec l 0 ∅ []) as H.
  unfold mbind, result_bind. destruct (collect 0 ∅ l) as [m|e]; simpl in *.
  2: { apply H. intros id x. rewrite lookup_empty. set_solver. }
  destruct H as [Hm Hc]; [intros id x; rewrite lookup_empty; set_solver|].
  assert (∀ x, x ∈ (map_to_list m).*2 ↔ x ∈ l) as He.
  { intros x. rewrite list_elem_of_fmap. split.
    - intros ([id y] & -> & Hy%elem_of_map_to_list). by apply Hm in Hy as [? _].
    - intros Hx. exists (key x, x). split; [done|]. apply elem_of_map_to_list. by apply Hm. }
  assert (key <$> (map_to_list m).*2 = (map_to_list m).*1) as Hids.
  { rewrite <-list_fmap_compose. apply list_fmap_ext. intros i [id x] Hl.
    apply list_elem_of_lookup_2, elem_of_map_to_list, Hm in Hl as [_ <-]. done. }
  split.
  - split; [done|]. intros x y. by apply represents_inj with (m := m).
  - split.
    + intros x. by rewrite sort_slice_elem.
    + rewrite sort_slice_perm, Hids. apply NoDup_fst_map_to_list.
    + apply (sort_slice_sorted order).
Qed.

Lemma dedup_sort_ok l r : dedup_sort order l = Ok r → acceptable l ∧ normalised l r.
Proof. intros H. pose proof (dedup_sort_spec l) as Hs. by rewrite H in Hs. Qed.

Lemma acceptable_ext l k : (∀ x, x ∈ l ↔ x ∈ k) → acceptable l → acceptable k.
Proof.
  intros Hlk [Hc Hi]. split.
  - apply Forall_forall. rewrite Forall_forall in Hc. intros x Hx. by apply Hc, Hlk.
  - intros x y Hx Hy. by apply Hi; apply Hlk.
Qed.

(** Order and repetition of the input do not matter. *)
Lemma dedup_sort_ext l k r : (∀ x, x ∈ l ↔ x ∈ k) → dedup_sort order l = Ok r → dedup_sort order k = Ok r.
Proof.
  intros Hlk [Ha Hn]%dedup_sort_ok. pose proof (dedup_sort_spec k) as Hk.
  destruct (dedup_sort order k) as [s|e].
  - f_equal. destruct Hk as [_ Hk]. by eapply normalised_unique; [|exact Hk|exact Hn].
  - by destruct Hk; eapply acceptable_ext.
Qed.

(** Acceptable input that is already normal is returned as it is. *)
Lemma dedup_sort_id l : acceptable l → normalised l l → dedup_sort order l = Ok l.
Proof.
  intros Ha Hn. pose proof (dedup_sort_spec l) as Hk. destruct (dedup_sort order l) as [s|e]; [|by destruct Hk].
  f_equal. destruct Hk as [_ Hk]. by eapply normalised_unique; [|exact Hk|exact Hn].
Qed.

End dedup.
