(* ===== verification/GoStrings.v ===== *)
(** * Go strings, bytes and numbers

    A Go [string] or [[]byte] is a byte sequence: Rocq's [string] here, with
    [chars] for the byte list the loops walk over.  The file models what the
    program uses of [strings], [strconv], [unicode/utf8], [encoding/hex] and of
    [encoding/json]'s string encoder, with the round trips the parsers and
    canonical encoders need. *)

From S2P Require Import Prelude.
Local Open Scope Z_scope.

(** ** Bytes *)

Definition chars (s : string) : list ascii := String.list_ascii_of_string s.
Definition implode (l : list ascii) : string := String.string_of_list_ascii l.

(** [len(s)] *)
Definition len (s : string) : Z := Z.of_nat (String.length s).

(** The value of a byte, and the byte of a value (as Go's [byte(v)]). *)
Definition code (a : ascii) : Z := Z.of_N (N_of_ascii a).
Definition chr (z : Z) : ascii := ascii_of_N (Z.to_N (u8 z)).

(** [lo <= c && c <= hi], the code's character ranges. *)
Definition between (lo hi : ascii) (c : ascii) : bool :=
  (code lo <=? code c) && (code c <=? code hi).

Definition is_digit (c : ascii) : bool := between "0" "9" c.
Definition is_lower (c : ascii) : bool := between "a" "z" c.
Definition is_upper (c : ascii) : bool := between "A" "Z" c.
Definition is_lower_hex (c : ascii) : bool := is_digit c || between "a" "f" c.

(** The double quote, and templates that write it as an apostrophe. *)
Definition dq : ascii := "034".
Definition quote_of (c : ascii) : ascii := if decide (c = "'"%char) then dq else c.
Definition qq (s : string) : string := implode (map quote_of (chars s)).

(** [strings.ToLower] on a byte: ASCII letters only. *)
Definition to_lower_ascii (c : ascii) : ascii :=
  if is_upper c then chr (code c + 32) else c.

(** ** Decimal numbers ([strconv]) *)

Fixpoint digits_aux (fuel : nat) (n : Z) (acc : list Z) : list Z :=
  match fuel with
  | O => acc
  | S f => if n <=? 0 then acc else digits_aux f (n / 10) (n mod 10 :: acc)
  end.

(** The decimal digits of [n], most significant first: the loop writes
    [value%10] and divides until nothing is left; a binary logarithm is enough
    fuel for it. *)
Definition digits (n : Z) : list Z :=
  if n =? 0 then [0] else digits_aux (S (Z.to_nat (Z.log2 n))) n [].

Definition of_digits (l : list Z) : Z := foldl (λ a d, 10 * a + d) 0 l.

Definition digit_char (d : Z) : ascii := chr (48 + d).
Definition char_digit (c : ascii) : Z := code c - 48.

(** [strconv.FormatUint(n, 10)], [strconv.Itoa] on a non-negative number. *)
Definition format_uint (n : Z) : string := implode (map digit_char (digits n)).

(** [strconv.Itoa] *)
Definition itoa (n : Z) : string :=
  if n <? 0 then String "-" (format_uint (- n)) else format_uint n.

(** [strconv.ParseUint(s, 10, bits)]: digits only, at least one, no overflow. *)
Definition parse_uint (bits : Z) (s : string) : option Z :=
  match chars s with
  | [] => None
  | l => if forallb is_digit l
         then let v := of_digits (map char_digit l) in
              if v <? 2 ^ bits then Some v else None
         else None
  end.

(** [strconv.Atoi]: an optional sign and digits, within an [int64]. *)
Definition atoi (s : string) : option Z :=
  match s with
  | String "+" r => parse_uint 63 r
  | String "-" r => v ← parse_uint 64 r; if v <=? 2 ^ 63 then Some (- v) else None
  | _ => parse_uint 63 s
  end.

(** ** Hexadecimal ([encoding/hex], lower case) *)

Definition hex_digit (d : Z) : ascii :=
  if d <? 10 then chr (48 + d) else chr (87 + d).

Definition hex_of_bytes (l : list Z) : string :=
  implode (flat_map (λ b, [hex_digit (b / 16); hex_digit (b mod 16)]) l).

(** ** UTF-8 ([unicode/utf8]) *)

(** [utf8.DecodeRune] on a non-empty input: the rune and its width, [None] when
    Go answers [(RuneError, 1)]. *)
Definition cont (lo hi : Z) (c : ascii) : bool := (lo <=? code c) && (code c <=? hi).

Definition utf8_decode (l : list ascii) : option (Z * nat) :=
  match l with
  | [] => None
  | a :: l1 =>
      let x := code a in
      if x <? 128 then Some (x, 1%nat)
      else if (194 <=? x) && (x <=? 223) then
        match l1 with
        | b :: _ => if cont 128 191 b then Some ((x - 192) * 64 + (code b - 128), 2%nat) else None
        | _ => None
        end
      else if (224 <=? x) && (x <=? 239) then
        match l1 with
        | b :: c :: _ =>
            let lo := if x =? 224 then 160 else 128 in
            let hi := if x =? 237 then 159 else 191 in
            if cont lo hi b && cont 128 191 c
            then Some ((x - 224) * 4096 + (code b - 128) * 64 + (code c - 128), 3%nat) else None
        | _ => None
        end
      else if (240 <=? x) && (x <=? 244) then
        match l1 with
        | b :: c :: d :: _ =>
            let lo := if x =? 240 then 144 else 128 in
            let hi := if x =? 244 then 143 else 191 in
            if cont lo hi b && cont 128 191 c && cont 128 191 d
            then Some ((x - 240) * 262144 + (code b - 128) * 4096 + (code c - 128) * 64
                       + (code d - 128), 4%nat) else None
        | _ => None
        end
      else None
  end.

Global Arguments utf8_decode : simpl never.

Fixpoint utf8_valid_aux (fuel : nat) (l : list ascii) : bool :=
  match l with
  | [] => true
  | _ =>
      match fuel with
      | O => false
      | S f => match utf8_decode l with
               | Some (_, n) => utf8_valid_aux f (drop n l)
               | None => false
               end
      end
  end.

(** [utf8.Valid]; every step consumes a byte, so the length is enough fuel. *)
Definition utf8_valid (s : string) : bool := utf8_valid_aux (length (chars s)) (chars s).

(** ** JSON strings ([json.Marshal] of a Go string) *)

Definition hex4 (n : Z) : list ascii :=
  [hex_digit (n / 4096); hex_digit (n / 256 mod 16); hex_digit (n / 16 mod 16); hex_digit (n mod 16)].

Definition json_u (n : Z) : list ascii := "\"%char :: "u"%char :: hex4 n.

(** One ASCII byte as [encoding/json] writes it (with HTML escaping, its
    default). *)
Definition json_ascii (c : ascii) : list ascii :=
  let x := code c in
  if x =? 34 then ["\"; dq]%char
  else if x =? 92 then ["\"; "\"]%char
  else if x =? 8 then ["\"; "b"]%char
  else if x =? 12 then ["\"; "f"]%char
  else if x =? 10 then ["\"; "n"]%char
  else if x =? 13 then ["\"; "r"]%char
  else if x =? 9 then ["\"; "t"]%char
  else if (x <? 32) || (x =? 60) || (x =? 62) || (x =? 38) then json_u x
  else [c].

Fixpoint json_escape (fuel : nat) (l : list ascii) : list ascii :=
  match fuel, l with
  | _, [] => []
  | O, _ => []
  | S f, a :: l1 =>
      match utf8_decode l with
      | Some (r, 1%nat) => json_ascii a ++ json_escape f l1
      | Some (r, n) =>
          (if (r =? 8232) || (r =? 8233) then json_u r else take n l)
            ++ json_escape f (drop n l)
      | None => json_u 65533 ++ json_escape f l1
      end
  end.

(** [encoded, _ := json.Marshal(value)] for a string [value]. *)
Definition json_string (s : string) : string :=
  implode (dq :: json_escape (length (chars s)) (chars s) ++ [dq]).

(** A byte [encoding/json] writes unchanged; a string made of them is quoted
    as it is. *)
Definition json_plain (c : ascii) : bool :=
  (32 <=? code c) && (code c <? 128) && negb (code c =? 34) && negb (code c =? 92)
  && negb (code c =? 60) && negb (code c =? 62) && negb (code c =? 38).

(** ** Lemmas: bytes *)

Lemma chars_implode l : chars (implode l) = l.
Proof. apply String.list_ascii_of_string_of_list_ascii. Qed.

Lemma implode_chars s : implode (chars s) = s.
Proof. apply String.string_of_list_ascii_of_string. Qed.

Lemma chars_inj s1 s2 : chars s1 = chars s2 → s1 = s2.
Proof. intros H. by rewrite <-(implode_chars s1), H, implode_chars. Qed.

Lemma implode_inj l1 l2 : implode l1 = implode l2 → l1 = l2.
Proof. intros H. by rewrite <-(chars_implode l1), H, chars_implode. Qed.

Lemma chars_app s1 s2 : chars (s1 +:+ s2) = chars s1 ++ chars s2.
Proof. induction s1 as [|c s1 IH]; [done|]. unfold chars in *. simpl. by f_equal. Qed.

Lemma implode_app l1 l2 : implode (l1 ++ l2) = implode l1 +:+ implode l2.
Proof. apply chars_inj. by rewrite chars_app, !chars_implode. Qed.

Lemma length_chars s : length (chars s) = String.length s.
Proof. induction s as [|c s IH]; [done|]. unfold chars in *. simpl. by f_equal. Qed.

Lemma len_chars s : len s = Z.of_nat (length (chars s)).
Proof. unfold len. by rewrite length_chars. Qed.

Lemma len_implode l : len (implode l) = Z.of_nat (length l).
Proof. by rewrite len_chars, chars_implode. Qed.

Lemma len_app s1 s2 : len (s1 +:+ s2) = len s1 + len s2.
Proof. rewrite !len_chars, chars_app, length_app. lia. Qed.

Lemma code_range a : 0 <= code a < 256.
Proof. unfold code. pose proof (N_ascii_bounded a). lia. Qed.

Lemma code_inj a b : code a = code b → a = b.
Proof.
  unfold code. intros H. rewrite <-(ascii_N_embedding a), <-(ascii_N_embedding b).
  f_equal. lia.
Qed.

Lemma code_chr z : 0 <= z < 256 → code (chr z) = z.
Proof.
  intros Hz. unfold code, chr, u8. rewrite Z.mod_small by (simpl; lia).
  rewrite N_ascii_embedding by lia. lia.
Qed.

Lemma chr_code a : chr (code a) = a.
Proof. apply code_inj, code_chr, code_range. Qed.

(** ** Lemmas: decimal numbers *)

Lemma of_digits_foldl a l : foldl (λ a d, 10 * a + d) a l = a * 10 ^ Z.of_nat (length l) + of_digits l.
Proof.
  unfold of_digits. revert a. induction l as [|d l IH]; intros a; simpl foldl; [simpl; lia|].
  rewrite (IH (10 * a + d)), (IH (10 * 0 + d)).
  replace (Z.of_nat (length (d :: l))) with (Z.succ (Z.of_nat (length l))) by (simpl; lia).
  rewrite Z.pow_succ_r by lia. ring_simplify. lia.
Qed.

Lemma of_digits_cons d l : of_digits (d :: l) = d * 10 ^ Z.of_nat (length l) + of_digits l.
Proof. unfold of_digits at 1. simpl. rewrite of_digits_foldl. lia. Qed.

Lemma of_digits_snoc l d : of_digits (l ++ [d]) = 10 * of_digits l + d.
Proof. unfold of_digits. by rewrite foldl_app. Qed.

Definition is_dec (d : Z) : Prop := 0 <= d <= 9.

Lemma of_digits_bound l : Forall is_dec l → 0 <= of_digits l < 10 ^ Z.of_nat (length l).
Proof.
  induction 1 as [|d l Hd Hl IH]; [done|].
  rewrite of_digits_cons. simpl length. rewrite Nat2Z.inj_succ, Z.pow_succ_r by lia.
  unfold is_dec in Hd. nia.
Qed.

Lemma of_digits_pos d l : 1 <= d → Forall is_dec l → 0 < of_digits (d :: l).
Proof.
  intros Hd Hl. pose proof (of_digits_bound l Hl). rewrite of_digits_cons.
  pose proof (Z.pow_pos_nonneg 10 (Z.of_nat (length l)) ltac:(lia) ltac:(lia)). nia.
Qed.

Lemma digits_aux_spec fuel n acc :
  0 <= n → n < 2 ^ Z.of_nat fuel →
  of_digits (digits_aux fuel n acc) = foldl (λ a d, 10 * a + d) n acc.
Proof.
  revert n acc. induction fuel as [|f IH]; intros n acc H0 Hn; simpl.
  - change (2 ^ Z.of_nat 0) with 1 in Hn. by replace n with 0 by lia.
  - destruct (n <=? 0) eqn:E; [apply Z.leb_le in E; by replace n with 0 by lia|].
    apply Z.leb_gt in E. rewrite Nat2Z.inj_succ, Z.pow_succ_r in Hn by lia.
    rewrite IH; [|apply Z.div_pos; lia|apply Z.div_lt_upper_bound; lia].
    simpl. f_equal. pose proof (Z.div_mod n 10). lia.
Qed.

Lemma log2_fuel n : 0 < n → n < 2 ^ Z.of_nat (S (Z.to_nat (Z.log2 n))).
Proof.
  intros Hn. rewrite Nat2Z.inj_succ, Z2Nat.id by apply Z.log2_nonneg.
  by apply Z.log2_spec.
Qed.

Lemma of_digits_digits n : 0 <= n → of_digits (digits n) = n.
Proof.
  intros Hn. unfold digits. destruct (n =? 0) eqn:E.
  - apply Z.eqb_eq in E. by subst.
  - apply Z.eqb_neq in E. rewrite digits_aux_spec; [done|lia|apply log2_fuel; lia].
Qed.

Lemma digits_aux_dec fuel n acc : Forall is_dec acc → Forall is_dec (digits_aux fuel n acc).
Proof.
  revert n acc. induction fuel as [|f IH]; intros n acc H; simpl; [done|].
  case_match; [done|]. apply IH. constructor; [|done].
  unfold is_dec. pose proof (Z.mod_pos_bound n 10). lia.
Qed.

Lemma digits_dec n : Forall is_dec (digits n).
Proof.
  unfold digits. case_match; [|by apply digits_aux_dec].
  repeat constructor; unfold is_dec; lia.
Qed.

(** Digit strings without a leading zero are reproduced exactly. *)
Lemma digits_aux_of_digits d l : 1 <= d → is_dec d → Forall is_dec l →
  ∀ fuel acc, of_digits (d :: l) < 2 ^ Z.of_nat fuel →
  digits_aux fuel (of_digits (d :: l)) acc = (d :: l) ++ acc.
Proof.
  intros Hd1 Hd. unfold is_dec in Hd. induction l as [|e l IH] using rev_ind; intros Hl fuel acc Hf.
  - replace (of_digits [d]) with d in * by (unfold of_digits; simpl foldl; lia).
    destruct fuel as [|f]; [change (2 ^ Z.of_nat 0) with 1 in Hf; lia|]. simpl digits_aux.
    destruct (d <=? 0) eqn:E; [apply Z.leb_le in E; lia|].
    rewrite Z.mod_small, Z.div_small by lia. by destruct f.
  - apply Forall_app in Hl as [Hl [He _]%Forall_cons]. unfold is_dec in He.
    pose proof (of_digits_pos d l Hd1 Hl) as Hpos.
    assert (Hsn : of_digits (d :: l ++ [e]) = 10 * of_digits (d :: l) + e)
      by exact (of_digits_snoc (d :: l) e).
    rewrite Hsn in *. clear Hsn.
    destruct fuel as [|f]; [change (2 ^ Z.of_nat 0) with 1 in Hf; lia|]. simpl digits_aux.
    destruct (_ <=? 0) eqn:E; [apply Z.leb_le in E; lia|].
    rewrite Nat2Z.inj_succ, Z.pow_succ_r in Hf by lia.
    replace ((10 * of_digits (d :: l) + e) / 10) with (of_digits (d :: l))
      by (apply Z.div_unique with e; lia).
    replace ((10 * of_digits (d :: l) + e) mod 10) with e
      by (apply Z.mod_unique with (of_digits (d :: l)); lia).
    rewrite IH by (done || lia). by rewrite app_comm_cons, <-app_assoc.
Qed.

Lemma digits_of_digits d l : 1 <= d → is_dec d → Forall is_dec l →
  digits (of_digits (d :: l)) = d :: l.
Proof.
  intros Hd1 Hd Hl. pose proof (of_digits_pos d l Hd1 Hl) as Hpos.
  unfold digits. destruct (_ =? 0) eqn:E; [apply Z.eqb_eq in E; lia|].
  rewrite digits_aux_of_digits by (done || by apply log2_fuel). by rewrite app_nil_r.
Qed.

Lemma digits_aux_head fuel n acc : 0 < n → n < 2 ^ Z.of_nat fuel →
  ∃ d l, digits_aux fuel n acc = d :: l ++ acc ∧ 1 <= d.
Proof.
  revert n acc. induction fuel as [|f IH]; intros n acc H0 Hn.
  - change (2 ^ Z.of_nat 0) with 1 in Hn. lia.
  - simpl. destruct (n <=? 0) eqn:E; [apply Z.leb_le in E; lia|]. clear E.
    rewrite Nat2Z.inj_succ, Z.pow_succ_r in Hn by lia.
    pose proof (Z.div_mod n 10 ltac:(lia)). pose proof (Z.mod_pos_bound n 10 ltac:(lia)).
    destruct (decide (n / 10 = 0)) as [Hz|Hz].
    + rewrite Hz. exists (n mod 10), []. split; [|lia]. destruct f; reflexivity.
    + pose proof (Z.div_pos n 10). destruct (IH (n / 10) (n mod 10 :: acc)) as (d & l & -> & Hd);
        [lia|apply Z.div_lt_upper_bound; lia|].
      exists d, (l ++ [n mod 10]). by rewrite <-app_assoc.
Qed.

(** A positive number prints without a leading zero. *)
Lemma digits_head n : 0 < n → ∃ d l, digits n = d :: l ∧ 1 <= d.
Proof.
  intros Hn. unfold digits. destruct (n =? 0) eqn:E; [apply Z.eqb_eq in E; lia|].
  destruct (digits_aux_head (S (Z.to_nat (Z.log2 n))) n [] Hn (log2_fuel n Hn)) as (d & l & -> & Hd).
  exists d, (l ++ []). done.
Qed.

Lemma digits_nonempty n : 0 <= n → digits n ≠ [].
Proof.
  intros Hn. destruct (decide (n = 0)) as [->|Hz]; [done|].
  destruct (digits_head n) as (d & l & -> & _); [lia|done].
Qed.

Lemma digits_length n k : 0 <= n < 10 ^ Z.of_nat k → (1 ≤ k)%nat → (length (digits n) ≤ k)%nat.
Proof.
  intros [H0 Hn] Hk. destruct (decide (n = 0)) as [->|Hz]; [done|].
  destruct (digits_head n) as (d & l & Hd & Hd1); [lia|].
  pose proof (digits_dec n) as Hdec. pose proof (of_digits_digits n H0) as Hof.
  rewrite Hd in *. apply Forall_cons in Hdec as [_ Hl].
  rewrite of_digits_cons in Hof. pose proof (of_digits_bound l Hl).
  destruct (decide (length (d :: l) ≤ k)%nat) as [|Hgt]; [done|]. exfalso. simpl in Hgt.
  assert (10 ^ Z.of_nat k <= 10 ^ Z.of_nat (length l)) by (apply Z.pow_le_mono_r; lia).
  nia.
Qed.

Lemma char_digit_char d : is_dec d → char_digit (digit_char d) = d.
Proof. unfold is_dec, char_digit, digit_char. intros. rewrite code_chr; lia. Qed.

Lemma digit_char_char c : digit_char (char_digit c) = c.
Proof.
  unfold digit_char, char_digit. replace (48 + (code c - 48)) with (code c) by lia. apply chr_code.
Qed.

Lemma is_digit_code c : is_digit c = true ↔ 48 <= code c <= 57.
Proof.
  unfold is_digit, between. rewrite andb_true_iff, !Z.leb_le. done.
Qed.

Lemma is_digit_char d : is_dec d → is_digit (digit_char d) = true.
Proof. unfold is_dec. intros. apply is_digit_code. unfold digit_char. rewrite code_chr; lia. Qed.

Lemma map_char_digit l : Forall is_dec l → map char_digit (map digit_char l) = l.
Proof. induction 1; simpl; f_equal; auto using char_digit_char. Qed.

Lemma map_digit_char l : map digit_char (map char_digit l) = l.
Proof. induction l; simpl; f_equal; auto using digit_char_char. Qed.

Lemma is_digit_dec l : forallb is_digit l = true → Forall is_dec (map char_digit l).
Proof.
  rewrite forallb_Forall. induction 1 as [|c l Hc Hl IH]; simpl; constructor; [|done].
  apply is_digit_code in Hc. unfold is_dec, char_digit. lia.
Qed.

Lemma format_uint_digits n : forallb is_digit (chars (format_uint n)) = true.
Proof.
  unfold format_uint. rewrite chars_implode, forallb_Forall.
  pose proof (digits_dec n) as H. induction H; simpl; constructor; auto using is_digit_char.
Qed.

(** Printing then parsing is the identity. *)
Lemma parse_format_uint bits n :
  0 <= n < 2 ^ bits → parse_uint bits (format_uint n) = Some n.
Proof.
  intros [H0 Hn]. pose proof (format_uint_digits n) as Hd.
  unfold parse_uint, format_uint in *. rewrite chars_implode in *.
  destruct (map digit_char (digits n)) as [|c l] eqn:Em.
  - apply map_eq_nil in Em. by destruct (digits_nonempty n).
  - rewrite Hd, <-Em, map_char_digit, of_digits_digits by (done || apply digits_dec).
    by destruct (Z.ltb_spec n (2 ^ bits)); [|lia].
Qed.

Lemma format_uint_inj n m : 0 <= n → 0 <= m → format_uint n = format_uint m → n = m.
Proof.
  unfold format_uint. intros Hn Hm H%implode_inj.
  apply (f_equal (map char_digit)) in H. rewrite !map_char_digit in H by apply digits_dec.
  by rewrite <-(of_digits_digits n), H, of_digits_digits.
Qed.

(** Parsing a digit string without a leading zero then printing restores it. *)
Lemma format_parse_uint bits c l n :
  code c ≠ 48 → parse_uint bits (implode (c :: l)) = Some n → format_uint n = implode (c :: l).
Proof.
  intros Hc. unfold parse_uint. rewrite chars_implode.
  destruct (forallb is_digit (c :: l)) eqn:Hd; [|done].
  case_match; [|done]. intros [= <-]. unfold format_uint. f_equal.
  pose proof (is_digit_dec _ Hd) as Hdec. simpl in Hdec. apply Forall_cons in Hdec as [Hcd Hl].
  simpl map. rewrite digits_of_digits; [|unfold is_dec, char_digit in *; lia|done|done].
  change (char_digit c :: map char_digit l) with (map char_digit (c :: l)).
  apply map_digit_char.
Qed.

Lemma format_uint_length n k : 0 <= n < 10 ^ Z.of_nat k → (1 ≤ k)%nat →
  (length (chars (format_uint n)) ≤ k)%nat.
Proof.
  intros. unfold format_uint. rewrite chars_implode, length_map. by apply digits_length.
Qed.

(** ** Lemmas: JSON strings *)

Lemma json_ascii_plain c : json_plain c = true → json_ascii c = [c].
Proof.
  unfold json_plain, json_ascii. intros H. bsplit.
  repeat (case_match; breflect; destruct_or?; try lia; try done).
Qed.

Lemma utf8_decode_ascii a l : code a < 128 → utf8_decode (a :: l) = Some (code a, 1%nat).
Proof. intros H. unfold utf8_decode. by rewrite (proj2 (Z.ltb_lt _ _)). Qed.

Lemma json_escape_plain l : ∀ fuel, (length l ≤ fuel)%nat →
  forallb json_plain l = true → json_escape fuel l = l.
Proof.
  induction l as [|c l IH]; intros [|fuel] Hf Hp; simpl in *; try done; try lia.
  apply andb_true_iff in Hp as [Hc Hp].
  assert (code c < 128) by (unfold json_plain in Hc; bsplit; lia).
  rewrite utf8_decode_ascii by done. rewrite json_ascii_plain, IH by (done || lia). done.
Qed.

(** A string of plain bytes is encoded as itself between quotes. *)
Lemma json_string_plain s : forallb json_plain (chars s) = true →
  chars (json_string s) = dq :: chars s ++ [dq].
Proof.
  intros H. unfold json_string. rewrite chars_implode. by rewrite json_escape_plain.
Qed.

(** Quoted plain strings can be read back from the front of a byte sequence. *)
Lemma quoted_inj (s1 s2 r1 r2 : list ascii) :
  Forall (λ c, c ≠ dq) s1 → Forall (λ c, c ≠ dq) s2 →
  s1 ++ dq :: r1 = s2 ++ dq :: r2 → s1 = s2 ∧ r1 = r2.
Proof.
  intros H1. revert s2. induction H1 as [|c s1 Hc H1 IH]; intros s2 H2 Heq.
  - destruct s2 as [|c2 s2]; simplify_eq/=; [done|]. by apply Forall_cons in H2 as [? _].
  - destruct s2 as [|c2 s2]; simplify_eq/=.
    apply Forall_cons in H2 as [Hc2 H2]. destruct (IH s2 H2) as [-> ->]; done.
Qed.

Lemma json_plain_not_dq l : forallb json_plain l = true → Forall (λ c, c ≠ dq) l.
Proof.
  rewrite forallb_Forall. intros H. eapply Forall_impl; [exact H|]. by intros c Hc ->.
Qed.

Lemma json_string_inj s1 s2 r1 r2 :
  forallb json_plain (chars s1) = true → forallb json_plain (chars s2) = true →
  chars (json_string s1) ++ r1 = chars (json_string s2) ++ r2 → s1 = s2 ∧ r1 = r2.
Proof.
  intros H1 H2. rewrite !json_string_plain by done. simpl. rewrite <-!app_assoc. intros [= Heq].
  apply quoted_inj in Heq as [Hs ->]; auto using json_plain_not_dq.
  split; [by apply chars_inj|done].
Qed.

(** ** Lemmas: reading canonical objects from the front

    Two canonical encodings with the same bytes agree field by field: literal
    keys cancel, quoted strings end at the next quote, numbers at the next
    non-digit. *)

(** The rest of the input does not continue a run of the class [p]. *)
Definition stops (p : ascii → bool) (k : list ascii) : Prop :=
  match k with c :: _ => p c = false | [] => True end.

Lemma span_inj (p : ascii → bool) (l1 l2 k1 k2 : list ascii) :
  forallb p l1 = true → forallb p l2 = true → stops p k1 → stops p k2 →
  l1 ++ k1 = l2 ++ k2 → l1 = l2 ∧ k1 = k2.
Proof.
  revert l2. induction l1 as [|a l1 IH]; intros [|b l2] H1 H2 Hk1 Hk2 Heq;
    simpl in *; bsplit; [done| | |]; simplify_eq/=; [congruence..|].
  destruct (IH l2) as [-> ->]; auto.
Qed.

Lemma number_inj n m k1 k2 : 0 <= n → 0 <= m → stops is_digit k1 → stops is_digit k2 →
  chars (format_uint n) ++ k1 = chars (format_uint m) ++ k2 → n = m ∧ k1 = k2.
Proof.
  intros Hn Hm H1 H2 H.
  apply (span_inj is_digit) in H as [Hf Hr]; auto using format_uint_digits.
  split; [|done]. by apply format_uint_inj, chars_inj.
Qed.

(** Peel one field: cancel a literal, or read a quoted string whose two plain
    sides the [plain] tactic proves. *)
Ltac peel_string H plain :=
  let E := fresh "Hfield" in
  apply json_string_inj in H as [E H]; [|solve [plain]..].

Ltac peel_number H :=
  let E := fresh "Hfield" in
  apply number_inj in H as [E H]; [|lia|lia|reflexivity|reflexivity].

Ltac peel_literal H := apply app_inv_head in H.
