(* ===== verification/Regex.v ===== *)
(** * The anchored regular expressions of the program ([regexp])

    Every pattern SentinelFlow compiles is [^...$] over a sequence of literals
    and bounded repetitions of byte classes.  A pattern is such a sequence;
    [find_submatch] is the leftmost-greedy matcher, returning the text matched
    by each item (the submatches are concatenations of them), proved sound and
    complete for the declarative [pieces] relation; on patterns whose
    repetitions are delimited ([delimited]) the decomposition is unique. *)

From S2P Require Import Prelude GoStrings.

Inductive item :=
| Lit (s : list ascii)
| Rep (lo extra : nat) (p : ascii → bool).

Abbreviation pattern := (list item).

(** A literal given as a Rocq string, [p{n}] and [p{lo,hi}]. *)
Definition lit (s : string) : item := Lit (chars s).
Definition exactly (n : nat) (p : ascii → bool) : item := Rep n 0 p.
Definition rep (lo hi : nat) (p : ascii → bool) : item := Rep lo (hi - lo) p.

(** The text [s] is an instance of an item. *)
Definition item_ok (i : item) (s : list ascii) : Prop :=
  match i with
  | Lit t => s = t
  | Rep lo extra p => (lo ≤ length s ≤ lo + extra)%nat ∧ forallb p s = true
  end.

(** [ps] is a decomposition of [l] along the pattern. *)
Definition pieces (pt : pattern) (l : list ascii) (ps : list (list ascii)) : Prop :=
  Forall2 item_ok pt ps ∧ concat ps = l.

Fixpoint strip (s l : list ascii) : option (list ascii) :=
  match s, l with
  | [], _ => Some l
  | c :: s, d :: l => if decide (c = d) then strip s l else None
  | _, _ => None
  end.

Section Upto.
Context (p : ascii → bool) (k : list ascii → option (list (list ascii))).

(** Up to [n] more bytes of the class, longest first. *)
Fixpoint upto (n : nat) (l : list ascii) : option (list (list ascii)) :=
  let stop := (λ r, [] :: r) <$> k l in
  match n, l with
  | S n, c :: l' =>
      if p c then
        match upto n l' with
        | Some (s :: r) => Some ((c :: s) :: r)
        | _ => stop
        end
      else stop
  | _, _ => stop
  end.

(** Exactly [m] bytes of the class, then up to [n] more. *)
Fixpoint atleast (m n : nat) (l : list ascii) : option (list (list ascii)) :=
  match m with
  | O => upto n l
  | S m =>
      match l with
      | c :: l' =>
          if p c then
            match atleast m n l' with
            | Some (s :: r) => Some ((c :: s) :: r)
            | _ => None
            end
          else None
      | [] => None
      end
  end.
End Upto.

Fixpoint find_submatch (pt : pattern) (l : list ascii) : option (list (list ascii)) :=
  match pt with
  | [] => match l with [] => Some [] | _ => None end
  | Lit s :: pt => l' ← strip s l; r ← find_submatch pt l'; Some (s :: r)
  | Rep lo extra p :: pt => atleast p (find_submatch pt) lo extra l
  end.

(** [pattern.MatchString(s)] *)
Definition match_string (pt : pattern) (s : string) : bool :=
  bool_decide (is_Some (find_submatch pt (chars s))).

Global Arguments find_submatch : simpl never.

(** ** Soundness and completeness *)

Lemma strip_spec s l l' : strip s l = Some l' ↔ l = s ++ l'.
Proof.
  revert l. induction s as [|c s IH]; intros l; simpl; [naive_solver|].
  destruct l as [|d l]; [naive_solver|].
  case_decide; subst; [rewrite IH|]; naive_solver.
Qed.

Section UptoSpec.
Context (pt : pattern) (p : ascii → bool).
Context (k : list ascii → option (list (list ascii))).
Hypothesis Ksound : ∀ l ps, k l = Some ps → pieces pt l ps.
Hypothesis Kcomplete : ∀ l ps, pieces pt l ps → is_Some (k l).

Lemma upto_sound n l ps : upto p k n l = Some ps →
  ∃ s r, ps = s :: r ∧ (length s ≤ n)%nat ∧ forallb p s = true ∧
         ∃ l', l = s ++ l' ∧ pieces pt l' r.
Proof.
  assert (Hstop : ∀ n l, (λ r, [] :: r) <$> k l = Some ps →
    ∃ s r, ps = s :: r ∧ (length s ≤ n)%nat ∧ forallb p s = true ∧
           ∃ l', l = s ++ l' ∧ pieces pt l' r).
  { intros n' l' Hs. destruct (k l') as [r|] eqn:E; simplify_eq/=.
    exists [], r. split_and!; [done|simpl; lia|done|eauto]. }
  revert l ps Hstop. induction n as [|n IH]; intros l ps Hstop H; [by apply Hstop|].
  destruct l as [|c l]; simpl in H; [by apply Hstop|].
  destruct (p c) eqn:Hp; [|by apply Hstop].
  destruct (upto p k n l) as [[|s r]|] eqn:E; [by apply Hstop| |by apply Hstop].
  simplify_eq. apply IH in E as (s' & r' & ? & Hl & Hf & l' & -> & Hp'); simplify_eq.
  - exists (c :: s'), r'. split_and!; [done|simpl; lia|simpl; by rewrite Hp|eauto].
  - intros n' l' Hs. destruct (k l') as [r'|] eqn:E'; simplify_eq/=.
    exists [], r. split_and!; [done|simpl; lia|done|eauto].
Qed.

Lemma upto_complete n s l r : (length s ≤ n)%nat → forallb p s = true → pieces pt l r →
  ∃ s' r', upto p k n (s ++ l) = Some (s' :: r').
Proof.
  assert (Hstop : ∀ l r, pieces pt l r → ∃ s' r', (λ r, [] :: r) <$> k l = Some (s' :: r')).
  { intros l' r' Hp. destruct (Kcomplete _ _ Hp) as [q ->]. by eexists _, _. }
  revert s. induction n as [|n IH]; intros [|c s] Hn Hf Hp; simpl in *; try lia; eauto.
  - destruct l as [|c l]; eauto. destruct (p c); eauto.
    destruct (upto p k n l) as [[|s r']|]; eauto.
  - apply andb_true_iff in Hf as [-> Hf].
    destruct (IH s) as (s' & r' & ->); [lia|done..|]. eauto.
Qed.

Lemma atleast_sound m n l ps : atleast p k m n l = Some ps →
  ∃ s r, ps = s :: r ∧ (m ≤ length s ≤ m + n)%nat ∧ forallb p s = true ∧
         ∃ l', l = s ++ l' ∧ pieces pt l' r.
Proof.
  revert l ps. induction m as [|m IH]; intros l ps; simpl.
  - intros (s & r & -> & Hn & H)%upto_sound. exists s, r. split_and!; [done|lia..|naive_solver|naive_solver].
  - destruct l as [|c l]; [done|]. destruct (p c) eqn:Hp; [|done].
    destruct (atleast p k m n l) as [[|s r]|] eqn:E; intros; simplify_eq.
    apply IH in E as (s' & r' & ? & Hl & Hf & l' & -> & Hp'); simplify_eq.
    exists (c :: s'), r'. split_and!; [done|simpl; lia..|simpl; by rewrite Hp|eauto].
Qed.

Lemma atleast_complete m n s l r :
  (m ≤ length s ≤ m + n)%nat → forallb p s = true → pieces pt l r →
  ∃ s' r', atleast p k m n (s ++ l) = Some (s' :: r').
Proof.
  revert s. induction m as [|m IH]; intros s Hn Hf Hp; simpl.
  - eapply upto_complete; [|done..]. lia.
  - destruct s as [|c s]; simpl in *; [lia|].
    apply andb_true_iff in Hf as [-> Hf].
    destruct (IH s) as (s' & r' & ->); [lia|done..|]. eauto.
Qed.
End UptoSpec.

(** The matcher returns a decomposition of the whole text, and finds one
    whenever there is one. *)
Lemma find_submatch_spec pt :
  (∀ l ps, find_submatch pt l = Some ps → pieces pt l ps) ∧
  (∀ l ps, pieces pt l ps → is_Some (find_submatch pt l)).
Proof.
  induction pt as [|[s|lo extra p] pt [IHs IHc]]; unfold find_submatch; fold find_submatch; split.
  - intros [|? ?] ps H; simplify_eq. by split.
  - intros l ps [H <-]. by apply Forall2_nil_inv_l in H as ->.
  - intros l ps H. destruct (strip s l) as [l'|] eqn:E; simplify_eq/=.
    destruct (find_submatch pt l') as [r|] eqn:E'; simplify_eq/=.
    apply strip_spec in E as ->. apply IHs in E' as [H1 H2].
    split; [by constructor|simpl; by f_equal].
  - intros l ps [H <-]. apply Forall2_cons_inv_l in H as (s' & r & Hs & Hr & ->).
    simpl in *. subst. rewrite (proj2 (strip_spec s _ (concat r))) by done. simpl.
    destruct (IHc (concat r) r) as [q ->]; by try split.
  - intros l ps H.
    apply (atleast_sound pt) in H as (s & r & -> & Hl & Hf & l' & -> & [H1 H2]); [|done].
    split; [by constructor|simpl; by f_equal].
  - intros l ps [H <-]. apply Forall2_cons_inv_l in H as (s & r & [Hs Hf] & Hr & ->). simpl.
    edestruct (atleast_complete pt p (find_submatch pt)) as (s' & r' & ->);
      [exact IHc|exact Hs|exact Hf|by split|eauto].
Qed.

Lemma find_submatch_sound pt l ps : find_submatch pt l = Some ps → pieces pt l ps.
Proof. apply find_submatch_spec. Qed.

Lemma find_submatch_complete pt l ps : pieces pt l ps → is_Some (find_submatch pt l).
Proof. apply find_submatch_spec. Qed.

Lemma match_string_spec pt s : match_string pt s = true ↔ ∃ ps, pieces pt (chars s) ps.
Proof.
  unfold match_string. rewrite bool_decide_eq_true. split.
  - intros [ps H]. eauto using find_submatch_sound.
  - intros [ps H]. eauto using find_submatch_complete.
Qed.

(** ** Unique decomposition *)

(** Every variable-length repetition is followed by the end of the text or by
    an item that starts with a byte outside its class. *)
Definition starts_outside (p : ascii → bool) (pt : pattern) : Prop :=
  match pt with
  | [] => True
  | Lit (c :: _) :: _ => p c = false
  | Rep (S _) _ q :: _ => ∀ c, q c = true → p c = false
  | _ => False
  end.

Fixpoint delimited (pt : pattern) : Prop :=
  match pt with
  | [] => True
  | Lit _ :: pt => delimited pt
  | Rep lo extra p :: pt => (extra = 0%nat ∨ starts_outside p pt) ∧ delimited pt
  end.

Lemma starts_outside_first p pt c l ps :
  starts_outside p pt → pieces pt (c :: l) ps → p c = false.
Proof.
  intros Hout [H Hc]. destruct pt as [|i pt].
  - by apply Forall2_nil_inv_l in H as ->.
  - apply Forall2_cons_inv_l in H as (s & r & Hi & _ & ->).
    destruct i as [[|d s']|[|lo] extra q]; simpl in *; try done.
    + subst s. simpl in Hc. by simplify_eq.
    + destruct Hi as [Hl Hf]. destruct s as [|d s]; simpl in *; [lia|].
      apply andb_true_iff in Hf as [Hq _]. simplify_eq. by apply Hout.
Qed.

Lemma app_prefix_cases {A} (a b r t : list A) :
  a ++ r = b ++ t → (∃ d, a = b ++ d ∧ t = d ++ r) ∨ (∃ d, b = a ++ d ∧ r = d ++ t).
Proof.
  revert b. induction a as [|x a IH]; intros [|y b] H; simplify_eq/=; eauto.
  destruct (IH b) as [(d & -> & ->)|(d & -> & ->)]; eauto.
Qed.

Lemma pieces_unique pt l ps qs :
  delimited pt → pieces pt l ps → pieces pt l qs → ps = qs.
Proof.
  revert l ps qs. induction pt as [|i pt IH]; intros l ps qs Hd [Hp Hpl] [Hq Hql].
  { apply Forall2_nil_inv_l in Hp as ->. by apply Forall2_nil_inv_l in Hq as ->. }
  apply Forall2_cons_inv_l in Hp as (s & r & Hs & Hr & ->).
  apply Forall2_cons_inv_l in Hq as (t & u & Ht & Hu & ->).
  simpl in *. assert (Heq : s ++ concat r = t ++ concat u) by congruence.
  assert (delimited pt) by (destruct i; simpl in Hd; tauto).
  enough (Hst : s = t).
  { subst t. apply app_inv_head in Heq. f_equal. apply (IH (concat r)); [done|by split|].
    split; [done|by symmetry]. }
  destruct i as [v|lo extra p]; simpl in *; [congruence|].
  destruct Hd as [Hd _], Hs as [Hsl Hsf], Ht as [Htl Htf].
  destruct (app_prefix_cases s t (concat r) (concat u) Heq) as [(d & -> & Hcu)|(d & -> & Hcr)];
    (destruct d as [|c d]; [by rewrite app_nil_r|]).
  - destruct Hd as [->|Hd]; [rewrite length_app in *; simpl in *; lia|].
    rewrite forallb_app in Hsf. simpl in Hsf. bsplit.
    assert (p c = false) by (eapply starts_outside_first; [done|split; [exact Hu|exact Hcu]]).
    congruence.
  - destruct Hd as [->|Hd]; [rewrite length_app in *; simpl in *; lia|].
    rewrite forallb_app in Htf. simpl in Htf. bsplit.
    assert (p c = false) by (eapply starts_outside_first; [done|split; [exact Hr|exact Hcr]]).
    congruence.
Qed.

(** On a delimited pattern the submatches of any known decomposition are the
    ones the matcher returns. *)
Lemma find_submatch_pieces pt l ps :
  delimited pt → pieces pt l ps → find_submatch pt l = Some ps.
Proof.
  intros Hd Hp. destruct (find_submatch_complete pt l ps Hp) as [qs Hq].
  rewrite Hq. f_equal. eapply pieces_unique; eauto using find_submatch_sound.
Qed.

(** ** The patterns shared by several packages *)

(** [^[0-9a-f]{8}-[0-9a-f]{4}-[0-9a-f]{4}-[0-9a-f]{4}-[0-9a-f]{12}$] *)
Definition uuid_pattern : pattern :=
  [exactly 8 is_lower_hex; lit "-"; exactly 4 is_lower_hex; lit "-"; exactly 4 is_lower_hex;
   lit "-"; exactly 4 is_lower_hex; lit "-"; exactly 12 is_lower_hex].

(** [^sha256:[0-9a-f]{64}$] *)
Definition digest_pattern : pattern := [lit "sha256:"; exactly 64 is_lower_hex].

(** [^[a-z][a-z0-9_-]{0,63}$] *)
Definition label_pattern : pattern :=
  [exactly 1 is_lower; rep 0 63 (λ c, is_lower c || is_digit c || bool_decide (c = "_"%char) || bool_decide (c = "-"%char))].

(** [^[a-z][a-z0-9._-]{0,63}$] *)
Definition version_pattern : pattern :=
  [exactly 1 is_lower; rep 0 63 (λ c, is_lower c || is_digit c || bool_decide (c = "."%char)
                                       || bool_decide (c = "_"%char) || bool_decide (c = "-"%char))].

(** The byte class a whole pattern stays in: what makes its instances plain
    JSON strings. *)
Definition item_within (P : ascii → bool) (i : item) : Prop :=
  match i with
  | Lit s => forallb P s = true
  | Rep _ _ p => ∀ c, p c = true → P c = true
  end.

Lemma pieces_within P pt l ps :
  Forall (item_within P) pt → pieces pt l ps → forallb P l = true.
Proof.
  intros Hw [Hp <-]. revert Hw. induction Hp as [|i s pt ps Hi Hp IH]; intros Hw; simpl; [done|].
  apply Forall_cons in Hw as [Hi' Hw]. rewrite forallb_app, IH by done. rewrite andb_true_r.
  destruct i as [t|lo extra p]; simpl in *; [by subst|].
  destruct Hi as [_ Hf]. rewrite forallb_Forall in *. eapply Forall_impl; [exact Hf|]. auto.
Qed.

Lemma match_within P pt s :
  Forall (item_within P) pt → match_string pt s = true → forallb P (chars s) = true.
Proof. intros Hw [ps Hp]%match_string_spec. by eapply pieces_within. Qed.

(** Decide a class inclusion by looking at all 256 bytes. *)
Definition all_bytes : list ascii := ascii_of_N <$> (N.of_nat <$> seq 0 256).

Lemma all_bytes_complete c : c ∈ all_bytes.
Proof.
  unfold all_bytes. apply list_elem_of_fmap. exists (N_of_ascii c).
  split; [by rewrite ascii_N_embedding|].
  apply list_elem_of_fmap. exists (N.to_nat (N_of_ascii c)).
  split; [lia|]. apply elem_of_seq. pose proof (N_ascii_bounded c). lia.
Qed.

Lemma class_incl (p q : ascii → bool) :
  forallb (λ c, implb (p c) (q c)) all_bytes = true → ∀ c, p c = true → q c = true.
Proof.
  rewrite forallb_Forall, Forall_forall. intros H c Hc.
  specialize (H c (all_bytes_complete c)). by rewrite Hc in H.
Qed.

(** Close [Forall (item_within P) pt] and [delimited pt] for concrete
    patterns by evaluation. *)
Ltac solve_within :=
  repeat constructor; simpl; try (apply class_incl; vm_compute; reflexivity); try reflexivity.

Ltac solve_disjoint :=
  match goal with
  | |- ∀ c, ?q c = true → ?p c = false =>
      let H := fresh in
      assert (H : ∀ c, q c = true → negb (p c) = true)
        by (apply class_incl; vm_compute; reflexivity);
      intros c Hc; specialize (H c Hc); by apply negb_true_iff in H
  end.

Ltac solve_delimited :=
  simpl; split_and?; try exact I;
  first [left; reflexivity | right; first [reflexivity | exact I | solve_disjoint]].

(** The longest text a pattern matches. *)
Definition item_max (i : item) : nat :=
  match i with Lit s => length s | Rep lo extra _ => lo + extra end.

Definition pattern_max (pt : pattern) : nat := sum_list (item_max <$> pt).

Lemma match_length pt s : match_string pt s = true → (length (chars s) ≤ pattern_max pt)%nat.
Proof.
  intros [ps [Hp <-]]%match_string_spec. unfold pattern_max. induction Hp as [|i p pt ps Hi Hp IH]; [done|].
  csimpl. rewrite length_app.
  assert (length p ≤ item_max i)%nat by (destruct i; simpl in *; [by subst|destruct Hi; lia]). lia.
Qed.
