(* ===== verification/Sha256.v ===== *)
(** * SHA-256 ([crypto/sha256]) and the program's digests

    Every digest-bound artifact of SentinelFlow carries
    ["sha256:" + hex(sha256(bytes))].  The hash is modelled as the function of
    FIPS 180-4 over byte lists, so that digests of concrete artifacts evaluate;
    no theorem assumes it injective.  The test vectors below include one of the
    repository's own contract vectors. *)

From S2P Require Import Prelude GoStrings Regex.
Local Open Scope Z_scope.

Definition w32 (z : Z) : Z := Z.land z 4294967295.
Definition rotr (n x : Z) : Z := Z.lor (Z.shiftr x n) (w32 (Z.shiftl x (32 - n))).
Definition bsig0 (x : Z) : Z := Z.lxor (Z.lxor (rotr 2 x) (rotr 13 x)) (rotr 22 x).
Definition bsig1 (x : Z) : Z := Z.lxor (Z.lxor (rotr 6 x) (rotr 11 x)) (rotr 25 x).
Definition ssig0 (x : Z) : Z := Z.lxor (Z.lxor (rotr 7 x) (rotr 18 x)) (Z.shiftr x 3).
Definition ssig1 (x : Z) : Z := Z.lxor (Z.lxor (rotr 17 x) (rotr 19 x)) (Z.shiftr x 10).
Definition ch (x y z : Z) : Z := Z.lxor (Z.land x y) (Z.land (Z.lxor x 4294967295) z).
Definition maj (x y z : Z) : Z := Z.lxor (Z.lxor (Z.land x y) (Z.land x z)) (Z.land y z).

Definition round_constants : list Z :=
  [1116352408; 1899447441; 3049323471; 3921009573; 961987163; 1508970993; 2453635748; 2870763221;
   3624381080; 310598401; 607225278; 1426881987; 1925078388; 2162078206; 2614888103; 3248222580;
   3835390401; 4022224774; 264347078; 604807628; 770255983; 1249150122; 1555081692; 1996064986;
   2554220882; 2821834349; 2952996808; 3210313671; 3336571891; 3584528711; 113926993; 338241895;
   666307205; 773529912; 1294757372; 1396182291; 1695183700; 1986661051; 2177026350; 2456956037;
   2730485921; 2820302411; 3259730800; 3345764771; 3516065817; 3600352804; 4094571909; 275423344;
   430227734; 506948616; 659060556; 883997877; 958139571; 1322822218; 1537002063; 1747873779;
   1955562222; 2024104815; 2227730452; 2361852424; 2428436474; 2756734187; 3204031479; 3329325298].

Record hash_state := HashState {
  ha : Z; hb : Z; hc : Z; hd : Z; he : Z; hf : Z; hg : Z; hh : Z
}.

Definition initial_state : hash_state :=
  HashState 1779033703 3144134277 1013904242 2773480762 1359893119 2600822924 528734635 1541459225.

(** Message schedule, most recent word first: [w] holds the 16 last words. *)
Fixpoint schedule (n : nat) (w : list Z) (acc : list Z) : list Z :=
  match n with
  | O => rev acc
  | S n =>
      match w with
      | [w15; w14; w13; w12; w11; w10; w9; w8; w7; w6; w5; w4; w3; w2; w1; w0] =>
          let t := w32 (ssig1 w14 + w9 + ssig0 w1 + w0) in
          schedule n [t; w15; w14; w13; w12; w11; w10; w9; w8; w7; w6; w5; w4; w3; w2; w1] (t :: acc)
      | _ => rev acc
      end
  end.

Definition round (s : hash_state) (kw : Z * Z) : hash_state :=
  let '(k, w) := kw in
  let t1 := w32 (hh s + bsig1 (he s) + ch (he s) (hf s) (hg s) + k + w) in
  let t2 := w32 (bsig0 (ha s) + maj (ha s) (hb s) (hc s)) in
  HashState (w32 (t1 + t2)) (ha s) (hb s) (hc s) (w32 (hd s + t1)) (he s) (hf s) (hg s).

Fixpoint words_of_bytes (n : nat) (l : list Z) : list Z :=
  match n, l with
  | S n, a :: b :: c :: d :: l =>
      (a * 16777216 + b * 65536 + c * 256 + d) :: words_of_bytes n l
  | _, _ => []
  end.

Definition compress (s : hash_state) (block : list Z) : hash_state :=
  let w := words_of_bytes 16 block in
  let ws := w ++ schedule 48 (rev w) [] in
  let t := foldl round s (zip round_constants ws) in
  HashState (w32 (ha s + ha t)) (w32 (hb s + hb t)) (w32 (hc s + hc t)) (w32 (hd s + hd t))
            (w32 (he s + he t)) (w32 (hf s + hf t)) (w32 (hg s + hg t)) (w32 (hh s + hh t)).

Definition be_bytes (n : nat) (z : Z) : list Z :=
  rev ((λ i, Z.shiftr z (8 * Z.of_nat i) mod 256) <$> seq 0 n).

Definition pad (l : list Z) : list Z :=
  let n := Z.of_nat (length l) in
  l ++ 128 :: replicate (Z.to_nat ((55 - n) mod 64)) 0 ++ be_bytes 8 (8 * n).

Fixpoint hash_blocks (fuel : nat) (s : hash_state) (l : list Z) : hash_state :=
  match fuel with
  | O => s
  | S f => match l with
           | [] => s
           | _ => hash_blocks f (compress s (take 64 l)) (drop 64 l)
           end
  end.

(** [sha256.Sum256]; every step consumes a block, so the length is enough
    fuel. *)
Definition sha256 (l : list Z) : list Z :=
  let p := pad l in
  let s := hash_blocks (length p) initial_state p in
  flat_map (be_bytes 4) [ha s; hb s; hc s; hd s; he s; hf s; hg s; hh s].

Definition bytes_of (s : string) : list Z := code <$> chars s.

(** ["sha256:" + hex.EncodeToString(sum[:])], the digest format of every
    package ([policy.Digest], [sha256Digest], [digestBytes], ...). *)
Definition digest (s : string) : string := "sha256:" +:+ hex_of_bytes (sha256 (bytes_of s)).

(** ** The digest is always ["sha256:"] and 64 lower-case hex digits *)

Definition is_byte (z : Z) : Prop := 0 <= z < 256.

Lemma be_bytes_length n z : length (be_bytes n z) = n.
Proof. unfold be_bytes. by rewrite length_rev, length_fmap, length_seq. Qed.

Lemma be_bytes_byte n z : Forall is_byte (be_bytes n z).
Proof.
  unfold be_bytes. apply Forall_rev. apply Forall_fmap. apply Forall_true.
  intros i. unfold is_byte. simpl. apply Z.mod_pos_bound. lia.
Qed.

Lemma sha256_length l : length (sha256 l) = 32%nat.
Proof. unfold sha256. cbn [flat_map]. by rewrite !length_app, !be_bytes_length. Qed.

Lemma sha256_bytes l : Forall is_byte (sha256 l).
Proof.
  unfold sha256. cbn [flat_map]. rewrite !Forall_app.
  split_and!; try apply be_bytes_byte. constructor.
Qed.

Lemma hex_digit_lower d : 0 <= d < 16 → is_lower_hex (hex_digit d) = true.
Proof.
  intros Hd. unfold hex_digit, is_lower_hex, is_digit, between.
  apply orb_true_iff. rewrite !andb_true_iff, !Z.leb_le.
  destruct (d <? 10) eqn:E; breflect; rewrite code_chr by lia; unfold code; simpl; lia.
Qed.

Lemma hex_of_bytes_lower l : Forall is_byte l →
  forallb is_lower_hex (chars (hex_of_bytes l)) = true.
Proof.
  unfold hex_of_bytes. rewrite chars_implode, forallb_Forall.
  induction 1 as [|b l Hb Hl IH]; simpl; [constructor|]. unfold is_byte in Hb.
  repeat constructor; [| |done]; apply hex_digit_lower.
  - split; [apply Z.div_pos|apply Z.div_lt_upper_bound]; lia.
  - apply Z.mod_pos_bound. lia.
Qed.

Lemma hex_of_bytes_length l : length (chars (hex_of_bytes l)) = (2 * length l)%nat.
Proof.
  unfold hex_of_bytes. rewrite chars_implode. induction l as [|b l IH]; simpl; lia.
Qed.

Lemma digest_shape s : ∃ h, digest s = "sha256:" +:+ implode h ∧
  length h = 64%nat ∧ forallb is_lower_hex h = true.
Proof.
  exists (chars (hex_of_bytes (sha256 (bytes_of s)))). unfold digest.
  rewrite implode_chars, hex_of_bytes_length, sha256_length, hex_of_bytes_lower
    by apply sha256_bytes. done.
Qed.

(** Every digest the program computes passes the program's digest patterns. *)
Lemma digest_matches s : match_string digest_pattern (digest s) = true.
Proof.
  destruct (digest_shape s) as (h & -> & Hl & Hh). apply match_string_spec.
  exists [chars "sha256:"; h]. split.
  - apply Forall2_cons. split; [done|]. apply Forall2_cons. split; [|done].
    split; [lia|done].
  - simpl. by rewrite chars_app, chars_implode, app_nil_r.
Qed.

(** ** Test vectors *)

Example sha256_empty :
  digest "" = "sha256:e3b0c44298fc1c149afbf4c8996fb92427ae41e4649b934ca495991b7852b855".
Proof. vm_compute. reflexivity. Qed.

Example sha256_abc :
  digest "abc" = "sha256:ba7816bf8f01cfea414140de5dae2223b00361a396177a9cb410ff61f20015ad".
Proof. vm_compute. reflexivity. Qed.

Example sha256_two_blocks :
  digest "abcdbcdecdefdefgefghfghighijhijkijkljklmklmnlmnomnopnopq"
  = "sha256:248d6a61d20638b8e5c026930c3e6039a33ce45964ff2167f6ecedd419db06c1".
Proof. vm_compute. reflexivity. Qed.
