(* ===== verification/Json.v ===== *)
(** * JSON documents ([encoding/json])

    What the contract packages use of Go's decoder: the grammar of a document,
    string unquoting, the search for duplicate names that [scanJSON] does with
    [Decoder.Token], and decoding an object into a struct of strings, string
    pointers and unsigned integers with [DisallowUnknownFields].  The file
    proves that a flat object printed by the packages' own writers is read back
    as it was. *)

From S2P Require Import Prelude GoStrings.
Local Open Scope Z_scope.

(** A number is kept as its literal, as [json.Number] does. *)
Inductive json :=
| JNull
| JBool (b : bool)
| JNumber (literal : list ascii)
| JString (s : string)
| JArray (elements : list json)
| JObject (members : list (string * json)).

(** ** Strings *)

Definition hex_value (c : ascii) : option Z :=
  if between "0" "9" c then Some (code c - 48)
  else if between "a" "f" c then Some (code c - 87)
  else if between "A" "F" c then Some (code c - 55)
  else None.

(** [getu4]: the code unit of four hexadecimal digits. *)
Definition hex_quad (a b c d : ascii) : option Z :=
  match hex_value a, hex_value b, hex_value c, hex_value d with
  | Some a, Some b, Some c, Some d => Some (((a * 16 + b) * 16 + c) * 16 + d)
  | _, _, _, _ => None
  end.

(** [utf8.AppendRune]; only scalar values are passed. *)
Definition utf8_encode (r : Z) : list ascii :=
  if r <? 128 then [chr r]
  else if r <? 2048 then [chr (192 + r / 64); chr (128 + r mod 64)]
  else if r <? 65536 then [chr (224 + r / 4096); chr (128 + r / 64 mod 64); chr (128 + r mod 64)]
  else [chr (240 + r / 262144); chr (128 + r / 4096 mod 64); chr (128 + r / 64 mod 64); chr (128 + r mod 64)].

Definition replacement : list ascii := utf8_encode 65533.

Definition is_surrogate (r : Z) : bool := (55296 <=? r) && (r <? 57344).

(** [utf16.DecodeRune] of two code units. *)
Definition surrogate_pair (hi lo : Z) : option Z :=
  if (55296 <=? hi) && (hi <? 56320) && (56320 <=? lo) && (lo <? 57344)
  then Some ((hi - 55296) * 1024 + (lo - 56320) + 65536)
  else None.

(** The byte a two-character escape stands for. *)
Definition simple_escape (c : ascii) : option ascii :=
  match List.find (λ p, bool_decide (p.1 = c))
    [(dq, dq); ("\", "\"); ("/", "/"); ("b", "008"); ("f", "012"); ("n", "010"); ("r", "013"); ("t", "009")]%char with
  | Some p => Some p.2
  | None => None
  end.

(** The content of a string up to its closing quote, unquoted, and the rest.
    Every call consumes a byte, so the length of the input is enough fuel. *)
Fixpoint parse_string (fuel : nat) (l : list ascii) : option (list ascii * list ascii) :=
  match fuel, l with
  | S f, c :: l1 =>
      if bool_decide (c = dq) then Some ([], l1)
      else if code c <? 32 then None
      else if bool_decide (c = "\"%char) then
        match l1 with
        | e :: l2 =>
            match simple_escape e with
            | Some b => '(s, r) ← parse_string f l2; Some (b :: s, r)
            | None =>
                if negb (bool_decide (e = "u"%char)) then None
                else
                  match l2 with
                  | a :: b :: c :: d :: l3 =>
                      unit ← hex_quad a b c d;
                      if is_surrogate unit then
                        match l3 with
                        | k :: u :: a' :: b' :: c' :: d' :: l4 =>
                            let low := if bool_decide (k = "\"%char) && bool_decide (u = "u"%char)
                                       then hex_quad a' b' c' d' else None in
                            match from_option (surrogate_pair unit) None low with
                            | Some rune => '(s, r) ← parse_string f l4; Some (utf8_encode rune ++ s, r)
                            | None => '(s, r) ← parse_string f l3; Some (replacement ++ s, r)
                            end
                        | _ => '(s, r) ← parse_string f l3; Some (replacement ++ s, r)
                        end
                      else '(s, r) ← parse_string f l3; Some (utf8_encode unit ++ s, r)
                  | _ => None
                  end
            end
        | [] => None
        end
      else
        match utf8_decode l with
        | Some (_, n) => '(s, r) ← parse_string f (drop n l); Some (take n l ++ s, r)
        | None => '(s, r) ← parse_string f l1; Some (replacement ++ s, r)
        end
  | _, _ => None
  end.

(** ** Numbers *)

Fixpoint span_digits (l : list ascii) : list ascii * list ascii :=
  match l with
  | c :: l1 => if is_digit c then let '(d, r) := span_digits l1 in (c :: d, r) else ([], l)
  | [] => ([], [])
  end.

(** [.digits], when present: at least one digit. *)
Definition parse_fraction (l : list ascii) : option (list ascii * list ascii) :=
  match l with
  | "."%char :: l1 => match span_digits l1 with ([], _) => None | (d, r) => Some ("."%char :: d, r) end
  | _ => Some ([], l)
  end.

Definition parse_exponent (l : list ascii) : option (list ascii * list ascii) :=
  match l with
  | c :: l1 =>
      if bool_decide (c ∈ ["e"; "E"]%char) then
        let '(sign, l2) := match l1 with
                           | s :: l2 => if bool_decide (s ∈ ["+"; "-"]%char) then ([s], l2) else ([], l1)
                           | [] => ([], [])
                           end in
        match span_digits l2 with ([], _) => None | (d, r) => Some (c :: sign ++ d, r) end
      else Some ([], l)
  | [] => Some ([], l)
  end.

Definition parse_integer (l : list ascii) : option (list ascii * list ascii) :=
  match l with
  | "0"%char :: l1 => Some (["0"%char], l1)
  | _ => match span_digits l with ([], _) => None | dr => Some dr end
  end.

Definition parse_number (l : list ascii) : option (list ascii * list ascii) :=
  let '(sign, l) := match l with "-"%char :: l1 => (["-"%char], l1) | _ => ([], l) end in
  '(i, l) ← parse_integer l;
  '(f, l) ← parse_fraction l;
  '(e, l) ← parse_exponent l;
  Some (sign ++ i ++ f ++ e, l).

(** ** Values *)

Definition is_space (c : ascii) : bool := bool_decide (c ∈ [" "; "009"; "013"; "010"]%char).

Fixpoint skip_space (l : list ascii) : list ascii :=
  match l with
  | c :: l1 => if is_space c then skip_space l1 else l
  | [] => []
  end.

Fixpoint strip_prefix (p l : list ascii) : option (list ascii) :=
  match p, l with
  | [], _ => Some l
  | a :: p, b :: l => if bool_decide (a = b) then strip_prefix p l else None
  | _ :: _, [] => None
  end.

Definition literal (word : string) (v : json) (l : list ascii) : option (json * list ascii) :=
  r ← strip_prefix (chars word) l; Some (v, r).

(** One value after optional space; what follows an opening brace or bracket up
    to the closing one.  [tail] tells that an element has been read, so that a
    comma, not the first element, is due.  Every call consumes a byte. *)
Fixpoint parse_value (fuel : nat) (l : list ascii) : option (json * list ascii) :=
  match fuel with
  | O => None
  | S f =>
      match skip_space l with
      | [] => None
      | c :: l1 =>
          if bool_decide (c = "{"%char) then
            '(ms, r) ← parse_members f false l1; Some (JObject ms, r)
          else if bool_decide (c = "["%char) then
            '(es, r) ← parse_elements f false l1; Some (JArray es, r)
          else if bool_decide (c = dq) then
            '(s, r) ← parse_string f l1; Some (JString (implode s), r)
          else if bool_decide (c = "t"%char) then literal "true" (JBool true) (c :: l1)
          else if bool_decide (c = "f"%char) then literal "false" (JBool false) (c :: l1)
          else if bool_decide (c = "n"%char) then literal "null" JNull (c :: l1)
          else '(n, r) ← parse_number (c :: l1); Some (JNumber n, r)
      end
  end
with parse_members (fuel : nat) (tail : bool) (l : list ascii) : option (list (string * json) * list ascii) :=
  match fuel with
  | O => None
  | S f =>
      match skip_space l with
      | "}"%char :: r => Some ([], r)
      | c :: l1 =>
          let rest := if tail then if bool_decide (c = ","%char) then Some (skip_space l1) else None
                      else Some (c :: l1) in
          match rest with
          | Some (q :: l2) =>
              if bool_decide (q = dq) then
                '(k, l3) ← parse_string f l2;
                match skip_space l3 with
                | ":"%char :: l4 =>
                    '(v, l5) ← parse_value f l4;
                    '(ms, r) ← parse_members f true l5;
                    Some ((implode k, v) :: ms, r)
                | _ => None
                end
              else None
          | _ => None
          end
      | [] => None
      end
  end
with parse_elements (fuel : nat) (tail : bool) (l : list ascii) : option (list json * list ascii) :=
  match fuel with
  | O => None
  | S f =>
      match skip_space l with
      | "]"%char :: r => Some ([], r)
      | c :: l1 =>
          match if tail then if bool_decide (c = ","%char) then Some l1 else None else Some (c :: l1) with
          | Some l2 =>
              '(v, l3) ← parse_value f l2;
              '(es, r) ← parse_elements f true l3;
              Some (v :: es, r)
          | None => None
          end
      | [] => None
      end
  end.

(** [Decode] reads one value and the following [Token] must be [io.EOF]: only
    space may follow.  (The decoder's limit of 10000 nested values is not
    modelled: the structs below have no nested value at all.) *)
Definition parse_document (l : list ascii) : option json :=
  '(v, r) ← parse_value (S (length l)) l;
  match skip_space r with [] => Some v | _ => None end.

(** [scanJSON]: no object of the document names a member twice. *)
Fixpoint unique_names (v : json) : bool :=
  match v with
  | JArray es => forallb unique_names es
  | JObject ms => bool_decide (NoDup (fst <$> ms)) && forallb (λ m, unique_names m.2) ms
  | _ => true
  end.

(** ** Structs *)

(** [foldName]: names match exactly, or else without regard to case; U+212A and
    U+017F are the runes outside ASCII that fold to ASCII letters. *)
Fixpoint fold_name (l : list ascii) : list ascii :=
  match l with
  | "226"%char :: "132"%char :: "170"%char :: l1 => "k"%char :: fold_name l1
  | "197"%char :: "191"%char :: l1 => "s"%char :: fold_name l1
  | c :: l1 => to_lower_ascii c :: fold_name l1
  | [] => []
  end.

(** The Go types of the fields: [string], [*string], [uintN], [*uintN]. *)
Inductive kind := KString | KPointer | KUint (bits : Z) | KUintPointer (bits : Z).

(** A struct type by the JSON names and types of its fields. *)
Definition schema : Type := list (string * kind).

(** A struct value by the assignments made so far, the latest first. *)
Definition slots : Type := list (string * json).

Definition find_field (fields : schema) (name : string) : option (string * kind) :=
  match List.find (λ f, String.eqb f.1 name) fields with
  | Some f => Some f
  | None => List.find (λ f, bool_decide (fold_name (chars f.1) = fold_name (chars name))) fields
  end.

(** Assign one value; [None] is a type mismatch.  [null] leaves a field as it
    is, but makes a pointer [nil]. *)
Definition assign (f : string * kind) (v : json) (w : slots) : option slots :=
  match f.2, v with
  | KString, JString _ | KPointer, JString _ | KPointer, JNull | KUintPointer _, JNull => Some ((f.1, v) :: w)
  | KString, JNull | KUint _, JNull => Some w
  | KUint bits, JNumber n | KUintPointer bits, JNumber n =>
      match parse_uint bits (implode n) with Some _ => Some ((f.1, v) :: w) | None => None end
  | _, _ => None
  end.

Definition decode_member (fields : schema) (w : option slots) (m : string * json) : option slots :=
  w ← w; f ← find_field fields m.1; assign f m.2 w.

(** [Decode] into a zero struct; an unknown name is an error. *)
Definition decode_struct (fields : schema) (v : json) : option slots :=
  match v with
  | JNull => Some []
  | JObject ms => foldl (decode_member fields) (Some []) ms
  | _ => None
  end.

Definition slot (w : slots) (name : string) : option json :=
  snd <$> List.find (λ p, String.eqb p.1 name) w.

Definition get_string (w : slots) (name : string) : string :=
  match slot w name with Some (JString s) => s | _ => "" end.

Definition get_pointer (w : slots) (name : string) : option string :=
  match slot w name with Some (JString s) => Some s | _ => None end.

Definition get_uint_pointer (w : slots) (name : string) : option Z :=
  match slot w name with Some (JNumber n) => parse_uint 64 (implode n) | _ => None end.

Definition get_uint (w : slots) (name : string) : Z := default 0 (get_uint_pointer w name).

(** ** Printing flat objects

    What the hand-written marshalers of the repository, and [json.Marshal] of a
    flat struct, write: members in a fixed order, no space. *)

Definition write_value (v : json) : list ascii :=
  match v with
  | JNull => chars "null"
  | JString s => chars (json_string s)
  | JNumber n => n
  | _ => []
  end.

Fixpoint write_members (tail : bool) (ms : list (string * json)) : list ascii :=
  match ms with
  | [] => []
  | (k, v) :: ms =>
      (if tail then [","%char] else []) ++ chars (json_string k) ++ ":"%char :: write_value v ++ write_members true ms
  end.

Definition write_object (ms : list (string * json)) : list ascii :=
  "{"%char :: write_members false ms ++ ["}"%char].

Definition plain (s : string) : Prop := forallb json_plain (chars s) = true.

Definition flat (m : string * json) : Prop :=
  plain m.1 ∧ match m.2 with
              | JNull => True
              | JString s => plain s
              | JNumber n => ∃ z, 0 <= z ∧ n = chars (format_uint z)
              | _ => False
              end.

(** ** Reading them back *)

Lemma json_plain_code c : json_plain c = true → 32 <= code c < 128 ∧ c ≠ dq ∧ c ≠ "\"%char.
Proof. unfold json_plain. bsplit. intros. bsplit. split_and!; [lia|lia|by intros ->|by intros ->]. Qed.

Lemma parse_string_plain s : forallb json_plain s = true → ∀ fuel r, (length s < fuel)%nat →
  parse_string fuel (s ++ dq :: r) = Some (s, r).
Proof.
  induction s as [|c s IH]; intros Hs fuel r Hf; (destruct fuel as [|f]; [simpl in *; lia|]).
  - done.
  - simpl in Hs. apply andb_true_iff in Hs as [Hc Hs]. destruct (json_plain_code c Hc) as (Hr & Hq & Hb).
    cbn [parse_string app]. rewrite bool_decide_eq_false_2, (proj2 (Z.ltb_ge _ _)) by (done || lia).
    rewrite bool_decide_eq_false_2, utf8_decode_ascii by (done || lia).
    rewrite !(skipn_cons 0), drop_0. rewrite IH by (simpl in *; done || lia). done.
Qed.

Lemma skip_space_stop c l : is_space c = false → skip_space (c :: l) = c :: l.
Proof. intros H. simpl. by rewrite H. Qed.

Lemma span_digits_stop s r : forallb is_digit s = true → stops is_digit r → span_digits (s ++ r) = (s, r).
Proof.
  intros Hs Hr. induction s as [|c s IH]; simpl in *.
  - destruct r as [|c r]; [done|]. simpl in *. by rewrite Hr.
  - apply andb_true_iff in Hs as [-> Hs]. by rewrite IH.
Qed.

(** What may follow a value. *)
Definition ends_value (r : list ascii) : Prop :=
  match r with c :: _ => c = ","%char ∨ c = "}"%char ∨ c = "]"%char | [] => True end.

Lemma format_uint_head z : 0 <= z → ∃ c s, chars (format_uint z) = c :: s ∧ is_digit c = true ∧ (c = "0"%char → s = []).
Proof.
  intros Hz. unfold format_uint. rewrite chars_implode. destruct (decide (z = 0)) as [-> |Hne].
  - exists "0"%char, []. done.
  - destruct (digits_head z) as (d & l & Hd & Hpos); [lia|]. rewrite Hd. exists (digit_char d), (map digit_char l).
    pose proof (digits_dec z) as Hdec. rewrite Hd in Hdec. apply Forall_cons in Hdec as [Hdec _].
    split_and!; [done|by apply is_digit_char|]. intros H0. apply (f_equal char_digit) in H0.
    rewrite char_digit_char in H0 by done. vm_compute in H0. lia.
Qed.

Lemma parse_number_uint z r : 0 <= z → ends_value r →
  parse_number (chars (format_uint z) ++ r) = Some (chars (format_uint z), r).
Proof.
  intros Hz Hr. destruct (format_uint_head z Hz) as (c & s & Hs & Hd & H0).
  pose proof (format_uint_digits z) as Hall.
  assert (stops is_digit r) as Hstop by (destruct r as [|x r]; [done|]; by destruct Hr as [-> | [-> | ->]]).
  assert (parse_fraction r = Some ([], r) ∧ parse_exponent r = Some ([], r)) as [Hf He].
  { destruct r as [|x r]; [done|]. by destruct Hr as [-> | [-> | ->]]. }
  assert (c ≠ "-"%char) as Hm by by intros ->.
  assert (parse_integer (chars (format_uint z) ++ r) = Some (chars (format_uint z), r)) as Hi.
  { destruct (decide (c = "0"%char)) as [-> |Hc].
    - rewrite Hs, (H0 eq_refl). done.
    - pose proof (span_digits_stop _ _ Hall Hstop) as Hsp. rewrite Hs in *. cbn [app] in *.
      unfold parse_integer. rewrite Hsp. destruct c as [[] [] [] [] [] [] [] []]; done. }
  unfold parse_number. rewrite Hs in *. cbn [app] in *.
  assert (match c :: s ++ r with "-"%char :: l1 => (["-"%char], l1) | _ => ([], c :: s ++ r) end
          = ([] : list ascii, c :: s ++ r)) as ->.
  { destruct c as [[] [] [] [] [] [] [] []]; done. }
  unfold mbind, option_bind in *. rewrite Hi, Hf, He. by rewrite !app_nil_r.
Qed.

Lemma write_value_length m : flat m → (0 < length (write_value m.2))%nat.
Proof.
  destruct m as [k [| | n|s| |]]; intros [_ H]; cbn [snd write_value] in *; try done.
  - simpl. lia.
  - destruct H as (z & Hz & ->). destruct (format_uint_head z Hz) as (c & s & -> & _). simpl. lia.
  - rewrite json_string_plain by done. simpl. lia.
Qed.

Lemma parse_value_flat m r fuel : flat m → ends_value r → (length (write_value m.2) < fuel)%nat →
  parse_value fuel (write_value m.2 ++ r) = Some (m.2, r).
Proof.
  destruct m as [k [| | n|s| |]]; intros [_ H] Hr Hf; simpl in H; try done; destruct fuel as [|f]; try (simpl in *; lia).
  - done.
  - destruct H as (z & Hz & ->). cbn [write_value snd] in *. destruct (format_uint_head z Hz) as (c & s & Hs & Hd & _).
    pose proof (parse_number_uint z r Hz Hr) as Hn. rewrite Hs in *. cbn [app] in *.
    assert (is_space c = false) as Hsp by (by destruct c as [[] [] [] [] [] [] [] []]).
    cbn [parse_value]. rewrite (skip_space_stop _ _ Hsp). unfold mbind, option_bind in *. rewrite Hn.
    by destruct c as [[] [] [] [] [] [] [] []].
  - cbn [write_value snd] in *. rewrite json_string_plain in * by done. simpl length in Hf.
    rewrite length_app in Hf. simpl in Hf. cbn [app parse_value]. rewrite (skip_space_stop dq) by done.
    rewrite <-app_assoc. unfold mbind, option_bind.
    rewrite (bool_decide_eq_false_2 (dq = "{"%char)), (bool_decide_eq_false_2 (dq = "["%char)),
      (bool_decide_eq_true_2 (dq = dq)) by done.
    cbn [app]. rewrite parse_string_plain by (done || lia). by rewrite implode_chars.
Qed.

Lemma ends_members ms r : ends_value (write_members true ms ++ "}"%char :: r).
Proof. destruct ms as [|[k v] ms]; simpl; auto. Qed.

Lemma parse_members_flat ms r : Forall flat ms → ∀ tail fuel, (length (write_members tail ms) < fuel)%nat →
  parse_members fuel tail (write_members tail ms ++ "}"%char :: r) = Some (ms, r).
Proof.
  induction 1 as [|[k v] ms Hm Hms IH]; intros tail fuel Hf; destruct fuel as [|f]; try (simpl in *; lia); [done|].
  pose proof (write_value_length _ Hm) as Hv. pose proof Hm as [Hk _]. cbn [fst snd] in *.
  assert (length (chars k) + length (write_value v) + length (write_members true ms) + 2 < f)%nat as Hlen.
  { cbn [write_members] in Hf. rewrite json_string_plain in Hf by done. rewrite !length_app in Hf.
    simpl in Hf. rewrite !length_app in Hf. simpl in Hf. rewrite ?length_app in Hf. destruct tail; simpl in Hf; lia. }
  assert (∀ l, l = chars (json_string k) ++ ":"%char :: write_value v ++ write_members true ms ++ "}"%char :: r →
    match l with
    | q :: l2 => if bool_decide (q = dq) then
        '(k, l3) ← parse_string f l2;
        match skip_space l3 with
        | ":"%char :: l4 => '(v, l5) ← parse_value f l4; '(ms, r) ← parse_members f true l5; Some ((implode k, v) :: ms, r)
        | _ => None end else None
    | _ => None end = Some ((k, v) :: ms, r)) as Hbody.
  { intros l ->. rewrite json_string_plain by done. cbn [app]. rewrite bool_decide_eq_true_2 by done.
    rewrite <-app_assoc. cbn [app]. rewrite parse_string_plain by (done || lia).
    unfold mbind, option_bind in *. rewrite (skip_space_stop ":"%char) by done.
    pose proof (parse_value_flat (k, v) (write_members true ms ++ "}"%char :: r) f Hm (ends_members _ _)) as Hpv.
    cbn [snd] in Hpv. rewrite Hpv by lia.
    rewrite IH by lia. by rewrite implode_chars. }
  cbn [parse_members write_members]. rewrite <-!app_assoc. cbn [app]. rewrite <-app_assoc.
  pose proof (json_string_plain k Hk) as Hq. destruct tail; cbn [app].
  - change (skip_space (","%char :: ?l)) with (","%char :: l). cbn match.
    rewrite (bool_decide_eq_true_2 (","%char = ","%char)) by done.
    rewrite Hq at 1. cbn [app]. rewrite (skip_space_stop dq) by done.
    apply (Hbody (dq :: _)). by rewrite Hq.
  - rewrite Hq. cbn [app]. rewrite (skip_space_stop dq) by done. apply (Hbody (dq :: _)). by rewrite Hq.
Qed.

Lemma parse_write_object ms : Forall flat ms → parse_document (write_object ms) = Some (JObject ms).
Proof.
  intros Hms. unfold parse_document, write_object. cbn [parse_value length].
  rewrite (skip_space_stop "{"%char) by done. rewrite bool_decide_eq_true_2 by done.
  rewrite (parse_members_flat ms [] Hms false); [done|]. rewrite length_app. simpl. lia.
Qed.

(** ** Sizes and bytes of printed objects *)

Definition member_size (m : string * json) : nat := length (chars m.1) + length (write_value m.2) + 4.

Lemma write_members_length ms : Forall flat ms → ∀ tail,
  (length (write_members tail ms) ≤ sum_list (member_size <$> ms))%nat.
Proof.
  induction 1 as [|[k v] ms [Hk _] Hms IH]; intros tail; [done|].
  cbn [write_members fmap list_fmap]. change (sum_list (?x :: ?l)) with (x + sum_list l)%nat.
  specialize (IH true). cbn [fst] in Hk. rewrite json_string_plain by done. unfold member_size at 1. cbn [fst snd].
  destruct tail; repeat (rewrite ?length_app; cbn [length app]); lia.
Qed.

Lemma write_object_length ms : Forall flat ms →
  (length (write_object ms) ≤ 2 + sum_list (member_size <$> ms))%nat.
Proof.
  intros Hms. unfold write_object. cbn [length]. rewrite length_app. cbn [length].
  pose proof (write_members_length ms Hms false). lia.
Qed.

Definition is_ascii (c : ascii) : Prop := code c < 128.

Lemma plain_ascii s : plain s → Forall is_ascii (chars s).
Proof.
  unfold plain. rewrite forallb_Forall. intros H. eapply Forall_impl; [exact H|].
  intros c Hc%json_plain_code. unfold is_ascii. lia.
Qed.

Lemma json_string_ascii s : plain s → Forall is_ascii (chars (json_string s)).
Proof.
  intros Hs. rewrite json_string_plain by done. constructor; [done|]. apply Forall_app.
  split; [by apply plain_ascii|by constructor].
Qed.

Lemma write_value_ascii m : flat m → Forall is_ascii (write_value m.2).
Proof.
  destruct m as [k [| | n|s| |]]; intros [_ H]; cbn [snd write_value] in *; try done.
  - repeat constructor.
  - destruct H as (z & Hz & ->). pose proof (format_uint_digits z) as Hd. rewrite forallb_Forall in Hd.
    eapply Forall_impl; [exact Hd|]. intros c Hc%is_digit_code. unfold is_ascii. lia.
  - by apply json_string_ascii.
Qed.

Lemma write_object_ascii ms : Forall flat ms → Forall is_ascii (write_object ms).
Proof.
  intros Hms. unfold write_object. constructor; [done|]. apply Forall_app. split; [|by constructor].
  generalize false. induction Hms as [|[k v] ms Hm Hms IH]; intros tail; cbn [write_members]; [constructor|].
  pose proof (write_value_ascii _ Hm) as Hv. destruct Hm as [Hk _]. cbn [fst snd] in *.
  apply Forall_app. split; [destruct tail; by repeat constructor|]. apply Forall_app. split; [by apply json_string_ascii|].
  constructor; [done|]. by apply Forall_app.
Qed.

Lemma unique_names_flat ms : Forall flat ms → NoDup (fst <$> ms) → unique_names (JObject ms) = true.
Proof.
  intros Hms Hn. simpl. rewrite bool_decide_eq_true_2 by done. simpl. apply forallb_Forall.
  eapply Forall_impl; [exact Hms|]. intros [k v] [_ Hv]. simpl in *. by destruct v.
Qed.

(** The same text with the closing brace at the end, convenient to compare with
    the marshalers' code. *)
Fixpoint write_end (tail : bool) (ms : list (string * json)) : list ascii :=
  match ms with
  | [] => ["}"%char]
  | (k, v) :: ms =>
      (if tail then [","%char] else []) ++ chars (json_string k) ++ ":"%char :: write_value v ++ write_end true ms
  end.

Lemma write_object_end ms : write_object ms = "{"%char :: write_end false ms.
Proof.
  assert (∀ tail, write_members tail ms ++ ["}"%char] = write_end tail ms) as H; [|unfold write_object; by rewrite H].
  induction ms as [|[k v] ms IH]; intros tail; [done|].
  cbn [write_members write_end]. rewrite <-(IH true), <-!app_assoc. cbn [app]. by rewrite <-!app_assoc.
Qed.

Lemma write_object_nonempty ms : (0 < length (write_object ms))%nat.
Proof. simpl. lia. Qed.
