(* ===== verification/Base64.v ===== *)
(** * Unpadded URL-safe base 64 ([base64.RawURLEncoding])

    Encoding and decoding as [encoding/base64] does it: the decoder skips line
    breaks, and only the strict one refuses non-zero trailing bits.  What is
    encoded decodes to itself under either. *)

From S2P Require Import Prelude GoStrings Sha256.
Local Open Scope Z_scope.

Definition sextet_char (n : Z) : ascii :=
  if n <? 26 then chr (65 + n)
  else if n <? 52 then chr (97 + (n - 26))
  else if n <? 62 then chr (48 + (n - 52))
  else if n =? 62 then "-"%char else "_"%char.

Definition char_sextet (c : ascii) : option Z :=
  if between "A" "Z" c then Some (code c - 65)
  else if between "a" "z" c then Some (code c - 97 + 26)
  else if between "0" "9" c then Some (code c - 48 + 52)
  else if bool_decide (c = "-"%char) then Some 62
  else if bool_decide (c = "_"%char) then Some 63
  else None.

(** [EncodeToString] on bytes. *)
Fixpoint encode64 (l : list Z) : list ascii :=
  match l with
  | a :: b :: c :: l =>
      sextet_char (a / 4) :: sextet_char (a mod 4 * 16 + b / 16)
        :: sextet_char (b mod 16 * 4 + c / 64) :: sextet_char (c mod 64) :: encode64 l
  | [a; b] => [sextet_char (a / 4); sextet_char (a mod 4 * 16 + b / 16); sextet_char (b mod 16 * 4)]
  | [a] => [sextet_char (a / 4); sextet_char (a mod 4 * 16)]
  | [] => []
  end.

(** The bytes of a list of sextets; [strict] demands zero trailing bits. *)
Fixpoint join64 (strict : bool) (l : list Z) : option (list Z) :=
  match l with
  | p :: q :: r :: s :: l =>
      bs ← join64 strict l;
      Some (p * 4 + q / 16 :: q mod 16 * 16 + r / 4 :: r mod 4 * 64 + s :: bs)
  | [p; q; r] =>
      if strict && negb (r mod 4 =? 0) then None else Some [p * 4 + q / 16; q mod 16 * 16 + r / 4]
  | [p; q] => if strict && negb (q mod 16 =? 0) then None else Some [p * 4 + q / 16]
  | [p] => None
  | [] => Some []
  end.

Definition line_break (c : ascii) : bool := bool_decide (c ∈ ["010"; "013"]%char).

(** [DecodeString]; [None] is [CorruptInputError]. *)
Definition decode64 (strict : bool) (l : list ascii) : option (list Z) :=
  sextets ← mapM char_sextet (List.filter (λ c, negb (line_break c)) l);
  join64 strict sextets.

Definition EncodeToString (s : string) : string := implode (encode64 (map code (chars s))).

Definition DecodeString (strict : bool) (s : string) : option string :=
  bytes ← decode64 strict (chars s); Some (implode (map chr bytes)).

(** ** Lemmas *)

(** A fact of all sextets is checked on the 64 of them. *)
Lemma all_sextets (P : Z → bool) : forallb P (Z.of_nat <$> seq 0 64) = true → ∀ n, 0 <= n < 64 → P n = true.
Proof.
  rewrite forallb_forall. intros H n Hn. apply H, list_elem_of_In, list_elem_of_fmap.
  exists (Z.to_nat n). split; [lia|]. apply list_elem_of_In, in_seq. lia.
Qed.

Lemma sextet_round n : 0 <= n < 64 →
  char_sextet (sextet_char n) = Some n ∧ line_break (sextet_char n) = false.
Proof.
  intros Hn. apply (all_sextets (λ n, bool_decide (char_sextet (sextet_char n) = Some n ∧
    line_break (sextet_char n) = false))) in Hn; [|vm_compute; reflexivity]. by apply bool_decide_eq_true in Hn.
Qed.

(** The sextets [encode64] prints. *)
Fixpoint split64 (l : list Z) : list Z :=
  match l with
  | a :: b :: c :: l => a / 4 :: a mod 4 * 16 + b / 16 :: b mod 16 * 4 + c / 64 :: c mod 64 :: split64 l
  | [a; b] => [a / 4; a mod 4 * 16 + b / 16; b mod 16 * 4]
  | [a] => [a / 4; a mod 4 * 16]
  | [] => []
  end.

(** Induction three bytes at a time. *)
Lemma triple_ind (P : list Z → Prop) : P [] → (∀ a, P [a]) → (∀ a b, P [a; b]) →
  (∀ a b c l, P l → P (a :: b :: c :: l)) → ∀ l, P l.
Proof.
  intros H0 H1 H2 H3. fix IH 1. intros [|a [|b [|c l]]]; [done|done|done|]. apply H3, IH.
Qed.

Lemma encode64_split l : encode64 l = sextet_char <$> split64 l.
Proof. induction l as [|a|a b|a b c l IH] using triple_ind; [done..|]. simpl. by rewrite IH. Qed.

Lemma split64_range l : Forall is_byte l → Forall (λ n, 0 <= n < 64) (split64 l).
Proof.
  unfold is_byte. induction l as [|a|a b|a b c l IH] using triple_ind; intros Hl; simpl;
    decompose_Forall_hyps; repeat constructor; try (Z.to_euclidean_division_equations; lia); auto.
Qed.

Lemma join64_split strict l : Forall is_byte l → join64 strict (split64 l) = Some l.
Proof.
  unfold is_byte. induction l as [|a|a b|a b c l IH] using triple_ind; intros Hl; decompose_Forall_hyps;
    cbn [split64 join64].
  - done.
  - replace (a mod 4 * 16 mod 16 =? 0) with true by (symmetry; apply Z.eqb_eq; Z.to_euclidean_division_equations; lia).
    rewrite andb_false_r. repeat f_equal. Z.to_euclidean_division_equations; lia.
  - replace (b mod 16 * 4 mod 4 =? 0) with true by (symmetry; apply Z.eqb_eq; Z.to_euclidean_division_equations; lia).
    rewrite andb_false_r. repeat f_equal; Z.to_euclidean_division_equations; lia.
  - rewrite IH by done. simpl. repeat f_equal; Z.to_euclidean_division_equations; lia.
Qed.

Lemma mapM_sextets l : Forall (λ n, 0 <= n < 64) l →
  List.filter (λ c, negb (line_break c)) (sextet_char <$> l) = sextet_char <$> l ∧
  mapM char_sextet (sextet_char <$> l) = Some l.
Proof.
  intros Hl. split.
  - induction Hl as [|n l Hn _ IH]; [done|]. destruct (sextet_round n Hn) as [_ Hb]. simpl. rewrite Hb. simpl.
    by f_equal.
  - apply mapM_Some_2, Forall2_fmap_l, Forall_Forall2_diag. eapply Forall_impl; [exact Hl|].
    intros n Hn. by apply sextet_round.
Qed.

Lemma decode_encode64 strict l : Forall is_byte l → decode64 strict (encode64 l) = Some l.
Proof.
  intros Hl. unfold decode64. rewrite encode64_split.
  destruct (mapM_sextets (split64 l) (split64_range l Hl)) as [-> ->]. simpl. by apply join64_split.
Qed.

Lemma code_bytes s : Forall is_byte (map code (chars s)).
Proof. apply Forall_map, Forall_true. intros c. apply code_range. Qed.

Lemma chr_codes l : map chr (map code l) = l.
Proof. rewrite map_map. rewrite <-(map_id l) at 2. apply map_ext, chr_code. Qed.

(** What is encoded decodes to itself, strictly or not. *)
Lemma DecodeString_EncodeToString strict s : DecodeString strict (EncodeToString s) = Some s.
Proof.
  unfold DecodeString, EncodeToString. rewrite chars_implode, decode_encode64 by apply code_bytes.
  simpl. by rewrite chr_codes, implode_chars.
Qed.

Lemma EncodeToString_inj s1 s2 : EncodeToString s1 = EncodeToString s2 → s1 = s2.
Proof.
  intros H. apply Some_inj. by rewrite <-(DecodeString_EncodeToString true s1), H, DecodeString_EncodeToString.
Qed.

(** The alphabet needs no escape in JSON. *)
Lemma sextet_plain : ∀ n, 0 <= n < 64 → json_plain (sextet_char n) = true.
Proof.
  apply (all_sextets (λ n, json_plain (sextet_char n))). vm_compute. reflexivity.
Qed.

Lemma EncodeToString_plain s : forallb json_plain (chars (EncodeToString s)) = true.
Proof.
  unfold EncodeToString. rewrite chars_implode, encode64_split. apply forallb_Forall, Forall_fmap.
  eapply Forall_impl; [apply split64_range, code_bytes|]. intros n. apply sextet_plain.
Qed.

Lemma split64_length l : length (split64 l) = ((4 * length l + 2) / 3)%nat.
Proof.
  induction l as [|a|a b|a b c l IH] using triple_ind; [done..|].
  cbn [split64 length]. rewrite IH. replace (4 * S (S (S (length l))) + 2)%nat with (4 * length l + 2 + 4 * 3)%nat by lia.
  rewrite Nat.div_add by lia. lia.
Qed.

(** Encoding grows a string by a third. *)
Lemma EncodeToString_length s : len (EncodeToString s) = (4 * len s + 2) / 3.
Proof.
  unfold EncodeToString. rewrite len_implode, encode64_split, length_fmap, split64_length, length_map, len_chars.
  rewrite Nat2Z.inj_div. f_equal; lia.
Qed.

(** ** Strict decoding is exact up to line breaks *)

(** Induction four sextets at a time. *)
Lemma quad_ind (P : list Z → Prop) : P [] → (∀ a, P [a]) → (∀ a b, P [a; b]) → (∀ a b c, P [a; b; c]) →
  (∀ a b c d l, P l → P (a :: b :: c :: d :: l)) → ∀ l, P l.
Proof.
  intros H0 H1 H2 H3 H4. fix IH 1. intros [|a [|b [|c [|d l]]]]; [done..|]. apply H4, IH.
Qed.

Lemma join64_inv l bs : Forall (λ n, 0 <= n < 64) l → join64 true l = Some bs → split64 bs = l ∧ Forall is_byte bs.
Proof.
  unfold is_byte. revert bs. induction l as [|a|a b|a b c|a b c d l IH] using quad_ind; intros bs Hl Hj;
    cbn [join64] in Hj; repeat (apply Forall_cons in Hl as [? Hl]).
  - simplify_eq. by split.
  - done.
  - destruct (Z.eqb_spec (b mod 16) 0); simplify_eq/=. split; [|repeat constructor; Z.to_euclidean_division_equations; lia].
    repeat f_equal; Z.to_euclidean_division_equations; lia.
  - destruct (Z.eqb_spec (c mod 4) 0); simplify_eq/=. split; [|repeat constructor; Z.to_euclidean_division_equations; lia].
    repeat f_equal; Z.to_euclidean_division_equations; lia.
  - destruct (join64 true l) as [bs'|]; simplify_eq/=. destruct (IH bs') as [Hs Hb]; [done|done|].
    split; [|repeat constructor; try done; Z.to_euclidean_division_equations; lia].
    rewrite Hs. repeat f_equal; Z.to_euclidean_division_equations; lia.
Qed.

Lemma all_chars (P : ascii → bool) : forallb (λ n, P (chr (Z.of_nat n))) (seq 0 256) = true → ∀ c, P c = true.
Proof.
  intros H c. pose proof (code_range c) as Hc. pose proof (proj1 (forallb_forall _ _) H (Z.to_nat (code c))) as Hp.
  cbv beta in Hp. rewrite Z2Nat.id, chr_code in Hp by lia. apply Hp, in_seq. lia.
Qed.

(** A character of the alphabet prints as itself. *)
Definition sextet_consistent (c : ascii) : bool :=
  match char_sextet c with Some n => (0 <=? n) && (n <? 64) && bool_decide (sextet_char n = c) | None => true end.

Lemma char_sextet_inv c n : char_sextet c = Some n → 0 <= n < 64 ∧ sextet_char n = c.
Proof.
  assert (sextet_consistent c = true) as H by (apply all_chars; vm_compute; reflexivity).
  unfold sextet_consistent in H. intros Hn. rewrite Hn in H. bsplit. by split.
Qed.

Lemma mapM_sextet_inv l ns : mapM char_sextet l = Some ns → Forall (λ n, 0 <= n < 64) ns ∧ sextet_char <$> ns = l.
Proof.
  intros H%mapM_Some_1. induction H as [|c n l ns [Hn Hc]%char_sextet_inv _ [IH1 IH2]]; [done|].
  split; [by constructor|]. rewrite fmap_cons, Hc, IH2. done.
Qed.

(** The text without the line breaks the decoder skips. *)
Definition unbroken (s : string) : string := implode (List.filter (λ c, negb (line_break c)) (chars s)).

Lemma DecodeString_strict s bs : DecodeString true s = Some bs → EncodeToString bs = unbroken s.
Proof.
  unfold DecodeString, decode64. intros H.
  destruct (mapM char_sextet _) as [ns|] eqn:Hm; simplify_eq/=. destruct (join64 true ns) as [l|] eqn:Hj; simplify_eq/=.
  apply mapM_sextet_inv in Hm as [Hr Hm]. apply join64_inv in Hj as [Hj Hb]; [|done].
  unfold EncodeToString, unbroken. rewrite chars_implode, map_map.
  rewrite (map_ext_in _ (λ x, x)), map_id, encode64_split, Hj, Hm; [done|].
  intros x Hx%list_elem_of_In. rewrite Forall_forall in Hb. by apply code_chr, Hb.
Qed.

Lemma unbroken_shorter s : len (unbroken s) <= len s.
Proof.
  unfold unbroken. rewrite len_implode, len_chars. apply inj_le.
  induction (chars s) as [|c l IH]; [done|]. simpl. destruct (negb _); simpl; lia.
Qed.

(** A text that is as long as what it decodes to prints has no line breaks. *)
Lemma unbroken_full s : len (unbroken s) = len s → unbroken s = s.
Proof.
  unfold unbroken. rewrite len_implode, len_chars. intros H. rewrite <-(implode_chars s) at 2. f_equal.
  apply Nat2Z.inj in H. induction (chars s) as [|c l IH]; [done|]. simpl in *.
  assert (length (List.filter (λ c, negb (line_break c)) l) ≤ length l)%nat as Hle by apply List.filter_length_le.
  destruct (negb (line_break c)); simpl in H; [|lia]. f_equal. apply IH. lia.
Qed.

Example nonce_vector : EncodeToString (implode (chr <$> [0; 1; 2; 250; 251; 252; 253; 254; 255])) = "AAEC-vv8_f7_".
Proof. reflexivity. Qed.
