(* ===== verification/GoTime.v ===== *)
(** * Instants and their canonical text ([time])

    A [time.Time] is modelled by the instant it denotes: nanoseconds since Go's
    zero time (0001-01-01T00:00:00Z), so [IsZero] is [= 0].  The monotonic
    reading is not modelled, and the location only where the code looks at it
    before it calls [UTC()] ([localtime]).  Dates are the proleptic
    Gregorian calendar; the file proves that formatting a year-1-to-9999
    instant as [RFC3339Nano] loses nothing. *)

From S2P Require Import Prelude GoStrings.
Local Open Scope Z_scope.

Abbreviation time := Z (only parsing).
Abbreviation duration := Z (only parsing).

Definition Nanosecond : duration := 1.
Definition Millisecond : duration := 1000000.
Definition Second : duration := 1000000000.
Definition Minute : duration := 60 * Second.
Definition Hour : duration := 60 * Minute.
Definition Day : duration := 24 * Hour.

Definition IsZero (t : time) : bool := t =? 0.
Definition Before (a b : time) : bool := a <? b.
Definition After (a b : time) : bool := b <? a.
Definition Equal (a b : time) : bool := a =? b.

(** [t.Sub(u)] saturates at the ends of [time.Duration] (an [int64]). *)
Definition Sub (a b : time) : duration := Z.max (- 2 ^ 63) (Z.min (2 ^ 63 - 1) (a - b)).

(** [t.Truncate(d)] rounds down towards the zero time. *)
Definition Truncate (t : time) (d : duration) : time := t - t mod d.

(** ** The calendar *)

Definition day_number (t : time) : Z := t / Day.

(** Civil date of a day number: eras of 400 years starting on 0000-03-01, as
    computed from the day of the era. *)
Definition year_of_era (doe : Z) : Z := (doe - doe / 1460 + doe / 36524 - doe / 146096) / 365.
Definition day_of_year (doe yoe : Z) : Z := doe - (365 * yoe + yoe / 4 - yoe / 100).

Definition civil (days : Z) : Z * Z * Z :=
  let z := days + 306 in
  let era := z / 146097 in
  let doe := z mod 146097 in
  let yoe := year_of_era doe in
  let doy := day_of_year doe yoe in
  let mp := (5 * doy + 2) / 153 in
  let d := doy - (153 * mp + 2) / 5 + 1 in
  let m := if mp <? 10 then mp + 3 else mp - 9 in
  (yoe + era * 400 + (if m <=? 2 then 1 else 0), m, d).

Definition days_of_civil (ymd : Z * Z * Z) : Z :=
  let '(y, m, d) := ymd in
  let y' := y - (if m <=? 2 then 1 else 0) in
  let era := y' / 400 in
  let yoe := y' mod 400 in
  let mp := if 2 <? m then m - 3 else m + 9 in
  let doy := (153 * mp + 2) / 5 + d - 1 in
  era * 146097 + (365 * yoe + yoe / 4 - yoe / 100 + doy) - 306.

Definition Year (t : time) : Z := (civil (day_number t)).1.1.

(** A value whose location still matters: the instant and its zone's offset in
    seconds east of UTC.  [Year()] reads the date in that zone. *)
Record localtime := MkLocal { lt_instant : time; lt_zone : Z }.

Definition UTC (t : localtime) : localtime := MkLocal (lt_instant t) 0.
Definition LocalYear (t : localtime) : Z := Year (lt_instant t + lt_zone t * Second).

(** [t.Nanosecond()] *)
Definition NanosecondOf (t : time) : Z := t mod Second.

(** ** Layouts *)

(** A number in at least [w] digits. *)
Definition padded (w : nat) (n : Z) : list ascii :=
  let ds := digits n in
  replicate (w - length ds) "0"%char ++ map digit_char ds.

Definition year_text (y : Z) : list ascii :=
  if y <? 0 then "-"%char :: padded 4 (- y) else padded 4 y.

(** [2006-01-02T15:04:05] *)
Definition seconds_text (t : time) : list ascii :=
  let '(y, m, d) := civil (day_number t) in
  let s := t mod Day / Second in
  year_text y ++ "-"%char :: padded 2 m ++ "-"%char :: padded 2 d
    ++ "T"%char :: padded 2 (s / 3600) ++ ":"%char :: padded 2 (s / 60 mod 60)
    ++ ":"%char :: padded 2 (s mod 60).

(** Drop trailing zeros. *)
Fixpoint trim_zeros (l : list ascii) : list ascii :=
  match l with
  | [] => []
  | c :: l' =>
      match trim_zeros l' with
      | [] => if decide (c = "0"%char) then [] else [c]
      | k => c :: k
      end
  end.

(** [.999999999]: the fraction without trailing zeros, nothing when zero. *)
Definition fraction_text (n : Z) : list ascii :=
  if n =? 0 then [] else "."%char :: trim_zeros (padded 9 n).

(** [t.UTC().Format(time.RFC3339Nano)] *)
Definition format_rfc3339nano (t : time) : string :=
  implode (seconds_text t ++ fraction_text (NanosecondOf t) ++ ["Z"%char]).

(** [t.UTC().Format("2006-01-02T15:04:05.000Z")] *)
Definition format_millis (t : time) : string :=
  implode (seconds_text t ++ "."%char :: padded 3 (NanosecondOf t / Millisecond) ++ ["Z"%char]).

Example format_epoch : format_rfc3339nano 0 = "0001-01-01T00:00:00Z".
Proof. vm_compute. reflexivity. Qed.

(** 2026-07-18T02:00:06.05Z, 63919936806 seconds after the zero time. *)
Example format_sample :
  (format_rfc3339nano 63919936806050000000, format_millis 63919936806050000000)
  = ("2026-07-18T02:00:06.05Z", "2026-07-18T02:00:06.050Z").
Proof. vm_compute. reflexivity. Qed.

(** ** The calendar is exact *)

Lemma year_of_era_bounds doe : 0 <= doe < 146097 →
  0 <= year_of_era doe < 400 ∧ 0 <= day_of_year doe (year_of_era doe) <= 366.
Proof.
  intros H. unfold day_of_year, year_of_era.
  Z.div_mod_to_equations; lia.
Qed.

(** Every day number has one date, with month and day in range. *)
Lemma civil_range days : let '(y, m, d) := civil days in 1 <= m <= 12 ∧ 1 <= d <= 31.
Proof.
  unfold civil. cbv zeta.
  pose proof (Z.mod_pos_bound (days + 306) 146097 ltac:(lia)) as Hdoe.
  set (doe := (days + 306) mod 146097) in *.
  destruct (year_of_era_bounds doe Hdoe) as [_ Hdoy].
  set (doy := day_of_year doe (year_of_era doe)) in *. clearbody doy.
  destruct (_ <? 10) eqn:E; breflect; Z.div_mod_to_equations; lia.
Qed.

Lemma days_of_civil_civil days : days_of_civil (civil days) = days.
Proof.
  unfold civil, days_of_civil. cbv zeta.
  pose proof (Z.mod_pos_bound (days + 306) 146097 ltac:(lia)) as Hdoe.
  pose proof (Z.div_mod (days + 306) 146097 ltac:(lia)) as Hdiv.
  set (doe := (days + 306) mod 146097) in *.
  set (era := (days + 306) / 146097) in *.
  destruct (year_of_era_bounds doe Hdoe) as [Hyoe Hdoy].
  set (yoe := year_of_era doe) in *.
  assert (Hdef : doe = 365 * yoe + yoe / 4 - yoe / 100 + day_of_year doe yoe)
    by (unfold day_of_year; lia).
  set (doy := day_of_year doe yoe) in *. clearbody doy yoe era doe.
  set (mp := (5 * doy + 2) / 153) in *.
  assert (Hmp : 0 <= mp <= 11) by (subst mp; Z.div_mod_to_equations; lia).
  clearbody mp.
  assert (Hq : ∀ b, yoe + era * 400 + b - b = yoe + era * 400) by lia.
  assert (Hd : (yoe + era * 400) / 400 = era) by (Z.div_mod_to_equations; lia).
  assert (Hm : (yoe + era * 400) mod 400 = yoe) by (Z.div_mod_to_equations; lia).
  destruct (mp <? 10) eqn:E; breflect.
  - replace (mp + 3 <=? 2) with false by (symmetry; apply Z.leb_gt; lia).
    replace (2 <? mp + 3) with true by (symmetry; apply Z.ltb_lt; lia).
    rewrite Hq, Hd, Hm. replace (mp + 3 - 3) with mp by lia. lia.
  - replace (mp - 9 <=? 2) with true by (symmetry; apply Z.leb_le; lia).
    replace (2 <? mp - 9) with false by (symmetry; apply Z.ltb_ge; lia).
    rewrite Hq, Hd, Hm.
    replace (mp - 9 + 9) with mp by lia. lia.
Qed.

Lemma civil_inj a b : civil a = civil b → a = b.
Proof. intros H. by rewrite <-(days_of_civil_civil a), H, days_of_civil_civil. Qed.

(** ** Formatting is injective *)

Lemma of_digits_zeros k l : of_digits (replicate k 0 ++ l) = of_digits l.
Proof. induction k as [|k IH]; [done|]. simpl app. rewrite of_digits_cons, IH. lia. Qed.

Definition text_value (l : list ascii) : Z := of_digits (map char_digit l).

Lemma text_value_padded w n : 0 <= n → text_value (padded w n) = n.
Proof.
  intros Hn. unfold text_value, padded. rewrite map_app, map_char_digit by apply digits_dec.
  replace (map char_digit (replicate (w - length (digits n)) "0"%char))
    with (replicate (w - length (digits n)) 0) by (symmetry; apply (fmap_replicate char_digit)).
  by rewrite of_digits_zeros, of_digits_digits.
Qed.

Lemma padded_length w n : 0 <= n < 10 ^ Z.of_nat w → (1 ≤ w)%nat → length (padded w n) = w.
Proof.
  intros Hn Hw. unfold padded. rewrite length_app, length_replicate, length_map.
  pose proof (digits_length n w Hn Hw). lia.
Qed.

Lemma padded_inj w n m : 0 <= n → 0 <= m → padded w n = padded w m → n = m.
Proof. intros Hn Hm H. by rewrite <-(text_value_padded w n), H, text_value_padded. Qed.

Lemma padded_digits w n : Forall (λ c, is_digit c = true) (padded w n).
Proof.
  unfold padded. apply Forall_app. split.
  - by apply Forall_replicate.
  - apply Forall_map. eapply Forall_impl; [apply digits_dec|]. simpl. apply is_digit_char.
Qed.

(** Cut two equal texts after fields of the same width. *)
Lemma field_inj {A} (a1 a2 r1 r2 : list A) :
  length a1 = length a2 → a1 ++ r1 = a2 ++ r2 → a1 = a2 ∧ r1 = r2.
Proof. apply app_inj_1. Qed.

Lemma trim_zeros_spec l : ∃ k, l = trim_zeros l ++ replicate k "0"%char.
Proof.
  induction l as [|c l [k IH]]; [by exists 0%nat|]. simpl.
  destruct (trim_zeros l) as [|d t] eqn:E; [case_decide as Hc|].
  - exists (S k). simpl. by rewrite Hc, IH at 1.
  - exists k. simpl. by rewrite IH at 1.
  - exists k. rewrite IH at 1. done.
Qed.

Lemma trim_zeros_inj l1 l2 : length l1 = length l2 → trim_zeros l1 = trim_zeros l2 → l1 = l2.
Proof.
  intros Hl Ht. destruct (trim_zeros_spec l1) as [k1 H1], (trim_zeros_spec l2) as [k2 H2].
  rewrite Ht in H1. enough (Hk : k1 = k2) by congruence.
  apply (f_equal length) in H1, H2. rewrite !length_app, !length_replicate in *. lia.
Qed.

Lemma nanosecond_range t : 0 <= NanosecondOf t < Second.
Proof. apply Z.mod_pos_bound. done. Qed.

Lemma fraction_text_inj n m : 0 <= n < Second → 0 <= m < Second →
  fraction_text n = fraction_text m → n = m.
Proof.
  unfold fraction_text, Second. intros Hn Hm.
  destruct (n =? 0) eqn:En, (m =? 0) eqn:Em; breflect; intros H; simplify_eq; [done|].
  apply trim_zeros_inj in H; [|by rewrite !padded_length by (simpl; lia)].
  by apply padded_inj in H; [|lia..].
Qed.

(** The instants whose year has at most four digits. *)
Definition four_digit_year (t : time) : Prop := 0 <= Year t <= 9999.

Lemma seconds_text_length t : four_digit_year t → length (seconds_text t) = 19%nat.
Proof.
  unfold four_digit_year, Year, seconds_text. pose proof (civil_range (day_number t)) as Hr.
  destruct (civil (day_number t)) as [[y m] d]. simpl. intros Hy.
  set (s := t mod Day / Second).
  assert (0 <= s < 86400).
  { pose proof (Z.mod_pos_bound t Day ltac:(done)). subst s. unfold Day, Hour, Minute, Second in *.
    split; [apply Z.div_pos; lia|apply Z.div_lt_upper_bound; lia]. }
  unfold year_text. destruct (y <? 0) eqn:E; breflect; [lia|].
  repeat (rewrite length_app; simpl length). 
  rewrite !padded_length; try lia; simpl; Z.div_mod_to_equations; lia.
Qed.

Lemma seconds_text_inj t u : four_digit_year t → four_digit_year u →
  seconds_text t = seconds_text u → t / Second = u / Second.
Proof.
  unfold four_digit_year, Year, seconds_text.
  pose proof (civil_range (day_number t)) as Ht. pose proof (civil_range (day_number u)) as Hu.
  destruct (civil (day_number t)) as [[y m] d] eqn:Ect.
  destruct (civil (day_number u)) as [[y' m'] d'] eqn:Ecu. simpl. intros Hy Hy'.
  set (s := t mod Day / Second). set (s' := u mod Day / Second).
  assert (Hs : 0 <= s < 86400 ∧ 0 <= s' < 86400).
  { pose proof (Z.mod_pos_bound t Day ltac:(done)). pose proof (Z.mod_pos_bound u Day ltac:(done)).
    subst s s'. unfold Day, Hour, Minute, Second in *.
    split; (split; [apply Z.div_pos; lia|apply Z.div_lt_upper_bound; lia]). }
  unfold year_text.
  destruct (y <? 0) eqn:E, (y' <? 0) eqn:E'; breflect; try lia. clear E E'.
  intros H.
  apply field_inj in H as [H1 H]; [|by rewrite !padded_length by (simpl; lia)].
  injection H as H. apply field_inj in H as [H2 H]; [|by rewrite !padded_length by (simpl; lia)].
  injection H as H. apply field_inj in H as [H3 H]; [|by rewrite !padded_length by (simpl; lia)].
  injection H as H. apply field_inj in H as [H4 H];
    [|by rewrite !padded_length by (simpl; Z.div_mod_to_equations; lia)].
  injection H as H. apply field_inj in H as [H5 H];
    [|by rewrite !padded_length by (simpl; Z.div_mod_to_equations; lia)].
  injection H as H6.
  apply padded_inj in H1, H2, H3, H4, H5, H6; try (Z.div_mod_to_equations; lia).
  subst y' m' d'. rewrite <-Ecu in Ect. apply civil_inj in Ect.
  unfold day_number, Day, Hour, Minute, Second in *. subst s s'.
  Z.div_mod_to_equations. lia.
Qed.

(** The canonical text of an instant determines it. *)
Lemma format_rfc3339nano_inj t u : four_digit_year t → four_digit_year u →
  format_rfc3339nano t = format_rfc3339nano u → t = u.
Proof.
  unfold format_rfc3339nano. intros Ht Hu H%implode_inj.
  apply field_inj in H as [Hs H]; [|by rewrite !seconds_text_length].
  apply seconds_text_inj in Hs; [|done..].
  apply app_inv_tail in H. apply fraction_text_inj in H; [|apply nanosecond_range..].
  unfold NanosecondOf in H. rewrite (Z.div_mod t Second), (Z.div_mod u Second) by done. lia.
Qed.

Lemma format_millis_inj t u : four_digit_year t → four_digit_year u →
  format_millis t = format_millis u → Truncate t Millisecond = Truncate u Millisecond.
Proof.
  unfold format_millis. intros Ht Hu H%implode_inj.
  apply field_inj in H as [Hs H]; [|by rewrite !seconds_text_length].
  apply seconds_text_inj in Hs; [|done..].
  injection H as H. apply app_inv_tail in H.
  pose proof (nanosecond_range t). pose proof (nanosecond_range u).
  apply padded_inj in H; [|apply Z.div_pos; unfold Millisecond in *; lia..].
  unfold NanosecondOf, Truncate, Second, Millisecond in *. Z.div_mod_to_equations. lia.
Qed.

(** Canonical time text is made of plain bytes. *)
Definition time_byte (c : ascii) : bool :=
  is_digit c || bool_decide (c ∈ ["-"; "T"; ":"; "."; "Z"]%char).

Lemma padded_time_bytes w n : Forall (λ c, time_byte c = true) (padded w n).
Proof.
  eapply Forall_impl; [apply padded_digits|]. unfold time_byte. by intros c ->.
Qed.

Lemma trim_zeros_Forall P l : Forall P l → Forall P (trim_zeros l).
Proof.
  intros H. destruct (trim_zeros_spec l) as [k Hk]. rewrite Hk in H. by apply Forall_app in H as [? _].
Qed.

Lemma format_rfc3339nano_bytes t :
  Forall (λ c, time_byte c = true) (chars (format_rfc3339nano t)).
Proof.
  unfold format_rfc3339nano, seconds_text, year_text, fraction_text. rewrite chars_implode.
  destruct (civil (day_number t)) as [[y m] d].
  destruct (y <? 0), (NanosecondOf t =? 0);
    repeat first [ apply padded_time_bytes | apply trim_zeros_Forall
                 | apply Forall_app; split | apply Forall_cons; split; [done|]
                 | apply Forall_nil_2 ].
Qed.

Lemma time_byte_plain c : time_byte c = true → json_plain c = true.
Proof.
  unfold time_byte. rewrite orb_true_iff, bool_decide_eq_true. intros [H|H].
  - apply is_digit_code in H. unfold json_plain.
    repeat (apply andb_true_iff; split); rewrite ?negb_true_iff, ?Z.leb_le, ?Z.ltb_lt, ?Z.eqb_neq; lia.
  - repeat (apply elem_of_cons in H as [->|H]; [reflexivity|]). by apply elem_of_nil in H.
Qed.

Lemma format_rfc3339nano_plain t : forallb json_plain (chars (format_rfc3339nano t)) = true.
Proof.
  apply forallb_Forall. eapply Forall_impl; [apply format_rfc3339nano_bytes|].
  simpl. apply time_byte_plain.
Qed.

(** ** Reading canonical text *)

Definition read_digits (w : nat) (l : list ascii) : option (Z * list ascii) :=
  if (length (take w l) =? w)%nat && forallb is_digit (take w l) then Some (text_value (take w l), drop w l) else None.

Definition read_char (c : ascii) (l : list ascii) : option (list ascii) :=
  match l with x :: r => if bool_decide (x = c) then Some r else None | [] => None end.

(** The instant of a date of the calendar and a time of day. *)
Definition instant_of (y m d hh mm ss ms : Z) : option time :=
  if (1 <=? m) && (m <=? 12) && bool_decide (civil (days_of_civil (y, m, d)) = (y, m, d))
     && (hh <? 24) && (mm <? 60) && (ss <? 60)
  then Some (days_of_civil (y, m, d) * Day + hh * Hour + mm * Minute + ss * Second + ms * Millisecond)
  else None.

(** [time.Parse] on texts of the form [2006-01-02T15:04:05.000Z].  Its callers
    compare the instant's canonical text with the input, so the other texts
    that [time.Parse] reads are refused all the same. *)
Definition parse_millis (s : string) : option time :=
  '(y, l) ← read_digits 4 (chars s);
  l ← read_char "-" l;
  '(m, l) ← read_digits 2 l;
  l ← read_char "-" l;
  '(d, l) ← read_digits 2 l;
  l ← read_char "T" l;
  '(hh, l) ← read_digits 2 l;
  l ← read_char ":" l;
  '(mm, l) ← read_digits 2 l;
  l ← read_char ":" l;
  '(ss, l) ← read_digits 2 l;
  l ← read_char "." l;
  '(ms, l) ← read_digits 3 l;
  l ← read_char "Z" l;
  match l with [] => instant_of y m d hh mm ss ms | _ => None end.

(** The text is exactly the canonical text of the instant read. *)
Definition parse_canonical (s : string) : option time :=
  t ← parse_millis s; if String.eqb (format_millis t) s then Some t else None.

Example parse_canonical_vectors :
  parse_canonical <$> ["2026-07-18T02:00:06.050Z"; "2024-02-29T23:59:59.999Z"; "2023-02-29T00:00:00.000Z";
                       "2026-07-18T24:00:00.000Z"; "2026-07-18T02:00:06.05Z"; "2026-07-18T02:00:06.050z"]
  = [Some 63919936806050000000; Some 63844847999999000000; None; None; None; None].
Proof. vm_compute. reflexivity. Qed.

Lemma read_padded w n r : 0 <= n < 10 ^ Z.of_nat w → (1 ≤ w)%nat → read_digits w (padded w n ++ r) = Some (n, r).
Proof.
  intros Hn Hw. pose proof (padded_length w n Hn Hw) as Hl. unfold read_digits.
  rewrite take_app_length', drop_app_length' by done. rewrite Hl, Nat.eqb_refl. simpl.
  rewrite (proj2 (forallb_Forall _ _)) by apply padded_digits. by rewrite text_value_padded by lia.
Qed.

Lemma read_char_cons c r : read_char c (c :: r) = Some r.
Proof. simpl. by rewrite bool_decide_eq_true_2. Qed.

Lemma seconds_of_day t : let s := t mod Day / Second in
  0 <= s < 86400 ∧ t mod Day = s / 3600 * Hour + s / 60 mod 60 * Minute + s mod 60 * Second + NanosecondOf t.
Proof.
  intros s. pose proof (Z.mod_pos_bound t Day ltac:(done)). subst s.
  unfold NanosecondOf, Day, Hour, Minute, Second in *. Z.div_mod_to_equations. lia.
Qed.

Lemma parse_format_millis t : four_digit_year t → parse_millis (format_millis t) = Some (Truncate t Millisecond).
Proof.
  unfold four_digit_year, Year, parse_millis, format_millis, seconds_text. rewrite chars_implode.
  pose proof (civil_range (day_number t)) as Hr. pose proof (days_of_civil_civil (day_number t)) as Hinv.
  destruct (civil (day_number t)) as [[y m] d] eqn:Ec. simpl fst. intros Hy.
  destruct (seconds_of_day t) as [Hs Ht]. set (s := t mod Day / Second) in *.
  pose proof (nanosecond_range t) as Hn.
  unfold year_text. rewrite (proj2 (Z.ltb_ge y 0)) by lia.
  unfold mbind, option_bind. rewrite <-app_assoc, read_padded by (simpl; lia). cbn [app].
  rewrite read_char_cons, <-app_assoc, read_padded by (simpl; lia). cbn [app].
  rewrite read_char_cons, <-app_assoc, read_padded by (simpl; lia). cbn [app].
  rewrite read_char_cons, <-app_assoc, read_padded by (simpl; Z.div_mod_to_equations; lia). cbn [app].
  rewrite read_char_cons, <-app_assoc, read_padded by (simpl; Z.div_mod_to_equations; lia). cbn [app].
  rewrite read_char_cons, read_padded by (simpl; Z.div_mod_to_equations; lia). cbn [app].
  rewrite read_char_cons, read_padded by (unfold Millisecond, Second in *; simpl; Z.div_mod_to_equations; lia).
  cbn [app]. rewrite read_char_cons. unfold instant_of. rewrite Hinv, Ec, bool_decide_eq_true_2 by done.
  rewrite !(proj2 (Z.leb_le _ _)), !(proj2 (Z.ltb_lt _ _)) by (Z.div_mod_to_equations; lia). simpl. f_equal.
  pose proof (Z.div_mod t Day ltac:(done)) as Hdm. unfold day_number, Truncate, NanosecondOf in *.
  unfold Day, Hour, Minute, Second, Millisecond in *. Z.div_mod_to_equations. lia.
Qed.

(** Canonical text reads back, and only canonical text is read. *)
Lemma parse_canonical_format t : four_digit_year t → t mod Millisecond = 0 →
  parse_canonical (format_millis t) = Some t.
Proof.
  intros Hy Hm. unfold parse_canonical. rewrite parse_format_millis by done. simpl.
  unfold Truncate. rewrite Hm, Z.sub_0_r. by rewrite String.eqb_refl.
Qed.

Lemma parse_canonical_Some s t : parse_canonical s = Some t → s = format_millis t.
Proof.
  unfold parse_canonical. destruct (parse_millis s) as [u|]; [|done]. simpl.
  destruct (String.eqb _ _) eqn:E; [|done]. intros [= ->]. by apply String.eqb_eq in E.
Qed.

Lemma format_millis_plain t : forallb json_plain (chars (format_millis t)) = true.
Proof.
  apply forallb_Forall. eapply (Forall_impl (λ c, time_byte c = true)); [|intros c; apply time_byte_plain].
  unfold format_millis, seconds_text, year_text. rewrite chars_implode.
  destruct (civil (day_number t)) as [[y m] d].
  destruct (y <? 0);
    repeat first [ apply padded_time_bytes | apply Forall_app; split
                 | apply Forall_cons; split; [done|] | apply Forall_nil_2 ].
Qed.

(** ** Years are monotone *)

(** Days before the first of January. *)
Definition year_start (y : Z) : Z := 365 * (y - 1) + (y - 1) / 4 - (y - 1) / 100 + (y - 1) / 400.

Lemma era_days y : y / 400 * 146097 + (365 * (y mod 400) + y mod 400 / 4 - y mod 400 / 100)
  = 365 * y + y / 4 - y / 100 + y / 400.
Proof. Z.div_mod_to_equations. lia. Qed.

Lemma year_length y : 365 <= year_start (y + 1) - year_start y <= 366.
Proof. unfold year_start. replace (y + 1 - 1) with y by lia. Z.div_mod_to_equations. lia. Qed.

Lemma civil_year days : let y := (civil days).1.1 in year_start y <= days < year_start (y + 1).
Proof.
  pose proof (civil_range days) as Hr. pose proof (days_of_civil_civil days) as Hinv.
  destruct (civil days) as [[y m] d]. cbv zeta. simpl fst. unfold days_of_civil in Hinv. cbv zeta in Hinv.
  pose proof (year_length y) as Hlen. unfold year_start in *. replace (y + 1 - 1) with y in * by lia.
  pose proof (era_days (y - (if m <=? 2 then 1 else 0))) as He.
  destruct (m <=? 2) eqn:E2, (2 <? m) eqn:E3; breflect; try lia.
  - assert (306 <= (153 * (m + 9) + 2) / 5 <= 337) by (clear - Hr E2; Z.div_mod_to_equations; lia). lia.
  - assert (0 <= (153 * (m - 3) + 2) / 5 <= 275) by (clear - Hr E3; Z.div_mod_to_equations; lia).
    rewrite Z.sub_0_r in *. lia.
Qed.

Lemma year_start_mono a b : a <= b → year_start a <= year_start b.
Proof. unfold year_start. intros. Z.div_mod_to_equations. lia. Qed.

Lemma Year_mono t u : t <= u → Year t <= Year u.
Proof.
  intros Htu. assert (day_number t <= day_number u) by (apply Z.div_le_mono; done).
  pose proof (civil_year (day_number t)) as Ht. pose proof (civil_year (day_number u)) as Hu. cbv zeta in Ht, Hu.
  change ((civil (day_number t)).1.1) with (Year t) in Ht. change ((civil (day_number u)).1.1) with (Year u) in Hu.
  destruct (Z.le_gt_cases (Year t) (Year u)) as [|Hlt]; [done|].
  pose proof (year_start_mono (Year u + 1) (Year t) ltac:(lia)). lia.
Qed.
