(* ===== verification/Netip.v ===== *)
(** * IPv4 addresses ([net/netip])

    The program accepts an address only when [netip.ParseAddr] succeeds, the
    result [Is4()] and [String()] gives the text back.  An IPv6 text never
    yields an [Is4] address, so [parse_addr4] answers [None] both for a parse
    error and for an IPv6 address.  The file proves that parsing and printing
    are inverse on canonical IPv4 texts. *)

From S2P Require Import Prelude GoStrings Regex.
Local Open Scope Z_scope.

Record addr4 := Addr4 { oct1 : Z; oct2 : Z; oct3 : Z; oct4 : Z }.

Global Instance addr4_eq_dec : EqDecision addr4.
Proof. solve_decision. Defined.

(** [ParseAddr] looks for the first of ['.'], [':'] and ['%'] to choose the
    syntax. *)
Fixpoint dotted_first (l : list ascii) : bool :=
  match l with
  | [] => false
  | c :: l =>
      if bool_decide (c = "."%char) then true
      else if bool_decide (c = ":"%char) || bool_decide (c = "%"%char) then false
      else dotted_first l
  end.

(** [parseIPv4Fields]: [fields] are the octets read so far, [val] and [dl] the
    value and the number of digits of the current one, [prev] the byte before. *)
Fixpoint ipv4_fields (l : list ascii) (fields : list Z) (val dl : Z) (prev : option ascii)
  : option (list Z) :=
  match l with
  | [] => if (length fields <? 3)%nat then None else Some (fields ++ [val])
  | c :: l' =>
      if is_digit c then
        if (dl =? 1) && (val =? 0) then None
        else
          let val := val * 10 + (code c - 48) in
          if 255 <? val then None
          else ipv4_fields l' fields val (dl + 1) (Some c)
      else if bool_decide (c = "."%char) then
        if bool_decide (prev = None) || bool_decide (l' = []) || bool_decide (prev = Some "."%char)
        then None
        else if (length fields =? 3)%nat then None
        else ipv4_fields l' (fields ++ [val]) 0 0 (Some c)
      else None
  end.

(** [addr, err := netip.ParseAddr(s)] followed by [addr.Is4()]. *)
Definition parse_addr4 (s : string) : option addr4 :=
  if dotted_first (chars s) then
    match ipv4_fields (chars s) [] 0 0 None with
    | Some [a; b; c; d] => Some (Addr4 a b c d)
    | _ => None
    end
  else None.

Definition octet_text (n : Z) : list ascii := chars (format_uint n).

(** [addr.String()] *)
Definition addr4_string (a : addr4) : string :=
  implode (octet_text (oct1 a) ++ "."%char :: octet_text (oct2 a)
             ++ "."%char :: octet_text (oct3 a) ++ "."%char :: octet_text (oct4 a)).

Definition is_octet (n : Z) : bool := (0 <=? n) && (n <=? 255).

(** An address value: four bytes. *)
Definition addr4_ok (a : addr4) : bool :=
  is_octet (oct1 a) && is_octet (oct2 a) && is_octet (oct3 a) && is_octet (oct4 a).

(** [addr.IsLoopback()], [IsMulticast()], [IsLinkLocalUnicast()] and
    [IsGlobalUnicast()] on IPv4. *)
Definition is_loopback (a : addr4) : bool := oct1 a =? 127.
Definition is_multicast (a : addr4) : bool := Z.land (oct1 a) 240 =? 224.
Definition is_link_local_unicast (a : addr4) : bool := (oct1 a =? 169) && (oct2 a =? 254).
Definition is_global_unicast (a : addr4) : bool :=
  negb (bool_decide (a = Addr4 0 0 0 0)) && negb (bool_decide (a = Addr4 255 255 255 255))
  && negb (is_loopback a) && negb (is_multicast a) && negb (is_link_local_unicast a).

(** The check every package writes as
    [err != nil || !address.Is4() || address.String() != value]. *)
Definition canonical_ipv4 (s : string) : option addr4 :=
  match parse_addr4 s with
  | Some a => if String.eqb (addr4_string a) s then Some a else None
  | None => None
  end.

(** ** Printing then parsing *)

Lemma digits_snoc v d : 0 < v → 0 <= d <= 9 → digits (10 * v + d) = digits v ++ [d].
Proof.
  intros Hv Hd. destruct (digits_head v Hv) as (e & l & He & He1).
  pose proof (digits_dec v) as Hdec. pose proof (of_digits_digits v ltac:(lia)) as Hof.
  rewrite He in *. apply Forall_cons in Hdec as [Hde Hl].
  rewrite <-Hof at 1. rewrite <-of_digits_snoc. simpl app.
  apply digits_of_digits; [done..|]. apply Forall_app. split; [done|].
  repeat constructor; unfold is_dec; lia.
Qed.

Lemma octet_text_snoc v c : 0 < v → is_digit c = true →
  octet_text (v * 10 + (code c - 48)) = octet_text v ++ [c].
Proof.
  intros Hv Hc%is_digit_code. unfold octet_text, format_uint.
  rewrite !chars_implode. replace (v * 10 + (code c - 48)) with (10 * v + (code c - 48)) by lia.
  rewrite digits_snoc by lia. rewrite map_app. f_equal. simpl. f_equal.
  apply (digit_char_char c).
Qed.

Lemma octet_text_digit c : is_digit c = true → octet_text (code c - 48) = [c].
Proof.
  intros Hc. pose proof (proj1 (is_digit_code c) Hc) as Hr. unfold octet_text, format_uint.
  rewrite chars_implode. replace (digits (code c - 48)) with [code c - 48]; [simpl; f_equal; apply digit_char_char|].
  destruct (decide (code c - 48 = 0)) as [->|Hz]; [done|].
  rewrite <-(digits_of_digits (code c - 48) []); [|lia|unfold is_dec; lia|constructor].
  f_equal.
Qed.

(** One more digit of an octet. *)
Lemma ipv4_fields_digit c l fields val dl prev :
  is_digit c = true → dl ≠ 1 ∨ val ≠ 0 → val * 10 + (code c - 48) <= 255 →
  ipv4_fields (c :: l) fields val dl prev
  = ipv4_fields l fields (val * 10 + (code c - 48)) (dl + 1) (Some c).
Proof.
  intros Hc Hz Hv. simpl. rewrite Hc.
  destruct ((dl =? 1) && (val =? 0)) eqn:E; [bsplit; lia|].
  by destruct (Z.ltb_spec 255 (val * 10 + (code c - 48))); [lia|].
Qed.

(** The text of an octet reads back as the octet. *)
Lemma ipv4_fields_octet n : 0 <= n <= 255 → ∀ rest fields prev, ∃ dl c,
  ipv4_fields (octet_text n ++ rest) fields 0 0 prev = ipv4_fields rest fields n dl (Some c)
  ∧ is_digit c = true.
Proof.
  induction n as [n IH] using (well_founded_induction (Z.lt_wf 0)).
  intros Hn rest fields prev.
  pose proof (Z.mod_pos_bound n 10 ltac:(lia)). pose proof (Z.div_mod n 10 ltac:(lia)).
  set (c := chr (48 + n mod 10)).
  assert (Hcc : code c = 48 + n mod 10) by (apply code_chr; lia).
  assert (Hcd : is_digit c = true) by (apply is_digit_code; lia).
  destruct (decide (n < 10)) as [Hlt|Hge].
  - assert (Ho : octet_text n = [c])
      by (rewrite <-(octet_text_digit c Hcd); f_equal; rewrite Hcc, Z.mod_small by lia; lia).
    rewrite Ho. simpl app. rewrite Z.mod_small in Hcc by lia.
    rewrite ipv4_fields_digit by (done || lia). exists (0 + 1), c. split; [|done].
    f_equal. lia.
  - assert (Ho : octet_text n = octet_text (n / 10) ++ [c])
      by (rewrite <-(octet_text_snoc (n / 10) c) by (done || lia); f_equal; lia).
    rewrite Ho, <-app_assoc.
    destruct (IH (n / 10)) with (rest := [c] ++ rest) (fields := fields) (prev := prev)
      as (dl & c' & -> & _); [lia..|].
    simpl app. rewrite ipv4_fields_digit by (done || lia). exists (dl + 1), c. split; [|done].
    f_equal. lia.
Qed.

Lemma ipv4_fields_dot l fields val dl c :
  is_digit c = true → l ≠ [] → (length fields < 3)%nat →
  ipv4_fields ("."%char :: l) fields val dl (Some c)
  = ipv4_fields l (fields ++ [val]) 0 0 (Some "."%char).
Proof.
  intros Hc Hl Hf. simpl.
  rewrite !bool_decide_eq_false_2 by first [done|by intros [= ->]]. simpl.
  by destruct (Nat.eqb_spec (length fields) 3); [lia|].
Qed.

Lemma octet_text_nonempty n : 0 <= n → octet_text n ≠ [].
Proof.
  intros Hn. unfold octet_text, format_uint. rewrite chars_implode.
  intros H%map_eq_nil. by destruct (digits_nonempty n).
Qed.

Lemma dotted_first_digits ds l : forallb is_digit ds = true →
  dotted_first (ds ++ "."%char :: l) = true.
Proof.
  induction ds as [|c ds IH]; simpl; [done|]. intros [Hc Hd]%andb_true_iff.
  rewrite !bool_decide_eq_false_2 by (intros ->; done). simpl. auto.
Qed.

Lemma is_octet_range n : is_octet n = true ↔ 0 <= n <= 255.
Proof. unfold is_octet. rewrite andb_true_iff, !Z.leb_le. lia. Qed.

Lemma addr4_ok_range a : addr4_ok a = true ↔
  0 <= oct1 a <= 255 ∧ 0 <= oct2 a <= 255 ∧ 0 <= oct3 a <= 255 ∧ 0 <= oct4 a <= 255.
Proof. unfold addr4_ok. rewrite !andb_true_iff, !is_octet_range. tauto. Qed.

(** [ParseAddr(addr.String())] is [addr]. *)
Lemma parse_addr4_string a : addr4_ok a = true → parse_addr4 (addr4_string a) = Some a.
Proof.
  intros (H1 & H2 & H3 & H4)%addr4_ok_range. destruct a as [a b c d]; simpl in *.
  unfold parse_addr4, addr4_string. rewrite chars_implode. simpl.
  rewrite dotted_first_digits by apply format_uint_digits.
  destruct (ipv4_fields_octet a H1) with (rest := "."%char :: octet_text b
             ++ "."%char :: octet_text c ++ "."%char :: octet_text d) (fields := @nil Z) (prev := @None ascii)
    as (dl1 & c1 & -> & Hc1).
  rewrite ipv4_fields_dot; [|done|by destruct (octet_text b)|simpl; lia]. change ([] ++ [a]) with [a].
  destruct (ipv4_fields_octet b H2) with (rest := "."%char :: octet_text c
             ++ "."%char :: octet_text d) (fields := [a]) (prev := Some "."%char)
    as (dl2 & c2 & -> & Hc2).
  rewrite ipv4_fields_dot; [|done|by destruct (octet_text c)|simpl; lia]. change ([a] ++ [b]) with [a; b].
  destruct (ipv4_fields_octet c H3) with (rest := "."%char :: octet_text d)
    (fields := [a; b]) (prev := Some "."%char) as (dl3 & c3 & -> & Hc3).
  rewrite ipv4_fields_dot; [|done|apply octet_text_nonempty; lia|simpl; lia].
  destruct (ipv4_fields_octet d H4) with (rest := @nil ascii)
    (fields := [a; b; c]) (prev := Some "."%char) as (dl4 & c4 & Heq & _).
  rewrite app_nil_r in Heq. simpl app. by rewrite Heq.
Qed.

(** ** Parsing then printing *)

(** Reading octets never changes the text: what was read so far ([cur], the
    digits of the current octet) and what is left print as the octets the
    parser returns. *)
Fixpoint join_octets (fields : list Z) : list ascii :=
  match fields with
  | [] => []
  | [v] => octet_text v
  | v :: fields => octet_text v ++ "."%char :: join_octets fields
  end.

Lemma ipv4_fields_sound l : ∀ fields val dl prev cur out,
  ipv4_fields l fields val dl prev = Some out →
  0 <= val <= 255 → dl = Z.of_nat (length cur) → (length fields ≤ 3)%nat →
  (cur = [] ∧ l ≠ [] ∧ val = 0 ∧ (prev = None ∨ prev = Some "."%char)
    ∨ cur = octet_text val ∧ ∃ c, prev = Some c ∧ is_digit c = true) →
  ∃ vals, out = fields ++ vals ∧ cur ++ l = join_octets vals
    ∧ Forall (λ v, 0 <= v <= 255) vals ∧ length out = 4%nat ∧ vals ≠ [].
Proof.
  induction l as [|c l IH]; intros fields val dl prev cur out H Hval Hdl Hlen Hcur; simpl in H.
  - destruct (length fields <? 3)%nat eqn:E; [done|]. injection H as <-. breflect.
    destruct Hcur as [(_ & ? & _)|[-> _]]; [done|].
    exists [val]. rewrite app_nil_r, length_app. simpl. split_and!; [done..| |lia|done].
    by constructor.
  - destruct (is_digit c) eqn:Hc.
    + destruct ((dl =? 1) && (val =? 0)) eqn:E; [done|].
      destruct (255 <? _) eqn:Hv; [done|]. breflect.
      pose proof (proj1 (is_digit_code c) Hc).
      apply IH with (cur := cur ++ [c]) in H as (vals & -> & Hj & Hf & Hl & Hne);
        [|lia|rewrite length_app; simpl; lia|done|].
      * exists vals. by rewrite <-app_assoc in Hj.
      * right. split; [|by eauto].
        destruct Hcur as [(-> & _ & -> & _)|[-> _]]; [by rewrite Z.mul_0_l, Z.add_0_l, octet_text_digit|].
        destruct (decide (val = 0)) as [->|]; [simpl in *; lia|].
        rewrite octet_text_snoc by (done || lia). done.
    + case_bool_decide as Hdot; [subst c|done].
      destruct (_ || _) eqn:E in H; [done|]. breflect. destruct E as [[Hp1 Hl] Hp2].
      destruct (length fields =? 3)%nat eqn:Ef; [done|]. breflect.
      destruct Hcur as [(_ & _ & _ & [-> | ->])|[-> _]]; [done..|].
      apply IH with (cur := []) in H as (vals & -> & Hj & Hf & Hlo & Hne);
        [|lia|done|rewrite length_app; simpl; lia|left; by eauto].
      exists (val :: vals). rewrite <-app_assoc in Hlo |- *. simpl in *. split_and!; [done| |by constructor|done|done].
      destruct vals as [|v vals]; [done|]. by rewrite Hj.
Qed.

(** A text that parses as IPv4 is the canonical text of the address: the
    comparison with [String()] never rejects an IPv4 address. *)
Lemma addr4_string_parse s a : parse_addr4 s = Some a →
  addr4_string a = s ∧ addr4_ok a = true.
Proof.
  unfold parse_addr4. destruct (dotted_first (chars s)) eqn:Hd; [|done].
  destruct (ipv4_fields (chars s) [] 0 0 None) as [out|] eqn:E; [|done]. intros H.
  apply ipv4_fields_sound with (cur := []) in E as (vals & -> & Hj & Hf & Hl & _);
    [|lia|done|simpl; lia|left; split_and!; [done| |done|by left]; by destruct (chars s)].
  destruct vals as [|v1 [|v2 [|v3 [|v4 [|]]]]]; simplify_eq/=.
  unfold addr4_string. simpl. rewrite <-Hj, implode_chars. split; [done|].
  apply addr4_ok_range. simpl. inversion_clear Hf as [|? ? ? Hf']. inversion_clear Hf' as [|? ? ? Hf].
  inversion_clear Hf as [|? ? ? Hf']. inversion_clear Hf'. done.
Qed.

Lemma canonical_ipv4_parse s : canonical_ipv4 s = parse_addr4 s.
Proof.
  unfold canonical_ipv4. destruct (parse_addr4 s) as [a|] eqn:E; [|done].
  apply addr4_string_parse in E as [-> _]. by rewrite String.eqb_refl.
Qed.

Lemma canonical_ipv4_spec s a : canonical_ipv4 s = Some a ↔ addr4_string a = s ∧ addr4_ok a = true.
Proof.
  rewrite canonical_ipv4_parse. split; [apply addr4_string_parse|].
  intros [<- Ha]. by apply parse_addr4_string.
Qed.

Lemma addr4_string_inj a b : addr4_ok a = true → addr4_ok b = true →
  addr4_string a = addr4_string b → a = b.
Proof.
  intros Ha%parse_addr4_string Hb%parse_addr4_string H. rewrite H in Ha. congruence.
Qed.

(** The dotted-quad text as pieces of the pattern the command grammar uses. *)
Lemma octet_text_digits n : forallb is_digit (octet_text n) = true.
Proof. apply format_uint_digits. Qed.

Lemma octet_text_length n : 0 <= n <= 255 → (1 ≤ length (octet_text n) ≤ 3)%nat.
Proof.
  intros Hn. split.
  - pose proof (octet_text_nonempty n ltac:(lia)). destruct (octet_text n); simpl; [done|lia].
  - apply format_uint_length; simpl; lia.
Qed.
