(* ===== verification/Policy.v ===== *)
(** * The closed [nft-blacklist-v1] command grammar ([internal/policy])

    Models [types.go], [parser.go] and [artifact.go]: the only command the
    system may ever execute is
    [add element inet sentinelflow blacklist_ipv4 { <ipv4> timeout <ttl> }].
    [Parse] reads a generated candidate, [CanonicalBytes] prints the canonical
    form, and [BuildArtifact] binds both to the policy. *)

From S2P Require Import Prelude GoStrings Regex Sha256 Netip.
Local Open Scope Z_scope.

(** ** Constants and data ([types.go]) *)

Definition PolicySchemaVersion : string := "response-policy-v1".
Definition CandidateSchemaVersion : string := "nft-blacklist-v1".
Definition ActionBlockIP : string := "block_ip".
Definition MinTTLSeconds : Z := 60.
Definition MaxTTLSeconds : Z := 86400.
Definition MaxEvidenceIDs : nat := 50.
Definition MaxGeneratedBytes : Z := 256.

Inductive ErrorCode :=
| ErrorSyntax | ErrorTarget | ErrorTTL | ErrorSchema | ErrorAction
| ErrorEvidence | ErrorTargetMismatch | ErrorTTLMismatch | ErrorCandidateMismatch.

Record Policy := MkPolicy {
  pol_SchemaVersion : string;
  pol_Action : string;
  pol_TargetIPv4 : string;
  pol_TTLSeconds : Z;
  pol_EvidenceIDs : list string
}.

Record Candidate := MkCandidate {
  cand_SchemaVersion : string;
  cand_TargetIPv4 : string;
  cand_TimeoutToken : string;
  cand_EvidenceIDs : list string;
  cand_GeneratedBytes : string
}.

(** [target] is [None] for the zero [netip.Addr]: only [Parse] builds another. *)
Record AST := MkAST {
  ast_target : option addr4;
  ast_ttlSeconds : Z;
  ast_inputTTLToken : string
}.

(** [AST.TargetIPv4()]; the zero address prints as ["invalid IP"]. *)
Definition ast_TargetIPv4 (a : AST) : string :=
  match ast_target a with Some t => addr4_string t | None => "invalid IP" end.

Record Artifact := MkArtifact {
  art_ast : AST;
  art_generatedBytes : string;
  art_generatedDigest : string;
  art_canonicalBytes : string;
  art_canonicalDigest : string;
  art_canonicalToken : string;
  art_evidenceIDs : list string
}.

(** ** Parsing ([parser.go]) *)

Definition is_unit (c : ascii) : bool := bool_decide (c ∈ ["s"; "m"; "h"]%char).
Definition is_newline (c : ascii) : bool := bool_decide (c = "010"%char).

(** [^([1-9][0-9]{0,4})([smh])$] *)
Definition ttlPattern : pattern :=
  [exactly 1 (between "1" "9"); rep 0 4 is_digit; exactly 1 is_unit].

(** [[0-9]{1,3}\.[0-9]{1,3}\.[0-9]{1,3}\.[0-9]{1,3}] *)
Definition quadPattern : pattern :=
  [rep 1 3 is_digit; lit "."; rep 1 3 is_digit; lit "."; rep 1 3 is_digit; lit "."; rep 1 3 is_digit].

(** [^add element inet sentinelflow blacklist_ipv4 \{ (<quad>) timeout (<ttl>) \}\n?$] *)
Definition commandPattern : pattern :=
  lit "add element inet sentinelflow blacklist_ipv4 { " :: quadPattern
    ++ lit " timeout " :: ttlPattern ++ [lit " }"; rep 0 1 is_newline].

(** The two submatches of [commandPattern]: address text and timeout token. *)
Definition command_submatches (s : string) : option (string * string) :=
  match find_submatch commandPattern (chars s) with
  | Some [_; a; d1; b; d2; c; d3; d; _; t1; t2; t3; _; _] =>
      Some (implode (a ++ d1 ++ b ++ d2 ++ c ++ d3 ++ d), implode (t1 ++ t2 ++ t3))
  | _ => None
  end.

(** The two submatches of [ttlPattern]: number and unit. *)
Definition ttl_submatches (s : string) : option (string * string) :=
  match find_submatch ttlPattern (chars s) with
  | Some [a; b; u] => Some (implode (a ++ b), implode u)
  | _ => None
  end.

Definition ParseTTL (token : string) : result ErrorCode Z :=
  match ttl_submatches token with
  | None => Err ErrorTTL
  | Some (number, unit) =>
      match parse_uint 64 number with
      | None => Err ErrorTTL
      | Some value =>
          let multiplier :=
            if String.eqb unit "m" then 60 else if String.eqb unit "h" then 3600 else 1 in
          if MaxUint64 / multiplier <? value then Err ErrorTTL
          else
            let seconds := u64 (value * multiplier) in
            if (seconds <? MinTTLSeconds) || (MaxTTLSeconds <? seconds) then Err ErrorTTL
            else Ok (u32 seconds)
      end
  end.

Definition utf8_bom : string := implode [chr 239; chr 187; chr 191].

Definition Parse (generated : string) : result ErrorCode AST :=
  if (len generated =? 0) || (MaxGeneratedBytes <? len generated)
     || negb (utf8_valid generated) || String.prefix utf8_bom generated
  then Err ErrorSyntax
  else if existsb (λ c, (127 <? code c) || (code c =? 0)) (chars generated) then Err ErrorSyntax
  else
    match command_submatches generated with
    | None => Err ErrorSyntax
    | Some (addressText, ttlText) =>
        match canonical_ipv4 addressText with
        | Some address =>
            if is_global_unicast address then
              seconds ← ParseTTL ttlText;
              Ok (MkAST (Some address) seconds ttlText)
            else Err ErrorTarget
        | None => Err ErrorTarget
        end
    end.

(** ** Canonical forms ([parser.go], [artifact.go]) *)

Definition CanonicalTTL (seconds : Z) : result ErrorCode string :=
  if (seconds <? MinTTLSeconds) || (MaxTTLSeconds <? seconds) then Err ErrorTTL
  else if seconds mod 3600 =? 0 then Ok (format_uint (seconds / 3600) +:+ "h")
  else if seconds mod 60 =? 0 then Ok (format_uint (seconds / 60) +:+ "m")
  else Ok (format_uint seconds +:+ "s").

(** The line feed that ends a canonical command. *)
Definition lf : string := String "010" "".

Definition CanonicalBytes (ast : AST) : result ErrorCode string :=
  match ast_target ast with
  | None => Err ErrorTarget
  | Some target =>
      if negb (is_global_unicast target) then Err ErrorTarget
      else
        token ← CanonicalTTL (ast_ttlSeconds ast);
        Ok ("add element inet sentinelflow blacklist_ipv4 { " +:+ addr4_string target
              +:+ " timeout " +:+ token +:+ " }" +:+ lf)
  end.

(** ** Artifacts ([artifact.go]) *)

Fixpoint validEvidenceIDs_loop (index : nat) (previous : string) (ids : list string) : bool :=
  match ids with
  | [] => true
  | id :: ids =>
      if negb (match_string uuid_pattern id) || ((0 <? index)%nat && negb (String.ltb previous id))
      then false
      else validEvidenceIDs_loop (S index) id ids
  end.

Definition validEvidenceIDs (ids : list string) : bool :=
  if (length ids =? 0)%nat || (MaxEvidenceIDs <? length ids)%nat then false
  else validEvidenceIDs_loop 0 "" ids.

Fixpoint equalEvidence_loop (lhs rhs : list string) : bool :=
  match lhs, rhs with
  | l :: lhs, r :: rhs => if negb (String.eqb l r) then false else equalEvidence_loop lhs rhs
  | _, _ => true
  end.

Definition equalEvidence (lhs rhs : list string) : bool :=
  if negb (length lhs =? length rhs)%nat then false else equalEvidence_loop lhs rhs.

Definition BuildArtifact (policy : Policy) (candidate : Candidate) : result ErrorCode Artifact :=
  if negb (String.eqb (pol_SchemaVersion policy) PolicySchemaVersion)
     || negb (String.eqb (cand_SchemaVersion candidate) CandidateSchemaVersion)
  then Err ErrorSchema
  else if negb (String.eqb (pol_Action policy) ActionBlockIP) then Err ErrorAction
  else if negb (validEvidenceIDs (pol_EvidenceIDs policy))
          || negb (validEvidenceIDs (cand_EvidenceIDs candidate))
          || negb (equalEvidence (pol_EvidenceIDs policy) (cand_EvidenceIDs candidate))
  then Err ErrorEvidence
  else
    ast ← Parse (cand_GeneratedBytes candidate);
    if negb (String.eqb (cand_TargetIPv4 candidate) (ast_TargetIPv4 ast))
       || negb (String.eqb (pol_TargetIPv4 policy) (ast_TargetIPv4 ast))
    then Err ErrorTargetMismatch
    else if negb (String.eqb (cand_TimeoutToken candidate) (ast_inputTTLToken ast))
    then Err ErrorCandidateMismatch
    else if negb (pol_TTLSeconds policy =? ast_ttlSeconds ast) then Err ErrorTTLMismatch
    else
      canonicalToken ← CanonicalTTL (ast_ttlSeconds ast);
      canonical ← CanonicalBytes ast;
      Ok {| art_ast := ast;
            art_generatedBytes := cand_GeneratedBytes candidate;
            art_generatedDigest := digest (cand_GeneratedBytes candidate);
            art_canonicalBytes := canonical;
            art_canonicalDigest := digest canonical;
            art_canonicalToken := canonicalToken;
            art_evidenceIDs := pol_EvidenceIDs policy |}.

(** ** Examples: the repository's own contract vectors *)

Definition vector_add : string :=
  "add element inet sentinelflow blacklist_ipv4 { 203.0.113.20 timeout 30m }" +:+ lf.

(** [capability_add_v1.artifact_digest] of
    [contracts/vectors/contract_vectors_v1.json]. *)
Example vector_add_digest :
  digest vector_add = "sha256:866cc23464d760a1de172d66ccd076c6a7915c6011a75d47dc93224bbe5539e6".
Proof. vm_compute. reflexivity. Qed.

Example vector_add_parse :
  Parse vector_add = Ok (MkAST (Some (Addr4 203 0 113 20)) 1800 "30m").
Proof. vm_compute. reflexivity. Qed.

(** [ttl_canonical_v1] of the same file. *)
Example vector_ttl_accepted :
  ParseTTL <$> ["60s"; "61s"; "1800s"; "30m"; "3600s"; "24h"]
  = Ok <$> [60; 61; 1800; 1800; 3600; 86400].
Proof. vm_compute. reflexivity. Qed.

Example vector_ttl_canonical :
  CanonicalTTL <$> [60; 61; 1800; 3600; 86400] = Ok <$> ["1m"; "61s"; "30m"; "1h"; "24h"].
Proof. vm_compute. reflexivity. Qed.

Example vector_ttl_rejected :
  ParseTTL <$> ["0s"; "59s"; "1441m"; "25h"; "01m"; "1M"; "1.5h"; "1 m"; "86401s"]
  = replicate 9 (Err ErrorTTL).
Proof. vm_compute. reflexivity. Qed.
