(* ===== verification/PolicySpec.v ===== *)
(** * Correctness of the command grammar

    The accepted language of [Parse] and [ParseTTL] characterised exactly, the
    round trips between parsing and canonical printing, and what a built
    [Artifact] guarantees. *)

From S2P Require Import Prelude GoSort GoStrings Regex Sha256 Netip Policy.
Local Open Scope Z_scope.

(** ** Specification of the grammar *)

(** A token: a decimal number without leading zeros and a unit. *)
Inductive ttl_token : string → Z → Prop :=
| ttl_s v : 1 <= v <= 99999 → ttl_token (format_uint v +:+ "s") v
| ttl_m v : 1 <= v <= 99999 → ttl_token (format_uint v +:+ "m") (60 * v)
| ttl_h v : 1 <= v <= 99999 → ttl_token (format_uint v +:+ "h") (3600 * v).

(** The one command, with or without the final line feed. *)
Definition command_text (target : addr4) (token : string) (newline : bool) : string :=
  "add element inet sentinelflow blacklist_ipv4 { " +:+ addr4_string target
    +:+ " timeout " +:+ token +:+ " }" +:+ (if newline then lf else "").

(** ** Helper lemmas *)

Lemma nonzero_digit c : between "1" "9" c = true ↔ 49 <= code c <= 57.
Proof. unfold between. rewrite andb_true_iff, !Z.leb_le. done. Qed.

Lemma number_pieces_sound a b :
  item_ok (exactly 1 (between "1" "9")) a → item_ok (rep 0 4 is_digit) b →
  ∃ v, 1 <= v <= 99999 ∧ a ++ b = chars (format_uint v).
Proof.
  intros [Ha1 Ha2] [Hb1 Hb2]. simpl in *.
  destruct a as [|c [|? ?]]; simpl in *; [lia| |lia]. rewrite andb_true_r in Ha2.
  apply nonzero_digit in Ha2.
  set (v := of_digits (map char_digit (c :: b))).
  assert (Hd : Forall is_dec (map char_digit (c :: b))).
  { apply is_digit_dec. simpl. rewrite Hb2, andb_true_r. apply is_digit_code. lia. }
  pose proof (of_digits_bound _ Hd) as Hbound. simpl map in *.
  assert (Hpos : 0 < v).
  { apply of_digits_pos; [unfold char_digit; lia|]. by apply Forall_cons in Hd as [_ Hd]. }
  assert (v < 10 ^ 5).
  { subst v. eapply Z.lt_le_trans; [apply Hbound|]. apply Z.pow_le_mono_r; [lia|].
    simpl. rewrite length_map. lia. }
  exists v. split; [lia|]. unfold format_uint. rewrite chars_implode. subst v.
  apply Forall_cons in Hd as [Hc Hd].
  rewrite digits_of_digits by (done || unfold char_digit; lia).
  change (char_digit c :: map char_digit b) with (map char_digit (c :: b)).
  by rewrite map_digit_char.
Qed.

Lemma number_pieces_complete v : 1 <= v <= 99999 → ∃ a b,
  item_ok (exactly 1 (between "1" "9")) a ∧ item_ok (rep 0 4 is_digit) b ∧
  chars (format_uint v) = a ++ b.
Proof.
  intros Hv. pose proof (format_uint_digits v) as Hd.
  pose proof (format_uint_length v 5 ltac:(simpl; lia) ltac:(lia)) as Hl.
  destruct (digits_head v ltac:(lia)) as (d & l & He & Hd1).
  pose proof (digits_dec v) as Hdec. unfold format_uint in *. rewrite chars_implode in *.
  rewrite He in *. simpl map in *. apply Forall_cons in Hdec as [Hdd _].
  simpl in Hd, Hl. apply andb_true_iff in Hd as [_ Hd].
  exists [digit_char d], (map digit_char l). split_and!; [split; [done|]|split; [simpl in *; lia|done]|done].
  simpl. rewrite andb_true_r. apply nonzero_digit. unfold is_dec in Hdd.
  unfold digit_char. rewrite code_chr; lia.
Qed.

Lemma ttlPattern_delimited : delimited ttlPattern.
Proof. solve_delimited. Qed.

Lemma commandPattern_delimited : delimited commandPattern.
Proof. solve_delimited. Qed.

Lemma ttl_submatches_spec token n u : ttl_submatches token = Some (n, u) ↔
  ∃ v c, 1 <= v <= 99999 ∧ is_unit c = true ∧ n = format_uint v ∧ u = String c "" ∧
         token = n +:+ u.
Proof.
  unfold ttl_submatches. split.
  - destruct (find_submatch ttlPattern (chars token)) as [ps|] eqn:E; [|done].
    apply find_submatch_sound in E as [H Hc].
    destruct ps as [|a [|b [|w [|]]]]; try done. intros [= <- <-].
    inversion H as [|? ? ? ? Ha H1]; subst. inversion H1 as [|? ? ? ? Hb H2]; subst.
    inversion H2 as [|? ? ? ? Hw H3]; subst.
    destruct (number_pieces_sound a b Ha Hb) as (v & Hv & Hab).
    destruct Hw as [Hw1 Hw2]. destruct w as [|c [|? ?]]; simpl in *; [lia| |lia].
    rewrite andb_true_r in Hw2. exists v, c. rewrite Hab, implode_chars. split_and!; [lia..|done|done|done|].
    apply chars_inj. rewrite <-Hc, chars_app, <-Hab, <-app_assoc. done.
  - intros (v & c & Hv & Hc & -> & -> & ->).
    destruct (number_pieces_complete v Hv) as (a & b & Ha & Hb & Hab).
    rewrite (find_submatch_pieces ttlPattern _ [a; b; [c]] ttlPattern_delimited).
    + rewrite <-Hab, implode_chars. done.
    + split.
      * repeat (apply Forall2_cons; split; [done|]). apply Forall2_cons. split; [|done].
        split; [simpl; lia|]. simpl. by rewrite Hc.
      * simpl. rewrite chars_app, Hab, <-app_assoc. done.
Qed.

Lemma is_unit_cases c : is_unit c = true → c = "s"%char ∨ c = "m"%char ∨ c = "h"%char.
Proof.
  unfold is_unit. rewrite bool_decide_eq_true. intros H.
  repeat (apply elem_of_cons in H as [->|H]; [tauto|]). by apply elem_of_nil in H.
Qed.

Lemma parse_number v : 1 <= v <= 99999 → parse_uint 64 (format_uint v) = Some v.
Proof. intros. apply parse_format_uint. lia. Qed.

(** What [ParseTTL] computes once the token has matched. *)
Lemma ParseTTL_match v m u :
  1 <= v <= 99999 → (u = "s" ∧ m = 1 ∨ u = "m" ∧ m = 60 ∨ u = "h" ∧ m = 3600) →
  ParseTTL (format_uint v +:+ u) =
    if (m * v <? MinTTLSeconds) || (MaxTTLSeconds <? m * v) then Err ErrorTTL else Ok (m * v).
Proof.
  intros Hv Hu. unfold ParseTTL.
  assert (Hm : ttl_submatches (format_uint v +:+ u) = Some (format_uint v, u)).
  { apply ttl_submatches_spec. destruct Hu as [[-> _]|[[-> _]|[-> _]]];
      [exists v, "s"%char|exists v, "m"%char|exists v, "h"%char]; done. }
  rewrite Hm, parse_number by done. cbv zeta.
  replace (if String.eqb u "m" then 60 else if String.eqb u "h" then 3600 else 1) with m
    by (destruct Hu as [[-> ->]|[[-> ->]|[-> ->]]]; done).
  assert (Hmax : (MaxUint64 / m <? v) = false).
  { apply Z.ltb_ge. destruct Hu as [[_ ->]|[[_ ->]|[_ ->]]]; unfold MaxUint64;
      apply Z.div_le_lower_bound; lia. }
  rewrite Hmax. unfold u64. rewrite Z.mod_small by lia. rewrite (Z.mul_comm v m).
  destruct (_ || _) eqn:E; [done|]. unfold MinTTLSeconds, MaxTTLSeconds in E. bsplit.
  unfold u32. by rewrite Z.mod_small by lia.
Qed.

(** ** The accepted TTL language *)

Lemma ParseTTL_iff token seconds :
  ParseTTL token = Ok seconds ↔
  ttl_token token seconds ∧ MinTTLSeconds <= seconds <= MaxTTLSeconds.
Proof.
  split.
  - intros H. assert (Hm : is_Some (ttl_submatches token)).
    { unfold ParseTTL in H. by destruct (ttl_submatches token). }
    destruct Hm as [[n u] (v & c & Hv & Hc & -> & -> & ->)%ttl_submatches_spec].
    apply is_unit_cases in Hc as [-> | [-> | ->]];
      [rewrite (ParseTTL_match v 1) in H by tauto|rewrite (ParseTTL_match v 60) in H by tauto
      |rewrite (ParseTTL_match v 3600) in H by tauto];
      destruct (_ || _) eqn:E in H; simplify_eq; bsplit; (split; [|lia]);
      rewrite ?Z.mul_1_l; by constructor.
  - intros [Ht Hr]. destruct Ht as [v Hv|v Hv|v Hv];
      [rewrite (ParseTTL_match v 1) by tauto|rewrite (ParseTTL_match v 60) by tauto
      |rewrite (ParseTTL_match v 3600) by tauto];
      rewrite ?Z.mul_1_l; by destruct (_ || _) eqn:E; [breflect; destruct_or!; lia|].
Qed.

(** The canonical token is a token of the same number of seconds. *)
Lemma CanonicalTTL_token seconds token :
  CanonicalTTL seconds = Ok token → ttl_token token seconds ∧ MinTTLSeconds <= seconds <= MaxTTLSeconds.
Proof.
  unfold CanonicalTTL. intros Hok. destruct (_ || _) eqn:E in Hok; [done|].
  unfold MinTTLSeconds, MaxTTLSeconds in *. bsplit. split; [|lia].
  destruct (seconds mod 3600 =? 0) eqn:E1; [|destruct (seconds mod 60 =? 0) eqn:E2];
    simplify_eq; breflect.
  - replace seconds with (3600 * (seconds / 3600)) at 2 by (Z.div_mod_to_equations; lia).
    constructor. Z.div_mod_to_equations; lia.
  - replace seconds with (60 * (seconds / 60)) at 2 by (Z.div_mod_to_equations; lia).
    constructor. Z.div_mod_to_equations; lia.
  - constructor. lia.
Qed.

Lemma CanonicalTTL_total seconds : MinTTLSeconds <= seconds <= MaxTTLSeconds →
  ∃ token, CanonicalTTL seconds = Ok token.
Proof.
  intros H. unfold CanonicalTTL. destruct (_ || _) eqn:E; [breflect; destruct_or!; lia|].
  repeat case_match; eauto.
Qed.

(** ** Texts of the grammar *)

Lemma addr_pieces a : addr4_ok a = true →
  Forall2 item_ok quadPattern
    [octet_text (oct1 a); ["."%char]; octet_text (oct2 a); ["."%char];
     octet_text (oct3 a); ["."%char]; octet_text (oct4 a)].
Proof.
  intros (H1 & H2 & H3 & H4)%addr4_ok_range.
  assert (Ho : ∀ n, 0 <= n <= 255 → item_ok (rep 1 3 is_digit) (octet_text n)).
  { intros n Hn. split; [apply (octet_text_length n Hn)|apply octet_text_digits]. }
  repeat (apply Forall2_cons; split; [by auto|]). constructor.
Qed.

Lemma ttl_token_pieces token seconds : ttl_token token seconds → ∃ t1 t2 t3,
  chars token = t1 ++ t2 ++ t3 ∧ Forall2 item_ok ttlPattern [t1; t2; t3].
Proof.
  assert (Hu : ∀ v (c : ascii), 1 <= v <= 99999 → is_unit c = true → ∃ t1 t2 t3,
    chars (format_uint v +:+ String c "") = t1 ++ t2 ++ t3 ∧ Forall2 item_ok ttlPattern [t1; t2; t3]).
  { intros v c Hv Hc. destruct (number_pieces_complete v Hv) as (a & b & Ha & Hb & Hab).
    exists a, b, [c]. split; [by rewrite chars_app, Hab, <-app_assoc|].
    repeat (apply Forall2_cons; split; [done|]). apply Forall2_cons. split; [|done].
    split; [simpl; lia|]. simpl. by rewrite Hc. }
  intros [v Hv|v Hv|v Hv]; by apply Hu.
Qed.

Lemma command_submatches_text a token seconds newline :
  addr4_ok a = true → ttl_token token seconds →
  command_submatches (command_text a token newline) = Some (addr4_string a, token).
Proof.
  intros Ha Ht. destruct (ttl_token_pieces _ _ Ht) as (t1 & t2 & t3 & Htok & Hp).
  unfold command_submatches.
  rewrite (find_submatch_pieces commandPattern _
    (chars "add element inet sentinelflow blacklist_ipv4 { "
     :: [octet_text (oct1 a); ["."%char]; octet_text (oct2 a); ["."%char];
         octet_text (oct3 a); ["."%char]; octet_text (oct4 a)]
     ++ chars " timeout " :: [t1; t2; t3] ++ [chars " }"; if newline then ["010"%char] else []])
     commandPattern_delimited).
  - simpl. f_equal. f_equal. by rewrite <-Htok, implode_chars.
  - split.
    + apply Forall2_cons. split; [done|]. apply Forall2_app; [by apply addr_pieces|].
      apply Forall2_cons. split; [done|]. apply Forall2_app; [done|].
      apply Forall2_cons. split; [done|]. apply Forall2_cons. split; [|done].
      by destruct newline; (split; [simpl; lia|]).
    + unfold command_text. rewrite !chars_app, Htok. unfold addr4_string. rewrite chars_implode.
      simpl. repeat (rewrite <-!app_assoc; simpl). by destruct newline.
Qed.

Lemma newline_piece nl : item_ok (rep 0 1 is_newline) nl →
  nl = chars "" ∨ nl = chars lf.
Proof.
  intros [Hl Hf]. destruct nl as [|c [|? ?]]; simpl in *; [by left| |lia].
  rewrite andb_true_r in Hf. unfold is_newline in Hf. apply bool_decide_eq_true in Hf as ->. by right.
Qed.

Lemma command_submatches_sound g target token : command_submatches g = Some (target, token) →
  ∃ newline : bool, g = "add element inet sentinelflow blacklist_ipv4 { " +:+ target
    +:+ " timeout " +:+ token +:+ " }" +:+ (if newline then lf else "").
Proof.
  unfold command_submatches.
  destruct (find_submatch commandPattern (chars g)) as [ps|] eqn:E; [|done].
  apply find_submatch_sound in E as [H Hc].
  do 14 (destruct ps as [|? ps]; [done|]). destruct ps; [|done]. intros [= <- <-].
  unfold commandPattern, quadPattern, ttlPattern in H. cbn [app] in H.
  do 14 apply Forall2_cons in H as [? H].
  repeat match goal with H : item_ok (lit _) _ |- _ => simpl in H; subst end.
  match goal with Hn : item_ok (rep 0 1 is_newline) _ |- _ => apply newline_piece in Hn as [-> | ->] end;
    [exists false|exists true]; apply chars_inj; rewrite <-Hc;
    rewrite !chars_app, !chars_implode; cbn [concat]; rewrite <-!app_assoc; done.
Qed.

(** An ASCII text without NUL passes the byte-level guards of [Parse]. *)
Lemma utf8_valid_ascii l : Forall (λ c, code c < 128) l →
  ∀ fuel, (length l ≤ fuel)%nat → utf8_valid_aux fuel l = true.
Proof.
  induction 1 as [|c l Hc Hl IH]; intros [|fuel] Hf; simpl in *; try done; try lia.
  rewrite utf8_decode_ascii by done. simpl. rewrite drop_0. apply IH. lia.
Qed.

Definition plain_byte (c : ascii) : bool := (0 <? code c) && (code c <? 128).

Lemma guards_pass g : forallb plain_byte (chars g) = true → 0 < len g <= MaxGeneratedBytes →
  (len g =? 0) || (MaxGeneratedBytes <? len g) || negb (utf8_valid g) || String.prefix utf8_bom g
  = false ∧ existsb (λ c, (127 <? code c) || (code c =? 0)) (chars g) = false.
Proof.
  intros Hp Hl. rewrite forallb_Forall in Hp. split.
  - rewrite !orb_false_iff, negb_false_iff, Z.eqb_neq, Z.ltb_ge. split_and!; [lia..| |].
    + apply utf8_valid_ascii; [|done]. eapply Forall_impl; [exact Hp|].
      simpl. unfold plain_byte. intros c. rewrite andb_true_iff, !Z.ltb_lt. lia.
    + destruct g as [|c g]; [done|]. apply Forall_cons in Hp as [Hc _]. simpl.
      case_match; [subst|done]. by vm_compute in Hc.
  - apply existsb_false. eapply Forall_impl; [exact Hp|]. simpl. unfold plain_byte. intros c Hc.
    bsplit. split; lia.
Qed.

Lemma commandPattern_within : Forall (item_within plain_byte) commandPattern.
Proof. solve_within. Qed.

Lemma command_text_plain a token seconds newline :
  addr4_ok a = true → ttl_token token seconds →
  forallb plain_byte (chars (command_text a token newline)) = true.
Proof.
  intros Ha Ht. pose proof (command_submatches_text a token seconds newline Ha Ht) as H.
  unfold command_submatches in H.
  destruct (find_submatch commandPattern _) as [ps|] eqn:E; [|done].
  eapply pieces_within; [apply commandPattern_within|by apply find_submatch_sound].
Qed.

Lemma addr4_string_len a : addr4_ok a = true → len (addr4_string a) <= 15.
Proof.
  intros (H1 & H2 & H3 & H4)%addr4_ok_range. unfold addr4_string. rewrite len_implode.
  repeat (rewrite length_app; simpl length).
  pose proof (octet_text_length _ H1). pose proof (octet_text_length _ H2).
  pose proof (octet_text_length _ H3). pose proof (octet_text_length _ H4). lia.
Qed.

Lemma ttl_token_len token seconds : ttl_token token seconds → len token <= 6.
Proof.
  intros (t1 & t2 & t3 & Htok & Hp)%ttl_token_pieces. rewrite len_chars, Htok, !length_app.
  apply Forall2_cons in Hp as [[? _] Hp]. apply Forall2_cons in Hp as [[? _] Hp].
  apply Forall2_cons in Hp as [[? _] _]. simpl in *. lia.
Qed.

Lemma command_text_len a token seconds newline :
  addr4_ok a = true → ttl_token token seconds →
  0 < len (command_text a token newline) <= MaxGeneratedBytes.
Proof.
  intros Ha%addr4_string_len Ht%ttl_token_len. unfold command_text, MaxGeneratedBytes.
  rewrite !len_app. assert (0 <= len (addr4_string a)) by (unfold len; lia).
  assert (0 <= len token) by (unfold len; lia).
  destruct newline; unfold len in *; simpl in *; lia.
Qed.

Lemma Parse_text a token seconds newline :
  addr4_ok a = true → is_global_unicast a = true → ParseTTL token = Ok seconds →
  Parse (command_text a token newline) = Ok (MkAST (Some a) seconds token).
Proof.
  intros Ha Hg Ht. pose proof (proj1 (ParseTTL_iff token seconds) Ht) as [Htok _].
  unfold Parse.
  destruct (guards_pass (command_text a token newline)) as [-> ->];
    [by eapply command_text_plain|by eapply command_text_len|].
  erewrite command_submatches_text by done.
  rewrite (proj2 (canonical_ipv4_spec _ a)) by done. by rewrite Hg, Ht.
Qed.

(** ** The accepted command language *)

Lemma Parse_iff g ast :
  Parse g = Ok ast ↔
  ∃ a newline, ast_target ast = Some a ∧ addr4_ok a = true ∧ is_global_unicast a = true ∧
    ParseTTL (ast_inputTTLToken ast) = Ok (ast_ttlSeconds ast) ∧
    g = command_text a (ast_inputTTLToken ast) newline.
Proof.
  split.
  - unfold Parse. intros H. repeat (case_match; [done|]). case_match; [|done].
    match goal with E : command_submatches g = Some ?p |- _ => destruct p as [at_ tt_] end.
    destruct (canonical_ipv4 at_) as [a|] eqn:Ea; [|done].
    destruct (is_global_unicast a) eqn:Eg; [|done].
    inv_bind H. simplify_eq/=. apply canonical_ipv4_spec in Ea as [<- Hok].
    match goal with E : command_submatches g = Some _ |- _ =>
      apply command_submatches_sound in E as [newline ->] end.
    exists a, newline. done.
  - intros (a & newline & Ht & Hok & Hg & Httl & ->). destruct ast as [t s k]. simpl in *. subst.
    by apply Parse_text.
Qed.

(** ** Canonical printing *)

Lemma CanonicalBytes_text ast bytes : CanonicalBytes ast = Ok bytes →
  ∃ a token, ast_target ast = Some a ∧ is_global_unicast a = true ∧
    CanonicalTTL (ast_ttlSeconds ast) = Ok token ∧ bytes = command_text a token true.
Proof.
  unfold CanonicalBytes. destruct (ast_target ast) as [a|]; [|done].
  destruct (is_global_unicast a) eqn:Eg; [|done]. simpl. intros H. inv_bind H.
  simplify_eq. by eexists _, _.
Qed.

Definition ast_ok (ast : AST) : Prop :=
  match ast_target ast with Some a => addr4_ok a = true | None => True end.

Lemma Parse_canonical ast bytes :
  ast_ok ast → CanonicalBytes ast = Ok bytes →
  ∃ token, CanonicalTTL (ast_ttlSeconds ast) = Ok token ∧
    Parse bytes = Ok (MkAST (ast_target ast) (ast_ttlSeconds ast) token).
Proof.
  intros Hok (a & token & Ha & Hg & Ht & ->)%CanonicalBytes_text.
  unfold ast_ok in Hok. rewrite Ha in *. exists token. split; [done|].
  apply Parse_text; [done..|]. by apply ParseTTL_iff, CanonicalTTL_token.
Qed.

Lemma CanonicalBytes_total ast a : ast_target ast = Some a → is_global_unicast a = true →
  MinTTLSeconds <= ast_ttlSeconds ast <= MaxTTLSeconds → ∃ bytes, CanonicalBytes ast = Ok bytes.
Proof.
  intros Ha Hg Hr. destruct (CanonicalTTL_total _ Hr) as [token Ht].
  unfold CanonicalBytes. rewrite Ha, Hg, Ht. simpl. eauto.
Qed.

(** ** Evidence lists *)

Lemma validEvidenceIDs_loop_spec index previous ids :
  validEvidenceIDs_loop index previous ids = true ↔
  Forall (λ id, match_string uuid_pattern id = true) ids ∧ StronglySorted str_lt ids ∧
  (0 < index → Forall (str_lt previous) ids)%nat.
Proof.
  revert index previous. induction ids as [|id ids IH]; intros index previous; simpl.
  { split; [intros _; split_and!; by constructor|done]. }
  rewrite Forall_cons, StronglySorted_cons.
  destruct (match_string uuid_pattern id); simpl; [|naive_solver].
  destruct (0 <? index)%nat eqn:Ei, (String.ltb previous id) eqn:El; simpl; breflect;
    rewrite ?IH.
  - apply ltb_compare in El. split.
    + intros (Hu & Hs & Hf). split_and!; [done..|auto with lia|done|].
      intros _. constructor; [done|]. eapply Forall_impl; [apply Hf; lia|].
      intros x. by apply (cmp_lt_trans String.compare).
    + intros ((_ & Hu) & (Hf & Hs) & _). by split_and!.
  - split; [done|]. intros (_ & _ & Hf). specialize (Hf Ei). apply Forall_cons in Hf as [Hp _].
    apply ltb_compare in Hp. congruence.
  - split; [intros (Hu & Hs & Hf); split_and!; [done..|auto with lia|done|lia]|].
    intros ((_ & Hu) & (Hf & Hs) & _). by split_and!.
  - split; [intros (Hu & Hs & Hf); split_and!; [done..|auto with lia|done|lia]|].
    intros ((_ & Hu) & (Hf & Hs) & _). by split_and!.
Qed.

(** A usable evidence list: 1 to 50 UUIDs, strictly increasing. *)
Definition evidence_ok (ids : list string) : Prop :=
  (1 ≤ length ids ≤ MaxEvidenceIDs)%nat ∧
  Forall (λ id, match_string uuid_pattern id = true) ids ∧ StronglySorted str_lt ids.

Lemma validEvidenceIDs_iff ids : validEvidenceIDs ids = true ↔ evidence_ok ids.
Proof.
  unfold validEvidenceIDs, evidence_ok. destruct (_ || _) eqn:E; breflect.
  - split; [done|]. intros (Hl & _). destruct_or!; lia.
  - rewrite validEvidenceIDs_loop_spec. destruct_and!. naive_solver lia.
Qed.

Lemma equalEvidence_iff lhs rhs : equalEvidence lhs rhs = true ↔ lhs = rhs.
Proof.
  unfold equalEvidence. revert rhs. induction lhs as [|l lhs IH]; intros [|r rhs]; simpl; try done.
  destruct (String.eqb l r) eqn:E; simpl.
  - apply String.eqb_eq in E as ->. rewrite IH. naive_solver.
  - apply String.eqb_neq in E. case_match; naive_solver.
Qed.

(** ** Artifacts *)

(** What the policy and the candidate must agree on. *)
Record consistent (p : Policy) (c : Candidate) (a : addr4) (newline : bool) : Prop := {
  con_schema : pol_SchemaVersion p = PolicySchemaVersion;
  con_cand_schema : cand_SchemaVersion c = CandidateSchemaVersion;
  con_action : pol_Action p = ActionBlockIP;
  con_evidence : evidence_ok (pol_EvidenceIDs p);
  con_evidence_eq : cand_EvidenceIDs c = pol_EvidenceIDs p;
  con_addr : addr4_ok a = true;
  con_global : is_global_unicast a = true;
  con_target : pol_TargetIPv4 p = addr4_string a;
  con_cand_target : cand_TargetIPv4 c = addr4_string a;
  con_ttl : ParseTTL (cand_TimeoutToken c) = Ok (pol_TTLSeconds p);
  con_bytes : cand_GeneratedBytes c = command_text a (cand_TimeoutToken c) newline
}.

Definition artifact_of (p : Policy) (c : Candidate) (a : addr4) (token : string) : Artifact := {|
  art_ast := MkAST (Some a) (pol_TTLSeconds p) (cand_TimeoutToken c);
  art_generatedBytes := cand_GeneratedBytes c;
  art_generatedDigest := digest (cand_GeneratedBytes c);
  art_canonicalBytes := command_text a token true;
  art_canonicalDigest := digest (command_text a token true);
  art_canonicalToken := token;
  art_evidenceIDs := pol_EvidenceIDs p
|}.

Lemma BuildArtifact_complete p c a newline token :
  consistent p c a newline → CanonicalTTL (pol_TTLSeconds p) = Ok token →
  BuildArtifact p c = Ok (artifact_of p c a token).
Proof.
  intros [Hs Hcs Hac He Hee Ha Hg Ht Hct Httl Hb] Htok. unfold BuildArtifact.
  rewrite Hs, Hcs, Hac, Hee, !String.eqb_refl. simpl.
  rewrite (proj2 (validEvidenceIDs_iff _) He), (proj2 (equalEvidence_iff _ _) eq_refl). simpl.
  rewrite Hb, (Parse_text a _ _ newline Ha Hg Httl). unfold mbind, result_bind, ast_TargetIPv4. simpl.
  rewrite Ht, Hct, !String.eqb_refl, Z.eqb_refl, Htok. unfold CanonicalBytes. simpl.
  rewrite Hg, Htok. unfold artifact_of. rewrite Hb. done.
Qed.

Lemma BuildArtifact_consistent p c art : BuildArtifact p c = Ok art →
  ∃ a newline token, consistent p c a newline ∧ CanonicalTTL (pol_TTLSeconds p) = Ok token.
Proof.
  unfold BuildArtifact. intros H.
  destruct (_ || _) eqn:E1 in H; [done|]. destruct (negb _) eqn:E2 in H; [done|].
  destruct (_ || _) eqn:E3 in H; [done|]. inv_bind H. rename a into ast.
  destruct (_ || _) eqn:E4 in H; [done|]. destruct (negb _) eqn:E5 in H; [done|].
  destruct (negb _) eqn:E6 in H; [done|]. inv_bind H. rename a into token.
  rewrite ?orb_false_iff, ?negb_false_iff, ?String.eqb_eq, ?Z.eqb_eq in *. destruct_and!.
  match goal with HP : Parse _ = _ |- _ => apply Parse_iff in HP as (a & newline & Ha & Hok & Hg & Ht & Hb) end.
  unfold ast_TargetIPv4 in *. rewrite Ha in *.
  exists a, newline, token. split; [|congruence]. split; try congruence.
  - by apply validEvidenceIDs_iff.
  - symmetry. by apply equalEvidence_iff.
Qed.

(** ** Claims *)

(** [ParseTTL] accepts exactly the tokens [<number><unit>] without leading
    zeros whose value in seconds lies in 60..86400, and returns that value; no
    intermediate product overflows. *)
Theorem ParseTTL_spec token seconds :
  ParseTTL token = Ok seconds ↔
  ttl_token token seconds ∧ MinTTLSeconds <= seconds <= MaxTTLSeconds.
Proof. apply ParseTTL_iff. Qed.

(** C17. [Parse] accepts exactly one command per global-unicast IPv4 address and
    in-range TTL token, with or without one final line feed, and returns that
    address, the token and its value; every other byte string is rejected. *)
Theorem Parse_spec g ast :
  Parse g = Ok ast ↔
  ∃ a newline, ast_target ast = Some a ∧ addr4_ok a = true ∧ is_global_unicast a = true ∧
    ParseTTL (ast_inputTTLToken ast) = Ok (ast_ttlSeconds ast) ∧
    g = command_text a (ast_inputTTLToken ast) newline.
Proof. apply Parse_iff. Qed.

(** Round trip: the canonical bytes of an AST parse back to the same target
    and TTL, with the canonical token. *)
Theorem Parse_CanonicalBytes ast bytes :
  ast_ok ast → CanonicalBytes ast = Ok bytes →
  ∃ token, CanonicalTTL (ast_ttlSeconds ast) = Ok token ∧
    Parse bytes = Ok (MkAST (ast_target ast) (ast_ttlSeconds ast) token).
Proof. apply Parse_canonical. Qed.

Lemma Parse_CanonicalBytes_witness :
  ∃ token, CanonicalTTL 1800 = Ok token ∧
    Parse vector_add = Ok (MkAST (Some (Addr4 203 0 113 20)) 1800 token).
Proof.
  apply (Parse_CanonicalBytes (MkAST (Some (Addr4 203 0 113 20)) 1800 "1800s") vector_add);
    vm_compute; reflexivity.
Defined.

(** Canonical bytes determine the effect: two ASTs with the same canonical
    bytes block the same address for the same time. *)
Theorem CanonicalBytes_inj ast1 ast2 bytes :
  ast_ok ast1 → ast_ok ast2 → CanonicalBytes ast1 = Ok bytes → CanonicalBytes ast2 = Ok bytes →
  ast_target ast1 = ast_target ast2 ∧ ast_ttlSeconds ast1 = ast_ttlSeconds ast2.
Proof.
  intros Ho1 Ho2 H1 H2.
  destruct (Parse_canonical ast1 bytes Ho1 H1) as (t1 & _ & P1).
  destruct (Parse_canonical ast2 bytes Ho2 H2) as (t2 & _ & P2).
  rewrite P1 in P2. by simplify_eq.
Qed.

Lemma CanonicalBytes_inj_witness :
  Some (Addr4 203 0 113 20) = Some (Addr4 203 0 113 20) ∧ 1800 = 1800.
Proof.
  apply (CanonicalBytes_inj (MkAST (Some (Addr4 203 0 113 20)) 1800 "1800s")
           (MkAST (Some (Addr4 203 0 113 20)) 1800 "30m") vector_add); vm_compute; reflexivity.
Defined.

(** C16. [BuildArtifact] succeeds exactly when policy and candidate agree on
    schema, action, evidence, target, TTL and generated bytes, and the artifact
    it returns is the canonical command for that target and TTL with the digests
    of exactly the generated and the canonical bytes. *)
Theorem BuildArtifact_spec p c art :
  BuildArtifact p c = Ok art ↔
  ∃ a newline token, consistent p c a newline ∧ CanonicalTTL (pol_TTLSeconds p) = Ok token ∧
    art = artifact_of p c a token.
Proof.
  split.
  - intros H. destruct (BuildArtifact_consistent p c art H) as (a & nl & token & Hc & Ht).
    exists a, nl, token. rewrite (BuildArtifact_complete p c a nl token Hc Ht) in H. by simplify_eq.
  - intros (a & nl & token & Hc & Ht & ->). by eapply BuildArtifact_complete.
Qed.
