(* ===== verification/ResponsePolicy.v ===== *)
(** * Immutable response policies ([internal/policy/response_policy.go])

    The complete [response-policy-v1] object: its check, its canonical JCS
    bytes, and the revision chain.  (Reading the bytes back is [PolicyWire].) *)

From S2P Require Import Prelude GoSort GoStrings Regex Sha256 GoTime Netip Policy.
Local Open Scope Z_scope.

Definition MaxPolicyBytes : Z := 8 * 1024.

Record ResponsePolicy := MkResponsePolicy {
  rp_SchemaVersion : string;
  rp_PolicyID : string;
  rp_PolicyVersion : Z;
  rp_IncidentID : string;
  rp_AnalysisID : string;
  rp_Action : string;
  rp_TargetIPv4 : string;
  rp_TTLSeconds : Z;
  rp_EvidenceSnapshotDigest : string;
  rp_EvidenceIDs : list string;
  rp_RationaleDigest : string;
  rp_CreatedAt : localtime
}.

Record CheckedResponsePolicy := MkChecked {
  crp_value : ResponsePolicy;
  crp_canonical : string;
  crp_digest : string
}.

Inductive PolicyErrorCode :=
| PolicyErrorEncoding | PolicyErrorCanonical | PolicyErrorSchema | PolicyErrorID
| PolicyErrorVersion | PolicyErrorIncident | PolicyErrorAnalysis | PolicyErrorAction
| PolicyErrorTarget | PolicyErrorTTL | PolicyErrorDigest | PolicyErrorEvidence
| PolicyErrorCreatedAt | PolicyErrorRevision | PolicyErrorState | PolicyErrorTransition
| PolicyErrorStateRevision.

(** ** The canonical encoding *)

(** The digit loop of [appendUint32]: [fuel] is the ten-byte buffer, [acc] its
    filled tail; an exhausted buffer is an index panic. *)
Fixpoint appendUint32_loop (fuel : nat) (value : Z) (acc : list ascii) : option (list ascii) :=
  if 0 <? value then
    match fuel with
    | O => None
    | S f => appendUint32_loop f (value / 10) (digit_char (value mod 10) :: acc)
    end
  else Some acc.

Definition appendUint32 (value : Z) : string :=
  if value =? 0 then "0" else implode (default [] (appendUint32_loop 10 value [])).

Definition appendJSONString (value : string) : string := json_string value.

(** The comma-separated strings of a JSON array. *)
Fixpoint appendJSONStrings (index : nat) (ids : list string) : string :=
  match ids with
  | [] => ""
  | id :: ids =>
      (if (0 <? index)%nat then "," else "") +:+ appendJSONString id +:+ appendJSONStrings (S index) ids
  end.

Definition marshalResponsePolicyJCS (value : ResponsePolicy) : string :=
  qq "{'action':" +:+ appendJSONString (rp_Action value)
  +:+ qq ",'analysis_id':" +:+ appendJSONString (rp_AnalysisID value)
  +:+ qq ",'created_at':"
  +:+ appendJSONString (format_rfc3339nano (lt_instant (UTC (rp_CreatedAt value))))
  +:+ qq ",'evidence_ids':[" +:+ appendJSONStrings 0 (rp_EvidenceIDs value)
  +:+ qq "],'evidence_snapshot_digest':" +:+ appendJSONString (rp_EvidenceSnapshotDigest value)
  +:+ qq ",'incident_id':" +:+ appendJSONString (rp_IncidentID value)
  +:+ qq ",'policy_id':" +:+ appendJSONString (rp_PolicyID value)
  +:+ qq ",'policy_version':" +:+ appendUint32 (rp_PolicyVersion value)
  +:+ qq ",'rationale_digest':" +:+ appendJSONString (rp_RationaleDigest value)
  +:+ qq ",'schema_version':" +:+ appendJSONString (rp_SchemaVersion value)
  +:+ qq ",'target_ipv4':" +:+ appendJSONString (rp_TargetIPv4 value)
  +:+ qq ",'ttl_seconds':" +:+ appendUint32 (rp_TTLSeconds value)
  +:+ "}".

(** ** Checking and revising *)

Definition is_uuid (s : string) : bool := match_string uuid_pattern s.
Definition is_digest (s : string) : bool := match_string digest_pattern s.

Definition freeze (value : ResponsePolicy) : ResponsePolicy :=
  MkResponsePolicy (rp_SchemaVersion value) (rp_PolicyID value) (rp_PolicyVersion value)
    (rp_IncidentID value) (rp_AnalysisID value) (rp_Action value) (rp_TargetIPv4 value)
    (rp_TTLSeconds value) (rp_EvidenceSnapshotDigest value) (rp_EvidenceIDs value)
    (rp_RationaleDigest value) (UTC (rp_CreatedAt value)).

Definition CheckResponsePolicy (value : ResponsePolicy) : result PolicyErrorCode CheckedResponsePolicy :=
  if negb (String.eqb (rp_SchemaVersion value) PolicySchemaVersion) then Err PolicyErrorSchema
  else if negb (is_uuid (rp_PolicyID value)) then Err PolicyErrorID
  else if (rp_PolicyVersion value =? 0) || (MaxInt32 <? rp_PolicyVersion value) then Err PolicyErrorVersion
  else if negb (is_uuid (rp_IncidentID value)) then Err PolicyErrorIncident
  else if negb (is_uuid (rp_AnalysisID value)) then Err PolicyErrorAnalysis
  else if negb (String.eqb (rp_Action value) ActionBlockIP) then Err PolicyErrorAction
  else if negb (bool_decide (is_Some (canonical_ipv4 (rp_TargetIPv4 value)))) then Err PolicyErrorTarget
  else if (rp_TTLSeconds value <? MinTTLSeconds) || (MaxTTLSeconds <? rp_TTLSeconds value)
  then Err PolicyErrorTTL
  else if negb (is_digest (rp_EvidenceSnapshotDigest value)) || negb (is_digest (rp_RationaleDigest value))
  then Err PolicyErrorDigest
  else if negb (validEvidenceIDs (rp_EvidenceIDs value)) then Err PolicyErrorEvidence
  else if IsZero (lt_instant (rp_CreatedAt value)) || (LocalYear (rp_CreatedAt value) <? 1)
          || (9999 <? LocalYear (rp_CreatedAt value))
  then Err PolicyErrorCreatedAt
  else
    let frozen := freeze value in
    let canonical := marshalResponsePolicyJCS frozen in
    Ok (MkChecked frozen canonical (digest canonical)).

Definition ReviseResponsePolicy (previous : CheckedResponsePolicy) (next : ResponsePolicy)
  : result PolicyErrorCode CheckedResponsePolicy :=
  let prior := crp_value previous in
  if (len (crp_canonical previous) =? 0) || String.eqb (crp_digest previous) ""
     || negb (String.eqb (rp_PolicyID next) (rp_PolicyID prior))
     || negb (String.eqb (rp_IncidentID next) (rp_IncidentID prior))
     || (rp_PolicyVersion prior =? MaxInt32)
     || negb (rp_PolicyVersion next =? u32 (rp_PolicyVersion prior + 1))
     || negb (After (lt_instant (rp_CreatedAt next)) (lt_instant (rp_CreatedAt prior)))
  then Err PolicyErrorRevision
  else
    checked ← CheckResponsePolicy next;
    if String.eqb (crp_digest checked) (crp_digest previous)
       || String.eqb (crp_canonical checked) (crp_canonical previous)
    then Err PolicyErrorRevision
    else Ok checked.
