(* ===== verification/ResponsePolicySpec.v ===== *)
(** * What a checked response policy promises

    The canonical bytes determine the policy, and a revision chain never
    repeats them. *)

From S2P Require Import Prelude GoSort GoStrings Regex Sha256 GoTime Netip Policy PolicySpec ResponsePolicy.
Local Open Scope Z_scope.

(** ** [appendUint32] *)

Lemma appendUint32_loop_digits fuel : ∀ F value acc,
  0 <= value < 10 ^ Z.of_nat fuel → value < 2 ^ Z.of_nat F →
  appendUint32_loop fuel value (map digit_char acc) = Some (map digit_char (digits_aux F value acc)).
Proof.
  assert (∀ F value acc, value <= 0 → digits_aux F value acc = acc) as Hzero.
  { intros [|F] value acc H; simpl; [done|]. by rewrite (proj2 (Z.leb_le _ _)). }
  induction fuel as [|f IH]; intros F value acc Hv HF.
  { simpl in *. rewrite (proj2 (Z.ltb_ge _ _)) by lia. by rewrite Hzero by lia. }
  cbn [appendUint32_loop]. destruct (0 <? value) eqn:E; breflect; [|by rewrite Hzero].
  destruct F as [|F]; [simpl in HF; lia|]. cbn [digits_aux].
  rewrite (proj2 (Z.leb_gt _ _)) by lia. rewrite Nat2Z.inj_succ, Z.pow_succ_r in Hv, HF by lia.
  change (digit_char (value mod 10) :: map digit_char acc)
    with (map digit_char (value mod 10 :: acc)).
  apply IH; [split; [apply Z.div_pos; lia|apply Z.div_lt_upper_bound; lia]|].
  apply Z.div_lt_upper_bound; lia.
Qed.

(** The hand-written digit loop is [strconv]'s, and never leaves its buffer. *)
Lemma appendUint32_format value : 0 <= value < 2 ^ 32 → appendUint32 value = format_uint value.
Proof.
  intros H. unfold appendUint32, format_uint, digits. destruct (value =? 0) eqn:E.
  - apply Z.eqb_eq in E. by subst.
  - apply Z.eqb_neq in E.
    pose proof (appendUint32_loop_digits 10 (S (Z.to_nat (Z.log2 value))) value []) as Hl.
    change (10 ^ Z.of_nat 10) with 10000000000 in Hl. change (map digit_char []) with (@nil ascii) in Hl.
    rewrite Hl; [done|lia|apply log2_fuel; lia].
Qed.

(** ** Plain strings *)

Abbreviation plain s := (forallb json_plain (chars s) = true) (only parsing).

Lemma uuid_plain s : is_uuid s = true → plain s.
Proof. apply match_within. solve_within. Qed.

Lemma digest_plain s : is_digest s = true → plain s.
Proof. apply match_within. solve_within. Qed.

Lemma addr_plain a : plain (addr4_string a).
Proof.
  unfold addr4_string. rewrite chars_implode.
  assert (∀ n, forallb json_plain (octet_text n) = true) as H.
  { intros n. rewrite forallb_Forall. pose proof (octet_text_digits n) as Hd.
    rewrite forallb_Forall in Hd. eapply Forall_impl; [exact Hd|].
    apply class_incl. vm_compute. reflexivity. }
  repeat (rewrite ?forallb_app, ?H; simpl). done.
Qed.

Lemma ipv4_plain s : is_Some (canonical_ipv4 s) → plain s.
Proof. intros [a [<- _]%canonical_ipv4_spec]. apply addr_plain. Qed.

Create HintDb plain.
#[export] Hint Resolve uuid_plain digest_plain ipv4_plain format_rfc3339nano_plain : plain.

(** A JSON array of plain strings is read back up to its bracket. *)
Lemma appendJSONStrings_inj ids : ∀ i ks r1 r2,
  Forall (λ s, plain s) ids → Forall (λ s, plain s) ks →
  head r1 = Some "]"%char → head r2 = Some "]"%char →
  chars (appendJSONStrings i ids) ++ r1 = chars (appendJSONStrings i ks) ++ r2 →
  ids = ks ∧ r1 = r2.
Proof.
  induction ids as [|id ids IH]; intros i [|k ks] r1 r2 H1 H2 Hr1 Hr2 Heq.
  - by simplify_eq/=.
  - exfalso. cbn [appendJSONStrings] in Heq. apply Forall_cons in H2 as [H2 _].
    unfold appendJSONString in Heq. rewrite !chars_app, json_string_plain in Heq by done.
    by destruct (0 <? i)%nat, r1, r2; simplify_eq/=.
  - exfalso. cbn [appendJSONStrings] in Heq. apply Forall_cons in H1 as [H1 _].
    unfold appendJSONString in Heq. rewrite !chars_app, json_string_plain in Heq by done.
    by destruct (0 <? i)%nat, r1, r2; simplify_eq/=.
  - cbn [appendJSONStrings] in Heq. apply Forall_cons in H1 as [H1 H1'], H2 as [H2 H2'].
    rewrite !chars_app, <-!app_assoc in Heq. peel_literal Heq. peel_string Heq done.
    destruct (IH (S i) ks r1 r2 H1' H2' Hr1 Hr2 Heq) as [-> ->]. by subst.
Qed.

(** ** The check *)

(** A policy [CheckResponsePolicy] may be given: [PolicyVersion] is a [uint32]. *)
Definition rp_typed (v : ResponsePolicy) : Prop := 0 <= rp_PolicyVersion v.

Record policy_ok (v : ResponsePolicy) : Prop := {
  po_schema : rp_SchemaVersion v = PolicySchemaVersion;
  po_id : is_uuid (rp_PolicyID v) = true;
  po_version : 1 <= rp_PolicyVersion v <= MaxInt32;
  po_incident : is_uuid (rp_IncidentID v) = true;
  po_analysis : is_uuid (rp_AnalysisID v) = true;
  po_action : rp_Action v = ActionBlockIP;
  po_target : is_Some (canonical_ipv4 (rp_TargetIPv4 v));
  po_ttl : MinTTLSeconds <= rp_TTLSeconds v <= MaxTTLSeconds;
  po_snapshot : is_digest (rp_EvidenceSnapshotDigest v) = true;
  po_rationale : is_digest (rp_RationaleDigest v) = true;
  po_evidence : evidence_ok (rp_EvidenceIDs v);
  po_created : lt_instant (rp_CreatedAt v) ≠ 0;
  po_year : 1 <= LocalYear (rp_CreatedAt v) <= 9999
}.

Definition checked_of (v : ResponsePolicy) : CheckedResponsePolicy :=
  let canonical := marshalResponsePolicyJCS (freeze v) in
  MkChecked (freeze v) canonical (digest canonical).

Lemma CheckResponsePolicy_iff v c : rp_typed v →
  CheckResponsePolicy v = Ok c ↔ policy_ok v ∧ c = checked_of v.
Proof.
  intros Ht. unfold CheckResponsePolicy, rp_typed, IsZero in *. split.
  - intros H. pass_guards H.
    injection H as <-. split; [|done]. breflect. destruct_and?.
    split; try done; try lia; try by apply validEvidenceIDs_iff.
  - intros [[] ->]. repeat case_match; breflect; destruct_or?; try congruence; try lia; try done.
    exfalso. apply validEvidenceIDs_iff in po_evidence0. congruence.
Qed.

(** ** The canonical bytes determine the policy *)

Lemma evidence_plain ids : evidence_ok ids → Forall (λ s, plain s) ids.
Proof. intros (_ & Hu & _). eapply Forall_impl; [exact Hu|]. apply uuid_plain. Qed.

Lemma marshal_inj v w : policy_ok v → policy_ok w →
  four_digit_year (lt_instant (rp_CreatedAt v)) → four_digit_year (lt_instant (rp_CreatedAt w)) →
  marshalResponsePolicyJCS v = marshalResponsePolicyJCS w → freeze v = freeze w.
Proof.
  intros [] [] Hy1 Hy2 H. unfold marshalResponsePolicyJCS, UTC in H. simpl in H.
  unfold MinTTLSeconds, MaxTTLSeconds, MaxInt32 in *.
  rewrite !appendUint32_format in H by lia. unfold appendJSONString in H.
  apply (f_equal chars) in H. repeat rewrite chars_app in H.
  assert (plain ActionBlockIP ∧ plain PolicySchemaVersion) as [Hpa Hps] by done.
  rewrite po_action0, po_action1, po_schema0, po_schema1 in H.
  do 3 peel_literal H. peel_string H ltac:(eauto with plain).
  peel_literal H. peel_string H ltac:(eauto with plain). peel_literal H.
  apply appendJSONStrings_inj in H as [Hids H]; [|by eauto using evidence_plain..|done|done].
  do 3 (peel_literal H; peel_string H ltac:(eauto with plain)). peel_literal H. peel_number H.
  peel_literal H; peel_string H ltac:(eauto with plain). do 3 peel_literal H.
  peel_string H ltac:(eauto with plain). peel_literal H. peel_number H.
  apply format_rfc3339nano_inj in Hfield0; [|done..].
  unfold freeze, UTC. simpl. congruence.
Qed.

(** ** Revisions *)

(** One accepted revision. *)
Record revision_of (p : CheckedResponsePolicy) (v : ResponsePolicy) (q : CheckedResponsePolicy) : Prop := {
  rev_ok : policy_ok v;
  rev_result : q = checked_of v;
  rev_id : rp_PolicyID v = rp_PolicyID (crp_value p);
  rev_incident : rp_IncidentID v = rp_IncidentID (crp_value p);
  rev_version : rp_PolicyVersion v = rp_PolicyVersion (crp_value p) + 1;
  rev_created : lt_instant (rp_CreatedAt (crp_value p)) < lt_instant (rp_CreatedAt v);
  rev_canonical : crp_canonical q ≠ crp_canonical p
}.

Lemma Revise_sound p v q : rp_typed v → 1 <= rp_PolicyVersion (crp_value p) <= MaxInt32 →
  ReviseResponsePolicy p v = Ok q → revision_of p v q.
Proof.
  intros Ht Hp H. unfold ReviseResponsePolicy, After in H. pass_guards H.
  inv_bind H. pass_guards H. injection H as <-.
  apply CheckResponsePolicy_iff in Hbind as [Hok ->]; [|done].
  breflect. destruct_and?. unfold u32, MaxInt32 in *.
  rewrite Z.mod_small in * by lia. by split.
Qed.

(** A chain of accepted revisions. *)
Inductive revised : CheckedResponsePolicy → list CheckedResponsePolicy → Prop :=
| revised_nil p : revised p []
| revised_cons p v q l : rp_typed v → ReviseResponsePolicy p v = Ok q → revised q l → revised p (q :: l).

(** A policy the code has checked. *)
Definition checked (c : CheckedResponsePolicy) : Prop := ∃ v, rp_typed v ∧ CheckResponsePolicy v = Ok c.

Definition year_ok (c : CheckedResponsePolicy) : Prop := four_digit_year (lt_instant (rp_CreatedAt (crp_value c))).

Definition later (p q : CheckedResponsePolicy) : Prop :=
  rp_PolicyID (crp_value q) = rp_PolicyID (crp_value p) ∧
  rp_IncidentID (crp_value q) = rp_IncidentID (crp_value p) ∧
  rp_PolicyVersion (crp_value p) < rp_PolicyVersion (crp_value q) ∧
  lt_instant (rp_CreatedAt (crp_value p)) < lt_instant (rp_CreatedAt (crp_value q)).

Lemma checked_iff c : checked c ↔ ∃ v, policy_ok v ∧ c = checked_of v.
Proof.
  split.
  - intros (v & Ht & Hv). exists v. by apply CheckResponsePolicy_iff.
  - intros (v & Hv & ->). assert (rp_typed v) by (destruct Hv; unfold rp_typed; lia).
    exists v. split; [done|]. by apply CheckResponsePolicy_iff.
Qed.

Lemma checked_version c : checked c → 1 <= rp_PolicyVersion (crp_value c) <= MaxInt32.
Proof. intros (v & Hv & ->)%checked_iff. apply (po_version _ Hv). Qed.

Lemma checked_inj c d : checked c → checked d → year_ok c → year_ok d →
  crp_canonical c = crp_canonical d → crp_value c = crp_value d.
Proof.
  intros (v & Hv & ->)%checked_iff (w & Hw & ->)%checked_iff Hyc Hyd Heq.
  by apply (marshal_inj v w).
Qed.

Lemma later_trans p q r : later p q → later q r → later p r.
Proof. unfold later. intuition (congruence || lia). Qed.

Lemma revised_facts p l : checked p → revised p l →
  Forall checked l ∧ StronglySorted later (p :: l) ∧
  ∀ i q, l !! i = Some q → rp_PolicyVersion (crp_value q) = rp_PolicyVersion (crp_value p) + 1 + Z.of_nat i.
Proof.
  intros Hp Hr. revert Hp. induction Hr as [p|p v q l Ht Hq Hr IH]; intros Hp.
  { split_and!; [done|repeat constructor|]. by intros i q; rewrite lookup_nil. }
  apply Revise_sound in Hq as [Hok -> Hid Hin Hve Hcr _]; [|done|by apply checked_version].
  assert (checked (checked_of v)) as Hc by (apply checked_iff; eauto).
  destruct (IH Hc) as (Hl & Hs & Hi).
  assert (later p (checked_of v)) as Hlt by (split_and!; simpl; [done..|lia|lia]).
  split_and!; [by constructor| |].
  - constructor; [done|]. constructor; [done|]. apply StronglySorted_cons in Hs as [Hs _].
    eapply Forall_impl; [exact Hs|]. intros r. by apply later_trans.
  - intros [|i] r Hl'; simplify_eq/=; [lia|]. rewrite (Hi _ _ Hl'). simpl. lia.
Qed.

Lemma later_canonical l : Forall checked l → Forall year_ok l → StronglySorted later l →
  NoDup (crp_canonical <$> l).
Proof.
  induction l as [|p l IH]; intros Hc Hy Hs; simpl; [constructor|].
  apply Forall_cons in Hc as [Hp Hc], Hy as [Hyp Hy]. apply StronglySorted_cons in Hs as [Hpl Hs].
  constructor; [|by apply IH]. intros (q & Heq & Hin)%list_elem_of_fmap.
  rewrite Forall_forall in Hc, Hy, Hpl. destruct (Hpl q Hin) as (_ & _ & Hv & _).
  apply (checked_inj p q) in Heq; auto. rewrite Heq in Hv. lia.
Qed.

(** A sample policy, for the witnesses. *)
Definition sample_uuid : string := "00000000-0000-4000-8000-000000000001".

Definition sample_policy (version created zone : Z) : ResponsePolicy :=
  MkResponsePolicy PolicySchemaVersion sample_uuid version sample_uuid sample_uuid ActionBlockIP
    "203.0.113.20" 1800 (digest "snapshot") [sample_uuid] (digest "rationale") (MkLocal created zone).

(** 2026-07-18T02:00:06Z *)
Definition sample_time : Z := 63919936806 * Second.

(** 9999-12-31T23:30:00-05:00 is accepted, its year being 9999 where it was
    written; frozen to UTC it lies in the year 10000, and the frozen policy
    fails the check it has just passed. *)
Example year_checked_before_UTC :
  let v := sample_policy 1 (315537915000 * Second) (-18000) in
  ∃ c, CheckResponsePolicy v = Ok c ∧
    lt_instant (rp_CreatedAt (crp_value c)) = 315537915000 * Second ∧
    CheckResponsePolicy (crp_value c) = Err PolicyErrorCreatedAt.
Proof. eexists. split; [vm_compute; reflexivity|]. split; vm_compute; reflexivity. Qed.

(** ** Claims *)

(** The canonical bytes of a checked policy determine every field of it:
    no two different policies share digest input. *)
Theorem canonical_bytes_determine_policy c d :
  checked c → checked d → year_ok c → year_ok d →
  crp_canonical c = crp_canonical d → crp_value c = crp_value d.
Proof. apply checked_inj. Qed.

Lemma canonical_bytes_determine_policy_witness :
  crp_value (checked_of (sample_policy 1 sample_time 0))
  = crp_value (checked_of (sample_policy 1 sample_time 32400)).
Proof.
  apply canonical_bytes_determine_policy.
  1: exists (sample_policy 1 sample_time 0).
  2: exists (sample_policy 1 sample_time 32400).
  all: vm_compute; try (split; reflexivity || discriminate); reflexivity.
Defined.

(** Along every chain of accepted revisions of a checked policy, the policy
    and incident stay the same, versions go up by exactly one, creation times
    strictly increase, and no canonical bytes occur twice. *)
Theorem revision_chain p l : checked p → revised p l →
  StronglySorted later (p :: l) ∧
  (∀ i q, l !! i = Some q →
    rp_PolicyVersion (crp_value q) = rp_PolicyVersion (crp_value p) + 1 + Z.of_nat i) ∧
  (Forall year_ok (p :: l) → NoDup (crp_canonical <$> p :: l)).
Proof.
  intros Hp Hr. destruct (revised_facts p l Hp Hr) as (Hc & Hs & Hi).
  split_and!; [done..|]. intros Hy. apply later_canonical; [by constructor|done|done].
Qed.

Lemma revision_chain_witness :
  let p := checked_of (sample_policy 1 sample_time 0) in
  let q := checked_of (sample_policy 2 (sample_time + 1) 0) in
  StronglySorted later [p; q] ∧
  (∀ i r, [q] !! i = Some r → rp_PolicyVersion (crp_value r) = rp_PolicyVersion (crp_value p) + 1 + Z.of_nat i) ∧
  (Forall year_ok [p; q] → NoDup (crp_canonical <$> [p; q])).
Proof.
  intros p q. apply (revision_chain p [q]).
  - exists (sample_policy 1 sample_time 0). vm_compute. split; [discriminate|reflexivity].
  - apply (revised_cons p (sample_policy 2 (sample_time + 1) 0) q []);
      [vm_compute; discriminate|vm_compute; reflexivity|constructor].
Defined.
