(* ===== verification/PolicyLifecycle.v ===== *)
(** * The policy state machine ([internal/policy/state.go])

    An immutable optimistic-concurrency value: every transition names the
    revision it was decided on, and only the transitions of the table pass. *)

From S2P Require Import Prelude GoStrings Regex Policy ResponsePolicy ResponsePolicySpec.
Local Open Scope Z_scope.

Inductive PolicyState :=
| Draft | Validating | Valid | Invalid | Stale | Approved | Rejected | Queued | Active
| Expired | Failed | Revoked | Indeterminate.

Global Instance PolicyState_eq_dec : EqDecision PolicyState.
Proof. solve_decision. Defined.

Definition all_states : list PolicyState :=
  [Draft; Validating; Valid; Invalid; Stale; Approved; Rejected; Queued; Active;
   Expired; Failed; Revoked; Indeterminate].

Global Program Instance PolicyState_finite : finite.Finite PolicyState := {| finite.enum := all_states |}.
Next Obligation. apply (bool_decide_unpack _). reflexivity. Qed.
Next Obligation. intros []; apply (bool_decide_unpack _); reflexivity. Qed.

(** The wire names; a string that is none of them is no state. *)
Definition state_name (s : PolicyState) : string :=
  match s with
  | Draft => "draft" | Validating => "validating" | Valid => "valid" | Invalid => "invalid"
  | Stale => "stale" | Approved => "approved" | Rejected => "rejected" | Queued => "queued"
  | Active => "active" | Expired => "expired" | Failed => "failed" | Revoked => "revoked"
  | Indeterminate => "indeterminate"
  end.

Definition state_of (name : string) : option PolicyState :=
  List.find (λ s, String.eqb (state_name s) name) all_states.

Definition allowedPolicyTransitions (s : PolicyState) : list PolicyState :=
  match s with
  | Draft => [Validating; Stale]
  | Validating => [Valid; Invalid; Stale]
  | Valid => [Approved; Rejected; Stale]
  | Approved => [Queued; Stale]
  | Queued => [Active; Failed; Indeterminate; Stale]
  | Active => [Expired; Failed; Revoked; Indeterminate]
  | Indeterminate => [Active; Expired; Failed; Revoked]
  | _ => []
  end.

(** States are strings in the code: [CanTransitionPolicy] and
    [validPolicyState] look them up in the two tables. *)
Definition validPolicyState (state : string) : bool :=
  match state_of state with Some _ => true | None => false end.

Definition CanTransitionPolicy (current next : string) : bool :=
  match state_of current with
  | None => false
  | Some c => existsb (λ s, String.eqb (state_name s) next) (allowedPolicyTransitions c)
  end.

Record PolicyLifecycle := MkLifecycle {
  pl_policyID : string;
  pl_policyVersion : Z;
  pl_state : string;
  pl_revision : Z
}.

Definition NewPolicyLifecycle (policy : CheckedResponsePolicy) : result PolicyErrorCode PolicyLifecycle :=
  let value := crp_value policy in
  if (len (crp_canonical policy) =? 0) || String.eqb (crp_digest policy) ""
     || negb (is_uuid (rp_PolicyID value)) || (rp_PolicyVersion value =? 0)
  then Err PolicyErrorState
  else Ok (MkLifecycle (rp_PolicyID value) (rp_PolicyVersion value) (state_name Draft) 1).

Definition RestorePolicyLifecycle (policyID : string) (policyVersion : Z) (state : string) (revision : Z)
  : result PolicyErrorCode PolicyLifecycle :=
  if negb (is_uuid policyID) || (policyVersion =? 0) || (MaxInt32 <? policyVersion)
     || (revision =? 0) || negb (validPolicyState state)
  then Err PolicyErrorState
  else Ok (MkLifecycle policyID policyVersion state revision).

Definition Transition (l : PolicyLifecycle) (expectedRevision : Z) (next : string)
  : result PolicyErrorCode PolicyLifecycle :=
  if (expectedRevision =? 0) || negb (expectedRevision =? pl_revision l)
  then Err PolicyErrorStateRevision
  else if negb (validPolicyState (pl_state l)) || negb (validPolicyState next)
  then Err PolicyErrorState
  else if String.eqb next (pl_state l) then Ok l
  else if negb (CanTransitionPolicy (pl_state l) next) || (pl_revision l =? MaxUint64)
  then Err PolicyErrorTransition
  else Ok (MkLifecycle (pl_policyID l) (pl_policyVersion l) next (u64 (pl_revision l + 1))).

(** ** Runs

    A caller keeps the row it has and replaces it only when a transition is
    accepted.  [history] lists the states of the rows it kept, one per
    revision. *)

Definition request : Type := Z * string.

Definition apply_request (l : PolicyLifecycle) (r : request) : PolicyLifecycle :=
  match Transition l r.1 r.2 with Ok l' => l' | Err _ => l end.

Definition run (l : PolicyLifecycle) (rs : list request) : PolicyLifecycle := foldl apply_request l rs.

Fixpoint history (l : PolicyLifecycle) (rs : list request) : list string :=
  match rs with
  | [] => [pl_state l]
  | r :: rs =>
      let l' := apply_request l r in
      if pl_revision l' =? pl_revision l then history l' rs else pl_state l :: history l' rs
  end.

(** Rows the code can hold: a known state and a positive 64-bit revision. *)
Record lifecycle_ok (l : PolicyLifecycle) : Prop := {
  lo_state : is_Some (state_of (pl_state l));
  lo_revision : 1 <= pl_revision l <= MaxUint64
}.

Lemma state_of_name s : state_of (state_name s) = Some s.
Proof. by destruct s. Qed.

Lemma state_of_spec name s : state_of name = Some s ↔ name = state_name s.
Proof.
  split; [|intros ->; apply state_of_name].
  intros H. by apply List.find_some in H as [_ ->%String.eqb_eq].
Qed.

Lemma validPolicyState_iff name : validPolicyState name = true ↔ is_Some (state_of name).
Proof.
  unfold validPolicyState. rewrite <-not_eq_None_Some. by destruct (state_of name).
Qed.

Lemma CanTransitionPolicy_names c n :
  CanTransitionPolicy (state_name c) (state_name n) = true ↔ n ∈ allowedPolicyTransitions c.
Proof.
  unfold CanTransitionPolicy. rewrite state_of_name. rewrite existsb_exists. split.
  - intros (s & Hs & He%String.eqb_eq). apply (f_equal state_of) in He.
    rewrite !state_of_name in He. simplify_eq. by apply list_elem_of_In.
  - intros H. exists n. split; [by apply list_elem_of_In|apply String.eqb_refl].
Qed.

(** What an accepted request does: nothing, or one edge of the table and one
    more revision. *)
Inductive accepted (l : PolicyLifecycle) : string → PolicyLifecycle → Prop :=
| accepted_same : accepted l (pl_state l) l
| accepted_edge n : CanTransitionPolicy (pl_state l) n = true → pl_revision l < MaxUint64 →
    pl_state l ≠ n → is_Some (state_of n) →
    accepted l n (MkLifecycle (pl_policyID l) (pl_policyVersion l) n (pl_revision l + 1)).

Lemma Transition_ok l e n l' : lifecycle_ok l →
  Transition l e n = Ok l' ↔ e = pl_revision l ∧ accepted l n l'.
Proof.
  intros [Hs Hr]. unfold Transition.
  rewrite (proj2 (validPolicyState_iff _) Hs). simpl.
  destruct (_ || _) eqn:E1; breflect.
  { split; [done|]. intros [-> _]. destruct_or!; [lia|done]. }
  destruct E1 as [_ ->].
  destruct (validPolicyState n) eqn:E2; simpl.
  2: { split; [done|]. intros [_ Ha]. inversion Ha; subst.
       - apply (proj2 (validPolicyState_iff _)) in Hs. congruence.
       - apply (proj2 (validPolicyState_iff _)) in H2. congruence. }
  apply validPolicyState_iff in E2.
  destruct (String.eqb n (pl_state l)) eqn:E3; breflect.
  { subst. split; [intros; simplify_eq; split; [done|constructor]|].
    intros [_ Ha]. by inversion Ha. }
  destruct (_ || _) eqn:E4; breflect.
  - split; [done|]. intros [_ Ha]. inversion Ha; subst; [done|].
    destruct_or!; [congruence|lia].
  - destruct E4 as [Hc Hm].
    assert (u64 (pl_revision l + 1) = pl_revision l + 1) as ->
      by (unfold u64, MaxUint64 in *; apply Z.mod_small; lia).
    split.
    + intros; simplify_eq. split; [done|]. constructor; [done|lia|congruence|done].
    + intros [_ Ha]. by inversion Ha; subst.
Qed.

Lemma accepted_ok l n l' : lifecycle_ok l → accepted l n l' → lifecycle_ok l'.
Proof. intros [Hs Hr] [|m Hc Hm Hn Hi]; split; simpl; try done; lia. Qed.

Lemma accepted_id l n l' : accepted l n l' →
  pl_policyID l' = pl_policyID l ∧ pl_policyVersion l' = pl_policyVersion l.
Proof. by destruct 1. Qed.

(** Every request either is refused, repeats the current state, or advances. *)
Lemma apply_request_cases l r : lifecycle_ok l →
  apply_request l r = l ∨ accepted l r.2 (apply_request l r) ∧ pl_state l ≠ r.2.
Proof.
  intros Hl. unfold apply_request. destruct (Transition l r.1 r.2) as [l'|] eqn:E; [|by left].
  apply Transition_ok in E as [_ Ha]; [|done]. inversion Ha; subst; [by left|by right; split].
Qed.

Lemma apply_request_ok l r : lifecycle_ok l → lifecycle_ok (apply_request l r).
Proof.
  intros Hl. destruct (apply_request_cases l r Hl) as [-> | [Ha _]]; [done|].
  by eapply accepted_ok.
Qed.

Lemma run_ok l rs : lifecycle_ok l → lifecycle_ok (run l rs).
Proof. revert l. induction rs; simpl; auto using apply_request_ok. Qed.

Lemma run_id l rs : lifecycle_ok l →
  pl_policyID (run l rs) = pl_policyID l ∧ pl_policyVersion (run l rs) = pl_policyVersion l.
Proof.
  revert l. induction rs as [|r rs IH]; intros l Hl; simpl; [done|].
  destruct (IH _ (apply_request_ok l r Hl)) as [-> ->].
  destruct (apply_request_cases l r Hl) as [-> | [Ha%accepted_id _]]; done.
Qed.

(** A path of the transition table. *)
Fixpoint table_path (p : list string) : Prop :=
  match p with
  | a :: ((b :: _) as k) => CanTransitionPolicy a b = true ∧ table_path k
  | _ => True
  end.

Record run_facts (l l' : PolicyLifecycle) (h : list string) : Prop := {
  rf_path : table_path h;
  rf_head : head h = Some (pl_state l);
  rf_last : last h = Some (pl_state l');
  rf_revision : pl_revision l' = pl_revision l + Z.of_nat (length h) - 1
}.

Lemma history_facts l rs : lifecycle_ok l → run_facts l (run l rs) (history l rs).
Proof.
  revert l. induction rs as [|r rs IH]; intros l Hl; simpl; [split; simpl; auto; lia|].
  specialize (IH _ (apply_request_ok l r Hl)).
  destruct (apply_request_cases l r Hl) as [E | [Ha Hne]].
  { rewrite E in *. by rewrite Z.eqb_refl. }
  destruct (apply_request l r) as [id ver st rev] eqn:E. inversion Ha; subst; [done|].
  simpl. rewrite (proj2 (Z.eqb_neq _ _)) by lia.
  destruct IH as [Hp Hh Hla Hre]. destruct (history _ rs) as [|b k] eqn:Ek; [done|].
  simpl in *. simplify_eq. split; [by split|done|done|]. simpl in *. lia.
Qed.

(** ** The only way to the enforcement states *)

Definition enforcement_states : list PolicyState := [Queued; Active; Expired; Failed; Revoked; Indeterminate].

Definition approval_prefix : list string :=
  state_name <$> [Draft; Validating; Valid; Approved; Queued].

(** One step of a path from a state with known successors. *)
Lemma table_path_next c p t : table_path (state_name c :: p) → last (state_name c :: p) = Some (state_name t) →
  (p = [] ∧ c = t) ∨
  ∃ n q, p = state_name n :: q ∧ n ∈ allowedPolicyTransitions c ∧
    table_path (state_name n :: q) ∧ last (state_name n :: q) = Some (state_name t).
Proof.
  destruct p as [|b q]; simpl.
  - intros _ [= H]. left. apply (f_equal state_of) in H. rewrite !state_of_name in H. by simplify_eq.
  - intros [Hc Hp] Hl. right.
    assert (is_Some (state_of b)) as [n Hn].
    { unfold CanTransitionPolicy in Hc. rewrite state_of_name in Hc.
      apply existsb_exists in Hc as (s & _ & <-%String.eqb_eq). rewrite state_of_name. eauto. }
    apply state_of_spec in Hn as ->. exists n, q. split_and!; try done.
    by apply CanTransitionPolicy_names.
Qed.

(** What a path to an enforcement state must start with, from each state;
    [None]: there is no such path. *)
Definition required (c : PolicyState) : option (list PolicyState) :=
  match c with
  | Draft => Some [Draft; Validating; Valid; Approved; Queued]
  | Validating => Some [Validating; Valid; Approved; Queued]
  | Valid => Some [Valid; Approved; Queued]
  | Approved => Some [Approved; Queued]
  | Queued => Some [Queued]
  | Active | Indeterminate | Expired | Failed | Revoked => Some []
  | Invalid | Stale | Rejected => None
  end.

Lemma required_path t : t ∈ enforcement_states → ∀ p c,
  table_path (state_name c :: p) → last (state_name c :: p) = Some (state_name t) →
  ∃ r q, required c = Some r ∧ state_name c :: p = (state_name <$> r) ++ q.
Proof.
  intros Ht. induction p as [|b p IH]; intros c Hp Hl;
    destruct (table_path_next _ _ _ Hp Hl) as [[Hn <-] | (n & q & Heq & Hn & Hp' & Hl')]; try done.
  - unfold enforcement_states in Ht. set_unfold. destruct_or?; subst; simpl; eauto.
  - injection Heq as -> ->. destruct (IH n Hp' Hl') as (r & k & Hr & Hq).
    destruct c; simpl in Hn; set_unfold; destruct_or?; subst; try done; simplify_eq/=;
      rewrite ?Hq; eauto.
Qed.

Lemma approval_path p t : t ∈ enforcement_states →
  table_path p → head p = Some (state_name Draft) → last p = Some (state_name t) →
  ∃ q, p = approval_prefix ++ q.
Proof.
  intros Ht Hp Hh Hl. destruct p as [|a p]; [done|]. injection Hh as ->.
  destruct (required_path t Ht p Draft Hp Hl) as (r & q & [= <-] & Hq). by exists q.
Qed.


Lemma NewPolicyLifecycle_ok p l : NewPolicyLifecycle p = Ok l →
  pl_state l = state_name Draft ∧ pl_revision l = 1 ∧ lifecycle_ok l.
Proof.
  unfold NewPolicyLifecycle. intros H. destruct (_ || _) in H; [done|]. injection H as <-.
  split_and!; [done..|]. split; simpl; [by eexists|done].
Qed.

Lemma terminal_run l rs c : lifecycle_ok l → state_of (pl_state l) = Some c →
  allowedPolicyTransitions c = [] → run l rs = l.
Proof.
  intros Hl Hc Ht. induction rs as [|r rs IH]; simpl; [done|].
  destruct (apply_request_cases l r Hl) as [-> | [Ha Hne]]; [done|].
  apply state_of_spec in Hc. inversion Ha as [|n He _ _ [s Hn]]; [done|].
  apply state_of_spec in Hn. rewrite Hc, Hn in He.
  apply CanTransitionPolicy_names in He. rewrite Ht in He. by apply elem_of_nil in He.
Qed.

(** ** Claims *)

(** C20. No run of requests, accepted or refused, brings a new policy to an
    enforcement state except through draft, validating, valid, approved and
    queued, in this order; and the row's revision counts the states it has
    been in, so no revision is ever reused. *)
Theorem enforcement_needs_approval p l rs t :
  NewPolicyLifecycle p = Ok l → t ∈ enforcement_states → pl_state (run l rs) = state_name t →
  (∃ q, history l rs = approval_prefix ++ q) ∧
  pl_revision (run l rs) = Z.of_nat (length (history l rs)) ∧
  pl_policyID (run l rs) = rp_PolicyID (crp_value p).
Proof.
  intros Hn Ht Hs. destruct (NewPolicyLifecycle_ok p l Hn) as (Hd & Hr & Hok).
  destruct (history_facts l rs Hok) as [Hp Hh Hl Hre]. split_and!.
  - apply (approval_path _ t Ht Hp); congruence.
  - lia.
  - rewrite (proj1 (run_id l rs Hok)). unfold NewPolicyLifecycle in Hn.
    destruct (_ || _) in Hn; [done|]. by injection Hn as <-.
Qed.

(** A new policy driven to [active], with one stale request on the way. *)
Definition sample_lifecycle : PolicyLifecycle := MkLifecycle sample_uuid 1 "draft" 1.

Definition sample_requests : list request :=
  [(1, "validating"); (1, "valid"); (2, "valid"); (3, "approved"); (3, "rejected"); (4, "queued"); (5, "active")].

Lemma enforcement_needs_approval_witness :
  (∃ q, history sample_lifecycle sample_requests = approval_prefix ++ q) ∧
  pl_revision (run sample_lifecycle sample_requests)
    = Z.of_nat (length (history sample_lifecycle sample_requests)) ∧
  pl_policyID (run sample_lifecycle sample_requests)
    = rp_PolicyID (crp_value (checked_of (sample_policy 1 sample_time 0))).
Proof.
  apply (enforcement_needs_approval _ _ _ Active);
    [vm_compute; reflexivity|by apply (bool_decide_unpack _)|vm_compute; reflexivity].
Defined.

(** [Transition] is a compare-and-swap: it succeeds exactly when the caller
    names the current revision and either repeats the state or follows an edge
    of the table below the last revision; a row in a state without successors
    never changes again. *)
Theorem Transition_spec l : lifecycle_ok l →
  (∀ e n l', Transition l e n = Ok l' ↔ e = pl_revision l ∧ accepted l n l') ∧
  (∀ c rs, state_of (pl_state l) = Some c → allowedPolicyTransitions c = [] → run l rs = l).
Proof. intros Hl. split; eauto using Transition_ok, terminal_run. Qed.

Lemma Transition_spec_witness :
  (∀ e n l', Transition sample_lifecycle e n = Ok l' ↔ e = 1 ∧ accepted sample_lifecycle n l') ∧
  (∀ c rs, state_of "draft" = Some c → allowedPolicyTransitions c = [] → run sample_lifecycle rs = sample_lifecycle).
Proof. apply (Transition_spec sample_lifecycle). split; simpl; [by eexists|done]. Defined.
