(* ===== verification/Capability.v ===== *)
(** * Execution capabilities ([internal/enforcement/capability])

    Models [types.go], [canonical.go], [capability.go], [signing.go] and
    [replay.go]: the dispatcher checks a request, freezes its canonical JSON and
    signs it; the executor verifies the signature, parses the same bytes back
    and releases an executable value only while it is fresh.  Byte slices are
    strings; [ed25519] is a parameter, see [Ed25519]. *)

From S2P Require Import Prelude GoStrings Regex Sha256 Json Base64 GoTime Netip Policy.
From S2P Require Import ResponsePolicy.
Local Open Scope Z_scope.

(** ** Constants and data ([types.go], [errors.go]) *)

Definition CapabilitySchemaVersion : string := "execution-capability-v1".
Definition InspectSchemaVersion : string := "nft-inspect-v1".
Definition CapabilitySigningDomain : string := "sentinelflow execution-capability-v1".
Definition ResultSigningDomain : string := "sentinelflow execution-result-v1".
Definition MaxCapabilityBytes : Z := 8 * 1024.
Definition MaxArtifactBytes : Z := 4 * 1024.
Definition MaxResultBytes : Z := 8 * 1024.
Definition MaxValidity : duration := 60 * Second.

Definition OperationAdd : string := "add".
Definition OperationRevoke : string := "revoke".
Definition OperationInspect : string := "inspect".

Inductive CapErrorCode :=
| ErrorEncoding | ErrorCanonical | ErrorCapSchema | ErrorIdentity | ErrorOperation | ErrorDigest
| ErrorArtifact | ErrorTime | ErrorNotYetValid | ErrorExpired | ErrorKey | ErrorKeyRole
| ErrorSignature | ErrorResult | ErrorResultBinding | ErrorReplayConflict | ErrorUnchecked.

Record Common := MkCommon {
  cm_CapabilityID : string;
  cm_JobID : string;
  cm_ActionID : string;
  cm_PolicyID : string;
  cm_PolicyVersion : Z;
  cm_TargetIPv4 : string;
  cm_EvidenceSnapshotDigest : string;
  cm_ValidationSnapshotDigest : string;
  cm_AuthorizationDigest : string;
  cm_ActorID : string;
  cm_ReasonDigest : string;
  cm_OwnedSchemaDigest : string;
  cm_IssuedAt : time;
  cm_NotBefore : time;
  cm_ExpiresAt : time;
  cm_Nonce : string
}.

Record InspectArtifact := MkInspectArtifact {
  ia_SchemaVersion : string;
  ia_ActionID : string;
  ia_TargetIPv4 : string;
  ia_OriginalAddDigest : string;
  ia_OwnedSchemaDigest : string;
  ia_Purpose : string
}.

Definition no_inspection : InspectArtifact := MkInspectArtifact "" "" "" "" "" "".

Record Add := MkAdd { add_Common : Common; add_CanonicalCommand : string }.

Record Revoke := MkRevoke { rv_Common : Common; rv_OriginalAddDigest : string; rv_CanonicalDelete : string }.

Record Inspect := MkInspect { in_Common : Common; in_OriginalAddDigest : string; in_Artifact : InspectArtifact }.

Record Value := MkValue {
  v_SchemaVersion : string;
  v_CapabilityID : string;
  v_Operation : string;
  v_JobID : string;
  v_ActionID : string;
  v_PolicyID : string;
  v_PolicyVersion : Z;
  v_TargetIPv4 : string;
  v_ArtifactDigest : string;
  v_OriginalAddDigest : string;
  v_EvidenceSnapshotDigest : string;
  v_ValidationSnapshotDigest : string;
  v_AuthorizationDigest : string;
  v_ActorID : string;
  v_ReasonDigest : string;
  v_OwnedSchemaDigest : string;
  v_IssuedAt : time;
  v_NotBefore : time;
  v_ExpiresAt : time;
  v_Nonce : string
}.

Record CheckedCapability := MkCheckedCapability {
  cc_value : Value;
  cc_canonical : string;
  cc_digest : string;
  cc_artifact : string;
  cc_addTTL : Z;
  cc_inspection : InspectArtifact
}.

Record SignedCapability := MkSignedCapability {
  sc_keyID : string;
  sc_canonical : string;
  sc_signature : string;
  sc_artifact : string
}.

Record VerifiedCapability := MkVerifiedCapability {
  vc_value : Value;
  vc_canonical : string;
  vc_digest : string;
  vc_artifact : string;
  vc_keyID : string;
  vc_executorID : string;
  vc_addTTL : Z;
  vc_inspection : InspectArtifact
}.

Definition ExpectedAddTTLSeconds (v : VerifiedCapability) : option Z :=
  if negb (String.eqb (v_Operation (vc_value v)) OperationAdd) || (vc_addTTL v =? 0) then None
  else Some (vc_addTTL v).

(** ** Patterns and digests ([capability.go], [canonical.go]) *)

Definition is_actor_first (c : ascii) : bool := is_lower c || is_digit c.
Definition is_actor_rest (c : ascii) : bool :=
  is_lower c || is_digit c || bool_decide (c ∈ ["."; "_"; "-"]%char).

Definition actorPattern : pattern := [exactly 1 is_actor_first; rep 0 127 is_actor_rest].
Definition keyIDPattern : pattern := [exactly 1 is_actor_first; rep 0 63 is_actor_rest].
Definition noncePattern : pattern :=
  [exactly 22 (λ c, is_upper c || is_lower c || is_digit c || bool_decide (c ∈ ["_"; "-"]%char))].

Definition is_quad (c : ascii) : bool := is_digit c || bool_decide (c = "."%char).

Definition addPattern : pattern :=
  [lit "add element inet sentinelflow blacklist_ipv4 { "; rep 7 15 is_quad; lit " timeout ";
   exactly 1 (between "1" "9"); rep 0 4 is_digit; exactly 1 is_unit; lit (" }" +:+ lf)].

Definition revokePattern : pattern :=
  [lit "delete element inet sentinelflow blacklist_ipv4 { "; rep 7 15 is_quad; lit (" }" +:+ lf)].

Definition digestBytes (value : string) : string := digest value.

(** Both sides match the digest pattern; the constant-time comparison of the
    decoded bytes is equality of the lower-case digests. *)
Definition digestEqual (left right : string) : bool :=
  is_digest left && is_digest right && String.eqb left right.

Definition appendString (value : string) : string := json_string value.
Definition appendUint (value : Z) : string := format_uint value.
Definition appendNullableString (value : string) : string :=
  if String.eqb value "" then "null" else appendString value.
Definition appendNullableUint (value : option Z) : string :=
  match value with None => "null" | Some n => appendUint n end.

(** [strictDecode] with [rejectDuplicateNames]: every failure is the same
    error, so the two passes over the bytes are one parse. *)
Definition strictDecode (data : string) (maximum : Z) (fields : schema) : result CapErrorCode slots :=
  if (len data =? 0) || (maximum <? len data) || negb (utf8_valid data) then Err ErrorEncoding
  else
    match parse_document (chars data) with
    | None => Err ErrorEncoding
    | Some v =>
        if negb (unique_names v) then Err ErrorEncoding
        else match decode_struct fields v with Some w => Ok w | None => Err ErrorEncoding end
    end.

(** ** Times *)

Definition millisecondAligned (value : time) : bool := NanosecondOf value mod Millisecond =? 0.
Definition formatCanonicalTime (value : time) : string := format_millis value.

Definition has_suffix (c : ascii) (s : string) : bool :=
  match last (chars s) with Some x => bool_decide (x = c) | None => false end.

Definition parseCanonicalTime (value : string) : option time :=
  if negb (has_suffix "Z" value) || negb (len value =? 24) then None
  else
    parsed ← parse_millis value;
    if negb (millisecondAligned parsed) || negb (String.eqb (formatCanonicalTime parsed) value) then None
    else Some parsed.

(** ** Artifacts *)

Definition canonicalTTL (seconds : Z) : string :=
  if seconds mod 3600 =? 0 then format_uint (seconds / 3600) +:+ "h"
  else if seconds mod 60 =? 0 then format_uint (seconds / 60) +:+ "m"
  else format_uint seconds +:+ "s".

(** The submatches of [addPattern]: address, and the timeout's number and unit. *)
Definition add_submatches (s : string) : option (string * string * string) :=
  match find_submatch addPattern (chars s) with
  | Some [_; a; _; d; ds; u; _] => Some (implode a, implode (d ++ ds), implode u)
  | _ => None
  end.

Definition checkAddArtifact (artifact target : string) : result CapErrorCode Z :=
  if (len artifact =? 0) || (MaxArtifactBytes <? len artifact) then Err ErrorArtifact
  else
    match add_submatches artifact with
    | None => Err ErrorArtifact
    | Some (address, digits, unit) =>
        if negb (String.eqb address target) then Err ErrorArtifact
        else
          match canonical_ipv4 address with
          | None => Err ErrorArtifact
          | Some _ =>
              match parse_uint 32 digits with
              | None => Err ErrorArtifact
              | Some number =>
                  let multiplier :=
                    if String.eqb unit "m" then 60 else if String.eqb unit "h" then 3600 else 1 in
                  let seconds := u64 (number * multiplier) in
                  if (seconds <? 60) || (86400 <? seconds)
                     || negb (String.eqb (canonicalTTL (u32 seconds)) (digits +:+ unit))
                  then Err ErrorArtifact
                  else Ok (u32 seconds)
              end
          end
    end.

Definition revoke_submatch (s : string) : option string :=
  match find_submatch revokePattern (chars s) with Some [_; a; _] => Some (implode a) | _ => None end.

Definition checkRevokeArtifact (artifact target : string) : result CapErrorCode unit :=
  if (len artifact =? 0) || (MaxArtifactBytes <? len artifact) then Err ErrorArtifact
  else
    match revoke_submatch artifact with
    | None => Err ErrorArtifact
    | Some address =>
        if negb (String.eqb address target) || negb (bool_decide (is_Some (canonical_ipv4 address)))
        then Err ErrorArtifact else Ok tt
    end.

Definition marshalInspection (value : InspectArtifact) : string :=
  qq "{'action_id':" +:+ appendString (ia_ActionID value)
  +:+ qq ",'operation':'inspect','original_add_digest':" +:+ appendString (ia_OriginalAddDigest value)
  +:+ qq ",'owned_schema_digest':" +:+ appendString (ia_OwnedSchemaDigest value)
  +:+ qq ",'purpose':" +:+ appendString (ia_Purpose value)
  +:+ qq ",'schema_version':'nft-inspect-v1','target_ipv4':" +:+ appendString (ia_TargetIPv4 value)
  +:+ "}".

Definition purposes : list string := ["reconciliation"; "expiry_confirmation"; "operator_status"].

Definition checkInspection (value : InspectArtifact) : result CapErrorCode (InspectArtifact * string) :=
  if negb (String.eqb (ia_SchemaVersion value) InspectSchemaVersion) || negb (is_uuid (ia_ActionID value))
     || negb (is_digest (ia_OriginalAddDigest value)) || negb (is_digest (ia_OwnedSchemaDigest value))
  then Err ErrorArtifact
  else if negb (bool_decide (is_Some (canonical_ipv4 (ia_TargetIPv4 value)))) then Err ErrorArtifact
  else if negb (existsb (String.eqb (ia_Purpose value)) purposes) then Err ErrorArtifact
  else Ok (value, marshalInspection value).

Definition inspectWire : schema :=
  [("schema_version", KString); ("operation", KString); ("action_id", KString); ("target_ipv4", KString);
   ("original_add_digest", KString); ("owned_schema_digest", KString); ("purpose", KString)].

Definition parseInspection (data : string) : result CapErrorCode InspectArtifact :=
  match strictDecode data MaxArtifactBytes inspectWire with
  | Err _ => Err ErrorArtifact
  | Ok wire =>
      if negb (String.eqb (get_string wire "operation") "inspect") then Err ErrorArtifact
      else
        match checkInspection (MkInspectArtifact (get_string wire "schema_version") (get_string wire "action_id")
                (get_string wire "target_ipv4") (get_string wire "original_add_digest")
                (get_string wire "owned_schema_digest") (get_string wire "purpose")) with
        | Ok (value, canonical) => if negb (String.eqb data canonical) then Err ErrorArtifact else Ok value
        | Err _ => Err ErrorArtifact
        end
  end.

(** ** Checking a request *)

Definition valid_nonce (nonce : string) : bool :=
  match DecodeString false nonce with
  | Some bytes => (len bytes =? 16) && String.eqb (EncodeToString bytes) nonce
  | None => false
  end.

Definition checkCommon (common : Common) (operation originalAddDigest artifactDigest : string)
  : result CapErrorCode Value :=
  if negb (String.eqb operation OperationAdd) && negb (String.eqb operation OperationRevoke)
     && negb (String.eqb operation OperationInspect)
  then Err ErrorOperation
  else if negb (is_uuid (cm_CapabilityID common)) || negb (is_uuid (cm_JobID common))
          || negb (is_uuid (cm_ActionID common)) || negb (is_uuid (cm_PolicyID common))
  then Err ErrorIdentity
  else if (cm_PolicyVersion common =? 0) || (MaxInt32 <? cm_PolicyVersion common) then Err ErrorCapSchema
  else if negb (bool_decide (is_Some (canonical_ipv4 (cm_TargetIPv4 common)))) then Err ErrorCapSchema
  else if negb (forallb is_digest
            [artifactDigest; cm_EvidenceSnapshotDigest common; cm_ValidationSnapshotDigest common;
             cm_AuthorizationDigest common; cm_ReasonDigest common; cm_OwnedSchemaDigest common])
  then Err ErrorDigest
  else if String.eqb operation OperationAdd && negb (String.eqb originalAddDigest "") then Err ErrorOperation
  else if negb (String.eqb operation OperationAdd) && negb (is_digest originalAddDigest) then Err ErrorDigest
  else if negb (match_string actorPattern (cm_ActorID common)) || negb (match_string noncePattern (cm_Nonce common))
          || negb (valid_nonce (cm_Nonce common))
  then Err ErrorIdentity
  else
    let issuedAt := cm_IssuedAt common in
    let notBefore := cm_NotBefore common in
    let expiresAt := cm_ExpiresAt common in
    if IsZero issuedAt || IsZero notBefore || IsZero expiresAt
       || (Year issuedAt <? 1) || (9999 <? Year expiresAt)
       || negb (millisecondAligned issuedAt) || negb (millisecondAligned notBefore)
       || negb (millisecondAligned expiresAt)
       || Before notBefore issuedAt || negb (After expiresAt notBefore)
       || (MaxValidity <? Sub expiresAt issuedAt)
    then Err ErrorTime
    else Ok {| v_SchemaVersion := CapabilitySchemaVersion;
               v_CapabilityID := cm_CapabilityID common;
               v_Operation := operation;
               v_JobID := cm_JobID common;
               v_ActionID := cm_ActionID common;
               v_PolicyID := cm_PolicyID common;
               v_PolicyVersion := cm_PolicyVersion common;
               v_TargetIPv4 := cm_TargetIPv4 common;
               v_ArtifactDigest := artifactDigest;
               v_OriginalAddDigest := originalAddDigest;
               v_EvidenceSnapshotDigest := cm_EvidenceSnapshotDigest common;
               v_ValidationSnapshotDigest := cm_ValidationSnapshotDigest common;
               v_AuthorizationDigest := cm_AuthorizationDigest common;
               v_ActorID := cm_ActorID common;
               v_ReasonDigest := cm_ReasonDigest common;
               v_OwnedSchemaDigest := cm_OwnedSchemaDigest common;
               v_IssuedAt := issuedAt;
               v_NotBefore := notBefore;
               v_ExpiresAt := expiresAt;
               v_Nonce := cm_Nonce common |}.

Definition marshalCapabilityTimes (value : Value) (issuedAt notBefore expiresAt : string) : string :=
  qq "{'action_id':" +:+ appendString (v_ActionID value)
  +:+ qq ",'actor_id':" +:+ appendString (v_ActorID value)
  +:+ qq ",'artifact_digest':" +:+ appendString (v_ArtifactDigest value)
  +:+ qq ",'authorization_digest':" +:+ appendString (v_AuthorizationDigest value)
  +:+ qq ",'capability_id':" +:+ appendString (v_CapabilityID value)
  +:+ qq ",'evidence_snapshot_digest':" +:+ appendString (v_EvidenceSnapshotDigest value)
  +:+ qq ",'expires_at':" +:+ appendString expiresAt
  +:+ qq ",'issued_at':" +:+ appendString issuedAt
  +:+ qq ",'job_id':" +:+ appendString (v_JobID value)
  +:+ qq ",'nonce':" +:+ appendString (v_Nonce value)
  +:+ qq ",'not_before':" +:+ appendString notBefore
  +:+ qq ",'operation':" +:+ appendString (v_Operation value)
  +:+ qq ",'original_add_digest':" +:+ appendNullableString (v_OriginalAddDigest value)
  +:+ qq ",'owned_schema_digest':" +:+ appendString (v_OwnedSchemaDigest value)
  +:+ qq ",'policy_id':" +:+ appendString (v_PolicyID value)
  +:+ qq ",'policy_version':" +:+ appendUint (v_PolicyVersion value)
  +:+ qq ",'reason_digest':" +:+ appendString (v_ReasonDigest value)
  +:+ qq ",'schema_version':" +:+ appendString (v_SchemaVersion value)
  +:+ qq ",'target_ipv4':" +:+ appendString (v_TargetIPv4 value)
  +:+ qq ",'validation_snapshot_digest':" +:+ appendString (v_ValidationSnapshotDigest value)
  +:+ "}".

Definition marshalCapability (value : Value) : string :=
  marshalCapabilityTimes value (formatCanonicalTime (v_IssuedAt value)) (formatCanonicalTime (v_NotBefore value))
    (formatCanonicalTime (v_ExpiresAt value)).

Definition buildChecked (common : Common) (operation originalAddDigest artifact : string) (ttl : Z)
    (inspection : InspectArtifact) : result CapErrorCode CheckedCapability :=
  value ← checkCommon common operation originalAddDigest (digestBytes artifact);
  let canonical := marshalCapability value in
  Ok (MkCheckedCapability value canonical (digestBytes canonical) artifact ttl inspection).

Definition CheckAdd (input : Add) : result CapErrorCode CheckedCapability :=
  ttl ← checkAddArtifact (add_CanonicalCommand input) (cm_TargetIPv4 (add_Common input));
  buildChecked (add_Common input) OperationAdd "" (add_CanonicalCommand input) ttl no_inspection.

Definition CheckRevoke (input : Revoke) : result CapErrorCode CheckedCapability :=
  if negb (is_digest (rv_OriginalAddDigest input)) then Err ErrorDigest
  else
    _ ← checkRevokeArtifact (rv_CanonicalDelete input) (cm_TargetIPv4 (rv_Common input));
    buildChecked (rv_Common input) OperationRevoke (rv_OriginalAddDigest input) (rv_CanonicalDelete input) 0
      no_inspection.

Definition CheckInspect (input : Inspect) : result CapErrorCode CheckedCapability :=
  if negb (is_digest (in_OriginalAddDigest input)) then Err ErrorDigest
  else
    '(checked, canonical) ← checkInspection (in_Artifact input);
    let common := in_Common input in
    if negb (String.eqb (ia_ActionID checked) (cm_ActionID common))
       || negb (String.eqb (ia_TargetIPv4 checked) (cm_TargetIPv4 common))
       || negb (String.eqb (ia_OriginalAddDigest checked) (in_OriginalAddDigest input))
       || negb (String.eqb (ia_OwnedSchemaDigest checked) (cm_OwnedSchemaDigest common))
    then Err ErrorArtifact
    else buildChecked common OperationInspect (in_OriginalAddDigest input) canonical 0 checked.

(** ** Parsing canonical bytes *)

Definition capabilityWire : schema :=
  [("schema_version", KString); ("capability_id", KString); ("operation", KString); ("job_id", KString);
   ("action_id", KString); ("policy_id", KString); ("policy_version", KUint 32); ("target_ipv4", KString);
   ("artifact_digest", KString); ("original_add_digest", KPointer); ("evidence_snapshot_digest", KString);
   ("validation_snapshot_digest", KString); ("authorization_digest", KString); ("actor_id", KString);
   ("reason_digest", KString); ("owned_schema_digest", KString); ("issued_at", KString);
   ("not_before", KString); ("expires_at", KString); ("nonce", KString)].

Definition wire_common (wire : slots) (issuedAt notBefore expiresAt : time) : Common :=
  MkCommon (get_string wire "capability_id") (get_string wire "job_id") (get_string wire "action_id")
    (get_string wire "policy_id") (get_uint wire "policy_version") (get_string wire "target_ipv4")
    (get_string wire "evidence_snapshot_digest") (get_string wire "validation_snapshot_digest")
    (get_string wire "authorization_digest") (get_string wire "actor_id") (get_string wire "reason_digest")
    (get_string wire "owned_schema_digest") issuedAt notBefore expiresAt (get_string wire "nonce").

(** The operation-specific constructor the wire value selects. *)
Definition check_operation (wire : slots) (common : Common) (artifact : string) : result CapErrorCode CheckedCapability :=
  let operation := get_string wire "operation" in
  if String.eqb operation OperationAdd then
    match get_pointer wire "original_add_digest" with
    | Some _ => Err ErrorOperation
    | None => CheckAdd (MkAdd common artifact)
    end
  else if String.eqb operation OperationRevoke then
    match get_pointer wire "original_add_digest" with
    | None => Err ErrorOperation
    | Some original => CheckRevoke (MkRevoke common original artifact)
    end
  else if String.eqb operation OperationInspect then
    match get_pointer wire "original_add_digest" with
    | None => Err ErrorOperation
    | Some original =>
        inspection ← parseInspection artifact;
        CheckInspect (MkInspect common original inspection)
    end
  else Err ErrorOperation.

Definition ParseCanonicalCapability (data artifact : string) : result CapErrorCode CheckedCapability :=
  wire ← strictDecode data MaxCapabilityBytes capabilityWire;
  match parseCanonicalTime (get_string wire "issued_at"), parseCanonicalTime (get_string wire "not_before"),
        parseCanonicalTime (get_string wire "expires_at") with
  | Some issuedAt, Some notBefore, Some expiresAt =>
      checked ← check_operation wire (wire_common wire issuedAt notBefore expiresAt) artifact;
      let expected := marshalCapabilityTimes (cc_value checked) (get_string wire "issued_at")
                        (get_string wire "not_before") (get_string wire "expires_at") in
      if negb (String.eqb (v_SchemaVersion (cc_value checked)) (get_string wire "schema_version"))
         || negb (digestEqual (v_ArtifactDigest (cc_value checked)) (get_string wire "artifact_digest"))
         || negb (String.eqb expected data)
      then Err ErrorCanonical
      else Ok (MkCheckedCapability (cc_value checked) data (digestBytes data) (cc_artifact checked)
                 (cc_addTTL checked) (cc_inspection checked))
  | _, _, _ => Err ErrorTime
  end.

(** ** Signing and verification ([signing.go]) *)

(** [crypto/ed25519]: a private key is a 32-byte seed followed by the public
    key [NewKeyFromSeed] derives from it; a signature made with it has 64 bytes
    and verifies under that public key. *)
Class Ed25519 := {
  public_of_seed : string → string;
  ed25519_sign : string → string → string;
  ed25519_verify : string → string → string → bool;
  public_size seed : len (public_of_seed seed) = 32;
  sign_size key message : len (ed25519_sign key message) = 64;
  sign_verifies seed message : len seed = 32 →
    ed25519_verify (public_of_seed seed) message (ed25519_sign (seed +:+ public_of_seed seed) message) = true
}.

Definition PrivateKeySize : Z := 64.
Definition PublicKeySize : Z := 32.
Definition SeedSize : nat := 32.
Definition SignatureSize : Z := 64.

Definition signingInput (domain canonical : string) : string :=
  domain +:+ lf +:+ implode (map chr (sha256 (bytes_of canonical))).

Section signing.
  Context `{Ed25519}.

(** [validPrivateKey]: the second half is the public key of the first. *)
Definition validPrivateKey (key : string) : bool :=
  if negb (len key =? PrivateKeySize) then false
  else String.eqb (public_of_seed (implode (take SeedSize (chars key)))) (implode (drop SeedSize (chars key))).

Record CapabilityIssuer := MkCapabilityIssuer { ci_keyID : string; ci_key : string }.

Definition NewCapabilityIssuer (keyID key : string) : result CapErrorCode CapabilityIssuer :=
  if negb (match_string keyIDPattern keyID) || negb (validPrivateKey key) then Err ErrorKey
  else Ok (MkCapabilityIssuer keyID key).

Definition Sign (i : CapabilityIssuer) (checked : CheckedCapability) : result CapErrorCode SignedCapability :=
  if negb (match_string keyIDPattern (ci_keyID i)) || negb (len (ci_key i) =? PrivateKeySize)
     || (len (cc_canonical checked) =? 0) || (len (cc_artifact checked) =? 0)
     || negb (digestEqual (cc_digest checked) (digestBytes (cc_canonical checked)))
  then Err ErrorUnchecked
  else
    let signature := ed25519_sign (ci_key i) (signingInput CapabilitySigningDomain (cc_canonical checked)) in
    Ok (MkSignedCapability (ci_keyID i) (cc_canonical checked) signature (cc_artifact checked)).

Record CapabilityVerifier := MkCapabilityVerifier { cv_keyID : string; cv_executorID : string; cv_key : string }.

Definition NewCapabilityVerifier (keyID executorID key : string) : result CapErrorCode CapabilityVerifier :=
  if negb (match_string keyIDPattern keyID) || negb (match_string actorPattern executorID)
     || negb (len key =? PublicKeySize)
  then Err ErrorKey
  else Ok (MkCapabilityVerifier keyID executorID key).

Definition Verify (v : CapabilityVerifier) (signed : SignedCapability) : result CapErrorCode VerifiedCapability :=
  if negb (len (cv_key v) =? PublicKeySize) || negb (String.eqb (cv_keyID v) (sc_keyID signed)) then Err ErrorKeyRole
  else if (len (sc_canonical signed) =? 0) || (MaxCapabilityBytes <? len (sc_canonical signed))
          || (len (sc_artifact signed) =? 0) || (MaxArtifactBytes <? len (sc_artifact signed))
          || negb (len (sc_signature signed) =? SignatureSize)
          || negb (ed25519_verify (cv_key v) (signingInput CapabilitySigningDomain (sc_canonical signed))
                     (sc_signature signed))
  then Err ErrorSignature
  else
    checked ← ParseCanonicalCapability (sc_canonical signed) (sc_artifact signed);
    Ok (MkVerifiedCapability (cc_value checked) (cc_canonical checked) (cc_digest checked) (cc_artifact checked)
          (cv_keyID v) (cv_executorID v) (cc_addTTL checked) (cc_inspection checked)).

End signing.

(** ** Freshness *)

Definition checkFresh (v : VerifiedCapability) (now : time) : result CapErrorCode unit :=
  if (len (vc_canonical v) =? 0) || String.eqb (vc_digest v) "" || String.eqb (vc_executorID v) ""
  then Err ErrorUnchecked
  else if Before now (v_IssuedAt (vc_value v)) || Before now (v_NotBefore (vc_value v)) then Err ErrorNotYetValid
  else if negb (Before now (v_ExpiresAt (vc_value v))) then Err ErrorExpired
  else Ok tt.

(** [AddAt], [RevokeAt] and [InspectAt] differ in the operation they demand; an
    executable value wraps the verified capability. *)
Definition execute_at (operation : string) (v : VerifiedCapability) (now : time) : result CapErrorCode VerifiedCapability :=
  if negb (String.eqb (v_Operation (vc_value v)) operation) then Err ErrorOperation
  else _ ← checkFresh v now; Ok v.

Definition AddAt : VerifiedCapability → time → result CapErrorCode VerifiedCapability := execute_at OperationAdd.
Definition RevokeAt : VerifiedCapability → time → result CapErrorCode VerifiedCapability := execute_at OperationRevoke.
Definition InspectAt : VerifiedCapability → time → result CapErrorCode VerifiedCapability := execute_at OperationInspect.

(** ** Replay identity ([replay.go]) *)

Record ReplayIdentity := MkReplayIdentity {
  ri_CapabilityID : string;
  ri_CapabilityDigest : string;
  ri_Operation : string;
  ri_ArtifactDigest : string;
  ri_ActionID : string
}.

Definition replayIdentity (v : VerifiedCapability) : result CapErrorCode ReplayIdentity :=
  if (len (vc_canonical v) =? 0) || negb (is_digest (vc_digest v)) then Err ErrorUnchecked
  else Ok (MkReplayIdentity (v_CapabilityID (vc_value v)) (vc_digest v) (v_Operation (vc_value v))
             (v_ArtifactDigest (vc_value v)) (v_ActionID (vc_value v))).

Definition constantString (left right : string) : bool :=
  if negb (len left =? len right) then false else String.eqb left right.

Definition Same (r other : ReplayIdentity) : bool :=
  String.eqb (ri_CapabilityID r) (ri_CapabilityID other) && String.eqb (ri_Operation r) (ri_Operation other)
  && String.eqb (ri_ActionID r) (ri_ActionID other)
  && constantString (ri_CapabilityDigest r) (ri_CapabilityDigest other)
  && constantString (ri_ArtifactDigest r) (ri_ArtifactDigest other).

Definition valid_identity (r : ReplayIdentity) : bool :=
  is_uuid (ri_CapabilityID r) && is_uuid (ri_ActionID r) && is_digest (ri_CapabilityDigest r)
  && is_digest (ri_ArtifactDigest r)
  && (String.eqb (ri_Operation r) OperationAdd || String.eqb (ri_Operation r) OperationRevoke
      || String.eqb (ri_Operation r) OperationInspect).

Inductive ClaimState := ClaimedUnseen | ClaimExactRetry | ClaimConflict.

Record ClaimResult := MkClaimResult { cl_State : ClaimState; cl_Existing : ReplayIdentity }.

Definition ValidateClaim (incoming : ReplayIdentity) (result : ClaimResult) : Prelude.result CapErrorCode unit :=
  if negb (valid_identity incoming) then Err ErrorUnchecked
  else
    match cl_State result with
    | ClaimedUnseen | ClaimExactRetry =>
        if negb (Same incoming (cl_Existing result)) then Err ErrorReplayConflict else Ok tt
    | ClaimConflict => Err ErrorReplayConflict
    end.
