(* ===== verification/CapabilitySpec.v ===== *)
(** * Correctness of execution capabilities

    The artifact language, the round trip between checking and parsing, what a
    verified capability guarantees, and that a signed request verifies. *)

From S2P Require Import Prelude GoStrings Regex Sha256 Json Base64 GoTime Netip Policy PolicySpec.
From S2P Require Import ResponsePolicy Capability.
Local Open Scope Z_scope.

(** ** Add artifacts are the canonical commands of the policy grammar *)

Definition is_ipv4 (s : string) : Prop := ∃ a, addr4_ok a = true ∧ s = addr4_string a.

Lemma canonical_ipv4_is s : is_Some (canonical_ipv4 s) ↔ is_ipv4 s.
Proof.
  split.
  - intros [a [<- Ha]%canonical_ipv4_spec]. by exists a.
  - intros (a & Ha & ->). exists a. by apply canonical_ipv4_spec.
Qed.

Lemma addPattern_delimited : delimited addPattern.
Proof. solve_delimited. Qed.

Lemma revokePattern_delimited : delimited revokePattern.
Proof. solve_delimited. Qed.

(** The two TTL printers agree inside the range. *)
Lemma canonicalTTL_policy seconds : MinTTLSeconds <= seconds <= MaxTTLSeconds →
  CanonicalTTL seconds = Ok (canonicalTTL seconds).
Proof.
  intros H. unfold CanonicalTTL, canonicalTTL. rewrite (proj2 (Z.ltb_ge seconds _)), (proj2 (Z.ltb_ge _ seconds)) by lia.
  simpl. by repeat case_match.
Qed.

Lemma addr_quad a : addr4_ok a = true → item_ok (rep 7 15 is_quad) (chars (addr4_string a)).
Proof.
  intros (H1 & H2 & H3 & H4)%addr4_ok_range. unfold addr4_string. rewrite chars_implode. split.
  - repeat (rewrite length_app; simpl length).
    pose proof (octet_text_length _ H1). pose proof (octet_text_length _ H2).
    pose proof (octet_text_length _ H3). pose proof (octet_text_length _ H4). lia.
  - assert (∀ n, forallb is_quad (octet_text n) = true) as Ho.
    { intros n. pose proof (octet_text_digits n) as Hd. rewrite forallb_Forall in *.
      eapply Forall_impl; [exact Hd|]. unfold is_quad. by intros c ->. }
    repeat (rewrite forallb_app; simpl). by rewrite !Ho.
Qed.

(** What the add pattern takes apart. *)
Lemma add_submatches_sound s target number unit : add_submatches s = Some (target, number, unit) →
  ∃ v c, 1 <= v <= 99999 ∧ is_unit c = true ∧ number = format_uint v ∧ unit = String c "" ∧
    s = "add element inet sentinelflow blacklist_ipv4 { " +:+ target +:+ " timeout " +:+ (number +:+ unit)
          +:+ " }" +:+ lf.
Proof.
  unfold add_submatches. destruct (find_submatch addPattern (chars s)) as [ps|] eqn:E; [|done].
  apply find_submatch_sound in E as [H Hc]. do 7 (destruct ps as [|? ps]; [done|]). destruct ps; [|done].
  intros [= <- <- <-]. do 7 apply Forall2_cons in H as [? H].
  match goal with Ha : item_ok (exactly 1 (between _ _)) ?a, Hb : item_ok (rep 0 4 _) ?b |- _ =>
    destruct (number_pieces_sound a b Ha Hb) as (v & Hv & Hab) end.
  match goal with Hu : item_ok (exactly 1 is_unit) ?u |- _ => destruct Hu as [Hu1 Hu2]; destruct u as [|c [|? ?]]; simpl in Hu1; try lia end.
  simpl in Hu2. rewrite andb_true_r in Hu2. exists v, c. rewrite Hab, implode_chars. split_and!; [lia..|done|done|done|].
  repeat match goal with H : item_ok (lit _) _ |- _ => simpl in H; subst end.
  apply chars_inj. rewrite <-Hc. rewrite !chars_app, !chars_implode, <-Hab. cbn [concat]. rewrite <-!app_assoc. done.
Qed.

Lemma add_submatches_text a v c : addr4_ok a = true → 1 <= v <= 99999 → is_unit c = true →
  add_submatches (command_text a (format_uint v +:+ String c "") true) = Some (addr4_string a, format_uint v, String c "").
Proof.
  intros Ha Hv Hc. destruct (number_pieces_complete v Hv) as (d & ds & Hd & Hds & Hab). unfold add_submatches.
  rewrite (find_submatch_pieces addPattern _
    [chars "add element inet sentinelflow blacklist_ipv4 { "; chars (addr4_string a); chars " timeout "; d; ds; [c];
     chars (" }" +:+ lf)] addPattern_delimited).
  - by rewrite !implode_chars, <-Hab, implode_chars.
  - split.
    + assert (item_ok (exactly 1 is_unit) [c]) by (split; [simpl; lia|]; simpl; by rewrite Hc).
      repeat (apply Forall2_cons; split; [done || by apply addr_quad|]). constructor.
    + unfold command_text. rewrite !chars_app, Hab. cbn [concat]. rewrite <-!app_assoc. done.
Qed.

Lemma ttl_token_unit token seconds : ttl_token token seconds → ∃ v c m, 1 <= v <= 99999 ∧ is_unit c = true ∧
  token = format_uint v +:+ String c "" ∧ seconds = m * v ∧
  m = (if String.eqb (String c "") "m" then 60 else if String.eqb (String c "") "h" then 3600 else 1).
Proof.
  intros [v Hv|v Hv|v Hv]; [exists v, "s"%char, 1|exists v, "m"%char, 60|exists v, "h"%char, 3600];
    split_and!; done || lia.
Qed.

Lemma checkAddArtifact_iff artifact target ttl : checkAddArtifact artifact target = Ok ttl ↔
  ∃ a, addr4_ok a = true ∧ target = addr4_string a ∧ MinTTLSeconds <= ttl <= MaxTTLSeconds ∧
    artifact = command_text a (canonicalTTL ttl) true.
Proof.
  unfold MinTTLSeconds, MaxTTLSeconds. split.
  - unfold checkAddArtifact. intros H. pass_guards H.
    destruct (add_submatches artifact) as [[[address number] unit]|] eqn:Es; [|discriminate H].
    apply add_submatches_sound in Es as (v & c & Hv & Hc & -> & -> & ->). pass_guards H.
    destruct (canonical_ipv4 address) as [a|] eqn:Ea; [|discriminate H].
    apply canonical_ipv4_spec in Ea as [<- Ha]. rewrite parse_format_uint in H by lia.
    cbv zeta in H. set (seconds := u64 _) in H. clearbody seconds. pass_guards H. injection H as <-. breflect.
    destruct_and!. unfold u32 in *. rewrite Z.mod_small in * by lia. exists a. split_and!; [done|done|lia|lia|].
    unfold command_text. by match goal with H : canonicalTTL _ = _ |- _ => rewrite H end.
  - intros (a & Ha & -> & Hr & ->). pose proof (CanonicalTTL_token ttl _ (canonicalTTL_policy ttl Hr)) as [Ht _].
    pose proof (command_text_len a _ _ true Ha Ht) as Hlen. unfold MaxGeneratedBytes in Hlen.
    destruct (ttl_token_unit _ _ Ht) as (v & c & m & Hv & Hc & Htok & Hs & Hm).
    unfold checkAddArtifact, MaxArtifactBytes. rewrite (proj2 (Z.eqb_neq (len _) 0)), (proj2 (Z.ltb_ge _ (len _))) by lia.
    rewrite Htok at 1. rewrite add_submatches_text by done. rewrite String.eqb_refl. cbn [negb orb]. cbv zeta.
    rewrite (proj2 (canonical_ipv4_spec _ a)) by done. rewrite parse_format_uint by lia. rewrite <-Hm.
    unfold u64. rewrite (Z.mul_comm v m), <-Hs, (Z.mod_small ttl) by lia.
    unfold u32. rewrite (Z.mod_small ttl) by lia. rewrite <-Htok, String.eqb_refl.
    by rewrite (proj2 (Z.ltb_ge ttl 60)), (proj2 (Z.ltb_ge 86400 ttl)) by lia.
Qed.

Definition delete_text (a : addr4) : string :=
  "delete element inet sentinelflow blacklist_ipv4 { " +:+ addr4_string a +:+ " }" +:+ lf.

Lemma checkRevokeArtifact_iff artifact target : checkRevokeArtifact artifact target = Ok tt ↔
  ∃ a, addr4_ok a = true ∧ target = addr4_string a ∧ artifact = delete_text a.
Proof.
  split.
  - unfold checkRevokeArtifact, revoke_submatch. intros H. pass_guards H.
    destruct (find_submatch revokePattern (chars artifact)) as [ps|] eqn:E; [|discriminate H].
    apply find_submatch_sound in E as [Hp Hc]. do 3 (destruct ps as [|? ps]; [discriminate H|]).
    destruct ps; [|discriminate H]. do 3 apply Forall2_cons in Hp as [? Hp]. pass_guards H. bsplit.
    match goal with H : is_Some (canonical_ipv4 _) |- _ => apply canonical_ipv4_is in H as (a & Ha & Htext) end.
    exists a. split_and!; [done|congruence|].
    repeat match goal with H : item_ok (lit _) _ |- _ => simpl in H; subst end.
    apply chars_inj. rewrite <-Hc. unfold delete_text. rewrite <-Htext, !chars_app, chars_implode. cbn [concat].
    by rewrite app_nil_r.
  - intros (a & Ha & -> & ->). unfold checkRevokeArtifact, revoke_submatch, MaxArtifactBytes.
    pose proof (addr4_string_len a Ha) as Hl. assert (0 <= len (addr4_string a)) by (unfold len; lia).
    assert (len (delete_text a) = 53 + len (addr4_string a)) as Hlen by (unfold delete_text; rewrite !len_app; unfold len; simpl; lia).
    rewrite (proj2 (Z.eqb_neq (len _) 0)), (proj2 (Z.ltb_ge _ (len _))) by lia.
    rewrite (find_submatch_pieces revokePattern _
      [chars "delete element inet sentinelflow blacklist_ipv4 { "; chars (addr4_string a); chars (" }" +:+ lf)]
      revokePattern_delimited).
    + rewrite implode_chars, String.eqb_refl. by rewrite bool_decide_eq_true_2 by (apply canonical_ipv4_is; by exists a).
    + split; [repeat (apply Forall2_cons; split; [done || by apply addr_quad|]); constructor|].
      unfold delete_text. rewrite !chars_app. cbn [concat]. by rewrite app_nil_r.
Qed.

(** ** Decoding what was printed *)

Lemma utf8_valid_bytes s : Forall is_ascii (chars s) → utf8_valid s = true.
Proof. intros H. by apply utf8_valid_ascii. Qed.

Lemma strictDecode_write ms maximum fields w data : chars data = write_object ms → Forall flat ms →
  Z.of_nat (2 + sum_list (member_size <$> ms)) <= maximum → NoDup (fst <$> ms) →
  decode_struct fields (JObject ms) = Some w → strictDecode data maximum fields = Ok w.
Proof.
  intros Hd Hms Hlen Hn Hw. unfold strictDecode.
  pose proof (write_object_length ms Hms) as Hl. rewrite len_chars, Hd.
  rewrite (proj2 (Z.eqb_neq _ 0)) by (unfold write_object; simpl; lia).
  rewrite (proj2 (Z.ltb_ge maximum _)) by lia.
  rewrite utf8_valid_bytes by (rewrite Hd; by apply write_object_ascii). cbn [orb negb].
  rewrite parse_write_object, unique_names_flat by done. cbn [negb]. by rewrite Hw.
Qed.

(** ** Bounded plain strings *)

Definition bounded (n : nat) (s : string) : Prop := plain s ∧ (length (chars s) ≤ n)%nat.

Lemma match_bounded pt s : Forall (item_within json_plain) pt → match_string pt s = true → bounded (pattern_max pt) s.
Proof. intros Hw Hs. split; [by eapply match_within|by apply match_length]. Qed.

Lemma uuid_bounded s : is_uuid s = true → bounded 36 s.
Proof. apply (match_bounded uuid_pattern). solve_within. Qed.

Lemma digest_bounded s : is_digest s = true → bounded 71 s.
Proof. apply (match_bounded digest_pattern). solve_within. Qed.

Lemma actor_bounded s : match_string actorPattern s = true → bounded 128 s.
Proof. apply (match_bounded actorPattern). solve_within. Qed.

Lemma nonce_bounded s : match_string noncePattern s = true → bounded 22 s.
Proof. apply (match_bounded noncePattern). solve_within. Qed.

Lemma ipv4_bounded s : is_ipv4 s → bounded 15 s.
Proof.
  intros (a & Ha & ->). destruct (addr_quad a Ha) as [Hl Hq]. split; [|simpl in Hl; lia].
  unfold plain. rewrite forallb_Forall in *. eapply Forall_impl; [exact Hq|]. apply class_incl. vm_compute. reflexivity.
Qed.

Lemma time_bounded t : four_digit_year t → bounded 24 (format_millis t).
Proof.
  intros Hy. split; [apply format_millis_plain|]. unfold format_millis. rewrite chars_implode, length_app.
  rewrite seconds_text_length by done. cbn [length]. rewrite length_app, padded_length.
  - simpl. lia.
  - pose proof (nanosecond_range t). unfold Second, Millisecond in *. simpl. Z.div_mod_to_equations. lia.
  - lia.
Qed.

Lemma format_uint_bounded z n : 0 <= z < 10 ^ Z.of_nat n → (1 ≤ n)%nat → (length (chars (format_uint z)) ≤ n)%nat.
Proof. intros Hz Hn. by apply format_uint_length. Qed.

(** A string member of bounded size. *)
Lemma string_member k n s : plain k → bounded n s →
  flat (k, JString s) ∧ (member_size (k, JString s) ≤ length (chars k) + n + 6)%nat.
Proof.
  intros Hk [Hs Hn]. split; [by split|]. unfold member_size. cbn [fst snd write_value].
  rewrite json_string_plain by done. simpl. rewrite length_app. simpl. lia.
Qed.

Lemma uint_member k n z : plain k → 0 <= z < 10 ^ Z.of_nat n → (1 ≤ n)%nat →
  flat (k, JNumber (chars (format_uint z))) ∧
  (member_size (k, JNumber (chars (format_uint z))) ≤ length (chars k) + n + 4)%nat.
Proof.
  intros Hk Hz Hn. split; [split; [done|]; exists z; split; [lia|done]|]. unfold member_size. cbn [fst snd write_value].
  pose proof (format_uint_bounded z n Hz Hn). lia.
Qed.

(** ** The canonical object of a capability *)

Definition nullable (s : string) : json := if String.eqb s "" then JNull else JString s.

Definition capability_members (v : Value) (issuedAt notBefore expiresAt : string) : list (string * json) :=
  [("action_id", JString (v_ActionID v)); ("actor_id", JString (v_ActorID v));
   ("artifact_digest", JString (v_ArtifactDigest v)); ("authorization_digest", JString (v_AuthorizationDigest v));
   ("capability_id", JString (v_CapabilityID v)); ("evidence_snapshot_digest", JString (v_EvidenceSnapshotDigest v));
   ("expires_at", JString expiresAt); ("issued_at", JString issuedAt); ("job_id", JString (v_JobID v));
   ("nonce", JString (v_Nonce v)); ("not_before", JString notBefore); ("operation", JString (v_Operation v));
   ("original_add_digest", nullable (v_OriginalAddDigest v)); ("owned_schema_digest", JString (v_OwnedSchemaDigest v));
   ("policy_id", JString (v_PolicyID v)); ("policy_version", JNumber (chars (format_uint (v_PolicyVersion v))));
   ("reason_digest", JString (v_ReasonDigest v)); ("schema_version", JString (v_SchemaVersion v));
   ("target_ipv4", JString (v_TargetIPv4 v)); ("validation_snapshot_digest", JString (v_ValidationSnapshotDigest v))].

Lemma nullable_write s : chars (appendNullableString s) = write_value (nullable s).
Proof. unfold appendNullableString, nullable. by destruct (String.eqb s ""). Qed.

Lemma marshal_members v i n e : chars (marshalCapabilityTimes v i n e) = write_object (capability_members v i n e).
Proof.
  unfold marshalCapabilityTimes. rewrite !chars_app, nullable_write, write_object_end. reflexivity.
Qed.

(** What [checkCommon] establishes of a value. *)
Record value_ok (v : Value) : Prop := {
  vo_schema : v_SchemaVersion v = CapabilitySchemaVersion;
  vo_operation : v_Operation v ∈ [OperationAdd; OperationRevoke; OperationInspect];
  vo_ids : Forall (λ s, is_uuid s = true) [v_CapabilityID v; v_JobID v; v_ActionID v; v_PolicyID v];
  vo_version : 0 < v_PolicyVersion v <= MaxInt32;
  vo_target : is_ipv4 (v_TargetIPv4 v);
  vo_digests : Forall (λ s, is_digest s = true)
    [v_ArtifactDigest v; v_EvidenceSnapshotDigest v; v_ValidationSnapshotDigest v; v_AuthorizationDigest v;
     v_ReasonDigest v; v_OwnedSchemaDigest v];
  vo_original : if String.eqb (v_Operation v) OperationAdd then v_OriginalAddDigest v = ""
                else is_digest (v_OriginalAddDigest v) = true;
  vo_actor : match_string actorPattern (v_ActorID v) = true;
  vo_nonce : match_string noncePattern (v_Nonce v) = true;
  vo_times : v_IssuedAt v <= v_NotBefore v < v_ExpiresAt v ∧ v_ExpiresAt v - v_IssuedAt v <= MaxValidity;
  vo_years : Forall four_digit_year [v_IssuedAt v; v_NotBefore v; v_ExpiresAt v];
  vo_aligned : Forall (λ t, t mod Millisecond = 0) [v_IssuedAt v; v_NotBefore v; v_ExpiresAt v]
}.

Lemma millisecondAligned_mod t : millisecondAligned t = true ↔ t mod Millisecond = 0.
Proof.
  unfold millisecondAligned, NanosecondOf, Second, Millisecond. rewrite Z.eqb_eq. Z.div_mod_to_equations. lia.
Qed.

(** A duration within the range is not saturated. *)
Lemma Sub_exact a b : a - b <= 2 ^ 62 → - 2 ^ 62 <= a - b → Sub a b = a - b.
Proof. unfold Sub. lia. Qed.

Lemma Sub_bound a b limit : 0 <= limit < 2 ^ 62 → 0 <= a - b → Sub a b <= limit → a - b <= limit.
Proof. unfold Sub. lia. Qed.

Lemma checkCommon_ok common op orig artifact v : 0 <= cm_PolicyVersion common →
  checkCommon common op orig artifact = Ok v →
  value_ok v ∧ v_Operation v = op ∧ v_OriginalAddDigest v = orig ∧ v_ArtifactDigest v = artifact ∧
  common = MkCommon (v_CapabilityID v) (v_JobID v) (v_ActionID v) (v_PolicyID v) (v_PolicyVersion v) (v_TargetIPv4 v)
    (v_EvidenceSnapshotDigest v) (v_ValidationSnapshotDigest v) (v_AuthorizationDigest v) (v_ActorID v)
    (v_ReasonDigest v) (v_OwnedSchemaDigest v) (v_IssuedAt v) (v_NotBefore v) (v_ExpiresAt v) (v_Nonce v).
Proof.
  intros Hver H. unfold checkCommon, IsZero, Before, After in H. pass_guards H. injection H as <-.
  simpl. split; [|by destruct common].
  repeat match goal with H : _ || _ = false |- _ => apply orb_false_iff in H as [? ?] end. simpl forallb in *.
  repeat match goal with H : _ && _ = false |- _ => rewrite andb_false_iff in H end.
  repeat match goal with H : negb _ = false |- _ => rewrite negb_false_iff in H end.
  repeat match goal with H : _ && _ = true |- _ => apply andb_true_iff in H as [? ?] end.
  repeat match goal with H : millisecondAligned _ = true |- _ => apply millisecondAligned_mod in H end.
  breflect. unfold MaxValidity in *.
  match goal with H : Sub ?e ?i <= _ |- _ => apply Sub_bound in H; [|unfold Second; lia|lia] end.
  assert (∀ t, cm_IssuedAt common <= t <= cm_ExpiresAt common → four_digit_year t) as Hyear.
  { intros t [Hlo%Year_mono Hhi%Year_mono]. unfold four_digit_year. lia. }
  split; simpl; try done.
  - repeat match goal with H : _ ∨ _ |- _ => destruct H end; subst; set_solver.
  - repeat constructor; done.
  - lia.
  - by apply canonical_ipv4_is.
  - repeat constructor; done.
  - destruct (String.eqb op OperationAdd) eqn:E; breflect.
    + by destruct Heqb4.
    + by destruct Heqb5.
  - repeat constructor; apply Hyear; lia.
  - by repeat constructor.
Qed.

Lemma Forall_cons_inv {A} (P : A → Prop) x l : Forall P (x :: l) → P x ∧ Forall P l.
Proof. by rewrite Forall_cons. Qed.

Ltac split_Forall :=
  repeat match goal with H : Forall _ (_ :: _) |- _ => apply Forall_cons_inv in H as [? H] end.

Lemma members_cons m ms n k : flat m ∧ (member_size m ≤ n)%nat →
  Forall flat ms ∧ (sum_list (member_size <$> ms) ≤ k)%nat →
  Forall flat (m :: ms) ∧ (sum_list (member_size <$> m :: ms) ≤ n + k)%nat.
Proof.
  intros [Hm Hn] [Hms Hk]. split; [by constructor|]. rewrite fmap_cons.
  change (sum_list (?x :: ?l)) with (x + sum_list l)%nat. lia.
Qed.

Lemma members_nil : Forall flat [] ∧ (sum_list (member_size <$> []) ≤ 0)%nat.
Proof. split; [constructor|done]. Qed.

Lemma operation_bounded s : s ∈ [OperationAdd; OperationRevoke; OperationInspect] → bounded 7 s.
Proof.
  rewrite !elem_of_cons, elem_of_nil. intros [-> | [-> | [-> | []]]];
    (split; [vm_compute; reflexivity|vm_compute; lia]).
Qed.

Lemma nullable_member k s : plain k → s = "" ∨ is_digest s = true →
  flat (k, nullable s) ∧ (member_size (k, nullable s) ≤ length (chars k) + 77)%nat.
Proof.
  intros Hk Hs. unfold nullable. destruct (String.eqb s "") eqn:E.
  - split; [by split|]. unfold member_size. simpl. lia.
  - destruct Hs as [-> |Hs]; [discriminate E|]. destruct (string_member k 71 s Hk (digest_bounded s Hs)). split; [done|lia].
Qed.

Lemma capability_members_ok v : value_ok v →
  let ms := capability_members v (formatCanonicalTime (v_IssuedAt v)) (formatCanonicalTime (v_NotBefore v))
              (formatCanonicalTime (v_ExpiresAt v)) in
  Forall flat ms ∧ (sum_list (member_size <$> ms) ≤ 2000)%nat.
Proof.
  intros [Hsch Hop Hids Hver Htgt Hdig Horig Hact Hnon _ Hyears _] ms. split_Forall.
  assert (v_OriginalAddDigest v = "" ∨ is_digest (v_OriginalAddDigest v) = true) as Hor
    by (destruct (String.eqb _ _) in Horig; auto).
  assert (bounded 23 (v_SchemaVersion v)) as Hs by (rewrite Hsch; split; [vm_compute; reflexivity|vm_compute; lia]).
  enough (∃ n, (Forall flat ms ∧ (sum_list (member_size <$> ms) ≤ n)%nat) ∧ (n ≤ 2000)%nat) as (n & [? ?] & ?)
    by (split; [done|lia]).
  subst ms. unfold capability_members, formatCanonicalTime. eexists. split.
  { repeat (apply members_cons;
      [first [ apply string_member; [vm_compute; reflexivity|eauto using uuid_bounded, digest_bounded, actor_bounded,
                 nonce_bounded, ipv4_bounded, time_bounded, operation_bounded]
             | apply nullable_member; [vm_compute; reflexivity|exact Hor]
             | apply (uint_member _ 10); [vm_compute; reflexivity|unfold MaxInt32 in Hver; simpl; lia|lia]]|]).
    apply members_nil. }
  vm_compute. lia.
Qed.

Lemma decode_capability v i n e : 0 <= v_PolicyVersion v <= MaxInt32 →
  decode_struct capabilityWire (JObject (capability_members v i n e)) = Some (rev (capability_members v i n e)).
Proof.
  intros Hv. assert (parse_uint 32 (implode (chars (format_uint (v_PolicyVersion v)))) = Some (v_PolicyVersion v)) as Hp.
  { rewrite implode_chars. apply parse_format_uint. unfold MaxInt32 in *. lia. }
  unfold capability_members, nullable. destruct (String.eqb (v_OriginalAddDigest v) ""); cbn -[parse_uint implode chars format_uint];
    rewrite Hp; reflexivity.
Qed.

Lemma capability_names v i n e : NoDup (fst <$> capability_members v i n e).
Proof. apply (bool_decide_eq_true_1 _). vm_compute. reflexivity. Qed.

Lemma parseCanonicalTime_format t : four_digit_year t → t mod Millisecond = 0 →
  parseCanonicalTime (formatCanonicalTime t) = Some t.
Proof.
  intros Hy Hm. unfold parseCanonicalTime, formatCanonicalTime.
  assert (has_suffix "Z" (format_millis t) = true) as ->.
  { unfold has_suffix, format_millis. rewrite chars_implode, app_comm_cons, app_assoc, last_snoc. by rewrite bool_decide_eq_true_2. }
  assert (len (format_millis t) = 24) as ->.
  { unfold format_millis. rewrite len_implode, length_app, seconds_text_length by done. cbn [length].
    rewrite length_app, padded_length; [done| |lia].
    pose proof (nanosecond_range t). unfold Second, Millisecond in *. simpl. Z.div_mod_to_equations. lia. }
  simpl. rewrite parse_format_millis by done. simpl. unfold Truncate. rewrite Hm, Z.sub_0_r.
  by rewrite (proj2 (millisecondAligned_mod t) Hm), String.eqb_refl.
Qed.

(** Decoding the canonical bytes of a checked value. *)
Lemma strictDecode_capability v : value_ok v →
  strictDecode (marshalCapability v) MaxCapabilityBytes capabilityWire
  = Ok (rev (capability_members v (formatCanonicalTime (v_IssuedAt v)) (formatCanonicalTime (v_NotBefore v))
              (formatCanonicalTime (v_ExpiresAt v)))).
Proof.
  intros Hv. destruct (capability_members_ok v Hv) as [Hf Hs]. pose proof (vo_version _ Hv).
  eapply strictDecode_write; [apply marshal_members|exact Hf|unfold MaxCapabilityBytes; lia|apply capability_names|].
  apply decode_capability. lia.
Qed.

Lemma digest_is_digest s : is_digest (digest s) = true.
Proof. apply digest_matches. Qed.

Lemma digestEqual_refl s : is_digest s = true → digestEqual s s = true.
Proof. intros H. unfold digestEqual. by rewrite H, String.eqb_refl. Qed.

(** Parsing gives back what was built, when the operation's constructor does. *)
Lemma parse_built common op orig artifact ttl insp c : 0 <= cm_PolicyVersion common →
  buildChecked common op orig artifact ttl insp = Ok c →
  (∀ wire, get_string wire "operation" = op →
    get_pointer wire "original_add_digest" = (if String.eqb orig "" then None else Some orig) →
    check_operation wire common artifact = Ok c) →
  ParseCanonicalCapability (cc_canonical c) artifact = Ok c.
Proof.
  intros Hver H Hcheck. unfold buildChecked in H. inv_bind H. rename a into v.
  apply checkCommon_ok in Hbind as (Hv & Hop & Horig & Hart & Hcommon); [|done].
  cbv zeta in H. apply (f_equal (from_ok c)) in H. cbn [from_ok] in H. subst c. cbn [cc_canonical].
  unfold ParseCanonicalCapability. rewrite strictDecode_capability by done. cbn [mbind result_bind].
  set (wire := rev _) in *. pose proof (vo_years _ Hv) as Hy. pose proof (vo_aligned _ Hv) as Ha. split_Forall.
  assert (get_string wire "issued_at" = formatCanonicalTime (v_IssuedAt v)) as -> by reflexivity.
  assert (get_string wire "not_before" = formatCanonicalTime (v_NotBefore v)) as -> by reflexivity.
  assert (get_string wire "expires_at" = formatCanonicalTime (v_ExpiresAt v)) as -> by reflexivity.
  rewrite !parseCanonicalTime_format by done.
  assert (wire_common wire (v_IssuedAt v) (v_NotBefore v) (v_ExpiresAt v) = common) as ->.
  { rewrite Hcommon. unfold wire_common. f_equal; try reflexivity.
    unfold get_uint, get_uint_pointer. cbn -[parse_uint implode chars format_uint]. rewrite implode_chars.
    rewrite parse_format_uint; [done|]. pose proof (vo_version _ Hv). unfold MaxInt32 in *. lia. }
  rewrite Hcheck; [|by rewrite <-Hop|].
  2: { assert (slot wire "original_add_digest" = Some (nullable (v_OriginalAddDigest v))) as Hs by reflexivity.
       unfold get_pointer. rewrite Hs, Horig. unfold nullable. by destruct (String.eqb orig ""). }
  cbn [mbind result_bind cc_value cc_artifact cc_addTTL cc_inspection].
  assert (get_string wire "schema_version" = v_SchemaVersion v) as -> by reflexivity.
  assert (get_string wire "artifact_digest" = v_ArtifactDigest v) as -> by reflexivity.
  rewrite String.eqb_refl, digestEqual_refl by (rewrite Hart; apply digest_is_digest).
  unfold marshalCapability at 1. rewrite String.eqb_refl. reflexivity.
Qed.

(** ** Inspection artifacts *)

Record inspection_ok (i : InspectArtifact) : Prop := {
  io_schema : ia_SchemaVersion i = InspectSchemaVersion;
  io_action : is_uuid (ia_ActionID i) = true;
  io_original : is_digest (ia_OriginalAddDigest i) = true;
  io_owned : is_digest (ia_OwnedSchemaDigest i) = true;
  io_target : is_ipv4 (ia_TargetIPv4 i);
  io_purpose : ia_Purpose i ∈ purposes
}.

Lemma checkInspection_iff i r : checkInspection i = Ok r ↔ inspection_ok i ∧ r = (i, marshalInspection i).
Proof.
  split.
  - unfold checkInspection. intros H. pass_guards H. apply (f_equal (from_ok r)) in H. cbn [from_ok] in H. subst r.
    bsplit. split; [|done]. split; try done; [by apply canonical_ipv4_is|].
    match goal with H : existsb _ _ = true |- _ => apply existsb_exists in H as (x & Hx & Hp) end.
    breflect. subst x. by apply list_elem_of_In.
  - intros [[Hs Ha Ho Hw Ht Hp] ->]. unfold checkInspection. rewrite Hs, Ha, Ho, Hw, String.eqb_refl.
    rewrite bool_decide_eq_true_2 by by apply canonical_ipv4_is. cbn [negb orb].
    rewrite (proj2 (existsb_exists _ _)); [done|]. exists (ia_Purpose i). rewrite String.eqb_refl. split; [|done].
    by apply list_elem_of_In.
Qed.

Definition inspection_members (i : InspectArtifact) : list (string * json) :=
  [("action_id", JString (ia_ActionID i)); ("operation", JString "inspect");
   ("original_add_digest", JString (ia_OriginalAddDigest i)); ("owned_schema_digest", JString (ia_OwnedSchemaDigest i));
   ("purpose", JString (ia_Purpose i)); ("schema_version", JString "nft-inspect-v1");
   ("target_ipv4", JString (ia_TargetIPv4 i))].

Lemma inspection_write i : chars (marshalInspection i) = write_object (inspection_members i).
Proof. unfold marshalInspection. rewrite !chars_app, write_object_end. reflexivity. Qed.

Lemma purpose_bounded s : s ∈ purposes → bounded 19 s.
Proof.
  unfold purposes. rewrite !elem_of_cons, elem_of_nil. intros [-> | [-> | [-> | []]]];
    (split; [vm_compute; reflexivity|vm_compute; lia]).
Qed.

Lemma inspection_members_ok i : inspection_ok i →
  Forall flat (inspection_members i) ∧ (sum_list (member_size <$> inspection_members i) ≤ 1000)%nat.
Proof.
  intros [Hs Ha Ho Hw Ht Hp]. set (ms := inspection_members i).
  enough (∃ n, (Forall flat ms ∧ (sum_list (member_size <$> ms) ≤ n)%nat) ∧ (n ≤ 1000)%nat) as (n & [? ?] & ?)
    by (split; [done|lia]).
  assert (bounded 7 "inspect" ∧ bounded 14 "nft-inspect-v1") as [? ?] by (split; split; [vm_compute; reflexivity|vm_compute; lia..]).
  subst ms. unfold inspection_members. eexists. split.
  { repeat (apply members_cons; [apply string_member; [vm_compute; reflexivity|eauto using uuid_bounded, digest_bounded,
      ipv4_bounded, purpose_bounded]|]). apply members_nil. }
  vm_compute. lia.
Qed.

Lemma parseInspection_marshal i : inspection_ok i → parseInspection (marshalInspection i) = Ok i.
Proof.
  intros Hi. destruct (inspection_members_ok i Hi) as [Hf Hs]. unfold parseInspection.
  erewrite (strictDecode_write (inspection_members i) MaxArtifactBytes inspectWire (rev (inspection_members i)));
    [|apply inspection_write|exact Hf|unfold MaxArtifactBytes; lia| |reflexivity].
  2: { apply (bool_decide_eq_true_1 _). vm_compute. reflexivity. }
  set (wire := rev _).
  assert (get_string wire "operation" = "inspect") as -> by reflexivity. cbn [String.eqb negb].
  assert (MkInspectArtifact (get_string wire "schema_version") (get_string wire "action_id")
    (get_string wire "target_ipv4") (get_string wire "original_add_digest") (get_string wire "owned_schema_digest")
    (get_string wire "purpose") = i) as ->.
  { destruct i. f_equal; try reflexivity. symmetry. apply (io_schema _ Hi). }
  rewrite (proj2 (checkInspection_iff i _) (conj Hi eq_refl)). by rewrite String.eqb_refl.
Qed.

Lemma parseInspection_ok data i : parseInspection data = Ok i → inspection_ok i ∧ data = marshalInspection i.
Proof.
  unfold parseInspection. destruct (strictDecode data MaxArtifactBytes inspectWire) as [wire|]; [|discriminate 1].
  intros H. pass_guards H. destruct (checkInspection _) as [[j canonical]|] eqn:E; [|discriminate H].
  pass_guards H. injection H as <-. apply checkInspection_iff in E as [Hi Heq]. injection Heq as -> ->. bsplit.
  split; [done|congruence].
Qed.

(** ** Checked capabilities *)

(** The artifact is exactly the one the value names. *)
Definition artifact_for (v : Value) (artifact : string) (ttl : Z) (insp : InspectArtifact) : Prop :=
  v_Operation v = OperationAdd ∧ insp = no_inspection ∧ (∃ a, addr4_ok a = true ∧ v_TargetIPv4 v = addr4_string a ∧
      MinTTLSeconds <= ttl <= MaxTTLSeconds ∧ artifact = command_text a (canonicalTTL ttl) true) ∨
  v_Operation v = OperationRevoke ∧ insp = no_inspection ∧ ttl = 0 ∧
    (∃ a, addr4_ok a = true ∧ v_TargetIPv4 v = addr4_string a ∧ artifact = delete_text a) ∨
  v_Operation v = OperationInspect ∧ ttl = 0 ∧ inspection_ok insp ∧ artifact = marshalInspection insp ∧
    ia_ActionID insp = v_ActionID v ∧ ia_TargetIPv4 insp = v_TargetIPv4 v ∧
    ia_OriginalAddDigest insp = v_OriginalAddDigest v ∧ ia_OwnedSchemaDigest insp = v_OwnedSchemaDigest v.

Record checked_ok (c : CheckedCapability) : Prop := {
  co_value : value_ok (cc_value c);
  co_canonical : cc_canonical c = marshalCapability (cc_value c);
  co_digest : cc_digest c = digest (cc_canonical c);
  co_artifact_digest : v_ArtifactDigest (cc_value c) = digest (cc_artifact c);
  co_artifact : artifact_for (cc_value c) (cc_artifact c) (cc_addTTL c) (cc_inspection c)
}.

(** What [buildChecked] puts together. *)
Lemma buildChecked_ok common op orig artifact ttl insp c : 0 <= cm_PolicyVersion common →
  buildChecked common op orig artifact ttl insp = Ok c →
  value_ok (cc_value c) ∧ v_Operation (cc_value c) = op ∧ v_OriginalAddDigest (cc_value c) = orig ∧
  v_ArtifactDigest (cc_value c) = digest artifact ∧ v_TargetIPv4 (cc_value c) = cm_TargetIPv4 common ∧
  v_ActionID (cc_value c) = cm_ActionID common ∧ v_OwnedSchemaDigest (cc_value c) = cm_OwnedSchemaDigest common ∧
  v_IssuedAt (cc_value c) = cm_IssuedAt common ∧ v_NotBefore (cc_value c) = cm_NotBefore common ∧
  v_ExpiresAt (cc_value c) = cm_ExpiresAt common ∧
  c = MkCheckedCapability (cc_value c) (marshalCapability (cc_value c)) (digest (marshalCapability (cc_value c)))
        artifact ttl insp.
Proof.
  intros Hver H. unfold buildChecked in H. inv_bind H. rename a into v.
  apply checkCommon_ok in Hbind as (Hv & Hop & Horig & Hart & Hcommon); [|done].
  cbv zeta in H. apply (f_equal (from_ok c)) in H. cbn [from_ok] in H. subst c common. cbn [cc_value].
  split_and!; done || reflexivity.
Qed.

Lemma CheckAdd_ok input c : 0 <= cm_PolicyVersion (add_Common input) → CheckAdd input = Ok c →
  checked_ok c ∧ cc_artifact c = add_CanonicalCommand input.
Proof.
  intros Hver H. unfold CheckAdd in H. inv_bind H. apply checkAddArtifact_iff in Hbind as (a' & Ha & Ht & Hr & Hart).
  apply buildChecked_ok in H as (Hv & Hop & _ & Hd & Htg & _ & _ & _ & _ & _ & Hc); [|done].
  rewrite Hc. split; [|done]. split; cbn [cc_value cc_canonical cc_digest cc_artifact cc_addTTL cc_inspection]; try done.
  left. split; [done|]. split; [done|]. exists a'. by rewrite Htg.
Qed.

Lemma CheckRevoke_ok input c : 0 <= cm_PolicyVersion (rv_Common input) → CheckRevoke input = Ok c →
  checked_ok c ∧ cc_artifact c = rv_CanonicalDelete input.
Proof.
  intros Hver H. unfold CheckRevoke in H. pass_guards H. inv_bind H. destruct a.
  apply checkRevokeArtifact_iff in Hbind as (a' & Ha & Ht & Hart).
  apply buildChecked_ok in H as (Hv & Hop & _ & Hd & Htg & _ & _ & _ & _ & _ & Hc); [|done].
  rewrite Hc. split; [|done]. split; cbn [cc_value cc_canonical cc_digest cc_artifact cc_addTTL cc_inspection]; try done.
  right. left. split; [done|]. split; [done|]. split; [done|]. exists a'. by rewrite Htg.
Qed.

Lemma CheckInspect_ok input c : 0 <= cm_PolicyVersion (in_Common input) → CheckInspect input = Ok c →
  checked_ok c ∧ cc_artifact c = marshalInspection (in_Artifact input) ∧ cc_inspection c = in_Artifact input.
Proof.
  intros Hver H. unfold CheckInspect in H. pass_guards H. inv_bind H. destruct a as [i canonical].
  apply checkInspection_iff in Hbind as [Hi Heq]. injection Heq as -> ->. cbv zeta in H. pass_guards H. bsplit.
  apply buildChecked_ok in H as (Hv & Hop & Hor & Hd & Htg & Hac & Hos & _ & _ & _ & Hc); [|done].
  rewrite Hc. split; [|done]. split; cbn [cc_value cc_canonical cc_digest cc_artifact cc_addTTL cc_inspection]; try done.
  right. right. split_and!; try done; congruence.
Qed.

(** ** Parsing *)

Lemma get_uint_range w name : 0 <= get_uint w name.
Proof.
  unfold get_uint, get_uint_pointer. destruct (slot w name) as [[]|]; simpl; try lia.
  destruct (parse_uint 64 (implode literal)) as [z|] eqn:E; simpl; [|lia]. unfold parse_uint in E.
  rewrite chars_implode in E. destruct literal as [|c l]; [done|].
  destruct (forallb is_digit (c :: l)) eqn:Ed; [|done]. cbv zeta in E.
  destruct (_ <? _) in E; [|done]. injection E as <-. apply of_digits_bound. by apply (is_digit_dec (c :: l)).
Qed.

Lemma parseCanonicalTime_text s t : parseCanonicalTime s = Some t → formatCanonicalTime t = s.
Proof.
  unfold parseCanonicalTime. destruct (_ || _); [done|]. destruct (parse_millis s) as [u|]; [|done]. simpl.
  destruct (negb (millisecondAligned u)); simpl; [done|].
  destruct (String.eqb (formatCanonicalTime u) s) eqn:E; [|done]. intros [= ->]. by apply String.eqb_eq in E.
Qed.

(** Every constructor behind the operation field checks the whole capability
    and takes its times from the wire. *)
Lemma check_operation_ok wire common artifact c : 0 <= cm_PolicyVersion common →
  check_operation wire common artifact = Ok c →
  checked_ok c ∧ cc_artifact c = artifact ∧ v_IssuedAt (cc_value c) = cm_IssuedAt common ∧
  v_NotBefore (cc_value c) = cm_NotBefore common ∧ v_ExpiresAt (cc_value c) = cm_ExpiresAt common.
Proof.
  intros Hver H. unfold check_operation in H. cbv zeta in H.
  destruct (String.eqb _ OperationAdd); [|destruct (String.eqb _ OperationRevoke); [|destruct (String.eqb _ OperationInspect); [|discriminate H]]];
    (destruct (get_pointer wire "original_add_digest") as [orig|]; try discriminate H).
  - destruct (CheckAdd_ok (MkAdd common artifact) _ Hver H) as [Hok Ha]. split; [done|]. split; [done|]. unfold CheckAdd in H. inv_bind H.
    by apply buildChecked_ok in H as (_ & _ & _ & _ & _ & _ & _ & ? & ? & ? & _).
  - destruct (CheckRevoke_ok (MkRevoke common orig artifact) _ Hver H) as [Hok Ha]. split; [done|]. split; [done|]. unfold CheckRevoke in H.
    pass_guards H. inv_bind H. by apply buildChecked_ok in H as (_ & _ & _ & _ & _ & _ & _ & ? & ? & ? & _).
  - inv_bind H. apply parseInspection_ok in Hbind as [Hi ->]. destruct (CheckInspect_ok (MkInspect common orig a) _ Hver H) as (Hok & Ha & _).
    split; [done|]. split; [done|]. unfold CheckInspect in H. pass_guards H. inv_bind H. destruct a0. cbv zeta in H.
    pass_guards H. by apply buildChecked_ok in H as (_ & _ & _ & _ & _ & _ & _ & ? & ? & ? & _).
Qed.

Lemma ParseCanonicalCapability_ok data artifact c : ParseCanonicalCapability data artifact = Ok c →
  checked_ok c ∧ cc_canonical c = data ∧ cc_artifact c = artifact.
Proof.
  unfold ParseCanonicalCapability. intros H. inv_bind H. rename a into wire.
  destruct (parseCanonicalTime (get_string wire "issued_at")) as [i|] eqn:Ei; [|discriminate H].
  destruct (parseCanonicalTime (get_string wire "not_before")) as [n|] eqn:En; [|discriminate H].
  destruct (parseCanonicalTime (get_string wire "expires_at")) as [e|] eqn:Ee; [|discriminate H].
  inv_bind H. rename a into checked. cbv zeta in H. pass_guards H.
  apply (f_equal (from_ok c)) in H. cbn [from_ok] in H. subst c.
  apply check_operation_ok in Hbind0 as (Hok & Ha & Hi & Hn & He); [|apply get_uint_range]. cbn in Hi, Hn, He.
  bsplit. apply parseCanonicalTime_text in Ei, En, Ee. subst i n e.
  assert (marshalCapability (cc_value checked) = data) as Hm.
  { unfold marshalCapability. by rewrite Ei, En, Ee. }
  split; [|done]. destruct Hok as [Hv Hc Hd Had Hart]. split; cbn [cc_value cc_canonical cc_digest cc_artifact cc_addTTL cc_inspection]; done.
Qed.

(** Parsing is the inverse of checking. *)
Lemma Check_parse_add input c : 0 <= cm_PolicyVersion (add_Common input) → CheckAdd input = Ok c →
  ParseCanonicalCapability (cc_canonical c) (cc_artifact c) = Ok c.
Proof.
  intros Hver H. destruct (CheckAdd_ok _ _ Hver H) as [_ ->]. pose proof H as Hcheck. unfold CheckAdd in H. inv_bind H.
  eapply parse_built; [exact Hver|exact H|]. intros wire Hop Hptr. unfold check_operation. rewrite Hop, Hptr. cbn.
  destruct input. exact Hcheck.
Qed.

Lemma Check_parse_revoke input c : 0 <= cm_PolicyVersion (rv_Common input) → CheckRevoke input = Ok c →
  ParseCanonicalCapability (cc_canonical c) (cc_artifact c) = Ok c.
Proof.
  intros Hver H. destruct (CheckRevoke_ok _ _ Hver H) as [_ ->]. pose proof H as Hcheck. unfold CheckRevoke in H.
  destruct (is_digest (rv_OriginalAddDigest input)) eqn:Hd; [|discriminate H]. cbn [negb] in H. inv_bind H.
  eapply parse_built; [exact Hver|exact H|]. intros wire Hop Hptr. unfold check_operation. rewrite Hop, Hptr.
  destruct (String.eqb (rv_OriginalAddDigest input) "") eqn:E; [apply String.eqb_eq in E; rewrite E in Hd; discriminate Hd|].
  cbn. destruct input. exact Hcheck.
Qed.

Lemma Check_parse_inspect input c : 0 <= cm_PolicyVersion (in_Common input) → CheckInspect input = Ok c →
  ParseCanonicalCapability (cc_canonical c) (cc_artifact c) = Ok c.
Proof.
  intros Hver H. destruct (CheckInspect_ok _ _ Hver H) as (Hok & Ha & _). pose proof H as Hcheck. unfold CheckInspect in H.
  destruct (is_digest (in_OriginalAddDigest input)) eqn:Hd; [|discriminate H]. cbn [negb] in H. inv_bind H.
  destruct a as [i canonical]. apply checkInspection_iff in Hbind as [Hi Heq]. injection Heq as -> ->.
  cbv zeta in H. pass_guards H. rewrite Ha.
  eapply parse_built; [exact Hver|exact H|]. intros wire Hop Hptr. unfold check_operation. rewrite Hop, Hptr.
  destruct (String.eqb (in_OriginalAddDigest input) "") eqn:E; [apply String.eqb_eq in E; rewrite E in Hd; discriminate Hd|].
  cbn [String.eqb]. change (String.eqb OperationInspect OperationAdd) with false.
  change (String.eqb OperationInspect OperationRevoke) with false. change (String.eqb OperationInspect OperationInspect) with true.
  cbv iota. rewrite parseInspection_marshal by done. cbn [mbind result_bind]. destruct input. exact Hcheck.
Qed.

(** ** Signed capabilities *)

Lemma digest_nonempty s : digest s ≠ "".
Proof. unfold digest. by destruct (hex_of_bytes _). Qed.

Lemma checked_sizes c : checked_ok c →
  0 < len (cc_canonical c) <= MaxCapabilityBytes ∧ 0 < len (cc_artifact c) <= MaxArtifactBytes.
Proof.
  intros [Hv Hc _ _ Hart]. split.
  - rewrite Hc, len_chars. unfold marshalCapability. rewrite marshal_members. destruct (capability_members_ok _ Hv) as [Hf Hs].
    pose proof (write_object_length _ Hf). unfold MaxCapabilityBytes.
    match goal with |- context [write_object ?ms] => pose proof (write_object_nonempty ms) end. lia.
  - unfold MaxArtifactBytes. destruct Hart as [(_ & _ & a & Ha & _ & Hr & ->)|[(_ & _ & _ & a & Ha & _ & ->)|(_ & _ & Hi & -> & _)]].
    + pose proof (CanonicalTTL_token _ _ (canonicalTTL_policy _ Hr)) as [Ht _].
      pose proof (command_text_len a _ _ true Ha Ht). unfold MaxGeneratedBytes in *. lia.
    + pose proof (addr4_string_len a Ha). assert (0 <= len (addr4_string a)) by (unfold len; lia).
      unfold delete_text. rewrite !len_app. unfold len in *. simpl. lia.
    + rewrite len_chars, inspection_write. destruct (inspection_members_ok _ Hi) as [Hf Hs].
      pose proof (write_object_length _ Hf).
      match goal with |- context [write_object ?ms] => pose proof (write_object_nonempty ms) end. lia.
Qed.

Section signed.
  Context `{Ed25519}.

(** What a verified capability guarantees. *)
Record verified_ok (ver : CapabilityVerifier) (signed : SignedCapability) (v : VerifiedCapability) : Prop := {
  ve_signature : ed25519_verify (cv_key ver) (signingInput CapabilitySigningDomain (sc_canonical signed))
                   (sc_signature signed) = true;
  ve_key : vc_keyID v = cv_keyID ver ∧ sc_keyID signed = cv_keyID ver ∧ vc_executorID v = cv_executorID ver;
  ve_bytes : vc_canonical v = sc_canonical signed ∧ vc_artifact v = sc_artifact signed;
  ve_value : value_ok (vc_value v);
  ve_canonical : vc_canonical v = marshalCapability (vc_value v);
  ve_digests : vc_digest v = digest (vc_canonical v) ∧ v_ArtifactDigest (vc_value v) = digest (vc_artifact v);
  ve_artifact : artifact_for (vc_value v) (vc_artifact v) (vc_addTTL v) (vc_inspection v)
}.

Lemma Verify_ok ver signed v : Verify ver signed = Ok v → verified_ok ver signed v.
Proof.
  intros Hok. unfold Verify in Hok. pass_guards Hok. inv_bind Hok. apply (f_equal (from_ok v)) in Hok. cbn [from_ok] in Hok.
  subst v. apply ParseCanonicalCapability_ok in Hbind as ([Hv Hc Hd Had Hart] & Hcan & Ha). bsplit.
  split; cbn [vc_keyID vc_executorID vc_canonical vc_artifact vc_value vc_digest vc_addTTL vc_inspection]; try done.
Qed.

(** The key pair [ed25519.GenerateKey] makes of a seed. *)
Definition private_of_seed (seed : string) : string := seed +:+ public_of_seed seed.

Lemma private_size seed : len seed = 32 → len (private_of_seed seed) = 64.
Proof. intros Hs. unfold private_of_seed. rewrite len_app, public_size. lia. Qed.

Lemma private_valid seed : len seed = 32 → validPrivateKey (private_of_seed seed) = true.
Proof.
  intros Hs. unfold validPrivateKey. rewrite private_size by done. unfold PrivateKeySize. rewrite Z.eqb_refl. cbn [negb].
  assert (length (chars seed) = SeedSize) as Hl by (rewrite len_chars in Hs; unfold SeedSize; lia).
  unfold private_of_seed. rewrite chars_app, take_app_length', drop_app_length' by done.
  by rewrite !implode_chars, String.eqb_refl.
Qed.

(** Signing a checked capability and verifying it with the public key. *)
Lemma Sign_Verify keyID executorID seed c : len seed = 32 →
  match_string keyIDPattern keyID = true → match_string actorPattern executorID = true →
  checked_ok c → ParseCanonicalCapability (cc_canonical c) (cc_artifact c) = Ok c →
  ∃ signed, Sign (MkCapabilityIssuer keyID (private_of_seed seed)) c = Ok signed ∧
    Verify (MkCapabilityVerifier keyID executorID (public_of_seed seed)) signed =
      Ok (MkVerifiedCapability (cc_value c) (cc_canonical c) (cc_digest c) (cc_artifact c) keyID executorID
            (cc_addTTL c) (cc_inspection c)).
Proof.
  intros Hseed Hk He Hok Hparse. destruct (checked_sizes c Hok) as [Hcan Hart].
  eexists. split.
  - unfold Sign. cbn [ci_keyID ci_key]. rewrite Hk, private_size by done. unfold PrivateKeySize. rewrite Z.eqb_refl.
    rewrite !(proj2 (Z.eqb_neq _ 0)) by lia. rewrite (co_digest _ Hok). unfold digestBytes.
    rewrite digestEqual_refl by apply digest_is_digest. reflexivity.
  - unfold Verify. cbn [cv_key cv_keyID cv_executorID sc_keyID sc_canonical sc_artifact sc_signature].
    rewrite public_size, String.eqb_refl, sign_size, !(proj2 (Z.eqb_neq _ 0)), !(proj2 (Z.ltb_ge _ _)) by lia.
    unfold private_of_seed. rewrite sign_verifies by done. cbn [negb orb Z.eqb PublicKeySize SignatureSize Pos.eqb].
    rewrite Hparse. reflexivity.
Qed.

(** Release of execution authority. *)
Lemma execute_at_ok ver signed v op now w : Verify ver signed = Ok v → cv_executorID ver ≠ "" →
  execute_at op v now = Ok w ↔
  w = v ∧ v_Operation (vc_value v) = op ∧ v_NotBefore (vc_value v) <= now < v_ExpiresAt (vc_value v).
Proof.
  intros Hv%Verify_ok Hex. pose proof (vo_times _ (ve_value _ _ _ Hv)) as [Ht _].
  assert (len (vc_canonical v) =? 0 = false) as Hlen.
  { apply Z.eqb_neq. rewrite (ve_canonical _ _ _ Hv), len_chars. unfold marshalCapability. rewrite marshal_members.
    match goal with |- context [write_object ?ms] => pose proof (write_object_nonempty ms) end. lia. }
  assert (String.eqb (vc_digest v) "" = false) as Hdig.
  { apply String.eqb_neq. destruct (ve_digests _ _ _ Hv) as [-> _]. apply digest_nonempty. }
  assert (String.eqb (vc_executorID v) "" = false) as Hexe.
  { apply String.eqb_neq. by destruct (ve_key _ _ _ Hv) as (_ & _ & ->). }
  unfold execute_at, checkFresh, Before. rewrite Hlen, Hdig, Hexe. cbn [orb]. split.
  - intros Hw. pass_guards Hw. inv_bind Hw. pass_guards Hbind. injection Hw as <-. bsplit. split_and!; try done; lia.
  - intros (-> & -> & Hr). rewrite String.eqb_refl. cbn [negb].
    rewrite (proj2 (Z.ltb_ge now (v_IssuedAt _))), (proj2 (Z.ltb_ge now (v_NotBefore _))) by lia.
    by rewrite (proj2 (Z.ltb_lt now (v_ExpiresAt _))) by lia.
Qed.

End signed.

(** ** The repository's contract vector and a sample key *)

Definition vector_common : Common :=
  MkCommon "019b0000-0000-7000-8000-000000000210" "019b0000-0000-7000-8000-000000000211"
    "019b0000-0000-7000-8000-000000000200" "019b0000-0000-7000-8000-000000000201" 1 "203.0.113.20"
    "sha256:ea1271f46a383bd32b27e66c5d1b06fda9a5c4cf2fe7dbe81a02c1ba15af3acc"
    "sha256:eac360a5f975cd8730522b3b5846b14899dfdbfa0e7e607fab7eb3b8983c07f8"
    "sha256:03f97cab15bf5a71ea86a486e46e9d5198aa72566bdff5bc1ff495abd544ae94"
    "admin-demo"
    "sha256:fadddc2ffd850e6ad58ad70c7602fac7934d9555cfbf19de1246706c8a519e90"
    "sha256:d5582a75817d349b12f292d212483bb0c2a5db66afde7d73c6d11050a5eb5997"
    63919936805000000000 63919936805000000000 63919936865000000000 "AAECAwQFBgcICQoLDA0ODw".

Definition no_value : Value := MkValue "" "" "" "" "" "" 0 "" "" "" "" "" "" "" "" "" 0 0 0 "".

Definition vector_capability : CheckedCapability := Eval vm_compute in
  from_ok (MkCheckedCapability no_value "" "" "" 0 no_inspection) (CheckAdd (MkAdd vector_common vector_add)).

(** [capability_add_v1.digest] of [contracts/vectors/contract_vectors_v1.json]. *)
Example vector_capability_digest :
  cc_digest vector_capability = "sha256:494841d948324186c6d005ce971bd8fbb990e9e2c67e1e723610b308c9e425d9".
Proof. vm_compute. reflexivity. Qed.

Example vector_signing_input : EncodeToString (signingInput CapabilitySigningDomain (cc_canonical vector_capability)) =
  "c2VudGluZWxmbG93IGV4ZWN1dGlvbi1jYXBhYmlsaXR5LXYxCklIQdlIMkGGxtAFzpcb2Pu5kOnixn4ecjYQswjJ5CXZ".
Proof. vm_compute. reflexivity. Qed.

(** A keyed hash in place of the curve: it meets the laws of [Ed25519]. *)
Definition hash32 (s : string) : string := implode (map chr (sha256 (bytes_of s))).

Definition toy_mac (public message : string) : string := hash32 (public +:+ message) +:+ hash32 (message +:+ public).

Lemma hash32_len s : len (hash32 s) = 32.
Proof. unfold hash32. rewrite len_implode, length_map, sha256_length. done. Qed.

Lemma toy_mac_len p m : len (toy_mac p m) = 64.
Proof. unfold toy_mac. by rewrite len_app, !hash32_len. Qed.

Lemma toy_verifies seed message : len seed = 32 →
  String.eqb (toy_mac (hash32 seed) message)
    (toy_mac (implode (drop 32 (chars (seed +:+ hash32 seed)))) message) = true.
Proof.
  intros Hs. rewrite len_chars in Hs. rewrite chars_app, drop_app_length' by lia.
  rewrite implode_chars. apply String.eqb_refl.
Qed.

Definition toy_ed25519 : Ed25519 := {|
  public_of_seed := hash32;
  ed25519_sign key message := toy_mac (implode (drop 32 (chars key))) message;
  ed25519_verify public message signature := String.eqb (toy_mac public message) signature;
  public_size := hash32_len;
  sign_size key message := toy_mac_len _ message;
  sign_verifies := toy_verifies
|}.

Definition sample_seed : string := "0123456789abcdef0123456789abcdef".

Definition sample_verifier : CapabilityVerifier := Eval vm_compute in
  MkCapabilityVerifier "dispatcher-key" "executor-1" (hash32 sample_seed).

Definition sample_signed : SignedCapability := Eval vm_compute in
  MkSignedCapability "dispatcher-key" (cc_canonical vector_capability)
    (toy_mac (hash32 sample_seed) (signingInput CapabilitySigningDomain (cc_canonical vector_capability))) vector_add.

Definition sample_verified : VerifiedCapability := Eval vm_compute in
  from_ok (MkVerifiedCapability no_value "" "" "" "" "" 0 no_inspection) (@Verify toy_ed25519 sample_verifier sample_signed).

Lemma sample_verifies : @Verify toy_ed25519 sample_verifier sample_signed = Ok sample_verified.
Proof. vm_compute. reflexivity. Qed.

Lemma vector_checked : CheckAdd (MkAdd vector_common vector_add) = Ok vector_capability.
Proof. vm_compute. reflexivity. Qed.

(** ** Claims *)

(** The executor's add grammar and the policy's canonical form are the
    same language: for a target the policy grammar admits, an artifact passes
    [checkAddArtifact] with a given TTL exactly when it is what the policy's
    [CanonicalBytes] prints for that target and TTL, whatever the token the
    analyst's candidate used. *)
Theorem add_artifact_is_canonical_command artifact target ttl a token :
  canonical_ipv4 target = Some a → is_global_unicast a = true →
  checkAddArtifact artifact target = Ok ttl ↔ CanonicalBytes (MkAST (Some a) ttl token) = Ok artifact.
Proof.
  intros [<- Ha]%canonical_ipv4_spec Hg. rewrite checkAddArtifact_iff. split.
  - intros (b & Hb & Hab & Hr & ->). apply addr4_string_inj in Hab as <-; [|done..].
    unfold CanonicalBytes. simpl. rewrite Hg. simpl. by rewrite canonicalTTL_policy.
  - intros (b & tok & Hb & _ & Ht & ->)%CanonicalBytes_text. simpl in *. injection Hb as <-.
    destruct (CanonicalTTL_token _ _ Ht) as [_ Hr]. exists a. split_and!; try done; [lia..|].
    rewrite canonicalTTL_policy in Ht by done. injection Ht as ->. done.
Qed.

Lemma add_artifact_is_canonical_command_witness :
  checkAddArtifact vector_add "203.0.113.20" = Ok 1800.
Proof.
  apply (add_artifact_is_canonical_command vector_add "203.0.113.20" 1800 (Addr4 203 0 113 20) "1800s");
    vm_compute; reflexivity.
Defined.

(** Parsing inverts checking for all three operations: the canonical bytes
    of a checked add, revoke or inspect capability, read with its artifact,
    give back exactly that capability; in particular the bytes determine every
    field. *)
Theorem capability_round_trip c :
  (∃ input, 0 <= cm_PolicyVersion (add_Common input) ∧ CheckAdd input = Ok c) ∨
  (∃ input, 0 <= cm_PolicyVersion (rv_Common input) ∧ CheckRevoke input = Ok c) ∨
  (∃ input, 0 <= cm_PolicyVersion (in_Common input) ∧ CheckInspect input = Ok c) →
  ParseCanonicalCapability (cc_canonical c) (cc_artifact c) = Ok c.
Proof.
  intros [(i & Hi & Hc)|[(i & Hi & Hc)|(i & Hi & Hc)]];
    [by eapply Check_parse_add|by eapply Check_parse_revoke|by eapply Check_parse_inspect].
Qed.

Lemma capability_round_trip_witness :
  ParseCanonicalCapability (cc_canonical vector_capability) (cc_artifact vector_capability) = Ok vector_capability.
Proof.
  apply capability_round_trip. left. exists (MkAdd vector_common vector_add).
  split; [vm_compute; discriminate|exact vector_checked].
Defined.

(** C6. A capability the executor verifies is authentic and exact: the
    dispatcher key signed the domain-separated digest of its bytes, the bytes
    are the canonical form of a fully checked value, the artifact hashes to the
    digest the value names and is precisely the add command, the delete command
    or the inspection request for the value's target; and its validity window
    is at most sixty seconds long. *)
Theorem Verify_exact `{Ed25519} ver signed v : Verify ver signed = Ok v →
  verified_ok ver signed v ∧ v_ExpiresAt (vc_value v) - v_IssuedAt (vc_value v) <= 60 * Second.
Proof.
  intros Hv%Verify_ok. split; [done|]. apply (vo_times _ (ve_value _ _ _ Hv)).
Qed.

Lemma Verify_exact_witness : @verified_ok toy_ed25519 sample_verifier sample_signed sample_verified.
Proof. apply (@Verify_exact toy_ed25519). exact sample_verifies. Defined.

(** Whatever the dispatcher signs after a check, an executor with its
    public key verifies: the verified capability carries the checked value,
    bytes, digest and artifact unchanged. *)
Theorem signed_capability_verifies `{Ed25519} keyID executorID seed input c : len seed = 32 →
  match_string keyIDPattern keyID = true → match_string actorPattern executorID = true →
  0 <= cm_PolicyVersion (add_Common input) → CheckAdd input = Ok c →
  ∃ issuer ver signed, NewCapabilityIssuer keyID (private_of_seed seed) = Ok issuer ∧
    NewCapabilityVerifier keyID executorID (public_of_seed seed) = Ok ver ∧ Sign issuer c = Ok signed ∧
    Verify ver signed = Ok (MkVerifiedCapability (cc_value c) (cc_canonical c) (cc_digest c) (cc_artifact c)
                              keyID executorID (cc_addTTL c) (cc_inspection c)).
Proof.
  intros Hs Hk He Hver Hc. destruct (CheckAdd_ok _ _ Hver Hc) as [Hok _].
  destruct (Sign_Verify keyID executorID seed c Hs Hk He Hok) as (signed & Hsign & Hv); [by eapply Check_parse_add|].
  exists (MkCapabilityIssuer keyID (private_of_seed seed)), (MkCapabilityVerifier keyID executorID (public_of_seed seed)), signed.
  split_and!; [| |done|done].
  - unfold NewCapabilityIssuer. by rewrite Hk, private_valid.
  - unfold NewCapabilityVerifier. by rewrite Hk, He, public_size.
Qed.

Lemma signed_capability_verifies_witness :
  ∃ issuer ver signed v, @NewCapabilityIssuer toy_ed25519 "dispatcher-key" (@private_of_seed toy_ed25519 sample_seed) = Ok issuer ∧
    NewCapabilityVerifier "dispatcher-key" "executor-1" (hash32 sample_seed) = Ok ver ∧
    @Sign toy_ed25519 issuer vector_capability = Ok signed ∧ @Verify toy_ed25519 ver signed = Ok v.
Proof.
  destruct (@signed_capability_verifies toy_ed25519 "dispatcher-key" "executor-1" sample_seed
    (MkAdd vector_common vector_add) vector_capability) as (i & v & s & Hi & Hv & Hs & Hok).
  - reflexivity.
  - vm_compute. reflexivity.
  - vm_compute. reflexivity.
  - vm_compute. discriminate.
  - exact vector_checked.
  - exact (ex_intro _ i (ex_intro _ v (ex_intro _ s (ex_intro _ _ (conj Hi (conj Hv (conj Hs Hok))))))).
Defined.

(** Execution authority is released exactly while it is fresh: a verified
    capability is turned into an executable one for its own operation and for
    no other, at the instants from its not-before time up to, but excluding,
    its expiry, and at no other; and what is released is the verified
    capability itself. *)
Theorem authority_is_fresh `{Ed25519} ver signed v op now w : Verify ver signed = Ok v → cv_executorID ver ≠ "" →
  execute_at op v now = Ok w ↔
  w = v ∧ v_Operation (vc_value v) = op ∧ v_NotBefore (vc_value v) <= now < v_ExpiresAt (vc_value v).
Proof. apply execute_at_ok. Qed.

Lemma authority_is_fresh_witness : AddAt sample_verified (63919936805000000000 + 30 * Second) = Ok sample_verified.
Proof.
  unfold AddAt. apply (@authority_is_fresh toy_ed25519 sample_verifier sample_signed).
  - exact sample_verifies.
  - discriminate.
  - split; [reflexivity|]. split; [vm_compute; reflexivity|]. vm_compute. split; [discriminate|reflexivity].
Defined.
