(* ===== verification/ExecResult.v ===== *)
(** * Execution results ([internal/enforcement/capability/result.go])

    The executor's signed attestation: [CheckResult] validates the combination
    of outcome fields and freezes canonical bytes, [ParseCanonicalResult] reads
    them back, and [bindResult] ties a result to the exact capability it
    describes. *)

From S2P Require Import Prelude GoStrings Regex Sha256 Json GoTime Netip Policy.
From S2P Require Import ResponsePolicy Capability.
Local Open Scope Z_scope.

Definition ResultSchemaVersion : string := "execution-result-v1".

Definition ClassificationApplied : string := "applied".
Definition ClassificationRecoveredActive : string := "recovered_active".
Definition ClassificationRevoked : string := "revoked".
Definition ClassificationInspectActive : string := "inspect_active".
Definition ClassificationInspectAbsent : string := "inspect_absent".
Definition ClassificationInspectMismatch : string := "inspect_mismatch".
Definition ClassificationFailed : string := "failed".
Definition ClassificationIndeterminate : string := "indeterminate".

Definition NFTExitSuccess : string := "success".
Definition NFTExitNotInvoked : string := "not_invoked".
Definition NFTExitNonzero : string := "nonzero".
Definition NFTExitTimeout : string := "timeout".
Definition NFTExitSignaled : string := "signaled".

Definition ReadbackActive : string := "active".
Definition ReadbackAbsent : string := "absent".
Definition ReadbackMismatch : string := "mismatch".
Definition ReadbackUnavailable : string := "unavailable".

Definition ResultErrorNone : string := "none".

Record ResultValue := MkResultValue {
  r_ResultID : string;
  r_CapabilityID : string;
  r_CapabilityDigest : string;
  r_Operation : string;
  r_ActionID : string;
  r_ArtifactDigest : string;
  r_TargetIPv4 : string;
  r_Classification : string;
  r_NFTExitClass : option string;
  r_ReadbackState : string;
  r_ElementHandle : option Z;
  r_RemainingTTLSeconds : option Z;
  r_OwnedSchemaDigest : string;
  r_StartedAt : time;
  r_CompletedAt : time;
  r_JournalSequence : Z;
  r_ErrorCode : string
}.

Record CheckedResult := MkCheckedResult { cr_value : ResultValue; cr_canonical : string; cr_digest : string }.

Record SignedResult := MkSignedResult {
  sr_keyID : string;
  sr_executorID : string;
  sr_canonical : string;
  sr_signature : string
}.

Record VerifiedResult := MkVerifiedResult {
  vr_value : ResultValue;
  vr_canonical : string;
  vr_digest : string;
  vr_keyID : string;
  vr_executorID : string
}.

(** ** Outcomes *)

Definition one_of (s : string) (l : list string) : bool := existsb (String.eqb s) l.

Definition validClassification (operation class : string) : bool :=
  if String.eqb operation OperationAdd then
    one_of class [ClassificationApplied; ClassificationRecoveredActive; ClassificationFailed; ClassificationIndeterminate]
  else if String.eqb operation OperationRevoke then
    one_of class [ClassificationRevoked; ClassificationFailed; ClassificationIndeterminate]
  else if String.eqb operation OperationInspect then
    one_of class [ClassificationInspectActive; ClassificationInspectAbsent; ClassificationInspectMismatch;
                  ClassificationFailed; ClassificationIndeterminate]
  else false.

Definition exit_classes : list string :=
  [NFTExitSuccess; NFTExitNotInvoked; NFTExitNonzero; NFTExitTimeout; NFTExitSignaled].

Definition validExit (value : option string) : bool :=
  match value with None => true | Some v => one_of v exit_classes end.

Definition readback_states : list string := [ReadbackActive; ReadbackAbsent; ReadbackMismatch; ReadbackUnavailable].

Definition validReadback (value : string) : bool := one_of value readback_states.

Definition result_errors : list string :=
  [ResultErrorNone; "capability_invalid"; "artifact_mismatch"; "schema_mismatch"; "target_exists"; "target_absent";
   "nft_failed"; "readback_failed"; "readback_mismatch"; "journal_failed"; "deadline_exceeded"; "replay_conflict";
   "indeterminate"].

Definition validResultError (value : string) : bool := one_of value result_errors.

(** [value == nil || *value != expected], and the same for a zero counter. *)
Definition exit_is (value : option string) (expected : string) : bool :=
  match value with Some v => String.eqb v expected | None => false end.

Definition positive (value : option Z) : bool := match value with Some n => negb (n =? 0) | None => false end.

Definition is_nil {A} (value : option A) : bool := match value with None => true | Some _ => false end.

Definition checkOutcome (value : ResultValue) : result CapErrorCode unit :=
  let class := r_Classification value in
  let success := negb (String.eqb class ClassificationFailed) && negb (String.eqb class ClassificationIndeterminate) in
  if negb (Bool.eqb success (String.eqb (r_ErrorCode value) ResultErrorNone)) then Err ErrorResult
  else if String.eqb class ClassificationApplied then
    if negb (exit_is (r_NFTExitClass value) NFTExitSuccess) || negb (String.eqb (r_ReadbackState value) ReadbackActive)
       || negb (is_nil (r_ElementHandle value)) || negb (positive (r_RemainingTTLSeconds value))
    then Err ErrorResult else Ok tt
  else if String.eqb class ClassificationRecoveredActive then
    if negb (exit_is (r_NFTExitClass value) NFTExitNotInvoked) || negb (String.eqb (r_ReadbackState value) ReadbackActive)
       || negb (is_nil (r_ElementHandle value)) || negb (positive (r_RemainingTTLSeconds value))
    then Err ErrorResult else Ok tt
  else if String.eqb class ClassificationRevoked || String.eqb class ClassificationInspectAbsent then
    if (negb (exit_is (r_NFTExitClass value) NFTExitSuccess) && negb (exit_is (r_NFTExitClass value) NFTExitNotInvoked))
       || negb (String.eqb (r_ReadbackState value) ReadbackAbsent)
       || negb (is_nil (r_ElementHandle value)) || negb (is_nil (r_RemainingTTLSeconds value))
    then Err ErrorResult else Ok tt
  else if String.eqb class ClassificationInspectActive then
    if negb (exit_is (r_NFTExitClass value) NFTExitSuccess) || negb (String.eqb (r_ReadbackState value) ReadbackActive)
       || negb (is_nil (r_ElementHandle value)) || negb (positive (r_RemainingTTLSeconds value))
    then Err ErrorResult else Ok tt
  else if String.eqb class ClassificationInspectMismatch then
    if negb (exit_is (r_NFTExitClass value) NFTExitSuccess) || negb (String.eqb (r_ReadbackState value) ReadbackMismatch)
    then Err ErrorResult else Ok tt
  else Ok tt.

Definition exceeds (limit : Z) (value : option Z) : bool :=
  match value with Some n => limit <? n | None => false end.

Definition checkResultValue (value : ResultValue) : result CapErrorCode unit :=
  if negb (is_uuid (r_ResultID value)) || negb (is_uuid (r_CapabilityID value)) || negb (is_uuid (r_ActionID value))
  then Err ErrorIdentity
  else if negb (is_digest (r_CapabilityDigest value)) || negb (is_digest (r_ArtifactDigest value))
          || negb (is_digest (r_OwnedSchemaDigest value))
  then Err ErrorDigest
  else if negb (bool_decide (is_Some (canonical_ipv4 (r_TargetIPv4 value)))) then Err ErrorResult
  else if negb (String.eqb (r_Operation value) OperationAdd) && negb (String.eqb (r_Operation value) OperationRevoke)
          && negb (String.eqb (r_Operation value) OperationInspect)
  then Err ErrorOperation
  else if negb (validClassification (r_Operation value) (r_Classification value)) || negb (validExit (r_NFTExitClass value))
          || negb (validReadback (r_ReadbackState value)) || negb (validResultError (r_ErrorCode value))
  then Err ErrorResult
  else if negb (is_nil (r_ElementHandle value)) then Err ErrorResult
  else if exceeds 86400 (r_RemainingTTLSeconds value) then Err ErrorResult
  else if (r_JournalSequence value =? 0) || (2 ^ 53 - 1 <? r_JournalSequence value) || IsZero (r_StartedAt value)
          || IsZero (r_CompletedAt value) || Before (r_CompletedAt value) (r_StartedAt value)
          || negb (millisecondAligned (r_StartedAt value)) || negb (millisecondAligned (r_CompletedAt value))
          || (2 * Second <? Sub (r_CompletedAt value) (r_StartedAt value))
  then Err ErrorTime
  else checkOutcome value.

Definition appendNullablePointer (value : option string) : string :=
  match value with None => "null" | Some s => appendString s end.

Definition marshalResultTimes (value : ResultValue) (startedAt completedAt : string) : string :=
  qq "{'action_id':" +:+ appendString (r_ActionID value)
  +:+ qq ",'artifact_digest':" +:+ appendString (r_ArtifactDigest value)
  +:+ qq ",'capability_digest':" +:+ appendString (r_CapabilityDigest value)
  +:+ qq ",'capability_id':" +:+ appendString (r_CapabilityID value)
  +:+ qq ",'classification':" +:+ appendString (r_Classification value)
  +:+ qq ",'completed_at':" +:+ appendString completedAt
  +:+ qq ",'element_handle':" +:+ appendNullableUint (r_ElementHandle value)
  +:+ qq ",'error_code':" +:+ appendString (r_ErrorCode value)
  +:+ qq ",'journal_sequence':" +:+ appendUint (r_JournalSequence value)
  +:+ qq ",'nft_exit_class':" +:+ appendNullablePointer (r_NFTExitClass value)
  +:+ qq ",'operation':" +:+ appendString (r_Operation value)
  +:+ qq ",'owned_schema_digest':" +:+ appendString (r_OwnedSchemaDigest value)
  +:+ qq ",'readback_state':" +:+ appendString (r_ReadbackState value)
  +:+ qq ",'remaining_ttl_seconds':" +:+ appendNullableUint (r_RemainingTTLSeconds value)
  +:+ qq ",'result_id':" +:+ appendString (r_ResultID value)
  +:+ qq ",'schema_version':'execution-result-v1','started_at':" +:+ appendString startedAt
  +:+ qq ",'target_ipv4':" +:+ appendString (r_TargetIPv4 value)
  +:+ "}".

Definition marshalResult (value : ResultValue) : string :=
  marshalResultTimes value (formatCanonicalTime (r_StartedAt value)) (formatCanonicalTime (r_CompletedAt value)).

Definition CheckResult (value : ResultValue) : result CapErrorCode CheckedResult :=
  _ ← checkResultValue value;
  let canonical := marshalResult value in
  Ok (MkCheckedResult value canonical (digestBytes canonical)).

(** ** Parsing *)

Definition resultWire : schema :=
  [("schema_version", KString); ("result_id", KString); ("capability_id", KString); ("capability_digest", KString);
   ("operation", KString); ("action_id", KString); ("artifact_digest", KString); ("target_ipv4", KString);
   ("classification", KString); ("nft_exit_class", KPointer); ("readback_state", KString);
   ("element_handle", KUintPointer 64); ("remaining_ttl_seconds", KUintPointer 64); ("owned_schema_digest", KString);
   ("started_at", KString); ("completed_at", KString); ("journal_sequence", KUint 64); ("error_code", KString)].

Definition wire_result (wire : slots) (startedAt completedAt : time) : ResultValue :=
  MkResultValue (get_string wire "result_id") (get_string wire "capability_id") (get_string wire "capability_digest")
    (get_string wire "operation") (get_string wire "action_id") (get_string wire "artifact_digest")
    (get_string wire "target_ipv4") (get_string wire "classification") (get_pointer wire "nft_exit_class")
    (get_string wire "readback_state") (get_uint_pointer wire "element_handle")
    (get_uint_pointer wire "remaining_ttl_seconds") (get_string wire "owned_schema_digest") startedAt completedAt
    (get_uint wire "journal_sequence") (get_string wire "error_code").

Definition ParseCanonicalResult (data : string) : result CapErrorCode CheckedResult :=
  wire ← strictDecode data MaxResultBytes resultWire;
  if negb (String.eqb (get_string wire "schema_version") ResultSchemaVersion) then Err ErrorCapSchema
  else
    match parseCanonicalTime (get_string wire "started_at"), parseCanonicalTime (get_string wire "completed_at") with
    | Some startedAt, Some completedAt =>
        checked ← CheckResult (wire_result wire startedAt completedAt);
        let expected := marshalResultTimes (cr_value checked) (get_string wire "started_at")
                          (get_string wire "completed_at") in
        if negb (String.eqb data expected) then Err ErrorCanonical
        else Ok (MkCheckedResult (cr_value checked) data (digestBytes data))
    | _, _ => Err ErrorTime
    end.

(** ** Binding and signing *)

Definition bindResult (value : ResultValue) (capability : VerifiedCapability) (executorID : string)
  : result CapErrorCode unit :=
  let cv := vc_value capability in
  if String.eqb executorID "" || negb (String.eqb executorID (vc_executorID capability))
     || (len (vc_canonical capability) =? 0)
     || negb (String.eqb (r_CapabilityID value) (v_CapabilityID cv)) || negb (String.eqb (r_Operation value) (v_Operation cv))
     || negb (String.eqb (r_ActionID value) (v_ActionID cv)) || negb (String.eqb (r_TargetIPv4 value) (v_TargetIPv4 cv))
     || negb (digestEqual (r_CapabilityDigest value) (vc_digest capability))
     || negb (digestEqual (r_ArtifactDigest value) (v_ArtifactDigest cv))
     || negb (digestEqual (r_OwnedSchemaDigest value) (v_OwnedSchemaDigest cv))
  then Err ErrorResultBinding
  else if Before (r_StartedAt value) (v_NotBefore cv) then Err ErrorResultBinding
  else if String.eqb (r_Operation value) OperationAdd
          && match r_RemainingTTLSeconds value with
             | Some n => (vc_addTTL capability <? n) || (vc_addTTL capability =? 0)
             | None => false
             end
  then Err ErrorResultBinding
  else Ok tt.

Section result_signing.
  Context `{Ed25519}.

Record ResultSigner := MkResultSigner { rs_keyID : string; rs_executorID : string; rs_key : string }.

Definition NewResultSigner (keyID executorID key : string) : result CapErrorCode ResultSigner :=
  if negb (match_string keyIDPattern keyID) || negb (match_string actorPattern executorID)
     || negb (validPrivateKey key)
  then Err ErrorKey
  else Ok (MkResultSigner keyID executorID key).

Definition SignFor (s : ResultSigner) (capability : VerifiedCapability) (checked : CheckedResult)
  : result CapErrorCode SignedResult :=
  if negb (len (rs_key s) =? PrivateKeySize) || (len (cr_canonical checked) =? 0)
     || negb (digestEqual (cr_digest checked) (digestBytes (cr_canonical checked)))
  then Err ErrorUnchecked
  else
    _ ← bindResult (cr_value checked) capability (rs_executorID s);
    let signature := ed25519_sign (rs_key s) (signingInput ResultSigningDomain (cr_canonical checked)) in
    Ok (MkSignedResult (rs_keyID s) (rs_executorID s) (cr_canonical checked) signature).

Record ResultVerifier := MkResultVerifier { rv_keyID : string; rv_executorID : string; rv_key : string }.

Definition NewResultVerifier (keyID executorID key : string) : result CapErrorCode ResultVerifier :=
  if negb (match_string keyIDPattern keyID) || negb (match_string actorPattern executorID)
     || negb (len key =? PublicKeySize)
  then Err ErrorKey
  else Ok (MkResultVerifier keyID executorID key).

Definition VerifyResult (v : ResultVerifier) (signed : SignedResult) : result CapErrorCode VerifiedResult :=
  if negb (len (rv_key v) =? PublicKeySize) || negb (String.eqb (rv_keyID v) (sr_keyID signed))
     || negb (String.eqb (rv_executorID v) (sr_executorID signed))
  then Err ErrorKeyRole
  else if (len (sr_canonical signed) =? 0) || (MaxResultBytes <? len (sr_canonical signed))
          || negb (len (sr_signature signed) =? SignatureSize)
          || negb (ed25519_verify (rv_key v) (signingInput ResultSigningDomain (sr_canonical signed)) (sr_signature signed))
  then Err ErrorSignature
  else
    checked ← ParseCanonicalResult (sr_canonical signed);
    Ok (MkVerifiedResult (cr_value checked) (cr_canonical checked) (cr_digest checked) (rv_keyID v) (rv_executorID v)).

End result_signing.

Definition BindTo (r : VerifiedResult) (capability : VerifiedCapability) : result CapErrorCode unit :=
  bindResult (vr_value r) capability (vr_executorID r).
