(* ===== verification/ExecResultSpec.v ===== *)
(** * Correctness of execution results

    The round trip of canonical result bytes, and what a verified result that
    binds to a verified capability says about it. *)

From S2P Require Import Prelude GoStrings Regex Sha256 Json Base64 GoTime Netip Policy PolicySpec.
From S2P Require Import ResponsePolicy Capability CapabilitySpec ExecResult.
Local Open Scope Z_scope.

(** ** Valid results *)

Record result_ok (v : ResultValue) : Prop := {
  ro_ids : Forall (λ s, is_uuid s = true) [r_ResultID v; r_CapabilityID v; r_ActionID v];
  ro_digests : Forall (λ s, is_digest s = true) [r_CapabilityDigest v; r_ArtifactDigest v; r_OwnedSchemaDigest v];
  ro_target : is_ipv4 (r_TargetIPv4 v);
  ro_operation : r_Operation v ∈ [OperationAdd; OperationRevoke; OperationInspect];
  ro_class : validClassification (r_Operation v) (r_Classification v) = true;
  ro_exit : validExit (r_NFTExitClass v) = true;
  ro_readback : validReadback (r_ReadbackState v) = true;
  ro_error : validResultError (r_ErrorCode v) = true;
  ro_handle : r_ElementHandle v = None;
  ro_ttl : exceeds 86400 (r_RemainingTTLSeconds v) = false;
  ro_sequence : 0 < r_JournalSequence v < 2 ^ 53;
  ro_times : r_StartedAt v <= r_CompletedAt v <= r_StartedAt v + 2 * Second;
  ro_aligned : r_StartedAt v mod Millisecond = 0 ∧ r_CompletedAt v mod Millisecond = 0;
  ro_outcome : checkOutcome v = Ok tt
}.

(** The unsigned fields of the Go struct. *)
Definition unsigned (v : ResultValue) : Prop :=
  0 <= r_JournalSequence v ∧ match r_RemainingTTLSeconds v with Some n => 0 <= n | None => True end.

Lemma checkResultValue_ok v : unsigned v → checkResultValue v = Ok tt → result_ok v.
Proof.
  intros [Hs _] H. unfold checkResultValue, IsZero, Before in H. pass_guards H.
  repeat match goal with H : _ || _ = false |- _ => apply orb_false_iff in H as [? ?] end.
  repeat match goal with H : negb _ = false |- _ => rewrite negb_false_iff in H end.
  repeat match goal with H : millisecondAligned _ = true |- _ => apply millisecondAligned_mod in H end.
  breflect.
  match goal with H : Sub ?e ?i <= _ |- _ => apply Sub_bound in H; [|unfold Second; lia|lia] end.
  split; try done.
  - by repeat constructor.
  - by repeat constructor.
  - by apply canonical_ipv4_is.
  - repeat match goal with H : _ ∨ _ |- _ => destruct H end; subst;
      match goal with H : r_Operation v = _ |- _ => rewrite H; set_solver end.
  - match goal with H : is_nil (r_ElementHandle v) = true |- _ => by destruct (r_ElementHandle v) end.
  - lia.
  - lia.
Qed.

Lemma result_ok_check v : result_ok v → r_StartedAt v ≠ 0 → r_CompletedAt v ≠ 0 → checkResultValue v = Ok tt.
Proof.
  intros [Hids Hdig Htgt Hop Hcl Hex Hrb Her Hh Httl Hseq Ht [Ha1 Ha2] Hout] Hz1 Hz2. split_Forall.
  apply millisecondAligned_mod in Ha1, Ha2. unfold checkResultValue, IsZero, Before.
  repeat match goal with H : is_uuid _ = true |- _ => rewrite H; clear H end.
  repeat match goal with H : is_digest _ = true |- _ => rewrite H; clear H end.
  rewrite bool_decide_eq_true_2 by by apply canonical_ipv4_is. rewrite Hcl, Hex, Hrb, Her, Hh, Httl, Ha1, Ha2.
  assert (negb (String.eqb (r_Operation v) OperationAdd) && negb (String.eqb (r_Operation v) OperationRevoke)
          && negb (String.eqb (r_Operation v) OperationInspect) = false) as ->.
  { revert Hop. rewrite !elem_of_cons, elem_of_nil. by intros [-> | [-> | [-> | []]]]. }
  cbn [negb orb is_nil].
  rewrite !(proj2 (Z.eqb_neq _ 0)), !(proj2 (Z.ltb_ge _ _)) by (done || lia || (rewrite Sub_exact; unfold Second in *; lia)).
  done.
Qed.

(** ** The canonical object of a result *)

Definition nullable_uint (n : option Z) : json :=
  match n with Some n => JNumber (chars (format_uint n)) | None => JNull end.

Definition nullable_pointer (s : option string) : json :=
  match s with Some s => JString s | None => JNull end.

Definition result_members (v : ResultValue) (startedAt completedAt : string) : list (string * json) :=
  [("action_id", JString (r_ActionID v)); ("artifact_digest", JString (r_ArtifactDigest v));
   ("capability_digest", JString (r_CapabilityDigest v)); ("capability_id", JString (r_CapabilityID v));
   ("classification", JString (r_Classification v)); ("completed_at", JString completedAt);
   ("element_handle", nullable_uint (r_ElementHandle v)); ("error_code", JString (r_ErrorCode v));
   ("journal_sequence", JNumber (chars (format_uint (r_JournalSequence v))));
   ("nft_exit_class", nullable_pointer (r_NFTExitClass v)); ("operation", JString (r_Operation v));
   ("owned_schema_digest", JString (r_OwnedSchemaDigest v)); ("readback_state", JString (r_ReadbackState v));
   ("remaining_ttl_seconds", nullable_uint (r_RemainingTTLSeconds v)); ("result_id", JString (r_ResultID v));
   ("schema_version", JString "execution-result-v1"); ("started_at", JString startedAt);
   ("target_ipv4", JString (r_TargetIPv4 v))].

Lemma result_write v s c : chars (marshalResultTimes v s c) = write_object (result_members v s c).
Proof.
  unfold marshalResultTimes. rewrite !chars_app, write_object_end.
  assert (∀ n, chars (appendNullableUint n) = write_value (nullable_uint n)) as Hn by by intros [].
  assert (∀ n, chars (appendNullablePointer n) = write_value (nullable_pointer n)) as Hp by by intros [].
  rewrite !Hn, Hp. reflexivity.
Qed.

Lemma one_of_bounded s l n : one_of s l = true → forallb (λ x, forallb json_plain (chars x) && (length (chars x) <=? n)%nat) l = true →
  bounded n s.
Proof.
  unfold one_of. intros (x & Hx & Heq)%existsb_exists Hall. apply String.eqb_eq in Heq as <-.
  rewrite forallb_forall in Hall. specialize (Hall s Hx). by apply andb_true_iff in Hall as [Hp Hl%Nat.leb_le].
Qed.

Lemma class_bounded op s : validClassification op s = true → bounded 16 s.
Proof.
  unfold validClassification. repeat case_match; try done; intros H'; by eapply one_of_bounded; [exact H'|vm_compute].
Qed.

Lemma nullable_uint_member k n : plain k → match n with Some z => 0 <= z < 10 ^ 6 | None => True end →
  flat (k, nullable_uint n) ∧ (member_size (k, nullable_uint n) ≤ length (chars k) + 10)%nat.
Proof.
  intros Hk Hn. destruct n as [z|]; cbn [nullable_uint].
  - destruct (uint_member k 6 z Hk Hn) as [? ?]; [lia|]. split; [done|lia].
  - split; [by split|]. unfold member_size. simpl. lia.
Qed.

Lemma nullable_pointer_member k s : plain k → match s with Some x => bounded 16 x | None => True end →
  flat (k, nullable_pointer s) ∧ (member_size (k, nullable_pointer s) ≤ length (chars k) + 22)%nat.
Proof.
  intros Hk Hs. destruct s as [x|]; cbn [nullable_pointer].
  - destruct (string_member k 16 x Hk Hs). split; [done|lia].
  - split; [by split|]. unfold member_size. simpl. lia.
Qed.

Lemma result_members_ok v : result_ok v → unsigned v → four_digit_year (r_StartedAt v) → four_digit_year (r_CompletedAt v) →
  let ms := result_members v (formatCanonicalTime (r_StartedAt v)) (formatCanonicalTime (r_CompletedAt v)) in
  Forall flat ms ∧ (sum_list (member_size <$> ms) ≤ 2000)%nat.
Proof.
  intros [Hids Hdig Htgt Hop Hcl Hex Hrb Her Hh Httl Hseq _ _ _] [_ Hrem] Hy1 Hy2 ms. split_Forall.
  enough (∃ n, (Forall flat ms ∧ (sum_list (member_size <$> ms) ≤ n)%nat) ∧ (n ≤ 2000)%nat) as (n & [? ?] & ?)
    by (split; [done|lia]).
  assert (bounded 11 (r_ReadbackState v)) by by eapply one_of_bounded; [exact Hrb|vm_compute].
  assert (bounded 18 (r_ErrorCode v)) by by eapply one_of_bounded; [exact Her|vm_compute].
  assert (bounded 19 "execution-result-v1") by (split; [vm_compute; reflexivity|vm_compute; lia]).
  assert (match r_NFTExitClass v with Some x => bounded 16 x | None => True end).
  { destruct (r_NFTExitClass v); [|done]. by eapply one_of_bounded; [exact Hex|vm_compute]. }
  assert (match r_RemainingTTLSeconds v with Some z => 0 <= z < 10 ^ 6 | None => True end).
  { destruct (r_RemainingTTLSeconds v); [|done]. simpl in Httl. apply Z.ltb_ge in Httl. lia. }
  assert (match r_ElementHandle v with Some z => 0 <= z < 10 ^ 6 | None => True end) by by rewrite Hh.
  subst ms. unfold result_members, formatCanonicalTime. eexists. split.
  { repeat (apply members_cons;
      [first [ apply string_member; [vm_compute; reflexivity|eauto using uuid_bounded, digest_bounded, ipv4_bounded,
                 time_bounded, operation_bounded, class_bounded]
             | apply nullable_uint_member; [vm_compute; reflexivity|assumption]
             | apply nullable_pointer_member; [vm_compute; reflexivity|assumption]
             | apply (uint_member _ 16); [vm_compute; reflexivity|lia|lia]]|]).
    apply members_nil. }
  vm_compute. lia.
Qed.

Lemma decode_result v s c : result_ok v → unsigned v →
  decode_struct resultWire (JObject (result_members v s c)) = Some (rev (result_members v s c)).
Proof.
  intros Hv [_ Hrem]. pose proof (ro_sequence _ Hv) as Hseq. pose proof (ro_ttl _ Hv) as Httl.
  assert (∀ z, 0 <= z < 2 ^ 53 → parse_uint 64 (implode (chars (format_uint z))) = Some z) as Hp.
  { intros z Hz. rewrite implode_chars. apply parse_format_uint. lia. }
  unfold result_members, nullable_uint, nullable_pointer. rewrite (ro_handle _ Hv).
  destruct (r_NFTExitClass v), (r_RemainingTTLSeconds v) as [n|]; cbn -[parse_uint implode chars format_uint];
    simpl in Httl; rewrite ?Z.ltb_ge in Httl; rewrite !Hp by lia; try rewrite !Hp by lia; reflexivity.
Qed.

Lemma ParseCanonicalResult_marshal v : unsigned v → checkResultValue v = Ok tt →
  four_digit_year (r_StartedAt v) → four_digit_year (r_CompletedAt v) →
  ParseCanonicalResult (marshalResult v) = Ok (MkCheckedResult v (marshalResult v) (digest (marshalResult v))).
Proof.
  intros Hu Hc Hy1 Hy2. pose proof (checkResultValue_ok v Hu Hc) as Hv.
  destruct (result_members_ok v Hv Hu Hy1 Hy2) as [Hf Hs]. destruct (ro_aligned _ Hv) as [Ha1 Ha2].
  unfold ParseCanonicalResult. erewrite strictDecode_write;
    [|apply result_write|exact Hf|unfold MaxResultBytes; lia| |by apply decode_result].
  2: { apply (bool_decide_eq_true_1 _). vm_compute. reflexivity. }
  cbn [mbind result_bind]. set (wire := rev _).
  assert (get_string wire "schema_version" = ResultSchemaVersion) as -> by reflexivity. rewrite String.eqb_refl. cbn [negb].
  assert (get_string wire "started_at" = formatCanonicalTime (r_StartedAt v)) as -> by reflexivity.
  assert (get_string wire "completed_at" = formatCanonicalTime (r_CompletedAt v)) as -> by reflexivity.
  rewrite !parseCanonicalTime_format by done.
  assert (wire_result wire (r_StartedAt v) (r_CompletedAt v) = v) as ->.
  { assert (∀ z, 0 <= z < 2 ^ 53 → parse_uint 64 (implode (chars (format_uint z))) = Some z) as Hp.
    { intros z Hz. rewrite implode_chars. apply parse_format_uint. lia. }
    pose proof (ro_sequence _ Hv) as Hseq. pose proof (ro_ttl _ Hv) as Httl. pose proof (ro_handle _ Hv) as Hh.
    destruct Hu as [_ Hrem]. unfold wire_result.
    assert (slot wire "nft_exit_class" = Some (nullable_pointer (r_NFTExitClass v))) as H1 by reflexivity.
    assert (slot wire "element_handle" = Some (nullable_uint (r_ElementHandle v))) as H2 by reflexivity.
    assert (slot wire "remaining_ttl_seconds" = Some (nullable_uint (r_RemainingTTLSeconds v))) as H3 by reflexivity.
    assert (slot wire "journal_sequence" = Some (JNumber (chars (format_uint (r_JournalSequence v))))) as H4 by reflexivity.
    unfold get_pointer, get_uint, get_uint_pointer. rewrite H1, H2, H3, H4, Hh, Hp by lia. cbn [nullable_uint default].
    assert (match nullable_pointer (r_NFTExitClass v) with JString s => Some s | _ => None end = r_NFTExitClass v) as ->
      by by destruct (r_NFTExitClass v).
    assert (match nullable_uint (r_RemainingTTLSeconds v) with JNumber n => parse_uint 64 (implode n) | _ => None end
            = r_RemainingTTLSeconds v) as ->.
    { destruct (r_RemainingTTLSeconds v) as [n|]; [|done]. simpl in Httl. apply Z.ltb_ge in Httl. apply Hp. lia. }
    destruct v. cbn in Hh. subst. reflexivity. }
  unfold CheckResult. rewrite Hc. cbn [mbind result_bind cr_value]. unfold marshalResult. rewrite String.eqb_refl. reflexivity.
Qed.

(** ** Soundness of parsing and binding *)

Lemma get_uint_pointer_range w name : match get_uint_pointer w name with Some n => 0 <= n | None => True end.
Proof.
  pose proof (get_uint_range w name) as H. unfold get_uint in H. by destruct (get_uint_pointer w name).
Qed.

Lemma ParseCanonicalResult_ok data c : ParseCanonicalResult data = Ok c →
  result_ok (cr_value c) ∧ cr_canonical c = data ∧ data = marshalResult (cr_value c) ∧ cr_digest c = digest data.
Proof.
  unfold ParseCanonicalResult. intros H. inv_bind H. rename a into wire. pass_guards H.
  destruct (parseCanonicalTime (get_string wire "started_at")) as [s|] eqn:Es; [|discriminate H].
  destruct (parseCanonicalTime (get_string wire "completed_at")) as [e|] eqn:Ee; [|discriminate H].
  inv_bind H. unfold CheckResult in Hbind0. inv_bind Hbind0. destruct a0.
  apply (f_equal (from_ok a)) in Hbind0. cbn [from_ok] in Hbind0. subst a. cbv zeta in H. pass_guards H.
  apply (f_equal (from_ok c)) in H. cbn [from_ok] in H. subst c. cbn [cr_value cr_canonical cr_digest] in *.
  apply parseCanonicalTime_text in Es, Ee. bsplit.
  split_and!; [|done| |done].
  - apply checkResultValue_ok; [|done]. split; cbn; [apply get_uint_range|apply get_uint_pointer_range].
  - unfold marshalResult. cbn [wire_result r_StartedAt r_CompletedAt]. by rewrite Es, Ee.
Qed.

Lemma digestEqual_eq a b : digestEqual a b = true → a = b ∧ is_digest a = true.
Proof. unfold digestEqual. intros. bsplit. done. Qed.

Lemma bindResult_ok v cap ex : bindResult v cap ex = Ok tt →
  ex = vc_executorID cap ∧ r_CapabilityID v = v_CapabilityID (vc_value cap) ∧ r_Operation v = v_Operation (vc_value cap) ∧
  r_ActionID v = v_ActionID (vc_value cap) ∧ r_TargetIPv4 v = v_TargetIPv4 (vc_value cap) ∧
  r_CapabilityDigest v = vc_digest cap ∧ r_ArtifactDigest v = v_ArtifactDigest (vc_value cap) ∧
  r_OwnedSchemaDigest v = v_OwnedSchemaDigest (vc_value cap) ∧ v_NotBefore (vc_value cap) <= r_StartedAt v ∧
  (r_Operation v = OperationAdd → match r_RemainingTTLSeconds v with Some n => n <= vc_addTTL cap | None => True end).
Proof.
  unfold bindResult, Before. cbv zeta. intros H. pass_guards H.
  repeat match goal with H : _ || _ = false |- _ => apply orb_false_iff in H as [? ?] end.
  repeat match goal with H : negb _ = false |- _ => rewrite negb_false_iff in H end.
  repeat match goal with H : digestEqual _ _ = true |- _ => apply digestEqual_eq in H as [? ?] end.
  breflect. split_and!; try done. intros Hop.
  match goal with H : _ ∨ _ |- _ => destruct H as [H|H]; [done|] end. destruct (r_RemainingTTLSeconds v); [|done].
  breflect. lia.
Qed.

Lemma VerifyResult_ok `{Ed25519} ver signed r : VerifyResult ver signed = Ok r →
  ed25519_verify (rv_key ver) (signingInput ResultSigningDomain (sr_canonical signed)) (sr_signature signed) = true ∧
  vr_executorID r = rv_executorID ver ∧ vr_keyID r = rv_keyID ver ∧ sr_keyID signed = rv_keyID ver ∧
  sr_executorID signed = rv_executorID ver ∧ vr_canonical r = sr_canonical signed ∧
  result_ok (vr_value r) ∧ vr_canonical r = marshalResult (vr_value r) ∧ vr_digest r = digest (vr_canonical r).
Proof.
  intros Hok. unfold VerifyResult in Hok. pass_guards Hok. inv_bind Hok.
  apply (f_equal (from_ok r)) in Hok. cbn [from_ok] in Hok. subst r.
  apply ParseCanonicalResult_ok in Hbind as (Hv & Hc & Hm & Hd). bsplit.
  cbn [vr_value vr_canonical vr_digest vr_keyID vr_executorID]. split_and!; try done; congruence.
Qed.

(** The outcome fields an attested state rests on. *)
Lemma applied_outcome v : result_ok v → r_Classification v = ClassificationApplied →
  r_Operation v = OperationAdd ∧ r_NFTExitClass v = Some NFTExitSuccess ∧ r_ReadbackState v = ReadbackActive ∧
  r_ErrorCode v = ResultErrorNone ∧ match r_RemainingTTLSeconds v with Some n => n ≠ 0 | None => False end.
Proof.
  intros Hv Hc. pose proof (ro_class _ Hv) as Hcl. pose proof (ro_outcome _ Hv) as Ho. pose proof (ro_operation _ Hv) as Hop.
  rewrite Hc in Hcl. unfold checkOutcome in Ho. rewrite Hc in Ho. cbv zeta in Ho.
  change (String.eqb ClassificationApplied ClassificationFailed) with false in Ho.
  change (String.eqb ClassificationApplied ClassificationIndeterminate) with false in Ho.
  change (String.eqb ClassificationApplied ClassificationApplied) with true in Ho. cbn [negb andb] in Ho. pass_guards Ho. bsplit.
  revert Hop Hcl. rewrite !elem_of_cons, elem_of_nil. intros [-> | [-> | [-> | []]]] Hcl; try discriminate Hcl.
  destruct (r_NFTExitClass v) as [x|]; [|done]. simpl in *. breflect. subst x.
  destruct (r_RemainingTTLSeconds v) as [n|]; [|done]. simpl in *. breflect.
  destruct (String.eqb (r_ErrorCode v) ResultErrorNone) eqn:Ee; [|discriminate]. by apply String.eqb_eq in Ee.
Qed.

Lemma revoked_outcome v : result_ok v → r_Classification v = ClassificationRevoked →
  r_Operation v = OperationRevoke ∧ r_ReadbackState v = ReadbackAbsent ∧ r_RemainingTTLSeconds v = None.
Proof.
  intros Hv Hc. pose proof (ro_class _ Hv) as Hcl. pose proof (ro_outcome _ Hv) as Ho. pose proof (ro_operation _ Hv) as Hop.
  rewrite Hc in Hcl. unfold checkOutcome in Ho. rewrite Hc in Ho. cbv zeta in Ho.
  change (String.eqb ClassificationRevoked ClassificationFailed) with false in Ho.
  change (String.eqb ClassificationRevoked ClassificationIndeterminate) with false in Ho.
  change (String.eqb ClassificationRevoked ClassificationApplied) with false in Ho.
  change (String.eqb ClassificationRevoked ClassificationRecoveredActive) with false in Ho.
  change (String.eqb ClassificationRevoked ClassificationRevoked) with true in Ho. cbn [negb andb orb] in Ho. pass_guards Ho.
  repeat match goal with H : _ || _ = false |- _ => apply orb_false_iff in H as [? ?] end. breflect.
  revert Hop Hcl. rewrite !elem_of_cons, elem_of_nil. intros [-> | [-> | [-> | []]]] Hcl; try discriminate Hcl.
  destruct (r_RemainingTTLSeconds v); [discriminate|done].
Qed.

(** ** The repository's contract vector *)

Definition vector_result : ResultValue :=
  MkResultValue "019b0000-0000-7000-8000-000000000310" "019b0000-0000-7000-8000-000000000210"
    "sha256:494841d948324186c6d005ce971bd8fbb990e9e2c67e1e723610b308c9e425d9" "add"
    "019b0000-0000-7000-8000-000000000200"
    "sha256:866cc23464d760a1de172d66ccd076c6a7915c6011a75d47dc93224bbe5539e6" "203.0.113.20" "applied" (Some "success")
    "active" None (Some 1799) "sha256:d5582a75817d349b12f292d212483bb0c2a5db66afde7d73c6d11050a5eb5997"
    63919936806000000000 63919936806050000000 2 "none".

(** [execution_result_applied_v1.digest] of [contracts/vectors/contract_vectors_v1.json]. *)
Example vector_result_digest : cr_digest <$> CheckResult vector_result =
  Ok "sha256:85b3a12fb58a706827bd9e44f5d590e9d8a27cac09603f9cc5894f5a13311128".
Proof. vm_compute. reflexivity. Qed.

(** The same result a year past the four-digit range is checked and frozen, but
    its own canonical bytes do not parse. *)
Definition far_result : ResultValue :=
  let t := year_start 10000 * Day in
  MkResultValue (r_ResultID vector_result) (r_CapabilityID vector_result) (r_CapabilityDigest vector_result) "add"
    (r_ActionID vector_result) (r_ArtifactDigest vector_result) "203.0.113.20" "applied" (Some "success")
    "active" None (Some 1799) (r_OwnedSchemaDigest vector_result) t t 2 "none".

Example far_result_not_parsed :
  (cr_canonical <$> CheckResult far_result) = Ok (marshalResult far_result) ∧
  ParseCanonicalResult (marshalResult far_result) = Err ErrorTime.
Proof. split; vm_compute; reflexivity. Qed.

Definition sample_result_signed : SignedResult := Eval vm_compute in
  MkSignedResult "executor-key" "executor-1" (marshalResult vector_result)
    (toy_mac (hash32 sample_seed) (signingInput ResultSigningDomain (marshalResult vector_result))).

Definition sample_result_verifier : ResultVerifier := Eval vm_compute in MkResultVerifier "executor-key" "executor-1" (hash32 sample_seed).

Definition sample_verified_result : VerifiedResult := Eval vm_compute in
  MkVerifiedResult vector_result (marshalResult vector_result) (digest (marshalResult vector_result)) "executor-key" "executor-1".

Lemma sample_result_verifies :
  @VerifyResult toy_ed25519 sample_result_verifier sample_result_signed = Ok sample_verified_result.
Proof. vm_compute. reflexivity. Qed.

(** ** Claims *)

(** Canonical result bytes read back: a result that passes the checks and
    whose times have four-digit years is what parsing its canonical bytes
    returns, field for field, with their digest. *)
Theorem result_round_trip v : unsigned v → checkResultValue v = Ok tt →
  four_digit_year (r_StartedAt v) → four_digit_year (r_CompletedAt v) →
  ParseCanonicalResult (marshalResult v) = Ok (MkCheckedResult v (marshalResult v) (digest (marshalResult v))).
Proof. apply ParseCanonicalResult_marshal. Qed.

Lemma result_round_trip_witness : ParseCanonicalResult (marshalResult vector_result) =
  Ok (MkCheckedResult vector_result (marshalResult vector_result) (digest (marshalResult vector_result))).
Proof.
  apply result_round_trip.
  - split; vm_compute; discriminate.
  - vm_compute. reflexivity.
  - vm_compute. split; discriminate.
  - vm_compute. split; discriminate.
Defined.

(** A verified result that binds to a verified capability speaks about
    exactly that capability: same identifier, digest, operation, action, target
    and artifact, signed by the executor the capability was verified for.  If
    it says "applied", the operation was an add, the tool succeeded, the element
    was read back active, and its remaining lifetime is positive and at most
    the timeout in the artifact's command; if it says "revoked", the operation
    was a revoke and the element was read back absent. *)
Theorem bound_result_truthful `{Ed25519} cver csigned cap rver rsigned r :
  Verify cver csigned = Ok cap → VerifyResult rver rsigned = Ok r → BindTo r cap = Ok tt →
  let v := vr_value r in
  ed25519_verify (rv_key rver) (signingInput ResultSigningDomain (sr_canonical rsigned)) (sr_signature rsigned) = true ∧
  rv_executorID rver = cv_executorID cver ∧
  r_CapabilityID v = v_CapabilityID (vc_value cap) ∧ r_CapabilityDigest v = digest (sc_canonical csigned) ∧
  r_Operation v = v_Operation (vc_value cap) ∧ r_ActionID v = v_ActionID (vc_value cap) ∧
  r_TargetIPv4 v = v_TargetIPv4 (vc_value cap) ∧ r_ArtifactDigest v = digest (sc_artifact csigned) ∧
  v_NotBefore (vc_value cap) <= r_StartedAt v <= r_CompletedAt v ∧
  (r_Classification v = ClassificationApplied →
    r_Operation v = OperationAdd ∧ r_NFTExitClass v = Some NFTExitSuccess ∧ r_ReadbackState v = ReadbackActive ∧
    ∃ n a, r_RemainingTTLSeconds v = Some n ∧ n ≠ 0 ∧ n <= vc_addTTL cap <= MaxTTLSeconds ∧
      sc_artifact csigned = command_text a (canonicalTTL (vc_addTTL cap)) true) ∧
  (r_Classification v = ClassificationRevoked → r_Operation v = OperationRevoke ∧ r_ReadbackState v = ReadbackAbsent).
Proof.
  intros Hc%Verify_ok Hr%VerifyResult_ok Hb. destruct Hr as (Hsig & Hex & _ & _ & _ & Hcan & Hv & _).
  apply bindResult_ok in Hb as (He & Hid & Hop & Hact & Htg & Hcd & Had & _ & Hnb & Hrem).
  destruct (ve_bytes _ _ _ Hc) as [Hb1 Hb2]. destruct (ve_digests _ _ _ Hc) as [Hd1 Hd2]. destruct (ve_key _ _ _ Hc) as (_ & _ & Hk).
  pose proof (ro_times _ Hv) as Ht. split_and!; try done; try lia; try congruence.
  - intros Happ. destruct (applied_outcome _ Hv Happ) as (Ha & Hexit & Hrb & _ & Hn). split_and!; [done|done|done|].
    specialize (Hrem Ha). destruct (r_RemainingTTLSeconds (vr_value r)) as [n|]; [|done].
    destruct (ve_artifact _ _ _ Hc) as [(_ & _ & a & _ & _ & Hr & Hart)|[(Ho & _)|(Ho & _)]];
      [|rewrite Hop, Ho in Ha; discriminate Ha..].
    exists n, a. split_and!; try done; try lia; congruence.
  - intros Hrev. by destruct (revoked_outcome _ Hv Hrev) as (? & ? & _).
Qed.

Lemma bound_result_truthful_witness :
  BindTo sample_verified_result sample_verified = Ok tt ∧
  r_ArtifactDigest vector_result = digest vector_add.
Proof.
  assert (BindTo sample_verified_result sample_verified = Ok tt) as Hb by (vm_compute; reflexivity).
  split; [exact Hb|].
  pose proof (@bound_result_truthful toy_ed25519 sample_verifier sample_signed sample_verified sample_result_verifier
    sample_result_signed sample_verified_result sample_verifies sample_result_verifies Hb) as H.
  exact (proj1 (proj2 (proj2 (proj2 (proj2 (proj2 (proj2 (proj2 H)))))))).
Defined.
