(* ===== verification/JournalFrame.v ===== *)
(** * Journal frames ([internal/enforcement/journal/frame.go])

    The fixed binary envelope of a journal record: a 24-byte header with magic,
    version, record type, sequence and length, the payload, and the SHA-256 of
    both.  Frames are lists of bytes. *)

From S2P Require Import Prelude GoStrings Sha256.
Local Open Scope Z_scope.

Inductive JournalError :=
| JErrorPath | JErrorUnsafeDirectory | JErrorUnsafeFile | JErrorLocked | JErrorTooLarge | JErrorCorrupt
| JErrorVersion | JErrorSequence | JErrorVerification | JErrorTime | JErrorConflict | JErrorMissingStart
| JErrorDuplicateTerminal | JErrorOperation | JErrorFreshness | JErrorPermitUsed | JErrorSync | JErrorIO
| JErrorUnhealthy.

Definition frameHeaderBytes : nat := 24.
Definition checksumBytes : nat := 32.
Definition frameVersion : Z := 1.
Definition recordStarted : Z := 1.
Definition recordTerminal : Z := 2.
Definition MaxPayloadBytes : Z := 32 * 1024.
Definition MaxFrameBytes : Z := Z.of_nat frameHeaderBytes + MaxPayloadBytes + Z.of_nat checksumBytes.

(** ['S' 'F' 'J' 'N' 'L' 'v' '1' '\n'] *)
Definition frameMagic : list Z := bytes_of "SFJNLv1" ++ [10].

Record decodedFrame := MkDecodedFrame { df_recordType : Z; df_sequence : Z; df_payload : list Z }.

(** [binary.BigEndian.Uint32] and [Uint64]. *)
Definition be_value (l : list Z) : Z := foldl (λ a b, 256 * a + b) 0 l.

Definition frame_header (recordType sequence length : Z) : list Z :=
  frameMagic ++ [frameVersion; recordType; 0; 0] ++ be_bytes 8 sequence ++ be_bytes 4 length.

Definition encodeFrame (recordType sequence : Z) (payload : list Z) : result JournalError (list Z) :=
  if (negb (recordType =? recordStarted) && negb (recordType =? recordTerminal)) || (sequence =? 0)
     || (2 ^ 53 - 1 <? sequence) || (length payload =? 0)%nat || (MaxPayloadBytes <? Z.of_nat (length payload))
  then Err JErrorCorrupt
  else
    let body := frame_header recordType sequence (Z.of_nat (length payload)) ++ payload in
    Ok (body ++ sha256 body).

(** [frame[i]] on a frame long enough for every index used. *)
Definition byte_at (frame : list Z) (i : nat) : Z := nth i frame 0.

Definition slice (frame : list Z) (from to : nat) : list Z := take (to - from) (drop from frame).

Definition decodeFrame (frame : list Z) : result JournalError decodedFrame :=
  if (length frame <? frameHeaderBytes + checksumBytes)%nat || (MaxFrameBytes <? Z.of_nat (length frame))
     || negb (bool_decide (slice frame 0 8 = frameMagic))
  then Err JErrorCorrupt
  else if negb (byte_at frame 8 =? frameVersion) then Err JErrorVersion
  else if negb (byte_at frame 9 =? recordStarted) && negb (byte_at frame 9 =? recordTerminal) then Err JErrorVersion
  else if negb (byte_at frame 10 =? 0) || negb (byte_at frame 11 =? 0) then Err JErrorCorrupt
  else
    let sequence := be_value (slice frame 12 20) in
    let length' := be_value (slice frame 20 24) in
    if (sequence =? 0) || (2 ^ 53 - 1 <? sequence) || (length' =? 0) || (MaxPayloadBytes <? length')
       || negb (length' + Z.of_nat frameHeaderBytes + Z.of_nat checksumBytes =? Z.of_nat (length frame))
    then Err JErrorCorrupt
    else
      let payloadEnd := (frameHeaderBytes + Z.to_nat length')%nat in
      if negb (bool_decide (sha256 (take payloadEnd frame) = drop payloadEnd frame)) then Err JErrorCorrupt
      else Ok (MkDecodedFrame (byte_at frame 9) sequence (slice frame frameHeaderBytes payloadEnd)).

(** ** Big-endian numbers *)

Lemma be_value_snoc l b : be_value (l ++ [b]) = 256 * be_value l + b.
Proof. unfold be_value. by rewrite foldl_app. Qed.

Lemma be_bytes_S n z : be_bytes (S n) z = be_bytes n (z / 256) ++ [z mod 256].
Proof.
  unfold be_bytes. rewrite <-cons_seq. cbn [fmap list_fmap rev]. change (8 * Z.of_nat 0) with 0. rewrite Z.shiftr_0_r.
  f_equal. f_equal. rewrite <-seq_shift. rewrite <-list_fmap_compose. apply list_fmap_ext. intros _ i _. simpl.
  rewrite !Z.shiftr_div_pow2 by lia. rewrite Z.div_div by lia. f_equal. f_equal.
  replace (8 * Z.of_nat (S i)) with (8 + 8 * Z.of_nat i) by lia. by rewrite Z.pow_add_r by lia.
Qed.

Lemma be_value_bytes n z : 0 <= z < 256 ^ Z.of_nat n → be_value (be_bytes n z) = z.
Proof.
  revert z. induction n as [|n IH]; intros z Hz; [simpl in Hz; assert (z = 0) as -> by lia; done|].
  rewrite be_bytes_S, be_value_snoc, IH; [Z.div_mod_to_equations; lia|].
  replace (Z.of_nat (S n)) with (Z.of_nat n + 1) in Hz by lia. rewrite Z.pow_add_r in Hz by lia.
  split; [apply Z.div_pos; lia|apply Z.div_lt_upper_bound; lia].
Qed.

Lemma be_bytes_value l : Forall is_byte l → be_bytes (length l) (be_value l) = l.
Proof.
  induction l as [|b l IH] using rev_ind; intros Hl; [done|]. apply Forall_app in Hl as [Hl Hb].
  apply Forall_cons in Hb as [Hb _]. unfold is_byte in Hb. rewrite length_app, Nat.add_comm. simpl length. simpl plus.
  rewrite be_bytes_S, be_value_snoc. f_equal; [|f_equal; Z.div_mod_to_equations; lia].
  replace ((256 * be_value l + b) / 256) with (be_value l) by (Z.div_mod_to_equations; lia). by apply IH.
Qed.

Lemma be_value_nonneg l : Forall is_byte l → 0 <= be_value l.
Proof.
  induction l as [|b l IH] using rev_ind; intros Hl; [done|]. apply Forall_app in Hl as [Hl Hb].
  apply Forall_cons in Hb as [Hb _]. unfold is_byte in Hb. rewrite be_value_snoc. specialize (IH Hl). lia.
Qed.

(** ** Frames *)

Lemma frame_header_length t s n : length (frame_header t s n) = frameHeaderBytes.
Proof. unfold frame_header. by rewrite !length_app, !be_bytes_length. Qed.

Lemma header_fields t s n rest : let f := frame_header t s n ++ rest in
  slice f 0 8 = frameMagic ∧ byte_at f 8 = frameVersion ∧ byte_at f 9 = t ∧ byte_at f 10 = 0 ∧ byte_at f 11 = 0 ∧
  slice f 12 20 = be_bytes 8 s ∧ slice f 20 24 = be_bytes 4 n.
Proof.
  pose proof (be_bytes_length 8 s) as H8. pose proof (be_bytes_length 4 n) as H4.
  unfold frame_header, slice. destruct (be_bytes 8 s) as [|? [|? [|? [|? [|? [|? [|? [|? [|]]]]]]]]]; simpl in H8; try lia.
  destruct (be_bytes 4 n) as [|? [|? [|? [|? [|]]]]]; simpl in H4; try lia. done.
Qed.

(** What a frame is made of. *)
Definition valid_frame_fields (t s : Z) (p : list Z) : Prop :=
  (t = recordStarted ∨ t = recordTerminal) ∧ 0 < s < 2 ^ 53 ∧ p ≠ [] ∧ Z.of_nat (length p) <= MaxPayloadBytes.

Definition frame_of (t s : Z) (p : list Z) : list Z :=
  let body := frame_header t s (Z.of_nat (length p)) ++ p in body ++ sha256 body.

Lemma encodeFrame_iff t s p f : 0 <= s → encodeFrame t s p = Ok f ↔ valid_frame_fields t s p ∧ f = frame_of t s p.
Proof.
  intros Hs. unfold encodeFrame, valid_frame_fields, recordStarted, recordTerminal. split.
  - intros H. pass_guards H. injection H as <-. split; [|done].
    repeat match goal with H : _ || _ = false |- _ => apply orb_false_iff in H as [? ?] end. breflect.
    split_and!; [done|lia|lia| |lia]. intros ->. done.
  - intros [(Ht & Hr & Hp & Hl) ->].
    assert (negb (t =? 1) && negb (t =? 2) = false) as -> by by destruct Ht as [-> | ->].
    rewrite (proj2 (Z.eqb_neq _ _)), (proj2 (Z.ltb_ge _ s)) by lia.
    rewrite (proj2 (Nat.eqb_neq _ _)) by by destruct p. by rewrite (proj2 (Z.ltb_ge _ _)) by lia.
Qed.

Lemma frame_of_length t s p : length (frame_of t s p) = (frameHeaderBytes + length p + checksumBytes)%nat.
Proof. unfold frame_of. by rewrite !length_app, frame_header_length, sha256_length. Qed.

Lemma max_payload_word (p : list Z) : Z.of_nat (length p) <= MaxPayloadBytes → 0 <= Z.of_nat (length p) < 256 ^ Z.of_nat 4.
Proof. unfold MaxPayloadBytes. simpl. lia. Qed.

Lemma decode_frame_of t s p : valid_frame_fields t s p → decodeFrame (frame_of t s p) = Ok (MkDecodedFrame t s p).
Proof.
  intros (Ht & Hr & Hp & Hl). unfold decodeFrame.
  pose proof (header_fields t s (Z.of_nat (length p)) (p ++ sha256 (frame_header t s (Z.of_nat (length p)) ++ p))) as Hh.
  cbv zeta in Hh. rewrite app_assoc in Hh. fold (frame_of t s p) in Hh.
  destruct Hh as (H1 & H2 & H3 & H4 & H5 & H6 & H7). rewrite H1, H2, H3, H4, H5, H6, H7, frame_of_length.
  assert (length p ≠ 0%nat) by by destruct p. unfold MaxFrameBytes, frameHeaderBytes, checksumBytes in *.
  rewrite (proj2 (Nat.ltb_ge _ _)) by lia. rewrite (proj2 (Z.ltb_ge _ _)) by lia. rewrite bool_decide_eq_true_2 by done.
  assert (negb (t =? recordStarted) && negb (t =? recordTerminal) = false) as -> by by destruct Ht as [-> | ->].
  cbn [orb negb]. cbv zeta. rewrite !be_value_bytes by (by apply max_payload_word) || (simpl; lia).
  rewrite !Z.eqb_refl. cbn [orb negb].
  rewrite (proj2 (Z.eqb_neq s 0)), (proj2 (Z.eqb_neq (Z.of_nat (length p)) 0)) by lia.
  rewrite !(proj2 (Z.ltb_ge _ _)) by lia. rewrite (proj2 (Z.eqb_eq _ _)) by lia. cbn [orb negb]. rewrite Nat2Z.id.
  unfold frame_of. set (body := frame_header t s (Z.of_nat (length p)) ++ p).
  assert (length body = (24 + length p)%nat) as Hb by (subst body; rewrite length_app, frame_header_length; done).
  rewrite take_app_length', drop_app_length' by done. rewrite bool_decide_eq_true_2 by done. cbn [negb].
  f_equal. f_equal. unfold slice. subst body. rewrite <-app_assoc.
  rewrite drop_app_length' by (rewrite frame_header_length; done). replace (24 + length p - 24)%nat with (length p) by lia.
  by rewrite take_app_length.
Qed.

(** The header's slices make up its bytes. *)
Lemma slice_app l i j k : (i ≤ j ≤ k)%nat → slice l i j ++ slice l j k = slice l i k.
Proof.
  intros H. unfold slice. replace (drop j l) with (drop (j - i) (drop i l)) by (rewrite drop_drop; f_equal; lia).
  rewrite take_take_drop. f_equal. lia.
Qed.

Lemma slice_one l i : (i < length l)%nat → slice l i (S i) = [byte_at l i].
Proof.
  intros H. unfold slice, byte_at. replace (S i - i)%nat with 1%nat by lia.
  destruct (lookup_lt_is_Some_2 l i H) as [x Hx]. rewrite (drop_S _ _ _ Hx). simpl. f_equal.
  symmetry. by apply nth_lookup_Some.
Qed.

Lemma slice_Forall {P : Z → Prop} l i j : Forall P l → Forall P (slice l i j).
Proof. intros H. by apply Forall_take, Forall_drop. Qed.

Lemma slice_length l i j : (j ≤ length l)%nat → length (slice l i j) = (j - i)%nat.
Proof. intros H. unfold slice. rewrite length_take, length_drop. lia. Qed.

Lemma decodeFrame_sound f d : Forall is_byte f → decodeFrame f = Ok d →
  valid_frame_fields (df_recordType d) (df_sequence d) (df_payload d) ∧
  f = frame_of (df_recordType d) (df_sequence d) (df_payload d).
Proof.
  intros Hf H. unfold decodeFrame in H. cbv zeta in H. pass_guards H.
  apply (f_equal (from_ok d)) in H. cbn [from_ok] in H. subst d. cbn [df_recordType df_sequence df_payload].
  repeat match goal with H : _ || _ = false |- _ => apply orb_false_iff in H as [? ?] end.
  repeat match goal with H : negb _ = false |- _ => rewrite negb_false_iff in H end. breflect.
  pose proof (be_value_nonneg _ (slice_Forall f 12 20 Hf)) as Hs0. pose proof (be_value_nonneg _ (slice_Forall f 20 24 Hf)) as Hl0.
  set (s := be_value (slice f 12 20)) in *. set (n := be_value (slice f 20 24)) in *.
  remember (frameHeaderBytes + Z.to_nat n)%nat as e eqn:He. unfold frameHeaderBytes, checksumBytes in *.
  assert (length f = (e + 32)%nat) as Hlen by lia.
  assert (length (slice f 24 e) = Z.to_nat n) as Hp by (rewrite slice_length; lia).
  split.
  - split_and!; [done|lia|lia| |rewrite Hp; lia]. intros Hnil. rewrite Hnil in Hp. simpl in Hp. lia.
  - assert (take e f = frame_header (byte_at f 9) s n ++ slice f 24 e) as Hbody.
    { transitivity (slice f 0 e); [unfold slice; by rewrite drop_0, Nat.sub_0_r|].
      rewrite <-(slice_app f 0 24 e) by lia. f_equal. unfold frame_header.
      rewrite <-(slice_app f 0 8 24), <-(slice_app f 8 12 24), <-(slice_app f 12 20 24) by lia. f_equal; [done|]. f_equal.
      - rewrite <-(slice_app f 8 9 12), <-(slice_app f 9 10 12), <-(slice_app f 10 11 12) by lia.
        rewrite !slice_one by lia. cbn [app]. congruence.
      - f_equal.
        + rewrite <-(be_bytes_value (slice f 12 20)) by (by apply slice_Forall). rewrite slice_length by lia. done.
        + rewrite <-(be_bytes_value (slice f 20 24)) by (by apply slice_Forall). rewrite slice_length by lia. done. }
    unfold frame_of. rewrite Hp, Z2Nat.id by lia. rewrite <-Hbody.
    match goal with H : sha256 _ = _ |- _ => rewrite H end. symmetry. apply take_drop.
Qed.
