(* ===== verification/Ipc.v ===== *)
(** * The executor's private wire contract ([internal/enforcement/ipc])

    Models [frame.go] and [envelope.go]: length-prefixed frames over a stream,
    and the JSON envelopes that carry a signed capability to the executor and a
    signed result back.  A reader is the bytes it delivers and whether it then
    ends cleanly; a writer answers each [Write] with a count and an error. *)

From S2P Require Import Prelude GoStrings Sha256 Json Base64 JournalFrame.
Local Open Scope Z_scope.

Definition MaxFramePayloadBytes : Z := 16 * 1024.

Inductive IpcError :=
| ErrFrameZeroLength | ErrFrameOversized | ErrFrameTruncated | ErrFrameTrailingData | ErrFrameTermination | ErrFrameWrite
| ErrEnvelopeInvalid | ErrEnvelopeNonCanonical.

(** ** Frames ([frame.go]) *)

Definition validateFramePayload (payload : list Z) : option IpcError :=
  if (length payload =? 0)%nat then Some ErrFrameZeroLength
  else if MaxFramePayloadBytes <? Z.of_nat (length payload) then Some ErrFrameOversized
  else None.

Definition EncodeFrame (payload : list Z) : result IpcError (list Z) :=
  match validateFramePayload payload with
  | Some e => Err e
  | None => Ok (be_bytes 4 (u32 (Z.of_nat (length payload))) ++ payload)
  end.

(** The loop of [WriteFrame]: what reached the wire, and the outcome.  A round
    that does not end it writes at least a byte, so the length of the frame and
    one more round is enough fuel. *)
Fixpoint write_loop (fuel : nat) (writer : nat → Z * bool) (call : nat) (frame : list Z)
  : list Z * result IpcError unit :=
  match frame, fuel with
  | [], _ => ([], Ok tt)
  | _, O => ([], Err ErrFrameWrite)
  | _, S fuel =>
      let '(written, writeErr) := writer call in
      if (written <? 0) || (Z.of_nat (length frame) <? written) then (take (Z.to_nat written) frame, Err ErrFrameWrite)
      else
        let n := Z.to_nat written in
        if writeErr || (written =? 0) then (take n frame, Err ErrFrameWrite)
        else
          let '(wire, r) := write_loop fuel writer (S call) (drop n frame) in
          (take n frame ++ wire, r)
  end.

Definition WriteFrame (writer : nat → Z * bool) (payload : list Z) : list Z * result IpcError unit :=
  match EncodeFrame payload with
  | Err e => ([], Err e)
  | Ok frame => write_loop (S (length frame)) writer 0 frame
  end.

(** What a connection delivers, and whether [io.EOF] follows. *)
Record stream := MkStream { s_bytes : list Z; s_eof : bool }.

(** [io.ReadFull] of a buffer of [n] bytes. *)
Definition read_full (s : stream) (n : nat) : option (list Z * stream) :=
  if (n <=? length (s_bytes s))%nat then Some (take n (s_bytes s), MkStream (drop n (s_bytes s)) (s_eof s)) else None.

Definition ReadSingleFrame (reader : stream) : result IpcError (list Z) :=
  match read_full reader 4 with
  | None => Err ErrFrameTruncated
  | Some (header, reader) =>
      let size := be_value header in
      if size =? 0 then Err ErrFrameZeroLength
      else if MaxFramePayloadBytes <? size then Err ErrFrameOversized
      else
        match read_full reader (Z.to_nat size) with
        | None => Err ErrFrameTruncated
        | Some (payload, reader) =>
            match s_bytes reader with
            | _ :: _ => Err ErrFrameTrailingData
            | [] => if negb (s_eof reader) then Err ErrFrameTermination else Ok payload
            end
        end
  end.

(** ** Envelopes ([envelope.go]) *)

Definition RequestEnvelopeSchemaVersion : string := "executor-request-envelope-v1".
Definition RecoveryRequestSchemaVersion : string := "executor-recovery-request-envelope-v1".
Definition ResponseEnvelopeSchemaVersion : string := "executor-response-envelope-v1".
Definition maxEncodedFieldLength : Z := 21846.

Record RequestEnvelope := MkRequestEnvelope {
  re_capabilityJCS : string;
  re_capabilitySignature : string;
  re_artifact : string;
  re_recoveryOnly : bool
}.

Record ResponseEnvelope := MkResponseEnvelope { rp_resultJCS : string; rp_resultSignature : string }.

Record requestEnvelopeWire := MkRequestWire {
  rw_Artifact : string;
  rw_CapabilityJCS : string;
  rw_CapabilitySignature : string;
  rw_SchemaVersion : string
}.

Record responseEnvelopeWire := MkResponseWire {
  pw_ResultJCS : string;
  pw_ResultSignature : string;
  pw_SchemaVersion : string
}.

(** The nesting of a document; [encoding/json] refuses more than 10000. *)
Fixpoint json_depth (v : json) : Z :=
  match v with
  | JArray es => 1 + foldr (λ e n, Z.max (json_depth e) n) 0 es
  | JObject ms => 1 + foldr (λ m n, Z.max (json_depth m.2) n) 0 ms
  | _ => 0
  end.

(** [json.Valid], with the value for [json.Unmarshal]. *)
Definition valid_json (data : string) : option json :=
  match parse_document (chars data) with
  | Some v => if json_depth v <=? 10000 then Some v else None
  | None => None
  end.

(** [map[string]json.RawMessage] takes every object, and [null] as a nil map. *)
Definition validJSONObject (value : string) : bool :=
  if (len value <? 2) || negb (bool_decide (head (chars value) = Some "{"%char))
     || negb (bool_decide (last (chars value) = Some "}"%char))
  then false
  else match valid_json value with Some (JObject _) => true | _ => false end.

(** [json.Unmarshal] into a struct: unknown names are skipped. *)
Definition unmarshal_member (fields : schema) (w : option slots) (m : string * json) : option slots :=
  w ← w; match find_field fields m.1 with Some f => assign f m.2 w | None => Some w end.

Definition unmarshal_struct (fields : schema) (v : json) : option slots :=
  match v with
  | JNull => Some []
  | JObject ms => foldl (unmarshal_member fields) (Some []) ms
  | _ => None
  end.

Definition requestFields : schema :=
  [("artifact_b64url", KString); ("capability_jcs_b64url", KString); ("capability_signature_b64url", KString);
   ("schema_version", KString)].

Definition responseFields : schema :=
  [("result_jcs_b64url", KString); ("result_signature_b64url", KString); ("schema_version", KString)].

(** [json.Marshal] of the wire structs. *)
Definition marshalRequest (wire : requestEnvelopeWire) : string :=
  implode (write_object
    [("artifact_b64url", JString (rw_Artifact wire)); ("capability_jcs_b64url", JString (rw_CapabilityJCS wire));
     ("capability_signature_b64url", JString (rw_CapabilitySignature wire)); ("schema_version", JString (rw_SchemaVersion wire))]).

Definition marshalResponse (wire : responseEnvelopeWire) : string :=
  implode (write_object
    [("result_jcs_b64url", JString (pw_ResultJCS wire)); ("result_signature_b64url", JString (pw_ResultSignature wire));
     ("schema_version", JString (pw_SchemaVersion wire))]).

Definition marshalBoundedEnvelope (payload : string) : result IpcError string :=
  match validateFramePayload (bytes_of payload) with Some e => Err e | None => Ok payload end.

Definition newRequestEnvelope (capabilityJCS signature artifact : string) (recoveryOnly : bool)
  : result IpcError RequestEnvelope :=
  if negb (validJSONObject capabilityJCS) || negb (len signature =? 64) || (len artifact =? 0) then Err ErrEnvelopeInvalid
  else Ok (MkRequestEnvelope capabilityJCS signature artifact recoveryOnly).

Definition NewRequestEnvelope (capabilityJCS signature artifact : string) : result IpcError RequestEnvelope :=
  newRequestEnvelope capabilityJCS signature artifact false.

Definition NewRecoveryRequestEnvelope (capabilityJCS signature artifact : string) : result IpcError RequestEnvelope :=
  newRequestEnvelope capabilityJCS signature artifact true.

Definition NewResponseEnvelope (resultJCS signature : string) : result IpcError ResponseEnvelope :=
  if negb (validJSONObject resultJCS) || negb (len signature =? 64) then Err ErrEnvelopeInvalid
  else Ok (MkResponseEnvelope resultJCS signature).

Definition request_wire (value : RequestEnvelope) : requestEnvelopeWire :=
  MkRequestWire (EncodeToString (re_artifact value)) (EncodeToString (re_capabilityJCS value))
    (EncodeToString (re_capabilitySignature value))
    (if re_recoveryOnly value then RecoveryRequestSchemaVersion else RequestEnvelopeSchemaVersion).

Definition EncodeRequestEnvelope (value : RequestEnvelope) : result IpcError string :=
  if negb (validJSONObject (re_capabilityJCS value)) || negb (len (re_capabilitySignature value) =? 64)
     || (len (re_artifact value) =? 0)
  then Err ErrEnvelopeInvalid
  else marshalBoundedEnvelope (marshalRequest (request_wire value)).

Definition response_wire (value : ResponseEnvelope) : responseEnvelopeWire :=
  MkResponseWire (EncodeToString (rp_resultJCS value)) (EncodeToString (rp_resultSignature value)) ResponseEnvelopeSchemaVersion.

Definition EncodeResponseEnvelope (value : ResponseEnvelope) : result IpcError string :=
  if negb (validJSONObject (rp_resultJCS value)) || negb (len (rp_resultSignature value) =? 64) then Err ErrEnvelopeInvalid
  else marshalBoundedEnvelope (marshalResponse (response_wire value)).

Definition decodeRawURLField (value : string) : result IpcError string :=
  if (len value =? 0) || (maxEncodedFieldLength <? len value) then Err ErrEnvelopeInvalid
  else match DecodeString true value with Some decoded => Ok decoded | None => Err ErrEnvelopeInvalid end.

(** The bytes are a bounded JSON document of the struct's type. *)
Definition unmarshal_payload (payload : string) (fields : schema) : result IpcError slots :=
  if (len payload =? 0) || (MaxFramePayloadBytes <? len payload) then Err ErrEnvelopeInvalid
  else
    match valid_json payload with
    | None => Err ErrEnvelopeInvalid
    | Some v => match unmarshal_struct fields v with Some w => Ok w | None => Err ErrEnvelopeInvalid end
    end.

Definition wire_request (w : slots) : requestEnvelopeWire :=
  MkRequestWire (get_string w "artifact_b64url") (get_string w "capability_jcs_b64url")
    (get_string w "capability_signature_b64url") (get_string w "schema_version").

Definition wire_response (w : slots) : responseEnvelopeWire :=
  MkResponseWire (get_string w "result_jcs_b64url") (get_string w "result_signature_b64url") (get_string w "schema_version").

Definition DecodeRequestEnvelope (payload : string) : result IpcError RequestEnvelope :=
  slots ← unmarshal_payload payload requestFields;
  let wire := wire_request slots in
  if negb (String.eqb (rw_SchemaVersion wire) RequestEnvelopeSchemaVersion)
     && negb (String.eqb (rw_SchemaVersion wire) RecoveryRequestSchemaVersion)
  then Err ErrEnvelopeInvalid
  else if negb (String.eqb (marshalRequest wire) payload) then Err ErrEnvelopeNonCanonical
  else
    capability ← decodeRawURLField (rw_CapabilityJCS wire);
    if negb (validJSONObject capability) then Err ErrEnvelopeInvalid
    else
      signature ← decodeRawURLField (rw_CapabilitySignature wire);
      if negb (len (rw_CapabilitySignature wire) =? 86) || negb (len signature =? 64) then Err ErrEnvelopeInvalid
      else
        artifact ← decodeRawURLField (rw_Artifact wire);
        if len artifact =? 0 then Err ErrEnvelopeInvalid
        else newRequestEnvelope capability signature artifact (String.eqb (rw_SchemaVersion wire) RecoveryRequestSchemaVersion).

Definition DecodeResponseEnvelope (payload : string) : result IpcError ResponseEnvelope :=
  slots ← unmarshal_payload payload responseFields;
  let wire := wire_response slots in
  if negb (String.eqb (pw_SchemaVersion wire) ResponseEnvelopeSchemaVersion) then Err ErrEnvelopeInvalid
  else if negb (String.eqb (marshalResponse wire) payload) then Err ErrEnvelopeNonCanonical
  else
    result ← decodeRawURLField (pw_ResultJCS wire);
    if negb (validJSONObject result) then Err ErrEnvelopeInvalid
    else
      signature ← decodeRawURLField (pw_ResultSignature wire);
      if negb (len (pw_ResultSignature wire) =? 86) || negb (len signature =? 64) then Err ErrEnvelopeInvalid
      else NewResponseEnvelope result signature.
