(* ===== verification/IpcSpec.v ===== *)
(** * The wire contract is exact

    Frames arrive whole or not at all, and an envelope is read back from what
    its encoder writes; the only other payloads the decoder takes differ from
    it by line breaks inside the base 64 fields. *)

From S2P Require Import Prelude GoStrings Sha256 Json Base64 JournalFrame Ipc.
Local Open Scope Z_scope.

(** ** Frames *)

Definition frame_bytes (payload : list Z) : list Z := be_bytes 4 (Z.of_nat (length payload)) ++ payload.

Lemma EncodeFrame_iff payload frame :
  EncodeFrame payload = Ok frame ↔ 0 < Z.of_nat (length payload) <= MaxFramePayloadBytes ∧ frame = frame_bytes payload.
Proof.
  unfold EncodeFrame, validateFramePayload, u32, frame_bytes, MaxFramePayloadBytes.
  destruct (Nat.eqb_spec (length payload) 0) as [H0|H0]; [split; [done|lia]|].
  destruct (Z.ltb_spec (16 * 1024) (Z.of_nat (length payload))); [split; [done|lia]|].
  rewrite Z.mod_small by lia. split; [intros [= <-]; split; [lia|done]|]. by intros [_ ->].
Qed.

Lemma frame_bytes_length payload : length (frame_bytes payload) = (4 + length payload)%nat.
Proof. unfold frame_bytes. by rewrite length_app, be_bytes_length. Qed.

Lemma write_loop_ok fuel writer call frame wire r : write_loop fuel writer call frame = (wire, r) →
  wire `prefix_of` frame ∧ (r = Ok tt → wire = frame).
Proof.
  revert call frame wire r. induction fuel as [|fuel IH]; intros call frame wire r Hw; cbn [write_loop] in Hw.
  - destruct frame; simplify_eq; by split; [apply prefix_nil|].
  - destruct frame as [|b frame]; [simplify_eq; by split; [apply prefix_nil|]|].
    destruct (writer call) as [written err]. set (f := b :: frame) in *. cbv zeta in Hw.
    assert (∀ n, take n f `prefix_of` f) as Hp by (intros n; exists (drop n f); by rewrite take_drop).
    destruct (_ || _); [simplify_eq; by split|]. destruct (_ || _); [simplify_eq; by split|].
    destruct (write_loop fuel writer (S call) _) as [wire' r'] eqn:Hrec. simplify_eq.
    apply IH in Hrec as [Hpre Hfull]. split.
    + rewrite <-(take_drop (Z.to_nat written) f) at 2. by apply prefix_app.
    + intros ->. rewrite Hfull by done. apply take_drop.
Qed.

Lemma ReadSingleFrame_iff r payload : Forall is_byte (s_bytes r) →
  ReadSingleFrame r = Ok payload ↔ s_eof r = true ∧ EncodeFrame payload = Ok (s_bytes r).
Proof.
  intros Hb. rewrite EncodeFrame_iff. unfold ReadSingleFrame, read_full. split.
  - destruct (Nat.leb_spec 4 (length (s_bytes r))); [|done]. cbn [s_bytes s_eof].
    set (header := take 4 (s_bytes r)). set (rest := drop 4 (s_bytes r)).
    assert (s_bytes r = header ++ rest) as Hsplit by (symmetry; apply take_drop).
    assert (Forall is_byte header) as Hh by by apply Forall_take.
    assert (length header = 4%nat) as Hl by (unfold header; rewrite length_take; lia).
    pose proof (be_value_nonneg _ Hh) as Hn. pose proof (be_bytes_value _ Hh) as Hv. rewrite Hl in Hv.
    destruct (Z.eqb_spec (be_value header) 0); [done|]. destruct (Z.ltb_spec MaxFramePayloadBytes (be_value header)); [done|].
    destruct (Nat.leb_spec (Z.to_nat (be_value header)) (length rest)); [|done]. cbn [s_bytes s_eof].
    destruct (drop (Z.to_nat (be_value header)) rest) as [|] eqn:Hd; [|done]. destruct (s_eof r); [|done].
    intros [= <-]. rewrite take_ge.
    + assert (length rest = Z.to_nat (be_value header)) as Hr.
      { apply (f_equal length) in Hd. rewrite length_drop in Hd. simpl in Hd. lia. }
      split; [done|]. rewrite Hr, Z2Nat.id by lia. split; [lia|]. unfold frame_bytes.
      rewrite Hr, Z2Nat.id, Hv by lia. done.
    + apply (f_equal length) in Hd. rewrite length_drop in Hd. simpl in Hd. lia.
  - intros (He & Hlen & Hs). rewrite Hs, He. rewrite frame_bytes_length. cbn [Nat.leb plus s_bytes s_eof].
    pose proof (be_bytes_length 4 (Z.of_nat (length payload))) as H4.
    unfold frame_bytes, MaxFramePayloadBytes in *. rewrite take_app_length', drop_app_length' by done.
    rewrite be_value_bytes by lia. rewrite (proj2 (Z.eqb_neq _ _)), (proj2 (Z.ltb_ge _ _)) by lia.
    rewrite Nat2Z.id, Nat.leb_refl. cbn [s_bytes s_eof]. rewrite take_ge, drop_ge by lia. done.
Qed.

(** ** Envelopes *)

Lemma write_members_covers ms k v tail : (k, v) ∈ ms → (length (write_value v) ≤ length (write_members tail ms))%nat.
Proof.
  revert tail. induction ms as [|[k1 v1] ms IH]; intros tail Hin; [by apply elem_of_nil in Hin|]. cbn [write_members].
  apply elem_of_cons in Hin as [[= -> ->]|Hin]; [|specialize (IH true Hin)]; repeat (rewrite length_app; cbn [length]); lia.
Qed.

Lemma write_object_covers ms k s : (k, JString s) ∈ ms → plain s → len s <= len (implode (write_object ms)).
Proof.
  intros Hin Hs. rewrite len_implode, len_chars. unfold write_object. cbn [length]. rewrite length_app.
  pose proof (write_members_covers _ _ _ false Hin) as Hl. cbn [write_value] in Hl. rewrite json_string_plain in Hl by done.
  cbn [length] in Hl. rewrite length_app in Hl. lia.
Qed.

Lemma write_object_nil ms : len (implode (write_object ms)) ≠ 0.
Proof. rewrite len_implode. unfold write_object. cbn [length]. lia. Qed.

(** A flat object of strings is a valid document. *)
Lemma unmarshal_write ms fields w : Forall flat ms → json_depth (JObject ms) <= 10000 →
  len (implode (write_object ms)) <= MaxFramePayloadBytes → unmarshal_struct fields (JObject ms) = Some w →
  unmarshal_payload (implode (write_object ms)) fields = Ok w.
Proof.
  intros Hf Hd Hl Hu. unfold unmarshal_payload, valid_json.
  rewrite (proj2 (Z.eqb_neq _ _) (write_object_nil ms)), (proj2 (Z.ltb_ge _ _)) by done. cbn [orb].
  rewrite chars_implode, parse_write_object, (proj2 (Z.leb_le _ _)), Hu by done. done.
Qed.

Lemma marshalBoundedEnvelope_ok text payload : marshalBoundedEnvelope text = Ok payload →
  payload = text ∧ len payload <= MaxFramePayloadBytes.
Proof.
  unfold marshalBoundedEnvelope, validateFramePayload. intros H. destruct (_ =? 0)%nat; [done|].
  destruct (Z.ltb_spec MaxFramePayloadBytes (Z.of_nat (length (bytes_of text)))) as [|Hl]; [done|].
  apply (f_equal (from_ok payload)) in H. cbn [from_ok] in H. subst payload. split; [done|].
  unfold bytes_of in Hl. rewrite length_map in Hl. by rewrite len_chars.
Qed.

Lemma decodeRawURLField_encoded s : len s ≠ 0 → len (EncodeToString s) <= maxEncodedFieldLength →
  decodeRawURLField (EncodeToString s) = Ok s.
Proof.
  intros H0 Hl. unfold decodeRawURLField. assert (0 <= len s) by (rewrite len_chars; lia).
  rewrite (proj2 (Z.eqb_neq _ 0)), (proj2 (Z.ltb_ge _ _)), DecodeString_EncodeToString; [done|done|].
  rewrite EncodeToString_length. Z.to_euclidean_division_equations; lia.
Qed.

Lemma decodeRawURLField_ok s b : decodeRawURLField s = Ok b → unbroken s = EncodeToString b.
Proof.
  unfold decodeRawURLField. intros H. pass_guards H. destruct (DecodeString true s) as [d|] eqn:Hd; [|discriminate H].
  apply (f_equal (from_ok b)) in H. cbn [from_ok] in H. subst d. symmetry. by apply DecodeString_strict.
Qed.

Lemma validJSONObject_len s : validJSONObject s = true → 2 <= len s.
Proof. unfold validJSONObject. destruct (Z.ltb_spec (len s) 2); [done|]. intros. lia. Qed.

Lemma encoded_plain s : plain (EncodeToString s).
Proof. apply EncodeToString_plain. Qed.

Lemma string_member_flat k s : plain k → plain s → flat (k, JString s).
Proof. by split. Qed.

Definition wire_plain (w : requestEnvelopeWire) : Prop :=
  plain (rw_Artifact w) ∧ plain (rw_CapabilityJCS w) ∧ plain (rw_CapabilitySignature w) ∧ plain (rw_SchemaVersion w).

Lemma unmarshal_request w : wire_plain w → len (marshalRequest w) <= MaxFramePayloadBytes →
  ∃ s, unmarshal_payload (marshalRequest w) requestFields = Ok s ∧ wire_request s = w.
Proof.
  intros (H1 & H2 & H3 & H4) Hl. eexists. split.
  - apply unmarshal_write; [|by vm_compute|exact Hl|reflexivity].
    repeat (apply Forall_cons; split; [apply string_member_flat; [by vm_compute|done]|]). by apply Forall_nil.
  - by destruct w.
Qed.

Lemma unmarshal_response w : plain (pw_ResultJCS w) → plain (pw_ResultSignature w) → plain (pw_SchemaVersion w) →
  len (marshalResponse w) <= MaxFramePayloadBytes →
  ∃ s, unmarshal_payload (marshalResponse w) responseFields = Ok s ∧ wire_response s = w.
Proof.
  intros H1 H2 H3 Hl. eexists. split.
  - apply unmarshal_write; [|by vm_compute|exact Hl|reflexivity].
    repeat (apply Forall_cons; split; [apply string_member_flat; [by vm_compute|done]|]). by apply Forall_nil.
  - by destruct w.
Qed.

Lemma signature_field sig : len sig = 64 → len (EncodeToString sig) = 86.
Proof. intros H. by rewrite EncodeToString_length, H. Qed.

(** What the encoder writes is read back. *)
Lemma request_encode_decode e p : EncodeRequestEnvelope e = Ok p → DecodeRequestEnvelope p = Ok e.
Proof.
  intros He. unfold EncodeRequestEnvelope in He. pass_guards He. apply marshalBoundedEnvelope_ok in He as [-> Hl]. bsplit.
  set (w := request_wire e) in *.
  assert (wire_plain w) as Hw by (unfold w, wire_plain; cbn; split_and!; try apply encoded_plain; by case_match).
  assert (∀ k s, (k, JString s) ∈ [("artifact_b64url", JString (rw_Artifact w)); ("capability_jcs_b64url", JString (rw_CapabilityJCS w));
     ("capability_signature_b64url", JString (rw_CapabilitySignature w)); ("schema_version", JString (rw_SchemaVersion w))] →
     plain s → len s <= maxEncodedFieldLength) as Hfield.
  { intros k s Hin Hs. pose proof (write_object_covers _ _ _ Hin Hs) as Hc. unfold marshalRequest in Hl.
    unfold MaxFramePayloadBytes, maxEncodedFieldLength in *. lia. }
  destruct (unmarshal_request w Hw Hl) as (s & Hu & Hs). unfold DecodeRequestEnvelope. rewrite Hu. cbn [mbind result_bind].
  cbv zeta. rewrite Hs.
  assert (negb (String.eqb (rw_SchemaVersion w) RequestEnvelopeSchemaVersion)
    && negb (String.eqb (rw_SchemaVersion w) RecoveryRequestSchemaVersion) = false) as ->.
  { unfold w. cbn. by destruct (re_recoveryOnly e). }
  rewrite String.eqb_refl. cbn [negb].
  change (rw_CapabilityJCS w) with (EncodeToString (re_capabilityJCS e)) in *.
  change (rw_CapabilitySignature w) with (EncodeToString (re_capabilitySignature e)) in *.
  change (rw_Artifact w) with (EncodeToString (re_artifact e)) in *.
  match goal with H : validJSONObject _ = true |- _ => rename H into Hv end. pose proof (validJSONObject_len _ Hv) as Hvl.
  rewrite (decodeRawURLField_encoded (re_capabilityJCS e)); [|lia|eapply (Hfield "capability_jcs_b64url");
    [apply elem_of_cons; right; apply elem_of_cons; by left|apply encoded_plain]].
  cbn [mbind result_bind]. rewrite Hv. cbn [negb].
  rewrite (decodeRawURLField_encoded (re_capabilitySignature e)); [|lia|rewrite signature_field by done; by vm_compute].
  cbn [mbind result_bind]. rewrite signature_field by done.
  rewrite (proj2 (Z.eqb_eq (len (re_capabilitySignature e)) 64)) by done. cbn [Z.eqb Pos.eqb negb orb].
  rewrite (decodeRawURLField_encoded (re_artifact e)); [|done|eapply (Hfield "artifact_b64url");
    [apply elem_of_cons; by left|apply encoded_plain]].
  cbn [mbind result_bind]. rewrite (proj2 (Z.eqb_neq (len (re_artifact e)) 0)) by done.
  unfold newRequestEnvelope. rewrite Hv, (proj2 (Z.eqb_eq (len (re_capabilitySignature e)) 64)),
    (proj2 (Z.eqb_neq (len (re_artifact e)) 0)) by done. cbn [negb orb]. f_equal.
  destruct e as [c g a ro]. cbn. by destruct ro.
Qed.

(** The same wire with the line breaks of its two long fields removed. *)
Definition unbroken_wire (w : requestEnvelopeWire) : requestEnvelopeWire :=
  MkRequestWire (unbroken (rw_Artifact w)) (unbroken (rw_CapabilityJCS w)) (rw_CapabilitySignature w) (rw_SchemaVersion w).

Lemma signature_unbroken s sig : decodeRawURLField s = Ok sig → len s = 86 → len sig = 64 → s = EncodeToString sig.
Proof.
  intros Hd%decodeRawURLField_ok Hl Hs. rewrite <-Hd. symmetry. apply unbroken_full.
  rewrite Hd, Hl. by apply signature_field.
Qed.

Lemma newRequestEnvelope_ok c g a ro e : newRequestEnvelope c g a ro = Ok e →
  e = MkRequestEnvelope c g a ro ∧ validJSONObject c = true ∧ len g = 64 ∧ len a ≠ 0.
Proof.
  unfold newRequestEnvelope. intros H. pass_guards H. bsplit. apply (f_equal (from_ok e)) in H. cbn [from_ok] in H. by subst e.
Qed.

(** Any payload the decoder takes is its envelope's, up to those line breaks. *)
Lemma request_decode_form p e : DecodeRequestEnvelope p = Ok e →
  ∃ w, p = marshalRequest w ∧ unbroken_wire w = request_wire e ∧ (unbroken_wire w = w → EncodeRequestEnvelope e = Ok p).
Proof.
  intros Hd. unfold DecodeRequestEnvelope in Hd. inv_bind Hd. rename a into s. cbv zeta in Hd. set (w := wire_request s) in *.
  clearbody w. pass_guards Hd. inv_bind Hd. rename a into cap. pass_guards Hd. inv_bind Hd. rename a into sig. pass_guards Hd.
  inv_bind Hd. rename a into art. pass_guards Hd.
  assert (len p <= MaxFramePayloadBytes ∧ len p ≠ 0) as [Hl H0].
  { unfold unmarshal_payload in Hbind. destruct (_ || _) eqn:Hb in Hbind; [discriminate Hbind|]. bsplit. by split; [lia|]. }
  bsplit. subst p. apply newRequestEnvelope_ok in Hd as (-> & Hv & Hg & Ha).
  match goal with H : len (rw_CapabilitySignature w) = 86 |- _ => rename H into H86 end.
  pose proof (signature_unbroken _ _ Hbind1 H86 Hg) as Hsig. apply decodeRawURLField_ok in Hbind0, Hbind2.
  assert (unbroken_wire w = request_wire (MkRequestEnvelope cap sig art
    (String.eqb (rw_SchemaVersion w) RecoveryRequestSchemaVersion))) as Hw.
  { unfold unbroken_wire, request_wire. cbn [re_artifact re_capabilityJCS re_capabilitySignature re_recoveryOnly].
    rewrite Hbind0, Hbind2, <-Hsig. f_equal.
    destruct (String.eqb_spec (rw_SchemaVersion w) RecoveryRequestSchemaVersion) as [|Hne]; [done|].
    match goal with H : _ ∨ _ |- _ => destruct H as [H|H]; [exact H|by destruct (Hne H)] end. }
  exists w. split; [done|]. split; [done|]. intros Hsame. unfold EncodeRequestEnvelope.
  rewrite <-Hw, Hsame. cbn [re_capabilityJCS re_capabilitySignature re_artifact].
  rewrite Hv, (proj2 (Z.eqb_eq _ _) Hg), (proj2 (Z.eqb_neq _ _) Ha). cbn [negb orb].
  unfold marshalBoundedEnvelope, validateFramePayload, bytes_of. rewrite length_map.
  rewrite len_chars in Hl, H0. rewrite (proj2 (Nat.eqb_neq _ _)), (proj2 (Z.ltb_ge _ _)) by lia. done.
Qed.

Lemma response_encode_decode e p : EncodeResponseEnvelope e = Ok p → DecodeResponseEnvelope p = Ok e.
Proof.
  intros He. unfold EncodeResponseEnvelope in He. pass_guards He. apply marshalBoundedEnvelope_ok in He as [-> Hl]. bsplit.
  set (w := response_wire e) in *.
  match goal with H : validJSONObject _ = true |- _ => rename H into Hv end. pose proof (validJSONObject_len _ Hv) as Hvl.
  assert (len (pw_ResultJCS w) <= maxEncodedFieldLength) as Hfield.
  { assert (("result_jcs_b64url", JString (pw_ResultJCS w)) ∈
      [("result_jcs_b64url", JString (pw_ResultJCS w)); ("result_signature_b64url", JString (pw_ResultSignature w));
       ("schema_version", JString (pw_SchemaVersion w))]) as Hin by (apply elem_of_cons; by left).
    pose proof (write_object_covers _ _ _ Hin (encoded_plain _)) as Hc. unfold marshalResponse in Hl.
    unfold MaxFramePayloadBytes, maxEncodedFieldLength in *. lia. }
  destruct (unmarshal_response w (encoded_plain _) (encoded_plain _) ltac:(by vm_compute) Hl) as (s & Hu & Hs).
  unfold DecodeResponseEnvelope. rewrite Hu. cbn [mbind result_bind]. cbv zeta. rewrite Hs.
  change (pw_SchemaVersion w) with ResponseEnvelopeSchemaVersion. rewrite !String.eqb_refl. cbn [negb].
  change (pw_ResultJCS w) with (EncodeToString (rp_resultJCS e)) in *.
  change (pw_ResultSignature w) with (EncodeToString (rp_resultSignature e)) in *.
  rewrite (decodeRawURLField_encoded (rp_resultJCS e)) by (lia || done). cbn [mbind result_bind]. rewrite Hv. cbn [negb].
  rewrite (decodeRawURLField_encoded (rp_resultSignature e)) by (lia || rewrite signature_field by done; by vm_compute).
  cbn [mbind result_bind]. rewrite signature_field by done.
  rewrite (proj2 (Z.eqb_eq (len (rp_resultSignature e)) 64)) by done. cbn [Z.eqb Pos.eqb negb orb].
  unfold NewResponseEnvelope. rewrite Hv, (proj2 (Z.eqb_eq (len (rp_resultSignature e)) 64)) by done. cbn [negb orb].
  by destruct e.
Qed.

(** ** Samples *)

Definition sample_envelope : RequestEnvelope :=
  MkRequestEnvelope "{}" (implode (repeat "s"%char 64)) "add" false.

Definition sample_payload : string := Eval vm_compute in from_ok "" (EncodeRequestEnvelope sample_envelope).

(** The same envelope with a line feed inside the artifact's base 64. *)
Definition broken_payload : string := Eval vm_compute in
  marshalRequest (MkRequestWire (implode ["Y"; "W"; "010"; "R"; "k"]%char) (EncodeToString "{}")
    (EncodeToString (implode (repeat "s"%char 64))) RequestEnvelopeSchemaVersion).

(** The decoder of Go skips line breaks also in strict mode, so two payloads
    carry one envelope although the contract admits only the alphabet. *)
Example line_break_accepted : sample_payload ≠ broken_payload ∧
  DecodeRequestEnvelope sample_payload = Ok sample_envelope ∧ DecodeRequestEnvelope broken_payload = Ok sample_envelope.
Proof. split_and!; [discriminate|vm_compute; reflexivity|vm_compute; reflexivity]. Qed.

(** ** Claims *)

(** Envelopes are canonical: what the encoder of a request writes decodes to
    that request; and a payload the decoder accepts is, after removing the line
    breaks inside its two long base 64 fields, exactly the wire form of the
    request, so that without line breaks it is the very payload the encoder
    writes. *)
Theorem request_envelope_exact p e :
  (EncodeRequestEnvelope e = Ok p → DecodeRequestEnvelope p = Ok e) ∧
  (DecodeRequestEnvelope p = Ok e →
   ∃ w, p = marshalRequest w ∧ unbroken_wire w = request_wire e ∧ (unbroken_wire w = w → EncodeRequestEnvelope e = Ok p)).
Proof. split; [apply request_encode_decode|apply request_decode_form]. Qed.

(** Frames arrive whole or not at all: when the writer reports success the
    peer, whose stream ends there, reads exactly the payload; and after a
    failed or partial write, whatever the end of the stream, it reads the
    payload or nothing. *)
Theorem frame_exchange writer payload wire r eof : Forall is_byte payload → WriteFrame writer payload = (wire, r) →
  (r = Ok tt → ReadSingleFrame (MkStream wire true) = Ok payload) ∧
  (∀ q, ReadSingleFrame (MkStream wire eof) = Ok q → q = payload).
Proof.
  intros Hb Hw. unfold WriteFrame in Hw. destruct (EncodeFrame payload) as [frame|] eqn:He.
  - pose proof (proj1 (EncodeFrame_iff _ _) He) as [Hl ->].
    assert (Forall is_byte (frame_bytes payload)) as Hf by (apply Forall_app; split; [apply be_bytes_byte|done]).
    apply write_loop_ok in Hw as [[rest Hpre] Hfull].
    assert (Forall is_byte wire) as Hwire by (rewrite Hpre in Hf; by apply Forall_app in Hf as [? _]).
    split; [intros Hr; apply ReadSingleFrame_iff; [done|]; by rewrite (Hfull Hr)|].
    intros q [_ Hq]%ReadSingleFrame_iff; [|done]. cbn [s_bytes] in Hq. apply EncodeFrame_iff in Hq as [Hql Hq].
    rewrite Hq in Hpre. unfold frame_bytes in Hpre. rewrite <-app_assoc in Hpre.
    apply app_inj_1 in Hpre as [Hlen Hpre]; [|by rewrite !be_bytes_length].
    apply (f_equal be_value) in Hlen. unfold MaxFramePayloadBytes in *. rewrite !be_value_bytes in Hlen by lia.
    apply (f_equal (take (length payload))) in Hpre. rewrite take_ge in Hpre by lia.
    replace (length payload) with (length q) in Hpre by lia. by rewrite take_app_length in Hpre.
  - apply pair_equal_spec in Hw as [<- <-]. split; [done|]. by intros q Hq.
Qed.

(** A writer that takes three bytes at a time. *)
Lemma frame_exchange_witness : ReadSingleFrame (MkStream [0; 0; 0; 5; 7; 8; 9; 10; 11] true) = Ok [7; 8; 9; 10; 11].
Proof.
  apply (proj1 (frame_exchange (λ _, (3, false)) [7; 8; 9; 10; 11] _ (Ok tt) true
    ltac:(apply (bool_decide_eq_true_1 (Forall (λ x, 0 <= x < 256) _)); vm_compute; reflexivity)
    ltac:(vm_compute; reflexivity)) eq_refl).
Defined.
