(* ===== verification/JournalRecord.v ===== *)
(** * Journal records ([internal/enforcement/journal/payload.go])

    The JSON payload of a frame: the capability with its exact signed bytes,
    the window the executor granted itself, the digest of the previous record,
    and, in a terminal record, the signed result.  [marshalRecordPayload]
    freezes it with its own checksum, [parseRecordPayload] accepts nothing but
    such bytes, and [parseStartedPayload] and [parseTerminalPayload]
    re-authenticate what they carry. *)

From S2P Require Import Prelude GoStrings Sha256 Json Base64 GoTime Capability ExecResult JournalFrame.
Local Open Scope Z_scope.

Definition SchemaRecordV1 : string := "executor-journal-record-v1".
Definition phaseStarted : string := "started".
Definition phaseTerminal : string := "terminal".
Definition MaxDeadline : duration := 2 * Second.

Record recordPayload := MkRecordPayload {
  p_ArtifactB64URL : string;
  p_ArtifactDigest : string;
  p_CapabilityDigest : string;
  p_CapabilityID : string;
  p_CapabilityJCSB64URL : string;
  p_CapabilitySignatureB64URL : string;
  p_Deadline : string;
  p_JournalSequence : Z;
  p_Operation : string;
  p_OwnedSchemaDigest : string;
  p_Phase : string;
  p_PreviousRecordDigest : option string;
  p_ReceivedAt : string;
  p_RecordChecksum : string;
  p_SchemaVersion : string;
  p_TargetIPv4 : string;
  p_TerminalResultDigest : option string;
  p_TerminalResultJCSB64URL : option string;
  p_TerminalResultSignatureB64URL : option string
}.

Definition with_checksum (p : recordPayload) (checksum : string) : recordPayload :=
  MkRecordPayload (p_ArtifactB64URL p) (p_ArtifactDigest p) (p_CapabilityDigest p) (p_CapabilityID p)
    (p_CapabilityJCSB64URL p) (p_CapabilitySignatureB64URL p) (p_Deadline p) (p_JournalSequence p) (p_Operation p)
    (p_OwnedSchemaDigest p) (p_Phase p) (p_PreviousRecordDigest p) (p_ReceivedAt p) checksum (p_SchemaVersion p)
    (p_TargetIPv4 p) (p_TerminalResultDigest p) (p_TerminalResultJCSB64URL p) (p_TerminalResultSignatureB64URL p).

(** A started record's live state; a terminal record once the result is in. *)
Record terminalRecord := MkTerminal { tr_sequence : Z; tr_signed : SignedResult; tr_verified : VerifiedResult }.

Record startedRecord := MkStarted {
  st_sequence : Z;
  st_signed : SignedCapability;
  st_verified : VerifiedCapability;
  st_received : time;
  st_deadline : time;
  st_terminal : option terminalRecord
}.

(** ** Text fields *)

Definition encodeBytes (value : string) : string := EncodeToString value.

(** [None] is Go's [(nil, false)]. *)
Definition decodeBytes (value : string) (maximum : Z) : option string :=
  if String.eqb value "" then None
  else
    match DecodeString true value with
    | None => None
    | Some decoded =>
        if (len decoded =? 0) || (maximum <? len decoded) || negb (String.eqb (encodeBytes decoded) value) then None
        else Some decoded
    end.

Definition formatTime (value : time) : string := format_millis value.
Definition parseTime (value : string) : option time := parse_canonical value.

Definition digestPayload (value : string) : string := digest value.

Definition digest_prefix : string := "sha256:".

(** [hex.DecodeString] accepts either case. *)
Definition validDigest (value : string) : bool :=
  if negb (len value =? len digest_prefix + 32 * 2)
     || negb (bool_decide (take (length (chars digest_prefix)) (chars value) = chars digest_prefix)) then false
  else forallb (λ c, bool_decide (is_Some (hex_value c))) (drop (length (chars digest_prefix)) (chars value)).

Definition record_digestEqual (left right : string) : bool := (len left =? len right) && String.eqb left right.

Definition optionalDigest (value : string) : option string := if String.eqb value "" then None else Some value.

(** ** Building records *)

Definition newStartedPayload (signed : SignedCapability) (verified : VerifiedCapability) (received deadline : time)
    (sequence : Z) (previous : string) : recordPayload :=
  let value := vc_value verified in
  MkRecordPayload (encodeBytes (sc_artifact signed)) (v_ArtifactDigest value) (vc_digest verified) (v_CapabilityID value)
    (encodeBytes (sc_canonical signed)) (encodeBytes (sc_signature signed)) (formatTime deadline) sequence
    (v_Operation value) (v_OwnedSchemaDigest value) phaseStarted (optionalDigest previous) (formatTime received) ""
    SchemaRecordV1 (v_TargetIPv4 value) None None None.

Definition newTerminalPayload (start : startedRecord) (signed : SignedResult) (verified : VerifiedResult)
    (sequence : Z) (previous : string) : recordPayload :=
  let value := vc_value (st_verified start) in
  MkRecordPayload (encodeBytes (sc_artifact (st_signed start))) (v_ArtifactDigest value) (vc_digest (st_verified start))
    (v_CapabilityID value) (encodeBytes (sc_canonical (st_signed start))) (encodeBytes (sc_signature (st_signed start)))
    (formatTime (st_deadline start)) sequence (v_Operation value) (v_OwnedSchemaDigest value) phaseTerminal
    (optionalDigest previous) (formatTime (st_received start)) "" SchemaRecordV1 (v_TargetIPv4 value)
    (Some (vr_digest verified)) (Some (encodeBytes (sr_canonical signed))) (Some (encodeBytes (sr_signature signed))).

(** ** JSON *)

Definition pointer_value (value : option string) : json :=
  match value with None => JNull | Some s => JString s end.

(** The members [json.Marshal] writes before and after [record_checksum]. *)
Definition members_before (p : recordPayload) : list (string * json) :=
  [("artifact_b64url", JString (p_ArtifactB64URL p)); ("artifact_digest", JString (p_ArtifactDigest p));
   ("capability_digest", JString (p_CapabilityDigest p)); ("capability_id", JString (p_CapabilityID p));
   ("capability_jcs_b64url", JString (p_CapabilityJCSB64URL p));
   ("capability_signature_b64url", JString (p_CapabilitySignatureB64URL p)); ("deadline", JString (p_Deadline p));
   ("journal_sequence", JNumber (chars (format_uint (p_JournalSequence p)))); ("operation", JString (p_Operation p));
   ("owned_schema_digest", JString (p_OwnedSchemaDigest p)); ("phase", JString (p_Phase p));
   ("previous_record_digest", pointer_value (p_PreviousRecordDigest p)); ("received_at", JString (p_ReceivedAt p))].

Definition members_after (p : recordPayload) : list (string * json) :=
  [("schema_version", JString (p_SchemaVersion p)); ("target_ipv4", JString (p_TargetIPv4 p));
   ("terminal_result_digest", pointer_value (p_TerminalResultDigest p));
   ("terminal_result_jcs_b64url", pointer_value (p_TerminalResultJCSB64URL p));
   ("terminal_result_signature_b64url", pointer_value (p_TerminalResultSignatureB64URL p))].

Definition record_members (p : recordPayload) : list (string * json) :=
  members_before p ++ ("record_checksum", JString (p_RecordChecksum p)) :: members_after p.

(** [json.Marshal] of a [recordPayload], and of its [recordChecksumPayload]. *)
Definition marshal_record (p : recordPayload) : string := implode (write_object (record_members p)).
Definition checksumPayload (p : recordPayload) : string := implode (write_object (members_before p ++ members_after p)).

Definition marshalRecordPayload (p : recordPayload) : result JournalError (string * string) :=
  if negb (String.eqb (p_RecordChecksum p) "") then Err JErrorCorrupt
  else
    let encoded := marshal_record (with_checksum p (digestPayload (checksumPayload p))) in
    if (len encoded =? 0) || (MaxPayloadBytes <? len encoded) then Err JErrorCorrupt
    else Ok (encoded, digestPayload encoded).

Definition recordWire : schema :=
  [("artifact_b64url", KString); ("artifact_digest", KString); ("capability_digest", KString); ("capability_id", KString);
   ("capability_jcs_b64url", KString); ("capability_signature_b64url", KString); ("deadline", KString);
   ("journal_sequence", KUint 64); ("operation", KString); ("owned_schema_digest", KString); ("phase", KString);
   ("previous_record_digest", KPointer); ("received_at", KString); ("record_checksum", KString);
   ("schema_version", KString); ("target_ipv4", KString); ("terminal_result_digest", KPointer);
   ("terminal_result_jcs_b64url", KPointer); ("terminal_result_signature_b64url", KPointer)].

Definition wire_record (w : slots) : recordPayload :=
  MkRecordPayload (get_string w "artifact_b64url") (get_string w "artifact_digest") (get_string w "capability_digest")
    (get_string w "capability_id") (get_string w "capability_jcs_b64url") (get_string w "capability_signature_b64url")
    (get_string w "deadline") (get_uint w "journal_sequence") (get_string w "operation")
    (get_string w "owned_schema_digest") (get_string w "phase") (get_pointer w "previous_record_digest")
    (get_string w "received_at") (get_string w "record_checksum") (get_string w "schema_version")
    (get_string w "target_ipv4") (get_pointer w "terminal_result_digest") (get_pointer w "terminal_result_jcs_b64url")
    (get_pointer w "terminal_result_signature_b64url").

Definition strictPayload (data : string) : result JournalError recordPayload :=
  if (len data =? 0) || (MaxPayloadBytes <? len data) then Err JErrorCorrupt
  else
    match parse_document (chars data) with
    | None => Err JErrorCorrupt
    | Some v =>
        match decode_struct recordWire v with
        | None => Err JErrorCorrupt
        | Some w =>
            let p := wire_record w in
            if negb (String.eqb (marshal_record p) data) then Err JErrorCorrupt else Ok p
        end
    end.

(** ** Shape *)

Definition signature_field (value : string) : bool :=
  match decodeBytes value 64 with Some signature => len signature =? 64 | None => false end.

Definition bytes_field (value : string) (maximum : Z) : bool := bool_decide (is_Some (decodeBytes value maximum)).

Definition window_ok (received deadline : time) : bool :=
  After deadline received && negb (MaxDeadline <? Sub deadline received).

Definition optional_digest_ok (value : option string) : bool :=
  match value with Some d => validDigest d | None => true end.

Definition validRecordShape (p : recordPayload) (recordType sequence : Z) : bool :=
  if negb (String.eqb (p_SchemaVersion p) SchemaRecordV1) || negb (p_JournalSequence p =? sequence) || (sequence =? 0)
     || String.eqb (p_CapabilityID p) "" || String.eqb (p_TargetIPv4 p) ""
     || negb (validDigest (p_CapabilityDigest p)) || negb (validDigest (p_ArtifactDigest p))
     || negb (validDigest (p_OwnedSchemaDigest p)) || negb (validDigest (p_RecordChecksum p))
     || negb (optional_digest_ok (p_PreviousRecordDigest p))
  then false
  else if negb (String.eqb (p_Operation p) OperationAdd) && negb (String.eqb (p_Operation p) OperationRevoke)
          && negb (String.eqb (p_Operation p) OperationInspect)
  then false
  else if negb (bytes_field (p_CapabilityJCSB64URL p) MaxCapabilityBytes) then false
  else if negb (signature_field (p_CapabilitySignatureB64URL p)) then false
  else if negb (bytes_field (p_ArtifactB64URL p) MaxArtifactBytes) then false
  else
    match parseTime (p_ReceivedAt p), parseTime (p_Deadline p) with
    | Some received, Some deadline =>
        if negb (window_ok received deadline) then false
        else if String.eqb (p_Phase p) phaseStarted then
          (recordType =? recordStarted) && is_nil (p_TerminalResultDigest p) && is_nil (p_TerminalResultJCSB64URL p)
          && is_nil (p_TerminalResultSignatureB64URL p)
        else if String.eqb (p_Phase p) phaseTerminal then
          match p_PreviousRecordDigest p, p_TerminalResultDigest p, p_TerminalResultJCSB64URL p,
                p_TerminalResultSignatureB64URL p with
          | Some _, Some resultDigest, Some jcs, Some signature =>
              if negb (recordType =? recordTerminal) || negb (validDigest resultDigest) then false
              else if negb (bytes_field jcs MaxResultBytes) then false
              else signature_field signature
          | _, _, _, _ => false
          end
        else false
    | _, _ => false
    end.

Definition parseRecordPayload (data : string) (recordType sequence : Z) (previous : string)
  : result JournalError (recordPayload * string) :=
  p ← strictPayload data;
  if negb (validRecordShape p recordType sequence) then Err JErrorCorrupt
  else if negb (record_digestEqual (p_RecordChecksum p) (digestPayload (checksumPayload p))) then Err JErrorCorrupt
  else if sequence =? 1 then
    if negb (String.eqb previous "") || negb (is_nil (p_PreviousRecordDigest p)) then Err JErrorCorrupt
    else Ok (p, digestPayload data)
  else if String.eqb previous ""
          || negb match p_PreviousRecordDigest p with Some d => record_digestEqual d previous | None => false end
  then Err JErrorCorrupt
  else Ok (p, digestPayload data).

(** ** Re-authentication *)

Section verifiers.
  Context `{Ed25519} (capabilityVerifier : CapabilityVerifier) (resultVerifier : ResultVerifier).

Definition parseStartedPayload (p : recordPayload) (sequence : Z) : result JournalError startedRecord :=
  match decodeBytes (p_CapabilityJCSB64URL p) MaxCapabilityBytes, decodeBytes (p_CapabilitySignatureB64URL p) 64,
        decodeBytes (p_ArtifactB64URL p) MaxArtifactBytes with
  | Some canonical, Some signature, Some artifact =>
      if String.eqb (cv_keyID capabilityVerifier) "" then Err JErrorCorrupt
      else
        let signed := MkSignedCapability (cv_keyID capabilityVerifier) canonical signature artifact in
        match Verify capabilityVerifier signed with
        | Err _ => Err JErrorVerification
        | Ok verified =>
            let value := vc_value verified in
            if negb (String.eqb (p_CapabilityID p) (v_CapabilityID value))
               || negb (String.eqb (p_CapabilityDigest p) (vc_digest verified))
               || negb (String.eqb (p_ArtifactDigest p) (v_ArtifactDigest value))
               || negb (String.eqb (p_OwnedSchemaDigest p) (v_OwnedSchemaDigest value))
               || negb (String.eqb (p_Operation p) (v_Operation value))
               || negb (String.eqb (p_TargetIPv4 p) (v_TargetIPv4 value))
            then Err JErrorVerification
            else
              match parseTime (p_ReceivedAt p), parseTime (p_Deadline p) with
              | Some received, Some deadline =>
                  if negb (window_ok received deadline) || After deadline (v_ExpiresAt value) then Err JErrorTime
                  else Ok (MkStarted sequence signed verified received deadline None)
              | _, _ => Err JErrorTime
              end
        end
  | _, _, _ => Err JErrorCorrupt
  end.

(** [payload]'s fields repeat those of the started record. *)
Definition repeats_start (p : recordPayload) (start : startedRecord) : bool :=
  match decodeBytes (p_CapabilityJCSB64URL p) MaxCapabilityBytes, decodeBytes (p_CapabilitySignatureB64URL p) 64,
        decodeBytes (p_ArtifactB64URL p) MaxArtifactBytes with
  | Some capabilityJCS, Some capabilitySignature, Some artifact =>
      String.eqb capabilityJCS (sc_canonical (st_signed start))
      && String.eqb capabilitySignature (sc_signature (st_signed start))
      && String.eqb artifact (sc_artifact (st_signed start))
      && String.eqb (p_CapabilityID p) (v_CapabilityID (vc_value (st_verified start)))
      && String.eqb (p_CapabilityDigest p) (vc_digest (st_verified start))
      && String.eqb (p_ArtifactDigest p) (v_ArtifactDigest (vc_value (st_verified start)))
      && String.eqb (p_OwnedSchemaDigest p) (v_OwnedSchemaDigest (vc_value (st_verified start)))
      && String.eqb (p_Operation p) (v_Operation (vc_value (st_verified start)))
      && String.eqb (p_TargetIPv4 p) (v_TargetIPv4 (vc_value (st_verified start)))
      && String.eqb (p_ReceivedAt p) (formatTime (st_received start))
      && String.eqb (p_Deadline p) (formatTime (st_deadline start))
  | _, _, _ => false
  end.

(** The shape check precedes every call, so the result pointers are not nil:
    the dereferences are [default] of a value that is there. *)
Definition parseTerminalPayload (p : recordPayload) (sequence : Z) (start : startedRecord)
  : result JournalError terminalRecord :=
  if negb (repeats_start p start) then Err JErrorVerification
  else
    match decodeBytes (default "" (p_TerminalResultJCSB64URL p)) MaxResultBytes,
          decodeBytes (default "" (p_TerminalResultSignatureB64URL p)) 64 with
    | Some canonical, Some signature =>
        if String.eqb (rv_keyID resultVerifier) "" || String.eqb (rv_executorID resultVerifier) "" then Err JErrorCorrupt
        else
          let signed := MkSignedResult (rv_keyID resultVerifier) (rv_executorID resultVerifier) canonical signature in
          match VerifyResult resultVerifier signed with
          | Err _ => Err JErrorVerification
          | Ok verified =>
              match BindTo verified (st_verified start) with
              | Err _ => Err JErrorVerification
              | Ok _ =>
                  if negb (r_JournalSequence (vr_value verified) =? st_sequence start)
                     || negb (String.eqb (default "" (p_TerminalResultDigest p)) (vr_digest verified))
                  then Err JErrorVerification
                  else Ok (MkTerminal sequence signed verified)
              end
          end
    | _, _ => Err JErrorCorrupt
    end.

End verifiers.
