(* ===== verification/JournalRecordSpec.v ===== *)
(** * Journal records read back

    The payload of a started or terminal record, built from a verified
    capability and a bound result, fits the frame, and parsing and
    re-authenticating its bytes gives the record it was built from. *)

From S2P Require Import Prelude GoStrings Regex Sha256 Json Base64 GoTime ResponsePolicy Capability CapabilitySpec.
From S2P Require Import ExecResult ExecResultSpec JournalFrame JournalRecord.
Local Open Scope Z_scope.

(** Prove [Forall] of an explicit list from the facts at hand. *)
Ltac build_Forall := repeat (apply Forall_cons; split; [assumption|]); apply Forall_nil; exact I.

(** ** Text fields *)

Lemma len_nonneg s : 0 <= len s.
Proof. unfold len. lia. Qed.

Lemma encodeBytes_len s : len (encodeBytes s) = (4 * len s + 2) / 3.
Proof. apply EncodeToString_length. Qed.

Lemma encodeBytes_bounded s n m : len s <= n → (4 * n + 2) / 3 <= m → bounded (Z.to_nat m) (encodeBytes s).
Proof.
  intros Hs Hm. split; [apply EncodeToString_plain|]. pose proof (encodeBytes_len s) as Hl. rewrite len_chars in Hl.
  assert ((4 * len s + 2) / 3 <= (4 * n + 2) / 3) by (apply Z.div_le_mono; lia). lia.
Qed.

Lemma decodeBytes_encode s maximum : 0 < len s <= maximum → decodeBytes (encodeBytes s) maximum = Some s.
Proof.
  intros Hs. unfold decodeBytes. destruct (String.eqb (encodeBytes s) "") eqn:E.
  - apply String.eqb_eq in E. pose proof (encodeBytes_len s) as Hl. rewrite E in Hl. change (len "") with 0 in Hl.
    assert (1 <= (4 * len s + 2) / 3) by (apply Z.div_le_lower_bound; lia). lia.
  - unfold encodeBytes. rewrite DecodeString_EncodeToString, (proj2 (Z.eqb_neq _ _)), (proj2 (Z.ltb_ge _ _)) by lia.
    by rewrite String.eqb_refl.
Qed.

Lemma decodeBytes_Some s maximum d : decodeBytes s maximum = Some d → 0 < len d <= maximum ∧ s = encodeBytes d.
Proof.
  unfold decodeBytes. pose proof (len_nonneg d). intros Hd. repeat (case_match; [discriminate Hd|]).
  destruct (DecodeString true s) as [x|]; [|discriminate Hd]. destruct (_ || _) eqn:E in Hd; [discriminate Hd|].
  injection Hd as ->. breflect. destruct_and!. split; [lia|done].
Qed.

Lemma digest_validDigest s : is_digest s = true → validDigest s = true.
Proof.
  intros (ps & Hp & Hc)%match_string_spec. do 2 (apply Forall2_cons_inv_l in Hp as (? & ? & ? & Hp & ->)).
  apply Forall2_nil_inv_l in Hp as ->. simpl in Hc. rewrite app_nil_r in Hc.
  match goal with H : item_ok (lit _) _ |- _ => simpl in H; subst end.
  match goal with H : item_ok (exactly _ _) ?h |- _ => destruct H as [Hl Hh]; rename h into hex end.
  unfold validDigest. rewrite len_chars, <-Hc. change (chars "sha256:") with (chars digest_prefix).
  rewrite length_app, take_app_length, drop_app_length, bool_decide_eq_true_2 by done.
  rewrite (proj2 (Z.eqb_eq _ _)) by (change (len digest_prefix) with 7; simpl in *; lia). cbn [negb orb]. apply forallb_Forall.
  rewrite forallb_Forall in Hh. eapply Forall_impl; [exact Hh|]. cbv beta. apply class_incl. vm_compute. reflexivity.
Qed.

Lemma record_digestEqual_eq a b : record_digestEqual a b = true ↔ a = b.
Proof.
  unfold record_digestEqual. rewrite andb_true_iff, String.eqb_eq. split; [by intros [_ ?]|]. intros ->. by rewrite Z.eqb_refl.
Qed.

(** A time text the journal reads has 24 bytes. *)
Lemma read_digits_Some w l n r : read_digits w l = Some (n, r) → length l = (w + length r)%nat.
Proof.
  unfold read_digits. destruct (_ && _) eqn:E; [|done]. intros [= _ <-]. apply andb_true_iff in E as [E _].
  apply Nat.eqb_eq in E. rewrite length_take in E. rewrite length_drop. lia.
Qed.

Lemma read_char_Some c l r : read_char c l = Some r → length l = S (length r).
Proof. destruct l as [|x l]; simpl; [done|]. case_bool_decide; [|done]. by intros [= <-]. Qed.

Lemma parse_millis_length s t : parse_millis s = Some t → length (chars s) = 24%nat.
Proof.
  unfold parse_millis. intros Hp.
  repeat first
    [ apply bind_Some in Hp as ([? ?] & ?%read_digits_Some & Hp)
    | apply bind_Some in Hp as (? & ?%read_char_Some & Hp) ].
  repeat case_match; simplify_eq/=; lia.
Qed.

(** Times that survive being printed. *)
Definition printable (t : time) : Prop := parseTime (formatTime t) = Some t ∧ bounded 24 (formatTime t).

Lemma parseTime_printable s t : parseTime s = Some t → printable t ∧ s = formatTime t.
Proof.
  intros Hp. pose proof (parse_canonical_Some _ _ Hp) as ->. split; [|done]. split; [done|].
  split; [apply format_millis_plain|]. unfold parseTime, parse_canonical in Hp.
  apply bind_Some in Hp as (u & Hp%parse_millis_length & _). unfold formatTime. lia.
Qed.

Lemma printable_canonical t : four_digit_year t → t mod Millisecond = 0 → printable t.
Proof. intros Hy Hm. split; [by apply parse_canonical_format|by apply time_bounded]. Qed.

(** ** Printing and reading a record *)

Lemma record_decode p : 0 <= p_JournalSequence p < 2 ^ 64 →
  decode_struct recordWire (JObject (record_members p)) = Some (rev (record_members p)).
Proof.
  intros Hs. assert (parse_uint 64 (implode (chars (format_uint (p_JournalSequence p)))) = Some (p_JournalSequence p)) as Hp.
  { rewrite implode_chars. by apply parse_format_uint. }
  destruct p as [? ? ? ? ? ? ? seq ? ? ? [?|] ? ? ? ? [?|] [?|] [?|]]; cbn [p_JournalSequence] in Hp;
    cbn -[parse_uint implode chars format_uint]; rewrite Hp; reflexivity.
Qed.

Lemma record_wire p : 0 <= p_JournalSequence p < 2 ^ 64 → wire_record (rev (record_members p)) = p.
Proof.
  intros Hs. assert (parse_uint 64 (implode (chars (format_uint (p_JournalSequence p)))) = Some (p_JournalSequence p)) as Hp.
  { rewrite implode_chars. by apply parse_format_uint. }
  destruct p as [? ? ? ? ? ? ? seq ? ? ? [?|] ? ? ? ? [?|] [?|] [?|]]; cbn [p_JournalSequence] in Hp;
    unfold wire_record, get_uint, get_uint_pointer; cbn -[parse_uint implode chars format_uint]; rewrite Hp; reflexivity.
Qed.

(** The sizes a record's fields stay within. *)
Record record_bounded (p : recordPayload) : Prop := {
  rb_texts : Forall (bounded (Z.to_nat 10923)) [p_CapabilityJCSB64URL p; default "" (p_TerminalResultJCSB64URL p)];
  rb_artifact : bounded (Z.to_nat 5462) (p_ArtifactB64URL p);
  rb_signatures : Forall (bounded 86) [p_CapabilitySignatureB64URL p; default "" (p_TerminalResultSignatureB64URL p)];
  rb_digests : Forall (bounded 71)
    [p_ArtifactDigest p; p_CapabilityDigest p; p_OwnedSchemaDigest p; p_RecordChecksum p;
     default "" (p_PreviousRecordDigest p); default "" (p_TerminalResultDigest p)];
  rb_id : bounded 36 (p_CapabilityID p);
  rb_times : Forall (bounded 24) [p_ReceivedAt p; p_Deadline p];
  rb_words : Forall (bounded 26) [p_Operation p; p_Phase p; p_SchemaVersion p; p_TargetIPv4 p];
  rb_sequence : 0 <= p_JournalSequence p < 2 ^ 53
}.

Lemma pointer_member k n o : plain k → bounded n (default "" o) →
  flat (k, pointer_value o) ∧ (member_size (k, pointer_value o) ≤ length (chars k) + n + 8)%nat.
Proof.
  intros Hk Ho. destruct o as [s|]; cbn [pointer_value default] in *.
  - destruct (string_member k n s Hk Ho). split; [done|lia].
  - split; [by split|]. unfold member_size. simpl. lia.
Qed.

Lemma record_members_ok p : record_bounded p →
  Forall flat (record_members p) ∧ (sum_list (member_size <$> record_members p) ≤ Z.to_nat 32000)%nat.
Proof.
  intros [Ht Ha Hsg Hd Hid Htm Hw Hseq]. split_Forall.
  enough (∃ n, (Forall flat (record_members p) ∧ (sum_list (member_size <$> record_members p) ≤ n)%nat) ∧
    (n ≤ Z.to_nat 32000)%nat) as (n & [? ?] & ?) by (split; [done|lia]).
  unfold record_members, members_before, members_after. cbn [app]. eexists. split.
  { repeat (apply members_cons;
      [first [ apply string_member; [vm_compute; reflexivity|eassumption]
             | apply pointer_member; [vm_compute; reflexivity|eassumption]
             | apply (uint_member _ 16); [vm_compute; reflexivity|lia|lia]]|]).
    apply members_nil. }
  apply Nat.leb_le. vm_compute. reflexivity.
Qed.

Lemma marshal_record_len p : record_bounded p → 0 < len (marshal_record p) <= MaxPayloadBytes.
Proof.
  intros Hb. destruct (record_members_ok p Hb) as [Hf Hs]. pose proof (write_object_length _ Hf).
  pose proof (write_object_nonempty (record_members p)). unfold marshal_record, MaxPayloadBytes. rewrite len_implode. lia.
Qed.

Lemma strictPayload_marshal p : record_bounded p → strictPayload (marshal_record p) = Ok p.
Proof.
  intros Hb. destruct (record_members_ok p Hb) as [Hf _]. pose proof (marshal_record_len p Hb) as Hl.
  pose proof (rb_sequence _ Hb) as Hs. unfold strictPayload.
  rewrite (proj2 (Z.eqb_neq _ _)), (proj2 (Z.ltb_ge _ _)) by lia. cbn [orb].
  unfold marshal_record at 1. rewrite chars_implode, parse_write_object by done.
  rewrite record_decode by lia. cbv zeta. rewrite record_wire by lia. by rewrite String.eqb_refl.
Qed.

(** The record as it is written: with the checksum of the rest. *)
Definition sealed (p : recordPayload) : recordPayload := with_checksum p (digest (checksumPayload p)).

Lemma sealed_bounded p : record_bounded p → record_bounded (sealed p).
Proof.
  intros [Ht Ha Hsg Hd Hid Htm Hw Hseq]. split; try done. split_Forall.
  pose proof (digest_bounded _ (digest_is_digest (checksumPayload p))). build_Forall.
Qed.

Lemma marshalRecordPayload_ok p : record_bounded p → p_RecordChecksum p = "" →
  marshalRecordPayload p = Ok (marshal_record (sealed p), digest (marshal_record (sealed p))).
Proof.
  intros Hb%sealed_bounded He. pose proof (marshal_record_len _ Hb). unfold marshalRecordPayload.
  rewrite He. cbn [String.eqb negb]. cbv zeta. fold (digestPayload (checksumPayload p)) (sealed p).
  change (with_checksum p (digestPayload (checksumPayload p))) with (sealed p).
  by rewrite (proj2 (Z.eqb_neq _ _)), (proj2 (Z.ltb_ge _ _)) by lia.
Qed.

(** The place of a record in the chain. *)
Definition chained (sequence : Z) (previous : string) : Prop :=
  sequence = 1 ∧ previous = "" ∨ 1 < sequence ∧ is_digest previous = true.

Lemma chained_nonempty previous : is_digest previous = true → String.eqb previous "" = false.
Proof. intros Hd. apply String.eqb_neq. intros ->. vm_compute in Hd. discriminate Hd. Qed.

Lemma optionalDigest_bounded sequence previous : chained sequence previous → bounded 71 (default "" (optionalDigest previous)).
Proof.
  intros [[_ ->]|[_ Hd]]; [split; [vm_compute; reflexivity|vm_compute; lia]|].
  unfold optionalDigest. rewrite chained_nonempty by done. by apply digest_bounded.
Qed.

Lemma optional_digest_chained sequence previous : chained sequence previous →
  optional_digest_ok (optionalDigest previous) = true.
Proof.
  intros [[_ ->]|[_ Hd]]; [done|]. unfold optionalDigest. rewrite chained_nonempty by done. by apply digest_validDigest.
Qed.

Lemma parseRecordPayload_sealed p recordType sequence previous : record_bounded p → chained sequence previous →
  p_PreviousRecordDigest p = optionalDigest previous → validRecordShape (sealed p) recordType sequence = true →
  parseRecordPayload (marshal_record (sealed p)) recordType sequence previous =
  Ok (sealed p, digest (marshal_record (sealed p))).
Proof.
  intros Hb%sealed_bounded Hch Hprev Hshape. unfold parseRecordPayload. rewrite strictPayload_marshal by done.
  cbn [mbind result_bind]. rewrite Hshape. cbn [negb].
  assert (record_digestEqual (p_RecordChecksum (sealed p)) (digestPayload (checksumPayload (sealed p))) = true) as ->
    by by apply record_digestEqual_eq. cbn [negb].
  assert (p_PreviousRecordDigest (sealed p) = optionalDigest previous) as -> by done.
  destruct Hch as [[-> ->]|[Hseq Hd]]; [reflexivity|].
  rewrite (proj2 (Z.eqb_neq sequence 1)) by lia. unfold optionalDigest. rewrite chained_nonempty by done.
  cbn [orb]. rewrite (proj2 (record_digestEqual_eq previous previous)) by done. reflexivity.
Qed.

(** ** Started records *)

Section records.
  Context `{Ed25519} (cver : CapabilityVerifier) (rver : ResultVerifier).

Lemma Verify_sizes signed v : Verify cver signed = Ok v →
  0 < len (sc_canonical signed) <= MaxCapabilityBytes ∧ 0 < len (sc_artifact signed) <= MaxArtifactBytes ∧
  len (sc_signature signed) = 64.
Proof.
  intros Hv. unfold Verify in Hv. pass_guards Hv. pose proof (len_nonneg (sc_canonical signed)).
  pose proof (len_nonneg (sc_artifact signed)). unfold SignatureSize in *. bsplit. split_and!; lia.
Qed.

Lemma VerifyResult_sizes signed v : VerifyResult rver signed = Ok v →
  0 < len (sr_canonical signed) <= MaxResultBytes ∧ len (sr_signature signed) = 64.
Proof.
  intros Hv. unfold VerifyResult in Hv. pass_guards Hv. pose proof (len_nonneg (sr_canonical signed)).
  unfold SignatureSize in *. bsplit. split_and!; lia.
Qed.

(** What a record in the index is: its capability verifies, its window is one
    the executor may grant, and a terminal result in it verifies and binds. *)
Record started_ok (start : startedRecord) : Prop := {
  so_verified : Verify cver (st_signed start) = Ok (st_verified start);
  so_times : printable (st_received start) ∧ printable (st_deadline start);
  so_window : window_ok (st_received start) (st_deadline start) = true;
  so_expiry : st_deadline start <= v_ExpiresAt (vc_value (st_verified start));
  so_terminal : match st_terminal start with
    | Some t => VerifyResult rver (tr_signed t) = Ok (tr_verified t) ∧ BindTo (tr_verified t) (st_verified start) = Ok tt ∧
        r_JournalSequence (vr_value (tr_verified t)) = st_sequence start
    | None => True
    end
}.

Lemma bounded_mono n m s : bounded n s → (n ≤ m)%nat → bounded m s.
Proof. intros [Hp Hl] Hm. split; [done|lia]. Qed.

Lemma bounded_literal n s : forallb json_plain (chars s) && (length (chars s) <=? n)%nat = true → bounded n s.
Proof. intros [Hp Hl%Nat.leb_le]%andb_true_iff. by split. Qed.

Lemma operation_known s : s ∈ [OperationAdd; OperationRevoke; OperationInspect] →
  negb (String.eqb s OperationAdd) && negb (String.eqb s OperationRevoke) && negb (String.eqb s OperationInspect) = false.
Proof. rewrite !elem_of_cons, elem_of_nil. by intros [-> | [-> | [-> | []]]]. Qed.

(** The fields both kinds of record take from the verified capability. *)
Lemma capability_fields signed v : Verify cver signed = Ok v →
  bounded (Z.to_nat 10923) (encodeBytes (sc_canonical signed)) ∧ bounded (Z.to_nat 5462) (encodeBytes (sc_artifact signed)) ∧
  bounded 86 (encodeBytes (sc_signature signed)) ∧ bounded 36 (v_CapabilityID (vc_value v)) ∧
  bounded 26 (v_Operation (vc_value v)) ∧ bounded 26 (v_TargetIPv4 (vc_value v)) ∧
  Forall (λ s, is_digest s = true) [v_ArtifactDigest (vc_value v); vc_digest v; v_OwnedSchemaDigest (vc_value v)].
Proof.
  intros Hv. destruct (Verify_sizes _ _ Hv) as (Hc & Ha & Hs). apply Verify_ok in Hv.
  destruct (ve_digests _ _ _ Hv) as [Hd _]. destruct (ve_value _ _ _ Hv) as [_ Hop Hids _ Htg Hdig _ _ _ _ _ _].
  unfold MaxCapabilityBytes, MaxArtifactBytes in *. split_Forall. split_and!.
  - apply (encodeBytes_bounded _ 8192); [lia|]. done.
  - apply (encodeBytes_bounded _ 4096); [lia|]. done.
  - apply (encodeBytes_bounded _ 64 86); [lia|]. done.
  - by apply uuid_bounded.
  - eapply bounded_mono; [by apply operation_bounded|lia].
  - eapply bounded_mono; [by apply ipv4_bounded|lia].
  - rewrite Hd. repeat constructor; try done. apply digest_is_digest.
Qed.

(** The part of the shape check both kinds share. *)
Lemma common_shape p recordType sequence signed v received deadline previous :
  Verify cver signed = Ok v → printable received → printable deadline → window_ok received deadline = true →
  0 < sequence → chained sequence previous →
  p_SchemaVersion p = SchemaRecordV1 → p_JournalSequence p = sequence → p_CapabilityID p = v_CapabilityID (vc_value v) →
  p_TargetIPv4 p = v_TargetIPv4 (vc_value v) → p_CapabilityDigest p = vc_digest v →
  p_ArtifactDigest p = v_ArtifactDigest (vc_value v) → p_OwnedSchemaDigest p = v_OwnedSchemaDigest (vc_value v) →
  is_digest (p_RecordChecksum p) = true → p_PreviousRecordDigest p = optionalDigest previous →
  p_Operation p = v_Operation (vc_value v) → p_CapabilityJCSB64URL p = encodeBytes (sc_canonical signed) →
  p_CapabilitySignatureB64URL p = encodeBytes (sc_signature signed) → p_ArtifactB64URL p = encodeBytes (sc_artifact signed) →
  p_ReceivedAt p = formatTime received → p_Deadline p = formatTime deadline →
  validRecordShape p recordType sequence =
    if String.eqb (p_Phase p) phaseStarted then
      (recordType =? recordStarted) && is_nil (p_TerminalResultDigest p) && is_nil (p_TerminalResultJCSB64URL p)
      && is_nil (p_TerminalResultSignatureB64URL p)
    else if String.eqb (p_Phase p) phaseTerminal then
      match p_PreviousRecordDigest p, p_TerminalResultDigest p, p_TerminalResultJCSB64URL p,
            p_TerminalResultSignatureB64URL p with
      | Some _, Some resultDigest, Some jcs, Some signature =>
          if negb (recordType =? recordTerminal) || negb (validDigest resultDigest) then false
          else if negb (bytes_field jcs MaxResultBytes) then false
          else signature_field signature
      | _, _, _, _ => false
      end
    else false.
Proof.
  intros Hv [Hr _] [Hd _] Hw Hseq Hch E1 E2 E3 E4 E5 E6 E7 E8 E9 E10 E11 E12 E13 E14 E15.
  destruct (Verify_sizes _ _ Hv) as (Hc & Ha & Hs). destruct (capability_fields _ _ Hv) as (_ & _ & _ & _ & _ & _ & Hdig).
  pose proof (ve_value _ _ _ (Verify_ok _ _ _ Hv)) as [_ Hop Hids _ Htg _ _ _ _ _ _ _]. split_Forall.
  unfold validRecordShape.
  rewrite E1, E2, E3, E4, E5, E6, E7, E9, E10, E11, E12, E13, E14, E15, Hr, Hd, Hw, String.eqb_refl, Z.eqb_refl.
  rewrite (proj2 (Z.eqb_neq sequence 0)), (proj2 (String.eqb_neq (v_CapabilityID _) "")) by (lia || by intros Hx; rewrite Hx in *).
  rewrite (proj2 (String.eqb_neq (v_TargetIPv4 _) "")).
  2: { intros Hx. rewrite Hx in Htg. apply canonical_ipv4_is in Htg as [a Hx']. vm_compute in Hx'. discriminate Hx'. }
  rewrite !digest_validDigest, (optional_digest_chained _ _ Hch), operation_known by done. cbn [negb orb].
  unfold bytes_field, signature_field. rewrite !decodeBytes_encode by lia. rewrite !bool_decide_eq_true_2 by by eexists.
  by rewrite (proj2 (Z.eqb_eq _ _)) by done.
Qed.

Lemma started_bounded signed v received deadline sequence previous : Verify cver signed = Ok v →
  printable received → printable deadline → 0 < sequence < 2 ^ 53 → chained sequence previous →
  record_bounded (newStartedPayload signed v received deadline sequence previous).
Proof.
  intros Hv [_ Hr] [_ Hd] Hseq Hch. destruct (capability_fields _ _ Hv) as (H1 & H2 & H3 & H4 & H5 & H6 & Hdig).
  pose proof (optionalDigest_bounded _ _ Hch) as Hp. split_Forall.
  repeat match goal with H : is_digest _ = true |- _ => apply digest_bounded in H end.
  assert (∀ n, bounded n "") as He by (intros n; apply bounded_literal; done).
  assert (bounded 26 phaseStarted ∧ bounded 26 SchemaRecordV1) as [Hs1 Hs2] by (split; apply bounded_literal; reflexivity).
  pose proof (He (Z.to_nat 10923)). pose proof (He 86%nat). pose proof (He 71%nat).
  split; unfold newStartedPayload; cbn; try assumption; try build_Forall. lia.
Qed.

Lemma parse_started_record signed v received deadline sequence previous : Verify cver signed = Ok v →
  cv_keyID cver ≠ "" → printable received → printable deadline → window_ok received deadline = true →
  deadline <= v_ExpiresAt (vc_value v) → 0 < sequence < 2 ^ 53 → chained sequence previous →
  let p := sealed (newStartedPayload signed v received deadline sequence previous) in
  parseRecordPayload (marshal_record p) recordStarted sequence previous = Ok (p, digest (marshal_record p)) ∧
  parseStartedPayload cver p sequence = Ok (MkStarted sequence signed v received deadline None).
Proof.
  intros Hv Hk Hr Hd Hw Hex Hseq Hch p. split.
  - apply parseRecordPayload_sealed; [by apply started_bounded|done|done|].
    erewrite (common_shape _ _ _ signed v received deadline previous); try done; try lia. apply digest_is_digest.
  - destruct (Verify_sizes _ _ Hv) as (Hc & Ha & Hs). destruct (ve_key _ _ _ (Verify_ok _ _ _ Hv)) as (_ & Hkey & _).
    subst p. unfold parseStartedPayload. cbn [sealed with_checksum newStartedPayload p_CapabilityJCSB64URL
      p_CapabilitySignatureB64URL p_ArtifactB64URL p_CapabilityID p_CapabilityDigest p_ArtifactDigest p_OwnedSchemaDigest
      p_Operation p_TargetIPv4 p_ReceivedAt p_Deadline]. rewrite !decodeBytes_encode by lia.
    rewrite (proj2 (String.eqb_neq _ _)) by done. rewrite <-Hkey. cbv zeta.
    assert (MkSignedCapability (sc_keyID signed) (sc_canonical signed) (sc_signature signed) (sc_artifact signed) = signed)
      as -> by by destruct signed.
    rewrite Hv, !String.eqb_refl. cbn [negb orb]. destruct Hr as [-> _], Hd as [-> _]. rewrite Hw. cbn [negb orb].
    unfold After. by rewrite (proj2 (Z.ltb_ge _ _)) by lia.
Qed.

(** ** Terminal records *)

Lemma terminal_bounded start signed v sequence previous : started_ok start → VerifyResult rver signed = Ok v →
  0 < sequence < 2 ^ 53 → chained sequence previous → record_bounded (newTerminalPayload start signed v sequence previous).
Proof.
  intros [Hv [[_ Hr] [_ Hd]] _ _ _] Hres Hseq Hch.
  destruct (capability_fields _ _ Hv) as (H1 & H2 & H3 & H4 & H5 & H6 & Hdig).
  pose proof (optionalDigest_bounded _ _ Hch) as Hp. split_Forall. destruct (VerifyResult_sizes _ _ Hres) as [Hc Hs].
  apply VerifyResult_ok in Hres as (_ & _ & _ & _ & _ & _ & _ & _ & Hvd).
  assert (is_digest (vr_digest v) = true) by (rewrite Hvd; apply digest_is_digest).
  repeat match goal with H : is_digest _ = true |- _ => apply digest_bounded in H end.
  assert (bounded 71 "") by by apply bounded_literal.
  assert (bounded 26 phaseTerminal ∧ bounded 26 SchemaRecordV1) as [Hs1 Hs2] by (split; apply bounded_literal; reflexivity).
  assert (bounded (Z.to_nat 10923) (encodeBytes (sr_canonical signed))).
  { apply (encodeBytes_bounded _ 8192); [unfold MaxResultBytes in *; lia|done]. }
  assert (bounded 86 (encodeBytes (sr_signature signed))) by (apply (encodeBytes_bounded _ 64 86); [lia|done]).
  split; unfold newTerminalPayload; cbn -[Z.to_nat]; try assumption; try build_Forall. lia.
Qed.

Lemma parse_terminal_record start signed v sequence previous : started_ok start → VerifyResult rver signed = Ok v →
  BindTo v (st_verified start) = Ok tt → r_JournalSequence (vr_value v) = st_sequence start →
  rv_keyID rver ≠ "" → rv_executorID rver ≠ "" → 1 < sequence < 2 ^ 53 → chained sequence previous →
  let p := sealed (newTerminalPayload start signed v sequence previous) in
  parseRecordPayload (marshal_record p) recordTerminal sequence previous = Ok (p, digest (marshal_record p)) ∧
  p_CapabilityID p = v_CapabilityID (vc_value (st_verified start)) ∧
  parseTerminalPayload rver p sequence start = Ok (MkTerminal sequence signed v).
Proof.
  intros Hst Hres Hb Hjs Hk Hx Hseq Hch p. pose proof Hst as [Hv [Hr Hd] Hw _ _].
  destruct (VerifyResult_sizes _ _ Hres) as [Hrc Hrs]. pose proof (VerifyResult_ok _ _ _ Hres) as (_ & _ & _ & Hkey & Hexec & _ & _ & _ & Hvd).
  split; [|split; [done|]].
  - apply parseRecordPayload_sealed; [apply terminal_bounded; try done; lia|done|done|].
    erewrite (common_shape _ _ _ (st_signed start) (st_verified start) (st_received start) (st_deadline start) previous); try done; try lia.
    2: apply digest_is_digest.
    cbn [sealed with_checksum newTerminalPayload p_Phase p_PreviousRecordDigest p_TerminalResultDigest p_TerminalResultJCSB64URL
      p_TerminalResultSignatureB64URL].
    change (String.eqb phaseTerminal phaseStarted) with false. change (String.eqb phaseTerminal phaseTerminal) with true.
    destruct Hch as [[-> _]|[_ Hpd]]; [lia|]. unfold optionalDigest. rewrite chained_nonempty by done. cbv iota.
    rewrite digest_validDigest by (rewrite Hvd; apply digest_is_digest). cbn [negb orb Z.eqb recordTerminal Pos.eqb].
    unfold bytes_field, signature_field. rewrite !decodeBytes_encode by lia. rewrite bool_decide_eq_true_2 by by eexists.
    cbn [negb]. by apply Z.eqb_eq.
  - destruct (Verify_sizes _ _ Hv) as (Hc & Ha & Hs). subst p. unfold parseTerminalPayload, repeats_start.
    cbn [sealed with_checksum newTerminalPayload p_CapabilityJCSB64URL p_CapabilitySignatureB64URL p_ArtifactB64URL
      p_CapabilityID p_CapabilityDigest p_ArtifactDigest p_OwnedSchemaDigest p_Operation p_TargetIPv4 p_ReceivedAt p_Deadline
      p_TerminalResultDigest p_TerminalResultJCSB64URL p_TerminalResultSignatureB64URL default from_option id].
    unfold id. rewrite !decodeBytes_encode by lia. rewrite !String.eqb_refl. cbn [andb negb].
    rewrite !(proj2 (String.eqb_neq _ "")) by done. cbn [orb]. cbv zeta. rewrite <-Hkey, <-Hexec.
    assert (MkSignedResult (sr_keyID signed) (sr_executorID signed) (sr_canonical signed) (sr_signature signed) = signed)
      as -> by by destruct signed.
    rewrite Hres, Hb, Hjs, Z.eqb_refl, String.eqb_refl. reflexivity.
Qed.

(** ** Soundness of re-authentication *)

Lemma parseStartedPayload_ok p sequence start : parseStartedPayload cver p sequence = Ok start →
  started_ok start ∧ st_sequence start = sequence ∧ st_terminal start = None ∧
  v_CapabilityID (vc_value (st_verified start)) = p_CapabilityID p.
Proof.
  unfold parseStartedPayload. intros Hp.
  destruct (decodeBytes (p_CapabilityJCSB64URL p) _) as [canonical|]; [|discriminate Hp].
  destruct (decodeBytes (p_CapabilitySignatureB64URL p) _) as [signature|]; [|discriminate Hp].
  destruct (decodeBytes (p_ArtifactB64URL p) _) as [artifact|]; [|discriminate Hp]. pass_guards Hp. cbv zeta in Hp.
  destruct (Verify cver _) as [v|] eqn:Hv in Hp; [|discriminate Hp]. pass_guards Hp.
  destruct (parseTime (p_ReceivedAt p)) as [r|] eqn:Hr; [|discriminate Hp].
  destruct (parseTime (p_Deadline p)) as [d|] eqn:Hd; [|discriminate Hp]. pass_guards Hp.
  apply (f_equal (from_ok start)) in Hp. cbn [from_ok] in Hp. subst start.
  apply parseTime_printable in Hr as [Hr _], Hd as [Hd _].
  repeat match goal with H : _ || _ = false |- _ => apply orb_false_iff in H as [? ?] end.
  repeat match goal with H : negb _ = false |- _ => rewrite negb_false_iff in H end. unfold After in *. breflect.
  split; [|done]. split; cbn; try done.
Qed.

Lemma parseTerminalPayload_ok p sequence start t : started_ok start → parseTerminalPayload rver p sequence start = Ok t →
  tr_sequence t = sequence ∧ p_CapabilityID p = v_CapabilityID (vc_value (st_verified start)) ∧
  VerifyResult rver (tr_signed t) = Ok (tr_verified t) ∧ BindTo (tr_verified t) (st_verified start) = Ok tt ∧
  r_JournalSequence (vr_value (tr_verified t)) = st_sequence start.
Proof.
  unfold parseTerminalPayload. intros Hst Hp. pass_guards Hp. rewrite negb_false_iff in *.
  match goal with H : repeats_start _ _ = true |- _ => unfold repeats_start in H; rename H into Hrep end.
  destruct (decodeBytes (p_CapabilityJCSB64URL p) _); [|discriminate Hrep].
  destruct (decodeBytes (p_CapabilitySignatureB64URL p) _); [|discriminate Hrep].
  destruct (decodeBytes (p_ArtifactB64URL p) _); [|discriminate Hrep].
  destruct (decodeBytes (default "" (p_TerminalResultJCSB64URL p)) _) as [canonical|]; [|discriminate Hp].
  destruct (decodeBytes (default "" (p_TerminalResultSignatureB64URL p)) _) as [signature|]; [|discriminate Hp].
  pass_guards Hp. cbv zeta in Hp. destruct (VerifyResult rver _) as [v|] eqn:Hv in Hp; [|discriminate Hp].
  destruct (BindTo v (st_verified start)) as [[]|] eqn:Hb; [|discriminate Hp]. pass_guards Hp.
  apply (f_equal (from_ok t)) in Hp. cbn [from_ok] in Hp. subst t. cbn [tr_sequence tr_signed tr_verified]. bsplit. done.
Qed.

End records.
