(* ===== verification/Journal.v ===== *)
(** * The executor's replay journal ([internal/enforcement/journal])

    Models [journal.go], [types.go] and [validation.go]: an append-only file of
    frames and the index the executor keeps of it.  The file is a list of
    bytes.  What the operating system answers during one append is an argument
    ([append_io]); opening the path, its permission checks and the locks are
    outside the model, so [Open] starts from the file's bytes.  The verifiers,
    fixed when the journal is opened, are parameters.  A Go method that changes
    the journal returns the new journal and its result. *)

From S2P Require Import Prelude GoSort GoStrings Sha256 GoTime Capability ExecResult JournalFrame JournalRecord.
Local Open Scope Z_scope.

Definition MaxJournalBytes : Z := 64 * 1024 * 1024.

Record Journal := MkJournal {
  j_file : list Z;
  j_entries : gmap string startedRecord;
  j_nextSequence : Z;
  j_lastRecordDigest : string;
  j_size : Z;
  j_closed : bool;
  j_poisoned : bool
}.

(** ** Outcomes ([types.go]) *)

Inductive LookupState := StateUnseen | StateNewStarted | StateStartedOnly | StateTerminal.

Record StartedSnapshot := MkStartedSnapshot {
  ss_Sequence : Z;
  ss_CapabilityID : string;
  ss_CapabilityDigest : string;
  ss_ArtifactDigest : string;
  ss_Operation : string;
  ss_ActionID : string;
  ss_TargetIPv4 : string;
  ss_ReceivedAt : time;
  ss_DeadlineAt : time
}.

Definition zero_started : StartedSnapshot := MkStartedSnapshot 0 "" "" "" "" "" "" 0 0.

Record TerminalSnapshot := MkTerminalSnapshot {
  ts_sequence : Z;
  ts_startedSequence : Z;
  ts_resultDigest : string;
  ts_signed : SignedResult
}.

Record Permit := MkPermit { pm_verified : VerifiedCapability; pm_deadline : time; pm_used : bool }.

Record Recovery := MkRecovery { rc_verified : VerifiedCapability }.

Record Outcome := MkOutcome {
  o_state : LookupState;
  o_started : StartedSnapshot;
  o_terminal : option TerminalSnapshot;
  o_permit : option Permit;
  o_recovery : option Recovery
}.

Definition snapshotStarted (start : startedRecord) : StartedSnapshot :=
  let value := vc_value (st_verified start) in
  MkStartedSnapshot (st_sequence start) (v_CapabilityID value) (vc_digest (st_verified start)) (v_ArtifactDigest value)
    (v_Operation value) (v_ActionID value) (v_TargetIPv4 value) (st_received start) (st_deadline start).

Definition snapshotTerminal (startSequence : Z) (terminal : terminalRecord) : TerminalSnapshot :=
  MkTerminalSnapshot (tr_sequence terminal) startSequence (vr_digest (tr_verified terminal)) (tr_signed terminal).

Definition existingOutcome (start : startedRecord) : Outcome :=
  match st_terminal start with
  | Some terminal =>
      MkOutcome StateTerminal (snapshotStarted start) (Some (snapshotTerminal (st_sequence start) terminal)) None None
  | None => MkOutcome StateStartedOnly (snapshotStarted start) None None (Some (MkRecovery (st_verified start)))
  end.

(** ** Permits: a permit's [used] flag is the only state the [Take] methods
    change; the compare-and-swap makes each call one step. *)

Definition checkAndUse (p : Permit) (now : time) : Permit * result JournalError unit :=
  if negb (Before now (pm_deadline p)) then (p, Err JErrorFreshness)
  else if pm_used p then (p, Err JErrorPermitUsed)
  else (MkPermit (pm_verified p) (pm_deadline p) true, Ok tt).

(** [TakeAddAt], [TakeRevokeAt] and [TakeInspectAt] differ in the operation. *)
Definition take_at (operation : string) (p : Permit) (now : time) : Permit * result JournalError VerifiedCapability :=
  if negb (String.eqb (v_Operation (vc_value (pm_verified p))) operation) then (p, Err JErrorOperation)
  else
    match checkAndUse p now with
    | (p', Err e) => (p', Err e)
    | (p', Ok _) => (p', map_err (λ _, JErrorFreshness) (execute_at operation (pm_verified p') now))
    end.

Definition TakeAddAt : Permit → time → Permit * result JournalError VerifiedCapability := take_at OperationAdd.
Definition TakeRevokeAt : Permit → time → Permit * result JournalError VerifiedCapability := take_at OperationRevoke.
Definition TakeInspectAt : Permit → time → Permit * result JournalError VerifiedCapability := take_at OperationInspect.

(** The error of a result signature is either the journal's or the signer's. *)
Inductive SignError := JournalRefused (e : JournalError) | SignerRefused (e : CapErrorCode).

Definition permit_SignResult `{Ed25519} (p : Permit) (signer : ResultSigner) (checked : CheckedResult)
  : result SignError SignedResult := map_err SignerRefused (SignFor signer (pm_verified p) checked).

Definition not_invoked (exit : option string) : bool :=
  match exit with Some e => String.eqb e NFTExitNotInvoked | None => true end.

Definition recovery_SignResult `{Ed25519} (r : Recovery) (signer : ResultSigner) (checked : CheckedResult)
  : result SignError SignedResult :=
  let value := cr_value checked in
  let operation := v_Operation (vc_value (rc_verified r)) in
  let sign := map_err SignerRefused (SignFor signer (rc_verified r) checked) in
  if String.eqb operation OperationAdd then
    if negb (one_of (r_Classification value)
               [ClassificationRecoveredActive; ClassificationFailed; ClassificationIndeterminate])
    then Err (JournalRefused JErrorOperation)
    else if negb (not_invoked (r_NFTExitClass value)) then Err (JournalRefused JErrorOperation)
    else sign
  else if String.eqb operation OperationRevoke then
    if negb (one_of (r_Classification value) [ClassificationRevoked; ClassificationFailed; ClassificationIndeterminate])
    then Err (JournalRefused JErrorOperation)
    else if negb (not_invoked (r_NFTExitClass value)) then Err (JournalRefused JErrorOperation)
    else sign
  else if String.eqb operation OperationInspect then sign
  else Err (JournalRefused JErrorOperation).

Definition canonicalTime (value : time) : bool :=
  negb (IsZero value) && (1 <=? Year value) && (Year value <=? 9999) && (NanosecondOf value mod Millisecond =? 0).

(** ** Scanning *)

(** [ReadAt]: the bytes are there, or the read comes back short. *)
Definition ReadAt (file : list Z) (offset n : nat) : option (list Z) :=
  let data := take n (drop offset file) in
  if (length data =? n)%nat then Some data else None.

Definition text_of_bytes (l : list Z) : string := implode (map chr l).

Section journal.
  Context `{Ed25519} (capabilityVerifier : CapabilityVerifier) (resultVerifier : ResultVerifier).

Definition set_terminal (start : startedRecord) (terminal : terminalRecord) : startedRecord :=
  MkStarted (st_sequence start) (st_signed start) (st_verified start) (st_received start) (st_deadline start)
    (Some terminal).

Definition indexFrame (entries : gmap string startedRecord) (frame : decodedFrame) (payload : recordPayload)
  : result JournalError (gmap string startedRecord) :=
  if df_recordType frame =? recordStarted then
    started ← parseStartedPayload capabilityVerifier payload (df_sequence frame);
    let identifier := v_CapabilityID (vc_value (st_verified started)) in
    match entries !! identifier with
    | Some _ => Err JErrorConflict
    | None => Ok (<[identifier := started]> entries)
    end
  else if df_recordType frame =? recordTerminal then
    match entries !! p_CapabilityID payload with
    | None => Err JErrorMissingStart
    | Some start =>
        match st_terminal start with
        | Some _ => Err JErrorDuplicateTerminal
        | None =>
            terminal ← parseTerminalPayload resultVerifier payload (df_sequence frame) start;
            Ok (<[p_CapabilityID payload := set_terminal start terminal]> entries)
        end
    end
  else Err JErrorVersion.

(** What a scan has built so far: the index, the expected sequence number and
    the digest of the previous record. *)
Record scanned := MkScanned { sn_entries : gmap string startedRecord; sn_sequence : Z; sn_previous : string }.

Definition scan_start : scanned := MkScanned ∅ 1 "".

(** Decode one frame, check its place in the chain and index it. *)
Definition process_frame (s : scanned) (frame : list Z) : result JournalError scanned :=
  decoded ← decodeFrame frame;
  if negb (df_sequence decoded =? sn_sequence s) then Err JErrorSequence
  else
    '(payload, recordDigest) ← parseRecordPayload (text_of_bytes (df_payload decoded)) (df_recordType decoded)
                                 (df_sequence decoded) (sn_previous s);
    entries ← indexFrame (sn_entries s) decoded payload;
    Ok (MkScanned entries (u64 (sn_sequence s + 1)) recordDigest).

(** The loop of [scan].  A round consumes at least a frame header, so the size
    of the file is enough fuel. *)
Fixpoint scan_loop (fuel : nat) (file : list Z) (size offset : nat) (s : scanned) : result JournalError scanned :=
  match fuel with
  | O => if (offset <? size)%nat then Err JErrorIO else if negb (offset =? size)%nat then Err JErrorCorrupt else Ok s
  | S fuel =>
      if (offset <? size)%nat then
        let remaining := (size - offset)%nat in
        if (remaining <? frameHeaderBytes + checksumBytes)%nat then Err JErrorCorrupt
        else
          match ReadAt file offset frameHeaderBytes with
          | None => Err JErrorIO
          | Some header =>
              let payloadLength := be_value (slice header 20 24) in
              if (payloadLength =? 0) || (MaxPayloadBytes <? payloadLength) then Err JErrorCorrupt
              else
                let length' := (frameHeaderBytes + Z.to_nat payloadLength + checksumBytes)%nat in
                if (remaining <? length')%nat || (MaxFrameBytes <? Z.of_nat length') then Err JErrorCorrupt
                else
                  match ReadAt file offset length' with
                  | None => Err JErrorIO
                  | Some frame =>
                      s' ← process_frame s frame;
                      scan_loop fuel file size (offset + length') s'
                  end
          end
      else if negb (offset =? size)%nat then Err JErrorCorrupt
      else Ok s
  end.

Definition scan (file : list Z) : result JournalError scanned :=
  scan_loop (length file) file (length file) 0 scan_start.

(** [Open], from the bytes of the locked file. *)
Definition Open (file : list Z) : result JournalError Journal :=
  if String.eqb (cv_keyID capabilityVerifier) "" || String.eqb (rv_keyID resultVerifier) ""
     || String.eqb (rv_executorID resultVerifier) ""
  then Err JErrorVerification
  else if MaxJournalBytes <? Z.of_nat (length file) then Err JErrorTooLarge
  else
    s ← scan file;
    Ok (MkJournal file (sn_entries s) (sn_sequence s) (sn_previous s) (Z.of_nat (length file)) false false).

(** ** Appending *)

(** The answers of the operating system to one append: whether the file and
    the directory pass their checks, how many bytes [Write] stored ([None]: the
    whole frame), and whether the two [fsync] calls succeeded. *)
Record append_io := MkAppendIO {
  io_file : bool;
  io_directory : bool;
  io_written : option nat;
  io_writeErr : bool;
  io_syncFile : bool;
  io_syncDirectory : bool
}.

Definition all_well : append_io := MkAppendIO true true None false true true.

Definition poison (j : Journal) (file : list Z) : Journal :=
  MkJournal file (j_entries j) (j_nextSequence j) (j_lastRecordDigest j) (j_size j) (j_closed j) true.

Definition appendLocked (io : append_io) (j : Journal) (frame : list Z) : Journal * result JournalError unit :=
  if negb (io_file io) || negb (Z.of_nat (length (j_file j)) =? j_size j) then (poison j (j_file j), Err JErrorUnsafeFile)
  else if negb (io_directory io) then (poison j (j_file j), Err JErrorUnsafeDirectory)
  else if MaxJournalBytes - j_size j <? Z.of_nat (length frame) then (j, Err JErrorTooLarge)
  else
    let written := default (length frame) (io_written io) in
    let file := j_file j ++ take written frame in
    if io_writeErr io || negb (written =? length frame)%nat then (poison j file, Err JErrorIO)
    else if negb (io_syncFile io) then (poison j file, Err JErrorSync)
    else if negb (io_syncDirectory io) then (poison j file, Err JErrorSync)
    else (MkJournal file (j_entries j) (j_nextSequence j) (j_lastRecordDigest j)
            (j_size j + Z.of_nat (length frame)) (j_closed j) (j_poisoned j), Ok tt).

Definition readyLocked (j : Journal) : result JournalError unit :=
  if j_closed j || j_poisoned j then Err JErrorUnhealthy else Ok tt.

(** ** Lookup and begin *)

Definition sameCapability (start : startedRecord) (signed : SignedCapability) (verified : VerifiedCapability) : bool :=
  String.eqb (vc_digest (st_verified start)) (vc_digest verified)
  && String.eqb (vc_keyID (st_verified start)) (vc_keyID verified)
  && String.eqb (vc_executorID (st_verified start)) (vc_executorID verified)
  && String.eqb (sc_keyID (st_signed start)) (sc_keyID signed)
  && String.eqb (sc_canonical (st_signed start)) (sc_canonical signed)
  && String.eqb (sc_signature (st_signed start)) (sc_signature signed)
  && String.eqb (sc_artifact (st_signed start)) (sc_artifact signed).

Definition sameResult (existing : terminalRecord) (signed : SignedResult) (verified : VerifiedResult) : bool :=
  String.eqb (vr_digest (tr_verified existing)) (vr_digest verified)
  && String.eqb (sr_keyID (tr_signed existing)) (sr_keyID signed)
  && String.eqb (sr_executorID (tr_signed existing)) (sr_executorID signed)
  && String.eqb (sr_canonical (tr_signed existing)) (sr_canonical signed)
  && String.eqb (sr_signature (tr_signed existing)) (sr_signature signed).

Definition Lookup (j : Journal) (signed : SignedCapability) : result JournalError Outcome :=
  match Verify capabilityVerifier signed with
  | Err _ => Err JErrorVerification
  | Ok verified =>
      _ ← readyLocked j;
      match j_entries j !! v_CapabilityID (vc_value verified) with
      | None => Ok (MkOutcome StateUnseen zero_started None None None)
      | Some start =>
          if negb (sameCapability start signed verified) then Err JErrorConflict else Ok (existingOutcome start)
      end
  end.

Definition journal_checkFresh (verified : VerifiedCapability) (at_ : time) : result JournalError unit :=
  let operation := v_Operation (vc_value verified) in
  let released :=
    if String.eqb operation OperationAdd then Some (AddAt verified at_)
    else if String.eqb operation OperationRevoke then Some (RevokeAt verified at_)
    else if String.eqb operation OperationInspect then Some (InspectAt verified at_)
    else None in
  match released with
  | None => Err JErrorOperation
  | Some (Err _) => Err JErrorFreshness
  | Some (Ok _) => Ok tt
  end.

(** Append a frame and, when it is durable, update the index. *)
Definition commit (io : append_io) (j : Journal) (frame : list Z) (recordDigest : string)
    (entries : gmap string startedRecord) : Journal * result JournalError unit :=
  match appendLocked io j frame with
  | (j', Err e) => (j', Err e)
  | (j', Ok _) =>
      (MkJournal (j_file j') entries (u64 (j_nextSequence j' + 1)) recordDigest (j_size j') (j_closed j') (j_poisoned j'),
       Ok tt)
  end.

Definition Begin (io : append_io) (j : Journal) (signed : SignedCapability) (receivedAt deadlineAt : time)
  : Journal * result JournalError Outcome :=
  match Verify capabilityVerifier signed with
  | Err _ => (j, Err JErrorVerification)
  | Ok verified =>
      match readyLocked j with
      | Err e => (j, Err e)
      | Ok _ =>
          let identifier := v_CapabilityID (vc_value verified) in
          match j_entries j !! identifier with
          | Some start =>
              if negb (sameCapability start signed verified) then (j, Err JErrorConflict)
              else (j, Ok (existingOutcome start))
          | None =>
              if negb (canonicalTime receivedAt) || negb (canonicalTime deadlineAt)
                 || negb (window_ok receivedAt deadlineAt) || After deadlineAt (v_ExpiresAt (vc_value verified))
              then (j, Err JErrorTime)
              else
                let sequence := j_nextSequence j in
                let prepared :=
                  _ ← journal_checkFresh verified receivedAt;
                  '(payload, recordDigest) ← marshalRecordPayload
                     (newStartedPayload signed verified receivedAt deadlineAt sequence (j_lastRecordDigest j));
                  frame ← encodeFrame recordStarted sequence (bytes_of payload);
                  Ok (frame, recordDigest) in
                match prepared with
                | Err e => (j, Err e)
                | Ok (frame, recordDigest) =>
                    let start := MkStarted sequence signed verified receivedAt deadlineAt None in
                    let '(j', r) := commit io j frame recordDigest (<[identifier := start]> (j_entries j)) in
                    (j', _ ← r; Ok (MkOutcome StateNewStarted (snapshotStarted start) None
                                      (Some (MkPermit verified deadlineAt false)) None))
                end
          end
      end
  end.

(** ** Complete and close *)

Definition Complete (io : append_io) (j : Journal) (signed : SignedResult)
  : Journal * result JournalError (TerminalSnapshot * bool) :=
  match VerifyResult resultVerifier signed with
  | Err _ => (j, Err JErrorVerification)
  | Ok verified =>
      match readyLocked j with
      | Err e => (j, Err e)
      | Ok _ =>
          let value := vr_value verified in
          match j_entries j !! r_CapabilityID value with
          | None => (j, Err JErrorMissingStart)
          | Some start =>
              if negb (is_ok (BindTo verified (st_verified start))) || negb (r_JournalSequence value =? st_sequence start)
              then (j, Err JErrorVerification)
              else
                match st_terminal start with
                | Some terminal =>
                    if negb (sameResult terminal signed verified) then (j, Err JErrorDuplicateTerminal)
                    else (j, Ok (snapshotTerminal (st_sequence start) terminal, false))
                | None =>
                    let sequence := j_nextSequence j in
                    let prepared :=
                      '(payload, recordDigest) ← marshalRecordPayload
                         (newTerminalPayload start signed verified sequence (j_lastRecordDigest j));
                      frame ← encodeFrame recordTerminal sequence (bytes_of payload);
                      Ok (frame, recordDigest) in
                    match prepared with
                    | Err e => (j, Err e)
                    | Ok (frame, recordDigest) =>
                        let terminal := MkTerminal sequence signed verified in
                        let '(j', r) := commit io j frame recordDigest
                                          (<[r_CapabilityID value := set_terminal start terminal]> (j_entries j)) in
                        (j', _ ← r; Ok (snapshotTerminal (st_sequence start) terminal, true))
                    end
                end
          end
      end
  end.

(** [closed] is set whatever the three [Close] calls answer. *)
Definition Close (closes : bool) (j : Journal) : Journal * result JournalError unit :=
  if j_closed j then (j, Ok tt)
  else (MkJournal (j_file j) (j_entries j) (j_nextSequence j) (j_lastRecordDigest j) (j_size j) true (j_poisoned j),
        if closes then Ok tt else Err JErrorIO).

(** ** Offline validation ([validation.go]) *)

Record ValidationEntry := MkValidationEntry {
  ve_CapabilityID : string;
  ve_CapabilityDigest : string;
  ve_ArtifactDigest : string;
  ve_StartedSequence : Z;
  ve_Terminal : bool;
  ve_TerminalSequence : Z;
  ve_ResultDigest : string
}.

Record ValidationSummary := MkValidationSummary { vs_Entries : list ValidationEntry; vs_LastSequence : Z }.

Definition validation_entry (started : startedRecord) : ValidationEntry :=
  let value := vc_value (st_verified started) in
  match st_terminal started with
  | None =>
      MkValidationEntry (v_CapabilityID value) (vc_digest (st_verified started)) (v_ArtifactDigest value)
        (st_sequence started) false 0 ""
  | Some terminal =>
      MkValidationEntry (v_CapabilityID value) (vc_digest (st_verified started)) (v_ArtifactDigest value)
        (st_sequence started) true (tr_sequence terminal) (vr_digest (tr_verified terminal))
  end.

(** The loop of [ValidateBytes] walks the bytes that are left. *)
Fixpoint validate_loop (fuel : nat) (contents : list Z) (s : scanned) : result JournalError scanned :=
  match fuel, contents with
  | _, [] => Ok s
  | O, _ :: _ => Err JErrorIO
  | S fuel, _ :: _ =>
      if (length contents <? frameHeaderBytes + checksumBytes)%nat then Err JErrorCorrupt
      else
        let payloadLength := be_value (slice contents 20 24) in
        if (payloadLength =? 0) || (MaxPayloadBytes <? payloadLength) then Err JErrorCorrupt
        else
          let length' := (frameHeaderBytes + Z.to_nat payloadLength + checksumBytes)%nat in
          if (length contents <? length')%nat || (MaxFrameBytes <? Z.of_nat length') then Err JErrorCorrupt
          else
            s' ← process_frame s (take length' contents);
            validate_loop fuel (drop length' contents) s'
  end.

Definition ValidateBytes (contents : list Z) : result JournalError ValidationSummary :=
  if String.eqb (cv_keyID capabilityVerifier) "" || String.eqb (rv_keyID resultVerifier) ""
     || String.eqb (rv_executorID resultVerifier) ""
  then Err JErrorVerification
  else if MaxJournalBytes <? Z.of_nat (length contents) then Err JErrorTooLarge
  else
    s ← validate_loop (length contents) contents scan_start;
    Ok (MkValidationSummary
          (sort_slice (cmp_on ve_StartedSequence Z.compare) (validation_entry <$> (map_to_list (sn_entries s)).*2))
          (sn_sequence s - 1)).

End journal.
