(* ===== verification/JournalSpec.v ===== *)
(** * Correctness of the replay journal

    The file and the index always agree: scanning the synced bytes rebuilds the
    index exactly, whatever the operating system answered in between; a torn
    write makes the next start fail closed; and over any history of requests,
    crashes and restarts an execution is released at most once per
    capability. *)

From S2P Require Import Prelude GoSort GoStrings Sha256 Json GoTime Capability CapabilitySpec ExecResult ExecResultSpec.
From S2P Require Import JournalFrame JournalRecord JournalRecordSpec Journal.
Local Open Scope Z_scope.

(** ** Bytes and frames *)

Lemma text_of_bytes_of s : text_of_bytes (bytes_of s) = s.
Proof.
  unfold text_of_bytes, bytes_of. change (code <$> chars s) with (map code (chars s)). rewrite map_map.
  rewrite <-(implode_chars s) at 2. f_equal. rewrite <-(map_id (chars s)) at 2. apply map_ext, chr_code.
Qed.

Lemma bytes_of_length s : Z.of_nat (length (bytes_of s)) = len s.
Proof. unfold bytes_of. by rewrite length_fmap, len_chars. Qed.

(** A complete frame announces its own length. *)
Lemma frame_announces t q p rest : valid_frame_fields t q p →
  be_value (slice (frame_of t q p ++ rest) 20 24) = Z.of_nat (length p).
Proof.
  intros (_ & _ & _ & Hl). unfold frame_of.
  pose proof (header_fields t q (Z.of_nat (length p)) (p ++ sha256 (frame_header t q (Z.of_nat (length p)) ++ p) ++ rest)) as Hh.
  cbv zeta in Hh. rewrite <-!app_assoc. destruct Hh as (_ & _ & _ & _ & _ & _ & ->).
  apply be_value_bytes. by apply max_payload_word.
Qed.

Lemma frame_length_bounds t q p : valid_frame_fields t q p →
  (frameHeaderBytes + checksumBytes < length (frame_of t q p))%nat ∧ Z.of_nat (length (frame_of t q p)) <= MaxFrameBytes.
Proof.
  intros (_ & _ & Hp & Hl). rewrite frame_of_length. assert (length p ≠ 0%nat) by by destruct p.
  unfold MaxFrameBytes. split; lia.
Qed.

Section scanning.
  Context `{Ed25519} (cver : CapabilityVerifier) (rver : ResultVerifier).

Local Abbreviation process := (process_frame cver rver).
Local Abbreviation validate_loop := (validate_loop cver rver).

(** ** The scan as a fold over the bytes that are left *)

(** Enough fuel, whatever it is. *)
Lemma validate_fuel fuel fuel' contents s : (length contents ≤ fuel)%nat → (length contents ≤ fuel')%nat →
  validate_loop fuel contents s = validate_loop fuel' contents s.
Proof.
  revert fuel' contents s. induction fuel as [|fuel IH]; intros fuel' contents s Hf Hf'.
  - destruct contents; [|simpl in Hf; lia]. by destruct fuel'.
  - destruct contents as [|b contents]; [by destruct fuel'|]. destruct fuel' as [|fuel']; [simpl in Hf'; lia|].
    cbn [Journal.validate_loop]. set (l := b :: contents) in *. cbv zeta.
    destruct (_ <? _)%nat; [done|]. destruct (_ || _); [done|]. destruct (_ || _); [done|].
    destruct (process s _) as [s'|]; [|done]. cbn [mbind result_bind].
    assert (length (drop (frameHeaderBytes + Z.to_nat (be_value (slice l 20 24)) + checksumBytes) l) < length l)%nat.
    { rewrite length_drop. unfold frameHeaderBytes. subst l. cbn [length] in *. lia. }
    apply IH; lia.
Qed.

Definition validate (contents : list Z) (s : scanned) : result JournalError scanned :=
  validate_loop (length contents) contents s.

Lemma validate_nil s : validate [] s = Ok s.
Proof. done. Qed.

(** One round of the loop. *)
Lemma validate_unfold contents s : contents ≠ [] → validate contents s =
  if (length contents <? frameHeaderBytes + checksumBytes)%nat then Err JErrorCorrupt
  else
    let payloadLength := be_value (slice contents 20 24) in
    if (payloadLength =? 0) || (MaxPayloadBytes <? payloadLength) then Err JErrorCorrupt
    else
      let length' := (frameHeaderBytes + Z.to_nat payloadLength + checksumBytes)%nat in
      if (length contents <? length')%nat || (MaxFrameBytes <? Z.of_nat length') then Err JErrorCorrupt
      else s' ← process s (take length' contents); validate (drop length' contents) s'.
Proof.
  intros Hne. destruct contents as [|b contents]; [done|]. unfold validate. cbn [length Journal.validate_loop].
  set (l := b :: contents). cbv zeta. do 3 (case_match; [done|]). destruct (process s _) as [s'|]; [|done].
  cbn [mbind result_bind]. apply validate_fuel; [|done]. rewrite length_drop. unfold frameHeaderBytes. subst l. simpl. lia.
Qed.

(** Scanning goes on from where an accepted prefix ends. *)
Lemma validate_app contents rest s s' : validate contents s = Ok s' → validate (contents ++ rest) s = validate rest s'.
Proof.
  remember (length contents) as n eqn:Hn. revert contents s Hn.
  induction (lt_wf n) as [n _ IH]. intros contents s Hn Hv.
  destruct (decide (contents = [])) as [-> |Hne]; [rewrite validate_nil in Hv; by injection Hv as ->|].
  rewrite validate_unfold in Hv by done. rewrite (validate_unfold (contents ++ rest)) by (by destruct contents).
  destruct (length contents <? _)%nat eqn:E1 in Hv; [discriminate Hv|]. cbv zeta in *.
  apply Nat.ltb_ge in E1. rewrite (proj2 (Nat.ltb_ge (length (contents ++ rest)) _)) by (rewrite length_app; lia).
  assert (slice (contents ++ rest) 20 24 = slice contents 20 24) as Hslice.
  { unfold slice. unfold frameHeaderBytes, checksumBytes in E1. rewrite drop_app_le by lia.
    apply take_app_le. rewrite length_drop. lia. }
  rewrite Hslice. destruct ((_ =? _) || _); [discriminate Hv|]. destruct (_ || _) eqn:E2 in Hv; [discriminate Hv|].
  apply orb_false_iff in E2 as [E2 E3]. apply Nat.ltb_ge in E2.
  rewrite (proj2 (Nat.ltb_ge (length (contents ++ rest)) _)) by (rewrite length_app; lia). rewrite E3. cbn [orb].
  rewrite take_app_le, drop_app_le by lia. inv_bind Hv. cbn [mbind result_bind].
  eapply IH; [|reflexivity|exact Hv]. rewrite length_drop. subst n. unfold frameHeaderBytes.
  assert (0 < length contents)%nat by (destruct contents; [done|simpl; lia]). lia.
Qed.

(** A whole frame is one round. *)
Lemma validate_frame t q p s : valid_frame_fields t q p → validate (frame_of t q p) s = process s (frame_of t q p).
Proof.
  intros Hf. destruct (frame_length_bounds t q p Hf) as [Hlo Hhi]. pose proof (frame_announces t q p [] Hf) as Ha.
  rewrite app_nil_r in Ha. pose proof Hf as (_ & _ & Hp & Hmax). assert (length p ≠ 0%nat) by by destruct p.
  rewrite validate_unfold by (intros Hx; rewrite Hx in Hlo; simpl in Hlo; lia).
  rewrite (proj2 (Nat.ltb_ge _ _)) by lia. cbv zeta. rewrite Ha, Nat2Z.id, <-frame_of_length with (t := t) (s := q).
  rewrite (proj2 (Z.eqb_neq _ 0)), !(proj2 (Z.ltb_ge _ _)), (proj2 (Nat.ltb_ge _ _)) by lia. cbn [orb].
  rewrite take_ge, drop_ge by done. destruct (process s _) as [s'|]; [|done]. apply validate_nil.
Qed.

(** A proper prefix of a frame is refused. *)
Lemma validate_torn t q p k s : valid_frame_fields t q p → (0 < k < length (frame_of t q p))%nat →
  validate (take k (frame_of t q p)) s = Err JErrorCorrupt.
Proof.
  intros Hf Hk. pose proof Hf as (_ & _ & Hp & Hmax). assert (length p ≠ 0%nat) by by destruct p.
  assert (length (take k (frame_of t q p)) = k) as Hlen by (rewrite length_take; lia).
  rewrite validate_unfold by (intros Hx; rewrite Hx in Hlen; simpl in Hlen; lia). rewrite Hlen.
  destruct (Nat.ltb_spec k (frameHeaderBytes + checksumBytes)) as [|Hge]; [done|]. cbv zeta.
  assert (slice (take k (frame_of t q p)) 20 24 = slice (frame_of t q p ++ []) 20 24) as ->.
  { rewrite app_nil_r. unfold slice, frameHeaderBytes, checksumBytes in *. rewrite skipn_firstn_comm, take_take. f_equal. lia. }
  rewrite (frame_announces t q p [] Hf), Nat2Z.id. rewrite (proj2 (Z.eqb_neq _ 0)), (proj2 (Z.ltb_ge _ _)) by lia. cbn [orb].
  rewrite frame_of_length in Hk. by rewrite (proj2 (Nat.ltb_lt k _)) by lia.
Qed.

(** ** The two scans agree *)

Lemma ReadAt_Some file offset n : (offset + n ≤ length file)%nat → ReadAt file offset n = Some (take n (drop offset file)).
Proof. intros Hn. unfold ReadAt. rewrite length_take, length_drop. by rewrite (proj2 (Nat.eqb_eq _ _)) by lia. Qed.

Lemma scan_loop_validate fuel file offset s : (offset ≤ length file)%nat → (length file - offset ≤ fuel)%nat →
  scan_loop cver rver fuel file (length file) offset s = validate (drop offset file) s.
Proof.
  revert offset s. induction fuel as [|fuel IH]; intros offset s Ho Hf.
  - assert (offset = length file) as -> by lia. cbn [scan_loop]. rewrite Nat.ltb_irrefl, Nat.eqb_refl. cbn [negb].
    by rewrite drop_all, validate_nil.
  - cbn [scan_loop]. destruct (Nat.ltb_spec offset (length file)) as [Hlt|Hge].
    + cbv zeta. rewrite validate_unfold by (intros Hx; apply (f_equal length) in Hx; rewrite length_drop in Hx; simpl in Hx; lia).
      rewrite length_drop. destruct (Nat.ltb_spec (length file - offset) (frameHeaderBytes + checksumBytes)) as [|Hlong]; [done|].
      unfold checksumBytes in Hlong. rewrite ReadAt_Some by lia. cbv zeta.
      assert (slice (take frameHeaderBytes (drop offset file)) 20 24 = slice (drop offset file) 20 24) as ->.
      { unfold slice, frameHeaderBytes. rewrite skipn_firstn_comm, take_take. f_equal. }
      destruct (_ || _); [done|]. destruct (_ || _) eqn:E2; [done|]. apply orb_false_iff in E2 as [E2 _]. apply Nat.ltb_ge in E2.
      rewrite ReadAt_Some by lia. destruct (process s _) as [s'|]; [|done]. cbn [mbind result_bind].
      rewrite IH by (unfold frameHeaderBytes in *; lia). by rewrite drop_drop.
    + assert (offset = length file) as -> by lia. rewrite Nat.eqb_refl. cbn [negb]. by rewrite drop_all, validate_nil.
Qed.

Lemma scan_validate file : scan cver rver file = validate file scan_start.
Proof. unfold scan. rewrite scan_loop_validate by lia. by rewrite drop_0. Qed.

(** ** What a scan establishes *)

Record scan_inv (s : scanned) : Prop := {
  si_chain : chained (sn_sequence s) (sn_previous s);
  si_range : 0 < sn_sequence s <= 2 ^ 53;
  si_entries : map_Forall (λ id st, started_ok cver rver st ∧ v_CapabilityID (vc_value (st_verified st)) = id ∧
                                    0 < st_sequence st < sn_sequence s) (sn_entries s);
  si_distinct : ∀ i k a b, sn_entries s !! i = Some a → sn_entries s !! k = Some b → st_sequence a = st_sequence b → i = k
}.

Lemma scan_inv_start : scan_inv scan_start.
Proof.
  split; cbn; [by left|lia|by apply map_Forall_empty|]. intros i k a b Hi. by rewrite lookup_empty in Hi.
Qed.

(** How an index may change: new records, and results of records without one. *)
Definition record_le (a b : startedRecord) : Prop := b = a ∨ st_terminal a = None ∧ ∃ t, b = set_terminal a t.

Definition grows (m m' : gmap string startedRecord) : Prop :=
  ∀ id a, m !! id = Some a → ∃ b, m' !! id = Some b ∧ record_le a b.

Global Instance record_le_preorder : PreOrder record_le.
Proof.
  split; [by left|]. intros a b c [-> |[Hn [t ->]]] Hbc; [done|]. right. split; [done|].
  destruct Hbc as [-> |[Hx _]]; [by exists t|]. discriminate Hx.
Qed.

Global Instance grows_preorder : PreOrder grows.
Proof.
  split; [intros m id a Ha; by exists a|]. intros m1 m2 m3 H12 H23 id a Ha.
  destruct (H12 id a Ha) as (b & Hb & Hab). destruct (H23 id b Hb) as (c & Hc & Hbc). exists c. split; [done|by etrans].
Qed.

Lemma grows_insert_new m id a : m !! id = None → grows m (<[id := a]> m).
Proof.
  intros Hn i b Hb. exists b. split; [|done]. rewrite lookup_insert_ne; [done|]. intros ->. by rewrite Hn in Hb.
Qed.

Lemma grows_insert_terminal m id a t : m !! id = Some a → st_terminal a = None → grows m (<[id := set_terminal a t]> m).
Proof.
  intros Ha Hn i b Hb. destruct (decide (i = id)) as [-> |Hne].
  - rewrite lookup_insert_eq. eexists. split; [done|]. right. simplify_eq. by eauto.
  - rewrite lookup_insert_ne by done. by exists b.
Qed.

(** What one frame does to an index: start a new capability, or complete one. *)
Definition one_record (m m' : gmap string startedRecord) : Prop :=
  (∃ id st, m !! id = None ∧ st_terminal st = None ∧ m' = <[id := st]> m) ∨
  (∃ id st t, m !! id = Some st ∧ st_terminal st = None ∧ m' = <[id := set_terminal st t]> m).

Lemma one_record_grows m m' : one_record m m' → grows m m'.
Proof.
  intros [(id & st & Hn & _ & ->)|(id & st & t & Hs & Hn & ->)]; [by apply grows_insert_new|by apply grows_insert_terminal].
Qed.

Lemma decodeFrame_range f d : decodeFrame f = Ok d →
  df_sequence d < 2 ^ 53 ∧ (df_recordType d = recordStarted ∨ df_recordType d = recordTerminal).
Proof.
  intros Hd. unfold decodeFrame in Hd. cbv zeta in Hd. pass_guards Hd.
  apply (f_equal (from_ok d)) in Hd. cbn [from_ok] in Hd. subst d. cbn [df_sequence df_recordType].
  repeat match goal with H : _ || _ = false |- _ => apply orb_false_iff in H as [? ?] end.
  breflect. split; [lia|tauto].
Qed.

Lemma parseRecordPayload_digest data t q prev p d : parseRecordPayload data t q prev = Ok (p, d) → d = digest data.
Proof.
  unfold parseRecordPayload. intros Hp. inv_bind Hp.
  repeat (match type of Hp with (if ?b then _ else _) = Ok _ => destruct b in Hp end; try discriminate Hp);
    apply (f_equal (from_ok (p, d))) in Hp; cbn [from_ok] in Hp; by apply (f_equal snd) in Hp.
Qed.

(** One processed frame: where it leads. *)
Lemma process_inv s f s' : process s f = Ok s' → scan_inv s →
  scan_inv s' ∧ one_record (sn_entries s) (sn_entries s') ∧ sn_sequence s' = sn_sequence s + 1.
Proof.
  intros Hp [Hch Hrange Hent Hdist]. unfold process_frame in Hp. inv_bind Hp. rename a into d. pass_guards Hp. inv_bind Hp.
  destruct a as [p rd]. inv_bind Hp. rename a into entries. apply (f_equal (from_ok s)) in Hp. cbn [from_ok] in Hp. subst s'.
  apply decodeFrame_range in Hbind as [Hd Ht]. apply negb_false_iff, Z.eqb_eq in Heqb.
  apply parseRecordPayload_digest in Hbind0. cbn [sn_entries sn_sequence sn_previous].
  assert (u64 (sn_sequence s + 1) = sn_sequence s + 1) as Hu by (unfold u64; apply Z.mod_small; lia).
  assert (chained (sn_sequence s + 1) rd) as Hch' by (right; split; [lia|rewrite Hbind0; apply digest_is_digest]).
  unfold indexFrame in Hbind1. destruct (df_recordType d =? recordStarted).
  - inv_bind Hbind1. rename a into st. cbv zeta in Hbind1. apply (parseStartedPayload_ok cver rver) in Hbind as (Hst & Hseq & Hnt & _).
    destruct (sn_entries s !! _) eqn:Hnone in Hbind1; [discriminate Hbind1|].
    apply (f_equal (from_ok entries)) in Hbind1. cbn [from_ok] in Hbind1. subst entries.
    set (id := v_CapabilityID _) in *. split; [|split; [left; by exists id, st|done]].
    split; cbn [sn_entries sn_sequence sn_previous]; rewrite ?Hu; [done|lia| |].
    + apply map_Forall_insert_2; [split_and!; [done|done|lia|lia]|].
      intros i a Ha. destruct (Hent i a Ha) as (? & ? & ?). split_and!; [done|done|lia|lia].
    + assert (∀ i a, sn_entries s !! i = Some a → st_sequence a ≠ st_sequence st) as Hfresh.
      { intros i a Ha. destruct (Hent i a Ha) as (_ & _ & ?). lia. }
      intros i k a b. destruct (decide (i = id)) as [-> |Hi], (decide (k = id)) as [-> |Hk];
        rewrite ?lookup_insert_eq, ?lookup_insert_ne by done; intros Ha Hb Heq; simplify_eq; [done|exfalso..|].
      * by apply (Hfresh k b Hb).
      * by apply (Hfresh i a Ha).
      * by apply (Hdist i k a b).
  - destruct (df_recordType d =? recordTerminal); [|discriminate Hbind1].
    destruct (sn_entries s !! p_CapabilityID p) as [st|] eqn:Hst; [|discriminate Hbind1].
    destruct (st_terminal st) eqn:Hterm; [discriminate Hbind1|]. inv_bind Hbind1. rename a into t.
    apply (f_equal (from_ok entries)) in Hbind1. cbn [from_ok] in Hbind1. subst entries.
    destruct (Hent _ _ Hst) as (Hok & Hid & Hsq). apply (parseTerminalPayload_ok cver rver) in Hbind as (_ & _ & Hv & Hb & Hj); [|done].
    split; [|split; [right; by exists (p_CapabilityID p), st, t|done]].
    split; cbn [sn_entries sn_sequence sn_previous]; rewrite ?Hu; [done|lia| |].
    + apply map_Forall_insert_2.
      * destruct Hok. split_and!; [split; done|done|cbn; lia|cbn; lia].
      * intros i a Ha. destruct (Hent i a Ha) as (? & ? & ?). split_and!; [done|done|lia|lia].
    + intros i k a b. set (id := p_CapabilityID p) in *.
      destruct (decide (i = id)) as [-> |Hi], (decide (k = id)) as [-> |Hk];
        rewrite ?lookup_insert_eq, ?lookup_insert_ne by done; intros Ha Hb' Heq; simplify_eq; [done|..].
      * by apply (Hdist _ k st b).
      * by apply (Hdist i _ a st).
      * by apply (Hdist i k a b).
Qed.

Lemma validate_inv contents s s' : validate contents s = Ok s' → scan_inv s →
  scan_inv s' ∧ grows (sn_entries s) (sn_entries s') ∧ sn_sequence s' <= sn_sequence s + Z.of_nat (length contents).
Proof.
  remember (length contents) as n eqn:Hn. revert contents s Hn.
  induction (lt_wf n) as [n _ IH]. intros contents s Hn Hv Hs.
  destruct (decide (contents = [])) as [-> |Hne].
  { rewrite validate_nil in Hv. injection Hv as ->. split_and!; [done|done|simpl; lia]. }
  assert (0 < length contents)%nat as Hpos by (destruct contents; [done|simpl; lia]).
  rewrite validate_unfold in Hv by done. pass_guards Hv. cbv zeta in Hv. pass_guards Hv. inv_bind Hv.
  destruct (process_inv _ _ _ Hbind Hs) as (Ha & Hg%one_record_grows & Hq).
  set (k := (frameHeaderBytes + _ + _)%nat) in Hv. assert (0 < k)%nat by (subst k; unfold frameHeaderBytes; lia).
  destruct (IH (length (drop k contents)) ltac:(rewrite length_drop; lia) _ _ eq_refl Hv Ha) as (Hs' & Hg' & Hq').
  rewrite length_drop in Hq'. split_and!; [done|by etrans|lia].
Qed.

(** ** Frames the journal writes are the frames it reads *)

Definition configured : Prop := cv_keyID cver ≠ "" ∧ rv_keyID rver ≠ "" ∧ rv_executorID rver ≠ "".

Lemma marshaled_frame t q p : t = recordStarted ∨ t = recordTerminal → 0 < q < 2 ^ 53 → record_bounded p →
  valid_frame_fields t q (bytes_of (marshal_record p)).
Proof.
  intros Ht Hq Hb. pose proof (marshal_record_len p Hb) as Hl. pose proof (bytes_of_length (marshal_record p)) as Hn.
  split_and!; [done|lia|lia| |lia]. intros Hx. rewrite Hx in Hn. simpl in Hn. lia.
Qed.

(** What is processed is the payload; the envelope only has to be valid. *)
Lemma process_frame_of s t p rd entries : valid_frame_fields t (sn_sequence s) (bytes_of (marshal_record p)) →
  parseRecordPayload (marshal_record p) t (sn_sequence s) (sn_previous s) = Ok (p, rd) →
  indexFrame cver rver (sn_entries s) (MkDecodedFrame t (sn_sequence s) (bytes_of (marshal_record p))) p = Ok entries →
  process s (frame_of t (sn_sequence s) (bytes_of (marshal_record p))) =
  Ok (MkScanned entries (u64 (sn_sequence s + 1)) rd).
Proof.
  intros Hf Hp Hi. unfold process_frame. rewrite decode_frame_of by done. cbn [mbind result_bind df_sequence df_payload df_recordType].
  rewrite Z.eqb_refl. cbn [negb]. rewrite text_of_bytes_of, Hp. cbn [mbind result_bind]. by rewrite Hi.
Qed.

Lemma process_started s signed v received deadline : scan_inv s → configured → Verify cver signed = Ok v →
  printable received → printable deadline → window_ok received deadline = true → deadline <= v_ExpiresAt (vc_value v) →
  sn_sequence s < 2 ^ 53 → sn_entries s !! v_CapabilityID (vc_value v) = None →
  let p := sealed (newStartedPayload signed v received deadline (sn_sequence s) (sn_previous s)) in
  valid_frame_fields recordStarted (sn_sequence s) (bytes_of (marshal_record p)) ∧
  process s (frame_of recordStarted (sn_sequence s) (bytes_of (marshal_record p))) =
  Ok (MkScanned (<[v_CapabilityID (vc_value v) := MkStarted (sn_sequence s) signed v received deadline None]> (sn_entries s))
        (u64 (sn_sequence s + 1)) (digest (marshal_record p))).
Proof.
  intros Hs (Hk & _ & _) Hv Hr Hd Hw Hex Hlt Hnone p. pose proof (si_range _ Hs). pose proof (si_chain _ Hs) as Hch.
  destruct (parse_started_record cver signed v received deadline (sn_sequence s) (sn_previous s)) as [Hp Hst]; try done; try lia.
  assert (valid_frame_fields recordStarted (sn_sequence s) (bytes_of (marshal_record p))) as Hf.
  { apply marshaled_frame; [by left|lia|]. apply sealed_bounded. eapply started_bounded; try done; lia. }
  split; [done|]. apply process_frame_of; [done|exact Hp|]. unfold indexFrame. cbn [df_recordType df_sequence].
  change (recordStarted =? recordStarted) with true. cbv iota. subst p. rewrite Hst. cbn [mbind result_bind st_verified].
  by rewrite Hnone.
Qed.

Lemma process_terminal s start signed v : scan_inv s → configured →
  sn_entries s !! v_CapabilityID (vc_value (st_verified start)) = Some start → st_terminal start = None →
  VerifyResult rver signed = Ok v → BindTo v (st_verified start) = Ok tt →
  r_JournalSequence (vr_value v) = st_sequence start → sn_sequence s < 2 ^ 53 →
  let p := sealed (newTerminalPayload start signed v (sn_sequence s) (sn_previous s)) in
  valid_frame_fields recordTerminal (sn_sequence s) (bytes_of (marshal_record p)) ∧
  process s (frame_of recordTerminal (sn_sequence s) (bytes_of (marshal_record p))) =
  Ok (MkScanned (<[v_CapabilityID (vc_value (st_verified start)) := set_terminal start (MkTerminal (sn_sequence s) signed v)]>
                   (sn_entries s)) (u64 (sn_sequence s + 1)) (digest (marshal_record p))).
Proof.
  intros Hs (_ & Hk & Hx) Hin Hterm Hv Hb Hj Hlt p. pose proof (si_range _ Hs). pose proof (si_chain _ Hs) as Hch.
  destruct (si_entries _ Hs _ _ Hin) as (Hok & _ & Hsq).
  destruct (parse_terminal_record cver rver start signed v (sn_sequence s) (sn_previous s)) as (Hp & Hid & Ht); try done; try lia.
  assert (valid_frame_fields recordTerminal (sn_sequence s) (bytes_of (marshal_record p))) as Hf.
  { apply marshaled_frame; [by right|lia|]. apply sealed_bounded. eapply terminal_bounded; try done; lia. }
  split; [done|]. apply process_frame_of; [done|exact Hp|]. unfold indexFrame. cbn [df_recordType df_sequence].
  change (recordTerminal =? recordStarted) with false. change (recordTerminal =? recordTerminal) with true. cbv iota.
  subst p. rewrite Hid, Hin, Hterm, Ht. reflexivity.
Qed.

(** ** A journal and its file *)

Definition index (j : Journal) : scanned := MkScanned (j_entries j) (j_nextSequence j) (j_lastRecordDigest j).

Definition synced (j : Journal) : list Z := take (Z.to_nat (j_size j)) (j_file j).

(** What a failed append leaves behind the synced bytes: a prefix of a frame
    the scan would accept next. *)
Definition unsynced (j : Journal) (tail : list Z) : Prop :=
  ∃ t q p k s', valid_frame_fields t q p ∧ process (index j) (frame_of t q p) = Ok s' ∧ tail = take k (frame_of t q p).

Record consistent (j : Journal) : Prop := {
  cn_configured : configured;
  cn_size : 0 <= j_size j <= Z.of_nat (length (j_file j)) ∧ Z.of_nat (length (j_file j)) <= MaxJournalBytes;
  cn_scan : validate (synced j) scan_start = Ok (index j);
  cn_tail : if j_poisoned j then unsynced j (drop (Z.to_nat (j_size j)) (j_file j))
            else Z.of_nat (length (j_file j)) = j_size j
}.

Lemma consistent_inv j : consistent j → scan_inv (index j).
Proof. intros Hj. by destruct (validate_inv _ _ _ (cn_scan _ Hj) scan_inv_start) as [? _]. Qed.

Lemma synced_healthy j : consistent j → j_poisoned j = false → synced j = j_file j.
Proof.
  intros Hj Hp. pose proof (cn_tail _ Hj) as Ht. rewrite Hp in Ht. unfold synced. apply take_ge. lia.
Qed.

Lemma Open_iff file j : Open cver rver file = Ok j ↔ configured ∧ Z.of_nat (length file) <= MaxJournalBytes ∧
  ∃ s, validate file scan_start = Ok s ∧
    j = MkJournal file (sn_entries s) (sn_sequence s) (sn_previous s) (Z.of_nat (length file)) false false.
Proof.
  unfold Open, configured. rewrite scan_validate. split.
  - intros Ho. pass_guards Ho. inv_bind Ho. apply (f_equal (from_ok j)) in Ho. cbn [from_ok] in Ho. subst j.
    repeat match goal with H : _ || _ = false |- _ => apply orb_false_iff in H as [? ?] end. breflect.
    split_and!; try done. by eexists.
  - intros ((H1 & H2 & H3) & Hl & s & Hv & ->).
    rewrite !(proj2 (String.eqb_neq _ "")), (proj2 (Z.ltb_ge _ _)) by done. cbn [orb]. by rewrite Hv.
Qed.

Lemma Open_consistent file j : Open cver rver file = Ok j → consistent j ∧ readyLocked j = Ok tt ∧ j_file j = file.
Proof.
  intros (Hc & Hl & s & Hv & ->)%Open_iff. split; [|done]. split; cbn; [done|lia| |done].
  unfold synced. cbn. rewrite Nat2Z.id, firstn_all. destruct s. done.
Qed.

(** What the disk holds after a crash: the synced bytes, and as much of the
    rest as happened to be written. *)
Definition survives (j : Journal) (file : list Z) : Prop :=
  ∃ n, (Z.to_nat (j_size j) ≤ n)%nat ∧ file = take n (j_file j).

Lemma survives_scan j file : consistent j → survives j file →
  validate file scan_start = Ok (index j) ∨ validate file scan_start = Err JErrorCorrupt ∨
  ∃ s', validate file scan_start = Ok s' ∧ one_record (j_entries j) (sn_entries s').
Proof.
  intros Hj (n & Hn & ->). pose proof (consistent_inv _ Hj) as Hinv. destruct Hj as [_ Hsz Hscan Ht].
  assert (take n (j_file j) = synced j ++ take (n - Z.to_nat (j_size j)) (drop (Z.to_nat (j_size j)) (j_file j))) as ->.
  { unfold synced. rewrite take_take_drop. f_equal. lia. }
  destruct (j_poisoned j).
  - destruct Ht as (t & q & p & k & s' & Hf & Hp & ->). rewrite take_take, (validate_app _ _ _ _ Hscan).
    set (m := ((n - Z.to_nat (j_size j)) `min` k)%nat). destruct (decide (m = 0)%nat) as [-> |Hm0].
    + left. by rewrite take_0.
    + right. destruct (decide (m < length (frame_of t q p))%nat) as [Hlt|Hge].
      * left. apply validate_torn; [done|lia].
      * right. exists s'. rewrite take_ge by lia. rewrite validate_frame by done. split; [done|].
        by apply (process_inv _ _ _ Hp Hinv).
  - left. rewrite drop_ge, take_nil, app_nil_r by lia. done.
Qed.

Lemma survives_open j file j' : consistent j → survives j file → Open cver rver file = Ok j' →
  grows (j_entries j) (j_entries j').
Proof.
  intros Hj Hs (_ & _ & s & Hv & ->)%Open_iff.
  destruct (survives_scan j file Hj Hs) as [Hx|[Hx|(s' & Hx & Hg)]]; rewrite Hx in Hv; [|discriminate Hv|].
  - injection Hv as <-. reflexivity.
  - injection Hv as <-. by apply one_record_grows.
Qed.

(** ** Appending *)

Lemma commit_durable io j t q p rd entries j' r : consistent j → j_poisoned j = false → valid_frame_fields t q p →
  process (index j) (frame_of t q p) = Ok (MkScanned entries (u64 (j_nextSequence j + 1)) rd) →
  commit io j (frame_of t q p) rd entries = (j', r) →
  consistent j' ∧ j_closed j' = j_closed j ∧
  match r with
  | Ok _ => j_entries j' = entries ∧ j_poisoned j' = false ∧ j_file j' = j_file j ++ frame_of t q p
  | Err _ => j_entries j' = j_entries j
  end.
Proof.
  intros Hj Hp Hf Hpr Hc. pose proof Hj as [Hconf Hsz Hscan Ht]. rewrite Hp in Ht.
  assert (∀ k, j_size j + Z.of_nat (length (take k (frame_of t q p))) <= MaxJournalBytes →
    consistent (poison j (j_file j ++ take k (frame_of t q p)))) as Hpoison.
  { intros k Hk. split; cbn [poison j_size j_file j_poisoned]; [done|rewrite length_app; lia| |].
    - unfold synced. cbn [poison j_size j_file]. rewrite take_app_le by lia. exact Hscan.
    - rewrite drop_app_length' by lia. exists t, q, p, k. eexists. split; [done|]. by split. }
  pose proof (Hpoison 0%nat) as Hpoison0. rewrite take_0, app_nil_r in Hpoison0. specialize (Hpoison0 ltac:(simpl; lia)).
  unfold commit, appendLocked in Hc. rewrite (proj2 (Z.eqb_eq _ _)) in Hc by done.
  destruct (negb (io_file io)); [by injection Hc as <- <-|]. cbn [negb orb] in Hc.
  destruct (negb (io_directory io)); [by injection Hc as <- <-|].
  destruct (Z.ltb_spec (MaxJournalBytes - j_size j) (Z.of_nat (length (frame_of t q p)))) as [|Hfit]; [by injection Hc as <- <-|].
  assert (∀ k, consistent (poison j (j_file j ++ take k (frame_of t q p)))) as Hpartial.
  { intros k. apply Hpoison. rewrite length_take. lia. }
  clear Hpoison. cbv zeta in Hc. destruct (io_writeErr io); [by injection Hc as <- <-|]. cbn [orb] in Hc.
  set (written := default _ (io_written io)) in Hc.
  destruct (written =? length (frame_of t q p))%nat eqn:Hw; [|by injection Hc as <- <-]. apply Nat.eqb_eq in Hw.
  cbn [negb] in Hc. destruct (negb (io_syncFile io)); [by injection Hc as <- <-|].
  destruct (negb (io_syncDirectory io)); [by injection Hc as <- <-|].
  rewrite Hw, firstn_all in Hc. cbn [j_file j_nextSequence j_size j_closed j_poisoned] in Hc. apply pair_equal_spec in Hc as [<- <-].
  cbn [j_entries j_poisoned j_file j_closed]. split_and!; try done.
  split; cbn [j_size j_file j_poisoned]; [done|rewrite length_app; lia| |].
  - unfold synced. cbn [j_size j_file]. rewrite take_ge by (rewrite length_app; lia).
    rewrite (synced_healthy j Hj Hp) in Hscan. rewrite (validate_app _ _ _ _ Hscan), validate_frame by done. exact Hpr.
  - rewrite Hp, length_app. lia.
Qed.

(** ** Begin, Complete, Close *)

Lemma canonicalTime_printable t : canonicalTime t = true → printable t.
Proof.
  unfold canonicalTime. intros Ht. bsplit. apply printable_canonical; [unfold four_digit_year; lia|].
  apply millisecondAligned_mod. unfold millisecondAligned. by apply Z.eqb_eq.
Qed.

Lemma encodeFrame_ok t q p f : 0 <= q → encodeFrame t q p = Ok f → f = frame_of t q p ∧ q < 2 ^ 53.
Proof. intros Hq (( _ & Hr & _) & ->)%encodeFrame_iff; [|done]. split; [done|lia]. Qed.

Lemma readyLocked_ok j : readyLocked j = Ok tt → j_poisoned j = false ∧ j_closed j = false.
Proof. unfold readyLocked. by destruct (j_closed j), (j_poisoned j). Qed.

(** The permit a fresh start hands out. *)
Definition new_permit (j j' : Journal) (signed : SignedCapability) (received deadline : time) (o : Outcome) (p : Permit) : Prop :=
  ∃ v, Verify cver signed = Ok v ∧ p = MkPermit v deadline false ∧ deadline <= v_ExpiresAt (vc_value v) ∧
    o_state o = StateNewStarted ∧ j_entries j !! v_CapabilityID (vc_value v) = None ∧
    j_entries j' !! v_CapabilityID (vc_value v) = Some (MkStarted (j_nextSequence j) signed v received deadline None) ∧
    j_file j' ≠ j_file j ∧ readyLocked j' = Ok tt.

Lemma existingOutcome_permit start : o_permit (existingOutcome start) = None.
Proof. unfold existingOutcome. by destruct (st_terminal start). Qed.

(** The frame a fresh start prepares. *)
Lemma started_payload j signed v received deadline payload rd : consistent j → Verify cver signed = Ok v →
  canonicalTime received = true → canonicalTime deadline = true → window_ok received deadline = true →
  deadline <= v_ExpiresAt (vc_value v) → j_nextSequence j < 2 ^ 53 →
  j_entries j !! v_CapabilityID (vc_value v) = None →
  marshalRecordPayload (newStartedPayload signed v received deadline (j_nextSequence j) (j_lastRecordDigest j)) = Ok (payload, rd) →
  valid_frame_fields recordStarted (j_nextSequence j) (bytes_of payload) ∧
  process (index j) (frame_of recordStarted (j_nextSequence j) (bytes_of payload)) =
  Ok (MkScanned (<[v_CapabilityID (vc_value v) := MkStarted (j_nextSequence j) signed v received deadline None]> (j_entries j))
        (u64 (j_nextSequence j + 1)) rd).
Proof.
  intros Hj Hv Hr%canonicalTime_printable Hd%canonicalTime_printable Hw Hex Hlt Hnone Hm.
  pose proof (consistent_inv _ Hj) as Hinv. pose proof (si_range _ Hinv) as Hrange. cbn [index sn_sequence] in Hrange.
  rewrite marshalRecordPayload_ok in Hm; [|apply (started_bounded cver); try done; [lia|apply (si_chain _ Hinv)]|done].
  apply (f_equal (from_ok (payload, rd))) in Hm. cbn [from_ok] in Hm.
  pose proof (f_equal fst Hm) as Hpay. pose proof (f_equal snd Hm) as Hrd. cbn [fst snd] in Hpay, Hrd. subst payload rd.
  exact (process_started (index j) signed v received deadline Hinv (cn_configured _ Hj) Hv Hr Hd Hw Hex Hlt Hnone).
Qed.

(** An error that leaves the journal as it was. *)
Ltac unchanged Hb :=
  apply pair_equal_spec in Hb as [<- <-]; split_and!; [assumption|reflexivity|reflexivity|intros; discriminate].

Lemma Begin_ok io j signed received deadline j' out : consistent j → Begin cver io j signed received deadline = (j', out) →
  consistent j' ∧ grows (j_entries j) (j_entries j') ∧ j_closed j' = j_closed j ∧
  ∀ o p, out = Ok o → o_permit o = Some p → new_permit j j' signed received deadline o p.
Proof.
  intros Hj Hb. unfold Begin in Hb. destruct (Verify cver signed) as [v|] eqn:Hv; [|unchanged Hb].
  destruct (readyLocked j) as [[]|] eqn:Hready; [|unchanged Hb]. cbv zeta in Hb.
  destruct (j_entries j !! v_CapabilityID (vc_value v)) as [start|] eqn:Hnone.
  { destruct (negb (sameCapability start signed v)); [unchanged Hb|]. apply pair_equal_spec in Hb as [<- <-].
    split_and!; try done. intros o p [= <-]. by rewrite existingOutcome_permit. }
  destruct (_ || _) eqn:Hguard in Hb; [unchanged Hb|].
  repeat match goal with H : _ || _ = false |- _ => apply orb_false_iff in H as [? ?] end.
  rewrite negb_false_iff in *. unfold After in *. breflect.
  destruct (_ ← journal_checkFresh v received; _) as [[frame rd]|] eqn:Hprep; [|unchanged Hb].
  inv_bind Hprep. inv_bind Hprep. destruct a0 as [payload rd']. inv_bind Hprep.
  apply (f_equal (from_ok (frame, rd))) in Hprep. cbn [from_ok] in Hprep. apply pair_equal_spec in Hprep as [-> ->].
  pose proof (si_range _ (consistent_inv _ Hj)) as Hrange. cbn [index sn_sequence] in Hrange.
  apply encodeFrame_ok in Hbind1 as [-> Hlt]; [|lia].
  destruct (started_payload j signed v received deadline payload rd) as [Hf Hp]; try assumption.
  destruct (commit io j _ rd _) as [j1 r] eqn:Hc. apply pair_equal_spec in Hb as [<- <-].
  destruct (readyLocked_ok _ Hready) as [Hpo Hcl].
  destruct (commit_durable _ _ _ _ _ _ _ _ _ Hj Hpo Hf Hp Hc) as (Hj1 & Hclosed & Hr). split; [done|].
  destruct r as [[]|e].
  - destruct Hr as (He & Hp1 & Hfile). split_and!; [rewrite He; by apply grows_insert_new|done|].
    intros o p Ho Hperm. cbn [mbind result_bind] in Ho. apply (f_equal (from_ok o)) in Ho. cbn [from_ok] in Ho. subst o.
    cbn [o_permit] in Hperm. injection Hperm as <-. exists v. split_and!; try done.
    + rewrite He. by rewrite lookup_insert_eq.
    + rewrite Hfile. intros Hx. apply (f_equal length) in Hx. rewrite length_app, frame_of_length in Hx.
      unfold checksumBytes in Hx. lia.
    + unfold readyLocked. by rewrite Hclosed, Hp1, Hcl.
  - split_and!; [by rewrite Hr|done|]. by intros o p Ho.
Qed.

Lemma Complete_ok io j signed j' out : consistent j → Complete rver io j signed = (j', out) →
  consistent j' ∧ grows (j_entries j) (j_entries j') ∧ j_closed j' = j_closed j ∧
  ∀ t appended, out = Ok (t, appended) → ∃ start term, j_entries j' !! r_CapabilityID (vr_value (tr_verified term)) = Some start ∧
    st_terminal start = Some term ∧ t = snapshotTerminal (st_sequence start) term ∧
    VerifyResult rver signed = Ok (tr_verified term) ∧ tr_signed term = signed ∧ (appended = true ↔ j_file j' ≠ j_file j).
Proof.
  intros Hj Hb. unfold Complete in Hb. destruct (VerifyResult rver signed) as [v|] eqn:Hv; [|unchanged Hb].
  destruct (readyLocked j) as [[]|] eqn:Hready; [|unchanged Hb]. cbv zeta in Hb.
  destruct (j_entries j !! r_CapabilityID (vr_value v)) as [start|] eqn:Hin; [|unchanged Hb].
  destruct (_ || _) eqn:Hguard in Hb; [unchanged Hb|]. apply orb_false_iff in Hguard as [Hbind Hseq].
  rewrite negb_false_iff in *. apply is_ok_true in Hbind as [[] Hbind]. apply Z.eqb_eq in Hseq.
  pose proof (consistent_inv _ Hj) as Hinv. destruct (si_entries _ Hinv _ _ Hin) as (Hok & Hid & Hsq).
  pose proof (si_range _ Hinv) as Hrange. pose proof (si_chain _ Hinv) as Hch. cbn [index sn_sequence sn_previous] in *.
  destruct (st_terminal start) as [term|] eqn:Hterm.
  { destruct (sameResult term signed v) eqn:Hsame; cbn [negb] in Hb; [|unchanged Hb]. apply pair_equal_spec in Hb as [<- <-].
    split_and!; try done. intros t ap [= <- <-]. unfold sameResult in Hsame. bsplit.
    pose proof (so_terminal _ _ _ Hok) as Hx. rewrite Hterm in Hx. destruct Hx as [Hx1 _].
    assert (tr_signed term = signed) as Hts by (destruct (tr_signed term), signed; cbn in *; congruence).
    rewrite Hts, Hv in Hx1. injection Hx1 as Hx1. exists start, term. rewrite <-Hx1. split_and!; done. }
  destruct (_ ← marshalRecordPayload _; _) as [[frame rd]|] eqn:Hprep; [|unchanged Hb].
  inv_bind Hprep. destruct a as [payload rd']. inv_bind Hprep.
  apply (f_equal (from_ok (frame, rd))) in Hprep. cbn [from_ok] in Hprep. apply pair_equal_spec in Hprep as [-> ->].
  apply encodeFrame_ok in Hbind1 as [-> Hlt]; [|lia].
  rewrite marshalRecordPayload_ok in Hbind0; [|by apply (terminal_bounded cver rver); try done; lia|done].
  apply (f_equal (from_ok (payload, rd))) in Hbind0. cbn [from_ok] in Hbind0.
  pose proof (f_equal fst Hbind0) as Hpay. pose proof (f_equal snd Hbind0) as Hrd. cbn [fst snd] in Hpay, Hrd. subst payload rd.
  assert (j_entries j !! v_CapabilityID (vc_value (st_verified start)) = Some start) as Hin' by by rewrite Hid.
  destruct (process_terminal (index j) start signed v Hinv (cn_configured _ Hj) Hin' Hterm Hv Hbind Hseq Hlt) as [Hf Hp].
  cbn [index sn_sequence sn_previous sn_entries] in Hf, Hp. rewrite Hid in Hp.
  destruct (commit io j _ _ _) as [j1 r] eqn:Hc. apply pair_equal_spec in Hb as [<- <-].
  destruct (readyLocked_ok _ Hready) as [Hpo _].
  destruct (commit_durable _ _ _ _ _ _ _ _ _ Hj Hpo Hf Hp Hc) as (Hj1 & Hclosed & Hr). split; [done|]. destruct r as [[]|e].
  - destruct Hr as (He & Hp1 & Hfile). split_and!; [rewrite He; by apply grows_insert_terminal|done|].
    intros t ap Ho. cbn [mbind result_bind] in Ho. injection Ho as <- <-.
    eexists _, (MkTerminal (j_nextSequence j) signed v). split_and!; [rewrite He; apply lookup_insert_eq|done|done|done|done|].
    split; [intros _|done]. rewrite Hfile. intros Hx. apply (f_equal length) in Hx. rewrite length_app, frame_of_length in Hx.
    unfold checksumBytes in Hx. lia.
  - split_and!; [by rewrite Hr|done|]. by intros t ap Ho.
Qed.

Lemma Close_ok closes j j' out : consistent j → Close closes j = (j', out) →
  consistent j' ∧ j_entries j' = j_entries j ∧ j_file j' = j_file j ∧ j_closed j' = true.
Proof.
  intros Hj Hc. unfold Close in Hc. destruct (j_closed j) eqn:E; simplify_eq; [done|]. split_and!; try done.
  destruct Hj. by split.
Qed.

End scanning.
