(* ===== verification/JournalTrace.v ===== *)
(** * Histories of the replay journal

    The journal among requests, results, crashes and restarts: a step relation
    over the process (its journal, the permits it handed out) and the disk, and
    what holds in every reachable state. *)

From S2P Require Import Prelude GoSort GoStrings Sha256 Json GoTime Policy Capability CapabilitySpec ExecResult ExecResultSpec.
From S2P Require Import JournalFrame JournalRecord JournalRecordSpec Journal JournalSpec.
Local Open Scope Z_scope.

Section trace.
  Context `{Ed25519} (cver : CapabilityVerifier) (rver : ResultVerifier).

(** A process with an open journal, or none and the file on disk; every permit
    handed out so far, and every execution released, with its time. *)
Record world := MkWorld {
  w_journal : option Journal;
  w_file : list Z;
  w_permits : list Permit;
  w_released : list (VerifiedCapability * time)
}.

Definition permits_of (out : result JournalError Outcome) : list Permit :=
  match out with Ok o => option_list (o_permit o) | Err _ => [] end.

Definition released_by (out : result JournalError VerifiedCapability) (now : time) : list (VerifiedCapability * time) :=
  match out with Ok v => [(v, now)] | Err _ => [] end.

Inductive step : world → world → Prop :=
| step_open f ps rs j : Open cver rver f = Ok j → step (MkWorld None f ps rs) (MkWorld (Some j) f ps rs)
| step_begin f ps rs j io signed received deadline j' out :
    Begin cver io j signed received deadline = (j', out) →
    step (MkWorld (Some j) f ps rs) (MkWorld (Some j') f (ps ++ permits_of out) rs)
| step_complete f ps rs j io signed j' out :
    Complete rver io j signed = (j', out) → step (MkWorld (Some j) f ps rs) (MkWorld (Some j') f ps rs)
| step_close f ps rs j closes j' out :
    Close closes j = (j', out) → step (MkWorld (Some j) f ps rs) (MkWorld (Some j') f ps rs)
| step_take oj f ps rs i p op now p' out :
    ps !! i = Some p → take_at op p now = (p', out) →
    step (MkWorld oj f ps rs) (MkWorld oj f (<[i := p']> ps) (rs ++ released_by out now))
| step_stop f ps rs j file :
    survives j file → step (MkWorld (Some j) f ps rs) (MkWorld None file ps rs).

(** Steps by the functions that make them. *)
Definition after_begin (f : list Z) (ps : list Permit) (rs : list (VerifiedCapability * time))
    (r : Journal * result JournalError Outcome) : world := MkWorld (Some r.1) f (ps ++ permits_of r.2) rs.

Lemma run_begin f ps rs j io signed received deadline :
  step (MkWorld (Some j) f ps rs) (after_begin f ps rs (Begin cver io j signed received deadline)).
Proof. eapply step_begin. apply surjective_pairing. Qed.

Definition after_complete (w : world) (r : Journal * result JournalError (TerminalSnapshot * bool)) : world :=
  MkWorld (Some r.1) (w_file w) (w_permits w) (w_released w).

Lemma run_complete w j io signed : w_journal w = Some j → step w (after_complete w (Complete rver io j signed)).
Proof. destruct w as [oj f ps rs]. cbn. intros ->. eapply step_complete. apply surjective_pairing. Qed.

Definition after_take (w : world) (i : nat) (now : time) (r : Permit * result JournalError VerifiedCapability) : world :=
  MkWorld (w_journal w) (w_file w) (<[i := r.1]> (w_permits w)) (w_released w ++ released_by r.2 now).

Lemma run_take w i p op now : w_permits w !! i = Some p → step w (after_take w i now (take_at op p now)).
Proof. destruct w as [oj f ps rs]. cbn. intros Hi. eapply step_take; [exact Hi|]. apply surjective_pairing. Qed.

(** ** The index is never forgotten *)

(** Every index the process has or will have contains [m]. *)
Definition knows (w : world) (m : gmap string startedRecord) : Prop :=
  match w_journal w with
  | Some j => grows m (j_entries j)
  | None => ∀ j, Open cver rver (w_file w) = Ok j → grows m (j_entries j)
  end.

Definition sound (w : world) : Prop :=
  match w_journal w with Some j => consistent cver rver j | None => True end.

Lemma step_sound w w' : step w w' → sound w → sound w'.
Proof.
  destruct 1 as [? ? ? ? Ho|? ? ? ? ? ? ? ? ? ? Hb|? ? ? ? ? ? ? ? Hc|? ? ? ? ? ? ? Hc|? ? ? ? ? ? ? ? ? ? _ _|]; unfold sound; cbn.
  - intros _. by apply Open_consistent in Ho as [? _].
  - intros Hj. by apply (Begin_ok cver rver) in Hb as [? _].
  - intros Hj. by apply (Complete_ok cver rver) in Hc as [? _].
  - intros Hj. by apply (Close_ok cver rver) in Hc as [? _].
  - done.
  - done.
Qed.

Lemma step_knows w w' m : step w w' → sound w → knows w m → knows w' m.
Proof.
  destruct 1 as [? ? ? ? Ho|? ? ? ? ? ? ? ? ? ? Hb|? ? ? ? ? ? ? ? Hc|? ? ? ? ? ? ? Hc|? ? ? ? ? ? ? ? ? ? _ _|? ? ? ? ? Hs];
    unfold sound, knows; cbn.
  - intros _ Hk. by apply Hk.
  - intros Hj Hk. apply (Begin_ok cver rver) in Hb as (_ & Hg & _); [|done]. by etrans.
  - intros Hj Hk. apply (Complete_ok cver rver) in Hc as (_ & Hg & _); [|done]. by etrans.
  - intros Hj Hk. apply (Close_ok cver rver) in Hc as (_ & -> & _); done.
  - done.
  - intros Hj Hk j' Ho. pose proof (survives_open cver rver _ _ _ Hj Hs Ho). by etrans.
Qed.

Lemma steps_knows w w' m : rtc step w w' → sound w → knows w m → sound w' ∧ knows w' m.
Proof.
  induction 1 as [|w w1 w' Hs _ IH]; intros Hw Hk; [done|]. apply IH; [by eapply step_sound|by eapply step_knows].
Qed.

(** ** Permits and releases *)

Definition permit_id (p : Permit) : string := v_CapabilityID (vc_value (pm_verified p)).
Definition release_id (r : VerifiedCapability * time) : string := v_CapabilityID (vc_value r.1).

(** An execution is released for a capability the dispatcher signed, within its
    window. *)
Definition release_ok (r : VerifiedCapability * time) : Prop :=
  (∃ signed, Verify cver signed = Ok r.1) ∧ v_NotBefore (vc_value r.1) <= r.2 < v_ExpiresAt (vc_value r.1).

Definition permit_ok (p : Permit) : Prop := ∃ signed, Verify cver signed = Ok (pm_verified p).

Lemma execute_at_window op v now w : execute_at op v now = Ok w →
  w = v ∧ v_NotBefore (vc_value v) <= now < v_ExpiresAt (vc_value v).
Proof.
  unfold execute_at, checkFresh, Before. intros Hw. pass_guards Hw. inv_bind Hw. pass_guards Hbind.
  apply (f_equal (from_ok v)) in Hw. cbn [from_ok] in Hw. bsplit. split; [done|lia].
Qed.

Lemma take_at_ok op p now p' out : take_at op p now = (p', out) →
  pm_verified p' = pm_verified p ∧ (pm_used p = true → pm_used p' = true) ∧
  ∀ v, out = Ok v → pm_used p = false ∧ pm_used p' = true ∧ v = pm_verified p ∧ now < pm_deadline p ∧
    v_NotBefore (vc_value v) <= now < v_ExpiresAt (vc_value v).
Proof.
  unfold take_at, checkAndUse, Before. intros Ht.
  destruct (negb (String.eqb _ _)); [by apply pair_equal_spec in Ht as [<- <-]|].
  destruct (Z.ltb_spec now (pm_deadline p)) as [Hd|]; [|by apply pair_equal_spec in Ht as [<- <-]]. cbn [negb] in Ht.
  destruct (pm_used p) eqn:Hu; [by apply pair_equal_spec in Ht as [<- <-]|].
  apply pair_equal_spec in Ht as [<- <-]. cbn [pm_verified pm_used]. split_and!; [done|done|].
  intros v Hv. destruct (execute_at op (pm_verified p) now) as [w|] eqn:Hx; [|discriminate Hv].
  apply (f_equal (from_ok v)) in Hv. cbn [from_ok map_err] in Hv. subst w. apply execute_at_window in Hx as [-> Hr]. done.
Qed.

Record permits_inv (w : world) : Prop := {
  pi_known : ∃ m, knows w m ∧ Forall (λ p, is_Some (m !! permit_id p)) (w_permits w);
  pi_distinct : NoDup (permit_id <$> w_permits w);
  pi_released : NoDup (release_id <$> w_released w);
  pi_used : Forall (λ r, ∃ p, p ∈ w_permits w ∧ permit_id p = release_id r ∧ pm_used p = true) (w_released w);
  pi_permits : Forall permit_ok (w_permits w);
  pi_releases : Forall release_ok (w_released w)
}.

(** A step that touches neither permits nor releases keeps the invariant. *)
Lemma permits_inv_same w w' : step w w' → sound w → w_permits w' = w_permits w → w_released w' = w_released w →
  permits_inv w → permits_inv w'.
Proof.
  intros Hs Hw Hp Hr [(m & Hk & Hm) Hd Hrel Hu Hpo Hro]. split; rewrite ?Hp, ?Hr; try done.
  exists m. split; [by eapply step_knows|done].
Qed.

Lemma permits_inv_begin f ps rs j io signed received deadline j' out :
  Begin cver io j signed received deadline = (j', out) → consistent cver rver j →
  permits_inv (MkWorld (Some j) f ps rs) → permits_inv (MkWorld (Some j') f (ps ++ permits_of out) rs).
Proof.
  intros Hb Hj [(m & Hk & Hm) Hd Hrel Hu Hpo Hro]. cbn in *. unfold knows in Hk. cbn in Hk.
  destruct (Begin_ok cver rver _ _ _ _ _ _ _ Hj Hb) as (_ & Hg & _ & Hnew).
  assert (Forall (λ p, is_Some (j_entries j !! permit_id p)) ps) as Hin.
  { eapply Forall_impl; [exact Hm|]. intros p [a Ha]. destruct (Hk _ _ Ha) as (b & -> & _). by eexists. }
  assert (Forall (λ p, is_Some (j_entries j' !! permit_id p)) ps) as Hin'.
  { eapply Forall_impl; [exact Hin|]. intros p [a Ha]. destruct (Hg _ _ Ha) as (b & -> & _). by eexists. }
  assert (∀ p, p ∈ permits_of out → j_entries j !! permit_id p = None ∧ is_Some (j_entries j' !! permit_id p) ∧ permit_ok p)
    as Hnewp.
  { intros p Hp. unfold permits_of in Hp. destruct out as [o|]; [|by apply elem_of_nil in Hp].
    destruct (o_permit o) as [q|] eqn:Hq; cbn in Hp; [|by apply elem_of_nil in Hp]. apply list_elem_of_singleton in Hp as ->.
    destruct (Hnew o q eq_refl Hq) as (v & Hv & -> & _ & _ & Hnone & Hsome & _). unfold permit_id. cbn.
    split_and!; [done|by eexists|by exists signed]. }
  split; cbn.
  - exists (j_entries j'). unfold knows. cbn. split; [done|]. apply Forall_app. split; [done|].
    apply Forall_forall. intros p Hp. by destruct (Hnewp p Hp) as (_ & ? & _).
  - rewrite fmap_app. apply NoDup_app. split_and!; [done| |].
    + intros id (p & -> & Hp)%list_elem_of_fmap (q & Heq & Hq)%list_elem_of_fmap.
      destruct (Hnewp q Hq) as (Hnone & _ & _). rewrite Forall_forall in Hin. destruct (Hin p Hp) as [a Ha].
      rewrite Heq, Hnone in Ha. done.
    + unfold permits_of. destruct out as [o|]; [|constructor]. destruct (o_permit o); cbn; [apply NoDup_singleton|constructor].
  - done.
  - eapply Forall_impl; [exact Hu|]. intros r (p & Hp & ? & ?). exists p. split_and!; try done. apply elem_of_app. by left.
  - apply Forall_app. split; [done|]. apply Forall_forall. intros p Hp. by destruct (Hnewp p Hp) as (_ & _ & ?).
  - done.
Qed.

Lemma permits_inv_take oj f ps rs i p op now p' out : ps !! i = Some p → take_at op p now = (p', out) →
  permits_inv (MkWorld oj f ps rs) → permits_inv (MkWorld oj f (<[i := p']> ps) (rs ++ released_by out now)).
Proof.
  intros Hi Ht [(m & Hk & Hm) Hd Hrel Hu Hpo Hro]. cbn in *. destruct (take_at_ok _ _ _ _ _ Ht) as (Hver & Hmono & Hrl).
  assert (permit_id p' = permit_id p) as Hid by (unfold permit_id; by rewrite Hver).
  assert (permit_id <$> <[i := p']> ps = permit_id <$> ps) as Hids.
  { rewrite list_fmap_insert, Hid. apply list_insert_id. by rewrite list_lookup_fmap, Hi. }
  assert (p ∈ ps) as Hpin by by eapply list_elem_of_lookup_2.
  assert (Forall (λ r, ∃ p0, p0 ∈ <[i := p']> ps ∧ permit_id p0 = release_id r ∧ pm_used p0 = true) rs) as Hu'.
  { eapply Forall_impl; [exact Hu|]. intros r (q & [k Hq]%list_elem_of_lookup_1 & Hqid & Hqu).
    destruct (decide (k = i)) as [-> |Hne].
    - simplify_eq. exists p'. split_and!; [|by rewrite Hid|by apply Hmono].
      apply (list_elem_of_lookup_2 _ i). apply list_lookup_insert_eq. by eapply lookup_lt_Some.
    - exists q. split_and!; try done. apply (list_elem_of_lookup_2 _ k). by rewrite list_lookup_insert_ne. }
  assert (permit_ok p') as Hpok'.
  { rewrite Forall_forall in Hpo. destruct (Hpo p Hpin) as [signed Hs]. exists signed. by rewrite Hver. }
  split; cbn; rewrite ?Hids; try done.
  - exists m. split; [done|]. apply Forall_insert; [done|]. rewrite Forall_forall in Hm. rewrite Hid. by apply Hm.
  - rewrite fmap_app. apply NoDup_app. split_and!; [done| |destruct out; cbn; [apply NoDup_singleton|constructor]].
    intros id Hold Hn. destruct out as [v|]; cbn in Hn; [|by apply elem_of_nil in Hn]. apply list_elem_of_singleton in Hn as ->.
    destruct (Hrl v eq_refl) as (Hunused & _ & -> & _). apply list_elem_of_fmap in Hold as (r & Hr & Hrin).
    rewrite Forall_forall in Hu. destruct (Hu r Hrin) as (q & Hq & Hqid & Hqu).
    assert (q = p) as ->; [|by rewrite Hunused in Hqu]. apply list_elem_of_lookup_1 in Hq as [k Hq].
    assert (k = i) as ->; [|by simplify_eq].
    eapply (NoDup_lookup _ _ _ _ Hd); rewrite list_lookup_fmap; [by rewrite Hq|]. rewrite Hi. cbn. f_equal.
    rewrite Hqid, <-Hr. done.
  - apply Forall_app. split; [done|]. destruct out as [v|]; cbn; [|constructor]. apply Forall_singleton.
    destruct (Hrl v eq_refl) as (_ & Hused & -> & _). exists p'. split_and!; [|exact Hid|done].
    apply (list_elem_of_lookup_2 _ i). apply list_lookup_insert_eq. by eapply lookup_lt_Some.
  - by apply Forall_insert.
  - apply Forall_app. split; [done|]. destruct out as [v|]; cbn; [|constructor]. apply Forall_singleton.
    destruct (Hrl v eq_refl) as (_ & _ & -> & _ & Hwin). split; [|done]. rewrite Forall_forall in Hpo. by apply Hpo.
Qed.

Lemma step_permits w w' : step w w' → sound w → permits_inv w → permits_inv w'.
Proof.
  intros Hs Hw Hi. destruct Hs as [| | | | |]; try (by eapply permits_inv_same; [constructor| | | |]; eauto).
  - by eapply permits_inv_begin.
  - eapply permits_inv_same; [by eapply step_complete|done..].
  - eapply permits_inv_same; [by eapply step_close|done..].
  - by eapply permits_inv_take.
Qed.

(** A process that starts on whatever file it finds. *)
Definition boot (file : list Z) : world := MkWorld None file [] [].

Definition reachable (w : world) : Prop := ∃ file, rtc step (boot file) w.

Lemma reachable_inv w : reachable w → sound w ∧ permits_inv w.
Proof.
  intros [file Hr]. assert (sound (boot file) ∧ permits_inv (boot file)) as [Hs Hp].
  { split; [done|]. split; cbn; try constructor. exists ∅. split; [|constructor]. intros j _ id a Ha. by rewrite lookup_empty in Ha. }
  revert Hs Hp. induction Hr as [|w w1 w' Hst _ IH]; [done|]. intros Hs Hp. apply IH; [by eapply step_sound|by eapply step_permits].
Qed.

Lemma reachable_consistent w j : reachable w → w_journal w = Some j → consistent cver rver j.
Proof. intros [Hs _]%reachable_inv Hj. unfold sound in Hs. by rewrite Hj in Hs. Qed.

(** ** Recovery *)

Lemma Open_healthy j : consistent cver rver j → j_poisoned j = false →
  ∃ j0, Open cver rver (j_file j) = Ok j0 ∧ index j0 = index j ∧ j_size j0 = j_size j.
Proof.
  intros Hj Hp. pose proof (synced_healthy cver rver _ Hj Hp) as Hf. pose proof Hj as [Hc Hsz Hscan Ht].
  rewrite Hp in Ht. rewrite Hf in Hscan. eexists. split.
  - apply Open_iff. split_and!; [done|lia|]. by exists (index j).
  - split; [by destruct j|done].
Qed.


(** ** Terminal results stay *)

Lemma Lookup_terminal_grows j j' signed o : grows (j_entries j) (j_entries j') → readyLocked j' = Ok tt →
  Lookup cver j signed = Ok o → o_state o = StateTerminal → Lookup cver j' signed = Ok o.
Proof.
  intros Hg Hr' Hl Ho. unfold Lookup in *. destruct (Verify cver signed) as [v|]; [|discriminate Hl]. inv_bind Hl.
  rewrite Hr'. cbn [mbind result_bind].
  destruct (j_entries j !! v_CapabilityID (vc_value v)) as [st|] eqn:Hst.
  - destruct (Hg _ _ Hst) as (st' & -> & Hle). destruct (sameCapability st signed v) eqn:Hsame; [|discriminate Hl].
    cbn [negb] in Hl. apply (f_equal (from_ok o)) in Hl. cbn [from_ok] in Hl. subst o.
    destruct Hle as [-> |[Hn _]]; [by rewrite Hsame|]. unfold existingOutcome in Ho. rewrite Hn in Ho. discriminate Ho.
  - apply (f_equal (from_ok o)) in Hl. cbn [from_ok] in Hl. subst o. discriminate Ho.
Qed.

(** ** A fresh capability starts *)

Lemma checkFresh_ok signed v now : Verify cver signed = Ok v → cv_executorID cver ≠ "" →
  v_NotBefore (vc_value v) <= now < v_ExpiresAt (vc_value v) → journal_checkFresh v now = Ok tt.
Proof.
  intros Hv Hx Hw. pose proof (vo_operation _ (ve_value _ _ _ (Verify_ok _ _ _ Hv))) as Hop.
  assert (∀ op, v_Operation (vc_value v) = op → execute_at op v now = Ok v) as Hrel.
  { intros op Hop'. by apply (execute_at_ok cver signed v op now v Hv Hx). }
  unfold journal_checkFresh, AddAt, RevokeAt, InspectAt. revert Hop. rewrite !elem_of_cons, elem_of_nil.
  intros [Ho|[Ho|[Ho|[]]]]; rewrite Ho, (Hrel _ Ho); reflexivity.
Qed.

Lemma Begin_starts j signed v received deadline : consistent cver rver j → readyLocked j = Ok tt →
  Verify cver signed = Ok v → cv_executorID cver ≠ "" → j_entries j !! v_CapabilityID (vc_value v) = None →
  canonicalTime received = true → canonicalTime deadline = true → window_ok received deadline = true →
  deadline <= v_ExpiresAt (vc_value v) → v_NotBefore (vc_value v) <= received →
  j_size j + MaxFrameBytes <= MaxJournalBytes →
  ∃ j' o, Begin cver all_well j signed received deadline = (j', Ok o) ∧ o_permit o = Some (MkPermit v deadline false).
Proof.
  intros Hj Hready Hv Hx Hnone Hr Hd Hw Hex Hnb Hfit. pose proof (consistent_inv cver rver _ Hj) as Hinv.
  pose proof (si_range _ _ _ Hinv) as Hrange. pose proof (si_chain _ _ _ Hinv) as Hch. cbn [index sn_sequence sn_previous] in *.
  destruct (readyLocked_ok _ Hready) as [Hpo Hcl]. pose proof (cn_size _ _ _ Hj) as Hsz. pose proof (cn_tail _ _ _ Hj) as Ht.
  rewrite Hpo in Ht.
  assert (j_nextSequence j < 2 ^ 53) as Hlt.
  { destruct (validate_inv cver rver _ _ _ (cn_scan _ _ _ Hj) (scan_inv_start cver rver)) as (_ & _ & Hq).
    cbn [index scan_start sn_sequence] in Hq. unfold synced in Hq. rewrite length_take in Hq. unfold MaxJournalBytes in *. lia. }
  unfold Begin. rewrite Hv, Hready, Hnone, Hr, Hd, Hw. cbv zeta. unfold After. rewrite (proj2 (Z.ltb_ge _ _)) by lia. cbn [negb orb].
  assert (received < deadline) as Hrd by (unfold window_ok, After in Hw; bsplit; lia).
  rewrite (checkFresh_ok signed) by (done || lia). cbn [mbind result_bind].
  assert (record_bounded (newStartedPayload signed v received deadline (j_nextSequence j) (j_lastRecordDigest j))) as Hb.
  { apply (started_bounded cver); try done; [by apply canonicalTime_printable|by apply canonicalTime_printable|lia]. }
  pose proof (marshalRecordPayload_ok _ Hb eq_refl) as Hm. rewrite Hm.
  destruct (started_payload cver rver _ _ _ _ _ _ _ Hj Hv Hr Hd Hw Hex Hlt Hnone Hm) as [Hf _].
  cbn [mbind result_bind]. set (payload := bytes_of _) in *. clearbody payload.
  rewrite (proj2 (encodeFrame_iff recordStarted (j_nextSequence j) payload _ ltac:(lia)) (conj Hf eq_refl)). cbn [mbind result_bind].
  destruct (frame_length_bounds _ _ _ Hf) as [_ Hlen]. set (frame := frame_of _ _ _) in *. clearbody frame.
  unfold commit, appendLocked. cbn [all_well io_file io_directory io_written io_writeErr io_syncFile io_syncDirectory default negb orb].
  rewrite (proj2 (Z.eqb_eq _ _)), (proj2 (Z.ltb_ge _ _)) by (done || lia). cbn [negb orb from_option]. rewrite Nat.eqb_refl. cbn [negb].
  eexists _, _. split; reflexivity.
Qed.

(** ** Offline validation *)

Lemma ValidateBytes_scan contents : ValidateBytes cver rver contents =
  match Open cver rver contents with
  | Err e => Err e
  | Ok j => Ok (MkValidationSummary
      (sort_slice (cmp_on ve_StartedSequence Z.compare) (validation_entry <$> (map_to_list (j_entries j)).*2))
      (j_nextSequence j - 1))
  end.
Proof.
  unfold ValidateBytes, Open. rewrite scan_validate. fold (validate cver rver contents scan_start).
  destruct (_ || _ || _); [done|]. destruct (_ <? _); [done|]. by destruct (validate cver rver contents scan_start).
Qed.

Lemma validation_entry_sequence st : ve_StartedSequence (validation_entry st) = st_sequence st.
Proof. unfold validation_entry. by destruct (st_terminal st). Qed.

(** No two entries share a sequence number, so sorting by it leaves no choice. *)
Lemma validation_sequences j : consistent cver rver j →
  NoDup (ve_StartedSequence <$> (validation_entry <$> (map_to_list (j_entries j)).*2)).
Proof.
  intros Hj. pose proof (consistent_inv cver rver _ Hj) as Hinv. rewrite <-!list_fmap_compose.
  apply NoDup_fmap_2_strong; [|apply NoDup_map_to_list].
  intros [i a] [k b] Ha%elem_of_map_to_list Hb%elem_of_map_to_list. cbn. rewrite !validation_entry_sequence. intros Heq.
  assert (i = k) as -> by by eapply (si_distinct _ _ _ Hinv i k a b). congruence.
Qed.

End trace.

(** ** A sample run

    The contract vector's capability is begun, executed and completed, with the
    stand-in signature scheme of [toy_ed25519]. *)

Definition sample_received : time := 63919936806000000000.
Definition sample_deadline : time := 63919936807000000000.

Definition sample_empty : Journal := MkJournal [] ∅ 1 "" 0 false false.

Definition sample_begin : Journal * result JournalError Outcome :=
  @Begin toy_ed25519 sample_verifier all_well sample_empty sample_signed sample_received sample_deadline.

(** The vector's result, for the record at sequence 1. *)
Definition sample_value : ResultValue :=
  MkResultValue (r_ResultID vector_result) (r_CapabilityID vector_result) (r_CapabilityDigest vector_result) "add"
    (r_ActionID vector_result) (r_ArtifactDigest vector_result) "203.0.113.20" "applied" (Some "success")
    "active" None (Some 1799) (r_OwnedSchemaDigest vector_result) (r_StartedAt vector_result)
    (r_CompletedAt vector_result) 1 "none".

Definition sample_result : SignedResult := Eval vm_compute in
  MkSignedResult "executor-key" "executor-1" (marshalResult sample_value)
    (toy_mac (hash32 sample_seed) (signingInput ResultSigningDomain (marshalResult sample_value))).

Definition sample_complete : Journal * result JournalError (TerminalSnapshot * bool) :=
  @Complete toy_ed25519 sample_result_verifier all_well sample_begin.1 sample_result.

Definition sample_permit : Permit := MkPermit sample_verified sample_deadline false.

Lemma sample_permits : permits_of sample_begin.2 = [sample_permit].
Proof. vm_compute. reflexivity. Qed.

Definition sample_world : world := after_begin [] [] [] sample_begin.

Definition sample_done : world := after_complete sample_world sample_complete.

Lemma sample_steps : rtc (@step toy_ed25519 sample_verifier sample_result_verifier) (boot []) sample_world.
Proof.
  eapply rtc_l; [apply (step_open _ _ _ _ _ sample_empty); vm_compute; reflexivity|].
  apply rtc_once. unfold sample_world, sample_begin.
  exact (run_begin sample_verifier sample_result_verifier [] [] [] sample_empty all_well sample_signed
    sample_received sample_deadline).
Qed.

Lemma sample_completes : rtc (@step toy_ed25519 sample_verifier sample_result_verifier) sample_world sample_done.
Proof.
  apply rtc_once. unfold sample_done, sample_complete.
  apply (run_complete sample_verifier sample_result_verifier sample_world sample_begin.1 all_well sample_result). reflexivity.
Qed.

Lemma sample_begun_reachable : @reachable toy_ed25519 sample_verifier sample_result_verifier sample_world.
Proof. exists []. exact sample_steps. Qed.

Lemma sample_done_reachable : @reachable toy_ed25519 sample_verifier sample_result_verifier sample_done.
Proof. exists []. etransitivity; [exact sample_steps|exact sample_completes]. Qed.

(** ** Claims *)

(** Frames read back: for a sequence number and a list of bytes, decoding
    the bytes gives a record type, sequence and payload exactly when encoding
    these three gives the bytes. *)
Theorem frame_round_trip t s p f : Forall is_byte f → 0 <= s →
  decodeFrame f = Ok (MkDecodedFrame t s p) ↔ encodeFrame t s p = Ok f.
Proof.
  intros Hf Hs. rewrite encodeFrame_iff by done. split.
  - intros Hd. apply (decodeFrame_sound _ _ Hf Hd).
  - intros [Hv ->]. by apply decode_frame_of.
Qed.

Lemma frame_round_trip_witness : decodeFrame (frame_of 1 7 [1; 2; 3]) = Ok (MkDecodedFrame 1 7 [1; 2; 3]).
Proof.
  apply frame_round_trip.
  - apply Forall_forall. intros x Hx. revert x Hx. apply Forall_forall. apply (bool_decide_eq_true_1 (Forall (λ x, 0 <= x < 256) _)).
    vm_compute. reflexivity.
  - lia.
  - vm_compute. reflexivity.
Defined.

(** C4. A restart loses and invents nothing: in every state a process can
    reach, through any requests, results, input/output failures, crashes and
    restarts, opening the file of a journal that is not poisoned succeeds and
    rebuilds exactly its index, its next sequence number and its chain
    digest. *)
Theorem restart_rebuilds_index `{Ed25519} cver rver w j : reachable cver rver w → w_journal w = Some j →
  j_poisoned j = false →
  ∃ j0, Open cver rver (j_file j) = Ok j0 ∧ index j0 = index j ∧ j_size j0 = j_size j.
Proof. intros Hr Hj. apply Open_healthy. by eapply reachable_consistent. Qed.

Lemma restart_rebuilds_index_witness : ∃ j0, @Open toy_ed25519 sample_verifier sample_result_verifier (j_file sample_begin.1) = Ok j0 ∧
  index j0 = index sample_begin.1 ∧ j_size j0 = j_size sample_begin.1.
Proof.
  apply (@restart_rebuilds_index toy_ed25519 sample_verifier sample_result_verifier sample_world).
  - exact sample_begun_reachable.
  - reflexivity.
  - vm_compute. reflexivity.
Defined.



(** C3. At most one execution per capability: over every history, including
    input/output failures, crashes and restarts at any point, no capability
    identifier is released for execution twice, and whatever is released was
    verified with the dispatcher's key and is inside its validity window. *)
Theorem executes_at_most_once `{Ed25519} cver rver w : reachable cver rver w →
  NoDup (release_id <$> w_released w) ∧ Forall (release_ok cver) (w_released w).
Proof. intros [_ Hp]%reachable_inv. split; [apply (pi_released _ _ _ Hp)|apply (pi_releases _ _ _ Hp)]. Qed.

Definition sample_taken : world := after_take sample_world 0 sample_received (take_at OperationAdd sample_permit sample_received).

Lemma sample_taken_reachable : @reachable toy_ed25519 sample_verifier sample_result_verifier sample_taken.
Proof.
  exists []. etransitivity; [exact sample_steps|]. apply rtc_once.
  apply (run_take sample_verifier sample_result_verifier sample_world 0 sample_permit OperationAdd sample_received).
  change (w_permits sample_world) with (permits_of sample_begin.2). by rewrite sample_permits.
Qed.

Lemma executes_at_most_once_witness : release_id <$> w_released sample_taken = ["019b0000-0000-7000-8000-000000000210"] ∧
  Forall (@release_ok toy_ed25519 sample_verifier) (w_released sample_taken).
Proof.
  split; [vm_compute; reflexivity|]. apply (@executes_at_most_once toy_ed25519 sample_verifier sample_result_verifier).
  exact sample_taken_reachable.
Defined.

(** A recorded result is permanent: once a lookup answers with the terminal
    state of a capability, every later lookup of the same request that the
    journal answers at all, however many restarts later, returns the same
    signed result. *)
Theorem terminal_result_is_permanent `{Ed25519} cver rver w j w' j' signed o : reachable cver rver w → w_journal w = Some j →
  Lookup cver j signed = Ok o → o_state o = StateTerminal → rtc (step cver rver) w w' → w_journal w' = Some j' →
  readyLocked j' = Ok tt → Lookup cver j' signed = Ok o.
Proof.
  intros [Hs _]%reachable_inv Hj Hl Ho Hst Hj' Hready.
  destruct (steps_knows cver rver w w' (j_entries j) Hst Hs) as [_ Hk]; [unfold knows; by rewrite Hj|].
  unfold knows in Hk. rewrite Hj' in Hk. by eapply Lookup_terminal_grows.
Qed.

Lemma terminal_result_is_permanent_witness : ∃ o, o_state o = StateTerminal ∧
  @Lookup toy_ed25519 sample_verifier sample_complete.1 sample_signed = Ok o.
Proof.
  assert (o_state <$> @Lookup toy_ed25519 sample_verifier sample_complete.1 sample_signed = Ok StateTerminal) as Hs
    by (vm_compute; reflexivity).
  destruct (@Lookup toy_ed25519 sample_verifier sample_complete.1 sample_signed) as [o|e] eqn:Hl; [|discriminate Hs].
  pose proof (f_equal (from_ok StateUnseen) Hs : o_state o = StateTerminal) as Ho.
  assert (readyLocked sample_complete.1 = Ok tt) as Hr by (vm_compute; reflexivity).
  pose proof (@terminal_result_is_permanent toy_ed25519 sample_verifier sample_result_verifier sample_done sample_complete.1
    sample_done sample_complete.1 sample_signed o sample_done_reachable eq_refl Hl Ho (rtc_refl _ _) eq_refl Hr) as Hfinal.
  rewrite Hl in Hfinal. exact (ex_intro _ o (conj Ho Hfinal)).
Defined.

(** Offline validation is the startup scan: [ValidateBytes] fails exactly
    when opening the same bytes fails, with the same error; otherwise its
    summary lists each index entry once, in strictly increasing order of
    sequence number, so the order of Go's map iteration does not show. *)
Theorem validation_is_startup_scan `{Ed25519} cver rver contents :
  match Open cver rver contents with
  | Err e => ValidateBytes cver rver contents = Err e
  | Ok j => ∃ entries, ValidateBytes cver rver contents = Ok (MkValidationSummary entries (j_nextSequence j - 1)) ∧
      entries ≡ₚ validation_entry <$> (map_to_list (j_entries j)).*2 ∧
      NoDup (ve_StartedSequence <$> entries) ∧ StronglySorted Z.le (ve_StartedSequence <$> entries)
  end.
Proof.
  rewrite ValidateBytes_scan. destruct (Open cver rver contents) as [j|e] eqn:Ho; [|done]. eexists. split; [done|].
  apply Open_consistent in Ho as [Hj _]. pose proof (validation_sequences cver rver j Hj) as Hn.
  split; [apply sort_slice_perm|]. split; [by rewrite sort_slice_perm|].
  pose proof (sort_slice_sorted (cmp_on ve_StartedSequence Z.compare)
    (validation_entry <$> (map_to_list (j_entries j)).*2)) as Hs.
  induction Hs as [|e l _ IH Hl]; [constructor|]. cbn. constructor; [done|]. apply Forall_fmap.
  eapply Forall_impl; [exact Hl|]. intros x Hx. unfold cmp_le, cmp_on in Hx. cbn. done.
Qed.

(** A fresh request is served: for a capability that verifies and whose
    identifier is new, with a canonical window of at most two seconds inside
    its validity, a ready journal with room for a frame and a disk without
    errors records the start and returns a permit, and the permit releases the
    capability at any instant before the deadline. *)
Theorem fresh_capability_starts `{Ed25519} cver rver w j signed v received deadline : reachable cver rver w →
  w_journal w = Some j → readyLocked j = Ok tt → Verify cver signed = Ok v → cv_executorID cver ≠ "" →
  j_entries j !! v_CapabilityID (vc_value v) = None → canonicalTime received = true → canonicalTime deadline = true →
  window_ok received deadline = true → deadline <= v_ExpiresAt (vc_value v) → v_NotBefore (vc_value v) <= received →
  j_size j + MaxFrameBytes <= MaxJournalBytes →
  ∃ j' o p, Begin cver all_well j signed received deadline = (j', Ok o) ∧ o_state o = StateNewStarted ∧
    o_permit o = Some p ∧ readyLocked j' = Ok tt ∧
    ∀ now, received <= now < deadline → (take_at (v_Operation (vc_value v)) p now).2 = Ok v.
Proof.
  intros Hr Hj Hready Hv Hx Hnone Hrc Hdc Hw Hex Hnb Hfit. pose proof (reachable_consistent _ _ _ _ Hr Hj) as Hc.
  destruct (Begin_starts cver rver j signed v received deadline) as (j' & o & Hb & Hp); try assumption.
  destruct (Begin_ok cver rver _ _ _ _ _ _ _ Hc Hb) as (_ & _ & _ & Hnew).
  destruct (Hnew o _ eq_refl Hp) as (v' & _ & _ & _ & Hs & _ & _ & _ & Hready').
  exists j', o, (MkPermit v deadline false). split_and!; try assumption. intros now Hnow.
  unfold take_at, checkAndUse, Before. cbn [pm_verified pm_deadline pm_used]. rewrite String.eqb_refl. cbn [negb].
  rewrite (proj2 (Z.ltb_lt _ _)) by lia. cbn [negb snd pm_verified].
  rewrite (proj2 (execute_at_ok cver signed v _ now v Hv Hx)); [done|]. split_and!; [done|done|lia|lia].
Qed.

Lemma fresh_capability_starts_witness : ∃ j' o p,
  @Begin toy_ed25519 sample_verifier all_well sample_empty sample_signed sample_received sample_deadline = (j', Ok o) ∧
  o_state o = StateNewStarted ∧ o_permit o = Some p ∧ readyLocked j' = Ok tt ∧
  ∀ now, sample_received <= now < sample_deadline →
    (take_at (v_Operation (vc_value sample_verified)) p now).2 = Ok sample_verified.
Proof.
  apply (@fresh_capability_starts toy_ed25519 sample_verifier sample_result_verifier (MkWorld (Some sample_empty) [] [] [])).
  - exists []. apply rtc_once. apply (step_open _ _ _ _ _ sample_empty). vm_compute. reflexivity.
  - reflexivity.
  - reflexivity.
  - exact sample_verifies.
  - discriminate.
  - reflexivity.
  - vm_compute. reflexivity.
  - vm_compute. reflexivity.
  - vm_compute. reflexivity.
  - vm_compute. discriminate.
  - vm_compute. discriminate.
  - vm_compute. discriminate.
Defined.


