(* ===== verification/Executor.v ===== *)
(** * The executor service ([internal/enforcement/executor])

    Models [service.go], [result.go] and [runner.go]: one signed capability in,
    one signed terminal result out, each in its envelope.  The service asks its surroundings many
    questions (the clock, the request's context, random bytes, the nft runner,
    the replay journal); [prog] is the tree of its questions, one constructor
    each, and [exec] runs it against a script of answers.  The script may say
    anything, in particular the runner is not trusted; when it ends, the process
    has died at that point. *)

From S2P Require Import Prelude GoStrings Sha256 GoTime Policy Capability ExecResult JournalFrame JournalRecord Journal Ipc.
Local Open Scope Z_scope.

Inductive ExecErrorCode :=
| XErrorConfiguration | XErrorRequest | XErrorCapability | XErrorArtifact | XErrorSchema | XErrorReplay | XErrorFreshness
| XErrorTargetState | XErrorJournal | XErrorRunner | XErrorDeadline | XErrorResult | XErrorResultSigning
| XErrorResultDurability.

Definition MaxOperationDuration : duration := MaxDeadline.

(** [nftvalidate.PinnedLiveSchemaDigest] *)
Definition PinnedLiveSchemaDigest : string := "sha256:d5582a75817d349b12f292d212483bb0c2a5db66afde7d73c6d11050a5eb5997".

(** ** The runner's interface ([runner.go]) *)

Record Mutation := MkMutation { mu_operation : string; mu_stdin : string }.

Definition FixedNFTBinaryPath : string := "/usr/sbin/nft".
Definition fixedMutationArguments : list string := ["-f"; "-"].
Definition fixedInspectArguments : list string := ["--json"; "list"; "set"; "inet"; "sentinelflow"; "blacklist_ipv4"].

Record Inspection := MkInspection {
  is_actionID : string;
  is_targetIPv4 : string;
  is_originalAddDigest : string;
  is_ownedSchemaDigest : string
}.

Record Observation := MkObservation {
  ob_State : string;
  ob_TargetIPv4 : string;
  ob_OwnedSchemaDigest : string;
  ob_RemainingTTLSeconds : Z
}.

Definition inspectionFor (value : Value) : Inspection :=
  MkInspection (v_ActionID value) (v_TargetIPv4 value) (v_OriginalAddDigest value) (v_OwnedSchemaDigest value).

Definition mismatchObservation (expected : Inspection) : Observation :=
  MkObservation ReadbackMismatch (is_targetIPv4 expected) (is_ownedSchemaDigest expected) 0.

Definition unavailableObservation (request : Inspection) : Observation :=
  MkObservation ReadbackUnavailable (is_targetIPv4 request) (is_ownedSchemaDigest request) 0.

Definition validateObservation (observation : Observation) (expected : Inspection) (maximumTTL : Z) : Observation * bool :=
  if negb (String.eqb (ob_TargetIPv4 observation) (is_targetIPv4 expected))
     || negb (String.eqb (ob_OwnedSchemaDigest observation) (is_ownedSchemaDigest expected))
  then (mismatchObservation expected, false)
  else if String.eqb (ob_State observation) ReadbackActive then
    if (ob_RemainingTTLSeconds observation =? 0) || (MaxTTLSeconds <? ob_RemainingTTLSeconds observation)
       || (negb (maximumTTL =? 0) && (maximumTTL <? ob_RemainingTTLSeconds observation))
    then (mismatchObservation expected, false) else (observation, true)
  else if one_of (ob_State observation) [ReadbackAbsent; ReadbackMismatch; ReadbackUnavailable] then
    if negb (ob_RemainingTTLSeconds observation =? 0) then (mismatchObservation expected, false) else (observation, true)
  else (mismatchObservation expected, false).

(** ** Questions *)

(** The request's context, and the contexts derived from it. *)
Inductive context := Request | WithTimeout (parent : context) (timeout : duration).

Inductive prog (A : Type) : Type :=
| Ret (a : A)
| Clock (k : time → prog A)
| ContextErr (c : context) (k : bool → prog A)
| ContextDeadline (c : context) (k : option time → prog A)
| AcquireGate (c : context) (k : bool → prog A)
| RandomRead (k : option (list Z) → prog A)
| RunInspect (c : context) (i : Inspection) (k : Observation * bool → prog A)
| RunMutate (c : context) (m : Mutation) (k : string * bool → prog A)
| JournalLookup (signed : SignedCapability) (k : result JournalError Outcome → prog A)
| JournalBegin (signed : SignedCapability) (receivedAt deadlineAt : time) (k : result JournalError Outcome → prog A)
| JournalComplete (signed : SignedResult) (k : result JournalError (TerminalSnapshot * bool) → prog A).

Arguments Ret {A} a.
Arguments Clock {A} k.
Arguments ContextErr {A} c k.
Arguments ContextDeadline {A} c k.
Arguments AcquireGate {A} c k.
Arguments RandomRead {A} k.
Arguments RunInspect {A} c i k.
Arguments RunMutate {A} c m k.
Arguments JournalLookup {A} signed k.
Arguments JournalBegin {A} signed receivedAt deadlineAt k.
Arguments JournalComplete {A} signed k.

Fixpoint prog_bind {A B} (f : A → prog B) (p : prog A) : prog B :=
  match p with
  | Ret a => f a
  | Clock k => Clock (λ x, prog_bind f (k x))
  | ContextErr c k => ContextErr c (λ x, prog_bind f (k x))
  | ContextDeadline c k => ContextDeadline c (λ x, prog_bind f (k x))
  | AcquireGate c k => AcquireGate c (λ x, prog_bind f (k x))
  | RandomRead k => RandomRead (λ x, prog_bind f (k x))
  | RunInspect c i k => RunInspect c i (λ x, prog_bind f (k x))
  | RunMutate c m k => RunMutate c m (λ x, prog_bind f (k x))
  | JournalLookup s k => JournalLookup s (λ x, prog_bind f (k x))
  | JournalBegin s r d k => JournalBegin s r d (λ x, prog_bind f (k x))
  | JournalComplete s k => JournalComplete s (λ x, prog_bind f (k x))
  end.

Global Instance prog_MRet : MRet prog := @Ret.
Global Instance prog_MBind : MBind prog := @prog_bind.

(** What the service returns from a question that failed. *)
Definition reply : Type := result ExecErrorCode SignedResult.

(** ** Helpers of [service.go] *)

Definition now : prog time := Clock (λ t, Ret (Truncate t Millisecond)).

Definition checkFreshValue (value : Value) (at_ : time) : option ExecErrorCode :=
  if negb (String.eqb (v_Operation value) OperationAdd) && negb (String.eqb (v_Operation value) OperationRevoke)
     && negb (String.eqb (v_Operation value) OperationInspect)
  then Some XErrorCapability
  else if IsZero at_ || Before at_ (v_IssuedAt value) || Before at_ (v_NotBefore value)
          || negb (Before at_ (v_ExpiresAt value))
  then Some XErrorFreshness
  else None.

Definition operationDeadline (ctx : context) (at_ expiresAt : time) : prog (option time) :=
  ContextErr ctx (λ failed,
    if failed : bool then Ret None
    else
      let deadline := at_ + MaxOperationDuration in
      let deadline := if Before expiresAt deadline then expiresAt else deadline in
      ContextDeadline ctx (λ contextDeadline,
        let deadline :=
          match contextDeadline with
          | Some c => if Before c deadline then Truncate c Millisecond else deadline
          | None => deadline
          end in
        let deadline := Truncate deadline Millisecond in
        if negb (After deadline at_) || (MaxOperationDuration <? Sub deadline at_) then Ret None
        else Ret (Some deadline))).

(** [acquire]: the gate is free, or the context ends first. *)
Definition acquire (ctx : context) : prog bool :=
  ContextErr ctx (λ failed,
    if failed : bool then Ret false
    else AcquireGate ctx (λ granted,
      if negb granted then Ret false
      else ContextErr ctx (λ failed, Ret (negb failed)))).

Definition exactDigest (data expected : string) : bool := String.eqb expected (digest data).

(** [fmt.Sprintf("%08x-%04x-%04x-%04x-%012x", ...)] of byte slices. *)
Definition uuid_text (value : list Z) : string :=
  hex_of_bytes (slice value 0 4) +:+ "-" +:+ hex_of_bytes (slice value 4 6) +:+ "-" +:+ hex_of_bytes (slice value 6 8)
  +:+ "-" +:+ hex_of_bytes (slice value 8 10) +:+ "-" +:+ hex_of_bytes (slice value 10 16).

Definition newUUIDv4 : prog (option string) :=
  RandomRead (λ bytes,
    match bytes with
    | None => Ret None
    | Some value =>
        let value := <[6%nat := Z.lor (Z.land (nth 6 value 0) 15) 64]> value in
        let value := <[8%nat := Z.lor (Z.land (nth 8 value 0) 63) 128]> value in
        Ret (Some (uuid_text value))
    end).

Definition classifyJournal (e : JournalError) : ExecErrorCode :=
  match e with JErrorConflict => XErrorReplay | _ => XErrorJournal end.

Definition classifyRunnerContext (ctx : context) : prog ExecErrorCode :=
  ContextErr ctx (λ failed, Ret (if failed : bool then XErrorDeadline else XErrorRunner)).

Definition classifyMutation (ctx : context) (outcome : string) (err : bool) : prog string :=
  ContextErr ctx (λ failed, Ret (
    if failed : bool then NFTExitTimeout
    else if String.eqb outcome NFTExitSuccess then (if err then NFTExitNonzero else NFTExitSuccess)
    else if one_of outcome [NFTExitNonzero; NFTExitTimeout; NFTExitSignaled] then outcome
    else NFTExitNonzero)).

(** [inspect]: the checked observation, and the error when there is one. *)
Definition inspect (ctx : context) (request : Inspection) (maximumTTL : Z) : prog (Observation * option ExecErrorCode) :=
  RunInspect ctx request (λ '(observation, err),
    if err : bool then
      code ← classifyRunnerContext ctx;
      Ret (unavailableObservation request, Some code)
    else
      let '(checked, valid) := validateObservation observation request maximumTTL in
      Ret (checked, if valid : bool then None else Some XErrorTargetState)).

(** ** Results ([result.go]) *)

(** A result by the fields its constructors choose; the rest is zero. *)
Definition outcome_result (operation class : string) (exit : option string) (readback : string) (ttl : option Z)
    (code : string) : ResultValue :=
  MkResultValue "" "" "" operation "" "" "" class exit readback None ttl "" 0 0 0 code.

Definition ResultErrorIndeterminate : string := "indeterminate".
Definition ResultErrorTargetExists : string := "target_exists".
Definition ResultErrorNFTFailed : string := "nft_failed".
Definition ResultErrorReadbackFailed : string := "readback_failed".
Definition ResultErrorReadbackMismatch : string := "readback_mismatch".
Definition ResultErrorDeadlineExceeded : string := "deadline_exceeded".

Definition observed_ttl (observation : Observation) : option Z :=
  if String.eqb (ob_State observation) ReadbackActive then Some (ob_RemainingTTLSeconds observation) else None.

(** [baseResult], the exit class and [applyObservation], with the class and
    code the caller's switch selects. *)
Definition observed_result (value : Value) (exit : string) (observation : Observation) (verdict : string * string)
  : ResultValue :=
  outcome_result (v_Operation value) verdict.1 (Some exit) (ob_State observation) (observed_ttl observation) verdict.2.

(** The switch [addResult] and [revokeResult] share, up to the state that is
    wanted and the class it earns. *)
Definition mutation_verdict (wanted success exit state : string) (failed : bool) : string * string :=
  if String.eqb exit NFTExitSuccess && negb failed && String.eqb state wanted then (success, ResultErrorNone)
  else if String.eqb state ReadbackMismatch then (ClassificationIndeterminate, ResultErrorReadbackMismatch)
  else if failed || String.eqb state ReadbackUnavailable then (ClassificationIndeterminate, ResultErrorReadbackFailed)
  else if String.eqb state wanted && negb (String.eqb exit NFTExitSuccess) then
    (ClassificationIndeterminate,
     if String.eqb exit NFTExitTimeout then ResultErrorDeadlineExceeded else ResultErrorNFTFailed)
  else if String.eqb exit NFTExitTimeout then (ClassificationFailed, ResultErrorDeadlineExceeded)
  else if negb (String.eqb exit NFTExitSuccess) then (ClassificationFailed, ResultErrorNFTFailed)
  else (ClassificationFailed, ResultErrorReadbackFailed).

Definition addResult (value : Value) (exit : string) (observation : Observation) (failed : bool) : ResultValue :=
  observed_result value exit observation
    (mutation_verdict ReadbackActive ClassificationApplied exit (ob_State observation) failed).

Definition revokeResult (value : Value) (exit : string) (observation : Observation) (failed : bool) : ResultValue :=
  observed_result value exit observation
    (mutation_verdict ReadbackAbsent ClassificationRevoked exit (ob_State observation) failed).

Definition revokedResult (value : Value) (exit : string) : ResultValue :=
  outcome_result (v_Operation value) ClassificationRevoked (Some exit) ReadbackAbsent None ResultErrorNone.

Definition inspectResult (ctx : context) (value : Value) (observation : Observation) (failed : bool) : prog ResultValue :=
  let result exit :=
    observed_result value exit observation
      (let state := ob_State observation in
       if failed then (ClassificationIndeterminate, ResultErrorReadbackFailed)
       else if String.eqb state ReadbackActive then (ClassificationInspectActive, ResultErrorNone)
       else if String.eqb state ReadbackAbsent then (ClassificationInspectAbsent, ResultErrorNone)
       else if String.eqb state ReadbackMismatch then (ClassificationInspectMismatch, ResultErrorNone)
       else (ClassificationIndeterminate, ResultErrorReadbackFailed)) in
  if failed then ContextErr ctx (λ done, Ret (result (if done : bool then NFTExitTimeout else NFTExitNonzero)))
  else Ret (result NFTExitSuccess).

Definition recoveredAddResult (value : Value) (observation : Observation) (failed : bool) : ResultValue :=
  observed_result value NFTExitNotInvoked observation
    (let state := ob_State observation in
     if negb failed && String.eqb state ReadbackActive then (ClassificationRecoveredActive, ResultErrorNone)
     else if String.eqb state ReadbackMismatch then (ClassificationIndeterminate, ResultErrorReadbackMismatch)
     else if failed || String.eqb state ReadbackUnavailable then (ClassificationIndeterminate, ResultErrorReadbackFailed)
     else (ClassificationIndeterminate, ResultErrorIndeterminate)).

Definition recoveredRevokeResult (value : Value) (observation : Observation) (failed : bool) : ResultValue :=
  observed_result value NFTExitNotInvoked observation
    (let state := ob_State observation in
     if negb failed && String.eqb state ReadbackAbsent then (ClassificationRevoked, ResultErrorNone)
     else if String.eqb state ReadbackMismatch then (ClassificationIndeterminate, ResultErrorReadbackMismatch)
     else if failed || String.eqb state ReadbackUnavailable then (ClassificationIndeterminate, ResultErrorReadbackFailed)
     else (ClassificationIndeterminate, ResultErrorIndeterminate)).

Definition terminalFailure (value : Value) (exit : string) (observation : Observation) (code : string) : ResultValue :=
  outcome_result (v_Operation value) ClassificationFailed (Some exit) (ob_State observation) None code.

(** Late completion overrides the verdict but not what was observed. *)
Definition deadline_exceeded (r : ResultValue) : ResultValue :=
  outcome_result (r_Operation r) ClassificationIndeterminate (r_NFTExitClass r) (r_ReadbackState r)
    (r_RemainingTTLSeconds r) ResultErrorDeadlineExceeded.

(** The fields [finishPrepared] fills in, with the times. *)
Definition bound_result (r : ResultValue) (startedAt completedAt : time) (identifier : string) (started : StartedSnapshot)
    (value : Value) : ResultValue :=
  MkResultValue identifier (v_CapabilityID value) (ss_CapabilityDigest started) (v_Operation value) (v_ActionID value)
    (v_ArtifactDigest value) (v_TargetIPv4 value) (r_Classification r) (r_NFTExitClass r) (r_ReadbackState r)
    (r_ElementHandle r) (r_RemainingTTLSeconds r) (v_OwnedSchemaDigest value) startedAt completedAt
    (ss_Sequence started) (r_ErrorCode r).

Inductive resultAuthority := ByPermit (p : Permit) | ByRecovery (r : Recovery).

Definition authority_value (a : resultAuthority) : Value :=
  match a with ByPermit p => vc_value (pm_verified p) | ByRecovery r => vc_value (rc_verified r) end.

Section service.
  Context `{Ed25519}.

Record Service := MkService { sv_verifier : CapabilityVerifier; sv_signer : ResultSigner; sv_dispatchKeyID : string }.

Definition New (verifier : CapabilityVerifier) (signer : ResultSigner) (dispatchKeyID : string)
  : result ExecErrorCode Service :=
  if String.eqb dispatchKeyID "" || negb (String.eqb dispatchKeyID (cv_keyID verifier))
     || String.eqb (cv_executorID verifier) ""
  then Err XErrorConfiguration
  else Ok (MkService verifier signer dispatchKeyID).

Definition authority_SignResult (a : resultAuthority) (signer : ResultSigner) (checked : CheckedResult)
  : result SignError SignedResult :=
  match a with
  | ByPermit p => permit_SignResult p signer checked
  | ByRecovery r => recovery_SignResult r signer checked
  end.

Definition finishPrepared (s : Service) (started : StartedSnapshot) (authority : resultAuthority) (r : ResultValue)
    (startedAt completedAt : time) : prog reply :=
  identifier ← newUUIDv4;
  match identifier with
  | None => Ret (Err XErrorResult)
  | Some identifier =>
      match CheckResult (bound_result r startedAt completedAt identifier started (authority_value authority)) with
      | Err _ => Ret (Err XErrorResult)
      | Ok checked =>
          match authority_SignResult authority (sv_signer s) checked with
          | Err _ => Ret (Err XErrorResultSigning)
          | Ok signed =>
              JournalComplete signed (λ completed,
                match completed with
                | Err _ => Ret (Err XErrorResultDurability)
                | Ok (terminal, appended) => Ret (Ok (if appended : bool then signed else ts_signed terminal))
                end)
          end
      end
  end.

Definition finish (s : Service) (ctx : context) (started : StartedSnapshot) (authority : resultAuthority) (r : ResultValue)
  : prog reply :=
  completedAt ← now;
  ContextErr ctx (λ failed,
    let r := if failed || After completedAt (ss_DeadlineAt started) then deadline_exceeded r else r in
    finishPrepared s started authority r (ss_ReceivedAt started) completedAt).

Definition execute (s : Service) (ctx : context) (outcome : Outcome) (permit : Permit) (preflight : Observation)
  : prog reply :=
  let started := o_started outcome in
  let value := vc_value (pm_verified permit) in
  at_ ← now;
  if String.eqb (v_Operation value) OperationAdd then
    let '(permit, taken) := TakeAddAt permit at_ in
    match taken with
    | Err _ =>
        finish s ctx started (ByPermit permit)
          (terminalFailure value NFTExitNotInvoked preflight ResultErrorDeadlineExceeded)
    | Ok executable =>
        if String.eqb (ob_State preflight) ReadbackActive then
          finish s ctx started (ByPermit permit) (terminalFailure value NFTExitNotInvoked preflight ResultErrorTargetExists)
        else
          RunMutate ctx (MkMutation OperationAdd (vc_artifact executable)) (λ '(outcome, err),
            exit ← classifyMutation ctx outcome err;
            '(observation, inspectErr) ← inspect ctx (inspectionFor value) (vc_addTTL executable);
            finish s ctx started (ByPermit permit) (addResult value exit observation (negb (is_nil inspectErr))))
    end
  else if String.eqb (v_Operation value) OperationRevoke then
    let '(permit, taken) := TakeRevokeAt permit at_ in
    match taken with
    | Err _ =>
        finish s ctx started (ByPermit permit)
          (terminalFailure value NFTExitNotInvoked preflight ResultErrorDeadlineExceeded)
    | Ok executable =>
        if String.eqb (ob_State preflight) ReadbackAbsent then
          finish s ctx started (ByPermit permit) (revokedResult value NFTExitNotInvoked)
        else
          RunMutate ctx (MkMutation OperationRevoke (vc_artifact executable)) (λ '(outcome, err),
            exit ← classifyMutation ctx outcome err;
            '(observation, inspectErr) ← inspect ctx (inspectionFor value) 0;
            finish s ctx started (ByPermit permit) (revokeResult value exit observation (negb (is_nil inspectErr))))
    end
  else if String.eqb (v_Operation value) OperationInspect then
    let '(permit, taken) := TakeInspectAt permit at_ in
    match taken with
    | Err _ =>
        finish s ctx started (ByPermit permit)
          (terminalFailure value NFTExitNotInvoked (unavailableObservation (inspectionFor value)) ResultErrorDeadlineExceeded)
    | Ok _ =>
        '(observation, inspectErr) ← inspect ctx (inspectionFor value) 0;
        r ← inspectResult ctx value observation (negb (is_nil inspectErr));
        finish s ctx started (ByPermit permit) r
    end
  else Ret (Err XErrorCapability).

Definition recover (s : Service) (ctx : context) (outcome : Outcome) : prog reply :=
  match o_recovery outcome with
  | None => Ret (Err XErrorJournal)
  | Some recovery =>
      let started := o_started outcome in
      let value := vc_value (rc_verified recovery) in
      recoveryStartedAt ← now;
      deadline ← operationDeadline ctx recoveryStartedAt (recoveryStartedAt + MaxOperationDuration);
      match deadline with
      | None => Ret (Err XErrorDeadline)
      | Some recoveryDeadlineAt =>
          let recoveryCtx := WithTimeout ctx (Sub recoveryDeadlineAt recoveryStartedAt) in
          let add := String.eqb (v_Operation value) OperationAdd in
          let maximumTTL := if add then ExpectedAddTTLSeconds (rc_verified recovery) else Some 0 in
          if match maximumTTL with None => true | Some n => add && (n =? 0) end then Ret (Err XErrorJournal)
          else
            '(observation, inspectErr) ← inspect recoveryCtx (inspectionFor value) (default 0 maximumTTL);
            let failed := negb (is_nil inspectErr) in
            let finished (r : ResultValue) : prog reply :=
              completedAt ← now;
              ContextErr recoveryCtx (λ late,
                let r := if late || After completedAt recoveryDeadlineAt then deadline_exceeded r else r in
                finishPrepared s started (ByRecovery recovery) r recoveryStartedAt completedAt) in
            if add then finished (recoveredAddResult value observation failed)
            else if String.eqb (v_Operation value) OperationRevoke then finished (recoveredRevokeResult value observation failed)
            else if String.eqb (v_Operation value) OperationInspect then
              r ← inspectResult recoveryCtx value observation failed; finished r
            else Ret (Err XErrorCapability)
      end
  end.

(** A terminal outcome replays its signed result. *)
Definition replay_terminal (outcome : Outcome) : prog reply :=
  match o_terminal outcome with
  | None => Ret (Err XErrorJournal)
  | Some terminal => Ret (Ok (ts_signed terminal))
  end.

(** The second half of [processUnseen], from [beginAt] on. *)
Definition beginUnseen (s : Service) (operationCtx : context) (signed : SignedCapability) (value : Value)
    (preflight : Observation) : prog reply :=
  beginAt ← now;
  match checkFreshValue value beginAt with
  | Some e => Ret (Err e)
  | None =>
      beginDeadline ← operationDeadline operationCtx beginAt (v_ExpiresAt value);
      match beginDeadline with
      | None => Ret (Err XErrorDeadline)
      | Some beginDeadline =>
          JournalBegin signed beginAt beginDeadline (λ begun,
            match begun with
            | Err e => Ret (Err (classifyJournal e))
            | Ok outcome =>
                match o_state outcome with
                | StateTerminal => replay_terminal outcome
                | StateStartedOnly => recover s operationCtx outcome
                | StateNewStarted =>
                    match o_permit outcome with
                    | None => Ret (Err XErrorJournal)
                    | Some permit => execute s operationCtx outcome permit preflight
                    end
                | StateUnseen => Ret (Err XErrorJournal)
                end
            end)
      end
  end.

Definition processUnseen (s : Service) (ctx : context) (signed : SignedCapability) (verified : VerifiedCapability)
  : prog reply :=
  let value := vc_value verified in
  receivedAt ← now;
  match checkFreshValue value receivedAt with
  | Some e => Ret (Err e)
  | None =>
      deadline ← operationDeadline ctx receivedAt (v_ExpiresAt value);
      match deadline with
      | None => Ret (Err XErrorDeadline)
      | Some deadlineAt =>
          let operationCtx := WithTimeout ctx (Sub deadlineAt receivedAt) in
          if String.eqb (v_Operation value) OperationAdd || String.eqb (v_Operation value) OperationRevoke then
            '(preflight, err) ← inspect operationCtx (inspectionFor value) 0;
            match err with
            | Some e => Ret (Err e)
            | None =>
                if String.eqb (ob_State preflight) ReadbackMismatch || String.eqb (ob_State preflight) ReadbackUnavailable
                then Ret (Err XErrorTargetState)
                else beginUnseen s operationCtx signed value preflight
            end
          else beginUnseen s operationCtx signed value (MkObservation "" "" "" 0)
      end
  end.

(** The checks [Process] and [ProcessRecovery] share, and the lookup. *)
Definition authenticate (s : Service) (ctx : context) (signed : SignedCapability)
    (k : VerifiedCapability → Outcome → prog reply) : prog reply :=
  match Verify (sv_verifier s) signed with
  | Err _ => Ret (Err XErrorCapability)
  | Ok verified =>
      if negb (exactDigest (sc_artifact signed) (v_ArtifactDigest (vc_value verified))) then Ret (Err XErrorArtifact)
      else if negb (String.eqb (v_OwnedSchemaDigest (vc_value verified)) PinnedLiveSchemaDigest) then Ret (Err XErrorSchema)
      else
        granted ← acquire ctx;
        if negb granted then Ret (Err XErrorDeadline)
        else
          JournalLookup signed (λ found,
            match found with
            | Err e => Ret (Err (classifyJournal e))
            | Ok outcome => k verified outcome
            end)
  end.

Definition ProcessRecovery (s : Service) (ctx : context) (signed : SignedCapability) : prog reply :=
  authenticate s ctx signed (λ _ outcome,
    match o_state outcome with
    | StateTerminal => replay_terminal outcome
    | StateStartedOnly => recover s ctx outcome
    | StateUnseen => Ret (Err XErrorReplay)
    | StateNewStarted => Ret (Err XErrorJournal)
    end).

Definition Process (s : Service) (ctx : context) (signed : SignedCapability) : prog reply :=
  authenticate s ctx signed (λ verified outcome,
    match o_state outcome with
    | StateTerminal => replay_terminal outcome
    | StateStartedOnly => recover s ctx outcome
    | StateUnseen => processUnseen s ctx signed verified
    | StateNewStarted => Ret (Err XErrorJournal)
    end).

(** The untrusted capability an envelope carries. *)
Definition requested (s : Service) (envelope : RequestEnvelope) : SignedCapability :=
  MkSignedCapability (sv_dispatchKeyID s) (re_capabilityJCS envelope) (re_capabilitySignature envelope) (re_artifact envelope).

Definition HandlePayload (s : Service) (ctx : context) (payload : string) : prog (result ExecErrorCode string) :=
  match DecodeRequestEnvelope payload with
  | Err _ => Ret (Err XErrorRequest)
  | Ok envelope =>
      let signed := requested s envelope in
      out ← (if re_recoveryOnly envelope then ProcessRecovery s ctx signed else Process s ctx signed);
      match out with
      | Err e => Ret (Err e)
      | Ok signedResult =>
          match NewResponseEnvelope (sr_canonical signedResult) (sr_signature signedResult) with
          | Err _ => Ret (Err XErrorResult)
          | Ok response =>
              match EncodeResponseEnvelope response with
              | Err _ => Ret (Err XErrorResult)
              | Ok encoded => Ret (Ok encoded)
              end
          end
      end
  end.

End service.

(** ** Running *)

(** One answer of the surroundings; the journal itself computes its replies,
    only the operating system's part of an append is an answer. *)
Inductive answer :=
| AnTime (t : time)
| AnFailed (b : bool)
| AnDeadline (d : option time)
| AnGranted (b : bool)
| AnRandom (bytes : option (list Z))
| AnInspect (o : Observation * bool)
| AnMutate (o : string * bool)
| AnAppend (io : append_io)
| AnLookup.

(** What the runner was asked to do, and what it said. *)
Inductive event :=
| Inspected (i : Inspection) (o : Observation * bool)
| Mutated (m : Mutation) (o : string * bool).

(** The remaining lifetime is a [uint64]. *)
Definition unsigned_observation (o : Observation * bool) : Observation * bool :=
  (MkObservation (ob_State o.1) (ob_TargetIPv4 o.1) (ob_OwnedSchemaDigest o.1) (u64 (ob_RemainingTTLSeconds o.1)), o.2).

Section running.
  Context `{Ed25519} (capabilityVerifier : CapabilityVerifier) (resultVerifier : ResultVerifier).

(** Run until the program returns or the script ends; an answer to another
    question ends the run as well. *)
Fixpoint exec {A} (script : list answer) (j : Journal) (p : prog A) {struct script}
  : list event * Journal * option A :=
  match p with
  | Ret a => ([], j, Some a)
  | _ =>
      match script with
      | [] => ([], j, None)
      | answer :: script =>
          match p, answer with
          | Clock k, AnTime t => exec script j (k t)
          | ContextErr _ k, AnFailed b => exec script j (k b)
          | ContextDeadline _ k, AnDeadline d => exec script j (k d)
          | AcquireGate _ k, AnGranted b => exec script j (k b)
          | RandomRead k, AnRandom bytes => exec script j (k bytes)
          | RunInspect _ i k, AnInspect o =>
              let o := unsigned_observation o in
              let '(evs, j', r) := exec script j (k o) in (Inspected i o :: evs, j', r)
          | RunMutate _ m k, AnMutate o =>
              let '(evs, j', r) := exec script j (k o) in (Mutated m o :: evs, j', r)
          | JournalLookup s k, AnLookup => exec script j (k (Lookup capabilityVerifier j s))
          | JournalBegin s r d k, AnAppend io =>
              let '(j', out) := Begin capabilityVerifier io j s r d in exec script j' (k out)
          | JournalComplete s k, AnAppend io =>
              let '(j', out) := Complete resultVerifier io j s in exec script j' (k out)
          | _, _ => ([], j, None)
          end
      end
  end.

End running.
