(* ===== verification/ExecutorSpec.v ===== *)
(** * Correctness of the executor service

    A program logic for [prog]: [wp I p Q tr j] says that every run of [p] from
    journal [j], after the runner events [tr], keeps [I] at every point where
    the process might die and ends, if it returns, with [Q]. *)

From S2P Require Import Prelude GoStrings Regex Sha256 Json GoTime Netip Policy ResponsePolicy Capability CapabilitySpec.
From S2P Require Import ExecResult ExecResultSpec JournalFrame JournalRecord JournalRecordSpec Journal JournalSpec JournalTrace Executor.
Local Open Scope Z_scope.

(** ** What the signed bytes of a result say *)

Lemma plain_member k s : plain k → plain s → flat (k, JString s).
Proof. by split. Qed.

Lemma bounded_plain n s : bounded n s → plain s.
Proof. by intros [? _]. Qed.

Lemma result_members_flat v s c : result_ok v → unsigned v → plain s → plain c → Forall flat (result_members v s c).
Proof.
  intros [Hids Hdig Htgt Hop Hcl Hex Hrb Her Hh Httl Hseq _ _ _] [_ Hrem] Hs Hc. split_Forall.
  repeat match goal with H : is_uuid _ = true |- _ => apply uuid_bounded, bounded_plain in H end.
  repeat match goal with H : is_digest _ = true |- _ => apply digest_bounded, bounded_plain in H end.
  apply ipv4_bounded, bounded_plain in Htgt. apply operation_bounded, bounded_plain in Hop.
  apply class_bounded, bounded_plain in Hcl.
  assert (plain (r_ReadbackState v)) by (eapply bounded_plain, (one_of_bounded _ _ 11); [exact Hrb|by vm_compute]).
  assert (plain (r_ErrorCode v)) by (eapply bounded_plain, (one_of_bounded _ _ 18); [exact Her|by vm_compute]).
  assert (flat ("nft_exit_class", nullable_pointer (r_NFTExitClass v))).
  { destruct (r_NFTExitClass v) as [x|]; [|by split]. apply plain_member; [by vm_compute|].
    eapply bounded_plain, (one_of_bounded _ _ 16); [exact Hex|by vm_compute]. }
  assert (flat ("remaining_ttl_seconds", nullable_uint (r_RemainingTTLSeconds v))).
  { destruct (r_RemainingTTLSeconds v) as [n|]; [|by split]. split; [by vm_compute|]. by exists n. }
  unfold result_members. rewrite Hh.
  repeat (apply Forall_cons; split; [first [assumption|apply plain_member; [by vm_compute|first [assumption|by vm_compute]]
    |split; [by vm_compute|]; by eexists; split; [|reflexivity]; lia|by split]|]).
  apply Forall_nil. done.
Qed.

(** The fields that matter here survive signing and parsing. *)
Lemma parsed_result_fields v c : result_ok v → unsigned v → ParseCanonicalResult (marshalResult v) = Ok c →
  r_CapabilityID (cr_value c) = r_CapabilityID v ∧ r_Classification (cr_value c) = r_Classification v ∧
  r_RemainingTTLSeconds (cr_value c) = r_RemainingTTLSeconds v.
Proof.
  intros Hv Hu Hp. unfold ParseCanonicalResult in Hp. inv_bind Hp. rename a into wire. unfold strictDecode in Hbind.
  pass_guards Hbind. unfold marshalResult in Hbind.
  rewrite result_write, parse_write_object in Hbind by (apply result_members_flat; try done; apply format_millis_plain).
  pass_guards Hbind. rewrite decode_result in Hbind by done.
  apply (f_equal (from_ok wire)) in Hbind. cbn [from_ok] in Hbind. subst wire. pass_guards Hp.
  destruct (parseCanonicalTime _) as [t1|]; [|discriminate Hp]. destruct (parseCanonicalTime _) as [t2|]; [|discriminate Hp].
  inv_bind Hp. unfold CheckResult in Hbind. inv_bind Hbind. cbv zeta in Hp. pass_guards Hp.
  apply (f_equal (from_ok a)) in Hbind. cbn [from_ok] in Hbind. subst a.
  apply (f_equal (from_ok c)) in Hp. cbn [from_ok] in Hp. subst c. cbn [cr_value].
  split; [reflexivity|]. split; [reflexivity|].
  set (wire := rev _). unfold wire_result. cbn [r_RemainingTTLSeconds].
  assert (slot wire "remaining_ttl_seconds" = Some (nullable_uint (r_RemainingTTLSeconds v))) as Hslot by reflexivity.
  unfold get_uint_pointer. rewrite Hslot. pose proof (ro_ttl _ Hv) as Httl. destruct Hu as [_ Hrem].
  destruct (r_RemainingTTLSeconds v) as [n|]; [|done]. cbn in Httl. apply Z.ltb_ge in Httl.
  cbn [nullable_uint]. rewrite implode_chars. apply parse_format_uint. lia.
Qed.

Section logic.
  Context `{Ed25519} (cver : CapabilityVerifier) (rver : ResultVerifier).

(** ** The logic *)

Definition assertion : Type := list event → Journal → Prop.

Fixpoint wp {A} (I : assertion) (p : prog A) (Q : A → assertion) (tr : list event) (j : Journal) : Prop :=
  I tr j ∧
  match p with
  | Ret a => Q a tr j
  | Clock k => ∀ t, wp I (k t) Q tr j
  | ContextErr _ k => ∀ b, wp I (k b) Q tr j
  | ContextDeadline _ k => ∀ d, wp I (k d) Q tr j
  | AcquireGate _ k => ∀ b, wp I (k b) Q tr j
  | RandomRead k => ∀ bytes, wp I (k bytes) Q tr j
  | RunInspect _ i k => ∀ o, 0 <= ob_RemainingTTLSeconds o.1 → wp I (k o) Q (tr ++ [Inspected i o]) j
  | RunMutate _ m k => ∀ o, wp I (k o) Q (tr ++ [Mutated m o]) j
  | JournalLookup s k => wp I (k (Lookup cver j s)) Q tr j
  | JournalBegin s r d k => ∀ io, wp I (k (Begin cver io j s r d).2) Q tr (Begin cver io j s r d).1
  | JournalComplete s k => ∀ io, wp I (k (Complete rver io j s).2) Q tr (Complete rver io j s).1
  end.

Lemma wp_here {A} I (p : prog A) Q tr j : wp I p Q tr j → I tr j.
Proof. destruct p; by intros [? _]. Qed.

(** Running a verified program. *)
Lemma wp_exec {A} I (Q : A → assertion) script : ∀ (p : prog A) tr j evs j' r, wp I p Q tr j →
  exec cver rver script j p = (evs, j', r) → I (tr ++ evs) j' ∧ ∀ a, r = Some a → Q a (tr ++ evs) j'.
Proof.
  induction script as [|an script IH]; intros p tr j evs j' r Hwp He.
  - pose proof (wp_here _ _ _ _ _ Hwp) as Hi. destruct p; cbn in He; simplify_eq; rewrite app_nil_r; split; try done.
    intros ? [= <-]. by destruct Hwp.
  - assert (∀ p0 : prog A, ([], j, None) = (evs, j', r) → wp I p0 Q tr j → I (tr ++ evs) j' ∧ ∀ a, r = Some a → Q a (tr ++ evs) j') as Hstop.
    { intros p0 [= <- <- <-] Hp0. rewrite app_nil_r. split; [by eapply wp_here|done]. }
    destruct p as [a|k|c k|c k|c k|k|c i k|c m k|sg k|sg rc dl k|sg k]; cbn [exec] in He; pose proof Hwp as [Hi Hk].
    { simplify_eq. rewrite app_nil_r. split; [done|]. by intros ? [= <-]. }
    all: destruct an as [t|b|d|b|bytes|o|o|io|]; try (by eapply Hstop).
    all: try exact (IH _ _ _ _ _ _ (Hk _) He).
    + cbv zeta in He. destruct (exec cver rver script j _) as [[evs1 j1] r1] eqn:E. simplify_eq.
      rewrite cons_middle, app_assoc. eapply IH; [|exact E]. apply Hk. cbn. apply Z.mod_pos_bound. done.
    + destruct (exec cver rver script j _) as [[evs1 j1] r1] eqn:E. simplify_eq.
      rewrite cons_middle, app_assoc. eapply IH; [|exact E]. apply Hk.
    + exact (IH _ _ _ _ _ _ Hk He).
    + specialize (Hk io). destruct (Begin cver io j sg rc dl) as [j1 out] eqn:E. exact (IH _ _ _ _ _ _ Hk He).
    + specialize (Hk io). destruct (Complete rver io j sg) as [j1 out] eqn:E. exact (IH _ _ _ _ _ _ Hk He).
Qed.

Lemma wp_bind {A B} I (p : prog A) (f : A → prog B) Q tr j :
  wp I p (λ a tr j, wp I (f a) Q tr j) tr j → wp I (p ≫= f) Q tr j.
Proof.
  unfold mbind, prog_MBind. revert tr j.
  induction p as [a|k IH|c k IH|c k IH|c k IH|k IH|c i k IH|c m k IH|sg k IH|sg rc dl k IH|sg k IH]; intros tr j [Hi Hk];
    cbn [prog_bind wp]; [done|..]; (split; [done|]); intros; apply IH; auto.
Qed.

Lemma wp_mono {A} (I I' : assertion) (p : prog A) (Q Q' : A → assertion) tr j :
  (∀ tr j, I tr j → I' tr j) → (∀ a tr j, Q a tr j → Q' a tr j) → wp I p Q tr j → wp I' p Q' tr j.
Proof.
  intros HI HQ. revert tr j.
  induction p as [a|k IH|c k IH|c k IH|c k IH|k IH|c i k IH|c m k IH|sg k IH|sg rc dl k IH|sg k IH]; intros tr j [Hi Hk];
    cbn [wp]; (split; [by apply HI|]); intros; auto.
Qed.

(** The postcondition may use the invariant. *)
Lemma wp_mono_here {A} (I : assertion) (p : prog A) (Q Q' : A → assertion) tr j :
  (∀ a tr j, I tr j → Q a tr j → Q' a tr j) → wp I p Q tr j → wp I p Q' tr j.
Proof.
  intros HQ. revert tr j.
  induction p as [a|k IH|c k IH|c k IH|c k IH|k IH|c i k IH|c m k IH|sg k IH|sg rc dl k IH|sg k IH]; intros tr j [Hi Hk];
    cbn [wp]; (split; [done|]); intros; auto.
Qed.

(** ** Runner events *)

Definition mutations (tr : list event) : list Mutation :=
  omap (λ e, match e with Mutated m _ => Some m | Inspected _ _ => None end) tr.

Lemma mutations_inspected tr i o : mutations (tr ++ [Inspected i o]) = mutations tr.
Proof. unfold mutations. rewrite omap_app. apply app_nil_r. Qed.

Lemma mutations_mutated tr m o : mutations (tr ++ [Mutated m o]) = mutations tr ++ [m].
Proof. unfold mutations. by rewrite omap_app. Qed.

(** What the checked observation of a read-back says about the runner's. *)
Record read_back (request : Inspection) (raw : Observation * bool) (checked : Observation) (err : option ExecErrorCode)
  : Prop := {
  rb_ttl : 0 <= ob_RemainingTTLSeconds checked;
  rb_same : err = None → raw = (checked, false) ∧ ob_TargetIPv4 checked = is_targetIPv4 request ∧
    ob_OwnedSchemaDigest checked = is_ownedSchemaDigest request
}.

Lemma validateObservation_cases o request maximum checked valid :
  validateObservation o request maximum = (checked, valid) →
  checked = mismatchObservation request ∧ valid = false ∨
  checked = o ∧ valid = true ∧ ob_TargetIPv4 o = is_targetIPv4 request ∧
    ob_OwnedSchemaDigest o = is_ownedSchemaDigest request.
Proof.
  unfold validateObservation. destruct (negb _ || _) eqn:Hb; [intros; simplify_eq; by left|].
  apply orb_false_iff in Hb as [H1 H2]. rewrite negb_false_iff in H1, H2. apply String.eqb_eq in H1, H2.
  repeat (case_match; [|]); intros; simplify_eq; first [by left|by right].
Qed.

Lemma wp_inspect {B} (I : assertion) ctx request maximum (f : Observation * option ExecErrorCode → prog B) Q tr j :
  I tr j → (∀ o, I (tr ++ [Inspected request o]) j) →
  (∀ raw checked err, read_back request raw checked err → wp I (f (checked, err)) Q (tr ++ [Inspected request raw]) j) →
  wp I (inspect ctx request maximum ≫= f) Q tr j.
Proof.
  intros Hi Hi' Hf. apply wp_bind. unfold inspect. split; [done|]. intros [o err] Ho. cbn [fst] in Ho. destruct err.
  - apply wp_bind. split; [done|]. intros b. split; [done|]. split; [done|]. apply Hf. by split.
  - destruct (validateObservation o request maximum) as [checked valid] eqn:Hv. split; [done|]. apply Hf.
    apply validateObservation_cases in Hv as [[-> ->]|(-> & -> & ? & ?)]; by split.
Qed.

(** ** The journal under a call *)

(** The journal has only grown from [base] and no capability was started since;
    the runner was asked for the mutations [ms]. *)
Record calm (base : gmap string startedRecord) (ms : list Mutation) (tr : list event) (j : Journal) : Prop := {
  ca_consistent : consistent cver rver j;
  ca_grows : grows base (j_entries j);
  ca_known : dom (j_entries j) = dom base;
  ca_mutations : mutations tr = ms
}.

Lemma calm_here tr j : consistent cver rver j → calm (j_entries j) (mutations tr) tr j.
Proof. by split. Qed.

Lemma calm_inspected base ms tr j i o : calm base ms tr j → calm base ms (tr ++ [Inspected i o]) j.
Proof. intros []. split; try done. by rewrite mutations_inspected. Qed.

Lemma appendLocked_entries io j frame j' r : appendLocked io j frame = (j', r) → j_entries j' = j_entries j.
Proof. unfold appendLocked, poison. intros Ha. repeat case_match; simplify_eq; done. Qed.

Lemma Complete_dom io j signed j' out : Complete rver io j signed = (j', out) → dom (j_entries j') = dom (j_entries j).
Proof.
  unfold Complete. intros Hc. destruct (VerifyResult rver signed) as [v|]; [|by apply pair_equal_spec in Hc as [<- _]].
  destruct (readyLocked j) as [[]|]; [|by apply pair_equal_spec in Hc as [<- _]]. cbv zeta in Hc.
  destruct (j_entries j !! r_CapabilityID (vr_value v)) as [start|] eqn:Hin; [|by apply pair_equal_spec in Hc as [<- _]].
  destruct (_ || _); [by apply pair_equal_spec in Hc as [<- _]|].
  destruct (st_terminal start) as [term|].
  { destruct (negb _); by apply pair_equal_spec in Hc as [<- _]. }
  destruct (_ ← marshalRecordPayload _; _) as [[frame rd]|]; [|by apply pair_equal_spec in Hc as [<- _]].
  unfold commit in Hc. destruct (appendLocked io j frame) as [j1 [[]|]] eqn:Ha;
    apply pair_equal_spec in Hc as [<- _]; [|by rewrite (appendLocked_entries _ _ _ _ _ Ha)].
  cbn [j_entries]. apply dom_insert_lookup_L. by eexists.
Qed.

Lemma calm_complete base ms tr j io signed : calm base ms tr j → calm base ms tr (Complete rver io j signed).1.
Proof.
  intros [Hc Hg Hd Hm]. destruct (Complete rver io j signed) as [j' out] eqn:He.
  destruct (Complete_ok cver rver _ _ _ _ _ Hc He) as (Hc' & Hg' & _). apply Complete_dom in He.
  split; cbn [fst]; [done|by etrans|by rewrite He|done].
Qed.

(** ** Results that are recorded and true *)

(** The state of the address a class of result asserts. *)
Definition reported_state (class : string) : option string :=
  if one_of class [ClassificationApplied; ClassificationRecoveredActive; ClassificationInspectActive] then Some ReadbackActive
  else if one_of class [ClassificationRevoked; ClassificationInspectAbsent] then Some ReadbackAbsent
  else None.

(** Such a class, and the remaining lifetime, repeat the last thing the runner
    said; "applied" needs a successful mutation just before. *)
Definition truthful (v : VerifiedCapability) (class : string) (ttl : option Z) (tr : list event) : Prop :=
  ∀ state, reported_state class = Some state →
  ∃ before o, tr = before ++ [Inspected (inspectionFor (vc_value v)) (o, false)] ∧ ob_State o = state ∧
    ob_TargetIPv4 o = v_TargetIPv4 (vc_value v) ∧ ob_OwnedSchemaDigest o = v_OwnedSchemaDigest (vc_value v) ∧
    ttl = observed_ttl o ∧
    (class = ClassificationApplied →
     ∃ earlier, before = earlier ++ [Mutated (MkMutation OperationAdd (vc_artifact v)) (NFTExitSuccess, false)]).

Lemma truthful_silent v class ttl tr : reported_state class = None → truthful v class ttl tr.
Proof. intros Hn state Hs. rewrite Hn in Hs. done. Qed.

(** The journal holds the signed result as the terminal record of [v]. *)
Definition recorded (j : Journal) (v : VerifiedCapability) (sr : SignedResult) (r : VerifiedResult) : Prop :=
  ∃ start term, j_entries j !! v_CapabilityID (vc_value v) = Some start ∧ st_terminal start = Some term ∧
    tr_signed term = sr ∧ tr_verified term = r ∧ VerifyResult rver sr = Ok r.

Definition answered (v : VerifiedCapability) (out : reply) (tr : list event) (j : Journal) : Prop :=
  ∀ sr, out = Ok sr → ∃ r, recorded j v sr r ∧
    truthful v (r_Classification (vr_value r)) (r_RemainingTTLSeconds (vr_value r)) tr.

Lemma answered_error v e tr j : answered v (Err e) tr j.
Proof. by intros sr. Qed.

Definition authority_verified (a : resultAuthority) : VerifiedCapability :=
  match a with ByPermit p => pm_verified p | ByRecovery r => rc_verified r end.

Lemma SignFor_canonical signer cap checked sr : SignFor signer cap checked = Ok sr → sr_canonical sr = cr_canonical checked.
Proof.
  unfold SignFor. intros Hs. pass_guards Hs. inv_bind Hs. apply (f_equal (from_ok sr)) in Hs. cbn [from_ok] in Hs. by subst sr.
Qed.

Lemma authority_SignResult_canonical a signer checked sr : authority_SignResult a signer checked = Ok sr →
  sr_canonical sr = cr_canonical checked.
Proof.
  assert (∀ cap, map_err SignerRefused (SignFor signer cap checked) = Ok sr → sr_canonical sr = cr_canonical checked) as Hf.
  { intros cap Hs. destruct (SignFor signer cap checked) as [sr'|] eqn:Hx; [|discriminate Hs].
    cbn [map_err] in Hs. apply (f_equal (from_ok sr)) in Hs. cbn [from_ok] in Hs. subst sr'. by eapply SignFor_canonical. }
  destruct a as [p|r]; cbn [authority_SignResult]; [apply Hf|]. unfold recovery_SignResult. cbv zeta.
  destruct (String.eqb _ _); [|destruct (String.eqb _ _); [|destruct (String.eqb _ _); [apply Hf|by intros]]];
    intros Hs; pass_guards Hs; by eapply Hf.
Qed.

(** What the fields a result is built from need. *)
Definition lifetime_ok (r : ResultValue) : Prop := match r_RemainingTTLSeconds r with Some n => 0 <= n | None => True end.

Lemma finishPrepared_ok base ms s started a r t1 t2 tr j : calm base ms tr j → 0 <= ss_Sequence started → lifetime_ok r →
  truthful (authority_verified a) (r_Classification r) (r_RemainingTTLSeconds r) tr →
  wp (calm base ms) (finishPrepared s started a r t1 t2)
    (λ out tr' j', calm base ms tr' j' ∧ answered (authority_verified a) out tr' j') tr j.
Proof.
  intros Hj Hseq Httl Htrue. unfold finishPrepared. apply wp_bind. split; [done|]. intros bytes.
  assert (∀ e, wp (calm base ms) (Ret (Err e))
    (λ out tr' j', calm base ms tr' j' ∧ answered (authority_verified a) out tr' j') tr j) as Herr.
  { intros e. split; [done|]. split; [done|]. apply answered_error. }
  destruct bytes as [value|]; (split; [done|]); [|apply Herr]. set (identifier := uuid_text _). clearbody identifier.
  set (bound := bound_result r t1 t2 identifier started (authority_value a)).
  destruct (CheckResult bound) as [checked|] eqn:Hc; [|apply Herr].
  destruct (authority_SignResult a (sv_signer s) checked) as [signed|] eqn:Hs; [|apply Herr].
  apply authority_SignResult_canonical in Hs. unfold CheckResult in Hc. inv_bind Hc. destruct a0.
  apply (f_equal (from_ok checked)) in Hc. cbn [from_ok] in Hc. subst checked. cbn [cr_canonical] in Hs.
  assert (unsigned bound) as Hun by (by split).
  pose proof (checkResultValue_ok _ Hun Hbind) as Hok.
  split; [done|]. intros io. pose proof (calm_complete _ _ _ _ io signed Hj) as Hj'. pose proof (ca_consistent _ _ _ _ Hj) as Hcons.
  destruct (Complete rver io j signed) as [j' out] eqn:He. cbn [fst snd] in Hj' |- *.
  destruct (Complete_ok cver rver _ _ _ _ _ Hcons He) as (_ & _ & _ & Hrec).
  destruct out as [[t appended]|]; (split; [done|]); (split; [done|]); [|apply answered_error].
  destruct (Hrec t appended eq_refl) as (start & term & Hin & Hterm & -> & Hv & Hts & _).
  assert (VerifyResult rver signed = Ok (tr_verified term)) as Hv' by done.
  assert (∃ c, ParseCanonicalResult (marshalResult bound) = Ok c ∧ vr_value (tr_verified term) = cr_value c) as (c & Hp & Hval).
  { unfold VerifyResult in Hv. pass_guards Hv. inv_bind Hv. rewrite Hs in Hbind0. exists a0. split; [done|].
    apply (f_equal (from_ok (tr_verified term))) in Hv. cbn [from_ok] in Hv. by rewrite <-Hv. }
  destruct (parsed_result_fields bound c Hok Hun Hp) as (Hid & Hcl & Hrem). rewrite <-Hval in Hid, Hcl, Hrem.
  assert (r_CapabilityID bound = v_CapabilityID (vc_value (authority_verified a))) as Hbid by by destruct a.
  intros sr Hsr. apply (f_equal (from_ok sr)) in Hsr. cbn [from_ok snapshotTerminal ts_signed] in Hsr. rewrite Hts in Hsr.
  assert (sr = signed) as -> by (by destruct appended). exists (tr_verified term). split.
  - exists start, term. rewrite <-Hbid, <-Hid. by split_and!.
  - by rewrite Hcl, Hrem.
Qed.

Lemma deadline_exceeded_ok v r tr : lifetime_ok r →
  lifetime_ok (deadline_exceeded r) ∧
  truthful v (r_Classification (deadline_exceeded r)) (r_RemainingTTLSeconds (deadline_exceeded r)) tr.
Proof. intros Hr. split; [exact Hr|]. by apply truthful_silent. Qed.

(** The same after the late-completion check. *)
Lemma finish_late_ok base ms s started a r (late : bool) t1 t2 tr j : calm base ms tr j → 0 <= ss_Sequence started → lifetime_ok r →
  truthful (authority_verified a) (r_Classification r) (r_RemainingTTLSeconds r) tr →
  wp (calm base ms) (finishPrepared s started a (if late then deadline_exceeded r else r) t1 t2)
    (λ out tr' j', calm base ms tr' j' ∧ answered (authority_verified a) out tr' j') tr j.
Proof.
  intros Hj Hseq Hr Ht. destruct late; [|by apply finishPrepared_ok].
  destruct (deadline_exceeded_ok (authority_verified a) r tr Hr). by apply finishPrepared_ok.
Qed.

Lemma finish_ok base ms s ctx started a r tr j : calm base ms tr j → 0 <= ss_Sequence started → lifetime_ok r →
  truthful (authority_verified a) (r_Classification r) (r_RemainingTTLSeconds r) tr →
  wp (calm base ms) (finish s ctx started a r)
    (λ out tr' j', calm base ms tr' j' ∧ answered (authority_verified a) out tr' j') tr j.
Proof.
  intros Hj Hseq Hr Ht. unfold finish. apply wp_bind. split; [done|]. intros t. split; [done|]. split; [done|]. intros failed.
  by apply finish_late_ok.
Qed.

(** ** Each constructor of a result tells the truth *)

Lemma observed_lifetime value exit o verdict : 0 <= ob_RemainingTTLSeconds o → lifetime_ok (observed_result value exit o verdict).
Proof. unfold lifetime_ok. cbn. unfold observed_ttl. by destruct (String.eqb _ _). Qed.

Lemma truthful_observed v raw checked err before class : read_back (inspectionFor (vc_value v)) raw checked err →
  (∀ state, reported_state class = Some state → err = None ∧ ob_State checked = state ∧
    (class = ClassificationApplied →
     ∃ earlier, before = earlier ++ [Mutated (MkMutation OperationAdd (vc_artifact v)) (NFTExitSuccess, false)])) →
  truthful v class (observed_ttl checked) (before ++ [Inspected (inspectionFor (vc_value v)) raw]).
Proof.
  intros [_ Hsame] Hclass state Hstate. destruct (Hclass state Hstate) as (He & Hs & Happ).
  destruct (Hsame He) as (-> & Ht & Hd). exists before, checked. by split_and!.
Qed.

(** A verdict asserts nothing, or what was wanted and seen. *)
Lemma mutation_verdict_cases wanted success exit state failed :
  reported_state (mutation_verdict wanted success exit state failed).1 = None ∨
  (mutation_verdict wanted success exit state failed).1 = success ∧ exit = NFTExitSuccess ∧ failed = false ∧ state = wanted.
Proof.
  unfold mutation_verdict. destruct (_ && _ && _) eqn:Hb.
  - right. bsplit. by split_and!.
  - left. by repeat case_match.
Qed.

Lemma is_nil_true {A} (err : option A) : is_nil err = true → err = None.
Proof. by destruct err. Qed.

Lemma addResult_true v exit raw checked err before outcome : read_back (inspectionFor (vc_value v)) raw checked err →
  (exit = NFTExitSuccess → outcome = (NFTExitSuccess, false)) →
  let r := addResult (vc_value v) exit checked (negb (is_nil err)) in
  lifetime_ok r ∧ truthful v (r_Classification r) (r_RemainingTTLSeconds r)
    ((before ++ [Mutated (MkMutation OperationAdd (vc_artifact v)) outcome]) ++ [Inspected (inspectionFor (vc_value v)) raw]).
Proof.
  intros Hr Hexit r. split; [apply observed_lifetime, Hr|]. apply (truthful_observed _ _ _ err); [done|].
  subst r. cbn [r_Classification addResult observed_result outcome_result]. intros state Hs.
  destruct (mutation_verdict_cases ReadbackActive ClassificationApplied exit (ob_State checked) (negb (is_nil err)))
    as [Hn|(Hc & He & Hf & Hst)]; [by rewrite Hn in Hs|]. rewrite Hc in Hs. injection Hs as <-.
  split_and!; [apply is_nil_true; by rewrite negb_false_iff in Hf|done|]. intros _. exists before. by rewrite (Hexit He).
Qed.

Lemma revokeResult_true v exit raw checked err before : read_back (inspectionFor (vc_value v)) raw checked err →
  let r := revokeResult (vc_value v) exit checked (negb (is_nil err)) in
  lifetime_ok r ∧ truthful v (r_Classification r) (r_RemainingTTLSeconds r)
    (before ++ [Inspected (inspectionFor (vc_value v)) raw]).
Proof.
  intros Hr r. split; [apply observed_lifetime, Hr|]. apply (truthful_observed _ _ _ err); [done|].
  subst r. cbn [r_Classification revokeResult observed_result outcome_result]. intros state Hs.
  destruct (mutation_verdict_cases ReadbackAbsent ClassificationRevoked exit (ob_State checked) (negb (is_nil err)))
    as [Hn|(Hc & He & Hf & Hst)]; [by rewrite Hn in Hs|]. rewrite Hc in Hs |- *. injection Hs as <-.
  split_and!; [apply is_nil_true; by rewrite negb_false_iff in Hf|done|]. by intros.
Qed.

(** The remaining switches, by cases. *)
Ltac verdict_cases Hs :=
  repeat match type of Hs with
  | context [if ?b then _ else _] => let E := fresh "E" in destruct b eqn:E in Hs |- *; cbn [fst] in Hs |- *
  end; try discriminate Hs.

Lemma recoveredAddResult_true v raw checked err before : read_back (inspectionFor (vc_value v)) raw checked err →
  let r := recoveredAddResult (vc_value v) checked (negb (is_nil err)) in
  lifetime_ok r ∧ truthful v (r_Classification r) (r_RemainingTTLSeconds r)
    (before ++ [Inspected (inspectionFor (vc_value v)) raw]).
Proof.
  intros Hr r. split; [apply observed_lifetime, Hr|]. apply (truthful_observed _ _ _ err); [done|].
  subst r. cbn [r_Classification recoveredAddResult observed_result outcome_result]. cbv zeta. intros state Hs.
  verdict_cases Hs. injection Hs as <-. bsplit. split_and!; [by apply is_nil_true|done|by intros].
Qed.

Lemma recoveredRevokeResult_true v raw checked err before : read_back (inspectionFor (vc_value v)) raw checked err →
  let r := recoveredRevokeResult (vc_value v) checked (negb (is_nil err)) in
  lifetime_ok r ∧ truthful v (r_Classification r) (r_RemainingTTLSeconds r)
    (before ++ [Inspected (inspectionFor (vc_value v)) raw]).
Proof.
  intros Hr r. split; [apply observed_lifetime, Hr|]. apply (truthful_observed _ _ _ err); [done|].
  subst r. cbn [r_Classification recoveredRevokeResult observed_result outcome_result]. cbv zeta. intros state Hs.
  verdict_cases Hs. injection Hs as <-. bsplit. split_and!; [by apply is_nil_true|done|by intros].
Qed.

Lemma wp_inspectResult {B} (I : assertion) ctx v raw checked err before (f : ResultValue → prog B) Q j :
  read_back (inspectionFor (vc_value v)) raw checked err →
  let tr := before ++ [Inspected (inspectionFor (vc_value v)) raw] in I tr j →
  (∀ r, lifetime_ok r → truthful v (r_Classification r) (r_RemainingTTLSeconds r) tr → wp I (f r) Q tr j) →
  wp I (inspectResult ctx (vc_value v) checked (negb (is_nil err)) ≫= f) Q tr j.
Proof.
  intros Hr tr Hi Hf.
  assert (∀ exit, let r := observed_result (vc_value v) exit checked
      (let state := ob_State checked in
       if negb (is_nil err) then (ClassificationIndeterminate, ResultErrorReadbackFailed)
       else if String.eqb state ReadbackActive then (ClassificationInspectActive, ResultErrorNone)
       else if String.eqb state ReadbackAbsent then (ClassificationInspectAbsent, ResultErrorNone)
       else if String.eqb state ReadbackMismatch then (ClassificationInspectMismatch, ResultErrorNone)
       else (ClassificationIndeterminate, ResultErrorReadbackFailed)) in
    lifetime_ok r ∧ truthful v (r_Classification r) (r_RemainingTTLSeconds r) tr) as Hres.
  { intros exit r. split; [apply observed_lifetime, Hr|]. apply (truthful_observed _ _ _ err); [done|].
    subst r. cbn [r_Classification observed_result outcome_result]. cbv zeta. intros state Hs.
    verdict_cases Hs; injection Hs as <-; bsplit; split_and!; try by intros.
    all: by apply is_nil_true. }
  apply wp_bind. unfold inspectResult. cbv zeta in Hres |- *.
  destruct (negb (is_nil err)); (split; [done|]).
  - intros b. split; [done|]. by apply Hf; apply Hres.
  - by apply Hf; apply Hres.
Qed.

(** ** Recovery and execution *)

Lemma wp_now {B} (I : assertion) (f : time → prog B) Q tr j : I tr j → (∀ t, wp I (f t) Q tr j) → wp I (now ≫= f) Q tr j.
Proof. intros Hi Hf. apply wp_bind. split; [done|]. intros t. by split. Qed.

Lemma wp_operationDeadline {B} (I : assertion) ctx t e (f : option time → prog B) Q tr j :
  I tr j → (∀ d, wp I (f d) Q tr j) → wp I (operationDeadline ctx t e ≫= f) Q tr j.
Proof.
  intros Hi Hf. apply wp_bind. split; [done|]. intros [|]; (split; [done|]); [apply Hf|]. intros d. cbv zeta.
  destruct (negb _ || _); by split.
Qed.

(** The reply to a call on behalf of [v], with the journal calm. *)
Definition calm_reply base ms v (out : reply) : assertion := λ tr j, calm base ms tr j ∧ answered v out tr j.

Lemma wp_calm_error base ms v e tr j : calm base ms tr j → wp (calm base ms) (Ret (Err e)) (calm_reply base ms v) tr j.
Proof. intros Hj. split; [done|]. split; [done|]. apply answered_error. Qed.

Lemma recover_ok base ms s ctx start tr j : calm base ms tr j → 0 <= st_sequence start → st_terminal start = None →
  wp (calm base ms) (recover s ctx (existingOutcome start)) (calm_reply base ms (st_verified start)) tr j.
Proof.
  intros Hj Hseq Hn. unfold existingOutcome, recover. rewrite Hn. cbn [o_recovery o_started rc_verified]. set (v := st_verified start).
  apply wp_now; [done|]. intros t. apply wp_operationDeadline; [done|]. intros [d|]; [|by apply wp_calm_error]. cbv zeta.
  destruct (match _ with None => true | Some _ => _ end); [by apply wp_calm_error|].
  apply wp_inspect; [done|intros; by apply calm_inspected|]. intros raw checked err Hr.
  set (tr' := tr ++ _). assert (calm base ms tr' j) as Hj' by by apply calm_inspected.
  assert (∀ r, lifetime_ok r → truthful v (r_Classification r) (r_RemainingTTLSeconds r) tr' →
    wp (calm base ms) (completedAt ← now; ContextErr (WithTimeout ctx (Sub d t)) (λ late,
      finishPrepared s (snapshotStarted start) (ByRecovery (MkRecovery v))
        (if late || After completedAt d then deadline_exceeded r else r) t completedAt))
    (calm_reply base ms v) tr' j) as Hfinish.
  { intros r Hl Ht. apply wp_now; [done|]. intros t'. split; [done|]. intros late.
    apply (finish_late_ok _ _ _ _ (ByRecovery (MkRecovery v))); done. }
  destruct (String.eqb _ OperationAdd).
  { apply Hfinish; by apply (recoveredAddResult_true _ raw). }
  destruct (String.eqb _ OperationRevoke).
  { apply Hfinish; by apply (recoveredRevokeResult_true _ raw). }
  destruct (String.eqb _ OperationInspect); [|by apply wp_calm_error].
  by apply wp_inspectResult.
Qed.

(** What the service may ask the runner to do for [v]. *)
Definition mutation_of (v : VerifiedCapability) : Mutation := MkMutation (v_Operation (vc_value v)) (vc_artifact v).

Definition mutated_once base v : assertion := λ tr j,
  calm base [] tr j ∨
  calm base [mutation_of v] tr j ∧ v_Operation (vc_value v) ∈ [OperationAdd; OperationRevoke].

Definition once_reply base v (out : reply) : assertion := λ tr j, mutated_once base v tr j ∧ answered v out tr j.

Lemma wp_settled base ms v (p : prog reply) tr j :
  (∀ tr j, calm base ms tr j → mutated_once base v tr j) → wp (calm base ms) p (calm_reply base ms v) tr j →
  wp (mutated_once base v) p (once_reply base v) tr j.
Proof. intros Hm. apply wp_mono; [done|]. intros out tr' j' [? ?]. split; [by apply Hm|done]. Qed.

Lemma wp_classifyMutation {B} (I : assertion) ctx outcome err (f : string → prog B) Q tr j : I tr j →
  (∀ exit, (exit = NFTExitSuccess → (outcome, err) = (NFTExitSuccess, false)) → wp I (f exit) Q tr j) →
  wp I (classifyMutation ctx outcome err ≫= f) Q tr j.
Proof.
  intros Hi Hf. apply wp_bind. split; [done|]. intros failed. split; [done|]. apply Hf. destruct failed; [done|].
  destruct (String.eqb outcome NFTExitSuccess) eqn:Ho.
  - apply String.eqb_eq in Ho as ->. by destruct err.
  - intros He. case_match; [|done]. subst outcome. by rewrite String.eqb_refl in Ho.
Qed.

Lemma take_at_permit op p t p' out : take_at op p t = (p', out) →
  pm_verified p' = pm_verified p ∧ ∀ x, out = Ok x → x = pm_verified p.
Proof. intros (H1 & _ & H2)%take_at_ok. split; [done|]. intros x Hx. by destruct (H2 x Hx) as (_ & _ & ? & _). Qed.

(** The end of a call that took its permit, and the two mutating operations. *)
Lemma permit_finish_ok base ms s ctx started p r tr j : let v := pm_verified p in
  calm base ms tr j → (∀ tr j, calm base ms tr j → mutated_once base v tr j) → 0 <= ss_Sequence started → lifetime_ok r →
  truthful v (r_Classification r) (r_RemainingTTLSeconds r) tr →
  wp (mutated_once base v) (finish s ctx started (ByPermit p) r) (once_reply base v) tr j.
Proof.
  intros v Hj Hm Hseq Hl Ht. eapply wp_settled; [exact Hm|]. by apply (finish_ok _ _ _ _ _ (ByPermit p)).
Qed.

Lemma mutate_ok base s ctx started p op ttl (result : string → Observation → bool → ResultValue) tr j : let v := pm_verified p in
  v_Operation (vc_value v) = op → op ∈ [OperationAdd; OperationRevoke] → calm base [] tr j → 0 <= ss_Sequence started →
  (∀ exit raw checked err out, read_back (inspectionFor (vc_value v)) raw checked err →
    (exit = NFTExitSuccess → out = (NFTExitSuccess, false)) →
    let r := result exit checked (negb (is_nil err)) in
    lifetime_ok r ∧ truthful v (r_Classification r) (r_RemainingTTLSeconds r)
      ((tr ++ [Mutated (MkMutation op (vc_artifact v)) out]) ++ [Inspected (inspectionFor (vc_value v)) raw])) →
  wp (mutated_once base v)
    (RunMutate ctx (MkMutation op (vc_artifact v)) (λ '(outcome, err),
       exit ← classifyMutation ctx outcome err;
       '(observation, inspectErr) ← inspect ctx (inspectionFor (vc_value v)) ttl;
       finish s ctx started (ByPermit p) (result exit observation (negb (is_nil inspectErr)))))
    (once_reply base v) tr j.
Proof.
  intros v Hop Hin Hj Hseq Hres. split; [by left|]. intros [out err].
  assert (∀ tr j, calm base [mutation_of v] tr j → mutated_once base v tr j) as Hm by (intros; right; by rewrite Hop).
  assert (calm base [mutation_of v] (tr ++ [Mutated (MkMutation op (vc_artifact v)) (out, err)]) j) as Hj1.
  { destruct Hj as [? ? ? Hms]. split; try done. rewrite mutations_mutated, Hms. unfold mutation_of. by rewrite Hop. }
  apply wp_classifyMutation; [by apply Hm|]. intros exit Hexit.
  apply wp_inspect; [by apply Hm|intros; by apply Hm, calm_inspected|]. intros raw checked e Hr.
  destruct (Hres exit raw checked e (out, err) Hr Hexit) as [Hl Ht].
  eapply permit_finish_ok; [by apply calm_inspected|done..].
Qed.

Lemma execute_ok base s ctx outcome permit preflight tr j : let v := pm_verified permit in
  calm base [] tr j → 0 <= ss_Sequence (o_started outcome) →
  (v_Operation (vc_value v) = OperationRevoke → ob_State preflight = ReadbackAbsent → truthful v ClassificationRevoked None tr) →
  wp (mutated_once base v) (execute s ctx outcome permit preflight) (once_reply base v) tr j.
Proof.
  intros v Hj Hseq Hpre. unfold execute. cbv zeta. fold v.
  assert (∀ p' tr r, pm_verified p' = v → calm base [] tr j → lifetime_ok r →
    truthful v (r_Classification r) (r_RemainingTTLSeconds r) tr →
    wp (mutated_once base v) (finish s ctx (o_started outcome) (ByPermit p') r) (once_reply base v) tr j) as Hfin.
  { intros p' tr0 r Hp' Hj0 Hl Ht. rewrite <-Hp' in Ht |- *. eapply permit_finish_ok; try done. by left. }
  assert (∀ p' tr exit o code, pm_verified p' = v → calm base [] tr j →
    wp (mutated_once base v) (finish s ctx (o_started outcome) (ByPermit p') (terminalFailure (vc_value v) exit o code))
      (once_reply base v) tr j) as Hfail by (intros; by apply Hfin).
  apply wp_now; [by left|]. intros t.
  destruct (String.eqb_spec (v_Operation (vc_value v)) OperationAdd) as [Hadd|];
    [|destruct (String.eqb_spec (v_Operation (vc_value v)) OperationRevoke) as [Hrev|]; [|destruct (String.eqb _ _)]].
  - destruct (TakeAddAt permit t) as [p' taken] eqn:Ht. apply take_at_permit in Ht as [Hp' Hx]. fold v in Hp', Hx.
    destruct taken as [x|]; [|by apply Hfail]. rewrite (Hx x eq_refl).
    destruct (String.eqb _ ReadbackActive); [by apply Hfail|]. rewrite <-Hp' in Hadd |- *.
    apply mutate_ok; try done; [apply elem_of_cons; by left|]. intros. by apply addResult_true.
  - destruct (TakeRevokeAt permit t) as [p' taken] eqn:Ht. apply take_at_permit in Ht as [Hp' Hx]. fold v in Hp', Hx.
    destruct taken as [x|]; [|by apply Hfail]. rewrite (Hx x eq_refl).
    destruct (String.eqb_spec (ob_State preflight) ReadbackAbsent); [by apply Hfin; [..|apply Hpre]|]. rewrite <-Hp' in Hrev |- *.
    apply mutate_ok; try done; [apply elem_of_cons; right; apply elem_of_cons; by left|]. intros. by apply revokeResult_true.
  - destruct (TakeInspectAt permit t) as [p' taken] eqn:Ht. apply take_at_permit in Ht as [Hp' _]. fold v in Hp'.
    destruct taken as [x|]; [|by apply Hfail].
    apply wp_inspect; [by left|intros; left; by apply calm_inspected|]. intros raw checked e Hr.
    apply wp_inspectResult; [done|left; by apply calm_inspected|]. intros r Hl Htr.
    apply Hfin; try done. by apply calm_inspected.
  - split; [by left|]. split; [by left|]. apply answered_error.
Qed.

(** ** The journal's answers *)

Lemma Verify_value va vb signed v w : Verify va signed = Ok v → Verify vb signed = Ok w → vc_value v = vc_value w.
Proof.
  unfold Verify. intros Hv Hw. pass_guards Hv. pass_guards Hw.
  destruct (ParseCanonicalCapability _ _) as [c|]; [|discriminate Hv]. cbn [mbind result_bind] in Hv, Hw.
  apply (f_equal (from_ok v)) in Hv. cbn [from_ok] in Hv. apply (f_equal (from_ok w)) in Hw. cbn [from_ok] in Hw. by subst v w.
Qed.

Lemma sameCapability_verified start signed v : started_ok cver rver start → Verify cver signed = Ok v →
  sameCapability start signed v = true → st_verified start = v.
Proof.
  intros Hok Hv Hs. unfold sameCapability in Hs. bsplit. pose proof (so_verified _ _ _ Hok) as Hst.
  assert (st_signed start = signed) as Heq by (destruct (st_signed start), signed; cbn in *; congruence).
  rewrite Heq, Hv in Hst. apply (f_equal (from_ok v)) in Hst. by cbn [from_ok] in Hst.
Qed.

(** A lookup finds nothing, or the record of this very capability. *)
Lemma Lookup_cases j signed o : consistent cver rver j → Lookup cver j signed = Ok o →
  ∃ v, Verify cver signed = Ok v ∧
    (j_entries j !! v_CapabilityID (vc_value v) = None ∧ o = MkOutcome StateUnseen zero_started None None None ∨
     ∃ start, j_entries j !! v_CapabilityID (vc_value v) = Some start ∧ st_verified start = v ∧ o = existingOutcome start ∧
       started_ok cver rver start ∧ 0 <= st_sequence start).
Proof.
  intros Hj Hl. unfold Lookup in Hl. destruct (Verify cver signed) as [v|] eqn:Hv; [|discriminate Hl]. inv_bind Hl.
  exists v. split; [done|]. destruct (j_entries j !! v_CapabilityID (vc_value v)) as [start|] eqn:Hin.
  - right. destruct (sameCapability start signed v) eqn:Hsame; [|discriminate Hl]. cbn [negb] in Hl.
    destruct (si_entries _ _ _ (consistent_inv cver rver _ Hj) _ _ Hin) as (Hok & _ & Hsq).
    exists start. split_and!; [done|by eapply sameCapability_verified| |done|lia].
    apply (f_equal (from_ok o)) in Hl. by cbn [from_ok] in Hl.
  - left. apply (f_equal (from_ok o)) in Hl. by cbn [from_ok] in Hl.
Qed.

(** A capability that is not indexed is started anew. *)
Lemma Begin_new io j signed v received deadline j' o : consistent cver rver j → Verify cver signed = Ok v →
  j_entries j !! v_CapabilityID (vc_value v) = None → Begin cver io j signed received deadline = (j', Ok o) →
  let start := MkStarted (j_nextSequence j) signed v received deadline None in
  o = MkOutcome StateNewStarted (snapshotStarted start) None (Some (MkPermit v deadline false)) None ∧
  consistent cver rver j' ∧ grows (j_entries j) (j_entries j') ∧ j_entries j' !! v_CapabilityID (vc_value v) = Some start.
Proof.
  intros Hj Hv Hn Hb start. destruct (Begin_ok cver rver _ _ _ _ _ _ _ Hj Hb) as (Hj' & Hg & _ & Hnew).
  assert (o = MkOutcome StateNewStarted (snapshotStarted start) None (Some (MkPermit v deadline false)) None) as ->.
  { clear Hnew. unfold Begin in Hb. rewrite Hv, Hn in Hb. cbv zeta in Hb.
    destruct (readyLocked j); [|by apply pair_equal_spec in Hb as [_ Hb]].
    destruct (_ || _); [by apply pair_equal_spec in Hb as [_ Hb]|].
    destruct (_ ← journal_checkFresh _ _; _) as [[frame rd]|]; [|by apply pair_equal_spec in Hb as [_ Hb]].
    destruct (commit _ _ _ _ _) as [j1 [[]|]]; apply pair_equal_spec in Hb as [_ Hb]; [|discriminate Hb].
    cbn [mbind result_bind] in Hb. apply (f_equal (from_ok o)) in Hb. by cbn [from_ok] in Hb. }
  destruct (Hnew _ _ eq_refl eq_refl) as (v' & Hv' & _ & _ & _ & _ & Hin & _). rewrite Hv in Hv'. injection Hv' as <-. done.
Qed.

Lemma Begin_failed io j signed received deadline j' e : consistent cver rver j →
  Begin cver io j signed received deadline = (j', Err e) → consistent cver rver j' ∧ grows (j_entries j) (j_entries j').
Proof. intros Hj Hb. destruct (Begin_ok cver rver _ _ _ _ _ _ _ Hj Hb) as (? & ? & _). done. Qed.

(** ** A whole call *)

(** At every point of a call: the index has only grown, and the runner was
    asked for nothing, or once for the artifact of a capability the index did
    not have when the call began and has now. *)
Definition call_inv (signed : SignedCapability) (base : gmap string startedRecord) : assertion := λ tr j,
  consistent cver rver j ∧ grows base (j_entries j) ∧
  (mutations tr = [] ∨
   ∃ v, Verify cver signed = Ok v ∧ base !! v_CapabilityID (vc_value v) = None ∧
     is_Some (j_entries j !! v_CapabilityID (vc_value v)) ∧ mutations tr = [mutation_of v] ∧
     v_Operation (vc_value v) ∈ [OperationAdd; OperationRevoke]).

(** The reply, if it is a result: it is recorded, and it was recorded before the
    call or is true. *)
Definition call_reply (signed : SignedCapability) (j0 : Journal) (out : reply) : assertion := λ tr j,
  ∀ sr, out = Ok sr → ∃ v r, Verify cver signed = Ok v ∧ recorded j v sr r ∧
    (recorded j0 v sr r ∨ truthful v (r_Classification (vr_value r)) (r_RemainingTTLSeconds (vr_value r)) tr).

Lemma calm_call signed base tr j : calm base [] tr j → call_inv signed base tr j.
Proof. intros []. split_and!; [done..|by left]. Qed.

Lemma once_call signed v base m tr j : Verify cver signed = Ok v → grows base m → base !! v_CapabilityID (vc_value v) = None →
  is_Some (m !! v_CapabilityID (vc_value v)) → mutated_once m v tr j → call_inv signed base tr j.
Proof.
  intros Hv Hg Hn [st Hs] [[Hc Hg' _ Hm]|[[Hc Hg' _ Hm] Hop]]; (split_and!; [done|by etrans|]); [by left|]. right.
  exists v. split_and!; try done. destruct (Hg' _ _ Hs) as (b & Hb & _). by exists b.
Qed.

Lemma answered_call signed v j0 out tr j : Verify cver signed = Ok v → answered v out tr j → call_reply signed j0 out tr j.
Proof. intros Hv Ha sr Hsr. destruct (Ha sr Hsr) as (r & Hr & Ht). exists v, r. by split_and!; [..|right]. Qed.

Lemma wp_call_error (I : assertion) signed j0 e tr j : I tr j → wp I (Ret (Err e)) (call_reply signed j0) tr j.
Proof. intros Hi. split; [done|]. by intros sr. Qed.

Lemma replay_ok (I : assertion) signed v start j : I [] j → Verify cver signed = Ok v → st_verified start = v →
  j_entries j !! v_CapabilityID (vc_value v) = Some start → started_ok cver rver start →
  wp I (replay_terminal (existingOutcome start)) (call_reply signed j) [] j.
Proof.
  intros Hi Hv Hver Hin Hok. unfold replay_terminal, existingOutcome. pose proof (so_terminal _ _ _ Hok) as Ht.
  destruct (st_terminal start) as [term|] eqn:Hterm; cbn [o_terminal]; [|by apply wp_call_error].
  split; [done|]. intros sr Hsr. apply (f_equal (from_ok sr)) in Hsr. cbn [from_ok snapshotTerminal ts_signed] in Hsr.
  destruct Ht as [Hvr _]. rewrite Hsr in Hvr. exists v, (tr_verified term).
  assert (recorded j v sr (tr_verified term)) as Hrec by (by exists start, term). by split_and!; [..|left].
Qed.

Lemma recovery_call signed v start s ctx j : calm (j_entries j) [] [] j → Verify cver signed = Ok v → st_verified start = v →
  0 <= st_sequence start → st_terminal start = None →
  wp (calm (j_entries j) []) (recover s ctx (existingOutcome start)) (call_reply signed j) [] j.
Proof.
  intros Hj Hv Hver Hseq Hn. eapply wp_mono; [done| |by apply recover_ok]. intros out tr j' [_ Ha].
  rewrite Hver in Ha. by eapply answered_call.
Qed.

Lemma beginUnseen_ok s ctx signed v preflight tr j : Verify cver signed = Ok v → calm (j_entries j) [] tr j →
  j_entries j !! v_CapabilityID (vc_value v) = None →
  (v_Operation (vc_value v) = OperationRevoke → ob_State preflight = ReadbackAbsent → truthful v ClassificationRevoked None tr) →
  wp (call_inv signed (j_entries j)) (beginUnseen s ctx signed (vc_value v) preflight) (call_reply signed j) tr j.
Proof.
  intros Hv Htr Hn Hpre. pose proof (calm_call signed _ _ _ Htr) as HI. pose proof (ca_consistent _ _ _ _ Htr) as Hj.
  apply wp_now; [done|]. intros beginAt. destruct (checkFreshValue _ _); [by apply wp_call_error|].
  apply wp_operationDeadline; [done|]. intros [d|]; [|by apply wp_call_error].
  split; [done|]. intros io. destruct (Begin cver io j signed beginAt d) as [j' [o|e]] eqn:Hb; cbn [fst snd].
  - destruct (Begin_new _ _ _ _ _ _ _ _ Hj Hv Hn Hb) as (-> & Hj' & Hg & Hin). cbn [o_state o_permit].
    eapply wp_mono; [..|apply (execute_ok (j_entries j'))].
    + intros tr' j1 Hm. by eapply once_call; [| | |rewrite Hin|].
    + intros out tr' j1 [_ Ha]. by eapply answered_call.
    + destruct Htr. by split.
    + cbn. pose proof (si_range _ _ _ (consistent_inv cver rver _ Hj)) as Hr. cbn [index sn_sequence] in Hr. lia.
    + done.
  - destruct (Begin_failed _ _ _ _ _ _ _ Hj Hb) as [Hj' Hg]. apply wp_call_error. split_and!; [done..|]. left. apply Htr.
Qed.

Lemma processUnseen_ok s ctx signed w v j : consistent cver rver j → Verify cver signed = Ok v → vc_value w = vc_value v →
  j_entries j !! v_CapabilityID (vc_value v) = None →
  wp (call_inv signed (j_entries j)) (processUnseen s ctx signed w) (call_reply signed j) [] j.
Proof.
  intros Hj Hv Hw Hn. unfold processUnseen. rewrite Hw. cbv zeta. set (I := call_inv signed (j_entries j)).
  assert (∀ tr, calm (j_entries j) [] tr j → I tr j) as HI by (intros; by apply calm_call).
  pose proof (calm_here [] j Hj) as Hcalm. change (mutations []) with (@nil Mutation) in Hcalm.
  apply wp_now; [by apply HI|]. intros receivedAt. destruct (checkFreshValue _ _); [by apply wp_call_error, HI|].
  apply wp_operationDeadline; [by apply HI|]. intros [deadlineAt|]; [|by apply wp_call_error, HI].
  destruct (_ || _) eqn:Hmut.
  - apply wp_inspect; [by apply HI|intros; by apply HI, calm_inspected|]. intros raw checked err Hr.
    assert (calm (j_entries j) [] ([] ++ [Inspected (inspectionFor (vc_value v)) raw]) j) as Htr by by apply calm_inspected.
    destruct err as [e|]; [by apply wp_call_error, HI|].
    destruct (String.eqb (ob_State checked) ReadbackMismatch || _); [by apply wp_call_error, HI|].
    apply beginUnseen_ok; [done..|]. intros _ Habs.
    replace (None : option Z) with (observed_ttl checked) by (unfold observed_ttl; by rewrite Habs).
    apply (truthful_observed _ _ _ None); [done|]. intros state Hs. injection Hs as <-. by split_and!.
  - apply beginUnseen_ok; [done..|]. intros Hrev. rewrite Hrev in Hmut. discriminate Hmut.
Qed.

(** The checks both entry points begin with. *)
Lemma authenticate_ok (I : assertion) s ctx signed k j : consistent cver rver j → I [] j →
  (∀ w v o, Verify (sv_verifier s) signed = Ok w → Verify cver signed = Ok v → Lookup cver j signed = Ok o →
    wp I (k w o) (call_reply signed j) [] j) →
  wp I (authenticate s ctx signed k) (call_reply signed j) [] j.
Proof.
  intros Hj Hi Hk. unfold authenticate. destruct (Verify (sv_verifier s) signed) as [w|] eqn:Hw; [|by apply wp_call_error].
  destruct (negb (exactDigest _ _)); [by apply wp_call_error|]. destruct (negb (String.eqb _ _)); [by apply wp_call_error|].
  apply wp_bind. unfold acquire. split; [done|].
  assert (∀ granted, wp I (if negb granted then Ret (Err XErrorDeadline) else JournalLookup signed (λ found,
    match found with Err e => Ret (Err (classifyJournal e)) | Ok outcome => k w outcome end)) (call_reply signed j) [] j) as Hgo.
  { intros [|]; [|by apply wp_call_error]. split; [done|].
    destruct (Lookup cver j signed) as [o|] eqn:Hl; [|by apply wp_call_error].
    destruct (Lookup_cases _ _ _ Hj Hl) as (v & Hv & _). by apply (Hk w v o). }
  intros [|]; (split; [done|]); [by apply Hgo|]. intros [|]; (split; [done|]); [|by apply Hgo]. intros b. split; [done|]. apply Hgo.
Qed.

Lemma ProcessRecovery_ok s ctx signed j : consistent cver rver j →
  wp (calm (j_entries j) []) (ProcessRecovery s ctx signed) (call_reply signed j) [] j.
Proof.
  intros Hj. pose proof (calm_here [] j Hj) as Hcalm. change (mutations []) with (@nil Mutation) in Hcalm.
  apply authenticate_ok; [done|done|]. intros w v o Hw Hv Hl. destruct (Lookup_cases _ _ _ Hj Hl) as (v' & Hv' & Hc).
  rewrite Hv in Hv'. injection Hv' as <-. destruct Hc as [[Hn ->]|(start & Hin & Hver & -> & Hok & Hseq)]; [by apply wp_call_error|].
  pose proof (replay_ok (calm (j_entries j) []) signed v start j Hcalm Hv Hver Hin Hok) as Hreplay.
  pose proof (recovery_call signed v start s ctx j Hcalm Hv Hver Hseq) as Hrecover.
  unfold existingOutcome in *. destruct (st_terminal start) as [term|]; cbn [o_state]; [done|by apply Hrecover].
Qed.

Lemma Process_ok s ctx signed j : consistent cver rver j →
  wp (call_inv signed (j_entries j)) (Process s ctx signed) (call_reply signed j) [] j.
Proof.
  intros Hj. pose proof (calm_here [] j Hj) as Hcalm. change (mutations []) with (@nil Mutation) in Hcalm.
  assert (∀ p : prog reply, wp (calm (j_entries j) []) p (call_reply signed j) [] j →
    wp (call_inv signed (j_entries j)) p (call_reply signed j) [] j) as Hquiet.
  { intros p. apply wp_mono; [|done]. intros. by apply calm_call. }
  apply authenticate_ok; [done|by apply calm_call|]. intros w v o Hw Hv Hl. destruct (Lookup_cases _ _ _ Hj Hl) as (v' & Hv' & Hc).
  rewrite Hv in Hv'. injection Hv' as <-. destruct Hc as [[Hn ->]|(start & Hin & Hver & -> & Hok & Hseq)].
  { apply (processUnseen_ok s ctx signed w v); try done. by eapply Verify_value. }
  pose proof (replay_ok (calm (j_entries j) []) signed v start j Hcalm Hv Hver Hin Hok) as Hreplay.
  pose proof (recovery_call signed v start s ctx j Hcalm Hv Hver Hseq) as Hrecover.
  unfold existingOutcome in *. destruct (st_terminal start) as [term|]; cbn [o_state]; apply Hquiet; [done|by apply Hrecover].
Qed.

End logic.
