(* ===== verification/ExecutorTrace.v ===== *)
(** * Histories of the executor

    Calls of the service one after another, with the process dying at any point
    of a call and the disk keeping any part of the unsynced bytes, and what
    holds after every history. *)

From S2P Require Import Prelude GoStrings Sha256 Json GoTime Policy Capability CapabilitySpec ExecResult ExecResultSpec.
From S2P Require Import JournalFrame JournalRecord JournalRecordSpec Journal JournalSpec JournalTrace Ipc IpcSpec Executor ExecutorSpec.
Local Open Scope Z_scope.

Section histories.
  Context `{Ed25519} (cver : CapabilityVerifier) (rver : ResultVerifier).

(** A mutation the runner was asked for, with the payload it was asked for. *)
Record mutation_entry := MkEntry { me_service : Service; me_payload : string; me_mutation : Mutation }.

(** A process with an open journal, or the file on disk, and every mutation
    asked for so far. *)
Record host := MkHost {
  h_journal : option Journal;
  h_file : list Z;
  h_log : list mutation_entry
}.

Definition logged (s : Service) (payload : string) (evs : list event) : list mutation_entry := MkEntry s payload <$> mutations evs.

Inductive host_step : host → host → Prop :=
| host_open f log j : Open cver rver f = Ok j → host_step (MkHost None f log) (MkHost (Some j) f log)
| host_handle f log j s ctx payload script evs j' out :
    exec cver rver script j (HandlePayload s ctx payload) = (evs, j', Some out) →
    host_step (MkHost (Some j) f log) (MkHost (Some j') f (log ++ logged s payload evs))
| host_dies f log j s ctx payload script evs j' out file :
    exec cver rver script j (HandlePayload s ctx payload) = (evs, j', out) → survives j' file →
    host_step (MkHost (Some j) f log) (MkHost None file (log ++ logged s payload evs)).

Definition host_reachable (h : host) : Prop := ∃ file, rtc host_step (MkHost None file []) h.

(** ** One payload *)

(** A mutation asked for a payload: the payload is an ordinary request for [v],
    and the mutation the signed artifact of this add or revoke. *)
Definition authorized (e : mutation_entry) (v : VerifiedCapability) : Prop :=
  (∃ envelope, DecodeRequestEnvelope (me_payload e) = Ok envelope ∧ re_recoveryOnly envelope = false ∧
    Verify cver (requested (me_service e) envelope) = Ok v) ∧
  me_mutation e = mutation_of v ∧ v_Operation (vc_value v) ∈ [OperationAdd; OperationRevoke].

Definition payload_inv (s : Service) (payload : string) (base : gmap string startedRecord) : assertion := λ tr j,
  consistent cver rver j ∧ grows base (j_entries j) ∧
  (mutations tr = [] ∨
   ∃ v m, mutations tr = [m] ∧ authorized (MkEntry s payload m) v ∧
     base !! v_CapabilityID (vc_value v) = None ∧ is_Some (j_entries j !! v_CapabilityID (vc_value v))).

(** The response is the envelope of the recorded result. *)
Definition payload_reply (s : Service) (payload : string) (j0 : Journal) (out : result ExecErrorCode string) : assertion := λ tr j,
  ∀ response, out = Ok response → ∃ envelope v sr r,
    DecodeRequestEnvelope payload = Ok envelope ∧ Verify cver (requested s envelope) = Ok v ∧
    DecodeResponseEnvelope response = Ok (MkResponseEnvelope (sr_canonical sr) (sr_signature sr)) ∧
    recorded rver j v sr r ∧
    (recorded rver j0 v sr r ∨ truthful v (r_Classification (vr_value r)) (r_RemainingTTLSeconds (vr_value r)) tr).

(** What is left of [HandlePayload] after the call. *)
Definition respond (out : reply) : prog (result ExecErrorCode string) :=
  match out with
  | Err e => Ret (Err e)
  | Ok signedResult =>
      match NewResponseEnvelope (sr_canonical signedResult) (sr_signature signedResult) with
      | Err _ => Ret (Err XErrorResult)
      | Ok response =>
          match EncodeResponseEnvelope response with
          | Err _ => Ret (Err XErrorResult)
          | Ok encoded => Ret (Ok encoded)
          end
      end
  end.

Lemma respond_ok (I : assertion) s payload envelope j0 out tr j : I tr j → DecodeRequestEnvelope payload = Ok envelope →
  call_reply cver rver (requested s envelope) j0 out tr j → wp cver rver I (respond out) (payload_reply s payload j0) tr j.
Proof.
  intros Hi Hd Hr. unfold respond. assert (∀ e, wp cver rver I (Ret (Err e)) (payload_reply s payload j0) tr j) as Herr by (by split).
  destruct out as [sr|]; [|apply Herr]. destruct (NewResponseEnvelope _ _) as [response|] eqn:Hn; [|apply Herr].
  destruct (EncodeResponseEnvelope response) as [encoded|] eqn:He; [|apply Herr]. split; [done|].
  apply response_encode_decode in He. unfold NewResponseEnvelope in Hn. pass_guards Hn.
  apply (f_equal (from_ok response)) in Hn. cbn [from_ok] in Hn. subst response.
  intros text Htext. apply (f_equal (from_ok text)) in Htext. cbn [from_ok] in Htext. subst text.
  destruct (Hr sr eq_refl) as (v & r & Hv & Hrec & Htrue). exists envelope, v, sr, r. by split_and!.
Qed.

Lemma calm_payload s payload base tr j : calm cver rver base [] tr j → payload_inv s payload base tr j.
Proof. intros []. split_and!; [done..|by left]. Qed.

(** A recovery payload keeps the journal calm. *)
Lemma HandlePayload_recovery s ctx payload envelope j : consistent cver rver j →
  DecodeRequestEnvelope payload = Ok envelope → re_recoveryOnly envelope = true →
  wp cver rver (calm cver rver (j_entries j) []) (HandlePayload s ctx payload) (payload_reply s payload j) [] j.
Proof.
  intros Hj Hd Hro. unfold HandlePayload. rewrite Hd, Hro. apply wp_bind.
  eapply wp_mono_here; [|by apply ProcessRecovery_ok]. intros out tr j' Hi Hr. by eapply respond_ok.
Qed.

Lemma HandlePayload_ok s ctx payload j : consistent cver rver j →
  wp cver rver (payload_inv s payload (j_entries j)) (HandlePayload s ctx payload) (payload_reply s payload j) [] j.
Proof.
  intros Hj. pose proof (calm_here cver rver [] j Hj) as Hcalm. change (mutations []) with (@nil Mutation) in Hcalm.
  destruct (DecodeRequestEnvelope payload) as [envelope|] eqn:Hd.
  - destruct (re_recoveryOnly envelope) eqn:Hro.
    { eapply wp_mono; [|done|by eapply HandlePayload_recovery]. intros. by apply calm_payload. }
    unfold HandlePayload. rewrite Hd, Hro. apply wp_bind.
    eapply wp_mono_here; [|eapply wp_mono; [|done|by apply Process_ok]].
    + intros out tr j' Hi Hr. by eapply respond_ok.
    + intros tr j' (Hj' & Hg & Hm). split_and!; [done..|]. destruct Hm as [|(v & Hv & Hn & Hs & Hm & Hop)]; [by left|right].
      exists v, (mutation_of v). split_and!; [done| |done|done]. split_and!; [by exists envelope|done|done].
  - unfold HandlePayload. rewrite Hd. split; [by apply calm_payload|]. by intros response.
Qed.

Lemma HandlePayload_run s ctx payload script j evs j' out : consistent cver rver j →
  exec cver rver script j (HandlePayload s ctx payload) = (evs, j', out) →
  payload_inv s payload (j_entries j) evs j' ∧ ∀ r, out = Some r → payload_reply s payload j r evs j'.
Proof. intros Hj He. exact (wp_exec cver rver _ _ _ _ [] _ _ _ _ (HandlePayload_ok s ctx payload j Hj) He). Qed.

(** ** All payloads *)

Definition capability_id (v : VerifiedCapability) : string := v_CapabilityID (vc_value v).

Definition host_world (h : host) : world := MkWorld (h_journal h) (h_file h) [] [].

Record host_inv (h : host) : Prop := {
  hi_sound : sound cver rver (host_world h);
  hi_log : ∃ m vs, knows cver rver (host_world h) m ∧ Forall2 authorized (h_log h) vs ∧ NoDup (capability_id <$> vs) ∧
    Forall (λ v, is_Some (m !! capability_id v)) vs
}.

Lemma host_inv_grows h m vs j : knows cver rver (host_world h) m → h_journal h = Some j →
  Forall (λ v, is_Some (m !! capability_id v)) vs → Forall (λ v, is_Some (j_entries j !! capability_id v)) vs.
Proof.
  intros Hk Hj. unfold knows in Hk. cbn in Hk. rewrite Hj in Hk. intros Hm. eapply Forall_impl; [exact Hm|].
  intros v [a Ha]. destruct (Hk _ _ Ha) as (b & Hb & _). by exists b.
Qed.

Lemma host_inv_handle f log j s ctx payload script evs j' out : host_inv (MkHost (Some j) f log) →
  exec cver rver script j (HandlePayload s ctx payload) = (evs, j', out) →
  host_inv (MkHost (Some j') f (log ++ logged s payload evs)).
Proof.
  intros [Hs (m & vs & Hk & Hf & Hd & Hm)] He. pose proof (host_inv_grows _ _ _ j Hk eq_refl Hm) as Hin.
  destruct (HandlePayload_run _ _ _ _ _ _ _ _ Hs He) as [(Hj' & Hg & Hcall) _].
  assert (Forall (λ v, is_Some (j_entries j' !! capability_id v)) vs) as Hin'.
  { eapply Forall_impl; [exact Hin|]. intros v [a Ha]. destruct (Hg _ _ Ha) as (b & Hb & _). by exists b. }
  split; [done|]. exists (j_entries j'). unfold logged. cbn [h_log].
  destruct Hcall as [-> |(v & mu & -> & Hauth & Hn & Hsome)].
  - exists vs. cbn [fmap list_fmap]. rewrite app_nil_r. split_and!; try assumption. unfold knows. cbn. reflexivity.
  - exists (vs ++ [v]). split_and!; [unfold knows; cbn; reflexivity| | |].
    + apply Forall2_app; [done|]. constructor; [done|constructor].
    + rewrite fmap_app. apply NoDup_app. split_and!; [done| |apply NoDup_singleton].
      intros id (w & -> & Hw)%list_elem_of_fmap Hid. apply list_elem_of_singleton in Hid.
      rewrite Forall_forall in Hin. destruct (Hin w Hw) as [a Ha]. unfold capability_id in *. by rewrite Hid, Hn in Ha.
    + apply Forall_app. split; [done|]. by apply Forall_singleton.
Qed.

Lemma host_step_inv h h' : host_step h h' → host_inv h → host_inv h'.
Proof.
  destruct 1 as [f log j Ho|f log j s ctx payload script evs j' out He|f log j s ctx payload script evs j' out file He Hsv].
  - intros [Hs (m & vs & Hk & Hrest)]. pose proof (step_open cver rver f [] [] j Ho) as Hst.
    split; [by eapply step_sound|]. exists m, vs. split; [by eapply (step_knows cver rver _ _ _ Hst)|done].
  - intros Hi. by eapply host_inv_handle.
  - intros Hi. eapply host_inv_handle in Hi as [Hs (m & vs & Hk & Hrest)]; [|done].
    pose proof (step_stop cver rver f [] [] j' file Hsv) as Hst.
    split; [by eapply step_sound|]. exists m, vs. split; [by eapply (step_knows cver rver _ _ _ Hst)|done].
Qed.

Lemma host_reachable_inv h : host_reachable h → host_inv h.
Proof.
  intros [file Hr]. assert (host_inv (MkHost None file [])) as Hi.
  { split; [done|]. exists ∅, []. split_and!; try constructor. intros j _ id a Ha. by rewrite lookup_empty in Ha. }
  revert Hi. induction Hr as [|h h1 h' Hst _ IH]; [done|]. intros Hi. apply IH. by eapply host_step_inv.
Qed.

Lemma host_consistent h j : host_reachable h → h_journal h = Some j → consistent cver rver j.
Proof. intros [Hs _]%host_reachable_inv Hj. unfold sound in Hs. cbn in Hs. by rewrite Hj in Hs. Qed.

(** A recorded result survives in whatever index grows from this one. *)
Lemma recorded_grows j j' v sr r : grows (j_entries j) (j_entries j') → recorded rver j v sr r → recorded rver j' v sr r.
Proof.
  intros Hg (start & term & Hin & Hterm & Hrest). destruct (Hg _ _ Hin) as (b & Hb & [-> |[Hn _]]); [|by rewrite Hterm in Hn].
  by exists start, term.
Qed.

(** Stepping by running. *)
Definition after_handle (h : host) (s : Service) (payload : string)
    (r : list event * Journal * option (result ExecErrorCode string)) : host :=
  MkHost (Some r.1.2) (h_file h) (h_log h ++ logged s payload r.1.1).

Lemma run_handle h j s ctx payload script r : h_journal h = Some j →
  exec cver rver script j (HandlePayload s ctx payload) = r → is_Some r.2 → host_step h (after_handle h s payload r).
Proof.
  destruct h as [oj f log], r as [[evs j'] out]. cbn. intros -> He [x Hx]. subst out. by eapply host_handle.
Qed.

End histories.

(** ** A sample run

    The contract vector's add: the address is absent, nft succeeds, and the
    read-back shows the element with 1799 seconds left. *)

Definition sample_service : Service :=
  MkService sample_verifier (MkResultSigner "executor-key" "executor-1" (@private_of_seed toy_ed25519 sample_seed)) "dispatcher-key".

Definition sample_request (recoveryOnly : bool) : string :=
  from_ok "" (EncodeRequestEnvelope (MkRequestEnvelope (sc_canonical sample_signed) (sc_signature sample_signed)
    (sc_artifact sample_signed) recoveryOnly)).

Definition sample_add : string := Eval vm_compute in sample_request false.
Definition sample_recovery : string := Eval vm_compute in sample_request true.

Definition sample_observation (state : string) (ttl : Z) : answer :=
  AnInspect (MkObservation state "203.0.113.20" PinnedLiveSchemaDigest ttl, false).

Definition sample_script : list answer :=
  [AnFailed false; AnGranted true; AnFailed false; AnLookup;
   AnTime sample_received; AnFailed false; AnDeadline None; sample_observation "absent" 0;
   AnTime sample_received; AnFailed false; AnDeadline None; AnAppend all_well;
   AnTime sample_received; AnMutate ("success", false); AnFailed false; sample_observation "active" 1799;
   AnTime sample_received; AnFailed false; AnRandom (Some (repeat 171 16)); AnAppend all_well].

Definition sample_run : list event * Journal * option (result ExecErrorCode string) :=
  @exec toy_ed25519 sample_verifier sample_result_verifier _ sample_script sample_empty
    (@HandlePayload toy_ed25519 sample_service Request sample_add).

Definition sample_response : string := Eval vm_compute in
  match sample_run.2 with Some (Ok response) => response | _ => "" end.

Lemma sample_run_facts : sample_run.2 = Some (Ok sample_response) ∧
  mutations sample_run.1.1 = [MkMutation "add" (sc_artifact sample_signed)].
Proof.
  assert ((sample_run.2, mutations sample_run.1.1) = (Some (Ok sample_response), [MkMutation "add" (sc_artifact sample_signed)])) as H
    by (vm_compute; reflexivity).
  by apply pair_equal_spec in H.
Qed.

Lemma sample_run_result : @exec toy_ed25519 sample_verifier sample_result_verifier _ sample_script sample_empty
    (@HandlePayload toy_ed25519 sample_service Request sample_add) = (sample_run.1.1, sample_run.1.2, Some (Ok sample_response)).
Proof.
  transitivity sample_run; [unfold sample_run; exact eq_refl|]. rewrite <-(proj1 sample_run_facts).
  set (r := sample_run). clearbody r. by destruct r as [[? ?] ?].
Qed.

Definition sample_fresh_host : host := MkHost (Some sample_empty) [] [].
Definition sample_host : host := after_handle sample_fresh_host sample_service sample_add sample_run.

Lemma sample_fresh_reachable : @host_reachable toy_ed25519 sample_verifier sample_result_verifier sample_fresh_host.
Proof. exists []. apply rtc_once. apply host_open. vm_compute. reflexivity. Qed.

Lemma sample_host_reachable : @host_reachable toy_ed25519 sample_verifier sample_result_verifier sample_host.
Proof.
  destruct sample_fresh_reachable as [file Hr]. exists file. etransitivity; [exact Hr|]. apply rtc_once.
  apply (run_handle sample_verifier sample_result_verifier sample_fresh_host sample_empty sample_service Request
    sample_add sample_script sample_run eq_refl eq_refl).
  rewrite (proj1 sample_run_facts). by eexists.
Qed.

(** ** Claims *)

(** C1. A capability changes the firewall at most once: over every history of
    request payloads, with the process dying at any point of handling one,
    failing writes, and any part of the unsynced bytes lost, the runner is asked
    for at most one mutation per capability identifier, and each one is the
    signed artifact of an add or revoke that verified with the dispatcher's key
    and came in an envelope that was not a recovery request. *)
Theorem mutates_at_most_once `{Ed25519} cver rver h : host_reachable cver rver h →
  ∃ vs, Forall2 (authorized cver) (h_log h) vs ∧ NoDup (capability_id <$> vs).
Proof. intros [_ (m & vs & _ & Hf & Hd & _)]%host_reachable_inv. by exists vs. Qed.

Lemma mutates_at_most_once_witness : me_mutation <$> h_log sample_host = [MkMutation "add" (sc_artifact sample_signed)] ∧
  ∃ vs, Forall2 (@authorized toy_ed25519 sample_verifier) (h_log sample_host) vs ∧ NoDup (capability_id <$> vs).
Proof.
  split; [|apply (@mutates_at_most_once toy_ed25519 sample_verifier sample_result_verifier); exact sample_host_reachable].
  unfold sample_host, after_handle, logged. cbn [h_log sample_fresh_host app]. rewrite (proj2 sample_run_facts). reflexivity.
Defined.

(** C2. A response is durable and true: when handling a payload returns a
    response, it is the envelope of a signed result the journal holds for the
    request's capability, also after any crash and restart; and unless that
    result was recorded before, if it reports the address blocked or unblocked
    it repeats the target, schema and remaining lifetime of the last read-back
    of this call, and "applied" comes straight after a successful add. *)
Theorem response_is_durable_and_true `{Ed25519} cver rver h j s ctx payload script evs j' response :
  host_reachable cver rver h → h_journal h = Some j →
  exec cver rver script j (HandlePayload s ctx payload) = (evs, j', Some (Ok response)) →
  ∃ envelope v sr r, DecodeRequestEnvelope payload = Ok envelope ∧ Verify cver (requested s envelope) = Ok v ∧
    DecodeResponseEnvelope response = Ok (MkResponseEnvelope (sr_canonical sr) (sr_signature sr)) ∧
    recorded rver j' v sr r ∧
    (∀ file j0, survives j' file → Open cver rver file = Ok j0 → recorded rver j0 v sr r) ∧
    (recorded rver j v sr r ∨ truthful v (r_Classification (vr_value r)) (r_RemainingTTLSeconds (vr_value r)) evs).
Proof.
  intros Hr Hj He. pose proof (host_consistent _ _ _ _ Hr Hj) as Hc.
  destruct (HandlePayload_run _ _ _ _ _ _ _ _ _ _ Hc He) as [(Hj' & _) Hreply].
  destruct (Hreply _ eq_refl response eq_refl) as (envelope & v & sr & r & Hd & Hv & Hres & Hrec & Htrue).
  exists envelope, v, sr, r. split_and!; try done.
  intros file j0 Hsv Ho. eapply recorded_grows; [|exact Hrec]. by eapply survives_open.
Qed.

Lemma response_is_durable_and_true_witness : ∃ v sr r,
  DecodeResponseEnvelope sample_response = Ok (MkResponseEnvelope (sr_canonical sr) (sr_signature sr)) ∧
  @recorded toy_ed25519 sample_result_verifier sample_run.1.2 v sr r.
Proof.
  destruct (@response_is_durable_and_true toy_ed25519 sample_verifier sample_result_verifier sample_fresh_host sample_empty
    sample_service Request sample_add sample_script sample_run.1.1 sample_run.1.2 sample_response sample_fresh_reachable eq_refl
    sample_run_result) as (e & v & sr & r & _ & _ & Hd & Hr & _).
  exact (ex_intro _ v (ex_intro _ sr (ex_intro _ r (conj Hd Hr)))).
Defined.

(** C21. Recovery only reads: a recovery envelope never makes the runner mutate
    and never starts a capability, whatever the surroundings answer and wherever
    the process dies; the index keeps its records, and there is a response only
    for a capability the index had. *)
Theorem recovery_only_reads `{Ed25519} cver rver h j s ctx payload envelope script evs j' out :
  host_reachable cver rver h → h_journal h = Some j →
  DecodeRequestEnvelope payload = Ok envelope → re_recoveryOnly envelope = true →
  exec cver rver script j (HandlePayload s ctx payload) = (evs, j', out) →
  mutations evs = [] ∧ dom (j_entries j') = dom (j_entries j) ∧ grows (j_entries j) (j_entries j') ∧
  (∀ response, out = Some (Ok response) → ∃ v, Verify cver (requested s envelope) = Ok v ∧
     is_Some (j_entries j !! v_CapabilityID (vc_value v))).
Proof.
  intros Hr Hj Hd Hro He. pose proof (host_consistent _ _ _ _ Hr Hj) as Hc.
  destruct (wp_exec cver rver _ _ _ _ [] _ _ _ _ (HandlePayload_recovery cver rver s ctx payload envelope j Hc Hd Hro) He)
    as [[_ Hg Hdom Hm] Hreply].
  split_and!; [done..|]. intros response ->.
  destruct (Hreply _ eq_refl response eq_refl) as (envelope' & v & sr & r & Hd' & Hv & _ & (start & term & Hin & _) & _).
  rewrite Hd in Hd'. injection Hd' as <-. exists v. split; [done|]. apply elem_of_dom. rewrite <-Hdom. apply elem_of_dom. by exists start.
Qed.

Lemma recovery_only_reads_witness :
  let r := @exec toy_ed25519 sample_verifier sample_result_verifier _ sample_script sample_empty
    (@HandlePayload toy_ed25519 sample_service Request sample_recovery) in
  r.2 = Some (Err XErrorReplay) ∧ mutations r.1.1 = [] ∧ dom (j_entries r.1.2) = dom (j_entries sample_empty).
Proof.
  intros r. split; [vm_compute; reflexivity|].
  destruct (@recovery_only_reads toy_ed25519 sample_verifier sample_result_verifier sample_fresh_host sample_empty sample_service
    Request sample_recovery (MkRequestEnvelope (sc_canonical sample_signed) (sc_signature sample_signed) (sc_artifact sample_signed) true)
    sample_script r.1.1 r.1.2 r.2 sample_fresh_reachable eq_refl) as (Hm & Hd & _).
  - vm_compute. reflexivity.
  - reflexivity.
  - change (exec _ _ _ _ _) with r. clearbody r. by destruct r as [[? ?] ?].
  - exact (conj Hm Hd).
Defined.
