(* ===== verification/GatewayPath.v ===== *)
(** * Request targets and hosts at the gateway ([internal/gateway/path.go], [host.go])

    The gateway compares and classifies only the canonical path and the
    normalised host; what it forwards is decided on them. *)

From S2P Require Import Prelude GoStrings Netip.
Local Open Scope Z_scope.

(** ** [strings] helpers *)

(** [strings.Split(s, sep)] for a one-byte separator. *)
Fixpoint split_on (sep : ascii) (l : list ascii) : list (list ascii) :=
  match l with
  | [] => [[]]
  | c :: l =>
      if decide (c = sep) then [] :: split_on sep l
      else match split_on sep l with
           | s :: ss => (c :: s) :: ss
           | [] => [[c]]
           end
  end.

(** The part of [l] before the first [sep]. *)
Fixpoint before_first (sep : ascii) (l : list ascii) : list ascii :=
  match l with
  | [] => []
  | c :: l => if decide (c = sep) then [] else c :: before_first sep l
  end.

Definition has_suffix (suffix s : list ascii) : bool :=
  bool_decide (drop (length s - length suffix) s = suffix) && (length suffix <=? length s)%nat.

(** ** Paths ([path.go]) *)

Definition hexValue (value : ascii) : option Z :=
  if between "0" "9" value then Some (code value - 48)
  else if between "a" "f" value then Some (code value - 97 + 10)
  else if between "A" "F" value then Some (code value - 65 + 10)
  else None.

Definition upperHex (value : Z) : ascii :=
  nth (Z.to_nat value) (chars "0123456789ABCDEF") "0"%char.

Definition isUnreserved (value : ascii) : bool :=
  between "a" "z" value || between "A" "Z" value || between "0" "9" value
  || bool_decide (value = "-"%char) || bool_decide (value = "."%char)
  || bool_decide (value = "_"%char) || bool_decide (value = "~"%char).

(** [value == '\\' || value == 0 || value < 0x20 || value == 0x7f] *)
Definition forbidden (value : ascii) : bool :=
  bool_decide (value = "\"%char) || (code value =? 0) || (code value <? 32) || (code value =? 127).

(** The byte of an escape, refused when it is a separator or a control byte. *)
Definition escaped_byte (h l : ascii) : option ascii :=
  match hexValue h, hexValue l with
  | Some hi, Some lo =>
      let decoded := chr (Z.lor (Z.shiftl hi 4) lo) in
      if bool_decide (decoded = "/"%char) || forbidden decoded then None else Some decoded
  | _, _ => None
  end.

Fixpoint validateTargetSyntax (target : list ascii) : bool :=
  match target with
  | [] => true
  | value :: rest =>
      if forbidden value then false
      else if negb (bool_decide (value = "%"%char)) then validateTargetSyntax rest
      else match rest with
           | h :: l :: rest' =>
               match escaped_byte h l with
               | Some _ => validateTargetSyntax rest'
               | None => false
               end
           | _ => false
           end
  end.

(** The rewriting loop of [canonicalPath]; [None] is [errInvalidPath]. *)
Fixpoint canonical_loop (previousSlash : bool) (path : list ascii) : option (list ascii) :=
  match path with
  | [] => Some []
  | char :: rest =>
      let write (char : ascii) (rest : option (list ascii)) : option (list ascii) :=
        cons char <$> rest in
      if forbidden char then None
      else if bool_decide (char = "%"%char) then
        match rest with
        | h :: l :: rest' =>
            match escaped_byte h l with
            | None => None
            | Some decoded =>
                if isUnreserved decoded then
                  (* an unreserved byte is never a slash *)
                  if bool_decide (decoded = "/"%char) then
                    if previousSlash then canonical_loop previousSlash rest'
                    else write decoded (canonical_loop true rest')
                  else write decoded (canonical_loop false rest')
                else
                  write "%"%char (write (upperHex (Z.shiftr (code decoded) 4))
                    (write (upperHex (Z.land (code decoded) 15)) (canonical_loop false rest')))
            end
        | _ => None
        end
      else if bool_decide (char = "/"%char) then
        if previousSlash then canonical_loop previousSlash rest
        else write char (canonical_loop true rest)
      else write char (canonical_loop false rest)
  end.

Definition dot_segment (segment : list ascii) : bool :=
  bool_decide (segment = chars ".") || bool_decide (segment = chars "..").

Definition canonicalPath (path : string) (maxPath : Z) : option string :=
  match chars path with
  | "/"%char :: _ =>
      if maxPath <? len path then None
      else
        canonical ← canonical_loop false (chars path);
        if existsb dot_segment (split_on "/" canonical) then None
        else if maxPath <? Z.of_nat (length canonical) then None
        else Some (implode canonical)
  | _ => None
  end.

Definition validateTarget (requestURI : string) (maxTarget maxPath : Z) : option string :=
  if (len requestURI =? 0) || (maxTarget <? len requestURI)
     || negb (String.prefix "/" requestURI) || String.prefix "//" requestURI then None
  else if negb (validateTargetSyntax (chars requestURI)) then None
  else
    let path := implode (before_first "?" (chars requestURI)) in
    if maxPath <? len path then None else canonicalPath path maxPath.

Inductive SuspiciousPathID :=
| SuspiciousPathNone | SuspiciousPathAdminConsole | SuspiciousPathEnvFile
| SuspiciousPathGitConfig | SuspiciousPathWPAdmin | SuspiciousPathPHPMyAdmin
| SuspiciousPathServerStatus | SuspiciousPathActuatorEnv | SuspiciousPathBackupArchive.

(** [strings.ToLower], up to what a comparison with ASCII text can see: the
    upper-case letters, and the two other runes whose lower case is ASCII
    (U+0130 and the Kelvin sign U+212A); every other rune lowers to a rune
    outside ASCII and is kept as it is. *)
Fixpoint to_lower (l : list ascii) : list ascii :=
  match l with
  | "196"%char :: (("176"%char :: rest) as r) => "i"%char :: to_lower rest
  | "226"%char :: (("132"%char :: (("170"%char :: rest) as r2)) as r) => "k"%char :: to_lower rest
  | c :: rest => to_lower_ascii c :: to_lower rest
  | [] => []
  end.

Definition classifyPath (path loginPath loginLabel : string) : string * SuspiciousPathID :=
  let route := if String.eqb path loginPath then loginLabel else "other" in
  let lower := to_lower (chars path) in
  let equals (s : string) := bool_decide (lower = chars s) in
  let starts (s : string) := String.prefix s (implode lower) in
  let ends (s : string) := has_suffix (chars s) lower in
  (route,
    if starts "/admin" || starts "/administrator" then SuspiciousPathAdminConsole
    else if equals "/.env" then SuspiciousPathEnvFile
    else if equals "/.git/config" then SuspiciousPathGitConfig
    else if starts "/wp-admin" || equals "/wp-login.php" then SuspiciousPathWPAdmin
    else if starts "/phpmyadmin" then SuspiciousPathPHPMyAdmin
    else if equals "/server-status" then SuspiciousPathServerStatus
    else if equals "/actuator/env" then SuspiciousPathActuatorEnv
    else if ends ".bak" || ends ".backup" || ends ".old" || ends ".zip" then SuspiciousPathBackupArchive
    else SuspiciousPathNone).

(** ** Hosts ([host.go])

    [None] stands for the errors, which carry only a message. *)

Definition host_forbidden (c : ascii) : bool :=
  bool_decide (c ∈ chars "@, /\") || (code c =? 9) || (code c =? 13) || (code c =? 10).

(** The empty, ambiguous and non-printable values.  [strings.TrimSpace] would
    change a value only if it began or ended with a space, and every space is
    outside the printable range tested here. *)
Definition host_syntax_ok (value : list ascii) : bool :=
  negb (bool_decide (value = [])) && negb (existsb host_forbidden value)
  && forallb (λ c, (33 <=? code c) && (code c <=? 127)) value.

Definition is_colon (c : ascii) : bool := bool_decide (c = ":"%char).

(** [net.SplitHostPort] for a value with exactly one colon that does not begin
    with a bracket. *)
Definition split_host_port (value : list ascii) : option (list ascii * list ascii) :=
  if existsb (λ c, bool_decide (c = "["%char) || bool_decide (c = "]"%char)) value then None
  else let host := before_first ":" value in Some (host, drop (S (length host)) value).

(** [net.JoinHostPort] *)
Definition join_host_port (host port : list ascii) : list ascii :=
  if existsb (λ c, is_colon c || bool_decide (c = "%"%char)) host
  then "["%char :: host ++ chars "]:" ++ port
  else host ++ ":"%char :: port.

Definition trim_dot (host : list ascii) : list ascii :=
  if has_suffix (chars ".") host then take (length host - 1) host else host.

Definition is_dns (c : ascii) : bool :=
  between "a" "z" c || between "0" "9" c || bool_decide (c = "-"%char).

Definition label_ok (label : list ascii) : bool :=
  negb ((length label =? 0)%nat || (63 <? length label)%nat
        || bool_decide (head label = Some "-"%char) || bool_decide (last label = Some "-"%char))
  && forallb is_dns label.

Definition host_ok (host : list ascii) : bool :=
  negb (bool_decide (host = []) || (253 <? length host)%nat)
  && negb (bool_decide (is_Some (parse_addr4 (implode host))))
  && forallb label_ok (split_on "." host).

Definition port_ok (port : list ascii) : bool :=
  match atoi (implode port) with
  | Some n => (1 <=? n) && (n <=? 65535) && bool_decide (chars (itoa n) = port)
  | None => false
  end.

Definition normalizeHost (value : string) (tls permitCase : bool) : option string :=
  let v := chars value in
  if negb (host_syntax_ok v) then None
  else if negb permitCase && negb (bool_decide (v = map to_lower_ascii v)) then None
  else if bool_decide (head v = Some "["%char) then None
  else if (1 <? length (filter (λ c, is_colon c = true) v))%nat then None
  else
    '(host, port) ← (if existsb is_colon v then split_host_port v else Some (v, []));
    let host := map to_lower_ascii host in
    let trimmed := trim_dot host in
    if has_suffix (chars ".") host && has_suffix (chars ".") trimmed then None
    else if negb (host_ok trimmed) then None
    else if bool_decide (port = []) then Some (implode trimmed)
    else if negb (port_ok port) then None
    else
      let defaultPort := if tls then "443" else "80" in
      if negb (bool_decide (port = chars defaultPort)) then Some (implode (join_host_port trimmed port))
      else Some (implode trimmed).

Definition normalizeRequestHost (value : string) (tls : bool) : option string := normalizeHost value tls true.
Definition normalizeConfiguredHost (value : string) (tls : bool) : option string := normalizeHost value tls false.

Example host_samples :
  (normalizeRequestHost "Shop.Example.COM.:443" true, normalizeRequestHost "example.com:8080" true,
   normalizeConfiguredHost "Example.com" true, normalizeRequestHost "203.0.113.20:80" false,
   normalizeRequestHost "a..b" false, normalizeRequestHost "a.b:+80" false)
  = (Some "shop.example.com", Some "example.com:8080", None, None, None, None).
Proof. vm_compute. reflexivity. Qed.

Example canonical_sample :
  canonicalPath "/a//b%2Fc" 100 = None ∧
  canonicalPath "//a///b%41%c3%a9%2e" 100 = Some "/a/bA%C3%A9." ∧
  canonicalPath "/a/%2e%2E/b" 100 = None ∧ canonicalPath "/a%zz" 100 = None ∧
  canonicalPath "/x%25%32e" 100 = Some "/x%252e".
Proof. vm_compute. done. Qed.

Example classify_sample :
  (classifyPath "/ADMIN/x" "/login" "login", classifyPath "/login" "/login" "login",
   classifyPath "/.env" "/login" "login", classifyPath "/a/b.BAK" "/login" "login")
  = (("other", SuspiciousPathAdminConsole), ("login", SuspiciousPathNone),
     ("other", SuspiciousPathEnvFile), ("other", SuspiciousPathBackupArchive)).
Proof. vm_compute. reflexivity. Qed.
