(* ===== verification/GatewaySpec.v ===== *)
(** * Canonical paths: reference definition, fixed points and safety

    The reference reads a path into atoms (a byte, written as itself or as an
    escape), writes unreserved bytes as themselves, drops repeated slashes and
    prints the result; the one-pass loop of the code computes the same. *)

From S2P Require Import Prelude GoStrings Regex Netip GatewayPath.
Local Open Scope Z_scope.

Inductive atom := Plain (c : ascii) | Enc (c : ascii).

Definition atom_byte (a : atom) : ascii := match a with Plain c | Enc c => c end.

(** Reading *)
Fixpoint atoms (l : list ascii) : option (list atom) :=
  match l with
  | [] => Some []
  | c :: rest =>
      if forbidden c then None
      else if bool_decide (c = "%"%char) then
        match rest with
        | h :: l :: rest' => d ← escaped_byte h l; cons (Enc d) <$> atoms rest'
        | _ => None
        end
      else cons (Plain c) <$> atoms rest
  end.

(** Printing *)
Definition print_atom (a : atom) : list ascii :=
  match a with
  | Plain c => [c]
  | Enc c => ["%"%char; upperHex (Z.shiftr (code c) 4); upperHex (Z.land (code c) 15)]
  end.

Definition print_atoms (l : list atom) : list ascii := concat (print_atom <$> l).

Definition normal_atom (a : atom) : atom :=
  match a with Enc c => if isUnreserved c then Plain c else Enc c | a => a end.

(** Keep one slash of every run, as bytes and as atoms. *)
Fixpoint squeeze {A} (byte : A → ascii) (previousSlash : bool) (l : list A) : list A :=
  match l with
  | [] => []
  | a :: l =>
      if bool_decide (byte a = "/"%char) then
        if previousSlash then squeeze byte true l else a :: squeeze byte true l
      else a :: squeeze byte false l
  end.

Definition reference (l : list ascii) : option (list ascii) :=
  as' ← atoms l; Some (print_atoms (squeeze atom_byte false (normal_atom <$> as'))).

(** Atoms [atoms] can produce. *)
Definition atom_ok (a : atom) : bool :=
  match a with
  | Plain c => negb (forbidden c) && negb (bool_decide (c = "%"%char))
  | Enc c => negb (forbidden c) && negb (bool_decide (c = "/"%char))
  end.

(** ** Bytes, checked exhaustively *)

Lemma all_bytes_forall (p : ascii → bool) : forallb p all_bytes = true → ∀ c, p c = true.
Proof.
  rewrite forallb_Forall, Forall_forall. eauto using all_bytes_complete.
Qed.

Lemma escaped_print c : forbidden c = false → c ≠ "/"%char →
  escaped_byte (upperHex (Z.shiftr (code c) 4)) (upperHex (Z.land (code c) 15)) = Some c.
Proof.
  intros Hf Hs.
  assert (∀ c, forbidden c || bool_decide (c = "/"%char) ||
    bool_decide (escaped_byte (upperHex (Z.shiftr (code c) 4)) (upperHex (Z.land (code c) 15)) = Some c) = true)
    as H by (apply all_bytes_forall; vm_compute; reflexivity).
  specialize (H c). rewrite Hf, bool_decide_eq_false_2 in H by done. by apply bool_decide_eq_true in H.
Qed.

Lemma unreserved_ok c : isUnreserved c = true → forbidden c = false ∧ c ≠ "/"%char ∧ c ≠ "%"%char.
Proof.
  intros Hu.
  assert (∀ c, negb (isUnreserved c) || (negb (forbidden c) &&
    negb (bool_decide (c = "/"%char)) && negb (bool_decide (c = "%"%char))) = true)
    as H by (apply all_bytes_forall; vm_compute; reflexivity).
  specialize (H c). rewrite Hu in H. simpl in H. breflect. tauto.
Qed.

Lemma escaped_byte_ok h l d : escaped_byte h l = Some d → forbidden d = false ∧ d ≠ "/"%char.
Proof.
  unfold escaped_byte. intros H. destruct (hexValue h), (hexValue l); try done.
  cbv zeta in H. destruct (_ || _) eqn:E in H; [done|]. simplify_eq. breflect. tauto.
Qed.

(** ** Reading and printing are inverse *)

Lemma atoms_ok_aux n : ∀ l as', (length l ≤ n)%nat → atoms l = Some as' →
  forallb atom_ok as' = true.
Proof.
  induction n as [|n IH]; intros [|c l] as' Hn H; simpl in *; simplify_eq/=; try done; try lia.
  destruct (forbidden c) eqn:Ef; [done|]. case_bool_decide as Ep.
  - destruct l as [|h [|lo l]]; [done..|]. destruct (escaped_byte h lo) as [d|] eqn:Ed; [|done].
    simpl in H. destruct (atoms l) as [k|] eqn:Ek; [|done]. simplify_eq/=.
    apply escaped_byte_ok in Ed as [-> Hd]. rewrite bool_decide_eq_false_2 by done.
    apply (IH l); [simpl in *; lia|done].
  - destruct (atoms l) as [k|] eqn:Ek; [|done]. simplify_eq/=.
    rewrite Ef, bool_decide_eq_false_2 by done. apply (IH l); [lia|done].
Qed.

Lemma atoms_ok l as' : atoms l = Some as' → forallb atom_ok as' = true.
Proof. by apply atoms_ok_aux with (n := length l). Qed.

Lemma atoms_print as' : forallb atom_ok as' = true → atoms (print_atoms as') = Some as'.
Proof.
  induction as' as [|a as' IH]; intros H; [done|]. simpl in H. apply andb_true_iff in H as [Ha H].
  change (print_atoms (a :: as')) with (print_atom a ++ print_atoms as').
  destruct a as [c|c]; simpl in *; breflect; destruct Ha as [Hf Hc].
  - rewrite Hf, bool_decide_eq_false_2 by done. by rewrite IH.
  - rewrite escaped_print by done. simpl. by rewrite IH.
Qed.

(** ** The loop of the code computes the reference *)

Lemma canonical_loop_reference_aux n : ∀ l ps, (length l ≤ n)%nat →
  canonical_loop ps l =
    (as' ← atoms l; Some (print_atoms (squeeze atom_byte ps (normal_atom <$> as')))).
Proof.
  induction n as [|n IH]; intros [|c l] ps Hn; simpl in *; try done; try lia.
  destruct (forbidden c) eqn:Ef; [done|]. case_bool_decide as Ep.
  - destruct l as [|h [|lo l]]; [done..|]. simpl in Hn.
    destruct (escaped_byte h lo) as [d|] eqn:Ed; [|done]. simpl.
    apply escaped_byte_ok in Ed as [Hf Hd]. rewrite !IH by lia.
    destruct (atoms l) as [k|]; simpl; [|by repeat case_match].
    rewrite !bool_decide_eq_false_2 by (by destruct (isUnreserved d)).
    by destruct (isUnreserved d).
  - rewrite !IH by lia. destruct (atoms l) as [k|]; simpl; [|by repeat case_match].
    by destruct (bool_decide (c = "/"%char)), ps.
Qed.

Lemma canonical_loop_reference l : canonical_loop false l = reference l.
Proof. by apply canonical_loop_reference_aux with (n := length l). Qed.

(** ** Normal atom lists are fixed points *)

Lemma normal_atom_ok a : atom_ok a = true → atom_ok (normal_atom a) = true.
Proof.
  destruct a as [c|c]; simpl; [done|]. destruct (isUnreserved c) eqn:Eu; [|done].
  intros _. simpl. destruct (unreserved_ok c Eu) as (-> & _ & Hp). simpl. by rewrite bool_decide_eq_false_2.
Qed.

Lemma normal_atom_idem a : normal_atom (normal_atom a) = normal_atom a.
Proof. destruct a as [c|c]; simpl; [done|]. destruct (isUnreserved c) eqn:E; simpl; [done|by rewrite E]. Qed.

Lemma normal_atom_byte a : atom_byte (normal_atom a) = atom_byte a.
Proof. destruct a as [c|c]; simpl; [done|]. by destruct (isUnreserved c). Qed.

Lemma squeeze_incl {A} (byte : A → ascii) ps l : squeeze byte ps l ⊆ l.
Proof.
  revert ps. induction l as [|a l IH]; intros ps; simpl; [done|].
  repeat case_match; set_solver.
Qed.

Lemma squeeze_idem {A} (byte : A → ascii) ps l : squeeze byte ps (squeeze byte ps l) = squeeze byte ps l.
Proof.
  revert ps. induction l as [|a l IH]; intros ps; simpl; [done|].
  destruct (bool_decide (byte a = "/"%char)) eqn:E; [destruct ps|]; simpl; rewrite ?E, ?IH; done.
Qed.

Lemma squeeze_map {A B} (f : A → B) (byte : B → ascii) ps l :
  squeeze byte ps (f <$> l) = f <$> squeeze (byte ∘ f) ps l.
Proof.
  revert ps. induction l as [|a l IH]; intros ps; simpl; [done|].
  destruct (bool_decide (byte (f a) = "/"%char)); [destruct ps|]; simpl; by rewrite <-IH.
Qed.

Lemma squeeze_ext {A} (f g : A → ascii) ps l : (∀ a, f a = g a) → squeeze f ps l = squeeze g ps l.
Proof.
  intros H. revert ps. induction l as [|a l IH]; intros ps; simpl; [done|].
  rewrite H. by rewrite !IH.
Qed.

Lemma forallb_incl {A} (p : A → bool) l k : k ⊆ l → forallb p l = true → forallb p k = true.
Proof. rewrite !forallb_Forall, !Forall_forall. set_solver. Qed.

(** The canonical atoms of a path. *)
Definition canonical_atoms (as' : list atom) : list atom := squeeze atom_byte false (normal_atom <$> as').

Lemma canonical_atoms_ok as' : forallb atom_ok as' = true → forallb atom_ok (canonical_atoms as') = true.
Proof.
  intros H. eapply forallb_incl; [apply squeeze_incl|].
  rewrite forallb_Forall in *. apply Forall_fmap. eapply Forall_impl; [exact H|]. apply normal_atom_ok.
Qed.

Lemma canonical_atoms_normal as' : normal_atom <$> canonical_atoms as' = canonical_atoms as'.
Proof.
  unfold canonical_atoms. rewrite squeeze_map, <-list_fmap_compose.
  apply list_fmap_ext. intros i a _. apply normal_atom_idem.
Qed.

Lemma canonical_atoms_idem as' : canonical_atoms (canonical_atoms as') = canonical_atoms as'.
Proof.
  unfold canonical_atoms at 1. rewrite canonical_atoms_normal. apply squeeze_idem.
Qed.

Lemma canonical_atoms_bytes as' :
  atom_byte <$> canonical_atoms as' = squeeze id false (atom_byte <$> as').
Proof.
  unfold canonical_atoms. rewrite !squeeze_map, <-list_fmap_compose.
  rewrite (squeeze_ext (atom_byte ∘ normal_atom) atom_byte) by apply normal_atom_byte.
  apply list_fmap_ext. intros i a _. apply normal_atom_byte.
Qed.

Lemma reference_spec l q : reference l = Some q ↔
  ∃ as', atoms l = Some as' ∧ q = print_atoms (canonical_atoms as').
Proof.
  unfold reference. destruct (atoms l) as [k|]; simpl; naive_solver.
Qed.

Lemma reference_atoms l q as' : atoms l = Some as' → q = print_atoms (canonical_atoms as') →
  atoms q = Some (canonical_atoms as').
Proof. intros H ->. apply atoms_print, canonical_atoms_ok. by eapply atoms_ok. Qed.

Lemma reference_idem l q : reference l = Some q → reference q = Some q.
Proof.
  intros (as' & Ha & Hq)%reference_spec. apply reference_spec. exists (canonical_atoms as').
  split; [by eapply reference_atoms|]. by rewrite canonical_atoms_idem.
Qed.

(** ** Safety of the printed path *)

(** No byte of a printed path is forbidden. *)
Lemma upperHex_ok n : forbidden (upperHex n) = false ∧ upperHex n ≠ "/"%char.
Proof.
  unfold upperHex. generalize (Z.to_nat n). intros k. destruct (decide (k < 16)%nat).
  - do 16 (destruct k as [|k]; [by vm_compute|]). lia.
  - rewrite nth_overflow by (simpl; lia). by vm_compute.
Qed.

Lemma print_atoms_safe as' : forallb atom_ok as' = true →
  Forall (λ c, forbidden c = false) (print_atoms as').
Proof.
  induction as' as [|a as' IH]; intros H; [constructor|].
  simpl in H. apply andb_true_iff in H as [Ha H].
  change (print_atoms (a :: as')) with (print_atom a ++ print_atoms as').
  apply Forall_app. split; [|by apply IH].
  destruct a as [c|c]; simpl in *; breflect; destruct Ha as [Hf _]; repeat constructor; try done;
    apply upperHex_ok.
Qed.

(** No two slashes in a row: [ps] says the byte before was one. *)
Fixpoint no_double_slash (ps : bool) (l : list ascii) : Prop :=
  match l with
  | [] => True
  | c :: l => (ps = true → c ≠ "/"%char) ∧ no_double_slash (bool_decide (c = "/"%char)) l
  end.

Lemma no_double_slash_skip ps l k : Forall (λ c, c ≠ "/"%char) l → l ≠ [] →
  no_double_slash false k → no_double_slash ps (l ++ k).
Proof.
  revert ps. induction l as [|c l IH]; intros ps Hl Hne Hk; [done|]. apply Forall_cons in Hl as [Hc Hl].
  simpl. split; [done|]. rewrite bool_decide_eq_false_2 by done.
  destruct l; [done|]. by apply IH.
Qed.

Lemma print_atoms_no_double ps as' : forallb atom_ok as' = true →
  no_double_slash ps (print_atoms (squeeze atom_byte ps as')).
Proof.
  revert ps. induction as' as [|a as' IH]; intros ps H; [done|].
  simpl in H. apply andb_true_iff in H as [Ha H]. simpl.
  destruct (bool_decide (atom_byte a = "/"%char)) eqn:E; breflect.
  - destruct ps; [by apply IH|].
    destruct a as [c|c]; simpl in E; subst; [|by apply andb_true_iff in Ha as [_ Ha]].
    simpl. split; [done|]. by apply IH.
  - change (print_atoms (a :: ?k)) with (print_atom a ++ print_atoms k).
    apply no_double_slash_skip; [|by destruct a|by apply IH].
    destruct a as [c|c]; simpl in *; repeat constructor; try done; apply upperHex_ok.
Qed.

(** ** The whole function *)

Lemma canonicalPath_iff p m q : canonicalPath p m = Some q ↔
  head (chars p) = Some "/"%char ∧ len p <= m ∧ reference (chars p) = Some (chars q) ∧
  Forall (λ s, dot_segment s = false) (split_on "/" (chars q)) ∧ len q <= m.
Proof.
  unfold canonicalPath.
  destruct (chars p) as [|c l] eqn:Ep; [naive_solver|].
  destruct (decide (c = "/"%char)) as [->|Hc]; [|split; [|naive_solver]; by repeat case_match].
  destruct (m <? len p) eqn:Em; breflect; [naive_solver lia|].
  rewrite canonical_loop_reference. destruct (reference _) as [r|]; simpl; [|naive_solver].
  rewrite <-existsb_false. destruct (existsb _ _) eqn:Ee.
  { split; [done|]. intros (_ & _ & [= ->] & ? & _). congruence. }
  destruct (m <? Z.of_nat (length r)) eqn:El; breflect.
  - split; [done|]. intros (_ & _ & [= ->] & _ & Hq). rewrite len_chars in Hq. lia.
  - split.
    + intros [= <-]. rewrite chars_implode, len_implode. done.
    + intros (_ & _ & [= ->] & _ & _). by rewrite implode_chars.
Qed.

Lemma reference_head l q : head l = Some "/"%char → reference l = Some q → head q = Some "/"%char.
Proof.
  intros Hh (as' & Ha & ->)%reference_spec. destruct l as [|c l]; [done|]. simplify_eq/=.
  destruct (atoms l) as [k|]; [|done]. by simplify_eq/=.
Qed.

(** What the rest of the gateway may rely on. *)
Record safe_path (l : list ascii) : Prop := {
  sp_rooted : head l = Some "/"%char;
  sp_bytes : Forall (λ c, forbidden c = false) l;
  sp_slashes : no_double_slash false l;
  sp_segments : Forall (λ s, dot_segment s = false) (split_on "/" l);
  (* every escape is upper case, needed, and hides no separator *)
  sp_escapes : ∃ as', l = print_atoms as' ∧
    Forall (λ a, match a with
                 | Plain c => c ≠ "%"%char
                 | Enc c => isUnreserved c = false ∧ forbidden c = false ∧ c ≠ "/"%char
                 end) as'
}.

Lemma canonical_atoms_escapes as' : forallb atom_ok as' = true →
  Forall (λ a, match a with
               | Plain c => c ≠ "%"%char
               | Enc c => isUnreserved c = false ∧ forbidden c = false ∧ c ≠ "/"%char
               end) (canonical_atoms as').
Proof.
  intros H%canonical_atoms_ok. rewrite forallb_Forall, Forall_forall in H. apply Forall_forall.
  intros a Ha. specialize (H a Ha).
  assert (normal_atom a = a) as Hn.
  { rewrite <-canonical_atoms_normal in Ha. apply list_elem_of_fmap in Ha as (b & -> & _).
    apply normal_atom_idem. }
  destruct a as [c|c]; simpl in *; breflect; destruct H as [Hf Hc]; [done|].
  by destruct (isUnreserved c).
Qed.

Lemma canonicalPath_safe p m q : canonicalPath p m = Some q → safe_path (chars q).
Proof.
  intros (Hh & _ & Hr & Hd & _)%canonicalPath_iff. pose proof (reference_head _ _ Hh Hr) as Hhq.
  apply reference_spec in Hr as (as' & Ha & Hq). pose proof (atoms_ok _ _ Ha) as Hok.
  rewrite Hq in *. split; try done.
  - by apply print_atoms_safe, canonical_atoms_ok.
  - apply print_atoms_no_double. rewrite forallb_Forall in *. apply Forall_fmap.
    eapply Forall_impl; [exact Hok|]. apply normal_atom_ok.
  - exists (canonical_atoms as'). split; [done|]. by apply canonical_atoms_escapes.
Qed.

Lemma validateTarget_path uri mt mp q : validateTarget uri mt mp = Some q →
  canonicalPath (implode (before_first "?" (chars uri))) mp = Some q.
Proof.
  unfold validateTarget. intros H.
  repeat (match type of H with (if ?b then None else _) = _ => destruct b; [done|] end). done.
Qed.

(** The decoded bytes a path stands for. *)
Definition decoded (l : list ascii) : option (list ascii) :=
  match atoms l with Some k => Some (map atom_byte k) | None => None end.

(** ** Hosts *)

(** The bytes of a normalised host name. *)
Definition host_byte (c : ascii) : bool := is_dns c || bool_decide (c = "."%char).

Lemma split_on_Forall (P : ascii → Prop) sep l :
  P sep → Forall (Forall P) (split_on sep l) → Forall P l.
Proof.
  intros Hsep. induction l as [|c l IH]; simpl; [constructor|]. case_decide as Hc.
  - subst. intros [_ H]%Forall_cons. auto.
  - destruct (split_on sep l) as [|s ss] eqn:E; intros H.
    + destruct l as [|d l]; [|simpl in E; repeat case_match; done]. done.
    + apply Forall_cons in H as [Hs Hss]. apply Forall_cons in Hs as [Hc' Hs].
      constructor; [done|]. apply IH. by constructor.
Qed.

Lemma split_on_nonempty sep l : split_on sep l ≠ [].
Proof. destruct l as [|c l]; simpl; [done|]. case_decide; [done|]. by destruct (split_on sep l). Qed.

Lemma split_on_trailing sep l : [] ∈ split_on sep (l ++ [sep]).
Proof.
  assert (split_on sep (l ++ [sep]) = split_on sep l ++ [[]]) as ->; [|set_solver].
  induction l as [|c l IH]; simpl; [by rewrite decide_True|].
  rewrite IH. case_decide; [done|].
  pose proof (split_on_nonempty sep l). by destruct (split_on sep l).
Qed.

Lemma has_suffix_one c l : has_suffix [c] l = true → ∃ k, l = k ++ [c].
Proof.
  unfold has_suffix. intros H. bsplit. simpl in *. exists (take (length l - 1) l).
  rewrite <-(take_drop (length l - 1) l) at 1. congruence.
Qed.

Lemma host_ok_bytes t : host_ok t = true → Forall (λ c, host_byte c = true) t.
Proof.
  unfold host_ok. intros H. bsplit. apply (split_on_Forall _ "."%char); [done|].
  match goal with H : forallb _ _ = true |- _ => rewrite forallb_Forall in H; eapply Forall_impl; [exact H|] end.
  intros label Hl. unfold label_ok in Hl. bsplit.
  match goal with H : forallb is_dns _ = true |- _ => rewrite forallb_Forall in H; eapply Forall_impl; [exact H|] end.
  intros c Hc. unfold host_byte. by rewrite Hc.
Qed.

Lemma host_ok_no_trailing t : host_ok t = true → has_suffix (chars ".") t = false.
Proof.
  intros H. apply not_true_iff_false. intros [k ->]%has_suffix_one. unfold host_ok in H. bsplit.
  match goal with H : forallb _ _ = true |- _ => rewrite forallb_Forall, Forall_forall in H;
    specialize (H [] (split_on_trailing _ k)) end. done.
Qed.

(** What every normalised byte satisfies. *)
Lemma host_byte_facts c : host_byte c || is_digit c = true →
  host_forbidden c = false ∧ (33 <=? code c) && (code c <=? 127) = true ∧
  to_lower_ascii c = c ∧ is_colon c = false ∧ c ≠ "["%char ∧ c ≠ "]"%char ∧ c ≠ "%"%char.
Proof.
  intros Hc.
  assert (∀ c, negb (host_byte c || is_digit c) || (negb (host_forbidden c) &&
    ((33 <=? code c) && (code c <=? 127)) && bool_decide (to_lower_ascii c = c) && negb (is_colon c) &&
    negb (bool_decide (c = "["%char)) && negb (bool_decide (c = "]"%char)) &&
    negb (bool_decide (c = "%"%char))) = true) as H by (apply all_bytes_forall; vm_compute; reflexivity).
  specialize (H c). rewrite Hc in H. simpl in H. bsplit.
  by split_and!.
Qed.

Definition name_byte (c : ascii) : bool := host_byte c || is_digit c.

Lemma map_lower_id l : Forall (λ c, to_lower_ascii c = c) l → map to_lower_ascii l = l.
Proof. induction 1; simpl; congruence. Qed.

Lemma port_ok_digits port : port_ok port = true → forallb is_digit port = true.
Proof.
  unfold port_ok. destruct (atoi _) as [n|]; [|done]. intros H. bsplit. subst.
  unfold itoa. rewrite (proj2 (Z.ltb_ge _ _)) by lia. apply format_uint_digits.
Qed.

(** The value [host] or [host:port] as the code writes it. *)
Definition host_text (host : list ascii) (port : option (list ascii)) : list ascii :=
  match port with None => host | Some port => host ++ ":"%char :: port end.

Definition default_port (tls : bool) : list ascii := chars (if tls then "443" else "80").

(** Normalised values: a valid host name, and a port only when it is not the
    default. *)
Definition normal_host (tls : bool) (host : list ascii) (port : option (list ascii)) : Prop :=
  host_ok host = true ∧
  match port with None => True | Some port => port_ok port = true ∧ port ≠ default_port tls end.

Lemma join_plain host port : Forall (λ c, host_byte c = true) host →
  join_host_port host port = host ++ ":"%char :: port.
Proof.
  intros H. unfold join_host_port. rewrite (proj2 (existsb_false _ _)); [done|].
  eapply Forall_impl; [exact H|]. intros c Hc.
  destruct (host_byte_facts c) as (_ & _ & _ & -> & _ & _ & Hp); [by rewrite Hc|].
  by rewrite bool_decide_eq_false_2.
Qed.

Lemma normalizeHost_result v tls pc h : normalizeHost v tls pc = Some h →
  ∃ host port, normal_host tls host port ∧ chars h = host_text host port.
Proof.
  unfold normalizeHost. intros H.
  repeat (match type of H with (if ?b then None else _) = _ => destruct b; [done|] end).
  destruct (if existsb is_colon (chars v) then _ else _) as [[host port]|]; [|done].
  simpl in H. destruct (_ && _) in H; [done|].
  destruct (negb (host_ok _)) eqn:Eh in H; [done|]. apply negb_false_iff in Eh.
  pose proof (host_ok_bytes _ Eh) as Hb.
  case_bool_decide; [simplify_eq; exists (trim_dot (map to_lower_ascii host)), None; by rewrite chars_implode|].
  destruct (negb (port_ok port)) eqn:Ep in H; [done|]. apply negb_false_iff in Ep.
  destruct (negb (bool_decide _)) eqn:Ed in H; simplify_eq.
  - breflect. exists (trim_dot (map to_lower_ascii host)), (Some port). rewrite chars_implode, join_plain by done.
    done.
  - exists (trim_dot (map to_lower_ascii host)), None. by rewrite chars_implode.
Qed.

Lemma name_syntax_ok l : l ≠ [] → Forall (λ c, name_byte c = true ∨ c = ":"%char) l →
  host_syntax_ok l = true ∧ map to_lower_ascii l = l ∧ head l ≠ Some "["%char ∧
  existsb (λ c, bool_decide (c = "["%char) || bool_decide (c = "]"%char)) l = false.
Proof.
  intros Hne Hl. assert (Forall (λ c, host_forbidden c = false ∧ (33 <=? code c) && (code c <=? 127) = true ∧
    to_lower_ascii c = c ∧ c ≠ "["%char ∧ c ≠ "]"%char) l) as Hf.
  { eapply Forall_impl; [exact Hl|]. intros c [Hc | ->]; [|done].
    destruct (host_byte_facts c Hc) as (? & ? & ? & _ & ? & ? & _). done. }
  split_and!.
  - unfold host_syntax_ok. rewrite bool_decide_eq_false_2 by done. simpl.
    rewrite (proj2 (existsb_false host_forbidden l)) by (eapply Forall_impl; [exact Hf|]; naive_solver).
    apply forallb_Forall. eapply Forall_impl; [exact Hf|]. naive_solver.
  - apply map_lower_id. eapply Forall_impl; [exact Hf|]. naive_solver.
  - destruct l; [done|]. apply Forall_cons in Hf as [Hf _]. simpl. naive_solver.
  - apply existsb_false. eapply Forall_impl; [exact Hf|]. intros c (_ & _ & _ & H1 & H2).
    by rewrite !bool_decide_eq_false_2.
Qed.

Lemma no_colon l : Forall (λ c, name_byte c = true) l →
  filter (λ c, is_colon c = true) l = [] ∧ existsb is_colon l = false.
Proof.
  intros H. assert (Forall (λ c, is_colon c = false) l) as Hc.
  { eapply Forall_impl; [exact H|]. intros c Hc. apply (host_byte_facts c Hc). }
  split; [|by apply existsb_false]. induction Hc as [|c l Hc Hl IH]; [done|].
  apply Forall_cons in H as [_ H]. rewrite filter_cons_False by congruence. auto.
Qed.

Lemma before_first_app sep l k : Forall (λ c, c ≠ sep) l → before_first sep (l ++ sep :: k) = l.
Proof.
  induction 1 as [|c l Hc Hl IH]; simpl; [by rewrite decide_True|].
  rewrite decide_False by done. by rewrite IH.
Qed.

Lemma normal_host_fixed tls host port : normal_host tls host port →
  normalizeHost (implode (host_text host port)) tls false = Some (implode (host_text host port)).
Proof.
  intros [Hh Hp]. pose proof (host_ok_bytes _ Hh) as Hb.
  assert (Forall (λ c, name_byte c = true) host) as Hn.
  { eapply Forall_impl; [exact Hb|]. intros c Hc. unfold name_byte. by rewrite Hc. }
  assert (host ≠ []) as Hne by (by intros ->).
  assert (match port with Some p => Forall (λ c, name_byte c = true) p | None => True end) as Hpn.
  { destruct port as [p|]; [|done]. destruct Hp as [Hp%port_ok_digits _].
    rewrite forallb_Forall in Hp. eapply Forall_impl; [exact Hp|]. intros c Hc.
    unfold name_byte. by rewrite Hc, orb_true_r. }
  destruct (no_colon host Hn) as [Hf1 He1].
  destruct (name_syntax_ok (host_text host port)) as (Hs & Hm & Hb' & Hbr).
  { destruct port; simpl; [by destruct host|done]. }
  { destruct port as [p|]; simpl; [apply Forall_app; split; [|constructor; [by right|]]|];
      (eapply Forall_impl; [eassumption|]; naive_solver). }
  unfold normalizeHost. rewrite chars_implode, Hs, Hm, !bool_decide_eq_true_2 by done. simpl.
  rewrite bool_decide_eq_false_2 by done.
  assert (map to_lower_ascii host = host) as Hmh.
  { apply map_lower_id. eapply Forall_impl; [exact Hn|]. intros c Hc. apply (host_byte_facts c Hc). }
  assert (trim_dot host = host) as Ht by (unfold trim_dot; by rewrite host_ok_no_trailing).
  destruct port as [p|]; simpl.
  - destruct (no_colon p Hpn) as [Hf2 He2]. rewrite filter_app, Hf1, filter_cons_True, Hf2 by done. simpl.
    rewrite existsb_app, He1. simpl. unfold split_host_port. simpl in Hbr. rewrite Hbr.
    rewrite before_first_app. 2: { eapply Forall_impl; [exact Hn|]. intros c Hc ->. done. }
    simpl. rewrite Hmh, Ht, host_ok_no_trailing, Hh by done. simpl.
    replace (drop (S (length host)) (host ++ ":"%char :: p)) with p.
    2: { rewrite drop_app_ge by lia. by replace (S (length host) - length host)%nat with 1%nat by lia. }
    destruct Hp as [Hp Hd]. rewrite bool_decide_eq_false_2 by (by intros ->). rewrite Hp. simpl.
    rewrite bool_decide_eq_false_2 by done. simpl. by rewrite join_plain.
  - rewrite Hf1, He1. simpl. rewrite Hmh, Ht, host_ok_no_trailing, Hh by done. done.
Qed.

(** ** Claims *)

(** Canonicalisation keeps the meaning and is a fixed point: the canonical
    path decodes to the bytes the request path decodes to, with every run of
    slashes reduced to one, and canonicalising it again changes nothing. *)
Theorem canonicalPath_normal_form p m q : canonicalPath p m = Some q →
  canonicalPath q m = Some q ∧
  ∃ bytes, decoded (chars p) = Some bytes ∧ decoded (chars q) = Some (squeeze id false bytes).
Proof.
  intros (Hh & Hl & Hr & Hd & Hq)%canonicalPath_iff. split.
  - apply canonicalPath_iff. split_and!; try done; [by eapply reference_head|by eapply reference_idem].
  - apply reference_spec in Hr as (as' & Ha & Hc). unfold decoded. rewrite Ha.
    rewrite (reference_atoms _ _ _ Ha Hc). exists (atom_byte <$> as'). split; [done|]. simpl.
    by rewrite canonical_atoms_bytes.
Qed.

Lemma canonicalPath_normal_form_witness :
  canonicalPath "/a/bA%C3%A9." 100 = Some "/a/bA%C3%A9." ∧
  ∃ bytes, decoded (chars "//a///b%41%c3%a9%2e") = Some bytes ∧
    decoded (chars "/a/bA%C3%A9.") = Some (squeeze id false bytes).
Proof. apply canonicalPath_normal_form. vm_compute. reflexivity. Defined.

(** C39. Every accepted request target yields a safe path: rooted, without
    control bytes, backslashes, empty or dot segments, and with escapes only
    where they are needed, none of them hiding a separator. *)
Theorem validateTarget_safe uri mt mp q : validateTarget uri mt mp = Some q → safe_path (chars q).
Proof. intros H%validateTarget_path. by eapply canonicalPath_safe. Qed.

Lemma validateTarget_safe_witness : safe_path (chars "/a/b").
Proof. apply (validateTarget_safe "/a//%62?x=%2e" 100 100). vm_compute. reflexivity. Defined.

(** A normalised host is a valid configured host and a fixed point: it is
    lower-case DNS labels within the length limits, never an IPv4 literal, with
    a port only when it is not the scheme's default; so comparing normalised
    hosts as strings compares them as hosts. *)
Theorem normalizeHost_normal_form v tls pc h : normalizeHost v tls pc = Some h →
  normalizeConfiguredHost h tls = Some h ∧
  ∃ host port, normal_host tls host port ∧ chars h = host_text host port.
Proof.
  intros (host & port & Hn & Hh)%normalizeHost_result. split; [|eauto].
  unfold normalizeConfiguredHost. rewrite <-(implode_chars h), Hh. by apply normal_host_fixed.
Qed.

Lemma normalizeHost_normal_form_witness :
  normalizeConfiguredHost "shop.example.com:8443" true = Some "shop.example.com:8443" ∧
  ∃ host port, normal_host true host port ∧ chars "shop.example.com:8443" = host_text host port.
Proof. apply (normalizeHost_normal_form "Shop.Example.COM.:8443" true true). vm_compute. reflexivity. Defined.
