(* ===== verification/Detection.v ===== *)
(** * Deterministic detectors ([internal/detection])

    Four frozen rules over a bounded window of events.  The two producers'
    events go through the same validation, deduplication, ordering and
    grouping; the class [DetectorEvent] says what the code asks of them. *)

From S2P Require Import Prelude GoSort Dedup GoStrings Regex Sha256 GoTime Netip.
Local Open Scope Z_scope.

(** ** Data ([types.go]); enumerations are strings, as on the wire *)

Definition RulePathScan : string := "path_scan.v1".
Definition RuleRequestBurst : string := "request_burst.v1".
Definition RuleLoginBruteForce : string := "login_bruteforce.v1".
Definition RuleCredentialStuffing : string := "credential_stuffing.v1".

Definition ClassificationPathScan : string := "path_scan".
Definition ClassificationRequestBurst : string := "request_burst".
Definition ClassificationLoginBruteForce : string := "brute_force".
Definition ClassificationCredentialStuffing : string := "credential_stuffing".

Definition TimestampTrusted : string := "trusted".
Definition TimestampUntrusted : string := "untrusted".

Definition BindingVerified : string := "verified".
Definition BindingPending : string := "pending".
Definition BindingUntrusted : string := "untrusted".
Definition BindingNotApplicable : string := "not_applicable".

Definition SuspiciousPathNone : string := "none".

Definition defaultSuspiciousPathIDs : list string :=
  ["admin_console"; "env_file"; "git_config"; "wp_admin"; "phpmyadmin"; "server_status";
   "actuator_env"; "backup_archive"].

Definition AuthOutcomeFailed : string := "failed".
Definition AuthOutcomeSucceeded : string := "succeeded".

Record GatewayEvent := MkGatewayEvent {
  ge_EventID : string;
  ge_OccurredAt : time;
  ge_SourceIP : string;
  ge_ServiceLabel : string;
  ge_RouteLabel : string;
  ge_PathCatalogVersion : string;
  ge_SuspiciousPathID : string;
  ge_StatusCode : Z;
  ge_TimestampTrust : string;
  ge_AuthenticationMatch : string
}.

Record AuthEvent := MkAuthEvent {
  ae_EventID : string;
  ae_OccurredAt : time;
  ae_SourceIP : string;
  ae_ServiceLabel : string;
  ae_RouteLabel : string;
  ae_AccountHash : string;
  ae_Outcome : string;
  ae_TimestampTrust : string;
  ae_GatewayBinding : string
}.

Definition SourceGateway : string := "gateway".
Definition SourceAuth : string := "auth".

Record HealthInterval := MkHealthInterval {
  hi_State : string;
  hi_Start : time;
  hi_End : time;
  hi_DroppedCount : Z
}.

Record SourceHealth := MkSourceHealth {
  sh_Source : string;
  sh_Complete : bool;
  sh_CoverageStart : time;
  sh_CoverageEnd : time;
  sh_Intervals : list HealthInterval
}.

Definition SourceHealthStatusComplete : string := "complete".
Definition SourceHealthStatusIncomplete : string := "incomplete".

Record EvaluationInput := MkEvaluationInput {
  in_Now : time;
  in_GatewayEvents : list GatewayEvent;
  in_AuthEvents : list AuthEvent;
  in_GatewayHealth : SourceHealth;
  in_AuthHealth : SourceHealth
}.

(** [GroupKey]: source address and service label. *)
Abbreviation GroupKey := (string * string)%type (only parsing).

Inductive Decision := DecisionMatched | DecisionNoMatch | DecisionIncomplete.

Inductive DecisionReason :=
| ReasonThresholdMet | ReasonBelowThreshold | ReasonSourceHealthIncomplete
| ReasonTimestampUntrusted | ReasonBindingNotVerified.

Record Metrics := MkMetrics {
  m_EventCount : Z;
  m_DistinctSuspiciousPathCount : Z;
  m_DistinctAccountCount : Z
}.

Record Signal := MkSignal {
  sg_SignalID : string;
  sg_RuleID : string;
  sg_Classification : string;
  sg_ConfigurationVersion : string;
  sg_ConfigurationDigest : string;
  sg_SourceIP : string;
  sg_ServiceLabel : string;
  sg_WindowStart : time;
  sg_WindowEnd : time;
  sg_Metrics : Metrics;
  sg_EvidenceIDs : list string;
  sg_EvidenceDigest : string;
  sg_Digest : string;
  sg_SourceHealthStatus : string
}.

Record RuleEvaluation := MkRuleEvaluation {
  re_RuleID : string;
  re_Group : GroupKey;
  re_WindowStart : time;
  re_WindowEnd : time;
  re_Threshold : Metrics;
  re_Observed : Metrics;
  re_Decision : Decision;
  re_Reason : DecisionReason;
  re_SourceHealthStatus : string;
  re_EnforcementSupporting : bool;
  re_Signal : option Signal
}.

Record Output := MkOutput {
  out_ConfigurationVersion : string;
  out_ConfigurationDigest : string;
  out_PathScan : list RuleEvaluation;
  out_RequestBurst : list RuleEvaluation;
  out_LoginBruteForce : list RuleEvaluation;
  out_CredentialStuffing : list RuleEvaluation
}.

Global Instance GatewayEvent_eq_dec : EqDecision GatewayEvent.
Proof. solve_decision. Defined.
Global Instance AuthEvent_eq_dec : EqDecision AuthEvent.
Proof. solve_decision. Defined.

(** ** Configuration ([config.go]) *)

Definition PathScanThreshold : Z := 8.
Definition RequestBurstThreshold : Z := 120.
Definition LoginBruteForceThreshold : Z := 10.
Definition CredentialStuffingEventThreshold : Z := 20.
Definition CredentialStuffingAccountThreshold : Z := 8.
Definition PathScanWindow : duration := 60 * Second.
Definition RequestBurstWindow : duration := 10 * Second.
Definition LoginBruteForceWindow : duration := 60 * Second.
Definition CredentialStuffingWindow : duration := 5 * Minute.
Definition DefaultPathCatalogVersion : string := "path-catalog-v1".

Record Config := MkConfig {
  cf_Version : string;
  cf_PathCatalogVersion : string;
  cf_LoginRouteLabel : string;
  cf_SuspiciousPathIDs : list string;
  cf_PathScanThreshold : Z;
  cf_PathScanWindow : duration;
  cf_RequestBurstThreshold : Z;
  cf_RequestBurstWindow : duration;
  cf_LoginBruteForceThreshold : Z;
  cf_LoginBruteForceWindow : duration;
  cf_CredentialStuffingEventThreshold : Z;
  cf_CredentialStuffingAccountThreshold : Z;
  cf_CredentialStuffingWindow : duration
}.

Definition DefaultConfig : Config :=
  MkConfig "detectors-v1" DefaultPathCatalogVersion "login" defaultSuspiciousPathIDs
    PathScanThreshold PathScanWindow RequestBurstThreshold RequestBurstWindow
    LoginBruteForceThreshold LoginBruteForceWindow CredentialStuffingEventThreshold
    CredentialStuffingAccountThreshold CredentialStuffingWindow.

Definition set_SuspiciousPathIDs (c : Config) (ids : list string) : Config :=
  MkConfig (cf_Version c) (cf_PathCatalogVersion c) (cf_LoginRouteLabel c) ids
    (cf_PathScanThreshold c) (cf_PathScanWindow c) (cf_RequestBurstThreshold c) (cf_RequestBurstWindow c)
    (cf_LoginBruteForceThreshold c) (cf_LoginBruteForceWindow c) (cf_CredentialStuffingEventThreshold c)
    (cf_CredentialStuffingAccountThreshold c) (cf_CredentialStuffingWindow c).

(** [None] stands for the configuration errors, which carry only a message. *)
Definition validateAndNormalizeConfig (config : Config) : option Config :=
  if negb (match_string version_pattern (cf_Version config)) then None
  else if negb (String.eqb (cf_PathCatalogVersion config) DefaultPathCatalogVersion) then None
  else if negb (match_string label_pattern (cf_LoginRouteLabel config)) then None
  else if negb (cf_PathScanThreshold config =? PathScanThreshold)
          || negb (cf_PathScanWindow config =? PathScanWindow) then None
  else if negb (cf_RequestBurstThreshold config =? RequestBurstThreshold)
          || negb (cf_RequestBurstWindow config =? RequestBurstWindow) then None
  else if negb (cf_LoginBruteForceThreshold config =? LoginBruteForceThreshold)
          || negb (cf_LoginBruteForceWindow config =? LoginBruteForceWindow) then None
  else if negb (cf_CredentialStuffingEventThreshold config =? CredentialStuffingEventThreshold)
          || negb (cf_CredentialStuffingAccountThreshold config =? CredentialStuffingAccountThreshold)
          || negb (cf_CredentialStuffingWindow config =? CredentialStuffingWindow) then None
  else
    let expected := sort_strings defaultSuspiciousPathIDs in
    let actual := sort_strings (cf_SuspiciousPathIDs config) in
    (* same length and same element at every index *)
    if negb (bool_decide (actual = expected)) then None
    else Some (set_SuspiciousPathIDs config actual).

(** ** Digests ([digest.go]) *)

(** A netstring-like line: length, colon, bytes, line feed. *)
Definition writeCanonicalLine (value : string) : string :=
  itoa (len value) +:+ ":" +:+ value +:+ String "010" "".

Definition canonical_lines (values : list string) : string :=
  foldr (λ v rest, writeCanonicalLine v +:+ rest) "" values.

Definition sha256Digest (value : string) : string := digest value.

Definition digestConfig (config : Config) : string :=
  sha256Digest (canonical_lines
    (["sentinelflow-detector-config-v1"; cf_Version config; cf_PathCatalogVersion config;
      cf_LoginRouteLabel config; itoa (cf_PathScanThreshold config); itoa (cf_PathScanWindow config);
      itoa (cf_RequestBurstThreshold config); itoa (cf_RequestBurstWindow config);
      itoa (cf_LoginBruteForceThreshold config); itoa (cf_LoginBruteForceWindow config);
      itoa (cf_CredentialStuffingEventThreshold config);
      itoa (cf_CredentialStuffingAccountThreshold config); itoa (cf_CredentialStuffingWindow config)]
     ++ cf_SuspiciousPathIDs config)).

Definition sortedUniqueStrings (values : list string) : list string := sorted_unique values.

Definition digestEvidenceIDs (values : list string) : string :=
  sha256Digest (canonical_lines ("sentinelflow-evidence-ids-v1" :: sortedUniqueStrings values)).

(** [uuidV8FromDigest]: the first sixteen bytes with version and variant set. *)
Definition set_byte (i : nat) (f : Z → Z) (l : list Z) : list Z := alter f i l.

Definition uuidV8FromDigest (sum : list Z) : string :=
  let bytes := take 16 sum in
  let bytes := set_byte 6 (λ b, Z.lor (Z.land b 15) 128) bytes in
  let bytes := set_byte 8 (λ b, Z.lor (Z.land b 63) 128) bytes in
  hex_of_bytes (take 4 bytes) +:+ "-" +:+ hex_of_bytes (take 2 (drop 4 bytes)) +:+ "-"
  +:+ hex_of_bytes (take 2 (drop 6 bytes)) +:+ "-" +:+ hex_of_bytes (take 2 (drop 8 bytes)) +:+ "-"
  +:+ hex_of_bytes (drop 10 bytes).

Record Detector := MkDetector { d_config : Config; d_configDigest : string }.

Definition New (config : Config) : option Detector :=
  normalized ← validateAndNormalizeConfig config;
  Some (MkDetector normalized (digestConfig normalized)).

(** [NewDefault]: the code panics if the built-in configuration is refused. *)
Definition NewDefault : option Detector := New DefaultConfig.

(** The lines of a signal's digest. *)
Definition signal_lines (version configDigest ruleID classification sourceIP serviceLabel : string)
    (windowStart windowEnd : time) (metrics : Metrics) (evidenceDigest : string)
    (evidenceIDs : list string) : list string :=
  ["sentinelflow-deterministic-signal-v1"; version; configDigest; ruleID; classification; sourceIP;
   serviceLabel; format_rfc3339nano windowStart; format_rfc3339nano windowEnd;
   itoa (m_EventCount metrics); itoa (m_DistinctSuspiciousPathCount metrics);
   itoa (m_DistinctAccountCount metrics); evidenceDigest] ++ evidenceIDs.

Definition buildSignal (detector : Detector) (ruleID classification : string) (group : GroupKey)
    (windowStart windowEnd : time) (metrics : Metrics) (evidenceIDs : list string) : Signal :=
  let evidenceIDs := sortedUniqueStrings evidenceIDs in
  let evidenceDigest := digestEvidenceIDs evidenceIDs in
  let canonical := canonical_lines
    (signal_lines (cf_Version (d_config detector)) (d_configDigest detector) ruleID classification
       group.1 group.2 windowStart windowEnd metrics evidenceDigest evidenceIDs) in
  {| sg_SignalID := uuidV8FromDigest (sha256 (bytes_of canonical));
     sg_RuleID := ruleID;
     sg_Classification := classification;
     sg_ConfigurationVersion := cf_Version (d_config detector);
     sg_ConfigurationDigest := d_configDigest detector;
     sg_SourceIP := group.1;
     sg_ServiceLabel := group.2;
     sg_WindowStart := windowStart;
     sg_WindowEnd := windowEnd;
     sg_Metrics := metrics;
     sg_EvidenceIDs := evidenceIDs;
     sg_EvidenceDigest := evidenceDigest;
     sg_Digest := digest canonical;
     sg_SourceHealthStatus := SourceHealthStatusComplete |}.

(** ** Validation ([validate.go]) *)

Record InputError := MkInputError { ie_Field : string; ie_Code : string }.

Definition validateCanonicalIPv4 (value : string) : bool := bool_decide (is_Some (canonical_ipv4 value)).

(** [^hmac-sha256:[0-9a-f]{64}$] *)
Definition accountHashPattern : pattern := [lit "hmac-sha256:"; exactly 64 is_lower_hex].

Definition validSuspiciousPathID (value : string) : bool :=
  existsb (String.eqb value) (SuspiciousPathNone :: defaultSuspiciousPathIDs).

Definition validGatewayBinding (value : string) : bool :=
  existsb (String.eqb value) [BindingVerified; BindingPending; BindingUntrusted; BindingNotApplicable].

Definition validHealthState (value : string) : bool :=
  existsb (String.eqb value) ["degraded"; "lost"; "gapped"; "unknown_loss"; "recovered"].

(** What the code does with an event of either producer: [ev_check] are the
    guards of the validation loop in order, as suffix of the field and code. *)
Class DetectorEvent (A : Type) := {
  ev_eq_dec :: EqDecision A;
  ev_id : A → string;
  ev_at : A → time;
  ev_group : A → GroupKey;
  ev_check : A → option (string * string);
  ev_equal : A → A → bool
}.

(** The guards both validation loops begin with. *)
Definition common_guards (eventID : string) (occurredAt : time) (sourceIP serviceLabel routeLabel : string)
    (rest : option (string * string)) : option (string * string) :=
  if negb (match_string uuid_pattern eventID) then Some (".event_id", "invalid_uuid")
  else if IsZero occurredAt then Some (".occurred_at", "required")
  else if negb (validateCanonicalIPv4 sourceIP) then Some (".source_ip", "invalid_canonical_ipv4")
  else if negb (match_string label_pattern serviceLabel) then Some (".service_label", "invalid_label")
  else if negb (match_string label_pattern routeLabel) then Some (".route_label", "invalid_label")
  else rest.

Definition gateway_check (config : Config) (value : GatewayEvent) : option (string * string) :=
  common_guards (ge_EventID value) (ge_OccurredAt value) (ge_SourceIP value) (ge_ServiceLabel value)
    (ge_RouteLabel value)
    (if negb (String.eqb (ge_PathCatalogVersion value) (cf_PathCatalogVersion config))
     then Some (".path_catalog_version", "unsupported_version")
     else if negb (validSuspiciousPathID (ge_SuspiciousPathID value))
     then Some (".suspicious_path_id", "invalid_enum")
     else if (ge_StatusCode value <? 100) || (599 <? ge_StatusCode value)
     then Some (".status_code", "out_of_range")
     else if negb (String.eqb (ge_TimestampTrust value) TimestampTrusted)
             && negb (String.eqb (ge_TimestampTrust value) TimestampUntrusted)
     then Some (".timestamp_trust", "invalid_enum")
     else if negb (validGatewayBinding (ge_AuthenticationMatch value))
     then Some (".authentication_match", "invalid_enum")
     else None).

Definition auth_check (value : AuthEvent) : option (string * string) :=
  common_guards (ae_EventID value) (ae_OccurredAt value) (ae_SourceIP value) (ae_ServiceLabel value)
    (ae_RouteLabel value)
    (if negb (match_string accountHashPattern (ae_AccountHash value))
     then Some (".account_hash", "invalid_digest")
     else if negb (String.eqb (ae_Outcome value) AuthOutcomeFailed)
             && negb (String.eqb (ae_Outcome value) AuthOutcomeSucceeded)
     then Some (".outcome", "invalid_enum")
     else if negb (String.eqb (ae_TimestampTrust value) TimestampTrusted)
             && negb (String.eqb (ae_TimestampTrust value) TimestampUntrusted)
     then Some (".timestamp_trust", "invalid_enum")
     else if negb (existsb (String.eqb (ae_GatewayBinding value)) [BindingVerified; BindingPending; BindingUntrusted])
     then Some (".gateway_binding", "invalid_enum")
     else None).


Definition equalGatewayEvent (left right : GatewayEvent) : bool :=
  String.eqb (ge_EventID left) (ge_EventID right) && Equal (ge_OccurredAt left) (ge_OccurredAt right)
  && String.eqb (ge_SourceIP left) (ge_SourceIP right)
  && String.eqb (ge_ServiceLabel left) (ge_ServiceLabel right)
  && String.eqb (ge_RouteLabel left) (ge_RouteLabel right)
  && String.eqb (ge_PathCatalogVersion left) (ge_PathCatalogVersion right)
  && String.eqb (ge_SuspiciousPathID left) (ge_SuspiciousPathID right)
  && (ge_StatusCode left =? ge_StatusCode right)
  && String.eqb (ge_TimestampTrust left) (ge_TimestampTrust right)
  && String.eqb (ge_AuthenticationMatch left) (ge_AuthenticationMatch right).

Definition equalAuthEvent (left right : AuthEvent) : bool :=
  String.eqb (ae_EventID left) (ae_EventID right) && Equal (ae_OccurredAt left) (ae_OccurredAt right)
  && String.eqb (ae_SourceIP left) (ae_SourceIP right)
  && String.eqb (ae_ServiceLabel left) (ae_ServiceLabel right)
  && String.eqb (ae_RouteLabel left) (ae_RouteLabel right)
  && String.eqb (ae_AccountHash left) (ae_AccountHash right)
  && String.eqb (ae_Outcome left) (ae_Outcome right)
  && String.eqb (ae_TimestampTrust left) (ae_TimestampTrust right)
  && String.eqb (ae_GatewayBinding left) (ae_GatewayBinding right).

Definition gateway_event (config : Config) : DetectorEvent GatewayEvent := {|
  ev_eq_dec := _;
  ev_id := ge_EventID;
  ev_at := ge_OccurredAt;
  ev_group e := (ge_SourceIP e, ge_ServiceLabel e);
  ev_check := gateway_check config;
  ev_equal := equalGatewayEvent
|}.

Global Instance auth_event : DetectorEvent AuthEvent := {|
  ev_eq_dec := _;
  ev_id := ae_EventID;
  ev_at := ae_OccurredAt;
  ev_group e := (ae_SourceIP e, ae_ServiceLabel e);
  ev_check := auth_check;
  ev_equal := equalAuthEvent
|}.

(** [sort.Slice] by instant, then by identifier. *)
Definition event_order {A} {DE : DetectorEvent A} : A → A → comparison :=
  cmp_lex (cmp_on ev_at Z.compare) (cmp_on ev_id String.compare).

(** The guards and the conflict of the validation loop at an index. *)
Definition event_error {A} {DE : DetectorEvent A} (field : string) (index : Z) (value : A) : option InputError :=
  match ev_check value with
  | Some (suffix, code) => Some (MkInputError (field +:+ "[" +:+ itoa index +:+ "]" +:+ suffix) code)
  | None => None
  end.

Definition event_conflict {A} (field : string) (index : Z) (_ : A) : InputError :=
  MkInputError (field +:+ "[" +:+ itoa index +:+ "]" +:+ ".event_id") "conflicting_duplicate".

(** The validation loop: reject, skip an equal duplicate, or record; then sort. *)
Definition normalizeEvents {A} {DE : DetectorEvent A} (field : string) (values : list A)
  : result InputError (list A) :=
  dedup_sort ev_id ev_equal (event_error field) (event_conflict field) event_order values.

Definition normalizeGatewayEvents (values : list GatewayEvent) (config : Config)
  : result InputError (list GatewayEvent) :=
  normalizeEvents (DE := gateway_event config) "gateway_events" values.

Definition normalizeAuthEvents (values : list AuthEvent) : result InputError (list AuthEvent) :=
  normalizeEvents "auth_events" values.

(** One pass over the intervals, in order. *)
Fixpoint check_intervals (field : string) (index : Z) (intervals : list HealthInterval) : option InputError :=
  match intervals with
  | [] => None
  | interval :: intervals =>
      let intervalField := field +:+ ".intervals[" +:+ itoa index +:+ "]" in
      if negb (validHealthState (hi_State interval)) then Some (MkInputError (intervalField +:+ ".state") "invalid_enum")
      else if IsZero (hi_Start interval) then Some (MkInputError (intervalField +:+ ".start") "required")
      else if negb (IsZero (hi_End interval)) && Before (hi_End interval) (hi_Start interval)
      then Some (MkInputError (intervalField +:+ ".end") "precedes_start")
      else check_intervals field (index + 1) intervals
  end.

(** By start, then by end with an open interval last, then by state. *)
Definition interval_order : HealthInterval → HealthInterval → comparison :=
  cmp_lex (cmp_on hi_Start Z.compare)
    (cmp_lex (cmp_lex (cmp_on (λ i, Z.b2z (IsZero (hi_End i))) Z.compare) (cmp_on hi_End Z.compare))
       (cmp_on hi_State String.compare)).

Definition normalizeHealth (field : string) (value : SourceHealth) (expected : string)
  : result InputError SourceHealth :=
  if negb (String.eqb (sh_Source value) expected) then Err (MkInputError (field +:+ ".source") "invalid_constant")
  else if IsZero (sh_CoverageStart value) || IsZero (sh_CoverageEnd value)
  then Err (MkInputError (field +:+ ".coverage") "required")
  else if Before (sh_CoverageEnd value) (sh_CoverageStart value)
  then Err (MkInputError (field +:+ ".coverage_end") "precedes_start")
  else
    match check_intervals field 0 (sh_Intervals value) with
    | Some e => Err e
    | None =>
        Ok (MkSourceHealth (sh_Source value) (sh_Complete value) (sh_CoverageStart value)
              (sh_CoverageEnd value) (sort_slice interval_order (sh_Intervals value)))
    end.

Definition normalizeInput (input : EvaluationInput) (config : Config) : result InputError EvaluationInput :=
  if IsZero (in_Now input) then Err (MkInputError "now" "required")
  else
    gatewayEvents ← normalizeGatewayEvents (in_GatewayEvents input) config;
    authEvents ← normalizeAuthEvents (in_AuthEvents input);
    gatewayHealth ← normalizeHealth "gateway_health" (in_GatewayHealth input) SourceGateway;
    authHealth ← normalizeHealth "auth_health" (in_AuthHealth input) SourceAuth;
    Ok (MkEvaluationInput (in_Now input) gatewayEvents authEvents gatewayHealth authHealth).

(** ** Grouping and health ([detector.go]) *)

Definition in_window (start finish : time) {A} {DE : DetectorEvent A} (value : A) : bool :=
  negb (Before (ev_at value) start || After (ev_at value) finish).

(** [groups[key] = append(groups[key], value)] *)
Definition add_to_group {A} {DE : DetectorEvent A} (groups : gmap GroupKey (list A)) (value : A)
  : gmap GroupKey (list A) :=
  <[ev_group value := default [] (groups !! ev_group value) ++ [value]]> groups.

Definition group_order : GroupKey → GroupKey → comparison :=
  cmp_lex (cmp_on fst String.compare) (cmp_on snd String.compare).

Definition sortedGroupKeys {T} (groups : gmap GroupKey (list T)) : list GroupKey :=
  sort_slice group_order (map_to_list groups).*1.

Definition groupEvents {A} {DE : DetectorEvent A} (values : list A) (start finish : time)
  : list (GroupKey * list A) :=
  let groups := foldl (λ g v, if in_window start finish v then add_to_group g v else g) ∅ values in
  (λ key, (key, default [] (groups !! key))) <$> sortedGroupKeys groups.

Definition groupGatewayEvents (config : Config) (values : list GatewayEvent) (start finish : time)
  : list (GroupKey * list GatewayEvent) :=
  groupEvents (DE := gateway_event config) values start finish.

Definition groupAuthEvents (values : list AuthEvent) (start finish : time) : list (GroupKey * list AuthEvent) :=
  groupEvents values start finish.

Definition intervalsOverlap (intervalStart intervalEnd windowStart windowEnd : time) : bool :=
  if After intervalStart windowEnd then false
  else IsZero intervalEnd || negb (Before intervalEnd windowStart).

Definition healthComplete (health : SourceHealth) (start finish : time) : bool :=
  if negb (sh_Complete health) || After (sh_CoverageStart health) start || Before (sh_CoverageEnd health) finish
  then false
  else negb (existsb (λ i, intervalsOverlap (hi_Start i) (hi_End i) start finish) (sh_Intervals health)).

(** ** The rules *)

(** What a rule's loop accumulates over the events of a group. *)
Record tally := MkTally {
  t_evidence : list string;
  t_distinct : gset string;
  t_untrusted : bool;
  t_unverified : bool
}.

Definition tally0 : tally := MkTally [] ∅ false false.

Definition note_untrusted (t : tally) : tally := MkTally (t_evidence t) (t_distinct t) true (t_unverified t).
Definition note_unverified (t : tally) : tally := MkTally (t_evidence t) (t_distinct t) (t_untrusted t) true.
Definition record (t : tally) (eventID : string) : tally :=
  MkTally (t_evidence t ++ [eventID]) (t_distinct t) (t_untrusted t) (t_unverified t).
Definition record_distinct (t : tally) (eventID value : string) : tally :=
  MkTally (t_evidence t ++ [eventID]) ({[value]} ∪ t_distinct t) (t_untrusted t) (t_unverified t).

Definition path_scan_step (t : tally) (event : GatewayEvent) : tally :=
  if String.eqb (ge_SuspiciousPathID event) SuspiciousPathNone then t
  else if negb (String.eqb (ge_TimestampTrust event) TimestampTrusted) then note_untrusted t
  else record_distinct t (ge_EventID event) (ge_SuspiciousPathID event).

Definition request_burst_step (t : tally) (event : GatewayEvent) : tally :=
  if negb (String.eqb (ge_TimestampTrust event) TimestampTrusted) then note_untrusted t
  else record t (ge_EventID event).

Definition login_step (config : Config) (t : tally) (event : GatewayEvent) : tally :=
  if negb (String.eqb (ge_RouteLabel event) (cf_LoginRouteLabel config))
     || (negb (ge_StatusCode event =? 401) && negb (ge_StatusCode event =? 403)) then t
  else if negb (String.eqb (ge_TimestampTrust event) TimestampTrusted) then note_untrusted t
  else if negb (String.eqb (ge_AuthenticationMatch event) BindingVerified) then note_unverified t
  else record t (ge_EventID event).

Definition stuffing_step (t : tally) (event : AuthEvent) : tally :=
  if negb (String.eqb (ae_Outcome event) AuthOutcomeFailed) then t
  else if negb (String.eqb (ae_TimestampTrust event) TimestampTrusted) then note_untrusted t
  else if negb (String.eqb (ae_GatewayBinding event) BindingVerified) then note_unverified t
  else record_distinct t (ae_EventID event) (ae_AccountHash event).

Definition evidence_count (t : tally) : Z := Z.of_nat (length (t_evidence t)).
Definition distinct_count (t : tally) : Z := Z.of_nat (size (t_distinct t)).

(** [baseEvaluation] and [finalizeEvaluation] in one value: the decision, and
    the signal only when the rule matched. *)
Definition finalizeEvaluation (detector : Detector) (ruleID : string) (group : GroupKey) (start finish : time)
    (threshold observed : Metrics)
    (healthIsComplete hasUntrustedTimestamp hasUnverifiedBinding thresholdMet : bool)
    (classification : string) (evidenceIDs : list string) : RuleEvaluation :=
  let status := if healthIsComplete then SourceHealthStatusComplete else SourceHealthStatusIncomplete in
  let evaluation decision reason supporting signal :=
    MkRuleEvaluation ruleID group start finish threshold observed decision reason status supporting signal in
  if negb healthIsComplete then evaluation DecisionIncomplete ReasonSourceHealthIncomplete false None
  else if hasUntrustedTimestamp then evaluation DecisionIncomplete ReasonTimestampUntrusted false None
  else if hasUnverifiedBinding then evaluation DecisionIncomplete ReasonBindingNotVerified false None
  else if negb thresholdMet then evaluation DecisionNoMatch ReasonBelowThreshold false None
  else evaluation DecisionMatched ReasonThresholdMet true
         (Some (buildSignal detector ruleID classification group start finish observed evidenceIDs)).

Definition evaluatePathScan (d : Detector) (input : EvaluationInput) : list RuleEvaluation :=
  let start := in_Now input - cf_PathScanWindow (d_config d) in
  (λ '(key, events),
    let t := foldl path_scan_step tally0 events in
    finalizeEvaluation d RulePathScan key start (in_Now input)
      (MkMetrics 0 (cf_PathScanThreshold (d_config d)) 0)
      (MkMetrics (evidence_count t) (distinct_count t) 0)
      (healthComplete (in_GatewayHealth input) start (in_Now input)) (t_untrusted t) false
      (cf_PathScanThreshold (d_config d) <=? distinct_count t)
      ClassificationPathScan (t_evidence t))
  <$> groupGatewayEvents (d_config d) (in_GatewayEvents input) start (in_Now input).

Definition evaluateRequestBurst (d : Detector) (input : EvaluationInput) : list RuleEvaluation :=
  let start := in_Now input - cf_RequestBurstWindow (d_config d) in
  (λ '(key, events),
    let t := foldl request_burst_step tally0 events in
    finalizeEvaluation d RuleRequestBurst key start (in_Now input)
      (MkMetrics (cf_RequestBurstThreshold (d_config d)) 0 0)
      (MkMetrics (evidence_count t) 0 0)
      (healthComplete (in_GatewayHealth input) start (in_Now input)) (t_untrusted t) false
      (cf_RequestBurstThreshold (d_config d) <=? evidence_count t)
      ClassificationRequestBurst (t_evidence t))
  <$> groupGatewayEvents (d_config d) (in_GatewayEvents input) start (in_Now input).

Definition evaluateLoginBruteForce (d : Detector) (input : EvaluationInput) : list RuleEvaluation :=
  let start := in_Now input - cf_LoginBruteForceWindow (d_config d) in
  (λ '(key, events),
    let t := foldl (login_step (d_config d)) tally0 events in
    finalizeEvaluation d RuleLoginBruteForce key start (in_Now input)
      (MkMetrics (cf_LoginBruteForceThreshold (d_config d)) 0 0)
      (MkMetrics (evidence_count t) 0 0)
      (healthComplete (in_GatewayHealth input) start (in_Now input)
       && healthComplete (in_AuthHealth input) start (in_Now input))
      (t_untrusted t) (t_unverified t)
      (cf_LoginBruteForceThreshold (d_config d) <=? evidence_count t)
      ClassificationLoginBruteForce (t_evidence t))
  <$> groupGatewayEvents (d_config d) (in_GatewayEvents input) start (in_Now input).

Definition evaluateCredentialStuffing (d : Detector) (input : EvaluationInput) : list RuleEvaluation :=
  let start := in_Now input - cf_CredentialStuffingWindow (d_config d) in
  (λ '(key, events),
    let t := foldl stuffing_step tally0 events in
    finalizeEvaluation d RuleCredentialStuffing key start (in_Now input)
      (MkMetrics (cf_CredentialStuffingEventThreshold (d_config d)) 0
         (cf_CredentialStuffingAccountThreshold (d_config d)))
      (MkMetrics (evidence_count t) 0 (distinct_count t))
      (healthComplete (in_AuthHealth input) start (in_Now input)) (t_untrusted t) (t_unverified t)
      ((cf_CredentialStuffingEventThreshold (d_config d) <=? evidence_count t)
       && (cf_CredentialStuffingAccountThreshold (d_config d) <=? distinct_count t))
      ClassificationCredentialStuffing (t_evidence t))
  <$> groupAuthEvents (in_AuthEvents input) start (in_Now input).

Definition Evaluate (d : Detector) (input : EvaluationInput) : result InputError Output :=
  input ← normalizeInput input (d_config d);
  Ok (MkOutput (cf_Version (d_config d)) (d_configDigest d) (evaluatePathScan d input)
        (evaluateRequestBurst d input) (evaluateLoginBruteForce d input)
        (evaluateCredentialStuffing d input)).
