(* ===== verification/DetectionSpec.v ===== *)
(** * What the detectors promise

    Normalisation and grouping are proved once for both event types; each rule
    is then an instance of one abstract specification over the raw input. *)

From S2P Require Import Prelude GoSort Dedup GoStrings Regex Sha256 GoTime Netip Detection.
Local Open Scope Z_scope.

(** ** Lawful events *)

Class LawfulEvent (A : Type) {DE : DetectorEvent A} : Prop :=
  ev_equal_spec : ∀ x y : A, ev_equal x y = true ↔ x = y.

Global Instance gateway_lawful config : LawfulEvent GatewayEvent (DE := gateway_event config).
Proof.
  intros x y. simpl. unfold equalGatewayEvent, Equal. split.
  - intros H. bsplit. destruct x, y; simpl in *. congruence.
  - intros ->. by rewrite !String.eqb_refl, !Z.eqb_refl.
Qed.

Global Instance auth_lawful : LawfulEvent AuthEvent.
Proof.
  intros x y. simpl. unfold equalAuthEvent, Equal. split.
  - intros H. bsplit. destruct x, y; simpl in *. congruence.
  - intros ->. by rewrite !String.eqb_refl, !Z.eqb_refl.
Qed.

Section events.
  Context {A} {DE : DetectorEvent A} {LE : LawfulEvent A}.
  Implicit Types (l seen : list A).

Definition event_valid (x : A) : Prop := ev_check x = None.

Lemma event_error_spec field i (x : A) : event_error field i x = None ↔ event_valid x.
Proof. unfold event_error, event_valid. by destruct (ev_check x) as [[]|]. Qed.

Global Instance event_order_weak : WeakOrder (event_order (A := A)).
Proof. apply _. Qed.

Lemma event_order_id (x y : A) : event_order x y = Eq → ev_id x = ev_id y.
Proof.
  unfold event_order, cmp_lex, cmp_on. destruct (ev_at x ?= ev_at y); try done. apply scompare_eq.
Qed.

Definition normal_events l (r : list A) : Prop := normalised ev_id event_order l r.

Lemma normalizeEvents_ok field l r : normalizeEvents field l = Ok r → acceptable ev_id event_valid l ∧ normal_events l r.
Proof.
  intros H. unfold normalizeEvents in H.
  exact (dedup_sort_ok _ _ _ _ _ ev_equal_spec (event_error_spec field) _ event_order_id l r H).
Qed.

(** Order and repetition of the input do not matter. *)
Lemma normalizeEvents_ext field l k r : (∀ x, x ∈ l ↔ x ∈ k) →
  normalizeEvents field l = Ok r → normalizeEvents field k = Ok r.
Proof.
  unfold normalizeEvents. intros Hlk H.
  exact (dedup_sort_ext _ _ _ _ _ ev_equal_spec (event_error_spec field) _ event_order_id l k r Hlk H).
Qed.

(** ** Grouping *)

(** The events of one group inside the window. *)
Definition group_window (start finish : time) (key : string * string) (x : A) : Prop :=
  in_window start finish x = true ∧ ev_group x = key.

Global Instance group_window_dec start finish key x : base.Decision (group_window start finish key x).
Proof. unfold group_window. apply _. Defined.

Definition groups_of (start finish : time) l : gmap (string * string) (list A) :=
  foldl (λ g v, if in_window start finish v then add_to_group g v else g) ∅ l.

Lemma groups_of_lookup start finish l key :
  groups_of start finish l !! key =
    match filter (group_window start finish key) l with [] => None | k => Some k end.
Proof.
  induction l as [|x l IH] using rev_ind; [done|].
  unfold groups_of, add_to_group in *. rewrite foldl_app, filter_app. simpl.
  destruct (in_window start finish x) eqn:Ew.
  - destruct (decide (ev_group x = key)) as [<-|Hk].
    + rewrite lookup_insert_eq, IH, filter_cons_True by (by split). simpl.
      by destruct (filter _ l).
    + rewrite lookup_insert_ne, IH by done.
      rewrite filter_cons_False by (unfold group_window; naive_solver). by rewrite app_nil_r.
  - rewrite IH, filter_cons_False by (unfold group_window; naive_solver congruence). by rewrite app_nil_r.
Qed.

Definition group_lt (x y : string * string) : Prop := group_order x y = Lt.

Lemma group_order_eq x y : group_order x y = Eq → x = y.
Proof.
  unfold group_order, cmp_lex, cmp_on. destruct (String.compare x.1 y.1) eqn:E; try done.
  intros H. apply scompare_eq in E, H. destruct x, y; simpl in *; congruence.
Qed.

Lemma groupEvents_spec start finish l :
  let r := groupEvents l start finish in
  StronglySorted group_lt r.*1 ∧
  (∀ key es, (key, es) ∈ r ↔ es = filter (group_window start finish key) l ∧ es ≠ []).
Proof.
  simpl. unfold groupEvents. fold (groups_of start finish l). set (g := groups_of start finish l).
  assert (NoDup (sortedGroupKeys g)) as Hnd.
  { unfold sortedGroupKeys. rewrite sort_slice_perm. apply NoDup_fst_map_to_list. }
  split.
  - rewrite <-list_fmap_compose. rewrite (list_fmap_ext _ id) by done. rewrite list_fmap_id.
    unfold sortedGroupKeys in *. pose proof (sort_slice_sorted group_order (map_to_list g).*1) as Hs.
    induction Hs as [|x k Hs IH Hf]; [constructor|]. apply NoDup_cons in Hnd as [Hx Hnd].
    constructor; [by apply IH|]. rewrite Forall_forall in *. intros y Hy. specialize (Hf y Hy).
    unfold cmp_le, group_lt in *. destruct (group_order x y) eqn:E; [|done|done].
    apply group_order_eq in E as ->. done.
  - intros key es. rewrite list_elem_of_fmap. split.
    + intros (k & [= -> ->] & Hk). unfold sortedGroupKeys in Hk. rewrite sort_slice_elem in Hk.
      apply list_elem_of_fmap in Hk as ([k' v] & -> & Hk%elem_of_map_to_list). simpl.
      rewrite Hk. simpl. unfold g in Hk. rewrite groups_of_lookup in Hk.
      destruct (filter _ l) eqn:E; simplify_eq. done.
    + intros [-> Hne]. exists key. assert (g !! key = Some (filter (group_window start finish key) l)) as Hg.
      { unfold g. rewrite groups_of_lookup. by destruct (filter _ l). }
      rewrite Hg. split; [done|]. unfold sortedGroupKeys. rewrite sort_slice_elem.
      apply list_elem_of_fmap. exists (key, filter (group_window start finish key) l).
      split; [done|]. by apply elem_of_map_to_list.
Qed.

(** ** Tallies *)

(** What a rule does with one event. *)
Inductive verdict := Skip | Untrusted | Unverified | Counted.

Global Instance verdict_eq_dec : EqDecision verdict.
Proof. solve_decision. Defined.

Definition counted (v : A → verdict) l : list A := filter (λ x, v x = Counted) l.

(** A loop whose body looks only at the event's verdict. *)
Record tally_spec (v : A → verdict) (value : A → option string) l (t : tally) : Prop := {
  ts_evidence : t_evidence t = ev_id <$> counted v l;
  ts_distinct : t_distinct t = list_to_set (omap value (counted v l));
  ts_untrusted : t_untrusted t = existsb (λ x, bool_decide (v x = Untrusted)) l;
  ts_unverified : t_unverified t = existsb (λ x, bool_decide (v x = Unverified)) l
}.

Definition verdict_step (v : A → verdict) (value : A → option string) (t : tally) (x : A) : tally :=
  match v x with
  | Skip => t
  | Untrusted => note_untrusted t
  | Unverified => note_unverified t
  | Counted => match value x with Some s => record_distinct t (ev_id x) s | None => record t (ev_id x) end
  end.

Lemma tally_correct v value step l : (∀ t x, step t x = verdict_step v value t x) →
  tally_spec v value l (foldl step tally0 l).
Proof.
  intros Hstep. induction l as [|x l [He Hd Hu Hb]] using rev_ind; [by split|].
  rewrite foldl_app. simpl. rewrite Hstep.
  assert (counted v (l ++ [x]) = counted v l ++ (if decide (v x = Counted) then [x] else [])) as Hc.
  { unfold counted. rewrite filter_app, filter_cons, filter_nil. done. }
  split; rewrite ?existsb_app, ?Hc, ?fmap_app, ?omap_app, ?list_to_set_app_L, <-?He, <-?Hd, <-?Hu, <-?Hb;
    simpl; unfold verdict_step; destruct (v x) eqn:E; simpl;
    rewrite ?app_nil_r, ?orb_false_r, ?orb_true_r; try done; destruct (value x); try done; set_solver.
Qed.

End events.

(** A signal depends only on the set of its evidence. *)
Lemma buildSignal_ext d rule cls key start finish m m' ids ids' : m = m' → (∀ id, id ∈ ids ↔ id ∈ ids') →
  buildSignal d rule cls key start finish m ids = buildSignal d rule cls key start finish m' ids'.
Proof.
  intros -> H. unfold buildSignal, sortedUniqueStrings. by rewrite (sorted_unique_ext ids ids' H).
Qed.

(** ** The abstract specification of a rule

    Over the raw events of an evaluation: one evaluation per source and
    service seen in the window, in order; it matches exactly when the health
    covers the window, no qualifying event is doubtful and the thresholds are
    met by distinct events; and only then is there a signal, whose evidence is
    exactly the qualifying events. *)

Section rule.
  Context {A} {DE : DetectorEvent A} {LE : LawfulEvent A}.
  Variables (v : A → verdict) (value : A → option string).
  Variables (start finish : time) (complete : bool) (met : Z → Z → bool).
  Variables (d : Detector) (rule cls : string) (observed : Z → Z → Metrics).

Definition mine (events : list A) (key : string * string) : list A :=
  filter (group_window start finish key) events.

(** Number of distinct qualifying events, and of distinct values they carry. *)
Definition event_count (l : list A) : Z := Z.of_nat (size (list_to_set (C := gset string) (ev_id <$> counted v l))).
Definition value_count (l : list A) : Z := Z.of_nat (size (list_to_set (C := gset string) (omap value (counted v l)))).

Definition matches (l : list A) : Prop :=
  complete = true ∧ (∀ e, e ∈ l → v e ≠ Untrusted ∧ v e ≠ Unverified) ∧
  met (event_count l) (value_count l) = true.

(** The signal of a matched evaluation. *)
Record signal_spec (l : list A) (key : string * string) (s : Signal) : Prop := {
  ss_built : s = buildSignal d rule cls key start finish (observed (event_count l) (value_count l))
                   (ev_id <$> counted v l);
  ss_sorted : StronglySorted str_lt (sg_EvidenceIDs s);
  ss_evidence : ∀ id, id ∈ sg_EvidenceIDs s ↔ ∃ e, e ∈ l ∧ v e = Counted ∧ ev_id e = id;
  ss_count : m_EventCount (sg_Metrics s) = Z.of_nat (length (sg_EvidenceIDs s))
}.

Record rule_spec (events : list A) (evs : list RuleEvaluation) : Prop := {
  rs_sorted : StronglySorted group_lt (re_Group <$> evs);
  rs_groups : ∀ key, key ∈ re_Group <$> evs ↔ ∃ e, e ∈ events ∧ group_window start finish key e;
  rs_decision : ∀ ev, ev ∈ evs →
    (re_Decision ev = DecisionMatched ↔ matches (mine events (re_Group ev))) ∧
    (re_EnforcementSupporting ev = true ↔ re_Decision ev = DecisionMatched) ∧
    (is_Some (re_Signal ev) ↔ re_Decision ev = DecisionMatched);
  rs_signal : ∀ ev s, ev ∈ evs → re_Signal ev = Some s → signal_spec (mine events (re_Group ev)) (re_Group ev) s
}.

(** The same set of events has the same members and counts. *)
Lemma mine_elem (l r : list A) key x : (∀ x, x ∈ r ↔ x ∈ l) → x ∈ mine r key ↔ x ∈ mine l key.
Proof. intros H. unfold mine. rewrite !list_elem_of_filter, H. done. Qed.

Lemma counted_elem l x : x ∈ counted v l ↔ v x = Counted ∧ x ∈ l.
Proof. unfold counted. by rewrite list_elem_of_filter. Qed.

Lemma event_count_ext (l r : list A) : (∀ x, x ∈ r ↔ x ∈ l) → event_count r = event_count l.
Proof.
  intros H. unfold event_count. do 2 f_equal. apply leibniz_equiv. intros id.
  rewrite !elem_of_list_to_set, !list_elem_of_fmap. by setoid_rewrite counted_elem; setoid_rewrite H.
Qed.

Lemma value_count_ext (l r : list A) : (∀ x, x ∈ r ↔ x ∈ l) → value_count r = value_count l.
Proof.
  intros H. unfold value_count. do 2 f_equal. apply leibniz_equiv. intros id.
  rewrite !elem_of_list_to_set, !list_elem_of_omap. by setoid_rewrite counted_elem; setoid_rewrite H.
Qed.

Lemma counted_ids_ext (l r : list A) : (∀ x, x ∈ r ↔ x ∈ l) →
  ∀ id, id ∈ ev_id <$> counted v r ↔ id ∈ ev_id <$> counted v l.
Proof.
  intros H id. rewrite !list_elem_of_fmap. by setoid_rewrite counted_elem; setoid_rewrite H.
Qed.

Lemma matches_ext (l r : list A) : (∀ x, x ∈ r ↔ x ∈ l) → matches r ↔ matches l.
Proof.
  intros H. unfold matches. rewrite (event_count_ext l r), (value_count_ext l r) by done.
  by setoid_rewrite H.
Qed.

(** With distinct identifiers the list lengths are those counts. *)
Lemma event_count_length (l : list A) : NoDup (ev_id <$> l) →
  event_count l = Z.of_nat (length (ev_id <$> counted v l)).
Proof.
  intros H. unfold event_count. rewrite size_list_to_set; [done|].
  unfold counted. eapply sublist_NoDup; [exact H|]. apply fmap_sublist, sublist_filter.
Qed.

(** ** Every rule of the code is an instance *)

Variables (step : tally → A → tally) (threshold : Metrics).

Definition evaluate_group (key : string * string) (es : list A) : RuleEvaluation :=
  let t := foldl step tally0 es in
  finalizeEvaluation d rule key start finish threshold (observed (evidence_count t) (distinct_count t))
    complete (t_untrusted t) (t_unverified t) (met (evidence_count t) (distinct_count t)) cls (t_evidence t).

Hypothesis step_verdict : ∀ t x, step t x = verdict_step v value t x.
Hypothesis observed_count : ∀ n m, m_EventCount (observed n m) = n.

Lemma existsb_verdict (w : verdict) (l : list A) :
  existsb (λ x, bool_decide (v x = w)) l = false ↔ ∀ e, e ∈ l → v e ≠ w.
Proof.
  rewrite existsb_false, Forall_forall. by setoid_rewrite bool_decide_eq_false.
Qed.

Lemma evaluate_group_decision key es : NoDup (ev_id <$> es) →
  let ev := evaluate_group key es in
  re_Group ev = key ∧
  (re_Decision ev = DecisionMatched ↔ matches es) ∧
  (re_EnforcementSupporting ev = true ↔ re_Decision ev = DecisionMatched) ∧
  (is_Some (re_Signal ev) ↔ re_Decision ev = DecisionMatched) ∧
  (∀ s, re_Signal ev = Some s → signal_spec es key s).
Proof.
  intros Hnd. unfold evaluate_group. destruct (tally_correct v value step es step_verdict) as [He Hd Hu Hb].
  assert (evidence_count (foldl step tally0 es) = event_count es) as Hn.
  { rewrite event_count_length by done. unfold evidence_count. by rewrite He. }
  assert (distinct_count (foldl step tally0 es) = value_count es) as Hm.
  { unfold distinct_count, value_count. by rewrite Hd. }
  rewrite Hn, Hm, Hu, Hb. unfold finalizeEvaluation, matches.
  destruct complete; simpl; [|split_and!; try done; naive_solver].
  destruct (existsb (λ x, bool_decide (v x = Untrusted)) es) eqn:Eu; simpl.
  { split_and!; try done; try naive_solver. split; [done|]. intros (_ & H & _).
    rewrite (proj2 (existsb_verdict Untrusted es)) in Eu; [done|]. naive_solver. }
  destruct (existsb (λ x, bool_decide (v x = Unverified)) es) eqn:Eb; simpl.
  { split_and!; try done; try naive_solver. split; [done|]. intros (_ & H & _).
    rewrite (proj2 (existsb_verdict Unverified es)) in Eb; [done|]. naive_solver. }
  rewrite existsb_verdict in Eu, Eb.
  destruct (met _ _) eqn:Em; simpl; [|split_and!; try done; naive_solver].
  split_and!; [done|naive_solver|done|by split; [|eexists]|].
  intros s Hsome. apply Some_inj in Hsome as <-.
  assert (NoDup (t_evidence (foldl step tally0 es))) as Hnt.
  { rewrite He. unfold counted. eapply sublist_NoDup; [exact Hnd|]. apply fmap_sublist, sublist_filter. }
  split; simpl; [by rewrite He|apply sorted_unique_sorted| |].
  - intros id. unfold sortedUniqueStrings. rewrite sorted_unique_elem, He, list_elem_of_fmap.
    setoid_rewrite counted_elem. naive_solver.
  - rewrite observed_count, event_count_length by done. unfold sortedUniqueStrings.
    rewrite (sorted_unique_perm_NoDup _ Hnt), He. done.
Qed.

Lemma rule_correct (events r : list A) evs : normal_events events r →
  evs = (λ '(key, es), evaluate_group key es) <$> groupEvents r start finish → rule_spec events evs.
Proof.
  intros [Hel Hids _] ->. destruct (groupEvents_spec start finish r) as [Hs Hg].
  assert (∀ key es, (key, es) ∈ groupEvents r start finish → es = mine r key ∧ NoDup (ev_id <$> es)) as Hes.
  { intros key es [-> _]%Hg. split; [done|]. eapply sublist_NoDup; [exact Hids|].
    apply fmap_sublist, sublist_filter. }
  assert (re_Group <$> ((λ '(key, es), evaluate_group key es) <$> groupEvents r start finish)
          = (groupEvents r start finish).*1) as Hk.
  { rewrite <-list_fmap_compose. apply list_fmap_ext. intros i [key es] Hi. simpl.
    apply list_elem_of_lookup_2, Hes in Hi as [_ Hnd]. apply (evaluate_group_decision key es Hnd). }
  split; rewrite ?Hk; [done| | |].
  - intros key. rewrite list_elem_of_fmap. split.
    + intros ([k es] & -> & [-> Hne]%Hg). simpl.
      destruct (filter _ r) as [|e es] eqn:E; [done|]. exists e.
      assert (e ∈ e :: es) as He by set_solver. rewrite <-E in He.
      apply list_elem_of_filter in He as [Hw He]. by rewrite <-Hel.
    + intros (e & He & Hw). exists (key, mine r key). split; [done|]. apply Hg. split; [done|].
      intros Hnil. apply Hel in He. assert (e ∈ mine r key) as H by (by apply list_elem_of_filter).
      rewrite Hnil in H. by apply elem_of_nil in H.
  - intros ev ([key es] & -> & Hin)%list_elem_of_fmap. destruct (Hes _ _ Hin) as [-> Hnd].
    destruct (evaluate_group_decision key (mine r key) Hnd) as (-> & Hd & Hsup & Hsig & _).
    split_and!; [|done|done]. rewrite Hd. apply matches_ext. intros x. by apply mine_elem.
  - intros ev s ([key es] & -> & Hin)%list_elem_of_fmap Hsome. destruct (Hes _ _ Hin) as [-> Hnd].
    destruct (evaluate_group_decision key (mine r key) Hnd) as (-> & _ & _ & _ & Hss).
    destruct (Hss s Hsome) as [H1 H2 H3 H4]. split; [|exact H2| |exact H4].
    + rewrite H1. apply buildSignal_ext; [|by apply counted_ids_ext; intros; apply mine_elem].
      by rewrite (event_count_ext (mine events key)), (value_count_ext (mine events key))
        by (intros; by apply mine_elem).
    + intros id. rewrite H3. by setoid_rewrite (mine_elem events r key _ Hel).
Qed.

End rule.

(** ** The four rules *)

Definition path_scan_verdict (e : GatewayEvent) : verdict :=
  if String.eqb (ge_SuspiciousPathID e) SuspiciousPathNone then Skip
  else if String.eqb (ge_TimestampTrust e) TimestampTrusted then Counted else Untrusted.

Definition request_burst_verdict (e : GatewayEvent) : verdict :=
  if String.eqb (ge_TimestampTrust e) TimestampTrusted then Counted else Untrusted.

Definition login_verdict (config : Config) (e : GatewayEvent) : verdict :=
  if String.eqb (ge_RouteLabel e) (cf_LoginRouteLabel config)
     && ((ge_StatusCode e =? 401) || (ge_StatusCode e =? 403)) then
    if String.eqb (ge_TimestampTrust e) TimestampTrusted then
      if String.eqb (ge_AuthenticationMatch e) BindingVerified then Counted else Unverified
    else Untrusted
  else Skip.

Definition stuffing_verdict (e : AuthEvent) : verdict :=
  if String.eqb (ae_Outcome e) AuthOutcomeFailed then
    if String.eqb (ae_TimestampTrust e) TimestampTrusted then
      if String.eqb (ae_GatewayBinding e) BindingVerified then Counted else Unverified
    else Untrusted
  else Skip.

Lemma never_unverified {A} {DE : DetectorEvent A} {LE : LawfulEvent A} v value step (es : list A) :
  (∀ t x, step t x = verdict_step v value t x) → (∀ x, v x ≠ Unverified) →
  t_unverified (foldl step tally0 es) = false.
Proof.
  intros Hs Hv. destruct (tally_correct v value step es Hs) as [_ _ _ ->].
  apply existsb_false, Forall_forall. intros x _. by apply bool_decide_eq_false.
Qed.

Section evaluate.
  Variables (d : Detector) (input normal : EvaluationInput).
  Hypothesis gateway_normal :
    normal_events (DE := gateway_event (d_config d)) (in_GatewayEvents input) (in_GatewayEvents normal).
  Hypothesis auth_normal : normal_events (in_AuthEvents input) (in_AuthEvents normal).
Let now := in_Now normal.

Lemma path_scan_correct :
  let start := now - cf_PathScanWindow (d_config d) in
  rule_spec (DE := gateway_event (d_config d)) path_scan_verdict (λ e, Some (ge_SuspiciousPathID e))
    start now (healthComplete (in_GatewayHealth normal) start now)
    (λ _ m, cf_PathScanThreshold (d_config d) <=? m) d RulePathScan ClassificationPathScan
    (λ n m, MkMetrics n m 0) (in_GatewayEvents input) (evaluatePathScan d normal).
Proof.
  assert (∀ t x, path_scan_step t x = verdict_step (DE := gateway_event (d_config d)) path_scan_verdict
    (λ e, Some (ge_SuspiciousPathID e)) t x) as Hstep.
  { intros t x. unfold path_scan_step, verdict_step, path_scan_verdict.
    by destruct (String.eqb (ge_SuspiciousPathID x) SuspiciousPathNone), (String.eqb (ge_TimestampTrust x) TimestampTrusted). }
  eapply (rule_correct (DE := gateway_event (d_config d))) with (step := path_scan_step)
    (threshold := MkMetrics 0 (cf_PathScanThreshold (d_config d)) 0);
    [exact Hstep|done|exact gateway_normal|].
  unfold evaluatePathScan. apply list_fmap_ext. intros i [key es] _. unfold evaluate_group.
  rewrite (never_unverified (DE := gateway_event (d_config d)) path_scan_verdict
             (λ e, Some (ge_SuspiciousPathID e))); [done|exact Hstep|].
  intros x. unfold path_scan_verdict. by repeat case_match.
Qed.

Lemma request_burst_correct :
  let start := now - cf_RequestBurstWindow (d_config d) in
  rule_spec (DE := gateway_event (d_config d)) request_burst_verdict (λ _, None)
    start now (healthComplete (in_GatewayHealth normal) start now)
    (λ n _, cf_RequestBurstThreshold (d_config d) <=? n) d RuleRequestBurst ClassificationRequestBurst
    (λ n _, MkMetrics n 0 0) (in_GatewayEvents input) (evaluateRequestBurst d normal).
Proof.
  assert (∀ t x, request_burst_step t x
    = verdict_step (DE := gateway_event (d_config d)) request_burst_verdict (λ _, None) t x) as Hstep.
  { intros t x. unfold request_burst_step, verdict_step, request_burst_verdict.
    by destruct (String.eqb (ge_TimestampTrust x) TimestampTrusted). }
  eapply (rule_correct (DE := gateway_event (d_config d))) with (step := request_burst_step)
    (threshold := MkMetrics (cf_RequestBurstThreshold (d_config d)) 0 0);
    [exact Hstep|done|exact gateway_normal|].
  unfold evaluateRequestBurst. apply list_fmap_ext. intros i [key es] _. unfold evaluate_group.
  rewrite (never_unverified (DE := gateway_event (d_config d)) request_burst_verdict (λ _, None));
    [done|exact Hstep|]. intros x. unfold request_burst_verdict. by repeat case_match.
Qed.

Lemma login_correct :
  let start := now - cf_LoginBruteForceWindow (d_config d) in
  rule_spec (DE := gateway_event (d_config d)) (login_verdict (d_config d)) (λ _, None)
    start now (healthComplete (in_GatewayHealth normal) start now && healthComplete (in_AuthHealth normal) start now)
    (λ n _, cf_LoginBruteForceThreshold (d_config d) <=? n) d RuleLoginBruteForce ClassificationLoginBruteForce
    (λ n _, MkMetrics n 0 0) (in_GatewayEvents input) (evaluateLoginBruteForce d normal).
Proof.
  eapply (rule_correct (DE := gateway_event (d_config d))) with (step := login_step (d_config d))
    (threshold := MkMetrics (cf_LoginBruteForceThreshold (d_config d)) 0 0);
    [|done|exact gateway_normal|done].
  intros t x. unfold login_step, verdict_step, login_verdict.
  by destruct (String.eqb (ge_RouteLabel x) (cf_LoginRouteLabel (d_config d))), (ge_StatusCode x =? 401), (ge_StatusCode x =? 403),
    (String.eqb (ge_TimestampTrust x) TimestampTrusted), (String.eqb (ge_AuthenticationMatch x) BindingVerified).
Qed.

Lemma stuffing_correct :
  let start := now - cf_CredentialStuffingWindow (d_config d) in
  rule_spec stuffing_verdict (λ e, Some (ae_AccountHash e))
    start now (healthComplete (in_AuthHealth normal) start now)
    (λ n m, (cf_CredentialStuffingEventThreshold (d_config d) <=? n)
            && (cf_CredentialStuffingAccountThreshold (d_config d) <=? m))
    d RuleCredentialStuffing ClassificationCredentialStuffing (λ n m, MkMetrics n 0 m)
    (in_AuthEvents input) (evaluateCredentialStuffing d normal).
Proof.
  eapply rule_correct with (step := stuffing_step)
    (threshold := MkMetrics (cf_CredentialStuffingEventThreshold (d_config d)) 0
                    (cf_CredentialStuffingAccountThreshold (d_config d)));
    [|done|exact auth_normal|done].
  intros t x. unfold stuffing_step, verdict_step, stuffing_verdict.
  by destruct (String.eqb (ae_Outcome x) AuthOutcomeFailed), (String.eqb (ae_TimestampTrust x) TimestampTrusted),
    (String.eqb (ae_GatewayBinding x) BindingVerified).
Qed.

End evaluate.

(** ** Health *)

(** Two health reports that differ at most in the order of their intervals. *)
Definition same_health (h k : SourceHealth) : Prop :=
  sh_Source h = sh_Source k ∧ sh_Complete h = sh_Complete k ∧
  sh_CoverageStart h = sh_CoverageStart k ∧ sh_CoverageEnd h = sh_CoverageEnd k ∧
  sh_Intervals h ≡ₚ sh_Intervals k.

Lemma healthComplete_same h k start finish : same_health h k →
  healthComplete h start finish = healthComplete k start finish.
Proof.
  intros (_ & Hc & Hs & He & Hp). unfold healthComplete. rewrite Hc, Hs, He.
  by rewrite (existsb_perm _ _ _ Hp).
Qed.

Lemma check_intervals_none field l : ∀ index, check_intervals field index l = None ↔
  Forall (λ i, validHealthState (hi_State i) = true ∧ hi_Start i ≠ 0 ∧ (hi_End i ≠ 0 → hi_Start i <= hi_End i)) l.
Proof.
  induction l as [|i l IH]; intros index; simpl; [by split|].
  rewrite Forall_cons, <-(IH (index + 1)). unfold IsZero, Before.
  destruct (validHealthState (hi_State i)); simpl; [|naive_solver].
  destruct (hi_Start i =? 0) eqn:E1; breflect; [naive_solver|].
  destruct (negb (hi_End i =? 0) && (hi_End i <? hi_Start i)) eqn:E2; breflect.
  - naive_solver lia.
  - split; [|naive_solver]. intros H. split_and!; [done|done| |done]. intros Hz. destruct_or!; [done|lia].
Qed.

Lemma normalizeHealth_same field h k expected r : same_health h k →
  normalizeHealth field h expected = Ok r →
  ∃ s, normalizeHealth field k expected = Ok s ∧ same_health h r ∧ same_health r s.
Proof.
  intros (Hs & Hc & Hst & He & Hp) H. unfold normalizeHealth in *. rewrite <-Hs, <-Hst, <-He.
  pass_guards H. destruct (check_intervals field 0 (sh_Intervals h)) eqn:Ei; [done|]. injection H as <-.
  assert (check_intervals field 0 (sh_Intervals k) = None) as ->.
  { apply check_intervals_none in Ei. apply check_intervals_none. by rewrite <-Hp. }
  repeat match goal with E : _ = false |- _ => rewrite E; clear E end.
  eexists. split; [done|]. unfold same_health. simpl. rewrite Hc.
  split_and!; try done; by rewrite !sort_slice_perm.
Qed.

Lemma same_health_refl h : same_health h h.
Proof. done. Qed.

(** ** Normalising a whole input *)

(** Two evaluation inputs with the same clock, the same sets of events and the
    same health. *)
Record same_input (a b : EvaluationInput) : Prop := {
  si_now : in_Now a = in_Now b;
  si_gateway : ∀ x, x ∈ in_GatewayEvents a ↔ x ∈ in_GatewayEvents b;
  si_auth : ∀ x, x ∈ in_AuthEvents a ↔ x ∈ in_AuthEvents b;
  si_gateway_health : same_health (in_GatewayHealth a) (in_GatewayHealth b);
  si_auth_health : same_health (in_AuthHealth a) (in_AuthHealth b)
}.

Lemma normalizeInput_same a b config r : same_input a b → normalizeInput a config = Ok r →
  ∃ s, normalizeInput b config = Ok s ∧
    in_Now r = in_Now s ∧ in_GatewayEvents r = in_GatewayEvents s ∧ in_AuthEvents r = in_AuthEvents s ∧
    same_health (in_GatewayHealth r) (in_GatewayHealth s) ∧ same_health (in_AuthHealth r) (in_AuthHealth s).
Proof.
  intros [Hn Hg Ha Hgh Hah] H. unfold normalizeInput, normalizeGatewayEvents, normalizeAuthEvents in *.
  rewrite <-Hn. pass_guards H. do 4 inv_bind H. injection H as <-. simpl.
  rewrite (normalizeEvents_ext _ _ _ _ Hg Hbind), (normalizeEvents_ext _ _ _ _ Ha Hbind0).
  destruct (normalizeHealth_same _ _ _ _ _ Hgh Hbind1) as (s1 & Hs1 & _ & Hh1).
  destruct (normalizeHealth_same _ _ _ _ _ Hah Hbind2) as (s2 & Hs2 & _ & Hh2).
  unfold mbind, result_bind. rewrite Hs1, Hs2, Heqb0. eexists. split; [done|]. done.
Qed.

Lemma normalizeInput_facts a config r : normalizeInput a config = Ok r →
  in_Now r = in_Now a ∧
  normal_events (DE := gateway_event config) (in_GatewayEvents a) (in_GatewayEvents r) ∧
  normal_events (in_AuthEvents a) (in_AuthEvents r) ∧
  same_health (in_GatewayHealth a) (in_GatewayHealth r) ∧ same_health (in_AuthHealth a) (in_AuthHealth r).
Proof.
  intros H. unfold normalizeInput, normalizeGatewayEvents, normalizeAuthEvents in *.
  pass_guards H. do 4 inv_bind H. injection H as <-. simpl.
  apply normalizeEvents_ok in Hbind as [_ Hb1], Hbind0 as [_ Hb2].
  destruct (normalizeHealth_same _ _ _ _ _ (same_health_refl _) Hbind1) as (s1 & _ & Hh1 & _).
  destruct (normalizeHealth_same _ _ _ _ _ (same_health_refl _) Hbind2) as (s2 & _ & Hh2 & _).
  done.
Qed.

(** ** Digest lines *)

Lemma writeCanonicalLine_inj u v r1 r2 :
  chars (writeCanonicalLine u) ++ r1 = chars (writeCanonicalLine v) ++ r2 → u = v ∧ r1 = r2.
Proof.
  unfold writeCanonicalLine, itoa. intros H. rewrite !chars_app, <-!app_assoc in H.
  assert (∀ s, 0 <= len s) as Hl by (intros; unfold len; lia).
  rewrite !(proj2 (Z.ltb_ge _ _)) in H by apply Hl.
  apply number_inj in H as [Hn H]; [|apply Hl|apply Hl|reflexivity|reflexivity].
  apply app_inv_head in H. rewrite !len_chars in Hn.
  apply field_inj in H as [Hc H]; [|lia]. apply app_inv_head in H. split; [by apply chars_inj|done].
Qed.

Lemma canonical_lines_inj l1 : ∀ l2, canonical_lines l1 = canonical_lines l2 → l1 = l2.
Proof.
  assert (∀ v r, writeCanonicalLine v +:+ r ≠ "") as Hne.
  { intros v r H. apply (f_equal len) in H. unfold writeCanonicalLine in H.
    rewrite !len_app in H. unfold len in H. simpl in H. lia. }
  induction l1 as [|u l1 IH]; intros [|v l2] H; simpl in H; [done|by symmetry in H; apply Hne in H|by apply Hne in H|].
  apply (f_equal chars) in H. rewrite !chars_app in H.
  apply writeCanonicalLine_inj in H as [-> H]. f_equal. by apply IH, chars_inj.
Qed.

(** The bytes a signal's identifier and digest are computed from. *)
Definition signal_preimage (s : Signal) : string :=
  canonical_lines (signal_lines (sg_ConfigurationVersion s) (sg_ConfigurationDigest s) (sg_RuleID s)
    (sg_Classification s) (sg_SourceIP s) (sg_ServiceLabel s) (sg_WindowStart s) (sg_WindowEnd s)
    (sg_Metrics s) (sg_EvidenceDigest s) (sg_EvidenceIDs s)).

(** A signal the code built. *)
Definition built (s : Signal) : Prop := ∃ d rule cls group start finish metrics ids,
  s = buildSignal d rule cls group start finish metrics ids ∧
  four_digit_year start ∧ four_digit_year finish ∧
  0 <= m_EventCount metrics ∧ 0 <= m_DistinctSuspiciousPathCount metrics ∧ 0 <= m_DistinctAccountCount metrics.

Lemma itoa_inj n m : 0 <= n → 0 <= m → itoa n = itoa m → n = m.
Proof.
  intros Hn Hm. unfold itoa. rewrite !(proj2 (Z.ltb_ge _ _)) by done. by apply format_uint_inj.
Qed.

(** Field by field, without looking into the strings. *)
Lemma cons_inj {B} (x y : B) l k : x :: l = y :: k → x = y ∧ l = k.
Proof. by intros [= -> ->]. Qed.

Lemma built_inj s t : built s → built t → signal_preimage s = signal_preimage t → s = t.
Proof.
  intros (d & rule & cls & g & st & fi & m & ids & -> & Hy1 & Hy2 & H1 & H2 & H3)
    (d' & rule' & cls' & g' & st' & fi' & m' & ids' & -> & Hy1' & Hy2' & H1' & H2' & H3') H.
  apply canonical_lines_inj in H. unfold signal_lines in H. cbn [app buildSignal sg_ConfigurationVersion
    sg_ConfigurationDigest sg_RuleID sg_Classification sg_SourceIP sg_ServiceLabel sg_WindowStart sg_WindowEnd
    sg_Metrics sg_EvidenceDigest sg_EvidenceIDs] in H.
  apply cons_inj in H as [_ [Hv [Hd [Hr [Hc [Hg1 [Hg2 [Hs [Hf [Hm1 [Hm2 [Hm3 [_ Hids
    ]%cons_inj]%cons_inj]%cons_inj]%cons_inj]%cons_inj]%cons_inj]%cons_inj]%cons_inj]%cons_inj]%cons_inj]%cons_inj]%cons_inj].
  apply itoa_inj in Hm1, Hm2, Hm3; [|done..].
  apply format_rfc3339nano_inj in Hs, Hf; [|done..].
  assert (m = m') as -> by (destruct m, m'; simpl in *; congruence).
  unfold buildSignal. rewrite Hv, Hd, Hr, Hc, Hg1, Hg2, Hs, Hf, Hids. done.
Qed.

(** ** A sample evaluation, for the witnesses *)

Definition sample_detector : Detector :=
  default (MkDetector DefaultConfig (digestConfig DefaultConfig)) NewDefault.

(** The built-in configuration is accepted, so [NewDefault] does not panic. *)
Example NewDefault_ok : NewDefault = Some sample_detector.
Proof. vm_compute. reflexivity. Qed.

Definition sample_now : time := 63919936806 * Second.

Definition sample_event (i : Z) (path : string) : GatewayEvent :=
  MkGatewayEvent ("00000000-0000-4000-8000-00000000000" +:+ itoa i) (sample_now - i * Second)
    "203.0.113.20" "shop" "other" DefaultPathCatalogVersion path 404 TimestampTrusted BindingNotApplicable.

Definition sample_events : list GatewayEvent :=
  zip_with sample_event [1; 2; 3; 4; 5; 6; 7; 8] defaultSuspiciousPathIDs.

Definition sample_health (source : string) : SourceHealth :=
  MkSourceHealth source true (sample_now - Hour) sample_now [].

Definition sample_input (events : list GatewayEvent) : EvaluationInput :=
  MkEvaluationInput sample_now events [] (sample_health SourceGateway) (sample_health SourceAuth).

Definition sample_output : Output :=
  from_ok (MkOutput "" "" [] [] [] []) (Evaluate sample_detector (sample_input sample_events)).

Example sample_matched :
  Evaluate sample_detector (sample_input sample_events) = Ok sample_output ∧
  (re_Decision <$> out_PathScan sample_output) = [DecisionMatched] ∧
  (re_Decision <$> out_RequestBurst sample_output) = [DecisionNoMatch].
Proof. vm_compute. done. Qed.

(** ** Claims *)

(** C7. Every rule of an accepted evaluation meets its abstract specification
    over the raw input: one evaluation per source and service in the inclusive
    window; it matches exactly when the producers' health covers the whole
    window, no qualifying event is untrusted or unbound, and enough distinct
    events (and paths, or accounts) qualify; only a match supports enforcement
    and carries a signal, whose evidence is exactly the qualifying events. *)
Theorem Evaluate_spec d input out : Evaluate d input = Ok out →
  let c := d_config d in
  let now := in_Now input in
  let gateway_ok w := healthComplete (in_GatewayHealth input) (now - w) now in
  let auth_ok w := healthComplete (in_AuthHealth input) (now - w) now in
  rule_spec (DE := gateway_event c) path_scan_verdict (λ e, Some (ge_SuspiciousPathID e))
    (now - cf_PathScanWindow c) now (gateway_ok (cf_PathScanWindow c))
    (λ _ m, cf_PathScanThreshold c <=? m) d RulePathScan ClassificationPathScan (λ n m, MkMetrics n m 0)
    (in_GatewayEvents input) (out_PathScan out) ∧
  rule_spec (DE := gateway_event c) request_burst_verdict (λ _, None)
    (now - cf_RequestBurstWindow c) now (gateway_ok (cf_RequestBurstWindow c))
    (λ n _, cf_RequestBurstThreshold c <=? n) d RuleRequestBurst ClassificationRequestBurst (λ n _, MkMetrics n 0 0)
    (in_GatewayEvents input) (out_RequestBurst out) ∧
  rule_spec (DE := gateway_event c) (login_verdict c) (λ _, None)
    (now - cf_LoginBruteForceWindow c) now
    (gateway_ok (cf_LoginBruteForceWindow c) && auth_ok (cf_LoginBruteForceWindow c))
    (λ n _, cf_LoginBruteForceThreshold c <=? n) d RuleLoginBruteForce ClassificationLoginBruteForce
    (λ n _, MkMetrics n 0 0) (in_GatewayEvents input) (out_LoginBruteForce out) ∧
  rule_spec stuffing_verdict (λ e, Some (ae_AccountHash e))
    (now - cf_CredentialStuffingWindow c) now (auth_ok (cf_CredentialStuffingWindow c))
    (λ n m, (cf_CredentialStuffingEventThreshold c <=? n) && (cf_CredentialStuffingAccountThreshold c <=? m))
    d RuleCredentialStuffing ClassificationCredentialStuffing (λ n m, MkMetrics n 0 m)
    (in_AuthEvents input) (out_CredentialStuffing out).
Proof.
  intros H. unfold Evaluate in H. inv_bind H. injection H as <-. simpl.
  destruct (normalizeInput_facts _ _ _ Hbind) as (Hn & Hg & Ha & Hgh & Hah).
  pose proof (path_scan_correct d input a Hg) as H1. pose proof (request_burst_correct d input a Hg) as H2.
  pose proof (login_correct d input a Hg) as H3. pose proof (stuffing_correct d input a Ha) as H4.
  simpl in H1, H2, H3, H4. rewrite Hn in H1, H2, H3, H4.
  rewrite <-(healthComplete_same _ _ _ _ Hgh) in H1. rewrite <-(healthComplete_same _ _ _ _ Hgh) in H2.
  rewrite <-(healthComplete_same _ _ _ _ Hgh), <-(healthComplete_same _ _ _ _ Hah) in H3.
  rewrite <-(healthComplete_same _ _ _ _ Hah) in H4.
  exact (conj H1 (conj H2 (conj H3 H4))).
Qed.

Lemma Evaluate_spec_witness :
  Forall (λ ev, re_EnforcementSupporting ev = true ↔ re_Decision ev = DecisionMatched)
    (out_PathScan sample_output).
Proof.
  assert (Evaluate sample_detector (sample_input sample_events) = Ok sample_output) as H
    by (vm_compute; reflexivity).
  apply Forall_forall. intros ev Hev. destruct (Evaluate_spec _ _ _ H) as ([_ _ Hd _] & _). apply (Hd ev Hev).
Defined.

(** The outcome depends only on the clock, the set of events and the
    health: reordering or repeating events, or reordering health intervals,
    changes neither acceptance nor any byte of the output. *)
Theorem Evaluate_order_independent d a b out : same_input a b →
  Evaluate d a = Ok out → Evaluate d b = Ok out.
Proof.
  intros Hs H. unfold Evaluate in *. inv_bind H.
  destruct (normalizeInput_same _ _ _ _ Hs Hbind) as (s & Hb & Hn & Hg & Ha & Hgh & Hah).
  unfold mbind, result_bind. rewrite Hb, <-H. f_equal.
  unfold evaluatePathScan, evaluateRequestBurst, evaluateLoginBruteForce, evaluateCredentialStuffing.
  rewrite Hn, Hg, Ha. by rewrite !(healthComplete_same _ _ _ _ Hgh), !(healthComplete_same _ _ _ _ Hah).
Qed.

Lemma Evaluate_order_independent_witness :
  Evaluate sample_detector (sample_input (rev sample_events ++ sample_events)) = Ok sample_output.
Proof.
  apply (Evaluate_order_independent _ (sample_input sample_events)); [|vm_compute; reflexivity].
  split; try done. intros x. change (x ∈ sample_events ↔ x ∈ rev sample_events ++ sample_events).
  rewrite elem_of_app, !list_elem_of_In, <-in_rev. tauto.
Defined.

(** A signal's identifier and digest are taken over an unambiguous
    encoding: two signals built by the detector from the same digest input are
    the same signal, field by field. *)
Theorem signal_preimage_inj s t : built s → built t → signal_preimage s = signal_preimage t → s = t.
Proof. apply built_inj. Qed.

Lemma signal_preimage_inj_witness :
  let s := buildSignal sample_detector RulePathScan ClassificationPathScan ("203.0.113.20", "shop")
             (sample_now - Minute) sample_now (MkMetrics 2 2 0) ["b"; "a"] in
  let t := buildSignal sample_detector RulePathScan ClassificationPathScan ("203.0.113.20", "shop")
             (sample_now - Minute) sample_now (MkMetrics 2 2 0) ["a"; "b"; "a"] in
  s = t.
Proof.
  intros s t. apply signal_preimage_inj; [| |vm_compute; reflexivity].
  - exists sample_detector. do 7 eexists. split; [reflexivity|]. vm_compute. intuition discriminate.
  - exists sample_detector. do 7 eexists. split; [reflexivity|]. vm_compute. intuition discriminate.
Defined.
