(* ===== verification/Correlation.v ===== *)
(** * Correlation of signals into groups ([internal/correlation])

    Models [types.go], [validate.go], [snapshot.go] and [correlate.go]: signals
    are validated, deduplicated, ordered and swept into groups of one source
    whose windows follow each other within five minutes. *)

From S2P Require Import Prelude GoSort Dedup GoStrings Regex Sha256 GoTime Netip ResponsePolicy Detection.
Local Open Scope Z_scope.

(** ** Data ([types.go]) *)

Definition EvidenceSnapshotVersion : string := "correlation-evidence-v1".
Definition MaximumSignalGap : duration := 5 * Minute.
Definition IncidentIdleTimeout : duration := 15 * Minute.
Definition IncidentReopenWindow : duration := 30 * Minute.
Definition MaximumAnalysisAttempts : Z := 2.

Definition IdentitySameCanonicalSource : string := "same_canonical_source".

Definition TemporalWindowOverlap : string := "window_overlap".
Definition TemporalWithinFiveMinutes : string := "gap_within_five_minutes".
Definition TemporalReopenedWithinThirtyMinutes : string := "reopened_within_thirty_minutes".

Definition SupportingSameService : string := "same_service".
Definition SupportingDifferentService : string := "different_service".
Definition SupportingSameRule : string := "same_rule".
Definition SupportingDifferentRule : string := "different_rule".
Definition SupportingAccountIdentityMinimized : string := "account_identity_minimized".
Definition SupportingPathIdentityMinimized : string := "path_identity_minimized".

Record Relation := MkRelation {
  rl_LeftSignalID : string;
  rl_RightSignalID : string;
  rl_IdentityReason : string;
  rl_TemporalReason : string;
  rl_SupportingReasons : list string
}.

Record SignalRef := MkSignalRef {
  sr_SignalID : string;
  sr_RuleID : string;
  sr_Classification : string;
  sr_ConfigurationVersion : string;
  sr_ConfigurationDigest : string;
  sr_WindowStart : time;
  sr_WindowEnd : time;
  sr_EventCount : Z;
  sr_DistinctAccountCount : Z;
  sr_DistinctSuspiciousPathCount : Z;
  sr_EvidenceDigest : string;
  sr_SignalDigest : string
}.

Record EvidenceSnapshot := MkEvidenceSnapshot {
  es_schemaVersion : string;
  es_sourceIP : string;
  es_windowStart : time;
  es_windowEnd : time;
  es_sourceHealthStatus : string;
  es_serviceLabels : list string;
  es_signalIDs : list string;
  es_evidenceEventIDs : list string;
  es_signalRefs : list SignalRef;
  es_canonicalBytes : string;
  es_digest : string
}.

Record Group := MkGroup {
  g_SourceIP : string;
  g_WindowStart : time;
  g_WindowEnd : time;
  g_Snapshot : EvidenceSnapshot;
  g_signals : list Signal;
  g_relations : list Relation
}.

Inductive ErrorCode :=
| ErrorInvalidInput | ErrorConflictingSignal | ErrorStaleRevision | ErrorIdempotencyConflict
| ErrorInvalidTransition | ErrorRetryNotAllowed | ErrorIdleDeadlineNotReached | ErrorTimeRegression.

Record Error := MkError { e_Code : ErrorCode; e_Field : string }.

Global Instance Metrics_eq_dec : EqDecision Metrics.
Proof. solve_decision. Defined.
Global Instance Signal_eq_dec : EqDecision Signal.
Proof. solve_decision. Defined.

(** ** Validation ([validate.go]) *)

Definition metricsReproduceRule (rule : string) (metrics : Metrics) : bool :=
  if String.eqb rule RulePathScan then
    (PathScanThreshold <=? m_EventCount metrics)
    && (m_DistinctSuspiciousPathCount metrics =? PathScanThreshold) && (m_DistinctAccountCount metrics =? 0)
  else if String.eqb rule RuleRequestBurst then
    (RequestBurstThreshold <=? m_EventCount metrics)
    && (m_DistinctAccountCount metrics =? 0) && (m_DistinctSuspiciousPathCount metrics =? 0)
  else if String.eqb rule RuleLoginBruteForce then
    (LoginBruteForceThreshold <=? m_EventCount metrics)
    && (m_DistinctAccountCount metrics =? 0) && (m_DistinctSuspiciousPathCount metrics =? 0)
  else if String.eqb rule RuleCredentialStuffing then
    (CredentialStuffingEventThreshold <=? m_EventCount metrics)
    && (CredentialStuffingAccountThreshold <=? m_DistinctAccountCount metrics)
    && (m_DistinctSuspiciousPathCount metrics =? 0)
  else false.

Definition validRuleClassification (rule classification : string) : bool :=
  if String.eqb rule RulePathScan then String.eqb classification ClassificationPathScan
  else if String.eqb rule RuleRequestBurst then String.eqb classification ClassificationRequestBurst
  else if String.eqb rule RuleLoginBruteForce then String.eqb classification ClassificationLoginBruteForce
  else if String.eqb rule RuleCredentialStuffing then String.eqb classification ClassificationCredentialStuffing
  else false.

(** The loop over the evidence identifiers: each a UUID, strictly increasing. *)
Fixpoint evidence_error (field : string) (previous : option string) (ids : list string) : option Error :=
  match ids with
  | [] => None
  | eventID :: ids =>
      if negb (is_uuid eventID) then Some (MkError ErrorInvalidInput (field +:+ ".evidence_ids"))
      else if match previous with Some p => negb (String.ltb p eventID) | None => false end
      then Some (MkError ErrorInvalidInput (field +:+ ".evidence_ids_order"))
      else evidence_error field (Some eventID) ids
  end.

Definition validateSignal (signal : Signal) (field : string) : option Error :=
  let invalid suffix := Some (MkError ErrorInvalidInput (field +:+ suffix)) in
  let m := sg_Metrics signal in
  if negb (is_uuid (sg_SignalID signal)) then invalid ".signal_id"
  else if negb (validRuleClassification (sg_RuleID signal) (sg_Classification signal))
  then invalid ".rule_classification"
  else if negb (match_string version_pattern (sg_ConfigurationVersion signal)) then invalid ".configuration_version"
  else if negb (is_digest (sg_ConfigurationDigest signal)) then invalid ".configuration_digest"
  else if negb (validateCanonicalIPv4 (sg_SourceIP signal)) then invalid ".source_ip"
  else if negb (match_string label_pattern (sg_ServiceLabel signal)) then invalid ".service_label"
  else if IsZero (sg_WindowStart signal) || IsZero (sg_WindowEnd signal)
          || Before (sg_WindowEnd signal) (sg_WindowStart signal) then invalid ".window"
  else if (m_EventCount m <? 1) || (1000000 <? m_EventCount m)
          || (m_DistinctAccountCount m <? 0) || (1000000 <? m_DistinctAccountCount m)
          || (m_DistinctSuspiciousPathCount m <? 0) || (8 <? m_DistinctSuspiciousPathCount m)
  then invalid ".metrics"
  else if negb (metricsReproduceRule (sg_RuleID signal) m) then invalid ".rule_metrics"
  else if negb (String.eqb (sg_SourceHealthStatus signal) SourceHealthStatusComplete)
  then invalid ".source_health_status"
  else if negb (Z.of_nat (length (sg_EvidenceIDs signal)) =? m_EventCount m)
          || (length (sg_EvidenceIDs signal) =? 0)%nat
  then invalid ".evidence_ids"
  else
    match evidence_error field None (sg_EvidenceIDs signal) with
    | Some e => Some e
    | None =>
        if negb (is_digest (sg_EvidenceDigest signal)) || negb (is_digest (sg_Digest signal))
        then invalid ".digest" else None
    end.

Definition equalMetrics (left right : Metrics) : bool := bool_decide (left = right).

Fixpoint equalStrings (lhs rhs : list string) : bool :=
  match lhs, rhs with
  | l :: lhs, r :: rhs => String.eqb l r && equalStrings lhs rhs
  | _, _ => true
  end.

Definition equalSignal (left right : Signal) : bool :=
  if negb (String.eqb (sg_SignalID left) (sg_SignalID right)) || negb (String.eqb (sg_RuleID left) (sg_RuleID right))
     || negb (String.eqb (sg_Classification left) (sg_Classification right))
     || negb (String.eqb (sg_ConfigurationVersion left) (sg_ConfigurationVersion right))
     || negb (String.eqb (sg_ConfigurationDigest left) (sg_ConfigurationDigest right))
     || negb (String.eqb (sg_SourceIP left) (sg_SourceIP right))
     || negb (String.eqb (sg_ServiceLabel left) (sg_ServiceLabel right))
     || negb (Equal (sg_WindowStart left) (sg_WindowStart right))
     || negb (Equal (sg_WindowEnd left) (sg_WindowEnd right))
     || negb (equalMetrics (sg_Metrics left) (sg_Metrics right))
     || negb (String.eqb (sg_EvidenceDigest left) (sg_EvidenceDigest right))
     || negb (String.eqb (sg_Digest left) (sg_Digest right))
     || negb (String.eqb (sg_SourceHealthStatus left) (sg_SourceHealthStatus right))
     || negb (length (sg_EvidenceIDs left) =? length (sg_EvidenceIDs right))%nat
  then false
  else equalStrings (sg_EvidenceIDs left) (sg_EvidenceIDs right).

(** [sortSignals]: by source, window start, window end, identifier. *)
Definition signal_order : Signal → Signal → comparison :=
  cmp_lex (cmp_on sg_SourceIP String.compare)
    (cmp_lex (cmp_on sg_WindowStart Z.compare)
       (cmp_lex (cmp_on sg_WindowEnd Z.compare) (cmp_on sg_SignalID String.compare))).

Definition sortSignals (values : list Signal) : list Signal := sort_slice signal_order values.

Definition normalizeSignals (values : list Signal) : result Error (list Signal) :=
  dedup_sort sg_SignalID equalSignal
    (λ index value, validateSignal value ("signals[" +:+ itoa index +:+ "]"))
    (λ _ value, MkError ErrorConflictingSignal (sg_SignalID value))
    signal_order values.

(** ** Evidence snapshots ([snapshot.go]) *)

Definition writeJSONString (value : string) : string := json_string value.
Definition writeJSONKey (key : string) : string := writeJSONString key +:+ ":".

(** Elements separated by commas. *)
Fixpoint comma_separated {A} (write : A → string) (index : nat) (values : list A) : string :=
  match values with
  | [] => ""
  | v :: values => (if (0 <? index)%nat then "," else "") +:+ write v +:+ comma_separated write (S index) values
  end.

Definition writeStringArray (values : list string) : string :=
  "[" +:+ comma_separated writeJSONString 0 values +:+ "]".

Definition formatTime (value : time) : string := format_rfc3339nano value.

Definition writeSignalRefJCS (ref : SignalRef) : string :=
  "{" +:+ writeJSONKey "classification" +:+ writeJSONString (sr_Classification ref)
  +:+ "," +:+ writeJSONKey "configuration_digest" +:+ writeJSONString (sr_ConfigurationDigest ref)
  +:+ "," +:+ writeJSONKey "configuration_version" +:+ writeJSONString (sr_ConfigurationVersion ref)
  +:+ "," +:+ writeJSONKey "distinct_account_count" +:+ itoa (sr_DistinctAccountCount ref)
  +:+ "," +:+ writeJSONKey "distinct_suspicious_path_count" +:+ itoa (sr_DistinctSuspiciousPathCount ref)
  +:+ "," +:+ writeJSONKey "event_count" +:+ itoa (sr_EventCount ref)
  +:+ "," +:+ writeJSONKey "evidence_digest" +:+ writeJSONString (sr_EvidenceDigest ref)
  +:+ "," +:+ writeJSONKey "rule_id" +:+ writeJSONString (sr_RuleID ref)
  +:+ "," +:+ writeJSONKey "signal_digest" +:+ writeJSONString (sr_SignalDigest ref)
  +:+ "," +:+ writeJSONKey "signal_id" +:+ writeJSONString (sr_SignalID ref)
  +:+ "," +:+ writeJSONKey "window_end" +:+ writeJSONString (formatTime (sr_WindowEnd ref))
  +:+ "," +:+ writeJSONKey "window_start" +:+ writeJSONString (formatTime (sr_WindowStart ref))
  +:+ "}".

Definition marshalSnapshotJCS (sourceIP : string) (windowStart windowEnd : time)
    (serviceLabels signalIDs evidenceIDs : list string) (refs : list SignalRef) : string :=
  "{" +:+ writeJSONKey "evidence_event_ids" +:+ writeStringArray evidenceIDs
  +:+ "," +:+ writeJSONKey "schema_version" +:+ writeJSONString EvidenceSnapshotVersion
  +:+ "," +:+ writeJSONKey "service_labels" +:+ writeStringArray serviceLabels
  +:+ "," +:+ writeJSONKey "signal_ids" +:+ writeStringArray signalIDs
  +:+ "," +:+ writeJSONKey "signal_refs" +:+ "[" +:+ comma_separated writeSignalRefJCS 0 refs +:+ "]"
  +:+ "," +:+ writeJSONKey "source_health_status" +:+ writeJSONString SourceHealthStatusComplete
  +:+ "," +:+ writeJSONKey "source_ip" +:+ writeJSONString sourceIP
  +:+ "," +:+ writeJSONKey "window_end" +:+ writeJSONString (formatTime windowEnd)
  +:+ "," +:+ writeJSONKey "window_start" +:+ writeJSONString (formatTime windowStart)
  +:+ "}".

Definition signal_ref (signal : Signal) : SignalRef := {|
  sr_SignalID := sg_SignalID signal;
  sr_RuleID := sg_RuleID signal;
  sr_Classification := sg_Classification signal;
  sr_ConfigurationVersion := sg_ConfigurationVersion signal;
  sr_ConfigurationDigest := sg_ConfigurationDigest signal;
  sr_WindowStart := sg_WindowStart signal;
  sr_WindowEnd := sg_WindowEnd signal;
  sr_EventCount := m_EventCount (sg_Metrics signal);
  sr_DistinctAccountCount := m_DistinctAccountCount (sg_Metrics signal);
  sr_DistinctSuspiciousPathCount := m_DistinctSuspiciousPathCount (sg_Metrics signal);
  sr_EvidenceDigest := sg_EvidenceDigest signal;
  sr_SignalDigest := sg_Digest signal
|}.

Definition sortedUnique (values : list string) : list string := sorted_unique values.

Definition buildEvidenceSnapshot (signals : list Signal) : result Error EvidenceSnapshot :=
  if (length signals =? 0)%nat then Err (MkError ErrorInvalidInput "signals")
  else
    values ← normalizeSignals signals;
    match values with
    | [] => Err (MkError ErrorInvalidInput "signals") (* unreachable: the code would panic on [values[0]] *)
    | first :: _ =>
        let sourceIP := sg_SourceIP first in
        if existsb (λ s, negb (String.eqb (sg_SourceIP s) sourceIP)) values
        then Err (MkError ErrorInvalidInput "signals.source_ip")
        else
          let windowStart := foldl (λ w s, if Before (sg_WindowStart s) w then sg_WindowStart s else w)
                               (sg_WindowStart first) values in
          let windowEnd := foldl (λ w s, if After (sg_WindowEnd s) w then sg_WindowEnd s else w)
                             (sg_WindowEnd first) values in
          let serviceLabels := sortedUnique (sg_ServiceLabel <$> values) in
          let signalIDs := sortedUnique (sg_SignalID <$> values) in
          let evidenceIDs := sortedUnique (concat (sg_EvidenceIDs <$> values)) in
          let refs := sort_slice (cmp_on sr_SignalID String.compare) (signal_ref <$> values) in
          let canonical := marshalSnapshotJCS sourceIP windowStart windowEnd serviceLabels signalIDs evidenceIDs refs in
          Ok (MkEvidenceSnapshot EvidenceSnapshotVersion sourceIP windowStart windowEnd SourceHealthStatusComplete
                serviceLabels signalIDs evidenceIDs refs canonical (digest canonical))
    end.

(** ** Relations and groups ([correlate.go]) *)

Definition intervals_overlap (leftStart leftEnd rightStart rightEnd : time) : bool :=
  negb (After leftStart rightEnd) && negb (After rightStart leftEnd).

Definition temporalRelation (left right : Signal) : option string :=
  if intervals_overlap (sg_WindowStart left) (sg_WindowEnd left) (sg_WindowStart right) (sg_WindowEnd right)
  then Some TemporalWindowOverlap
  else
    let gap := if Before (sg_WindowEnd left) (sg_WindowStart right)
               then Sub (sg_WindowStart right) (sg_WindowEnd left)
               else Sub (sg_WindowStart left) (sg_WindowEnd right) in
    if gap <=? MaximumSignalGap then Some TemporalWithinFiveMinutes else None.

Definition makeRelation (lhs rhs : Signal) (temporal : string) : Relation :=
  let '(lhs, rhs) := if String.ltb (sg_SignalID rhs) (sg_SignalID lhs) then (rhs, lhs) else (lhs, rhs) in
  let supporting :=
    [SupportingAccountIdentityMinimized; SupportingPathIdentityMinimized;
     if String.eqb (sg_ServiceLabel lhs) (sg_ServiceLabel rhs) then SupportingSameService else SupportingDifferentService;
     if String.eqb (sg_RuleID lhs) (sg_RuleID rhs) then SupportingSameRule else SupportingDifferentRule] in
  MkRelation (sg_SignalID lhs) (sg_SignalID rhs) IdentitySameCanonicalSource temporal (sort_strings supporting).

Definition relation_order : Relation → Relation → comparison :=
  cmp_lex (cmp_on rl_LeftSignalID String.compare)
    (cmp_lex (cmp_on rl_RightSignalID String.compare) (cmp_on rl_TemporalReason String.compare)).

Definition sortRelations (values : list Relation) : list Relation := sort_slice relation_order values.

(** All pairs [leftIndex < rightIndex], in loop order. *)
Fixpoint relation_pairs (signals : list Signal) : list Relation :=
  match signals with
  | [] => []
  | lhs :: rest =>
      omap (λ rhs,
        if negb (String.eqb (sg_SourceIP lhs) (sg_SourceIP rhs)) then None
        else temporal ← temporalRelation lhs rhs; Some (makeRelation lhs rhs temporal)) rest
      ++ relation_pairs rest
  end.

Definition buildRelations (signals : list Signal) : list Relation := sortRelations (relation_pairs signals).

Definition buildGroup (signals : list Signal) : result Error Group :=
  snapshot ← buildEvidenceSnapshot signals;
  let values := sortSignals signals in
  Ok (MkGroup (es_sourceIP snapshot) (es_windowStart snapshot) (es_windowEnd snapshot) snapshot values
        (buildRelations values)).

(** The sweep: [component] so far, never empty, and the latest end in it. *)
Fixpoint correlate_loop (component : list Signal) (componentEnd : time) (groups : list Group)
    (values : list Signal) : result Error (list Group) :=
  match values with
  | [] => group ← buildGroup component; Ok (groups ++ [group])
  | signal :: values =>
      if match last component with
         | Some previous => String.eqb (sg_SourceIP signal) (sg_SourceIP previous)
         | None => false
         end && negb (After (sg_WindowStart signal) (componentEnd + MaximumSignalGap))
      then correlate_loop (component ++ [signal])
             (if After (sg_WindowEnd signal) componentEnd then sg_WindowEnd signal else componentEnd) groups values
      else
        group ← buildGroup component;
        correlate_loop [signal] (sg_WindowEnd signal) (groups ++ [group]) values
  end.

Definition group_sort_order : Group → Group → comparison :=
  cmp_lex (cmp_on g_SourceIP String.compare)
    (cmp_lex (cmp_on g_WindowStart Z.compare) (cmp_on (λ g, es_digest (g_Snapshot g)) String.compare)).

Definition Correlate (signals : list Signal) : result Error (list Group) :=
  values ← normalizeSignals signals;
  match values with
  | [] => Ok []
  | first :: rest =>
      groups ← correlate_loop [first] (sg_WindowEnd first) [] rest;
      Ok (sort_slice group_sort_order groups)
  end.
