(* ===== verification/CorrelationSpec.v ===== *)
(** * Groups are the connected components of the temporal relation

    The sweep over sorted signals is compared with the graph it is meant to
    compute: signals of one source joined when their windows overlap or follow
    each other within five minutes. *)

From S2P Require Import Prelude GoSort Dedup GoStrings Regex Sha256 GoTime Netip ResponsePolicy.
From S2P Require Import Detection DetectionSpec Correlation.
From stdpp Require Import relations.
Local Open Scope Z_scope.

(** ** Signals *)

Lemma equalStrings_spec l k : length l = length k → equalStrings l k = true ↔ l = k.
Proof.
  revert k. induction l as [|x l IH]; intros [|y k] Hl; simplify_eq/=; [done|].
  rewrite andb_true_iff, String.eqb_eq, IH by done. naive_solver.
Qed.

Lemma equalSignal_spec x y : equalSignal x y = true ↔ x = y.
Proof.
  unfold equalSignal, equalMetrics, Equal. split.
  - destruct (_ || _) eqn:E; [done|]. breflect. destruct_and!.
    intros Hids%equalStrings_spec; [|done]. destruct x, y; simpl in *. by subst.
  - intros ->. rewrite !String.eqb_refl, !Z.eqb_refl, Nat.eqb_refl, bool_decide_eq_true_2 by done. simpl.
    by apply equalStrings_spec.
Qed.

(** Validity does not depend on the name of the field in the message. *)
Definition valid_signal (s : Signal) : Prop := validateSignal s "" = None.

Lemma evidence_error_field f g prev ids : evidence_error f prev ids = None ↔ evidence_error g prev ids = None.
Proof.
  revert prev. induction ids as [|id ids IH]; intros prev; simpl; [done|].
  destruct (negb (is_uuid id)); [done|]. by destruct (match prev with Some _ => _ | None => _ end).
Qed.

Lemma validateSignal_field f g s : validateSignal s f = None ↔ validateSignal s g = None.
Proof.
  unfold validateSignal. pose proof (evidence_error_field f g None (sg_EvidenceIDs s)) as He.
  repeat match goal with |- context [if ?b then _ else _] => destruct b; [by split|] end.
  destruct (evidence_error f None _), (evidence_error g None _);
    [by split|specialize (proj2 He eq_refl); done|specialize (proj1 He eq_refl); done|by destruct (_ || _)].
Qed.

Lemma valid_window s : valid_signal s → sg_WindowStart s <= sg_WindowEnd s.
Proof.
  unfold valid_signal, validateSignal, Before. intros H.
  repeat match type of H with (if ?b then _ else _) = _ => destruct b eqn:? in H; [done|] end.
  breflect. destruct_and!. lia.
Qed.

Global Instance signal_order_weak : WeakOrder signal_order.
Proof. apply _. Qed.

Lemma signal_order_id x y : signal_order x y = Eq → sg_SignalID x = sg_SignalID y.
Proof.
  unfold signal_order, cmp_lex, cmp_on.
  destruct (String.compare _ _); [|done..]. destruct (sg_WindowStart x ?= sg_WindowStart y); [|done..].
  destruct (sg_WindowEnd x ?= sg_WindowEnd y); [|done..]. apply scompare_eq.
Qed.

(** What the order says of two signals of one source. *)
Lemma signal_order_le x y : cmp_le signal_order x y →
  String.compare (sg_SourceIP x) (sg_SourceIP y) ≠ Gt ∧
  (sg_SourceIP x = sg_SourceIP y → sg_WindowStart x <= sg_WindowStart y).
Proof.
  unfold cmp_le, signal_order, cmp_lex, cmp_on.
  destruct (String.compare (sg_SourceIP x) (sg_SourceIP y)) eqn:E; intros H; split; try done.
  - intros _. destruct (Z.compare_spec (sg_WindowStart x) (sg_WindowStart y)); [lia|lia|done].
  - intros He. apply scompare_eq in He. congruence.
Qed.

Abbreviation acceptable_signals := (acceptable sg_SignalID valid_signal).
Abbreviation normal_signals := (normalised sg_SignalID signal_order).

Lemma normalizeSignals_ok l r : normalizeSignals l = Ok r → acceptable_signals l ∧ normal_signals l r.
Proof.
  intros H. unfold normalizeSignals in H.
  exact (dedup_sort_ok _ _ _ _ valid_signal equalSignal_spec (λ i x, validateSignal_field _ _ x) _
           signal_order_id l r H).
Qed.

Lemma normalizeSignals_total l : acceptable_signals l → ∃ r, normalizeSignals l = Ok r.
Proof.
  intros Ha. pose proof (dedup_sort_spec sg_SignalID equalSignal
    (λ index value, validateSignal value ("signals[" +:+ itoa index +:+ "]"))
    (λ _ value, MkError ErrorConflictingSignal (sg_SignalID value)) valid_signal equalSignal_spec
    (λ i x, validateSignal_field _ _ x) signal_order signal_order_id l) as H.
  unfold normalizeSignals. destruct (dedup_sort _ _ _ _ _ l); [eauto|done].
Qed.

Lemma normalizeSignals_ext l k r : (∀ x, x ∈ l ↔ x ∈ k) →
  normalizeSignals l = Ok r → normalizeSignals k = Ok r.
Proof.
  unfold normalizeSignals. intros Hlk H.
  exact (dedup_sort_ext _ _ _ _ valid_signal equalSignal_spec (λ i x, validateSignal_field _ _ x) _
           signal_order_id l k r Hlk H).
Qed.

Lemma normalizeSignals_id l : acceptable_signals l → normal_signals l l → normalizeSignals l = Ok l.
Proof.
  intros Ha Hn. unfold normalizeSignals.
  exact (dedup_sort_id _ _ _ _ valid_signal equalSignal_spec (λ i x, validateSignal_field _ _ x) _
           signal_order_id l Ha Hn).
Qed.

(** ** The temporal relation *)

Definition linked (x y : Signal) : Prop :=
  sg_SourceIP x = sg_SourceIP y ∧ is_Some (temporalRelation x y).

Lemma temporalRelation_iff x y : sg_WindowStart x <= sg_WindowEnd x → sg_WindowStart y <= sg_WindowEnd y →
  is_Some (temporalRelation x y) ↔
  sg_WindowStart y <= sg_WindowEnd x + MaximumSignalGap ∧ sg_WindowStart x <= sg_WindowEnd y + MaximumSignalGap.
Proof.
  intros Hx Hy. unfold temporalRelation, intervals_overlap, After, Before, Sub, MaximumSignalGap, Minute, Second.
  destruct (_ && _) eqn:E; breflect; [split; [lia|eauto]|].
  destruct (sg_WindowEnd x <? sg_WindowStart y) eqn:Eb; breflect;
    (destruct (_ <=? _) eqn:Eg; breflect; [split; [lia|eauto]|]);
    (split; [by intros [? ?]|lia]).
Qed.

Lemma linked_sym x y : valid_signal x → valid_signal y → linked x y → linked y x.
Proof.
  intros Hx%valid_window Hy%valid_window [Hs Ht]. split; [done|].
  apply temporalRelation_iff in Ht; [|done..]. apply temporalRelation_iff; lia.
Qed.

(** Connection through members of a set of signals. *)
Definition linked_in (l : list Signal) (x y : Signal) : Prop := x ∈ l ∧ y ∈ l ∧ linked x y.

Definition connected (l : list Signal) : Prop := ∀ x y, x ∈ l → y ∈ l → rtc (linked_in l) x y.

Lemma linked_in_mono l k x y : l ⊆ k → linked_in l x y → linked_in k x y.
Proof. unfold linked_in. set_solver. Qed.

Lemma rtc_linked_mono l k x y : l ⊆ k → rtc (linked_in l) x y → rtc (linked_in k) x y.
Proof. intros Hl. apply rtc_subrel. intros a b. by apply linked_in_mono. Qed.

Lemma connected_snoc l s z : connected l → z ∈ l → linked z s → linked s z → connected (l ++ [s]).
Proof.
  intros Hc Hz H1 H2.
  assert (∀ x, x ∈ l → rtc (linked_in (l ++ [s])) x s) as Hto.
  { intros x Hx. apply rtc_r with z; [apply (rtc_linked_mono l); [set_solver|by apply Hc]|].
    split_and!; [set_solver..|done]. }
  assert (∀ x, x ∈ l → rtc (linked_in (l ++ [s])) s x) as Hfrom.
  { intros x Hx. apply rtc_l with z; [split_and!; [set_solver..|done]|].
    apply (rtc_linked_mono l); [set_solver|by apply Hc]. }
  intros x y Hx Hy. apply elem_of_app in Hx as [Hx|Hx], Hy as [Hy|Hy];
    rewrite ?list_elem_of_singleton in *; subst; auto; [|done].
  apply (rtc_linked_mono l); [set_solver|by apply Hc].
Qed.

(** ** The sweep, without building the groups *)

Fixpoint sweep (component : list Signal) (componentEnd : time) (values : list Signal) : list (list Signal) :=
  match values with
  | [] => [component]
  | signal :: values =>
      if match last component with
         | Some previous => String.eqb (sg_SourceIP signal) (sg_SourceIP previous)
         | None => false
         end && negb (After (sg_WindowStart signal) (componentEnd + MaximumSignalGap))
      then sweep (component ++ [signal])
             (if After (sg_WindowEnd signal) componentEnd then sg_WindowEnd signal else componentEnd) values
      else component :: sweep [signal] (sg_WindowEnd signal) values
  end.

(** A component under construction: one source, [finish] its latest end,
    connected. *)
Record component_ok (src : string) (finish : time) (l : list Signal) : Prop := {
  co_source : ∀ x, x ∈ l → sg_SourceIP x = src;
  co_end : (∀ x, x ∈ l → sg_WindowEnd x <= finish) ∧ ∃ z, z ∈ l ∧ sg_WindowEnd z = finish;
  co_connected : connected l
}.

(** No edge between two components. *)
Definition apart (l k : list Signal) : Prop := ∀ x y, x ∈ l → y ∈ k → ¬ linked x y.

Record swept (input : list Signal) (components : list (list Signal)) : Prop := {
  sw_concat : concat components = input;
  sw_component : Forall (λ c, ∃ src finish, component_ok src finish c) components;
  sw_apart : StronglySorted apart components
}.

Lemma component_ok_single s : component_ok (sg_SourceIP s) (sg_WindowEnd s) [s].
Proof.
  split.
  - set_solver.
  - split; [|exists s; set_solver]. intros x ->%list_elem_of_singleton. lia.
  - intros x y ->%list_elem_of_singleton ->%list_elem_of_singleton. done.
Qed.

Lemma last_source src finish l p : component_ok src finish l → last l = Some p → sg_SourceIP p = src.
Proof. intros [Hs _ _] Hl. apply Hs. by apply last_Some_elem_of. Qed.

Lemma component_ok_snoc src finish l s : component_ok src finish l → Forall valid_signal (l ++ [s]) →
  StronglySorted (cmp_le signal_order) (l ++ [s]) → sg_SourceIP s = src →
  sg_WindowStart s <= finish + MaximumSignalGap →
  component_ok src (if After (sg_WindowEnd s) finish then sg_WindowEnd s else finish) (l ++ [s]).
Proof.
  intros [Hs [He (z & Hz & Hze)] Hc] Hv Hsort Hsrc Hstart. unfold After.
  assert (valid_signal z ∧ valid_signal s) as [Hvz Hvs] by (rewrite Forall_forall in Hv; split; apply Hv; set_solver).
  assert (linked z s) as Hzs.
  { split; [by rewrite Hsrc, (Hs z Hz)|]. apply temporalRelation_iff; [by apply valid_window..|].
    assert (sg_WindowStart z <= sg_WindowStart s) as Hle.
    { apply signal_order_le; [|by rewrite Hsrc, (Hs z Hz)].
      apply (StronglySorted_app_1_elem_of _ l [s]); [done|done|set_solver]. }
    pose proof (valid_window s Hvs). unfold MaximumSignalGap, Minute, Second in *. lia. }
  split.
  - intros x [Hx| ->%list_elem_of_singleton]%elem_of_app; auto.
  - destruct (finish <? sg_WindowEnd s) eqn:E; breflect.
    + split; [|exists s; set_solver]. intros x [Hx| ->%list_elem_of_singleton]%elem_of_app; [|lia].
      specialize (He x Hx). lia.
    + split; [|exists z; set_solver]. intros x [Hx| ->%list_elem_of_singleton]%elem_of_app; [auto|lia].
  - apply (connected_snoc l s z); [done..|]. by apply linked_sym.
Qed.

(** Sorted signals after a break are not linked to the component before it. *)
Lemma break_apart src finish l s vs : component_ok src finish l → Forall valid_signal (l ++ s :: vs) →
  StronglySorted (cmp_le signal_order) (l ++ s :: vs) → l ≠ [] →
  (sg_SourceIP s ≠ src ∨ finish + MaximumSignalGap < sg_WindowStart s) → apart l (s :: vs).
Proof.
  intros [Hs [He _] _] Hv Hsort Hne Hbreak x y Hx Hy [Hsame Ht].
  rewrite Forall_forall in Hv.
  assert (valid_signal x ∧ valid_signal y) as [Hvx Hvy] by (split; apply Hv; set_solver).
  apply temporalRelation_iff in Ht; [|by apply valid_window..].
  assert (cmp_le signal_order x s) as Hxs by (apply (StronglySorted_app_1_elem_of _ l (s :: vs)); [done|done|set_solver]).
  assert (cmp_le signal_order s y) as Hsy.
  { apply StronglySorted_app_1_r, StronglySorted_cons in Hsort as [Hf _]. rewrite Forall_forall in Hf.
    apply elem_of_cons in Hy as [-> | Hy]; [|by apply Hf]. unfold cmp_le. by rewrite (cmp_refl signal_order). }
  apply signal_order_le in Hxs as [Hc1 _], Hsy as [Hc2 Hst].
  assert (sg_SourceIP s = src) as Hsrc.
  { rewrite <-Hsame, (Hs x Hx) in Hc2. rewrite (Hs x Hx) in Hc1.
    apply scompare_eq. by apply (cmp_le_antisym_eq String.compare). }
  destruct Hbreak as [|Hbreak]; [done|]. specialize (He x Hx).
  assert (sg_WindowStart s <= sg_WindowStart y) by (apply Hst; rewrite <-Hsame, (Hs x Hx); done). lia.
Qed.

Lemma sweep_concat l finish vs : concat (sweep l finish vs) = l ++ vs.
Proof.
  revert l finish. induction vs as [|s vs IH]; intros l finish; simpl; [done|].
  destruct (_ && _); simpl; rewrite IH; [by rewrite <-app_assoc|done].
Qed.

Lemma sweep_swept vs : ∀ src finish l, l ≠ [] → component_ok src finish l → Forall valid_signal (l ++ vs) →
  StronglySorted (cmp_le signal_order) (l ++ vs) → swept (l ++ vs) (sweep l finish vs).
Proof.
  induction vs as [|s vs IH]; intros src finish l Hne Hl Hv Hsort.
  { split; [by rewrite sweep_concat|constructor; [eauto|constructor]|repeat constructor]. }
  cbn [sweep]. destruct (last l) as [p|] eqn:El; [|by apply last_None in El].
  rewrite (last_source _ _ _ _ Hl El). destruct (String.eqb _ _ && _) eqn:E; unfold After in E; breflect.
  - rewrite (cons_middle s l vs), app_assoc in Hv, Hsort |- *. destruct E as [Hsrc Hst].
    apply (IH src); [by destruct l| |done|done]. apply component_ok_snoc; try done;
      [by apply Forall_app in Hv as [? _]|by apply StronglySorted_app_1_l in Hsort].
  - pose proof (proj2 (proj1 (Forall_app _ _ _) Hv)) as Hv'.
    pose proof (StronglySorted_app_1_r _ _ _ Hsort) as Hsort'.
    destruct (IH (sg_SourceIP s) (sg_WindowEnd s) [s]) as [Hc Hf Ha]; try done; [apply component_ok_single|].
    split; [by simpl; rewrite Hc|constructor; [eauto|done]|constructor; [done|]].
    apply Forall_forall. intros k Hk x y Hx Hy.
    assert (y ∈ s :: vs) as Hy' by (change (s :: vs) with ([s] ++ vs); rewrite <-Hc; apply elem_of_concat; eauto).
    by apply (break_apart src finish l s vs).
Qed.

(** ** Building the groups *)

Lemma foldl_min (f : Signal → time) l w :
  let r := foldl (λ w s, if f s <? w then f s else w) w l in
  r <= w ∧ (∀ x, x ∈ l → r <= f x) ∧ (r = w ∨ ∃ x, x ∈ l ∧ r = f x).
Proof.
  revert w. induction l as [|s l IH]; intros w; simpl; [split_and!; [lia|set_solver|auto]|].
  destruct (f s <? w) eqn:E; breflect.
  - destruct (IH (f s)) as (H1 & H2 & H3). split_and!; [lia| |set_solver].
    intros x [-> | Hx]%elem_of_cons; [done|auto].
  - destruct (IH w) as (H1 & H2 & H3). split_and!; [lia| |set_solver].
    intros x [-> | Hx]%elem_of_cons; [lia|auto].
Qed.

Lemma foldl_max (f : Signal → time) l w :
  let r := foldl (λ w s, if w <? f s then f s else w) w l in
  w <= r ∧ (∀ x, x ∈ l → f x <= r) ∧ (r = w ∨ ∃ x, x ∈ l ∧ r = f x).
Proof.
  revert w. induction l as [|s l IH]; intros w; simpl; [split_and!; [lia|set_solver|auto]|].
  destruct (w <? f s) eqn:E; breflect.
  - destruct (IH (f s)) as (H1 & H2 & H3). split_and!; [lia| |set_solver].
    intros x [-> | Hx]%elem_of_cons; [done|auto].
  - destruct (IH w) as (H1 & H2 & H3). split_and!; [lia| |set_solver].
    intros x [-> | Hx]%elem_of_cons; [lia|auto].
Qed.

(** What a group says of its signals: the source, and the exact span. *)
Record group_ok (g : Group) : Prop := {
  go_source : ∀ x, x ∈ g_signals g → sg_SourceIP x = g_SourceIP g;
  go_start : (∀ x, x ∈ g_signals g → g_WindowStart g <= sg_WindowStart x) ∧
             ∃ x, x ∈ g_signals g ∧ sg_WindowStart x = g_WindowStart g;
  go_end : (∀ x, x ∈ g_signals g → sg_WindowEnd x <= g_WindowEnd g) ∧
           ∃ x, x ∈ g_signals g ∧ sg_WindowEnd x = g_WindowEnd g;
  go_ids : ∀ id, id ∈ es_signalIDs (g_Snapshot g) ↔ ∃ x, x ∈ g_signals g ∧ sg_SignalID x = id;
  go_evidence : ∀ id, id ∈ es_evidenceEventIDs (g_Snapshot g) ↔ ∃ x, x ∈ g_signals g ∧ id ∈ sg_EvidenceIDs x
}.

(** A list that is valid, of one source, without repeated identifiers and in order. *)
Record group_input (l : list Signal) : Prop := {
  gi_nonempty : l ≠ [];
  gi_valid : Forall valid_signal l;
  gi_source : ∀ x y, x ∈ l → y ∈ l → sg_SourceIP x = sg_SourceIP y;
  gi_ids : NoDup (sg_SignalID <$> l);
  gi_sorted : StronglySorted (cmp_le signal_order) l
}.

Lemma buildGroup_ok l : group_input l → ∃ g, buildGroup l = Ok g ∧ g_signals g = l ∧ group_ok g.
Proof.
  intros [Hne Hv Hs Hids Hsort]. unfold buildGroup, buildEvidenceSnapshot, sortSignals, Before, After.
  destruct l as [|first rest] eqn:El; [done|]. simpl length. rewrite <-El in *. clear Hne. cbn [Nat.eqb].
  assert (normalizeSignals l = Ok l) as Hn.
  { apply normalizeSignals_id; [|by split]. split; [done|].
    intros x y. by apply keys_inj. }
  unfold mbind, result_bind. rewrite Hn, El. rewrite <-El.
  assert (first ∈ l) as Hf by (rewrite El; set_solver).
  rewrite (proj2 (existsb_false _ _)).
  2: { apply Forall_forall. intros x Hx. apply negb_false_iff, String.eqb_eq. by apply Hs. }
  assert (sort_slice signal_order l = l) as Hl.
  { apply (sort_slice_id signal_order); [|done]. intros x y Hx Hy Hc%signal_order_id. by apply (keys_inj sg_SignalID l). }
  eexists. split; [reflexivity|]. simpl. split; [exact Hl|].
  split; simpl; rewrite ?Hl.
  - intros x Hx. by apply Hs.
  - destruct (foldl_min sg_WindowStart l (sg_WindowStart first)) as (_ & H1 & H2). split; [done|].
    destruct H2 as [-> | (x & Hx & ->)]; eauto.
  - destruct (foldl_max sg_WindowEnd l (sg_WindowEnd first)) as (_ & H1 & H2). split; [done|].
    destruct H2 as [-> | (x & Hx & ->)]; eauto.
  - intros id. unfold sortedUnique. rewrite sorted_unique_elem, list_elem_of_fmap. naive_solver.
  - intros id. unfold sortedUnique. rewrite sorted_unique_elem, elem_of_concat.
    setoid_rewrite list_elem_of_fmap. naive_solver.
Qed.

Lemma group_input_sub l k : sublist k l → k ≠ [] → Forall valid_signal l → NoDup (sg_SignalID <$> l) →
  StronglySorted (cmp_le signal_order) l → (∃ src finish, component_ok src finish k) → group_input k.
Proof.
  intros Hsub Hne Hv Hids Hsort (src & finish & [Hs _ _]). split; [done|..].
  - apply Forall_forall. rewrite Forall_forall in Hv. intros x Hx. apply Hv.
    by apply (sublist_subseteq k l).
  - intros x y Hx Hy. by rewrite (Hs x Hx), (Hs y Hy).
  - eapply sublist_NoDup; [exact Hids|]. by apply fmap_sublist.
  - by eapply StronglySorted_sublist.
Qed.

(** A component of a list is part of it. *)
Lemma sublist_concat {A} (c : list A) (cs : list (list A)) : c ∈ cs → sublist c (concat cs).
Proof.
  induction 1 as [c cs|c d cs Hin IH]; simpl; [by apply sublist_inserts_r|].
  by apply sublist_inserts_l.
Qed.

(** The groups of a list of components. *)
Definition groups_of_components (components : list (list Signal)) (groups : list Group) : Prop :=
  Forall2 (λ c g, g_signals g = c ∧ group_ok g) components groups.

Lemma correlate_loop_sweep vs : ∀ l finish acc, Forall group_input (sweep l finish vs) →
  ∃ groups, correlate_loop l finish acc vs = Ok (acc ++ groups) ∧
    groups_of_components (sweep l finish vs) groups.
Proof.
  induction vs as [|s vs IH]; intros l finish acc Hg; cbn [sweep correlate_loop] in *.
  - apply Forall_cons in Hg as [Hg _]. destruct (buildGroup_ok l Hg) as (g & Hb & Hl & Hok).
    unfold mbind, result_bind. rewrite Hb. exists [g]. split; [done|]. by apply Forall2_cons; split; [|apply Forall2_nil].
  - destruct (_ && _); [by apply IH|]. apply Forall_cons in Hg as [Hl Hg].
    destruct (buildGroup_ok l Hl) as (g & Hb & Hs & Hok). unfold mbind, result_bind in *. rewrite Hb.
    destruct (IH [s] (sg_WindowEnd s) (acc ++ [g]) Hg) as (gs & Hgs & Hc).
    exists (g :: gs). rewrite Hgs, <-app_assoc. split; [done|]. by constructor.
Qed.

Lemma sweep_nonempty vs l finish : l ≠ [] → Forall (λ c, c ≠ []) (sweep l finish vs).
Proof.
  revert l finish. induction vs as [|s vs IH]; intros l finish Hl; cbn [sweep]; [by constructor|].
  destruct (_ && _); [apply IH; by destruct l|]. constructor; [done|]. by apply IH.
Qed.

(** Everything [Correlate] establishes, before the groups are sorted. *)
Lemma Correlate_sound signals r : normalizeSignals signals = Ok r →
  ∃ components groups sorted, Correlate signals = Ok sorted ∧ sorted ≡ₚ groups ∧
    swept r components ∧ groups_of_components components groups.
Proof.
  intros Hr. unfold Correlate, mbind, result_bind. rewrite Hr.
  apply normalizeSignals_ok in Hr as [[Hv _] [Hel Hids Hsort]].
  assert (Forall valid_signal r) as Hvr.
  { apply Forall_forall. rewrite Forall_forall in Hv. intros x Hx. by apply Hv, Hel. }
  destruct r as [|first rest].
  { exists [], [], []. split_and!; [done|done|split; [done|constructor|constructor]|constructor]. }
  pose proof (sweep_swept rest (sg_SourceIP first) (sg_WindowEnd first) [first] ltac:(done)
    (component_ok_single first) Hvr Hsort) as Hsw.
  destruct (correlate_loop_sweep rest [first] (sg_WindowEnd first) []) as (gs & Hgs & Hc).
  { destruct Hsw as [Hcon Hco _]. apply Forall_forall. intros c Hc.
    apply (group_input_sub (first :: rest)); try done.
    - change (first :: rest) with ([first] ++ rest). rewrite <-Hcon. by apply sublist_concat.
    - pose proof (sweep_nonempty rest [first] (sg_WindowEnd first) ltac:(done)) as Hne.
      rewrite Forall_forall in Hne. by apply Hne.
    - rewrite Forall_forall in Hco. by apply Hco. }
  rewrite Hgs. eexists _, gs, _. split_and!; [done|apply sort_slice_perm|exact Hsw|exact Hc].
Qed.

(** Paths do not leave a component. *)
Lemma apart_index components i j c k x y : (∀ x y, linked x y → x ∈ concat components → y ∈ concat components → linked y x) →
  StronglySorted apart components → components !! i = Some c → components !! j = Some k →
  x ∈ c → y ∈ k → linked x y → i = j.
Proof.
  intros Hsym Hs Hi Hj Hx Hy Hl.
  assert (∀ i j c k, components !! i = Some c → components !! j = Some k → (i < j)%nat → apart c k) as Hap.
  { clear -Hs. induction Hs as [|d cs Hs IH Hf]; intros i j c k Hi Hj Hij; [done|].
    destruct i as [|i], j as [|j]; simplify_eq/=; try lia.
    - rewrite Forall_forall in Hf. apply Hf. by apply list_elem_of_lookup_2 in Hj.
    - apply (IH i j); [done..|lia]. }
  assert (x ∈ concat components ∧ y ∈ concat components) as [Hxc Hyc].
  { split; apply elem_of_concat; eauto using list_elem_of_lookup_2. }
  destruct (lt_eq_lt_dec i j) as [[Hij| ->]|Hij]; [|done|].
  - by destruct (Hap i j c k Hi Hj Hij x y Hx Hy).
  - by destruct (Hap j i k c Hj Hi Hij y x Hy Hx (Hsym _ _ Hl Hxc Hyc)).
Qed.

Lemma linked_refl x : valid_signal x → linked x x.
Proof.
  intros Hx%valid_window. split; [done|]. apply temporalRelation_iff; [done..|].
  unfold MaximumSignalGap, Minute, Second. lia.
Qed.

(** The component of a signal is closed under paths. *)
Lemma path_component components l i c x y : Forall valid_signal (concat components) →
  l ≡ₚ concat components → StronglySorted apart components → components !! i = Some c → x ∈ c →
  rtc (linked_in l) x y → y ∈ c.
Proof.
  intros Hv Hl Hs Hi Hx Hp.
  assert (∀ x y, linked x y → x ∈ concat components → y ∈ concat components → linked y x) as Hsym.
  { rewrite Forall_forall in Hv. intros a b Hab Ha Hb. apply linked_sym; auto. }
  induction Hp as [|x z y (_ & Hz & Hxz) Hp IH]; [done|]. apply IH.
  rewrite Hl in Hz. apply elem_of_concat in Hz as (k & [j Hj]%list_elem_of_lookup_1 & Hzk).
  assert (i = j) as -> by (by eapply (apart_index components i j c k x z)). congruence.
Qed.

Lemma groups_components components groups :
  groups_of_components components groups → g_signals <$> groups = components.
Proof. induction 1 as [|c g cs gs [<- _] _ IH]; [done|]. by rewrite <-IH. Qed.

Lemma concat_perm {A} (ls ks : list (list A)) : ls ≡ₚ ks → concat ls ≡ₚ concat ks.
Proof.
  induction 1; simpl; [done|by f_equiv| |by etrans].
  by rewrite !app_assoc, (Permutation_app_comm y).
Qed.

Section components.
  Variables (signals r : list Signal) (components : list (list Signal)) (groups sorted : list Group).
  Hypothesis r_ok : normalizeSignals signals = Ok r.
  Hypothesis r_swept : swept r components.
  Hypothesis r_groups : groups_of_components components groups.
  Hypothesis sorted_perm : sorted ≡ₚ groups.

Lemma component_signals g : g ∈ sorted → g_signals g ∈ components ∧ group_ok g.
Proof.
  rewrite sorted_perm. intros [i Hi]%list_elem_of_lookup_1.
  destruct (Forall2_lookup_r _ _ _ _ _ r_groups Hi) as (c & Hc & -> & Hg).
  split; [by eapply list_elem_of_lookup_2|done].
Qed.

Lemma components_valid : Forall valid_signal (concat components).
Proof.
  rewrite (sw_concat _ _ r_swept). apply normalizeSignals_ok in r_ok as [[Hv _] [Hel _ _]].
  apply Forall_forall. rewrite Forall_forall in Hv. intros x Hx. by apply Hv, Hel.
Qed.

Lemma signal_elem x : x ∈ signals ↔ x ∈ concat components.
Proof. rewrite (sw_concat _ _ r_swept). apply normalizeSignals_ok in r_ok as [_ [Hel _ _]]. by rewrite Hel. Qed.

Lemma groups_cover s : s ∈ signals ↔ ∃ g, g ∈ sorted ∧ s ∈ g_signals g.
Proof.
  rewrite signal_elem, elem_of_concat. split.
  - intros (c & [i Hi]%list_elem_of_lookup_1 & Hs).
    destruct (Forall2_lookup_l _ _ _ _ _ r_groups Hi) as (g & Hg & <- & _).
    exists g. rewrite sorted_perm. split; [by eapply list_elem_of_lookup_2|done].
  - intros (g & Hg & Hs). exists (g_signals g). split; [by apply component_signals|done].
Qed.

Lemma groups_ids : NoDup (sg_SignalID <$> concat (g_signals <$> sorted)).
Proof.
  assert (g_signals <$> groups = components) as Hc.
  { by apply groups_components. }
  assert (concat (g_signals <$> sorted) ≡ₚ r) as ->.
  { rewrite <-(sw_concat _ _ r_swept), <-Hc. by apply concat_perm, fmap_Permutation. }
  by apply normalizeSignals_ok in r_ok as [_ [_ Hids _]].
Qed.

Lemma linked_in_same x y : rtc (linked_in signals) x y ↔ rtc (linked_in (concat components)) x y.
Proof.
  split; apply rtc_subrel; intros a b (Ha & Hb & H); split_and!; try done; by apply signal_elem.
Qed.

Lemma same_group g h x y : g ∈ sorted → h ∈ sorted → x ∈ g_signals g → y ∈ g_signals h →
  (g = h ↔ rtc (linked_in signals) x y).
Proof.
  intros Hg Hh Hx Hy. pose proof components_valid as Hv. rewrite linked_in_same. split.
  - intros <-. destruct (component_signals g Hg) as [Hc _].
    destruct r_swept as [_ Hcomp _]. rewrite Forall_forall in Hcomp.
    destruct (Hcomp _ Hc) as (src & fin & [_ _ Hcon]).
    apply (rtc_linked_mono (g_signals g)); [|by apply Hcon].
    intros z Hz. apply elem_of_concat. eauto.
  - intros Hp. rewrite sorted_perm in Hg, Hh.
    apply list_elem_of_lookup_1 in Hg as [i Hi], Hh as [j Hj].
    destruct (Forall2_lookup_r _ _ _ _ _ r_groups Hi) as (c & Hc & <- & _).
    destruct (Forall2_lookup_r _ _ _ _ _ r_groups Hj) as (k & Hk & <- & _).
    pose proof (sw_apart _ _ r_swept) as Hs.
    assert (y ∈ g_signals g) as Hyg.
    { by eapply (path_component components (concat components) i (g_signals g) x y). }
    assert (i = j) as ->; [|congruence].
    assert (∀ x y, linked x y → x ∈ concat components → y ∈ concat components → linked y x) as Hsym.
    { rewrite Forall_forall in Hv. intros a b Hab Ha Hb. apply linked_sym; auto. }
    eapply (apart_index components i j _ _ y y); try done. apply linked_refl.
    rewrite Forall_forall in Hv. apply Hv, elem_of_concat. eauto using list_elem_of_lookup_2.
Qed.

End components.

(** ** Sample signals *)

Definition sample_ids : list string :=
  (λ i, "00000000-0000-4000-8000-00000000000" +:+ itoa i) <$> [1; 2; 3; 4; 5; 6; 7; 8].

(** A path-scan signal of [source] whose window ends [offset] after the clock. *)
Definition sample_signal (source : string) (offset : Z) : Signal :=
  buildSignal sample_detector RulePathScan ClassificationPathScan (source, "shop")
    (sample_now + offset - Minute) (sample_now + offset) (MkMetrics 8 8 0) sample_ids.

(** Three windows of one source chained by gaps of five minutes, one far away,
    and one of another source. *)
Definition sample_signals : list Signal := Eval vm_compute in
  [sample_signal "203.0.113.20" 0; sample_signal "203.0.113.20" (12 * Minute);
   sample_signal "203.0.113.20" (6 * Minute); sample_signal "203.0.113.20" (40 * Minute);
   sample_signal "203.0.113.21" 0].

Definition sample_groups : list Group := Eval vm_compute in
  from_ok [] (Correlate sample_signals).

Example sample_correlated :
  (length ∘ g_signals <$> sample_groups) = [3%nat; 1%nat; 1%nat].
Proof. vm_compute. reflexivity. Qed.

(** The signals of a group of [Correlate] are input for [buildGroup] again. *)
Lemma Correlate_group_input signals groups g : Correlate signals = Ok groups → g ∈ groups →
  group_input (g_signals g).
Proof.
  intros H Hg. destruct (normalizeSignals signals) as [r|e] eqn:Hr.
  2: { unfold Correlate, mbind, result_bind in H. rewrite Hr in H. discriminate H. }
  destruct (Correlate_sound signals r Hr) as (cs & gs & sorted & Hc & Hp & Hsw & Hgs).
  rewrite H in Hc. injection Hc as <-.
  destruct (component_signals cs gs groups Hgs Hp g Hg) as [Hin Hok].
  pose proof (normalizeSignals_ok _ _ Hr) as [[Hv _] [Hel Hids Hsort]].
  eapply (group_input_sub r); [rewrite <-(sw_concat _ _ Hsw); by apply sublist_concat| | |done|done|].
  - destruct (go_start _ Hok) as (_ & x & Hx & _). intros He. rewrite He in Hx. by apply not_elem_of_nil in Hx.
  - apply Forall_forall. rewrite Forall_forall in Hv. intros x Hx. by apply Hv, Hel.
  - pose proof (sw_component _ _ Hsw) as Hall. rewrite Forall_forall in Hall. by apply Hall.
Qed.

(** ** Claims *)

(** C8. [Correlate] computes connected components: every input signal is in
    exactly one group and no identifier occurs twice; a group has one source,
    spans exactly its signals' windows and lists exactly their identifiers and
    evidence; and two signals are in the same group exactly when a chain of
    input signals of one source, each overlapping or within five minutes of the
    next, joins them. *)
Theorem Correlate_components signals groups : Correlate signals = Ok groups →
  (∀ s, s ∈ signals ↔ ∃ g, g ∈ groups ∧ s ∈ g_signals g) ∧
  NoDup (sg_SignalID <$> concat (g_signals <$> groups)) ∧
  Forall group_ok groups ∧
  (∀ g h x y, g ∈ groups → h ∈ groups → x ∈ g_signals g → y ∈ g_signals h →
    (g = h ↔ rtc (linked_in signals) x y)).
Proof.
  intros H. destruct (normalizeSignals signals) as [r|e] eqn:Hr.
  2: { unfold Correlate, mbind, result_bind in H. by rewrite Hr in H. }
  destruct (Correlate_sound signals r Hr) as (cs & gs & sorted & Hc & Hp & Hs & Hg).
  rewrite Hc in H. injection H as ->. split_and!.
  - intros s. by eapply groups_cover.
  - by eapply groups_ids.
  - apply Forall_forall. intros g Hgs. by eapply component_signals.
  - intros g h x y. by eapply same_group.
Qed.

Lemma Correlate_components_witness :
  Correlate sample_signals = Ok sample_groups ∧ Forall group_ok sample_groups.
Proof.
  assert (Correlate sample_signals = Ok sample_groups) as H by (vm_compute; reflexivity).
  split; [exact H|]. apply (Correlate_components _ _ H).
Defined.

(** [Correlate] accepts exactly the batches of valid signals in which no
    identifier stands for two different signals, and its result depends only on
    the set of signals, not on their order or repetition. *)
Theorem Correlate_order_independent signals :
  ((∃ groups, Correlate signals = Ok groups) ↔ acceptable_signals signals) ∧
  (∀ others groups, (∀ s, s ∈ signals ↔ s ∈ others) →
    Correlate signals = Ok groups → Correlate others = Ok groups).
Proof.
  split; [split|].
  - intros [groups H]. unfold Correlate in H. inv_bind H. by apply normalizeSignals_ok in Hbind as [? _].
  - intros [r Hr]%normalizeSignals_total.
    destruct (Correlate_sound signals r Hr) as (_ & _ & sorted & Hc & _). eauto.
  - intros others groups Hso H. unfold Correlate in *. inv_bind H.
    apply (normalizeSignals_ext signals others) in Hbind; [|done].
    unfold mbind, result_bind in *. by rewrite Hbind.
Qed.
