(* ===== verification/SignalContract.v ===== *)
(** * The contract between detection and correlation

    Correlation refuses any signal that does not reproduce its rule.  Here the
    detector is shown to emit only signals correlation accepts. *)

From S2P Require Import Prelude GoSort Dedup GoStrings Regex Sha256 GoTime Netip Policy PolicySpec.
From S2P Require Import ResponsePolicy Detection DetectionSpec Correlation CorrelationSpec.
Local Open Scope Z_scope.

(** What one side promises the other about a signal. *)
Class SignalContract (produced : Signal → Prop) : Prop :=
  contract : ∀ s, produced s → valid_signal s.

(** ** Identifiers *)

Lemma alter_byte i (f : Z → Z) l : (∀ b, is_byte b → is_byte (f b)) → Forall is_byte l → Forall is_byte (alter f i l).
Proof.
  intros Hf Hl. revert i. induction Hl as [|b l Hb Hl IH]; intros [|i]; simpl; try done.
  - by constructor; [apply Hf|].
  - constructor; [done|apply IH].
Qed.

Lemma land_lor_byte k b : 0 <= k <= 6 → is_byte (Z.lor (Z.land b (Z.ones k)) 128).
Proof.
  intros Hk. unfold is_byte. rewrite Z.land_ones by lia.
  assert (0 <= b mod 2 ^ k < 2 ^ k) as Hb by (apply Z.mod_pos_bound; lia).
  assert (2 ^ k <= 2 ^ 6) as Hp by (apply Z.pow_le_mono_r; lia).
  split; [apply Z.lor_nonneg; lia|].
  apply Z.log2_lt_cancel. rewrite Z.log2_lor by lia. change (Z.log2 256) with 8. change (Z.log2 128) with 7.
  assert (Z.log2 (b mod 2 ^ k) <= Z.log2 64) by (apply Z.log2_le_mono; lia).
  change (Z.log2 64) with 6 in *. lia.
Qed.

Lemma hex_piece l n : Forall is_byte l → length l = n →
  item_ok (exactly (2 * n) is_lower_hex) (chars (hex_of_bytes l)).
Proof.
  intros Hb <-. split; [rewrite hex_of_bytes_length; lia|]. by apply hex_of_bytes_lower.
Qed.

(** Sixteen bytes in the layout of a UUID. *)
Lemma uuid_layout bytes : length bytes = 16%nat → Forall is_byte bytes →
  match_string uuid_pattern (hex_of_bytes (take 4 bytes) +:+ "-" +:+ hex_of_bytes (take 2 (drop 4 bytes)) +:+ "-"
    +:+ hex_of_bytes (take 2 (drop 6 bytes)) +:+ "-" +:+ hex_of_bytes (take 2 (drop 8 bytes)) +:+ "-" +:+ hex_of_bytes (drop 10 bytes)) = true.
Proof.
  intros Hlen Hby. apply match_string_spec. rewrite !chars_app.
  exists [chars (hex_of_bytes (take 4 bytes)); chars "-"; chars (hex_of_bytes (take 2 (drop 4 bytes))); chars "-";
    chars (hex_of_bytes (take 2 (drop 6 bytes))); chars "-"; chars (hex_of_bytes (take 2 (drop 8 bytes)));
    chars "-"; chars (hex_of_bytes (drop 10 bytes))].
  split; [|cbn [concat]; by rewrite app_nil_r].
  repeat (apply Forall2_cons; split); [..|apply Forall2_nil]; try done.
  - apply (hex_piece _ 4); [by apply Forall_take|rewrite length_take; lia].
  - apply (hex_piece _ 2); [by apply Forall_take, Forall_drop|rewrite length_take, length_drop; lia].
  - apply (hex_piece _ 2); [by apply Forall_take, Forall_drop|rewrite length_take, length_drop; lia].
  - apply (hex_piece _ 2); [by apply Forall_take, Forall_drop|rewrite length_take, length_drop; lia].
  - apply (hex_piece _ 6); [by apply Forall_drop|rewrite length_drop; lia].
Qed.

Lemma uuidV8_is_uuid sum : length sum = 32%nat → Forall is_byte sum → is_uuid (uuidV8FromDigest sum) = true.
Proof.
  intros Hl Hb. unfold is_uuid, uuidV8FromDigest, set_byte. apply uuid_layout; [rewrite !length_alter, length_take; lia|].
  apply alter_byte; [intros b _; by apply (land_lor_byte 6)|].
  apply alter_byte; [intros b _; by apply (land_lor_byte 4)|]. by apply Forall_take.
Qed.

Lemma evidence_error_none f ids : ∀ prev, Forall (λ id, is_uuid id = true) ids → StronglySorted str_lt ids →
  match prev with Some p => Forall (str_lt p) ids | None => True end → evidence_error f prev ids = None.
Proof.
  induction ids as [|id ids IH]; intros prev Hu Hs Hp; simpl; [done|].
  apply Forall_cons in Hu as [-> Hu]. apply StronglySorted_cons in Hs as [Hf Hs]. simpl.
  assert (match prev with Some p => negb (String.ltb p id) | None => false end = false) as ->; [|by apply IH].
  destruct prev as [p|]; [|done]. apply Forall_cons in Hp as [Hp _].
  apply negb_false_iff. by apply ltb_compare.
Qed.

(** ** Signals the detector builds *)

Lemma buildSignal_valid d rule cls key start finish metrics ids :
  validRuleClassification rule cls = true →
  match_string version_pattern (cf_Version (d_config d)) = true →
  is_digest (d_configDigest d) = true →
  validateCanonicalIPv4 key.1 = true → match_string label_pattern key.2 = true →
  0 < start → start <= finish →
  1 <= m_EventCount metrics <= 1000000 → 0 <= m_DistinctAccountCount metrics <= 1000000 →
  0 <= m_DistinctSuspiciousPathCount metrics <= 8 → metricsReproduceRule rule metrics = true →
  Forall (λ id, is_uuid id = true) ids → NoDup ids → Z.of_nat (length ids) = m_EventCount metrics →
  valid_signal (buildSignal d rule cls key start finish metrics ids).
Proof.
  intros Hrc Hv Hd Hip Hla Hs Hf He Ha Hp Hm Hu Hnd Hl. unfold valid_signal, validateSignal, buildSignal.
  cbn [sg_SignalID sg_RuleID sg_Classification sg_ConfigurationVersion sg_ConfigurationDigest sg_SourceIP
    sg_ServiceLabel sg_WindowStart sg_WindowEnd sg_Metrics sg_EvidenceIDs sg_EvidenceDigest sg_Digest
    sg_SourceHealthStatus].
  assert (length (sortedUniqueStrings ids) = length ids) as Hlen
    by (unfold sortedUniqueStrings; by rewrite (sorted_unique_perm_NoDup _ Hnd)).
  rewrite uuidV8_is_uuid by auto using sha256_length, sha256_bytes.
  rewrite Hrc, Hv, Hd, Hip, Hla, Hm. unfold IsZero, Before.
  repeat match goal with |- context [?a <? ?b] => rewrite (proj2 (Z.ltb_ge a b)) by lia end.
  repeat match goal with |- context [?a =? 0] => rewrite (proj2 (Z.eqb_neq a 0)) by lia end.
  rewrite Hlen, Hl, Z.eqb_refl. rewrite (proj2 (Nat.eqb_neq (length ids) 0)) by lia.
  rewrite evidence_error_none; [|..|done].
  - unfold is_digest, digestEvidenceIDs, sha256Digest. by rewrite !digest_matches.
  - apply Forall_forall. rewrite Forall_forall in Hu. intros id Hid. apply Hu.
    unfold sortedUniqueStrings in Hid. by rewrite sorted_unique_elem in Hid.
  - apply sorted_unique_sorted.
Qed.

(** ** Events the detector accepts *)

Record common_ok (id : string) (key : string * string) : Prop := {
  ck_id : is_uuid id = true;
  ck_ip : validateCanonicalIPv4 key.1 = true;
  ck_label : match_string label_pattern key.2 = true
}.

Lemma common_guards_ok id at' ip label route rest :
  common_guards id at' ip label route rest = None → common_ok id (ip, label) ∧ rest = None.
Proof.
  unfold common_guards. intros H.
  repeat match type of H with (if ?b then _ else _) = _ => destruct b eqn:? in H; [done|] end.
  breflect. by repeat split.
Qed.

Lemma gateway_check_ok config e : gateway_check config e = None →
  common_ok (ge_EventID e) (ge_SourceIP e, ge_ServiceLabel e) ∧ validSuspiciousPathID (ge_SuspiciousPathID e) = true.
Proof.
  intros [Hc H]%common_guards_ok. split; [done|].
  repeat match type of H with (if ?b then _ else _) = _ => destruct b eqn:? in H; [done|] end. by breflect.
Qed.

Lemma auth_check_ok e : auth_check e = None → common_ok (ae_EventID e) (ae_SourceIP e, ae_ServiceLabel e).
Proof. by intros [Hc _]%common_guards_ok. Qed.

(** ** Counting *)

Lemma size_list_to_set_le (l : list string) : (size (list_to_set (C := gset string) l) ≤ length l)%nat.
Proof.
  induction l as [|x l IH]; simpl; [done|].
  destruct (decide (x ∈ list_to_set (C := gset string) l)) as [Hx|Hx].
  - replace ({[x]} ∪ list_to_set l) with (list_to_set (C := gset string) l) by set_solver. lia.
  - rewrite size_union by set_solver. rewrite size_singleton. lia.
Qed.

Lemma length_omap_le {A B} (f : A → option B) (l : list A) : (length (omap f l) ≤ length l)%nat.
Proof. induction l as [|x l IH]; csimpl; [done|]. destruct (f x); csimpl; lia. Qed.

Section rule_signals.
  Context {A} {DE : DetectorEvent A} {LE : LawfulEvent A}.
  Variables (v : A → verdict) (value : A → option string).

(** Distinct values come from distinct events. *)
Lemma value_count_le_event_count (l : list A) : (∀ x y, x ∈ l → y ∈ l → ev_id x = ev_id y → x = y) →
  value_count v value l <= event_count v l.
Proof.
  intros Hinj. set (k := remove_dups (counted v l)).
  assert (∀ x, x ∈ counted v l ↔ x ∈ k) as Hk by (intros x; unfold k; by rewrite elem_of_remove_dups).
  assert (list_to_set (C := gset string) (ev_id <$> counted v l) = list_to_set (ev_id <$> k)) as He.
  { apply leibniz_equiv. intros id. rewrite !elem_of_list_to_set, !list_elem_of_fmap. by setoid_rewrite Hk. }
  assert (list_to_set (C := gset string) (omap value (counted v l)) = list_to_set (omap value k)) as Hv.
  { apply leibniz_equiv. intros id. rewrite !elem_of_list_to_set, !list_elem_of_omap. by setoid_rewrite Hk. }
  unfold value_count, event_count. rewrite He, Hv.
  rewrite (size_list_to_set (ev_id <$> k)).
  - rewrite length_fmap. pose proof (size_list_to_set_le (omap value k)). pose proof (length_omap_le value k). lia.
  - apply NoDup_fmap_2_strong; [|apply NoDup_remove_dups].
    intros x y [_ Hx]%Hk%counted_elem [_ Hy]%Hk%counted_elem. by apply Hinj.
Qed.

Lemma event_count_le_length (l : list A) : event_count v l <= Z.of_nat (length l).
Proof.
  unfold event_count. pose proof (size_list_to_set_le (ev_id <$> counted v l)) as H.
  rewrite length_fmap in H. unfold counted in *.
  pose proof (length_filter (λ x, v x = Counted) l). lia.
Qed.

Context (start finish : time) (complete : bool) (met : Z → Z → bool).
Context (d : Detector) (rule cls : string) (observed : Z → Z → Metrics).
Context (events : list A) (evs : list RuleEvaluation).
Hypothesis spec : rule_spec v value start finish complete met d rule cls observed events evs.
Hypothesis accepted : acceptable ev_id event_valid events.
Hypothesis event_ok : ∀ e, event_valid e → common_ok (ev_id e) (ev_group e).
Hypothesis bounded : Z.of_nat (length events) <= 1000000.
Hypothesis classified : validRuleClassification rule cls = true.
Hypothesis version_ok : match_string version_pattern (cf_Version (d_config d)) = true.
Hypothesis digest_ok : is_digest (d_configDigest d) = true.
Hypothesis window_ok : 0 < start ∧ start <= finish.

(** The thresholds reproduce the rule: what each rule has to show. *)
Hypothesis reproduces : ∀ l, l ⊆ events →
  let n := event_count v l in let m := value_count v value l in
  met n m = true → 0 <= m <= n → n <= 1000000 →
  m_EventCount (observed n m) = n ∧ 1 <= n ∧
  0 <= m_DistinctAccountCount (observed n m) <= 1000000 ∧
  0 <= m_DistinctSuspiciousPathCount (observed n m) <= 8 ∧
  metricsReproduceRule rule (observed n m) = true.

Lemma rule_signals_valid ev s : ev ∈ evs → re_Signal ev = Some s → valid_signal s.
Proof.
  intros Hev Hs. destruct accepted as [Hval Hinj]. rewrite Forall_forall in Hval.
  destruct (rs_decision _ _ _ _ _ _ _ _ _ _ _ _ spec ev Hev) as (Hd & _ & Hsig).
  destruct (rs_signal _ _ _ _ _ _ _ _ _ _ _ _ spec ev s Hev Hs) as [-> Hsorted Hids Hcount].
  set (l := mine start finish events (re_Group ev)) in *.
  assert (l ⊆ events) as Hle by (unfold l, mine; intros x Hx; by apply list_elem_of_filter in Hx as [_ ?]).
  assert (length l ≤ length events)%nat as Hll by (unfold l, mine; apply length_filter).
  destruct (proj1 Hd) as (_ & _ & Hmet); [apply Hsig; by rewrite Hs|].
  pose proof (event_count_le_length l) as Hn.
  assert (value_count v value l <= event_count v l) as Hvm.
  { apply value_count_le_event_count. intros x y Hx Hy. apply Hinj; by apply Hle. }
  destruct (reproduces l Hle Hmet) as (Hec & H1 & Ha & Hp & Hrep); [unfold value_count in *; lia|lia|].
  assert (∃ e, e ∈ l) as [e He].
  { destruct (proj1 (rs_groups _ _ _ _ _ _ _ _ _ _ _ _ spec (re_Group ev))) as (e & He & Hw).
    - apply list_elem_of_fmap. eauto.
    - exists e. by apply list_elem_of_filter. }
  assert (ev_group e = re_Group ev) as Hgrp by (by apply list_elem_of_filter in He as [[_ ?] _]).
  destruct (event_ok e) as [_ Hip Hla]; [by apply Hval, Hle|]. rewrite Hgrp in Hip, Hla.
  assert (buildSignal d rule cls (re_Group ev) start finish (observed (event_count v l) (value_count v value l))
            (ev_id <$> counted v l) =
          buildSignal d rule cls (re_Group ev) start finish (observed (event_count v l) (value_count v value l))
            (ev_id <$> counted v (remove_dups l))) as ->.
  { apply buildSignal_ext; [done|]. intros id. rewrite !list_elem_of_fmap. setoid_rewrite counted_elem.
    by setoid_rewrite elem_of_remove_dups. }
  assert (NoDup (ev_id <$> remove_dups l)) as Hnd.
  { apply NoDup_fmap_2_strong; [|apply NoDup_remove_dups]. intros x y. rewrite !elem_of_remove_dups.
    intros Hx Hy. apply Hinj; by apply Hle. }
  apply buildSignal_valid; try done; [by destruct window_ok|by destruct window_ok|lia| |..].
  - apply Forall_fmap, Forall_forall. intros x [_ Hx]%counted_elem.
    rewrite elem_of_remove_dups in Hx. by apply event_ok, Hval, Hle.
  - eapply sublist_NoDup; [exact Hnd|]. apply fmap_sublist, sublist_filter.
  - rewrite Hec, <-event_count_length by done. apply event_count_ext. intros x. by rewrite elem_of_remove_dups.
Qed.

End rule_signals.

(** ** The four rules keep the contract *)

(** A detector [New] returns: the frozen thresholds and a well-formed
    configuration identity. *)
Record detector_ok (d : Detector) : Prop := {
  do_version : match_string version_pattern (cf_Version (d_config d)) = true;
  do_digest : is_digest (d_configDigest d) = true;
  do_path_scan : cf_PathScanThreshold (d_config d) = PathScanThreshold ∧ cf_PathScanWindow (d_config d) = PathScanWindow;
  do_burst : cf_RequestBurstThreshold (d_config d) = RequestBurstThreshold
             ∧ cf_RequestBurstWindow (d_config d) = RequestBurstWindow;
  do_login : cf_LoginBruteForceThreshold (d_config d) = LoginBruteForceThreshold
             ∧ cf_LoginBruteForceWindow (d_config d) = LoginBruteForceWindow;
  do_stuffing : cf_CredentialStuffingEventThreshold (d_config d) = CredentialStuffingEventThreshold
                ∧ cf_CredentialStuffingAccountThreshold (d_config d) = CredentialStuffingAccountThreshold
                ∧ cf_CredentialStuffingWindow (d_config d) = CredentialStuffingWindow
}.

Lemma New_ok config d : New config = Some d → detector_ok d.
Proof.
  unfold New. destruct (validateAndNormalizeConfig config) as [c|] eqn:E; [|done].
  intros H. apply Some_inj in H as <-. unfold validateAndNormalizeConfig in E.
  repeat match type of E with (if ?b then None else _) = _ => destruct b eqn:? in E; [discriminate E|] end.
  apply Some_inj in E as <-.
  breflect. destruct_and?. split; cbn [d_config d_configDigest cf_Version set_SuspiciousPathIDs cf_PathScanThreshold
    cf_PathScanWindow cf_RequestBurstThreshold cf_RequestBurstWindow cf_LoginBruteForceThreshold
    cf_LoginBruteForceWindow cf_CredentialStuffingEventThreshold cf_CredentialStuffingAccountThreshold
    cf_CredentialStuffingWindow]; try (by split_and?). apply digest_matches.
Qed.

Lemma normalizeInput_accepts a config r : normalizeInput a config = Ok r →
  acceptable (ev_id (DetectorEvent := gateway_event config)) (event_valid (DE := gateway_event config)) (in_GatewayEvents a) ∧
  acceptable ev_id event_valid (in_AuthEvents a).
Proof.
  intros H. unfold normalizeInput, normalizeGatewayEvents, normalizeAuthEvents in *.
  pass_guards H. do 4 inv_bind H.
  by apply normalizeEvents_ok in Hbind as [? _], Hbind0 as [? _].
Qed.

Lemma gateway_event_ok config e : event_valid (DE := gateway_event config) e →
  common_ok (ev_id (DetectorEvent := gateway_event config) e) (ev_group (DetectorEvent := gateway_event config) e).
Proof. intros H. by apply (gateway_check_ok config). Qed.

(** At most the eight catalogued paths are distinct. *)
Lemma path_values_bound config (l : list GatewayEvent) :
  Forall (event_valid (DE := gateway_event config)) l →
  value_count path_scan_verdict (λ e, Some (ge_SuspiciousPathID e)) l <= 8.
Proof.
  intros Hv. unfold value_count.
  assert (list_to_set (C := gset string) (omap (λ e, Some (ge_SuspiciousPathID e)) (counted path_scan_verdict l))
          ⊆ list_to_set defaultSuspiciousPathIDs) as Hs.
  { intros p. rewrite !elem_of_list_to_set, list_elem_of_omap. intros (e & [Hc He]%counted_elem & [= <-]).
    rewrite Forall_forall in Hv. specialize (Hv e He). apply gateway_check_ok in Hv as [_ Hp].
    unfold validSuspiciousPathID in Hp. apply existsb_exists in Hp as (q & Hq & Heq%String.eqb_eq).
    unfold path_scan_verdict in Hc. rewrite Heq in Hc |- *. destruct (String.eqb q SuspiciousPathNone) eqn:E; [done|].
    destruct Hq as [<- | Hq]; [done|]. by apply list_elem_of_In. }
  apply subseteq_size in Hs. change 8 with (Z.of_nat 8).
  etrans; [apply Nat2Z.inj_le; exact Hs|]. vm_compute. done.
Qed.

(** Every signal of an output. *)
Definition output_signals (out : Output) : list Signal :=
  omap re_Signal (out_PathScan out ++ out_RequestBurst out ++ out_LoginBruteForce out ++ out_CredentialStuffing out).

(** The thresholds of [metricsReproduceRule], from the bounds in context. *)
Ltac reproduce :=
  unfold metricsReproduceRule, PathScanThreshold, RequestBurstThreshold, LoginBruteForceThreshold,
    CredentialStuffingEventThreshold, CredentialStuffingAccountThreshold; cbn;
  rewrite ?andb_true_r; rewrite ?andb_true_iff, ?Z.leb_le, ?Z.eqb_eq; lia.

Lemma output_signals_valid d input out s : detector_ok d → Evaluate d input = Ok out → Hour < in_Now input →
  Z.of_nat (length (in_GatewayEvents input)) <= 1000000 → Z.of_nat (length (in_AuthEvents input)) <= 1000000 →
  s ∈ output_signals out → valid_signal s.
Proof.
  intros [Hver Hdig [Hp Hpw] [Hb Hbw] [Hl Hlw] (Hs & Hsa & Hsw)] H Hnow Hg Ha Hin.
  assert (∃ ev, re_Signal ev = Some s ∧ (ev ∈ out_PathScan out ∨ ev ∈ out_RequestBurst out ∨
    ev ∈ out_LoginBruteForce out ∨ ev ∈ out_CredentialStuffing out)) as (ev & Hsig & Hev).
  { apply list_elem_of_omap in Hin as (ev & Hev & Hsig). exists ev. rewrite !elem_of_app in Hev. tauto. }
  unfold Evaluate in H. inv_bind H. injection H as <-. simpl in Hev. rename a into n.
  destruct (normalizeInput_facts _ _ _ Hbind) as (Hn & Hgn & Han & _).
  destruct (normalizeInput_accepts _ _ _ Hbind) as [Hga Haa]. rewrite <-Hn in Hnow.
  unfold Hour, Minute, Second in Hnow.
  destruct Hev as [Hev|[Hev|[Hev|Hev]]].
  - apply (rule_signals_valid (DE := gateway_event (d_config d)) _ _ _ _ _ _ _ _ _ _ _ _
      (path_scan_correct d input n Hgn) Hga) with (ev := ev); try done; [apply gateway_event_ok| |].
    + rewrite Hpw. unfold PathScanWindow, Second. lia.
    + intros l Hle ? ? Hmet Hm Hn'. rewrite Hp in Hmet. unfold PathScanThreshold in *. apply Z.leb_le in Hmet.
      assert (m <= 8) as Hm8.
      { apply (path_values_bound (d_config d)). apply Forall_forall. intros e He.
        destruct Hga as [Hga _]. rewrite Forall_forall in Hga. by apply Hga, Hle. }
      cbn. split_and!; try lia. reproduce.
  - apply (rule_signals_valid (DE := gateway_event (d_config d)) _ _ _ _ _ _ _ _ _ _ _ _
      (request_burst_correct d input n Hgn) Hga) with (ev := ev); try done; [apply gateway_event_ok| |].
    + rewrite Hbw. unfold RequestBurstWindow, Second. lia.
    + intros l Hle ? ? Hmet Hm Hn'. rewrite Hb in Hmet. unfold RequestBurstThreshold in *. apply Z.leb_le in Hmet.
      cbn. split_and!; try lia. reproduce.
  - apply (rule_signals_valid (DE := gateway_event (d_config d)) _ _ _ _ _ _ _ _ _ _ _ _
      (login_correct d input n Hgn) Hga) with (ev := ev); try done; [apply gateway_event_ok| |].
    + rewrite Hlw. unfold LoginBruteForceWindow, Second. lia.
    + intros l Hle ? ? Hmet Hm Hn'. rewrite Hl in Hmet. unfold LoginBruteForceThreshold in *. apply Z.leb_le in Hmet.
      cbn. split_and!; try lia. reproduce.
  - apply (rule_signals_valid _ _ _ _ _ _ _ _ _ _ _ _ (stuffing_correct d input n Han) Haa) with (ev := ev); try done.
    + intros e He. by apply auth_check_ok.
    + rewrite Hsw. unfold CredentialStuffingWindow, Minute, Second. lia.
    + intros l Hle ? ? Hmet Hm Hn'. rewrite Hs, Hsa in Hmet.
      unfold CredentialStuffingEventThreshold, CredentialStuffingAccountThreshold in *.
      apply andb_true_iff in Hmet as [He Hac]. apply Z.leb_le in He, Hac.
      cbn. split_and!; try lia. reproduce.
Qed.

(** ** The interface, from both sides *)

(** Signals that come out of an evaluation by a detector [New] returned, with
    at most a million events of each kind and a clock past the first hour. *)
Definition detected (s : Signal) : Prop := ∃ config d input out,
  New config = Some d ∧ Evaluate d input = Ok out ∧ Hour < in_Now input ∧
  Z.of_nat (length (in_GatewayEvents input)) <= 1000000 ∧ Z.of_nat (length (in_AuthEvents input)) <= 1000000 ∧
  s ∈ output_signals out.

Global Instance detector_contract : SignalContract detected.
Proof.
  intros s (config & d & input & out & Hd & He & Hn & Hg & Ha & Hs).
  by eapply output_signals_valid; [eapply New_ok| | | | |].
Qed.



