(* ===== verification/Incident.v ===== *)
(** * The incident aggregate ([internal/correlation/lifecycle.go], [lifecycle_types.go])

    An immutable value: every operation names the revision it was decided on,
    is recorded under its command identifier, and returns a new aggregate. *)

From S2P Require Import Prelude GoSort Dedup GoStrings Regex Sha256 GoTime Netip ResponsePolicy.
From S2P Require Import Detection Correlation.
Local Open Scope Z_scope.

Inductive IncidentState :=
| IncidentOpen | IncidentAnalyzing | IncidentReviewReady | IncidentAnalysisFailed | IncidentClosed.

Global Instance IncidentState_eq_dec : EqDecision IncidentState.
Proof. solve_decision. Defined.

(** Failure reasons are strings; [""] is none. *)
Definition retryable_reasons : list string :=
  ["network_error"; "http_408"; "http_409"; "rate_limited"; "server_error"].

Definition terminal_reasons : list string :=
  ["budget_exhausted"; "input_too_large"; "timeout"; "refused"; "incomplete"; "schema_invalid";
   "evidence_invalid"; "unsupported_action"; "cancelled"; "configuration_error"].

Inductive RetryClassification := RetryOnceWithBoundedJitter | RetryTerminal.

Definition ClassifyAnalysisFailure (reason : string) : result Error RetryClassification :=
  if existsb (String.eqb reason) retryable_reasons then Ok RetryOnceWithBoundedJitter
  else if existsb (String.eqb reason) terminal_reasons then Ok RetryTerminal
  else Err (MkError ErrorInvalidInput "analysis_failure_reason").

Record Command := MkCommand { c_ID : string; c_ExpectedRevision : Z; c_At : time }.

Inductive TransitionDisposition := TransitionApplied | TransitionIdempotentDuplicate.

Record TransitionResult := MkTransitionResult {
  tr_Disposition : TransitionDisposition;
  tr_AppliedRevision : Z;
  tr_CurrentRevision : Z
}.

Inductive RouteDisposition := RouteAppended | RouteReopened | RouteNewIncident | RouteDuplicateSignal.

Record commandRecord := MkCommandRecord { cr_id : string; cr_fingerprint : string; cr_appliedRevision : Z }.

Record Incident := MkIncident {
  i_id : string;
  i_version : Z;
  i_revision : Z;
  i_state : IncidentState;
  i_createdAt : time;
  i_updatedAt : time;
  i_lastSignalAt : time;
  i_closedAt : time;
  i_failureReason : string;
  i_analysisAttempts : Z;
  i_snapshot : EvidenceSnapshot;
  i_signals : list Signal;
  i_relations : list Relation;
  i_commands : list commandRecord
}.

Record RouteResult := MkRouteResult {
  rr_Disposition : RouteDisposition;
  rr_Current : Incident;
  rr_NewIncident : option Incident
}.

Definition CanRetryAnalysis (i : Incident) : bool :=
  if negb (bool_decide (i_state i = IncidentAnalysisFailed)) || (MaximumAnalysisAttempts <=? i_analysisAttempts i)
  then false
  else match ClassifyAnalysisFailure (i_failureReason i) with
       | Ok RetryOnceWithBoundedJitter => true
       | _ => false
       end.

(** ** Creation *)

Definition incidentID (snapshotDigest : string) : string :=
  uuidV8FromDigest (sha256 (bytes_of ("sentinelflow-incident-id-v1" +:+ String "010" "" +:+ snapshotDigest))).

Definition NewIncident (group : Group) (at' : time) : result Error Incident :=
  if IsZero at' then Err (MkError ErrorInvalidInput "at")
  else
    rebuilt ← buildGroup (g_signals group);
    if Before at' (g_WindowEnd rebuilt) then Err (MkError ErrorTimeRegression "at")
    else Ok {| i_id := incidentID (es_digest (g_Snapshot rebuilt));
               i_version := 1;
               i_revision := 1;
               i_state := IncidentOpen;
               i_createdAt := at';
               i_updatedAt := at';
               i_lastSignalAt := g_WindowEnd rebuilt;
               i_closedAt := 0;
               i_failureReason := "";
               i_analysisAttempts := 0;
               i_snapshot := g_Snapshot rebuilt;
               i_signals := g_signals rebuilt;
               i_relations := g_relations rebuilt;
               i_commands := [] |}.

(** ** Commands *)

Definition commandFingerprint (kind : string) (command : Command) (payload : string) : string :=
  digest (canonical_lines
    ["incident-command-v1"; kind; c_ID command; format_uint (c_ExpectedRevision command);
     format_rfc3339nano (c_At command); payload]).

Definition find_command (id : string) (commands : list commandRecord) : option commandRecord :=
  List.find (λ r, String.eqb (cr_id r) id) commands.

(** The fingerprint, and the record when the command was applied before. *)
Definition prepareCommand (i : Incident) (command : Command) (kind payload : string)
  : result Error (string * option commandRecord) :=
  if negb (is_digest (c_ID command)) then Err (MkError ErrorInvalidInput "command.id")
  else if IsZero (c_At command) then Err (MkError ErrorInvalidInput "command.at")
  else
    let fingerprint := commandFingerprint kind command payload in
    match find_command (c_ID command) (i_commands i) with
    | Some record =>
        if negb (String.eqb (cr_fingerprint record) fingerprint)
        then Err (MkError ErrorIdempotencyConflict "command.id")
        else Ok (fingerprint, Some record)
    | None =>
        if negb (c_ExpectedRevision command =? i_revision i)
        then Err (MkError ErrorStaleRevision "command.expected_revision")
        else if Before (c_At command) (i_updatedAt i) then Err (MkError ErrorTimeRegression "command.at")
        else Ok (fingerprint, None)
    end.

Definition commit (i : Incident) (command : Command) (fingerprint : string) : Incident :=
  let revision := u64 (i_revision i + 1) in
  {| i_id := i_id i;
     i_version := u64 (i_version i + 1);
     i_revision := revision;
     i_state := i_state i;
     i_createdAt := i_createdAt i;
     i_updatedAt := c_At command;
     i_lastSignalAt := i_lastSignalAt i;
     i_closedAt := i_closedAt i;
     i_failureReason := i_failureReason i;
     i_analysisAttempts := i_analysisAttempts i;
     i_snapshot := i_snapshot i;
     i_signals := i_signals i;
     i_relations := i_relations i;
     i_commands := i_commands i ++ [MkCommandRecord (c_ID command) fingerprint revision] |}.

Definition appliedTransition (revision : Z) : TransitionResult :=
  MkTransitionResult TransitionApplied revision revision.

Definition duplicateTransition (incident : Incident) (record : commandRecord) : TransitionResult :=
  MkTransitionResult TransitionIdempotentDuplicate (cr_appliedRevision record) (i_revision incident).

(** The fields an analysis transition writes before it commits. *)
Definition with_state (i : Incident) (state : IncidentState) (reason : string) (attempts : Z) (closedAt : time)
  : Incident :=
  {| i_id := i_id i; i_version := i_version i; i_revision := i_revision i; i_state := state;
     i_createdAt := i_createdAt i; i_updatedAt := i_updatedAt i; i_lastSignalAt := i_lastSignalAt i;
     i_closedAt := closedAt; i_failureReason := reason; i_analysisAttempts := attempts;
     i_snapshot := i_snapshot i; i_signals := i_signals i; i_relations := i_relations i;
     i_commands := i_commands i |}.

(** What the transitions share: prepare, return a duplicate, or run the body. *)
Definition run_command (i : Incident) (command : Command) (kind payload : string)
    (body : result Error Incident) : result Error (Incident * TransitionResult) :=
  '(fingerprint, record) ← prepareCommand i command kind payload;
  match record with
  | Some record => Ok (i, duplicateTransition i record)
  | None =>
      next ← body;
      Ok (commit next command fingerprint, appliedTransition (u64 (i_revision next + 1)))
  end.

Definition BeginAnalysis (i : Incident) (command : Command) : result Error (Incident * TransitionResult) :=
  run_command i command "begin_analysis" ""
    (if negb (bool_decide (i_state i = IncidentOpen)) && negb (bool_decide (i_state i = IncidentAnalysisFailed))
     then Err (MkError ErrorInvalidTransition "begin_analysis")
     else if bool_decide (i_state i = IncidentAnalysisFailed) && negb (CanRetryAnalysis i)
     then Err (MkError ErrorRetryNotAllowed "analysis_failed")
     else if MaximumAnalysisAttempts <=? i_analysisAttempts i
     then Err (MkError ErrorRetryNotAllowed "analysis_attempts")
     else Ok (with_state i IncidentAnalyzing "" (i_analysisAttempts i + 1) (i_closedAt i))).

Definition CompleteAnalysis (i : Incident) (command : Command) : result Error (Incident * TransitionResult) :=
  run_command i command "complete_analysis" ""
    (if negb (bool_decide (i_state i = IncidentAnalyzing))
     then Err (MkError ErrorInvalidTransition "complete_analysis")
     else Ok (with_state i IncidentReviewReady "" (i_analysisAttempts i) (i_closedAt i))).

Definition FailAnalysis (i : Incident) (command : Command) (reason : string)
  : result Error (Incident * TransitionResult) :=
  _ ← ClassifyAnalysisFailure reason;
  run_command i command "fail_analysis" reason
    (if negb (bool_decide (i_state i = IncidentAnalyzing))
     then Err (MkError ErrorInvalidTransition "fail_analysis")
     else Ok (with_state i IncidentAnalysisFailed reason (i_analysisAttempts i) (i_closedAt i))).

Definition CloseIdle (i : Incident) (command : Command) : result Error (Incident * TransitionResult) :=
  run_command i command "close_idle" ""
    (if bool_decide (i_state i = IncidentClosed) || bool_decide (i_state i = IncidentAnalyzing)
     then Err (MkError ErrorInvalidTransition "close_idle")
     else
       let deadline := i_lastSignalAt i + IncidentIdleTimeout in
       if Before (c_At command) deadline then Err (MkError ErrorIdleDeadlineNotReached "at")
       else Ok (with_state i IncidentClosed (i_failureReason i) (i_analysisAttempts i) deadline)).

(** ** Routing a signal *)

Definition latestSignal (signals : list Signal) : option Signal :=
  match signals with
  | [] => None (* the code would panic *)
  | first :: rest =>
      Some (foldl (λ latest s,
        if After (sg_WindowEnd s) (sg_WindowEnd latest)
           || (Equal (sg_WindowEnd s) (sg_WindowEnd latest) && String.ltb (sg_SignalID latest) (sg_SignalID s))
        then s else latest) first rest)
  end.

Definition replacePairRelation (relations : list Relation) (replacement : Relation) : list Relation :=
  sortRelations
    (List.filter (λ r, negb (String.eqb (rl_LeftSignalID r) (rl_LeftSignalID replacement)
                             && String.eqb (rl_RightSignalID r) (rl_RightSignalID replacement))) relations
     ++ [replacement]).

Definition validateDuplicateSignalCommand (i : Incident) (command : Command) (signal : Signal) : option Error :=
  if negb (is_digest (c_ID command)) then Some (MkError ErrorInvalidInput "command.id")
  else if IsZero (c_At command) then Some (MkError ErrorInvalidInput "command.at")
  else
    let fingerprint := commandFingerprint "route_signal" command
                         (sg_SignalID signal +:+ String "010" "" +:+ sg_Digest signal) in
    match find_command (c_ID command) (i_commands i) with
    | Some record =>
        if negb (String.eqb (cr_fingerprint record) fingerprint)
        then Some (MkError ErrorIdempotencyConflict "command.id") else None
    | None => None
    end.

Definition appendSignal (i : Incident) (command : Command) (fingerprint : string) (signal : Signal)
    (reopening : bool) : result Error RouteResult :=
  let signals := sortSignals (i_signals i ++ [signal]) in
  snapshot ← buildEvidenceSnapshot signals;
  let relations := buildRelations signals in
  let relations :=
    if reopening then
      match latestSignal (i_signals i) with
      | Some anchor => replacePairRelation relations (makeRelation anchor signal TemporalReopenedWithinThirtyMinutes)
      | None => relations
      end
    else relations in
  let next := {| i_id := i_id i; i_version := i_version i; i_revision := i_revision i; i_state := IncidentOpen;
                 i_createdAt := i_createdAt i; i_updatedAt := i_updatedAt i;
                 i_lastSignalAt := es_windowEnd snapshot; i_closedAt := 0; i_failureReason := "";
                 i_analysisAttempts := i_analysisAttempts i; i_snapshot := snapshot; i_signals := signals;
                 i_relations := relations; i_commands := i_commands i |} in
  Ok (MkRouteResult (if reopening then RouteReopened else RouteAppended) (commit next command fingerprint) None).

Definition routeToNewIncident (i : Incident) (command : Command) (signal : Signal) : result Error RouteResult :=
  group ← buildGroup [signal];
  created ← NewIncident group (c_At command);
  Ok (MkRouteResult RouteNewIncident i (Some created)).

Definition RouteSignal (i : Incident) (command : Command) (signal : Signal) : result Error RouteResult :=
  values ← normalizeSignals [signal];
  match values with
  | [] => Err (MkError ErrorInvalidInput "signals") (* unreachable: the code would panic on [values[0]] *)
  | signal :: _ =>
      if IsZero (c_At command) || Before (c_At command) (sg_WindowEnd signal)
      then Err (MkError ErrorTimeRegression "at")
      else
        match List.find (λ e, String.eqb (sg_SignalID e) (sg_SignalID signal)) (i_signals i) with
        | Some existing =>
            if negb (equalSignal existing signal) then Err (MkError ErrorConflictingSignal (sg_SignalID signal))
            else match validateDuplicateSignalCommand i command signal with
                 | Some e => Err e
                 | None => Ok (MkRouteResult RouteDuplicateSignal i None)
                 end
        | None =>
            '(fingerprint, record) ← prepareCommand i command "route_signal"
                                       (sg_SignalID signal +:+ String "010" "" +:+ sg_Digest signal);
            match record with
            | Some _ => Ok (MkRouteResult RouteDuplicateSignal i None)
            | None =>
                if negb (String.eqb (sg_SourceIP signal) (es_sourceIP (i_snapshot i)))
                then routeToNewIncident i command signal
                else if bool_decide (i_state i = IncidentClosed) then
                  if Before (c_At command) (i_closedAt i) then Err (MkError ErrorTimeRegression "at")
                  else if negb (After (c_At command) (i_closedAt i + IncidentReopenWindow))
                  then appendSignal i command fingerprint signal true
                  else routeToNewIncident i command signal
                else if negb (existsb (λ e, bool_decide (is_Some (temporalRelation e signal))) (i_signals i))
                then routeToNewIncident i command signal
                else appendSignal i command fingerprint signal false
            end
        end
  end.
