(* ===== verification/IncidentSpec.v ===== *)
(** * Invariants of the incident aggregate

    Reachability through the five operations, an invariant by rule induction,
    exactly-once application of commands, and what routing does with a signal. *)

From S2P Require Import Prelude GoSort Dedup GoStrings Regex Sha256 GoTime Netip ResponsePolicy.
From S2P Require Import Detection DetectionSpec Correlation CorrelationSpec Incident.
From stdpp Require Import relations.
Local Open Scope Z_scope.

(** ** Operations and steps *)

Inductive operation :=
| OpBegin | OpComplete | OpFail (reason : string) | OpClose | OpRoute (signal : Signal).

Definition apply_op (i : Incident) (c : Command) (op : operation) : result Error Incident :=
  match op with
  | OpBegin => fst <$> BeginAnalysis i c
  | OpComplete => fst <$> CompleteAnalysis i c
  | OpFail reason => fst <$> FailAnalysis i c reason
  | OpClose => fst <$> CloseIdle i c
  | OpRoute s => rr_Current <$> RouteSignal i c s
  end.

Definition step (i j : Incident) : Prop := ∃ c op, apply_op i c op = Ok j.

(** Incidents that can exist: made from a group of [Correlate], reached by an
    operation, or made by routing a signal that does not join the current one. *)
Inductive reachable : Incident → Prop :=
| reach_group signals groups g at' i :
    Correlate signals = Ok groups → g ∈ groups → NewIncident g at' = Ok i → reachable i
| reach_step i c op j : reachable i → apply_op i c op = Ok j → reachable j
| reach_routed i c s r n : reachable i → RouteSignal i c s = Ok r → rr_NewIncident r = Some n → reachable n.

(** ** Commands *)

Lemma find_command_None id l : find_command id l = None ↔ id ∉ cr_id <$> l.
Proof.
  unfold find_command. induction l as [|r l IH]; simpl; [set_solver|].
  destruct (String.eqb (cr_id r) id) eqn:E; breflect; [set_solver|]. rewrite IH. set_solver.
Qed.

Lemma find_command_Some id l r : find_command id l = Some r → r ∈ l ∧ cr_id r = id.
Proof.
  intros H. apply List.find_some in H as [Hin Hid]. split; [by apply list_elem_of_In|by apply String.eqb_eq].
Qed.

Lemma find_command_elem l r : NoDup (cr_id <$> l) → r ∈ l → find_command (cr_id r) l = Some r.
Proof.
  intros Hn Hr. destruct (find_command (cr_id r) l) as [r'|] eqn:E.
  - apply find_command_Some in E as [Hin Hid]. f_equal. by apply (keys_inj cr_id l).
  - apply find_command_None in E. destruct E. apply list_elem_of_fmap. eauto.
Qed.

Lemma prepareCommand_cases i c kind payload fp rec : prepareCommand i c kind payload = Ok (fp, rec) →
  is_digest (c_ID c) = true ∧ c_At c ≠ 0 ∧ fp = commandFingerprint kind c payload ∧
  find_command (c_ID c) (i_commands i) = rec ∧
  match rec with
  | Some r => cr_fingerprint r = fp
  | None => c_ExpectedRevision c = i_revision i ∧ i_updatedAt i <= c_At c
  end.
Proof.
  unfold prepareCommand, IsZero, Before. intros H. pass_guards H.
  destruct (find_command (c_ID c) (i_commands i)) as [r|] eqn:E; pass_guards H; injection H as <- <-; by breflect.
Qed.

(** A command that is on record is answered without looking at the state. *)
Lemma prepareCommand_replay i c kind payload r : is_digest (c_ID c) = true → c_At c ≠ 0 →
  NoDup (cr_id <$> i_commands i) → r ∈ i_commands i → cr_id r = c_ID c →
  cr_fingerprint r = commandFingerprint kind c payload →
  prepareCommand i c kind payload = Ok (commandFingerprint kind c payload, Some r).
Proof.
  intros Hd Ha Hn Hr Hid Hf. unfold prepareCommand, IsZero. rewrite Hd. rewrite (proj2 (Z.eqb_neq _ _) Ha).
  rewrite <-Hid, (find_command_elem _ _ Hn Hr), Hf, String.eqb_refl. done.
Qed.

(** ** The invariant *)

(** States only an analysis attempt leads to, and those with no failure reason. *)
Definition analyzed (st : IncidentState) : bool :=
  match st with IncidentOpen | IncidentClosed => false | _ => true end.

Definition reasonless (st : IncidentState) : bool :=
  match st with IncidentAnalysisFailed | IncidentClosed => false | _ => true end.

Record incident_ok (i : Incident) : Prop := {
  io_signals : group_input (i_signals i);
  io_snapshot : buildEvidenceSnapshot (i_signals i) = Ok (i_snapshot i);
  io_last : i_lastSignalAt i = es_windowEnd (i_snapshot i);
  io_attempts : 0 <= i_analysisAttempts i <= MaximumAnalysisAttempts;
  io_analyzed : analyzed (i_state i) = true → 1 <= i_analysisAttempts i;
  io_version : i_version i = i_revision i;
  io_revision : i_revision i = u64 (1 + Z.of_nat (length (i_commands i)));
  io_ids : NoDup (cr_id <$> i_commands i);
  io_applied : ∀ k r, i_commands i !! k = Some r → cr_appliedRevision r = u64 (Z.of_nat k + 2);
  io_closed : i_state i = IncidentClosed → i_closedAt i = i_lastSignalAt i + IncidentIdleTimeout ∧ i_closedAt i <= i_updatedAt i;
  io_open : i_state i ≠ IncidentClosed → i_closedAt i = 0;
  io_reason : reasonless (i_state i) = true → i_failureReason i = "";
  io_failed : i_state i = IncidentAnalysisFailed → is_ok (ClassifyAnalysisFailure (i_failureReason i)) = true;
  io_times : i_lastSignalAt i <= i_updatedAt i
}.

(** The group built from sorted signals is the one the snapshot describes. *)
Lemma snapshot_group l : group_input l → ∃ g, buildGroup l = Ok g ∧ g_signals g = l ∧
  buildEvidenceSnapshot l = Ok (g_Snapshot g) ∧ g_WindowEnd g = es_windowEnd (g_Snapshot g) ∧
  g_SourceIP g = es_sourceIP (g_Snapshot g) ∧ group_ok g.
Proof.
  intros Hl. destruct (buildGroup_ok l Hl) as (g & Hb & Hs & Hok). exists g.
  pose proof Hb as Hb'. unfold buildGroup in Hb'. inv_bind Hb'. injection Hb' as <-. done.
Qed.

Lemma NewIncident_ok g at' i : group_input (g_signals g) → NewIncident g at' = Ok i →
  incident_ok i ∧ i_signals i = g_signals g ∧ i_state i = IncidentOpen.
Proof.
  intros Hg H. unfold NewIncident, Before in H. pass_guards H.
  destruct (snapshot_group _ Hg) as (g' & Hb & Hs & Hsn & Hw & _). inv_bind H.
  injection Hb as ->. pass_guards H. injection H as <-. simpl. breflect.
  split_and!; [|done|done]. split; simpl; rewrite ?Hs; try done; try set_solver; try lia.
  apply NoDup_nil_2.
Qed.

Lemma u64_succ n : u64 (u64 n + 1) = u64 (n + 1).
Proof. unfold u64. by rewrite Z.add_mod_idemp_l. Qed.

(** Committing keeps the bookkeeping part of the invariant. *)
Lemma commit_bookkeeping i c fp : incident_ok i → find_command (c_ID c) (i_commands i) = None → ∀ j,
  i_version j = i_version i → i_revision j = i_revision i → i_commands j = i_commands i →
  let k := commit j c fp in
  i_version k = i_revision k ∧ i_revision k = u64 (1 + Z.of_nat (length (i_commands k))) ∧
  NoDup (cr_id <$> i_commands k) ∧
  ∀ n r, i_commands k !! n = Some r → cr_appliedRevision r = u64 (Z.of_nat n + 2).
Proof.
  intros Hi Hf%find_command_None j Hv Hr Hc. simpl. rewrite Hv, Hr, Hc.
  split_and!.
  - by rewrite (io_version _ Hi).
  - rewrite (io_revision _ Hi), u64_succ, length_app. simpl. f_equal. lia.
  - rewrite fmap_app. apply NoDup_app. split_and!; [apply (io_ids _ Hi)|set_solver|apply NoDup_singleton].
  - intros n r Hn. apply lookup_app_Some in Hn as [Hn|[Hlen Hn]]; [by apply (io_applied _ Hi)|].
    apply list_lookup_singleton_Some in Hn as [Hz <-]. simpl.
    rewrite (io_revision _ Hi), u64_succ. f_equal. lia.
Qed.

(** ** What an operation does to the aggregate *)

Definition op_kind (op : operation) : string :=
  match op with
  | OpBegin => "begin_analysis"
  | OpComplete => "complete_analysis"
  | OpFail _ => "fail_analysis"
  | OpClose => "close_idle"
  | OpRoute _ => "route_signal"
  end.

Definition op_payload (op : operation) : string :=
  match op with
  | OpFail reason => reason
  | OpRoute s => sg_SignalID s +:+ String "010" "" +:+ sg_Digest s
  | _ => ""
  end.

(** When a new signal belongs to the incident: same source, and while it is
    closed the reopen window, otherwise a temporal relation, admits it. *)
Definition joins (i : Incident) (c : Command) (s : Signal) : Prop :=
  sg_SourceIP s = es_sourceIP (i_snapshot i) ∧
  if bool_decide (i_state i = IncidentClosed) then c_At c <= i_closedAt i + IncidentReopenWindow
  else ∃ e, e ∈ i_signals i ∧ is_Some (temporalRelation e s).

(** The aggregate an operation commits, one rule per transition. *)
Inductive effect (i : Incident) (c : Command) : operation → Incident → Prop :=
| effect_begin :
    i_state i = IncidentOpen ∨ (i_state i = IncidentAnalysisFailed ∧ CanRetryAnalysis i = true) →
    i_analysisAttempts i < MaximumAnalysisAttempts →
    effect i c OpBegin (with_state i IncidentAnalyzing "" (i_analysisAttempts i + 1) (i_closedAt i))
| effect_complete :
    i_state i = IncidentAnalyzing →
    effect i c OpComplete (with_state i IncidentReviewReady "" (i_analysisAttempts i) (i_closedAt i))
| effect_fail reason :
    i_state i = IncidentAnalyzing → is_ok (ClassifyAnalysisFailure reason) = true →
    effect i c (OpFail reason) (with_state i IncidentAnalysisFailed reason (i_analysisAttempts i) (i_closedAt i))
| effect_close :
    i_state i ≠ IncidentClosed → i_state i ≠ IncidentAnalyzing →
    i_lastSignalAt i + IncidentIdleTimeout <= c_At c →
    effect i c OpClose (with_state i IncidentClosed (i_failureReason i) (i_analysisAttempts i)
                          (i_lastSignalAt i + IncidentIdleTimeout))
| effect_route s snapshot relations :
    valid_signal s → sg_WindowEnd s <= c_At c → sg_SignalID s ∉ sg_SignalID <$> i_signals i →
    joins i c s →
    buildEvidenceSnapshot (sortSignals (i_signals i ++ [s])) = Ok snapshot →
    effect i c (OpRoute s)
      {| i_id := i_id i; i_version := i_version i; i_revision := i_revision i; i_state := IncidentOpen;
         i_createdAt := i_createdAt i; i_updatedAt := i_updatedAt i;
         i_lastSignalAt := es_windowEnd snapshot; i_closedAt := 0; i_failureReason := "";
         i_analysisAttempts := i_analysisAttempts i; i_snapshot := snapshot;
         i_signals := sortSignals (i_signals i ++ [s]);
         i_relations := relations; i_commands := i_commands i |}.

(** A command the operation accepts for the first time. *)
Record fresh_command (i : Incident) (c : Command) : Prop := {
  fc_id : is_digest (c_ID c) = true;
  fc_at : c_At c ≠ 0;
  fc_new : find_command (c_ID c) (i_commands i) = None;
  fc_revision : c_ExpectedRevision c = i_revision i;
  fc_time : i_updatedAt i <= c_At c
}.

Definition op_fingerprint (c : Command) (op : operation) : string :=
  commandFingerprint (op_kind op) c (op_payload op).

(** What a successful operation returns: the aggregate unchanged, or committed. *)
Definition outcome (i : Incident) (c : Command) (op : operation) (j : Incident) : Prop :=
  j = i ∨ fresh_command i c ∧ ∃ next, effect i c op next ∧ j = commit next c (op_fingerprint c op).

Lemma run_command_cases i c kind payload body j t : run_command i c kind payload body = Ok (j, t) →
  j = i ∨ fresh_command i c ∧ ∃ next, body = Ok next ∧ j = commit next c (commandFingerprint kind c payload).
Proof.
  unfold run_command. intros H. inv_bind H. destruct a as [fp rec].
  apply prepareCommand_cases in Hbind as (Hd & Ha & -> & Hf & Hrec). destruct rec as [r|].
  - injection H as <- <-. by left.
  - inv_bind H. injection H as <- <-. right. destruct Hrec. split; [by split|eauto].
Qed.

Lemma normalizeSignals_one s v : normalizeSignals [s] = Ok v → v = [s] ∧ valid_signal s.
Proof.
  intros [[Hv _] [He Hk _]]%normalizeSignals_ok. rewrite Forall_singleton in Hv. split; [|exact Hv].
  destruct v as [|x v]; [exfalso; assert (s ∈ @nil Signal) by (apply He; set_solver); set_solver|].
  assert (x = s) as -> by (apply list_elem_of_singleton, He; set_solver).
  destruct v as [|y v]; [done|]. assert (y = s) as -> by (apply list_elem_of_singleton, He; set_solver).
  simpl in Hk. apply NoDup_cons in Hk as [Hk _]. set_solver.
Qed.

Lemma find_signal_None s l :
  List.find (λ e, String.eqb (sg_SignalID e) (sg_SignalID s)) l = None ↔ sg_SignalID s ∉ sg_SignalID <$> l.
Proof.
  induction l as [|r l IH]; simpl; [set_solver|].
  destruct (String.eqb _ _) eqn:E; breflect; [set_solver|]. rewrite IH. set_solver.
Qed.

(** ** Routing *)

(** The three ways a signal can be routed. *)
Inductive routed (i : Incident) (c : Command) (s : Signal) : RouteResult → Prop :=
| routed_duplicate :
    s ∈ i_signals i ∨ (∃ r, find_command (c_ID c) (i_commands i) = Some r ∧
                            cr_fingerprint r = op_fingerprint c (OpRoute s)) →
    routed i c s (MkRouteResult RouteDuplicateSignal i None)
| routed_here next : fresh_command i c → effect i c (OpRoute s) next →
    routed i c s (MkRouteResult (if bool_decide (i_state i = IncidentClosed) then RouteReopened else RouteAppended)
                    (commit next c (op_fingerprint c (OpRoute s))) None)
| routed_apart g created : fresh_command i c → sg_SignalID s ∉ sg_SignalID <$> i_signals i →
    ¬ joins i c s →
    buildGroup [s] = Ok g → NewIncident g (c_At c) = Ok created →
    routed i c s (MkRouteResult RouteNewIncident i (Some created)).

Lemma routeToNewIncident_inv i c s r : routeToNewIncident i c s = Ok r → ∃ g created,
  buildGroup [s] = Ok g ∧ NewIncident g (c_At c) = Ok created ∧ r = MkRouteResult RouteNewIncident i (Some created).
Proof.
  unfold routeToNewIncident. intros H. inv_bind H. inv_bind H. injection H as <-. eauto 10.
Qed.

Lemma existsb_related i s : existsb (λ e, bool_decide (is_Some (temporalRelation e s))) (i_signals i) = true ↔
  ∃ e, e ∈ i_signals i ∧ is_Some (temporalRelation e s).
Proof.
  rewrite existsb_exists. setoid_rewrite bool_decide_eq_true. by setoid_rewrite <-list_elem_of_In.
Qed.

Lemma RouteSignal_routed i c s r : RouteSignal i c s = Ok r → valid_signal s ∧ sg_WindowEnd s <= c_At c ∧ routed i c s r.
Proof.
  unfold RouteSignal, IsZero, Before, After. intros H. inv_bind H.
  apply normalizeSignals_one in Hbind as [-> Hv]. destruct (_ || _) eqn:Eat in H; [discriminate H|].
  apply orb_false_iff in Eat as [Hz Hend%Z.ltb_ge]. split_and!; [done..|].
  destruct (List.find _ _) as [e|] eqn:Efind in H.
  { destruct (equalSignal e s) eqn:Ee in H; [|discriminate H]. apply equalSignal_spec in Ee as ->.
    apply List.find_some in Efind as [Hin%list_elem_of_In _].
    destruct (validateDuplicateSignalCommand _ _ _); [discriminate H|]. injection H as <-. constructor. by left. }
  apply find_signal_None in Efind. inv_bind H. destruct a as [fp rec].
  apply prepareCommand_cases in Hbind as (Hd & Ha & -> & Hf & Hrec). destruct rec as [rec|].
  { injection H as <-. constructor. right. eauto. }
  assert (fresh_command i c) as Hfc by (destruct Hrec; by split).
  assert (∀ b k, appendSignal i c (op_fingerprint c (OpRoute s)) s b = Ok k → joins i c s →
    b = bool_decide (i_state i = IncidentClosed) → routed i c s k) as Happend.
  { unfold appendSignal. intros b k Hk Hwhy ->. inv_bind Hk. injection Hk as <-. apply routed_here; [done|].
    by constructor. }
  assert (∀ k, routeToNewIncident i c s = Ok k → ¬ joins i c s → routed i c s k) as Hnew.
  { intros k (g & n & Hg & Hn & ->)%routeToNewIncident_inv Hwhy. by eapply routed_apart. }
  unfold joins in *.
  destruct (String.eqb (sg_SourceIP s) _) eqn:Esrc in H; simpl in H; breflect;
    [|by apply Hnew; [|intros [? _]]].
  case_bool_decide as Hcl.
  - pass_guards H. destruct (_ <? c_At c) eqn:Ew in H; simpl in H; breflect.
    + apply Hnew; [done|]. intros [_ ?]. lia.
    + by apply (Happend true).
  - destruct (existsb _ _) eqn:Er in H; simpl in H.
    + apply existsb_related in Er. by apply (Happend false).
    + apply Hnew; [done|]. rewrite <-existsb_related, Er. by intros [_ ?].
Qed.

Lemma apply_op_outcome i c op j : apply_op i c op = Ok j → outcome i c op j.
Proof.
  assert (∀ body e, (∀ next, body = Ok next → effect i c op next) →
    fst <$> run_command i c (op_kind op) (op_payload op) body = Ok e → outcome i c op e) as Hrun.
  { intros body e Hbody He. destruct (run_command _ _ _ _ _) as [[k t]|] eqn:E; [|discriminate He].
    injection He as <-. apply run_command_cases in E as [-> | (Hf & next & Hn & ->)]; [by left|].
    right. split; [done|]. eauto. }
  destruct op as [| |reason| |s]; intros H; unfold apply_op in H.
  - eapply (Hrun _ j); [|exact H]. intros next Hn. repeat case_bool_decide; simpl in Hn; try discriminate Hn;
      pass_guards Hn; injection Hn as <-; breflect; constructor; auto.
  - eapply (Hrun _ j); [|exact H]. intros next Hn. case_bool_decide; [|done]. injection Hn as <-. by constructor.
  - unfold FailAnalysis in H. destruct (ClassifyAnalysisFailure reason) eqn:Er; [|discriminate H].
    eapply (Hrun _ j); [|exact H]. intros next Hn. case_bool_decide; [|done]. injection Hn as <-.
    constructor; [done|]. by rewrite Er.
  - eapply (Hrun _ j); [|exact H]. unfold Before. intros next Hn. pass_guards Hn. injection Hn as <-.
    bsplit. by constructor.
  - destruct (RouteSignal i c s) as [r|] eqn:E; [|discriminate H]. injection H as <-.
    apply RouteSignal_routed in E as (_ & _ & E). destruct E as [_|next Hf He|g n Hf _ _ _ _].
    + by left.
    + right. eauto.
    + by left.
Qed.

Lemma outcome_commands i c op j : outcome i c op j →
  j = i ∨ ∃ r, i_commands j = i_commands i ++ [r] ∧ cr_id r = c_ID c ∧ cr_fingerprint r = op_fingerprint c op.
Proof.
  intros [-> |(_ & next & He & ->)]; [by left|right].
  exists (MkCommandRecord (c_ID c) (op_fingerprint c op) (u64 (i_revision i + 1))). by destruct He.
Qed.

(** ** Every operation preserves the invariant *)

Lemma source_of_snapshot l sn x : group_input l → buildEvidenceSnapshot l = Ok sn → x ∈ l →
  sg_SourceIP x = es_sourceIP sn ∧ sg_WindowEnd x <= es_windowEnd sn.
Proof.
  intros Hl Hsn Hx. destruct (snapshot_group l Hl) as (g & _ & Hs & Hg & Hw & Hsrc & Hok).
  rewrite Hsn in Hg. injection Hg as ->. rewrite <-Hs in Hx. split.
  - rewrite <-Hsrc. by apply (go_source _ Hok).
  - rewrite <-Hw. by apply (go_end _ Hok).
Qed.

Lemma window_end_attained l sn : group_input l → buildEvidenceSnapshot l = Ok sn →
  ∃ x, x ∈ l ∧ sg_WindowEnd x = es_windowEnd sn.
Proof.
  intros Hl Hsn. destruct (snapshot_group l Hl) as (g & _ & Hs & Hg & Hw & _ & Hok).
  rewrite Hsn in Hg. injection Hg as ->. rewrite <-Hs, <-Hw. apply (go_end _ Hok).
Qed.

Lemma append_group_input l sn s : group_input l → buildEvidenceSnapshot l = Ok sn → valid_signal s →
  sg_SourceIP s = es_sourceIP sn → sg_SignalID s ∉ sg_SignalID <$> l → group_input (sortSignals (l ++ [s])).
Proof.
  intros Hl Hsn Hv Hsrc Hid.
  assert (∀ x, x ∈ sortSignals (l ++ [s]) → sg_SourceIP x = es_sourceIP sn) as Hall.
  { intros x Hx. unfold sortSignals in Hx. rewrite sort_slice_elem, elem_of_app, list_elem_of_singleton in Hx.
    destruct Hx as [Hx | ->]; [|done]. by apply (source_of_snapshot l). }
  split.
  - intros He. apply (f_equal length) in He. unfold sortSignals in He. rewrite sort_slice_length, length_app in He.
    simpl in He. lia.
  - unfold sortSignals. rewrite sort_slice_perm. apply Forall_app. split; [apply (gi_valid _ Hl)|by constructor].
  - intros x y Hx Hy. by rewrite (Hall x Hx), (Hall y Hy).
  - unfold sortSignals. rewrite sort_slice_perm, fmap_app. apply NoDup_app.
    split_and!; [apply (gi_ids _ Hl)|set_solver|apply NoDup_singleton].
  - apply sort_slice_sorted, _.
Qed.

Lemma effect_bookkeeping i c op next : effect i c op next →
  i_version next = i_version i ∧ i_revision next = i_revision i ∧ i_commands next = i_commands i.
Proof. by intros []. Qed.

Lemma commit_ok i c op next fp : incident_ok i → fresh_command i c → effect i c op next →
  incident_ok (commit next c fp).
Proof.
  intros Hi Hf He. destruct (effect_bookkeeping _ _ _ _ He) as (Hv & Hr & Hc).
  destruct (commit_bookkeeping i c fp Hi (fc_new _ _ Hf) next Hv Hr Hc) as (Hkv & Hkr & Hki & Hka).
  pose proof (fc_time _ _ Hf) as Ht. pose proof (io_times _ Hi) as Hlast. pose proof (io_attempts _ Hi) as Hat.
  pose proof Hi as [Hgi Hsn Hla _ Han _ _ _ _ Hcl Hop Hre Hfa _].
  assert (group_input (i_signals next) ∧ buildEvidenceSnapshot (i_signals next) = Ok (i_snapshot next) ∧
          i_lastSignalAt next = es_windowEnd (i_snapshot next) ∧ i_lastSignalAt next <= c_At c) as (? & ? & ? & ?).
  { destruct He as [| | | |s sn rel Hvs Hend Hid [Hsrc _] Hbuild]; simpl; split_and!; try done; try lia.
    - by eapply append_group_input.
    - assert (group_input (sortSignals (i_signals i ++ [s]))) as Hg by by eapply append_group_input.
      destruct (window_end_attained _ _ Hg Hbuild) as (x & Hx & <-).
      unfold sortSignals in Hx. rewrite sort_slice_elem, elem_of_app, list_elem_of_singleton in Hx.
      destruct Hx as [Hx | ->]; [|done]. destruct (source_of_snapshot _ _ x Hgi Hsn Hx) as [_ ?]. lia. }
  unfold MaximumAnalysisAttempts in *.
  split; [done|done|done| | |done|done|done|done| | | | |done]; clear Hkv Hkr Hki Hka.
  all: destruct He as [[Hst|[Hst _]]|Hst|reason Hst Hrs|Hst Hst' Hd|s sn rel _ _ _ _ _]; simpl in *; try done; try lia.
  all: rewrite Hst in *; simpl in *; auto.
Qed.

Lemma outcome_ok i c op j : incident_ok i → outcome i c op j → incident_ok j.
Proof. intros Hi [-> | (Hf & next & He & ->)]; [done|]. by eapply commit_ok. Qed.

Lemma single_group_input s : valid_signal s → group_input [s].
Proof.
  intros Hv. split; [done|by constructor|set_solver|apply NoDup_singleton|]. repeat constructor.
Qed.

(** A routed signal's own incident. *)
Lemma routed_apart_ok s at' g n : valid_signal s → buildGroup [s] = Ok g → NewIncident g at' = Ok n →
  incident_ok n ∧ i_signals n = [s] ∧ i_state n = IncidentOpen.
Proof.
  intros Hv Hg Hn. destruct (buildGroup_ok _ (single_group_input s Hv)) as (g' & Hg' & Hs & _).
  rewrite Hg in Hg'. injection Hg' as <-. rewrite <-Hs. apply (NewIncident_ok g at'); [|done].
  rewrite Hs. by apply single_group_input.
Qed.

Lemma reachable_ok i : reachable i → incident_ok i.
Proof.
  induction 1 as [signals groups g at' i Hc Hg Hn|i c op j _ IH Ha|i c s r n _ IH Hr Hn].
  - apply (NewIncident_ok g at'); [|done]. by eapply Correlate_group_input.
  - by eapply outcome_ok, apply_op_outcome.
  - apply RouteSignal_routed in Hr as (Hv & _ & Hr).
    destruct Hr as [_|next _ _|g created _ _ _ Hg Hcr]; simpl in Hn; try done. injection Hn as ->.
    by eapply routed_apart_ok.
Qed.

(** ** Commands are applied once *)

Lemma steps_commands i j : rtc step i j → ∃ l, i_commands j = i_commands i ++ l.
Proof.
  induction 1 as [i|i k j (c & op & Ha) _ [l IH]]; [exists []; by rewrite app_nil_r|].
  apply apply_op_outcome, outcome_commands in Ha as [-> | (r & Hr & _)]; [eauto|].
  exists (r :: l). by rewrite IH, Hr, <-app_assoc.
Qed.

Lemma effect_signals i c op next x : effect i c op next → x ∈ i_signals i → x ∈ i_signals next.
Proof.
  intros [] Hx; simpl; try done. unfold sortSignals. rewrite sort_slice_elem. set_solver.
Qed.

Lemma steps_signals i j x : rtc step i j → x ∈ i_signals i → x ∈ i_signals j.
Proof.
  induction 1 as [|i k j (c & op & Ha) _ IH]; [done|]. intros Hx. apply IH.
  apply apply_op_outcome in Ha as [-> | (_ & next & He & ->)]; [done|]. simpl. by eapply effect_signals.
Qed.

Lemma steps_ok i j : rtc step i j → incident_ok i → incident_ok j.
Proof.
  induction 1 as [|i k j (c & op & Ha) _ IH]; [done|]. intros Hi. by eapply IH, outcome_ok, apply_op_outcome.
Qed.

(** A recorded command is answered with the aggregate as it is. *)
Lemma replay_run_command j c kind payload body r : incident_ok j → is_digest (c_ID c) = true → c_At c ≠ 0 →
  r ∈ i_commands j → cr_id r = c_ID c → cr_fingerprint r = commandFingerprint kind c payload →
  fst <$> run_command j c kind payload body = Ok j.
Proof.
  intros Hj Hd Ha Hr Hid Hfp. unfold run_command.
  by rewrite (prepareCommand_replay j c kind payload r Hd Ha (io_ids _ Hj) Hr Hid Hfp).
Qed.

Lemma replay_route j c s r : incident_ok j → is_digest (c_ID c) = true → c_At c ≠ 0 →
  r ∈ i_commands j → cr_id r = c_ID c → cr_fingerprint r = op_fingerprint c (OpRoute s) →
  valid_signal s → sg_WindowEnd s <= c_At c → s ∈ i_signals j →
  RouteSignal j c s = Ok (MkRouteResult RouteDuplicateSignal j None).
Proof.
  intros Hj Hd Ha Hr Hid Hfp Hv Hend Hs. unfold RouteSignal, IsZero, Before, mbind, result_bind.
  destruct (normalizeSignals_total [s]) as [v Hn]; [split; [by apply Forall_singleton|]; intros x y ->%list_elem_of_singleton ->%list_elem_of_singleton; done|].
  rewrite Hn. destruct (normalizeSignals_one _ _ Hn) as [-> _].
  rewrite (proj2 (Z.eqb_neq _ _) Ha), (proj2 (Z.ltb_ge _ _) Hend). simpl.
  destruct (List.find _ _) as [e|] eqn:Ef.
  2: { apply find_signal_None in Ef. destruct Ef. apply list_elem_of_fmap. eauto. }
  apply List.find_some in Ef as [He%list_elem_of_In Hids%String.eqb_eq].
  assert (e = s) as -> by by apply (keys_inj sg_SignalID (i_signals j)); [apply (gi_ids _ (io_signals _ Hj))|..].
  rewrite (proj2 (equalSignal_spec s s)) by done. simpl.
  unfold validateDuplicateSignalCommand, IsZero. rewrite Hd, (proj2 (Z.eqb_neq _ _) Ha), <-Hid. simpl.
  rewrite (find_command_elem _ r (io_ids _ Hj) Hr), Hfp. unfold op_fingerprint, op_kind, op_payload.
  by rewrite String.eqb_refl.
Qed.

Lemma replay_no_op i c op next j : incident_ok i → fresh_command i c → effect i c op next →
  rtc step (commit next c (op_fingerprint c op)) j → apply_op j c op = Ok j.
Proof.
  intros Hi Hf He Hsteps. set (k := commit _ _ _) in Hsteps.
  assert (incident_ok k) as Hk by by eapply commit_ok.
  pose proof (steps_ok _ _ Hsteps Hk) as Hj. destruct (steps_commands _ _ Hsteps) as [l Hl].
  set (r := MkCommandRecord (c_ID c) (op_fingerprint c op) (u64 (i_revision next + 1))).
  assert (r ∈ i_commands j) as Hr by (rewrite Hl; subst k r; simpl; set_solver).
  destruct Hf as [Hd Ha _ _ _]. pose proof He as Hop.
  destruct op as [| |reason| |s]; unfold apply_op.
  1,2,4: by eapply (replay_run_command j c _ _ _ r).
  - unfold FailAnalysis. inversion He as [| |? _ Hc| |]; subst. apply is_ok_true in Hc as [x ->].
    by eapply (replay_run_command j c _ _ _ r).
  - rewrite (replay_route j c s r); try done; inversion He; subst; [done|done|].
    apply (steps_signals _ _ _ Hsteps). subst k. simpl. unfold sortSignals. rewrite sort_slice_elem. set_solver.
Qed.

(** ** Counting analyses *)

(** A client that keeps its aggregate when an operation is refused. *)
Definition next_incident (i : Incident) (x : Command * operation) : Incident :=
  from_ok i (apply_op i x.1 x.2).

Definition begins_now (i j : Incident) : bool :=
  negb (bool_decide (i_state i = IncidentAnalyzing)) && bool_decide (i_state j = IncidentAnalyzing).

(** The analyses that start while the operations run. *)
Fixpoint begins (i : Incident) (ops : list (Command * operation)) : Z :=
  match ops with
  | [] => 0
  | x :: ops => (if begins_now i (next_incident i x) then 1 else 0) + begins (next_incident i x) ops
  end.

Lemma next_incident_outcome i x : outcome i x.1 x.2 (next_incident i x).
Proof.
  unfold next_incident. destruct (apply_op i x.1 x.2) eqn:E; simpl; [by apply apply_op_outcome|by left].
Qed.

Lemma outcome_attempts i c op j : outcome i c op j →
  i_analysisAttempts j = i_analysisAttempts i + if begins_now i j then 1 else 0.
Proof.
  unfold begins_now. intros [-> | (_ & next & He & ->)].
  - destruct (bool_decide _); simpl; lia.
  - destruct He as [[Hs|[Hs _]]|Hs|reason Hs|Hs|s]; simpl; rewrite ?Hs; simpl;
      try destruct (bool_decide (i_state i = _)); simpl; lia.
Qed.

Lemma begins_attempts ops : ∀ i,
  i_analysisAttempts (foldl next_incident i ops) = i_analysisAttempts i + begins i ops.
Proof.
  induction ops as [|x ops IH]; intros i; simpl; [lia|].
  rewrite IH, (outcome_attempts _ _ _ _ (next_incident_outcome i x)). lia.
Qed.

Lemma foldl_ok ops : ∀ i, incident_ok i → incident_ok (foldl next_incident i ops).
Proof.
  induction ops as [|x ops IH]; intros i Hi; simpl; [done|].
  by eapply IH, outcome_ok, next_incident_outcome.
Qed.

(** ** Routing always finds a place *)

Lemma prepareCommand_fresh i c kind payload : fresh_command i c →
  prepareCommand i c kind payload = Ok (commandFingerprint kind c payload, None).
Proof.
  intros [Hd Ha Hn Hr Ht]. unfold prepareCommand, IsZero, Before.
  by rewrite Hd, (proj2 (Z.eqb_neq _ _) Ha), Hn, Hr, Z.eqb_refl, (proj2 (Z.ltb_ge _ _) Ht).
Qed.

Lemma NewIncident_single s at' : valid_signal s → at' ≠ 0 → sg_WindowEnd s <= at' →
  ∃ g n, buildGroup [s] = Ok g ∧ NewIncident g at' = Ok n.
Proof.
  intros Hv Ha He. destruct (buildGroup_ok _ (single_group_input s Hv)) as (g & Hg & Hs & Hok).
  exists g. unfold NewIncident, IsZero, Before, mbind, result_bind. rewrite (proj2 (Z.eqb_neq _ _) Ha), Hs, Hg.
  destruct (go_end _ Hok) as [_ (x & Hx & Hw)]. rewrite Hs in Hx. apply list_elem_of_singleton in Hx as ->.
  rewrite (proj2 (Z.ltb_ge _ _)) by lia. eauto.
Qed.

Lemma appendSignal_total i c fp s b : incident_ok i → valid_signal s → sg_SourceIP s = es_sourceIP (i_snapshot i) →
  sg_SignalID s ∉ sg_SignalID <$> i_signals i → ∃ r, appendSignal i c fp s b = Ok r.
Proof.
  intros Hi Hv Hsrc Hid. unfold appendSignal, mbind, result_bind.
  pose proof (append_group_input _ _ _ (io_signals _ Hi) (io_snapshot _ Hi) Hv Hsrc Hid) as Hg.
  destruct (snapshot_group _ Hg) as (g & _ & _ & -> & _). eauto.
Qed.

Lemma RouteSignal_total i c s : incident_ok i → fresh_command i c → valid_signal s → sg_WindowEnd s <= c_At c →
  sg_SignalID s ∉ sg_SignalID <$> i_signals i → ∃ r, RouteSignal i c s = Ok r.
Proof.
  intros Hi Hf Hv Hend Hid. unfold RouteSignal, IsZero, Before, After, mbind, result_bind.
  destruct (normalizeSignals_total [s]) as [v Hn].
  { split; [by apply Forall_singleton|]. by intros x y ->%list_elem_of_singleton ->%list_elem_of_singleton. }
  rewrite Hn. destruct (normalizeSignals_one _ _ Hn) as [-> _].
  rewrite (proj2 (Z.eqb_neq _ _) (fc_at _ _ Hf)), (proj2 (Z.ltb_ge _ _) Hend). cbn [orb].
  rewrite (proj2 (find_signal_None s (i_signals i)) Hid), (prepareCommand_fresh _ _ _ _ Hf).
  assert (∃ r, routeToNewIncident i c s = Ok r) as Hnew.
  { destruct (NewIncident_single s (c_At c) Hv (fc_at _ _ Hf) Hend) as (g & n & Hg & Hc).
    unfold routeToNewIncident, mbind, result_bind. rewrite Hg, Hc. eauto. }
  destruct (String.eqb _ _) eqn:Esrc; cbn [negb]; [|done]. apply String.eqb_eq in Esrc.
  case_bool_decide as Hcl.
  - destruct (io_closed _ Hi Hcl) as [_ Hle]. pose proof (fc_time _ _ Hf).
    rewrite (proj2 (Z.ltb_ge _ _)) by lia. destruct (_ <? c_At c); cbn [negb]; [done|].
    by apply appendSignal_total.
  - destruct (existsb _ _); cbn [negb]; [by apply appendSignal_total|done].
Qed.

(** ** A sample incident *)

Definition no_incident : Incident :=
  MkIncident "" 0 0 IncidentClosed 0 0 0 0 "" 0
    (MkEvidenceSnapshot "" "" 0 0 "" [] [] [] [] "" "") [] [] [].

Definition sample_at : time := sample_now + 13 * Minute.

Definition sample_incident : Incident := Eval vm_compute in
  from_ok no_incident (match sample_groups with g :: _ => NewIncident g sample_at | [] => Ok no_incident end).

Definition sample_command (name : string) (revision : Z) : Command :=
  MkCommand (digest name) revision sample_at.

Definition sample_operations : list (Command * operation) := Eval vm_compute in
  [(sample_command "begin" 1, OpBegin); (sample_command "fail" 2, OpFail "network_error");
   (sample_command "begin" 1, OpBegin); (sample_command "again" 3, OpBegin);
   (sample_command "fail again" 4, OpFail "network_error"); (sample_command "third" 5, OpBegin)].

Example sample_run : (λ i, (i_state i, i_revision i, i_analysisAttempts i))
    (foldl next_incident sample_incident sample_operations) = (IncidentAnalysisFailed, 5, 2).
Proof. vm_compute. reflexivity. Qed.

Lemma sample_reachable : reachable sample_incident.
Proof.
  apply (reach_group sample_signals sample_groups (nth 0 sample_groups (MkGroup "" 0 0
    (MkEvidenceSnapshot "" "" 0 0 "" [] [] [] [] "" "") [] [])) sample_at).
  - vm_compute. reflexivity.
  - apply (list_elem_of_lookup_2 _ 0). vm_compute. reflexivity.
  - vm_compute. reflexivity.
Qed.

(** ** Claims *)

(** C19. Whatever operations an incident goes through, accepted or refused, its
    aggregate stays well formed: its signals are valid, of one source, distinct
    and sorted, and its snapshot is the one of exactly these signals; version
    and revision both count the recorded commands, each recorded under its own
    identifier with the revision it produced; the attempts stay within the
    limit; a closed incident closed at its idle deadline, an open one has no
    closing time; and failure reasons occur only where they belong. *)
Theorem incident_invariant i : reachable i → incident_ok i.
Proof. apply reachable_ok. Qed.

Lemma incident_invariant_witness : incident_ok sample_incident ∧ i_revision sample_incident = 1.
Proof. split; [exact (incident_invariant _ sample_reachable)|vm_compute; reflexivity]. Defined.

(** C18. Commands are applied exactly once: after a command changed the
    incident, and however the incident evolves from there, repeating it
    succeeds and changes nothing, and no command with the same identifier,
    whatever its operation, ever changes the incident. *)
Theorem command_applied_once i c op i' j : reachable i → apply_op i c op = Ok i' →
  i_commands i' ≠ i_commands i → rtc step i' j →
  apply_op j c op = Ok j ∧
  ∀ c' op' k, c_ID c' = c_ID c → apply_op j c' op' = Ok k → k = j.
Proof.
  intros Hi Ha Hne Hsteps. apply apply_op_outcome in Ha as Ho.
  pose proof (outcome_commands _ _ _ _ Ho) as [-> | (r & Hr & Hid & _)]; [done|].
  destruct Ho as [-> | (Hf & next & He & ->)]; [done|]. split.
  - eapply replay_no_op; [by apply reachable_ok|done|done|done].
  - intros c' op' k Hc Hk. apply apply_op_outcome in Hk as [-> | (Hk & _)]; [done|].
    pose proof (fc_new _ _ Hk) as Hnew. rewrite Hc, find_command_None in Hnew. destruct Hnew.
    destruct (steps_commands _ _ Hsteps) as [l ->]. rewrite Hr, !fmap_app, <-Hid. set_solver.
Qed.

Lemma command_applied_once_witness :
  let begun := next_incident sample_incident (sample_command "begin" 1, OpBegin) in
  let failed := next_incident begun (sample_command "fail" 2, OpFail "network_error") in
  i_state begun = IncidentAnalyzing ∧ i_state failed = IncidentAnalysisFailed ∧
  apply_op failed (sample_command "begin" 1) OpBegin = Ok failed.
Proof.
  intros begun failed. split; [vm_compute; reflexivity|]. split; [vm_compute; reflexivity|].
  apply (command_applied_once sample_incident (sample_command "begin" 1) OpBegin begun failed).
  - exact sample_reachable.
  - vm_compute. reflexivity.
  - vm_compute. discriminate.
  - apply rtc_once. exists (sample_command "fail" 2), (OpFail "network_error"). vm_compute. reflexivity.
Defined.

(** An incident is analysed at most twice: over any sequence of
    operations, refused ones included, the analyses that start are exactly the
    attempts the incident counts, and never more than two in its lifetime. *)
Theorem at_most_two_analyses signals groups g at' i ops :
  Correlate signals = Ok groups → g ∈ groups → NewIncident g at' = Ok i →
  let j := foldl next_incident i ops in
  begins i ops = i_analysisAttempts j ∧ begins i ops <= MaximumAnalysisAttempts.
Proof.
  intros Hc Hg Hn j. assert (incident_ok i) as Hi by by eapply reachable_ok, reach_group.
  assert (i_analysisAttempts i = 0) as H0.
  { unfold NewIncident in Hn. pass_guards Hn. inv_bind Hn. pass_guards Hn. by injection Hn as <-. }
  pose proof (begins_attempts ops i) as Hb. pose proof (io_attempts _ (foldl_ok ops i Hi)). subst j. lia.
Qed.

Lemma at_most_two_analyses_witness : begins sample_incident sample_operations = 2.
Proof.
  pose proof (at_most_two_analyses sample_signals sample_groups (nth 0 sample_groups (MkGroup "" 0 0
    (MkEvidenceSnapshot "" "" 0 0 "" [] [] [] [] "" "") [] [])) sample_at sample_incident sample_operations) as H.
  destruct H as [-> _].
  - vm_compute. reflexivity.
  - apply (list_elem_of_lookup_2 _ 0). vm_compute. reflexivity.
  - vm_compute. reflexivity.
  - vm_compute. reflexivity.
Defined.

(** A new, valid signal that a fresh command brings is always placed, in
    exactly one incident: one of the same source that is temporally related to
    a retained signal, or closed no longer than the reopen window, joins the
    incident, which is open again and holds exactly one signal more; any other
    leaves it untouched and opens an incident of its own. *)
Theorem RouteSignal_places i c s : reachable i → fresh_command i c → valid_signal s →
  sg_WindowEnd s <= c_At c → sg_SignalID s ∉ sg_SignalID <$> i_signals i →
  ∃ r, RouteSignal i c s = Ok r ∧ match rr_NewIncident r with
  | None => joins i c s ∧ i_signals (rr_Current r) ≡ₚ s :: i_signals i ∧ i_id (rr_Current r) = i_id i ∧
      i_state (rr_Current r) = IncidentOpen ∧ i_analysisAttempts (rr_Current r) = i_analysisAttempts i
  | Some n => ¬ joins i c s ∧ rr_Current r = i ∧ i_signals n = [s] ∧ i_state n = IncidentOpen
  end.
Proof.
  intros Hi%reachable_ok Hf Hv Hend Hid. destruct (RouteSignal_total i c s) as [r Hr]; try done.
  exists r. split; [done|]. apply RouteSignal_routed in Hr as (_ & _ & Hr).
  destruct Hr as [Hdup|next _ He|g n _ _ Hj Hg Hn]; simpl.
  - destruct Hdup as [Hs|(rec & Hrec & _)].
    + destruct Hid. apply list_elem_of_fmap. eauto.
    + rewrite (fc_new _ _ Hf) in Hrec. discriminate Hrec.
  - inversion He; subst; simpl. split_and!; try done. unfold sortSignals. rewrite sort_slice_perm.
    symmetry. apply Permutation_cons_append.
  - destruct (routed_apart_ok _ _ _ _ Hv Hg Hn) as (_ & ? & ?). done.
Qed.

Lemma RouteSignal_places_witness :
  let s := sample_signal "203.0.113.20" (13 * Minute) in
  ∃ r, RouteSignal sample_incident (sample_command "route" 1) s = Ok r ∧ rr_NewIncident r = None.
Proof.
  intros s. destruct (RouteSignal_places sample_incident (sample_command "route" 1) s) as (r & Hr & H).
  - exact sample_reachable.
  - split; vm_compute; congruence.
  - vm_compute. reflexivity.
  - vm_compute. discriminate.
  - rewrite <-find_signal_None. vm_compute. reflexivity.
  - exists r. split; [exact Hr|]. destruct (rr_NewIncident r) as [n|]; [|reflexivity].
    destruct H as [Hj _]. destruct Hj. split; [vm_compute; reflexivity|].
    rewrite bool_decide_eq_false_2 by (vm_compute; discriminate).
    exists (nth 2 (i_signals sample_incident) s). split; [|vm_compute; eauto].
    apply (list_elem_of_lookup_2 _ 2). vm_compute. reflexivity.
Defined.
