(* ===== verification/Limiter.v ===== *)
(** * Rate limits of the administrator boundary ([internal/adminauth/limiter.go])

    Rolling one-minute windows for login attempts, per source and for the whole
    process, and for decisions per session.  [Allow] reads the clock, so the
    instant is an argument, and the mutex makes a call one step from a limiter to
    the next.  A window is the list of its instants; the loop over a Go map that
    prunes every window and deletes the empty ones touches each entry on its
    own, so it is an [omap]. *)

From S2P Require Import Prelude GoTime.
Local Open Scope Z_scope.

Definition LoginPerSourcePerMinute : nat := 5.
Definition LoginGlobalPerMinute : nat := 20.
Definition DecisionsPerSessionMinute : nat := 5.
Definition limiterWindow : duration := Minute.
Definition defaultMaxLoginSources : Z := 4096.
Definition defaultMaxDecisionSessions : Z := 4096.

(** ** Errors ([errors.go]) *)

Inductive RateLimitScope := RateLimitLoginSource | RateLimitLoginGlobal | RateLimitDecision | RateLimitCapacity.

Record RateLimitError := MkRateLimitError { rl_Scope : RateLimitScope; rl_RetryAfter : duration }.

(** Durations are [int64] and positive here, so Go's division is the floor. *)
Definition RetryAfterSeconds (e : RateLimitError) : Z :=
  let seconds := (rl_RetryAfter e + Second - 1) / Second in
  if seconds <? 1 then 1 else seconds.

(** ** Addresses: [netip.Addr], as a map key *)

Inductive Addr := NoAddr | V4 (bits : Z) | V6 (bits : Z) (zone : string).

Global Instance Addr_eq_dec : EqDecision Addr.
Proof. solve_decision. Defined.

Global Instance Addr_countable : Countable Addr.
Proof.
  apply (inj_countable'
    (λ a, match a with NoAddr => inl tt | V4 n => inr (inl n) | V6 n z => inr (inr (n, z)) end)
    (λ x, match x with inl _ => NoAddr | inr (inl n) => V4 n | inr (inr (n, z)) => V6 n z end)).
  by intros [].
Defined.

Definition addr_IsValid (a : Addr) : bool := match a with NoAddr => false | _ => true end.

(** An IPv4-mapped IPv6 address ([::ffff:0:0/96]) becomes the IPv4 address. *)
Definition Unmap (a : Addr) : Addr :=
  match a with
  | V6 bits zone => if bits / 2 ^ 32 =? 65535 then V4 (bits mod 2 ^ 32) else a
  | _ => a
  end.

(** ** Windows *)

Definition attemptWindow : Type := list time.

Fixpoint prune (cutoff : time) (times : attemptWindow) : attemptWindow :=
  match times with
  | t :: rest => if negb (After t cutoff) then prune cutoff rest else times
  | [] => []
  end.

Definition retryAfter (times : attemptWindow) (now : time) : duration :=
  match times with
  | [] => Second
  | first :: _ =>
      let retry := Sub (first + limiterWindow) now in
      if retry <=? 0 then Second else retry
  end.

Section windows.
  Context {K : Type} `{Countable K}.

(** Prune every window and delete the empty ones. *)
Definition prune_all (cutoff : time) (m : gmap K attemptWindow) : gmap K attemptWindow :=
  omap (λ w, match prune cutoff w with [] => None | w' => Some w' end) m.

(** The loop of [capacityRetryAfter]. *)
Definition oldest_attempt (m : gmap K attemptWindow) : time :=
  foldl (λ oldest w,
    match w with
    | first :: _ => if IsZero oldest || Before first oldest then first else oldest
    | [] => oldest
    end) 0 (map_to_list m).*2.

Definition capacityRetryAfter (m : gmap K attemptWindow) (now : time) : duration :=
  let oldest := oldest_attempt m in
  if IsZero oldest then limiterWindow
  else
    let retry := Sub (oldest + limiterWindow) now in
    if retry <=? 0 then Second else retry.

End windows.

(** [maxSources] and [maxSessions], zero for the default. *)
Definition limiter_capacity (requested default : Z) : option Z :=
  let maximum := if requested =? 0 then default else requested in
  if (maximum <? 1) || (1000000 <? maximum) then None else Some maximum.

(** ** Logins *)

Record LoginLimiter := MkLoginLimiter {
  ll_maxSources : Z;
  ll_global : attemptWindow;
  ll_bySource : gmap Addr attemptWindow
}.

Definition NewLoginLimiter (maxSources : Z) : option LoginLimiter :=
  maximum ← limiter_capacity maxSources defaultMaxLoginSources; Some (MkLoginLimiter maximum [] ∅).

Definition login_Allow (l : LoginLimiter) (now : time) (source : Addr) : LoginLimiter * option RateLimitError :=
  if negb (addr_IsValid source) then (l, Some (MkRateLimitError RateLimitCapacity limiterWindow))
  else
    let source := Unmap source in
    let cutoff := now - limiterWindow in
    let global := prune cutoff (ll_global l) in
    let bySource := prune_all cutoff (ll_bySource l) in
    let l := MkLoginLimiter (ll_maxSources l) global bySource in
    if (LoginGlobalPerMinute <=? length global)%nat then
      (l, Some (MkRateLimitError RateLimitLoginGlobal (retryAfter global now)))
    else
      let proceed (window : attemptWindow) :=
        if (LoginPerSourcePerMinute <=? length window)%nat then
          (MkLoginLimiter (ll_maxSources l) global (<[source := window]> bySource),
           Some (MkRateLimitError RateLimitLoginSource (retryAfter window now)))
        else
          (MkLoginLimiter (ll_maxSources l) (global ++ [now]) (<[source := window ++ [now]]> bySource), None) in
      match bySource !! source with
      | Some window => proceed window
      | None =>
          if ll_maxSources l <=? Z.of_nat (size bySource) then
            (l, Some (MkRateLimitError RateLimitCapacity (capacityRetryAfter bySource now)))
          else proceed []
      end.

(** ** Decisions *)

(** [SessionID]: sixteen bytes, from [session.go]. *)
Definition SessionID : Type := list Z.

Definition session_IsZero (id : SessionID) : bool := bool_decide (id = replicate 16 0).

Record DecisionLimiter := MkDecisionLimiter { dl_maxSessions : Z; dl_bySession : gmap SessionID attemptWindow }.

Definition NewDecisionLimiter (maxSessions : Z) : option DecisionLimiter :=
  maximum ← limiter_capacity maxSessions defaultMaxDecisionSessions; Some (MkDecisionLimiter maximum ∅).

Definition decision_Allow (l : DecisionLimiter) (now : time) (sessionID : SessionID)
  : DecisionLimiter * option RateLimitError :=
  if session_IsZero sessionID then (l, Some (MkRateLimitError RateLimitCapacity limiterWindow))
  else
    let bySession := prune_all (now - limiterWindow) (dl_bySession l) in
    let l := MkDecisionLimiter (dl_maxSessions l) bySession in
    let proceed (window : attemptWindow) :=
      if (DecisionsPerSessionMinute <=? length window)%nat then
        (MkDecisionLimiter (dl_maxSessions l) (<[sessionID := window]> bySession),
         Some (MkRateLimitError RateLimitDecision (retryAfter window now)))
      else (MkDecisionLimiter (dl_maxSessions l) (<[sessionID := window ++ [now]]> bySession), None) in
    match bySession !! sessionID with
    | Some window => proceed window
    | None =>
        if dl_maxSessions l <=? Z.of_nat (size bySession) then
          (l, Some (MkRateLimitError RateLimitCapacity (capacityRetryAfter bySession now)))
        else proceed []
    end.
