(* ===== verification/LimiterSpec.v ===== *)
(** * The rate limiters implement rolling windows

    Against the log of everything ever granted, in the order of the calls: a
    limiter keeps exactly the granted instants of the last minute, so its
    decision is the textbook rule over the whole log.  The clock does not run
    backwards between calls. *)

From S2P Require Import Prelude GoTime Limiter.
Local Open Scope Z_scope.

(** ** Pruning sorted windows *)

(** The instants after [c]. *)
Definition recent (c : time) (l : list time) : list time := List.filter (λ t, c <? t) l.

Lemma recent_app c l k : recent c (l ++ k) = recent c l ++ recent c k.
Proof. apply List.filter_app. Qed.

Lemma recent_recent c c' l : c <= c' → recent c' (recent c l) = recent c' l.
Proof.
  intros Hc. induction l as [|t l IH]; [done|]. simpl. destruct (Z.ltb_spec c t); simpl; rewrite IH; [done|].
  by rewrite (proj2 (Z.ltb_ge c' t)) by lia.
Qed.

Lemma recent_all c l : Forall (λ t, c < t) l → recent c l = l.
Proof. induction 1 as [|t l Ht _ IH]; [done|]. simpl. by rewrite (proj2 (Z.ltb_lt _ _)), IH. Qed.

Lemma recent_Forall c l : Forall (λ t, c < t) (recent c l).
Proof. apply List.Forall_forall. intros t [_ Ht]%List.filter_In. by apply Z.ltb_lt. Qed.

Lemma recent_sorted c l : StronglySorted Z.le l → StronglySorted Z.le (recent c l).
Proof.
  induction 1 as [|t l _ IH Ht]; simpl; [constructor|]. destruct (c <? t); [|done]. constructor; [done|].
  apply Forall_forall. intros x [Hx _]%list_elem_of_In%List.filter_In. rewrite Forall_forall in Ht. by apply Ht, list_elem_of_In.
Qed.

Lemma prune_recent c l : StronglySorted Z.le l → prune c l = recent c l.
Proof.
  induction 1 as [|t l Hl IH Ht]; [done|]. cbn [prune recent List.filter]. unfold After.
  destruct (Z.ltb_spec c t) as [Hc|]; cbn [negb]; [|done]. f_equal. symmetry. apply recent_all.
  eapply Forall_impl; [exact Ht|]. intros x Hx. cbn in Hx. lia.
Qed.

Lemma recent_length_le c l : (length (recent c l) ≤ length l)%nat.
Proof. apply List.filter_length_le. Qed.

Section tracking.
  Context {K : Type} `{Countable K}.

(** The granted attempts, oldest first. *)
Definition log : Type := list (K * time).

Definition times_of (k : K) (l : log) : list time := (List.filter (λ e, bool_decide (e.1 = k)) l).*2.

Lemma times_of_snoc k l k' t : times_of k (l ++ [(k', t)]) = times_of k l ++ (if bool_decide (k' = k) then [t] else []).
Proof. unfold times_of. rewrite List.filter_app, fmap_app. simpl. by destruct (bool_decide (k' = k)). Qed.

Definition live (w : list time) : option (list time) := match w with [] => None | _ => Some w end.

(** The map holds the recent instants of each key that has some. *)
Definition tracks (m : gmap K attemptWindow) (c : time) (l : log) : Prop := ∀ k, m !! k = live (recent c (times_of k l)).

Definition chronological (l : log) : Prop := StronglySorted Z.le l.*2.

Lemma times_of_sorted k l : chronological l → StronglySorted Z.le (times_of k l).
Proof.
  unfold chronological, times_of. induction l as [|[k' t] l IH]; cbn; intros Hs; [constructor|].
  apply StronglySorted_inv in Hs as [Hs Ht]. destruct (bool_decide (k' = k)); [|by apply IH]. cbn. constructor; [by apply IH|].
  apply Forall_forall. intros x Hx. rewrite Forall_forall in Ht. apply Ht.
  apply list_elem_of_fmap in Hx as (e & -> & He). apply list_elem_of_fmap. exists e. split; [done|].
  apply list_elem_of_In. apply list_elem_of_In, List.filter_In in He as [He _]. done.
Qed.

Lemma tracks_empty c : tracks ∅ c [].
Proof. intros k. by rewrite lookup_empty. Qed.

Lemma tracks_prune m c c' l : tracks m c l → chronological l → c <= c' → tracks (prune_all c' m) c' l.
Proof.
  intros Ht Hl Hc k. unfold prune_all. rewrite lookup_omap, Ht.
  pose proof (recent_sorted c _ (times_of_sorted k l Hl)) as Hs.
  destruct (recent c (times_of k l)) as [|t w] eqn:Hr; cbn [live].
  - simpl. rewrite <-(recent_recent c c'), Hr by done. done.
  - cbn [mbind option_bind]. rewrite prune_recent by done. rewrite <-Hr, recent_recent by done.
    by destruct (recent c' (times_of k l)).
Qed.

(** Granting an attempt to [k] at an instant not before the log's. *)
Lemma tracks_grant m c l k t : tracks m c l → c < t → tracks (<[k := recent c (times_of k l) ++ [t]]> m) c (l ++ [(k, t)]).
Proof.
  intros Hm Ht k'. rewrite times_of_snoc, recent_app. destruct (decide (k = k')) as [<-|Hne].
  - rewrite lookup_insert_eq, bool_decide_eq_true_2 by done. simpl. rewrite (proj2 (Z.ltb_lt _ _)) by done.
    by destruct (recent c (times_of k l)).
  - rewrite lookup_insert_ne, bool_decide_eq_false_2 by done. simpl. by rewrite app_nil_r, Hm.
Qed.

Lemma tracks_lookup m c l k : tracks m c l → default [] (m !! k) = recent c (times_of k l).
Proof. intros Hm. rewrite Hm. by destruct (recent c (times_of k l)). Qed.

(** The keys with a recent attempt. *)
Definition active (c : time) (l : log) : gset K := list_to_set (List.filter (λ e, c <? e.2) l).*1.

Lemma recent_times c k l : recent c (times_of k l) = times_of k (List.filter (λ e, c <? e.2) l).
Proof.
  unfold recent, times_of. induction l as [|[k' t] l IH]; [done|]. cbn.
  destruct (bool_decide (k' = k)) eqn:E; cbn; destruct (c <? t); cbn; rewrite ?E; cbn; by rewrite ?IH.
Qed.

Lemma times_of_nil k l : times_of k l = [] ↔ k ∉ l.*1.
Proof.
  unfold times_of. induction l as [|[k' t] l IH]; cbn; [split; [intros _; apply not_elem_of_nil|done]|].
  rewrite not_elem_of_cons. case_bool_decide as E; cbn; [split; [done|by intros [? _]]|]. rewrite IH. naive_solver.
Qed.

Lemma tracks_dom m c l : tracks m c l → dom m = active c l.
Proof.
  intros Hm. apply set_eq. intros k. rewrite elem_of_dom, Hm, recent_times. unfold active. rewrite elem_of_list_to_set.
  pose proof (times_of_nil k (List.filter (λ e, c <? e.2) l)) as Hn. destruct (times_of k _) as [|t w] eqn:E; cbn [live].
  - split; [by intros [? ?]|]. intros Hk. by apply Hn in Hk.
  - split; [|done]. intros _. destruct (decide (k ∈ (List.filter (λ e, c <? e.2) l).*1)) as [|Hk]; [done|]. by apply Hn in Hk.
Qed.

Lemma tracks_size m c l : tracks m c l → size m = size (active c l).
Proof. intros Hm. by rewrite <-(tracks_dom _ _ _ Hm), size_dom. Qed.


End tracking.

(** ** Counting grants in a window *)

(** The grants in the half-open minute that ends at [e]. *)
Definition within (e : time) (l : list time) : list time := List.filter (λ t, (e - limiterWindow <? t) && (t <=? e)) l.

Lemma within_snoc e l now : within e (l ++ [now]) = within e l ++ within e [now].
Proof. apply List.filter_app. Qed.

Lemma within_recent e c l : c <= e - limiterWindow → (length (within e l) ≤ length (recent c l))%nat.
Proof.
  intros Hc. induction l as [|t l IH]; [done|]. cbn [within recent List.filter]. fold (within e l). fold (recent c l).
  destruct (Z.ltb_spec (e - limiterWindow) t), (Z.leb_spec t e), (Z.ltb_spec c t); cbn; lia.
Qed.

(** A grant made while the last minute holds fewer than [n] keeps every minute at [n] or less. *)
Lemma within_grant n l now : (∀ e, length (within e l) ≤ n)%nat → (length (recent (now - limiterWindow) l) < n)%nat →
  ∀ e, (length (within e (l ++ [now])) ≤ n)%nat.
Proof.
  intros Hl Hn e. rewrite within_snoc, length_app. specialize (Hl e). cbn [within List.filter].
  destruct (Z.ltb_spec (e - limiterWindow) now), (Z.leb_spec now e); cbn [andb length]; try lia.
  pose proof (within_recent e (now - limiterWindow) l). lia.
Qed.

(** ** A bounded map of windows *)

Section keyed.
  Context {K : Type} `{Countable K}.
  Variables (maximum : Z) (limit : nat).

(** What both limiters maintain, [t] the instant of the last call. *)
Record keyed (m : gmap K attemptWindow) (l : log) (t : time) : Prop := MkKeyed {
  keyed_tracks : ∃ c, c <= t - limiterWindow ∧ tracks m c l;
  keyed_chronological : chronological l;
  keyed_past : Forall (λ u, u <= t) l.*2;
  keyed_positive : Forall (λ u, 0 < u) l.*2;
  keyed_size : Z.of_nat (size m) <= maximum;
  keyed_limit : ∀ k e, (length (within e (times_of k l)) ≤ limit)%nat
}.

(** The two reasons to refuse a key, over the whole log. *)
Definition spent (now : time) (l : log) (k : K) : bool :=
  (limit <=? length (recent (now - limiterWindow) (times_of k l)))%nat.

Definition crowded (now : time) (l : log) (k : K) : bool :=
  bool_decide (k ∉ active (now - limiterWindow) l) && (maximum <=? Z.of_nat (size (active (now - limiterWindow) l))).

Lemma keyed_empty t : 1 <= maximum → keyed ∅ [] t.
Proof.
  intros Hm. constructor; [|constructor..| |].
  - exists (t - limiterWindow). split; [lia|apply tracks_empty].
  - rewrite map_size_empty. lia.
  - intros k e. cbn. lia.
Qed.

Lemma prune_all_size c (m : gmap K attemptWindow) : (size (prune_all c m) ≤ size m)%nat.
Proof.
  unfold prune_all. rewrite <-!size_dom. apply subseteq_size. intros k. rewrite !elem_of_dom, lookup_omap.
  intros [w Hw]. destruct (m !! k); [by eexists|done].
Qed.

Lemma keyed_prune m l t now : keyed m l t → t <= now →
  keyed (prune_all (now - limiterWindow) m) l now ∧ tracks (prune_all (now - limiterWindow) m) (now - limiterWindow) l.
Proof.
  intros [(c & Hc & Ht) Hl Hp Hz Hs Hn] Hnow. assert (Ht' := tracks_prune m c (now - limiterWindow) l Ht Hl ltac:(lia)).
  split; [|done]. constructor; try done.
  - exists (now - limiterWindow). by split; [lia|].
  - eapply Forall_impl; [exact Hp|]. cbn. intros; lia.
  - pose proof (prune_all_size (now - limiterWindow) m). lia.
Qed.

Lemma chronological_snoc (l : log) (k : K) t : chronological l → Forall (λ u, u <= t) l.*2 → chronological (l ++ [(k, t)]).
Proof.
  unfold chronological. rewrite fmap_app. cbn. intros Hl Ht. induction Hl as [|u l' _ IH Hu]; cbn; [by repeat constructor|].
  apply Forall_cons in Ht as [Hut Ht]. constructor; [by apply IH|]. apply Forall_app. by split; [|constructor].
Qed.

Lemma crowded_lookup m l now k : tracks m (now - limiterWindow) l →
  crowded now l k = match m !! k with Some _ => false | None => maximum <=? Z.of_nat (size m) end.
Proof.
  intros Hm. unfold crowded. rewrite <-(tracks_size _ _ _ Hm), <-(tracks_dom _ _ _ Hm).
  destruct (m !! k) as [w|] eqn:E; [rewrite bool_decide_eq_false_2; [done|]|rewrite bool_decide_eq_true_2; [done|]].
  - intros Hn. apply Hn, elem_of_dom. by exists w.
  - by apply not_elem_of_dom.
Qed.

Lemma spent_lookup m l now k : tracks m (now - limiterWindow) l →
  spent now l k = (limit <=? length (default [] (m !! k)))%nat.
Proof. intros Hm. unfold spent. by rewrite (tracks_lookup _ _ _ _ Hm). Qed.

(** A key that is neither crowded out nor spent can be granted. *)
Lemma keyed_grant m l now k : keyed m l now → tracks m (now - limiterWindow) l → 0 < now →
  crowded now l k = false → spent now l k = false →
  keyed (<[k := default [] (m !! k) ++ [now]]> m) (l ++ [(k, now)]) now.
Proof.
  intros [_ Hl Hp Hz Hs Hn] Ht Hnow Hc Hsp. rewrite (tracks_lookup _ _ _ _ Ht). constructor.
  - exists (now - limiterWindow). split; [lia|]. apply tracks_grant; [done|]. unfold limiterWindow, Minute, Second. lia.
  - by apply chronological_snoc.
  - rewrite fmap_app. apply Forall_app. split; [done|]. by constructor.
  - rewrite fmap_app. apply Forall_app. split; [done|]. by constructor.
  - rewrite (crowded_lookup m) in Hc by done. rewrite map_size_insert. destruct (m !! k) as [w|]; cbn; [done|].
    apply Z.leb_gt in Hc. lia.
  - intros k' e. rewrite times_of_snoc. unfold spent in Hsp. apply Nat.leb_gt in Hsp.
    case_bool_decide as E; [subst k'|by rewrite app_nil_r]. apply within_grant; [apply Hn|done].
Qed.

(** Refusing a key whose window is full writes the window back. *)
Lemma spent_insert m l now k : tracks m (now - limiterWindow) l → (0 < limit)%nat → spent now l k = true →
  <[k := default [] (m !! k)]> m = m.
Proof.
  intros Hm Hpos Hs. rewrite (spent_lookup m) in Hs by done. apply Nat.leb_le in Hs.
  destruct (m !! k) as [w|] eqn:E; cbn in *; [by apply insert_id|lia].
Qed.

End keyed.

(** ** When to retry *)

Lemma sub_within first now : now - limiterWindow < first <= now →
  Sub (first + limiterWindow) now = first + limiterWindow - now ∧ 0 < first + limiterWindow - now <= limiterWindow.
Proof. unfold Sub, limiterWindow, Minute, Second. lia. Qed.

(** An error that says when the window frees a slot. *)
Definition covers (d : duration) : Prop := 0 < d <= limiterWindow ∧ ∀ s, d <= RetryAfterSeconds (MkRateLimitError s d) * Second.

Lemma covers_positive d : 0 < d <= limiterWindow → covers d.
Proof.
  intros Hd. split; [done|]. intros s. unfold RetryAfterSeconds. cbn [rl_RetryAfter].
  pose proof (Z.div_mod (d + Second - 1) Second) as Hdiv. pose proof (Z.mod_pos_bound (d + Second - 1) Second) as Hm.
  unfold Second in *. destruct (Z.ltb_spec ((d + 1000000000 - 1) / 1000000000) 1); lia.
Qed.

Lemma recent_later l now now' : now <= now' →
  recent (now' - limiterWindow) l = recent (now' - limiterWindow) (recent (now - limiterWindow) l).
Proof. intros. symmetry. apply recent_recent. lia. Qed.

(** [retryAfter] names the first instant at which the window has lost an entry. *)
Lemma retryAfter_exact l now : StronglySorted Z.le l → Forall (λ u, u <= now) l → recent (now - limiterWindow) l ≠ [] →
  let w := recent (now - limiterWindow) l in
  let d := retryAfter w now in
  covers d ∧
  (∀ now', now <= now' < now + d → recent (now' - limiterWindow) l = w) ∧
  (∀ now', now + d <= now' → (length (recent (now' - limiterWindow) l) < length w)%nat).
Proof.
  intros Hl Hp Hne w d. pose proof (recent_sorted (now - limiterWindow) l Hl) as Hs.
  pose proof (recent_Forall (now - limiterWindow) l) as Hr.
  assert (Hu : Forall (λ u, u <= now) w).
  { apply Forall_forall. intros u [Hu _]%list_elem_of_In%List.filter_In. rewrite Forall_forall in Hp. by apply Hp, list_elem_of_In. }
  fold w in Hs, Hr, Hne. unfold d. destruct w as [|first rest] eqn:Hw; [done|]. cbn [retryAfter].
  apply StronglySorted_inv in Hs as [_ Hf]. apply Forall_cons in Hr as [Hr1 Hr]. apply Forall_cons in Hu as [Hu1 _].
  destruct (sub_within first now ltac:(lia)) as [-> Hd]. rewrite (proj2 (Z.leb_gt _ _)) by lia.
  split_and!; [by apply covers_positive|..]; intros now' Hnow'; rewrite (recent_later l now now') by lia; fold w; rewrite Hw.
  - apply recent_all. constructor; [lia|]. eapply Forall_impl; [exact Hf|]. cbn. lia.
  - cbn [recent List.filter]. rewrite (proj2 (Z.ltb_ge _ _)) by lia. pose proof (recent_length_le (now' - limiterWindow) rest).
    fold (recent (now' - limiterWindow) rest). cbn [length]. lia.
Qed.

Section capacity.
  Context {K : Type} `{Countable K}.

Let step (oldest : time) (w : attemptWindow) : time :=
  match w with
  | first :: _ => if IsZero oldest || Before first oldest then first else oldest
  | [] => oldest
  end.

(** The scan finds the least first instant, in whatever order the windows come. *)
Lemma oldest_scan ws acc (r := foldl step acc ws) :
  0 <= acc → (∀ w first, w ∈ ws → head w = Some first → 0 < first) →
  (r = acc ∨ ∃ w, w ∈ ws ∧ head w = Some r) ∧ (0 < acc → 0 < r <= acc) ∧
  (∀ w first, w ∈ ws → head w = Some first → 0 < r <= first).
Proof.
  revert acc r. induction ws as [|w ws IH]; intros acc r Hacc Hpos; subst r; cbn [foldl].
  { split_and!; [by left|lia|]. intros w first Hw. by apply elem_of_nil in Hw. }
  assert (Hstep : step acc w = acc ∨ head w = Some (step acc w) ∧ 0 < step acc w).
  { destruct w as [|f w]; [by left|]. cbn [step head]. destruct (IsZero acc || Before f acc); [right|by left].
    split; [done|]. apply (Hpos (f :: w)); [apply elem_of_cons; by left|done]. }
  destruct (IH (step acc w)) as (H1 & H2 & H3); [naive_solver lia|intros; eapply Hpos; [apply elem_of_cons; by right|done]|].
  set (r := foldl step (step acc w) ws) in *. clearbody r.
  assert (Hw : ∀ first, head w = Some first → 0 < step acc w <= first).
  { intros first Hf. destruct w as [|f w]; [done|]. cbn [head] in Hf. injection Hf as ->.
    assert (0 < first) by (apply (Hpos (first :: w)); [apply elem_of_cons; by left|done]).
    cbn [step]. unfold IsZero, Before. destruct (Z.eqb_spec acc 0), (Z.ltb_spec first acc); cbn [orb]; lia. }
  split_and!.
  - destruct H1 as [->|(w' & Hw' & Hr)]; [|right; exists w'; split; [apply elem_of_cons; by right|done]].
    destruct Hstep as [->|[Hh _]]; [by left|right; exists w; split; [apply elem_of_cons; by left|done]].
  - intros Ha. assert (0 < step acc w <= acc); [|naive_solver lia].
    destruct w as [|f w]; cbn [step]; [lia|]. specialize (Hw f eq_refl). cbn [step] in *. unfold IsZero, Before in *.
    destruct (Z.eqb_spec acc 0), (Z.ltb_spec f acc); cbn [orb] in *; lia.
  - intros w' first [->|Hw']%elem_of_cons Hf; [|by apply (H3 w')].
    specialize (Hw first Hf). destruct (H2 ltac:(lia)) as [? ?]. lia.
Qed.

Lemma oldest_attempt_spec (m : gmap K attemptWindow) :
  (∀ k w, m !! k = Some w → ∃ first rest, w = first :: rest ∧ 0 < first) → m ≠ ∅ →
  (∃ k rest, m !! k = Some (oldest_attempt m :: rest)) ∧
  (∀ k first rest, m !! k = Some (first :: rest) → 0 < oldest_attempt m <= first).
Proof.
  intros Hm Hne.
  assert (Hin : ∀ w, w ∈ (map_to_list m).*2 ↔ ∃ k, m !! k = Some w).
  { intros w. rewrite list_elem_of_fmap. split.
    - intros ([k w'] & -> & Hk). exists k. by apply elem_of_map_to_list.
    - intros (k & Hk). exists (k, w). split; [done|]. by apply elem_of_map_to_list. }
  destruct (oldest_scan (map_to_list m).*2 0) as (H1 & _ & H3); [lia| |].
  { intros w first Hw Hf. apply Hin in Hw as [k Hk]. destruct (Hm k w Hk) as (f & r & -> & Hp). cbn in Hf. by injection Hf as <-. }
  change (foldl step 0 (map_to_list m).*2) with (oldest_attempt m) in H1, H3.
  assert (Hall : ∀ k first rest, m !! k = Some (first :: rest) → 0 < oldest_attempt m <= first).
  { intros k first rest Hk. apply (H3 (first :: rest)); [apply Hin; by exists k|done]. }
  split; [|done]. destruct H1 as [Hz|(w & Hw & Hh)].
  - exfalso. apply map_choose in Hne as (k & w & Hk). destruct (Hm k w Hk) as (f & r & -> & Hp).
    specialize (Hall k f r Hk). lia.
  - apply Hin in Hw as [k Hk]. exists k. destruct w as [|f r]; [done|]. cbn in Hh. injection Hh as ->. by exists r.
Qed.

End capacity.

Section retry.
  Context {K : Type} `{Countable K}.
  Variables (maximum : Z) (limit : nat).

Lemma elem_of_active c (l : log) (k : K) : k ∈ active c l ↔ recent c (times_of k l) ≠ [].
Proof.
  unfold active. rewrite elem_of_list_to_set, recent_times. pose proof (times_of_nil k (List.filter (λ e, c <? e.2) l)).
  split; [|intros Hn; apply dec_stable]; naive_solver.
Qed.

Lemma active_shrinks c c' (l : log (K:=K)) : c <= c' → active c' l ⊆ active c l.
Proof. intros Hc k. rewrite !elem_of_active. intros Hk Hn. by rewrite <-(recent_recent c c'), Hn in Hk. Qed.

Lemma times_of_elem (k : K) (l : log) t : t ∈ times_of k l → t ∈ l.*2.
Proof.
  intros ([k' u] & -> & [Hin _]%list_elem_of_In%List.filter_In)%list_elem_of_fmap.
  apply list_elem_of_fmap. exists (k', u). by split; [|apply list_elem_of_In].
Qed.

Lemma keyed_times m l now (k : K) : keyed maximum limit m l now →
  StronglySorted Z.le (times_of k l) ∧ Forall (λ u, u <= now) (times_of k l).
Proof.
  intros Hk. split; [apply times_of_sorted, (keyed_chronological _ _ _ _ _ Hk)|]. apply Forall_forall. intros u Hu%times_of_elem.
  pose proof (keyed_past _ _ _ _ _ Hk) as Hp. rewrite Forall_forall in Hp. by apply Hp.
Qed.

Lemma within_now l now : Forall (λ u, u <= now) l → within now l = recent (now - limiterWindow) l.
Proof.
  induction 1 as [|u l Hu _ IH]; [done|]. cbn [within recent List.filter]. fold (within now l). fold (recent (now - limiterWindow) l).
  rewrite IH, (proj2 (Z.leb_le _ _)), andb_true_r by done. done.
Qed.

(** A key with a recent attempt has a place, now and after it has gone quiet. *)
Lemma crowded_later m l now now' (k : K) : keyed maximum limit m l now → tracks m (now - limiterWindow) l → now <= now' →
  k ∈ active (now - limiterWindow) l → crowded maximum now' l k = false.
Proof.
  intros Hk Ht Hnow Hin. unfold crowded. case_bool_decide as Hn; [|done]. apply Z.leb_gt.
  pose proof (keyed_size _ _ _ _ _ Hk) as Hs. rewrite (tracks_size _ _ _ Ht) in Hs.
  assert (size (active (now' - limiterWindow) l) < size (active (now - limiterWindow) l))%nat; [|lia].
  apply subset_size. pose proof (active_shrinks (now - limiterWindow) (now' - limiterWindow) l ltac:(lia)). set_solver.
Qed.

(** The retry time of a spent key is exact. *)
Lemma spent_retry m l now (k : K) : keyed maximum limit m l now → tracks m (now - limiterWindow) l → (0 < limit)%nat →
  spent limit now l k = true →
  let d := retryAfter (default [] (m !! k)) now in
  covers d ∧
  (∀ now', now <= now' < now + d → spent limit now' l k = true) ∧
  (∀ now', now + d <= now' → spent limit now' l k = false) ∧
  (∀ now', now <= now' → crowded maximum now' l k = false).
Proof.
  intros Hk Ht Hpos Hs. rewrite (tracks_lookup _ _ _ _ Ht). unfold spent in *. apply Nat.leb_le in Hs.
  destruct (keyed_times m l now k Hk) as [Hsort Hpast].
  assert (Hne : recent (now - limiterWindow) (times_of k l) ≠ []) by (intros Hn; rewrite Hn in Hs; cbn in Hs; lia).
  destruct (retryAfter_exact _ now Hsort Hpast Hne) as (Hc & Hbefore & Hafter).
  pose proof (keyed_limit _ _ _ _ _ Hk k now) as Hlim. rewrite (within_now _ _ Hpast) in Hlim.
  split_and!; [done|..]; intros now' Hnow'.
  - rewrite (Hbefore now' Hnow'). by apply Nat.leb_le.
  - apply Nat.leb_gt. specialize (Hafter now' Hnow'). lia.
  - by apply (crowded_later m _ now); [..|apply elem_of_active].
Qed.

(** No source is forgotten before the retry time of a full table. *)
Lemma crowded_retry m l now (k : K) : keyed maximum limit m l now → tracks m (now - limiterWindow) l → 1 <= maximum →
  crowded maximum now l k = true →
  let d := capacityRetryAfter m now in
  covers d ∧ (∀ now', now <= now' < now + d → crowded maximum now' l k = true).
Proof.
  intros Hk Ht Hmax Hc d. unfold crowded in Hc. apply andb_prop in Hc as [Hout Hfull].
  apply bool_decide_eq_true in Hout. apply Z.leb_le in Hfull. rewrite <-(tracks_size _ _ _ Ht) in Hfull.
  assert (Hwin : ∀ k w, m !! k = Some w → ∃ first rest, w = first :: rest ∧ 0 < first ∧ now - limiterWindow < first <= now).
  { intros k' w Hw. rewrite Ht in Hw. destruct (recent _ _) as [|f r] eqn:Hr; [done|]. cbn in Hw. injection Hw as <-.
    assert (Hf : f ∈ recent (now - limiterWindow) (times_of k' l)) by (rewrite Hr; apply elem_of_cons; by left).
    apply list_elem_of_In, List.filter_In in Hf as [Hin%list_elem_of_In%times_of_elem Hlt%Z.ltb_lt].
    pose proof (keyed_past _ _ _ _ _ Hk) as Hp. pose proof (keyed_positive _ _ _ _ _ Hk) as Hz. rewrite Forall_forall in Hp, Hz.
    exists f, r. by split_and!; [|apply Hz| |apply Hp]. }
  destruct (oldest_attempt_spec m) as [(ko & ro & Ho) Hmin]; [naive_solver|intros ->; rewrite map_size_empty in Hfull; lia|].
  destruct (Hwin ko _ Ho) as (f & r & [= <- <-] & Hpos & Hrange).
  unfold d, capacityRetryAfter, IsZero. rewrite (proj2 (Z.eqb_neq _ _)) by lia.
  destruct (sub_within _ _ Hrange) as [-> Hd]. rewrite (proj2 (Z.leb_gt _ _)) by lia.
  split; [by apply covers_positive|]. intros now' Hnow'.
  assert (active (now' - limiterWindow) l = active (now - limiterWindow) l) as Hact.
  { apply set_eq. intros k'. split; [apply active_shrinks; lia|]. intros Hin.
    rewrite <-(tracks_dom _ _ _ Ht) in Hin. apply elem_of_dom in Hin as [w Hw].
    destruct (Hwin k' w Hw) as (first & rest & -> & _ & _). specialize (Hmin _ _ _ Hw). rewrite Ht in Hw.
    apply elem_of_active. rewrite (recent_later _ now now') by lia. destruct (recent (now - limiterWindow) _) as [|f r]; [done|].
    cbn in Hw. injection Hw as -> ->. cbn. rewrite (proj2 (Z.ltb_lt _ _)) by lia. done. }
  unfold crowded. rewrite Hact, bool_decide_eq_true_2 by done. apply Z.leb_le. by rewrite <-(tracks_size _ _ _ Ht).
Qed.

End retry.

(** ** Logins *)

Module Login.

(** The rolling-window rule for one attempt, over everything granted so far. *)
Definition rule (maximum : Z) (l : log (K:=Addr)) (now : time) (source : Addr) : option RateLimitScope :=
  if negb (addr_IsValid source) then Some RateLimitCapacity
  else if (LoginGlobalPerMinute <=? length (recent (now - limiterWindow) l.*2))%nat then Some RateLimitLoginGlobal
  else if crowded maximum now l (Unmap source) then Some RateLimitCapacity
  else if spent LoginPerSourcePerMinute now l (Unmap source) then Some RateLimitLoginSource
  else None.

Definition record_grant (l : log) (now : time) (source : Addr) (r : option RateLimitError) : log :=
  match r with None => l ++ [(Unmap source, now)] | Some _ => l end.

(** A limiter after some calls, with the log of its grants and the instant of the last call. *)
Inductive runs (maximum : Z) : LoginLimiter → log → time → Prop :=
  | runs_new l t : NewLoginLimiter maximum = Some l → 0 < t → runs maximum l [] t
  | runs_call l lg t now source : runs maximum l lg t → t <= now →
      runs maximum (login_Allow l now source).1 (record_grant lg now source (login_Allow l now source).2) now.

Record ok (l : LoginLimiter) (lg : log) (t : time) : Prop := MkOk {
  ok_keyed : keyed (ll_maxSources l) LoginPerSourcePerMinute (ll_bySource l) lg t;
  ok_global : ∃ c, c <= t - limiterWindow ∧ ll_global l = recent c lg.*2;
  ok_total : ∀ e, (length (within e lg.*2) ≤ LoginGlobalPerMinute)%nat;
  ok_clock : 0 < t
}.

(** Pruning leaves exactly the last minute of the log. *)
Lemma ok_prune l lg t now : ok l lg t → t <= now →
  let cutoff := now - limiterWindow in
  keyed (ll_maxSources l) LoginPerSourcePerMinute (prune_all cutoff (ll_bySource l)) lg now ∧
  tracks (prune_all cutoff (ll_bySource l)) cutoff lg ∧
  prune cutoff (ll_global l) = recent cutoff lg.*2.
Proof.
  intros [Hk (c & Hc & Hg) _ _] Ht cutoff. destruct (keyed_prune _ _ _ _ _ now Hk Ht) as [Hk' Htr].
  split_and!; [done..|]. rewrite Hg, prune_recent by apply recent_sorted, (keyed_chronological _ _ _ _ _ Hk).
  apply recent_recent. unfold cutoff. lia.
Qed.

Lemma ok_later l lg t now : ok l lg t → t <= now → ok l lg now.
Proof.
  intros [[(c & Hc & Htc) Hl Hp Hz Hs Hw] (c' & Hc' & Hg) Hn H0] Ht. constructor; [constructor; try done|..|done|lia].
  - exists c. by split; [lia|].
  - eapply Forall_impl; [exact Hp|]. cbn. lia.
  - exists c'. by split; [lia|].
Qed.

(** The state after a grant. *)
Lemma ok_grant maximum m lg now s : keyed maximum LoginPerSourcePerMinute m lg now →
  tracks m (now - limiterWindow) lg → (∀ e, length (within e lg.*2) ≤ LoginGlobalPerMinute)%nat → 0 < now →
  (length (recent (now - limiterWindow) lg.*2) < LoginGlobalPerMinute)%nat →
  crowded maximum now lg s = false → spent LoginPerSourcePerMinute now lg s = false →
  ok (MkLoginLimiter maximum (recent (now - limiterWindow) lg.*2 ++ [now]) (<[s := default [] (m !! s) ++ [now]]> m))
     (lg ++ [(s, now)]) now.
Proof.
  intros Hk Htr Hn H0 Hglob Hc Hs. constructor; [by apply keyed_grant| |..|done].
  - exists (now - limiterWindow). split; [lia|]. cbn. rewrite fmap_app, recent_app. cbn.
    rewrite (proj2 (Z.ltb_lt _ _)); [done|]. unfold limiterWindow, Minute, Second. lia.
  - rewrite fmap_app. by apply within_grant.
Qed.

(** One call: the rule decides, and only a grant adds to the log. *)
Lemma call_ok l lg t now source : ok l lg t → t <= now →
  ok (login_Allow l now source).1 (record_grant lg now source (login_Allow l now source).2) now ∧
  rl_Scope <$> (login_Allow l now source).2 = rule (ll_maxSources l) lg now source ∧
  ll_maxSources (login_Allow l now source).1 = ll_maxSources l.
Proof.
  intros Hok Ht. destruct (ok_prune l lg t now Hok Ht) as (Hk & Htr & Hg).
  pose proof (ok_later _ _ _ _ Hok Ht) as Hok'. destruct Hok' as [_ _ Hn H0].
  unfold login_Allow, rule. rewrite Hg.
  set (m := prune_all (now - limiterWindow) (ll_bySource l)) in *. set (s := Unmap source).
  destruct (addr_IsValid source); cbn [negb]; [|by split_and!; [apply (ok_later _ _ t)|..]].
  assert (Hsame : ok (MkLoginLimiter (ll_maxSources l) (recent (now - limiterWindow) lg.*2) m) lg now).
  { constructor; [done| |done|lia]. exists (now - limiterWindow). split; [lia|done]. }
  destruct (LoginGlobalPerMinute <=? _)%nat eqn:Hglob; [done|]. cbn [ll_maxSources]. apply Nat.leb_gt in Hglob.
  pose proof (ok_grant _ _ _ _ s Hk Htr Hn H0 Hglob) as Hgrant.
  rewrite (crowded_lookup _ m _ _ _ Htr), (spent_lookup _ m _ _ _ Htr) in *.
  destruct (m !! s) as [w|] eqn:Hw; cbn [default from_option id] in *.
  - destruct (LoginPerSourcePerMinute <=? _)%nat eqn:Hlim; [by rewrite insert_id|]. split_and!; [by apply Hgrant|done..].
  - destruct (ll_maxSources l <=? Z.of_nat (size m)) eqn:Hfull; [done|].
    destruct (LoginPerSourcePerMinute <=? _)%nat eqn:Hlim; [done|]. split_and!; [by apply Hgrant|done..].
Qed.

Lemma runs_ok maximum l lg t : runs maximum l lg t →
  ok l lg t ∧ limiter_capacity maximum defaultMaxLoginSources = Some (ll_maxSources l) ∧ 1 <= ll_maxSources l.
Proof.
  induction 1 as [l t Hl Ht|l lg t now source _ (IH & Hcap & Hpos) Hnow].
  - unfold NewLoginLimiter in Hl. apply bind_Some in Hl as (cap & Hcap & [= <-]). pose proof Hcap as Hc'.
    unfold limiter_capacity in Hc'. case_match eqn:Hr; [done|]. injection Hc' as Hc'. apply orb_false_elim in Hr as [Hr%Z.ltb_ge _].
    cbn [ll_maxSources]. split_and!; [|done|lia]. constructor; cbn; [apply keyed_empty; lia| |intros; lia|done].
    exists (t - limiterWindow). split; [lia|done].
  - destruct (call_ok l lg t now source IH Hnow) as (? & _ & ->). done.
Qed.

Lemma pruned_lookup l lg t now source e : ok l lg t → t <= now → addr_IsValid source = true →
  (login_Allow l now source).2 = Some e →
  let m := prune_all (now - limiterWindow) (ll_bySource l) in
  rl_RetryAfter e =
    match rl_Scope e with
    | RateLimitLoginGlobal => retryAfter (recent (now - limiterWindow) lg.*2) now
    | RateLimitCapacity => capacityRetryAfter m now
    | _ => retryAfter (default [] (m !! Unmap source)) now
    end.
Proof.
  intros Hok Ht Hv He m. destruct (ok_prune l lg t now Hok Ht) as (Hk & Htr & Hg).
  unfold login_Allow in He. rewrite Hv, Hg in He. cbn [negb] in He. fold m in He.
  destruct (_ <=? _)%nat; [by simplify_eq/=|]. destruct (m !! Unmap source) as [w|]; repeat case_match; by simplify_eq/=.
Qed.

(** The rule as time passes without grants, from a refusal on. *)
Lemma rule_retry l lg t now source e : ok l lg t → t <= now → addr_IsValid source = true → 1 <= ll_maxSources l →
  (login_Allow l now source).2 = Some e →
  covers (rl_RetryAfter e) ∧
  (∀ now', now <= now' < now + rl_RetryAfter e → rule (ll_maxSources l) lg now' source = Some (rl_Scope e)) ∧
  (∀ now', now + rl_RetryAfter e <= now' →
     match rl_Scope e with
     | RateLimitLoginSource => rule (ll_maxSources l) lg now' source = None
     | RateLimitLoginGlobal => rule (ll_maxSources l) lg now' source ≠ Some RateLimitLoginGlobal
     | _ => True
     end).
Proof.
  intros Hok Ht Hv Hmax He. pose proof (pruned_lookup _ _ _ _ _ _ Hok Ht Hv He) as Hd.
  destruct (call_ok l lg t now source Hok Ht) as (_ & Hrule & _). rewrite He in Hrule. cbn in Hrule.
  destruct (ok_prune l lg t now Hok Ht) as (Hk & Htr & _). cbn zeta in Hk, Htr, Hd.
  destruct (ok_later _ _ _ _ Hok Ht) as [_ _ Htot _].
  assert (Hglob : ∀ now', now <= now' → (length (recent (now' - limiterWindow) lg.*2) ≤ length (recent (now - limiterWindow) lg.*2))%nat).
  { intros now' Hnow'. rewrite (recent_later _ now now') by done. apply recent_length_le. }
  unfold rule in Hrule |- *. rewrite Hv in Hrule |- *. cbn [negb] in Hrule |- *.
  destruct (Nat.leb_spec LoginGlobalPerMinute (length (recent (now - limiterWindow) lg.*2))) as [Hfull|Hroom].
  - injection Hrule as Hscope. rewrite Hscope in *.
    destruct (retryAfter_exact lg.*2 now) as (Hc & Hb & Ha);
      [apply (keyed_chronological _ _ _ _ _ Hk)|apply (keyed_past _ _ _ _ _ Hk)|intros Hn; rewrite Hn in Hfull; unfold LoginGlobalPerMinute in Hfull; cbn in Hfull; lia|].
    specialize (Htot now). rewrite within_now in Htot by apply (keyed_past _ _ _ _ _ Hk). rewrite Hd.
    split_and!; [done|..]; intros now' Hnow'.
    + rewrite (Hb now' Hnow'). cbn zeta. by rewrite (proj2 (Nat.leb_le _ _) Hfull).
    + specialize (Ha now' Hnow'). rewrite (proj2 (Nat.leb_gt _ _)) by lia. by repeat case_match.
  - assert (Hroom' : ∀ now', now <= now' → (LoginGlobalPerMinute <=? length (recent (now' - limiterWindow) lg.*2))%nat = false).
    { intros now' Hnow'. apply Nat.leb_gt. specialize (Hglob now' Hnow'). lia. }
    destruct (crowded (ll_maxSources l) now lg (Unmap source)) eqn:Hcr.
    + injection Hrule as Hscope. rewrite Hscope in *. rewrite Hd.
      destruct (crowded_retry _ _ _ _ _ _ Hk Htr Hmax Hcr) as [Hc Hb]. split_and!; [done| |done].
      intros now' Hnow'. by rewrite Hroom', (Hb now' Hnow') by lia.
    + destruct (spent LoginPerSourcePerMinute now lg (Unmap source)) eqn:Hsp; [|done].
      injection Hrule as Hscope. rewrite Hscope in *. rewrite Hd.
      destruct (spent_retry _ _ _ _ _ _ Hk Htr ltac:(compute; lia) Hsp) as (Hc & Hb & Ha & Hcr').
      assert (0 < rl_RetryAfter e) by (rewrite Hd; apply Hc). rewrite Hd in *.
      split_and!; [done|..]; intros now' Hnow'.
      * by rewrite Hroom', Hcr', (Hb now' Hnow') by lia.
      * by rewrite Hroom', Hcr', (Ha now' Hnow') by lia.
Qed.

End Login.

(** ** Decisions *)

Module Decisions.

Definition rule (maximum : Z) (l : log (K:=SessionID)) (now : time) (sessionID : SessionID) : option RateLimitScope :=
  if session_IsZero sessionID then Some RateLimitCapacity
  else if crowded maximum now l sessionID then Some RateLimitCapacity
  else if spent DecisionsPerSessionMinute now l sessionID then Some RateLimitDecision
  else None.

Definition record_grant (l : log) (now : time) (sessionID : SessionID) (r : option RateLimitError) : log :=
  match r with None => l ++ [(sessionID, now)] | Some _ => l end.

Inductive runs (maximum : Z) : DecisionLimiter → log → time → Prop :=
  | runs_new l t : NewDecisionLimiter maximum = Some l → 0 < t → runs maximum l [] t
  | runs_call l lg t now sessionID : runs maximum l lg t → t <= now →
      runs maximum (decision_Allow l now sessionID).1 (record_grant lg now sessionID (decision_Allow l now sessionID).2) now.

Definition ok (l : DecisionLimiter) (lg : log) (t : time) : Prop :=
  keyed (dl_maxSessions l) DecisionsPerSessionMinute (dl_bySession l) lg t ∧ 0 < t.

Lemma decision_call_ok l lg t now sessionID : ok l lg t → t <= now →
  ok (decision_Allow l now sessionID).1 (record_grant lg now sessionID (decision_Allow l now sessionID).2) now ∧
  rl_Scope <$> (decision_Allow l now sessionID).2 = rule (dl_maxSessions l) lg now sessionID ∧
  dl_maxSessions (decision_Allow l now sessionID).1 = dl_maxSessions l.
Proof.
  intros [Hk0 H0] Ht. destruct (keyed_prune _ _ _ _ _ now Hk0 Ht) as [Hk Htr]. assert (Hnow : 0 < now) by lia.
  unfold decision_Allow, rule. set (m := prune_all (now - limiterWindow) (dl_bySession l)) in *.
  destruct (session_IsZero sessionID).
  { split_and!; try done. destruct Hk0 as [(c & Hc & Htc) Hl Hp Hz Hs Hw]. split; [|done]. constructor; try done; [exists c; by split; [lia|]|].
    eapply Forall_impl; [exact Hp|]. cbn. lia. }
  assert (Hsame : ok (MkDecisionLimiter (dl_maxSessions l) m) lg now) by done. cbn [dl_maxSessions].
  pose proof (keyed_grant _ _ _ _ _ sessionID Hk Htr Hnow) as Hgrant.
  rewrite (crowded_lookup _ m _ _ _ Htr), (spent_lookup _ m _ _ _ Htr) in *.
  destruct (m !! sessionID) as [w|] eqn:Hw; cbn [default from_option id] in *.
  - destruct (DecisionsPerSessionMinute <=? _)%nat eqn:Hlim; [by rewrite insert_id|].
    split_and!; [split; [by apply Hgrant|done]|done..].
  - destruct (dl_maxSessions l <=? Z.of_nat (size m)) eqn:Hfull; [done|].
    destruct (DecisionsPerSessionMinute <=? _)%nat eqn:Hlim; [done|]. split_and!; [split; [by apply Hgrant|done]|done..].
Qed.

Lemma decision_runs_ok maximum l lg t : runs maximum l lg t →
  ok l lg t ∧ limiter_capacity maximum defaultMaxDecisionSessions = Some (dl_maxSessions l).
Proof.
  induction 1 as [l t Hl Ht|l lg t now sessionID _ (IH & Hcap) Hnow].
  - unfold NewDecisionLimiter in Hl. apply bind_Some in Hl as (cap & Hcap & [= <-]). pose proof Hcap as Hc'.
    unfold limiter_capacity in Hc'. case_match eqn:Hr; [done|]. injection Hc' as Hc'. apply orb_false_elim in Hr as [Hr%Z.ltb_ge _].
    split; [|done]. split; [apply keyed_empty; cbn; lia|done].
  - destruct (decision_call_ok l lg t now sessionID IH Hnow) as (? & _ & ->). done.
Qed.

End Decisions.

(** ** A sample history: five attempts from one source, a second apart *)

Definition sample_source : Addr := V4 3232235777.
Definition sample_start : time := 1000 * Hour.

Fixpoint sample_history (n : nat) (l : LoginLimiter) (lg : log) (now : time) : LoginLimiter * log * time :=
  match n with
  | O => (l, lg, now)
  | S n =>
      let r := login_Allow l (now + Second) sample_source in
      sample_history n r.1 (Login.record_grant lg (now + Second) sample_source r.2) (now + Second)
  end.

Definition sample_limiter : LoginLimiter := MkLoginLimiter 4096 [] ∅.

Lemma sample_history_runs maximum n l lg t : Login.runs maximum l lg t →
  Login.runs maximum (sample_history n l lg t).1.1 (sample_history n l lg t).1.2 (sample_history n l lg t).2.
Proof.
  revert l lg t. induction n as [|n IH]; intros l lg t Hr; [done|]. cbn [sample_history]. apply IH. apply (Login.runs_call _ _ _ t); [done|].
  unfold Second. lia.
Qed.

Definition sample_state (n : nat) : LoginLimiter := (sample_history n sample_limiter [] sample_start).1.1.
Definition sample_log (n : nat) : log := (sample_history n sample_limiter [] sample_start).1.2.
Definition sample_now (n : nat) : time := (sample_history n sample_limiter [] sample_start).2.

Lemma sample_runs n : Login.runs 0 (sample_state n) (sample_log n) (sample_now n).
Proof. exact (sample_history_runs 0 n sample_limiter [] sample_start (Login.runs_new 0 sample_limiter sample_start eq_refl eq_refl)). Qed.

(** ** Claims *)



(** Whatever the order of calls, no minute (half-open, ending at any instant)
    holds more than twenty granted logins, nor more than five of one source, and
    the table of sources never exceeds its capacity; and no minute holds more than
    five granted decisions of one session. *)
Theorem granted_attempts_are_bounded maximum l lg t dmaximum dl dlg dt :
  Login.runs maximum l lg t → Decisions.runs dmaximum dl dlg dt →
  (∀ e, length (within e lg.*2) ≤ LoginGlobalPerMinute)%nat ∧
  (∀ e source, length (within e (times_of source lg)) ≤ LoginPerSourcePerMinute)%nat ∧
  Z.of_nat (size (ll_bySource l)) <= ll_maxSources l ∧
  (∀ e sessionID, length (within e (times_of sessionID dlg)) ≤ DecisionsPerSessionMinute)%nat ∧
  Z.of_nat (size (dl_bySession dl)) <= dl_maxSessions dl.
Proof.
  intros Hr Hd. destruct (Login.runs_ok _ _ _ _ Hr) as ([Hk _ Ht _] & _). destruct (Decisions.decision_runs_ok _ _ _ _ Hd) as ([Hdk _] & _).
  destruct Hk, Hdk. by split_and!.
Qed.

Lemma granted_attempts_are_bounded_witness :
  length (within (sample_now 9) (times_of sample_source (sample_log 9))) = 5%nat ∧
  (length (within (sample_now 9) (times_of sample_source (sample_log 9))) ≤ LoginPerSourcePerMinute)%nat.
Proof.
  split; [vm_compute; reflexivity|].
  exact (proj1 (proj2 (granted_attempts_are_bounded 0 (sample_state 9) (sample_log 9) (sample_now 9) 0
    (MkDecisionLimiter 4096 ∅) [] 1 (sample_runs 9) (Decisions.runs_new 0 (MkDecisionLimiter 4096 ∅) 1 eq_refl eq_refl)))
    (sample_now 9) sample_source).
Defined.

(** A refused source learns exactly when to come back: the delay is positive, at
    most a minute and covered by the Retry-After header; an attempt before it is
    over is refused for the same reason; and once it is over, with nothing granted
    in between, a source that was over its own limit is granted and the global
    limit no longer refuses. *)
Theorem retry_after_is_exact maximum l lg t now source e :
  Login.runs maximum l lg t → t <= now → addr_IsValid source = true → (login_Allow l now source).2 = Some e →
  0 < rl_RetryAfter e <= limiterWindow ∧ rl_RetryAfter e <= RetryAfterSeconds e * Second ∧
  ∀ now', now <= now' →
    let again := rl_Scope <$> (login_Allow (login_Allow l now source).1 now' source).2 in
    if now' <? now + rl_RetryAfter e then again = Some (rl_Scope e)
    else match rl_Scope e with
         | RateLimitLoginSource => again = None
         | RateLimitLoginGlobal => again ≠ Some RateLimitLoginGlobal
         | _ => True
         end.
Proof.
  intros Hr Ht Hv He. destruct (Login.runs_ok _ _ _ _ Hr) as (Hok & _ & Hmax).
  destruct (Login.rule_retry _ _ _ _ _ _ Hok Ht Hv Hmax He) as ([Hd Hsec] & Hb & Ha).
  split_and!; [apply Hd..| |]; [destruct e as [s d]; apply (Hsec s)|]. intros now' Hnow'.
  destruct (Login.call_ok l lg t now source Hok Ht) as (Hok' & _ & Hcap). rewrite He in Hok'.
  destruct (Login.call_ok _ _ now now' source Hok' Hnow') as (_ & -> & _). rewrite Hcap. cbn [Login.record_grant].
  destruct (Z.ltb_spec now' (now + rl_RetryAfter e)); [by apply Hb|]. by apply Ha.
Qed.

Lemma retry_after_is_exact_witness : ∃ e, (login_Allow (sample_state 5) (sample_now 5) sample_source).2 = Some e ∧
  rl_Scope <$> (login_Allow (login_Allow (sample_state 5) (sample_now 5) sample_source).1
                 (sample_now 5 + rl_RetryAfter e) sample_source).2 = None.
Proof.
  exists (MkRateLimitError RateLimitLoginSource (56 * Second)).
  assert ((login_Allow (sample_state 5) (sample_now 5) sample_source).2
    = Some (MkRateLimitError RateLimitLoginSource (56 * Second))) as He by (vm_compute; reflexivity).
  split; [exact He|].
  pose proof (proj2 (proj2 (retry_after_is_exact 0 (sample_state 5) (sample_log 5) (sample_now 5) (sample_now 5) sample_source _
    (sample_runs 5) (Z.le_refl _) eq_refl He)) (sample_now 5 + 56 * Second) ltac:(unfold Second; lia)) as H.
  cbn [rl_RetryAfter rl_Scope] in H |- *. rewrite Z.ltb_irrefl in H. exact H.
Defined.
