(* ===== verification/Hmac.v ===== *)
(** * Keyed digests ([crypto/hmac] over [crypto/sha256]) and hexadecimal input

    HMAC-SHA256 as RFC 2104 defines it, executable, and [hex.DecodeString]. *)

From S2P Require Import Prelude GoStrings Sha256 Json Base64.
Local Open Scope Z_scope.

Definition hmac_block_bytes : nat := 64.

(** A longer key is hashed, a shorter one padded with zeros. *)
Definition hmac_key (key : list Z) : list Z :=
  let key := if (hmac_block_bytes <? length key)%nat then sha256 key else key in
  key ++ replicate (hmac_block_bytes - length key) 0.

Definition hmac_sha256 (key message : list Z) : list Z :=
  let key := hmac_key key in
  sha256 ((Z.lxor 92 <$> key) ++ sha256 ((Z.lxor 54 <$> key) ++ message)).

Lemma hmac_sha256_length key message : length (hmac_sha256 key message) = 32%nat.
Proof. apply sha256_length. Qed.

Lemma hmac_sha256_bytes key message : Forall is_byte (hmac_sha256 key message).
Proof. apply sha256_bytes. Qed.

(** RFC 4231, test case 2. *)
Example hmac_sha256_rfc4231 :
  hex_of_bytes (hmac_sha256 (bytes_of "Jefe") (bytes_of "what do ya want for nothing?")) =
  "5bdcc146bf60754e6a042426089575c75a003f089d2739839dec58b964ec3843".
Proof. vm_compute. reflexivity. Qed.

(** ** [hex.DecodeString]: pairs of digits of either case *)

Fixpoint hex_decode (l : list ascii) : option (list Z) :=
  match l with
  | hi :: lo :: l => h ← hex_value hi; v ← hex_value lo; r ← hex_decode l; Some (16 * h + v :: r)
  | [_] => None
  | [] => Some []
  end.

Lemma hex_value_digit d : 0 <= d < 16 → hex_value (hex_digit d) = Some d.
Proof.
  intros Hd. assert (In d (Z.of_nat <$> seq 0 16)) as Hin.
  { apply list_elem_of_In, list_elem_of_fmap. exists (Z.to_nat d). split; [lia|]. apply list_elem_of_In, in_seq. lia. }
  assert (forallb (λ d, bool_decide (hex_value (hex_digit d) = Some d)) (Z.of_nat <$> seq 0 16) = true) as Hall by (vm_compute; reflexivity).
  rewrite forallb_forall in Hall. by apply Hall, bool_decide_eq_true in Hin.
Qed.

Lemma hex_decode_encode l : Forall is_byte l → hex_decode (chars (hex_of_bytes l)) = Some l.
Proof.
  unfold hex_of_bytes. rewrite chars_implode. induction 1 as [|b l Hb _ IH]; [done|]. cbn [flat_map app hex_decode].
  unfold is_byte in Hb. pose proof (Z.div_mod b 16 ltac:(lia)). pose proof (Z.mod_pos_bound b 16 ltac:(lia)).
  rewrite !hex_value_digit by (Z.to_euclidean_division_equations; lia). cbn [mbind option_bind]. rewrite IH. cbn. f_equal. f_equal. lia.
Qed.

Lemma hex_decode_length l bs : hex_decode l = Some bs → length l = (2 * length bs)%nat.
Proof.
  revert bs. assert (∀ n bs, (length l ≤ n)%nat → hex_decode l = Some bs → length l = (2 * length bs)%nat) as H; [|by eauto].
  intros n. revert l. induction n as [|n IH]; intros [|a [|b l]] bs Hn Hl; cbn in *; simplify_eq; try done; try lia.
  destruct (hex_value a), (hex_value b), (hex_decode l) as [r|] eqn:E; cbn in Hl; simplify_eq. cbn.
  rewrite (IH l r) by (done || lia). lia.
Qed.

Definition hex_value_range (c : ascii) : bool := match hex_value c with Some v => (0 <=? v) && (v <? 16) | None => true end.

Lemma hex_value_small c v : hex_value c = Some v → 0 <= v < 16.
Proof.
  intros H. pose proof (all_chars hex_value_range ltac:(vm_compute; reflexivity) c) as Hr. unfold hex_value_range in Hr.
  rewrite H in Hr. apply andb_prop in Hr as [?%Z.leb_le ?%Z.ltb_lt]. lia.
Qed.

Lemma hex_decode_bytes l bs : hex_decode l = Some bs → Forall is_byte bs.
Proof.
  assert (∀ n bs, (length l ≤ n)%nat → hex_decode l = Some bs → Forall is_byte bs) as H; [|by eauto].
  intros n. revert l. induction n as [|n IH]; intros [|a [|b l]] bs' Hn Hl; cbn in *; simplify_eq; try done; try lia.
  destruct (hex_value a) as [va|] eqn:Ha, (hex_value b) as [vb|] eqn:Hb, (hex_decode l) as [r|] eqn:E; cbn in Hl; simplify_eq.
  apply hex_value_small in Ha, Hb. constructor; [unfold is_byte; lia|]. apply (IH l); [lia|done].
Qed.
