(* ===== verification/Session.v ===== *)
(** * Administrator sessions ([internal/adminauth/session.go])

    Opaque session and CSRF tokens, of which only keyed digests are kept, and the
    record of a session with its times.  An operation reads the clock one or more
    times, so every reading is an argument ([now], and [later] for the second
    reading of the rotations); the entropy reader is the list of bytes it will
    deliver, and what remains of it is returned.  The methods' nil receivers are
    not modelled. *)

From S2P Require Import Prelude GoStrings Sha256 Base64 Hmac GoTime Limiter.
Local Open Scope Z_scope.

Definition Microsecond : duration := 1000.
Definition SessionAbsoluteLifetime : duration := 8 * Hour.
Definition SessionIdleLifetime : duration := 30 * Minute.
Definition PasswordStepUpAfter : duration := 15 * Minute.
Definition tokenBytes : nat := 32.
Definition minimumSessionHMACBytes : nat := 32.

Definition sessionTokenDomain : list Z := bytes_of "sentinelflow/adminauth/session-token/v1" ++ [0].
Definition csrfTokenDerivationDomain : list Z := bytes_of "sentinelflow/adminauth/csrf-token-derivation/v1" ++ [0].
Definition csrfTokenDigestDomain : list Z := bytes_of "sentinelflow/adminauth/csrf-token-digest/v1" ++ [0].

Inductive AuthError :=
  | ErrInvalidCredentials
  | ErrInvalidPasswordHash
  | ErrInvalidConfiguration
  | ErrSessionInvalid
  | ErrStepUpRequired
  | ErrBrowserRequest
  | ErrEntropyUnavailable
  | ErrRateLimited (e : RateLimitError).

(** [Digest], [[sha256.Size]byte]. *)
Definition Digest : Type := list Z.
Definition zeroDigest : Digest := replicate 32 0.

(** [base64.RawURLEncoding] on byte slices. *)
Definition encode_token (bytes : list Z) : string := implode (encode64 bytes).
Definition decode_token (encoded : string) : option (list Z) := decode64 true (chars encoded).

(** ** Session identifiers *)

Definition slice (from to : nat) (l : list Z) : list Z := take (to - from) (drop from l).

(** [fmt.Sprintf("%08x-%04x-%04x-%04x-%012x", ...)] *)
Definition session_String (id : SessionID) : string :=
  hex_of_bytes (slice 0 4 id) +:+ "-" +:+ hex_of_bytes (slice 4 6 id) +:+ "-" +:+ hex_of_bytes (slice 6 8 id)
    +:+ "-" +:+ hex_of_bytes (slice 8 10 id) +:+ "-" +:+ hex_of_bytes (slice 10 16 id).

Definition is_dash (c : ascii) : bool := bool_decide (c = "-"%char).

Definition ParseSessionID (value : string) : result AuthError SessionID :=
  let dash_at (i : nat) := bool_decide (chars value !! i = Some "-"%char) in
  if negb (len value =? 36) || negb (dash_at 8%nat) || negb (dash_at 13%nat) || negb (dash_at 18%nat) || negb (dash_at 23%nat)
  then Err ErrSessionInvalid
  else
    let compact := List.filter (λ c, negb (is_dash c)) (chars value) in
    if negb (length compact =? 32)%nat || negb (bool_decide (compact = to_lower_ascii <$> compact)) then Err ErrSessionInvalid
    else
      match hex_decode compact with
      | Some id =>
          if negb (length id =? 16)%nat then Err ErrSessionInvalid
          else if session_IsZero id || negb (Z.shiftr (nth 6 id 0) 4 =? 4) || negb (Z.shiftr (nth 8 id 0) 6 =? 2)
                  || negb (String.eqb (session_String id) value)
          then Err ErrSessionInvalid
          else Ok id
      | None => Err ErrSessionInvalid
      end.

(** ** Records *)

(** [validPublicIdentity], from [password.go]; a byte that is not ASCII is part of a
    rune outside the listed ranges. *)
Definition identity_char (c : ascii) : bool :=
  between "a" "z" c || between "A" "Z" c || between "0" "9" c || bool_decide (c ∈ ["-"; "_"; "."; "@"]%char).

Definition validPublicIdentity (value : string) : bool :=
  negb ((len value <? 1) || (128 <? len value)) && forallb identity_char (chars value).

Record SessionRecord := MkSessionRecord {
  sr_ID : SessionID;
  sr_ActorID : string;
  sr_TokenDigest : Digest;
  sr_CSRFDigest : Digest;
  sr_AuthenticatedAt : time;
  sr_CreatedAt : time;
  sr_LastSeenAt : time;
  sr_ExpiresAt : time;
  sr_RevokedAt : option time;
  sr_RotationParentID : option SessionID
}.

Record IssuedSession := MkIssuedSession {
  is_Record : SessionRecord;
  is_sessionToken : list Z;
  is_csrfToken : list Z
}.

Definition SessionToken (s : IssuedSession) : string := encode_token (is_sessionToken s).
Definition CSRFToken (s : IssuedSession) : string := encode_token (is_csrfToken s).

Record SessionRotation := MkSessionRotation { rot_Revoked : SessionRecord; rot_Issued : IssuedSession }.

(** Updates of the copy that [record.LastSeenAt = now] and [RevokedAt = &t] make. *)
Definition with_LastSeenAt (t : time) (r : SessionRecord) : SessionRecord :=
  MkSessionRecord (sr_ID r) (sr_ActorID r) (sr_TokenDigest r) (sr_CSRFDigest r) (sr_AuthenticatedAt r) (sr_CreatedAt r)
    t (sr_ExpiresAt r) (sr_RevokedAt r) (sr_RotationParentID r).

Definition with_RevokedAt (t : option time) (r : SessionRecord) : SessionRecord :=
  MkSessionRecord (sr_ID r) (sr_ActorID r) (sr_TokenDigest r) (sr_CSRFDigest r) (sr_AuthenticatedAt r) (sr_CreatedAt r)
    (sr_LastSeenAt r) (sr_ExpiresAt r) t (sr_RotationParentID r).

Definition validateRecordTimes (record : SessionRecord) (now : time) : option AuthError :=
  if session_IsZero (sr_ID record) || negb (validPublicIdentity (sr_ActorID record))
    || bool_decide (is_Some (sr_RevokedAt record)) || IsZero (sr_CreatedAt record)
    || IsZero (sr_AuthenticatedAt record) || IsZero (sr_LastSeenAt record) || IsZero (sr_ExpiresAt record)
    || After (sr_AuthenticatedAt record) (sr_CreatedAt record) || After (sr_CreatedAt record) (sr_LastSeenAt record)
    || After (sr_ExpiresAt record) (sr_CreatedAt record + SessionAbsoluteLifetime)
    || negb (After (sr_ExpiresAt record) (sr_CreatedAt record))
    || Before now (sr_CreatedAt record) || Before now (sr_AuthenticatedAt record) || Before now (sr_LastSeenAt record)
    || negb (Before now (sr_ExpiresAt record)) || negb (Before now (sr_LastSeenAt record + SessionIdleLifetime))
  then Some ErrSessionInvalid
  else None.

(** ** The manager *)

Record SessionManager := MkSessionManager { sm_hmacKey : list Z }.

Definition NewSessionManager (hmacKey : list Z) : result AuthError SessionManager :=
  if (length hmacKey <? minimumSessionHMACBytes)%nat then Err ErrInvalidConfiguration else Ok (MkSessionManager hmacKey).

(** [io.ReadFull] *)
Definition ReadFull (n : nat) (entropy : list Z) : option (list Z * list Z) :=
  if (length entropy <? n)%nat then None else Some (take n entropy, drop n entropy).

(** The version and variant bits of a UUIDv4. *)
Definition uuid_bits (id : SessionID) : SessionID :=
  <[8%nat := Z.lor (Z.land (nth 8 id 0) 63) 128]> (<[6%nat := Z.lor (Z.land (nth 6 id 0) 15) 64]> id).

Section manager.
  Context (m : SessionManager).

Definition session_digest (domain raw : list Z) : Digest := hmac_sha256 (sm_hmacKey m) (domain ++ raw).

Definition digestPresented (domain : list Z) (encoded : string) : Digest * bool :=
  match decode_token encoded with
  | Some decoded =>
      if negb (length decoded =? tokenBytes)%nat || negb (String.eqb (encode_token decoded) encoded)
         || existsb (λ c, bool_decide (c = "="%char)) (chars encoded)
      then (session_digest domain (replicate tokenBytes 0), false)
      else (session_digest domain decoded, true)
  | None => (session_digest domain (replicate tokenBytes 0), false)
  end.

(** The record's identifier and token digest, sixteen and thirty-two bytes. *)
Definition deriveCSRFToken (record : SessionRecord) : option (list Z) :=
  if (length (sm_hmacKey m) <? minimumSessionHMACBytes)%nat || session_IsZero (sr_ID record) then None
  else Some (session_digest csrfTokenDerivationDomain (sr_ID record ++ sr_TokenDigest record)).

Definition issue (actorID : string) (authenticatedAt createdAt : time) (parent : option SessionID) (entropy : list Z)
  : result AuthError IssuedSession * list Z :=
  let authenticatedAt := Truncate authenticatedAt Microsecond in
  let createdAt := Truncate createdAt Microsecond in
  match ReadFull 16 entropy with
  | None => (Err ErrEntropyUnavailable, [])
  | Some (id, entropy) =>
      let id := uuid_bits id in
      match ReadFull tokenBytes entropy with
      | None => (Err ErrEntropyUnavailable, [])
      | Some (sessionToken, entropy) =>
          let tokenDigest := session_digest sessionTokenDomain sessionToken in
          let record := MkSessionRecord id actorID tokenDigest zeroDigest authenticatedAt createdAt createdAt
                          (createdAt + SessionAbsoluteLifetime) None parent in
          match deriveCSRFToken record with
          | None => (Err ErrInvalidConfiguration, entropy)
          | Some csrfToken =>
              let record := MkSessionRecord id actorID tokenDigest (session_digest csrfTokenDigestDomain csrfToken)
                              authenticatedAt createdAt createdAt (createdAt + SessionAbsoluteLifetime) None parent in
              (Ok (MkIssuedSession record sessionToken csrfToken), entropy)
          end
      end
  end.

Definition IssueLogin (now : time) (actorID : string) (entropy : list Z) : result AuthError IssuedSession * list Z :=
  if negb (validPublicIdentity actorID) then (Err ErrInvalidConfiguration, entropy)
  else issue actorID now now None entropy.

Definition Validate (now : time) (record : SessionRecord) (presentedToken : string) : result AuthError SessionRecord :=
  match validateRecordTimes record now with
  | Some err => Err err
  | None =>
      let '(presentedDigest, canonical) := digestPresented sessionTokenDomain presentedToken in
      let digestOK := bool_decide (sr_TokenDigest record = presentedDigest) in
      if negb canonical || negb digestOK then Err ErrSessionInvalid else Ok (with_LastSeenAt now record)
  end.

(** [origins] is [OriginPolicy.Validate]. *)
Definition session_ValidateBrowserRequest (now : time) (record : SessionRecord) (presentedToken presentedCSRF origin : string)
    (origins : string → bool) : result AuthError SessionRecord :=
  if negb (origins origin) then Err ErrBrowserRequest
  else
    match Validate now record presentedToken with
    | Err _ => Err ErrBrowserRequest
    | Ok validated =>
        let '(presentedDigest, canonical) := digestPresented csrfTokenDigestDomain presentedCSRF in
        let digestOK := bool_decide (sr_CSRFDigest record = presentedDigest) in
        if negb canonical || negb digestOK then Err ErrBrowserRequest else Ok validated
    end.

Definition session_ValidateRevokedBrowserReplay (record : SessionRecord) (presentedToken presentedCSRF origin : string)
    (origins : string → bool) : result AuthError SessionRecord :=
  match sr_RevokedAt record with
  | None => Err ErrBrowserRequest
  | Some revokedAt =>
      if negb (origins origin) then Err ErrBrowserRequest
      else if session_IsZero (sr_ID record) || negb (validPublicIdentity (sr_ActorID record)) || IsZero (sr_CreatedAt record)
        || IsZero (sr_AuthenticatedAt record) || IsZero (sr_LastSeenAt record) || IsZero (sr_ExpiresAt record)
        || bool_decide (sr_TokenDigest record = zeroDigest) || bool_decide (sr_CSRFDigest record = zeroDigest)
        || bool_decide (sr_TokenDigest record = sr_CSRFDigest record)
        || After (sr_AuthenticatedAt record) (sr_CreatedAt record) || After (sr_CreatedAt record) (sr_LastSeenAt record)
        || negb (Before (sr_LastSeenAt record) (sr_ExpiresAt record))
        || After (sr_ExpiresAt record) (sr_CreatedAt record + SessionAbsoluteLifetime)
        || negb (After (sr_ExpiresAt record) (sr_CreatedAt record)) || Before revokedAt (sr_LastSeenAt record)
        || negb (Before revokedAt (sr_ExpiresAt record))
      then Err ErrBrowserRequest
      else if match sr_RotationParentID record with
              | Some parent => session_IsZero parent || bool_decide (parent = sr_ID record)
              | None => false
              end
      then Err ErrBrowserRequest
      else
        let '(presentedSessionDigest, sessionCanonical) := digestPresented sessionTokenDomain presentedToken in
        let '(presentedCSRFDigest, csrfCanonical) := digestPresented csrfTokenDigestDomain presentedCSRF in
        let sessionOK := bool_decide (sr_TokenDigest record = presentedSessionDigest) in
        let csrfOK := bool_decide (sr_CSRFDigest record = presentedCSRFDigest) in
        if negb sessionCanonical || negb csrfCanonical || negb sessionOK || negb csrfOK then Err ErrBrowserRequest
        else Ok (with_RevokedAt (Some revokedAt) record)
  end.

Definition session_RecoverCSRFToken (now : time) (record : SessionRecord) (presentedToken : string) : result AuthError string :=
  match Validate now record presentedToken with
  | Err _ => Err ErrSessionInvalid
  | Ok validated =>
      match deriveCSRFToken validated with
      | None => Err ErrSessionInvalid
      | Some csrfToken =>
          let digest := session_digest csrfTokenDigestDomain csrfToken in
          if negb (bool_decide (sr_CSRFDigest validated = digest)) then Err ErrSessionInvalid
          else Ok (encode_token csrfToken)
      end
  end.

Definition session_RequiresStepUp (now : time) (record : SessionRecord) : result AuthError bool :=
  match validateRecordTimes record now with
  | Some err => Err err
  | None => Ok (PasswordStepUpAfter <? Sub now (sr_AuthenticatedAt record))
  end.

Definition session_RotateAfterPrivilege (now later : time) (record : SessionRecord) (presentedToken : string) (entropy : list Z)
  : result AuthError SessionRotation * list Z :=
  match Validate now record presentedToken with
  | Err err => (Err err, entropy)
  | Ok validated =>
      let now := Truncate later Microsecond in
      let revoked := with_RevokedAt (Some now) (with_LastSeenAt now validated) in
      let '(issued, entropy) := issue (sr_ActorID record) (sr_AuthenticatedAt record) now (Some (sr_ID record)) entropy in
      (issued ← issued; Ok (MkSessionRotation revoked issued), entropy)
  end.

(** [verifier] is the configured actor and [CredentialVerifier.VerifyPassword] on
    the password; only after the session is valid and the actor right is the
    password tried. *)
Definition session_StepUp (now later : time) (record : SessionRecord) (presentedToken : string)
    (verifier_actorID : string) (VerifyPassword : option AuthError) (entropy : list Z)
  : result AuthError SessionRotation * list Z :=
  match Validate now record presentedToken with
  | Err err => (Err err, entropy)
  | Ok validated =>
      if negb (String.eqb verifier_actorID (sr_ActorID record)) || bool_decide (is_Some VerifyPassword)
      then (Err ErrInvalidCredentials, entropy)
      else
        let revoked := with_RevokedAt (Some later) validated in
        let '(issued, entropy) := issue (sr_ActorID record) later later (Some (sr_ID record)) entropy in
        (issued ← issued; Ok (MkSessionRotation revoked issued), entropy)
  end.

Definition Revoke (now later : time) (record : SessionRecord) (presentedToken : string) : result AuthError SessionRecord :=
  match Validate now record presentedToken with
  | Err err => Err err
  | Ok validated => Ok (with_RevokedAt (Some later) validated)
  end.

End manager.
