(* ===== verification/SessionSpec.v ===== *)
(** * What an administrator session guarantees

    The records a store of sessions can hold are well formed, a token
    authenticates exactly the record it was issued for and only inside its
    lifetimes, and a revoked session never authenticates again. *)

From S2P Require Import Prelude GoStrings Sha256 Base64 Hmac GoTime Limiter Session.
Local Open Scope Z_scope.

(** ** Tokens *)

Definition is_token (l : list Z) : Prop := length l = tokenBytes ∧ Forall is_byte l.

Lemma decode_encode_token l : Forall is_byte l → decode_token (encode_token l) = Some l.
Proof. intros Hl. unfold decode_token, encode_token. rewrite chars_implode. by apply decode_encode64. Qed.

Lemma sextet_not_pad : ∀ n, 0 <= n < 64 → negb (bool_decide (sextet_char n = "="%char)) = true.
Proof. apply all_sextets. vm_compute. reflexivity. Qed.

Lemma encode_token_unpadded l : Forall is_byte l → existsb (λ c, bool_decide (c = "="%char)) (chars (encode_token l)) = false.
Proof.
  intros Hl. unfold encode_token. rewrite chars_implode, encode64_split. pose proof (split64_range l Hl) as Hr.
  induction Hr as [|n ns Hn _ IH]; [done|]. cbn. pose proof (sextet_not_pad n Hn) as Hp. apply negb_true_iff in Hp. by rewrite Hp.
Qed.

Section tokens.
  Context (m : SessionManager).

(** A presented token is canonical exactly when it is the text of some token. *)
Lemma digestPresented_token domain l : is_token l → digestPresented m domain (encode_token l) = (session_digest m domain l, true).
Proof.
  intros [Hlen Hb]. unfold digestPresented. rewrite decode_encode_token by done.
  by rewrite Hlen, encode_token_unpadded, String.eqb_refl.
Qed.

Lemma mapM_bytes cs ns : mapM char_sextet cs = Some ns → Forall (λ n, 0 <= n < 64) ns.
Proof. intros H. by destruct (mapM_sextet_inv _ _ H). Qed.

Lemma digestPresented_canonical domain encoded d : digestPresented m domain encoded = (d, true) →
  ∃ l, is_token l ∧ encoded = encode_token l ∧ d = session_digest m domain l.
Proof.
  unfold digestPresented. intros H. destruct (decode_token encoded) as [l|] eqn:Hd; [|by apply pair_equal_spec in H as [_ ?]].
  case_match eqn:Hc; apply pair_equal_spec in H as [<- Ht]; [done|].
  apply orb_false_elim in Hc as [[Hlen Heq]%orb_false_elim _]. apply negb_false_iff in Hlen, Heq.
  apply Nat.eqb_eq in Hlen. apply String.eqb_eq in Heq. exists l. split_and!; [split; [done|]|done|done].
  unfold decode_token, decode64 in Hd. apply bind_Some in Hd as (ns & Hns & Hj).
  by destruct (join64_inv _ _ (mapM_bytes _ _ Hns) Hj).
Qed.

(** ** Records *)

(** The record of a session some manager issued, as any sequence of operations leaves it. *)
Record session_ok (r : SessionRecord) : Prop := MkSessionOk {
  ok_id : length (sr_ID r) = 16%nat ∧ Forall is_byte (sr_ID r);
  ok_uuid : Z.shiftr (nth 6 (sr_ID r) 0) 4 = 4 ∧ Z.shiftr (nth 8 (sr_ID r) 0) 6 = 2;
  ok_actor : validPublicIdentity (sr_ActorID r) = true;
  ok_token : ∃ token, is_token token ∧ sr_TokenDigest r = session_digest m sessionTokenDomain token;
  ok_csrf : sr_CSRFDigest r = session_digest m csrfTokenDigestDomain
              (session_digest m csrfTokenDerivationDomain (sr_ID r ++ sr_TokenDigest r));
  ok_created : 0 < sr_AuthenticatedAt r <= sr_CreatedAt r ∧ sr_AuthenticatedAt r mod Microsecond = 0 ∧ sr_CreatedAt r mod Microsecond = 0;
  ok_seen : sr_CreatedAt r <= sr_LastSeenAt r ∧ (sr_RevokedAt r = None → sr_LastSeenAt r < sr_ExpiresAt r);
  ok_expires : sr_ExpiresAt r = sr_CreatedAt r + SessionAbsoluteLifetime;
  ok_revoked : ∀ t, sr_RevokedAt r = Some t → sr_LastSeenAt r <= t
}.

Lemma uuid_not_zero (id : SessionID) : Z.shiftr (nth 6 id 0) 4 = 4 → session_IsZero id = false.
Proof. intros H. unfold session_IsZero. apply bool_decide_eq_false. intros ->. by vm_compute in H. Qed.

(** [validateRecordTimes] on a well-formed record. *)
Lemma validateRecordTimes_ok r now : session_ok r →
  validateRecordTimes r now = None ↔
  sr_RevokedAt r = None ∧ sr_LastSeenAt r <= now < sr_ExpiresAt r ∧ now < sr_LastSeenAt r + SessionIdleLifetime.
Proof.
  intros [_ [Hu _] Ha _ _ [Hc _] [Hs _] He _]. unfold validateRecordTimes. rewrite (uuid_not_zero _ Hu), Ha, He.
  unfold IsZero, After, Before, SessionAbsoluteLifetime, SessionIdleLifetime, Hour, Minute, Second in *.
  destruct (sr_RevokedAt r) as [t|]; cbn [negb orb].
  { rewrite bool_decide_eq_true_2 by done. cbn [orb]. split; [done|by intros [? _]]. }
  rewrite bool_decide_eq_false_2 by (by intros [? ?]). cbn [orb]. split.
  - intros H. case_match eqn:E; [done|]. repeat (apply orb_false_elim in E as [E ?]). breflect.
    split_and!; [done|lia..].
  - intros (_ & Hn & Hi). case_match eqn:E; [exfalso|done].
    repeat (apply orb_true_iff in E as [E|E]); breflect; lia.
Qed.

(** A token authenticates a record exactly when it is live, in time, and the token's digest is the record's. *)
Lemma Validate_iff r now presented r' : session_ok r →
  Validate m now r presented = Ok r' ↔
  sr_RevokedAt r = None ∧ sr_LastSeenAt r <= now < sr_ExpiresAt r ∧ now < sr_LastSeenAt r + SessionIdleLifetime ∧
  r' = with_LastSeenAt now r ∧
  ∃ token, is_token token ∧ presented = encode_token token ∧ sr_TokenDigest r = session_digest m sessionTokenDomain token.
Proof.
  intros Hok. pose proof (validateRecordTimes_ok r now Hok) as Ht. unfold Validate.
  destruct (validateRecordTimes r now) as [err|]; [split; [done|]|].
  - intros (H1 & H2 & H3 & _). pose proof (proj2 Ht (conj H1 (conj H2 H3))). done.
  - destruct (proj1 Ht eq_refl) as (H1 & H2 & H3).
    destruct (digestPresented m sessionTokenDomain presented) as [d canonical] eqn:Hd. split.
    + intros H. case_match eqn:Hc; [done|]. injection H as <-. apply orb_false_elim in Hc as [Hc1 Hc2].
      apply negb_false_iff in Hc1, Hc2. subst canonical. apply bool_decide_eq_true in Hc2.
      destruct (digestPresented_canonical _ _ _ Hd) as (l & Hl & -> & ->). split_and!; [done|lia..|done|by exists l].
    + intros (_ & _ & _ & -> & token & Htok & -> & Hdig). rewrite digestPresented_token in Hd by done.
      apply pair_equal_spec in Hd as [<- <-]. by rewrite bool_decide_eq_true_2.
Qed.

Lemma Validate_shape r now presented r' : Validate m now r presented = Ok r' →
  validateRecordTimes r now = None ∧ r' = with_LastSeenAt now r.
Proof.
  unfold Validate. intros H. destruct (validateRecordTimes r now); [done|]. split; [done|].
  destruct (digestPresented m sessionTokenDomain presented) as [d canonical]. case_match; [done|]. by injection H as <-.
Qed.

Lemma Validate_ok r now presented r' : session_ok r → Validate m now r presented = Ok r' → session_ok r'.
Proof.
  intros Hok (H1 & H2 & H3 & -> & _)%Validate_iff; [|done]. destruct Hok as [A B C D E F G I J].
  constructor; [exact A|exact B|exact C|exact D|exact E|exact F|cbn; split; [lia|intros _; lia]|exact I|]. cbn. by rewrite H1.
Qed.

(** ** Issuing *)

Lemma land_lor_bits b (k : Z) (low high : Z) : 0 <= k → high = 2 ^ k → low = 2 ^ k - 1 → 0 <= b →
  Z.shiftr (Z.lor (Z.land b low) high) k = Z.shiftr high k.
Proof.
  intros Hk -> -> Hb. rewrite Z.shiftr_lor, Z.shiftr_land. rewrite (Z.shiftr_div_pow2 (2 ^ k - 1)) by done.
  rewrite Z.div_small by lia. by rewrite Z.land_0_r.
Qed.

Lemma Truncate_micro t : Truncate t Microsecond mod Microsecond = 0 ∧ Truncate t Microsecond <= t ∧
  (Microsecond <= t → 0 < Truncate t Microsecond).
Proof.
  unfold Truncate, Microsecond. pose proof (Z.div_mod t 1000 ltac:(lia)). pose proof (Z.mod_pos_bound t 1000 ltac:(lia)).
  split_and!; [|lia..]. replace (t - t mod 1000) with (t / 1000 * 1000) by lia. apply Z.mod_mul. lia.
Qed.

Lemma Truncate_mono a b : a <= b → Truncate a Microsecond <= Truncate b Microsecond.
Proof.
  unfold Truncate, Microsecond. intros H. pose proof (Z.div_mod a 1000 ltac:(lia)). pose proof (Z.div_mod b 1000 ltac:(lia)).
  pose proof (Z.div_le_mono a b 1000 ltac:(lia) H). lia.
Qed.

Lemma Truncate_aligned t : t mod Microsecond = 0 → Truncate t Microsecond = t.
Proof. unfold Truncate. lia. Qed.

Definition uuid_byte_ok (b k high : Z) : bool :=
  let v := Z.lor (Z.land b (2 ^ k - 1)) high in (0 <=? v) && (v <? 256) && (Z.shiftr v k =? Z.shiftr high k).

Lemma uuid_bytes b : is_byte b → uuid_byte_ok b 4 64 = true ∧ uuid_byte_ok b 6 128 = true.
Proof.
  intros Hb. assert (Hall : forallb (λ b, uuid_byte_ok b 4 64 && uuid_byte_ok b 6 128) (Z.of_nat <$> seq 0 256) = true) by (vm_compute; reflexivity).
  rewrite forallb_forall in Hall. specialize (Hall b). apply andb_prop, Hall, list_elem_of_In, list_elem_of_fmap.
  unfold is_byte in Hb. exists (Z.to_nat b). split; [lia|]. apply list_elem_of_In, in_seq. lia.
Qed.

Lemma uuid_bits_ok id : length id = 16%nat → Forall is_byte id →
  length (uuid_bits id) = 16%nat ∧ Forall is_byte (uuid_bits id) ∧
  Z.shiftr (nth 6 (uuid_bits id) 0) 4 = 4 ∧ Z.shiftr (nth 8 (uuid_bits id) 0) 6 = 2.
Proof.
  intros Hlen Hb. destruct id as [|b0 [|b1 [|b2 [|b3 [|b4 [|b5 [|b6 [|b7 [|b8 id]]]]]]]]]; try done.
  repeat (apply Forall_cons in Hb as [? Hb]). unfold uuid_bits. cbn [nth insert list_insert length] in *.
  destruct (uuid_bytes b6) as [E6 _]; [done|]. destruct (uuid_bytes b8) as [_ E8]; [done|].
  unfold uuid_byte_ok in *. change (2 ^ 4 - 1) with 15 in E6. change (2 ^ 6 - 1) with 63 in E8.
  apply andb_prop in E6 as [[E6 E6']%andb_prop E6'']. apply andb_prop in E8 as [[E8 E8']%andb_prop E8''].
  apply Z.leb_le in E6, E8. apply Z.ltb_lt in E6', E8'. apply Z.eqb_eq in E6'', E8''.
  split_and!; [done| |done|done]. repeat (apply Forall_cons; split; [by (done || unfold is_byte; lia)|]). done.
Qed.

(** A derived token has the shape of a token. *)
Lemma digest_is_token domain raw : is_token (session_digest m domain raw).
Proof. split; [apply hmac_sha256_length|apply hmac_sha256_bytes]. Qed.

Record fresh_session (issued : IssuedSession) (actorID : string) (authenticatedAt createdAt : time) (parent : option SessionID) : Prop := MkFresh {
  fresh_ok : session_ok (is_Record issued);
  fresh_key : (minimumSessionHMACBytes ≤ length (sm_hmacKey m))%nat;
  fresh_token : is_token (is_sessionToken issued) ∧
    sr_TokenDigest (is_Record issued) = session_digest m sessionTokenDomain (is_sessionToken issued);
  fresh_csrf : is_csrfToken issued = session_digest m csrfTokenDerivationDomain (sr_ID (is_Record issued) ++ sr_TokenDigest (is_Record issued));
  fresh_actor : sr_ActorID (is_Record issued) = actorID;
  fresh_times : sr_AuthenticatedAt (is_Record issued) = Truncate authenticatedAt Microsecond ∧
    sr_CreatedAt (is_Record issued) = Truncate createdAt Microsecond ∧ sr_LastSeenAt (is_Record issued) = Truncate createdAt Microsecond;
  fresh_live : sr_RevokedAt (is_Record issued) = None;
  fresh_parent : sr_RotationParentID (is_Record issued) = parent
}.

Lemma ReadFull_bytes n l x rest : ReadFull n l = Some (x, rest) → Forall is_byte l → length x = n ∧ Forall is_byte x ∧ Forall is_byte rest.
Proof.
  unfold ReadFull. intros H Hl. case_match eqn:E; [done|]. injection H as <- <-. apply Nat.ltb_ge in E.
  split_and!; [rewrite length_take; lia|by apply Forall_take|by apply Forall_drop].
Qed.

Lemma issue_ok actorID authenticatedAt createdAt parent entropy issued rest :
  issue m actorID authenticatedAt createdAt parent entropy = (Ok issued, rest) →
  Forall is_byte entropy → validPublicIdentity actorID = true → Microsecond <= authenticatedAt <= createdAt →
  fresh_session issued actorID authenticatedAt createdAt parent.
Proof.
  unfold issue. intros H Hent Hactor Htimes.
  destruct (ReadFull 16 entropy) as [[id e1]|] eqn:H1; [|discriminate H].
  destruct (ReadFull_bytes _ _ _ _ H1 Hent) as (Hid & Hidb & He1).
  destruct (ReadFull tokenBytes e1) as [[token e2]|] eqn:H2; [|discriminate H].
  destruct (ReadFull_bytes _ _ _ _ H2 He1) as (Htok & Htokb & _).
  destruct (uuid_bits_ok id Hid Hidb) as (Hu1 & Hu2 & Hu3 & Hu4). set (uid := uuid_bits id) in *. clearbody uid.
  unfold deriveCSRFToken in H. cbn [sr_ID sr_TokenDigest] in H. destruct (_ || _) eqn:Hd; cbn iota in H; [discriminate H|].
  apply pair_equal_spec in H as [H _]. apply (f_equal (from_ok (MkIssuedSession (is_Record issued) [] []))) in H. cbn [from_ok] in H. subst issued.
  destruct (Truncate_micro authenticatedAt) as (Ha1 & Ha2 & Ha3). destruct (Truncate_micro createdAt) as (Hc1 & Hc2 & Hc3).
  pose proof (Truncate_mono _ _ (proj2 Htimes)) as Hac.
  constructor; cbn [is_Record is_sessionToken is_csrfToken sr_ID sr_TokenDigest sr_ActorID sr_AuthenticatedAt sr_CreatedAt sr_LastSeenAt sr_RevokedAt sr_RotationParentID];
    [|apply orb_false_elim in Hd as [Hd _]; by apply Nat.ltb_ge in Hd|by split|reflexivity|reflexivity|by split_and!|reflexivity|reflexivity].
  constructor; cbn [sr_ID sr_TokenDigest sr_CSRFDigest sr_ActorID sr_AuthenticatedAt sr_CreatedAt sr_LastSeenAt sr_ExpiresAt sr_RevokedAt];
    [by split|by split|done| |reflexivity| | |reflexivity|done].
  - exists token. split; [by split|reflexivity].
  - split_and!; [lia|lia|exact Ha1|exact Hc1].
  - split; [lia|intros _]. unfold SessionAbsoluteLifetime, Hour, Minute, Second. lia.
Qed.

(** Revoking keeps a record well formed. *)
Lemma session_ok_revoked r seen t : session_ok r → sr_CreatedAt r <= seen <= t →
  session_ok (with_RevokedAt (Some t) (with_LastSeenAt seen r)).
Proof.
  intros [A B C D E F G I J] Hs. constructor; [exact A|exact B|exact C|exact D|exact E|exact F|cbn; split; [lia|done]|exact I|].
  cbn. intros t' [= <-]. lia.
Qed.

Lemma aligned_positive t : 0 < t → t mod Microsecond = 0 → Microsecond <= t.
Proof. unfold Microsecond. intros Ht Hm. pose proof (Z.div_mod t 1000 ltac:(lia)). lia. Qed.

(** What a rotation yields: the old record revoked, a fresh child of it. *)
Record rotated (r : SessionRecord) (rot : SessionRotation) : Prop := MkRotated {
  rotated_revoked : ∃ seen t, rot_Revoked rot = with_RevokedAt (Some t) (with_LastSeenAt seen r) ∧ sr_CreatedAt r <= seen <= t;
  rotated_live : sr_RevokedAt r = None;
  rotated_child : ∃ authenticatedAt createdAt,
    fresh_session (rot_Issued rot) (sr_ActorID r) authenticatedAt createdAt (Some (sr_ID r))
}.

Lemma rotate_ok now later r presented entropy rot rest : session_ok r → now <= later → Forall is_byte entropy →
  session_RotateAfterPrivilege m now later r presented entropy = (Ok rot, rest) → rotated r rot.
Proof.
  unfold session_RotateAfterPrivilege. intros Hok Hl He H.
  destruct (Validate m now r presented) as [v|err] eqn:Hv; [|discriminate H].
  apply Validate_iff in Hv as (H1 & H2 & H3 & -> & _); [|done].
  destruct (issue m (sr_ActorID r) (sr_AuthenticatedAt r) _ _ entropy) as [[issued|err] e] eqn:Hi; [|discriminate H].
  cbn [mbind result_bind] in H. apply pair_equal_spec in H as [H _].
  apply (f_equal (from_ok rot)) in H. cbn [from_ok] in H. subst rot.
  pose proof Hok as [_ _ Ha _ _ (Hc1 & Hc2 & Hc3) [Hs _] _ _].
  assert (Htr : sr_CreatedAt r <= Truncate later Microsecond).
  { rewrite <-(Truncate_aligned (sr_CreatedAt r)) by done. apply Truncate_mono. lia. }
  assert (Hi' := issue_ok _ _ _ _ _ _ _ Hi He Ha ltac:(split; [apply aligned_positive; [lia|done]|lia])).
  constructor; cbn [rot_Revoked rot_Issued]; [|done|eauto].
  exists (Truncate later Microsecond), (Truncate later Microsecond). split; [reflexivity|lia].
Qed.

Lemma stepup_ok now later r presented actor verify entropy rot rest : session_ok r → now <= later → Forall is_byte entropy →
  session_StepUp m now later r presented actor verify entropy = (Ok rot, rest) → rotated r rot ∧ verify = None ∧ actor = sr_ActorID r.
Proof.
  unfold session_StepUp. intros Hok Hl He H.
  destruct (Validate m now r presented) as [v|err] eqn:Hv; [|discriminate H].
  apply Validate_iff in Hv as (H1 & H2 & H3 & -> & _); [|done].
  destruct (negb (String.eqb actor (sr_ActorID r)) || bool_decide (is_Some verify)) eqn:Hc; [discriminate H|].
  apply orb_false_elim in Hc as [Hactor%negb_false_iff%String.eqb_eq Hver%bool_decide_eq_false].
  destruct (issue m (sr_ActorID r) later later _ entropy) as [[issued|err] e] eqn:Hi; [|discriminate H].
  cbn [mbind result_bind] in H. apply pair_equal_spec in H as [H _].
  apply (f_equal (from_ok rot)) in H. cbn [from_ok] in H. subst rot.
  pose proof Hok as [_ _ Ha _ _ (Hc1 & Hc2 & Hc3) [Hs _] _ _].
  pose proof (aligned_positive (sr_CreatedAt r) ltac:(lia) Hc3).
  assert (Hi' := issue_ok _ _ _ _ _ _ _ Hi He Ha ltac:(lia)).
  split_and!; [constructor; cbn [rot_Revoked rot_Issued]; [|done|eauto]|by apply eq_None_not_Some|done].
  exists now, later. split; [reflexivity|lia].
Qed.

Lemma revoke_ok now later r presented r' : session_ok r → now <= later → Revoke m now later r presented = Ok r' →
  r' = with_RevokedAt (Some later) (with_LastSeenAt now r) ∧ sr_RevokedAt r = None ∧ sr_CreatedAt r <= now <= later.
Proof.
  unfold Revoke. intros Hok Hl H. destruct (Validate m now r presented) as [v|err] eqn:Hv; [|discriminate H].
  apply Validate_iff in Hv as (H1 & H2 & H3 & -> & _); [|done]. injection H as <-. destruct (ok_seen _ Hok). split_and!; [done..|lia|lia].
Qed.

(** ** A store of sessions

    What the administrator API persists: one row per identifier, written only with
    what an operation of the manager returned for the row it read, both sides of a
    rotation together, and no identifier twice. *)

Local Notation store := (gmap SessionID SessionRecord).

Definition insert_record (r : SessionRecord) (s : store) : store := <[sr_ID r := r]> s.

Inductive store_step (s : store) : store → Prop :=
  | step_login now actorID entropy issued rest :
      Microsecond <= now → Forall is_byte entropy → IssueLogin m now actorID entropy = (Ok issued, rest) →
      s !! sr_ID (is_Record issued) = None → store_step s (insert_record (is_Record issued) s)
  | step_touch id r now presented r' :
      s !! id = Some r → Validate m now r presented = Ok r' → store_step s (insert_record r' s)
  | step_rotate id r now later presented entropy rot rest :
      s !! id = Some r → now <= later → Forall is_byte entropy →
      session_RotateAfterPrivilege m now later r presented entropy = (Ok rot, rest) →
      s !! sr_ID (is_Record (rot_Issued rot)) = None →
      store_step s (insert_record (is_Record (rot_Issued rot)) (insert_record (rot_Revoked rot) s))
  | step_stepup id r now later presented actor verify entropy rot rest :
      s !! id = Some r → now <= later → Forall is_byte entropy →
      session_StepUp m now later r presented actor verify entropy = (Ok rot, rest) →
      s !! sr_ID (is_Record (rot_Issued rot)) = None →
      store_step s (insert_record (is_Record (rot_Issued rot)) (insert_record (rot_Revoked rot) s))
  | step_revoke id r now later presented r' :
      s !! id = Some r → now <= later → Revoke m now later r presented = Ok r' → store_step s (insert_record r' s).

Record store_ok (s : store) : Prop := MkStoreOk {
  store_records : ∀ id r, s !! id = Some r → sr_ID r = id ∧ session_ok r;
  store_parents : ∀ id r p, s !! id = Some r → sr_RotationParentID r = Some p →
    p ≠ id ∧ ∃ pr, s !! p = Some pr ∧ is_Some (sr_RevokedAt pr) ∧ sr_ActorID pr = sr_ActorID r;
  store_children : ∀ id1 id2 r1 r2 p, s !! id1 = Some r1 → s !! id2 = Some r2 →
    sr_RotationParentID r1 = Some p → sr_RotationParentID r2 = Some p → id1 = id2
}.

(** Fields no operation on a row changes. *)
Definition same_session (r r' : SessionRecord) : Prop :=
  sr_ID r' = sr_ID r ∧ sr_ActorID r' = sr_ActorID r ∧ sr_TokenDigest r' = sr_TokenDigest r ∧
  sr_AuthenticatedAt r' = sr_AuthenticatedAt r ∧ sr_CreatedAt r' = sr_CreatedAt r ∧ sr_ExpiresAt r' = sr_ExpiresAt r ∧
  sr_RotationParentID r' = sr_RotationParentID r.

(** Every step rewrites one live row, adds one row, or does both. *)
Inductive store_effect (s : store) : store → Prop :=
  | effect_add r : session_ok r → sr_RevokedAt r = None → sr_RotationParentID r = None → s !! sr_ID r = None →
      store_effect s (<[sr_ID r := r]> s)
  | effect_update r r' : s !! sr_ID r = Some r → sr_RevokedAt r = None → session_ok r' → same_session r r' →
      store_effect s (<[sr_ID r := r']> s)
  | effect_rotate r r' child : s !! sr_ID r = Some r → sr_RevokedAt r = None → session_ok r' → same_session r r' →
      is_Some (sr_RevokedAt r') → session_ok child → sr_RevokedAt child = None → s !! sr_ID child = None →
      sr_RotationParentID child = Some (sr_ID r) → sr_ActorID child = sr_ActorID r →
      store_effect s (<[sr_ID child := child]> (<[sr_ID r := r']> s)).

Lemma rotated_effect s r rot : s !! sr_ID r = Some r → session_ok r → rotated r rot →
  s !! sr_ID (is_Record (rot_Issued rot)) = None →
  store_effect s (insert_record (is_Record (rot_Issued rot)) (insert_record (rot_Revoked rot) s)).
Proof.
  intros Hr Hok [(seen & t & -> & Hs) Hlive (a & c & Hf)] Hn. unfold insert_record.
  change (sr_ID (with_RevokedAt (Some t) (with_LastSeenAt seen r))) with (sr_ID r).
  apply effect_rotate; [done|done|by apply session_ok_revoked|by split_and!|by eexists|apply Hf|apply Hf|done|apply Hf|apply Hf].
Qed.

Lemma store_step_effect s s' : store_ok s → store_step s s' → store_effect s s'.
Proof.
  intros Hs Hstep. destruct Hstep as [now actorID entropy issued rest Hnow He Hi Hn|id r now presented r' Hr Hv
    |id r now later presented entropy rot rest Hr Hl He Hv Hn|id r now later presented actor verify entropy rot rest Hr Hl He Hv Hn
    |id r now later presented r' Hr Hl Hv].
  - unfold IssueLogin in Hi. destruct (validPublicIdentity actorID) eqn:Hact; cbn [negb] in Hi; [|discriminate Hi].
    apply issue_ok in Hi as []; [|done|done|lia]. by apply effect_add.
  - destruct (store_records _ Hs _ _ Hr) as [<- Hok]. pose proof (Validate_ok _ _ _ _ Hok Hv) as Hok'.
    apply Validate_iff in Hv as (H1 & _ & _ & -> & _); [|done]. by apply (effect_update s r).
  - destruct (store_records _ Hs _ _ Hr) as [<- Hok]. apply rotate_ok in Hv; [|done..]. by apply (rotated_effect s r).
  - destruct (store_records _ Hs _ _ Hr) as [<- Hok]. apply stepup_ok in Hv as [Hv _]; [|done..]. by apply (rotated_effect s r).
  - destruct (store_records _ Hs _ _ Hr) as [<- Hok]. apply revoke_ok in Hv as (-> & Hlive & Hc); [|done..].
    apply (effect_update s r); [done|done|by apply session_ok_revoked|by split_and!].
Qed.

Lemma add_ok s r : store_ok s → session_ok r → s !! sr_ID r = None →
  (∀ p, sr_RotationParentID r = Some p →
     (∃ pr, s !! p = Some pr ∧ is_Some (sr_RevokedAt pr) ∧ sr_ActorID pr = sr_ActorID r) ∧
     ∀ id x, s !! id = Some x → sr_RotationParentID x ≠ Some p) →
  store_ok (<[sr_ID r := r]> s).
Proof.
  intros [H1 H2 H3] Hok Hn Hpar.
  assert (Hkeep : ∀ id pr, s !! id = Some pr → id ≠ sr_ID r ∧ <[sr_ID r := r]> s !! id = Some pr).
  { intros id pr Hpr. assert (id ≠ sr_ID r) by (intros ->; by rewrite Hn in Hpr). by rewrite lookup_insert_ne. }
  constructor.
  - intros id x [[<- <-]|[_ Hx]]%lookup_insert_Some; [done|by apply H1].
  - intros id x p [[<- <-]|[Hne Hx]]%lookup_insert_Some Hp.
    + destruct (Hpar p Hp) as [(pr & Hpr & ? & ?) _]. destruct (Hkeep p pr Hpr) as [? ?]. split; [done|]. by exists pr.
    + destruct (H2 id x p Hx Hp) as (? & pr & Hpr & ? & ?). destruct (Hkeep p pr Hpr). split; [done|]. by exists pr.
  - intros id1 id2 r1 r2 p [[<- <-]|[_ Hx1]]%lookup_insert_Some [[<- <-]|[_ Hx2]]%lookup_insert_Some Hp1 Hp2; [done|..].
    + by destruct (Hpar p Hp1) as [_ []%(λ f, f id2 r2 Hx2)].
    + by destruct (Hpar p Hp2) as [_ []%(λ f, f id1 r1 Hx1)].
    + by apply (H3 id1 id2 r1 r2 p).
Qed.

Lemma update_ok s r r' : store_ok s → s !! sr_ID r = Some r → sr_RevokedAt r = None → session_ok r' → same_session r r' →
  store_ok (<[sr_ID r := r']> s) ∧
  ∀ id x, <[sr_ID r := r']> s !! id = Some x → sr_RotationParentID x ≠ Some (sr_ID r).
Proof.
  intros [H1 H2 H3] Hr Hlive Hok (Hid & Hact & _ & _ & _ & _ & Hp').
  assert (Hold : ∀ id x, <[sr_ID r := r']> s !! id = Some x → ∃ y, s !! id = Some y ∧ sr_RotationParentID x = sr_RotationParentID y ∧
    sr_ActorID x = sr_ActorID y).
  { intros id x [[<- <-]|[_ Hx]]%lookup_insert_Some; [by exists r|by exists x]. }
  assert (Hkeep : ∀ id y, s !! id = Some y → is_Some (sr_RevokedAt y) → <[sr_ID r := r']> s !! id = Some y).
  { intros id y Hy Hry. rewrite lookup_insert_ne; [done|]. intros <-. rewrite Hr in Hy. injection Hy as <-.
    rewrite Hlive in Hry. by apply is_Some_None in Hry. }
  split; [constructor|].
  - intros id x [[<- <-]|[_ Hx]]%lookup_insert_Some; [done|by apply H1].
  - intros id x p Hx Hp. destruct (Hold id x Hx) as (y & Hy & Hpy & Hay). rewrite Hpy in Hp.
    destruct (H2 id y p Hy Hp) as (? & pr & Hpr & ? & ?). split; [done|]. exists pr. rewrite Hay. split; [by apply Hkeep|done].
  - intros id1 id2 r1 r2 p Hx1 Hx2 Hp1 Hp2. destruct (Hold _ _ Hx1) as (y1 & Hy1 & E1 & _). destruct (Hold _ _ Hx2) as (y2 & Hy2 & E2 & _).
    rewrite E1 in Hp1. rewrite E2 in Hp2. by apply (H3 id1 id2 y1 y2 p).
  - intros id x Hx Hp. destruct (Hold id x Hx) as (y & Hy & Hpy & _). rewrite Hpy in Hp.
    destruct (H2 id y _ Hy Hp) as (_ & pr & Hpr & Hrev & _). rewrite Hr in Hpr. injection Hpr as <-.
    rewrite Hlive in Hrev. by apply is_Some_None in Hrev.
Qed.

Lemma store_effect_ok s s' : store_ok s → store_effect s s' → store_ok s'.
Proof.
  intros Hs Heff.
  destruct Heff as [r Hok Hlive Hpar Hn|r r' Hr Hlive Hok Hsame|r r' child Hr Hlive Hok Hsame Hrev Hcok Hclive Hcn Hcpar Hcact].
  - apply add_ok; [done..|]. intros p Hp. by rewrite Hpar in Hp.
  - by apply update_ok.
  - destruct (update_ok s r r' Hs Hr Hlive Hok Hsame) as [Hs' Hno].
    assert (sr_ID child ≠ sr_ID r) by (intros E; by rewrite E, Hr in Hcn).
    apply add_ok; [done|done|by rewrite lookup_insert_ne|].
    intros p Hp. rewrite Hcpar in Hp. injection Hp as <-. split; [|done]. exists r'. rewrite lookup_insert_eq.
    destruct Hsame as (_ & Ha & _). by rewrite Ha, Hcact.
Qed.

Definition reachable : store → Prop := rtc store_step ∅.

Lemma store_ok_empty : store_ok ∅.
Proof. constructor; intros *; by rewrite lookup_empty. Qed.

Lemma store_steps_ok s s' : store_ok s → rtc store_step s s' → store_ok s'.
Proof. intros Hs Hr. induction Hr as [|s1 s2 s3 H1 _ IH]; [done|]. apply IH. by eapply store_effect_ok, store_step_effect. Qed.

Lemma store_reachable_ok s : reachable s → store_ok s.
Proof. apply store_steps_ok, store_ok_empty. Qed.

(** A row lives on: revoked ones unchanged, live ones with the same identity and lifetime. *)
Lemma effect_row s s' id r : store_ok s → store_effect s s' → s !! id = Some r →
  ∃ r', s' !! id = Some r' ∧ same_session r r' ∧ (is_Some (sr_RevokedAt r) → r' = r).
Proof.
  intros Hs Heff Hr0.
  assert (Hupd : ∀ x x', s !! sr_ID x = Some x → sr_RevokedAt x = None → same_session x x' →
    ∃ r', <[sr_ID x := x']> s !! id = Some r' ∧ same_session r r' ∧ (is_Some (sr_RevokedAt r) → r' = r)).
  { intros x x' Hx Hlive Hsame. destruct (decide (sr_ID x = id)) as [<-|Hne].
    - rewrite lookup_insert_eq. rewrite Hx in Hr0. injection Hr0 as <-. exists x'. split_and!; [done..|].
      rewrite Hlive. by intros ?%is_Some_None.
    - rewrite lookup_insert_ne by done. exists r. by split_and!. }
  destruct Heff as [x Hok Hlive Hpar Hn|x x' Hx Hlive Hok Hsame|x x' child Hx Hlive Hok Hsame Hrev Hcok Hclive Hcn Hcpar Hcact].
  - exists r. rewrite lookup_insert_ne by (intros E; by rewrite E, Hr0 in Hn). by split_and!.
  - by apply Hupd.
  - rewrite lookup_insert_ne by (intros E; by rewrite E, Hr0 in Hcn). by apply Hupd.
Qed.

Lemma steps_row s s' id r : store_ok s → rtc store_step s s' → s !! id = Some r →
  ∃ r', s' !! id = Some r' ∧ same_session r r' ∧ (is_Some (sr_RevokedAt r) → r' = r).
Proof.
  intros Hs Hr. revert r Hs. induction Hr as [s|s1 s2 s3 H1 _ IH]; intros r Hs Hr; [exists r; by split_and!|].
  pose proof (store_step_effect _ _ Hs H1) as Heff. destruct (effect_row _ _ _ _ Hs Heff Hr) as (r2 & Hr2 & Hsame & Hrev).
  destruct (IH r2 (store_effect_ok _ _ Hs Heff) Hr2) as (r3 & Hr3 & Hsame3 & Hrev3).
  exists r3. split; [done|]. split; [unfold same_session in *; intuition congruence|]. intros Hrr. rewrite (Hrev Hrr) in Hrev3. by apply Hrev3.
Qed.

(** ** Operations on a revoked record, and on the record of known tokens *)



Lemma derive_ok r : session_ok r → (minimumSessionHMACBytes ≤ length (sm_hmacKey m))%nat →
  deriveCSRFToken m r = Some (session_digest m csrfTokenDerivationDomain (sr_ID r ++ sr_TokenDigest r)).
Proof.
  intros Hok Hk. unfold deriveCSRFToken. rewrite (uuid_not_zero _ (proj1 (ok_uuid _ Hok))).
  by rewrite (proj2 (Nat.ltb_ge _ _)).
Qed.

(** The tokens of a fresh session work on every later version of its row. *)
Lemma fresh_tokens issued actorID a c parent r now origin origins :
  fresh_session issued actorID a c parent → session_ok r → same_session (is_Record issued) r → sr_RevokedAt r = None →
  sr_LastSeenAt r <= now < sr_ExpiresAt r → now < sr_LastSeenAt r + SessionIdleLifetime → origins origin = true →
  Validate m now r (SessionToken issued) = Ok (with_LastSeenAt now r) ∧
  session_ValidateBrowserRequest m now r (SessionToken issued) (CSRFToken issued) origin origins = Ok (with_LastSeenAt now r) ∧
  session_RecoverCSRFToken m now r (SessionToken issued) = Ok (CSRFToken issued).
Proof.
  intros [Hok0 Hkey [Htok Hdig] Hcsrf _ _ _ _] Hok (Hid & _ & Htd & _) Hlive Ht Hi Ho.
  assert (Hv : Validate m now r (SessionToken issued) = Ok (with_LastSeenAt now r)).
  { apply Validate_iff; [done|]. split_and!; [done|lia..|done|]. exists (is_sessionToken issued). by rewrite Htd. }
  assert (Hct : is_csrfToken issued = session_digest m csrfTokenDerivationDomain (sr_ID r ++ sr_TokenDigest r)) by (by rewrite Hcsrf, Hid, Htd).
  pose proof (Validate_ok _ _ _ _ Hok Hv) as Hok'. split_and!; [done|..].
  - unfold session_ValidateBrowserRequest. rewrite Ho, Hv. cbn [negb]. unfold CSRFToken. rewrite Hct.
    rewrite digestPresented_token by apply digest_is_token. rewrite bool_decide_eq_true_2 by apply (ok_csrf _ Hok). done.
  - unfold session_RecoverCSRFToken. rewrite Hv, (derive_ok _ Hok' Hkey).
    rewrite bool_decide_eq_true_2 by apply (ok_csrf _ Hok'). cbn [negb]. unfold CSRFToken. by rewrite Hct.
Qed.

End tokens.

(** ** A sample session *)

Definition sample_manager : SessionManager := MkSessionManager (Z.of_nat <$> seq 0 32).
Definition sample_login : time := 63000000000 * Second.
Definition sample_entropy : list Z := Z.of_nat <$> seq 100 48.

Definition sample_issued : IssuedSession := Eval vm_compute in
  from_ok (MkIssuedSession (MkSessionRecord [] "" [] [] 0 0 0 0 None None) [] [])
    (IssueLogin sample_manager sample_login "administrator" sample_entropy).1.

Lemma sample_issued_eq : IssueLogin sample_manager sample_login "administrator" sample_entropy = (Ok sample_issued, []).
Proof. vm_compute. reflexivity. Qed.

Lemma sample_entropy_bytes : Forall is_byte sample_entropy.
Proof.
  apply List.Forall_forall. intros z Hz. apply list_elem_of_In, list_elem_of_fmap in Hz as (n & -> & Hn).
  apply list_elem_of_In, in_seq in Hn. unfold is_byte. lia.
Qed.

Definition sample_store : gmap SessionID SessionRecord := insert_record (is_Record sample_issued) ∅.

Lemma sample_store_reachable : reachable sample_manager sample_store.
Proof.
  apply rtc_once. apply (step_login sample_manager ∅ sample_login "administrator" sample_entropy sample_issued []);
    [done|exact sample_entropy_bytes|exact sample_issued_eq|apply lookup_empty].
Qed.

Lemma sample_row : sample_store !! sr_ID (is_Record sample_issued) = Some (is_Record sample_issued).
Proof. apply lookup_insert_eq. Qed.

(** ** Claims *)

(** Every record a store of sessions can come to hold, over any sequence of
    logins, touches, rotations, step-ups and revocations, is well formed: a UUIDv4
    identifier, a public actor name, the keyed digest of a 32-byte token and the
    CSRF digest derived from it, times in order and an expiry eight hours after
    creation; a session made by rotation has a parent that is in the store, revoked
    and of the same actor, and no session has two children. *)
Theorem session_store_well_formed m s : reachable m s → store_ok m s.
Proof. apply store_reachable_ok. Qed.

Lemma session_store_well_formed_witness : store_ok sample_manager sample_store.
Proof. exact (session_store_well_formed sample_manager sample_store sample_store_reachable). Defined.

(** C29. A presented token authenticates a stored session exactly when the session is
    not revoked, is used not before it was last seen, less than thirty minutes
    after that and less than eight hours after its creation (whatever was touched in
    between), and the token is the canonical text of 32 bytes whose keyed digest is
    the stored one; the only effect is the new last-seen time. *)
Theorem session_authentication_exact m s id r now presented r' : reachable m s → s !! id = Some r →
  Validate m now r presented = Ok r' ↔
  sr_RevokedAt r = None ∧ sr_LastSeenAt r <= now < sr_CreatedAt r + 8 * Hour ∧ now < sr_LastSeenAt r + 30 * Minute ∧
  r' = with_LastSeenAt now r ∧
  ∃ token, is_token token ∧ presented = encode_token token ∧ sr_TokenDigest r = session_digest m sessionTokenDomain token.
Proof.
  intros Hs Hr. destruct (store_records _ _ (store_reachable_ok _ _ Hs) _ _ Hr) as [_ Hok].
  rewrite (Validate_iff m r now presented r' Hok), (ok_expires _ _ Hok). done.
Qed.

Lemma session_authentication_exact_witness :
  Validate sample_manager (sample_login + 30 * Minute) (is_Record sample_issued) (SessionToken sample_issued) ≠
  Ok (with_LastSeenAt (sample_login + 30 * Minute) (is_Record sample_issued)).
Proof.
  intros H. apply (proj1 (session_authentication_exact sample_manager sample_store _ _ _ _ _ sample_store_reachable sample_row)) in H.
  destruct H as (_ & _ & H & _). vm_compute in H. discriminate H.
Defined.

(** The tokens returned by a login keep working on the session's row through any
    later history of the store, for as long as the row is live and in time: the
    session token authenticates, the CSRF token is accepted from an allowed origin,
    and recovering the CSRF token gives the very token issued. *)
Theorem issued_tokens_authenticate m s s' now0 actorID entropy issued rest r now origin origins :
  reachable m s → Microsecond <= now0 → Forall is_byte entropy → IssueLogin m now0 actorID entropy = (Ok issued, rest) →
  s !! sr_ID (is_Record issued) = None → rtc (store_step m) (insert_record (is_Record issued) s) s' →
  s' !! sr_ID (is_Record issued) = Some r → sr_RevokedAt r = None →
  sr_LastSeenAt r <= now < sr_ExpiresAt r → now < sr_LastSeenAt r + SessionIdleLifetime → origins origin = true →
  Validate m now r (SessionToken issued) = Ok (with_LastSeenAt now r) ∧
  session_ValidateBrowserRequest m now r (SessionToken issued) (CSRFToken issued) origin origins = Ok (with_LastSeenAt now r) ∧
  session_RecoverCSRFToken m now r (SessionToken issued) = Ok (CSRFToken issued).
Proof.
  intros Hs H0 He Hi Hn Hsteps Hr Hlive Ht Hidle Ho.
  pose proof (step_login m s now0 actorID entropy issued rest H0 He Hi Hn) as Hlogin.
  pose proof (store_reachable_ok m _ (rtc_r _ _ _ Hs Hlogin)) as Hs1.
  destruct (steps_row m _ _ (sr_ID (is_Record issued)) (is_Record issued) Hs1 Hsteps) as (r2 & Hr2 & Hsame & _);
    [apply lookup_insert_eq|].
  rewrite Hr in Hr2. injection Hr2 as <-. destruct (store_records _ _ (store_steps_ok _ _ _ Hs1 Hsteps) _ _ Hr) as [_ Hok].
  unfold IssueLogin in Hi. destruct (validPublicIdentity actorID) eqn:Hact; cbn [negb] in Hi; [|discriminate Hi].
  apply issue_ok in Hi; [|done|done|lia]. by apply (fresh_tokens m issued actorID now0 now0 None).
Qed.

Lemma issued_tokens_authenticate_witness :
  Validate sample_manager (sample_login + 29 * Minute) (is_Record sample_issued) (SessionToken sample_issued) =
  Ok (with_LastSeenAt (sample_login + 29 * Minute) (is_Record sample_issued)).
Proof.
  exact (proj1 (issued_tokens_authenticate sample_manager ∅ sample_store sample_login "administrator" sample_entropy sample_issued []
    (is_Record sample_issued) (sample_login + 29 * Minute) "" (λ _, true) (rtc_refl _ ∅) ltac:(vm_compute; discriminate) sample_entropy_bytes
    sample_issued_eq (lookup_empty _) (rtc_refl _ _) sample_row eq_refl ltac:(vm_compute; split; [discriminate|reflexivity])
    ltac:(vm_compute; reflexivity) eq_refl)).
Defined.


