(* ===== verification/AdminAuth.v ===== *)
(** * The administrator boundary ([internal/adminauth]: [origin.go], [password.go],
    [cookie.go], [boundary.go])

    Exact browser origins, the Argon2id verifier, the session cookie and the
    boundary that composes them with the limiters and the session manager.
    Argon2id ([golang.org/x/crypto]) is the parameter [work]; a password check
    returns with its verdict the inputs it hashed. *)

From S2P Require Import Prelude GoStrings Sha256 Base64 Hmac GoTime GatewayPath Limiter Session.
Local Open Scope Z_scope.

Definition contains (c : ascii) (l : list ascii) : bool := existsb (λ x, bool_decide (x = c)) l.

(** ** Origins *)

Definition scheme_letter (c : ascii) : bool := between "a" "z" c || between "A" "Z" c.
Definition scheme_other (c : ascii) : bool := between "0" "9" c || bool_decide (c ∈ ["+"; "-"; "."]%char).

(** [url.getScheme]: the scheme before the first colon, and the rest; [None] when there is none. *)
Fixpoint url_scheme (first : bool) (l : list ascii) : option (list ascii * list ascii) :=
  match l with
  | [] => None
  | c :: l =>
      if scheme_letter c || (negb first && scheme_other c) then
        '(scheme, rest) ← url_scheme false l; Some (c :: scheme, rest)
      else if is_colon c && negb first then Some ([], l)
      else None
  end.

Record url := MkUrl { u_Scheme : list ascii; u_Host : list ascii; u_ForceQuery : bool }.

(** A port after the last colon, digits only and perhaps none. *)
Definition valid_optional_port (authority : list ascii) : bool :=
  match last (split_on ":" authority) with
  | Some port => forallb is_digit port || negb (contains ":" authority)
  | None => false
  end.

(** [url.Parse], as far as [canonicalOrigin] can accept its result: [None] when it
    fails or when the URL has a user, a path, a query, a fragment or an opaque part,
    or a bracketed or escaped host, whose name is never a canonical one. *)
Definition parse_origin (raw : list ascii) : option url :=
  if contains "#" raw then None
  else
    '(scheme, rest) ← url_scheme true raw;
    let forced := bool_decide (last rest = Some "?"%char) && (length (List.filter (λ c, bool_decide (c = "?"%char)) rest) =? 1)%nat in
    let rest := if forced then take (length rest - 1) rest else rest in
    if contains "?" rest then None
    else
      match rest with
      | "/"%char :: "/"%char :: authority =>
          if contains "/" authority || contains "@" authority || contains "[" authority || contains "]" authority
             || contains "%" authority || negb (valid_optional_port authority)
          then None
          else Some (MkUrl (to_lower_ascii <$> scheme) authority forced)
      | _ => None
      end.

(** [URL.String] of such a URL. *)
Definition url_String (u : url) : list ascii :=
  u_Scheme u ++ chars "://" ++ u_Host u ++ (if u_ForceQuery u then ["?"%char] else []).

Definition Hostname (u : url) : list ascii := before_first ":" (u_Host u).
Definition Port (u : url) : list ascii := drop (S (length (Hostname u))) (u_Host u).

Definition canonicalASCIIHostname (host : list ascii) : bool :=
  if bool_decide (host = []) || (253 <? length host)%nat || negb (bool_decide (host = to_lower_ascii <$> host))
     || has_suffix (chars ".") host
     || existsb (λ c, bool_decide (c ∈ [" "; "009"; "013"; "010"]%char)) host
  then false
  else forallb label_ok (split_on "." host).

Definition canonicalOrigin (origin : string) : bool :=
  let raw := chars origin in
  if (len origin <? 8) || (512 <? len origin) || has_suffix (chars "/") raw then false
  else
    match parse_origin raw with
    | None => false
    | Some parsed =>
        let scheme := implode (u_Scheme parsed) in
        if (negb (String.eqb scheme "https") && negb (String.eqb scheme "http")) || bool_decide (u_Host parsed = [])
           || negb (bool_decide (url_String parsed = raw))
        then false
        else if String.eqb scheme "http" && negb (bool_decide (Hostname parsed = chars "localhost"))
                && negb (has_suffix (chars ".localhost") (Hostname parsed))
        then false
        else if negb (canonicalASCIIHostname (Hostname parsed)) then false
        else
          let port := Port parsed in
          if bool_decide (port = []) then true else port_ok port
    end.

(** [[][sha256.Size]byte] *)
Definition OriginPolicy : Type := list (list Z).

Fixpoint origin_loop (origins : list string) (seen : OriginPolicy) : result AuthError OriginPolicy :=
  match origins with
  | [] => Ok seen
  | origin :: origins =>
      if negb (canonicalOrigin origin) then Err ErrInvalidConfiguration
      else
        let digest := sha256 (bytes_of origin) in
        if bool_decide (digest ∈ seen) then Err ErrInvalidConfiguration else origin_loop origins (seen ++ [digest])
  end.

Definition NewOriginPolicy (origins : list string) : result AuthError OriginPolicy :=
  if (length origins =? 0)%nat || (32 <? length origins)%nat then Err ErrInvalidConfiguration else origin_loop origins [].

Definition origin_Validate (p : OriginPolicy) (origin : string) : option AuthError :=
  if negb (canonicalOrigin origin) then Some ErrBrowserRequest
  else
    let candidate := sha256 (bytes_of origin) in
    let matched := foldl (λ m d, Z.lor m (if bool_decide (candidate = d) then 1 else 0)) 0 p in
    if negb (matched =? 1) then Some ErrBrowserRequest else None.

Definition origin_allowed (p : OriginPolicy) (origin : string) : bool := negb (bool_decide (is_Some (origin_Validate p origin))).

(** ** Passwords *)

Definition MinArgon2MemoryKiB : Z := 65536.
Definition MinArgon2Iterations : Z := 3.
Definition MinArgon2Parallelism : Z := 2.
Definition MinArgon2SaltBytes : Z := 16.
Definition MinArgon2KeyBytes : Z := 32.
Definition MaxArgon2MemoryKiB : Z := 262144.
Definition MaxArgon2Iterations : Z := 10.
Definition MaxArgon2Parallelism : Z := 16.
Definition MaxArgon2SaltBytes : Z := 64.
Definition MaxArgon2KeyBytes : Z := 64.
Definition MaxPasswordBytes : nat := 1024.
Definition maxPHCLength : Z := 8192.
Definition maxPHCPartBytes : Z := 1024.

Record passwordHash := MkPasswordHash {
  ph_memory : Z;
  ph_iterations : Z;
  ph_parallelism : Z;
  ph_salt : list Z;
  ph_sum : list Z
}.

(** [base64.RawStdEncoding], the URL-safe alphabet with [+/] for [-_]. *)
Definition to_std (c : ascii) : ascii := if decide (c = "-"%char) then "+" else if decide (c = "_"%char) then "/" else c.
Definition of_std (c : ascii) : ascii :=
  if decide (c = "+"%char) then "-" else if decide (c = "/"%char) then "_" else if decide (c ∈ ["-"; "_"]%char) then "!" else c.

Definition std_encode (bytes : list Z) : string := implode (to_std <$> encode64 bytes).
Definition std_decode (encoded : string) : option (list Z) := decode64 true (of_std <$> chars encoded).

(** [base64.RawStdEncoding.EncodedLen]: [n*8/6], rounded up. *)
Definition EncodedLen (n : Z) : Z := n / 3 * 4 + (n mod 3 * 8 + 5) / 6.

Definition parseStrictUint (value : string) (bits : Z) : option Z :=
  if String.eqb value "" || (10 <? len value) || bool_decide (head (chars value) ∈ [Some "+"; Some "-"]%char)
     || ((1 <? len value) && bool_decide (head (chars value) = Some "0"%char))
  then None
  else if negb (forallb is_digit (chars value)) then None
  else
    parsed ← parse_uint bits value;
    if 2 ^ 32 - 1 <? parsed then None else Some parsed.

Definition decodePHCPart (value : string) : option (list Z) :=
  if String.eqb value "" || (EncodedLen maxPHCPartBytes <? len value) then None
  else
    decoded ← std_decode value;
    if (maxPHCPartBytes <? Z.of_nat (length decoded)) || negb (String.eqb (std_encode decoded) value) then None else Some decoded.

(** [params[i]], [prefix] being [m=], [t=] or [p=]. *)
Definition phc_number (prefix : list ascii) (param : list ascii) (bits low high : Z) : option Z :=
  n ← parseStrictUint (implode (drop (length prefix) param)) bits;
  if (n <? low) || (high <? n) then None else Some n.

Definition phc_bytes (part : list ascii) (low high : Z) : option (list Z) :=
  decoded ← decodePHCPart (implode part);
  if (Z.of_nat (length decoded) <? low) || (high <? Z.of_nat (length decoded)) then None else Some decoded.

Definition has_prefix (prefix l : list ascii) : bool := bool_decide (take (length prefix) l = prefix).

Definition parsePasswordHash (phc : string) : result AuthError passwordHash :=
  if (len phc =? 0) || (maxPHCLength <? len phc) then Err ErrInvalidPasswordHash
  else
    match split_on "$" (chars phc) with
    | [p0; p1; p2; p3; p4; p5] =>
        if negb (bool_decide (p0 = [])) || negb (bool_decide (p1 = chars "argon2id")) || negb (bool_decide (p2 = chars "v=19"))
        then Err ErrInvalidPasswordHash
        else
          match split_on "," p3 with
          | [m; t; p] =>
              if negb (has_prefix (chars "m=") m) || negb (has_prefix (chars "t=") t) || negb (has_prefix (chars "p=") p)
              then Err ErrInvalidPasswordHash
              else
                match
                  memory ← phc_number (chars "m=") m 32 MinArgon2MemoryKiB MaxArgon2MemoryKiB;
                  iterations ← phc_number (chars "t=") t 32 MinArgon2Iterations MaxArgon2Iterations;
                  parallelism ← phc_number (chars "p=") p 8 MinArgon2Parallelism MaxArgon2Parallelism;
                  salt ← phc_bytes p4 MinArgon2SaltBytes MaxArgon2SaltBytes;
                  sum ← phc_bytes p5 MinArgon2KeyBytes MaxArgon2KeyBytes;
                  Some (MkPasswordHash memory iterations parallelism salt sum)
                with
                | Some hash => Ok hash
                | None => Err ErrInvalidPasswordHash
                end
          | _ => Err ErrInvalidPasswordHash
          end
    | _ => Err ErrInvalidPasswordHash
    end.

(** [fmt.Sprintf("$argon2id$v=19$m=%d,t=%d,p=%d$%s$%s", ...)] *)
Definition encodePHC (hash : passwordHash) : string :=
  "$argon2id$v=19$m=" +:+ format_uint (ph_memory hash) +:+ ",t=" +:+ format_uint (ph_iterations hash)
    +:+ ",p=" +:+ format_uint (ph_parallelism hash) +:+ "$" +:+ std_encode (ph_salt hash) +:+ "$" +:+ std_encode (ph_sum hash).

(** [passwordWork]: password, salt, iterations, memory, parallelism and key length. *)
Definition passwordWork : Type := list Z → list Z → Z → Z → Z → Z → list Z.

Record CredentialVerifier := MkCredentialVerifier {
  cr_usernameDigest : list Z;
  cr_actorID : string;
  cr_hash : passwordHash
}.

Definition NewCredentialVerifier (username actorID phc : string) : result AuthError CredentialVerifier :=
  if negb (validPublicIdentity username) || negb (validPublicIdentity actorID) then Err ErrInvalidConfiguration
  else
    parsed ← parsePasswordHash phc;
    Ok (MkCredentialVerifier (sha256 (bytes_of username)) actorID parsed).

Section credentials.
  Context (work : passwordWork).

(** The verdict, and the candidates hashed on the way. *)
Definition verifyPassword (v : CredentialVerifier) (password : list Z) : bool * list (list Z) :=
  let lengthOK := negb ((length password =? 0)%nat || (MaxPasswordBytes <? length password)%nat) in
  let candidate := if lengthOK then password else bytes_of "invalid-password-length" in
  let hash := cr_hash v in
  let derived := work candidate (ph_salt hash) (ph_iterations hash) (ph_memory hash) (ph_parallelism hash)
                   (Z.of_nat (length (ph_sum hash))) in
  let ok := if (length derived =? length (ph_sum hash))%nat then bool_decide (derived = ph_sum hash) else false in
  (ok && lengthOK, [candidate]).

Definition credential_Verify (v : CredentialVerifier) (username : string) (password : list Z)
  : result AuthError string * list (list Z) :=
  let usernameOK := bool_decide (cr_usernameDigest v = sha256 (bytes_of username)) in
  let '(passwordOK, hashed) := verifyPassword v password in
  (if negb (usernameOK && passwordOK) then Err ErrInvalidCredentials else Ok (cr_actorID v), hashed).

Definition VerifyPassword (v : CredentialVerifier) (password : list Z) : option AuthError * list (list Z) :=
  let '(ok, hashed) := verifyPassword v password in
  (if negb ok then Some ErrInvalidCredentials else None, hashed).

(** ** The boundary *)

Record Boundary := MkBoundary {
  b_credentials : CredentialVerifier;
  b_sessions : SessionManager;
  b_login : LoginLimiter;
  b_decisions : DecisionLimiter;
  b_origins : OriginPolicy
}.

(** [now] is the limiter's reading of the clock and [later] the session manager's. *)
Definition boundary_Login (b : Boundary) (now later : time) (source : Addr) (username : string) (password entropy : list Z)
  : Boundary * list (list Z) * result AuthError IssuedSession * list Z :=
  let '(login, refused) := login_Allow (b_login b) now source in
  let b := MkBoundary (b_credentials b) (b_sessions b) login (b_decisions b) (b_origins b) in
  match refused with
  | Some err => (b, [], Err (ErrRateLimited err), entropy)
  | None =>
      let '(verified, hashed) := credential_Verify (b_credentials b) username password in
      match verified with
      | Err _ => (b, hashed, Err ErrInvalidCredentials, entropy)
      | Ok actorID =>
          let '(issued, entropy) := IssueLogin (b_sessions b) later actorID entropy in
          (b, hashed, issued, entropy)
      end
  end.

Definition ValidateOrigin (b : Boundary) (origin : string) : option AuthError := origin_Validate (b_origins b) origin.

Definition ValidateSession (b : Boundary) (now : time) (record : SessionRecord) (sessionToken : string) : result AuthError SessionRecord :=
  Validate (b_sessions b) now record sessionToken.

Definition RecoverCSRFToken (b : Boundary) (now : time) (record : SessionRecord) (sessionToken : string) : result AuthError string :=
  session_RecoverCSRFToken (b_sessions b) now record sessionToken.

Definition RequiresStepUp (b : Boundary) (now : time) (record : SessionRecord) : result AuthError bool :=
  session_RequiresStepUp now record.

Definition RotateAfterPrivilege (b : Boundary) (now later : time) (record : SessionRecord) (sessionToken : string) (entropy : list Z)
  : result AuthError SessionRotation * list Z :=
  session_RotateAfterPrivilege (b_sessions b) now later record sessionToken entropy.

Definition ValidateBrowserRequest (b : Boundary) (now : time) (record : SessionRecord) (sessionToken csrfToken origin : string)
  : result AuthError SessionRecord :=
  session_ValidateBrowserRequest (b_sessions b) now record sessionToken csrfToken origin (origin_allowed (b_origins b)).

Definition ValidateRevokedBrowserReplay (b : Boundary) (record : SessionRecord) (sessionToken csrfToken origin : string)
  : result AuthError SessionRecord :=
  session_ValidateRevokedBrowserReplay (b_sessions b) record sessionToken csrfToken origin (origin_allowed (b_origins b)).

(** The password is hashed only when the session is valid and the actor matches. *)
Definition StepUp (b : Boundary) (now later : time) (record : SessionRecord) (sessionToken : string) (password entropy : list Z)
  : list (list Z) * result AuthError SessionRotation * list Z :=
  let '(verdict, hashed) := VerifyPassword (b_credentials b) password in
  let '(r, entropy) := session_StepUp (b_sessions b) now later record sessionToken (cr_actorID (b_credentials b)) verdict entropy in
  (match Validate (b_sessions b) now record sessionToken with
   | Ok _ => if String.eqb (cr_actorID (b_credentials b)) (sr_ActorID record) then hashed else []
   | Err _ => []
   end, r, entropy).

Definition AllowDecision (b : Boundary) (now : time) (sessionID : SessionID) : Boundary * option RateLimitError :=
  let '(decisions, refused) := decision_Allow (b_decisions b) now sessionID in
  (MkBoundary (b_credentials b) (b_sessions b) (b_login b) decisions (b_origins b), refused).

End credentials.

(** ** The session cookie *)

Definition sessionCookiePayloadVersion : string := "v1".

Definition canonicalSessionToken (value : string) : bool :=
  if negb (len value =? EncodedLen (Z.of_nat tokenBytes)) || contains "=" (chars value) then false
  else
    match decode_token value with
    | Some raw => (length raw =? tokenBytes)%nat && String.eqb (encode_token raw) value
    | None => false
    end.

Inductive CookieTransport := CookieTransportTLS | CookieTransportExplicitLocalTest | CookieTransportOther (value : Z).

(** The zero value has an empty name and transport 0. *)
Record CookiePolicy := MkCookiePolicy { cp_name : string; cp_transport : CookieTransport }.

(** The characters of [strings.ContainsAny], the backslash and the double quote by code. *)
Definition cookie_name_excluded : list ascii := chars "()<>@,;:/[]?={} " ++ ["092"; "034"; "009"; "013"; "010"]%char.

Definition valid_transport (transport : CookieTransport) : bool :=
  match transport with CookieTransportTLS | CookieTransportExplicitLocalTest => true | CookieTransportOther _ => false end.

Definition NewCookiePolicy (name : string) (transport : CookieTransport) : result AuthError CookiePolicy :=
  if String.eqb name "" || (128 <? len name) || existsb (λ c, bool_decide (c ∈ cookie_name_excluded)) (chars name)
  then Err ErrInvalidConfiguration
  else if negb (valid_transport transport) then Err ErrInvalidConfiguration
  else Ok (MkCookiePolicy name transport).

Definition cookie_Valid (p : CookiePolicy) : bool := negb (String.eqb (cp_name p) "") && valid_transport (cp_transport p).

Inductive SameSite := SameSiteStrictMode | SameSiteOther.

(** [http.Cookie]; the domain is empty. *)
Record Cookie := MkCookie {
  ck_Name : string; ck_Value : string; ck_Path : string; ck_Domain : string; ck_Expires : time; ck_MaxAge : Z;
  ck_Secure : bool; ck_HttpOnly : bool; ck_SameSite : SameSite
}.

Definition sessionCookie (p : CookiePolicy) (value : string) (expiresAt : time) : Cookie :=
  MkCookie (cp_name p) value "/" "" expiresAt 0
    (match cp_transport p with CookieTransportTLS => true | _ => false end) true SameSiteStrictMode.

Definition IssuedSessionCookie (p : CookiePolicy) (issued : IssuedSession) : result AuthError Cookie :=
  if negb (cookie_Valid p) || session_IsZero (sr_ID (is_Record issued)) then Err ErrInvalidConfiguration
  else
    let token := SessionToken issued in
    if negb (canonicalSessionToken token) then Err ErrSessionInvalid
    else
      let value := sessionCookiePayloadVersion +:+ "." +:+ session_String (sr_ID (is_Record issued)) +:+ "." +:+ token in
      Ok (sessionCookie p value (sr_ExpiresAt (is_Record issued))).

(** [time.Unix(1, 0)] *)
Definition unix_one : time := (719162 * 86400 + 1) * Second.

Definition ExpiredCookie (p : CookiePolicy) : Cookie :=
  let c := sessionCookie p "" unix_one in
  MkCookie (ck_Name c) (ck_Value c) (ck_Path c) (ck_Domain c) (ck_Expires c) (-1) (ck_Secure c) (ck_HttpOnly c) (ck_SameSite c).

(** [rawHeaders] are the Cookie headers of the request and [cookies] the values that
    [net/http] finds in them under the policy's name. *)
Definition ReadSessionCredential (p : CookiePolicy) (rawHeaders : list string) (cookies : list string)
  : result AuthError (SessionID * string) :=
  if negb (cookie_Valid p) then Err ErrSessionInvalid
  else match rawHeaders with
  | [header] =>
      if (len header =? 0) || (4096 <? len header) then Err ErrSessionInvalid
      else
        match cookies with
        | [value] =>
            match split_on "." (chars value) with
            | [version; id_text; token_text] =>
                let token := implode token_text in
                if negb (bool_decide (version = chars sessionCookiePayloadVersion)) || negb (canonicalSessionToken token)
                then Err ErrSessionInvalid
                else
                  match ParseSessionID (implode id_text) with
                  | Err _ => Err ErrSessionInvalid
                  | Ok id =>
                      let canonical := sessionCookiePayloadVersion +:+ "." +:+ session_String id +:+ "." +:+ token in
                      if negb (String.eqb canonical value) then Err ErrSessionInvalid else Ok (id, token)
                  end
            | _ => Err ErrSessionInvalid
            end
        | _ => Err ErrSessionInvalid
        end
  | _ => Err ErrSessionInvalid
  end.

Example origin_plain : canonicalOrigin "https://admin.example.test:8443" = true.
Proof. vm_compute. reflexivity. Qed.
