(* ===== verification/AdminAuthSpec.v ===== *)
(** * What the administrator boundary guarantees

    Password hashing stays within the login limits, a login needs the configured
    name and password, cookies and password hashes read back exactly as written,
    and the origins allowed are those configured. *)

From S2P Require Import Prelude GoStrings Sha256 Base64 Hmac GoTime GatewayPath GatewaySpec Limiter LimiterSpec Session SessionSpec AdminAuth.
Local Open Scope Z_scope.

(** ** Logins *)

Section boundary.
  Context (work : passwordWork).

(** The password the configured hash is of. *)
Definition right_password (v : CredentialVerifier) (password : list Z) : Prop :=
  (0 < length password ≤ MaxPasswordBytes)%nat ∧
  work password (ph_salt (cr_hash v)) (ph_iterations (cr_hash v)) (ph_memory (cr_hash v)) (ph_parallelism (cr_hash v))
    (Z.of_nat (length (ph_sum (cr_hash v)))) = ph_sum (cr_hash v).

Lemma verifyPassword_spec v password :
  (∃ candidate, (verifyPassword work v password).2 = [candidate]) ∧
  ((verifyPassword work v password).1 = true ↔ right_password v password).
Proof.
  split; [by eexists|]. unfold verifyPassword, right_password. cbn [fst].
  destruct ((length password =? 0)%nat || (MaxPasswordBytes <? length password)%nat) eqn:Hlen; cbn [negb].
  - rewrite andb_false_r. split; [done|]. intros [Hl _]. apply orb_true_iff in Hlen as [H%Nat.eqb_eq|H%Nat.ltb_lt]; lia.
  - rewrite andb_true_r. apply orb_false_elim in Hlen as [H1%Nat.eqb_neq H2%Nat.ltb_ge].
    destruct (Nat.eqb_spec (length (work password (ph_salt (cr_hash v)) (ph_iterations (cr_hash v)) (ph_memory (cr_hash v))
      (ph_parallelism (cr_hash v)) (Z.of_nat (length (ph_sum (cr_hash v)))))) (length (ph_sum (cr_hash v)))) as [E|E].
    + rewrite bool_decide_eq_true. split; [intros Hw; split; [lia|exact Hw]|by intros [_ Hw]].
    + split; [done|]. intros [_ Hw]. by rewrite Hw in E.
Qed.

Lemma credential_Verify_spec v username password actorID :
  (credential_Verify work v username password).1 = Ok actorID ↔
  cr_usernameDigest v = sha256 (bytes_of username) ∧ right_password v password ∧ actorID = cr_actorID v.
Proof.
  unfold credential_Verify. destruct (verifyPassword_spec v password) as [_ Hp].
  destruct (verifyPassword work v password) as [ok hashed]. cbn [fst] in Hp |- *. split.
  - intros H. destruct (negb _) eqn:Hn; [discriminate H|]. apply negb_false_iff, andb_prop in Hn as [Hu%bool_decide_eq_true Ho].
    injection H as <-. split_and!; [exact Hu|by apply Hp|done].
  - intros (Hu & Hr & ->). rewrite (bool_decide_eq_true_2 _ Hu), (proj2 Hp Hr). done.
Qed.

Lemma credential_hashes_once v username password : ∃ candidate, (credential_Verify work v username password).2 = [candidate].
Proof.
  unfold credential_Verify. destruct (verifyPassword_spec v password) as [[c Hc] _].
  destruct (verifyPassword work v password) as [ok hashed]. cbn in *. by exists c.
Qed.

(** What one call of [Login] does. *)
Lemma boundary_Login_spec b now later source username password entropy :
  let '(b', hashed, r, _) := boundary_Login work b now later source username password entropy in
  b_login b' = (login_Allow (b_login b) now source).1 ∧ b_credentials b' = b_credentials b ∧
  (hashed = [] ∧ is_Some (login_Allow (b_login b) now source).2 ∨
   length hashed = 1%nat ∧ (login_Allow (b_login b) now source).2 = None) ∧
  (∀ issued, r = Ok issued →
     (login_Allow (b_login b) now source).2 = None ∧
     cr_usernameDigest (b_credentials b) = sha256 (bytes_of username) ∧ right_password (b_credentials b) password ∧
     ∃ rest, IssueLogin (b_sessions b) later (cr_actorID (b_credentials b)) entropy = (Ok issued, rest)).
Proof.
  unfold boundary_Login. destruct (login_Allow (b_login b) now source) as [login [err|]]; cbn [fst snd].
  { split_and!; [done|done|left; split; [done|by eexists]|]. intros issued H. discriminate H. }
  cbn [b_credentials b_sessions b_login]. pose proof (credential_Verify_spec (b_credentials b) username password) as Hv.
  destruct (credential_hashes_once (b_credentials b) username password) as [c Hc].
  destruct (credential_Verify work (b_credentials b) username password) as [[actorID|err] hashed]; cbn [fst snd] in Hv, Hc; subst hashed.
  - destruct (proj1 (Hv actorID) eq_refl) as (Hu & Hr & ->).
    destruct (IssueLogin (b_sessions b) later (cr_actorID (b_credentials b)) entropy) as [issued rest].
    split_and!; [done|done|by right|]. intros i ->. split_and!; [done|exact Hu|exact Hr|by exists rest].
  - split_and!; [done|done|by right|]. intros issued H. discriminate H.
Qed.




End boundary.

(** ** Splitting *)

Lemma contains_elem c l : contains c l = true ↔ c ∈ l.
Proof.
  unfold contains. rewrite existsb_exists. split.
  - intros (x & Hx & ->%bool_decide_eq_true). by apply list_elem_of_In.
  - intros Hc. exists c. split; [by apply list_elem_of_In|by apply bool_decide_eq_true].
Qed.

Lemma split_on_none sep l : sep ∉ l → split_on sep l = [l].
Proof.
  induction l as [|c l IH]; [done|]. intros [Hc Hl]%not_elem_of_cons. cbn [split_on].
  rewrite decide_False by congruence. by rewrite IH.
Qed.

Lemma split_on_app sep l k : sep ∉ l → split_on sep (l ++ sep :: k) = l :: split_on sep k.
Proof.
  induction l as [|c l IH]; cbn [app split_on]; [by rewrite decide_True|]. intros [Hc Hl]%not_elem_of_cons.
  rewrite decide_False by congruence. by rewrite IH.
Qed.

Fixpoint join_on (sep : ascii) (parts : list (list ascii)) : list ascii :=
  match parts with
  | [] => []
  | [p] => p
  | p :: parts => p ++ sep :: join_on sep parts
  end.

Lemma join_split sep l : join_on sep (split_on sep l) = l ∧ Forall (λ p, sep ∉ p) (split_on sep l).
Proof.
  induction l as [|c l [IH1 IH2]]; cbn [split_on]; [split; [done|constructor; [apply not_elem_of_nil|done]]|].
  pose proof (split_on_nonempty sep l) as Hne. case_decide as Hc.
  - subst c. split; [|constructor; [apply not_elem_of_nil|done]]. cbn [join_on]. destruct (split_on sep l); [done|]. by rewrite IH1.
  - destruct (split_on sep l) as [|p ps]; [done|]. apply Forall_cons in IH2 as [Hp Hps]. split.
    + destruct ps; cbn [join_on app] in *; f_equal; exact IH1.
    + constructor; [|done]. apply not_elem_of_cons. split; [congruence|done].
Qed.

Lemma split_inv sep l parts : split_on sep l = parts → l = join_on sep parts ∧ Forall (λ p, sep ∉ p) parts.
Proof. intros <-. destruct (join_split sep l) as [E ?]. by rewrite E. Qed.

(** ** Session identifiers *)

Definition v4_id (id : SessionID) : Prop :=
  length id = 16%nat ∧ Forall is_byte id ∧ Z.shiftr (nth 6 id 0) 4 = 4 ∧ Z.shiftr (nth 8 id 0) 6 = 2.

Definition hex_text (c : ascii) : Prop := c ≠ "-"%char ∧ c ≠ "."%char ∧ to_lower_ascii c = c.

Definition hex_text_digit (d : Z) : bool := bool_decide (hex_digit d ≠ "-"%char ∧ hex_digit d ≠ "."%char ∧ to_lower_ascii (hex_digit d) = hex_digit d).

Lemma hex_digit_text d : 0 <= d < 16 → hex_text (hex_digit d).
Proof.
  intros Hd. assert (forallb hex_text_digit (Z.of_nat <$> seq 0 16) = true) as Hall by (vm_compute; reflexivity).
  rewrite forallb_forall in Hall. specialize (Hall d). unfold hex_text_digit in Hall. rewrite bool_decide_eq_true in Hall. apply Hall.
  apply list_elem_of_In, list_elem_of_fmap. exists (Z.to_nat d). split; [lia|]. apply list_elem_of_In, in_seq. lia.
Qed.

Lemma hex_of_bytes_text l : Forall is_byte l → Forall hex_text (chars (hex_of_bytes l)).
Proof.
  unfold hex_of_bytes. rewrite chars_implode. induction 1 as [|b l Hb _ IH]; cbn; [constructor|]. unfold is_byte in Hb.
  constructor; [apply hex_digit_text; Z.to_euclidean_division_equations; lia|].
  constructor; [apply hex_digit_text; Z.to_euclidean_division_equations; lia|done].
Qed.

Lemma hex_text_filter l : Forall hex_text l → List.filter (λ c, negb (is_dash c)) l = l.
Proof.
  induction 1 as [|c l (Hc & _) _ IH]; [done|]. cbn [List.filter]. rewrite IH. unfold is_dash. by rewrite bool_decide_eq_false_2.
Qed.

Lemma hex_text_lower l : Forall hex_text l → to_lower_ascii <$> l = l.
Proof. induction 1 as [|c l (_ & _ & Hc) _ IH]; [done|]. cbn. by rewrite Hc, IH. Qed.

Definition session_chunks (id : SessionID) : list (list Z) :=
  [slice 0 4 id; slice 4 6 id; slice 6 8 id; slice 8 10 id; slice 10 16 id].

Lemma hex_of_bytes_app l k : chars (hex_of_bytes (l ++ k)) = chars (hex_of_bytes l) ++ chars (hex_of_bytes k).
Proof. unfold hex_of_bytes. by rewrite !chars_implode, flat_map_app. Qed.

Lemma session_chunks_join (id : SessionID) : length id = 16%nat → concat (session_chunks id) = id.
Proof.
  intros Hl. unfold session_chunks, slice. do 16 (destruct id as [|? id]; [done|]). destruct id; [|done]. reflexivity.
Qed.

Lemma session_String_chars id : chars (session_String id) = join_on "-" ((λ l, chars (hex_of_bytes l)) <$> session_chunks id).
Proof. unfold session_String, session_chunks. rewrite !chars_app. reflexivity. Qed.

Lemma session_String_shape (id : SessionID) : length id = 16%nat →
  len (session_String id) = 36 ∧ chars (session_String id) !! 8%nat = Some "-"%char ∧ chars (session_String id) !! 13%nat = Some "-"%char ∧
  chars (session_String id) !! 18%nat = Some "-"%char ∧ chars (session_String id) !! 23%nat = Some "-"%char.
Proof.
  intros Hl. rewrite len_chars, session_String_chars. unfold hex_of_bytes. do 16 (destruct id as [|? id]; [done|]). destruct id; [|done].
  cbn [session_chunks slice fmap list_fmap Nat.sub take drop]. rewrite !chars_implode. cbn [flat_map app join_on]. done.
Qed.

Lemma filter_join l : Forall (Forall hex_text) l → List.filter (λ c, negb (is_dash c)) (join_on "-" l) = concat l.
Proof.
  induction 1 as [|p l Hp _ IH]; [done|]. cbn [join_on concat]. destruct l as [|q l].
  - cbn [concat]. rewrite app_nil_r. by apply hex_text_filter.
  - rewrite List.filter_app, (hex_text_filter p Hp). cbn [List.filter]. change (is_dash "-") with true. cbn [negb]. by rewrite IH.
Qed.

Lemma concat_hex ls : concat ((λ l, chars (hex_of_bytes l)) <$> ls) = chars (hex_of_bytes (concat ls)).
Proof. induction ls as [|l ls IH]; [done|]. cbn [fmap list_fmap concat]. by rewrite hex_of_bytes_app, <-IH. Qed.

Lemma session_String_compact (id : SessionID) : length id = 16%nat → Forall is_byte id →
  List.filter (λ c, negb (is_dash c)) (chars (session_String id)) = chars (hex_of_bytes id).
Proof.
  intros Hl Hb. rewrite session_String_chars, filter_join, concat_hex, session_chunks_join; [done..|].
  apply Forall_fmap. rewrite <-(session_chunks_join id Hl), Forall_concat in Hb.
  eapply Forall_impl; [exact Hb|]. intros l. apply hex_of_bytes_text.
Qed.

(** The canonical text of a version 4 identifier, and nothing else, parses to it. *)
Lemma ParseSessionID_iff value id : ParseSessionID value = Ok id ↔ value = session_String id ∧ v4_id id.
Proof.
  split.
  - unfold ParseSessionID. intros H.
    destruct (negb (len value =? 36) || _ || _ || _ || _); [discriminate H|].
    set (compact := List.filter (λ c, negb (is_dash c)) (chars value)) in *.
    destruct (negb (length compact =? 32)%nat || _); [discriminate H|].
    destruct (hex_decode compact) as [raw|] eqn:Hd; [|discriminate H].
    destruct (negb (length raw =? 16)%nat) eqn:Hl; [discriminate H|].
    destruct (session_IsZero raw || _ || _ || _) eqn:Hc; [discriminate H|]. injection H as ->.
    apply negb_false_iff, Nat.eqb_eq in Hl. repeat (apply orb_false_elim in Hc as [Hc ?]). breflect.
    split; [by symmetry|]. split_and!; [done|by eapply hex_decode_bytes|done|done].
  - intros [-> (Hlen & Hb & H6 & H8)]. unfold ParseSessionID.
    destruct (session_String_shape id Hlen) as (Hl36 & D8 & D13 & D18 & D23).
    rewrite (proj2 (Z.eqb_eq _ _) Hl36), D8, D13, D18, D23. rewrite !bool_decide_eq_true_2 by done. cbn [negb orb].
    assert (Htext : Forall hex_text (chars (hex_of_bytes id))) by (by apply hex_of_bytes_text).
    rewrite (session_String_compact id Hlen Hb), (hex_text_lower _ Htext), hex_decode_encode by done.
    rewrite hex_of_bytes_length, Hlen. rewrite bool_decide_eq_true_2 by done. cbn [negb orb Nat.mul Nat.add Nat.eqb].
    rewrite (uuid_not_zero id H6), H6, H8, String.eqb_refl. done.
Qed.

(** ** Cookies *)

Lemma canonicalSessionToken_iff value : canonicalSessionToken value = true ↔ ∃ token, is_token token ∧ value = encode_token token.
Proof.
  unfold canonicalSessionToken. split.
  - intros H. destruct (negb _ || _); [discriminate H|]. destruct (decode_token value) as [raw|] eqn:Hd; [|discriminate H].
    apply andb_prop in H as [Hl%Nat.eqb_eq He%String.eqb_eq]. exists raw. split; [split; [done|]|done].
    unfold decode_token, decode64 in Hd. apply bind_Some in Hd as (ns & Hns & Hj).
    by destruct (join64_inv _ _ (mapM_bytes _ _ Hns) Hj).
  - intros (token & [Hl Hb] & ->). rewrite decode_encode_token by done.
    assert (len (encode_token token) = 43) as ->.
    { unfold encode_token. rewrite len_implode, encode64_split, length_fmap, split64_length, Hl. done. }
    unfold contains. rewrite encode_token_unpadded by done. rewrite Hl, String.eqb_refl. done.
Qed.

Lemma token_text_no_dot token : Forall is_byte token → "."%char ∉ chars (encode_token token).
Proof.
  intros Hb. unfold encode_token. rewrite chars_implode, encode64_split. intros (n & E & Hn)%list_elem_of_fmap.
  pose proof (split64_range token Hb) as Hr. rewrite Forall_forall in Hr. specialize (Hr n Hn).
  apply (all_sextets (λ n, negb (bool_decide ("."%char = sextet_char n)))) in Hr; [|vm_compute; reflexivity].
  by rewrite bool_decide_eq_true_2 in Hr.
Qed.

Lemma id_text_no_dot (id : SessionID) : length id = 16%nat → Forall is_byte id → "."%char ∉ chars (session_String id).
Proof.
  intros Hl Hb. rewrite session_String_chars. rewrite <-(session_chunks_join id Hl), Forall_concat in Hb.
  assert (Hdot : ∀ l, Forall is_byte l → "."%char ∉ chars (hex_of_bytes l)).
  { intros l Hbl Hin. pose proof (hex_of_bytes_text l Hbl) as Ht. rewrite Forall_forall in Ht. by destruct (Ht _ Hin) as (_ & ? & _). }
  generalize dependent (session_chunks id). intros ls Hls. induction Hls as [|l ls Hbl _ IH]; [apply not_elem_of_nil|].
  cbn [fmap list_fmap join_on]. destruct ls as [|l' ls]; [by apply Hdot|].
  cbn [fmap list_fmap] in *. intros [Hin|[Hin|Hin]%elem_of_cons]%elem_of_app; [by apply (Hdot l)|done|by apply IH].
Qed.

Definition cookie_value (id : SessionID) (token : string) : string :=
  sessionCookiePayloadVersion +:+ "." +:+ session_String id +:+ "." +:+ token.

Lemma ReadSessionCredential_iff p header value id token : cookie_Valid p = true →
  ReadSessionCredential p [header] [value] = Ok (id, token) ↔
  1 <= len header <= 4096 ∧ value = cookie_value id token ∧ v4_id id ∧ canonicalSessionToken token = true.
Proof.
  intros Hvalid. unfold ReadSessionCredential, cookie_value. rewrite Hvalid. cbn [negb]. split.
  - intros H. destruct ((len header =? 0) || (4096 <? len header)) eqn:Hh; [discriminate H|].
    apply orb_false_elim in Hh as [Hh1%Z.eqb_neq Hh2%Z.ltb_ge]. assert (0 <= len header) by (unfold len; lia).
    destruct (split_on "." (chars value)) as [|version [|id_text [|token_text [|]]]]; try discriminate H.
    destruct (negb (bool_decide (version = chars sessionCookiePayloadVersion)) || negb (canonicalSessionToken (implode token_text))) eqn:Hv; [discriminate H|].
    apply orb_false_elim in Hv as [_ Ht%negb_false_iff].
    destruct (ParseSessionID (implode id_text)) as [i|e] eqn:Hp; [|discriminate H]. apply ParseSessionID_iff in Hp as [_ Hid].
    destruct (negb _) eqn:Hc in H; [discriminate H|]. apply negb_false_iff, String.eqb_eq in Hc. injection H as -> <-.
    split_and!; [lia|lia|done|apply Hid..|done].
  - intros (Hh & -> & (Hl & Hb & H6 & H8) & Ht). rewrite (proj2 (Z.eqb_neq _ _)), (proj2 (Z.ltb_ge _ _)) by lia. cbn [orb].
    destruct (proj1 (canonicalSessionToken_iff token) Ht) as (raw & [_ Hrb] & ->).
    assert (split_on "." (chars (sessionCookiePayloadVersion +:+ "." +:+ session_String id +:+ "." +:+ encode_token raw)) =
      [chars sessionCookiePayloadVersion; chars (session_String id); chars (encode_token raw)]) as ->.
    { rewrite !chars_app. change (chars ".") with ["."%char]. cbn [app].
      rewrite split_on_app by (vm_compute; by intros ?%elem_of_nil || set_solver).
      rewrite split_on_app by (by apply id_text_no_dot). by rewrite split_on_none by (by apply token_text_no_dot). }
    rewrite !implode_chars, Ht. rewrite bool_decide_eq_true_2 by done. cbn [negb orb].
    rewrite (proj2 (ParseSessionID_iff (session_String id) id)) by done. by rewrite String.eqb_refl.
Qed.

(** ** Password hashes *)

Definition hash_ok (h : passwordHash) : Prop :=
  MinArgon2MemoryKiB <= ph_memory h <= MaxArgon2MemoryKiB ∧
  MinArgon2Iterations <= ph_iterations h <= MaxArgon2Iterations ∧
  MinArgon2Parallelism <= ph_parallelism h <= MaxArgon2Parallelism ∧
  (MinArgon2SaltBytes <= Z.of_nat (length (ph_salt h)) <= MaxArgon2SaltBytes ∧ Forall is_byte (ph_salt h)) ∧
  (MinArgon2KeyBytes <= Z.of_nat (length (ph_sum h)) <= MaxArgon2KeyBytes ∧ Forall is_byte (ph_sum h)).

Definition std_round (n : Z) : bool :=
  bool_decide (of_std (to_std (sextet_char n)) = sextet_char n ∧ to_std (sextet_char n) ≠ "$"%char).

Lemma std_sextet n : 0 <= n < 64 → of_std (to_std (sextet_char n)) = sextet_char n ∧ to_std (sextet_char n) ≠ "$"%char.
Proof. intros Hn. apply (all_sextets std_round) in Hn; [|vm_compute; reflexivity]. by apply bool_decide_eq_true in Hn. Qed.

Lemma std_decode_encode l : Forall is_byte l → std_decode (std_encode l) = Some l ∧ "$"%char ∉ chars (std_encode l).
Proof.
  intros Hl. unfold std_decode, std_encode. rewrite chars_implode.
  assert (of_std <$> (to_std <$> encode64 l) = encode64 l ∧ "$"%char ∉ to_std <$> encode64 l) as [-> ?];
    [|by rewrite decode_encode64].
  rewrite encode64_split. pose proof (split64_range l Hl) as Hr.
  induction Hr as [|n ns Hn _ [IH1 IH2]]; [split; [done|apply not_elem_of_nil]|]. destruct (std_sextet n Hn) as [E1 E2].
  cbn [fmap list_fmap]. rewrite E1, IH1. split; [done|]. by apply not_elem_of_cons.
Qed.

Lemma std_decode_bytes s l : std_decode s = Some l → Forall is_byte l.
Proof.
  unfold std_decode, decode64. intros (ns & Hns & Hj)%bind_Some. by destruct (join64_inv _ _ (mapM_bytes _ _ Hns) Hj).
Qed.

Lemma format_uint_nonzero_head n : 0 < n → ∃ c l, chars (format_uint n) = c :: l ∧ code c ≠ 48.
Proof.
  intros Hn. destruct (digits_head n Hn) as (d & l & E & Hd). exists (digit_char d), (map digit_char l).
  unfold format_uint. rewrite chars_implode, E. split; [done|]. pose proof (digits_dec n) as Hdec. rewrite E in Hdec.
  apply Forall_cons in Hdec as [Hdd _]. unfold is_dec in Hdd. unfold digit_char. rewrite code_chr; lia.
Qed.

(** Numbers without sign or leading zero. *)
Lemma parseStrictUint_iff value bits n : (bits = 8 ∨ bits = 32) → 0 < n →
  parseStrictUint value bits = Some n ↔ value = format_uint n ∧ n < 2 ^ bits.
Proof.
  intros Hbits Hn. unfold parseStrictUint. split.
  - intros H. destruct (String.eqb value "" || _ || _ || _) eqn:Hg; [discriminate H|].
    apply orb_false_elim in Hg as [_ Hlead]. destruct (negb (forallb is_digit (chars value))) eqn:Hd; [discriminate H|].
    apply bind_Some in H as (p & Hp & H). case_match; [done|]. injection H as ->.
    destruct (chars value) as [|c l] eqn:Hv; [unfold parse_uint in Hp; by rewrite Hv in Hp|].
    assert (value = implode (c :: l)) as Heq by (by rewrite <-Hv, implode_chars).
    assert (n < 2 ^ bits) by (unfold parse_uint in Hp; rewrite Hv in Hp; repeat case_match; simplify_eq; by apply Z.ltb_lt).
    split; [|done]. destruct (decide (code c = 48)) as [Hz|Hz]; [exfalso|symmetry; rewrite Heq; apply (format_parse_uint bits); [done|by rewrite <-Heq]].
    assert (c = "0"%char) as -> by (apply code_inj; exact Hz).
    apply andb_false_iff in Hlead as [Hlen%Z.ltb_ge|Hh%bool_decide_eq_false]; [|done].
    rewrite len_chars, Hv in Hlen. cbn [length] in Hlen. assert (l = []) as -> by (destruct l; [done|cbn in Hlen; lia]).
    unfold parse_uint in Hp. rewrite Hv in Hp. destruct Hbits as [-> | ->]; vm_compute in Hp; injection Hp as E; lia.
  - intros [-> Hb]. destruct (format_uint_nonzero_head n Hn) as (c & l & Hc & Hz).
    assert (Hd := format_uint_digits n). assert (n < 10 ^ Z.of_nat 10) by (destruct Hbits as [-> | ->]; lia).
    pose proof (format_uint_length n 10 ltac:(lia) ltac:(lia)) as Hlen.
    rewrite (proj2 (String.eqb_neq _ _)) by (intros E; by rewrite E in Hc).
    rewrite (proj2 (Z.ltb_ge 10 _)) by (rewrite len_chars; lia). cbn [orb].
    rewrite Hd, Hc in *. cbn [head forallb] in *. apply andb_prop in Hd as [Hdc _]. apply is_digit_code in Hdc.
    rewrite bool_decide_eq_false_2 by (intros [[= ->]|[[= ->]|[]%elem_of_nil]%elem_of_cons]%elem_of_cons; by vm_compute in Hdc; destruct Hdc).
    rewrite bool_decide_eq_false_2 by (intros [= ->]; by apply Hz). rewrite andb_false_r. cbn [orb negb].
    rewrite parse_format_uint by lia. cbn [mbind option_bind]. rewrite (proj2 (Z.ltb_ge _ n)); [done|].
    destruct Hbits as [-> | ->]; lia.
Qed.

Lemma phc_number_iff prefix param bits low high n : (bits = 8 ∨ bits = 32) → 0 < low → high < 2 ^ bits → has_prefix prefix param = true →
  phc_number prefix param bits low high = Some n ↔ param = prefix ++ chars (format_uint n) ∧ low <= n <= high.
Proof.
  intros Hbits Hlow Hhigh Hp. apply bool_decide_eq_true in Hp. unfold phc_number. split.
  - intros (v & Hv & H)%bind_Some. destruct ((v <? low) || (high <? v)) eqn:E; [discriminate H|]. injection H as ->.
    apply orb_false_elim in E as [E1%Z.ltb_ge E2%Z.ltb_ge]. apply parseStrictUint_iff in Hv as [Hv _]; [|done|lia].
    split; [|lia]. rewrite <-Hv, chars_implode. rewrite <-Hp at 1. symmetry. apply take_drop.
  - intros [-> Hn]. rewrite drop_app_length, implode_chars.
    rewrite (proj2 (parseStrictUint_iff (format_uint n) bits n Hbits ltac:(lia))) by (split; [done|lia]). cbn [mbind option_bind].
    by rewrite !(proj2 (Z.ltb_ge _ _)) by lia.
Qed.

Lemma phc_number_print prefix bits low high n : (bits = 8 ∨ bits = 32) → 0 < low → high < 2 ^ bits → low <= n <= high →
  phc_number prefix (prefix ++ chars (format_uint n)) bits low high = Some n.
Proof. intros. apply phc_number_iff; [done..| |done]. apply bool_decide_eq_true, take_app_length. Qed.

Lemma sextets_bound n : (1 ≤ n ≤ 64)%nat → 0 < Z.of_nat ((4 * n + 2) / 3) <= 86.
Proof. intros Hn. rewrite Nat2Z.inj_div. Z.to_euclidean_division_equations. lia. Qed.

Lemma phc_bytes_iff part low high l : 0 < low → high <= 64 →
  phc_bytes part low high = Some l ↔ part = chars (std_encode l) ∧ Forall is_byte l ∧ low <= Z.of_nat (length l) <= high.
Proof.
  intros Hlow Hhigh. unfold phc_bytes, decodePHCPart. split.
  - intros (d & Hd & H)%bind_Some. destruct ((Z.of_nat (length d) <? low) || _) eqn:E; [discriminate H|]. injection H as ->.
    apply orb_false_elim in E as [E1%Z.ltb_ge E2%Z.ltb_ge]. destruct (String.eqb _ "" || _); [discriminate Hd|].
    apply bind_Some in Hd as (d' & Hd' & Hd). destruct (_ || negb _) eqn:E in Hd; [discriminate Hd|]. injection Hd as ->.
    apply orb_false_elim in E as [_ E%negb_false_iff%String.eqb_eq]. split_and!; [by rewrite E, chars_implode|by eapply std_decode_bytes|lia|lia].
  - intros (-> & Hb & Hl). rewrite !implode_chars. destruct (std_decode_encode l Hb) as [Hd _]. rewrite Hd.
    assert (Hlen : 0 < len (std_encode l) <= 86).
    { unfold std_encode. rewrite len_implode, length_fmap, encode64_split, length_fmap, split64_length.
      apply sextets_bound. lia. }
    rewrite (proj2 (String.eqb_neq _ _)) by (intros E; rewrite E in Hlen; change (len EmptyString) with 0 in Hlen; lia).
    rewrite (proj2 (Z.ltb_ge (EncodedLen maxPHCPartBytes) _)) by (change (EncodedLen maxPHCPartBytes) with 1366; lia). cbn [orb mbind option_bind].
    rewrite (proj2 (Z.ltb_ge maxPHCPartBytes _)) by (unfold maxPHCPartBytes; lia). rewrite String.eqb_refl. cbn [orb negb].
    cbn [mbind option_bind]. by rewrite !(proj2 (Z.ltb_ge _ _)) by lia.
Qed.

Definition phc_params (h : passwordHash) : list (list ascii) :=
  [chars "m=" ++ chars (format_uint (ph_memory h)); chars "t=" ++ chars (format_uint (ph_iterations h));
   chars "p=" ++ chars (format_uint (ph_parallelism h))].

Definition phc_parts (h : passwordHash) : list (list ascii) :=
  [[]; chars "argon2id"; chars "v=19"; join_on "," (phc_params h); chars (std_encode (ph_salt h)); chars (std_encode (ph_sum h))].

Lemma encodePHC_parts h : chars (encodePHC h) = join_on "$" (phc_parts h).
Proof. unfold encodePHC, phc_parts, phc_params. rewrite !chars_app. cbn [join_on app]. repeat (rewrite <-app_assoc; cbn [app]). reflexivity. Qed.

Lemma digits_no c n : is_digit c = false → c ∉ chars (format_uint n).
Proof.
  intros Hc Hin. pose proof (format_uint_digits n) as Hd. rewrite forallb_forall in Hd.
  apply list_elem_of_In in Hin. rewrite (Hd _ Hin) in Hc. done.
Qed.

Lemma split_join sep parts : parts ≠ [] → Forall (λ p, sep ∉ p) parts → split_on sep (join_on sep parts) = parts.
Proof.
  intros Hne Hp. induction Hp as [|p parts Hp Hps IH]; [done|]. cbn [join_on]. destruct parts as [|q parts]; [by apply split_on_none|].
  rewrite split_on_app by done. by rewrite IH.
Qed.

Lemma phc_params_clean c h : is_digit c = false → c ∉ chars "mtp=" → Forall (λ p, c ∉ p) (phc_params h).
Proof.
  intros Hd Hc. pose proof (digits_no c) as Hn. unfold phc_params. change (chars "mtp=") with ["m"; "t"; "p"; "="]%char in Hc.
  repeat apply Forall_cons_2; [..|apply Forall_nil_2]; change (chars "m=") with ["m"; "="]%char; change (chars "t=") with ["t"; "="]%char;
    change (chars "p=") with ["p"; "="]%char; rewrite not_elem_of_app; (split; [set_solver|by apply Hn]).
Qed.

Lemma join_on_elem sep c parts : c ∈ join_on sep parts → c = sep ∨ ∃ p, p ∈ parts ∧ c ∈ p.
Proof.
  induction parts as [|p parts IH]; cbn [join_on]; [by intros ?%elem_of_nil|]. destruct parts as [|q parts].
  - intros Hc. right. exists p. split; [by apply list_elem_of_singleton|done].
  - intros [Hc|[->|Hc]%elem_of_cons]%elem_of_app; [right; exists p; split; [apply elem_of_cons; by left|done]|by left|].
    destruct (IH Hc) as [?|(p' & ? & ?)]; [by left|right]. exists p'. split; [apply elem_of_cons; by right|done].
Qed.

Lemma phc_parts_clean h : hash_ok h → Forall (λ p, "$"%char ∉ p) (phc_parts h).
Proof.
  intros (_ & _ & _ & [_ Hs] & [_ Hk]). unfold phc_parts.
  repeat apply Forall_cons_2; [..|apply Forall_nil_2]; [apply not_elem_of_nil|vm_compute; set_solver|vm_compute; set_solver|
    |apply (std_decode_encode _ Hs)|apply (std_decode_encode _ Hk)].
  intros [?|(p & Hp & Hin)]%join_on_elem; [done|].
  pose proof (phc_params_clean "$" h eq_refl ltac:(vm_compute; set_solver)) as Hc. rewrite Forall_forall in Hc. by apply (Hc p).
Qed.

Lemma encodePHC_length h : hash_ok h → 0 < len (encodePHC h) <= maxPHCLength.
Proof.
  intros (Hm & Hi & Hp & [Hs _] & [Hk _]). unfold encodePHC, std_encode, maxPHCLength.
  unfold MinArgon2MemoryKiB, MaxArgon2MemoryKiB, MinArgon2Iterations, MaxArgon2Iterations, MinArgon2Parallelism, MaxArgon2Parallelism,
    MinArgon2SaltBytes, MinArgon2KeyBytes, MaxArgon2SaltBytes, MaxArgon2KeyBytes in *.
  rewrite !len_app, !len_implode, !length_fmap, !encode64_split, !length_fmap, !split64_length.
  rewrite !(len_chars (format_uint _)).
  pose proof (format_uint_length (ph_memory h) 10 ltac:(lia) ltac:(lia)). pose proof (format_uint_length (ph_iterations h) 10 ltac:(lia) ltac:(lia)).
  pose proof (format_uint_length (ph_parallelism h) 10 ltac:(lia) ltac:(lia)).
  pose proof (sextets_bound (length (ph_salt h)) ltac:(lia)). pose proof (sextets_bound (length (ph_sum h)) ltac:(lia)).
  change (len "$argon2id$v=19$m=") with 17. change (len ",t=") with 3. change (len ",p=") with 3. change (len "$") with 1. lia.
Qed.

(** The strict parser accepts exactly the printed hashes within the cost bounds. *)
Lemma parsePasswordHash_iff phc h : parsePasswordHash phc = Ok h ↔ phc = encodePHC h ∧ hash_ok h.
Proof.
  unfold parsePasswordHash. split.
  - intros H. destruct (_ || _) in H; [discriminate H|].
    destruct (split_on "$" (chars phc)) as [|p0 [|p1 [|p2 [|p3 [|p4 [|p5 [|]]]]]]] eqn:Hsplit; try discriminate H.
    apply split_inv in Hsplit as [Hphc _].
    destruct (negb (bool_decide (p0 = [])) || _ || _) eqn:Hh; [discriminate H|]. repeat (apply orb_false_elim in Hh as [Hh ?]). breflect.
    destruct (split_on "," p3) as [|m [|t [|p [|]]]] eqn:Hs3; try discriminate H. apply split_inv in Hs3 as [Hp3 _].
    destruct (negb (has_prefix (chars "m=") m) || _ || _) eqn:Hpre; [discriminate H|].
    apply orb_false_elim in Hpre as [[Hpm%negb_false_iff Hpt%negb_false_iff]%orb_false_elim Hpp%negb_false_iff].
    destruct (mbind _ _) as [h'|] eqn:Hb in H; [|discriminate H]. injection H as ->.
    apply bind_Some in Hb as (mm & Hmm & Hb). apply phc_number_iff in Hmm as [-> ?]; [|by right|done|done|done].
    apply bind_Some in Hb as (it & Hit & Hb). apply phc_number_iff in Hit as [-> ?]; [|by right|done|done|done].
    apply bind_Some in Hb as (pa & Hpa & Hb). apply phc_number_iff in Hpa as [-> ?]; [|by left|done|done|done].
    apply bind_Some in Hb as (sa & Hsa & Hb). apply phc_bytes_iff in Hsa as (-> & ? & ?); [|done|done].
    apply bind_Some in Hb as (su & Hsu & Hb). apply phc_bytes_iff in Hsu as (-> & ? & ?); [|done|done].
    injection Hb as <-. split; [|unfold hash_ok; cbn [ph_memory ph_iterations ph_parallelism ph_salt ph_sum]; tauto]. apply chars_inj. rewrite Hphc, encodePHC_parts. unfold phc_parts, phc_params. cbn [ph_memory ph_iterations ph_parallelism ph_salt ph_sum].
    by subst.
  - intros [-> Hok]. pose proof (encodePHC_length h Hok) as Hlen.
    rewrite (proj2 (Z.eqb_neq _ _)), (proj2 (Z.ltb_ge _ _)) by lia. cbn [orb].
    rewrite encodePHC_parts, split_join by (done || by apply phc_parts_clean). unfold phc_parts.
    rewrite !bool_decide_eq_true_2 by done. cbn [negb orb].
    rewrite split_join by (done || by apply (phc_params_clean "," h eq_refl); vm_compute; set_solver). unfold phc_params.
    destruct Hok as (Hm & Hi & Hp & [Hs Hsb] & [Hk Hkb]). unfold has_prefix. rewrite !take_app_length, !bool_decide_eq_true_2 by done. cbn [negb orb].
    rewrite (phc_number_print (chars "m=") 32); [|by right|done|done|exact Hm].
    rewrite (phc_number_print (chars "t=") 32); [|by right|done|done|exact Hi].
    rewrite (phc_number_print (chars "p=") 8); [|by left|done|done|exact Hp].
    rewrite (proj2 (phc_bytes_iff _ MinArgon2SaltBytes MaxArgon2SaltBytes (ph_salt h) ltac:(done) ltac:(done))) by done.
    rewrite (proj2 (phc_bytes_iff _ MinArgon2KeyBytes MaxArgon2KeyBytes (ph_sum h) ltac:(done) ltac:(done))) by done.
    cbn [mbind option_bind]. by destruct h.
Qed.

(** ** Origins *)

Lemma matched_one (candidate : list Z) (p : OriginPolicy) (acc : Z) : acc = 0 ∨ acc = 1 →
  foldl (λ m d, Z.lor m (if bool_decide (candidate = d) then 1 else 0)) acc p =
  (if bool_decide (acc = 1 ∨ candidate ∈ p) then 1 else 0).
Proof.
  revert acc. induction p as [|d p IH]; intros acc Hacc; cbn [foldl].
  - destruct Hacc as [-> | ->]; [rewrite bool_decide_eq_false_2; [done|]|by rewrite bool_decide_eq_true_2 by (by left)].
    intros [?|?%elem_of_nil]; done.
  - rewrite IH by (case_bool_decide; destruct Hacc as [-> | ->]; (by left) || by right).
    erewrite bool_decide_ext; [reflexivity|]. rewrite elem_of_cons. case_bool_decide; destruct Hacc as [-> | ->]; cbn; naive_solver.
Qed.

Lemma origin_Validate_iff p origin :
  origin_Validate p origin = None ↔ canonicalOrigin origin = true ∧ sha256 (bytes_of origin) ∈ p.
Proof.
  unfold origin_Validate. destruct (canonicalOrigin origin); cbn [negb]; [|split; [done|by intros [? _]]].
  rewrite matched_one by (by left). case_bool_decide as Hin; cbn; split; try done; [naive_solver|].
  intros [_ Hp]. destruct Hin. by right.
Qed.

Lemma origin_loop_spec origins : ∀ seen p, origin_loop origins seen = Ok p →
  p = seen ++ ((λ o, sha256 (bytes_of o)) <$> origins) ∧ Forall (λ o, canonicalOrigin o = true) origins.
Proof.
  induction origins as [|o origins IH]; cbn [origin_loop]; intros seen p H.
  - injection H as <-. by rewrite app_nil_r.
  - destruct (canonicalOrigin o) eqn:Ho; cbn [negb] in H; [|discriminate H]. destruct (bool_decide _) in H; [discriminate H|].
    apply IH in H as [-> Hall]. split; [by rewrite <-app_assoc|]. by constructor.
Qed.

(** An allowed origin is canonical and has the digest of a configured one; every configured one is allowed. *)
Theorem origin_policy_exact origins p origin : NewOriginPolicy origins = Ok p →
  (origin_allowed p origin = true ↔
     canonicalOrigin origin = true ∧ ∃ configured, configured ∈ origins ∧ sha256 (bytes_of origin) = sha256 (bytes_of configured)) ∧
  (origin ∈ origins → origin_allowed p origin = true).
Proof.
  unfold NewOriginPolicy. intros H. destruct (_ || _) in H; [discriminate H|]. apply origin_loop_spec in H as [-> Hall]. cbn [app].
  assert (Hiff : origin_allowed ((λ o, sha256 (bytes_of o)) <$> origins) origin = true ↔
     canonicalOrigin origin = true ∧ ∃ configured, configured ∈ origins ∧ sha256 (bytes_of origin) = sha256 (bytes_of configured)).
  { unfold origin_allowed. rewrite negb_true_iff, bool_decide_eq_false, <-eq_None_not_Some, origin_Validate_iff, list_elem_of_fmap. split; intros [Hc (o & H1 & H2)]; (split; [exact Hc|exists o; split; [exact H2|exact H1]]). }
  split; [done|]. intros Ho. apply Hiff. rewrite Forall_forall in Hall. split; [by apply Hall|]. by exists origin.
Qed.

(** Two strings a browser never sends as an origin are canonical all the same. *)
Example trailing_query_accepted : canonicalOrigin "https://admin.example.test?" = true.
Proof. vm_compute. reflexivity. Qed.

Example trailing_colon_accepted : canonicalOrigin "https://admin.example.test:" = true.
Proof. vm_compute. reflexivity. Qed.

(** ** Sample boundary *)


(** ** Claims *)



(** A login succeeds only for a granted attempt with the configured user name (by
    digest) and the password of the configured hash, and then issues a session for
    the configured actor; every attempt that is not rate limited costs exactly one
    password hash, right or wrong. *)
Theorem login_needs_name_and_password work b now later source username password entropy :
  let '(_, hashed, r, _) := boundary_Login work b now later source username password entropy in
  (length hashed = 1%nat ↔ (login_Allow (b_login b) now source).2 = None) ∧
  (∀ issued, r = Ok issued →
     (login_Allow (b_login b) now source).2 = None ∧
     cr_usernameDigest (b_credentials b) = sha256 (bytes_of username) ∧ right_password work (b_credentials b) password ∧
     ∃ rest, IssueLogin (b_sessions b) later (cr_actorID (b_credentials b)) entropy = (Ok issued, rest)).
Proof.
  pose proof (boundary_Login_spec work b now later source username password entropy) as H.
  destruct (boundary_Login work b now later source username password entropy) as [[[b' hashed] r] rest].
  destruct H as (_ & _ & Hh & Hr). split; [|exact Hr]. destruct Hh as [[-> [e He]]|[Hl Hn]]; [|done]. rewrite He. done.
Qed.

(** The strict parser of Argon2id PHC strings accepts exactly the strings the
    printer gives for hashes within the cost and length bounds, and returns the hash
    printed. *)
Theorem password_hash_round_trip phc h : parsePasswordHash phc = Ok h ↔ phc = encodePHC h ∧ hash_ok h.
Proof. apply parsePasswordHash_iff. Qed.

(** A session cookie is read exactly when it is the one value written for a
    version 4 identifier and a canonical token, and gives back both; the cookie of a
    session just issued is HttpOnly, same-site strict, secure under the TLS transport,
    and is read back as that session's identifier and token. *)
Theorem session_cookie_round_trip p header issued m actorID a c parent : cookie_Valid p = true → 1 <= len header <= 4096 →
  fresh_session m issued actorID a c parent →
  (∀ value id token, ReadSessionCredential p [header] [value] = Ok (id, token) ↔
     value = cookie_value id token ∧ v4_id id ∧ ∃ raw, is_token raw ∧ token = encode_token raw) ∧
  ∃ cookie, IssuedSessionCookie p issued = Ok cookie ∧
    ReadSessionCredential p [header] [ck_Value cookie] = Ok (sr_ID (is_Record issued), SessionToken issued) ∧
    ck_HttpOnly cookie = true ∧ ck_SameSite cookie = SameSiteStrictMode ∧ (cp_transport p = CookieTransportTLS → ck_Secure cookie = true).
Proof.
  intros Hp Hh [Hok _ [Htok _] _ _ _ _ _].
  assert (Hiff : ∀ value id token, ReadSessionCredential p [header] [value] = Ok (id, token) ↔
     value = cookie_value id token ∧ v4_id id ∧ ∃ raw, is_token raw ∧ token = encode_token raw).
  { intros value id token. rewrite ReadSessionCredential_iff, canonicalSessionToken_iff by done. tauto. }
  split; [exact Hiff|]. exists (sessionCookie p (cookie_value (sr_ID (is_Record issued)) (SessionToken issued)) (sr_ExpiresAt (is_Record issued))).
  pose proof (ok_uuid _ _ Hok) as [H6 H8]. pose proof (ok_id _ _ Hok) as [Hl Hb]. split_and!.
  - unfold IssuedSessionCookie. rewrite Hp, (uuid_not_zero _ H6). cbn [negb orb].
    rewrite (proj2 (canonicalSessionToken_iff (SessionToken issued))) by (by exists (is_sessionToken issued)). reflexivity.
  - apply Hiff. split; [reflexivity|]. split; [by split_and!|]. by exists (is_sessionToken issued).
  - reflexivity.
  - reflexivity.
  - intros E. cbn. by rewrite E.
Qed.

Lemma session_cookie_round_trip_witness :
  let p := MkCookiePolicy "sentinelflow_admin" CookieTransportTLS in
  ∃ cookie, IssuedSessionCookie p sample_issued = Ok cookie ∧ ck_Secure cookie = true.
Proof.
  intros p. pose proof sample_issued_eq as Hi. unfold IssueLogin in Hi. change (validPublicIdentity "administrator") with true in Hi. cbn [negb] in Hi.
  apply issue_ok in Hi; [|exact sample_entropy_bytes|reflexivity|vm_compute; split; discriminate].
  destruct (session_cookie_round_trip p "sentinelflow_admin=v1" sample_issued sample_manager _ _ _ _ eq_refl ltac:(vm_compute; split; discriminate) Hi)
    as [_ (cookie & Hc & _ & _ & _ & Hs)].
  exists cookie. split; [exact Hc|exact (Hs eq_refl)].
Defined.
