(* ===== verification/JsonTree.v ===== *)
(** * Nested JSON ([encoding/json], continued)

    Decoding into nested Go values.  The decoder stores into what is already
    there, and object names match without regard to case, so a document that names
    a member twice in different case is decoded twice into the same place; the
    definitions take the old value.  A slice keeps its backing array: a second
    decoding reuses the old elements.  The file also prints nested documents and
    proves that what is printed is read back. *)

From S2P Require Import Prelude GoStrings Json.
Local Open Scope Z_scope.

(** ** Decoding *)

(** A backing array and the length in use. *)
Record slice (A : Type) := MkSlice { sl_backing : list A; sl_len : nat }.
Arguments MkSlice {A} sl_backing sl_len.
Arguments sl_backing {A} s.
Arguments sl_len {A} s.

Definition nil_slice {A} : slice A := MkSlice [] 0.
Definition elements {A} (s : slice A) : list A := take (sl_len s) (sl_backing s).

(** Store a JSON value into a Go value; [None] when the decoder reports an error. *)
Definition decoder (A : Type) : Type := json → A → option A.

Definition decode_string : decoder string := λ v old,
  match v with JString s => Some s | JNull => Some old | _ => None end.

Definition decode_bool : decoder bool := λ v old,
  match v with JBool b => Some b | JNull => Some old | _ => None end.

Definition decode_uint (bits : Z) : decoder Z := λ v old,
  match v with JNumber n => parse_uint bits (implode n) | JNull => Some old | _ => None end.

Definition decode_pointer {A} (zero : A) (dec : decoder A) : decoder (option A) := λ v old,
  match v with JNull => Some None | _ => x ← dec v (default zero old); Some (Some x) end.

(** [json.RawMessage] takes any value, [null] included. *)
Definition decode_raw : decoder (option json) := λ v _, Some (Some v).

Definition find_name {A} (fields : list (string * A)) (name : string) : option A :=
  match List.find (λ f, String.eqb f.1 name) fields with
  | Some f => Some f.2
  | None => snd <$> List.find (λ f, bool_decide (fold_name (chars f.1) = fold_name (chars name))) fields
  end.

(** A struct, with [DisallowUnknownFields]. *)
Definition decode_fields {A} (fields : list (string * decoder A)) (ms : list (string * json)) (old : A) : option A :=
  foldl (λ acc m, acc ← acc; f ← find_name fields m.1; f m.2 acc) (Some old) ms.

Definition decode_object {A} (fields : list (string * decoder A)) : decoder A := λ v old,
  match v with JNull => Some old | JObject ms => decode_fields fields ms old | _ => None end.

Fixpoint decode_elements {A} (zero : A) (dec : decoder A) (es : list json) (backing : list A) : option (list A) :=
  match es, backing with
  | [], _ => Some backing
  | e :: es, b :: backing => x ← dec e b; xs ← decode_elements zero dec es backing; Some (x :: xs)
  | e :: es, [] => x ← dec e zero; xs ← decode_elements zero dec es []; Some (x :: xs)
  end.

Definition decode_slice {A} (zero : A) (dec : decoder A) : decoder (slice A) := λ v old,
  match v with
  | JNull | JArray [] => Some nil_slice
  | JArray es => backing ← decode_elements zero dec es (sl_backing old); Some (MkSlice backing (length es))
  | _ => None
  end.

(** ** Scanning for duplicate names

    The recursive scan with [Decoder.Token] that bounds depth and tokens; [None]
    rejects, otherwise the tokens read so far. *)
Fixpoint consume_value (maxDepth maxTokens : Z) (depth tokens : Z) (v : json) : option Z :=
  if (maxDepth <? depth) || (maxTokens <=? tokens) then None
  else
    let tokens := tokens + 1 in
    let close tokens := if maxTokens <=? tokens then None else Some (tokens + 1) in
    match v with
    | JObject ms =>
        let fix members (ms : list (string * json)) (keys : list string) (tokens : Z) : option Z :=
          match ms with
          | [] => close tokens
          | (key, v) :: ms =>
              if maxTokens <=? tokens then None
              else if bool_decide (key ∈ keys) then None
              else tokens ← consume_value maxDepth maxTokens (depth + 1) (tokens + 1) v; members ms (key :: keys) tokens
          end in
        members ms [] tokens
    | JArray es =>
        let fix elems (es : list json) (tokens : Z) : option Z :=
          match es with
          | [] => close tokens
          | v :: es => tokens ← consume_value maxDepth maxTokens (depth + 1) tokens v; elems es tokens
          end in
        elems es tokens
    | _ => Some tokens
    end.

(** ** Printing *)

Fixpoint write_json (v : json) : list ascii :=
  match v with
  | JObject ms =>
      let fix members (tail : bool) (ms : list (string * json)) : list ascii :=
        match ms with
        | [] => ["}"%char]
        | (k, v) :: ms => (if tail then [","%char] else []) ++ chars (json_string k) ++ ":"%char :: write_json v ++ members true ms
        end in
      "{"%char :: members false ms
  | JArray es =>
      let fix elems (tail : bool) (es : list json) : list ascii :=
        match es with
        | [] => ["]"%char]
        | v :: es => (if tail then [","%char] else []) ++ write_json v ++ elems true es
        end in
      "["%char :: elems false es
  | JBool b => chars (if b then "true" else "false")
  | _ => write_value v
  end.

Definition write_member_list := fix members (tail : bool) (ms : list (string * json)) : list ascii :=
  match ms with
  | [] => ["}"%char]
  | (k, v) :: ms => (if tail then [","%char] else []) ++ chars (json_string k) ++ ":"%char :: write_json v ++ members true ms
  end.

Definition write_element_list := fix elems (tail : bool) (es : list json) : list ascii :=
  match es with
  | [] => ["]"%char]
  | v :: es => (if tail then [","%char] else []) ++ write_json v ++ elems true es
  end.

Lemma write_json_object ms : write_json (JObject ms) = "{"%char :: write_member_list false ms.
Proof. reflexivity. Qed.

Lemma write_json_array es : write_json (JArray es) = "["%char :: write_element_list false es.
Proof. reflexivity. Qed.

(** Documents whose strings need no escape and whose numbers are naturals. *)
Fixpoint simple (v : json) : Prop :=
  match v with
  | JString s => plain s
  | JNumber n => ∃ z, 0 <= z ∧ n = chars (format_uint z)
  | JArray es => foldr (λ e P, simple e ∧ P) True es
  | JObject ms => foldr (λ m P, (plain m.1 ∧ simple m.2) ∧ P) True ms
  | _ => True
  end.

(** Induction on documents through lists. *)
Lemma json_nested_ind (P : json → Prop) :
  P JNull → (∀ b, P (JBool b)) → (∀ n, P (JNumber n)) → (∀ s, P (JString s)) →
  (∀ es, Forall P es → P (JArray es)) → (∀ ms, Forall (λ m, P m.2) ms → P (JObject ms)) → ∀ v, P v.
Proof.
  intros H1 H2 H3 H4 H5 H6. fix IH 1. intros [|b|n|s|es|ms]; [done|apply H2|apply H3|apply H4|apply H5|apply H6].
  - induction es as [|e es IHes]; [constructor|]. constructor; [apply IH|apply IHes].
  - induction ms as [|[k v] ms IHms]; [constructor|]. constructor; [apply IH|apply IHms].
Qed.

(** A printed value begins with a byte that is no space. *)
Lemma write_json_head v : simple v → ∃ c l, write_json v = c :: l ∧ is_space c = false ∧ c ≠ "]"%char.
Proof.
  destruct v as [|b|n|s|es|ms]; intros Hs.
  - by exists "n"%char, (chars "ull").
  - destruct b; [by exists "t"%char, (chars "rue")|by exists "f"%char, (chars "alse")].
  - destruct Hs as (z & Hz & ->). cbn [write_json write_value]. destruct (format_uint_head z Hz) as (c & s & -> & Hd & _).
    exists c, s. split; [done|]. by destruct c as [[] [] [] [] [] [] [] []].
  - cbn [write_json write_value]. rewrite json_string_plain by done. by exists dq, (chars s ++ [dq]).
  - by exists "["%char, (write_element_list false es).
  - by exists "{"%char, (write_member_list false ms).
Qed.

Definition reads_back (v : json) : Prop :=
  simple v → ∀ r fuel, ends_value r → (length (write_json v) < fuel)%nat → parse_value fuel (write_json v ++ r) = Some (v, r).

Lemma ends_member_list ms r : ends_value (write_member_list true ms ++ r).
Proof. destruct ms as [|[k v] ms]; simpl; auto. Qed.

Lemma ends_element_list es r : ends_value (write_element_list true es ++ r).
Proof. destruct es as [|e es]; simpl; auto. Qed.

Lemma parse_element_list es r : Forall reads_back es → foldr (λ e P, simple e ∧ P) True es →
  ∀ tail fuel, (length (write_element_list tail es) < fuel)%nat →
  parse_elements fuel tail (write_element_list tail es ++ r) = Some (es, r).
Proof.
  induction 1 as [|v es Hv Hes IH]; intros Hs tail fuel Hf; destruct fuel as [|f]; try (simpl in *; lia); [done|].
  cbn [foldr] in Hs. destruct Hs as [Hsv Hs]. destruct (write_json_head v Hsv) as (c & l & Hc & Hsp & Hb).
  assert (length (write_json v) + length (write_element_list true es) < S f)%nat as Hlen.
  { cbn [write_element_list] in Hf. fold write_element_list in Hf. rewrite !length_app in Hf. destruct tail; cbn [length] in Hf; lia. }
  assert (Hpos : (0 < length (write_element_list true es))%nat) by (destruct es; cbn; lia).
  assert (Hbody : ('(v, l3) ← parse_value f (write_json v ++ write_element_list true es ++ r);
    '(es, r) ← parse_elements f true l3; Some (v :: es, r)) = Some (v :: es, r)).
  { unfold mbind, option_bind. rewrite (Hv Hsv _ f (ends_element_list _ _)) by lia. rewrite IH; [done|done|].
    rewrite Hc in Hlen. cbn [length] in Hlen. lia. }
  cbn [parse_elements write_element_list]. fold write_element_list. rewrite <-!app_assoc. destruct tail; cbn [app].
  - change (skip_space (","%char :: ?l)) with (","%char :: l). cbn match. rewrite (bool_decide_eq_true_2 (","%char = ","%char)) by done.
    exact Hbody.
  - rewrite Hc in *. cbn [app] in *. rewrite (skip_space_stop c) by done.
    destruct (decide (c = "]"%char)) as [|_]; [done|]. destruct c as [[] [] [] [] [] [] [] []]; try done; exact Hbody.
Qed.

Lemma parse_member_list ms r : Forall (λ m, reads_back m.2) ms → foldr (λ m P, (plain m.1 ∧ simple m.2) ∧ P) True ms →
  ∀ tail fuel, (length (write_member_list tail ms) < fuel)%nat →
  parse_members fuel tail (write_member_list tail ms ++ r) = Some (ms, r).
Proof.
  induction 1 as [|[k v] ms Hv Hms IH]; intros Hs tail fuel Hf; destruct fuel as [|f]; try (simpl in *; lia); [done|].
  cbn [foldr fst snd] in Hs, Hv. destruct Hs as [[Hk Hsv] Hs].
  assert (length (chars k) + length (write_json v) + length (write_member_list true ms) + 2 < f)%nat as Hlen.
  { cbn [write_member_list] in Hf. fold write_member_list in Hf. rewrite json_string_plain in Hf by done. rewrite !length_app in Hf.
    cbn [length] in Hf. rewrite !length_app in Hf. cbn [length] in Hf. destruct tail; cbn [length] in Hf; lia. }
  assert (Hbody : ∀ l, l = chars (json_string k) ++ ":"%char :: write_json v ++ write_member_list true ms ++ r →
    match l with
    | q :: l2 => if bool_decide (q = dq) then
        '(k, l3) ← parse_string f l2;
        match skip_space l3 with
        | ":"%char :: l4 => '(v, l5) ← parse_value f l4; '(ms, r) ← parse_members f true l5; Some ((implode k, v) :: ms, r)
        | _ => None end else None
    | _ => None end = Some ((k, v) :: ms, r)).
  { intros l ->. rewrite json_string_plain by done. cbn [app]. rewrite bool_decide_eq_true_2 by done.
    rewrite <-app_assoc. cbn [app]. rewrite parse_string_plain by (done || lia).
    unfold mbind, option_bind in *. rewrite (skip_space_stop ":"%char) by done.
    rewrite (Hv Hsv _ f (ends_member_list _ _)) by lia. rewrite IH by (done || lia). by rewrite implode_chars. }
  cbn [parse_members write_member_list]. fold write_member_list. rewrite <-!app_assoc. cbn [app]. rewrite <-app_assoc.
  pose proof (json_string_plain k Hk) as Hq. destruct tail; cbn [app].
  - change (skip_space (","%char :: ?l)) with (","%char :: l). cbn match.
    rewrite (bool_decide_eq_true_2 (","%char = ","%char)) by done.
    rewrite Hq at 1. cbn [app]. rewrite (skip_space_stop dq) by done.
    apply (Hbody (dq :: _)). by rewrite Hq.
  - rewrite Hq. cbn [app]. rewrite (skip_space_stop dq) by done. apply (Hbody (dq :: _)). by rewrite Hq.
Qed.

Lemma parse_write_json v : reads_back v.
Proof.
  induction v as [|b|n|s|es IH|ms IH] using json_nested_ind; intros Hs r fuel Hr Hf;
    [by apply (parse_value_flat (EmptyString, JNull))| | by apply (parse_value_flat (EmptyString, JNumber n))
    |by apply (parse_value_flat (EmptyString, JString s))|..].
  - destruct fuel as [|f]; [simpl in *; lia|]. by destruct b.
  - destruct fuel as [|f]; [simpl in *; lia|]. rewrite write_json_array in *. cbn [app parse_value length] in *.
    rewrite (skip_space_stop "["%char) by done. rewrite (bool_decide_eq_false_2 ("["%char = "{"%char)), (bool_decide_eq_true_2 ("["%char = "["%char)) by done.
    unfold mbind, option_bind. by rewrite parse_element_list by (done || lia).
  - destruct fuel as [|f]; [simpl in *; lia|]. rewrite write_json_object in *. cbn [app parse_value length] in *.
    rewrite (skip_space_stop "{"%char) by done. rewrite (bool_decide_eq_true_2 ("{"%char = "{"%char)) by done.
    unfold mbind, option_bind. by rewrite parse_member_list by (done || lia).
Qed.

(** What is printed is read back. *)
Lemma parse_document_write v : simple v → parse_document (write_json v) = Some v.
Proof.
  intros Hs. unfold parse_document. pose proof (parse_write_json v Hs [] (S (length (write_json v))) I ltac:(lia)) as H.
  rewrite app_nil_r in H. rewrite H. done.
Qed.

(** ** Printed documents are ASCII *)

Lemma write_json_ascii v : simple v → Forall is_ascii (write_json v).
Proof.
  induction v as [|b|n|s|es IH|ms IH] using json_nested_ind; intros Hs.
  - apply (write_value_ascii (EmptyString, JNull)). by split.
  - destruct b; repeat constructor; by vm_compute.
  - by apply (write_value_ascii (EmptyString, JNumber n)).
  - by apply (write_value_ascii (EmptyString, JString s)).
  - rewrite write_json_array. constructor; [by vm_compute|]. cbn [simple] in Hs. generalize false.
    induction IH as [|e es He _ IHes]; intros tail; cbn [write_element_list foldr] in *; [repeat constructor; by vm_compute|].
    fold write_element_list. destruct Hs as [Hse Hs]. apply Forall_app. split; [destruct tail; repeat constructor; by vm_compute|].
    apply Forall_app. split; [by apply He|by apply IHes].
  - rewrite write_json_object. constructor; [by vm_compute|]. cbn [simple] in Hs. generalize false.
    induction IH as [|[k e] ms He _ IHms]; intros tail; cbn [write_member_list foldr fst snd] in *; [repeat constructor; by vm_compute|].
    fold write_member_list. destruct Hs as [[Hk Hse] Hs]. apply Forall_app. split; [destruct tail; repeat constructor; by vm_compute|].
    apply Forall_app. split; [by apply json_string_ascii|]. constructor; [by vm_compute|]. apply Forall_app. split; [by apply He|by apply IHms].
Qed.

(** ** Decoding without duplicates of case *)

(** Decoding elements into a fresh slice decodes each on its own. *)
Lemma decode_elements_fresh {A} (zero : A) (dec : decoder A) es : decode_elements zero dec es [] = mapM (λ e, dec e zero) es.
Proof. induction es as [|e es IH]; [done|]. cbn [decode_elements mapM]. by rewrite IH. Qed.

Lemma decode_slice_fresh {A} (zero : A) (dec : decoder A) es xs : mapM (λ e, dec e zero) es = Some xs →
  ∃ s, decode_slice zero dec (JArray es) nil_slice = Some s ∧ elements s = xs.
Proof.
  intros H. destruct es as [|e es]; [cbn in H; injection H as <-; by exists nil_slice|].
  exists (MkSlice xs (length (e :: es))). unfold decode_slice, nil_slice. cbn [sl_backing]. rewrite decode_elements_fresh, H. split; [done|].
  unfold elements. cbn [sl_len sl_backing]. rewrite (length_mapM _ _ _ H). apply take_ge. done.
Qed.

(** An accepted object is a list of assignments, each to a known field. *)
Lemma decode_fields_cons {A} (fields : list (string * decoder A)) m ms old :
  decode_fields fields (m :: ms) old = (acc ← (f ← find_name fields m.1; f m.2 old); decode_fields fields ms acc).
Proof.
  unfold decode_fields. cbn [foldl mbind option_bind]. destruct (find_name fields m.1) as [f|]; cbn [mbind option_bind].
  - destruct (f m.2 old) as [x|]; [done|]. cbn [mbind option_bind]. induction ms as [|m' ms IH]; [done|]. exact IH.
  - induction ms as [|m' ms IH]; [done|]. exact IH.
Qed.

(** ** The scan accepts shallow documents without duplicate names *)

Fixpoint token_count (v : json) : Z :=
  match v with
  | JArray es => 2 + foldr (λ e n, token_count e + n) 0 es
  | JObject ms => 2 + foldr (λ m n, 1 + token_count m.2 + n) 0 ms
  | _ => 1
  end.

Fixpoint height (v : json) : Z :=
  match v with
  | JArray es => foldr (λ e n, Z.max (1 + height e) n) 0 es
  | JObject ms => foldr (λ m n, Z.max (1 + height m.2) n) 0 ms
  | _ => 0
  end.

Lemma token_count_pos v : 1 <= token_count v.
Proof.
  induction v as [|b|n|s|es IH|ms IH] using json_nested_ind; cbn [token_count]; try lia.
  - assert (0 <= foldr (λ e n, token_count e + n) 0 es); [|lia]. induction IH; cbn [foldr]; lia.
  - assert (0 <= foldr (λ m n, 1 + token_count m.2 + n) 0 ms); [|lia]. induction IH; cbn [foldr]; lia.
Qed.

Definition consume_members (maxDepth maxTokens depth : Z) := fix members (ms : list (string * json)) (keys : list string) (tokens : Z) : option Z :=
  match ms with
  | [] => if maxTokens <=? tokens then None else Some (tokens + 1)
  | (key, v) :: ms =>
      if maxTokens <=? tokens then None
      else if bool_decide (key ∈ keys) then None
      else tokens ← consume_value maxDepth maxTokens (depth + 1) (tokens + 1) v; members ms (key :: keys) tokens
  end.

Definition consume_elements (maxDepth maxTokens depth : Z) := fix elems (es : list json) (tokens : Z) : option Z :=
  match es with
  | [] => if maxTokens <=? tokens then None else Some (tokens + 1)
  | v :: es => tokens ← consume_value maxDepth maxTokens (depth + 1) tokens v; elems es tokens
  end.

Lemma consume_value_eq maxDepth maxTokens depth tokens v :
  consume_value maxDepth maxTokens depth tokens v =
  if (maxDepth <? depth) || (maxTokens <=? tokens) then None
  else match v with
       | JObject ms => consume_members maxDepth maxTokens depth ms [] (tokens + 1)
       | JArray es => consume_elements maxDepth maxTokens depth es (tokens + 1)
       | _ => Some (tokens + 1)
       end.
Proof. by destruct v. Qed.

Lemma consume_value_ok maxDepth maxTokens v : unique_names v = true → ∀ depth tokens,
  depth + height v <= maxDepth → tokens + token_count v <= maxTokens →
  consume_value maxDepth maxTokens depth tokens v = Some (tokens + token_count v).
Proof.
  induction v as [|b|n|s|es IH|ms IH] using json_nested_ind; intros Hu depth tokens Hd Ht; rewrite consume_value_eq;
    [cbn [height token_count] in *; rewrite (proj2 (Z.ltb_ge _ _)), (proj2 (Z.leb_gt _ _)) by lia; done..| |].
  - assert (Hh : 0 <= height (JArray es)) by (cbn [height]; clear; induction es; cbn [foldr]; lia).
    assert (Hc : 0 <= foldr (λ e n, token_count e + n) 0 es).
    { clear. induction es as [|e es]; cbn [foldr]; [lia|]. pose proof (token_count_pos e). lia. }
    cbn [token_count] in *. rewrite (proj2 (Z.ltb_ge _ _)), (proj2 (Z.leb_gt _ _)) by lia. cbn [orb].
    cbn [unique_names height] in *. replace (tokens + (2 + foldr (λ e n, token_count e + n) 0 es))
      with (tokens + 1 + foldr (λ e n, token_count e + n) 0 es + 1) in * by lia.
    generalize dependent (tokens + 1). clear Hh. induction IH as [|e es He _ IHes]; intros t Ht; cbn [consume_elements foldr forallb] in *.
    + rewrite (proj2 (Z.leb_gt _ _)) by lia. f_equal. lia.
    + apply andb_prop in Hu as [Hue Hu]. pose proof (token_count_pos e).
      assert (0 <= foldr (λ e n, token_count e + n) 0 es) by (clear; induction es as [|x es]; cbn [foldr]; [lia|]; pose proof (token_count_pos x); lia).
      rewrite He; [|done|lia|lia]. cbn [mbind option_bind]. rewrite IHes; [f_equal; lia|done|lia|lia|lia].
  - assert (Hh : 0 <= height (JObject ms)) by (cbn [height]; clear; induction ms; cbn [foldr]; lia).
    assert (Hpos : ∀ l : list (string * json), 0 <= foldr (λ m n, 1 + token_count m.2 + n) 0 l).
    { clear. induction l as [|x l]; cbn [foldr]; [lia|]. pose proof (token_count_pos x.2). lia. }
    cbn [token_count] in *. pose proof (Hpos ms). rewrite (proj2 (Z.ltb_ge _ _)), (proj2 (Z.leb_gt _ _)) by lia. cbn [orb].
    cbn [unique_names height] in *. apply andb_prop in Hu as [Hn%bool_decide_eq_true Hu].
    replace (tokens + (2 + foldr (λ m n, 1 + token_count m.2 + n) 0 ms))
      with (tokens + 1 + foldr (λ m n, 1 + token_count m.2 + n) 0 ms + 1) in * by lia.
    assert (Hk : ∀ k, k ∈ ([] : list string) → k ∉ fst <$> ms) by (intros k ?%elem_of_nil; done).
    generalize dependent (@nil string). generalize dependent (tokens + 1). clear Hh H.
    induction IH as [|[k e] ms He _ IHms]; intros t Ht keys Hk; cbn [consume_members foldr forallb fst snd fmap list_fmap] in *.
    + rewrite (proj2 (Z.leb_gt _ _)) by lia. f_equal. lia.
    + apply andb_prop in Hu as [Hue Hu]. pose proof (token_count_pos e). pose proof (Hpos ms). apply NoDup_cons in Hn as [Hke Hn].
      rewrite (proj2 (Z.leb_gt _ _)) by lia. rewrite bool_decide_eq_false_2 by (intros Hin; apply (Hk k Hin), elem_of_cons; by left).
      rewrite He; [|done|lia|lia]. cbn [mbind option_bind]. rewrite IHms; try done; try lia; [f_equal; lia|].
      intros k' [->|Hk']%elem_of_cons; [done|]. intros Hin. apply (Hk k' Hk'), elem_of_cons. by right.
Qed.

(** Tokens are fewer than printed bytes. *)
Lemma token_count_length v : simple v → token_count v <= Z.of_nat (length (write_json v)).
Proof.
  induction v as [|b|n|s|es IH|ms IH] using json_nested_ind; intros Hs;
    [by destruct (write_json_head _ Hs) as (c & l & -> & _); cbn; lia..| |].
  - rewrite write_json_array. cbn [token_count length simple] in *.
    assert (Hgen : ∀ tail, foldr (λ e n, token_count e + n) 0 es + 1 <= Z.of_nat (length (write_element_list tail es))); [|specialize (Hgen false); lia].
    induction IH as [|e es He _ IHes]; intros tail; cbn [foldr write_element_list] in *; [cbn; lia|]. fold write_element_list.
    destruct Hs as [Hse Hs]. specialize (He Hse). specialize (IHes Hs true). rewrite !length_app. destruct tail; cbn [length]; lia.
  - rewrite write_json_object. cbn [token_count length simple] in *.
    assert (Hgen : ∀ tail, foldr (λ m n, 1 + token_count m.2 + n) 0 ms + 1 <= Z.of_nat (length (write_member_list tail ms))); [|specialize (Hgen false); lia].
    induction IH as [|[k e] ms He _ IHms]; intros tail; cbn [foldr write_member_list fst snd] in *; [cbn; lia|]. fold write_member_list.
    destruct Hs as [[Hk Hse] Hs]. specialize (He Hse). specialize (IHms Hs true).
    rewrite !length_app. cbn [length]. rewrite length_app. destruct tail; cbn [length]; lia.
Qed.

Lemma decode_uint_print bits n old : 0 <= n < 2 ^ bits → decode_uint bits (JNumber (chars (format_uint n))) old = Some n.
Proof. intros Hn. unfold decode_uint. rewrite implode_chars. by apply parse_format_uint. Qed.
