(* ===== verification/NftRunner.v ===== *)
(** * The nft process adapter ([internal/enforcement/nftrunner])

    Runs the fixed nft binary for the executor, captures a bounded amount of its
    output and turns the JSON listing of the blacklist set into an observation.
    The process itself is the operating system's: its exit code, the chunks it
    writes and the state of the context afterwards are arguments.  A nil runner or
    context is not modelled. *)

From S2P Require Import Prelude GoStrings GoTime Netip Json JsonTree Policy Capability ExecResult Executor.
Local Open Scope Z_scope.

Inductive NftErrorCode :=
  | NftErrorInvalidInput | NftErrorUnsupportedPlatform | NftErrorProcessUnavailable | NftErrorProcessNonzero | NftErrorProcessSignaled
  | NftErrorOutputLimit | NftErrorCancelled | NftErrorTimeout | NftErrorReadbackInvalid.

Definition MaxProcessOutput : Z := 64 * 1024.
Definition maxMutationBytes : Z := 256.
Definition maxJSONDepth : Z := 16.
Definition maxJSONTokens : Z := MaxProcessOutput.
Definition maxSafeHandle : Z := 2 ^ 53 - 1.

(** From [nftvalidate]. *)
Definition Family : string := "inet".
Definition Table : string := "sentinelflow".
Definition BlacklistSet : string := "blacklist_ipv4".

(** ** Reading the listing back ([parser.go]) *)

Definition alnum (c : ascii) : bool := between "0" "9" c || between "A" "Z" c || between "a" "z" c.

(** [nftVersionPattern]: the classes on either side of a separator exclude it, so
    each repetition is the longest run. *)
Definition version_suffix (l : list ascii) : bool :=
  match l with
  | [] => true
  | s :: c :: rest =>
      bool_decide (s ∈ ["-"; "+"]%char) && alnum c && (length rest <=? 63)%nat
      && forallb (λ c, alnum c || bool_decide (c ∈ ["."; "-"]%char)) rest
  | _ => false
  end.

Definition version_number (next : list ascii → bool) (l : list ascii) : bool :=
  let '(d, r) := span_digits l in negb (bool_decide (d = [])) && next r.

Definition version_dot (next : list ascii → bool) (l : list ascii) : bool :=
  match l with "."%char :: l => next l | _ => false end.

Definition nftVersionPattern (s : string) : bool :=
  version_number (version_dot (version_number (version_dot (version_number version_suffix)))) (chars s).

Definition releasePattern (s : string) : bool :=
  (1 <=? len s) && (len s <=? 128) && forallb (between " " "~") (chars s).

Record metainfoWire := MkMetainfo { mi_Version : string; mi_ReleaseName : string; mi_JSONSchemaVersion : Z }.

Record setWire := MkSet {
  st_Family : string; st_Name : string; st_Table : string; st_Type : string;
  st_Handle : Z; st_Flags : slice string; st_Elements : option json
}.

Record readbackEntry := MkEntry { en_Metainfo : option metainfoWire; en_Set : option setWire }.

Record elementValueWire := MkElementValue { ev_Value : string; ev_Timeout : Z; ev_Expires : Z }.

Definition zero_metainfo : metainfoWire := MkMetainfo "" "" 0.
Definition zero_set : setWire := MkSet "" "" "" "" 0 nil_slice None.
Definition zero_entry : readbackEntry := MkEntry None None.
Definition zero_element : elementValueWire := MkElementValue "" 0 0.

(** The fields of each struct, by their JSON names. *)
Definition decode_metainfo : decoder metainfoWire := decode_object
  [("version", λ v m, x ← decode_string v (mi_Version m); Some (MkMetainfo x (mi_ReleaseName m) (mi_JSONSchemaVersion m)));
   ("release_name", λ v m, x ← decode_string v (mi_ReleaseName m); Some (MkMetainfo (mi_Version m) x (mi_JSONSchemaVersion m)));
   ("json_schema_version", λ v m, x ← decode_uint 64 v (mi_JSONSchemaVersion m); Some (MkMetainfo (mi_Version m) (mi_ReleaseName m) x))].

Definition decode_set : decoder setWire := decode_object
  [("family", λ v s, x ← decode_string v (st_Family s);
      Some (MkSet x (st_Name s) (st_Table s) (st_Type s) (st_Handle s) (st_Flags s) (st_Elements s)));
   ("name", λ v s, x ← decode_string v (st_Name s);
      Some (MkSet (st_Family s) x (st_Table s) (st_Type s) (st_Handle s) (st_Flags s) (st_Elements s)));
   ("table", λ v s, x ← decode_string v (st_Table s);
      Some (MkSet (st_Family s) (st_Name s) x (st_Type s) (st_Handle s) (st_Flags s) (st_Elements s)));
   ("type", λ v s, x ← decode_string v (st_Type s);
      Some (MkSet (st_Family s) (st_Name s) (st_Table s) x (st_Handle s) (st_Flags s) (st_Elements s)));
   ("handle", λ v s, x ← decode_uint 64 v (st_Handle s);
      Some (MkSet (st_Family s) (st_Name s) (st_Table s) (st_Type s) x (st_Flags s) (st_Elements s)));
   ("flags", λ v s, x ← decode_slice "" decode_string v (st_Flags s);
      Some (MkSet (st_Family s) (st_Name s) (st_Table s) (st_Type s) (st_Handle s) x (st_Elements s)));
   ("elem", λ v s, x ← decode_raw v (st_Elements s);
      Some (MkSet (st_Family s) (st_Name s) (st_Table s) (st_Type s) (st_Handle s) (st_Flags s) x))].

Definition decode_entry : decoder readbackEntry := decode_object
  [("metainfo", λ v e, x ← decode_pointer zero_metainfo decode_metainfo v (en_Metainfo e); Some (MkEntry x (en_Set e)));
   ("set", λ v e, x ← decode_pointer zero_set decode_set v (en_Set e); Some (MkEntry (en_Metainfo e) x))].

Definition decode_root : decoder (slice readbackEntry) := decode_object
  [("nftables", λ v es, decode_slice zero_entry decode_entry v es)].

Definition decode_element_value : decoder elementValueWire := decode_object
  [("val", λ v e, x ← decode_string v (ev_Value e); Some (MkElementValue x (ev_Timeout e) (ev_Expires e)));
   ("timeout", λ v e, x ← decode_uint 64 v (ev_Timeout e); Some (MkElementValue (ev_Value e) x (ev_Expires e)));
   ("expires", λ v e, x ← decode_uint 64 v (ev_Expires e); Some (MkElementValue (ev_Value e) (ev_Timeout e) x))].

(** [elementWire], the wrapper of one element. *)
Definition decode_element : decoder elementValueWire := decode_object [("elem", λ v e, decode_element_value v e)].

Definition canonicalIPv4 (value : string) : bool := bool_decide (is_Some (canonical_ipv4 value)).

(** [validateUniqueJSONKeys]; the second pass of the decoder checks the grammar again. *)
Definition validateUniqueJSONKeys (data : string) : option json :=
  document ← parse_document (chars data);
  _ ← consume_value maxJSONDepth maxJSONTokens 0 0 document;
  Some document.

(** The loop over the elements: [None] rejects, else what remains for the target. *)
Fixpoint scan_elements (target : string) (es : list elementValueWire) (seen : list string) (remaining : Z) : option Z :=
  match es with
  | [] => Some remaining
  | e :: es =>
      if negb (canonicalIPv4 (ev_Value e)) || (ev_Timeout e <? MinTTLSeconds) || (MaxTTLSeconds <? ev_Timeout e)
         || (ev_Expires e =? 0) || (ev_Timeout e <? ev_Expires e) || (MaxTTLSeconds <? ev_Expires e)
      then None
      else if bool_decide (ev_Value e ∈ seen) then None
      else scan_elements target es (ev_Value e :: seen) (if String.eqb (ev_Value e) target then ev_Expires e else remaining)
  end.

(** What the decoded document says of the target. *)
Definition observe_set (set : setWire) (targetIPv4 ownedSchemaDigest : string) : result NftErrorCode Observation :=
  let base state ttl := MkObservation state targetIPv4 ownedSchemaDigest ttl in
  if negb (String.eqb (st_Family set) Family) || negb (String.eqb (st_Table set) Table)
     || negb (String.eqb (st_Name set) BlacklistSet) || negb (String.eqb (st_Type set) "ipv4_addr")
     || (st_Handle set =? 0) || (maxSafeHandle <? st_Handle set) || negb (bool_decide (elements (st_Flags set) = ["timeout"]))
  then Ok (base ReadbackMismatch 0)
  else
    match st_Elements set with
    | None => Ok (base ReadbackAbsent 0)
    | Some JNull => Err NftErrorReadbackInvalid
    | Some raw =>
        match decode_slice zero_element decode_element raw nil_slice with
        | None => Err NftErrorReadbackInvalid
        | Some es =>
            if (sl_len es =? 0)%nat then Err NftErrorReadbackInvalid
            else
              match scan_elements targetIPv4 (elements es) [] 0 with
              | None => Err NftErrorReadbackInvalid
              | Some remaining =>
                  if remaining =? 0 then Ok (base ReadbackAbsent 0) else Ok (base ReadbackActive remaining)
              end
        end
    end.

Definition observe_document (document : slice readbackEntry) (targetIPv4 ownedSchemaDigest : string) : result NftErrorCode Observation :=
  match elements document with
  | [first; second] =>
      match en_Metainfo first, en_Set first, en_Metainfo second, en_Set second with
      | Some metadata, None, None, Some set =>
          if negb (mi_JSONSchemaVersion metadata =? 1) || negb (nftVersionPattern (mi_Version metadata))
             || negb (releasePattern (mi_ReleaseName metadata))
          then Err NftErrorReadbackInvalid
          else observe_set set targetIPv4 ownedSchemaDigest
      | _, _, _, _ => Err NftErrorReadbackInvalid
      end
  | _ => Err NftErrorReadbackInvalid
  end.

Definition parseReadback (data targetIPv4 ownedSchemaDigest : string) : result NftErrorCode Observation :=
  if (len data =? 0) || (MaxProcessOutput <? len data) || negb (utf8_valid data) || negb (canonicalIPv4 targetIPv4)
     || negb (String.eqb ownedSchemaDigest PinnedLiveSchemaDigest)
  then Err NftErrorReadbackInvalid
  else
    match validateUniqueJSONKeys data with
    | None => Err NftErrorReadbackInvalid
    | Some v =>
        match decode_root v nil_slice with
        | None => Err NftErrorReadbackInvalid
        | Some document => observe_document document targetIPv4 ownedSchemaDigest
        end
    end.

(** ** Bounded capture ([capture.go]) *)

Record boundedCapture := MkCapture {
  cap_limit : Z; cap_total : Z; cap_overflow : bool; cap_stdout : string; cap_stderr : string; cap_cancelled : bool
}.

Definition newBoundedCapture (limit : Z) : boundedCapture := MkCapture limit 0 false "" "" false.

(** One [Write]; the writer always reports the whole chunk as written. *)
Definition capture_write (c : boundedCapture) (value : string) (stderr : bool) : boundedCapture :=
  let remaining := Z.max 0 (cap_limit c - cap_total c) in
  let too_much := remaining <? len value in
  let accepted := if too_much then remaining else len value in
  let piece := implode (take (Z.to_nat accepted) (chars value)) in
  MkCapture (cap_limit c) (cap_total c + accepted) (cap_overflow c || too_much)
    (if stderr then cap_stdout c else cap_stdout c +:+ piece)
    (if stderr then cap_stderr c +:+ piece else cap_stderr c)
    (cap_cancelled c || (too_much && negb (cap_overflow c))).

Definition capture_all (c : boundedCapture) (writes : list (string * bool)) : boundedCapture :=
  foldl (λ c w, capture_write c w.1 w.2) c writes.

(** ** Running nft ([process.go], [process_linux.go], [runner.go]) *)

Inductive processKind := processMutation | processInspect.

Record processRequest := MkProcessRequest { pr_kind : processKind; pr_stdin : string }.

Definition mutationArguments : list string := ["-f"; "-"].
Definition inspectArguments : list string := ["--json"; "list"; "set"; "inet"; "sentinelflow"; "blacklist_ipv4"].

Definition process_path (r : processRequest) : string := FixedNFTBinaryPath.

Definition process_arguments (r : processRequest) : list string :=
  match pr_kind r with processMutation => mutationArguments | processInspect => inspectArguments end.

Record processResult := MkProcessResult {
  rs_exitStatus : Z; rs_stdout : string; rs_stderr : string; rs_overflow : bool; rs_signaled : bool
}.

(** What the system answers: the chunks written, the exit code of
    [ProcessState] when there is one, and whether [Run] failed. *)
Record os_answer := MkAnswer { os_writes : list (string * bool); os_exit : option Z; os_failed : bool }.

Definition runProductionProcess (os : string → list string → string → os_answer) (request : processRequest) : processResult * bool :=
  if match pr_kind request with processInspect => negb (len (pr_stdin request) =? 0) | _ => false end
  then (MkProcessResult (-1) "" "" false false, true)
  else
    let answer := os (process_path request) (process_arguments request) (pr_stdin request) in
    let capture := capture_all (newBoundedCapture MaxProcessOutput) (os_writes answer) in
    let exit := default (-1) (os_exit answer) in
    (MkProcessResult exit (cap_stdout capture) (cap_stderr capture) (cap_overflow capture)
       (match os_exit answer with Some code => code <? 0 | None => false end), os_failed answer).

(** [ctx.Err()] *)
Inductive ContextError := DeadlineExceeded | Canceled.

Definition contextFailure (ctx : option ContextError) : option NftErrorCode :=
  match ctx with
  | Some DeadlineExceeded => Some NftErrorTimeout
  | Some Canceled => Some NftErrorCancelled
  | None => None
  end.

Definition outputTooLarge (r : processResult) : bool :=
  (MaxProcessOutput <? len (rs_stdout r)) || (MaxProcessOutput - len (rs_stdout r) <? len (rs_stderr r)).

Definition mutation_byte (last : bool) (current : ascii) : bool :=
  negb ((126 <? code current) || (code current =? 0) || (code current =? 13) || (code current =? 9)
        || ((code current =? 10) && negb last) || ((code current <? 32) && negb (code current =? 10))).

Definition validMutationEnvelope (value : string) : bool :=
  let l := chars value in
  if (len value =? 0) || (maxMutationBytes <? len value) || negb (utf8_valid value)
     || negb (bool_decide (last l = Some "010"%char)) || negb (length (List.filter (λ c, bool_decide (c = "010"%char)) l) =? 1)%nat
  then false
  else forallb (mutation_byte false) (take (length l - 1) l) && forallb (mutation_byte true) (drop (length l - 1) l).

(** The exit class with the error, if any. [before] and [after] are the context's errors. *)
Definition runner_mutate (run : processRequest → processResult * bool) (before after : option ContextError)
    (operation path : string) (arguments : list string) (stdin : string) : string * option NftErrorCode :=
  match before with
  | Some _ => (NFTExitTimeout, contextFailure before)
  | None =>
      if negb (String.eqb path FixedNFTBinaryPath) || negb (bool_decide (arguments = mutationArguments))
         || (negb (String.eqb operation OperationAdd) && negb (String.eqb operation OperationRevoke))
         || negb (validMutationEnvelope stdin)
      then (NFTExitNonzero, Some NftErrorInvalidInput)
      else
        let '(result, runErr) := run (MkProcessRequest processMutation stdin) in
        match contextFailure after with
        | Some err => (NFTExitTimeout, Some err)
        | None =>
            if rs_overflow result || outputTooLarge result then (NFTExitNonzero, Some NftErrorOutputLimit)
            else if (rs_exitStatus result =? 0) && negb runErr && negb (rs_signaled result) then (NFTExitSuccess, None)
            else if rs_signaled result then (NFTExitSignaled, Some NftErrorProcessSignaled)
            else if 0 <? rs_exitStatus result then (NFTExitNonzero, Some NftErrorProcessNonzero)
            else (NFTExitNonzero, Some NftErrorProcessUnavailable)
        end
  end.

(** [Mutate] with the executor's closed value. *)
Definition Mutate (run : processRequest → processResult * bool) (before after : option ContextError) (m : Mutation)
  : string * option NftErrorCode :=
  runner_mutate run before after (mu_operation m) FixedNFTBinaryPath fixedMutationArguments (mu_stdin m).

Definition runner_inspect (run : processRequest → processResult * bool) (before after : option ContextError)
    (path : string) (arguments : list string) (targetIPv4 ownedSchemaDigest : string) : result NftErrorCode Observation :=
  match before with
  | Some DeadlineExceeded => Err NftErrorTimeout
  | Some Canceled => Err NftErrorCancelled
  | None =>
      if negb (String.eqb path FixedNFTBinaryPath) || negb (bool_decide (arguments = inspectArguments))
         || negb (String.eqb ownedSchemaDigest PinnedLiveSchemaDigest) || negb (canonicalIPv4 targetIPv4)
      then Err NftErrorInvalidInput
      else
        let '(result, runErr) := run (MkProcessRequest processInspect "") in
        match contextFailure after with
        | Some err => Err err
        | None =>
            if rs_overflow result || outputTooLarge result then Err NftErrorOutputLimit
            else if runErr || negb (rs_exitStatus result =? 0) || rs_signaled result || negb (len (rs_stderr result) =? 0) then
              if rs_signaled result then Err NftErrorProcessSignaled
              else if 0 <? rs_exitStatus result then Err NftErrorProcessNonzero
              else Err NftErrorProcessUnavailable
            else parseReadback (rs_stdout result) targetIPv4 ownedSchemaDigest
        end
  end.

Definition Inspect (run : processRequest → processResult * bool) (before after : option ContextError) (i : Inspection)
  : result NftErrorCode Observation :=
  runner_inspect run before after FixedNFTBinaryPath fixedInspectArguments (is_targetIPv4 i) (is_ownedSchemaDigest i).
