(* ===== verification/NftRunnerSpec.v ===== *)
(** * What the nft adapter reports

    The observation of a listing is what the listing says, whatever the order of
    its elements; a captured output is complete or flagged; the executor accepts
    every observation the adapter makes, and the adapter every command the
    executor may send. *)

From S2P Require Import Prelude GoStrings Regex GoTime Netip Json JsonTree Policy PolicySpec Capability CapabilitySpec ExecResult Executor NftRunner.
Local Open Scope Z_scope.

(** ** The elements of the set *)

Definition element_ok (e : elementValueWire) : Prop :=
  is_Some (canonical_ipv4 (ev_Value e)) ∧ MinTTLSeconds <= ev_Timeout e <= MaxTTLSeconds ∧ 1 <= ev_Expires e <= ev_Timeout e.

(** What the elements hold for an address; 0 when it is not among them. *)
Definition remaining_for (target : string) (es : list elementValueWire) : Z :=
  match List.find (λ e, String.eqb (ev_Value e) target) es with Some e => ev_Expires e | None => 0 end.

Lemma element_check e : 0 <= ev_Expires e →
  negb (canonicalIPv4 (ev_Value e)) || (ev_Timeout e <? MinTTLSeconds) || (MaxTTLSeconds <? ev_Timeout e)
    || (ev_Expires e =? 0) || (ev_Timeout e <? ev_Expires e) || (MaxTTLSeconds <? ev_Expires e) = false ↔ element_ok e.
Proof.
  intros H0. unfold element_ok, canonicalIPv4. rewrite !orb_false_iff, negb_false_iff, bool_decide_eq_true.
  rewrite !Z.ltb_ge, Z.eqb_neq. unfold MinTTLSeconds, MaxTTLSeconds. intuition lia.
Qed.

Definition scan_result (target : string) (es : list elementValueWire) (remaining : Z) : Z :=
  if bool_decide (target ∈ ev_Value <$> es) then remaining_for target es else remaining.

Lemma scan_elements_iff target es : Forall (λ e, 0 <= ev_Expires e) es → ∀ seen remaining r,
  scan_elements target es seen remaining = Some r ↔
  Forall element_ok es ∧ NoDup (ev_Value <$> es) ∧ (∀ v, v ∈ seen → v ∉ ev_Value <$> es) ∧ r = scan_result target es remaining.
Proof.
  induction 1 as [|e es H0 _ IH]; intros seen remaining r; cbn [scan_elements].
  { unfold scan_result. rewrite bool_decide_eq_false_2 by apply not_elem_of_nil. split.
    - intros [= <-]. split_and!; [constructor|constructor|intros ? ?; apply not_elem_of_nil|done].
    - by intros (_ & _ & _ & ->). }
  pose proof (element_check e H0) as Hcheck.
  destruct (negb (canonicalIPv4 (ev_Value e)) || _ || _ || _ || _ || _).
  { split; [done|]. intros (Hall & _). apply Forall_cons in Hall as [He _]. by apply Hcheck in He. }
  pose proof (proj1 Hcheck eq_refl) as He. case_bool_decide as Hseen.
  { split; [done|]. intros (_ & _ & Hd & _). destruct (Hd _ Hseen). cbn. apply elem_of_cons. by left. }
  rewrite IH. rewrite Forall_cons. unfold scan_result, remaining_for. cbn [fmap list_fmap List.find]. rewrite NoDup_cons.
  destruct (String.eqb_spec (ev_Value e) target) as [<-|Hne].
  - rewrite (bool_decide_eq_true_2 (ev_Value e ∈ ev_Value e :: _)) by (apply elem_of_cons; by left). split.
    + intros (H1 & H2 & H3 & H4). assert (Hn : ev_Value e ∉ ev_Value <$> es) by (apply H3, elem_of_cons; by left).
      rewrite bool_decide_eq_false_2 in H4 by done. split_and!; [done..| |done].
      intros v Hv. apply not_elem_of_cons. split; [by intros ->|]. apply H3, elem_of_cons. by right.
    + intros ((_ & H1) & (Hn & H2) & H3 & ->). split_and!; [done..| |by rewrite bool_decide_eq_false_2].
      intros v [->|Hv]%elem_of_cons; [done|]. specialize (H3 v Hv). by apply not_elem_of_cons in H3 as [_ ?].
  - rewrite (bool_decide_ext (target ∈ ev_Value e :: (ev_Value <$> es)) (target ∈ ev_Value <$> es))
      by (rewrite elem_of_cons; naive_solver). split.
    + intros (H1 & H2 & H3 & H4). assert (Hn : ev_Value e ∉ ev_Value <$> es) by (apply H3, elem_of_cons; by left).
      split_and!; [done..| |done]. intros v Hv. apply not_elem_of_cons. split; [by intros ->|]. apply H3, elem_of_cons. by right.
    + intros ((_ & H1) & (Hn & H2) & H3 & ->). split_and!; [done..| |done].
      intros v [->|Hv]%elem_of_cons; [done|]. specialize (H3 v Hv). by apply not_elem_of_cons in H3 as [_ ?].
Qed.

(** Decoded numbers are natural. *)
Lemma parse_uint_nonneg bits s n : parse_uint bits s = Some n → 0 <= n.
Proof.
  unfold parse_uint. intros H. destruct (chars s) as [|c l]; [done|]. destruct (forallb is_digit (c :: l)) eqn:Hd; [|done].
  case_match; [|done]. injection H as <-. apply (of_digits_bound (map char_digit (c :: l))), (is_digit_dec (c :: l)), Hd.
Qed.

Lemma decode_uint_nonneg bits v old n : decode_uint bits v old = Some n → 0 <= old → 0 <= n.
Proof. unfold decode_uint. destruct v; intros H ?; simplify_eq; [done|]. by eapply parse_uint_nonneg. Qed.

(** A property of a struct that every field's decoder keeps. *)
Lemma decode_fields_inv {A} (P : A → Prop) fields ms : (∀ name f v x y, find_name fields name = Some f → P x → f v x = Some y → P y) →
  ∀ x y, P x → decode_fields fields ms x = Some y → P y.
Proof.
  intros Hf. induction ms as [|m ms IH]; intros x y Hx H; [by injection H as <-|].
  rewrite decode_fields_cons in H. apply bind_Some in H as (z & Hz & H). apply bind_Some in Hz as (f & Hfind & Hz).
  eapply IH; [|exact H]. by eapply Hf.
Qed.

Lemma find_name_in {A} (fields : list (string * A)) name f : find_name fields name = Some f → ∃ n, (n, f) ∈ fields.
Proof.
  unfold find_name. destruct (List.find _ fields) as [[n g]|] eqn:E.
  - intros [= <-]. apply List.find_some in E as [Hin _]. exists n. by apply list_elem_of_In.
  - destruct (List.find (λ f, bool_decide _) fields) as [[n g]|] eqn:E2; [|done]. cbn. intros [= <-].
    apply List.find_some in E2 as [Hin _]. exists n. by apply list_elem_of_In.
Qed.

Lemma decode_element_value_expires v x y : decode_element_value v x = Some y → 0 <= ev_Expires x → 0 <= ev_Expires y.
Proof.
  unfold decode_element_value, decode_object. intros H Hx. destruct v; try done; [by injection H as <-|].
  revert H. apply (decode_fields_inv (λ e, 0 <= ev_Expires e)); [|done]. clear x y Hx. intros name f w x y Hf Hx Hy.
  apply find_name_in in Hf as [n Hin]. repeat (apply elem_of_cons in Hin as [Hin|Hin]); [..|by apply elem_of_nil in Hin];
    injection Hin as _ ->; apply bind_Some in Hy as (z & Hz & Hy); injection Hy as <-; cbn; [done|done|]. by eapply decode_uint_nonneg.
Qed.

Lemma decode_element_expires v x y : decode_element v x = Some y → 0 <= ev_Expires x → 0 <= ev_Expires y.
Proof.
  unfold decode_element, decode_object. intros H Hx. destruct v; try done; [by injection H as <-|].
  revert H. apply (decode_fields_inv (λ e, 0 <= ev_Expires e)); [|done]. clear x y Hx. intros name f w x y Hf Hx Hy.
  apply find_name_in in Hf as [n Hin]. apply elem_of_cons in Hin as [Hin|Hin]; [|by apply elem_of_nil in Hin].
  injection Hin as _ ->. by eapply decode_element_value_expires.
Qed.

Lemma decoded_elements_expires raw s : decode_slice zero_element decode_element raw nil_slice = Some s →
  Forall (λ e, 0 <= ev_Expires e) (elements s).
Proof.
  unfold decode_slice. destruct raw as [| | | |[|e es]|]; intros H; try done; [by injection H as <-; constructor..|].
  apply bind_Some in H as (b & Hb & H). injection H as <-. unfold nil_slice in Hb. cbn [sl_backing] in Hb.
  rewrite decode_elements_fresh in Hb. unfold elements. apply Forall_take. cbn [sl_backing].
  apply mapM_Some in Hb. clear -Hb. induction Hb as [|v x l k Hx _ IH]; constructor; [|done].
  by eapply decode_element_expires; [exact Hx|].
Qed.

(** ** The set *)

Definition owned_set (set : setWire) : Prop :=
  st_Family set = Family ∧ st_Table set = Table ∧ st_Name set = BlacklistSet ∧ st_Type set = "ipv4_addr" ∧
  0 < st_Handle set <= maxSafeHandle ∧ elements (st_Flags set) = ["timeout"].

(** The elements a set lists: none without the member, and never an empty or null one. *)
Definition set_lists (set : setWire) (es : list elementValueWire) : Prop :=
  match st_Elements set with
  | None => es = []
  | Some raw => raw ≠ JNull ∧ ∃ s, decode_slice zero_element decode_element raw nil_slice = Some s ∧ sl_len s ≠ 0%nat ∧ elements s = es
  end.

(** What is to be reported of the target. *)
Definition report (target digest : string) (es : list elementValueWire) : Observation :=
  let r := remaining_for target es in
  MkObservation (if r =? 0 then ReadbackAbsent else ReadbackActive) target digest r.

Lemma scan_all target es : Forall (λ e, 0 <= ev_Expires e) es → ∀ r,
  scan_elements target es [] 0 = Some r ↔ Forall element_ok es ∧ NoDup (ev_Value <$> es) ∧ r = remaining_for target es.
Proof.
  intros He r. rewrite (scan_elements_iff target es He). unfold scan_result.
  assert ((if bool_decide (target ∈ ev_Value <$> es) then remaining_for target es else 0) = remaining_for target es) as ->.
  { case_bool_decide as Hin; [done|]. unfold remaining_for. destruct (List.find _ es) as [e|] eqn:E; [|done].
    apply List.find_some in E as [Hin' <-%String.eqb_eq]. destruct Hin. apply list_elem_of_fmap. exists e. by split; [|apply list_elem_of_In]. }
  split; [intros (? & ? & _ & ?); done|]. intros (? & ? & ?). split_and!; try done. intros v Hv. by apply elem_of_nil in Hv.
Qed.

Lemma owned_check set : 0 <= st_Handle set →
  negb (String.eqb (st_Family set) Family) || negb (String.eqb (st_Table set) Table)
     || negb (String.eqb (st_Name set) BlacklistSet) || negb (String.eqb (st_Type set) "ipv4_addr")
     || (st_Handle set =? 0) || (maxSafeHandle <? st_Handle set) || negb (bool_decide (elements (st_Flags set) = ["timeout"])) = false
  ↔ owned_set set.
Proof.
  intros H0. unfold owned_set. rewrite !orb_false_iff, !negb_false_iff, !String.eqb_eq, bool_decide_eq_true, Z.eqb_neq, Z.ltb_ge.
  intuition lia.
Qed.

(** The observation of a set: a mismatch when it is not the owned set, else what its valid elements say. *)
Lemma observe_set_iff set target digest obs : 0 <= st_Handle set →
  observe_set set target digest = Ok obs ↔
  (¬ owned_set set ∧ obs = MkObservation ReadbackMismatch target digest 0) ∨
  (owned_set set ∧ ∃ es, set_lists set es ∧ Forall element_ok es ∧ NoDup (ev_Value <$> es) ∧ obs = report target digest es).
Proof.
  intros H0. pose proof (owned_check set H0) as Hc. unfold observe_set.
  destruct (negb (String.eqb (st_Family set) Family) || _ || _ || _ || _ || _ || _).
  { assert (¬ owned_set set) as Hn by (intros Ho; by apply Hc in Ho). split.
    - intros [= <-]. by left.
    - by intros [[_ ->]|[Ho _]]. }
  pose proof (proj1 Hc eq_refl) as Ho. clear Hc.
  assert (Hno : ¬ owned_set set → False) by done. unfold set_lists.
  destruct (st_Elements set) as [raw|].
  2: { split; [intros [= <-]; right; split; [done|]; exists []; split_and!; [done|constructor|constructor|done]|].
       intros [[? _]|[_ (es & -> & _ & _ & ->)]]; done. }
  assert (Hbody : match decode_slice zero_element decode_element raw nil_slice with
        | Some es => if (sl_len es =? 0)%nat then Err NftErrorReadbackInvalid
            else match scan_elements target (elements es) [] 0 with
                 | Some remaining => if remaining =? 0 then Ok (MkObservation ReadbackAbsent target digest 0)
                                     else Ok (MkObservation ReadbackActive target digest remaining)
                 | None => Err NftErrorReadbackInvalid end
        | None => Err NftErrorReadbackInvalid end = Ok obs ↔
     ∃ es, (∃ s, decode_slice zero_element decode_element raw nil_slice = Some s ∧ sl_len s ≠ 0%nat ∧ elements s = es) ∧
       Forall element_ok es ∧ NoDup (ev_Value <$> es) ∧ obs = report target digest es).
  { destruct (decode_slice zero_element decode_element raw nil_slice) as [s|] eqn:Hs; [|split; [done|by intros (es & (s & ? & _) & _)]].
    pose proof (scan_all target (elements s) (decoded_elements_expires _ _ Hs)) as Hscan.
    destruct (Nat.eqb_spec (sl_len s) 0) as [Hz|Hz]; [split; [done|]; intros (es & (s' & [= <-] & ? & _) & _); done|].
    destruct (scan_elements target (elements s) [] 0) as [r|] eqn:Hr.
    - destruct (proj1 (Hscan r) eq_refl) as (H1 & H2 & H3). split.
      + intros H. exists (elements s). split_and!; [by exists s|done|done|]. unfold report. rewrite <-H3.
        destruct (Z.eqb_spec r 0) as [->|]; by injection H as <-.
      + intros (es & (s' & [= <-] & _ & <-) & _ & _ & ->). unfold report. rewrite <-H3. by destruct (Z.eqb_spec r 0) as [->|].
    - split; [done|]. intros (es & (s' & [= <-] & _ & <-) & H1 & H2 & _).
      pose proof (proj2 (Hscan (remaining_for target (elements s))) (conj H1 (conj H2 eq_refl))). done. }
  destruct raw; [split; [done|intros [[? _]|[_ (es & [? _] & _)]]; done]|..];
    rewrite Hbody; (split; [intros (es & H1 & H2); right; split; [done|]; exists es; split; [by split|done]|
      intros [[Hx _]|[_ (es & [_ H1] & H2)]]; [destruct (Hno Hx)|exists es; split; [exact H1|exact H2]]]).
Qed.

(** ** The document *)

Definition entry_handles (e : readbackEntry) : Prop := ∀ set, en_Set e = Some set → 0 <= st_Handle set.

Lemma decode_elements_inv {A} (P : A → Prop) (zero : A) (dec : decoder A) es : P zero → (∀ v x y, P x → dec v x = Some y → P y) →
  ∀ b b', Forall P b → decode_elements zero dec es b = Some b' → Forall P b'.
Proof.
  intros Hz Hd. induction es as [|e es IH]; intros b b' Hb H; [destruct b; by injection H as <-|].
  destruct b as [|x b]; cbn [decode_elements] in H; apply bind_Some in H as (y & Hy & H); apply bind_Some in H as (ys & Hys & H); injection H as <-.
  - constructor; [by eapply Hd|by eapply IH].
  - apply Forall_cons in Hb as [Hx Hb]. constructor; [by eapply Hd|by eapply IH].
Qed.

Lemma decode_set_handle v x y : 0 <= st_Handle x → decode_set v x = Some y → 0 <= st_Handle y.
Proof.
  unfold decode_set, decode_object. intros Hx H. destruct v; try done; [by injection H as <-|].
  revert H. apply (decode_fields_inv (λ s, 0 <= st_Handle s)); [|done]. clear x y Hx. intros name f w x y Hf Hx Hy.
  apply find_name_in in Hf as [n Hin]. repeat (apply elem_of_cons in Hin as [Hin|Hin]); [..|by apply elem_of_nil in Hin];
    injection Hin as _ ->; try (apply bind_Some in Hy as (z & Hz & Hy)); injection Hy as <-; cbn; try done. by eapply decode_uint_nonneg.
Qed.

Lemma decode_entry_handles v x y : entry_handles x → decode_entry v x = Some y → entry_handles y.
Proof.
  unfold decode_entry, decode_object. intros Hx H. destruct v; try done; [by injection H as <-|].
  revert H. apply (decode_fields_inv entry_handles); [|done]. clear x y Hx. intros name f w x y Hf Hx Hy.
  apply find_name_in in Hf as [n Hin]. repeat (apply elem_of_cons in Hin as [Hin|Hin]); [..|by apply elem_of_nil in Hin];
    injection Hin as _ ->; apply bind_Some in Hy as (z & Hz & Hy); injection Hy as <-; intros set Hset; cbn [en_Set] in Hset; [by apply Hx|].
  subst z. unfold decode_pointer in Hz.
  assert (Hd : (x0 ← decode_set w (default zero_set (en_Set x)); Some (Some x0)) = Some (Some set)) by (by destruct w).
  apply bind_Some in Hd as (s & Hs & [= ->]). eapply decode_set_handle; [|exact Hs]. destruct (en_Set x) eqn:E; [by apply Hx|done].
Qed.

Lemma decode_root_handles v doc : decode_root v nil_slice = Some doc → Forall entry_handles (elements doc).
Proof.
  intros H. assert (Forall entry_handles (sl_backing doc)); [|by apply Forall_take].
  unfold decode_root, decode_object in H. destruct v; try done; [by injection H as <-; constructor|].
  revert H. apply (decode_fields_inv (λ s, Forall entry_handles (sl_backing s))); [|constructor].
  intros name f w x y Hf Hx Hy. apply find_name_in in Hf as [n Hin]. apply elem_of_cons in Hin as [Hin|Hin]; [|by apply elem_of_nil in Hin].
  injection Hin as _ ->. unfold decode_slice in Hy. destruct w as [| | | |[|e es]|]; try done; [by injection Hy as <-; constructor..|].
  apply bind_Some in Hy as (b & Hb & Hy). injection Hy as <-. cbn [sl_backing].
  revert Hb. apply (decode_elements_inv entry_handles); [by intros ?|apply decode_entry_handles|done].
Qed.

(** The listing a document holds: its metadata and its one set. *)
Definition listing (doc : slice readbackEntry) (set : setWire) : Prop :=
  ∃ meta, elements doc = [MkEntry (Some meta) None; MkEntry None (Some set)] ∧ mi_JSONSchemaVersion meta = 1 ∧
    nftVersionPattern (mi_Version meta) = true ∧ releasePattern (mi_ReleaseName meta) = true.

(** What is to be reported of a set. *)
Definition set_report (set : setWire) (target digest : string) (obs : Observation) : Prop :=
  (¬ owned_set set ∧ obs = MkObservation ReadbackMismatch target digest 0) ∨
  (owned_set set ∧ ∃ es, set_lists set es ∧ Forall element_ok es ∧ NoDup (ev_Value <$> es) ∧ obs = report target digest es).

Lemma observe_document_iff doc target digest obs : Forall entry_handles (elements doc) →
  observe_document doc target digest = Ok obs ↔ ∃ set, listing doc set ∧ set_report set target digest obs.
Proof.
  intros Hh. unfold observe_document, listing. split.
  - intros H. destruct (elements doc) as [|e1 [|e2 [|]]]; try discriminate H. destruct e1 as [[meta|] [|]], e2 as [[|] [set|]]; try discriminate H.
    cbn [en_Metainfo en_Set] in H. destruct (negb _ || _ || _) eqn:Hm in H; [discriminate H|].
    apply orb_false_elim in Hm as [[Hm1%negb_false_iff%Z.eqb_eq Hm2%negb_false_iff]%orb_false_elim Hm3%negb_false_iff].
    exists set. split; [exists meta; by split_and!|]. apply observe_set_iff; [|done].
    apply Forall_cons in Hh as [_ Hh]. apply Forall_cons in Hh as [Hh _]. by apply Hh.
  - intros (set & (meta & Hd & Hm1 & Hm2 & Hm3) & Hr). rewrite Hd in *. cbn [en_Metainfo en_Set]. rewrite Hm1, Hm2, Hm3. cbn [Z.eqb negb orb].
    change (1 =? 1) with true. cbn [negb orb]. apply observe_set_iff; [|done]. apply Forall_cons in Hh as [_ Hh]. apply Forall_cons in Hh as [Hh _]. by apply Hh.
Qed.

Lemma parseReadback_iff data target digest obs :
  parseReadback data target digest = Ok obs ↔
  0 < len data <= MaxProcessOutput ∧ utf8_valid data = true ∧ canonicalIPv4 target = true ∧ digest = PinnedLiveSchemaDigest ∧
  ∃ v doc set, validateUniqueJSONKeys data = Some v ∧ decode_root v nil_slice = Some doc ∧ listing doc set ∧ set_report set target digest obs.
Proof.
  assert (0 <= len data) by (unfold len; lia). unfold parseReadback. split.
  - intros H1. destruct (_ || _) eqn:Hg in H1; [discriminate H1|]. repeat (apply orb_false_elim in Hg as [Hg ?]). breflect.
    destruct (validateUniqueJSONKeys data) as [v|]; [|discriminate H1]. destruct (decode_root v nil_slice) as [doc|] eqn:Hd; [|discriminate H1].
    apply observe_document_iff in H1 as (set & Hl & Hr); [|by eapply decode_root_handles]. split_and!; [lia|lia|done|done|done|].
    exists v, doc, set. by split_and!.
  - intros (Hlen & Hu & Hc & -> & v & doc & set & Hv & Hd & Hl & Hr). rewrite (proj2 (Z.eqb_neq _ _)), (proj2 (Z.ltb_ge _ _)) by lia.
    rewrite Hu, Hc, String.eqb_refl, Hv, Hd. cbn [negb orb]. apply observe_document_iff; [by eapply decode_root_handles|]. by exists set.
Qed.

(** ** What nft prints

    The document of [nft --json list set inet sentinelflow blacklist_ipv4] for a
    set with given elements; nft leaves the member out when there are none. *)

Definition element_json (e : elementValueWire) : json :=
  JObject [("elem", JObject [("val", JString (ev_Value e)); ("timeout", JNumber (chars (format_uint (ev_Timeout e))));
                             ("expires", JNumber (chars (format_uint (ev_Expires e))))])].

Definition set_members (handle : Z) (es : list elementValueWire) : list (string * json) :=
  [("family", JString Family); ("name", JString BlacklistSet); ("table", JString Table); ("type", JString "ipv4_addr");
   ("handle", JNumber (chars (format_uint handle))); ("flags", JArray [JString "timeout"])]
  ++ match es with [] => [] | _ => [("elem", JArray (element_json <$> es))] end.

Definition nft_document (version release : string) (handle : Z) (es : list elementValueWire) : json :=
  JObject [("nftables", JArray
    [JObject [("metainfo", JObject [("version", JString version); ("release_name", JString release);
                                    ("json_schema_version", JNumber (chars (format_uint 1)))])];
     JObject [("set", JObject (set_members handle es))]])].

Definition nft_output version release handle es : string := implode (write_json (nft_document version release handle es)).

Lemma element_ok_plain e : element_ok e → plain (ev_Value e).
Proof.
  intros ([a Ha] & _). apply canonical_ipv4_spec in Ha as [Hs Ha]. apply (ipv4_bounded (ev_Value e)). exists a. done.
Qed.

Lemma element_json_simple es : Forall element_ok es → foldr (λ e P, simple e ∧ P) True (element_json <$> es).
Proof.
  induction 1 as [|e es He _ IH]; [done|]. cbn [fmap list_fmap foldr]. split; [|exact IH].
  pose proof (element_ok_plain e He) as Hp. destruct He as (_ & Ht & Hx). unfold MinTTLSeconds in Ht.
  cbn [element_json simple foldr fst snd]. split_and!; try done; eexists; (split; [|reflexivity]); lia.
Qed.

Lemma nft_document_simple version release handle es : plain version → plain release → 0 <= handle → Forall element_ok es →
  simple (nft_document version release handle es).
Proof.
  intros Hv Hr Hh He. unfold nft_document, set_members. cbn [simple foldr fst snd]. split_and!; try done; [by exists 1|].
  destruct es as [|e es]; cbn [app simple foldr fst snd]; split_and!; try done; try (by exists handle). by apply element_json_simple.
Qed.

Lemma nft_document_scan version release handle es :
  unique_names (nft_document version release handle es) = true ∧ height (nft_document version release handle es) <= maxJSONDepth.
Proof.
  assert (Hel : ∀ l : list elementValueWire, forallb unique_names (element_json <$> l) = true ∧
    foldr (λ e n, Z.max (1 + height e) n) 0 (element_json <$> l) <= 3).
  { induction l as [|e l [IH1 IH2]]; [split; [done|cbn; lia]|]. cbn [fmap list_fmap forallb foldr]. split.
    - rewrite IH1, andb_true_r. reflexivity.
    - change (height (element_json e)) with 2. lia. }
  destruct (Hel es) as [H1 H2]. unfold nft_document, set_members, maxJSONDepth. destruct es as [|e es].
  - split; [reflexivity|cbn; lia].
  - set (l := element_json <$> e :: es) in *. clearbody l. split.
    + cbn [unique_names forallb app fst snd fmap list_fmap]. rewrite H1. vm_compute. reflexivity.
    + cbn [height foldr app fst snd]. lia.
Qed.

Lemma decode_element_json e : element_ok e → decode_element (element_json e) zero_element = Some e.
Proof.
  intros (_ & Ht & Hx). unfold MinTTLSeconds, MaxTTLSeconds in Ht. destruct e as [v t x]. cbn [ev_Timeout ev_Expires] in *.
  unfold element_json. cbn [ev_Value ev_Timeout ev_Expires].
  pose proof (decode_uint_print 64 t) as H1. pose proof (decode_uint_print 64 x) as H2.
  generalize dependent (JNumber (chars (format_uint t))). generalize dependent (JNumber (chars (format_uint x))). intros n2 H2 n1 H1.
  lazy -[decode_uint Z.lt Z.le Z.pow]. by rewrite H1, H2 by lia.
Qed.

Lemma decode_set_members handle es : 0 < handle <= maxSafeHandle → Forall element_ok es →
  ∃ set, decode_set (JObject (set_members handle es)) zero_set = Some set ∧ owned_set set ∧ set_lists set es.
Proof.
  intros Hh He. unfold set_members.
  pose proof (decode_uint_print 64 handle) as H1. generalize dependent (JNumber (chars (format_uint handle))). intros n1 H1.
  set (raw := match es with [] => None | _ => Some (JArray (element_json <$> es)) end).
  exists (MkSet Family BlacklistSet Table "ipv4_addr" handle (MkSlice ["timeout"] 1) raw). split_and!.
  - unfold raw. destruct es as [|e es]; [|generalize (JArray (element_json <$> e :: es)); intros raw'];
      lazy -[decode_uint Z.lt Z.le Z.pow]; rewrite H1 by (unfold maxSafeHandle in Hh; lia); reflexivity.
  - done.
  - unfold set_lists. cbn [st_Elements]. unfold raw. destruct es as [|e es]; [done|]. split; [done|].
    assert (Hm : mapM (λ v, decode_element v zero_element) (element_json <$> e :: es) = Some (e :: es)).
    { apply mapM_Some, Forall2_fmap_l. apply Forall_Forall2_diag. eapply Forall_impl; [exact He|]. apply decode_element_json. }
    destruct (decode_slice_fresh zero_element decode_element _ _ Hm) as (s & Hs & Hel). exists s. split_and!; [done| |done].
    intros Hz. unfold elements in Hel. rewrite Hz in Hel. done.
Qed.

Lemma decode_root_two a b x y : decode_entry a zero_entry = Some x → decode_entry b zero_entry = Some y →
  decode_root (JObject [("nftables", JArray [a; b])]) nil_slice = Some (MkSlice [x; y] 2).
Proof.
  intros Ha Hb. assert (Hes : decode_elements zero_entry decode_entry [a; b] [] = Some [x; y]).
  { cbn [decode_elements]. by rewrite Ha, Hb. }
  unfold decode_root, decode_object. rewrite decode_fields_cons. cbn [fst snd].
  change (find_name _ "nftables") with (Some (λ v (es : slice readbackEntry), decode_slice zero_entry decode_entry v es)).
  cbn [mbind option_bind]. unfold decode_slice, nil_slice. cbn [sl_backing]. by rewrite Hes.
Qed.

Lemma decode_entry_meta v x : decode_metainfo (JObject v) zero_metainfo = Some x →
  decode_entry (JObject [("metainfo", JObject v)]) zero_entry = Some (MkEntry (Some x) None).
Proof.
  intros H. unfold decode_entry, decode_object. rewrite decode_fields_cons. cbn [fst snd].
  change (find_name _ "metainfo") with (Some (λ v e, x ← decode_pointer zero_metainfo decode_metainfo v (en_Metainfo e); Some (MkEntry x (en_Set e)))).
  cbn [mbind option_bind decode_pointer en_Metainfo zero_entry default from_option id]. by rewrite H.
Qed.

Lemma decode_entry_set v x : decode_set (JObject v) zero_set = Some x →
  decode_entry (JObject [("set", JObject v)]) zero_entry = Some (MkEntry None (Some x)).
Proof.
  intros H. unfold decode_entry, decode_object. rewrite decode_fields_cons. cbn [fst snd].
  change (find_name _ "set") with (Some (λ v e, x ← decode_pointer zero_set decode_set v (en_Set e); Some (MkEntry (en_Metainfo e) x))).
  cbn [mbind option_bind decode_pointer en_Set zero_entry default from_option id]. by rewrite H.
Qed.

(** What nft prints is read back as what the set holds. *)
Lemma readback_listing version release handle es target :
  nftVersionPattern version = true → plain version → releasePattern release = true → plain release → 0 < handle <= maxSafeHandle →
  Forall element_ok es → NoDup (ev_Value <$> es) → canonicalIPv4 target = true →
  len (nft_output version release handle es) <= MaxProcessOutput →
  parseReadback (nft_output version release handle es) target PinnedLiveSchemaDigest = Ok (report target PinnedLiveSchemaDigest es).
Proof.
  intros Hv Hvp Hr Hrp Hh He Hn Ht Hlen. apply parseReadback_iff.
  pose proof (nft_document_simple version release handle es Hvp Hrp ltac:(lia) He) as Hs.
  destruct (nft_document_scan version release handle es) as [Hu Hd].
  assert (Hchars : chars (nft_output version release handle es) = write_json (nft_document version release handle es)) by apply chars_implode.
  pose proof (token_count_length _ Hs) as Htok. rewrite len_chars, Hchars in Hlen |- *. split_and!.
  - destruct (write_json_head _ Hs) as (c & l & -> & _). cbn [length]. lia.
  - done.
  - apply utf8_valid_bytes. rewrite Hchars. by apply write_json_ascii.
  - done.
  - done.
  - destruct (decode_set_members handle es Hh He) as (set & Hset & Hown & Hl).
    set (meta := MkMetainfo version release 1).
    exists (nft_document version release handle es), (MkSlice [MkEntry (Some meta) None; MkEntry None (Some set)] 2), set. split_and!.
    + unfold validateUniqueJSONKeys. rewrite Hchars, parse_document_write by done. cbn [mbind option_bind].
      rewrite consume_value_ok; [done|done|lia|unfold maxJSONTokens; lia].
    + apply decode_root_two; [|by apply decode_entry_set].
      apply decode_entry_meta. pose proof (decode_uint_print 64 1) as H1. generalize dependent (JNumber (chars (format_uint 1))). intros n1 H1.
      lazy -[decode_uint]. by rewrite H1.
    + exists meta. by split_and!.
    + right. split; [done|]. exists es. by split_and!.
Qed.

(** ** Captured output *)

Definition chunks (stderr : bool) (ws : list (string * bool)) : string :=
  implode (concat ((λ w, chars w.1) <$> List.filter (λ w, Bool.eqb w.2 stderr) ws)).

Definition written (ws : list (string * bool)) : Z := foldr (λ w n, len w.1 + n) 0 ws.

Lemma written_app a b : written (a ++ b) = written a + written b.
Proof. unfold written. induction a as [|w a IH]; cbn [app foldr]; lia. Qed.

Lemma written_nonneg ws : 0 <= written ws.
Proof. unfold written. induction ws as [|w ws IH]; cbn [foldr]; [lia|]. assert (0 <= len w.1) by (unfold len; lia). lia. Qed.

Lemma chunks_snoc stderr ws w : chunks stderr (ws ++ [w]) = chunks stderr ws +:+ (if Bool.eqb w.2 stderr then w.1 else "").
Proof.
  unfold chunks. rewrite List.filter_app, fmap_app, concat_app, implode_app. f_equal. cbn [List.filter].
  destruct (Bool.eqb w.2 stderr); cbn; [by rewrite app_nil_r, implode_chars|done].
Qed.

(** The capture is exact up to its limit and says when it is not. *)
Lemma capture_all_spec limit ws : 0 <= limit →
  let c := capture_all (newBoundedCapture limit) ws in
  cap_limit c = limit ∧ cap_overflow c = (limit <? written ws) ∧ cap_cancelled c = cap_overflow c ∧
  cap_total c = Z.min limit (written ws) ∧ len (cap_stdout c) + len (cap_stderr c) = cap_total c ∧
  (cap_overflow c = false → cap_stdout c = chunks false ws ∧ cap_stderr c = chunks true ws).
Proof.
  intros Hl. induction ws as [|w ws IH] using rev_ind.
  { cbv zeta. unfold capture_all, newBoundedCapture. cbn [foldl cap_limit cap_total cap_overflow cap_stdout cap_stderr cap_cancelled].
    change (written []) with 0. split_and!; [done|symmetry; apply Z.ltb_ge; lia|done|lia|done|done]. }
  unfold capture_all in *. rewrite foldl_app. cbn [foldl]. set (c := foldl _ _ ws) in *. clearbody c.
  destruct IH as (I1 & I2 & I3 & I4 & I5 & I6). pose proof (written_nonneg ws). rewrite written_app, !chunks_snoc.
  change (written [w]) with (len w.1 + 0). rewrite Z.add_0_r. assert (Hw : 0 <= len w.1) by (unfold len; lia).
  unfold capture_write. rewrite I1, I4. cbv zeta. cbn [cap_limit cap_total cap_overflow cap_stdout cap_stderr cap_cancelled].
  set (remaining := Z.max 0 (limit - Z.min limit (written ws))).
  assert (Hp : ∀ n, 0 <= n <= len w.1 → len (implode (take (Z.to_nat n) (chars w.1))) = n).
  { intros n Hn. rewrite len_implode, length_take. rewrite len_chars in Hn. lia. }
  assert (Hov : cap_overflow c || (remaining <? len w.1) = (limit <? written ws + len w.1)).
  { rewrite I2. unfold remaining. destruct (Z.ltb_spec limit (written ws)), (Z.ltb_spec (Z.max 0 (limit - Z.min limit (written ws))) (len w.1)),
      (Z.ltb_spec limit (written ws + len w.1)); cbn; lia || done. }
  assert (Hacc : 0 <= (if remaining <? len w.1 then remaining else len w.1) <= len w.1) by (assert (0 <= remaining) by (unfold remaining; lia); destruct (Z.ltb_spec remaining (len w.1)); lia).
  split_and!; [done|exact Hov|..].
  - rewrite I3. destruct (cap_overflow c), (remaining <? len w.1); done.
  - unfold remaining. destruct (Z.ltb_spec (Z.max 0 (limit - Z.min limit (written ws))) (len w.1)); lia.
  - destruct w.2; rewrite len_app, (Hp _ Hacc); lia.
  - intros Hn. rewrite Hn in Hov. apply orb_false_elim in Hn as [Hn1 Hn2]. destruct (I6 Hn1) as [-> ->]. rewrite Hn2.
    assert (implode (take (Z.to_nat (len w.1)) (chars w.1)) = w.1) as ->.
    { rewrite len_chars, Nat2Z.id, take_ge, implode_chars by done. done. }
    destruct w.2; cbn [Bool.eqb]; split; try done; apply chars_inj; by rewrite chars_app, app_nil_r.
Qed.

(** ** Commands *)

Definition printable (c : ascii) : bool := (32 <=? code c) && (code c <=? 126).

Lemma printable_mutation_byte last c : printable c = true → mutation_byte last c = true.
Proof.
  unfold printable, mutation_byte. intros [H1%Z.leb_le H2%Z.leb_le]%andb_prop.
  rewrite (proj2 (Z.ltb_ge _ _)), !(proj2 (Z.eqb_neq _ _)), (proj2 (Z.ltb_ge (code c) 32)) by lia. done.
Qed.

Lemma filter_lf_printable l : forallb printable l = true → List.filter (λ c, bool_decide (c = "010"%char)) l = [].
Proof.
  induction l as [|c l IH]; [done|]. cbn [forallb List.filter]. intros [Hc Hl]%andb_prop. rewrite bool_decide_eq_false_2; [by apply IH|].
  intros ->. by vm_compute in Hc.
Qed.

(** One line of printable text is a valid mutation. *)
Lemma line_is_valid text : forallb printable (chars text) = true → 0 <= len text <= 255 → validMutationEnvelope (text +:+ lf) = true.
Proof.
  intros Hp Hlen. unfold validMutationEnvelope. rewrite len_app. change (len lf) with 1.
  rewrite (proj2 (Z.eqb_neq _ _)), (proj2 (Z.ltb_ge _ _)) by (unfold maxMutationBytes; lia). rewrite chars_app. change (chars lf) with ["010"%char].
  rewrite utf8_valid_bytes.
  2: { rewrite chars_app. apply Forall_app. split; [|by repeat constructor].
       rewrite forallb_Forall in Hp. eapply Forall_impl; [exact Hp|]. unfold printable, is_ascii. intros c [_ H%Z.leb_le]%andb_prop. lia. }
  rewrite last_snoc, List.filter_app, (filter_lf_printable _ Hp). rewrite bool_decide_eq_true_2 by done. cbn [negb orb app].
  rewrite length_app. cbn [length]. replace (length (chars text) + 1 - 1)%nat with (length (chars text)) by lia.
  rewrite take_app_length, drop_app_length. change (forallb (mutation_byte true) ["010"%char]) with true. rewrite andb_true_r.
  change (length (List.filter _ ["010"%char]) =? 1)%nat with true. cbn [negb].
  apply forallb_forall. intros c Hc. apply printable_mutation_byte. rewrite forallb_forall in Hp. by apply Hp.
Qed.

Lemma quad_printable c : is_quad c = true → printable c = true.
Proof. apply (class_incl is_quad printable). vm_compute. reflexivity. Qed.

Lemma addr_printable a : addr4_ok a = true → forallb printable (chars (addr4_string a)) = true.
Proof.
  intros Ha. destruct (addr_quad a Ha) as [_ Hq]. apply forallb_forall. intros c Hc. apply quad_printable. rewrite forallb_forall in Hq. by apply Hq.
Qed.

Lemma digits_printable n : forallb printable (chars (format_uint n)) = true.
Proof.
  pose proof (format_uint_digits n) as Hd. rewrite forallb_forall in *. intros c Hc. specialize (Hd c Hc).
  apply is_digit_code in Hd. unfold printable. apply andb_true_intro. split; apply Z.leb_le; lia.
Qed.

Lemma command_is_valid_mutation a token seconds : addr4_ok a = true → ttl_token token seconds → validMutationEnvelope (command_text a token true) = true.
Proof.
  intros Ha Ht. pose proof (addr4_string_len a Ha) as Hl. pose proof (ttl_token_len _ _ Ht) as Hl2.
  assert (0 <= len (addr4_string a)) by (unfold len; lia). assert (0 <= len token) by (unfold len; lia).
  assert (Hp : forallb printable (chars token) = true).
  { destruct Ht as [n Hn|n Hn|n Hn]; rewrite chars_app, forallb_app, digits_printable; done. }
  set (text := "add element inet sentinelflow blacklist_ipv4 { " +:+ addr4_string a +:+ " timeout " +:+ token +:+ " }").
  assert (command_text a token true = text +:+ lf) as ->.
  { apply chars_inj. unfold command_text, text. rewrite !chars_app, <-!app_assoc. done. }
  apply line_is_valid.
  - unfold text. rewrite !chars_app, !forallb_app, (addr_printable a Ha), Hp. done.
  - unfold text. rewrite !len_app. change (len "add element inet sentinelflow blacklist_ipv4 { ") with 47.
    change (len " timeout ") with 9. change (len " }") with 2. lia.
Qed.

Lemma artifact_is_valid_mutation v artifact ttl insp : artifact_for v artifact ttl insp →
  v_Operation v = OperationAdd ∨ v_Operation v = OperationRevoke → validMutationEnvelope artifact = true.
Proof.
  intros [(_ & _ & a & Ha & _ & Hr & ->)|[(_ & _ & _ & a & Ha & _ & ->)|(Hop & _)]] Ho.
  - by apply (command_is_valid_mutation _ _ ttl), (CanonicalTTL_token ttl _ (canonicalTTL_policy ttl Hr)).
  - pose proof (addr4_string_len a Ha) as Hl. assert (0 <= len (addr4_string a)) by (unfold len; lia).
    set (text := "delete element inet sentinelflow blacklist_ipv4 { " +:+ addr4_string a +:+ " }").
    assert (delete_text a = text +:+ lf) as ->.
    { apply chars_inj. unfold delete_text, text. rewrite !chars_app, <-!app_assoc. done. }
    apply line_is_valid.
    + unfold text. rewrite !chars_app, !forallb_app, (addr_printable a Ha). done.
    + unfold text. rewrite !len_app. change (len "delete element inet sentinelflow blacklist_ipv4 { ") with 50. change (len " }") with 2. lia.
  - rewrite Hop in Ho. by destruct Ho.
Qed.

(** ** Running nft *)

Lemma written_chunks ws : written ws = len (chunks false ws) + len (chunks true ws).
Proof.
  induction ws as [|w ws IH] using rev_ind; [done|]. rewrite written_app, !chunks_snoc, !len_app. change (written [w]) with (len w.1 + 0).
  destruct w.2; cbn [Bool.eqb]; change (len "") with 0; lia.
Qed.

Lemma runProductionProcess_output os request answer : os (process_path request) (process_arguments request) (pr_stdin request) = answer →
  (pr_kind request = processInspect → pr_stdin request = "") →
  let '(r, failed) := runProductionProcess os request in
  failed = os_failed answer ∧ rs_exitStatus r = default (-1) (os_exit answer) ∧
  rs_overflow r = (MaxProcessOutput <? written (os_writes answer)) ∧
  (rs_overflow r = false → outputTooLarge r = false ∧ rs_stdout r = chunks false (os_writes answer) ∧ rs_stderr r = chunks true (os_writes answer)) ∧
  rs_signaled r = match os_exit answer with Some code => code <? 0 | None => false end.
Proof.
  intros <- Hin. unfold runProductionProcess.
  assert (match pr_kind request with processInspect => negb (len (pr_stdin request) =? 0) | processMutation => false end = false) as ->.
  { destruct (pr_kind request); [done|]. by rewrite Hin. }
  destruct (capture_all_spec MaxProcessOutput (os_writes (os (process_path request) (process_arguments request) (pr_stdin request))) ltac:(done))
    as (_ & Ho & _ & Ht & Hl & Hc). cbn zeta in *.
  set (c := capture_all _ _) in *. clearbody c. cbn [rs_exitStatus rs_overflow rs_stdout rs_stderr rs_signaled].
  split_and!; [done|done|exact Ho| |done]. intros Hn. destruct (Hc Hn) as [H1 H2]. split_and!; [|done|done].
  unfold outputTooLarge. cbn [rs_stdout rs_stderr]. assert (0 <= len (cap_stderr c)) by (unfold len; lia).
  rewrite (proj2 (Z.ltb_ge _ _)), (proj2 (Z.ltb_ge _ _)) by lia. done.
Qed.

Lemma report_accepted i es : Forall element_ok es →
  validateObservation (report (is_targetIPv4 i) (is_ownedSchemaDigest i) es) i 0 = (report (is_targetIPv4 i) (is_ownedSchemaDigest i) es, true).
Proof.
  intros He. unfold validateObservation, report. cbn [ob_TargetIPv4 ob_OwnedSchemaDigest ob_State ob_RemainingTTLSeconds]. rewrite !String.eqb_refl. cbn [negb orb].
  destruct (Z.eqb_spec (remaining_for (is_targetIPv4 i) es) 0) as [Hz|Hz].
  - rewrite Hz. done.
  - change (String.eqb ReadbackActive ReadbackActive) with true. cbv iota. change (0 =? 0) with true. cbn [negb andb].
    unfold remaining_for in *. destruct (List.find _ es) as [e|] eqn:E; [|done]. apply List.find_some in E as [Hin _].
    rewrite Forall_forall in He. destruct (He e) as (_ & H1 & H2); [by apply list_elem_of_In|]. unfold MaxTTLSeconds in *.
    rewrite (proj2 (Z.ltb_ge _ _)) by lia. rewrite orb_false_r. by rewrite orb_false_r.
Qed.

(** ** Sample set *)

Definition sample_elements : list elementValueWire := [MkElementValue "203.0.113.20" 1800 1700; MkElementValue "198.51.100.7" 3600 12].
Definition sample_inspection : Inspection := MkInspection "" "198.51.100.7" "" PinnedLiveSchemaDigest.
Definition sample_output : string := Eval vm_compute in nft_output "1.0.9" "Old Doc Yak" 7 sample_elements.

Lemma sample_output_eq : nft_output "1.0.9" "Old Doc Yak" 7 sample_elements = sample_output.
Proof. vm_compute. reflexivity. Qed.

Lemma sample_elements_ok : Forall element_ok sample_elements ∧ NoDup (ev_Value <$> sample_elements).
Proof.
  split; [repeat (apply Forall_cons_2; [split_and!; [eexists; vm_compute; reflexivity|vm_compute; discriminate..]|]); constructor|].
  apply (bool_decide_eq_true_1 (NoDup ["203.0.113.20"; "198.51.100.7"])). vm_compute. reflexivity.
Qed.

Definition sample_os (path : string) (arguments : list string) (stdin : string) : os_answer := MkAnswer [(sample_output, false)] (Some 0) false.

(** ** Claims *)

(** A listing is accepted exactly when it is a bounded, valid UTF-8 JSON document
    without duplicate names holding the metadata and one set, and what is reported
    is what it says: a mismatch when the set is not the owned one, otherwise, if
    every element is a canonical address with a timeout in bounds and no address
    appears twice, active with the target's remaining time when the target is among
    them (in whatever position) and absent when it is not. *)
Theorem readback_exact data target digest obs :
  parseReadback data target digest = Ok obs ↔
  0 < len data <= MaxProcessOutput ∧ utf8_valid data = true ∧ canonicalIPv4 target = true ∧ digest = PinnedLiveSchemaDigest ∧
  ∃ v doc set, validateUniqueJSONKeys data = Some v ∧ decode_root v nil_slice = Some doc ∧ listing doc set ∧ set_report set target digest obs.
Proof. apply parseReadback_iff. Qed.

(** When nft exits normally after printing the listing of the owned set, in any
    chunks and with nothing on standard error, an inspection reports exactly what
    the set holds for the target, and the executor accepts the observation as it is. *)
Theorem inspection_sees_the_set os i version release handle es writes :
  canonicalIPv4 (is_targetIPv4 i) = true → is_ownedSchemaDigest i = PinnedLiveSchemaDigest →
  nftVersionPattern version = true → plain version → releasePattern release = true → plain release → 0 < handle <= maxSafeHandle →
  Forall element_ok es → NoDup (ev_Value <$> es) → len (nft_output version release handle es) <= MaxProcessOutput →
  os FixedNFTBinaryPath inspectArguments "" = MkAnswer writes (Some 0) false →
  chunks false writes = nft_output version release handle es → chunks true writes = "" →
  let obs := report (is_targetIPv4 i) (is_ownedSchemaDigest i) es in
  Inspect (runProductionProcess os) None None i = Ok obs ∧ validateObservation obs i 0 = (obs, true).
Proof.
  intros Ht Hd Hv Hvp Hr Hrp Hh He Hn Hlen Hos Hout Herr obs. split; [|by apply report_accepted].
  unfold Inspect, runner_inspect. rewrite String.eqb_refl, Hd, String.eqb_refl, Ht.
  change (bool_decide (fixedInspectArguments = inspectArguments)) with true. cbn [negb orb].
  pose proof (runProductionProcess_output os (MkProcessRequest processInspect "") _ Hos ltac:(done)) as Hp.
  destruct (runProductionProcess os (MkProcessRequest processInspect "")) as [r failed]. cbn [os_failed os_exit os_writes default from_option id] in Hp.
  destruct Hp as (-> & He0 & Ho & Hc & Hs). rewrite written_chunks, Hout, Herr in Ho. change (len "") with 0 in Ho.
  rewrite (proj2 (Z.ltb_ge MaxProcessOutput _)) in Ho by lia. destruct (Hc Ho) as (Hl & H1 & H2).
  cbn [contextFailure]. rewrite Ho, Hl, He0, Hs, H2, Herr. cbn [orb negb]. change (len "" =? 0) with true. change (0 <? 0) with false.
  change (0 =? 0) with true. cbn [orb negb]. rewrite H1, Hout. unfold obs. rewrite Hd. by apply readback_listing.
Qed.

Lemma inspection_sees_the_set_witness :
  Inspect (runProductionProcess sample_os) None None sample_inspection =
  Ok (MkObservation ReadbackActive "198.51.100.7" PinnedLiveSchemaDigest 12).
Proof.
  destruct sample_elements_ok as [Hok Hn].
  exact (proj1 (inspection_sees_the_set sample_os sample_inspection "1.0.9" "Old Doc Yak" 7 sample_elements [(sample_output, false)]
    eq_refl eq_refl eq_refl eq_refl eq_refl eq_refl ltac:(split; [reflexivity|vm_compute; discriminate]) Hok Hn
    ltac:(rewrite sample_output_eq; vm_compute; discriminate) eq_refl (eq_sym sample_output_eq) eq_refl)).
Defined.

(** C28. Every add or revoke artifact the executor can hold after verifying a capability
    passes the adapter's own checks, so nft is run with exactly that artifact on its
    standard input; the outcome is success exactly when nft exited with 0, wrote no
    more than the output bound and the context did not end first. *)
Theorem verified_artifact_reaches_nft `{Ed25519} ver signed v os after answer :
  Verify ver signed = Ok v → v_Operation (vc_value v) = OperationAdd ∨ v_Operation (vc_value v) = OperationRevoke →
  os "/usr/sbin/nft" ["-f"; "-"] (vc_artifact v) = answer →
  let outcome := Mutate (runProductionProcess os) None after (MkMutation (v_Operation (vc_value v)) (vc_artifact v)) in
  outcome.2 ≠ Some NftErrorInvalidInput ∧
  (outcome = (NFTExitSuccess, None) ↔
   after = None ∧ os_exit answer = Some 0 ∧ os_failed answer = false ∧ written (os_writes answer) <= MaxProcessOutput) ∧
  (outcome.1 = NFTExitSuccess ↔ outcome.2 = None).
Proof.
  intros Hv Hop Hos outcome. pose proof (ve_artifact _ _ _ (Verify_ok _ _ _ Hv)) as Hart.
  pose proof (artifact_is_valid_mutation _ _ _ _ Hart Hop) as Henv. unfold outcome, Mutate, runner_mutate. cbn [mu_operation mu_stdin].
  rewrite String.eqb_refl, Henv. change (bool_decide (fixedMutationArguments = mutationArguments)) with true. cbn [negb orb].
  assert (negb (String.eqb (v_Operation (vc_value v)) OperationAdd) && negb (String.eqb (v_Operation (vc_value v)) OperationRevoke) = false) as ->.
  { destruct Hop as [-> | ->]; reflexivity. }
  pose proof (runProductionProcess_output os (MkProcessRequest processMutation (vc_artifact v)) answer Hos ltac:(done)) as Hp.
  destruct (runProductionProcess os (MkProcessRequest processMutation (vc_artifact v))) as [r failed].
  destruct Hp as (-> & He0 & Ho & Hc & Hs). clear Hos Hv Hart Henv outcome. cbn [orb].
  destruct after as [[]|]; cbn [contextFailure]; [split_and!; [done|split; [done|by intros (? & _)]|done]..|].
  rewrite He0, Hs. destruct (rs_overflow r).
  { cbn [orb]. split_and!; [done| |done]. split; [done|]. intros (_ & _ & _ & Hw). symmetry in Ho. apply Z.ltb_lt in Ho. lia. }
  symmetry in Ho. apply Z.ltb_ge in Ho. destruct (Hc eq_refl) as (-> & _ & _). cbn [orb].
  destruct (os_exit answer) as [code|]; cbn [default from_option id].
  - destruct (Z.eqb_spec code 0) as [->|Hz].
    + change (0 <? 0) with false. destruct (os_failed answer); cbn [andb negb]; split_and!; try done; split; try done; naive_solver.
    + cbn [andb]. destruct (Z.ltb_spec code 0); [|destruct (Z.ltb_spec 0 code)]; split_and!; try done; split; try done; naive_solver.
  - change (-1 =? 0) with false. change (0 <? -1) with false. cbn [andb]. split_and!; try done. split; [done|]. by intros (_ & ? & _).
Qed.

Lemma verified_artifact_reaches_nft_witness :
  (Mutate (runProductionProcess (λ _ _ _, MkAnswer [] (Some 0) false)) None None
    (MkMutation (v_Operation (vc_value sample_verified)) (vc_artifact sample_verified))) = (NFTExitSuccess, None).
Proof.
  apply (proj1 (proj2 (@verified_artifact_reaches_nft toy_ed25519 sample_verifier sample_signed sample_verified
    (λ _ _ _, MkAnswer [] (Some 0) false) None (MkAnswer [] (Some 0) false) sample_verifies (or_introl eq_refl) eq_refl))).
  split_and!; [reflexivity|reflexivity|reflexivity|vm_compute; discriminate].
Defined.
