(* ===== verification/NetPrefix.v ===== *)
(** * IPv4 prefixes ([net/netip], continued)

    [netip.Prefix] on IPv4: parsing, printing, masking and membership.  As with
    addresses an IPv6 text never yields an [Is4] prefix, so [parse_prefix4]
    answers [None] for it.  Addresses are ordered by their 32-bit value; a masked
    prefix covers an interval of them. *)

From S2P Require Import Prelude GoSort GoStrings Netip.
Local Open Scope Z_scope.

(** [addr.lo] of an IPv4 address. *)
Definition addr_value (a : addr4) : Z := ((oct1 a * 256 + oct2 a) * 256 + oct3 a) * 256 + oct4 a.

(** [addr.Compare] on IPv4 addresses. *)
Definition addr_compare (a b : addr4) : comparison := Z.compare (addr_value a) (addr_value b).

Record prefix4 := Prefix4 { px_addr : addr4; px_bits : Z }.

Global Instance prefix4_eq_dec : EqDecision prefix4.
Proof. solve_decision. Defined.

Global Instance addr4_countable : Countable addr4.
Proof.
  refine (inj_countable' (λ a, (oct1 a, oct2 a, oct3 a, oct4 a)) (λ '(a, b, c, d), Addr4 a b c d) _). by intros [].
Defined.

(** Split at the last ['/']. *)
Fixpoint split_last_slash (l : list ascii) : option (list ascii * list ascii) :=
  match l with
  | [] => None
  | c :: l =>
      match split_last_slash l with
      | Some (before, after) => Some (c :: before, after)
      | None => if bool_decide (c = "/"%char) then Some ([], l) else None
      end
  end.

(** A length of more than one byte begins with [1] to [9]: [Atoi] would take a sign
    or zeros. *)
Definition bits_start (bitsStr : list ascii) : bool :=
  match bitsStr with c :: _ :: _ => between "1" "9" c | _ => true end.

(** [netip.ParsePrefix(s)] followed by [prefix.Addr().Is4()]. *)
Definition parse_prefix4 (s : string) : option prefix4 :=
  '(ip, bitsStr) ← split_last_slash (chars s);
  a ← parse_addr4 (implode ip);
  if negb (bits_start bitsStr) then None
  else
    bits ← atoi (implode bitsStr);
    if (bits <? 0) || (32 <? bits) then None else Some (Prefix4 a bits).

(** [prefix.String()] *)
Definition prefix4_string (p : prefix4) : string := addr4_string (px_addr p) +:+ "/" +:+ itoa (px_bits p).

(** The network mask of [bits] bits. *)
Definition mask4 (bits : Z) : Z := Z.shiftl (Z.ones bits) (32 - bits).

(** [prefix == prefix.Masked()] *)
Definition is_masked (p : prefix4) : bool := Z.land (addr_value (px_addr p)) (mask4 (px_bits p)) =? addr_value (px_addr p).

(** [prefix.Contains(addr)] for a valid IPv4 prefix. *)
Definition prefix_contains (p : prefix4) (a : addr4) : bool :=
  Z.shiftr (Z.lxor (addr_value a) (addr_value (px_addr p))) (32 - px_bits p) =? 0.

(** ** Addresses as numbers *)

Lemma addr_value_range a : addr4_ok a = true → 0 <= addr_value a < 2 ^ 32.
Proof. intros ?%addr4_ok_range. unfold addr_value. lia. Qed.

Lemma addr_value_inj a b : addr4_ok a = true → addr4_ok b = true → addr_value a = addr_value b → a = b.
Proof.
  intros Ha%addr4_ok_range Hb%addr4_ok_range H. unfold addr_value in H. destruct a, b; simpl in *. f_equal; lia.
Qed.

(** ** Membership is an interval *)

Definition covers (p : prefix4) (a : addr4) : Prop :=
  addr_value (px_addr p) <= addr_value a < addr_value (px_addr p) + 2 ^ (32 - px_bits p).

Global Instance covers_dec p a : Decision (covers p a) := _.

Definition prefix_ok (p : prefix4) : Prop := addr4_ok (px_addr p) = true ∧ 0 <= px_bits p <= 32 ∧ is_masked p = true.

Lemma land_mask v bits : 0 <= v < 2 ^ 32 → 0 <= bits <= 32 → Z.land v (mask4 bits) = Z.shiftl (Z.shiftr v (32 - bits)) (32 - bits).
Proof.
  intros Hv Hb. apply Z.bits_inj'. intros i Hi. unfold mask4. rewrite Z.land_spec, !Z.shiftl_spec by lia.
  destruct (Z.ltb_spec i (32 - bits)) as [Hlt|Hge].
  - rewrite !(Z.testbit_neg_r _ (i - (32 - bits))) by lia. apply andb_false_r.
  - rewrite Z.shiftr_spec by lia. replace (i - (32 - bits) + (32 - bits)) with i by lia.
    destruct (Z.ltb_spec i 32) as [H32|H32].
    + rewrite Z.ones_spec_low by lia. apply andb_true_r.
    + rewrite <-(Z.mod_small v (2 ^ 32)) by lia. rewrite Z.mod_pow2_bits_high by lia. done.
Qed.

Lemma is_masked_shift p : addr4_ok (px_addr p) = true → 0 <= px_bits p <= 32 →
  is_masked p = true ↔ Z.shiftl (Z.shiftr (addr_value (px_addr p)) (32 - px_bits p)) (32 - px_bits p) = addr_value (px_addr p).
Proof.
  intros Ha Hb. unfold is_masked. rewrite land_mask; [apply Z.eqb_eq|by apply addr_value_range|done].
Qed.

Lemma prefix_contains_covers p a : prefix_ok p → prefix_contains p a = true ↔ covers p a.
Proof.
  intros (Ha & Hb & Hm). apply is_masked_shift in Hm; [|done..]. unfold prefix_contains, covers. rewrite Z.eqb_eq.
  rewrite Z.shiftr_lxor, Z.lxor_eq_0_iff. revert Hm. set (k := 32 - px_bits p). assert (0 <= k) by lia.
  pose proof (Z.pow_pos_nonneg 2 k ltac:(lia) ltac:(lia)).
  rewrite Z.shiftl_mul_pow2, !Z.shiftr_div_pow2 by lia. intros Hm.
  pose proof (Z.div_mod (addr_value a) (2 ^ k) ltac:(lia)). pose proof (Z.mod_pos_bound (addr_value a) (2 ^ k) ltac:(lia)).
  split; [intros He; rewrite He in *; nia|intros Hc].
  symmetry. apply (Z.div_unique_pos _ _ (addr_value (px_addr p) / 2 ^ k) (addr_value a - addr_value (px_addr p))); nia.
Qed.

(** ** Parsing then printing *)

Lemma split_last_slash_sound l a b : split_last_slash l = Some (a, b) → l = a ++ "/"%char :: b ∧ "/"%char ∉ b.
Proof.
  revert a b. induction l as [|c l IH]; intros a b H; simpl in H; [done|].
  destruct (split_last_slash l) as [[a' b']|] eqn:E.
  - injection H as <- <-. destruct (IH _ _ eq_refl) as [-> ?]. done.
  - case_bool_decide; [|done]. injection H as <- <-. subst c. split; [done|]. clear IH.
    induction l as [|d l IH]; [by apply not_elem_of_nil|]. simpl in E. destruct (split_last_slash l) as [[]|]; [done|].
    case_bool_decide; [done|]. apply not_elem_of_cons. split; [congruence|]. by apply IH.
Qed.

Lemma split_last_slash_app a b : "/"%char ∉ b → split_last_slash (a ++ "/"%char :: b) = Some (a, b).
Proof.
  intros Hb. assert (Hn : split_last_slash b = None).
  { induction b as [|c b IH]; [done|]. apply not_elem_of_cons in Hb as [Hc Hb]. simpl. rewrite (IH Hb).
    by rewrite bool_decide_eq_false_2. }
  induction a as [|c a IH]; simpl; [by rewrite Hn|]. by rewrite IH.
Qed.

Lemma small_bits_text b : 0 <= b <= 32 → itoa b = format_uint b ∧ atoi (itoa b) = Some b ∧ "/"%char ∉ chars (itoa b)
  ∧ bits_start (chars (itoa b)) = true.
Proof.
  intros Hb. assert (Hall : forallb (λ b, String.eqb (itoa b) (format_uint b) && bool_decide (atoi (itoa b) = Some b)
    && bool_decide ("/"%char ∉ chars (itoa b)) && bits_start (chars (itoa b)))
    (Z.of_nat <$> seq 0 33) = true) by (by vm_compute).
  rewrite forallb_forall in Hall. specialize (Hall b). rewrite !andb_true_iff, !bool_decide_eq_true, String.eqb_eq in Hall.
  destruct Hall as [[[? ?] ?] Hm]; [|done].
  rewrite <-list_elem_of_In, list_elem_of_fmap. exists (Z.to_nat b). rewrite elem_of_seq. lia.
Qed.

Lemma parse_prefix4_ok s p : parse_prefix4 s = Some p → addr4_ok (px_addr p) = true ∧ 0 <= px_bits p <= 32.
Proof.
  unfold parse_prefix4. intros H. destruct (split_last_slash _) as [[ip bs]|]; [|done]. simpl in H.
  destruct (parse_addr4 _) as [a|] eqn:Ea; [|done]. simpl in H. destruct (negb _); [done|].
  destruct (atoi _) as [n|]; [|done]. simpl in H. destruct (_ || _) eqn:E; [done|]. injection H as <-. breflect. simpl.
  split; [by apply addr4_string_parse in Ea as [_ ?]|lia].
Qed.

Lemma parse_prefix4_string p : addr4_ok (px_addr p) = true → 0 <= px_bits p <= 32 → parse_prefix4 (prefix4_string p) = Some p.
Proof.
  intros Ha Hb. destruct (small_bits_text _ Hb) as (_ & Hat & Hs & Hd). unfold parse_prefix4, prefix4_string.
  rewrite !chars_app. change (chars "/" ++ ?l) with ("/"%char :: l). rewrite split_last_slash_app by done. cbn [mbind option_bind].
  rewrite !implode_chars, parse_addr4_string by done. cbn [mbind option_bind].
  rewrite Hd, Hat. cbn [negb mbind option_bind]. rewrite (proj2 (Z.ltb_ge _ _)), (proj2 (Z.ltb_ge _ _)) by lia. by destruct p.
Qed.

Lemma prefix4_string_inj p q : addr4_ok (px_addr p) = true → 0 <= px_bits p <= 32 → addr4_ok (px_addr q) = true → 0 <= px_bits q <= 32 →
  prefix4_string p = prefix4_string q → p = q.
Proof.
  intros Hp1 Hp2 Hq1 Hq2 H. pose proof (parse_prefix4_string p Hp1 Hp2) as H1. rewrite H, parse_prefix4_string in H1 by done. congruence.
Qed.

(** The bytes of a printed prefix. *)
Definition prefix_byte (c : ascii) : bool := is_digit c || bool_decide (c = "."%char) || bool_decide (c = "/"%char).

Lemma addr4_string_bytes a : forallb prefix_byte (chars (addr4_string a)) = true.
Proof.
  assert (Hd : ∀ n, forallb prefix_byte (octet_text n) = true).
  { intros n. rewrite forallb_Forall. eapply Forall_impl; [apply forallb_Forall, octet_text_digits|].
    intros c. unfold prefix_byte. by intros ->. }
  unfold addr4_string. rewrite chars_implode. rewrite !forallb_app. cbn [forallb]. rewrite !forallb_app. cbn [forallb]. rewrite !forallb_app.
  cbn [forallb]. by rewrite !Hd.
Qed.

Lemma prefix4_string_bytes p : 0 <= px_bits p <= 32 → forallb prefix_byte (chars (prefix4_string p)) = true.
Proof.
  intros Hb. unfold prefix4_string. rewrite !chars_app, !forallb_app, addr4_string_bytes. simpl.
  destruct (small_bits_text _ Hb) as (-> & _). rewrite forallb_Forall. eapply Forall_impl; [apply forallb_Forall, format_uint_digits|].
  intros c. unfold prefix_byte. by intros ->.
Qed.
