(* ===== verification/CanonicalJson.v ===== *)
(** * Canonical JSON ([internal/validation/protected_contract.go])

    The strict scan ([strictJSON], [consumeJSON]: an object without duplicate names
    and of bounded depth) and the RFC 8785 form ([canonicalJSON],
    [appendCanonicalJSON]): members sorted by name, no white space, safe integers
    only.  [nftvalidate] has the same scan with another bound.  The file proves that
    canonical bytes are the printed form of the document with its members sorted,
    and that they read back as that document. *)

From S2P Require Import Prelude GoSort GoStrings Sha256 Json JsonTree.
Local Open Scope Z_scope.

(** [consumeJSON]: every object has its own [seen] set. *)
Fixpoint consumeJSON (maxDepth depth : Z) (v : json) : bool :=
  if maxDepth <? depth then false
  else
    match v with
    | JObject ms =>
        let fix members (ms : list (string * json)) (seen : list string) : bool :=
          match ms with
          | [] => true
          | (key, value) :: ms =>
              if bool_decide (key ∈ seen) then false
              else if consumeJSON maxDepth (depth + 1) value then members ms (key :: seen) else false
          end in
        members ms []
    | JArray es => forallb (consumeJSON maxDepth (depth + 1)) es
    | _ => true
    end.

(** [strictJSON]: one object and nothing after it.  The value read is kept for the
    decoders that read the same bytes again. *)
Definition strictJSON (maxDepth : Z) (raw : string) : option json :=
  match parse_document (chars raw) with
  | Some (JObject ms) => if consumeJSON maxDepth 0 (JObject ms) then Some (JObject ms) else None
  | _ => None
  end.

Definition MaxContractDepth : Z := 64.

(** ** The canonical form *)

Definition MaxSafeInteger : Z := 9007199254740991.

(** [json.Number]: a safe integer in its shortest form. *)
Definition canonical_number (n : list ascii) : bool :=
  match atoi (implode n) with
  | Some z => (- MaxSafeInteger <=? z) && (z <=? MaxSafeInteger) && String.eqb (itoa z) (implode n)
  | None => false
  end.

(** The members of a [map[string]any] decoded from a list of members: a later
    member replaces an earlier one of the same name. *)
Definition stored_value {A} (name : string) (ms : list (string * A)) : option A :=
  foldl (λ found m, if String.eqb m.1 name then Some m.2 else found) None ms.

(** The members of the map in the order of their sorted names. *)
Definition sorted_members {A} (ms : list (string * A)) : list (string * A) :=
  omap (λ name, pair name <$> stored_value name ms) (sorted_unique (fst <$> ms)).

(** Texts with commas between them; [None] when one of them is an error. *)
Fixpoint comma_separated (tail : bool) (texts : list (option (list ascii))) : option (list ascii) :=
  match texts with
  | [] => Some []
  | text :: texts =>
      t ← text; r ← comma_separated true texts;
      Some ((if tail then [","%char] else []) ++ t ++ r)
  end.

Fixpoint appendCanonicalJSON (v : json) : option (list ascii) :=
  match v with
  | JNull => Some (chars "null")
  | JBool b => Some (chars (if b then "true" else "false"))
  | JString s => Some (chars (json_string s))
  | JNumber n => if canonical_number n then Some n else None
  | JArray es => body ← comma_separated false (map appendCanonicalJSON es); Some ("["%char :: body ++ ["]"%char])
  | JObject ms =>
      let printed := map (λ m, (m.1, appendCanonicalJSON m.2)) ms in
      body ← comma_separated false
        (map (λ m, text ← m.2; Some (chars (json_string m.1) ++ ":"%char :: text)) (sorted_members printed));
      Some ("{"%char :: body ++ ["}"%char])
  end.

(** [canonicalJSON] on bytes that hold one document. *)
Definition canonicalJSON (raw : string) : option string :=
  v ← parse_document (chars raw); implode <$> appendCanonicalJSON v.

(** ** The document with its members sorted *)

Fixpoint canon (v : json) : json :=
  match v with
  | JArray es => JArray (map canon es)
  | JObject ms => JObject (sorted_members (map (λ m, (m.1, canon m.2)) ms))
  | v => v
  end.

(** Strings that need no escape and natural numbers that are safe. *)
Fixpoint tidy (v : json) : Prop :=
  match v with
  | JString s => plain s
  | JNumber n => ∃ z, 0 <= z <= MaxSafeInteger ∧ n = chars (format_uint z)
  | JArray es => foldr (λ e P, tidy e ∧ P) True es
  | JObject ms => foldr (λ m P, (plain m.1 ∧ tidy m.2) ∧ P) True ms
  | _ => True
  end.

Lemma foldr_and_Forall {A} (P : A → Prop) (l : list A) : foldr (λ x Q, P x ∧ Q) True l ↔ Forall P l.
Proof. induction l as [|x l IH]; simpl; [done|]. by rewrite Forall_cons, IH. Qed.

Lemma stored_value_foldl {A} name (ms : list (string * A)) acc :
  foldl (λ found m, if String.eqb m.1 name then Some m.2 else found) acc ms
  = match stored_value name ms with Some v => Some v | None => acc end.
Proof.
  unfold stored_value. revert acc. induction ms as [|m ms IH]; intros acc; simpl; [done|]. rewrite IH. rewrite (IH (if String.eqb m.1 name then Some m.2 else None)).
  destruct (foldl _ None ms); [done|]. by destruct (String.eqb m.1 name).
Qed.

Lemma stored_value_cons {A} name (m : string * A) ms :
  stored_value name (m :: ms) = match stored_value name ms with Some v => Some v | None => if String.eqb m.1 name then Some m.2 else None end.
Proof. unfold stored_value at 1. simpl. apply stored_value_foldl. Qed.

Lemma stored_value_map {A B} (f : A → B) name ms : stored_value name (map (λ m, (m.1, f m.2)) ms) = f <$> stored_value name ms.
Proof.
  induction ms as [|m ms IH]; [done|]. cbn [map]. rewrite !stored_value_cons, IH. cbn [fst snd].
  destruct (stored_value name ms); [done|]. by destruct (String.eqb m.1 name).
Qed.

Lemma stored_value_elem {A} name (ms : list (string * A)) v : stored_value name ms = Some v → (name, v) ∈ ms.
Proof.
  induction ms as [|m ms IH]; [done|]. rewrite stored_value_cons. destruct (stored_value name ms).
  - intros ?. apply elem_of_cons. right. by apply IH.
  - destruct (String.eqb_spec m.1 name) as [<-|]; [|done]. intros [= <-]. apply elem_of_cons. left. by destruct m.
Qed.

Lemma sorted_members_map {A B} (f : A → B) ms :
  sorted_members (map (λ m, (m.1, f m.2)) ms) = map (λ m, (m.1, f m.2)) (sorted_members ms).
Proof.
  unfold sorted_members. replace (fst <$> map (λ m, (m.1, f m.2)) ms) with (fst <$> ms).
  - generalize (sorted_unique (fst <$> ms)). intros ks. induction ks as [|k ks IH]; [done|]. cbn [omap list_omap]. rewrite stored_value_map.
    destruct (stored_value k ms); simpl; [f_equal|]; exact IH.
  - induction ms as [|m ms IH]; [done|]. cbn [map fmap list_fmap] in *. by rewrite <-IH.
Qed.

Lemma sorted_members_elem {A} (ms : list (string * A)) m : m ∈ sorted_members ms → m ∈ ms.
Proof.
  unfold sorted_members. rewrite list_elem_of_omap. intros (k & _ & H). apply fmap_Some in H as (v & Hv & ->). by apply stored_value_elem.
Qed.

Lemma sorted_members_Forall {A} (P : string * A → Prop) ms : Forall P ms → Forall P (sorted_members ms).
Proof. rewrite !Forall_forall. intros H m Hm. by apply H, sorted_members_elem. Qed.

(** ** Canonical bytes are the printed sorted document *)

Lemma atoi_digit c s : is_digit c = true → atoi (String c s) = parse_uint 63 (String c s).
Proof. intros Hc. by destruct c as [[] [] [] [] [] [] [] []]. Qed.

Lemma atoi_format_uint z : 0 <= z < 2 ^ 63 → atoi (format_uint z) = Some z.
Proof.
  intros Hz. destruct (format_uint_head z ltac:(lia)) as (c & s & Hc & Hd & _).
  pose proof (implode_chars (format_uint z)) as Hf. rewrite Hc in Hf. change (implode (c :: s)) with (String c (implode s)) in Hf.
  rewrite <-Hf, atoi_digit, Hf by done. by apply parse_format_uint.
Qed.

Lemma canonical_number_nat z : 0 <= z <= MaxSafeInteger → canonical_number (chars (format_uint z)) = true.
Proof.
  intros Hz. unfold canonical_number. rewrite implode_chars.
  rewrite atoi_format_uint by (unfold MaxSafeInteger in Hz; lia). unfold itoa. rewrite (proj2 (Z.ltb_ge z 0)), String.eqb_refl, !(proj2 (Z.leb_le _ _)) by lia. done.
Qed.

Lemma comma_separated_elements es tail : ∃ body,
  comma_separated tail (map (λ e, Some (write_json e)) es) = Some body ∧ write_element_list tail es = body ++ ["]"%char].
Proof.
  revert tail. induction es as [|e es IH]; intros tail; [by exists []|]. destruct (IH true) as (body & H1 & H2).
  exists ((if tail then [","%char] else []) ++ write_json e ++ body). cbn [map comma_separated write_element_list mbind option_bind].
  fold write_element_list. rewrite H1, H2. by rewrite <-!app_assoc.
Qed.

Lemma comma_separated_members ms tail : ∃ body,
  comma_separated tail (map (λ m : string * json, Some (chars (json_string m.1) ++ ":"%char :: write_json m.2)) ms) = Some body
  ∧ write_member_list tail ms = body ++ ["}"%char].
Proof.
  revert tail. induction ms as [|[k v] ms IH]; intros tail; [by exists []|]. destruct (IH true) as (body & H1 & H2).
  exists ((if tail then [","%char] else []) ++ (chars (json_string k) ++ ":"%char :: write_json v) ++ body).
  cbn [map comma_separated write_member_list mbind option_bind fst snd]. fold write_member_list. rewrite H1, H2. split; [done|].
  rewrite <-!app_assoc. cbn [app]. done.
Qed.

Lemma appendCanonicalJSON_canon v : tidy v → appendCanonicalJSON v = Some (write_json (canon v)).
Proof.
  induction v as [|b|n|s|es IH|ms IH] using json_nested_ind; intros Ht; [done|by destruct b| |done|..].
  - destruct Ht as (z & Hz & ->). cbn [appendCanonicalJSON]. by rewrite canonical_number_nat.
  - cbn [appendCanonicalJSON canon tidy] in *. rewrite foldr_and_Forall in Ht. rewrite write_json_array.
    replace (map appendCanonicalJSON es) with (map (λ e, Some (write_json e)) (map canon es)).
    + destruct (comma_separated_elements (map canon es) false) as (body & -> & ->). done.
    + rewrite map_map. apply map_ext_in. intros e He%list_elem_of_In. rewrite !Forall_forall in *. symmetry. auto.
  - cbn [appendCanonicalJSON canon tidy] in *. apply (foldr_and_Forall (λ m, plain m.1 ∧ tidy m.2)) in Ht. rewrite write_json_object.
    replace (map (λ m, (m.1, appendCanonicalJSON m.2)) ms) with (map (λ m : string * json, (m.1, Some (write_json m.2))) (map (λ m, (m.1, canon m.2)) ms)).
    + rewrite (sorted_members_map (λ v, Some (write_json v))). set (k := sorted_members _). rewrite map_map. cbn [fst snd mbind option_bind].
      destruct (comma_separated_members k false) as (body & -> & ->). done.
    + rewrite map_map. cbn [fst snd]. apply map_ext_in. intros m Hm%list_elem_of_In. rewrite !Forall_forall in *.
      rewrite IH by (done || apply Ht, Hm). done.
Qed.

Lemma canon_simple v : tidy v → simple (canon v).
Proof.
  induction v as [|b|n|s|es IH|ms IH] using json_nested_ind; intros Ht; try done; cbn [canon tidy simple] in *.
  - destruct Ht as (z & Hz & ->). exists z. split; [lia|done].
  - rewrite foldr_and_Forall in *. apply Forall_forall. rewrite !Forall_forall in *. intros e He.
    apply list_elem_of_In, in_map_iff in He as (x & <- & Hx%list_elem_of_In). auto.
  - apply (foldr_and_Forall (λ m, plain m.1 ∧ tidy m.2)) in Ht. apply (foldr_and_Forall (λ m, plain m.1 ∧ simple m.2)).
    apply sorted_members_Forall. rewrite !Forall_forall in *. intros m Hm.
    apply list_elem_of_In, in_map_iff in Hm as (x & <- & Hx%list_elem_of_In). exact (conj (proj1 (Ht x Hx)) (IH x Hx (proj2 (Ht x Hx)))).
Qed.

(** [canonicalJSON(json.Marshal(v))] *)
Lemma canonicalJSON_write v : tidy v → simple v → canonicalJSON (implode (write_json v)) = Some (implode (write_json (canon v))).
Proof.
  intros Ht Hs. unfold canonicalJSON. rewrite chars_implode, parse_document_write by done. cbn [mbind option_bind].
  by rewrite appendCanonicalJSON_canon.
Qed.

Lemma tidy_simple v : tidy v → simple v.
Proof.
  induction v as [|b|n|s|es IH|ms IH] using json_nested_ind; intros Ht; try done; cbn [tidy simple] in *.
  - destruct Ht as (z & Hz & ->). exists z. split; [lia|done].
  - rewrite foldr_and_Forall in *. rewrite Forall_forall in *. auto.
  - apply (foldr_and_Forall (λ m, plain m.1 ∧ tidy m.2)) in Ht. apply (foldr_and_Forall (λ m, plain m.1 ∧ simple m.2)).
    rewrite !Forall_forall in *. intros m Hm. split; [apply Ht, Hm|apply IH, Ht; done].
Qed.

(** Canonical bytes hold one document and read back as it. *)
Lemma canonicalJSON_reads v raw : tidy v → canonicalJSON (implode (write_json v)) = Some raw → parse_document (chars raw) = Some (canon v).
Proof.
  intros Ht H. rewrite canonicalJSON_write in H by auto using tidy_simple. injection H as <-.
  rewrite chars_implode. by apply parse_document_write, canon_simple.
Qed.

(** ** The scan *)

Lemma consumeJSON_ok maxDepth v : unique_names v = true → ∀ depth, depth + height v <= maxDepth → consumeJSON maxDepth depth v = true.
Proof.
  induction v as [|b|n|s|es IH|ms IH] using json_nested_ind; intros Hu depth Hd;
    try (cbn [consumeJSON height] in *; by rewrite (proj2 (Z.ltb_ge _ _)) by lia).
  - assert (0 <= height (JArray es)) by (cbn [height]; clear; induction es; cbn [foldr]; lia).
    cbn [consumeJSON]. rewrite (proj2 (Z.ltb_ge _ _)) by lia. cbn [unique_names height] in *. clear H.
    induction IH as [|e es He _ IHes]; [done|]. cbn [forallb foldr] in *. apply andb_prop in Hu as [Hue Hu].
    rewrite He; [|done|lia]. apply IHes; [done|lia].
  - assert (0 <= height (JObject ms)) by (cbn [height]; clear; induction ms; cbn [foldr]; lia).
    cbn [consumeJSON]. rewrite (proj2 (Z.ltb_ge _ _)) by lia. cbn [unique_names height] in *. apply andb_prop in Hu as [Hn%bool_decide_eq_true Hu].
    assert (Hk : ∀ k, k ∈ ([] : list string) → k ∉ fst <$> ms) by (intros k ?%elem_of_nil; done). clear H.
    generalize dependent (@nil string). induction IH as [|[k e] ms He _ IHms]; intros keys Hk; [done|]. cbn [forallb foldr fst snd fmap list_fmap] in *.
    apply andb_prop in Hu as [Hue Hu]. apply NoDup_cons in Hn as [Hke Hn].
    rewrite bool_decide_eq_false_2 by (intros Hin; apply (Hk k Hin), elem_of_cons; by left). rewrite He; [|done|lia].
    apply IHms; [done|done|lia|]. intros k' [->|Hk']%elem_of_cons; [done|]. intros Hin. apply (Hk k' Hk'), elem_of_cons. by right.
Qed.
