(* ===== verification/Protected.v ===== *)
(** * Protected addresses ([internal/validation/protected*.go])

    The gate that keeps the program from blocking addresses it must never block: the
    built-in registry of special-purpose networks (a pinned JSON contract), the
    networks the operator adds, and the addresses of the deployment itself.  Opening
    and reading the contract file is the operating system's: the bytes it returns are
    an argument. *)

From S2P Require Import Prelude GoSort GoStrings Regex Sha256 Hmac Json JsonTree Netip NetPrefix CanonicalJson.
Local Open Scope Z_scope.

Definition PinnedProtectedIPv4Digest : string := "sha256:d3dfb63a573925e19f29e8595fd5574bc441a9c468d2f9ef6d2f004abb101104".

Inductive ProtectedErrorCode := ErrContractInvalid | ErrDigestMismatch | ErrConfigInvalid.

(** ** The contract ([protected_contract.go]) *)

Record protectedEntry := MkProtectedEntry { pe_id : string; pe_cidrs : list prefix4; pe_demoExceptionAllowed : bool }.

Record ProtectedContract := MkProtectedContract { ct_entries : list protectedEntry; ct_digest : string; ct_rawDigest : string }.

Definition maxProtectedContractBytes : Z := 1048576.

Definition entry_id_byte (c : ascii) : bool := is_lower c || is_digit c.

Definition entryIDPattern : pattern :=
  [exactly 1 entry_id_byte; rep 0 63 (λ c, entry_id_byte c || bool_decide (c ∈ ["_"; "-"]%char))].

(** [^RFC[0-9]+(?: section [0-9A-Za-z.]+)?$]: the digits end where the space begins. *)
Definition referencePattern (s : string) : bool :=
  match strip (chars "RFC") (chars s) with
  | None => false
  | Some l =>
      let '(number, rest) := span_digits l in
      negb (bool_decide (number = [])) &&
      match rest with
      | [] => true
      | _ =>
          match strip (chars " section ") rest with
          | Some (c :: section) => forallb (λ c, is_digit c || is_upper c || is_lower c || bool_decide (c = "."%char)) (c :: section)
          | _ => false
          end
      end
  end.

Record protectedEntryDocument := MkEntryDocument {
  ed_EntryID : string; ed_CIDRs : slice string; ed_Name : string; ed_Reference : string; ed_Source : string;
  ed_ProductionProtected : bool; ed_DemoExceptionAllowed : bool
}.

Record protectedContractDocument := MkContractDocument {
  cd_SchemaVersion : string; cd_RegistrySource : string; cd_AuthoritativeRegistryURL : string; cd_RegistryLastUpdated : string;
  cd_PolicyVersion : string; cd_ConfiguredAdditionsOnly : bool; cd_Entries : slice protectedEntryDocument
}.

Definition zero_entry_document : protectedEntryDocument := MkEntryDocument "" nil_slice "" "" "" false false.
Definition zero_contract_document : protectedContractDocument := MkContractDocument "" "" "" "" "" false nil_slice.

Definition decode_entry_document : decoder protectedEntryDocument := decode_object
  [("entry_id", λ v d, x ← decode_string v (ed_EntryID d);
      Some (MkEntryDocument x (ed_CIDRs d) (ed_Name d) (ed_Reference d) (ed_Source d) (ed_ProductionProtected d) (ed_DemoExceptionAllowed d)));
   ("cidrs", λ v d, x ← decode_slice "" decode_string v (ed_CIDRs d);
      Some (MkEntryDocument (ed_EntryID d) x (ed_Name d) (ed_Reference d) (ed_Source d) (ed_ProductionProtected d) (ed_DemoExceptionAllowed d)));
   ("name", λ v d, x ← decode_string v (ed_Name d);
      Some (MkEntryDocument (ed_EntryID d) (ed_CIDRs d) x (ed_Reference d) (ed_Source d) (ed_ProductionProtected d) (ed_DemoExceptionAllowed d)));
   ("reference", λ v d, x ← decode_string v (ed_Reference d);
      Some (MkEntryDocument (ed_EntryID d) (ed_CIDRs d) (ed_Name d) x (ed_Source d) (ed_ProductionProtected d) (ed_DemoExceptionAllowed d)));
   ("source", λ v d, x ← decode_string v (ed_Source d);
      Some (MkEntryDocument (ed_EntryID d) (ed_CIDRs d) (ed_Name d) (ed_Reference d) x (ed_ProductionProtected d) (ed_DemoExceptionAllowed d)));
   ("production_protected", λ v d, x ← decode_bool v (ed_ProductionProtected d);
      Some (MkEntryDocument (ed_EntryID d) (ed_CIDRs d) (ed_Name d) (ed_Reference d) (ed_Source d) x (ed_DemoExceptionAllowed d)));
   ("demo_exception_allowed", λ v d, x ← decode_bool v (ed_DemoExceptionAllowed d);
      Some (MkEntryDocument (ed_EntryID d) (ed_CIDRs d) (ed_Name d) (ed_Reference d) (ed_Source d) (ed_ProductionProtected d) x))].

Definition decode_contract_document : decoder protectedContractDocument := decode_object
  [("schema_version", λ v d, x ← decode_string v (cd_SchemaVersion d);
      Some (MkContractDocument x (cd_RegistrySource d) (cd_AuthoritativeRegistryURL d) (cd_RegistryLastUpdated d) (cd_PolicyVersion d) (cd_ConfiguredAdditionsOnly d) (cd_Entries d)));
   ("registry_source", λ v d, x ← decode_string v (cd_RegistrySource d);
      Some (MkContractDocument (cd_SchemaVersion d) x (cd_AuthoritativeRegistryURL d) (cd_RegistryLastUpdated d) (cd_PolicyVersion d) (cd_ConfiguredAdditionsOnly d) (cd_Entries d)));
   ("authoritative_registry_url", λ v d, x ← decode_string v (cd_AuthoritativeRegistryURL d);
      Some (MkContractDocument (cd_SchemaVersion d) (cd_RegistrySource d) x (cd_RegistryLastUpdated d) (cd_PolicyVersion d) (cd_ConfiguredAdditionsOnly d) (cd_Entries d)));
   ("registry_last_updated", λ v d, x ← decode_string v (cd_RegistryLastUpdated d);
      Some (MkContractDocument (cd_SchemaVersion d) (cd_RegistrySource d) (cd_AuthoritativeRegistryURL d) x (cd_PolicyVersion d) (cd_ConfiguredAdditionsOnly d) (cd_Entries d)));
   ("policy_version", λ v d, x ← decode_string v (cd_PolicyVersion d);
      Some (MkContractDocument (cd_SchemaVersion d) (cd_RegistrySource d) (cd_AuthoritativeRegistryURL d) (cd_RegistryLastUpdated d) x (cd_ConfiguredAdditionsOnly d) (cd_Entries d)));
   ("configured_additions_only", λ v d, x ← decode_bool v (cd_ConfiguredAdditionsOnly d);
      Some (MkContractDocument (cd_SchemaVersion d) (cd_RegistrySource d) (cd_AuthoritativeRegistryURL d) (cd_RegistryLastUpdated d) (cd_PolicyVersion d) x (cd_Entries d)));
   ("entries", λ v d, x ← decode_slice zero_entry_document decode_entry_document v (cd_Entries d);
      Some (MkContractDocument (cd_SchemaVersion d) (cd_RegistrySource d) (cd_AuthoritativeRegistryURL d) (cd_RegistryLastUpdated d) (cd_PolicyVersion d) (cd_ConfiguredAdditionsOnly d) x))].

(** [parseCanonicalIPv4], [parseCanonicalIPv4Prefix] *)
Definition parseCanonicalIPv4 (text : string) : option addr4 := canonical_ipv4 text.

Definition parseCanonicalIPv4Prefix (text : string) : option prefix4 :=
  match parse_prefix4 text with
  | Some p => if is_masked p && String.eqb (prefix4_string p) text then Some p else None
  | None => None
  end.

Definition expectedExceptions : list (string * string) :=
  [("test_net_1", "192.0.2.0/24"); ("test_net_2", "198.51.100.0/24"); ("test_net_3", "203.0.113.0/24")].

(** What the loop over the entries keeps: [seenEntries], [seenCIDRs], the entries
    and [exceptionCount]. *)
Record contract_scan := MkContractScan {
  cs_seenEntries : list string; cs_seenCIDRs : list prefix4; cs_entries : list protectedEntry; cs_exceptionCount : Z
}.

(** The inner loop: the prefixes of one entry, and all seen. *)
Fixpoint scan_cidrs (texts : list string) (seen parsed : list prefix4) : option (list prefix4 * list prefix4) :=
  match texts with
  | [] => Some (seen, parsed)
  | text :: texts =>
      prefix ← parseCanonicalIPv4Prefix text;
      if bool_decide (prefix ∈ seen) then None else scan_cidrs texts (prefix :: seen) (parsed ++ [prefix])
  end.

Definition scan_entry (st : contract_scan) (entry : protectedEntryDocument) : option contract_scan :=
  let cidrs := elements (ed_CIDRs entry) in
  if negb (match_string entryIDPattern (ed_EntryID entry)) || (Z.of_nat (length cidrs) <? 1) || (2 <? Z.of_nat (length cidrs))
     || String.eqb (ed_Name entry) "" || (128 <? len (ed_Name entry)) || negb (referencePattern (ed_Reference entry))
     || (negb (String.eqb (ed_Source entry) "iana-special-purpose") && negb (String.eqb (ed_Source entry) "rfc1112-multicast"))
     || negb (ed_ProductionProtected entry)
  then None
  else if bool_decide (ed_EntryID entry ∈ cs_seenEntries st) then None
  else
    '(seen, parsed) ← scan_cidrs cidrs (cs_seenCIDRs st) [];
    let expected := snd <$> List.find (λ e, String.eqb e.1 (ed_EntryID entry)) expectedExceptions in
    let keep count := Some (MkContractScan (ed_EntryID entry :: cs_seenEntries st) seen
      (cs_entries st ++ [MkProtectedEntry (ed_EntryID entry) parsed (ed_DemoExceptionAllowed entry)]) count) in
    if ed_DemoExceptionAllowed entry then
      match expected with
      | Some expectedCIDR => if bool_decide (cidrs = [expectedCIDR]) then keep (cs_exceptionCount st + 1) else None
      | None => None
      end
    else match expected with Some _ => None | None => keep (cs_exceptionCount st) end.

Definition scan_entries (entries : list protectedEntryDocument) : option contract_scan :=
  foldl (λ st entry, st ← st; scan_entry st entry) (Some (MkContractScan [] [] [] 0)) entries.

Definition contract_header_ok (d : protectedContractDocument) : bool :=
  String.eqb (cd_SchemaVersion d) "protected-ipv4-v1"
  && String.eqb (cd_RegistrySource d) "IANA IPv4 Special-Purpose Address Space plus RFC 1112 multicast"
  && String.eqb (cd_AuthoritativeRegistryURL d)
       "https://www.iana.org/assignments/iana-ipv4-special-registry/iana-ipv4-special-registry.xhtml"
  && String.eqb (cd_RegistryLastUpdated d) "2025-10-09"
  && String.eqb (cd_PolicyVersion d) "sentinelflow-protected-ipv4-policy-v1"
  && cd_ConfiguredAdditionsOnly d && (Z.of_nat (length (elements (cd_Entries d))) =? 26).

Definition ParseProtectedContract (raw expectedDigest : string) : result ProtectedErrorCode ProtectedContract :=
  if (len raw =? 0) || (maxProtectedContractBytes <? len raw) then Err ErrContractInvalid
  else
    match strictJSON MaxContractDepth raw with
    | None => Err ErrContractInvalid
    | Some v =>
        match canonicalJSON raw with
        | None => Err ErrContractInvalid
        | Some canonical =>
            let d := digest canonical in
            if negb (String.eqb expectedDigest PinnedProtectedIPv4Digest) || negb (String.eqb d expectedDigest) then Err ErrDigestMismatch
            else
              match decode_contract_document v zero_contract_document with
              | None => Err ErrContractInvalid
              | Some document =>
                  if negb (contract_header_ok document) then Err ErrContractInvalid
                  else
                    match scan_entries (elements (cd_Entries document)) with
                    | None => Err ErrContractInvalid
                    | Some st =>
                        if negb (cs_exceptionCount st =? Z.of_nat (length expectedExceptions)) then Err ErrContractInvalid
                        else Ok (MkProtectedContract (cs_entries st) d (digest raw))
                    end
              end
        end
    end.

(** [file] is the content of the opened file, [None] when it cannot be read. *)
Definition LoadProtectedContractFile (file : option string) : result ProtectedErrorCode ProtectedContract :=
  match file with
  | None => Err ErrContractInvalid
  | Some content =>
      let raw := implode (take (Z.to_nat (maxProtectedContractBytes + 1)) (chars content)) in
      if maxProtectedContractBytes <? len raw then Err ErrContractInvalid
      else ParseProtectedContract raw PinnedProtectedIPv4Digest
  end.

(** ** The configuration ([protected_types.go]) *)

Definition EnvironmentDevelopment : string := "development".
Definition EnvironmentTest : string := "test".
Definition EnvironmentDemo : string := "demo".
Definition EnvironmentProduction : string := "production".

Definition DemoExceptionDisabled : string := "disabled".
Definition DemoExceptionIsolatedRFC5737 : string := "isolated-rfc5737".

Record DemoExceptionConfig := MkDemoConfig {
  dm_Profile : string; dm_AllowRFC5737 : bool; dm_IsolationVerified : bool; dm_HostRulesetUnchanged : bool;
  dm_ClientCIDR : string; dm_AttackSourceIPv4 : string
}.

Record ProtectedConfig := MkProtectedConfig {
  pc_Environment : string; pc_ProtectedCIDRs : list string; pc_OriginIPv4 : list string; pc_GatewayIPv4 : list string;
  pc_ExecutorIPv4 : list string; pc_ManagementIPv4 : list string; pc_CurrentAdminIPv4 : list string; pc_Demo : DemoExceptionConfig
}.

Definition ConsistencyPassed : string := "passed".

(** What the gate reads of a [ConsistencyResult]; the whole record is produced by the
    consistency gate. *)
Record ConsistencyResult := MkConsistencyResult {
  cr_Status : string; cr_FailureCode : string; cr_TargetIPv4 : string; cr_PolicyDigest : string; cr_GeneratedCommandDigest : string;
  cr_CanonicalCommandDigest : string; cr_EvidenceSnapshotDigest : string; cr_AnalysisInputDigest : string;
  cr_AnalysisOutputDigest : string; cr_RationaleDigest : string
}.

Record ProtectedInput := MkProtectedInput { pi_TargetIPv4 : string; pi_Consistency : ConsistencyResult }.

Inductive ProtectedDecision := DecisionAllowed | DecisionBlocked.

Inductive ProtectedReason :=
  | ReasonAllowed | ReasonAllowedDemoException | ReasonConsistencyNotPassed | ReasonInvalidTarget | ReasonBuiltInProtected
  | ReasonConfiguredCIDR | ReasonOrigin | ReasonGateway | ReasonExecutor | ReasonManagement | ReasonCurrentAdministratorPath.

Record ProtectedResult := MkProtectedResult {
  pr_Decision : ProtectedDecision; pr_Reason : ProtectedReason; pr_TargetIPv4 : string; pr_MatchedEntryID : string;
  pr_MatchedCIDR : string; pr_StaticContractDigest : string; pr_EffectiveConfigDigest : string; pr_DemoExceptionApplied : bool
}.

Definition Allowed (r : ProtectedResult) : bool := match pr_Decision r with DecisionAllowed => true | DecisionBlocked => false end.

(** ** The gate ([protected.go]) *)

Record ProtectedGate := MkProtectedGate {
  pg_contract : ProtectedContract; pg_additions : list prefix4; pg_runtime : gmap addr4 ProtectedReason; pg_demoActive : bool;
  pg_effectiveBytes : string; pg_effectiveDigest : string
}.

Definition rfc5737CIDRs : list string := ["192.0.2.0/24"; "198.51.100.0/24"; "203.0.113.0/24"].

Definition comparePrefixes (left right : prefix4) : comparison :=
  match addr_compare (px_addr left) (px_addr right) with Eq => Z.compare (px_bits left) (px_bits right) | c => c end.

(** [index > 0 && compare(result[index-1], x) >= 0] *)
Definition out_of_order {A} (compare : A → A → comparison) (previous : option A) (x : A) : bool :=
  match previous with
  | Some p => match compare p x with Lt => false | _ => true end
  | None => false
  end.

(** Parse a list of texts, each after the one before in the given order. *)
Fixpoint parse_ordered {A} (parse : string → option A) (compare : A → A → comparison) (previous : option A) (values : list string) : option (list A) :=
  match values with
  | [] => Some []
  | text :: values =>
      x ← parse text;
      if out_of_order compare previous x then None
      else xs ← parse_ordered parse compare (Some x) values; Some (x :: xs)
  end.

Definition parseOrderedPrefixes (values : list string) : option (list prefix4) :=
  if 256 <? Z.of_nat (length values) then None else parse_ordered parseCanonicalIPv4Prefix comparePrefixes None values.

Definition parseOrderedAddresses (values : list string) : option (list addr4) :=
  if 64 <? Z.of_nat (length values) then None else parse_ordered parseCanonicalIPv4 addr_compare None values.

Definition isRFC5737Prefix (prefix : prefix4) : bool := existsb (String.eqb (prefix4_string prefix)) rfc5737CIDRs.

(** The client network and the attack source, when either is given. *)
Definition demo_endpoints (config : DemoExceptionConfig) : option (option prefix4 * option addr4) :=
  if negb (String.eqb (dm_ClientCIDR config) "") || negb (String.eqb (dm_AttackSourceIPv4 config) "") then
    client ← parseCanonicalIPv4Prefix (dm_ClientCIDR config);
    if negb (isRFC5737Prefix client) then None
    else
      attack ← parseCanonicalIPv4 (dm_AttackSourceIPv4 config);
      if negb (prefix_contains client attack) then None else Some (Some client, Some attack)
  else Some (None, None).

(** Whether the exception is active, with the endpoints. *)
Definition validateDemoConfig (environment : string) (config : DemoExceptionConfig) : option (bool * option prefix4 * option addr4) :=
  '(client, attack) ← demo_endpoints config;
  if String.eqb (dm_Profile config) DemoExceptionDisabled then
    if dm_AllowRFC5737 config || dm_IsolationVerified config || dm_HostRulesetUnchanged config then None
    else Some (false, client, attack)
  else if String.eqb (dm_Profile config) DemoExceptionIsolatedRFC5737 then
    if negb (String.eqb environment EnvironmentDemo) && negb (String.eqb environment EnvironmentTest) then None
    else if negb (dm_AllowRFC5737 config) || negb (dm_IsolationVerified config) || negb (dm_HostRulesetUnchanged config)
            || negb (bool_decide (is_Some client)) || negb (bool_decide (is_Some attack)) then None
    else Some (true, client, attack)
  else None.

(** The runtime addresses, one category after the other. *)
Definition categoryInputs (config : ProtectedConfig) : list (list string * ProtectedReason) :=
  [(pc_OriginIPv4 config, ReasonOrigin); (pc_GatewayIPv4 config, ReasonGateway); (pc_ExecutorIPv4 config, ReasonExecutor);
   (pc_ManagementIPv4 config, ReasonManagement); (pc_CurrentAdminIPv4 config, ReasonCurrentAdministratorPath)].

Definition add_address (reason : ProtectedReason) (runtime : option (gmap addr4 ProtectedReason)) (address : addr4)
  : option (gmap addr4 ProtectedReason) :=
  runtime ← runtime;
  match runtime !! address with Some _ => None | None => Some (<[address := reason]> runtime) end.

Definition add_category (runtime : option (gmap addr4 ProtectedReason)) (category : list string * ProtectedReason)
  : option (gmap addr4 ProtectedReason) :=
  runtime ← runtime;
  addresses ← parseOrderedAddresses category.1;
  foldl (add_address category.2) (Some runtime) addresses.

Definition runtime_addresses (config : ProtectedConfig) : option (gmap addr4 ProtectedReason) :=
  foldl add_category (Some ∅) (categoryInputs config).

(** The order of [sort.Slice]: the addresses the texts parse to. *)
Definition text_order : string → string → comparison :=
  cmp_on (λ s, default (Addr4 0 0 0 0) (parse_addr4 s)) addr_compare.

Definition runtime_strings (runtime : gmap addr4 ProtectedReason) : list string :=
  sort_slice text_order (addr4_string <$> (fst <$> map_to_list runtime)).

(** The value that [json.Marshal] writes, a map: its names come out sorted. *)
Definition effective_document (contractDigest : string) (configured runtime : list string) (profile : string) (demoCIDRs : list string) : json :=
  JObject
    [("configured_protected_cidrs", JArray (JString <$> configured)); ("demo_exception_cidrs", JArray (JString <$> demoCIDRs));
     ("demo_exception_profile", JString profile); ("runtime_protected_ipv4", JArray (JString <$> runtime));
     ("schema_version", JString "protected-ipv4-effective-config-v1"); ("static_contract_digest", JString contractDigest)].

Definition known_environment (e : string) : bool :=
  bool_decide (e ∈ [EnvironmentDevelopment; EnvironmentTest; EnvironmentDemo; EnvironmentProduction]).

Definition NewProtectedGate (contract : ProtectedContract) (config : ProtectedConfig) : result ProtectedErrorCode ProtectedGate :=
  if negb (String.eqb (ct_digest contract) PinnedProtectedIPv4Digest) || negb (Z.of_nat (length (ct_entries contract)) =? 26)
  then Err ErrContractInvalid
  else if negb (known_environment (pc_Environment config)) then Err ErrConfigInvalid
  else
    match parseOrderedPrefixes (pc_ProtectedCIDRs config) with
    | None => Err ErrConfigInvalid
    | Some additions =>
        match runtime_addresses config with
        | None => Err ErrConfigInvalid
        | Some runtime =>
            if 64 <? Z.of_nat (size runtime) then Err ErrConfigInvalid
            else
              match validateDemoConfig (pc_Environment config) (pc_Demo config) with
              | None => Err ErrConfigInvalid
              | Some (demoActive, _, _) =>
                  let effective := effective_document (ct_digest contract) (prefix4_string <$> additions) (runtime_strings runtime)
                    (if demoActive then DemoExceptionIsolatedRFC5737 else DemoExceptionDisabled) (if demoActive then rfc5737CIDRs else []) in
                  match canonicalJSON (implode (write_json effective)) with
                  | None => Err ErrConfigInvalid
                  | Some canonicalEffective =>
                      Ok (MkProtectedGate contract additions runtime demoActive canonicalEffective (digest canonicalEffective))
                  end
              end
        end
    end.

(** [validDigest] *)
Definition validDigest (value : string) : bool :=
  let l := chars value in
  if negb (len value =? len "sha256:" + 64) || negb (bool_decide (take 7 l = chars "sha256:")) then false
  else
    match hex_decode (drop 7 l) with
    | Some decoded => (length decoded =? 32)%nat && String.eqb value (implode (map to_lower_ascii l))
    | None => false
    end.

(** The loop over the entries and their prefixes: the blocking match, or whether the
    demo exception was applied. *)
Fixpoint match_cidrs (demoActive : bool) (entry : protectedEntry) (target : addr4) (cidrs : list prefix4) (demoApplied : bool) : prefix4 + bool :=
  match cidrs with
  | [] => inr demoApplied
  | prefix :: cidrs =>
      if negb (prefix_contains prefix target) then match_cidrs demoActive entry target cidrs demoApplied
      else if pe_demoExceptionAllowed entry && demoActive then match_cidrs demoActive entry target cidrs true
      else inl prefix
  end.

Fixpoint match_entries (demoActive : bool) (target : addr4) (entries : list protectedEntry) (demoApplied : bool) : (protectedEntry * prefix4) + bool :=
  match entries with
  | [] => inr demoApplied
  | entry :: entries =>
      match match_cidrs demoActive entry target (pe_cidrs entry) demoApplied with
      | inl prefix => inl (entry, prefix)
      | inr demoApplied => match_entries demoActive target entries demoApplied
      end
  end.

(** [Check]; [None] is the nil gate. *)
Definition Check (gate : option ProtectedGate) (input : ProtectedInput) : ProtectedResult :=
  match gate with
  | None => MkProtectedResult DecisionBlocked ReasonConsistencyNotPassed "" "" "" "" "" false
  | Some g =>
      let answer decision reason target entry cidr demo :=
        MkProtectedResult decision reason target entry cidr (ct_digest (pg_contract g)) (pg_effectiveDigest g) demo in
      let c := pi_Consistency input in
      if negb (String.eqb (cr_Status c) ConsistencyPassed) || negb (String.eqb (cr_TargetIPv4 c) (pi_TargetIPv4 input))
         || negb (validDigest (cr_PolicyDigest c)) || negb (validDigest (cr_CanonicalCommandDigest c))
      then answer DecisionBlocked ReasonConsistencyNotPassed "" "" "" false
      else
        match parseCanonicalIPv4 (pi_TargetIPv4 input) with
        | None => answer DecisionBlocked ReasonInvalidTarget "" "" "" false
        | Some target =>
            if negb (is_global_unicast target) then answer DecisionBlocked ReasonInvalidTarget "" "" "" false
            else
              let text := addr4_string target in
              match pg_runtime g !! target with
              | Some reason => answer DecisionBlocked reason text "" (text +:+ "/32") false
              | None =>
                  match List.find (λ prefix, prefix_contains prefix target) (pg_additions g) with
                  | Some prefix => answer DecisionBlocked ReasonConfiguredCIDR text "" (prefix4_string prefix) false
                  | None =>
                      match match_entries (pg_demoActive g) target (ct_entries (pg_contract g)) false with
                      | inl (entry, prefix) => answer DecisionBlocked ReasonBuiltInProtected text (pe_id entry) (prefix4_string prefix) false
                      | inr true => answer DecisionAllowed ReasonAllowedDemoException text "" "" true
                      | inr false => answer DecisionAllowed ReasonAllowed text "" "" false
                      end
                  end
              end
        end
  end.
