(* ===== verification/ProtectedSpec.v ===== *)
(** * What the protected-address gate guarantees

    The verdict of [Check] in terms of the configuration it was built from: which
    targets it lets through, that configuration only adds protection, and when the
    exception for the documentation networks applies; what an accepted contract is,
    and that the shipped one is accepted. *)

From S2P Require Import Prelude GoSort GoStrings Regex Sha256 Hmac Json JsonTree Netip NetPrefix CanonicalJson Protected.
Local Open Scope Z_scope.

(** ** Texts *)

Lemma parseCanonicalIPv4_iff s a : parseCanonicalIPv4 s = Some a ↔ addr4_string a = s ∧ addr4_ok a = true.
Proof. apply canonical_ipv4_spec. Qed.

Lemma parseCanonicalIPv4Prefix_iff s p : parseCanonicalIPv4Prefix s = Some p ↔ prefix4_string p = s ∧ prefix_ok p.
Proof.
  unfold parseCanonicalIPv4Prefix, prefix_ok. split.
  - destruct (parse_prefix4 s) as [q|] eqn:E; [|done]. destruct (is_masked q && _) eqn:Em; [|done]. intros [= <-].
    apply andb_prop in Em as [Hm Hs%String.eqb_eq]. destruct (parse_prefix4_ok _ _ E). done.
  - intros (<- & Ha & Hb & Hm). rewrite parse_prefix4_string, Hm, String.eqb_refl by done. done.
Qed.

Lemma hex_value_lower c : (∃ v, hex_value c = Some v) ∧ to_lower_ascii c = c ↔ is_lower_hex c = true.
Proof.
  assert (H : forallb (λ c, Bool.eqb (match hex_value c with Some _ => true | None => false end && bool_decide (to_lower_ascii c = c)) (is_lower_hex c)) all_bytes = true)
    by (by vm_compute).
  rewrite forallb_forall in H. specialize (H c (proj1 (list_elem_of_In _ _) (all_bytes_complete c))). apply Bool.eqb_prop in H. rewrite <-H, andb_true_iff, bool_decide_eq_true.
  destruct (hex_value c) as [v|]; [|naive_solver]. split; [by intros [_ ?]|intros [_ ?]; by eauto].
Qed.

Lemma hex_decode_some n : ∀ l, length l = (2 * n)%nat → Forall (λ c, ∃ v, hex_value c = Some v) l →
  ∃ bs, hex_decode l = Some bs ∧ length bs = n.
Proof.
  induction n as [|n IH]; intros [|a [|b l]] Hl Hf; cbn [length] in Hl; try lia; [by exists []|].
  apply Forall_cons in Hf as [[va Ha] Hf]. apply Forall_cons in Hf as [[vb Hb] Hf]. destruct (IH l ltac:(lia) Hf) as (bs & Hbs & Hn).
  exists (16 * va + vb :: bs). cbn [hex_decode mbind option_bind]. rewrite Ha, Hb. cbn [mbind option_bind]. rewrite Hbs. cbn. by rewrite Hn.
Qed.

Lemma hex_decode_values n : ∀ l bs, length l = (2 * n)%nat → hex_decode l = Some bs → Forall (λ c, ∃ v, hex_value c = Some v) l.
Proof.
  induction n as [|n IH]; intros [|a [|b l]] bs Hl H; cbn [length] in Hl; try lia; [constructor|]. cbn [hex_decode] in H.
  destruct (hex_value a) as [va|] eqn:Ha; [|done]. destruct (hex_value b) as [vb|] eqn:Hb; [|done]. cbn [mbind option_bind] in H.
  destruct (hex_decode l) as [r|] eqn:Hr; [|done]. constructor; [by eauto|]. constructor; [by eauto|]. apply (IH l r); [lia|done].
Qed.

Lemma map_id_iff {A} (f : A → A) (l : list A) : map f l = l ↔ Forall (λ x, f x = x) l.
Proof. induction l as [|x l IH]; cbn [map]; [done|]. rewrite Forall_cons, <-IH. split; [by intros [= -> ->]|by intros [-> ->]]. Qed.

(** [validDigest] is the pattern the other packages compile. *)
Lemma validDigest_pattern s : validDigest s = match_string digest_pattern s.
Proof.
  apply Bool.eq_iff_eq_true. rewrite match_string_spec. unfold validDigest. rewrite len_chars. change (len "sha256:" + 64) with 71.
  set (l := chars s). split.
  - destruct (negb _ || _) eqn:E; [done|]. breflect. destruct E as [Hlen Htake]. destruct (hex_decode (drop 7 l)) as [bs|] eqn:Hd; [|done].
    rewrite andb_true_iff, String.eqb_eq. intros [_ Hlow]. exists [chars "sha256:"; drop 7 l].
    assert (Hl : length (drop 7 l) = 64%nat) by (rewrite length_drop; lia). split.
    + constructor; [done|]. constructor; [|constructor]. cbn [item_ok exactly]. rewrite Hl. split; [lia|].
      apply (hex_decode_values 32) in Hd; [|lia]. rewrite forallb_Forall. apply (f_equal chars) in Hlow. rewrite chars_implode in Hlow. fold l in Hlow.
      symmetry in Hlow. rewrite map_id_iff in Hlow. apply (Forall_drop _ 7) in Hlow.
      apply Forall_forall. intros c Hc. rewrite Forall_forall in Hd, Hlow. apply hex_value_lower. auto.
    + cbn [concat]. rewrite app_nil_r. rewrite <-Htake. apply take_drop.
  - intros (ps & Hps & Hc). apply Forall2_cons_inv_l in Hps as (p1 & ps' & H1 & Hps & ->). apply Forall2_cons_inv_l in Hps as (p2 & ps'' & H2 & Hps & ->).
    apply Forall2_nil_inv_l in Hps as ->. cbn [item_ok exactly lit] in H1, H2. cbn [concat] in Hc. rewrite app_nil_r in Hc. subst p1.
    destruct H2 as [Hl2 Hlow]. rewrite forallb_Forall in Hlow. change (chars "sha256:" ++ p2 = l) in Hc. rewrite <-Hc.
    assert (Hd7 : drop 7 (chars "sha256:" ++ p2) = p2) by done. assert (Ht7 : take 7 (chars "sha256:" ++ p2) = chars "sha256:") by done.
    assert (Hall : Forall (λ c, (∃ v, hex_value c = Some v) ∧ to_lower_ascii c = c) p2)
      by (eapply Forall_impl; [exact Hlow|]; intros c; apply hex_value_lower).
    destruct (hex_decode_some 32 p2) as (bs & Hbs & Hn); [lia|eapply Forall_impl; [exact Hall|naive_solver]|].
    rewrite Hd7, Ht7, Hbs, Hn, bool_decide_eq_true_2 by done. rewrite length_app. replace (length p2) with 64%nat by lia. cbn [negb orb andb Nat.eqb].
    replace (map to_lower_ascii (chars "sha256:" ++ p2)) with l; [unfold l; rewrite implode_chars, String.eqb_refl; done|].
    rewrite map_app, (proj2 (map_id_iff _ p2)) by (eapply Forall_impl; [exact Hall|naive_solver]). by rewrite <-Hc.
Qed.

Lemma validDigest_digest s : validDigest (digest s) = true.
Proof. rewrite validDigest_pattern. apply digest_matches. Qed.

(** ** Lists of texts *)

Lemma parse_ordered_texts {A} (parse : string → option A) cmp values : ∀ previous xs,
  parse_ordered parse cmp previous values = Some xs → Forall2 (λ text x, parse text = Some x) values xs.
Proof.
  induction values as [|text values IH]; intros previous xs H; cbn [parse_ordered] in H; [by injection H as <-|].
  destruct (parse text) as [x|] eqn:Ex; [|done]. cbn [mbind option_bind] in H. destruct (out_of_order _ _ _); [done|].
  destruct (parse_ordered _ _ _ values) as [ys|] eqn:Ey; [|done]. injection H as <-. constructor; [done|]. by eapply IH.
Qed.

Lemma Forall2_image {A B} (f : A → option B) l k y : Forall2 (λ x y, f x = Some y) l k → y ∈ k ↔ ∃ x, x ∈ l ∧ f x = Some y.
Proof.
  induction 1 as [|x z l k Hx _ IH]; [split; [by intros ?%elem_of_nil|by intros (x & ?%elem_of_nil & _)]|].
  rewrite elem_of_cons, IH. split.
  - intros [->|(x' & ? & ?)]; [exists x; by rewrite elem_of_cons; auto|exists x'; rewrite elem_of_cons; by auto].
  - intros (x' & [->|?]%elem_of_cons & Hx'); [left; congruence|right; by eauto].
Qed.

Lemma parseOrderedPrefixes_elem values ps p : parseOrderedPrefixes values = Some ps →
  p ∈ ps ↔ prefix4_string p ∈ values ∧ prefix_ok p.
Proof.
  unfold parseOrderedPrefixes. destruct (256 <? _); [done|]. intros H%parse_ordered_texts. rewrite (Forall2_image _ _ _ _ H).
  split; [intros (t & Ht & [<- ?]%parseCanonicalIPv4Prefix_iff); done|]. intros [Ht Hp]. exists (prefix4_string p). split; [done|].
  by apply parseCanonicalIPv4Prefix_iff.
Qed.

Lemma parseOrderedAddresses_elem values xs a : parseOrderedAddresses values = Some xs →
  a ∈ xs ↔ addr4_string a ∈ values ∧ addr4_ok a = true.
Proof.
  unfold parseOrderedAddresses. destruct (64 <? _); [done|]. intros H%parse_ordered_texts. rewrite (Forall2_image _ _ _ _ H).
  split; [intros (t & Ht & [<- ?]%parseCanonicalIPv4_iff); done|]. intros [Ht Hp]. exists (addr4_string a). split; [done|].
  by apply parseCanonicalIPv4_iff.
Qed.

(** ** Runtime addresses *)

Lemma foldl_none {A B} (f : option A → B → option A) l : (∀ x, f None x = None) → foldl f None l = None.
Proof. intros Hf. induction l as [|x l IH]; cbn [foldl]; [done|]. by rewrite Hf. Qed.

Lemma add_addresses_lookup reason xs : ∀ runtime runtime', foldl (add_address reason) (Some runtime) xs = Some runtime' →
  ∀ a r, runtime' !! a = Some r ↔ runtime !! a = Some r ∨ a ∈ xs ∧ r = reason.
Proof.
  induction xs as [|x xs IH]; intros runtime runtime' H a r; cbn [foldl] in H; [injection H as <-; split; [by left|by intros [?|[?%elem_of_nil _]]]|].
  cbn [add_address mbind option_bind] in H. destruct (runtime !! x) as [r0|] eqn:Ex; [by rewrite (foldl_none (add_address reason)) in H|].
  rewrite (IH _ _ H a r), elem_of_cons. destruct (decide (a = x)) as [->|Hne].
  - rewrite lookup_insert_eq, Ex. naive_solver.
  - rewrite lookup_insert_ne by done. naive_solver.
Qed.

Lemma runtime_lookup_gen cats : ∀ runtime runtime', foldl add_category (Some runtime) cats = Some runtime' →
  ∀ a r, runtime' !! a = Some r ↔ runtime !! a = Some r ∨ ∃ values, (values, r) ∈ cats ∧ addr4_string a ∈ values ∧ addr4_ok a = true.
Proof.
  induction cats as [|[values reason] cats IH]; intros runtime runtime' H a r; cbn [foldl] in H.
  - injection H as <-. split; [by left|]. by intros [?|(? & ?%elem_of_nil & _)].
  - cbn [add_category mbind option_bind fst snd] in H. destruct (parseOrderedAddresses values) as [xs|] eqn:Ex; [|by rewrite (foldl_none add_category) in H].
    cbn [mbind option_bind] in H. destruct (foldl (add_address reason) (Some runtime) xs) as [rt|] eqn:Er; [|by rewrite (foldl_none add_category) in H].
    rewrite (IH _ _ H a r), (add_addresses_lookup _ _ _ _ Er a r), (parseOrderedAddresses_elem _ _ a Ex). split.
    + intros [[?|[[? ?] ->]]|(vs & Hin & ?)]; [by left|right; exists values; rewrite elem_of_cons; by auto|right; exists vs; rewrite elem_of_cons; by auto].
    + intros [?|(vs & [[= -> ->]|Hin]%elem_of_cons & ?)]; [by auto|by auto|right; by eauto].
Qed.

(** The runtime map is the categories. *)
Lemma runtime_lookup config runtime : runtime_addresses config = Some runtime →
  ∀ a r, runtime !! a = Some r ↔ ∃ values, (values, r) ∈ categoryInputs config ∧ addr4_string a ∈ values ∧ addr4_ok a = true.
Proof. intros H a r. rewrite (runtime_lookup_gen _ _ _ H a r), lookup_empty. naive_solver. Qed.

(** ** The demonstration exception *)

Definition demo_exception (config : ProtectedConfig) : Prop :=
  dm_Profile (pc_Demo config) = DemoExceptionIsolatedRFC5737
  ∧ (pc_Environment config = EnvironmentDemo ∨ pc_Environment config = EnvironmentTest)
  ∧ dm_AllowRFC5737 (pc_Demo config) = true ∧ dm_IsolationVerified (pc_Demo config) = true ∧ dm_HostRulesetUnchanged (pc_Demo config) = true
  ∧ ∃ client attack, dm_ClientCIDR (pc_Demo config) = prefix4_string client ∧ dm_AttackSourceIPv4 (pc_Demo config) = addr4_string attack
    ∧ prefix4_string client ∈ rfc5737CIDRs ∧ covers client attack.

Lemma demo_endpoints_spec config client attack : demo_endpoints config = Some (Some client, Some attack) →
  dm_ClientCIDR config = prefix4_string client ∧ dm_AttackSourceIPv4 config = addr4_string attack
  ∧ prefix4_string client ∈ rfc5737CIDRs ∧ covers client attack.
Proof.
  unfold demo_endpoints. destruct (negb _ || _); [|done]. destruct (parseCanonicalIPv4Prefix _) as [p|] eqn:Ep; [|done]. cbn [mbind option_bind].
  destruct (isRFC5737Prefix p) eqn:Er; [|done]. cbn [negb]. destruct (parseCanonicalIPv4 _) as [a|] eqn:Ea; [|done]. cbn [mbind option_bind].
  destruct (prefix_contains p a) eqn:Ec; [|done]. intros [= <- <-]. apply parseCanonicalIPv4Prefix_iff in Ep as [<- Hp]. apply parseCanonicalIPv4_iff in Ea as [<- Ha].
  split_and!; [done..| |by apply prefix_contains_covers]. unfold isRFC5737Prefix in Er. apply existsb_exists in Er as (t & Ht%list_elem_of_In & <-%String.eqb_eq). done.
Qed.

Lemma validateDemoConfig_active config active client attack :
  validateDemoConfig (pc_Environment config) (pc_Demo config) = Some (active, client, attack) → active = true ↔ demo_exception config.
Proof.
  unfold validateDemoConfig. destruct (demo_endpoints _) as [[c a]|] eqn:E; [|done]. cbn [mbind option_bind].
  unfold demo_exception. intros H. destruct (String.eqb_spec (dm_Profile (pc_Demo config)) DemoExceptionDisabled) as [Hp|Hp].
  - destruct (_ || _); [done|]. injection H as <- _ _. rewrite Hp. split; [done|]. by intros [? _].
  - destruct (String.eqb_spec (dm_Profile (pc_Demo config)) DemoExceptionIsolatedRFC5737) as [Hp'|]; [|done].
    destruct (_ && _) eqn:Ee; [done|]. destruct (_ || _ || _ || _ || _) eqn:Ef in H; [done|]. injection H as <- _ _. split; [intros _|done].
    breflect. destruct Ef as [[[[? ?] ?] [c' ->]] [a' ->]]. apply demo_endpoints_spec in E as (? & ? & ? & ?).
    split_and!; try done. by eauto 10.
Qed.

(** ** Matching *)

Lemma match_cidrs_spec demo entry target cidrs : ∀ applied,
  match match_cidrs demo entry target cidrs applied with
  | inl p => p ∈ cidrs ∧ prefix_contains p target = true ∧ (pe_demoExceptionAllowed entry && demo) = false
  | inr b => (∀ p, p ∈ cidrs → prefix_contains p target = true → (pe_demoExceptionAllowed entry && demo) = true)
             ∧ (b = true ↔ applied = true ∨ ∃ p, p ∈ cidrs ∧ prefix_contains p target = true)
  end.
Proof.
  induction cidrs as [|p cidrs IH]; intros applied; cbn [match_cidrs].
  - split; [by intros p ?%elem_of_nil|]. split; [by left|]. by intros [?|(p & ?%elem_of_nil & _)].
  - destruct (prefix_contains p target) eqn:Ep; cbn [negb].
    + destruct (pe_demoExceptionAllowed entry && demo) eqn:Ed.
      * specialize (IH true). destruct (match_cidrs _ _ _ cidrs true) as [q|b]; [naive_solver|]. destruct IH as [IH1 IH2]. split; [done|].
        rewrite IH2. split; [intros _; right; exists p; rewrite elem_of_cons; by auto|by auto].
      * rewrite elem_of_cons. by auto.
    + specialize (IH applied). destruct (match_cidrs _ _ _ cidrs applied) as [q|b]; [rewrite elem_of_cons; naive_solver|]. destruct IH as [IH1 IH2]. split.
      * intros q [->|?]%elem_of_cons ?; [congruence|by eapply IH1].
      * rewrite IH2. split; intros [?|(q & Hq & ?)]; [by auto|right; exists q; rewrite elem_of_cons; by auto|by auto|].
        apply elem_of_cons in Hq as [->|?]; [congruence|right; by eauto].
Qed.

Lemma match_entries_spec demo target entries : ∀ applied,
  match match_entries demo target entries applied with
  | inl (entry, p) => entry ∈ entries ∧ p ∈ pe_cidrs entry ∧ prefix_contains p target = true ∧ (pe_demoExceptionAllowed entry && demo) = false
  | inr b => (∀ entry p, entry ∈ entries → p ∈ pe_cidrs entry → prefix_contains p target = true → (pe_demoExceptionAllowed entry && demo) = true)
             ∧ (b = true ↔ applied = true ∨ ∃ entry p, entry ∈ entries ∧ p ∈ pe_cidrs entry ∧ prefix_contains p target = true)
  end.
Proof.
  induction entries as [|entry entries IH]; intros applied; cbn [match_entries].
  - split; [by intros entry p ?%elem_of_nil|]. split; [by left|]. by intros [?|(e & p & ?%elem_of_nil & _)].
  - pose proof (match_cidrs_spec demo entry target (pe_cidrs entry) applied) as Hc.
    destruct (match_cidrs _ _ _ _ applied) as [q|b]; [rewrite elem_of_cons; by auto|]. destruct Hc as [Hc1 Hc2].
    specialize (IH b). destruct (match_entries _ _ entries b) as [[e q]|b']; [rewrite elem_of_cons; naive_solver|]. destruct IH as [IH1 IH2]. split.
    + intros e p [->|?]%elem_of_cons; [by apply Hc1|by eapply IH1].
    + rewrite IH2, Hc2. split.
      * intros [[?|(p & ? & ?)]|(e & p & ? & ?)]; [by auto|right; exists entry, p; rewrite elem_of_cons; by auto|right; exists e, p; rewrite elem_of_cons; by auto].
      * intros [?|(e & p & [->|?]%elem_of_cons & ? & ?)]; [by auto|left; right; by eauto|right; by eauto].
Qed.

(** ** The gate *)

(** What [NewProtectedGate] puts together. *)
Lemma NewProtectedGate_parts contract config g : NewProtectedGate contract config = Ok g →
  pg_contract g = contract ∧ parseOrderedPrefixes (pc_ProtectedCIDRs config) = Some (pg_additions g)
  ∧ runtime_addresses config = Some (pg_runtime g) ∧ (pg_demoActive g = true ↔ demo_exception config).
Proof.
  unfold NewProtectedGate. destruct (_ || _); [done|]. destruct (negb _); [done|].
  destruct (parseOrderedPrefixes _) as [additions|]; [|done]. destruct (runtime_addresses _) as [runtime|]; [|done].
  destruct (64 <? _); [done|]. destruct (validateDemoConfig _ _) as [[[demo client] attack]|] eqn:Ed; [|done].
  destruct (canonicalJSON _) as [canonical|]; [|done]. intros [= <-]. cbn [pg_contract pg_additions pg_runtime pg_demoActive].
  split_and!; [done..|]. by apply validateDemoConfig_active in Ed.
Qed.

(** The prefixes of a contract are masked IPv4 prefixes. *)
Definition contract_ok (c : ProtectedContract) : Prop := Forall (λ e, Forall prefix_ok (pe_cidrs e)) (ct_entries c).

(** The preceding gate passed, for this very target. *)
Definition consistency_for (input : ProtectedInput) : Prop :=
  let c := pi_Consistency input in
  cr_Status c = ConsistencyPassed ∧ cr_TargetIPv4 c = pi_TargetIPv4 input
  ∧ match_string digest_pattern (cr_PolicyDigest c) = true ∧ match_string digest_pattern (cr_CanonicalCommandDigest c) = true.

(** Nothing the configuration or the contract names protects the address. *)
Record unprotected (contract : ProtectedContract) (config : ProtectedConfig) (a : addr4) : Prop := {
  free_runtime : ∀ values reason, (values, reason) ∈ categoryInputs config → addr4_string a ∉ values;
  free_configured : ∀ p, prefix_ok p → prefix4_string p ∈ pc_ProtectedCIDRs config → ¬ covers p a;
  free_built_in : ∀ entry p, entry ∈ ct_entries contract → p ∈ pe_cidrs entry → covers p a →
    pe_demoExceptionAllowed entry = true ∧ demo_exception config
}.

Lemma contract_prefix c entry p : contract_ok c → entry ∈ ct_entries c → p ∈ pe_cidrs entry → prefix_ok p.
Proof. unfold contract_ok. rewrite Forall_forall. intros H He Hp. specialize (H _ He). rewrite Forall_forall in H. auto. Qed.

(** What is left to check when no runtime address and no configured network matches. *)
Lemma unprotected_iff contract config g a : contract_ok contract → NewProtectedGate contract config = Ok g → addr4_ok a = true →
  unprotected contract config a ↔
  pg_runtime g !! a = None ∧ List.find (λ prefix, prefix_contains prefix a) (pg_additions g) = None
  ∧ ∀ entry p, entry ∈ ct_entries contract → p ∈ pe_cidrs entry → prefix_contains p a = true → (pe_demoExceptionAllowed entry && pg_demoActive g) = true.
Proof.
  intros Hct Hg Ha. destruct (NewProtectedGate_parts _ _ _ Hg) as (_ & Hadd & Hrun & Hdemo). split.
  - intros [H1 H2 H3]. split_and!.
    + destruct (pg_runtime g !! a) as [r|] eqn:Er; [|done]. apply (runtime_lookup _ _ Hrun) in Er as (vs & Hvs & Hin & _). by apply H1 in Hvs.
    + destruct (List.find _ _) as [p|] eqn:Ef; [|done]. apply List.find_some in Ef as [Hp%list_elem_of_In Hc].
      apply (parseOrderedPrefixes_elem _ _ p Hadd) in Hp as [Hp Hok]. apply prefix_contains_covers in Hc; [|done]. by destruct (H2 p).
    + intros entry p He Hp Hc. apply prefix_contains_covers in Hc; [|by eapply contract_prefix].
      destruct (H3 _ _ He Hp Hc) as [-> Hd]. by apply Hdemo in Hd as ->.
  - intros (H1 & H2 & H3). split.
    + intros values reason Hc Hin. assert (pg_runtime g !! a = Some reason) by (apply (runtime_lookup _ _ Hrun); by eauto). congruence.
    + intros p Hp Hin Hc. assert (Hpa : In p (pg_additions g)) by (apply list_elem_of_In, (parseOrderedPrefixes_elem _ _ p Hadd); done).
      apply (List.find_none _ _ H2 p) in Hpa. apply prefix_contains_covers in Hc; congruence.
    + intros entry p He Hp Hc. apply prefix_contains_covers in Hc; [|by eapply contract_prefix]. specialize (H3 _ _ He Hp Hc).
      apply andb_prop in H3 as [? ?]. by rewrite <-Hdemo.
Qed.

Lemma Check_allowed contract config g input : contract_ok contract → NewProtectedGate contract config = Ok g →
  Allowed (Check (Some g) input) = true ↔
  consistency_for input ∧ ∃ a, addr4_ok a = true ∧ pi_TargetIPv4 input = addr4_string a ∧ is_global_unicast a = true ∧ unprotected contract config a.
Proof.
  intros Hct Hg. destruct (NewProtectedGate_parts _ _ _ Hg) as (Hcon & _). unfold Check, consistency_for. rewrite !validDigest_pattern.
  destruct (_ || _) eqn:E; [split; [done|]; intros ((H1 & H2 & H3 & H4) & _); exfalso; by rewrite H1, H2, H3, H4, !String.eqb_refl in E|].
  breflect. destruct E as [[[H1 H2] H3] H4]. destruct (parseCanonicalIPv4 (pi_TargetIPv4 input)) as [a|] eqn:Ea; cbn [Allowed pr_Decision].
  2:{ split; [done|]. intros (_ & a & Ha & Ht & _). rewrite (proj2 (parseCanonicalIPv4_iff _ a)) in Ea; done. }
  apply parseCanonicalIPv4_iff in Ea as [Ht Ha].
  trans (is_global_unicast a = true ∧ unprotected contract config a).
  2:{ split; [intros [? ?]; split; [done|]; by exists a|]. intros (_ & b & Hb & Hbt & ? & ?).
      assert (b = a) as -> by (apply addr4_string_inj; congruence). done. }
  rewrite (unprotected_iff contract config g a) by done.
  destruct (is_global_unicast a) eqn:Eu; cbn [negb Allowed pr_Decision]; [|naive_solver].
  destruct (pg_runtime g !! a) as [r|] eqn:Er; cbn [Allowed pr_Decision]; [naive_solver|].
  destruct (List.find _ _) as [p|] eqn:Ef; cbn [Allowed pr_Decision]; [naive_solver|].
  pose proof (match_entries_spec (pg_demoActive g) a (ct_entries (pg_contract g)) false) as Hm. rewrite Hcon in *.
  destruct (match_entries _ _ _ false) as [[entry p]|b].
  - cbn [Allowed pr_Decision]. split; [done|]. intros (_ & _ & _ & Hall). destruct Hm as (He & Hp & Hc & Hno). rewrite (Hall _ _ He Hp Hc) in Hno. done.
  - destruct Hm as [Hm _]. destruct b; cbn [Allowed pr_Decision]; naive_solver.
Qed.

(** ** What an accepted contract is *)

(** A name with the single network the exception allows it. *)
Definition exception_entry (e : string * string) : string * list string := (e.1, [e.2]).
Definition entry_texts (e : protectedEntry) : string * list string := (pe_id e, prefix4_string <$> pe_cidrs e).
Definition excepted (entries : list protectedEntry) : list protectedEntry := List.filter pe_demoExceptionAllowed entries.

Record contract_shape (entries : list protectedEntry) : Prop := {
  shape_names : NoDup (pe_id <$> entries);
  shape_prefixes : NoDup (concat (pe_cidrs <$> entries));
  shape_valid : Forall (λ e, Forall prefix_ok (pe_cidrs e) ∧ (1 ≤ length (pe_cidrs e) ≤ 2)%nat) entries;
  shape_exceptions : Forall (λ e, entry_texts e ∈ exception_entry <$> expectedExceptions) (excepted entries)
}.

Lemma scan_cidrs_spec texts : ∀ seen parsed seen' parsed', scan_cidrs texts seen parsed = Some (seen', parsed') →
  ∃ ps, parsed' = parsed ++ ps ∧ prefix4_string <$> ps = texts ∧ Forall prefix_ok ps ∧ NoDup ps
    ∧ (∀ p, p ∈ ps → p ∉ seen) ∧ (∀ p, p ∈ seen' ↔ p ∈ ps ∨ p ∈ seen).
Proof.
  induction texts as [|text texts IH]; intros seen parsed seen' parsed' H; cbn [scan_cidrs] in H.
  - injection H as <- <-. exists []. rewrite app_nil_r. split_and!; [done|done|constructor|constructor|by intros p ?%elem_of_nil|].
    intros p. split; [by right|]. by intros [?%elem_of_nil|?].
  - destruct (parseCanonicalIPv4Prefix text) as [p|] eqn:Ep; [|done]. cbn [mbind option_bind] in H. case_bool_decide as Hs; [done|].
    apply parseCanonicalIPv4Prefix_iff in Ep as [<- Hp]. apply IH in H as (ps & -> & <- & Hok & Hnd & Hnew & Hseen).
    exists (p :: ps). rewrite <-app_assoc. split_and!; [done|done|by constructor| | |].
    + constructor; [|done]. intros Hin. apply (Hnew p Hin), elem_of_cons. by left.
    + intros q [->|Hq]%elem_of_cons; [done|]. intros Hin. apply (Hnew q Hq), elem_of_cons. by right.
    + intros q. rewrite Hseen, !elem_of_cons. tauto.
Qed.

Record scan_inv (n : nat) (st : contract_scan) : Prop := {
  inv_shape : contract_shape (cs_entries st);
  inv_length : length (cs_entries st) = n;
  inv_names : ∀ i, i ∈ cs_seenEntries st ↔ i ∈ pe_id <$> cs_entries st;
  inv_cidrs : ∀ p, p ∈ cs_seenCIDRs st ↔ p ∈ concat (pe_cidrs <$> cs_entries st);
  inv_count : cs_exceptionCount st = Z.of_nat (length (excepted (cs_entries st)))
}.

Lemma concat_snoc {A} (ls : list (list A)) l : concat (ls ++ [l]) = concat ls ++ l.
Proof. rewrite concat_app. cbn [concat]. by rewrite app_nil_r. Qed.

Lemma find_exception name cidr : snd <$> List.find (λ e, String.eqb e.1 name) expectedExceptions = Some cidr → (name, cidr) ∈ expectedExceptions.
Proof.
  destruct (List.find _ _) as [[n c]|] eqn:E; [|done]. intros [= <-]. apply List.find_some in E as [Hin%list_elem_of_In Hn%String.eqb_eq].
  cbn [fst snd] in *. by subst n.
Qed.

(** One more entry keeps the invariant. *)
Lemma scan_inv_snoc n st seen count name cidrs demo :
  scan_inv n st → name ∉ cs_seenEntries st → Forall prefix_ok cidrs → (1 ≤ length cidrs ≤ 2)%nat → NoDup cidrs →
  (∀ p, p ∈ cidrs → p ∉ cs_seenCIDRs st) → (∀ p, p ∈ seen ↔ p ∈ cidrs ∨ p ∈ cs_seenCIDRs st) →
  (demo = true → (name, prefix4_string <$> cidrs) ∈ exception_entry <$> expectedExceptions) →
  count = (if demo then cs_exceptionCount st + 1 else cs_exceptionCount st) →
  scan_inv (S n) (MkContractScan (name :: cs_seenEntries st) seen (cs_entries st ++ [MkProtectedEntry name cidrs demo]) count).
Proof.
  intros [[Hn Hp Hv He] Hlen Hnames Hcidrs Hcount] Hname Hok Hl Hnd Hnew Hseen Hdemo ->.
  assert (Hnin : name ∉ pe_id <$> cs_entries st) by (by rewrite <-Hnames).
  assert (Hexc : excepted (cs_entries st ++ [MkProtectedEntry name cidrs demo]) = excepted (cs_entries st) ++ (if demo then [MkProtectedEntry name cidrs demo] else []))
    by (unfold excepted; rewrite List.filter_app; by destruct demo).
  split; cbn [cs_entries cs_seenEntries cs_seenCIDRs cs_exceptionCount]; [split| | | |].
  - rewrite fmap_app. apply NoDup_app. split_and!; [done| |apply NoDup_singleton]. intros x Hx ->%list_elem_of_singleton. done.
  - rewrite fmap_app. cbn [fmap list_fmap pe_cidrs]. rewrite concat_snoc. apply NoDup_app. split_and!; [done| |done].
    intros p Hp1 Hp2. apply (Hnew p Hp2). by apply Hcidrs.
  - apply Forall_app. split; [done|]. by apply Forall_singleton.
  - rewrite Hexc. apply Forall_app. split; [done|]. destruct demo; [|constructor]. apply Forall_singleton. by apply Hdemo.
  - rewrite length_app, Hlen. cbn. lia.
  - intros i. rewrite elem_of_cons, Hnames, fmap_app, elem_of_app. cbn [fmap list_fmap pe_id]. rewrite list_elem_of_singleton. tauto.
  - intros p. rewrite Hseen, Hcidrs, fmap_app. cbn [fmap list_fmap pe_cidrs]. rewrite concat_snoc, elem_of_app. tauto.
  - rewrite Hexc, length_app, Hcount. destruct demo; cbn [length]; lia.
Qed.

Lemma scan_entry_inv n st entry st' : scan_inv n st → scan_entry st entry = Some st' → scan_inv (S n) st'.
Proof.
  intros Hinv. unfold scan_entry. destruct (_ || _) eqn:E; [done|]. case_bool_decide as Hname; [done|].
  destruct (scan_cidrs _ _ _) as [[seen parsed]|] eqn:Es; [|done]. cbn [mbind option_bind]. breflect.
  apply scan_cidrs_spec in Es as (ps & -> & Htexts & Hok & Hnd & Hnew & Hseen). cbn [app].
  assert (Hlen : (1 ≤ length ps ≤ 2)%nat).
  { rewrite <-(length_fmap prefix4_string), Htexts. destruct E as [[[[[[[_ ?] ?] _] _] _] _] _]. lia. }
  set (expected := snd <$> _). destruct (ed_DemoExceptionAllowed entry) eqn:Ed.
  - destruct expected as [cidr|] eqn:Ex; [|done]. case_bool_decide as Hc; [|done]. intros [= <-].
    apply (scan_inv_snoc n st seen _ (ed_EntryID entry) ps true); try done. intros _. rewrite Htexts, Hc.
    apply list_elem_of_fmap. exists (ed_EntryID entry, cidr). split; [done|]. by apply find_exception.
  - destruct expected as [|]; [done|]. intros [= <-]. by apply (scan_inv_snoc n st seen _ (ed_EntryID entry) ps false).
Qed.

Lemma scan_entries_inv entries st : scan_entries entries = Some st → scan_inv (length entries) st.
Proof.
  unfold scan_entries. assert (H0 : scan_inv 0 (MkContractScan [] [] [] 0)).
  { split; [split| | | |]; cbn; [constructor..|done| |done|done]. intros i. done. }
  change (length entries) with (0 + length entries)%nat. revert H0. generalize 0%nat, (MkContractScan [] [] [] 0).
  induction entries as [|e entries IH]; intros n st0 H0 H; cbn [foldl length] in *; [injection H as <-; by rewrite Nat.add_0_r|].
  cbn [mbind option_bind] in H. destruct (scan_entry st0 e) as [st1|] eqn:E; [|by rewrite foldl_none in H].
  rewrite Nat.add_succ_r, <-Nat.add_succ_l. eapply IH; [|exact H]. by eapply scan_entry_inv.
Qed.

(** The excepted entries of an accepted contract are the three documentation networks. *)
Lemma exceptions_exact entries : contract_shape entries → length (excepted entries) = length expectedExceptions →
  entry_texts <$> excepted entries ≡ₚ exception_entry <$> expectedExceptions.
Proof.
  intros [Hn _ _ He] Hlen. apply submseteq_length_Permutation; [|by rewrite !length_fmap, Hlen]. apply NoDup_submseteq.
  - apply (NoDup_fmap_1 fst). rewrite <-list_fmap_compose. change (fst ∘ entry_texts) with pe_id.
    eapply sublist_NoDup; [exact Hn|]. clear. unfold excepted.
    induction entries as [|e entries IH]; cbn [List.filter]; [done|]. destruct (pe_demoExceptionAllowed e); by constructor.
  - intros x (e & -> & Hin)%list_elem_of_fmap. rewrite Forall_forall in He. by apply He.
Qed.

(** Every step of [ParseProtectedContract]. *)
Record accepted_contract (raw : string) (c : ProtectedContract) : Prop := {
  acc_digest : ct_digest c = PinnedProtectedIPv4Digest;
  acc_canonical : ∃ canonical, canonicalJSON raw = Some canonical ∧ digest canonical = PinnedProtectedIPv4Digest;
  acc_raw : ct_rawDigest c = digest raw;
  acc_count : length (ct_entries c) = 26%nat;
  acc_shape : contract_shape (ct_entries c);
  acc_exceptions : entry_texts <$> excepted (ct_entries c) ≡ₚ exception_entry <$> expectedExceptions
}.

Lemma ParseProtectedContract_accepted raw expected c : ParseProtectedContract raw expected = Ok c → accepted_contract raw c.
Proof.
  unfold ParseProtectedContract. destruct (_ || _); [done|]. destruct (strictJSON _ raw) as [v|]; [|done].
  destruct (canonicalJSON raw) as [canonical|] eqn:Ec; [|done]. cbv zeta. destruct (_ || _) eqn:Ed; [done|]. breflect. destruct Ed as [-> Hd].
  destruct (decode_contract_document v _) as [document|]; [|done]. destruct (contract_header_ok document) eqn:Eh; [|done]. cbn [negb].
  destruct (scan_entries _) as [st|] eqn:Es; [|done]. destruct (cs_exceptionCount st =? _) eqn:En; [|done]. cbn [negb]. intros H.
  apply (f_equal (from_ok c)) in H. cbn [from_ok] in H. subst c. destruct (scan_entries_inv _ _ Es) as [Hshape Hlen _ _ Hcount].
  unfold contract_header_ok in Eh. rewrite !andb_true_iff, !Z.eqb_eq in *.
  split; cbn [ct_digest ct_rawDigest ct_entries]; [done|by exists canonical|done|lia|done|]. apply exceptions_exact; [done|lia].
Qed.

Lemma accepted_contract_ok raw c : accepted_contract raw c → contract_ok c.
Proof. intros [_ _ _ _ [_ _ Hv _] _]. unfold contract_ok. eapply Forall_impl; [exact Hv|]. by intros e [? _]. Qed.

(** An exception only ever uncovers a documentation network. *)
Lemma excepted_prefix raw c entry p : accepted_contract raw c → entry ∈ ct_entries c → pe_demoExceptionAllowed entry = true → p ∈ pe_cidrs entry →
  prefix4_string p ∈ rfc5737CIDRs.
Proof.
  intros Hacc He Hd Hp. assert (Hin : entry_texts entry ∈ exception_entry <$> expectedExceptions).
  { rewrite <-(acc_exceptions _ _ Hacc). apply list_elem_of_fmap. exists entry. split; [done|]. unfold excepted.
    apply list_elem_of_In, filter_In. split; [by apply list_elem_of_In|done]. }
  apply list_elem_of_fmap in Hin as ((name & cidr) & Heq & Hin). injection Heq as _ Hc.
  assert (prefix4_string p ∈ prefix4_string <$> pe_cidrs entry) as Hp' by (by apply list_elem_of_fmap_2). rewrite Hc in Hp'.
  apply list_elem_of_singleton in Hp'. rewrite Hp'. revert Hin. clear. unfold expectedExceptions, rfc5737CIDRs. set_solver.
Qed.

(** ** The effective configuration *)

(** Printed prefixes and addresses need no escape. *)
Lemma prefix_byte_plain l : forallb prefix_byte l = true → forallb json_plain l = true.
Proof. rewrite !forallb_Forall. intros H. eapply Forall_impl; [exact H|]. apply class_incl. by vm_compute. Qed.

Lemma tidy_strings l : Forall plain l → tidy (JArray (JString <$> l)).
Proof. intros H. cbn [tidy]. apply foldr_and_Forall, Forall_fmap. exact H. Qed.

Lemma canon_strings l : canon (JArray (JString <$> l)) = JArray (JString <$> l).
Proof. cbn [canon]. f_equal. induction l as [|x l IH]; [done|]. cbn [fmap list_fmap map canon] in *. by rewrite IH. Qed.

Lemma effective_tidy d configured runtime profile demo : plain d → plain profile → Forall plain configured → Forall plain runtime → Forall plain demo →
  tidy (effective_document d configured runtime profile demo).
Proof.
  intros Hd Hp Hc Hr Hm. pose proof (tidy_strings _ Hc). pose proof (tidy_strings _ Hr). pose proof (tidy_strings _ Hm).
  unfold effective_document. cbn [tidy foldr fst snd]. split_and!; done.
Qed.

Lemma effective_canon d configured runtime profile demo :
  canon (effective_document d configured runtime profile demo) = effective_document d configured runtime profile demo.
Proof.
  unfold effective_document. cbn [canon]. f_equal. cbn [map fst snd]. rewrite !canon_strings. cbn [canon].
  set (a := JArray _). set (b := JArray _). set (c := JArray _). unfold sorted_members.
  replace (sorted_unique _) with ["configured_protected_cidrs"; "demo_exception_cidrs"; "demo_exception_profile"; "runtime_protected_ipv4"; "schema_version"; "static_contract_digest"] by (by vm_compute).
  reflexivity.
Qed.

Lemma strings_inj (l k : list string) : JString <$> l = JString <$> k → l = k.
Proof. apply list_fmap_eq_inj. intros x y. by injection 1. Qed.

Lemma runtime_strings_perm runtime : runtime_strings runtime ≡ₚ addr4_string <$> (fst <$> map_to_list runtime).
Proof. apply sort_slice_perm. Qed.

Lemma additions_plain values ps : parseOrderedPrefixes values = Some ps → Forall plain (prefix4_string <$> ps).
Proof.
  intros H. apply Forall_fmap, Forall_forall. intros p Hp. apply (parseOrderedPrefixes_elem _ _ p H) in Hp as [_ (_ & Hb & _)].
  by apply prefix_byte_plain, prefix4_string_bytes.
Qed.

Lemma runtime_strings_plain runtime : Forall plain (runtime_strings runtime).
Proof.
  rewrite runtime_strings_perm. apply Forall_fmap, Forall_true. intros a. apply prefix_byte_plain, addr4_string_bytes.
Qed.

(** The canonical bytes of a gate read back as its effective configuration. *)
Lemma effective_reads contract config g : NewProtectedGate contract config = Ok g →
  parse_document (chars (pg_effectiveBytes g)) = Some (effective_document (ct_digest contract) (prefix4_string <$> pg_additions g) (runtime_strings (pg_runtime g))
    (if pg_demoActive g then DemoExceptionIsolatedRFC5737 else DemoExceptionDisabled) (if pg_demoActive g then rfc5737CIDRs else [])).
Proof.
  unfold NewProtectedGate. destruct (_ || _) eqn:E; [done|]. breflect. destruct E as [Hdig _]. destruct (negb _); [done|].
  destruct (parseOrderedPrefixes _) as [additions|] eqn:Ea; [|done]. destruct (runtime_addresses _) as [runtime|]; [|done].
  destruct (64 <? _); [done|]. destruct (validateDemoConfig _ _) as [[[demo client] attack]|]; [|done]. cbv zeta.
  destruct (canonicalJSON _) as [canonical|] eqn:Ec; [|done]. intros H. apply (f_equal (from_ok g)) in H. cbn [from_ok] in H. subst g.
  cbn [pg_effectiveBytes pg_additions pg_runtime pg_demoActive]. apply canonicalJSON_reads in Ec; [by rewrite effective_canon in Ec|].
  apply effective_tidy; [rewrite Hdig; by vm_compute|destruct demo; by vm_compute|by eapply additions_plain|apply runtime_strings_plain|].
  destruct demo; [|constructor]. by repeat constructor.
Qed.

Lemma runtime_ok config g contract a : NewProtectedGate contract config = Ok g → a ∈ fst <$> map_to_list (pg_runtime g) → addr4_ok a = true.
Proof.
  intros Hg Ha. destruct (NewProtectedGate_parts _ _ _ Hg) as (_ & _ & Hrun & _). apply list_elem_of_fmap in Ha as ([x r] & -> & Hin).
  apply elem_of_map_to_list, (runtime_lookup _ _ Hrun) in Hin as (_ & _ & _ & ?). done.
Qed.

Lemma fmap_inj_on {A B} (f : A → B) (P : A → Prop) l k : (∀ x y, P x → P y → f x = f y → x = y) → Forall P l → Forall P k → f <$> l = f <$> k → l = k.
Proof.
  intros Hf Hl. revert k. induction Hl as [|x l Hx _ IH]; intros [|y k] Hk Heq; try done. apply Forall_cons in Hk as [Hy Hk].
  injection Heq as H1 H2. f_equal; [by apply Hf|by apply IH].
Qed.

Lemma runtime_domain contract contract' config config' g g' a : NewProtectedGate contract config = Ok g → NewProtectedGate contract' config' = Ok g' →
  runtime_strings (pg_runtime g) = runtime_strings (pg_runtime g') → is_Some (pg_runtime g !! a) → is_Some (pg_runtime g' !! a).
Proof.
  intros Hg Hg' Heq [r Hr]. assert (Ha : a ∈ fst <$> map_to_list (pg_runtime g)).
  { apply list_elem_of_fmap. exists (a, r). split; [done|]. by apply elem_of_map_to_list. }
  assert (Hin : addr4_string a ∈ addr4_string <$> (fst <$> map_to_list (pg_runtime g'))).
  { rewrite <-runtime_strings_perm, <-Heq, runtime_strings_perm. by apply list_elem_of_fmap_2. }
  apply list_elem_of_fmap in Hin as (b & Hab & Hb). apply addr4_string_inj in Hab; [|exact (runtime_ok _ _ _ _ Hg Ha)|exact (runtime_ok _ _ _ _ Hg' Hb)]. subst b.
  apply list_elem_of_fmap in Hb as ([x r'] & -> & Hb). apply elem_of_map_to_list in Hb. by eexists.
Qed.

(** What the effective bytes say of a gate. *)
Lemma effective_parts contract config config' g g' : NewProtectedGate contract config = Ok g → NewProtectedGate contract config' = Ok g' →
  pg_effectiveBytes g = pg_effectiveBytes g' →
  pg_additions g = pg_additions g' ∧ pg_demoActive g = pg_demoActive g' ∧ (∀ a, pg_runtime g !! a = None ↔ pg_runtime g' !! a = None).
Proof.
  intros Hg Hg' Heq. pose proof (effective_reads _ _ _ Hg) as H. rewrite Heq, (effective_reads _ _ _ Hg') in H. injection H as Hc _ Hp Hr.
  apply strings_inj in Hc, Hr. destruct (NewProtectedGate_parts _ _ _ Hg) as (_ & Ha & _). destruct (NewProtectedGate_parts _ _ _ Hg') as (_ & Ha' & _).
  split_and!.
  - symmetry. revert Hc. apply (fmap_inj_on _ prefix_ok).
    + intros p q (? & ? & _) (? & ? & _). by apply prefix4_string_inj.
    + apply Forall_forall. intros p Hin. by apply (parseOrderedPrefixes_elem _ _ p Ha') in Hin as [_ ?].
    + apply Forall_forall. intros p Hin. by apply (parseOrderedPrefixes_elem _ _ p Ha) in Hin as [_ ?].
  - by destruct (pg_demoActive g), (pg_demoActive g').
  - intros a. rewrite !eq_None_not_Some. split; intros Hn Hs; apply Hn; [by eapply (runtime_domain _ _ _ _ g' g)|by eapply (runtime_domain _ _ _ _ g g')].
Qed.
