(* ===== verification/ProtectedShipped.v ===== *)
(** * The shipped contract ([contracts/enforcement/protected_ipv4_v1.json])

    The bytes of the registry the program is deployed with (a quote is written as an
    apostrophe), and that the loader accepts them with the pinned digest. *)

From S2P Require Import Prelude GoStrings Regex Sha256 Json JsonTree Netip NetPrefix CanonicalJson Protected ProtectedSpec.
Local Open Scope Z_scope.

Definition shipped_file : string := Eval vm_compute in qq
"{
  'schema_version': 'protected-ipv4-v1',
  'registry_source': 'IANA IPv4 Special-Purpose Address Space plus RFC 1112 multicast',
  'authoritative_registry_url': 'https://www.iana.org/assignments/iana-ipv4-special-registry/iana-ipv4-special-registry.xhtml',
  'registry_last_updated': '2025-10-09',
  'policy_version': 'sentinelflow-protected-ipv4-policy-v1',
  'configured_additions_only': true,
  'entries': [
    {
      'entry_id': 'this_network',
      'cidrs': [
        '0.0.0.0/8'
      ],
      'name': 'This network',
      'reference': 'RFC791 section 3.2',
      'source': 'iana-special-purpose',
      'production_protected': true,
      'demo_exception_allowed': false
    },
    {
      'entry_id': 'this_host',
      'cidrs': [
        '0.0.0.0/32'
      ],
      'name': 'This host on this network',
      'reference': 'RFC1122 section 3.2.1.3',
      'source': 'iana-special-purpose',
      'production_protected': true,
      'demo_exception_allowed': false
    },
    {
      'entry_id': 'private_10',
      'cidrs': [
        '10.0.0.0/8'
      ],
      'name': 'Private-Use',
      'reference': 'RFC1918',
      'source': 'iana-special-purpose',
      'production_protected': true,
      'demo_exception_allowed': false
    },
    {
      'entry_id': 'shared_address_space',
      'cidrs': [
        '100.64.0.0/10'
      ],
      'name': 'Shared Address Space',
      'reference': 'RFC6598',
      'source': 'iana-special-purpose',
      'production_protected': true,
      'demo_exception_allowed': false
    },
    {
      'entry_id': 'loopback',
      'cidrs': [
        '127.0.0.0/8'
      ],
      'name': 'Loopback',
      'reference': 'RFC1122 section 3.2.1.3',
      'source': 'iana-special-purpose',
      'production_protected': true,
      'demo_exception_allowed': false
    },
    {
      'entry_id': 'link_local',
      'cidrs': [
        '169.254.0.0/16'
      ],
      'name': 'Link Local',
      'reference': 'RFC3927',
      'source': 'iana-special-purpose',
      'production_protected': true,
      'demo_exception_allowed': false
    },
    {
      'entry_id': 'private_172',
      'cidrs': [
        '172.16.0.0/12'
      ],
      'name': 'Private-Use',
      'reference': 'RFC1918',
      'source': 'iana-special-purpose',
      'production_protected': true,
      'demo_exception_allowed': false
    },
    {
      'entry_id': 'ietf_protocol_assignments',
      'cidrs': [
        '192.0.0.0/24'
      ],
      'name': 'IETF Protocol Assignments',
      'reference': 'RFC6890 section 2.1',
      'source': 'iana-special-purpose',
      'production_protected': true,
      'demo_exception_allowed': false
    },
    {
      'entry_id': 'ipv4_service_continuity',
      'cidrs': [
        '192.0.0.0/29'
      ],
      'name': 'IPv4 Service Continuity Prefix',
      'reference': 'RFC7335',
      'source': 'iana-special-purpose',
      'production_protected': true,
      'demo_exception_allowed': false
    },
    {
      'entry_id': 'ipv4_dummy',
      'cidrs': [
        '192.0.0.8/32'
      ],
      'name': 'IPv4 dummy address',
      'reference': 'RFC7600',
      'source': 'iana-special-purpose',
      'production_protected': true,
      'demo_exception_allowed': false
    },
    {
      'entry_id': 'pcp_anycast',
      'cidrs': [
        '192.0.0.9/32'
      ],
      'name': 'Port Control Protocol Anycast',
      'reference': 'RFC7723',
      'source': 'iana-special-purpose',
      'production_protected': true,
      'demo_exception_allowed': false
    },
    {
      'entry_id': 'turn_anycast',
      'cidrs': [
        '192.0.0.10/32'
      ],
      'name': 'Traversal Using Relays around NAT Anycast',
      'reference': 'RFC8155',
      'source': 'iana-special-purpose',
      'production_protected': true,
      'demo_exception_allowed': false
    },
    {
      'entry_id': 'nat64_discovery',
      'cidrs': [
        '192.0.0.170/32',
        '192.0.0.171/32'
      ],
      'name': 'NAT64/DNS64 Discovery',
      'reference': 'RFC8880',
      'source': 'iana-special-purpose',
      'production_protected': true,
      'demo_exception_allowed': false
    },
    {
      'entry_id': 'test_net_1',
      'cidrs': [
        '192.0.2.0/24'
      ],
      'name': 'Documentation TEST-NET-1',
      'reference': 'RFC5737',
      'source': 'iana-special-purpose',
      'production_protected': true,
      'demo_exception_allowed': true
    },
    {
      'entry_id': 'as112_v4',
      'cidrs': [
        '192.31.196.0/24'
      ],
      'name': 'AS112-v4',
      'reference': 'RFC7535',
      'source': 'iana-special-purpose',
      'production_protected': true,
      'demo_exception_allowed': false
    },
    {
      'entry_id': 'amt',
      'cidrs': [
        '192.52.193.0/24'
      ],
      'name': 'Automatic Multicast Tunneling',
      'reference': 'RFC7450',
      'source': 'iana-special-purpose',
      'production_protected': true,
      'demo_exception_allowed': false
    },
    {
      'entry_id': 'deprecated_6to4_relay',
      'cidrs': [
        '192.88.99.0/24'
      ],
      'name': 'Deprecated 6to4 Relay Anycast',
      'reference': 'RFC7526',
      'source': 'iana-special-purpose',
      'production_protected': true,
      'demo_exception_allowed': false
    },
    {
      'entry_id': 'six_a_four_relay',
      'cidrs': [
        '192.88.99.2/32'
      ],
      'name': '6a44-relay anycast address',
      'reference': 'RFC6751',
      'source': 'iana-special-purpose',
      'production_protected': true,
      'demo_exception_allowed': false
    },
    {
      'entry_id': 'private_192',
      'cidrs': [
        '192.168.0.0/16'
      ],
      'name': 'Private-Use',
      'reference': 'RFC1918',
      'source': 'iana-special-purpose',
      'production_protected': true,
      'demo_exception_allowed': false
    },
    {
      'entry_id': 'direct_delegation_as112',
      'cidrs': [
        '192.175.48.0/24'
      ],
      'name': 'Direct Delegation AS112 Service',
      'reference': 'RFC7534',
      'source': 'iana-special-purpose',
      'production_protected': true,
      'demo_exception_allowed': false
    },
    {
      'entry_id': 'benchmarking',
      'cidrs': [
        '198.18.0.0/15'
      ],
      'name': 'Benchmarking',
      'reference': 'RFC2544',
      'source': 'iana-special-purpose',
      'production_protected': true,
      'demo_exception_allowed': false
    },
    {
      'entry_id': 'test_net_2',
      'cidrs': [
        '198.51.100.0/24'
      ],
      'name': 'Documentation TEST-NET-2',
      'reference': 'RFC5737',
      'source': 'iana-special-purpose',
      'production_protected': true,
      'demo_exception_allowed': true
    },
    {
      'entry_id': 'test_net_3',
      'cidrs': [
        '203.0.113.0/24'
      ],
      'name': 'Documentation TEST-NET-3',
      'reference': 'RFC5737',
      'source': 'iana-special-purpose',
      'production_protected': true,
      'demo_exception_allowed': true
    },
    {
      'entry_id': 'multicast',
      'cidrs': [
        '224.0.0.0/4'
      ],
      'name': 'IPv4 Multicast',
      'reference': 'RFC1112 section 4',
      'source': 'rfc1112-multicast',
      'production_protected': true,
      'demo_exception_allowed': false
    },
    {
      'entry_id': 'reserved',
      'cidrs': [
        '240.0.0.0/4'
      ],
      'name': 'Reserved',
      'reference': 'RFC1112 section 4',
      'source': 'iana-special-purpose',
      'production_protected': true,
      'demo_exception_allowed': false
    },
    {
      'entry_id': 'limited_broadcast',
      'cidrs': [
        '255.255.255.255/32'
      ],
      'name': 'Limited Broadcast',
      'reference': 'RFC8190',
      'source': 'iana-special-purpose',
      'production_protected': true,
      'demo_exception_allowed': false
    }
  ]
}
".

Definition shipped_document : json := Eval vm_compute in default JNull (parse_document (chars shipped_file)).

Lemma shipped_parses : parse_document (chars shipped_file) = Some shipped_document.
Proof. vm_cast_no_check (eq_refl (Some shipped_document)). Qed.

Definition shipped_canonical : string := Eval vm_compute in default "" (implode <$> appendCanonicalJSON shipped_document).

Lemma shipped_canonicalises : appendCanonicalJSON shipped_document = Some (chars shipped_canonical).
Proof. vm_cast_no_check (eq_refl (Some (chars shipped_canonical))). Qed.

Lemma shipped_digest : digest shipped_canonical = PinnedProtectedIPv4Digest.
Proof. vm_cast_no_check (eq_refl PinnedProtectedIPv4Digest). Qed.

Definition shipped_decoded : protectedContractDocument := Eval vm_compute in
  default zero_contract_document (decode_contract_document shipped_document zero_contract_document).

Lemma shipped_decodes : decode_contract_document shipped_document zero_contract_document = Some shipped_decoded.
Proof. vm_cast_no_check (eq_refl (Some shipped_decoded)). Qed.

Definition shipped_scan : contract_scan := Eval vm_compute in
  default (MkContractScan [] [] [] 0) (scan_entries (elements (cd_Entries shipped_decoded))).

Lemma shipped_scans : scan_entries (elements (cd_Entries shipped_decoded)) = Some shipped_scan.
Proof. vm_cast_no_check (eq_refl (Some shipped_scan)). Qed.

Definition shipped_contract : ProtectedContract :=
  MkProtectedContract (cs_entries shipped_scan) PinnedProtectedIPv4Digest (digest shipped_file).

Lemma shipped_strict : strictJSON MaxContractDepth shipped_file = Some shipped_document.
Proof. unfold strictJSON. rewrite shipped_parses. vm_cast_no_check (eq_refl (Some shipped_document)). Qed.

Lemma shipped_size : (len shipped_file =? 0) || (maxProtectedContractBytes <? len shipped_file) = false.
Proof. vm_compute. reflexivity. Qed.

Lemma shipped_accepted : ParseProtectedContract shipped_file PinnedProtectedIPv4Digest = Ok shipped_contract.
Proof.
  unfold ParseProtectedContract. rewrite shipped_size, shipped_strict. unfold canonicalJSON. rewrite shipped_parses. cbn [mbind option_bind].
  rewrite shipped_canonicalises. cbn [fmap option_fmap option_map]. rewrite implode_chars. cbv zeta. rewrite shipped_digest, String.eqb_refl.
  cbn [negb orb]. rewrite shipped_decodes. replace (contract_header_ok shipped_decoded) with true by (vm_cast_no_check (eq_refl true)). cbn [negb].
  rewrite shipped_scans. reflexivity.
Qed.

Lemma shipped_loads : LoadProtectedContractFile (Some shipped_file) = Ok shipped_contract.
Proof.
  unfold LoadProtectedContractFile. pose proof shipped_size as Hs. rewrite len_chars in Hs. apply orb_false_iff in Hs as [_ Hs%Z.ltb_ge].
  rewrite take_ge by (apply Nat2Z.inj_le; rewrite Z2Nat.id by done; lia). rewrite implode_chars. cbv zeta.
  rewrite (len_chars shipped_file), (proj2 (Z.ltb_ge _ _) Hs). apply shipped_accepted.
Qed.

(** ** A deployment *)

Definition sample_demo : DemoExceptionConfig :=
  MkDemoConfig DemoExceptionIsolatedRFC5737 true true true "203.0.113.0/24" "203.0.113.20".

Definition sample_config (cidrs gateway : list string) : ProtectedConfig :=
  MkProtectedConfig EnvironmentDemo cidrs ["9.9.9.9"] gateway [] ["1.1.1.1"; "1.1.1.2"] [] sample_demo.

Definition sample_gate (cidrs gateway : list string) : ProtectedGate :=
  from_ok (MkProtectedGate shipped_contract [] ∅ false "" "") (NewProtectedGate shipped_contract (sample_config cidrs gateway)).

Lemma from_ok_is_ok {E A} (d : A) (r : result E A) : is_ok r = true → r = Ok (from_ok d r).
Proof. by destruct r. Qed.

Lemma sample_gate_ok : NewProtectedGate shipped_contract (sample_config [] []) = Ok (sample_gate [] []).
Proof. apply from_ok_is_ok. vm_compute. reflexivity. Qed.

Lemma sample_wider_gate_ok :
  NewProtectedGate shipped_contract (sample_config ["8.8.8.0/24"] ["7.7.7.7"]) = Ok (sample_gate ["8.8.8.0/24"] ["7.7.7.7"]).
Proof. apply from_ok_is_ok. vm_compute. reflexivity. Qed.

Definition sample_consistency (target : string) : ConsistencyResult :=
  MkConsistencyResult ConsistencyPassed "none" target PinnedProtectedIPv4Digest PinnedProtectedIPv4Digest PinnedProtectedIPv4Digest "" "" "" "".

Definition sample_input (target : string) : ProtectedInput := MkProtectedInput target (sample_consistency target).

Lemma sample_allowed : Allowed (Check (Some (sample_gate ["8.8.8.0/24"] ["7.7.7.7"])) (sample_input "8.8.4.4")) = true.
Proof. vm_compute. reflexivity. Qed.

Lemma sample_demo_allowed : Allowed (Check (Some (sample_gate [] [])) (sample_input "203.0.113.20")) = true.
Proof. vm_compute. reflexivity. Qed.

(** ** The claims *)

(** A contract is accepted only when its canonical form has the pinned digest, and
    then it has 26 entries with distinct names and distinct, masked IPv4 prefixes (one
    or two each), and the entries the demonstration may except are exactly the three
    documentation networks. *)
Theorem accepted_contract_shape raw expected contract : ParseProtectedContract raw expected = Ok contract → accepted_contract raw contract.
Proof. apply ParseProtectedContract_accepted. Qed.

Lemma accepted_contract_shape_witness : accepted_contract shipped_file shipped_contract.
Proof. exact (accepted_contract_shape shipped_file PinnedProtectedIPv4Digest shipped_contract shipped_accepted). Defined.

(** C22. A gate lets a target through exactly when the consistency gate passed for that
    very target with valid digests, the target is the text of a global unicast
    address, it is none of the deployment's own addresses, no configured network
    covers it, and every built-in network that covers it may be excepted while the
    isolated demonstration is active. *)
Theorem protected_gate_exact raw expected contract config g input :
  ParseProtectedContract raw expected = Ok contract → NewProtectedGate contract config = Ok g →
  Allowed (Check (Some g) input) = true ↔
  consistency_for input
  ∧ ∃ a, addr4_ok a = true ∧ pi_TargetIPv4 input = addr4_string a ∧ is_global_unicast a = true ∧ unprotected contract config a.
Proof. intros Hc Hg. apply Check_allowed; [|done]. by eapply accepted_contract_ok, ParseProtectedContract_accepted. Qed.

Lemma protected_gate_exact_witness : unprotected shipped_contract (sample_config ["8.8.8.0/24"] ["7.7.7.7"]) (Addr4 8 8 4 4).
Proof.
  destruct (proj1 (protected_gate_exact shipped_file PinnedProtectedIPv4Digest shipped_contract (sample_config ["8.8.8.0/24"] ["7.7.7.7"])
    (sample_gate ["8.8.8.0/24"] ["7.7.7.7"]) (sample_input "8.8.4.4") shipped_accepted sample_wider_gate_ok) sample_allowed) as (_ & a & Ha & Ht & _ & Hf).
  replace (Addr4 8 8 4 4) with a; [exact Hf|]. apply addr4_string_inj; [exact Ha|reflexivity|symmetry; exact Ht].
Defined.

(** Adding networks or addresses to the configuration never lets a target through
    that was blocked before: the gate of the larger configuration allows no more. *)
Theorem configuration_only_adds raw expected contract config config' g g' input :
  ParseProtectedContract raw expected = Ok contract →
  NewProtectedGate contract config = Ok g → NewProtectedGate contract config' = Ok g' →
  pc_Environment config = pc_Environment config' → pc_Demo config = pc_Demo config' →
  pc_ProtectedCIDRs config ⊆ pc_ProtectedCIDRs config' →
  (∀ values reason text, (values, reason) ∈ categoryInputs config → text ∈ values →
    ∃ values' reason', (values', reason') ∈ categoryInputs config' ∧ text ∈ values') →
  Allowed (Check (Some g') input) = true → Allowed (Check (Some g) input) = true.
Proof.
  intros Hc Hg Hg' He Hd Hcidrs Hcats. pose proof (accepted_contract_ok _ _ (ParseProtectedContract_accepted _ _ _ Hc)) as Hok.
  rewrite (Check_allowed _ _ _ _ Hok Hg), (Check_allowed _ _ _ _ Hok Hg'). intros (Hi & a & Ha & Ht & Hu & [H1 H2 H3]). split; [done|].
  exists a. split_and!; [done..|]. split.
  - intros values reason Hin Hv. destruct (Hcats _ _ _ Hin Hv) as (vs & r & Hvs & Htext). by apply (H1 vs r).
  - intros p Hp Hin. apply H2; [done|]. by apply Hcidrs.
  - unfold demo_exception. rewrite He, Hd. exact H3.
Qed.

Lemma configuration_only_adds_witness : Allowed (Check (Some (sample_gate [] [])) (sample_input "8.8.4.4")) = true.
Proof.
  apply (configuration_only_adds shipped_file PinnedProtectedIPv4Digest shipped_contract (sample_config [] []) (sample_config ["8.8.8.0/24"] ["7.7.7.7"])
    (sample_gate [] []) (sample_gate ["8.8.8.0/24"] ["7.7.7.7"]) (sample_input "8.8.4.4") shipped_accepted sample_gate_ok sample_wider_gate_ok eq_refl eq_refl).
  - intros x ?%elem_of_nil. done.
  - intros values reason text Hin Ht. unfold categoryInputs, sample_config in *. cbn [pc_OriginIPv4 pc_GatewayIPv4 pc_ExecutorIPv4 pc_ManagementIPv4 pc_CurrentAdminIPv4] in *.
    rewrite !elem_of_cons in Hin. destruct Hin as [Hin|[Hin|[Hin|[Hin|[Hin|Hin]]]]];
      [injection Hin as -> ->|injection Hin as -> ->; by apply elem_of_nil in Ht|injection Hin as -> ->; by apply elem_of_nil in Ht
      |injection Hin as -> ->|injection Hin as -> ->; by apply elem_of_nil in Ht|by apply elem_of_nil in Hin].
    + exists ["9.9.9.9"], ReasonOrigin. split; [rewrite !elem_of_cons; by auto|exact Ht].
    + exists ["1.1.1.1"; "1.1.1.2"], ReasonManagement. split; [rewrite !elem_of_cons; by auto 10|exact Ht].
  - exact sample_allowed.
Defined.

(** An address inside a built-in network is let through only in an isolated
    demonstration (environment demo or test, every confirmation given), and only when
    the network is one of the three documentation networks; in production never. *)
Theorem built_in_networks_protected raw expected contract config g entry p a consistency :
  ParseProtectedContract raw expected = Ok contract → NewProtectedGate contract config = Ok g →
  entry ∈ ct_entries contract → p ∈ pe_cidrs entry → addr4_ok a = true → covers p a →
  Allowed (Check (Some g) (MkProtectedInput (addr4_string a) consistency)) = true →
  demo_exception config ∧ prefix4_string p ∈ rfc5737CIDRs ∧ pc_Environment config ≠ EnvironmentProduction.
Proof.
  intros Hc Hg He Hp Ha Hcov. pose proof (ParseProtectedContract_accepted _ _ _ Hc) as Hacc.
  rewrite (Check_allowed _ _ _ _ (accepted_contract_ok _ _ Hacc) Hg). cbn [pi_TargetIPv4]. intros (_ & b & Hb & Heq & _ & Hf).
  apply addr4_string_inj in Heq; [|done..]. subst b. destruct (free_built_in _ _ _ Hf _ _ He Hp Hcov) as [Hd Hdemo].
  split_and!; [done|by eapply excepted_prefix|]. destruct Hdemo as (_ & [-> | ->] & _); done.
Qed.

Definition sample_entry : protectedEntry := Eval vm_compute in
  default (MkProtectedEntry "" [] false) (List.find (λ e, String.eqb (pe_id e) "test_net_3") (ct_entries shipped_contract)).

Lemma built_in_networks_protected_witness : demo_exception (sample_config [] []).
Proof.
  apply (built_in_networks_protected shipped_file PinnedProtectedIPv4Digest shipped_contract (sample_config [] []) (sample_gate [] [])
    sample_entry (Prefix4 (Addr4 203 0 113 0) 24) (Addr4 203 0 113 20) (sample_consistency "203.0.113.20") shipped_accepted sample_gate_ok).
  - apply list_elem_of_In. repeat first [left; reflexivity|right].
  - apply list_elem_of_In. left. reflexivity.
  - reflexivity.
  - split; [discriminate|reflexivity].
  - exact sample_demo_allowed.
Defined.

(** The effective configuration bytes, whose digest every verdict carries, determine
    the verdicts: two gates of one contract with the same bytes let the same targets
    through. *)
Theorem effective_bytes_determine_verdicts raw expected contract config config' g g' input :
  ParseProtectedContract raw expected = Ok contract → NewProtectedGate contract config = Ok g → NewProtectedGate contract config' = Ok g' →
  pg_effectiveBytes g = pg_effectiveBytes g' → Allowed (Check (Some g) input) = Allowed (Check (Some g') input).
Proof.
  intros Hc Hg Hg' Heq. pose proof (accepted_contract_ok _ _ (ParseProtectedContract_accepted _ _ _ Hc)) as Hok.
  destruct (effective_parts _ _ _ _ _ Hg Hg' Heq) as (Hadd & Hdemo & Hrun).
  apply Bool.eq_iff_eq_true. rewrite (Check_allowed _ _ _ _ Hok Hg), (Check_allowed _ _ _ _ Hok Hg').
  apply and_iff_compat_l. split; intros (a & Ha & Ht & Hu & Hf); exists a; split_and!; try done;
    [apply (unprotected_iff _ _ _ _ Hok Hg' Ha); apply (unprotected_iff _ _ _ _ Hok Hg Ha) in Hf
    |apply (unprotected_iff _ _ _ _ Hok Hg Ha); apply (unprotected_iff _ _ _ _ Hok Hg' Ha) in Hf];
    destruct Hf as (? & ? & ?); rewrite Hadd, Hdemo in *; split_and!; try done; by apply Hrun.
Qed.

Lemma effective_bytes_determine_verdicts_witness :
  Allowed (Check (Some (sample_gate [] [])) (sample_input "9.9.9.9")) = Allowed (Check (Some (sample_gate [] [])) (sample_input "9.9.9.9")).
Proof.
  exact (effective_bytes_determine_verdicts shipped_file PinnedProtectedIPv4Digest shipped_contract (sample_config [] []) (sample_config [] [])
    (sample_gate [] []) (sample_gate [] []) (sample_input "9.9.9.9") shipped_accepted sample_gate_ok sample_gate_ok eq_refl).
Defined.
