(* ===== verification/NftValidate.v ===== *)
(** * The nft candidate validator ([internal/enforcement/nftvalidate])

    A second, independent parser of the command grammar, and the check of the owned
    nftables schema: the bootstrap contract by its digest and the live structure by
    its fields.  [Result] and [SchemaProof] values are immutable, so the copies the
    accessors make are the values. *)

From S2P Require Import Prelude GoStrings Regex Sha256 Json JsonTree Netip CanonicalJson Policy Executor NftRunner.
Local Open Scope Z_scope.

Definition SetType : string := "ipv4_addr".
Definition LiveSchemaVersion : string := "nft-base-chain-live-v1".
Definition GatewayChain : string := "gateway_input".
Definition GatewayPort : Z := 8080.
Definition PinnedBaseChainRawDigest : string := "sha256:2d6476f6297f9b135032934bc557110541bae7eb2fe16fe29be70d20d0f4c488".
Definition MaxCandidateBytes : Z := 256.
Definition MaxBaseContractBytes : Z := 16384.
Definition MaxLiveSchemaBytes : Z := 16384.

Inductive ValidateErrorCode :=
  | VErrorCandidateSyntax | VErrorTarget | VErrorTargetDenied | VErrorTTL | VErrorTTLMismatch | VErrorBaseContract
  | VErrorLiveSchema | VErrorSchemaDigest.

(** ** The candidate ([candidate.go]) *)

Record CandidateArtifact := MkCandidateArtifact {
  ca_target : addr4; ca_ttlSeconds : Z; ca_inputTTLToken : string; ca_canonicalToken : string; ca_generated : string;
  ca_generatedDigest : string; ca_canonical : string; ca_canonicalDigest : string
}.

Definition candidatePattern : pattern :=
  [lit "add element inet sentinelflow blacklist_ipv4 { ";
   rep 1 3 is_digit; lit "."; rep 1 3 is_digit; lit "."; rep 1 3 is_digit; lit "."; rep 1 3 is_digit;
   lit " timeout "; exactly 1 (between "1" "9"); rep 0 4 is_digit; exactly 1 (λ c, bool_decide (c ∈ ["s"; "m"; "h"]%char));
   lit " }"; rep 0 1 (λ c, bool_decide (c = "010"%char))].

Definition candidate_ttlPattern : pattern :=
  [exactly 1 (between "1" "9"); rep 0 4 is_digit; exactly 1 (λ c, bool_decide (c ∈ ["s"; "m"; "h"]%char))].

(** [candidatePattern.FindSubmatch]: the address and the timeout. *)
Definition candidate_submatches (s : string) : option (string * string) :=
  match find_submatch candidatePattern (chars s) with
  | Some [_; a; d1; b; d2; c; d3; d; _; t1; t2; t3; _; _] => Some (implode (a ++ d1 ++ b ++ d2 ++ c ++ d3 ++ d), implode (t1 ++ t2 ++ t3))
  | _ => None
  end.

Definition parseTTL (token : string) : result ValidateErrorCode Z :=
  match find_submatch candidate_ttlPattern (chars token) with
  | Some [a; b; unit] =>
      match parse_uint 64 (implode (a ++ b)) with
      | None => Err VErrorTTL
      | Some value =>
          let multiplier := if String.eqb (implode unit) "m" then 60 else if String.eqb (implode unit) "h" then 3600 else 1 in
          if MaxUint64 / multiplier <? value then Err VErrorTTL
          else
            let seconds := u64 (value * multiplier) in
            if (seconds <? MinTTLSeconds) || (MaxTTLSeconds <? seconds) then Err VErrorTTL else Ok (u32 seconds)
      end
  | _ => Err VErrorTTL
  end.

Definition canonicalTTL (seconds : Z) : result ValidateErrorCode string :=
  if (seconds <? MinTTLSeconds) || (MaxTTLSeconds <? seconds) then Err VErrorTTL
  else if seconds mod 3600 =? 0 then Ok (format_uint (seconds / 3600) +:+ "h")
  else if seconds mod 60 =? 0 then Ok (format_uint (seconds / 60) +:+ "m")
  else Ok (format_uint seconds +:+ "s").

Definition Canonicalize (generated : string) (policyTTLSeconds : Z) : result ValidateErrorCode CandidateArtifact :=
  if (policyTTLSeconds <? MinTTLSeconds) || (MaxTTLSeconds <? policyTTLSeconds) then Err VErrorTTL
  else if (len generated =? 0) || (MaxCandidateBytes <? len generated) || negb (utf8_valid generated) || String.prefix utf8_bom generated
  then Err VErrorCandidateSyntax
  else if existsb (λ c, (code c =? 0) || (127 <? code c)) (chars generated) then Err VErrorCandidateSyntax
  else
    match candidate_submatches generated with
    | None => Err VErrorCandidateSyntax
    | Some (targetText, inputToken) =>
        match canonical_ipv4 targetText with
        | None => Err VErrorTarget
        | Some target =>
            if negb (is_global_unicast target) then Err VErrorTarget
            else
              seconds ← parseTTL inputToken;
              if negb (seconds =? policyTTLSeconds) then Err VErrorTTLMismatch
              else
                canonicalToken ← canonicalTTL seconds;
                let canonical := "add element inet sentinelflow blacklist_ipv4 { " +:+ targetText +:+ " timeout " +:+ canonicalToken +:+ " }" +:+ lf in
                Ok (MkCandidateArtifact target seconds inputToken canonicalToken generated (digest generated) canonical (digest canonical))
        end
    end.

(** ** The owned schema ([schema.go]) *)

Record liveSetWire := MkLiveSet { ls_Name : string; ls_Type : string; ls_Flags : slice string }.
Record liveChainWire := MkLiveChain { lc_Name : string; lc_Type : string; lc_Hook : string; lc_Priority : option Z; lc_Policy : string }.
Record liveRuleWire := MkLiveRule { lr_Protocol : string; lr_DestinationPort : Z; lr_SourceSet : string; lr_Verdict : string; lr_OwnedRuleCount : Z }.
Record liveSchemaWire := MkLiveSchema {
  lw_SchemaVersion : string; lw_Family : string; lw_Table : string; lw_Set : liveSetWire; lw_Chain : liveChainWire; lw_Rule : liveRuleWire
}.

Definition zero_live_schema : liveSchemaWire :=
  MkLiveSchema "" "" "" (MkLiveSet "" "" nil_slice) (MkLiveChain "" "" "" None "") (MkLiveRule "" 0 "" "" 0).

(** An [int]: [strconv.ParseInt] of the number. *)
Definition decode_int : decoder Z := λ v old,
  match v with JNumber n => atoi (implode n) | JNull => Some old | _ => None end.

Definition decode_live_set : decoder liveSetWire := decode_object
  [("name", λ v s, x ← decode_string v (ls_Name s); Some (MkLiveSet x (ls_Type s) (ls_Flags s)));
   ("type", λ v s, x ← decode_string v (ls_Type s); Some (MkLiveSet (ls_Name s) x (ls_Flags s)));
   ("flags", λ v s, x ← decode_slice "" decode_string v (ls_Flags s); Some (MkLiveSet (ls_Name s) (ls_Type s) x))].

Definition decode_live_chain : decoder liveChainWire := decode_object
  [("name", λ v c, x ← decode_string v (lc_Name c); Some (MkLiveChain x (lc_Type c) (lc_Hook c) (lc_Priority c) (lc_Policy c)));
   ("type", λ v c, x ← decode_string v (lc_Type c); Some (MkLiveChain (lc_Name c) x (lc_Hook c) (lc_Priority c) (lc_Policy c)));
   ("hook", λ v c, x ← decode_string v (lc_Hook c); Some (MkLiveChain (lc_Name c) (lc_Type c) x (lc_Priority c) (lc_Policy c)));
   ("priority", λ v c, x ← decode_pointer 0 decode_int v (lc_Priority c); Some (MkLiveChain (lc_Name c) (lc_Type c) (lc_Hook c) x (lc_Policy c)));
   ("policy", λ v c, x ← decode_string v (lc_Policy c); Some (MkLiveChain (lc_Name c) (lc_Type c) (lc_Hook c) (lc_Priority c) x))].

Definition decode_live_rule : decoder liveRuleWire := decode_object
  [("protocol", λ v r, x ← decode_string v (lr_Protocol r);
      Some (MkLiveRule x (lr_DestinationPort r) (lr_SourceSet r) (lr_Verdict r) (lr_OwnedRuleCount r)));
   ("destination_port", λ v r, x ← decode_int v (lr_DestinationPort r);
      Some (MkLiveRule (lr_Protocol r) x (lr_SourceSet r) (lr_Verdict r) (lr_OwnedRuleCount r)));
   ("source_set", λ v r, x ← decode_string v (lr_SourceSet r);
      Some (MkLiveRule (lr_Protocol r) (lr_DestinationPort r) x (lr_Verdict r) (lr_OwnedRuleCount r)));
   ("verdict", λ v r, x ← decode_string v (lr_Verdict r);
      Some (MkLiveRule (lr_Protocol r) (lr_DestinationPort r) (lr_SourceSet r) x (lr_OwnedRuleCount r)));
   ("owned_rule_count", λ v r, x ← decode_int v (lr_OwnedRuleCount r);
      Some (MkLiveRule (lr_Protocol r) (lr_DestinationPort r) (lr_SourceSet r) (lr_Verdict r) x))].

Definition decode_live_schema : decoder liveSchemaWire := decode_object
  [("schema_version", λ v l, x ← decode_string v (lw_SchemaVersion l);
      Some (MkLiveSchema x (lw_Family l) (lw_Table l) (lw_Set l) (lw_Chain l) (lw_Rule l)));
   ("family", λ v l, x ← decode_string v (lw_Family l);
      Some (MkLiveSchema (lw_SchemaVersion l) x (lw_Table l) (lw_Set l) (lw_Chain l) (lw_Rule l)));
   ("table", λ v l, x ← decode_string v (lw_Table l);
      Some (MkLiveSchema (lw_SchemaVersion l) (lw_Family l) x (lw_Set l) (lw_Chain l) (lw_Rule l)));
   ("set", λ v l, x ← decode_live_set v (lw_Set l);
      Some (MkLiveSchema (lw_SchemaVersion l) (lw_Family l) (lw_Table l) x (lw_Chain l) (lw_Rule l)));
   ("chain", λ v l, x ← decode_live_chain v (lw_Chain l);
      Some (MkLiveSchema (lw_SchemaVersion l) (lw_Family l) (lw_Table l) (lw_Set l) x (lw_Rule l)));
   ("rule", λ v l, x ← decode_live_rule v (lw_Rule l);
      Some (MkLiveSchema (lw_SchemaVersion l) (lw_Family l) (lw_Table l) (lw_Set l) (lw_Chain l) x))].

(** The comparison of every field with its constant. *)
Definition live_schema_ok (value : liveSchemaWire) : bool :=
  String.eqb (lw_SchemaVersion value) LiveSchemaVersion && String.eqb (lw_Family value) Family && String.eqb (lw_Table value) Table
  && String.eqb (ls_Name (lw_Set value)) BlacklistSet && String.eqb (ls_Type (lw_Set value)) SetType
  && bool_decide (elements (ls_Flags (lw_Set value)) = ["timeout"])
  && String.eqb (lc_Name (lw_Chain value)) GatewayChain && String.eqb (lc_Type (lw_Chain value)) "filter"
  && String.eqb (lc_Hook (lw_Chain value)) "input" && bool_decide (lc_Priority (lw_Chain value) = Some 0)
  && String.eqb (lc_Policy (lw_Chain value)) "accept"
  && String.eqb (lr_Protocol (lw_Rule value)) "tcp" && (lr_DestinationPort (lw_Rule value) =? GatewayPort)
  && String.eqb (lr_SourceSet (lw_Rule value)) BlacklistSet && String.eqb (lr_Verdict (lw_Rule value)) "drop"
  && (lr_OwnedRuleCount (lw_Rule value) =? 1).

(** [canonicalLiveSchema], with apostrophes for the quotes. *)
Definition canonicalLiveSchema : string := qq
  "{'chain':{'hook':'input','name':'gateway_input','policy':'accept','priority':0,'type':'filter'},'family':'inet','rule':{'destination_port':8080,'owned_rule_count':1,'protocol':'tcp','source_set':'blacklist_ipv4','verdict':'drop'},'schema_version':'nft-base-chain-live-v1','set':{'flags':['timeout'],'name':'blacklist_ipv4','type':'ipv4_addr'},'table':'sentinelflow'}".

Record SchemaProof := MkSchemaProof { sp_baseContractDigest : string; sp_liveSchemaDigest : string; sp_liveCanonical : string }.

Definition MaxSchemaDepth : Z := 16.

Definition ValidateOwnedSchema (baseContract liveSchema : string) : result ValidateErrorCode SchemaProof :=
  if (len baseContract =? 0) || (MaxBaseContractBytes <? len baseContract) || negb (String.eqb (digest baseContract) PinnedBaseChainRawDigest)
  then Err VErrorBaseContract
  else if (len liveSchema =? 0) || (MaxLiveSchemaBytes <? len liveSchema) || negb (utf8_valid liveSchema) || String.prefix utf8_bom liveSchema
  then Err VErrorLiveSchema
  else
    match strictJSON MaxSchemaDepth liveSchema with
    | None => Err VErrorLiveSchema
    | Some v =>
        match decode_live_schema v zero_live_schema with
        | None => Err VErrorLiveSchema
        | Some value =>
            if negb (live_schema_ok value) then Err VErrorLiveSchema
            else
              let liveDigest := digest canonicalLiveSchema in
              if negb (String.eqb liveDigest PinnedLiveSchemaDigest) || String.eqb liveDigest PinnedBaseChainRawDigest
              then Err VErrorSchemaDigest
              else Ok (MkSchemaProof PinnedBaseChainRawDigest liveDigest canonicalLiveSchema)
        end
    end.

(** ** The whole gate *)

(** [TargetAuthorizer]; [None] is a nil callback. *)
Record ValidateInput := MkValidateInput {
  vi_GeneratedCandidate : string; vi_PolicyTTLSeconds : Z; vi_AuthorizeTarget : option (addr4 → bool); vi_BaseContract : string; vi_LiveSchema : string
}.

Record ValidateResult := MkValidateResult { vr_artifact : CandidateArtifact; vr_schema : SchemaProof }.

Definition Validate (input : ValidateInput) : result ValidateErrorCode ValidateResult :=
  artifact ← Canonicalize (vi_GeneratedCandidate input) (vi_PolicyTTLSeconds input);
  if negb (match vi_AuthorizeTarget input with Some authorize => authorize (ca_target artifact) | None => false end)
  then Err VErrorTargetDenied
  else
    proof ← ValidateOwnedSchema (vi_BaseContract input) (vi_LiveSchema input);
    Ok (MkValidateResult artifact proof).
