(* ===== verification/NftValidateSpec.v ===== *)
(** * What the candidate validator guarantees

    Its parser is the policy package's parser, it fails only where that one does, and
    a validated result names an authorised target and the pinned schema. *)

From S2P Require Import Prelude GoStrings Regex Sha256 Json JsonTree Netip CanonicalJson Policy PolicySpec Executor NftRunner NftValidate.
Local Open Scope Z_scope.

(** ** The two parsers *)

(** The validator's name for an error of the policy parser. *)
Definition validator_code (e : ErrorCode) : ValidateErrorCode :=
  match e with ErrorTarget => VErrorTarget | ErrorTTL => VErrorTTL | _ => VErrorCandidateSyntax end.

Lemma candidate_submatches_command s : candidate_submatches s = command_submatches s.
Proof. reflexivity. Qed.

Lemma parseTTL_policy token : parseTTL token = map_err validator_code (ParseTTL token).
Proof.
  unfold parseTTL, ParseTTL, ttl_submatches. change candidate_ttlPattern with ttlPattern.
  destruct (find_submatch ttlPattern (chars token)) as [[|a [|b [|u [|]]]]|]; try done.
  destruct (parse_uint 64 _); [|done]. cbv zeta. destruct (_ <? _); [done|]. by destruct (_ || _).
Qed.

Lemma validator_canonicalTTL seconds : canonicalTTL seconds = map_err validator_code (CanonicalTTL seconds).
Proof. unfold canonicalTTL, CanonicalTTL. destruct (_ || _); [done|]. destruct (_ =? 0); [done|]. by destruct (_ =? 0). Qed.

Lemma existsb_ext {A} (f g : A → bool) l : (∀ x, f x = g x) → existsb f l = existsb g l.
Proof. intros H. induction l as [|x l IH]; [done|]. cbn [existsb]. by rewrite H, IH. Qed.

Definition ttl_in_range (seconds : Z) : bool := (MinTTLSeconds <=? seconds) && (seconds <=? MaxTTLSeconds).

(** The artifact of a parsed command. *)
Definition candidate_of (generated : string) (ast : AST) (target : addr4) (token canonical : string) : CandidateArtifact :=
  MkCandidateArtifact target (ast_ttlSeconds ast) (ast_inputTTLToken ast) token generated (digest generated) canonical (digest canonical).

(** What the validator answers, from the policy package's functions. *)
Definition canonicalize_spec (generated : string) (ttl : Z) : result ValidateErrorCode CandidateArtifact :=
  if negb (ttl_in_range ttl) then Err VErrorTTL
  else
    ast ← map_err validator_code (Parse generated);
    if negb (ast_ttlSeconds ast =? ttl) then Err VErrorTTLMismatch
    else
      token ← map_err validator_code (CanonicalTTL (ast_ttlSeconds ast));
      canonical ← map_err validator_code (CanonicalBytes ast);
      match ast_target ast with
      | Some target => Ok (candidate_of generated ast target token canonical)
      | None => Err VErrorTarget
      end.

Lemma Canonicalize_policy generated ttl : Canonicalize generated ttl = canonicalize_spec generated ttl.
Proof.
  unfold Canonicalize, canonicalize_spec, ttl_in_range. rewrite !Z.leb_antisym, <-negb_orb, negb_involutive. destruct (_ || _); [done|].
  unfold Parse. change MaxCandidateBytes with MaxGeneratedBytes. destruct (_ || _ || _ || _); [done|].
  rewrite (existsb_ext _ (λ c, (127 <? code c) || (code c =? 0))) by (intros c; apply orb_comm). destruct (existsb _ _); [done|].
  rewrite candidate_submatches_command. destruct (command_submatches generated) as [[targetText token]|]; [|done].
  destruct (canonical_ipv4 targetText) as [target|] eqn:Et; [|done]. destruct (is_global_unicast target) eqn:Eg; [|done]. cbn [negb].
  rewrite parseTTL_policy. destruct (ParseTTL token) as [seconds|e]; [|done]. cbn [map_err mbind result_bind ast_ttlSeconds].
  destruct (negb _); [done|]. unfold CanonicalBytes. cbn [ast_target ast_ttlSeconds]. rewrite Eg, validator_canonicalTTL. cbn [negb].
  destruct (CanonicalTTL seconds) as [canonical|e]; [|done]. cbn [map_err mbind result_bind]. apply canonical_ipv4_spec in Et as [<- _]. reflexivity.
Qed.

Lemma Canonicalize_ok generated ttl artifact : Canonicalize generated ttl = Ok artifact ↔
  ∃ ast target token canonical, MinTTLSeconds <= ttl <= MaxTTLSeconds ∧ Parse generated = Ok ast ∧ ast_ttlSeconds ast = ttl
    ∧ ast_target ast = Some target ∧ CanonicalTTL ttl = Ok token ∧ CanonicalBytes ast = Ok canonical
    ∧ artifact = candidate_of generated ast target token canonical.
Proof.
  rewrite Canonicalize_policy. unfold canonicalize_spec, ttl_in_range. split.
  - destruct (negb _) eqn:E; [done|]. destruct (Parse generated) as [ast|]; [|done]. cbn [map_err mbind result_bind].
    destruct (ast_ttlSeconds ast =? ttl) eqn:Et; [|done]. cbn [negb]. destruct (CanonicalTTL _) as [token|] eqn:Ec; [|done]. cbn [map_err mbind result_bind].
    destruct (CanonicalBytes ast) as [canonical|] eqn:Eb; [|done]. cbn [map_err mbind result_bind]. destruct (ast_target ast) as [target|] eqn:Ea; [|done].
    intros H. apply (f_equal (from_ok artifact)) in H. cbn [from_ok] in H. subst artifact. breflect. subst ttl. exists ast, target, token, canonical. split_and!; try done; lia.
  - intros (ast & target & token & canonical & Hr & -> & <- & Ht & Hc & Hb & ->). rewrite !(proj2 (Z.leb_le _ _)) by lia. cbn [andb negb map_err mbind result_bind].
    rewrite Z.eqb_refl. cbn [negb]. rewrite Hc. cbn [map_err mbind result_bind]. rewrite Hb. cbn [map_err mbind result_bind]. by rewrite Ht.
Qed.

(** ** The owned schema *)

Lemma live_schema_digest : digest canonicalLiveSchema = PinnedLiveSchemaDigest.
Proof. vm_compute. reflexivity. Qed.

(** The one structure the live schema may have. *)
Definition owned_schema (flags : slice string) : liveSchemaWire :=
  MkLiveSchema LiveSchemaVersion Family Table (MkLiveSet BlacklistSet SetType flags) (MkLiveChain GatewayChain "filter" "input" (Some 0) "accept")
    (MkLiveRule "tcp" GatewayPort BlacklistSet "drop" 1).

Lemma live_schema_ok_iff value : live_schema_ok value = true ↔ ∃ flags, elements flags = ["timeout"] ∧ value = owned_schema flags.
Proof.
  unfold live_schema_ok. split.
  - destruct value as [version family table [sname stype flags] [cname ctype hook priority policy] [protocol port source verdict count]].
    cbn [lw_SchemaVersion lw_Family lw_Table lw_Set lw_Chain lw_Rule ls_Name ls_Type ls_Flags lc_Name lc_Type lc_Hook lc_Priority lc_Policy
      lr_Protocol lr_DestinationPort lr_SourceSet lr_Verdict lr_OwnedRuleCount]. rewrite !andb_true_iff, !String.eqb_eq, !bool_decide_eq_true, !Z.eqb_eq.
    intros H. destruct_and! H. subst. by exists flags.
  - intros (flags & Hf & ->). cbn. by rewrite Hf.
Qed.

Lemma ValidateOwnedSchema_ok base live proof : ValidateOwnedSchema base live = Ok proof ↔
  (0 < len base <= MaxBaseContractBytes ∧ digest base = PinnedBaseChainRawDigest)
  ∧ (0 < len live <= MaxLiveSchemaBytes ∧ utf8_valid live = true ∧ String.prefix utf8_bom live = false)
  ∧ (∃ v flags, strictJSON MaxSchemaDepth live = Some v ∧ decode_live_schema v zero_live_schema = Some (owned_schema flags) ∧ elements flags = ["timeout"])
  ∧ proof = MkSchemaProof PinnedBaseChainRawDigest PinnedLiveSchemaDigest canonicalLiveSchema.
Proof.
  unfold ValidateOwnedSchema. rewrite live_schema_digest. replace (negb (String.eqb PinnedLiveSchemaDigest PinnedLiveSchemaDigest) || _) with false by (by vm_compute).
  pose proof (Zle_0_nat (String.length base)). pose proof (Zle_0_nat (String.length live)). fold (len base) in *. fold (len live) in *. split.
  - destruct (_ || _) eqn:E1; [done|]. destruct (_ || _) eqn:E2 in |- *; [done|]. destruct (strictJSON _ live) as [v|]; [|done].
    destruct (decode_live_schema v _) as [value|] eqn:Ed; [|done]. destruct (live_schema_ok value) eqn:El; [|done]. cbn [negb]. intros H'.
    apply (f_equal (from_ok proof)) in H'. cbn [from_ok] in H'. subst proof. apply live_schema_ok_iff in El as (flags & Hf & ->). breflect.
    split_and!; try done; try lia; try tauto. exists v, flags. done.
  - intros ((Hb & Hd) & (Hl & Hu & Hp) & (v & flags & Hs & Hv & Hf) & ->).
    assert (live_schema_ok (owned_schema flags) = true) as Hok by (apply live_schema_ok_iff; by eauto).
    rewrite Hd, String.eqb_refl, Hu, Hp, Hs, Hv, Hok. rewrite !(proj2 (Z.eqb_neq _ 0)), !(proj2 (Z.ltb_ge _ _)) by lia. done.
Qed.

(** The schema check never fails on the constant digest. *)
Lemma ValidateOwnedSchema_no_digest_error base live : ValidateOwnedSchema base live ≠ Err VErrorSchemaDigest.
Proof.
  unfold ValidateOwnedSchema. rewrite live_schema_digest. replace (negb (String.eqb PinnedLiveSchemaDigest PinnedLiveSchemaDigest) || _) with false by (by vm_compute).
  destruct (_ || _); [done|]. destruct (_ || _); [done|]. destruct (strictJSON _ live); [|done]. destruct (decode_live_schema _ _); [|done].
  by destruct (negb _).
Qed.

(** ** The shipped contract and a validated candidate *)

(** [contracts/enforcement/nft_base_chain_v1.nft] *)
Definition shipped_base : string :=
"table inet sentinelflow {
  set blacklist_ipv4 {
    type ipv4_addr
    flags timeout
  }

  chain gateway_input {
    type filter hook input priority 0
    policy accept
    tcp dport 8080 ip saddr @blacklist_ipv4 drop
  }
}
".

Lemma shipped_base_digest : digest shipped_base = PinnedBaseChainRawDigest.
Proof. vm_compute. reflexivity. Qed.

Definition live_document : json := Eval vm_compute in default JNull (parse_document (chars canonicalLiveSchema)).

Lemma live_strict : strictJSON MaxSchemaDepth canonicalLiveSchema = Some live_document.
Proof. vm_compute. reflexivity. Qed.

(** The canonical form is accepted, and is canonical. *)
Lemma canonical_schema_accepted : ValidateOwnedSchema shipped_base canonicalLiveSchema =
  Ok (MkSchemaProof PinnedBaseChainRawDigest PinnedLiveSchemaDigest canonicalLiveSchema).
Proof.
  apply ValidateOwnedSchema_ok. split; [split; [by vm_compute|exact shipped_base_digest]|]. split; [by vm_compute|]. split; [|reflexivity].
  exists live_document, (MkSlice ["timeout"] 1). split; [exact live_strict|]. by vm_compute.
Qed.

Lemma canonical_schema_fixed : canonicalJSON canonicalLiveSchema = Some canonicalLiveSchema.
Proof. vm_compute. reflexivity. Qed.

(** Member names match without regard to case, so a document that names the family
    twice is accepted although its member [family] is another one. *)
Definition folded_schema : string := qq
  "{'family':'ip6','chain':{'hook':'input','name':'gateway_input','policy':'accept','priority':0,'type':'filter'},'Family':'inet','rule':{'destination_port':8080,'owned_rule_count':1,'protocol':'tcp','source_set':'blacklist_ipv4','verdict':'drop'},'schema_version':'nft-base-chain-live-v1','set':{'flags':['timeout'],'name':'blacklist_ipv4','type':'ipv4_addr'},'table':'sentinelflow'}".

Definition folded_document : json := Eval vm_compute in default JNull (parse_document (chars folded_schema)).

Lemma folded_strict : strictJSON MaxSchemaDepth folded_schema = Some folded_document.
Proof. vm_compute. reflexivity. Qed.

Lemma folded_schema_accepted : is_ok (ValidateOwnedSchema shipped_base folded_schema) = true.
Proof.
  apply is_ok_true. exists (MkSchemaProof PinnedBaseChainRawDigest PinnedLiveSchemaDigest canonicalLiveSchema). apply ValidateOwnedSchema_ok.
  split; [split; [by vm_compute|exact shipped_base_digest]|]. split; [by vm_compute|]. split; [|reflexivity].
  exists folded_document, (MkSlice ["timeout"] 1). split; [exact folded_strict|]. by vm_compute.
Qed.

Definition sample_target : addr4 := Addr4 203 0 113 20.

Definition sample_candidate : ValidateInput :=
  MkValidateInput (command_text sample_target "1800s" false) 1800 (Some (λ a, bool_decide (a = sample_target))) shipped_base canonicalLiveSchema.

Definition sample_result : ValidateResult :=
  MkValidateResult
    (candidate_of (command_text sample_target "1800s" false) (MkAST (Some sample_target) 1800 "1800s") sample_target "30m" (command_text sample_target "30m" true))
    (MkSchemaProof PinnedBaseChainRawDigest PinnedLiveSchemaDigest canonicalLiveSchema).

Lemma candidate_Validate_iff input r : Validate input = Ok r ↔
  ∃ authorize, vi_AuthorizeTarget input = Some authorize
    ∧ Canonicalize (vi_GeneratedCandidate input) (vi_PolicyTTLSeconds input) = Ok (vr_artifact r)
    ∧ authorize (ca_target (vr_artifact r)) = true
    ∧ ValidateOwnedSchema (vi_BaseContract input) (vi_LiveSchema input) = Ok (vr_schema r).
Proof.
  unfold Validate. destruct r as [artifact proof]. cbn [vr_artifact vr_schema]. destruct (Canonicalize _ _) as [art|]; cbn [mbind result_bind].
  2:{ split; [done|]. by intros (? & _ & ? & _). }
  destruct (vi_AuthorizeTarget input) as [authorize|]; cbn [negb].
  2:{ split; [done|]. by intros (? & ? & _). }
  destruct (ValidateOwnedSchema _ _) as [p|]; cbn [mbind result_bind].
  - split.
    + destruct (authorize (ca_target art)) eqn:Ea; [|done]. cbn [negb]. intros H. injection H as <- <-. exists authorize. done.
    + intros (au & [= <-] & H1 & Ha & H2). injection H1 as ->. injection H2 as ->. by rewrite Ha.
  - split; [by destruct (negb _)|]. by intros (? & _ & _ & _ & ?).
Qed.

Lemma sample_authorized : Canonicalize (command_text sample_target "1800s" false) 1800 = Ok (vr_artifact sample_result).
Proof.
  apply Canonicalize_ok. exists (MkAST (Some sample_target) 1800 "1800s"), sample_target, "30m", (command_text sample_target "30m" true).
  split_and!; by vm_compute.
Qed.

Lemma sample_validates : Validate sample_candidate = Ok sample_result.
Proof.
  apply candidate_Validate_iff. exists (λ a, bool_decide (a = sample_target)). split; [reflexivity|]. split; [exact sample_authorized|]. split; [reflexivity|].
  exact canonical_schema_accepted.
Qed.

(** ** The claims *)

(** C26. The validator's parser and the policy package's agree on every input: the
    validator accepts a candidate exactly when the other parser accepts it with the
    policy's TTL, with the same target, canonical token and canonical bytes, and it
    reports the corresponding error otherwise. *)
Theorem validator_parser_agrees generated ttl : Canonicalize generated ttl = canonicalize_spec generated ttl.
Proof. apply Canonicalize_policy. Qed.

(** The gate accepts exactly the candidates of the grammar whose TTL is the policy's,
    whose target the callback authorises, beside the pinned bootstrap contract and a live
    schema that decodes to the one owned structure; the result carries the canonical
    bytes the policy package prints for the command, with its digest, and both pinned
    schema digests. *)
Theorem validated_candidate_exact input r :
  Validate input = Ok r ↔
  ∃ ast target token canonical authorize v flags,
    Parse (vi_GeneratedCandidate input) = Ok ast ∧ ast_ttlSeconds ast = vi_PolicyTTLSeconds input ∧ ast_target ast = Some target
    ∧ MinTTLSeconds <= vi_PolicyTTLSeconds input <= MaxTTLSeconds
    ∧ CanonicalTTL (vi_PolicyTTLSeconds input) = Ok token ∧ CanonicalBytes ast = Ok canonical
    ∧ vi_AuthorizeTarget input = Some authorize ∧ authorize target = true
    ∧ (0 < len (vi_BaseContract input) <= MaxBaseContractBytes ∧ digest (vi_BaseContract input) = PinnedBaseChainRawDigest)
    ∧ (0 < len (vi_LiveSchema input) <= MaxLiveSchemaBytes ∧ utf8_valid (vi_LiveSchema input) = true ∧ String.prefix utf8_bom (vi_LiveSchema input) = false)
    ∧ strictJSON MaxSchemaDepth (vi_LiveSchema input) = Some v ∧ decode_live_schema v zero_live_schema = Some (owned_schema flags) ∧ elements flags = ["timeout"]
    ∧ r = MkValidateResult (candidate_of (vi_GeneratedCandidate input) ast target token canonical)
            (MkSchemaProof PinnedBaseChainRawDigest PinnedLiveSchemaDigest canonicalLiveSchema).
Proof.
  rewrite candidate_Validate_iff. setoid_rewrite Canonicalize_ok. setoid_rewrite ValidateOwnedSchema_ok. destruct r as [artifact proof]. cbn [vr_artifact vr_schema]. split.
  - intros (au & Hau & (ast & target & token & canonical & Hr & Hp & Ht & Ha & Hc & Hb & ->) & Hok & H1 & H2 & (v & flags & H3 & H4 & H5) & ->).
    exists ast, target, token, canonical, au, v, flags. tauto.
  - intros (ast & target & token & canonical & au & v & flags & Hp & Ht & Ha & Hr & Hc & Hb & Hau & Hok & H1 & H2 & H3 & H4 & H5 & [= -> ->]).
    exists au. split; [done|]. split; [exists ast, target, token, canonical; tauto|]. split; [done|]. split; [done|]. split; [done|]. split; [by exists v, flags|done].
Qed.

Lemma validated_candidate_exact_witness : ∃ authorize, vi_AuthorizeTarget sample_candidate = Some authorize ∧ authorize sample_target = true.
Proof.
  destruct (proj1 (validated_candidate_exact sample_candidate sample_result) sample_validates)
    as (ast & target & token & canonical & au & v & flags & _ & _ & _ & _ & _ & _ & Hau & Hok & _ & _ & _ & _ & _ & Hr).
  exists au. split; [exact Hau|]. apply (f_equal (λ r, ca_target (vr_artifact r))) in Hr. change (sample_target = target) in Hr. rewrite Hr. exact Hok.
Defined.
