(* ===== verification/Consistency.v ===== *)
(** * The policy/evidence/command consistency gate ([internal/validation/consistency.go])

    Binds the analysis output, the response policy, the parsed command and the
    evidence snapshot to each other by identifiers, digests and exact texts.  Unicode
    normalisation ([golang.org/x/text/unicode/norm]) is not part of the program: the
    function [nfc] is a parameter. *)

From S2P Require Import Prelude GoSort GoStrings Regex Sha256 Json JsonTree GoTime Netip Policy ResponsePolicy Protected.
Local Open Scope Z_scope.

Definition SchemaGatePassed : string := "passed".
Definition SourceHealthComplete : string := "complete".
Definition AnalysisOutputSchemaV1 : string := "sentinelflow_analysis_v1".
Definition ConsistencyFailed : string := "failed".

Definition consistencyUUIDPattern : pattern := uuid_pattern.

Definition ConsistencyFailureNone : string := "none".
Definition ConsistencyFailurePrerequisite : string := "schema_or_parser_prerequisite_failed".
Definition ConsistencyFailureAnalysis : string := "analysis_binding_mismatch".
Definition ConsistencyFailureEvidenceSnapshot : string := "evidence_snapshot_mismatch".
Definition ConsistencyFailureEvidenceMembership : string := "evidence_membership_mismatch".
Definition ConsistencyFailureEvidenceTarget : string := "evidence_target_mismatch".
Definition ConsistencyFailureEvidenceIncomplete : string := "evidence_incomplete".
Definition ConsistencyFailurePolicy : string := "policy_mismatch".
Definition ConsistencyFailureCandidate : string := "command_candidate_mismatch".
Definition ConsistencyFailureRationale : string := "rationale_digest_mismatch".
Definition ConsistencyFailureOutput : string := "analysis_output_invalid".

Record SchemaGateBinding := MkSchemaGate { sg_Status : string; sg_AnalysisOutputDigest : string; sg_OutputSchemaDigest : string }.

Record AnalysisBinding := MkAnalysis {
  an_AnalysisID : string; an_IncidentID : string; an_IncidentVersion : Z; an_AnalysisInputDigest : string; an_OutputSchemaDigest : string; an_Output : string
}.

Record SignalEvidenceBinding := MkSignalEvidence {
  se_SignalID : string; se_SignalDigest : string; se_SourceIPv4 : string; se_EventIDs : list string; se_ThresholdReproduced : bool; se_SourceHealthStatus : string
}.

Record EvidenceSnapshotBinding := MkEvidence {
  ev_SnapshotDigest : string; ev_IncidentID : string; ev_IncidentVersion : Z; ev_AnalysisInputDigest : string; ev_SourceIPv4 : string;
  ev_SourceHealthDigest : string; ev_SourceHealthStatus : string; ev_SignalIDs : list string; ev_EventIDs : list string; ev_Signals : list SignalEvidenceBinding
}.

Record ConsistencyInput := MkConsistencyInput {
  ci_ExpectedOutputSchemaDigest : string; ci_SchemaGate : SchemaGateBinding; ci_Analysis : AnalysisBinding; ci_Policy : CheckedResponsePolicy;
  ci_Candidate : Artifact; ci_Evidence : EvidenceSnapshotBinding
}.

(** ** The analysis output *)

Record outputPolicy := MkOutputPolicy {
  op_SchemaVersion : string; op_Action : string; op_TargetIP : string; op_TTLSeconds : Z; op_EvidenceIDs : slice string; op_Rationale : string
}.

Record outputCandidate := MkOutputCandidate {
  oc_SchemaVersion : string; oc_TargetIP : string; oc_Timeout : string; oc_EvidenceIDs : slice string; oc_Command : string
}.

(** The confidence is decoded and not read: the number is kept as it was written. *)
Record analysisOutput := MkOutput {
  ao_SchemaVersion : string; ao_IncidentSummary : string; ao_Classification : string; ao_Confidence : list ascii; ao_Uncertainty : string;
  ao_FalsePositiveFactors : slice string; ao_EvidenceIDs : slice string; ao_Policy : outputPolicy; ao_Candidate : outputCandidate
}.

Definition zero_output : analysisOutput :=
  MkOutput "" "" "" (chars "0") "" nil_slice nil_slice (MkOutputPolicy "" "" "" 0 nil_slice "") (MkOutputCandidate "" "" "" nil_slice "").

(** [strconv.ParseFloat(n, 64)] fails on a JSON number only when it is out of range: its
    value is at least [2^1024 - 2^970], which rounds to infinity. The digits before and
    after the point and the exponent: *)
Definition number_parts (n : list ascii) : list ascii * list ascii * Z :=
  let l := match n with "-"%char :: l => l | _ => n end in
  let '(whole, l) := span_digits l in
  let '(fraction, l) := match l with "."%char :: l => span_digits l | _ => ([], l) end in
  let exponent :=
    match l with
    | _ :: s :: l => if bool_decide (s = "-"%char) then - of_digits (map char_digit l)
                     else if bool_decide (s = "+"%char) then of_digits (map char_digit l)
                     else of_digits (map char_digit (s :: l))
    | _ => 0
    end in
  (whole, fraction, exponent).

Definition float_limit : Z := 2 ^ 1024 - 2 ^ 970.

Definition float_in_range (n : list ascii) : bool :=
  let '(whole, fraction, exponent) := number_parts n in
  let mantissa := of_digits (map char_digit (whole ++ fraction)) in
  let scale := exponent - Z.of_nat (length fraction) in
  if mantissa =? 0 then true
  else if 400 <? scale then false
  else if 0 <=? scale then mantissa * 10 ^ scale <? float_limit
  else if scale <? - Z.of_nat (length (whole ++ fraction)) then true
  else mantissa <? float_limit * 10 ^ (- scale).

Definition decode_float64 : decoder (list ascii) := λ v old,
  match v with JNumber n => if float_in_range n then Some n else None | JNull => Some old | _ => None end.

Definition decode_strings : decoder (slice string) := decode_slice "" decode_string.

Definition decode_output_policy : decoder outputPolicy := decode_object
  [("schema_version", λ v p, x ← decode_string v (op_SchemaVersion p);
      Some (MkOutputPolicy x (op_Action p) (op_TargetIP p) (op_TTLSeconds p) (op_EvidenceIDs p) (op_Rationale p)));
   ("action", λ v p, x ← decode_string v (op_Action p);
      Some (MkOutputPolicy (op_SchemaVersion p) x (op_TargetIP p) (op_TTLSeconds p) (op_EvidenceIDs p) (op_Rationale p)));
   ("target_ip", λ v p, x ← decode_string v (op_TargetIP p);
      Some (MkOutputPolicy (op_SchemaVersion p) (op_Action p) x (op_TTLSeconds p) (op_EvidenceIDs p) (op_Rationale p)));
   ("ttl_seconds", λ v p, x ← decode_uint 32 v (op_TTLSeconds p);
      Some (MkOutputPolicy (op_SchemaVersion p) (op_Action p) (op_TargetIP p) x (op_EvidenceIDs p) (op_Rationale p)));
   ("evidence_ids", λ v p, x ← decode_strings v (op_EvidenceIDs p);
      Some (MkOutputPolicy (op_SchemaVersion p) (op_Action p) (op_TargetIP p) (op_TTLSeconds p) x (op_Rationale p)));
   ("rationale", λ v p, x ← decode_string v (op_Rationale p);
      Some (MkOutputPolicy (op_SchemaVersion p) (op_Action p) (op_TargetIP p) (op_TTLSeconds p) (op_EvidenceIDs p) x))].

Definition decode_output_candidate : decoder outputCandidate := decode_object
  [("schema_version", λ v c, x ← decode_string v (oc_SchemaVersion c);
      Some (MkOutputCandidate x (oc_TargetIP c) (oc_Timeout c) (oc_EvidenceIDs c) (oc_Command c)));
   ("target_ip", λ v c, x ← decode_string v (oc_TargetIP c);
      Some (MkOutputCandidate (oc_SchemaVersion c) x (oc_Timeout c) (oc_EvidenceIDs c) (oc_Command c)));
   ("timeout", λ v c, x ← decode_string v (oc_Timeout c);
      Some (MkOutputCandidate (oc_SchemaVersion c) (oc_TargetIP c) x (oc_EvidenceIDs c) (oc_Command c)));
   ("evidence_ids", λ v c, x ← decode_strings v (oc_EvidenceIDs c);
      Some (MkOutputCandidate (oc_SchemaVersion c) (oc_TargetIP c) (oc_Timeout c) x (oc_Command c)));
   ("command", λ v c, x ← decode_string v (oc_Command c);
      Some (MkOutputCandidate (oc_SchemaVersion c) (oc_TargetIP c) (oc_Timeout c) (oc_EvidenceIDs c) x))].

Definition decode_output : decoder analysisOutput := decode_object
  [("schema_version", λ v o, x ← decode_string v (ao_SchemaVersion o);
      Some (MkOutput x (ao_IncidentSummary o) (ao_Classification o) (ao_Confidence o) (ao_Uncertainty o) (ao_FalsePositiveFactors o) (ao_EvidenceIDs o) (ao_Policy o) (ao_Candidate o)));
   ("incident_summary", λ v o, x ← decode_string v (ao_IncidentSummary o);
      Some (MkOutput (ao_SchemaVersion o) x (ao_Classification o) (ao_Confidence o) (ao_Uncertainty o) (ao_FalsePositiveFactors o) (ao_EvidenceIDs o) (ao_Policy o) (ao_Candidate o)));
   ("classification", λ v o, x ← decode_string v (ao_Classification o);
      Some (MkOutput (ao_SchemaVersion o) (ao_IncidentSummary o) x (ao_Confidence o) (ao_Uncertainty o) (ao_FalsePositiveFactors o) (ao_EvidenceIDs o) (ao_Policy o) (ao_Candidate o)));
   ("confidence", λ v o, x ← decode_float64 v (ao_Confidence o);
      Some (MkOutput (ao_SchemaVersion o) (ao_IncidentSummary o) (ao_Classification o) x (ao_Uncertainty o) (ao_FalsePositiveFactors o) (ao_EvidenceIDs o) (ao_Policy o) (ao_Candidate o)));
   ("uncertainty", λ v o, x ← decode_string v (ao_Uncertainty o);
      Some (MkOutput (ao_SchemaVersion o) (ao_IncidentSummary o) (ao_Classification o) (ao_Confidence o) x (ao_FalsePositiveFactors o) (ao_EvidenceIDs o) (ao_Policy o) (ao_Candidate o)));
   ("false_positive_factors", λ v o, x ← decode_strings v (ao_FalsePositiveFactors o);
      Some (MkOutput (ao_SchemaVersion o) (ao_IncidentSummary o) (ao_Classification o) (ao_Confidence o) (ao_Uncertainty o) x (ao_EvidenceIDs o) (ao_Policy o) (ao_Candidate o)));
   ("evidence_ids", λ v o, x ← decode_strings v (ao_EvidenceIDs o);
      Some (MkOutput (ao_SchemaVersion o) (ao_IncidentSummary o) (ao_Classification o) (ao_Confidence o) (ao_Uncertainty o) (ao_FalsePositiveFactors o) x (ao_Policy o) (ao_Candidate o)));
   ("policy", λ v o, x ← decode_output_policy v (ao_Policy o);
      Some (MkOutput (ao_SchemaVersion o) (ao_IncidentSummary o) (ao_Classification o) (ao_Confidence o) (ao_Uncertainty o) (ao_FalsePositiveFactors o) (ao_EvidenceIDs o) x (ao_Candidate o)));
   ("nftables_command_candidate", λ v o, x ← decode_output_candidate v (ao_Candidate o);
      Some (MkOutput (ao_SchemaVersion o) (ao_IncidentSummary o) (ao_Classification o) (ao_Confidence o) (ao_Uncertainty o) (ao_FalsePositiveFactors o) (ao_EvidenceIDs o) (ao_Policy o) x))].

(** [rejectDuplicateNames] reads one document without duplicate names ([unique_names]
    is [scanJSON]). *)
Definition decodeAnalysisOutput (data : string) : option analysisOutput :=
  if (len data =? 0) || negb (utf8_valid data) then None
  else
    v ← parse_document (chars data);
    if negb (unique_names v) then None else decode_output v zero_output.

(** ** The gate *)

(** [validOrderedUUIDs]; [maximum] 0 is no bound. *)
Fixpoint ordered_uuids (index : nat) (previous : string) (values : list string) : bool :=
  match values with
  | [] => true
  | value :: values =>
      if negb (match_string consistencyUUIDPattern value) || ((0 <? index)%nat && negb (String.ltb previous value)) then false
      else ordered_uuids (S index) value values
  end.

Definition validOrderedUUIDs (values : list string) (maximum : Z) : bool :=
  if (length values =? 0)%nat || ((0 <? maximum) && (maximum <? Z.of_nat (length values))) then false else ordered_uuids 0 "" values.

Definition equalStringSlices (left right : list string) : bool :=
  if negb (length left =? length right)%nat then false else forallb (λ '(l, r), String.eqb l r) (zip left right).

Definition canonicalIPv4Equals (left right : string) : bool := bool_decide (is_Some (canonical_ipv4 left)) && String.eqb left right.

(** One turn of the loop over the signals: the failure code, if any. *)
Definition check_signal (target : string) (signalID : string) (signal : SignalEvidenceBinding) : option string :=
  if negb (String.eqb (se_SignalID signal) signalID) || negb (validDigest (se_SignalDigest signal)) || negb (validOrderedUUIDs (se_EventIDs signal) 0)
  then Some ConsistencyFailureEvidenceMembership
  else if negb (canonicalIPv4Equals (se_SourceIPv4 signal) target) then Some ConsistencyFailureEvidenceTarget
  else if negb (se_ThresholdReproduced signal) || negb (String.eqb (se_SourceHealthStatus signal) SourceHealthComplete)
  then Some ConsistencyFailureEvidenceIncomplete
  else None.

(** The loop: the failure code of the first signal that fails. *)
Fixpoint check_signals (target : string) (signalIDs : list string) (signals : list SignalEvidenceBinding) : option string :=
  match signals, signalIDs with
  | signal :: signals, signalID :: signalIDs =>
      match check_signal target signalID signal with
      | Some code => Some code
      | None => check_signals target signalIDs signals
      end
  | _, _ => None
  end.

(** The keys of [eventUnion], sorted. *)
Definition event_union (signals : list SignalEvidenceBinding) : list string := sorted_unique (concat (se_EventIDs <$> signals)).

Section gate.
Context (nfc : string → string).

(** The checks in order; each stage reports its own code. *)
Definition prerequisite_ok (input : ConsistencyInput) : bool :=
  let gate := ci_SchemaGate input in
  String.eqb (sg_Status gate) SchemaGatePassed && validDigest (sg_AnalysisOutputDigest gate) && validDigest (sg_OutputSchemaDigest gate)
  && validDigest (ci_ExpectedOutputSchemaDigest input)
  && String.eqb (sg_AnalysisOutputDigest gate) (digest (an_Output (ci_Analysis input)))
  && String.eqb (sg_OutputSchemaDigest gate) (an_OutputSchemaDigest (ci_Analysis input))
  && String.eqb (sg_OutputSchemaDigest gate) (ci_ExpectedOutputSchemaDigest input)
  && negb (len (crp_canonical (ci_Policy input)) =? 0) && validDigest (crp_digest (ci_Policy input))
  && negb (len (art_generatedBytes (ci_Candidate input)) =? 0) && negb (len (art_canonicalBytes (ci_Candidate input)) =? 0)
  && validDigest (art_generatedDigest (ci_Candidate input)) && validDigest (art_canonicalDigest (ci_Candidate input)).

Definition analysis_ok (input : ConsistencyInput) : bool :=
  let analysis := ci_Analysis input in
  let policy := crp_value (ci_Policy input) in
  match_string consistencyUUIDPattern (an_AnalysisID analysis) && String.eqb (an_AnalysisID analysis) (rp_AnalysisID policy)
  && String.eqb (an_IncidentID analysis) (rp_IncidentID policy) && String.eqb (an_IncidentID analysis) (ev_IncidentID (ci_Evidence input))
  && negb (an_IncidentVersion analysis =? 0) && (an_IncidentVersion analysis =? ev_IncidentVersion (ci_Evidence input))
  && validDigest (an_AnalysisInputDigest analysis) && String.eqb (an_AnalysisInputDigest analysis) (ev_AnalysisInputDigest (ci_Evidence input)).

Definition snapshot_ok (input : ConsistencyInput) : bool :=
  let evidence := ci_Evidence input in
  let policy := crp_value (ci_Policy input) in
  validDigest (ev_SnapshotDigest evidence) && String.eqb (ev_SnapshotDigest evidence) (rp_EvidenceSnapshotDigest policy)
  && String.eqb (ev_IncidentID evidence) (rp_IncidentID policy) && negb (ev_IncidentVersion evidence =? 0)
  && canonicalIPv4Equals (ev_SourceIPv4 evidence) (rp_TargetIPv4 policy) && validDigest (ev_SourceHealthDigest evidence).

Definition complete_ok (input : ConsistencyInput) : bool :=
  String.eqb (ev_SourceHealthStatus (ci_Evidence input)) SourceHealthComplete && negb (length (ev_Signals (ci_Evidence input)) =? 0)%nat.

Definition membership_ok (input : ConsistencyInput) : bool :=
  let evidence := ci_Evidence input in
  let policy := crp_value (ci_Policy input) in
  validOrderedUUIDs (ev_SignalIDs evidence) (Z.of_nat MaxEvidenceIDs) && validOrderedUUIDs (ev_EventIDs evidence) 0
  && equalStringSlices (ev_SignalIDs evidence) (rp_EvidenceIDs policy)
  && equalStringSlices (art_evidenceIDs (ci_Candidate input)) (rp_EvidenceIDs policy)
  && (length (ev_Signals evidence) =? length (ev_SignalIDs evidence))%nat.

Definition output_evidence_ok (output : analysisOutput) (policy : ResponsePolicy) : bool :=
  equalStringSlices (elements (ao_EvidenceIDs output)) (rp_EvidenceIDs policy)
  && equalStringSlices (elements (op_EvidenceIDs (ao_Policy output))) (rp_EvidenceIDs policy)
  && equalStringSlices (elements (oc_EvidenceIDs (ao_Candidate output))) (rp_EvidenceIDs policy).

Definition output_policy_ok (output : analysisOutput) (policy : ResponsePolicy) : bool :=
  let p := ao_Policy output in
  String.eqb (op_SchemaVersion p) PolicySchemaVersion && String.eqb (op_Action p) ActionBlockIP && String.eqb (op_Action p) (rp_Action policy)
  && String.eqb (op_TargetIP p) (rp_TargetIPv4 policy) && (op_TTLSeconds p =? rp_TTLSeconds policy).

Definition rationale_ok (output : analysisOutput) (policy : ResponsePolicy) : bool :=
  let rationale := nfc (op_Rationale (ao_Policy output)) in
  negb (String.eqb rationale "") && utf8_valid rationale && String.eqb (digest rationale) (rp_RationaleDigest policy).

Definition output_candidate_ok (output : analysisOutput) (policy : ResponsePolicy) (candidate : Artifact) : bool :=
  let c := ao_Candidate output in
  let ast := art_ast candidate in
  String.eqb (oc_SchemaVersion c) CandidateSchemaVersion && String.eqb (oc_TargetIP c) (rp_TargetIPv4 policy)
  && String.eqb (oc_TargetIP c) (ast_TargetIPv4 ast) && String.eqb (oc_Timeout c) (ast_inputTTLToken ast)
  && (ast_ttlSeconds ast =? rp_TTLSeconds policy) && String.eqb (oc_Command c) (art_generatedBytes candidate).

Definition canonical_token_ok (policy : ResponsePolicy) (candidate : Artifact) : bool :=
  match CanonicalTTL (rp_TTLSeconds policy) with
  | Ok token => String.eqb token (art_canonicalToken candidate)
  | Err _ => false
  end.

Definition CheckConsistency (input : ConsistencyInput) : ConsistencyResult :=
  let policy := crp_value (ci_Policy input) in
  let candidate := ci_Candidate input in
  let evidence := ci_Evidence input in
  if negb (prerequisite_ok input)
  then MkConsistencyResult ConsistencyFailed ConsistencyFailurePrerequisite "" "" "" "" "" "" "" ""
  else
    let answer status code target snapshot analysisInput rationale :=
      MkConsistencyResult status code target (crp_digest (ci_Policy input)) (art_generatedDigest candidate) (art_canonicalDigest candidate)
        snapshot analysisInput (sg_AnalysisOutputDigest (ci_SchemaGate input)) rationale in
    if negb (analysis_ok input) then answer ConsistencyFailed ConsistencyFailureAnalysis "" "" "" ""
    else
      let analysisInput := an_AnalysisInputDigest (ci_Analysis input) in
      if negb (snapshot_ok input) then answer ConsistencyFailed ConsistencyFailureEvidenceSnapshot "" "" analysisInput ""
      else
        let fail code := answer ConsistencyFailed code (rp_TargetIPv4 policy) (ev_SnapshotDigest evidence) analysisInput "" in
        if negb (complete_ok input) then fail ConsistencyFailureEvidenceIncomplete
        else if negb (membership_ok input) then fail ConsistencyFailureEvidenceMembership
        else
          match check_signals (rp_TargetIPv4 policy) (ev_SignalIDs evidence) (ev_Signals evidence) with
          | Some code => fail code
          | None =>
              if negb (equalStringSlices (event_union (ev_Signals evidence)) (ev_EventIDs evidence)) then fail ConsistencyFailureEvidenceMembership
              else
                match decodeAnalysisOutput (an_Output (ci_Analysis input)) with
                | None => fail ConsistencyFailureOutput
                | Some output =>
                    if negb (String.eqb (ao_SchemaVersion output) AnalysisOutputSchemaV1) then fail ConsistencyFailureOutput
                    else if negb (output_evidence_ok output policy) then fail ConsistencyFailureEvidenceMembership
                    else if negb (output_policy_ok output policy) then fail ConsistencyFailurePolicy
                    else if negb (rationale_ok output policy) then fail ConsistencyFailureRationale
                    else
                      let finish status code := answer status code (rp_TargetIPv4 policy) (ev_SnapshotDigest evidence) analysisInput (rp_RationaleDigest policy) in
                      if negb (output_candidate_ok output policy candidate) then finish ConsistencyFailed ConsistencyFailureCandidate
                      else if negb (canonical_token_ok policy candidate) then finish ConsistencyFailed ConsistencyFailureCandidate
                      else finish ConsistencyPassed ConsistencyFailureNone
                end
          end.

End gate.
