(* ===== verification/ConsistencySpec.v ===== *)
(** * What the consistency gate guarantees

    A passed result is equivalent to a declarative statement on the analysis, policy,
    command and evidence; the event set is a union, not a list comparison. *)

From S2P Require Import Prelude GoSort GoStrings Regex Sha256 Json JsonTree GoTime Netip Policy PolicySpec ResponsePolicy Protected ProtectedSpec Consistency.
Local Open Scope Z_scope.

(** ** The helpers *)

Lemma equalStringSlices_iff l r : equalStringSlices l r = true ↔ l = r.
Proof.
  unfold equalStringSlices. destruct (length l =? length r)%nat eqn:E; cbn [negb]; breflect.
  - revert r E. induction l as [|x l IH]; intros [|y r] E; cbn [length] in E; try lia; cbn [zip zip_with forallb]; [done|].
    rewrite andb_true_iff, String.eqb_eq. fold (zip l r). rewrite (IH r ltac:(lia)). split; [by intros [-> ->]|by intros [= -> ->]].
  - split; [done|]. intros ->. done.
Qed.

Lemma ordered_uuids_evidence values : ∀ index previous, ordered_uuids index previous values = validEvidenceIDs_loop index previous values.
Proof. induction values as [|v values IH]; intros; cbn [ordered_uuids validEvidenceIDs_loop]; [done|]. by rewrite IH. Qed.

(** Strictly increasing UUIDs. *)
Definition uuid_list (l : list string) : Prop := StronglySorted str_lt l ∧ Forall (λ s, match_string uuid_pattern s = true) l.

Lemma validOrderedUUIDs_iff l maximum : validOrderedUUIDs l maximum = true ↔ l ≠ [] ∧ (maximum <= 0 ∨ Z.of_nat (length l) <= maximum) ∧ uuid_list l.
Proof.
  unfold validOrderedUUIDs, uuid_list. destruct (_ || _) eqn:E.
  - split; [done|]. intros (Hne & Hm & _). breflect. destruct E as [H0|[H1 H2]]; [by destruct l|lia].
  - rewrite ordered_uuids_evidence, validEvidenceIDs_loop_spec. apply orb_false_iff in E as [E1 E2]. breflect.
    assert (l ≠ []) by (by intros ->). assert (maximum <= 0 ∨ Z.of_nat (length l) <= maximum) by lia.
    split; [intros (? & ? & _); tauto|]. intros (_ & _ & ? & ?). split_and!; [done..|lia].
Qed.

Lemma canonicalIPv4Equals_iff l r : canonicalIPv4Equals l r = true ↔ l = r ∧ ∃ a, addr4_ok a = true ∧ r = addr4_string a.
Proof.
  unfold canonicalIPv4Equals. rewrite andb_true_iff, bool_decide_eq_true, String.eqb_eq. split.
  - intros [[a [<- Ha]%canonical_ipv4_spec] <-]. eauto.
  - intros (-> & a & Ha & ->). split; [|done]. exists a. by apply canonical_ipv4_spec.
Qed.

(** ** Signals *)

Record signal_ok (target : string) (s : SignalEvidenceBinding) : Prop := {
  sig_digest : match_string digest_pattern (se_SignalDigest s) = true;
  sig_events : se_EventIDs s ≠ [] ∧ uuid_list (se_EventIDs s);
  sig_source : se_SourceIPv4 s = target;
  sig_reproduced : se_ThresholdReproduced s = true;
  sig_complete : se_SourceHealthStatus s = SourceHealthComplete
}.

Lemma check_signal_none target a id s : addr4_ok a = true → target = addr4_string a →
  check_signal target id s = None ↔ se_SignalID s = id ∧ signal_ok target s.
Proof.
  intros Ha Ht. unfold check_signal. rewrite validDigest_pattern. split.
  - destruct (negb (String.eqb (se_SignalID s) id) || _ || _) eqn:E1; [done|]. destruct (negb (canonicalIPv4Equals _ _)) eqn:E2; [done|].
    destruct (negb (se_ThresholdReproduced s) || _) eqn:E3; [done|]. intros _.
    rewrite !orb_false_iff, !negb_false_iff, !String.eqb_eq in E1. rewrite negb_false_iff in E2. rewrite orb_false_iff, !negb_false_iff, String.eqb_eq in E3. apply canonicalIPv4Equals_iff in E2 as [? _].
    destruct E1 as [[? ?] (? & _ & ?)%validOrderedUUIDs_iff]. destruct E3. split; [done|]. by split.
  - intros (-> & [H1 [H2 H2'] H3 H4 H5]). rewrite String.eqb_refl, H1, H4, H5, (proj2 (validOrderedUUIDs_iff _ 0)) by (split_and!; [done|left; lia|done]).
    rewrite (proj2 (canonicalIPv4Equals_iff _ _)) by eauto. done.
Qed.

Lemma check_signals_none target a signals : addr4_ok a = true → target = addr4_string a → ∀ ids, length signals = length ids →
  check_signals target ids signals = None ↔ se_SignalID <$> signals = ids ∧ Forall (signal_ok target) signals.
Proof.
  intros Ha Ht. induction signals as [|s signals IH]; intros [|id ids] Hl; cbn [length] in Hl; try lia; [done|].
  cbn [check_signals fmap list_fmap]. rewrite Forall_cons. pose proof (check_signal_none target a id s Ha Ht) as Hs.
  destruct (check_signal target id s) as [code|].
  - split; [done|]. intros [[= H1 _] [H2 _]]. by assert (Some code = None) by (by apply Hs).
  - rewrite IH by lia. destruct (proj1 Hs eq_refl) as [-> ?]. split; [intros [<- ?]; done|]. intros [[= <-] [_ ?]]. done.
Qed.

(** The evidence lists every event of its signals and no other. *)
Lemma event_union_iff signals events : StronglySorted str_lt events →
  event_union signals = events ↔ ∀ e, e ∈ events ↔ ∃ s, s ∈ signals ∧ e ∈ se_EventIDs s.
Proof.
  intros Hs. assert (Hu : ∀ e, e ∈ event_union signals ↔ ∃ s, s ∈ signals ∧ e ∈ se_EventIDs s).
  { intros e. unfold event_union. rewrite sorted_unique_elem, elem_of_concat. split.
    - intros (l & (s & -> & Hin)%list_elem_of_fmap & He). eauto.
    - intros (s & Hin & He). exists (se_EventIDs s). split; [|done]. by apply list_elem_of_fmap_2. }
  split; [intros <-; exact Hu|]. intros H. apply str_lt_sorted_ext; [apply sorted_unique_sorted|done|]. intros e. by rewrite Hu, H.
Qed.

(** ** The gate *)

Section gate.
Context (nfc : string → string).

(** The chain of bindings a passed result stands for. *)
Record consistent_chain (input : ConsistencyInput) (target : addr4) (output : analysisOutput) : Prop := {
  cc_schema : sg_Status (ci_SchemaGate input) = SchemaGatePassed
    ∧ sg_OutputSchemaDigest (ci_SchemaGate input) = an_OutputSchemaDigest (ci_Analysis input)
    ∧ sg_OutputSchemaDigest (ci_SchemaGate input) = ci_ExpectedOutputSchemaDigest input
    ∧ match_string digest_pattern (ci_ExpectedOutputSchemaDigest input) = true
    ∧ sg_AnalysisOutputDigest (ci_SchemaGate input) = digest (an_Output (ci_Analysis input));
  cc_nonempty : crp_canonical (ci_Policy input) ≠ "" ∧ art_generatedBytes (ci_Candidate input) ≠ "" ∧ art_canonicalBytes (ci_Candidate input) ≠ "";
  cc_digests : match_string digest_pattern (crp_digest (ci_Policy input)) = true
    ∧ match_string digest_pattern (art_generatedDigest (ci_Candidate input)) = true
    ∧ match_string digest_pattern (art_canonicalDigest (ci_Candidate input)) = true;
  cc_analysis : an_AnalysisID (ci_Analysis input) = rp_AnalysisID (crp_value (ci_Policy input))
    ∧ match_string uuid_pattern (an_AnalysisID (ci_Analysis input)) = true
    ∧ an_AnalysisInputDigest (ci_Analysis input) = ev_AnalysisInputDigest (ci_Evidence input)
    ∧ match_string digest_pattern (an_AnalysisInputDigest (ci_Analysis input)) = true;
  cc_incident : an_IncidentID (ci_Analysis input) = rp_IncidentID (crp_value (ci_Policy input))
    ∧ ev_IncidentID (ci_Evidence input) = rp_IncidentID (crp_value (ci_Policy input))
    ∧ an_IncidentVersion (ci_Analysis input) = ev_IncidentVersion (ci_Evidence input) ∧ ev_IncidentVersion (ci_Evidence input) ≠ 0;
  cc_target : addr4_ok target = true ∧ rp_TargetIPv4 (crp_value (ci_Policy input)) = addr4_string target
    ∧ ev_SourceIPv4 (ci_Evidence input) = addr4_string target;
  cc_snapshot : ev_SnapshotDigest (ci_Evidence input) = rp_EvidenceSnapshotDigest (crp_value (ci_Policy input))
    ∧ match_string digest_pattern (ev_SnapshotDigest (ci_Evidence input)) = true
    ∧ match_string digest_pattern (ev_SourceHealthDigest (ci_Evidence input)) = true
    ∧ ev_SourceHealthStatus (ci_Evidence input) = SourceHealthComplete;
  cc_evidence : evidence_ok (rp_EvidenceIDs (crp_value (ci_Policy input)))
    ∧ art_evidenceIDs (ci_Candidate input) = rp_EvidenceIDs (crp_value (ci_Policy input))
    ∧ ev_SignalIDs (ci_Evidence input) = rp_EvidenceIDs (crp_value (ci_Policy input))
    ∧ se_SignalID <$> ev_Signals (ci_Evidence input) = rp_EvidenceIDs (crp_value (ci_Policy input))
    ∧ elements (ao_EvidenceIDs output) = rp_EvidenceIDs (crp_value (ci_Policy input))
    ∧ elements (op_EvidenceIDs (ao_Policy output)) = rp_EvidenceIDs (crp_value (ci_Policy input))
    ∧ elements (oc_EvidenceIDs (ao_Candidate output)) = rp_EvidenceIDs (crp_value (ci_Policy input));
  cc_signals : Forall (signal_ok (addr4_string target)) (ev_Signals (ci_Evidence input));
  cc_events : uuid_list (ev_EventIDs (ci_Evidence input))
    ∧ ∀ e, e ∈ ev_EventIDs (ci_Evidence input) ↔ ∃ s, s ∈ ev_Signals (ci_Evidence input) ∧ e ∈ se_EventIDs s;
  cc_output : decodeAnalysisOutput (an_Output (ci_Analysis input)) = Some output ∧ ao_SchemaVersion output = AnalysisOutputSchemaV1;
  cc_output_policy : op_SchemaVersion (ao_Policy output) = PolicySchemaVersion ∧ op_Action (ao_Policy output) = ActionBlockIP
    ∧ rp_Action (crp_value (ci_Policy input)) = ActionBlockIP ∧ op_TargetIP (ao_Policy output) = addr4_string target
    ∧ op_TTLSeconds (ao_Policy output) = rp_TTLSeconds (crp_value (ci_Policy input));
  cc_rationale : nfc (op_Rationale (ao_Policy output)) ≠ "" ∧ utf8_valid (nfc (op_Rationale (ao_Policy output))) = true
    ∧ digest (nfc (op_Rationale (ao_Policy output))) = rp_RationaleDigest (crp_value (ci_Policy input));
  cc_output_candidate : oc_SchemaVersion (ao_Candidate output) = CandidateSchemaVersion ∧ oc_TargetIP (ao_Candidate output) = addr4_string target
    ∧ oc_Timeout (ao_Candidate output) = ast_inputTTLToken (art_ast (ci_Candidate input))
    ∧ oc_Command (ao_Candidate output) = art_generatedBytes (ci_Candidate input);
  cc_command : ast_TargetIPv4 (art_ast (ci_Candidate input)) = addr4_string target
    ∧ ast_ttlSeconds (art_ast (ci_Candidate input)) = rp_TTLSeconds (crp_value (ci_Policy input))
    ∧ CanonicalTTL (rp_TTLSeconds (crp_value (ci_Policy input))) = Ok (art_canonicalToken (ci_Candidate input))
}.

(** A stage that failed: the run did not pass, and neither do the stages. *)
Ltac refute_stage :=
  split; [let H := fresh in intros H; contradiction|let H := fresh in intros H; decompose [and ex] H; congruence].

(** The stages of a run that passes. *)
Lemma CheckConsistency_stages input : cr_Status (CheckConsistency nfc input) = ConsistencyPassed ↔
  prerequisite_ok input = true ∧ analysis_ok input = true ∧ snapshot_ok input = true ∧ complete_ok input = true ∧ membership_ok input = true
  ∧ check_signals (rp_TargetIPv4 (crp_value (ci_Policy input))) (ev_SignalIDs (ci_Evidence input)) (ev_Signals (ci_Evidence input)) = None
  ∧ event_union (ev_Signals (ci_Evidence input)) = ev_EventIDs (ci_Evidence input)
  ∧ ∃ output, decodeAnalysisOutput (an_Output (ci_Analysis input)) = Some output ∧ ao_SchemaVersion output = AnalysisOutputSchemaV1
    ∧ output_evidence_ok output (crp_value (ci_Policy input)) = true ∧ output_policy_ok output (crp_value (ci_Policy input)) = true
    ∧ rationale_ok nfc output (crp_value (ci_Policy input)) = true
    ∧ output_candidate_ok output (crp_value (ci_Policy input)) (ci_Candidate input) = true
    ∧ canonical_token_ok (crp_value (ci_Policy input)) (ci_Candidate input) = true.
Proof.
  assert (Hne : ConsistencyFailed ≠ ConsistencyPassed) by done. rewrite <-equalStringSlices_iff. unfold CheckConsistency. cbv zeta.
  destruct (prerequisite_ok input); cbn [negb cr_Status]; [|refute_stage]. destruct (analysis_ok input); cbn [negb cr_Status]; [|refute_stage].
  destruct (snapshot_ok input); cbn [negb cr_Status]; [|refute_stage]. destruct (complete_ok input); cbn [negb cr_Status]; [|refute_stage].
  destruct (membership_ok input); cbn [negb cr_Status]; [|refute_stage]. destruct (check_signals _ _ _) as [code|]; cbn [cr_Status]; [refute_stage|].
  destruct (equalStringSlices _ _); cbn [negb cr_Status]; [|refute_stage]. destruct (decodeAnalysisOutput _) as [output|]; cbn [cr_Status]; [|refute_stage].
  destruct (String.eqb_spec (ao_SchemaVersion output) AnalysisOutputSchemaV1); cbn [negb cr_Status]; [|refute_stage].
  destruct (output_evidence_ok output _) eqn:E1; cbn [negb cr_Status]; [|refute_stage]. destruct (output_policy_ok output _) eqn:E2; cbn [negb cr_Status]; [|refute_stage].
  destruct (rationale_ok nfc output _) eqn:E3; cbn [negb cr_Status]; [|refute_stage]. destruct (output_candidate_ok output _ _) eqn:E4; cbn [negb cr_Status]; [|refute_stage].
  destruct (canonical_token_ok _ _) eqn:E5; cbn [negb cr_Status]; [|refute_stage]. split; [intros _|done]. split_and!; try done. by exists output.
Qed.

Lemma len_zero s : (len s =? 0) = String.eqb s "".
Proof. by destruct s. Qed.

Lemma prerequisite_iff input : prerequisite_ok input = true ↔
  (sg_Status (ci_SchemaGate input) = SchemaGatePassed
    ∧ sg_OutputSchemaDigest (ci_SchemaGate input) = an_OutputSchemaDigest (ci_Analysis input)
    ∧ sg_OutputSchemaDigest (ci_SchemaGate input) = ci_ExpectedOutputSchemaDigest input
    ∧ match_string digest_pattern (ci_ExpectedOutputSchemaDigest input) = true
    ∧ sg_AnalysisOutputDigest (ci_SchemaGate input) = digest (an_Output (ci_Analysis input)))
  ∧ (crp_canonical (ci_Policy input) ≠ "" ∧ art_generatedBytes (ci_Candidate input) ≠ "" ∧ art_canonicalBytes (ci_Candidate input) ≠ "")
  ∧ (match_string digest_pattern (crp_digest (ci_Policy input)) = true
    ∧ match_string digest_pattern (art_generatedDigest (ci_Candidate input)) = true
    ∧ match_string digest_pattern (art_canonicalDigest (ci_Candidate input)) = true).
Proof.
  unfold prerequisite_ok. cbv zeta. rewrite !andb_true_iff, !negb_true_iff, !len_zero, !String.eqb_eq, !String.eqb_neq, !validDigest_pattern. split.
  - intros H. destruct_and! H. split_and!; congruence.
  - intros ((H1 & H2 & H3 & H4 & H5) & (H6 & H7 & H8) & (H9 & H10 & H11)). split_and!; try done; [|congruence].
    rewrite H5. apply digest_matches.
Qed.

(** The identifiers of the analysis and of the incident, and the source of the evidence. *)
Lemma bindings_iff input : analysis_ok input = true ∧ snapshot_ok input = true ↔
  (an_AnalysisID (ci_Analysis input) = rp_AnalysisID (crp_value (ci_Policy input))
    ∧ match_string uuid_pattern (an_AnalysisID (ci_Analysis input)) = true
    ∧ an_AnalysisInputDigest (ci_Analysis input) = ev_AnalysisInputDigest (ci_Evidence input)
    ∧ match_string digest_pattern (an_AnalysisInputDigest (ci_Analysis input)) = true)
  ∧ (an_IncidentID (ci_Analysis input) = rp_IncidentID (crp_value (ci_Policy input))
    ∧ ev_IncidentID (ci_Evidence input) = rp_IncidentID (crp_value (ci_Policy input))
    ∧ an_IncidentVersion (ci_Analysis input) = ev_IncidentVersion (ci_Evidence input) ∧ ev_IncidentVersion (ci_Evidence input) ≠ 0)
  ∧ (∃ target, addr4_ok target = true ∧ rp_TargetIPv4 (crp_value (ci_Policy input)) = addr4_string target
    ∧ ev_SourceIPv4 (ci_Evidence input) = addr4_string target)
  ∧ ev_SnapshotDigest (ci_Evidence input) = rp_EvidenceSnapshotDigest (crp_value (ci_Policy input))
  ∧ match_string digest_pattern (ev_SnapshotDigest (ci_Evidence input)) = true
  ∧ match_string digest_pattern (ev_SourceHealthDigest (ci_Evidence input)) = true.
Proof.
  unfold analysis_ok, snapshot_ok, consistencyUUIDPattern. cbv zeta.
  rewrite !andb_true_iff, !negb_true_iff, !String.eqb_eq, !Z.eqb_neq, !Z.eqb_eq, !validDigest_pattern, canonicalIPv4Equals_iff. split.
  - intros [H1 H2]. destruct_and! H1. destruct_and! H2. split_and!; try congruence.
    match goal with H : ∃ a, _ |- _ => destruct H as (a & Ha & Ht) end. exists a. split_and!; congruence.
  - intros ((? & ? & ? & ?) & (? & ? & ? & ?) & (a & Ha & Ht & Hs) & ? & ? & ?). split_and!; try congruence. by exists a.
Qed.

Lemma consistent_iff input : cr_Status (CheckConsistency nfc input) = ConsistencyPassed ↔ ∃ target output, consistent_chain input target output.
Proof.
  rewrite CheckConsistency_stages. split.
  - intros (Hp & Ha & Hs & Hc & Hm & Hk & Hu & output & Hd & Hv & He & Hop & Hr & Hoc & Ht).
    apply prerequisite_iff in Hp as (Hp1 & Hp2 & Hp3). destruct (proj1 (bindings_iff input) (conj Ha Hs)) as (Hb1 & Hb2 & (target & Hta & Htt & Hts) & Hb3 & Hb4 & Hb5).
    exists target, output. unfold complete_ok, membership_ok in *. cbv zeta in *.
    rewrite !andb_true_iff, !validOrderedUUIDs_iff, !equalStringSlices_iff, Nat.eqb_eq in Hm. destruct Hm as ((((Hm1 & Hm2) & Hm3) & Hm4) & Hm5).
    rewrite andb_true_iff, String.eqb_eq in Hc. destruct Hc as [Hc _].
    apply (check_signals_none _ target) in Hk as [Hk1 Hk2]; [|done..]. rewrite Htt in Hk2.
    rewrite event_union_iff in Hu by apply Hm2. unfold output_evidence_ok, output_policy_ok, rationale_ok, output_candidate_ok, canonical_token_ok in *. cbv zeta in *.
    rewrite !andb_true_iff, !equalStringSlices_iff in He. rewrite !andb_true_iff, !String.eqb_eq, Z.eqb_eq in Hop.
    rewrite !andb_true_iff, negb_true_iff, String.eqb_neq, String.eqb_eq in Hr. rewrite !andb_true_iff, !String.eqb_eq, Z.eqb_eq in Hoc.
    destruct (CanonicalTTL _) as [token|] eqn:Ec; [|done]. apply String.eqb_eq in Ht. subst token. destruct_and! Hop. destruct_and! Hoc. destruct_and! He. destruct_and! Hr.
    split; split_and?; try done; try congruence; try tauto. rewrite <-Hm3. unfold evidence_ok. destruct Hm1 as (Hne & [|] & [? ?]); [done|].
    split_and!; try done; [by destruct (ev_SignalIDs _) as [|? ?]; [|cbn; lia]|lia].
  - intros (target & output & [Hschema Hne Hdig Han Hinc Htar Hsnap Hev Hsig Hevents Hout Hop Hrat Hoc Hcmd]).
    destruct Hsnap as (Hsn1 & Hsn2 & Hsn3 & Hsn4), Hev as (He1 & He2 & He3 & He4 & He5 & He6 & He7), Hevents as [Hev1 Hev2], Htar as (Hta & Htt & Hts).
    destruct (proj2 (bindings_iff input)) as [Ha Hs]; [split_and!; try tauto; by exists target|].
    assert (Hlen : length (ev_Signals (ci_Evidence input)) = length (ev_SignalIDs (ci_Evidence input))) by (by rewrite He3, <-He4, length_fmap).
    destruct He1 as ([Hl1 Hl2] & Huu & Hss).
    assert (Hpos : ∃ s rest, ev_Signals (ci_Evidence input) = s :: rest)
      by (destruct (ev_Signals (ci_Evidence input)) as [|s rest]; [cbn in He4; rewrite <-He4 in Hl1; cbn in Hl1; lia|by eauto]).
    split; [apply prerequisite_iff; tauto|]. split; [done|]. split; [done|]. split.
    { unfold complete_ok. rewrite Hsn4. destruct Hpos as (s & rest & ->). done. }
    split.
    { unfold membership_ok. cbv zeta. rewrite !andb_true_iff, !validOrderedUUIDs_iff, !equalStringSlices_iff, Nat.eqb_eq. rewrite He3. split_and!; try done.
      - intros Hnil. rewrite Hnil in Hl1. cbn in Hl1. lia.
      - right. lia.
      - destruct Hpos as (s & rest & Hp). rewrite Hp in *. apply Forall_cons in Hsig as [[_ [Hse _] _ _ _] _]. destruct (se_EventIDs s) as [|e es] eqn:Ee; [done|].
        intros Hnil. specialize (Hev2 e). rewrite Hnil in Hev2. apply (elem_of_nil e). apply Hev2. exists s. rewrite Ee, !elem_of_cons. by auto.
      - left. lia. - by rewrite Hlen, He3. }
    split; [apply (check_signals_none _ target); [done..|]; rewrite Htt, He3; done|]. split; [apply event_union_iff; [by apply Hev1|done]|].
    exists output. unfold output_evidence_ok, output_policy_ok, rationale_ok, output_candidate_ok, canonical_token_ok. cbv zeta.
    rewrite He5, He6, He7, (proj2 (equalStringSlices_iff _ _) eq_refl). destruct Hcmd as (Hc1 & Hc2 & ->). destruct Hop as (-> & -> & -> & -> & ->).
    destruct Hrat as (Hr1 & -> & ->), Hoc as (-> & -> & -> & ->). rewrite Htt, Hc1, Hc2, !String.eqb_refl, !Z.eqb_refl, (proj2 (String.eqb_neq _ _) Hr1).
    split_and!; done || apply Hout.
Qed.

End gate.
