(* ===== verification/ValidationGates.v ===== *)
(** * The validation gates together

    The consistency gate, the protected-address gate and the candidate validator as the
    validation worker chains them: the target that passes is the source of every
    signal, is not protected, and is the target of the canonical command. *)

From S2P Require Import Prelude GoSort GoStrings Regex Sha256 Json JsonTree GoTime Netip NetPrefix CanonicalJson Policy PolicySpec ResponsePolicy ResponsePolicySpec.
From S2P Require Import Executor NftRunner NftValidate NftValidateSpec Protected ProtectedSpec ProtectedShipped Consistency ConsistencySpec.
Local Open Scope Z_scope.

(** [AuthorizeTarget] of the worker: the target of the protected-address verdict. *)
Definition authorize_from (verdict : ProtectedResult) : addr4 → bool := λ address, Allowed verdict && String.eqb (addr4_string address) (pr_TargetIPv4 verdict).

(** The verdict on the target of the policy. *)
Definition protected_verdict (nfc : string → string) (gate : ProtectedGate) (input : ConsistencyInput) : ProtectedResult :=
  Check (Some gate) (MkProtectedInput (rp_TargetIPv4 (crp_value (ci_Policy input))) (CheckConsistency nfc input)).

(** The candidate validator on the command and the TTL of the policy. *)
Definition validate_candidate (nfc : string → string) (gate : ProtectedGate) (input : ConsistencyInput) (base live : string) : result ValidateErrorCode ValidateResult :=
  Validate (MkValidateInput (art_generatedBytes (ci_Candidate input)) (rp_TTLSeconds (crp_value (ci_Policy input)))
    (Some (authorize_from (protected_verdict nfc gate input))) base live).

(** The verdict on an allowed target names it. *)
Lemma Check_target g input : Allowed (Check (Some g) input) = true → pr_TargetIPv4 (Check (Some g) input) = pi_TargetIPv4 input.
Proof.
  unfold Check. destruct (_ || _); [done|]. destruct (parseCanonicalIPv4 _) as [a|] eqn:E; [|done]. destruct (negb _); [done|].
  destruct (pg_runtime g !! a); [done|]. destruct (List.find _ _); [done|]. apply parseCanonicalIPv4_iff in E as [<- _].
  destruct (match_entries _ _ _ _) as [[entry p]|[|]]; [done|reflexivity|reflexivity].
Qed.

(** A command built for the policy: what the consistency gate says of it. *)
Lemma built_command nfc input target output p c : consistent_chain nfc input target output → BuildArtifact p c = Ok (ci_Candidate input) →
  ∃ newline, let policy := crp_value (ci_Policy input) in let token := art_canonicalToken (ci_Candidate input) in
    is_global_unicast target = true ∧ MinTTLSeconds <= rp_TTLSeconds policy <= MaxTTLSeconds ∧ CanonicalTTL (rp_TTLSeconds policy) = Ok token
    ∧ ParseTTL (cand_TimeoutToken c) = Ok (rp_TTLSeconds policy)
    ∧ art_generatedBytes (ci_Candidate input) = command_text target (cand_TimeoutToken c) newline
    ∧ art_generatedDigest (ci_Candidate input) = digest (art_generatedBytes (ci_Candidate input))
    ∧ art_canonicalBytes (ci_Candidate input) = command_text target token true
    ∧ art_canonicalDigest (ci_Candidate input) = digest (command_text target token true).
Proof.
  intros Hchain Hb. destruct (BuildArtifact_consistent _ _ _ Hb) as (a & newline & token & Hcon & Htok).
  rewrite (BuildArtifact_complete _ _ _ _ _ Hcon Htok) in Hb. apply (f_equal (from_ok (ci_Candidate input))) in Hb. cbn [from_ok] in Hb.
  destruct (cc_command _ _ _ _ Hchain) as (H1 & H2 & H3), (cc_target _ _ _ _ Hchain) as (Ha & _). rewrite <-Hb in *. clear Hb.
  unfold artifact_of, ast_TargetIPv4 in *. cbn [art_ast ast_target ast_ttlSeconds art_canonicalToken art_generatedBytes art_generatedDigest art_canonicalBytes art_canonicalDigest] in *.
  apply addr4_string_inj in H1; [|by apply (con_addr _ _ _ _ Hcon)|done]. subst a. exists newline. cbv zeta. rewrite <-H2.
  pose proof (con_ttl _ _ _ _ Hcon) as Httl. pose proof (proj1 (ParseTTL_iff _ _) Httl) as [_ Hr].
  split_and!; try done; try lia; [apply (con_global _ _ _ _ Hcon)|apply (con_bytes _ _ _ _ Hcon)].
Qed.

(** What the gates establish of a command they let through. *)
Record vetted (nfc : string → string) (contract : ProtectedContract) (config : ProtectedConfig) (input : ConsistencyInput) (r : ValidateResult) (target : addr4) : Prop := {
  vet_target : rp_TargetIPv4 (crp_value (ci_Policy input)) = addr4_string target ∧ addr4_ok target = true ∧ is_global_unicast target = true;
  vet_unprotected : unprotected contract config target;
  vet_chain : ∃ output, consistent_chain nfc input target output;
  vet_command : ∃ token, CanonicalTTL (rp_TTLSeconds (crp_value (ci_Policy input))) = Ok token
    ∧ ca_canonical (vr_artifact r) = command_text target token true ∧ ca_canonicalDigest (vr_artifact r) = digest (command_text target token true)
    ∧ art_canonicalBytes (ci_Candidate input) = ca_canonical (vr_artifact r) ∧ art_canonicalDigest (ci_Candidate input) = ca_canonicalDigest (vr_artifact r)
    ∧ art_generatedDigest (ci_Candidate input) = ca_generatedDigest (vr_artifact r) ∧ art_canonicalToken (ci_Candidate input) = ca_canonicalToken (vr_artifact r);
  vet_artifact : ca_target (vr_artifact r) = target ∧ ca_ttlSeconds (vr_artifact r) = rp_TTLSeconds (crp_value (ci_Policy input));
  vet_schema : vr_schema r = MkSchemaProof PinnedBaseChainRawDigest PinnedLiveSchemaDigest canonicalLiveSchema
}.

(** The target and the chain behind an allowed verdict. *)
Lemma allowed_chain nfc raw contract config g input : accepted_contract raw contract → NewProtectedGate contract config = Ok g →
  Allowed (protected_verdict nfc g input) = true →
  ∃ target output, addr4_ok target = true ∧ rp_TargetIPv4 (crp_value (ci_Policy input)) = addr4_string target ∧ is_global_unicast target = true
    ∧ unprotected contract config target ∧ consistent_chain nfc input target output.
Proof.
  intros Hacc Hg Hall. apply (Check_allowed _ _ _ _ (accepted_contract_ok _ _ Hacc) Hg) in Hall as ([Hst _] & a & Ha & Ht & Hu & Hf).
  apply consistent_iff in Hst as (target & output & Hchain). destruct (cc_target _ _ _ _ Hchain) as (Hta & Htt & _).
  cbn [pi_TargetIPv4] in Ht. rewrite Htt in Ht. apply addr4_string_inj in Ht; [|done..]. subst a. exists target, output. done.
Qed.

Lemma gates_complete nfc raw contract config g input p c base live proof : accepted_contract raw contract → NewProtectedGate contract config = Ok g →
  BuildArtifact p c = Ok (ci_Candidate input) → Allowed (protected_verdict nfc g input) = true → ValidateOwnedSchema base live = Ok proof →
  ∃ r target, validate_candidate nfc g input base live = Ok r ∧ vetted nfc contract config input r target.
Proof.
  intros Hacc Hg Hb Hall Hs. destruct (allowed_chain _ _ _ _ _ _ Hacc Hg Hall) as (target & output & Hta & Htt & Hu & Hf & Hchain).
  destruct (built_command _ _ _ _ _ _ Hchain Hb) as (newline & Hun & Hr & Htok & Httl & Hgen & Hgd & Hcan & Hcd). cbv zeta in *.
  set (policy := crp_value (ci_Policy input)) in *. set (token := art_canonicalToken (ci_Candidate input)) in *.
  set (ast := MkAST (Some target) (rp_TTLSeconds policy) (cand_TimeoutToken c)).
  assert (Hbytes : CanonicalBytes ast = Ok (command_text target token true)).
  { unfold CanonicalBytes. cbn [ast_target ast ast_ttlSeconds]. rewrite Hun. cbn [negb]. rewrite Htok. done. }
  exists (MkValidateResult (candidate_of (art_generatedBytes (ci_Candidate input)) ast target token (command_text target token true)) proof), target. split.
  - apply candidate_Validate_iff. exists (authorize_from (protected_verdict nfc g input)). cbn [vi_AuthorizeTarget vi_GeneratedCandidate vi_PolicyTTLSeconds vi_BaseContract vi_LiveSchema vr_artifact vr_schema].
    split; [done|]. split; [|split; [|done]].
    + apply Canonicalize_ok. exists ast, target, token, (command_text target token true). split_and!; try done; [apply Hr|apply Hr|].
      rewrite Hgen. by apply Parse_text.
    + change (authorize_from (protected_verdict nfc g input) target = true). unfold authorize_from. rewrite Hall. unfold protected_verdict in *.
      rewrite Check_target by done. cbn [pi_TargetIPv4 andb]. fold policy. rewrite Htt. apply String.eqb_refl.
  - apply ValidateOwnedSchema_ok in Hs as (_ & _ & _ & ->). split; [done|done|by exists output| |done|done].
    exists token. cbn [vr_artifact]. unfold candidate_of. cbn [ca_canonical ca_canonicalDigest ca_generatedDigest ca_canonicalToken]. rewrite Hcan, Hcd, Hgd. done.
Qed.

(** ** A run of the gates *)

Definition sample_output : string := Eval vm_compute in qq
  "{'schema_version':'sentinelflow_analysis_v1','incident_summary':'login attempts','classification':'credential_attack','confidence':0.9,'uncertainty':'low','false_positive_factors':[],'evidence_ids':['00000000-0000-4000-8000-000000000001'],'policy':{'schema_version':'response-policy-v1','action':'block_ip','target_ip':'203.0.113.20','ttl_seconds':1800,'evidence_ids':['00000000-0000-4000-8000-000000000001'],'rationale':'rationale'},'nftables_command_candidate':{'schema_version':'nft-blacklist-v1','target_ip':'203.0.113.20','timeout':'1800s','evidence_ids':['00000000-0000-4000-8000-000000000001'],'command':'add element inet sentinelflow blacklist_ipv4 { 203.0.113.20 timeout 1800s }'}}".

Definition sample_parser_policy : Policy := MkPolicy PolicySchemaVersion ActionBlockIP "203.0.113.20" 1800 [sample_uuid].

Definition sample_parser_candidate : Candidate :=
  MkCandidate CandidateSchemaVersion "203.0.113.20" "1800s" [sample_uuid] (command_text sample_target "1800s" false).

Definition sample_artifact : Artifact := artifact_of sample_parser_policy sample_parser_candidate sample_target "30m".

Definition sample_signal : SignalEvidenceBinding :=
  MkSignalEvidence sample_uuid (digest "signal") "203.0.113.20" [sample_uuid] true SourceHealthComplete.

Definition sample_evidence : EvidenceSnapshotBinding :=
  MkEvidence (digest "snapshot") sample_uuid 1 (digest "input") "203.0.113.20" (digest "health") SourceHealthComplete [sample_uuid] [sample_uuid] [sample_signal].

Definition sample_gates_input : ConsistencyInput :=
  MkConsistencyInput (digest "schema") (MkSchemaGate SchemaGatePassed (digest sample_output) (digest "schema"))
    (MkAnalysis sample_uuid sample_uuid 1 (digest "input") (digest "schema") sample_output) (checked_of (sample_policy 1 sample_time 0)) sample_artifact sample_evidence.

Lemma sample_artifact_built : BuildArtifact sample_parser_policy sample_parser_candidate = Ok sample_artifact.
Proof. vm_compute. reflexivity. Qed.

Lemma sample_verdict_allowed : Allowed (protected_verdict id (sample_gate [] []) sample_gates_input) = true.
Proof. vm_compute. reflexivity. Qed.

(** ** The claims *)

(** C23. The consistency gate passes exactly when one chain of bindings holds: the three
    output-schema digests agree, the analysis output has the digest that the schema gate
    checked, analysis, policy and evidence name one analysis and one incident at one
    version, the policy's target is the source of the snapshot and of every signal, the
    signal identifiers are the policy's evidence in the output, the command and the
    snapshot alike, the snapshot's events are exactly the union of the signals' events,
    and the command, its timeout, its TTL and the rationale digest are the policy's. *)
Theorem consistency_exact nfc input :
  cr_Status (CheckConsistency nfc input) = ConsistencyPassed ↔ ∃ target output, consistent_chain nfc input target output.
Proof. apply consistent_iff. Qed.

(** Once the protected-address gate, run on the consistency gate's result, allows the
    policy's target for a command that the parser built, and the owned schema is in place,
    the candidate validator accepts the command and agrees with the parser on its
    canonical bytes and digests; the target is unprotected, global, the source of every
    signal, and the canonical command is the one command with this target and the
    policy's TTL. *)
Theorem gates_vet_the_command nfc raw expected contract config g input p c base live proof :
  ParseProtectedContract raw expected = Ok contract → NewProtectedGate contract config = Ok g →
  BuildArtifact p c = Ok (ci_Candidate input) → Allowed (protected_verdict nfc g input) = true → ValidateOwnedSchema base live = Ok proof →
  ∃ r target, validate_candidate nfc g input base live = Ok r ∧ vetted nfc contract config input r target.
Proof. intros Hc. eapply gates_complete. by eapply ParseProtectedContract_accepted. Qed.

Lemma gates_vet_the_command_witness :
  ∃ r target, validate_candidate id (sample_gate [] []) sample_gates_input shipped_base canonicalLiveSchema = Ok r
    ∧ vetted id shipped_contract (sample_config [] []) sample_gates_input r target.
Proof.
  exact (gates_vet_the_command id shipped_file PinnedProtectedIPv4Digest shipped_contract (sample_config [] []) (sample_gate [] []) sample_gates_input
    sample_parser_policy sample_parser_candidate shipped_base canonicalLiveSchema (MkSchemaProof PinnedBaseChainRawDigest PinnedLiveSchemaDigest canonicalLiveSchema)
    shipped_accepted sample_gate_ok sample_artifact_built sample_verdict_allowed canonical_schema_accepted).
Defined.
