(* ===== verification/GoTimeParse.v ===== *)
(** * [time.Parse(time.RFC3339Nano, ...)]

    The whole of what [time.Parse] reads under this layout: a one-digit hour, a comma
    before the fraction, digits past the ninth and numeric zones included.  What
    [Format] prints for an instant of a four-digit year is read back as the instant. *)

From S2P Require Import Prelude GoStrings Json GoTime.
Local Open Scope Z_scope.

(** [getnum]: two digits, or one when the field is not fixed. *)
Definition getnum (fixed : bool) (l : list ascii) : option (Z * list ascii) :=
  match l with
  | a :: b :: r =>
      if negb (is_digit a) then None
      else if is_digit b then Some (text_value [a; b], r)
      else if fixed then None else Some (text_value [a], b :: r)
  | [a] => if is_digit a && negb fixed then Some (text_value [a], []) else None
  | [] => None
  end.

(** [parseNanoseconds] of the digits after the separator: nine count. *)
Definition nanoseconds (ds : list ascii) : Z := text_value (take 9 (ds ++ replicate 9 "0"%char)).

(** The fraction, when a separator and a digit follow. *)
Definition read_fraction (l : list ascii) : Z * list ascii :=
  match l with
  | c :: d :: r =>
      if bool_decide (c ∈ ["."; ","]%char) && is_digit d then let '(ds, rest) := span_digits (d :: r) in (nanoseconds ds, rest) else (0, l)
  | _ => (0, l)
  end.

(** [Z07:00]: the offset in seconds. *)
Definition read_zone (l : list ascii) : option Z :=
  match l with
  | ["Z"%char] => Some 0
  | [sign; h1; h2; colon; m1; m2] =>
      if negb (bool_decide (colon = ":"%char)) then None
      else
        '(hr, _) ← getnum true [h1; h2];
        '(mm, _) ← getnum true [m1; m2];
        if (24 <? hr) || (60 <? mm) then None
        else
          let offset := (hr * 60 + mm) * 60 in
          if bool_decide (sign = "+"%char) then Some offset else if bool_decide (sign = "-"%char) then Some (- offset) else None
  | _ => None
  end.

Definition parse_rfc3339nano (s : string) : option localtime :=
  '(y, l) ← read_digits 4 (chars s);
  l ← read_char "-" l;
  '(m, l) ← getnum true l;
  l ← read_char "-" l;
  '(d, l) ← getnum true l;
  l ← read_char "T" l;
  '(hh, l) ← getnum false l;
  l ← read_char ":" l;
  '(mm, l) ← getnum true l;
  l ← read_char ":" l;
  '(ss, l) ← getnum true l;
  let '(ns, l) := read_fraction l in
  offset ← read_zone l;
  t ← instant_of y m d hh mm ss 0;
  Some (MkLocal (t + ns - offset * Second) offset).

Example parse_vectors :
  parse_rfc3339nano <$> ["2026-07-18T02:00:06.05Z"; "2026-07-18T11:00:06,0500000009+09:00"; "2026-07-18T2:00:06.05Z"; "2023-02-29T00:00:00Z"; "2026-07-18T02:00:06.Z";
                         "2026-07-18T02:00:06"; "2026-07-18T02:00:60Z"]
  = [Some (MkLocal 63919936806050000000 0); Some (MkLocal 63919936806050000000 32400); Some (MkLocal 63919936806050000000 0); None; None; None; None].
Proof. vm_compute. reflexivity. Qed.

(** ** Reading what is printed *)

Lemma getnum_padded fixed n r : 0 <= n < 100 → getnum fixed (padded 2 n ++ r) = Some (n, r).
Proof.
  intros Hn. pose proof (padded_length 2 n Hn ltac:(lia)) as Hl. pose proof (padded_digits 2 n) as Hd. pose proof (text_value_padded 2 n ltac:(lia)) as Hv.
  destruct (padded 2 n) as [|a [|b [|]]]; try done. apply Forall_cons in Hd as [Ha Hd]. apply Forall_cons in Hd as [Hb _].
  cbn [app getnum]. by rewrite Ha, Hb, Hv.
Qed.

Lemma nanoseconds_trimmed n : 0 <= n < Second → nanoseconds (trim_zeros (padded 9 n)) = n.
Proof.
  intros Hn. unfold nanoseconds. destruct (trim_zeros_spec (padded 9 n)) as [k Hk]. pose proof (padded_length 9 n ltac:(unfold Second in Hn; simpl; lia) ltac:(lia)) as Hl.
  rewrite Hk, length_app, length_replicate in Hl. set (l := trim_zeros (padded 9 n)) in *.
  rewrite take_app_ge by lia. rewrite take_replicate. replace ((9 - length l) `min` 9)%nat with k by lia. rewrite <-Hk. apply text_value_padded. lia.
Qed.

Lemma trim_zeros_nonempty n : 0 < n < Second → trim_zeros (padded 9 n) ≠ [].
Proof.
  intros Hn Hnil. pose proof (nanoseconds_trimmed n ltac:(lia)) as H. rewrite Hnil in H. change (nanoseconds []) with 0 in H. lia.
Qed.

Lemma read_fraction_text n : 0 <= n < Second → read_fraction (fraction_text n ++ ["Z"%char]) = (n, ["Z"%char]).
Proof.
  intros Hn. unfold fraction_text. destruct (n =? 0) eqn:E; breflect; [by subst|].
  pose proof (trim_zeros_nonempty n ltac:(lia)) as Hne. pose proof (nanoseconds_trimmed n Hn) as Hv.
  pose proof (trim_zeros_Forall _ _ (padded_digits 9 n)) as Hd. destruct (trim_zeros (padded 9 n)) as [|d l]; [done|]. cbn [app].
  unfold read_fraction. rewrite bool_decide_eq_true_2 by (apply elem_of_cons; by left). inversion_clear Hd as [|? ? Hd1 Hd2]. rewrite Hd1. cbn [andb].
  change (d :: l ++ ["Z"%char]) with ((d :: l) ++ ["Z"%char]). rewrite span_digits_stop; [by rewrite Hv|cbn [forallb]; rewrite Hd1; by apply forallb_Forall|done].
Qed.

(** Any spelling of the fraction is read for what it says. *)
Lemma parse_with_fraction t frac : four_digit_year t → read_fraction (frac ++ ["Z"%char]) = (NanosecondOf t, ["Z"%char]) →
  parse_rfc3339nano (implode (seconds_text t ++ frac ++ ["Z"%char])) = Some (MkLocal t 0).
Proof.
  unfold four_digit_year, Year, parse_rfc3339nano, seconds_text. rewrite chars_implode.
  pose proof (civil_range (day_number t)) as Hr. pose proof (days_of_civil_civil (day_number t)) as Hinv.
  destruct (civil (day_number t)) as [[y m] d] eqn:Ec. simpl fst. intros Hy Hfrac. destruct (seconds_of_day t) as [Hs Ht]. set (s := t mod Day / Second) in *.
  pose proof (nanosecond_range t) as Hn. unfold year_text. rewrite (proj2 (Z.ltb_ge y 0)) by lia.
  unfold mbind, option_bind. rewrite <-app_assoc, read_padded by (simpl; lia). cbn [app].
  rewrite read_char_cons, <-app_assoc, getnum_padded by lia. cbn [app]. rewrite read_char_cons, <-app_assoc, getnum_padded by lia. cbn [app].
  rewrite read_char_cons, <-app_assoc, getnum_padded by (Z.div_mod_to_equations; lia). cbn [app].
  rewrite read_char_cons, <-app_assoc, getnum_padded by (Z.div_mod_to_equations; lia). cbn [app].
  rewrite read_char_cons, getnum_padded by (Z.div_mod_to_equations; lia). rewrite Hfrac. cbn [read_zone].
  unfold instant_of. rewrite Hinv, Ec, bool_decide_eq_true_2 by done.
  rewrite !(proj2 (Z.leb_le _ _)), !(proj2 (Z.ltb_lt _ _)) by (Z.div_mod_to_equations; lia). cbn [andb]. do 2 f_equal.
  pose proof (Z.div_mod t Day ltac:(done)) as Hdm. unfold day_number, NanosecondOf in *. unfold Day, Hour, Minute, Second, Millisecond in *. Z.div_mod_to_equations. lia.
Qed.

Lemma parse_format_rfc3339nano t : four_digit_year t → parse_rfc3339nano (format_rfc3339nano t) = Some (MkLocal t 0).
Proof. intros Hy. apply parse_with_fraction; [done|]. apply read_fraction_text, nanosecond_range. Qed.
