(* ===== verification/Snapshot.v ===== *)
(** * Immutable snapshots ([internal/validation/snapshot.go])

    The evidence snapshot and the validation snapshot: their checks, their canonical
    bytes, reading them back, and the freshness of a validation.  A struct the JSON
    decoder fills is kept by the JSON names of its string fields. *)

From S2P Require Import Prelude GoSort GoStrings Regex Sha256 GoTime GoTimeParse Netip Json JsonTree CanonicalJson Policy NftRunner Protected Consistency.
Local Open Scope Z_scope.

Definition EvidenceSnapshotSchemaVersion : string := "evidence-snapshot-v1".
Definition ValidationSnapshotSchemaVersion : string := "validation-snapshot-v1".
Definition ValidationSnapshotLifetime : duration := 5 * Minute.
Definition MaxEvidenceEventIDs : Z := 1000000.
Definition MaxEvidenceSignalIDs : Z := Z.of_nat MaxEvidenceIDs.
Definition MaxEvidenceSnapshotBytes : Z := 64 * 1024 * 1024.
Definition MaxValidationSnapshotBytes : Z := 32 * 1024.

Definition snapshotLabelPattern : pattern := label_pattern.
Definition snapshotVersionPattern : pattern := version_pattern.

(** [^[0-9]+\.[0-9]+\.[0-9]+(?:[-+][A-Za-z0-9._-]+)?$]: a separator ends each run. *)
Definition snapshot_suffix (l : list ascii) : bool :=
  match l with
  | [] => true
  | s :: c :: rest => bool_decide (s ∈ ["-"; "+"]%char) && forallb (λ c, alnum c || bool_decide (c ∈ ["."; "_"; "-"]%char)) (c :: rest)
  | _ => false
  end.

Definition snapshot_nftVersionPattern (s : string) : bool :=
  version_number (version_dot (version_number (version_dot (version_number snapshot_suffix)))) (chars s).

Inductive SnapshotErrorCode :=
  | SnapshotErrorEncoding | SnapshotErrorCanonical | SnapshotErrorSchema | SnapshotErrorID | SnapshotErrorField | SnapshotErrorEvidence
  | SnapshotErrorDigest | SnapshotErrorTime | SnapshotErrorChecks | SnapshotErrorValidity.

Definition validSnapshotTime (value : localtime) : bool :=
  negb (IsZero (lt_instant value)) && (1 <=? LocalYear value) && (LocalYear value <=? 9999).

(** [json.Marshal], which prints the members in the order of the struct, then the
    canonical form. *)
Definition marshalSnapshotJCS (value : json) : option string := canonicalJSON (implode (write_json value)).

(** ** Evidence *)

Record EvidenceSnapshot := MkEvidenceSnapshot {
  es_SchemaVersion : string; es_SnapshotID : string; es_IncidentID : string; es_IncidentVersion : Z; es_SourceIPv4 : string; es_ServiceLabel : string;
  es_WindowStart : localtime; es_WindowEnd : localtime; es_SourceHealthDigest : string; es_EventIDs : list string; es_SignalIDs : list string;
  es_CreatedAt : localtime
}.

Record CheckedEvidenceSnapshot := MkCheckedEvidence { ce_value : EvidenceSnapshot; ce_canonical : string; ce_digest : string }.

Definition json_uint (z : Z) : json := JNumber (chars (format_uint z)).
Definition json_time (t : localtime) : json := JString (format_rfc3339nano (lt_instant t)).

(** [evidenceSnapshotToWire] under [json.Marshal]; the times are in UTC. *)
Definition evidenceSnapshotToWire (value : EvidenceSnapshot) : json :=
  JObject
    [("schema_version", JString (es_SchemaVersion value)); ("snapshot_id", JString (es_SnapshotID value)); ("incident_id", JString (es_IncidentID value));
     ("incident_version", json_uint (es_IncidentVersion value)); ("source_ipv4", JString (es_SourceIPv4 value));
     ("service_label", JString (es_ServiceLabel value)); ("window_start", json_time (es_WindowStart value)); ("window_end", json_time (es_WindowEnd value));
     ("source_health_digest", JString (es_SourceHealthDigest value)); ("event_ids", JArray (JString <$> es_EventIDs value));
     ("signal_ids", JArray (JString <$> es_SignalIDs value)); ("created_at", json_time (es_CreatedAt value))].

Definition freeze_evidence (value : EvidenceSnapshot) : EvidenceSnapshot :=
  MkEvidenceSnapshot (es_SchemaVersion value) (es_SnapshotID value) (es_IncidentID value) (es_IncidentVersion value) (es_SourceIPv4 value)
    (es_ServiceLabel value) (UTC (es_WindowStart value)) (UTC (es_WindowEnd value)) (es_SourceHealthDigest value) (es_EventIDs value)
    (es_SignalIDs value) (UTC (es_CreatedAt value)).

Definition CheckEvidenceSnapshot (value : EvidenceSnapshot) : result SnapshotErrorCode CheckedEvidenceSnapshot :=
  if negb (String.eqb (es_SchemaVersion value) EvidenceSnapshotSchemaVersion) then Err SnapshotErrorSchema
  else if negb (match_string consistencyUUIDPattern (es_SnapshotID value)) || negb (match_string consistencyUUIDPattern (es_IncidentID value))
          || (es_IncidentVersion value =? 0) || (2147483647 <? es_IncidentVersion value) then Err SnapshotErrorID
  else if negb (bool_decide (is_Some (canonical_ipv4 (es_SourceIPv4 value)))) || negb (match_string snapshotLabelPattern (es_ServiceLabel value))
  then Err SnapshotErrorField
  else if negb (validDigest (es_SourceHealthDigest value)) then Err SnapshotErrorDigest
  else if negb (validOrderedUUIDs (es_EventIDs value) MaxEvidenceEventIDs) || negb (validOrderedUUIDs (es_SignalIDs value) MaxEvidenceSignalIDs)
  then Err SnapshotErrorEvidence
  else if negb (validSnapshotTime (es_WindowStart value)) || negb (validSnapshotTime (es_WindowEnd value)) || negb (validSnapshotTime (es_CreatedAt value))
          || Before (lt_instant (es_WindowEnd value)) (lt_instant (es_WindowStart value))
          || Before (lt_instant (es_CreatedAt value)) (lt_instant (es_WindowEnd value)) then Err SnapshotErrorTime
  else
    let frozen := freeze_evidence value in
    match marshalSnapshotJCS (evidenceSnapshotToWire frozen) with
    | None => Err SnapshotErrorEncoding
    | Some canonical =>
        if MaxEvidenceSnapshotBytes <? len canonical then Err SnapshotErrorEncoding
        else Ok (MkCheckedEvidence frozen canonical (digest canonical))
    end.

(** The string fields of a decoded struct, by their JSON names. *)
Definition texts : Type := list (string * string).
Definition text (w : texts) (name : string) : string := default "" (snd <$> List.find (λ f, String.eqb f.1 name) w).
Definition set_text (w : texts) (name value : string) : texts := (name, value) :: w.

(** [evidenceSnapshotWire] *)
Record evidenceSnapshotWire := MkEvidenceWire { ew_texts : texts; ew_incident_version : Z; ew_event_ids : slice string; ew_signal_ids : slice string }.

Definition evidence_text_names : list string :=
  ["schema_version"; "snapshot_id"; "incident_id"; "source_ipv4"; "service_label"; "window_start"; "window_end"; "source_health_digest"; "created_at"].

Definition decode_evidence_wire : decoder evidenceSnapshotWire := decode_object
  (map (λ name, (name, λ v w, x ← decode_string v (text (ew_texts w) name);
      Some (MkEvidenceWire (set_text (ew_texts w) name x) (ew_incident_version w) (ew_event_ids w) (ew_signal_ids w)))) evidence_text_names
   ++ [("incident_version", λ v w, x ← decode_uint 32 v (ew_incident_version w); Some (MkEvidenceWire (ew_texts w) x (ew_event_ids w) (ew_signal_ids w)));
       ("event_ids", λ v w, x ← decode_strings v (ew_event_ids w); Some (MkEvidenceWire (ew_texts w) (ew_incident_version w) x (ew_signal_ids w)));
       ("signal_ids", λ v w, x ← decode_strings v (ew_signal_ids w); Some (MkEvidenceWire (ew_texts w) (ew_incident_version w) (ew_event_ids w) x))]).

Definition evidence_of_wire (w : evidenceSnapshotWire) (windowStart windowEnd createdAt : localtime) : EvidenceSnapshot :=
  let field := text (ew_texts w) in
  MkEvidenceSnapshot (field "schema_version") (field "snapshot_id") (field "incident_id") (ew_incident_version w) (field "source_ipv4") (field "service_label")
    windowStart windowEnd (field "source_health_digest") (elements (ew_event_ids w)) (elements (ew_signal_ids w)) createdAt.

Definition ParseCanonicalEvidenceSnapshot (data : string) : result SnapshotErrorCode CheckedEvidenceSnapshot :=
  if (len data =? 0) || (MaxEvidenceSnapshotBytes <? len data) then Err SnapshotErrorEncoding
  else
    match strictJSON MaxContractDepth data with
    | None => Err SnapshotErrorEncoding
    | Some v =>
        match decode_evidence_wire v (MkEvidenceWire [] 0 nil_slice nil_slice) with
        | None => Err SnapshotErrorEncoding
        | Some wire =>
            match parse_rfc3339nano (text (ew_texts wire) "window_start"), parse_rfc3339nano (text (ew_texts wire) "window_end"),
                  parse_rfc3339nano (text (ew_texts wire) "created_at") with
            | Some windowStart, Some windowEnd, Some createdAt =>
                checked ← CheckEvidenceSnapshot (evidence_of_wire wire windowStart windowEnd createdAt);
                if negb (String.eqb data (ce_canonical checked)) then Err SnapshotErrorCanonical else Ok checked
            | _, _, _ => Err SnapshotErrorTime
            end
        end
    end.

(** ** Validation *)

Definition orderedValidationCheckIDs : list string :=
  ["structured_output"; "command_grammar"; "policy_evidence_command_consistency"; "protected_network"; "owned_schema_syntax"; "historical_impact"].

Record ValidationCheck := MkCheck { vc_CheckID : string; vc_Result : string; vc_ReasonCode : string; vc_InputDigest : string }.

Record ValidationSnapshot := MkValidationSnapshot {
  vs_SchemaVersion : string; vs_ValidationID : string; vs_PolicyDigest : string; vs_EvidenceSnapshotDigest : string; vs_AnalysisInputDigest : string;
  vs_AnalysisOutputSchemaDigest : string; vs_PromptDigest : string; vs_GeneratedCandidateDigest : string; vs_CanonicalArtifactDigest : string;
  vs_GrammarVersion : string; vs_ParserVersion : string; vs_ValidatorVersion : string; vs_BaseChainContractRawDigest : string;
  vs_LiveOwnedSchemaDigest : string; vs_ProtectedIPv4StaticDigest : string; vs_ProtectedIPv4EffectiveConfigDigest : string; vs_NFTBinaryDigest : string;
  vs_NFTVersion : string; vs_HistoricalImpactDigest : string; vs_Checks : list ValidationCheck; vs_CreatedAt : localtime; vs_ValidUntil : localtime
}.

Record CheckedValidationSnapshot := MkCheckedValidation { cv_value : ValidationSnapshot; cv_canonical : string; cv_digest : string }.

(** Strict at both ends. *)
Definition FreshAt (s : CheckedValidationSnapshot) (now : time) : bool :=
  if (len (cv_canonical s) =? 0) || IsZero now then false
  else negb (Before now (lt_instant (vs_CreatedAt (cv_value s)))) && Before now (lt_instant (vs_ValidUntil (cv_value s))).

(** The members of [validationSnapshotWire] that are strings, in the order of the struct
    ([checks] comes before the last two). *)
Definition validation_texts (value : ValidationSnapshot) : list (string * string) :=
  [("schema_version", vs_SchemaVersion value); ("validation_id", vs_ValidationID value); ("policy_digest", vs_PolicyDigest value);
   ("evidence_snapshot_digest", vs_EvidenceSnapshotDigest value); ("analysis_input_digest", vs_AnalysisInputDigest value);
   ("analysis_output_schema_digest", vs_AnalysisOutputSchemaDigest value); ("prompt_digest", vs_PromptDigest value);
   ("generated_candidate_digest", vs_GeneratedCandidateDigest value); ("canonical_artifact_digest", vs_CanonicalArtifactDigest value);
   ("grammar_version", vs_GrammarVersion value); ("parser_version", vs_ParserVersion value); ("validator_version", vs_ValidatorVersion value);
   ("base_chain_contract_raw_digest", vs_BaseChainContractRawDigest value); ("live_owned_schema_digest", vs_LiveOwnedSchemaDigest value);
   ("protected_ipv4_static_digest", vs_ProtectedIPv4StaticDigest value);
   ("protected_ipv4_effective_config_digest", vs_ProtectedIPv4EffectiveConfigDigest value); ("nft_binary_digest", vs_NFTBinaryDigest value);
   ("nft_version", vs_NFTVersion value); ("historical_impact_digest", vs_HistoricalImpactDigest value)].

Definition check_wire (c : ValidationCheck) : json :=
  JObject [("check_id", JString (vc_CheckID c)); ("result", JString (vc_Result c)); ("reason_code", JString (vc_ReasonCode c)); ("input_digest", JString (vc_InputDigest c))].

Definition validationSnapshotToWire (value : ValidationSnapshot) : json :=
  JObject
    (map (λ f, (f.1, JString f.2)) (validation_texts value)
     ++ [("checks", JArray (check_wire <$> vs_Checks value)); ("created_at", json_time (vs_CreatedAt value)); ("valid_until", json_time (vs_ValidUntil value))]).

Definition validation_digests (value : ValidationSnapshot) : list string :=
  [vs_PolicyDigest value; vs_EvidenceSnapshotDigest value; vs_AnalysisInputDigest value; vs_AnalysisOutputSchemaDigest value; vs_PromptDigest value;
   vs_GeneratedCandidateDigest value; vs_CanonicalArtifactDigest value; vs_BaseChainContractRawDigest value; vs_LiveOwnedSchemaDigest value;
   vs_ProtectedIPv4StaticDigest value; vs_ProtectedIPv4EffectiveConfigDigest value; vs_NFTBinaryDigest value; vs_HistoricalImpactDigest value].

Definition check_passed (id : string) (check : ValidationCheck) : bool :=
  String.eqb (vc_CheckID check) id && String.eqb (vc_Result check) "pass" && String.eqb (vc_ReasonCode check) "ok" && validDigest (vc_InputDigest check).

Definition freeze_validation (value : ValidationSnapshot) : ValidationSnapshot :=
  MkValidationSnapshot (vs_SchemaVersion value) (vs_ValidationID value) (vs_PolicyDigest value) (vs_EvidenceSnapshotDigest value) (vs_AnalysisInputDigest value)
    (vs_AnalysisOutputSchemaDigest value) (vs_PromptDigest value) (vs_GeneratedCandidateDigest value) (vs_CanonicalArtifactDigest value)
    (vs_GrammarVersion value) (vs_ParserVersion value) (vs_ValidatorVersion value) (vs_BaseChainContractRawDigest value) (vs_LiveOwnedSchemaDigest value)
    (vs_ProtectedIPv4StaticDigest value) (vs_ProtectedIPv4EffectiveConfigDigest value) (vs_NFTBinaryDigest value) (vs_NFTVersion value)
    (vs_HistoricalImpactDigest value) (vs_Checks value) (UTC (vs_CreatedAt value)) (UTC (vs_ValidUntil value)).

Definition CheckValidationSnapshot (value : ValidationSnapshot) : result SnapshotErrorCode CheckedValidationSnapshot :=
  if negb (String.eqb (vs_SchemaVersion value) ValidationSnapshotSchemaVersion) || negb (String.eqb (vs_GrammarVersion value) CandidateSchemaVersion)
  then Err SnapshotErrorSchema
  else if negb (match_string consistencyUUIDPattern (vs_ValidationID value)) then Err SnapshotErrorID
  else if negb (match_string snapshotVersionPattern (vs_ParserVersion value)) || negb (match_string snapshotVersionPattern (vs_ValidatorVersion value))
          || negb (snapshot_nftVersionPattern (vs_NFTVersion value)) then Err SnapshotErrorField
  else if negb (forallb validDigest (validation_digests value)) then Err SnapshotErrorDigest
  else if negb (length (vs_Checks value) =? length orderedValidationCheckIDs)%nat then Err SnapshotErrorChecks
  else if negb (forallb (λ '(id, check), check_passed id check) (zip orderedValidationCheckIDs (vs_Checks value))) then Err SnapshotErrorChecks
  else if negb (validSnapshotTime (vs_CreatedAt value)) || negb (validSnapshotTime (vs_ValidUntil value)) then Err SnapshotErrorTime
  else if negb (Equal (lt_instant (vs_ValidUntil value)) (lt_instant (vs_CreatedAt value) + ValidationSnapshotLifetime)) then Err SnapshotErrorValidity
  else
    let frozen := freeze_validation value in
    match marshalSnapshotJCS (validationSnapshotToWire frozen) with
    | None => Err SnapshotErrorEncoding
    | Some canonical =>
        if MaxValidationSnapshotBytes <? len canonical then Err SnapshotErrorEncoding
        else Ok (MkCheckedValidation frozen canonical (digest canonical))
    end.

(** [validationSnapshotWire]: string fields, and the checks with theirs. *)
Record validationSnapshotWire := MkValidationWire { vw_texts : texts; vw_checks : slice texts }.

Definition check_text_names : list string := ["check_id"; "result"; "reason_code"; "input_digest"].

Definition decode_check_wire : decoder texts := decode_object
  (map (λ name, (name, λ v w, x ← decode_string v (text w name); Some (set_text w name x))) check_text_names).

Definition validation_text_names : list string :=
  ["schema_version"; "validation_id"; "policy_digest"; "evidence_snapshot_digest"; "analysis_input_digest"; "analysis_output_schema_digest"; "prompt_digest";
   "generated_candidate_digest"; "canonical_artifact_digest"; "grammar_version"; "parser_version"; "validator_version"; "base_chain_contract_raw_digest";
   "live_owned_schema_digest"; "protected_ipv4_static_digest"; "protected_ipv4_effective_config_digest"; "nft_binary_digest"; "nft_version";
   "historical_impact_digest"; "created_at"; "valid_until"].

Definition decode_validation_wire : decoder validationSnapshotWire := decode_object
  (map (λ name, (name, λ v w, x ← decode_string v (text (vw_texts w) name); Some (MkValidationWire (set_text (vw_texts w) name x) (vw_checks w)))) validation_text_names
   ++ [("checks", λ v w, x ← decode_slice [] decode_check_wire v (vw_checks w); Some (MkValidationWire (vw_texts w) x))]).

Definition check_of_wire (w : texts) : ValidationCheck := MkCheck (text w "check_id") (text w "result") (text w "reason_code") (text w "input_digest").

Definition validation_of_wire (w : validationSnapshotWire) (createdAt validUntil : localtime) : ValidationSnapshot :=
  let field := text (vw_texts w) in
  MkValidationSnapshot (field "schema_version") (field "validation_id") (field "policy_digest") (field "evidence_snapshot_digest") (field "analysis_input_digest")
    (field "analysis_output_schema_digest") (field "prompt_digest") (field "generated_candidate_digest") (field "canonical_artifact_digest")
    (field "grammar_version") (field "parser_version") (field "validator_version") (field "base_chain_contract_raw_digest") (field "live_owned_schema_digest")
    (field "protected_ipv4_static_digest") (field "protected_ipv4_effective_config_digest") (field "nft_binary_digest") (field "nft_version")
    (field "historical_impact_digest") (check_of_wire <$> elements (vw_checks w)) createdAt validUntil.

Definition ParseCanonicalValidationSnapshot (data : string) : result SnapshotErrorCode CheckedValidationSnapshot :=
  if (len data =? 0) || (MaxValidationSnapshotBytes <? len data) then Err SnapshotErrorEncoding
  else
    match strictJSON MaxContractDepth data with
    | None => Err SnapshotErrorEncoding
    | Some v =>
        match decode_validation_wire v (MkValidationWire [] nil_slice) with
        | None => Err SnapshotErrorEncoding
        | Some wire =>
            match parse_rfc3339nano (text (vw_texts wire) "created_at"), parse_rfc3339nano (text (vw_texts wire) "valid_until") with
            | Some createdAt, Some validUntil =>
                checked ← CheckValidationSnapshot (validation_of_wire wire createdAt validUntil);
                if negb (String.eqb data (cv_canonical checked)) then Err SnapshotErrorCanonical else Ok checked
            | _, _ => Err SnapshotErrorTime
            end
        end
    end.
