(* ===== verification/SnapshotSpec.v ===== *)
(** * What the snapshots guarantee

    Canonical bytes are read back as the snapshot they were made from and nothing else
    is accepted; a validation snapshot stands for six passed checks and is fresh for
    exactly five minutes. *)

From S2P Require Import Prelude GoSort GoStrings Regex Sha256 GoTime GoTimeParse Netip NetPrefix Policy ResponsePolicy ResponsePolicySpec Json JsonTree CanonicalJson NftRunner Protected ProtectedSpec Consistency ConsistencySpec Snapshot.
Local Open Scope Z_scope.

(** ** Texts that need no escape *)

Lemma uuid_text_plain s : match_string uuid_pattern s = true → plain s.
Proof. apply uuid_plain. Qed.

Lemma digest_text_plain s : match_string digest_pattern s = true → plain s.
Proof. apply digest_plain. Qed.

Lemma label_plain s : match_string label_pattern s = true → plain s.
Proof. apply match_within. solve_within. Qed.

Lemma version_plain s : match_string version_pattern s = true → plain s.
Proof. apply match_within. solve_within. Qed.

Lemma ipv4_text_plain s : is_Some (canonical_ipv4 s) → plain s.
Proof. intros [a [<- _]%canonical_ipv4_spec]. apply prefix_byte_plain, addr4_string_bytes. Qed.

Lemma span_digits_split l d r : span_digits l = (d, r) → l = d ++ r ∧ forallb is_digit d = true.
Proof.
  revert d r. induction l as [|c l IH]; intros d r H; cbn [span_digits] in H; [by injection H as <- <-|].
  destruct (is_digit c) eqn:E; [|by injection H as <- <-]. destruct (span_digits l) as [d' r'] eqn:E'. injection H as <- <-.
  destruct (IH _ _ eq_refl) as [-> Hd]. cbn [app forallb]. by rewrite E.
Qed.

Lemma digits_json_plain d : forallb is_digit d = true → forallb json_plain d = true.
Proof. rewrite !forallb_Forall. intros H. eapply Forall_impl; [exact H|]. apply class_incl. by vm_compute. Qed.

Lemma version_number_plain next l : (∀ r, next r = true → forallb json_plain r = true) → version_number next l = true → forallb json_plain l = true.
Proof.
  intros Hn. unfold version_number. destruct (span_digits l) as [d r] eqn:E. apply span_digits_split in E as [-> Hd].
  intros [_ H]%andb_prop. by rewrite forallb_app, (digits_json_plain d), Hn.
Qed.

Lemma version_dot_plain next l : (∀ r, next r = true → forallb json_plain r = true) → version_dot next l = true → forallb json_plain l = true.
Proof.
  intros Hn. destruct l as [|c l]; [done|]. unfold version_dot. destruct c as [[] [] [] [] [] [] [] []]; try done. intros H. cbn [forallb]. by rewrite Hn.
Qed.

Lemma snapshot_suffix_plain l : snapshot_suffix l = true → forallb json_plain l = true.
Proof.
  destruct l as [|s [|c l]]; [done..|]. cbn [snapshot_suffix]. intros [Hs H]%andb_prop. apply bool_decide_eq_true in Hs.
  change (forallb json_plain ([s] ++ (c :: l)) = true). rewrite forallb_app. apply andb_true_iff. split.
  - apply elem_of_cons in Hs as [->|Hs%list_elem_of_singleton]; [done|by subst].
  - rewrite forallb_Forall in H. apply forallb_Forall. eapply Forall_impl; [exact H|]. apply class_incl. by vm_compute.
Qed.

Lemma nft_version_plain s : snapshot_nftVersionPattern s = true → plain s.
Proof.
  unfold snapshot_nftVersionPattern, plain.
  apply version_number_plain; intros ?. apply version_dot_plain; intros ?. apply version_number_plain; intros ?. apply version_dot_plain; intros ?.
  apply version_number_plain; intros ?. apply snapshot_suffix_plain.
Qed.

Lemma uuid_list_plain l maximum : validOrderedUUIDs l maximum = true → Forall plain l.
Proof. intros (_ & _ & _ & H)%validOrderedUUIDs_iff. eapply Forall_impl; [exact H|]. apply uuid_plain. Qed.

Lemma validDigest_plain s : validDigest s = true → plain s.
Proof. rewrite validDigest_pattern. apply digest_plain. Qed.

Lemma time_plain t : plain (format_rfc3339nano t).
Proof. apply format_rfc3339nano_plain. Qed.

(** ** Decoding lists *)

Lemma decode_strings_print l : ∃ s, decode_strings (JArray (JString <$> l)) nil_slice = Some s ∧ elements s = l.
Proof.
  apply decode_slice_fresh. induction l as [|x l IH]; [done|]. cbn [fmap list_fmap mapM]. unfold mbind, option_bind, decode_string in *.
  cbn [fmap list_fmap] in IH. by rewrite IH.
Qed.

Lemma unique_strings l : unique_names (JArray (JString <$> l)) = true.
Proof. cbn [unique_names]. apply forallb_Forall, Forall_fmap, Forall_true. done. Qed.

Lemma height_strings l : height (JArray (JString <$> l)) <= 1.
Proof. cbn [height]. induction l as [|x l IH]; cbn [fmap list_fmap foldr]; [lia|]. cbn [height] in *. lia. Qed.

(** ** Evidence *)

(** The canonical document: members in the order of their names. *)
Definition evidence_document (v : EvidenceSnapshot) : json :=
  JObject
    [("created_at", json_time (es_CreatedAt v)); ("event_ids", JArray (JString <$> es_EventIDs v)); ("incident_id", JString (es_IncidentID v));
     ("incident_version", json_uint (es_IncidentVersion v)); ("schema_version", JString (es_SchemaVersion v)); ("service_label", JString (es_ServiceLabel v));
     ("signal_ids", JArray (JString <$> es_SignalIDs v)); ("snapshot_id", JString (es_SnapshotID v));
     ("source_health_digest", JString (es_SourceHealthDigest v)); ("source_ipv4", JString (es_SourceIPv4 v)); ("window_end", json_time (es_WindowEnd v));
     ("window_start", json_time (es_WindowStart v))].

Lemma evidence_canon v : canon (evidenceSnapshotToWire v) = evidence_document v.
Proof.
  unfold evidenceSnapshotToWire, evidence_document, json_time, json_uint. cbn [canon]. f_equal. cbn [map fst snd]. rewrite !canon_strings. cbn [canon].
  generalize (JArray (JString <$> es_EventIDs v)), (JArray (JString <$> es_SignalIDs v)), (JNumber (chars (format_uint (es_IncidentVersion v)))). intros a b c.
  generalize (format_rfc3339nano (lt_instant (es_WindowStart v))), (format_rfc3339nano (lt_instant (es_WindowEnd v))), (format_rfc3339nano (lt_instant (es_CreatedAt v))).
  intros t1 t2 t3. unfold sorted_members.
  replace (sorted_unique _) with ["created_at"; "event_ids"; "incident_id"; "incident_version"; "schema_version"; "service_label"; "signal_ids"; "snapshot_id";
    "source_health_digest"; "source_ipv4"; "window_end"; "window_start"] by (by vm_compute). reflexivity.
Qed.

(** The checks of [CheckEvidenceSnapshot]. *)
Record evidence_valid (v : EvidenceSnapshot) : Prop := {
  eval_schema : es_SchemaVersion v = EvidenceSnapshotSchemaVersion;
  eval_ids : match_string uuid_pattern (es_SnapshotID v) = true ∧ match_string uuid_pattern (es_IncidentID v) = true;
  eval_version : es_IncidentVersion v ≠ 0 ∧ es_IncidentVersion v <= 2147483647;
  eval_source : is_Some (canonical_ipv4 (es_SourceIPv4 v)) ∧ match_string label_pattern (es_ServiceLabel v) = true;
  eval_health : match_string digest_pattern (es_SourceHealthDigest v) = true;
  eval_events : validOrderedUUIDs (es_EventIDs v) MaxEvidenceEventIDs = true ∧ validOrderedUUIDs (es_SignalIDs v) MaxEvidenceSignalIDs = true;
  eval_times : validSnapshotTime (es_WindowStart v) = true ∧ validSnapshotTime (es_WindowEnd v) = true ∧ validSnapshotTime (es_CreatedAt v) = true;
  eval_order : lt_instant (es_WindowStart v) <= lt_instant (es_WindowEnd v) <= lt_instant (es_CreatedAt v)
}.

Lemma evidence_tidy v : evidence_valid v → 0 <= es_IncidentVersion v → tidy (evidenceSnapshotToWire v).
Proof.
  intros [Hs [Hi1 Hi2] [_ Hv] [Hip Hl] Hh [He1 He2] _ _] H0. pose proof (tidy_strings _ (uuid_list_plain _ _ He1)). pose proof (tidy_strings _ (uuid_list_plain _ _ He2)).
  unfold evidenceSnapshotToWire, json_time, json_uint. cbn [tidy foldr fst snd]. rewrite Hs.
  split_and!; try done; auto using uuid_text_plain, digest_text_plain, label_plain, ipv4_text_plain, time_plain.
  exists (es_IncidentVersion v). unfold MaxSafeInteger. split; [lia|done].
Qed.

Lemma CheckEvidenceSnapshot_iff v c : 0 <= es_IncidentVersion v →
  CheckEvidenceSnapshot v = Ok c ↔
  evidence_valid v ∧ len (ce_canonical c) <= MaxEvidenceSnapshotBytes
  ∧ c = (let canonical := implode (write_json (evidence_document (freeze_evidence v))) in MkCheckedEvidence (freeze_evidence v) canonical (digest canonical)).
Proof.
  intros H0. assert (Hmarshal : evidence_valid v → marshalSnapshotJCS (evidenceSnapshotToWire (freeze_evidence v)) = Some (implode (write_json (evidence_document (freeze_evidence v))))).
  { intros Hv. assert (Ht : tidy (evidenceSnapshotToWire (freeze_evidence v))).
    { change (evidenceSnapshotToWire (freeze_evidence v)) with (evidenceSnapshotToWire v). by apply evidence_tidy. }
    unfold marshalSnapshotJCS. rewrite canonicalJSON_write by auto using tidy_simple. by rewrite evidence_canon. }
  unfold CheckEvidenceSnapshot. rewrite validDigest_pattern. unfold consistencyUUIDPattern, snapshotLabelPattern, Before. split.
  - intros H. repeat match type of H with (if ?b then _ else _) = _ => destruct b eqn:?; [discriminate H|] end.
    assert (Hv : evidence_valid v) by (breflect; split; split_and?; try done; try tauto; lia). rewrite Hmarshal in H by done. cbv zeta in H.
    destruct (_ <? _) eqn:E in H; [discriminate H|]. apply (f_equal (from_ok c)) in H. cbn [from_ok] in H. subst c. cbn [ce_canonical].
    split; [done|]. split; [by apply Z.ltb_ge in E|done].
  - intros (Hv & Hlen & ->). cbv zeta in Hlen. cbn [ce_canonical] in Hlen. rewrite (Hmarshal Hv). cbv zeta. rewrite (proj2 (Z.ltb_ge _ _) Hlen).
    destruct Hv as [Hs [Hi1 Hi2] [Hv1 Hv2] [Hip Hl] Hh [He1 He2] (Ht1 & Ht2 & Ht3) Ho].
    rewrite Hs, Hi1, Hi2, Hl, Hh, He1, He2, Ht1, Ht2, Ht3, (bool_decide_eq_true_2 _ Hip), String.eqb_refl. cbn [negb orb].
    rewrite (proj2 (Z.eqb_neq _ _) Hv1), !(proj2 (Z.ltb_ge _ _)) by lia. done.
Qed.

(** The bytes of the canonical document are read as it. *)
Lemma evidence_strict v data : evidence_valid v → 0 <= es_IncidentVersion v → data = implode (write_json (evidence_document v)) →
  strictJSON MaxContractDepth data = Some (evidence_document v).
Proof.
  intros Hv H0 ->. unfold strictJSON. rewrite chars_implode, parse_document_write.
  2:{ rewrite <-evidence_canon. by apply canon_simple, evidence_tidy. }
  unfold evidence_document at 1. cbn match. fold (evidence_document v). rewrite consumeJSON_ok; [done| |].
  - unfold evidence_document, json_time, json_uint. pose proof (unique_strings (es_EventIDs v)) as H1. pose proof (unique_strings (es_SignalIDs v)) as H2.
    revert H1 H2. generalize (JArray (JString <$> es_EventIDs v)), (JArray (JString <$> es_SignalIDs v)). intros a b H1 H2. cbn [unique_names forallb snd]. by rewrite H1, H2.
  - unfold evidence_document, json_time, json_uint. pose proof (height_strings (es_EventIDs v)) as H1. pose proof (height_strings (es_SignalIDs v)) as H2.
    revert H1 H2. generalize (JArray (JString <$> es_EventIDs v)), (JArray (JString <$> es_SignalIDs v)). intros a b H1 H2. cbn [height foldr snd]. unfold MaxContractDepth. lia.
Qed.

(** The document is decoded field by field. *)
Lemma evidence_decodes v : 0 <= es_IncidentVersion v < 2 ^ 32 → ∃ w, decode_evidence_wire (evidence_document v) (MkEvidenceWire [] 0 nil_slice nil_slice) = Some w
  ∧ (∀ t1 t2 t3, evidence_of_wire w t1 t2 t3
      = MkEvidenceSnapshot (es_SchemaVersion v) (es_SnapshotID v) (es_IncidentID v) (es_IncidentVersion v) (es_SourceIPv4 v) (es_ServiceLabel v) t1 t2
          (es_SourceHealthDigest v) (es_EventIDs v) (es_SignalIDs v) t3)
  ∧ text (ew_texts w) "window_start" = format_rfc3339nano (lt_instant (es_WindowStart v))
  ∧ text (ew_texts w) "window_end" = format_rfc3339nano (lt_instant (es_WindowEnd v))
  ∧ text (ew_texts w) "created_at" = format_rfc3339nano (lt_instant (es_CreatedAt v)).
Proof.
  intros Hv. unfold evidence_document, json_time, json_uint. destruct (decode_strings_print (es_EventIDs v)) as (s1 & H1 & E1).
  destruct (decode_strings_print (es_SignalIDs v)) as (s2 & H2 & E2). pose proof (decode_uint_print 32 (es_IncidentVersion v) 0 Hv) as H3.
  revert H1 H2 H3. generalize (JArray (JString <$> es_EventIDs v)), (JArray (JString <$> es_SignalIDs v)), (JNumber (chars (format_uint (es_IncidentVersion v)))).
  generalize (format_rfc3339nano (lt_instant (es_WindowStart v))), (format_rfc3339nano (lt_instant (es_WindowEnd v))), (format_rfc3339nano (lt_instant (es_CreatedAt v))).
  intros x1 x2 x3 a b c H1 H2 H3. eexists. split.
  - unfold decode_evidence_wire, decode_object. rewrite !decode_fields_cons.
    lazy -[decode_strings decode_uint nil_slice]. rewrite H1. lazy -[decode_strings decode_uint nil_slice]. rewrite H3. lazy -[decode_strings decode_uint nil_slice].
    rewrite H2. lazy -[decode_strings]. reflexivity.
  - rewrite <-E1, <-E2. done.
Qed.

(** The years of the instants, read in UTC. *)
Definition utc_year_ok (t : localtime) : Prop := 1 <= Year (lt_instant t) <= 9999.

Lemma utc_valid t : validSnapshotTime t = true → utc_year_ok t → validSnapshotTime (UTC t) = true.
Proof.
  unfold validSnapshotTime, utc_year_ok, LocalYear, UTC. cbn [lt_instant lt_zone]. rewrite Z.mul_0_l, Z.add_0_r. intros H [H1 H2].
  apply andb_prop in H as [H _]. apply andb_prop in H as [-> _]. by rewrite !(proj2 (Z.leb_le _ _)) by lia.
Qed.

Lemma utc_parses t : utc_year_ok t → parse_rfc3339nano (format_rfc3339nano (lt_instant t)) = Some (UTC t).
Proof. intros Hy. rewrite parse_format_rfc3339nano; [done|]. unfold four_digit_year, utc_year_ok in *. lia. Qed.

Lemma evidence_valid_freeze v : evidence_valid v → utc_year_ok (es_WindowStart v) → utc_year_ok (es_WindowEnd v) → utc_year_ok (es_CreatedAt v) →
  evidence_valid (freeze_evidence v).
Proof. intros [] ? ? ?. destruct_and!. split; try done. cbn. auto using utc_valid. Qed.

Lemma write_json_nonempty v : simple v → (len (implode (write_json v)) =? 0) = false.
Proof. intros Hs. destruct (write_json_head v Hs) as (c & l & -> & _). rewrite len_implode. cbn [length]. apply Z.eqb_neq. lia. Qed.

Lemma evidence_reads v c : 0 <= es_IncidentVersion v → utc_year_ok (es_WindowStart v) → utc_year_ok (es_WindowEnd v) → utc_year_ok (es_CreatedAt v) →
  CheckEvidenceSnapshot v = Ok c → ParseCanonicalEvidenceSnapshot (ce_canonical c) = Ok c.
Proof.
  intros H0 Hy1 Hy2 Hy3 Hc. pose proof (proj1 (CheckEvidenceSnapshot_iff v c H0) Hc) as (Hv & Hlen & Heq).
  pose proof (evidence_valid_freeze v Hv Hy1 Hy2 Hy3) as Hf. set (f := freeze_evidence v) in *.
  assert (Hcan : ce_canonical c = implode (write_json (evidence_document f))) by (rewrite Heq; reflexivity).
  unfold ParseCanonicalEvidenceSnapshot. rewrite (proj2 (Z.ltb_ge _ _) Hlen), Hcan.
  assert (Hs : simple (evidence_document f)) by (rewrite <-evidence_canon; by apply canon_simple, evidence_tidy).
  rewrite (write_json_nonempty _ Hs). cbn [orb]. rewrite (evidence_strict f) by done.
  destruct (evidence_decodes f) as (w & -> & Hw & -> & -> & ->); [change (0 <= es_IncidentVersion v < 2 ^ 32); destruct (eval_version _ Hv); lia|].
  change (es_WindowStart f) with (UTC (es_WindowStart v)). change (es_WindowEnd f) with (UTC (es_WindowEnd v)). change (es_CreatedAt f) with (UTC (es_CreatedAt v)).
  rewrite !utc_parses by done. rewrite Hw.
  assert (Hck : CheckEvidenceSnapshot f = Ok c).
  { apply CheckEvidenceSnapshot_iff; [done|]. split; [done|]. split; [done|]. exact Heq. }
  change (CheckEvidenceSnapshot _) with (CheckEvidenceSnapshot f). rewrite Hck. cbn [mbind result_bind]. by rewrite Hcan, String.eqb_refl.
Qed.

Lemma evidence_only_canonical data c : ParseCanonicalEvidenceSnapshot data = Ok c → data = ce_canonical c ∧ ∃ v, CheckEvidenceSnapshot v = Ok c.
Proof.
  unfold ParseCanonicalEvidenceSnapshot. destruct (_ || _); [done|]. destruct (strictJSON _ data); [|done]. destruct (decode_evidence_wire _ _) as [w|]; [|done].
  destruct (parse_rfc3339nano _); [|done]. destruct (parse_rfc3339nano _); [|done]. destruct (parse_rfc3339nano _); [|done].
  destruct (CheckEvidenceSnapshot _) as [c'|] eqn:E; [|done]. cbn [mbind result_bind]. destruct (String.eqb_spec data (ce_canonical c')) as [->|]; [|done].
  cbn [negb]. intros H. apply (f_equal (from_ok c)) in H. cbn [from_ok] in H. subst c'. split; [done|]. by eexists.
Qed.

(** ** Validation *)

Definition check_document (c : ValidationCheck) : json :=
  JObject [("check_id", JString (vc_CheckID c)); ("input_digest", JString (vc_InputDigest c)); ("reason_code", JString (vc_ReasonCode c)); ("result", JString (vc_Result c))].

(** The canonical document: members in the order of their names. *)
Definition validation_document (v : ValidationSnapshot) : json :=
  JObject
    [("analysis_input_digest", JString (vs_AnalysisInputDigest v)); ("analysis_output_schema_digest", JString (vs_AnalysisOutputSchemaDigest
     v)); ("base_chain_contract_raw_digest", JString (vs_BaseChainContractRawDigest v)); ("canonical_artifact_digest", JString
     (vs_CanonicalArtifactDigest v)); ("checks", JArray (check_document <$> vs_Checks v)); ("created_at", json_time (vs_CreatedAt v));
     ("evidence_snapshot_digest", JString (vs_EvidenceSnapshotDigest v)); ("generated_candidate_digest", JString
     (vs_GeneratedCandidateDigest v)); ("grammar_version", JString (vs_GrammarVersion v)); ("historical_impact_digest", JString
     (vs_HistoricalImpactDigest v)); ("live_owned_schema_digest", JString (vs_LiveOwnedSchemaDigest v)); ("nft_binary_digest", JString
     (vs_NFTBinaryDigest v)); ("nft_version", JString (vs_NFTVersion v)); ("parser_version", JString (vs_ParserVersion v));
     ("policy_digest", JString (vs_PolicyDigest v)); ("prompt_digest", JString (vs_PromptDigest v));
     ("protected_ipv4_effective_config_digest", JString (vs_ProtectedIPv4EffectiveConfigDigest v)); ("protected_ipv4_static_digest", JString
     (vs_ProtectedIPv4StaticDigest v)); ("schema_version", JString (vs_SchemaVersion v)); ("valid_until", json_time (vs_ValidUntil v));
     ("validation_id", JString (vs_ValidationID v)); ("validator_version", JString (vs_ValidatorVersion v))].

Lemma check_canon c : canon (check_wire c) = check_document c.
Proof. reflexivity. Qed.

Lemma checks_canon l : canon (JArray (check_wire <$> l)) = JArray (check_document <$> l).
Proof. cbn [canon]. f_equal. induction l as [|c l IH]; [done|]. cbn [fmap list_fmap map] in *. by rewrite check_canon, IH. Qed.

Lemma validation_canon v : canon (validationSnapshotToWire v) = validation_document v.
Proof.
  unfold validationSnapshotToWire, validation_document, validation_texts, json_time. cbn [canon]. f_equal. cbn [map app fst snd]. rewrite checks_canon. cbn [canon].
  generalize (JArray (check_document <$> vs_Checks v)). intros a.
  generalize (format_rfc3339nano (lt_instant (vs_CreatedAt v))), (format_rfc3339nano (lt_instant (vs_ValidUntil v))). intros t1 t2. unfold sorted_members.
  replace (sorted_unique _) with
    ["analysis_input_digest"; "analysis_output_schema_digest"; "base_chain_contract_raw_digest"; "canonical_artifact_digest"; "checks"; "created_at";
     "evidence_snapshot_digest"; "generated_candidate_digest"; "grammar_version"; "historical_impact_digest"; "live_owned_schema_digest";
     "nft_binary_digest"; "nft_version"; "parser_version"; "policy_digest"; "prompt_digest"; "protected_ipv4_effective_config_digest";
     "protected_ipv4_static_digest"; "schema_version"; "valid_until"; "validation_id"; "validator_version"] by (by vm_compute).
  reflexivity.
Qed.

Definition check_ok (id : string) (c : ValidationCheck) : Prop :=
  vc_CheckID c = id ∧ vc_Result c = "pass" ∧ vc_ReasonCode c = "ok" ∧ match_string digest_pattern (vc_InputDigest c) = true.

(** The checks of [CheckValidationSnapshot]. *)
Record validation_valid (v : ValidationSnapshot) : Prop := {
  vval_schema : vs_SchemaVersion v = ValidationSnapshotSchemaVersion ∧ vs_GrammarVersion v = CandidateSchemaVersion;
  vval_id : match_string uuid_pattern (vs_ValidationID v) = true;
  vval_versions : match_string version_pattern (vs_ParserVersion v) = true ∧ match_string version_pattern (vs_ValidatorVersion v) = true
    ∧ snapshot_nftVersionPattern (vs_NFTVersion v) = true;
  vval_digests : Forall (λ d, match_string digest_pattern d = true) (validation_digests v);
  vval_checks : Forall2 check_ok orderedValidationCheckIDs (vs_Checks v);
  vval_times : validSnapshotTime (vs_CreatedAt v) = true ∧ validSnapshotTime (vs_ValidUntil v) = true;
  vval_lifetime : lt_instant (vs_ValidUntil v) = lt_instant (vs_CreatedAt v) + ValidationSnapshotLifetime
}.

Lemma check_passed_iff id c : check_passed id c = true ↔ check_ok id c.
Proof. unfold check_passed, check_ok. rewrite !andb_true_iff, !String.eqb_eq, validDigest_pattern. tauto. Qed.

Lemma checks_passed_iff (ids : list string) checks : length checks = length ids →
  forallb (λ '(id, check), check_passed id check) (zip ids checks) = true ↔ Forall2 check_ok ids checks.
Proof.
  revert checks. induction ids as [|id ids IH]; intros [|c checks] Hl; cbn [length] in Hl; try lia; [cbn; split; [constructor|done]|].
  cbn [zip zip_with forallb]. fold (zip ids checks). rewrite andb_true_iff, check_passed_iff, IH by lia. split; [intros []; by constructor|by inversion 1].
Qed.

Lemma checks_tidy ids l : Forall plain ids → Forall2 check_ok ids l → tidy (JArray (check_wire <$> l)).
Proof.
  intros Hids H. cbn [tidy]. apply foldr_and_Forall, Forall_fmap. induction H as [|id c ids l (H1 & H2 & H3 & H4) _ IH]; [constructor|]. apply Forall_cons in Hids as [Hid Hids].
  constructor; [|by apply IH]. unfold check_wire. cbn. rewrite H1, H2, H3. split_and!; try done. by apply digest_text_plain.
Qed.

Lemma validation_tidy v : validation_valid v → tidy (validationSnapshotToWire v).
Proof.
  intros [[Hs Hg] Hi (Hp & Hvv & Hn) Hd Hc _ _]. assert (Ht : tidy (JArray (check_wire <$> vs_Checks v))) by (eapply checks_tidy; [|exact Hc]; by repeat constructor).
  unfold validationSnapshotToWire, validation_texts, json_time. cbn [map app]. revert Ht. generalize (JArray (check_wire <$> vs_Checks v)). intros a Ht. cbn [tidy foldr fst snd].
  unfold validation_digests in Hd. rewrite !Forall_cons in Hd. destruct_and! Hd. rewrite Hs, Hg.
  split_and!; try done; auto using uuid_text_plain, digest_text_plain, version_plain, nft_version_plain, time_plain.
Qed.

Lemma CheckValidationSnapshot_iff v c :
  CheckValidationSnapshot v = Ok c ↔
  validation_valid v ∧ len (cv_canonical c) <= MaxValidationSnapshotBytes
  ∧ c = (let canonical := implode (write_json (validation_document (freeze_validation v))) in MkCheckedValidation (freeze_validation v) canonical (digest canonical)).
Proof.
  assert (Hmarshal : validation_valid v → marshalSnapshotJCS (validationSnapshotToWire (freeze_validation v)) = Some (implode (write_json (validation_document (freeze_validation v))))).
  { intros Hv. assert (Ht : tidy (validationSnapshotToWire (freeze_validation v))).
    { change (validationSnapshotToWire (freeze_validation v)) with (validationSnapshotToWire v). by apply validation_tidy. }
    unfold marshalSnapshotJCS. rewrite canonicalJSON_write by auto using tidy_simple. by rewrite validation_canon. }
  assert (Hdig : forallb validDigest (validation_digests v) = true ↔ Forall (λ d, match_string digest_pattern d = true) (validation_digests v)).
  { rewrite forallb_Forall. apply Forall_iff. intros d. by rewrite validDigest_pattern. }
  unfold CheckValidationSnapshot. unfold consistencyUUIDPattern, snapshotVersionPattern, Equal. split.
  - intros H. repeat match type of H with (if ?b then _ else _) = _ => destruct b eqn:?; [discriminate H|] end.
    assert (Hv : validation_valid v).
    { rewrite ?orb_false_iff, ?negb_false_iff, ?String.eqb_eq, ?Nat.eqb_eq, ?Z.eqb_eq in *. destruct_and!. split; try done; [by apply Hdig|by apply checks_passed_iff]. }
    rewrite Hmarshal in H by done. cbv zeta in H.
    destruct (_ <? _) eqn:E in H; [discriminate H|]. apply (f_equal (from_ok c)) in H. cbn [from_ok] in H. subst c. cbn [cv_canonical].
    split; [done|]. split; [by apply Z.ltb_ge in E|done].
  - intros (Hv & Hlen & ->). cbv zeta in Hlen. cbn [cv_canonical] in Hlen. rewrite (Hmarshal Hv). cbv zeta. rewrite (proj2 (Z.ltb_ge _ _) Hlen).
    destruct Hv as [[Hs Hg] Hi (Hp & Hvv & Hn) Hd Hc [Ht1 Ht2] Hl]. pose proof (Forall2_length _ _ _ Hc) as Hlen2.
    rewrite Hs, Hg, Hi, Hp, Hvv, Hn, (proj2 Hdig Hd), <-Hlen2, Nat.eqb_refl, (proj2 (checks_passed_iff _ _ (eq_sym Hlen2)) Hc), Ht1, Ht2, Hl, Z.eqb_refl, !String.eqb_refl. done.
Qed.

Lemma check_decodes c : ∃ w, decode_check_wire (check_document c) [] = Some w ∧ check_of_wire w = c.
Proof. eexists. split; [lazy; reflexivity|]. by destruct c. Qed.

Lemma checks_decode l : ∃ s, decode_slice [] decode_check_wire (JArray (check_document <$> l)) nil_slice = Some s ∧ check_of_wire <$> elements s = l.
Proof.
  assert (Hm : ∃ ws, mapM (λ e, decode_check_wire e []) (check_document <$> l) = Some ws ∧ check_of_wire <$> ws = l).
  { induction l as [|c l IH]; [by exists []|]. destruct IH as (ws & IH1 & IH2). destruct (check_decodes c) as (w & Hw1 & Hw2). exists (w :: ws).
    cbn [fmap list_fmap mapM] in *. unfold mbind, option_bind in *. rewrite Hw1. cbn [fmap list_fmap] in IH1. rewrite IH1. by rewrite Hw2, IH2. }
  destruct Hm as (ws & Hm & Hl). destruct (decode_slice_fresh [] decode_check_wire _ _ Hm) as (s & Hs & He). exists s. split; [done|]. by rewrite He.
Qed.

Lemma checks_unique l : unique_names (JArray (check_document <$> l)) = true.
Proof. cbn [unique_names]. apply forallb_Forall, Forall_fmap, Forall_true. done. Qed.

Lemma checks_height l : height (JArray (check_document <$> l)) <= 2.
Proof. cbn [height]. induction l as [|c l IH]; cbn [fmap list_fmap foldr]; [lia|]. cbn [height check_document foldr snd] in *. lia. Qed.

Lemma validation_strict v : validation_valid v → strictJSON MaxContractDepth (implode (write_json (validation_document v))) = Some (validation_document v).
Proof.
  intros Hv. unfold strictJSON. rewrite chars_implode, parse_document_write.
  2:{ rewrite <-validation_canon. by apply canon_simple, validation_tidy. }
  unfold validation_document at 1. cbn match. fold (validation_document v). rewrite consumeJSON_ok; [done| |].
  - unfold validation_document, json_time. pose proof (checks_unique (vs_Checks v)) as H1. revert H1. generalize (JArray (check_document <$> vs_Checks v)).
    intros a H1. cbn [unique_names forallb snd]. by rewrite H1.
  - unfold validation_document, json_time. pose proof (checks_height (vs_Checks v)) as H1. revert H1. generalize (JArray (check_document <$> vs_Checks v)).
    intros a H1. cbn [height foldr snd]. unfold MaxContractDepth. lia.
Qed.

(** The snapshot with the given times. *)
Definition with_times (v : ValidationSnapshot) (createdAt validUntil : localtime) : ValidationSnapshot :=
  MkValidationSnapshot (vs_SchemaVersion v) (vs_ValidationID v) (vs_PolicyDigest v) (vs_EvidenceSnapshotDigest v) (vs_AnalysisInputDigest v)
    (vs_AnalysisOutputSchemaDigest v) (vs_PromptDigest v) (vs_GeneratedCandidateDigest v) (vs_CanonicalArtifactDigest v) (vs_GrammarVersion v)
    (vs_ParserVersion v) (vs_ValidatorVersion v) (vs_BaseChainContractRawDigest v) (vs_LiveOwnedSchemaDigest v) (vs_ProtectedIPv4StaticDigest v)
    (vs_ProtectedIPv4EffectiveConfigDigest v) (vs_NFTBinaryDigest v) (vs_NFTVersion v) (vs_HistoricalImpactDigest v) (vs_Checks v) createdAt validUntil.

Lemma validation_decodes v : ∃ w, decode_validation_wire (validation_document v) (MkValidationWire [] nil_slice) = Some w
  ∧ (∀ t1 t2, validation_of_wire w t1 t2 = with_times v t1 t2)
  ∧ text (vw_texts w) "created_at" = format_rfc3339nano (lt_instant (vs_CreatedAt v))
  ∧ text (vw_texts w) "valid_until" = format_rfc3339nano (lt_instant (vs_ValidUntil v)).
Proof.
  unfold validation_document, json_time, with_times. destruct (checks_decode (vs_Checks v)) as (s & Hs & He).
  set (dec := decode_slice [] decode_check_wire) in Hs. revert Hs. generalize (JArray (check_document <$> vs_Checks v)).
  generalize (format_rfc3339nano (lt_instant (vs_CreatedAt v))), (format_rfc3339nano (lt_instant (vs_ValidUntil v))).
  intros x1 x2 a Hs. eexists. split.
  - unfold decode_validation_wire, decode_object. fold dec. rewrite !decode_fields_cons. clearbody dec. lazy -[nil_slice]. rewrite Hs. lazy -[nil_slice]. reflexivity.
  - rewrite <-He. done.
Qed.

Lemma validation_valid_freeze v : validation_valid v → utc_year_ok (vs_CreatedAt v) → utc_year_ok (vs_ValidUntil v) → validation_valid (freeze_validation v).
Proof. intros [] ? ?. destruct_and!. split; try done. cbn. auto using utc_valid. Qed.

Lemma validation_reads v c : utc_year_ok (vs_CreatedAt v) → utc_year_ok (vs_ValidUntil v) →
  CheckValidationSnapshot v = Ok c → ParseCanonicalValidationSnapshot (cv_canonical c) = Ok c.
Proof.
  intros Hy1 Hy2 Hc. pose proof (proj1 (CheckValidationSnapshot_iff v c) Hc) as (Hv & Hlen & Heq).
  pose proof (validation_valid_freeze v Hv Hy1 Hy2) as Hf. set (f := freeze_validation v) in *.
  assert (Hcan : cv_canonical c = implode (write_json (validation_document f))) by (rewrite Heq; reflexivity).
  unfold ParseCanonicalValidationSnapshot. rewrite (proj2 (Z.ltb_ge _ _) Hlen), Hcan.
  assert (Hs : simple (validation_document f)) by (rewrite <-validation_canon; by apply canon_simple, validation_tidy).
  rewrite (write_json_nonempty _ Hs). cbn [orb]. rewrite (validation_strict f) by done.
  destruct (validation_decodes f) as (w & -> & Hw & -> & ->).
  change (vs_CreatedAt f) with (UTC (vs_CreatedAt v)). change (vs_ValidUntil f) with (UTC (vs_ValidUntil v)).
  rewrite !utc_parses by done. rewrite Hw.
  assert (Hck : CheckValidationSnapshot f = Ok c).
  { apply CheckValidationSnapshot_iff. split; [done|]. split; [done|]. exact Heq. }
  change (with_times f _ _) with f. rewrite Hck. cbn [mbind result_bind]. by rewrite Hcan, String.eqb_refl.
Qed.

Lemma validation_only_canonical data c : ParseCanonicalValidationSnapshot data = Ok c → data = cv_canonical c ∧ ∃ v, CheckValidationSnapshot v = Ok c.
Proof.
  unfold ParseCanonicalValidationSnapshot. destruct (_ || _); [done|]. destruct (strictJSON _ data); [|done]. destruct (decode_validation_wire _ _) as [w|]; [|done].
  destruct (parse_rfc3339nano _); [|done]. destruct (parse_rfc3339nano _); [|done].
  destruct (CheckValidationSnapshot _) as [c'|] eqn:E; [|done]. cbn [mbind result_bind]. destruct (String.eqb_spec data (cv_canonical c')) as [->|]; [|done].
  cbn [negb]. intros H. apply (f_equal (from_ok c)) in H. cbn [from_ok] in H. subst c'. split; [done|]. by eexists.
Qed.

(** ** Samples *)

Definition sample_evidence_snapshot (created zone : Z) : EvidenceSnapshot :=
  MkEvidenceSnapshot EvidenceSnapshotSchemaVersion sample_uuid sample_uuid 1 "203.0.113.20" "gateway" (MkLocal (created - 60 * Second) zone) (MkLocal (created - Second) zone)
    PinnedProtectedIPv4Digest [sample_uuid] [sample_uuid] (MkLocal created zone).

Definition sample_checks : list ValidationCheck := (λ id, MkCheck id "pass" "ok" PinnedProtectedIPv4Digest) <$> orderedValidationCheckIDs.

Definition sample_validation (created zone : Z) : ValidationSnapshot :=
  let d := PinnedProtectedIPv4Digest in
  MkValidationSnapshot ValidationSnapshotSchemaVersion sample_uuid d d d d d d d CandidateSchemaVersion "nft-blacklist-parser-v1" "owned-schema-validator-v1" d d d d d
    "1.0.9" d sample_checks (MkLocal created zone) (MkLocal (created + ValidationSnapshotLifetime) zone).

Definition sample_checked_evidence : CheckedEvidenceSnapshot :=
  from_ok (MkCheckedEvidence (sample_evidence_snapshot 0 0) "" "") (CheckEvidenceSnapshot (sample_evidence_snapshot sample_time 32400)).

Definition sample_checked_validation : CheckedValidationSnapshot :=
  from_ok (MkCheckedValidation (sample_validation 0 0) "" "") (CheckValidationSnapshot (sample_validation sample_time 32400)).

Lemma ok_from_ok {E A} (d : A) (r : result E A) : is_ok r = true → r = Ok (from_ok d r).
Proof. by destruct r. Qed.

Lemma sample_evidence_checked : CheckEvidenceSnapshot (sample_evidence_snapshot sample_time 32400) = Ok sample_checked_evidence.
Proof. apply ok_from_ok. vm_compute. reflexivity. Qed.

Lemma sample_validation_checked : CheckValidationSnapshot (sample_validation sample_time 32400) = Ok sample_checked_validation.
Proof. apply ok_from_ok. vm_compute. reflexivity. Qed.

(** A time of the year 9999 in its own zone whose UTC year is 10000 is accepted, and the
    canonical bytes of the snapshot cannot be read back. *)
Definition late_time : Z := 315537915000 * Second.

Lemma late_snapshot_unreadable :
  match CheckValidationSnapshot (sample_validation late_time (-18000)) with
  | Ok c => ParseCanonicalValidationSnapshot (cv_canonical c) = Err SnapshotErrorTime
  | Err _ => False
  end.
Proof. vm_compute. reflexivity. Qed.

(** ** The claims *)

(** The canonical bytes of a checked evidence snapshot, whose times have four-digit years
    in UTC, are read back as that snapshot, and they are the only bytes that are. *)
Theorem evidence_snapshot_round_trip v c :
  0 <= es_IncidentVersion v → utc_year_ok (es_WindowStart v) → utc_year_ok (es_WindowEnd v) → utc_year_ok (es_CreatedAt v) →
  CheckEvidenceSnapshot v = Ok c →
  ParseCanonicalEvidenceSnapshot (ce_canonical c) = Ok c ∧ ∀ data, ParseCanonicalEvidenceSnapshot data = Ok c → data = ce_canonical c.
Proof. intros ? ? ? ? Hc. split; [by eapply evidence_reads|]. intros data [-> _]%evidence_only_canonical. done. Qed.

Lemma evidence_snapshot_round_trip_witness : ParseCanonicalEvidenceSnapshot (ce_canonical sample_checked_evidence) = Ok sample_checked_evidence.
Proof.
  assert (H0 : 0 <= 1) by discriminate. assert (Hy1 : utc_year_ok (es_WindowStart (sample_evidence_snapshot sample_time 32400))) by (vm_compute; split; discriminate).
  assert (Hy2 : utc_year_ok (es_WindowEnd (sample_evidence_snapshot sample_time 32400))) by (vm_compute; split; discriminate).
  assert (Hy3 : utc_year_ok (es_CreatedAt (sample_evidence_snapshot sample_time 32400))) by (vm_compute; split; discriminate).
  exact (proj1 (evidence_snapshot_round_trip (sample_evidence_snapshot sample_time 32400) sample_checked_evidence H0 Hy1 Hy2 Hy3 sample_evidence_checked)).
Defined.

(** C27. A checked validation snapshot records that all six gates passed, in order and each
    with a digest of its input; it is fresh from its creation and for exactly five
    minutes; and its canonical bytes, when its times have four-digit years in UTC, are
    read back as the snapshot. *)
Theorem validation_snapshot_exact v c :
  utc_year_ok (vs_CreatedAt v) → utc_year_ok (vs_ValidUntil v) → CheckValidationSnapshot v = Ok c →
  Forall2 check_ok orderedValidationCheckIDs (vs_Checks (cv_value c))
  ∧ (∀ now, FreshAt c now = true ↔ now ≠ 0 ∧ lt_instant (vs_CreatedAt v) <= now < lt_instant (vs_CreatedAt v) + ValidationSnapshotLifetime)
  ∧ ParseCanonicalValidationSnapshot (cv_canonical c) = Ok c
  ∧ ∀ data, ParseCanonicalValidationSnapshot data = Ok c → data = cv_canonical c.
Proof.
  intros Hy1 Hy2 Hc. pose proof (proj1 (CheckValidationSnapshot_iff v c) Hc) as (Hv & _ & Heq). split_and!.
  - assert (vs_Checks (cv_value c) = vs_Checks v) as -> by (rewrite Heq; reflexivity). apply (vval_checks _ Hv).
  - intros now. unfold FreshAt. assert ((len (cv_canonical c) =? 0) = false) as ->.
    { rewrite Heq. cbn [cv_canonical]. apply write_json_nonempty. rewrite <-validation_canon. by apply canon_simple, validation_tidy, validation_valid_freeze. }
    assert (vs_CreatedAt (cv_value c) = UTC (vs_CreatedAt v)) as -> by (rewrite Heq; reflexivity).
    assert (vs_ValidUntil (cv_value c) = UTC (vs_ValidUntil v)) as -> by (rewrite Heq; reflexivity).
    cbn [orb UTC lt_instant]. rewrite (vval_lifetime _ Hv). unfold IsZero, Before. destruct (Z.eqb_spec now 0); [split; [discriminate|intros [? _]; contradiction]|].
    rewrite andb_true_iff, negb_true_iff, Z.ltb_ge, Z.ltb_lt. clear Hc Heq. lia.
  - by eapply validation_reads.
  - intros data [-> _]%validation_only_canonical. done.
Qed.

Lemma validation_snapshot_exact_witness : FreshAt sample_checked_validation (sample_time + 299 * Second) = true.
Proof.
  assert (Hy1 : utc_year_ok (vs_CreatedAt (sample_validation sample_time 32400))) by (vm_compute; split; discriminate).
  assert (Hy2 : utc_year_ok (vs_ValidUntil (sample_validation sample_time 32400))) by (vm_compute; split; discriminate).
  apply (proj1 (proj2 (validation_snapshot_exact (sample_validation sample_time 32400) sample_checked_validation Hy1 Hy2 sample_validation_checked))).
  split; [discriminate|]. vm_compute. split; [discriminate|reflexivity].
Defined.
