(* ===== verification/History.v ===== *)
(** * The historical-impact gate ([internal/validation/history.go])

    The sixth gate: a block is refused when the last 24 hours of recorded traffic of
    the target cannot be shown complete, or when they hold a successful login.  Times
    keep their zone, because the checks look at the year before they convert to UTC.
    The wires are the structs that [json.Marshal] prints before they are digested. *)

From S2P Require Import Prelude GoSort GoStrings Regex Sha256 GoTime Netip Json JsonTree CanonicalJson Policy Detection Protected Consistency Snapshot.
Local Open Scope Z_scope.

Definition HistoricalImpactSchemaVersion : string := "historical-impact-v1".
Definition HistoricalImpactLookback : duration := 24 * Hour.
Definition HistoricalImpactLookbackSecs : Z := HistoricalImpactLookback / Second.

Definition PinnedDemoHistoryRawFileDigest : string := "sha256:fe1b9e9ed59c74b1522acb63e1c0239cc3defb53f56fbe6125894403b3d341f9".
Definition PinnedDemoHistoryDatasetDigest : string := "sha256:0686d45e11e029dd2e4712a1de981f3c0e5b92ccff45b1eaddb54c066232dd00".
Definition PinnedDemoHistoryImpactSourceHealthDigest : string := "sha256:e2493dd1befd0d0a8ed321b6ff6ee3c0078a91692197c6b90c65d728e17cb1e3".
Definition DemoHistoryDatasetLocator : string := "contracts/fixtures/demo_history_dataset_v1.json".

Definition maxHistoricalGatewayRecords : Z := 1000000.
Definition maxHistoricalAuthRecords : Z := 1000000.
Definition maxHistoricalHealthIntervals : Z := 100000.
Definition maxHistoricalReceiverGaps : Z := 100000.
Definition maxHistoricalSafeInteger : Z := 9007199254740991.

(** [HistoryMode] *)
Definition HistoryModeRetained : string := "retained".
Definition HistoryModeVerifiedDemo : string := "verified_demo".

(** [HistoryClockAuthority] *)
Definition HistoryClockRealtime : string := "realtime".
Definition HistoryClockVerifiedDemo : string := "verified_demo".

(** ** The cutoff: a clock reading with its provenance *)

Record HistoryCutoff := MkCutoff { hc_at : localtime; hc_authority : string; hc_sealed : bool }.

Definition zero_localtime : localtime := MkLocal 0 0.
Definition zero_cutoff : HistoryCutoff := MkCutoff zero_localtime "" false.

(** [now] is the reading of [time.Now]. *)
Definition CaptureRealtimeHistoryCutoff (now : localtime) : HistoryCutoff := MkCutoff (UTC now) HistoryClockRealtime true.

(** [None] is [ErrInvalidDatabaseHistoryCutoff]. *)
Definition SealDatabaseHistoryCutoff (at_ : localtime) : option HistoryCutoff :=
  let at_ := UTC at_ in
  if negb (validSnapshotTime at_) then None else Some (MkCutoff at_ HistoryClockRealtime true).

Definition cutoff_At (c : HistoryCutoff) : localtime := if negb (hc_sealed c) then zero_localtime else hc_at c.

(** ** The records of the window *)

(** [HistoryQueryStatus] *)
Definition HistoryQueryComplete : string := "complete".
Definition HistoryQueryIncomplete : string := "incomplete".
Definition HistoryQueryUnavailable : string := "unavailable".

Record HistoryCoverage := MkCoverage {
  cov_GatewayStatus : string; cov_AuthStatus : string; cov_SourceHealthStatus : string; cov_ReceiverGapStatus : string;
  cov_RetainedFrom : localtime; cov_RetainedThrough : localtime
}.

Record HistoricalGatewayRecord := MkGatewayRecord {
  hg_EventID : string; hg_OccurredAt : localtime; hg_SourceIPv4 : string; hg_StatusCode : Z; hg_TimestampTrust : string
}.

Record HistoricalAuthRecord := MkAuthRecord {
  ha_EventID : string; ha_OccurredAt : localtime; ha_SourceIPv4 : string; ha_Outcome : string; ha_TimestampTrust : string; ha_Binding : string
}.

(** [detection.HealthInterval] and [detection.SourceHealth], with the zones of their times. *)
Record historyInterval := MkInterval { iv_State : string; iv_Start : localtime; iv_End : localtime; iv_DroppedCount : Z }.

Record historyHealth := MkHealth {
  hh_Source : string; hh_Complete : bool; hh_CoverageStart : localtime; hh_CoverageEnd : localtime; hh_Intervals : list historyInterval
}.

(** [detection.HealthUnknownLoss] *)
Definition HealthUnknownLoss : string := "unknown_loss".

(** [ReceiverGapResolution] *)
Definition ReceiverGapResolvedExact : string := "resolved_exact".
Definition ReceiverGapUnresolved : string := "unresolved".
Definition ReceiverGapPermanentLoss : string := "permanent_loss".

Record HistoricalReceiverGap := MkGap {
  gp_GapID : string; gp_Source : string; gp_SequenceStart : Z; gp_SequenceEnd : Z; gp_ImpactStart : localtime; gp_ImpactEnd : localtime;
  gp_Resolution : string
}.

(** ** The signed demonstration import *)

Record VerifiedDemoHistoryBinding := MkDemoBinding {
  db_verified : bool; db_verificationEnvironment : string; db_fixtureOnly : bool; db_schemaVersion : string; db_profile : string; db_manifestID : string;
  db_datasetID : string; db_datasetSchemaVersion : string; db_datasetLocator : string; db_importID : string; db_clockAt : localtime;
  db_coverageStart : localtime; db_coverageEnd : localtime; db_issuedAt : localtime; db_pathCatalogVersion : string; db_datasetRecordCount : Z;
  db_rawFileDigest : string; db_datasetDigest : string; db_manifestDigest : string; db_importedRowsDigest : string;
  db_manifestSourceHealthDigest : string; db_impactSourceHealthDigest : string; db_runScopeDigest : string; db_publicKeyDigest : string;
  db_signatureVerificationDigest : string
}.

(** [VerifiedDemoHistoryBinding.HistoryCutoff] *)
Definition demo_HistoryCutoff (b : VerifiedDemoHistoryBinding) : HistoryCutoff :=
  if negb (db_verified b) || negb (validSnapshotTime (db_clockAt b)) then zero_cutoff
  else MkCutoff (UTC (db_clockAt b)) HistoryClockVerifiedDemo true.

Record HistoricalImpactInput := MkImpactInput {
  hi_Environment : string; hi_Mode : string; hi_Clock : HistoryCutoff; hi_TargetIPv4 : string; hi_Coverage : HistoryCoverage;
  hi_GatewayRecords : list HistoricalGatewayRecord; hi_AuthRecords : list HistoricalAuthRecord; hi_GatewayHealth : historyHealth;
  hi_AuthHealth : historyHealth; hi_ReceiverGaps : list HistoricalReceiverGap; hi_DemoHistory : option VerifiedDemoHistoryBinding
}.

(** ** Decisions and reasons *)

Definition HistoricalImpactAllowed : string := "allowed".
Definition HistoricalImpactBlocked : string := "blocked".

Definition HistoryReasonOK : string := "ok".
Definition HistoryReasonInputInvalid : string := "history_input_invalid".
Definition HistoryReasonClockNotAllowed : string := "history_clock_not_allowed".
Definition HistoryReasonInputUnavailable : string := "history_input_unavailable".
Definition HistoryReasonCoverageIncomplete : string := "history_coverage_incomplete".
Definition HistoryReasonRetentionMissing : string := "history_retention_boundary_missing".
Definition HistoryReasonSourceDegraded : string := "history_source_degraded".
Definition HistoryReasonSourceUnknownLoss : string := "history_source_unknown_loss".
Definition HistoryReasonGapUnresolved : string := "history_receiver_gap_unresolved".
Definition HistoryReasonGapPermanentLoss : string := "history_receiver_gap_permanent_loss".
Definition HistoryReasonTimestampUntrusted : string := "history_timestamp_untrusted".
Definition HistoryReasonAuthSucceeded : string := "history_auth_succeeded".
Definition HistoryReasonAuthBindingPending : string := "history_auth_binding_pending".
Definition HistoryReasonAuthBindingUntrusted : string := "history_auth_binding_untrusted".
Definition HistoryReasonDemoVerificationMissing : string := "history_demo_verification_missing".
Definition HistoryReasonDemoBindingMismatch : string := "history_demo_binding_mismatch".

Record historyGatewayCounts := MkGatewayCounts { gc_total : Z; gc_2xx : Z; gc_3xx : Z; gc_4xx : Z; gc_5xx : Z }.
Record historyAuthCounts := MkAuthCounts { ac_total : Z; ac_verifiedFailed : Z; ac_succeeded : Z }.

Record HistoricalImpactReport := MkImpactReport {
  hr_SchemaVersion : string; hr_Decision : string; hr_ReasonCode : string; hr_LookbackSeconds : Z; hr_Gateway : historyGatewayCounts;
  hr_Auth : historyAuthCounts; hr_GatewayDigest : string; hr_AuthDigest : string; hr_SourceHealthDigest : string; hr_ReceiverGapDigest : string;
  hr_CoverageDigest : string; hr_DemoBindingDigest : string; hr_InputDigest : string
}.

Definition zero_gateway_counts : historyGatewayCounts := MkGatewayCounts 0 0 0 0 0.
Definition zero_auth_counts : historyAuthCounts := MkAuthCounts 0 0 0.
Definition zero_impact_report : HistoricalImpactReport := MkImpactReport "" "" "" 0 zero_gateway_counts zero_auth_counts "" "" "" "" "" "" "".

Record CheckedHistoricalImpact := MkCheckedImpact { ch_value : HistoricalImpactReport; ch_canonical : string; ch_digest : string }.

(** [CheckedHistoricalImpact.Allowed] *)
Definition impact_Allowed (r : CheckedHistoricalImpact) : bool :=
  negb (len (ch_canonical r) =? 0) && String.eqb (hr_Decision (ch_value r)) HistoricalImpactAllowed && String.eqb (hr_ReasonCode (ch_value r)) HistoryReasonOK.

(** ** Wires and digests *)

Definition historyTime (value : localtime) : string := format_rfc3339nano (lt_instant value).
Definition historyOptionalTime (value : localtime) : string := if IsZero (lt_instant value) then "" else historyTime value.

Definition digestHistoryValue (value : json) : string :=
  match marshalSnapshotJCS value with Some canonical => digest canonical | None => digest "" end.

Record historyGatewayWire := MkGatewayWire { gw_EventID : string; gw_OccurredAt : string; gw_SourceIPv4 : string; gw_StatusCode : Z; gw_TimestampTrust : string }.

Definition gateway_wire_json (w : historyGatewayWire) : json :=
  JObject [("event_id", JString (gw_EventID w)); ("occurred_at", JString (gw_OccurredAt w)); ("source_ipv4", JString (gw_SourceIPv4 w));
           ("status_code", JNumber (chars (itoa (gw_StatusCode w)))); ("timestamp_trust", JString (gw_TimestampTrust w))].

Record historyAuthWire := MkAuthWire {
  aw_EventID : string; aw_OccurredAt : string; aw_SourceIPv4 : string; aw_Outcome : string; aw_TimestampTrust : string; aw_Binding : string
}.

Definition auth_wire_json (w : historyAuthWire) : json :=
  JObject [("event_id", JString (aw_EventID w)); ("occurred_at", JString (aw_OccurredAt w)); ("source_ipv4", JString (aw_SourceIPv4 w));
           ("outcome", JString (aw_Outcome w)); ("timestamp_trust", JString (aw_TimestampTrust w)); ("binding", JString (aw_Binding w))].

Record historyHealthIntervalWire := MkIntervalWire { iw_State : string; iw_Start : string; iw_End : string; iw_DroppedCount : Z }.

Global Instance historyHealthIntervalWire_eq_dec : EqDecision historyHealthIntervalWire.
Proof. solve_decision. Defined.

Definition interval_wire_json (w : historyHealthIntervalWire) : json :=
  JObject [("state", JString (iw_State w)); ("start", JString (iw_Start w)); ("end", JString (iw_End w)); ("dropped_count", json_uint (iw_DroppedCount w))].

Record historySourceHealthWire := MkHealthWire {
  hw_Source : string; hw_Complete : bool; hw_CoverageStart : string; hw_CoverageEnd : string; hw_Intervals : list historyHealthIntervalWire
}.

Definition health_wire_json (w : historySourceHealthWire) : json :=
  JObject [("source", JString (hw_Source w)); ("complete", JBool (hw_Complete w)); ("coverage_start", JString (hw_CoverageStart w));
           ("coverage_end", JString (hw_CoverageEnd w)); ("intervals", JArray (interval_wire_json <$> hw_Intervals w))].

Record historyGapWire := MkGapWire {
  pw_GapID : string; pw_Source : string; pw_SequenceStart : Z; pw_SequenceEnd : Z; pw_ImpactStart : string; pw_ImpactEnd : string; pw_Resolution : string
}.

Definition gap_wire_json (w : historyGapWire) : json :=
  JObject [("gap_id", JString (pw_GapID w)); ("source", JString (pw_Source w)); ("sequence_start", json_uint (pw_SequenceStart w));
           ("sequence_end", json_uint (pw_SequenceEnd w)); ("impact_start", JString (pw_ImpactStart w)); ("impact_end", JString (pw_ImpactEnd w));
           ("resolution", JString (pw_Resolution w))].

(** [historyCoverageWire] *)
Definition coverage_wire_json (value : HistoryCoverage) : json :=
  JObject [("gateway_status", JString (cov_GatewayStatus value)); ("auth_status", JString (cov_AuthStatus value));
           ("source_health_status", JString (cov_SourceHealthStatus value)); ("receiver_gap_status", JString (cov_ReceiverGapStatus value));
           ("retained_from", JString (historyTime (UTC (cov_RetainedFrom value)))); ("retained_through", JString (historyTime (UTC (cov_RetainedThrough value))))].

(** [historicalImpactReportWire] *)
Definition report_json (r : HistoricalImpactReport) : json :=
  JObject
    [("schema_version", JString (hr_SchemaVersion r)); ("decision", JString (hr_Decision r)); ("reason_code", JString (hr_ReasonCode r));
     ("lookback_seconds", json_uint (hr_LookbackSeconds r)); ("gateway_record_count", json_uint (gc_total (hr_Gateway r)));
     ("gateway_2xx_count", json_uint (gc_2xx (hr_Gateway r))); ("gateway_3xx_count", json_uint (gc_3xx (hr_Gateway r)));
     ("gateway_4xx_count", json_uint (gc_4xx (hr_Gateway r))); ("gateway_5xx_count", json_uint (gc_5xx (hr_Gateway r)));
     ("auth_record_count", json_uint (ac_total (hr_Auth r))); ("verified_failed_auth_count", json_uint (ac_verifiedFailed (hr_Auth r)));
     ("succeeded_auth_count", json_uint (ac_succeeded (hr_Auth r))); ("gateway_digest", JString (hr_GatewayDigest r));
     ("auth_digest", JString (hr_AuthDigest r)); ("source_health_digest", JString (hr_SourceHealthDigest r));
     ("receiver_gap_digest", JString (hr_ReceiverGapDigest r)); ("coverage_digest", JString (hr_CoverageDigest r));
     ("demo_binding_digest", JString (hr_DemoBindingDigest r)); ("input_digest", JString (hr_InputDigest r))].

Definition sealHistoricalImpactReport (value : HistoricalImpactReport) : CheckedHistoricalImpact :=
  match marshalSnapshotJCS (report_json value) with
  | None => MkCheckedImpact zero_impact_report "" ""
  | Some canonical => MkCheckedImpact value canonical (digest canonical)
  end.

(** ** The envelope *)

(** [validateHistoryEnvelope]: the window, or the reason. *)
Definition validateHistoryEnvelope (input : HistoricalImpactInput) : localtime * localtime * string :=
  let refuse reason := (zero_localtime, zero_localtime, reason) in
  if negb (known_environment (hi_Environment input)) then refuse HistoryReasonInputInvalid
  else if negb (hc_sealed (hi_Clock input)) || negb (validSnapshotTime (hc_at (hi_Clock input))) then refuse HistoryReasonInputInvalid
  else
    let at_ := UTC (hc_at (hi_Clock input)) in
    let windowStart := MkLocal (lt_instant at_ - HistoricalImpactLookback) 0 in
    if negb (validSnapshotTime windowStart) then refuse HistoryReasonInputInvalid
    else if negb (bool_decide (is_Some (canonical_ipv4 (hi_TargetIPv4 input)))) then refuse HistoryReasonInputInvalid
    else if String.eqb (hi_Mode input) HistoryModeRetained then
      if negb (String.eqb (hc_authority (hi_Clock input)) HistoryClockRealtime) || bool_decide (is_Some (hi_DemoHistory input))
      then refuse HistoryReasonClockNotAllowed else (at_, windowStart, HistoryReasonOK)
    else if String.eqb (hi_Mode input) HistoryModeVerifiedDemo then
      if String.eqb (hi_Environment input) EnvironmentProduction || String.eqb (hi_Environment input) EnvironmentDevelopment
         || negb (String.eqb (hc_authority (hi_Clock input)) HistoryClockVerifiedDemo)
      then refuse HistoryReasonClockNotAllowed else (at_, windowStart, HistoryReasonOK)
    else refuse HistoryReasonInputInvalid.

(** [normalizeHistoryCoverage]; the wire is [coverage_wire_json] of the value. *)
Definition normalizeHistoryCoverage (value : HistoryCoverage) (windowStart at_ : localtime) : string :=
  let statuses := [cov_GatewayStatus value; cov_AuthStatus value; cov_SourceHealthStatus value; cov_ReceiverGapStatus value] in
  if negb (forallb (λ status, String.eqb status HistoryQueryComplete || String.eqb status HistoryQueryIncomplete || String.eqb status HistoryQueryUnavailable) statuses)
  then HistoryReasonInputInvalid
  else if existsb (String.eqb HistoryQueryUnavailable) statuses then HistoryReasonInputUnavailable
  else if existsb (String.eqb HistoryQueryIncomplete) statuses then HistoryReasonCoverageIncomplete
  else if negb (validSnapshotTime (cov_RetainedFrom value)) || negb (validSnapshotTime (cov_RetainedThrough value))
          || Before (lt_instant (cov_RetainedThrough value)) (lt_instant (cov_RetainedFrom value)) then HistoryReasonRetentionMissing
  else if After (lt_instant (cov_RetainedFrom value)) (lt_instant windowStart) then HistoryReasonRetentionMissing
  else if Before (lt_instant (cov_RetainedThrough value)) (lt_instant at_) then HistoryReasonCoverageIncomplete
  else HistoryReasonOK.

(** ** Records *)

Definition trust_known (trust : string) : bool := String.eqb trust TimestampTrusted || String.eqb trust TimestampUntrusted.

Section window.
Context (target : string) (windowStart at_ : localtime).

(** The guards on one gateway record, after its identifier. *)
Definition gateway_record_ok (value : HistoricalGatewayRecord) : bool :=
  negb (negb (validSnapshotTime (hg_OccurredAt value)) || Before (lt_instant (hg_OccurredAt value)) (lt_instant windowStart)
        || After (lt_instant (hg_OccurredAt value)) (lt_instant at_) || negb (String.eqb (hg_SourceIPv4 value) target)
        || (hg_StatusCode value <? 100) || (599 <? hg_StatusCode value) || negb (trust_known (hg_TimestampTrust value))).

Definition count_status (counts : historyGatewayCounts) (status : Z) : historyGatewayCounts :=
  let '(MkGatewayCounts total n2 n3 n4 n5) := counts in
  match status / 100 with
  | 2 => MkGatewayCounts total (n2 + 1) n3 n4 n5
  | 3 => MkGatewayCounts total n2 (n3 + 1) n4 n5
  | 4 => MkGatewayCounts total n2 n3 (n4 + 1) n5
  | 5 => MkGatewayCounts total n2 n3 n4 (n5 + 1)
  | _ => counts
  end.

Definition gateway_wire (value : HistoricalGatewayRecord) : historyGatewayWire :=
  MkGatewayWire (hg_EventID value) (historyTime (UTC (hg_OccurredAt value))) (hg_SourceIPv4 value) (hg_StatusCode value) (hg_TimestampTrust value).

(** The loop; [None] is the early return.  At most a million records are counted, so
    the 64-bit counters do not wrap. *)
Fixpoint gateway_loop (values : list HistoricalGatewayRecord) (seen : list string) (counts : historyGatewayCounts) (reason : string)
    : option (list historyGatewayWire * historyGatewayCounts * string) :=
  match values with
  | [] => Some ([], counts, reason)
  | value :: values =>
      if negb (match_string consistencyUUIDPattern (hg_EventID value)) then None
      else if bool_decide (hg_EventID value ∈ seen) then None
      else if negb (gateway_record_ok value) then None
      else
        '(result, counts, reason) ← gateway_loop values (hg_EventID value :: seen) (count_status counts (hg_StatusCode value))
          (if String.eqb (hg_TimestampTrust value) TimestampUntrusted then HistoryReasonTimestampUntrusted else reason);
        Some (gateway_wire value :: result, counts, reason)
  end.

Definition gateway_wire_order : historyGatewayWire → historyGatewayWire → comparison :=
  cmp_lex (cmp_on gw_OccurredAt String.compare) (cmp_on gw_EventID String.compare).

Definition normalizeHistoryGateway (values : list HistoricalGatewayRecord) : list historyGatewayWire * historyGatewayCounts * string :=
  if (maxHistoricalGatewayRecords <? Z.of_nat (length values)) then ([], zero_gateway_counts, HistoryReasonInputInvalid)
  else
    match gateway_loop values [] (MkGatewayCounts (Z.of_nat (length values)) 0 0 0 0) HistoryReasonOK with
    | None => ([], zero_gateway_counts, HistoryReasonInputInvalid)
    | Some (result, counts, reason) => (sort_slice gateway_wire_order result, counts, reason)
    end.

Definition auth_record_ok (value : HistoricalAuthRecord) : bool :=
  negb (negb (validSnapshotTime (ha_OccurredAt value)) || Before (lt_instant (ha_OccurredAt value)) (lt_instant windowStart)
        || After (lt_instant (ha_OccurredAt value)) (lt_instant at_) || negb (String.eqb (ha_SourceIPv4 value) target)
        || (negb (String.eqb (ha_Outcome value) AuthOutcomeFailed) && negb (String.eqb (ha_Outcome value) AuthOutcomeSucceeded))
        || negb (trust_known (ha_TimestampTrust value))
        || (negb (String.eqb (ha_Binding value) BindingVerified) && negb (String.eqb (ha_Binding value) BindingPending)
            && negb (String.eqb (ha_Binding value) BindingUntrusted))).

Definition auth_wire (value : HistoricalAuthRecord) : historyAuthWire :=
  MkAuthWire (ha_EventID value) (historyTime (UTC (ha_OccurredAt value))) (ha_SourceIPv4 value) (ha_Outcome value) (ha_TimestampTrust value) (ha_Binding value).

(** The flags of the loop over authentication records. *)
Record auth_flags := MkAuthFlags { af_success : bool; af_pending : bool; af_untrustedBinding : bool; af_untrustedTimestamp : bool }.

Definition count_auth (counts : historyAuthCounts) (value : HistoricalAuthRecord) : historyAuthCounts :=
  MkAuthCounts (ac_total counts)
    (ac_verifiedFailed counts + if String.eqb (ha_Outcome value) AuthOutcomeFailed && String.eqb (ha_Binding value) BindingVerified
                                   && String.eqb (ha_TimestampTrust value) TimestampTrusted then 1 else 0)
    (ac_succeeded counts + if String.eqb (ha_Outcome value) AuthOutcomeSucceeded then 1 else 0).

Definition raise_flags (flags : auth_flags) (value : HistoricalAuthRecord) : auth_flags :=
  MkAuthFlags (af_success flags || String.eqb (ha_Outcome value) AuthOutcomeSucceeded) (af_pending flags || String.eqb (ha_Binding value) BindingPending)
    (af_untrustedBinding flags || String.eqb (ha_Binding value) BindingUntrusted)
    (af_untrustedTimestamp flags || String.eqb (ha_TimestampTrust value) TimestampUntrusted).

Fixpoint auth_loop (values : list HistoricalAuthRecord) (seen : list string) (counts : historyAuthCounts) (flags : auth_flags)
    : option (list historyAuthWire * historyAuthCounts * auth_flags) :=
  match values with
  | [] => Some ([], counts, flags)
  | value :: values =>
      if negb (match_string consistencyUUIDPattern (ha_EventID value)) then None
      else if bool_decide (ha_EventID value ∈ seen) then None
      else if negb (auth_record_ok value) then None
      else
        '(result, counts, flags) ← auth_loop values (ha_EventID value :: seen) (count_auth counts value) (raise_flags flags value);
        Some (auth_wire value :: result, counts, flags)
  end.

Definition auth_wire_order : historyAuthWire → historyAuthWire → comparison :=
  cmp_lex (cmp_on aw_OccurredAt String.compare) (cmp_on aw_EventID String.compare).

(** The final switch. *)
Definition auth_reason (flags : auth_flags) : string :=
  if af_success flags then HistoryReasonAuthSucceeded
  else if af_pending flags then HistoryReasonAuthBindingPending
  else if af_untrustedBinding flags then HistoryReasonAuthBindingUntrusted
  else if af_untrustedTimestamp flags then HistoryReasonTimestampUntrusted
  else HistoryReasonOK.

Definition normalizeHistoryAuth (values : list HistoricalAuthRecord) : list historyAuthWire * historyAuthCounts * string :=
  if (maxHistoricalAuthRecords <? Z.of_nat (length values)) then ([], zero_auth_counts, HistoryReasonInputInvalid)
  else
    match auth_loop values [] (MkAuthCounts (Z.of_nat (length values)) 0 0) (MkAuthFlags false false false false) with
    | None => ([], zero_auth_counts, HistoryReasonInputInvalid)
    | Some (result, counts, flags) => (sort_slice auth_wire_order result, counts, auth_reason flags)
    end.

(** ** Health *)

(** An open interval has the zero end. *)
Definition historyIntervalOverlaps (start end_ : localtime) : bool :=
  if After (lt_instant start) (lt_instant at_) then false
  else IsZero (lt_instant end_) || negb (Before (lt_instant end_) (lt_instant windowStart)).

(** A closed interval needs a valid end that is not before its start. *)
Definition closed_end_ok (start end_ : localtime) : bool :=
  IsZero (lt_instant end_) || (validSnapshotTime end_ && negb (Before (lt_instant end_) (lt_instant start))).

Definition interval_ok (interval : historyInterval) : bool :=
  validHealthState (iv_State interval) && validSnapshotTime (iv_Start interval) && (iv_DroppedCount interval <=? maxHistoricalSafeInteger)
  && closed_end_ok (iv_Start interval) (iv_End interval).

Definition interval_wire (interval : historyInterval) : historyHealthIntervalWire :=
  MkIntervalWire (iv_State interval) (historyTime (UTC (iv_Start interval))) (historyOptionalTime (UTC (iv_End interval))) (iv_DroppedCount interval).

Definition interval_reason (reason : string) (interval : historyInterval) : string :=
  if historyIntervalOverlaps (iv_Start interval) (iv_End interval) then
    if String.eqb (iv_State interval) HealthUnknownLoss then HistoryReasonSourceUnknownLoss
    else if String.eqb reason HistoryReasonOK then HistoryReasonSourceDegraded else reason
  else reason.

Fixpoint interval_loop (intervals : list historyInterval) (reason : string) : option (list historyHealthIntervalWire * string) :=
  match intervals with
  | [] => Some ([], reason)
  | interval :: intervals =>
      if negb (interval_ok interval) then None
      else '(result, reason) ← interval_loop intervals (interval_reason reason interval); Some (interval_wire interval :: result, reason)
  end.

Definition interval_wire_order : historyHealthIntervalWire → historyHealthIntervalWire → comparison :=
  cmp_lex (cmp_on iw_Start String.compare) (cmp_lex (cmp_on iw_End String.compare)
    (cmp_lex (cmp_on iw_State String.compare) (cmp_on iw_DroppedCount Z.compare))).

(** Two equal neighbours of the sorted slice. *)
Fixpoint repeated_interval (intervals : list historyHealthIntervalWire) : bool :=
  match intervals with
  | a :: (b :: _) as rest => bool_decide (b = a) || repeated_interval rest
  | _ => false
  end.

(** One source of the loop: its wire and the reason so far, or the reason of the
    early return. *)
Definition health_source (value : historyHealth) (expected reason : string) : (historySourceHealthWire * string) + string :=
  if negb (String.eqb (hh_Source value) expected) || negb (validSnapshotTime (hh_CoverageStart value)) || negb (validSnapshotTime (hh_CoverageEnd value))
     || Before (lt_instant (hh_CoverageEnd value)) (lt_instant (hh_CoverageStart value)) then inr HistoryReasonInputInvalid
  else if negb (hh_Complete value) || After (lt_instant (hh_CoverageStart value)) (lt_instant windowStart)
          || Before (lt_instant (hh_CoverageEnd value)) (lt_instant at_) then inr HistoryReasonCoverageIncomplete
  else if (maxHistoricalHealthIntervals <? Z.of_nat (length (hh_Intervals value))) then inr HistoryReasonInputInvalid
  else
    match interval_loop (hh_Intervals value) reason with
    | None => inr HistoryReasonInputInvalid
    | Some (intervals, reason) =>
        let intervals := sort_slice interval_wire_order intervals in
        if repeated_interval intervals then inr HistoryReasonInputInvalid
        else inl (MkHealthWire (hh_Source value) true (historyTime (UTC (hh_CoverageStart value))) (historyTime (UTC (hh_CoverageEnd value))) intervals, reason)
    end.

(** [normalizeHistoryHealth]; the wires of an early return are the nil slice. *)
Definition normalizeHistoryHealth (gateway auth : historyHealth) : option (list historySourceHealthWire) * string :=
  match health_source gateway SourceGateway HistoryReasonOK with
  | inr reason => (None, reason)
  | inl (gatewayWire, reason) =>
      match health_source auth SourceAuth reason with
      | inr reason => (None, reason)
      | inl (authWire, reason) => (Some [gatewayWire; authWire], reason)
      end
  end.

(** ** Gaps *)

Definition gap_ok (value : HistoricalReceiverGap) : bool :=
  match_string consistencyUUIDPattern (gp_GapID value)
  && (String.eqb (gp_Source value) SourceGateway || String.eqb (gp_Source value) SourceAuth)
  && negb (gp_SequenceStart value =? 0) && negb (gp_SequenceEnd value <? gp_SequenceStart value) && negb (maxHistoricalSafeInteger <? gp_SequenceEnd value)
  && validSnapshotTime (gp_ImpactStart value)
  && (String.eqb (gp_Resolution value) ReceiverGapResolvedExact || String.eqb (gp_Resolution value) ReceiverGapUnresolved
      || String.eqb (gp_Resolution value) ReceiverGapPermanentLoss).

(** The checks after the one for duplicates. *)
Definition gap_end_ok (value : HistoricalReceiverGap) : bool :=
  closed_end_ok (gp_ImpactStart value) (gp_ImpactEnd value)
  && negb (String.eqb (gp_Resolution value) ReceiverGapResolvedExact && IsZero (lt_instant (gp_ImpactEnd value))).

Definition gap_reason (reason : string) (value : HistoricalReceiverGap) : string :=
  if historyIntervalOverlaps (gp_ImpactStart value) (gp_ImpactEnd value) then
    if String.eqb (gp_Resolution value) ReceiverGapPermanentLoss then HistoryReasonGapPermanentLoss
    else if String.eqb (gp_Resolution value) ReceiverGapUnresolved && String.eqb reason HistoryReasonOK then HistoryReasonGapUnresolved
    else reason
  else reason.

Definition gap_wire (value : HistoricalReceiverGap) : historyGapWire :=
  MkGapWire (gp_GapID value) (gp_Source value) (gp_SequenceStart value) (gp_SequenceEnd value) (historyTime (UTC (gp_ImpactStart value)))
    (historyOptionalTime (UTC (gp_ImpactEnd value))) (gp_Resolution value).

Fixpoint gap_loop (values : list HistoricalReceiverGap) (seen : list string) (reason : string) : option (list historyGapWire * string) :=
  match values with
  | [] => Some ([], reason)
  | value :: values =>
      if negb (gap_ok value) then None
      else if bool_decide (gp_GapID value ∈ seen) then None
      else if negb (gap_end_ok value) then None
      else '(result, reason) ← gap_loop values (gp_GapID value :: seen) (gap_reason reason value); Some (gap_wire value :: result, reason)
  end.

Definition gap_wire_order : historyGapWire → historyGapWire → comparison :=
  cmp_lex (cmp_on pw_ImpactStart String.compare) (cmp_on pw_GapID String.compare).

Definition normalizeHistoryGaps (values : list HistoricalReceiverGap) : list historyGapWire * string :=
  if (maxHistoricalReceiverGaps <? Z.of_nat (length values)) then ([], HistoryReasonInputInvalid)
  else
    match gap_loop values [] HistoryReasonOK with
    | None => ([], HistoryReasonInputInvalid)
    | Some (result, reason) => (sort_slice gap_wire_order result, reason)
    end.
End window.

(** ** The demonstration binding *)

Definition demo_environment_ok (environment : string) (binding : VerifiedDemoHistoryBinding) : bool :=
  negb ((String.eqb environment EnvironmentDemo && (negb (String.eqb (db_verificationEnvironment binding) EnvironmentDemo) || db_fixtureOnly binding))
        || (String.eqb environment EnvironmentTest
            && (negb (String.eqb (db_verificationEnvironment binding) EnvironmentTest) && negb (String.eqb (db_verificationEnvironment binding) EnvironmentDemo)))).

Definition demo_binding_ok (input : HistoricalImpactInput) (binding : VerifiedDemoHistoryBinding) (at_ windowStart : localtime) (report : HistoricalImpactReport) : bool :=
  demo_environment_ok (hi_Environment input) binding
  && String.eqb (db_schemaVersion binding) "demo-history-v1" && String.eqb (db_profile binding) "isolated-demo"
  && String.eqb (db_datasetSchemaVersion binding) "demo-history-dataset-v1" && String.eqb (db_datasetLocator binding) DemoHistoryDatasetLocator
  && String.eqb (db_pathCatalogVersion binding) DefaultPathCatalogVersion
  && match_string consistencyUUIDPattern (db_manifestID binding) && match_string consistencyUUIDPattern (db_datasetID binding)
  && match_string consistencyUUIDPattern (db_importID binding)
  && validDigest (db_datasetDigest binding) && String.eqb (db_datasetDigest binding) PinnedDemoHistoryDatasetDigest
  && String.eqb (db_rawFileDigest binding) PinnedDemoHistoryRawFileDigest
  && validDigest (db_manifestDigest binding) && validDigest (db_importedRowsDigest binding)
  && validDigest (db_manifestSourceHealthDigest binding) && validDigest (db_impactSourceHealthDigest binding)
  && String.eqb (db_impactSourceHealthDigest binding) PinnedDemoHistoryImpactSourceHealthDigest
  && validDigest (db_runScopeDigest binding) && validDigest (db_publicKeyDigest binding) && validDigest (db_signatureVerificationDigest binding)
  && negb (db_datasetRecordCount binding =? 0) && negb (100000 <? db_datasetRecordCount binding)
  && (db_datasetRecordCount binding =? gc_total (hr_Gateway report) + ac_total (hr_Auth report))
  && String.eqb (db_impactSourceHealthDigest binding) (hr_SourceHealthDigest report)
  && Equal (lt_instant (db_clockAt binding)) (lt_instant at_) && Equal (lt_instant (db_coverageStart binding)) (lt_instant windowStart)
  && Equal (lt_instant (db_coverageEnd binding)) (lt_instant at_) && validSnapshotTime (db_issuedAt binding).

(** [bindingWire]; [json.Marshal] prints a map by its sorted names. *)
Definition demo_wire_json (binding : VerifiedDemoHistoryBinding) (at_ windowStart : localtime) : json :=
  JObject
    [("clock_at", JString (historyTime at_)); ("coverage_end", JString (historyTime at_)); ("coverage_start", JString (historyTime windowStart));
     ("dataset_digest", JString (db_datasetDigest binding)); ("dataset_id", JString (db_datasetID binding));
     ("dataset_locator", JString (db_datasetLocator binding)); ("dataset_record_count", json_uint (db_datasetRecordCount binding));
     ("dataset_schema_version", JString (db_datasetSchemaVersion binding)); ("fixture_only", JBool (db_fixtureOnly binding));
     ("impact_source_health_digest", JString (db_impactSourceHealthDigest binding)); ("import_id", JString (db_importID binding));
     ("imported_rows_digest", JString (db_importedRowsDigest binding)); ("issued_at", JString (historyTime (UTC (db_issuedAt binding))));
     ("manifest_digest", JString (db_manifestDigest binding)); ("manifest_id", JString (db_manifestID binding));
     ("manifest_source_health_digest", JString (db_manifestSourceHealthDigest binding)); ("path_catalog_version", JString (db_pathCatalogVersion binding));
     ("profile", JString (db_profile binding)); ("public_key_digest", JString (db_publicKeyDigest binding)); ("raw_file_digest", JString (db_rawFileDigest binding));
     ("run_scope_digest", JString (db_runScopeDigest binding)); ("schema_version", JString (db_schemaVersion binding));
     ("signature_verification_digest", JString (db_signatureVerificationDigest binding));
     ("verification_environment", JString (db_verificationEnvironment binding))].

Definition validateDemoHistoryBinding (input : HistoricalImpactInput) (at_ windowStart : localtime) (report : HistoricalImpactReport) : string * string :=
  if String.eqb (hi_Mode input) HistoryModeRetained then (digestHistoryValue JNull, HistoryReasonOK)
  else
    match hi_DemoHistory input with
    | None => (digestHistoryValue JNull, HistoryReasonDemoVerificationMissing)
    | Some binding =>
        if negb (db_verified binding) then (digestHistoryValue JNull, HistoryReasonDemoVerificationMissing)
        else if negb (demo_binding_ok input binding at_ windowStart report) then (digestHistoryValue JNull, HistoryReasonDemoBindingMismatch)
        else (digestHistoryValue (demo_wire_json binding at_ windowStart), HistoryReasonOK)
    end.

(** ** The gate *)

Definition firstHistoryFailure (values : list string) : string :=
  default HistoryReasonOK (List.find (λ value, negb (String.eqb value HistoryReasonOK)) values).

Definition emptyHistoricalImpactReport : HistoricalImpactReport :=
  let emptyDigest := digestHistoryValue (JArray []) in
  MkImpactReport HistoricalImpactSchemaVersion HistoricalImpactBlocked HistoryReasonInputInvalid HistoricalImpactLookbackSecs zero_gateway_counts
    zero_auth_counts emptyDigest emptyDigest emptyDigest emptyDigest emptyDigest (digestHistoryValue JNull) emptyDigest.

(** The assignments to the report, in the order of the function. *)
Definition with_reason (r : HistoricalImpactReport) (decision reason : string) : HistoricalImpactReport :=
  MkImpactReport (hr_SchemaVersion r) decision reason (hr_LookbackSeconds r) (hr_Gateway r) (hr_Auth r) (hr_GatewayDigest r) (hr_AuthDigest r)
    (hr_SourceHealthDigest r) (hr_ReceiverGapDigest r) (hr_CoverageDigest r) (hr_DemoBindingDigest r) (hr_InputDigest r).

Definition with_coverage (r : HistoricalImpactReport) (coverageDigest : string) : HistoricalImpactReport :=
  MkImpactReport (hr_SchemaVersion r) (hr_Decision r) (hr_ReasonCode r) (hr_LookbackSeconds r) (hr_Gateway r) (hr_Auth r) (hr_GatewayDigest r) (hr_AuthDigest r)
    (hr_SourceHealthDigest r) (hr_ReceiverGapDigest r) coverageDigest (hr_DemoBindingDigest r) (hr_InputDigest r).

Definition with_records (r : HistoricalImpactReport) (gateway : historyGatewayCounts) (auth : historyAuthCounts) (gatewayDigest authDigest healthDigest gapDigest : string) : HistoricalImpactReport :=
  MkImpactReport (hr_SchemaVersion r) (hr_Decision r) (hr_ReasonCode r) (hr_LookbackSeconds r) gateway auth gatewayDigest authDigest healthDigest gapDigest
    (hr_CoverageDigest r) (hr_DemoBindingDigest r) (hr_InputDigest r).

Definition with_binding (r : HistoricalImpactReport) (demoDigest inputDigest : string) : HistoricalImpactReport :=
  MkImpactReport (hr_SchemaVersion r) (hr_Decision r) (hr_ReasonCode r) (hr_LookbackSeconds r) (hr_Gateway r) (hr_Auth r) (hr_GatewayDigest r) (hr_AuthDigest r)
    (hr_SourceHealthDigest r) (hr_ReceiverGapDigest r) (hr_CoverageDigest r) demoDigest inputDigest.

(** [historyInputBindingWire] *)
Definition input_binding_json (input : HistoricalImpactInput) (at_ windowStart : localtime) (report : HistoricalImpactReport) (demoDigest : string) : json :=
  JObject
    [("schema_version", JString HistoricalImpactSchemaVersion); ("environment", JString (hi_Environment input)); ("mode", JString (hi_Mode input));
     ("clock_authority", JString (hc_authority (hi_Clock input))); ("at", JString (historyTime at_)); ("window_start", JString (historyTime windowStart));
     ("target_ipv4", JString (hi_TargetIPv4 input)); ("gateway_digest", JString (hr_GatewayDigest report)); ("auth_digest", JString (hr_AuthDigest report));
     ("source_health_digest", JString (hr_SourceHealthDigest report)); ("receiver_gap_digest", JString (hr_ReceiverGapDigest report));
     ("coverage_digest", JString (hr_CoverageDigest report)); ("demo_binding_digest", JString demoDigest)].

(** The report before it is sealed. *)
Definition historicalImpactReport (input : HistoricalImpactInput) : HistoricalImpactReport :=
  let report := emptyHistoricalImpactReport in
  let '(at_, windowStart, reason) := validateHistoryEnvelope input in
  if negb (String.eqb reason HistoryReasonOK) then with_reason report (hr_Decision report) reason
  else
    let reason := normalizeHistoryCoverage (hi_Coverage input) windowStart at_ in
    if negb (String.eqb reason HistoryReasonOK) then with_reason report (hr_Decision report) reason
    else
      let report := with_coverage report (digestHistoryValue (coverage_wire_json (hi_Coverage input))) in
      let '(gatewayWire, gatewayCounts, gatewayReason) := normalizeHistoryGateway (hi_TargetIPv4 input) windowStart at_ (hi_GatewayRecords input) in
      let '(authWire, authCounts, authReason) := normalizeHistoryAuth (hi_TargetIPv4 input) windowStart at_ (hi_AuthRecords input) in
      let '(healthWire, healthReason) := normalizeHistoryHealth windowStart at_ (hi_GatewayHealth input) (hi_AuthHealth input) in
      let '(gapWire, gapReason) := normalizeHistoryGaps windowStart at_ (hi_ReceiverGaps input) in
      if existsb (String.eqb HistoryReasonInputInvalid) [gatewayReason; authReason; healthReason; gapReason]
      then with_reason report (hr_Decision report) HistoryReasonInputInvalid
      else
        let report := with_records report gatewayCounts authCounts (digestHistoryValue (JArray (gateway_wire_json <$> gatewayWire)))
          (digestHistoryValue (JArray (auth_wire_json <$> authWire)))
          (digestHistoryValue (from_option (λ ws, JArray (health_wire_json <$> ws)) JNull healthWire))
          (digestHistoryValue (JArray (gap_wire_json <$> gapWire))) in
        let '(demoDigest, demoReason) := validateDemoHistoryBinding input at_ windowStart report in
        if negb (String.eqb demoReason HistoryReasonOK) then with_reason report (hr_Decision report) demoReason
        else
          let report := with_binding report demoDigest (digestHistoryValue (input_binding_json input at_ windowStart report demoDigest)) in
          let reason := firstHistoryFailure [healthReason; gapReason; authReason; gatewayReason] in
          if negb (String.eqb reason HistoryReasonOK) then with_reason report (hr_Decision report) reason
          else with_reason report HistoricalImpactAllowed HistoryReasonOK.

Definition EvaluateHistoricalImpact (input : HistoricalImpactInput) : CheckedHistoricalImpact :=
  sealHistoricalImpactReport (historicalImpactReport input).
