(* ===== verification/HistorySpec.v ===== *)
(** * What the historical-impact gate guarantees

    The gate allows exactly the windows that are covered, healthy and without a
    successful login; its report does not depend on the order of the records; every
    report, a refusal too, is sealed. *)

From S2P Require Import Prelude GoSort GoStrings Regex Sha256 GoTime GoTimeParse Netip NetPrefix Policy ResponsePolicy ResponsePolicySpec Json JsonTree CanonicalJson Detection NftRunner Protected ProtectedSpec.
From S2P Require Import Consistency ConsistencySpec Snapshot SnapshotSpec History.
Local Open Scope Z_scope.

(** ** Loops over records with distinct identifiers

    The gateway, authentication and gap loops have one shape: check a record, refuse
    an identifier seen before, print the record, update a state. *)

Section scan.
Context {V W St : Type} (ident : V → string) (ok : V → bool) (wire : V → W) (step : St → V → St).

Fixpoint scan (values : list V) (seen : list string) (s : St) : option (list W * St) :=
  match values with
  | [] => Some ([], s)
  | v :: values =>
      if negb (ok v) || bool_decide (ident v ∈ seen) then None
      else '(ws, s) ← scan values (ident v :: seen) (step s v); Some (wire v :: ws, s)
  end.

Definition distinct_ok (values : list V) : Prop := Forall (λ v, ok v = true) values ∧ NoDup (ident <$> values).

Lemma scan_iff values seen s ws s' : scan values seen s = Some (ws, s') ↔
  distinct_ok values ∧ (∀ x, x ∈ ident <$> values → x ∉ seen) ∧ ws = wire <$> values ∧ s' = foldl step s values.
Proof.
  revert seen s ws s'. induction values as [|v values IH]; intros seen s ws s'; cbn [scan foldl fmap list_fmap].
  - split; [intros [= <- <-]|intros (_ & _ & -> & ->); done]. split_and!; [by split; constructor|by intros x ?%elem_of_nil|done..].
  - destruct (ok v) eqn:Hok; cbn [negb orb]; [|by split; [|intros ([H%Forall_cons _] & _); destruct H; congruence]].
    destruct (bool_decide (ident v ∈ seen)) eqn:Hs; [apply bool_decide_eq_true in Hs|apply bool_decide_eq_false in Hs].
    { split; [done|]. intros (_ & H & _). destruct (H (ident v)); [apply elem_of_cons; by left|done]. }
    destruct (scan values (ident v :: seen) (step s v)) as [[ws' s'']|] eqn:E; cbn [mbind option_bind].
    + apply IH in E as ([Hf Hn] & Hd & -> & ->). split.
      * intros [= <- <-]. split_and!; [|..|done|done].
        -- split; [by constructor|]. cbn [fmap list_fmap]. constructor; [|done]. intros Hin. apply (Hd _ Hin), elem_of_cons. by left.
        -- intros x [->|Hx]%elem_of_cons; [done|]. intros Hin. apply (Hd _ Hx), elem_of_cons. by right.
      * by intros (_ & _ & -> & ->).
    + split; [done|]. intros ([Hf Hn] & Hd & _). cbn [fmap list_fmap] in Hn. apply NoDup_cons in Hn as [Hv Hn]. apply Forall_cons in Hf as [_ Hf].
      enough (scan values (ident v :: seen) (step s v) = Some (wire <$> values, foldl step (step s v) values)) by congruence.
      apply IH. split_and!; [by split| |done..]. intros x Hx [->|Hin]%elem_of_cons; [done|]. apply (Hd x); [apply elem_of_cons; by right|done].
Qed.

Lemma scan_start values s : scan values [] s = Some (wire <$> values, foldl step s values) ↔ distinct_ok values.
Proof. rewrite scan_iff. split; [by intros [H _]|]. intros H. split_and!; [done| |done..]. by intros x _ ?%elem_of_nil. Qed.

Lemma scan_start_Some values s r : scan values [] s = Some r → distinct_ok values ∧ r = (wire <$> values, foldl step s values).
Proof. destruct r as [ws s']. intros (H & _ & -> & ->)%scan_iff. done. Qed.

Lemma distinct_ok_perm l k : l ≡ₚ k → distinct_ok l → distinct_ok k.
Proof. intros Hp [Hf Hn]. split; [by rewrite <-Hp|]. by rewrite <-(fmap_Permutation ident _ _ Hp). Qed.

Context (step_comm : ∀ s a b, step (step s a) b = step (step s b) a).

Lemma foldl_perm l k s : l ≡ₚ k → foldl step s l = foldl step s k.
Proof. intros Hp. revert s. induction Hp as [|x l k _ IH|x y l|l k m _ IH1 _ IH2]; intros s; cbn [foldl]; [done|apply IH|by rewrite step_comm|by rewrite IH1]. Qed.

(** On permuted records the loop fails alike, or prints permuted records and ends in
    the same state. *)
Lemma scan_perm l k s : l ≡ₚ k →
  (scan l [] s = None ∧ scan k [] s = None)
  ∨ distinct_ok l ∧ scan l [] s = Some (wire <$> l, foldl step s l) ∧ scan k [] s = Some (wire <$> k, foldl step s l).
Proof.
  intros Hp. destruct (scan l [] s) as [r|] eqn:El.
  - apply scan_start_Some in El as [Hd ->]. right. split_and!; [done..|]. rewrite (foldl_perm l k s Hp). apply scan_start. by eapply distinct_ok_perm.
  - left. split; [done|]. destruct (scan k [] s) as [r|] eqn:Ek; [|done]. apply scan_start_Some in Ek as [Hd _].
    apply (distinct_ok_perm k l) in Hd; [|done]. apply (scan_start l s) in Hd. congruence.
Qed.
End scan.

(** ** Gateway records *)

Section window.
Context (target : string) (windowStart at_ : localtime).

Abbreviation gateway_ok := (λ v, match_string consistencyUUIDPattern (hg_EventID v) && gateway_record_ok target windowStart at_ v).

Definition gateway_step (s : historyGatewayCounts * string) (v : HistoricalGatewayRecord) : historyGatewayCounts * string :=
  (count_status s.1 (hg_StatusCode v), if String.eqb (hg_TimestampTrust v) TimestampUntrusted then HistoryReasonTimestampUntrusted else s.2).

Lemma gateway_loop_scan values seen counts reason :
  gateway_loop target windowStart at_ values seen counts reason
  = (λ '(ws, (c, r)), (ws, c, r)) <$> scan hg_EventID gateway_ok gateway_wire gateway_step values seen (counts, reason).
Proof.
  revert seen counts reason. induction values as [|v values IH]; intros seen counts reason; [done|]. cbn [gateway_loop scan].
  destruct (match_string _ (hg_EventID v)); cbn [negb andb orb]; [|done].
  destruct (bool_decide (hg_EventID v ∈ seen)); [by rewrite orb_true_r|]. rewrite orb_false_r.
  destruct (gateway_record_ok target windowStart at_ v); cbn [negb]; [|done]. rewrite IH. unfold gateway_step at 2. cbn [fst snd].
  by destruct (scan _ _ _ _ values _ _) as [[ws [c r]]|].
Qed.

Lemma count_status_eq c status : count_status c status =
  MkGatewayCounts (gc_total c) (gc_2xx c + Z.b2z (status / 100 =? 2)) (gc_3xx c + Z.b2z (status / 100 =? 3))
    (gc_4xx c + Z.b2z (status / 100 =? 4)) (gc_5xx c + Z.b2z (status / 100 =? 5)).
Proof.
  destruct c as [t n2 n3 n4 n5]. unfold count_status. cbn [gc_total gc_2xx gc_3xx gc_4xx gc_5xx].
  destruct (status / 100) as [|p|p]; [cbn; f_equal; lia| |cbn; f_equal; lia].
  destruct p as [[[]|[]|]|[[]|[]|]|]; cbn; f_equal; lia.
Qed.

Lemma gateway_step_comm s a b : gateway_step (gateway_step s a) b = gateway_step (gateway_step s b) a.
Proof.
  unfold gateway_step. cbn [fst snd]. rewrite !count_status_eq. cbn [gc_total gc_2xx gc_3xx gc_4xx gc_5xx]. f_equal; [f_equal; lia|].
  by destruct (String.eqb (hg_TimestampTrust a) _), (String.eqb (hg_TimestampTrust b) _).
Qed.

Lemma gateway_fold_reason values s : (foldl gateway_step s values).2 = HistoryReasonOK →
  s.2 = HistoryReasonOK ∧ Forall (λ v, String.eqb (hg_TimestampTrust v) TimestampUntrusted = false) values.
Proof.
  revert s. induction values as [|v values IH]; intros s H; [done|]. cbn [foldl] in H. destruct (IH _ H) as [Hv Hf].
  unfold gateway_step in Hv. cbn [snd] in Hv. destruct (String.eqb (hg_TimestampTrust v) _) eqn:E; [done|]. split; [done|by constructor].
Qed.

Lemma gateway_fold_trusted values s : Forall (λ v, String.eqb (hg_TimestampTrust v) TimestampUntrusted = false) values →
  (foldl gateway_step s values).2 = s.2.
Proof. intros H. revert s. induction H as [|v values Hv _ IH]; intros s; [done|]. cbn [foldl]. rewrite IH. unfold gateway_step. cbn [snd]. by rewrite Hv. Qed.

Lemma gateway_fold_total values s : gc_total (foldl gateway_step s values).1 = gc_total s.1.
Proof. revert s. induction values as [|v values IH]; intros s; [done|]. cbn [foldl]. rewrite IH. unfold gateway_step. cbn [fst]. by rewrite count_status_eq. Qed.

(** The counters stay within the number of records. *)
Definition gateway_counts_within (n : Z) (c : historyGatewayCounts) : Prop :=
  0 <= gc_2xx c ∧ 0 <= gc_3xx c ∧ 0 <= gc_4xx c ∧ 0 <= gc_5xx c ∧ gc_2xx c + gc_3xx c + gc_4xx c + gc_5xx c <= n.

Lemma gateway_fold_counts values s n : gateway_counts_within n s.1 → gateway_counts_within (n + Z.of_nat (length values)) (foldl gateway_step s values).1.
Proof.
  revert s n. induction values as [|v values IH]; intros s n H; [by rewrite Z.add_0_r|]. cbn [foldl length].
  replace (n + Z.of_nat (S (length values))) with (n + 1 + Z.of_nat (length values)) by lia. apply IH.
  unfold gateway_step. cbn [fst]. rewrite count_status_eq. unfold gateway_counts_within in *. cbn [gc_2xx gc_3xx gc_4xx gc_5xx].
  destruct (Z.eqb_spec (hg_StatusCode v / 100) 2), (Z.eqb_spec (hg_StatusCode v / 100) 3), (Z.eqb_spec (hg_StatusCode v / 100) 4), (Z.eqb_spec (hg_StatusCode v / 100) 5);
    cbn [Z.b2z]; lia.
Qed.

(** A record the gate has nothing against. *)
Record gateway_sound (v : HistoricalGatewayRecord) : Prop := {
  gs_id : match_string uuid_pattern (hg_EventID v) = true;
  gs_time : validSnapshotTime (hg_OccurredAt v) = true ∧ lt_instant windowStart <= lt_instant (hg_OccurredAt v) <= lt_instant at_;
  gs_source : hg_SourceIPv4 v = target;
  gs_status : 100 <= hg_StatusCode v <= 599;
  gs_trust : hg_TimestampTrust v = TimestampTrusted
}.

Lemma gateway_sound_iff v : gateway_sound v ↔ gateway_ok v = true ∧ String.eqb (hg_TimestampTrust v) TimestampUntrusted = false.
Proof.
  unfold gateway_record_ok, trust_known, Before, After, consistencyUUIDPattern.
  rewrite andb_true_iff, negb_true_iff, !orb_false_iff, !negb_false_iff, orb_true_iff, !String.eqb_eq, String.eqb_neq, !Z.ltb_ge. split.
  - intros [H1 [H2 H3] H4 H5 H6]. rewrite H6. split_and!; try done; try lia. by left.
  - intros [[H1 ((((((H2 & H3) & H4) & H5) & H6) & H7) & H8)] H9]. destruct H8 as [H8|H8]; [|done]. by constructor.
Qed.

(** ** Authentication records *)

Abbreviation auth_ok := (λ v, match_string consistencyUUIDPattern (ha_EventID v) && auth_record_ok target windowStart at_ v).

Definition auth_step (s : historyAuthCounts * auth_flags) (v : HistoricalAuthRecord) : historyAuthCounts * auth_flags := (count_auth s.1 v, raise_flags s.2 v).

Lemma auth_loop_scan values seen counts flags :
  auth_loop target windowStart at_ values seen counts flags
  = (λ '(ws, (c, f)), (ws, c, f)) <$> scan ha_EventID auth_ok auth_wire auth_step values seen (counts, flags).
Proof.
  revert seen counts flags. induction values as [|v values IH]; intros seen counts flags; [done|]. cbn [auth_loop scan].
  destruct (match_string _ (ha_EventID v)); cbn [negb andb orb]; [|done].
  destruct (bool_decide (ha_EventID v ∈ seen)); [by rewrite orb_true_r|]. rewrite orb_false_r.
  destruct (auth_record_ok target windowStart at_ v); cbn [negb]; [|done]. rewrite IH. unfold auth_step at 2. cbn [fst snd].
  by destruct (scan _ _ _ _ values _ _) as [[ws [c r]]|].
Qed.

Lemma orb_swap a b c : a || b || c = a || c || b.
Proof. by destruct a, b, c. Qed.

Lemma auth_step_comm s a b : auth_step (auth_step s a) b = auth_step (auth_step s b) a.
Proof.
  unfold auth_step, count_auth, raise_flags. cbn [fst snd ac_total ac_verifiedFailed ac_succeeded af_success af_pending af_untrustedBinding af_untrustedTimestamp].
  f_equal; f_equal; first [apply orb_swap|lia].
Qed.

(** Nothing that blocks. *)
Definition auth_quiet (v : HistoricalAuthRecord) : Prop :=
  String.eqb (ha_Outcome v) AuthOutcomeSucceeded = false ∧ String.eqb (ha_Binding v) BindingPending = false
  ∧ String.eqb (ha_Binding v) BindingUntrusted = false ∧ String.eqb (ha_TimestampTrust v) TimestampUntrusted = false.

Lemma auth_reason_iff flags : auth_reason flags = HistoryReasonOK ↔ flags = MkAuthFlags false false false false.
Proof. destruct flags as [[] [] [] []]; done. Qed.

Lemma auth_fold_flags values s : (foldl auth_step s values).2 = MkAuthFlags false false false false ↔
  s.2 = MkAuthFlags false false false false ∧ Forall auth_quiet values.
Proof.
  revert s. induction values as [|v values IH]; intros s; cbn [foldl]; [by split; [intros H; split; [done|constructor]|intros [H _]]|].
  rewrite IH, Forall_cons. unfold auth_step, auth_quiet. cbn [snd]. destruct s as [c [[] [] [] []]]; unfold raise_flags;
    cbn [snd af_success af_pending af_untrustedBinding af_untrustedTimestamp orb];
    destruct (String.eqb (ha_Outcome v) _), (String.eqb (ha_Binding v) BindingPending), (String.eqb (ha_Binding v) BindingUntrusted), (String.eqb (ha_TimestampTrust v) _);
    naive_solver.
Qed.

Lemma auth_fold_total values s : ac_total (foldl auth_step s values).1 = ac_total s.1.
Proof. revert s. induction values as [|v values IH]; intros s; [done|]. cbn [foldl]. by rewrite IH. Qed.

Definition auth_counts_within (n : Z) (c : historyAuthCounts) : Prop := 0 <= ac_verifiedFailed c <= n ∧ 0 <= ac_succeeded c <= n.

Lemma auth_fold_counts values s n : auth_counts_within n s.1 → auth_counts_within (n + Z.of_nat (length values)) (foldl auth_step s values).1.
Proof.
  revert s n. induction values as [|v values IH]; intros s n H; [by rewrite Z.add_0_r|]. cbn [foldl length].
  replace (n + Z.of_nat (S (length values))) with (n + 1 + Z.of_nat (length values)) by lia. apply IH.
  unfold auth_step, count_auth, auth_counts_within in *. cbn [fst ac_verifiedFailed ac_succeeded]. destruct (_ && _), (String.eqb _ _); lia.
Qed.

Record auth_sound (v : HistoricalAuthRecord) : Prop := {
  as_id : match_string uuid_pattern (ha_EventID v) = true;
  as_time : validSnapshotTime (ha_OccurredAt v) = true ∧ lt_instant windowStart <= lt_instant (ha_OccurredAt v) <= lt_instant at_;
  as_source : ha_SourceIPv4 v = target;
  as_outcome : ha_Outcome v = AuthOutcomeFailed;
  as_trust : ha_TimestampTrust v = TimestampTrusted;
  as_binding : ha_Binding v = BindingVerified
}.

Lemma auth_sound_iff v : auth_sound v ↔ auth_ok v = true ∧ auth_quiet v.
Proof.
  unfold auth_record_ok, auth_quiet, trust_known, Before, After, consistencyUUIDPattern.
  rewrite andb_true_iff, negb_true_iff, !orb_false_iff, !andb_false_iff, !negb_false_iff, orb_true_iff, !String.eqb_eq, !String.eqb_neq, !Z.ltb_ge. split.
  - intros [H1 [H2 H3] H4 H5 H6 H7]. rewrite H5, H6, H7. split_and!; try done; try lia; by auto.
  - intros [[H1 ((((((H2 & H3) & H4) & H5) & H6) & H7) & H8)] (H9 & H10 & H11 & H12)]. constructor; try done; naive_solver.
Qed.

Lemma auth_fold_failed values s : Forall auth_sound values →
  ac_verifiedFailed (foldl auth_step s values).1 = ac_verifiedFailed s.1 + Z.of_nat (length values) ∧ ac_succeeded (foldl auth_step s values).1 = ac_succeeded s.1.
Proof.
  intros H. revert s. induction H as [|v values Hv _ IH]; intros s; cbn [foldl length]; [split; lia|]. destruct (IH (auth_step s v)) as [-> ->].
  unfold auth_step, count_auth. cbn [fst ac_verifiedFailed ac_succeeded]. rewrite (as_outcome _ Hv), (as_trust _ Hv), (as_binding _ Hv). cbn. lia.
Qed.

(** ** Intervals of a source *)

Lemma interval_loop_iff intervals reason ws reason' : interval_loop windowStart at_ intervals reason = Some (ws, reason') ↔
  Forall (λ i, interval_ok i = true) intervals ∧ ws = interval_wire <$> intervals ∧ reason' = foldl (interval_reason windowStart at_) reason intervals.
Proof.
  revert reason ws reason'. induction intervals as [|i intervals IH]; intros reason ws reason'; cbn [interval_loop foldl fmap list_fmap].
  - split; [intros [= <- <-]; by repeat constructor|by intros (_ & -> & ->)].
  - destruct (interval_ok i) eqn:Hi; cbn [negb]; [|split; [done|intros [H%Forall_cons _]; destruct H; congruence]].
    destruct (interval_loop windowStart at_ intervals _) as [[ws' r']|] eqn:E; cbn [mbind option_bind].
    + apply IH in E as (Hf & -> & ->). split; [intros [= <- <-]; split_and!; [by constructor|done..]|by intros (_ & -> & ->)].
    + split; [done|]. intros ([_ Hf]%Forall_cons & _). pose proof (proj2 (IH (interval_reason windowStart at_ reason i) _ _) (conj Hf (conj eq_refl eq_refl))). congruence.
Qed.

Lemma interval_reason_comm r a b :
  interval_reason windowStart at_ (interval_reason windowStart at_ r a) b = interval_reason windowStart at_ (interval_reason windowStart at_ r b) a.
Proof.
  unfold interval_reason. destruct (historyIntervalOverlaps _ _ (iv_Start a) _), (historyIntervalOverlaps _ _ (iv_Start b) _); try done.
  destruct (String.eqb (iv_State a) _), (String.eqb (iv_State b) _); try done; destruct (String.eqb r HistoryReasonOK) eqn:E; try done; by rewrite ?E.
Qed.

(** An interval that does not touch the window. *)
Definition clear_of_window (start end_ : localtime) : Prop :=
  lt_instant at_ < lt_instant start ∨ (lt_instant end_ ≠ 0 ∧ lt_instant end_ < lt_instant windowStart).

Lemma overlaps_clear start end_ : historyIntervalOverlaps windowStart at_ start end_ = false ↔ clear_of_window start end_.
Proof.
  unfold historyIntervalOverlaps, clear_of_window, After, Before, IsZero. destruct (Z.ltb_spec (lt_instant at_) (lt_instant start)); [split; [by left|done]|].
  rewrite orb_false_iff, Z.eqb_neq, negb_false_iff, Z.ltb_lt. split; [by right|]. intros [?|?]; [lia|done].
Qed.

Lemma interval_fold_reason intervals r : foldl (interval_reason windowStart at_) r intervals = HistoryReasonOK ↔
  r = HistoryReasonOK ∧ Forall (λ i, clear_of_window (iv_Start i) (iv_End i)) intervals.
Proof.
  revert r. induction intervals as [|i intervals IH]; intros r; cbn [foldl]; [by split; [intros H; split; [done|constructor]|intros [H _]]|].
  rewrite IH, Forall_cons, <-overlaps_clear. unfold interval_reason. destruct (historyIntervalOverlaps _ _ _ _); [|naive_solver].
  destruct (String.eqb (iv_State i) _); [by split; intros [? ?]; [|naive_solver]|].
  destruct (String.eqb_spec r HistoryReasonOK) as [->|Hr]; [by split; intros [? ?]; [|naive_solver]|]. naive_solver.
Qed.
End window.

Lemma interval_order_eq a b : interval_wire_order a b = Eq → a = b.
Proof.
  unfold interval_wire_order, cmp_lex, cmp_on. destruct a as [s1 t1 e1 d1], b as [s2 t2 e2 d2]. cbn [iw_State iw_Start iw_End iw_DroppedCount].
  destruct (String.compare t1 t2) eqn:E1; [|done..]. destruct (String.compare e1 e2) eqn:E2; [|done..]. destruct (String.compare s1 s2) eqn:E3; [|done..].
  intros E4%Z.compare_eq. apply scompare_eq in E1, E2, E3. by subst.
Qed.

Lemma interval_separates l : separates interval_wire_order l.
Proof. intros a b _ _. apply interval_order_eq. Qed.

Lemma repeated_interval_sorted l : StronglySorted (cmp_le interval_wire_order) l → repeated_interval l = false ↔ NoDup l.
Proof.
  induction 1 as [|a l Hl IH Ha]; [by split; [constructor|]|]. destruct l as [|b l]; [by split; [intros; apply NoDup_singleton|]|].
  cbn [repeated_interval]. rewrite NoDup_cons, <-IH, orb_false_iff, bool_decide_eq_false. split; [|intros [H1 H2]; split; [intros ->; apply H1, elem_of_cons; by left|done]].
  intros [Hne H]. split; [|done]. intros Hin. apply Hne. apply elem_of_cons in Hin as [->|Hin]; [done|].
  apply StronglySorted_inv in Hl as [_ Hb]. rewrite Forall_forall in Hb. specialize (Hb _ Hin). apply Forall_cons in Ha as [Hab _].
  apply interval_order_eq. by apply (cmp_le_antisym_eq interval_wire_order).
Qed.

Lemma repeated_interval_sort l : repeated_interval (sort_slice interval_wire_order l) = false ↔ NoDup l.
Proof. rewrite repeated_interval_sorted by apply (sort_slice_sorted interval_wire_order). by rewrite (sort_slice_perm interval_wire_order). Qed.

(** ** Health of a source *)

Section health.
Context (windowStart at_ : localtime).

Definition health_wire (value : historyHealth) : historySourceHealthWire :=
  MkHealthWire (hh_Source value) true (historyTime (UTC (hh_CoverageStart value))) (historyTime (UTC (hh_CoverageEnd value)))
    (sort_slice interval_wire_order (interval_wire <$> hh_Intervals value)).

(** A health statement that is well formed and covers the window. *)
Record health_covers (value : historyHealth) (expected : string) : Prop := {
  hv_source : hh_Source value = expected;
  hv_times : validSnapshotTime (hh_CoverageStart value) = true ∧ validSnapshotTime (hh_CoverageEnd value) = true;
  hv_order : lt_instant (hh_CoverageStart value) <= lt_instant (hh_CoverageEnd value);
  hv_complete : hh_Complete value = true;
  hv_covers : lt_instant (hh_CoverageStart value) <= lt_instant windowStart ∧ lt_instant at_ <= lt_instant (hh_CoverageEnd value);
  hv_bound : Z.of_nat (length (hh_Intervals value)) <= maxHistoricalHealthIntervals;
  hv_intervals : Forall (λ i, interval_ok i = true) (hh_Intervals value);
  hv_distinct : NoDup (interval_wire <$> hh_Intervals value)
}.

Lemma health_source_inl value expected reason w reason' : health_source windowStart at_ value expected reason = inl (w, reason') ↔
  health_covers value expected ∧ w = health_wire value ∧ reason' = foldl (interval_reason windowStart at_) reason (hh_Intervals value).
Proof.
  unfold health_source, Before, After, health_wire.
  destruct (negb (String.eqb _ _) || _ || _ || _) eqn:E1.
  { split; [done|]. intros ([H1 [H2 H3] H4 _ _ _ _ _] & _). rewrite H1, H2, H3, String.eqb_refl in E1. cbn [negb orb] in E1. apply Z.ltb_lt in E1. lia. }
  rewrite !orb_false_iff, !negb_false_iff, String.eqb_eq, Z.ltb_ge in E1. destruct E1 as [[[H1 H2] H3] H4].
  destruct (negb (hh_Complete value) || _ || _) eqn:E2.
  { split; [done|]. intros ([_ _ _ H5 [H6 H7] _ _ _] & _). rewrite H5 in E2. cbn [negb orb] in E2. apply orb_true_iff in E2 as [?%Z.ltb_lt|?%Z.ltb_lt]; lia. }
  rewrite !orb_false_iff, negb_false_iff, !Z.ltb_ge in E2. destruct E2 as [[H5 H6] H7].
  destruct (Z.ltb_spec maxHistoricalHealthIntervals (Z.of_nat (length (hh_Intervals value)))) as [H8|H8].
  { split; [done|]. intros ([_ _ _ _ _ H _ _] & _). lia. }
  destruct (interval_loop windowStart at_ (hh_Intervals value) reason) as [[ws r]|] eqn:E.
  - apply interval_loop_iff in E as (Hf & -> & ->). destruct (repeated_interval _) eqn:Er.
    + split; [done|]. intros ([_ _ _ _ _ _ _ H] & _). apply repeated_interval_sort in H. congruence.
    + apply repeated_interval_sort in Er. split; [intros [= <- <-]; split_and!; [by constructor|done..]|by intros (_ & -> & ->)].
  - split; [done|]. intros ([_ _ _ _ _ _ Hf _] & _).
    pose proof (proj2 (interval_loop_iff windowStart at_ (hh_Intervals value) reason _ _) (conj Hf (conj eq_refl eq_refl))). congruence.
Qed.

Lemma health_source_inr value expected reason reason' : health_source windowStart at_ value expected reason = inr reason' → reason' ≠ HistoryReasonOK.
Proof.
  unfold health_source. destruct (negb (String.eqb _ _) || _ || _ || _); [intros [= <-]; done|]. destruct (negb (hh_Complete value) || _ || _); [intros [= <-]; done|].
  destruct (_ <? _); [intros [= <-]; done|]. destruct (interval_loop _ _ _ _) as [[ws r]|]; [|intros [= <-]; done]. destruct (repeated_interval _); [intros [= <-]|]; done.
Qed.

(** A source without trouble in the window. *)
Definition health_sound (value : historyHealth) (expected : string) : Prop :=
  health_covers value expected ∧ Forall (λ i, clear_of_window windowStart at_ (iv_Start i) (iv_End i)) (hh_Intervals value).

Lemma normalizeHistoryHealth_ok gateway auth ws : normalizeHistoryHealth windowStart at_ gateway auth = (ws, HistoryReasonOK) ↔
  health_sound gateway SourceGateway ∧ health_sound auth SourceAuth ∧ ws = Some [health_wire gateway; health_wire auth].
Proof.
  unfold normalizeHistoryHealth, health_sound. destruct (health_source windowStart at_ gateway SourceGateway _) as [[gw r]|r] eqn:Eg.
  - apply health_source_inl in Eg as (Hg & -> & ->). destruct (health_source windowStart at_ auth SourceAuth _) as [[aw r]|r] eqn:Ea.
    + apply health_source_inl in Ea as (Ha & -> & ->). split.
      * intros H. injection H as <- Hr. apply interval_fold_reason in Hr as [Hr Hca]. apply interval_fold_reason in Hr as [_ Hcg]. by split_and!.
      * intros ((_ & Hcg) & (_ & Hca) & ->). f_equal. apply interval_fold_reason. split; [|done]. by apply interval_fold_reason.
    + split; [intros H; injection H as _ ->; by apply health_source_inr in Ea|]. intros (_ & [Ha _] & _).
      pose proof (proj2 (health_source_inl auth SourceAuth (foldl (interval_reason windowStart at_) HistoryReasonOK (hh_Intervals gateway)) _ _) (conj Ha (conj eq_refl eq_refl))). rewrite Ea in H. done.
  - split; [intros H; injection H as _ ->; by apply health_source_inr in Eg|]. intros ([Hg _] & _).
    pose proof (proj2 (health_source_inl gateway SourceGateway HistoryReasonOK _ _) (conj Hg (conj eq_refl eq_refl))). rewrite Eg in H. done.
Qed.

(** Health statements that list the same intervals. *)
Definition same_health (a b : historyHealth) : Prop :=
  hh_Source a = hh_Source b ∧ hh_Complete a = hh_Complete b ∧ hh_CoverageStart a = hh_CoverageStart b ∧ hh_CoverageEnd a = hh_CoverageEnd b
  ∧ hh_Intervals a ≡ₚ hh_Intervals b.

Lemma interval_loop_perm l k r : l ≡ₚ k → match interval_loop windowStart at_ l r, interval_loop windowStart at_ k r with
  | Some (ws, r1), Some (ws', r2) => ws ≡ₚ ws' ∧ r1 = r2 | None, None => True | _, _ => False end.
Proof.
  intros Hp. destruct (interval_loop windowStart at_ l r) as [[ws r1]|] eqn:El, (interval_loop windowStart at_ k r) as [[ws' r2]|] eqn:Ek; try done.
  - apply interval_loop_iff in El as (_ & -> & ->), Ek as (_ & -> & ->). split; [by apply fmap_Permutation|].
    apply (foldl_perm (interval_reason windowStart at_)); [apply interval_reason_comm|done].
  - apply interval_loop_iff in El as (Hf & _). rewrite Hp in Hf.
    pose proof (proj2 (interval_loop_iff windowStart at_ k r _ _) (conj Hf (conj eq_refl eq_refl))). congruence.
  - apply interval_loop_iff in Ek as (Hf & _). rewrite <-Hp in Hf.
    pose proof (proj2 (interval_loop_iff windowStart at_ l r _ _) (conj Hf (conj eq_refl eq_refl))). congruence.
Qed.

Lemma health_source_perm a b expected r : same_health a b → health_source windowStart at_ a expected r = health_source windowStart at_ b expected r.
Proof.
  intros (H1 & H2 & H3 & H4 & Hp). unfold health_source. rewrite H1, H2, H3, H4, (Permutation_length Hp).
  destruct (negb (String.eqb _ _) || _ || _ || _); [done|]. destruct (negb (hh_Complete b) || _ || _); [done|]. destruct (_ <? _); [done|].
  pose proof (interval_loop_perm _ _ r Hp) as Hl. destruct (interval_loop _ _ (hh_Intervals a) r) as [[ws r1]|], (interval_loop _ _ (hh_Intervals b) r) as [[ws' r2]|]; try done.
  destruct Hl as [Hw ->]. rewrite (sort_slice_perm_eq interval_wire_order ws ws' (interval_separates ws) Hw). done.
Qed.

Lemma normalizeHistoryHealth_perm g g' a a' : same_health g g' → same_health a a' →
  normalizeHistoryHealth windowStart at_ g a = normalizeHistoryHealth windowStart at_ g' a'.
Proof.
  intros Hg Ha. unfold normalizeHistoryHealth. rewrite (health_source_perm g g') by done. destruct (health_source _ _ g' _ _) as [[w r]|]; [|done].
  by rewrite (health_source_perm a a').
Qed.

(** ** Gaps *)

Abbreviation gap_valid := (λ v, gap_ok v && gap_end_ok v).

Lemma gap_loop_scan values seen reason :
  gap_loop windowStart at_ values seen reason = scan gp_GapID gap_valid gap_wire (gap_reason windowStart at_) values seen reason.
Proof.
  revert seen reason. induction values as [|v values IH]; intros seen reason; [done|]. cbn [gap_loop scan].
  destruct (gap_ok v); cbn [negb andb orb]; [|done]. destruct (bool_decide (gp_GapID v ∈ seen)); [by rewrite orb_true_r|]. rewrite orb_false_r.
  destruct (gap_end_ok v); cbn [negb]; [|done]. by rewrite IH.
Qed.

Lemma gap_reason_comm r a b : gap_reason windowStart at_ (gap_reason windowStart at_ r a) b = gap_reason windowStart at_ (gap_reason windowStart at_ r b) a.
Proof.
  unfold gap_reason. destruct (historyIntervalOverlaps _ _ (gp_ImpactStart a) _), (historyIntervalOverlaps _ _ (gp_ImpactStart b) _); try done.
  destruct (String.eqb (gp_Resolution a) ReceiverGapPermanentLoss), (String.eqb (gp_Resolution b) ReceiverGapPermanentLoss); try done;
  destruct (String.eqb (gp_Resolution a) ReceiverGapUnresolved), (String.eqb (gp_Resolution b) ReceiverGapUnresolved); cbn [andb]; try done;
  destruct (String.eqb r HistoryReasonOK) eqn:E; try done; by rewrite ?E.
Qed.

(** A gap the gate has nothing against. *)
Definition gap_sound (v : HistoricalReceiverGap) : Prop :=
  gap_ok v = true ∧ gap_end_ok v = true ∧ (gp_Resolution v = ReceiverGapResolvedExact ∨ clear_of_window windowStart at_ (gp_ImpactStart v) (gp_ImpactEnd v)).

Lemma gap_fold_reason values r : Forall (λ v, gap_valid v = true) values →
  foldl (gap_reason windowStart at_) r values = HistoryReasonOK ↔ r = HistoryReasonOK ∧ Forall gap_sound values.
Proof.
  intros H. revert r. induction H as [|v values Hv _ IH]; intros r; cbn [foldl]; [by split; [intros H; split; [done|constructor]|intros [H _]]|].
  apply andb_true_iff in Hv as [Ho He]. rewrite IH, Forall_cons. unfold gap_reason, gap_sound. rewrite <-overlaps_clear.
  assert (Hres : gp_Resolution v = ReceiverGapResolvedExact ∨ gp_Resolution v = ReceiverGapUnresolved ∨ gp_Resolution v = ReceiverGapPermanentLoss).
  { unfold gap_ok in Ho. apply andb_true_iff in Ho as [_ Ho]. rewrite !orb_true_iff, !String.eqb_eq in Ho. naive_solver. }
  destruct (historyIntervalOverlaps _ _ _ _) eqn:E; [|naive_solver]. destruct Hres as [Hr|[Hr|Hr]]; rewrite Hr.
  - change (String.eqb ReceiverGapResolvedExact ReceiverGapPermanentLoss) with false. change (String.eqb ReceiverGapResolvedExact ReceiverGapUnresolved) with false.
    cbn [andb]. naive_solver.
  - change (String.eqb ReceiverGapUnresolved ReceiverGapPermanentLoss) with false. rewrite String.eqb_refl. cbn [andb].
    destruct (String.eqb_spec r HistoryReasonOK) as [->|Hne]; [|naive_solver]. split; [by intros [? _]|]. intros (_ & (_ & _ & [?|?]) & _); done.
  - rewrite String.eqb_refl. split; [by intros [? _]|]. intros (_ & (_ & _ & [?|?]) & _); done.
Qed.
End health.

(** ** The window and what the gate asks of it *)

Definition cutoff (input : HistoricalImpactInput) : localtime := UTC (hc_at (hi_Clock input)).
Definition window_start (input : HistoricalImpactInput) : localtime := MkLocal (lt_instant (cutoff input) - HistoricalImpactLookback) 0.

(** The clock reading is sealed, the window lies in the calendar, the target is an
    address, and mode, environment and provenance of the clock fit together. *)
Record envelope_ok (input : HistoricalImpactInput) : Prop := {
  en_environment : known_environment (hi_Environment input) = true;
  en_clock : hc_sealed (hi_Clock input) = true ∧ validSnapshotTime (hc_at (hi_Clock input)) = true;
  en_window : validSnapshotTime (window_start input) = true;
  en_target : is_Some (canonical_ipv4 (hi_TargetIPv4 input));
  en_mode : (hi_Mode input = HistoryModeRetained ∧ hc_authority (hi_Clock input) = HistoryClockRealtime ∧ hi_DemoHistory input = None)
    ∨ (hi_Mode input = HistoryModeVerifiedDemo ∧ hi_Environment input ∈ [EnvironmentTest; EnvironmentDemo] ∧ hc_authority (hi_Clock input) = HistoryClockVerifiedDemo)
}.

Lemma demo_environment e : known_environment e = true → e ∈ [EnvironmentTest; EnvironmentDemo] ↔ e ≠ EnvironmentProduction ∧ e ≠ EnvironmentDevelopment.
Proof.
  unfold known_environment. rewrite bool_decide_eq_true, !elem_of_cons, elem_of_nil. intros [->|[->|[->|[->|[]]]]]; naive_solver.
Qed.

Lemma validateHistoryEnvelope_ok input a w : validateHistoryEnvelope input = (a, w, HistoryReasonOK) ↔ envelope_ok input ∧ a = cutoff input ∧ w = window_start input.
Proof.
  unfold validateHistoryEnvelope. fold (cutoff input). fold (window_start input).
  destruct (known_environment (hi_Environment input)) eqn:E1; cbn [negb]; [|split; [done|intros ([H _ _ _ _] & _); congruence]].
  destruct (hc_sealed (hi_Clock input)) eqn:E2; cbn [negb orb]; [|split; [done|intros ([_ [H _] _ _ _] & _); congruence]].
  destruct (validSnapshotTime (hc_at (hi_Clock input))) eqn:E3; cbn [negb]; [|split; [done|intros ([_ [_ H] _ _ _] & _); congruence]].
  destruct (validSnapshotTime (window_start input)) eqn:E4; cbn [negb]; [|split; [done|intros ([_ _ H _ _] & _); congruence]].
  destruct (bool_decide (is_Some (canonical_ipv4 (hi_TargetIPv4 input)))) eqn:E5; cbn [negb];
    [apply bool_decide_eq_true in E5|apply bool_decide_eq_false in E5; split; [done|intros ([_ _ _ H _] & _); done]].
  destruct (String.eqb_spec (hi_Mode input) HistoryModeRetained) as [Hm|Hm].
  - destruct (String.eqb_spec (hc_authority (hi_Clock input)) HistoryClockRealtime) as [Ha|Ha]; cbn [negb orb];
      [|split; [done|]; intros ([_ _ _ _ [(_ & ? & _)|(Hx & _)]] & _); [congruence|by rewrite Hm in Hx]].
    destruct (hi_DemoHistory input) eqn:Ed.
    + rewrite bool_decide_eq_true_2 by done. split; [done|]. intros ([_ _ _ _ [(_ & _ & H)|(Hx & _)]] & _); [congruence|by rewrite Hm in Hx].
    + rewrite bool_decide_eq_false_2 by (intros [? ?]; done). split; [intros [= <- <-]|by intros (_ & -> & ->)]. split_and!; [|done..]. constructor; try done. by left.
  - destruct (String.eqb_spec (hi_Mode input) HistoryModeVerifiedDemo) as [Hv|Hv]; [|split; [done|]; intros ([_ _ _ _ [(? & _)|(? & _)]] & _); done].
    destruct (String.eqb_spec (hi_Environment input) EnvironmentProduction) as [Hp|Hp]; cbn [orb];
      [split; [done|]; intros ([_ _ _ _ [(? & _)|(_ & H & _)]] & _); [done|by apply demo_environment in H as [? ?]]|].
    destruct (String.eqb_spec (hi_Environment input) EnvironmentDevelopment) as [Hd|Hd]; cbn [orb];
      [split; [done|]; intros ([_ _ _ _ [(? & _)|(_ & H & _)]] & _); [done|by apply demo_environment in H as [? ?]]|].
    destruct (String.eqb_spec (hc_authority (hi_Clock input)) HistoryClockVerifiedDemo) as [Ha|Ha]; cbn [negb];
      [|split; [done|]; intros ([_ _ _ _ [(? & _)|(_ & _ & ?)]] & _); congruence].
    split; [intros [= <- <-]|by intros (_ & -> & ->)]. split_and!; [|done..]. constructor; try done. right. split_and!; [done|by apply demo_environment|done].
Qed.

(** Every query was complete, and what is retained encloses the window. *)
Record coverage_ok (value : HistoryCoverage) (windowStart at_ : localtime) : Prop := {
  co_complete : Forall (λ status, status = HistoryQueryComplete) [cov_GatewayStatus value; cov_AuthStatus value; cov_SourceHealthStatus value; cov_ReceiverGapStatus value];
  co_times : validSnapshotTime (cov_RetainedFrom value) = true ∧ validSnapshotTime (cov_RetainedThrough value) = true;
  co_order : lt_instant (cov_RetainedFrom value) <= lt_instant (cov_RetainedThrough value);
  co_from : lt_instant (cov_RetainedFrom value) <= lt_instant windowStart;
  co_through : lt_instant at_ <= lt_instant (cov_RetainedThrough value)
}.

Lemma statuses_complete l :
  forallb (λ status, String.eqb status HistoryQueryComplete || String.eqb status HistoryQueryIncomplete || String.eqb status HistoryQueryUnavailable) l = true →
  existsb (String.eqb HistoryQueryUnavailable) l = false → existsb (String.eqb HistoryQueryIncomplete) l = false → Forall (λ status, status = HistoryQueryComplete) l.
Proof.
  induction l as [|x l IH]; [constructor|]. cbn [forallb existsb]. rewrite andb_true_iff, !orb_true_iff, !orb_false_iff, !String.eqb_eq, !String.eqb_neq.
  intros [Hx Hl] [Hu Hus] [Hi His]. constructor; [naive_solver|auto].
Qed.

Lemma complete_statuses l : Forall (λ status, status = HistoryQueryComplete) l →
  forallb (λ status, String.eqb status HistoryQueryComplete || String.eqb status HistoryQueryIncomplete || String.eqb status HistoryQueryUnavailable) l = true
  ∧ existsb (String.eqb HistoryQueryUnavailable) l = false ∧ existsb (String.eqb HistoryQueryIncomplete) l = false.
Proof. induction 1 as [|x l -> _ (H1 & H2 & H3)]; [done|]. cbn [forallb existsb]. by rewrite H1, H2, H3. Qed.

Lemma normalizeHistoryCoverage_ok value w a : normalizeHistoryCoverage value w a = HistoryReasonOK ↔ coverage_ok value w a.
Proof.
  unfold normalizeHistoryCoverage, Before, After. split.
  - destruct (forallb _ _) eqn:E1; cbn [negb]; [|done]. destruct (existsb (String.eqb HistoryQueryUnavailable) _) eqn:E2; [done|].
    destruct (existsb (String.eqb HistoryQueryIncomplete) _) eqn:E3; [done|]. destruct (negb (validSnapshotTime _) || _ || _) eqn:E4; [done|].
    destruct (Z.ltb_spec (lt_instant w) (lt_instant (cov_RetainedFrom value))); [done|].
    destruct (Z.ltb_spec (lt_instant (cov_RetainedThrough value)) (lt_instant a)); [done|]. intros _.
    rewrite !orb_false_iff, !negb_false_iff, Z.ltb_ge in E4. destruct E4 as [[? ?] ?]. constructor; try done. by apply statuses_complete.
  - intros [Hc [H1 H2] H3 H4 H5]. destruct (complete_statuses _ Hc) as (-> & -> & ->). cbn [negb]. rewrite H1, H2. cbn [negb orb].
    by rewrite !(proj2 (Z.ltb_ge _ _)) by lia.
Qed.

(** ** The normalised records *)

Section normal.
Context (target : string) (windowStart at_ : localtime).

Lemma normalizeHistoryGateway_ok values ws c : normalizeHistoryGateway target windowStart at_ values = (ws, c, HistoryReasonOK) →
  Z.of_nat (length values) <= maxHistoricalGatewayRecords ∧ NoDup (hg_EventID <$> values) ∧ Forall (gateway_sound target windowStart at_) values
  ∧ gc_total c = Z.of_nat (length values).
Proof.
  unfold normalizeHistoryGateway. destruct (Z.ltb_spec maxHistoricalGatewayRecords (Z.of_nat (length values))); [done|]. rewrite gateway_loop_scan.
  destruct (scan _ _ _ _ values _ _) as [[ws' [c' r']]|] eqn:E; [|done]. apply scan_start_Some in E as [[Hf Hn] Heq]. injection Heq as -> Hfold.
  cbn [fmap option_fmap option_map]. intros Hr. injection Hr as _ <- ->. pose proof (f_equal snd Hfold) as Hs. pose proof (f_equal (λ s, gc_total s.1) Hfold) as Ht.
  cbn [fst snd] in Hs, Ht. symmetry in Hs. apply gateway_fold_reason in Hs as [_ Hs]. rewrite gateway_fold_total in Ht.
  split_and!; [done..| |done]. rewrite Forall_forall in *. intros v Hv. apply gateway_sound_iff. auto.
Qed.

Lemma normalizeHistoryGateway_sound values : Z.of_nat (length values) <= maxHistoricalGatewayRecords → NoDup (hg_EventID <$> values) →
  Forall (gateway_sound target windowStart at_) values → ∃ c, normalizeHistoryGateway target windowStart at_ values
    = (sort_slice gateway_wire_order (gateway_wire <$> values), c, HistoryReasonOK) ∧ gc_total c = Z.of_nat (length values).
Proof.
  intros Hl Hn Hf. unfold normalizeHistoryGateway. rewrite (proj2 (Z.ltb_ge _ _)), gateway_loop_scan by done.
  rewrite (proj2 (scan_start _ _ _ _ values _)).
  - cbn [fmap option_fmap option_map]. set (s := foldl _ _ _). exists s.1. pose proof (gateway_fold_total values (MkGatewayCounts (Z.of_nat (length values)) 0 0 0 0, HistoryReasonOK)) as Ht.
    fold s in Ht. assert (Hs : s.2 = HistoryReasonOK).
    { unfold s. rewrite gateway_fold_trusted; [done|]. rewrite Forall_forall in *. intros v Hv. by apply gateway_sound_iff with target windowStart at_, Hf. }
    destruct s as [c r]. cbn [fst snd] in *. subst r. done.
  - split; [|done]. rewrite Forall_forall in *. intros v Hv. by apply gateway_sound_iff, Hf.
Qed.

Lemma gateway_separates values : NoDup (hg_EventID <$> values) → separates gateway_wire_order (gateway_wire <$> values).
Proof.
  intros Hn. apply separates_lex_r, separates_on; [apply scompare_eq|]. rewrite <-list_fmap_compose. exact Hn.
Qed.

Lemma normalizeHistoryGateway_perm l k : l ≡ₚ k → normalizeHistoryGateway target windowStart at_ l = normalizeHistoryGateway target windowStart at_ k.
Proof.
  intros Hp. unfold normalizeHistoryGateway. rewrite (Permutation_length Hp). destruct (_ <? _); [done|]. rewrite !gateway_loop_scan.
  destruct (scan_perm hg_EventID (λ v, match_string consistencyUUIDPattern (hg_EventID v) && gateway_record_ok target windowStart at_ v) gateway_wire gateway_step gateway_step_comm l k
    (MkGatewayCounts (Z.of_nat (length k)) 0 0 0 0, HistoryReasonOK) Hp) as [[-> ->]|([_ Hn] & -> & ->)]; [done|].
  cbn [fmap option_fmap option_map]. destruct (foldl _ _ _) as [c r].
  by rewrite (sort_slice_perm_eq gateway_wire_order _ _ (gateway_separates l Hn) (fmap_Permutation gateway_wire _ _ Hp)).
Qed.

Lemma normalizeHistoryAuth_ok values ws c : normalizeHistoryAuth target windowStart at_ values = (ws, c, HistoryReasonOK) →
  Z.of_nat (length values) <= maxHistoricalAuthRecords ∧ NoDup (ha_EventID <$> values) ∧ Forall (auth_sound target windowStart at_) values
  ∧ c = MkAuthCounts (Z.of_nat (length values)) (Z.of_nat (length values)) 0.
Proof.
  unfold normalizeHistoryAuth. destruct (Z.ltb_spec maxHistoricalAuthRecords (Z.of_nat (length values))); [done|]. rewrite auth_loop_scan.
  destruct (scan _ _ _ _ values _ _) as [[ws' [c' f']]|] eqn:E; [|done]. apply scan_start_Some in E as [[Hf Hn] Heq]. injection Heq as -> Hfold.
  cbn [fmap option_fmap option_map]. intros Hr. injection Hr as _ <- Hr. apply auth_reason_iff in Hr. subst f'.
  pose proof (f_equal snd Hfold) as Hs. cbn [snd] in Hs. symmetry in Hs. apply auth_fold_flags in Hs as [_ Hs].
  assert (Ha : Forall (auth_sound target windowStart at_) values) by (rewrite Forall_forall in *; intros v Hv; apply auth_sound_iff; auto).
  destruct (auth_fold_failed _ _ _ values (MkAuthCounts (Z.of_nat (length values)) 0 0, MkAuthFlags false false false false) Ha) as [H1 H2].
  pose proof (auth_fold_total values (MkAuthCounts (Z.of_nat (length values)) 0 0, MkAuthFlags false false false false)) as H3.
  rewrite <-Hfold in H1, H2, H3. cbn [fst ac_verifiedFailed ac_succeeded ac_total] in *. split_and!; [done..|]. destruct c'. cbn in *. by subst.
Qed.

Lemma normalizeHistoryAuth_sound values : Z.of_nat (length values) <= maxHistoricalAuthRecords → NoDup (ha_EventID <$> values) →
  Forall (auth_sound target windowStart at_) values → normalizeHistoryAuth target windowStart at_ values
    = (sort_slice auth_wire_order (auth_wire <$> values), MkAuthCounts (Z.of_nat (length values)) (Z.of_nat (length values)) 0, HistoryReasonOK).
Proof.
  intros Hl Hn Hf. assert (∃ ws c, normalizeHistoryAuth target windowStart at_ values = (ws, c, HistoryReasonOK) ∧ ws = sort_slice auth_wire_order (auth_wire <$> values)) as (ws & c & H & ->).
  { unfold normalizeHistoryAuth. rewrite (proj2 (Z.ltb_ge _ _)), auth_loop_scan by done. rewrite (proj2 (scan_start _ _ _ _ values _)).
    - cbn [fmap option_fmap option_map]. set (s := foldl _ _ _).
      assert (Hs : s.2 = MkAuthFlags false false false false).
      { apply auth_fold_flags. split; [done|]. rewrite Forall_forall in *. intros v Hv. by apply auth_sound_iff with target windowStart at_, Hf. }
      destruct s as [c r]. cbn [fst snd] in *. subst r. by eexists _, _.
    - split; [|done]. rewrite Forall_forall in *. intros v Hv. by apply auth_sound_iff, Hf. }
  rewrite H. apply normalizeHistoryAuth_ok in H as (_ & _ & _ & ->). done.
Qed.

Lemma auth_separates values : NoDup (ha_EventID <$> values) → separates auth_wire_order (auth_wire <$> values).
Proof. intros Hn. apply separates_lex_r, separates_on; [apply scompare_eq|]. rewrite <-list_fmap_compose. exact Hn. Qed.

Lemma normalizeHistoryAuth_perm l k : l ≡ₚ k → normalizeHistoryAuth target windowStart at_ l = normalizeHistoryAuth target windowStart at_ k.
Proof.
  intros Hp. unfold normalizeHistoryAuth. rewrite (Permutation_length Hp). destruct (_ <? _); [done|]. rewrite !auth_loop_scan.
  destruct (scan_perm ha_EventID (λ v, match_string consistencyUUIDPattern (ha_EventID v) && auth_record_ok target windowStart at_ v) auth_wire auth_step auth_step_comm l k
    (MkAuthCounts (Z.of_nat (length k)) 0 0, MkAuthFlags false false false false) Hp) as [[-> ->]|([_ Hn] & -> & ->)]; [done|].
  cbn [fmap option_fmap option_map]. destruct (foldl _ _ _) as [c r].
  by rewrite (sort_slice_perm_eq auth_wire_order _ _ (auth_separates l Hn) (fmap_Permutation auth_wire _ _ Hp)).
Qed.

Lemma normalizeHistoryGaps_ok values ws : normalizeHistoryGaps windowStart at_ values = (ws, HistoryReasonOK) →
  Z.of_nat (length values) <= maxHistoricalReceiverGaps ∧ NoDup (gp_GapID <$> values) ∧ Forall (gap_sound windowStart at_) values.
Proof.
  unfold normalizeHistoryGaps. destruct (Z.ltb_spec maxHistoricalReceiverGaps (Z.of_nat (length values))); [done|]. rewrite gap_loop_scan.
  destruct (scan _ _ _ _ values _ _) as [[ws' r]|] eqn:E; [|done]. apply scan_start_Some in E as [[Hf Hn] Heq]. injection Heq as -> ->.
  intros Hr. injection Hr as _ Hr. apply gap_fold_reason in Hr as [_ Hr]; [|done]. done.
Qed.

Lemma normalizeHistoryGaps_sound values : Z.of_nat (length values) <= maxHistoricalReceiverGaps → NoDup (gp_GapID <$> values) →
  Forall (gap_sound windowStart at_) values → normalizeHistoryGaps windowStart at_ values = (sort_slice gap_wire_order (gap_wire <$> values), HistoryReasonOK).
Proof.
  intros Hl Hn Hf. assert (Hv : Forall (λ v, gap_ok v && gap_end_ok v = true) values).
  { rewrite Forall_forall in *. intros v Hv. destruct (Hf v Hv) as (-> & -> & _). done. }
  unfold normalizeHistoryGaps. rewrite (proj2 (Z.ltb_ge _ _)), gap_loop_scan by done. rewrite (proj2 (scan_start _ _ _ _ values _)) by done.
  f_equal. by apply gap_fold_reason.
Qed.

Lemma normalizeHistoryGaps_perm l k : l ≡ₚ k → normalizeHistoryGaps windowStart at_ l = normalizeHistoryGaps windowStart at_ k.
Proof.
  intros Hp. unfold normalizeHistoryGaps. rewrite (Permutation_length Hp). destruct (_ <? _); [done|]. rewrite !gap_loop_scan.
  destruct (scan_perm gp_GapID (λ v, gap_ok v && gap_end_ok v) gap_wire (gap_reason windowStart at_) (gap_reason_comm windowStart at_) l k HistoryReasonOK Hp)
    as [[-> ->]|([_ Hn] & -> & ->)]; [done|].
  rewrite (sort_slice_perm_eq gap_wire_order (gap_wire <$> l) (gap_wire <$> k)); [done| |by apply fmap_Permutation].
  apply separates_lex_r, separates_on; [apply scompare_eq|]. rewrite <-list_fmap_compose. exact Hn.
Qed.
End normal.

(** ** The demonstration binding *)

(** A signed import stands for the demonstration: it was verified for this environment,
    names the pinned data set and its pinned health, covers exactly the window, and
    counts the records given. *)
Record demo_bound (input : HistoricalImpactInput) (b : VerifiedDemoHistoryBinding) : Prop := {
  dm_verified : db_verified b = true;
  dm_environment : demo_environment_ok (hi_Environment input) b = true;
  dm_schema : db_schemaVersion b = "demo-history-v1" ∧ db_profile b = "isolated-demo" ∧ db_datasetSchemaVersion b = "demo-history-dataset-v1"
    ∧ db_datasetLocator b = DemoHistoryDatasetLocator ∧ db_pathCatalogVersion b = DefaultPathCatalogVersion;
  dm_ids : Forall (λ s, match_string uuid_pattern s = true) [db_manifestID b; db_datasetID b; db_importID b];
  dm_dataset : db_datasetDigest b = PinnedDemoHistoryDatasetDigest ∧ db_rawFileDigest b = PinnedDemoHistoryRawFileDigest;
  dm_digests : Forall (λ s, validDigest s = true) [db_manifestDigest b; db_importedRowsDigest b; db_manifestSourceHealthDigest b; db_runScopeDigest b;
    db_publicKeyDigest b; db_signatureVerificationDigest b];
  dm_health : db_impactSourceHealthDigest b = PinnedDemoHistoryImpactSourceHealthDigest
    ∧ digestHistoryValue (JArray (health_wire_json <$> [health_wire (hi_GatewayHealth input); health_wire (hi_AuthHealth input)])) = PinnedDemoHistoryImpactSourceHealthDigest;
  dm_count : db_datasetRecordCount b = Z.of_nat (length (hi_GatewayRecords input) + length (hi_AuthRecords input)) ∧ 0 < db_datasetRecordCount b <= 100000;
  dm_window : lt_instant (db_clockAt b) = lt_instant (cutoff input) ∧ lt_instant (db_coverageStart b) = lt_instant (window_start input)
    ∧ lt_instant (db_coverageEnd b) = lt_instant (cutoff input) ∧ validSnapshotTime (db_issuedAt b) = true
}.

Lemma demo_binding_bound input b report : db_verified b = true →
  gc_total (hr_Gateway report) = Z.of_nat (length (hi_GatewayRecords input)) → ac_total (hr_Auth report) = Z.of_nat (length (hi_AuthRecords input)) →
  hr_SourceHealthDigest report = digestHistoryValue (JArray (health_wire_json <$> [health_wire (hi_GatewayHealth input); health_wire (hi_AuthHealth input)])) →
  demo_binding_ok input b (cutoff input) (window_start input) report = true ↔ demo_bound input b.
Proof.
  intros Hv Hg Ha Hh. unfold demo_binding_ok, Equal. rewrite Hg, Ha, Hh.
  rewrite !andb_true_iff, !String.eqb_eq, !negb_true_iff, !Z.eqb_eq, Z.eqb_neq, Z.ltb_ge, <-Nat2Z.inj_add.
  split.
  - intros H. destruct_and! H. constructor; try done; [by repeat constructor|by repeat constructor|split; congruence|].
    split; [done|]. split; [|done]. lia.
  - intros [_ H1 (H2 & H3 & H4 & H5 & H6) H7 [H8 H9] H10 [H11 H12] [H13 H14] (H15 & H16 & H17 & H18)].
    apply Forall_cons in H7 as (? & (? & (? & _)%Forall_cons)%Forall_cons).
    apply Forall_cons in H10 as (? & (? & (? & (? & (? & (? & _)%Forall_cons)%Forall_cons)%Forall_cons)%Forall_cons)%Forall_cons). rewrite H11, H12, H8. split_and!; first [assumption|reflexivity|lia].
Qed.

(** ** The gate *)

(** A window that blocking the target is known not to harm. *)
Record harmless_history (input : HistoricalImpactInput) : Prop := {
  hm_envelope : envelope_ok input;
  hm_coverage : coverage_ok (hi_Coverage input) (window_start input) (cutoff input);
  hm_gateway : Z.of_nat (length (hi_GatewayRecords input)) <= maxHistoricalGatewayRecords ∧ NoDup (hg_EventID <$> hi_GatewayRecords input)
    ∧ Forall (gateway_sound (hi_TargetIPv4 input) (window_start input) (cutoff input)) (hi_GatewayRecords input);
  hm_auth : Z.of_nat (length (hi_AuthRecords input)) <= maxHistoricalAuthRecords ∧ NoDup (ha_EventID <$> hi_AuthRecords input)
    ∧ Forall (auth_sound (hi_TargetIPv4 input) (window_start input) (cutoff input)) (hi_AuthRecords input);
  hm_health : health_sound (window_start input) (cutoff input) (hi_GatewayHealth input) SourceGateway
    ∧ health_sound (window_start input) (cutoff input) (hi_AuthHealth input) SourceAuth;
  hm_gaps : Z.of_nat (length (hi_ReceiverGaps input)) <= maxHistoricalReceiverGaps ∧ NoDup (gp_GapID <$> hi_ReceiverGaps input)
    ∧ Forall (gap_sound (window_start input) (cutoff input)) (hi_ReceiverGaps input);
  hm_demo : hi_Mode input = HistoryModeRetained ∨ ∃ b, hi_DemoHistory input = Some b ∧ demo_bound input b
}.

Lemma firstHistoryFailure_ok l : firstHistoryFailure l = HistoryReasonOK ↔ Forall (λ r, r = HistoryReasonOK) l.
Proof.
  unfold firstHistoryFailure. induction l as [|x l IH]; [done|]. cbn [List.find]. destruct (String.eqb_spec x HistoryReasonOK) as [->|Hx]; cbn [negb default].
  - rewrite IH, Forall_cons. naive_solver.
  - rewrite Forall_cons. naive_solver.
Qed.

Lemma validateDemoHistoryBinding_ok input report : envelope_ok input →
  gc_total (hr_Gateway report) = Z.of_nat (length (hi_GatewayRecords input)) → ac_total (hr_Auth report) = Z.of_nat (length (hi_AuthRecords input)) →
  hr_SourceHealthDigest report = digestHistoryValue (JArray (health_wire_json <$> [health_wire (hi_GatewayHealth input); health_wire (hi_AuthHealth input)])) →
  (validateDemoHistoryBinding input (cutoff input) (window_start input) report).2 = HistoryReasonOK ↔
  hi_Mode input = HistoryModeRetained ∨ ∃ b, hi_DemoHistory input = Some b ∧ demo_bound input b.
Proof.
  intros He Hg Ha Hh. unfold validateDemoHistoryBinding. destruct (String.eqb_spec (hi_Mode input) HistoryModeRetained) as [Hm|Hm]; [naive_solver|].
  destruct (hi_DemoHistory input) as [b|]; [|split; [done|]; intros [?|(? & ? & _)]; done].
  destruct (db_verified b) eqn:Hv; cbn [negb]; [|split; [done|]; intros [?|(? & [= <-] & [Hx _ _ _ _ _ _ _ _])]; congruence].
  destruct (demo_binding_ok input b (cutoff input) (window_start input) report) eqn:Hb; cbn [negb].
  - apply demo_binding_bound in Hb; [|done..]. split; [|done]. intros _. right. by exists b.
  - split; [done|]. intros [?|(? & [= <-] & Hx)]; [done|]. apply (demo_binding_bound input b report) in Hx; [congruence|done..].
Qed.

(** The reasons the four kinds of records give are collected, and the first that
    blocks is reported. *)
Lemma historicalImpactReport_allowed input : hr_Decision (historicalImpactReport input) = HistoricalImpactAllowed ↔ harmless_history input.
Proof.
  unfold historicalImpactReport. destruct (validateHistoryEnvelope input) as [[a w] r] eqn:Ee.
  destruct (String.eqb_spec r HistoryReasonOK) as [->|Hr]; cbn [negb].
  2:{ split; [done|]. intros [He _ _ _ _ _ _]. pose proof (proj2 (validateHistoryEnvelope_ok input _ _) (conj He (conj eq_refl eq_refl))). congruence. }
  apply validateHistoryEnvelope_ok in Ee as (He & -> & ->).
  destruct (String.eqb_spec (normalizeHistoryCoverage (hi_Coverage input) (window_start input) (cutoff input)) HistoryReasonOK) as [Hc|Hc]; cbn [negb].
  2:{ split; [done|]. intros [_ Hx _ _ _ _ _]. by apply normalizeHistoryCoverage_ok in Hx. }
  apply normalizeHistoryCoverage_ok in Hc.
  destruct (normalizeHistoryGateway _ _ _ _) as [[gws gc] gr] eqn:Eg, (normalizeHistoryAuth _ _ _ _) as [[aws ac] ar] eqn:Ea,
    (normalizeHistoryHealth _ _ _ _) as [hws hr] eqn:Eh, (normalizeHistoryGaps _ _ _) as [pws pr] eqn:Ep.
  assert (Hall : harmless_history input → Forall (λ r, r = HistoryReasonOK) [hr; pr; ar; gr]).
  { intros [_ _ (H1 & H2 & H3) (H4 & H5 & H6) [H7 H8] (H9 & H10 & H11) _].
    destruct (normalizeHistoryGateway_sound _ _ _ _ H1 H2 H3) as (c & Hx & _). rewrite Eg in Hx. injection Hx as _ _ ->.
    rewrite (normalizeHistoryAuth_sound _ _ _ _ H4 H5 H6) in Ea. injection Ea as _ _ <-.
    pose proof (proj2 (normalizeHistoryHealth_ok _ _ _ _ _) (conj H7 (conj H8 eq_refl))) as Hy. rewrite Eh in Hy. injection Hy as _ ->.
    rewrite (normalizeHistoryGaps_sound _ _ _ H9 H10 H11) in Ep. injection Ep as _ <-. by repeat constructor. }
  destruct (existsb _ _) eqn:Ei.
  { split; [done|]. intros Hh. apply Hall in Hh. rewrite !Forall_cons in Hh. destruct Hh as (-> & -> & -> & -> & _). done. }
  destruct (validateDemoHistoryBinding _ _ _ _) as [dd dr] eqn:Ed.
  assert (Hok : Forall (λ r, r = HistoryReasonOK) [hr; pr; ar; gr] → (dr = HistoryReasonOK ↔ hi_Mode input = HistoryModeRetained ∨ ∃ b, hi_DemoHistory input = Some b ∧ demo_bound input b)
    ∧ (dr = HistoryReasonOK → harmless_history input)).
  { rewrite !Forall_cons. intros (-> & -> & -> & -> & _).
    apply normalizeHistoryGateway_ok in Eg as (G1 & G2 & G3 & G4). apply normalizeHistoryAuth_ok in Ea as (A1 & A2 & A3 & A4). apply normalizeHistoryHealth_ok in Eh as (H1 & H2 & H3).
    apply normalizeHistoryGaps_ok in Ep as (P1 & P2 & P3). subst ac hws. apply (f_equal snd) in Ed. cbn [snd] in Ed. rewrite <-Ed.
    pose proof (validateDemoHistoryBinding_ok input) as Hd. rewrite Hd by done. split; [done|]. intros Hm. by constructor. }
  destruct (String.eqb_spec dr HistoryReasonOK) as [Hdr|Hdr]; cbn [negb].
  2:{ split; [done|]. intros Hh. destruct (Hok (Hall Hh)) as [Hd _]. destruct Hdr. apply Hd. by destruct Hh. }
  destruct (String.eqb_spec (firstHistoryFailure [hr; pr; ar; gr]) HistoryReasonOK) as [Hf|Hf]; cbn [negb].
  - apply firstHistoryFailure_ok in Hf. split; [|done]. intros _. by apply (Hok Hf).
  - split; [done|]. intros Hh. destruct Hf. apply firstHistoryFailure_ok. auto.
Qed.

(** ** Every report is sealed *)

Definition history_reasons : list string :=
  [HistoryReasonOK; HistoryReasonInputInvalid; HistoryReasonClockNotAllowed; HistoryReasonInputUnavailable; HistoryReasonCoverageIncomplete;
   HistoryReasonRetentionMissing; HistoryReasonSourceDegraded; HistoryReasonSourceUnknownLoss; HistoryReasonGapUnresolved; HistoryReasonGapPermanentLoss;
   HistoryReasonTimestampUntrusted; HistoryReasonAuthSucceeded; HistoryReasonAuthBindingPending; HistoryReasonAuthBindingUntrusted;
   HistoryReasonDemoVerificationMissing; HistoryReasonDemoBindingMismatch].

Definition history_reason (r : string) : Prop := existsb (String.eqb r) history_reasons = true.

Lemma history_reason_plain r : history_reason r → plain r.
Proof.
  unfold history_reason, history_reasons. cbn [existsb]. rewrite !orb_true_iff, !String.eqb_eq. intros H. repeat (destruct H as [->|H]; [reflexivity|]). done.
Qed.

Ltac a_reason := first [assumption|reflexivity].

Lemma envelope_reason input : history_reason (validateHistoryEnvelope input).2.
Proof. unfold validateHistoryEnvelope. repeat (case_match; try a_reason). Qed.

Lemma coverage_reason value w a : history_reason (normalizeHistoryCoverage value w a).
Proof. unfold normalizeHistoryCoverage. repeat (case_match; try a_reason). Qed.

Lemma gateway_reason_known target w a values : history_reason (normalizeHistoryGateway target w a values).2.
Proof.
  unfold normalizeHistoryGateway. destruct (_ <? _); [reflexivity|]. rewrite gateway_loop_scan. destruct (scan _ _ _ _ _ _ _) as [[ws [c r]]|] eqn:E; [|reflexivity].
  apply scan_start_Some in E as [_ E]. injection E as _ E. cbn [fmap option_fmap option_map snd]. pose proof (f_equal snd E) as Hr. cbn [snd] in Hr. rewrite Hr.
  assert (Hs : ∀ s, history_reason s.2 → history_reason (foldl gateway_step s values).2); [|apply Hs; reflexivity].
  clear. induction values as [|v values IH]; intros s Hs; [done|]. apply IH. unfold gateway_step. cbn [snd]. destruct (String.eqb _ _); a_reason.
Qed.

Lemma auth_reason_known target w a values : history_reason (normalizeHistoryAuth target w a values).2.
Proof.
  unfold normalizeHistoryAuth. destruct (_ <? _); [reflexivity|]. destruct (auth_loop _ _ _ _ _ _ _) as [[[ws c] f]|]; [|reflexivity].
  cbn [snd]. by destruct f as [[] [] [] []].
Qed.

Lemma interval_reasons_known w a intervals r : history_reason r → history_reason (foldl (interval_reason w a) r intervals).
Proof. revert r. induction intervals as [|i l IH]; intros r Hr; [done|]. apply IH. unfold interval_reason. repeat case_match; a_reason. Qed.

Lemma health_source_known w a value expected r : history_reason r → match health_source w a value expected r with inl (_, r') => history_reason r' | inr r' => history_reason r' end.
Proof.
  intros Hr. unfold health_source. destruct (negb (String.eqb _ _) || _ || _ || _); [reflexivity|]. destruct (negb (hh_Complete value) || _ || _); [reflexivity|].
  destruct (_ <? _); [reflexivity|]. destruct (interval_loop _ _ _ _) as [[ws r']|] eqn:E; [|reflexivity]. apply interval_loop_iff in E as (_ & _ & ->).
  destruct (repeated_interval _); [reflexivity|]. by apply interval_reasons_known.
Qed.

Lemma health_reason_known w a g h : history_reason (normalizeHistoryHealth w a g h).2.
Proof.
  unfold normalizeHistoryHealth. pose proof (health_source_known w a g SourceGateway HistoryReasonOK eq_refl) as Hg.
  destruct (health_source w a g SourceGateway HistoryReasonOK) as [[gw r]|r]; [|done]. pose proof (health_source_known w a h SourceAuth r Hg) as Ha.
  by destruct (health_source w a h SourceAuth r) as [[aw r']|r'].
Qed.

Lemma gap_reason_known w a values : history_reason (normalizeHistoryGaps w a values).2.
Proof.
  unfold normalizeHistoryGaps. destruct (_ <? _); [reflexivity|]. rewrite gap_loop_scan. destruct (scan _ _ _ _ _ _ _) as [[ws r]|] eqn:E; [|reflexivity].
  apply scan_start_Some in E as [_ E]. injection E as _ ->. cbn [snd].
  assert (Hs : ∀ s, history_reason s → history_reason (foldl (gap_reason w a) s values)); [|apply Hs; reflexivity].
  clear. induction values as [|v values IH]; intros s Hs; [done|]. apply IH. unfold gap_reason. repeat case_match; a_reason.
Qed.

Lemma demo_reason_known input a w report : history_reason (validateDemoHistoryBinding input a w report).2.
Proof. unfold validateDemoHistoryBinding. repeat (case_match; try reflexivity). Qed.

Lemma first_reason_known l : Forall history_reason l → history_reason (firstHistoryFailure l).
Proof. unfold firstHistoryFailure. induction 1 as [|x l Hx _ IH]; [reflexivity|]. cbn [List.find]. by destruct (negb _). Qed.

(** What a report holds at any point of the function. *)
Definition count_ok (n : Z) : Prop := 0 <= n <= MaxSafeInteger.

Record report_ok (r : HistoricalImpactReport) : Prop := {
  ro_schema : hr_SchemaVersion r = HistoricalImpactSchemaVersion ∧ hr_LookbackSeconds r = 86400;
  ro_reason : (hr_Decision r = HistoricalImpactBlocked ∧ hr_ReasonCode r ≠ HistoryReasonOK ∨ hr_Decision r = HistoricalImpactAllowed ∧ hr_ReasonCode r = HistoryReasonOK)
    ∧ history_reason (hr_ReasonCode r);
  ro_gateway : Forall count_ok [gc_total (hr_Gateway r); gc_2xx (hr_Gateway r); gc_3xx (hr_Gateway r); gc_4xx (hr_Gateway r); gc_5xx (hr_Gateway r)];
  ro_auth : Forall count_ok [ac_total (hr_Auth r); ac_verifiedFailed (hr_Auth r); ac_succeeded (hr_Auth r)];
  ro_digests : Forall (λ d, validDigest d = true) [hr_GatewayDigest r; hr_AuthDigest r; hr_SourceHealthDigest r; hr_ReceiverGapDigest r; hr_CoverageDigest r;
    hr_DemoBindingDigest r; hr_InputDigest r]
}.

Lemma digestHistoryValue_valid v : validDigest (digestHistoryValue v) = true.
Proof. unfold digestHistoryValue. destruct (marshalSnapshotJCS v); apply validDigest_digest. Qed.

Lemma demo_digest_valid input a w report : validDigest (validateDemoHistoryBinding input a w report).1 = true.
Proof. unfold validateDemoHistoryBinding. repeat (case_match; try apply digestHistoryValue_valid). Qed.

Lemma gateway_counts_ok target w a values : let c := (normalizeHistoryGateway target w a values).1.2 in
  Forall count_ok [gc_total c; gc_2xx c; gc_3xx c; gc_4xx c; gc_5xx c].
Proof.
  unfold normalizeHistoryGateway. destruct (Z.ltb_spec maxHistoricalGatewayRecords (Z.of_nat (length values))) as [|Hl]; [repeat constructor; done|].
  rewrite gateway_loop_scan. destruct (scan _ _ _ _ _ _ _) as [[ws [c r]]|] eqn:E; [|repeat constructor; done]. apply scan_start_Some in E as [_ E]. injection E as _ E.
  cbn [fmap option_fmap option_map fst snd]. pose proof (f_equal fst E) as Hc. cbn [fst] in Hc.
  pose proof (gateway_fold_total values (MkGatewayCounts (Z.of_nat (length values)) 0 0 0 0, HistoryReasonOK)) as Ht.
  pose proof (gateway_fold_counts values (MkGatewayCounts (Z.of_nat (length values)) 0 0 0 0, HistoryReasonOK) 0) as Hw. rewrite <-Hc in Ht, Hw.
  cbn [fst gc_total] in Ht. destruct Hw as (W1 & W2 & W3 & W4 & W5); [by repeat split|]. rewrite Ht. unfold maxHistoricalGatewayRecords in Hl.
  repeat (constructor; [unfold count_ok, MaxSafeInteger; lia|]). constructor.
Qed.

Lemma auth_counts_ok target w a values : let c := (normalizeHistoryAuth target w a values).1.2 in
  Forall count_ok [ac_total c; ac_verifiedFailed c; ac_succeeded c].
Proof.
  unfold normalizeHistoryAuth. destruct (Z.ltb_spec maxHistoricalAuthRecords (Z.of_nat (length values))) as [|Hl]; [repeat constructor; done|].
  rewrite auth_loop_scan. destruct (scan _ _ _ _ _ _ _) as [[ws [c r]]|] eqn:E; [|repeat constructor; done]. apply scan_start_Some in E as [_ E]. injection E as _ E.
  cbn [fmap option_fmap option_map fst snd]. pose proof (f_equal fst E) as Hc. cbn [fst] in Hc.
  pose proof (auth_fold_total values (MkAuthCounts (Z.of_nat (length values)) 0 0, MkAuthFlags false false false false)) as Ht.
  pose proof (auth_fold_counts values (MkAuthCounts (Z.of_nat (length values)) 0 0, MkAuthFlags false false false false) 0) as Hw. rewrite <-Hc in Ht, Hw.
  cbn [fst ac_total] in Ht. destruct Hw as [W1 W2]; [by repeat split|]. rewrite Ht. unfold maxHistoricalAuthRecords in Hl.
  repeat (constructor; [unfold count_ok, MaxSafeInteger; lia|]). constructor.
Qed.

Lemma empty_report_ok : report_ok emptyHistoricalImpactReport.
Proof.
  constructor; cbn [emptyHistoricalImpactReport hr_SchemaVersion hr_LookbackSeconds hr_Decision hr_ReasonCode hr_Gateway hr_Auth hr_GatewayDigest hr_AuthDigest
    hr_SourceHealthDigest hr_ReceiverGapDigest hr_CoverageDigest hr_DemoBindingDigest hr_InputDigest]; [done|split; [by left|reflexivity]|repeat constructor; done..|].
  repeat (constructor; [apply digestHistoryValue_valid|]). constructor.
Qed.

Lemma with_reason_ok r decision reason : report_ok r → history_reason reason →
  decision = HistoricalImpactBlocked ∧ reason ≠ HistoryReasonOK ∨ decision = HistoricalImpactAllowed ∧ reason = HistoryReasonOK → report_ok (with_reason r decision reason).
Proof. intros [H1 _ H3 H4 H5] Hk Hd. by constructor. Qed.

Lemma with_coverage_ok r d : report_ok r → validDigest d = true → report_ok (with_coverage r d).
Proof.
  intros [H1 H2 H3 H4 H5] Hd. constructor; try done. cbn [with_coverage hr_GatewayDigest hr_AuthDigest hr_SourceHealthDigest hr_ReceiverGapDigest hr_CoverageDigest hr_DemoBindingDigest hr_InputDigest].
  rewrite !Forall_cons in *. naive_solver.
Qed.

Lemma with_records_ok r g a d1 d2 d3 d4 : report_ok r → Forall count_ok [gc_total g; gc_2xx g; gc_3xx g; gc_4xx g; gc_5xx g] →
  Forall count_ok [ac_total a; ac_verifiedFailed a; ac_succeeded a] → Forall (λ d, validDigest d = true) [d1; d2; d3; d4] → report_ok (with_records r g a d1 d2 d3 d4).
Proof.
  intros [H1 H2 H3 H4 H5] Hg Ha Hd. constructor; try done. cbn [with_records hr_GatewayDigest hr_AuthDigest hr_SourceHealthDigest hr_ReceiverGapDigest hr_CoverageDigest hr_DemoBindingDigest hr_InputDigest].
  rewrite !Forall_cons in *. naive_solver.
Qed.

Lemma with_binding_ok r d1 d2 : report_ok r → validDigest d1 = true → validDigest d2 = true → report_ok (with_binding r d1 d2).
Proof.
  intros [H1 H2 H3 H4 H5] Hd1 Hd2. constructor; try done. cbn [with_binding hr_GatewayDigest hr_AuthDigest hr_SourceHealthDigest hr_ReceiverGapDigest hr_CoverageDigest hr_DemoBindingDigest hr_InputDigest].
  rewrite !Forall_cons in *. naive_solver.
Qed.

(** A refusal leaves the decision as it was at the start. *)
Lemma refuse_ok r reason : report_ok r → hr_Decision r = HistoricalImpactBlocked → history_reason reason → reason ≠ HistoryReasonOK → report_ok (with_reason r (hr_Decision r) reason).
Proof. intros Hr -> Hk Hne. apply with_reason_ok; [done..|by left]. Qed.

Lemma historicalImpactReport_ok input : report_ok (historicalImpactReport input).
Proof.
  unfold historicalImpactReport. pose proof (envelope_reason input) as He. destruct (validateHistoryEnvelope input) as [[a w] r]. cbn [snd] in He.
  pose proof empty_report_ok as H0. assert (Hb : hr_Decision emptyHistoricalImpactReport = HistoricalImpactBlocked) by reflexivity.
  generalize dependent emptyHistoricalImpactReport. intros r0 H0 Hb.
  destruct (String.eqb_spec r HistoryReasonOK) as [->|Hr]; cbn [negb]; [|by apply refuse_ok].
  pose proof (coverage_reason (hi_Coverage input) w a) as Hc.
  destruct (String.eqb_spec (normalizeHistoryCoverage (hi_Coverage input) w a) HistoryReasonOK) as [_|Hn]; cbn [negb]; [|by apply refuse_ok].
  pose proof (with_coverage_ok _ _ H0 (digestHistoryValue_valid (coverage_wire_json (hi_Coverage input)))) as H1.
  change (hr_Decision r0) with (hr_Decision (with_coverage r0 (digestHistoryValue (coverage_wire_json (hi_Coverage input))))) in Hb.
  generalize dependent (with_coverage r0 (digestHistoryValue (coverage_wire_json (hi_Coverage input)))). clear r0 H0 He Hc. intros r1 Hb H1.
  pose proof (gateway_reason_known (hi_TargetIPv4 input) w a (hi_GatewayRecords input)) as Hg. pose proof (gateway_counts_ok (hi_TargetIPv4 input) w a (hi_GatewayRecords input)) as Hgc.
  pose proof (auth_reason_known (hi_TargetIPv4 input) w a (hi_AuthRecords input)) as Ha. pose proof (auth_counts_ok (hi_TargetIPv4 input) w a (hi_AuthRecords input)) as Hac.
  pose proof (health_reason_known w a (hi_GatewayHealth input) (hi_AuthHealth input)) as Hh. pose proof (gap_reason_known w a (hi_ReceiverGaps input)) as Hp.
  destruct (normalizeHistoryGateway _ _ _ _) as [[gws gc] gr], (normalizeHistoryAuth _ _ _ _) as [[aws ac] ar], (normalizeHistoryHealth _ _ _ _) as [hws hr], (normalizeHistoryGaps _ _ _) as [pws pr].
  cbn [fst snd] in *. destruct (existsb _ _); [by apply refuse_ok|].
  set (d1 := digestHistoryValue (JArray (gateway_wire_json <$> gws))). set (d2 := digestHistoryValue (JArray (auth_wire_json <$> aws))).
  set (d3 := digestHistoryValue (from_option _ _ _)). set (d4 := digestHistoryValue (JArray (gap_wire_json <$> pws))).
  assert (H2 : report_ok (with_records r1 gc ac d1 d2 d3 d4)) by (apply with_records_ok; [done..|]; repeat (constructor; [apply digestHistoryValue_valid|]); constructor).
  change (hr_Decision r1) with (hr_Decision (with_records r1 gc ac d1 d2 d3 d4)) in Hb. generalize dependent (with_records r1 gc ac d1 d2 d3 d4). clear r1 H1. intros r2 Hb H2.
  pose proof (demo_reason_known input a w r2) as Hd. pose proof (demo_digest_valid input a w r2) as Hv. destruct (validateDemoHistoryBinding input a w r2) as [dd dr]. cbn [fst snd] in *.
  destruct (String.eqb_spec dr HistoryReasonOK) as [_|Hdr]; cbn [negb]; [|by apply refuse_ok].
  pose proof (with_binding_ok r2 dd _ H2 Hv (digestHistoryValue_valid (input_binding_json input a w r2 dd))) as H3.
  change (hr_Decision r2) with (hr_Decision (with_binding r2 dd (digestHistoryValue (input_binding_json input a w r2 dd)))) in Hb.
  generalize dependent (with_binding r2 dd (digestHistoryValue (input_binding_json input a w r2 dd))). clear r2 H2 Hd. intros r3 Hb H3.
  pose proof (first_reason_known [hr; pr; ar; gr]) as Hf.
  destruct (String.eqb_spec (firstHistoryFailure [hr; pr; ar; gr]) HistoryReasonOK) as [_|Hn']; cbn [negb]; [|apply refuse_ok; try done; apply Hf; by repeat constructor].
  apply with_reason_ok; [done|reflexivity|by right].
Qed.

Lemma report_tidy r : report_ok r → tidy (report_json r).
Proof.
  intros [[Hs Hl] [Hd Hk] Hg Ha Hx]. rewrite !Forall_cons in Hg. rewrite !Forall_cons in Ha. rewrite !Forall_cons in Hx. unfold report_json, json_uint. cbn [tidy foldr fst snd]. rewrite Hs, Hl.
  assert (Hn : ∀ n, count_ok n → ∃ z, 0 <= z <= MaxSafeInteger ∧ chars (format_uint n) = chars (format_uint z)) by (intros n Hn; by exists n).
  assert (Hdec : plain (hr_Decision r)) by (destruct Hd as [[-> _]|[-> _]]; reflexivity). pose proof (history_reason_plain _ Hk).
  destruct Hg as (? & ? & ? & ? & ? & _), Ha as (? & ? & ? & _), Hx as (? & ? & ? & ? & ? & ? & ? & _).
  split_and!; try reflexivity; auto using validDigest_plain. by exists 86400.
Qed.

(** The function never fails to seal. *)
Lemma EvaluateHistoricalImpact_eq input : let report := historicalImpactReport input in let canonical := implode (write_json (canon (report_json report))) in
  EvaluateHistoricalImpact input = MkCheckedImpact report canonical (digest canonical).
Proof.
  cbv zeta. unfold EvaluateHistoricalImpact, sealHistoricalImpactReport, marshalSnapshotJCS. pose proof (report_tidy _ (historicalImpactReport_ok input)) as Ht.
  by rewrite canonicalJSON_write by (auto using tidy_simple).
Qed.

Lemma impact_Allowed_iff input : impact_Allowed (EvaluateHistoricalImpact input) = true ↔ harmless_history input.
Proof.
  rewrite EvaluateHistoricalImpact_eq. unfold impact_Allowed. cbn [ch_canonical ch_value].
  rewrite write_json_nonempty by (apply canon_simple, report_tidy, historicalImpactReport_ok). cbn [negb andb].
  rewrite andb_true_iff, !String.eqb_eq, <-historicalImpactReport_allowed. split; [by intros [? _]|]. intros H. split; [done|].
  destruct (ro_reason _ (historicalImpactReport_ok input)) as [[[Hx _]|[_ Hx]] _]; [by rewrite H in Hx|done].
Qed.

(** ** Order *)

(** Inputs that differ only in the order of their records. *)
Record same_records (x y : HistoricalImpactInput) : Prop := {
  sm_environment : hi_Environment x = hi_Environment y; sm_mode : hi_Mode x = hi_Mode y; sm_clock : hi_Clock x = hi_Clock y;
  sm_target : hi_TargetIPv4 x = hi_TargetIPv4 y; sm_coverage : hi_Coverage x = hi_Coverage y; sm_demo : hi_DemoHistory x = hi_DemoHistory y;
  sm_gateway : hi_GatewayRecords x ≡ₚ hi_GatewayRecords y; sm_auth : hi_AuthRecords x ≡ₚ hi_AuthRecords y; sm_gaps : hi_ReceiverGaps x ≡ₚ hi_ReceiverGaps y;
  sm_gatewayHealth : same_health (hi_GatewayHealth x) (hi_GatewayHealth y); sm_authHealth : same_health (hi_AuthHealth x) (hi_AuthHealth y)
}.

Lemma historicalImpactReport_perm x y : same_records x y → historicalImpactReport x = historicalImpactReport y.
Proof.
  intros [H1 H2 H3 H4 H5 H6 H7 H8 H9 H10 H11].
  assert (He : validateHistoryEnvelope x = validateHistoryEnvelope y) by (unfold validateHistoryEnvelope; by rewrite H1, H2, H3, H4, H6).
  assert (Hd : ∀ a w r, validateDemoHistoryBinding x a w r = validateDemoHistoryBinding y a w r).
  { intros a w r. unfold validateDemoHistoryBinding, demo_binding_ok. by rewrite H1, H2, H6. }
  assert (Hi : ∀ a w r d, input_binding_json x a w r d = input_binding_json y a w r d) by (intros a w r d; unfold input_binding_json; by rewrite H1, H2, H3, H4).
  unfold historicalImpactReport. rewrite He, H4, H5. destruct (validateHistoryEnvelope y) as [[a w] r]. destruct (negb (String.eqb r _)); [done|].
  destruct (negb (String.eqb (normalizeHistoryCoverage _ _ _) _)); [done|].
  rewrite (normalizeHistoryGateway_perm _ _ _ _ _ H7), (normalizeHistoryAuth_perm _ _ _ _ _ H8), (normalizeHistoryHealth_perm _ _ _ _ _ _ H10 H11), (normalizeHistoryGaps_perm _ _ _ _ H9).
  destruct (normalizeHistoryGateway _ _ _ _) as [[gws gc] gr], (normalizeHistoryAuth _ _ _ _) as [[aws ac] ar], (normalizeHistoryHealth _ _ _ _) as [hws hr], (normalizeHistoryGaps _ _ _) as [pws pr].
  destruct (existsb _ _); [done|]. rewrite Hd. destruct (validateDemoHistoryBinding y _ _ _) as [dd dr]. destruct (negb (String.eqb dr _)); [done|].
  by rewrite Hi.
Qed.

(** ** A sample window *)

Definition sample_cutoff : localtime := MkLocal (739000 * Day + 43200 * Second) 0.
Definition hours_before (n : Z) (zone : Z) : localtime := MkLocal (lt_instant sample_cutoff - n * Hour) zone.

Definition sample_gateway_records : list HistoricalGatewayRecord :=
  [MkGatewayRecord "00000000-0000-4000-8000-000000000001" (hours_before 3 32400) "203.0.113.20" 404 TimestampTrusted;
   MkGatewayRecord "00000000-0000-4000-8000-000000000002" (hours_before 24 0) "203.0.113.20" 200 TimestampTrusted].

Definition sample_auth_records (outcome : string) : list HistoricalAuthRecord :=
  [MkAuthRecord "00000000-0000-4000-8000-000000000003" (hours_before 1 0) "203.0.113.20" outcome TimestampTrusted BindingVerified].

(** One interval ended before the window. *)
Definition sample_history_health (source : string) : historyHealth :=
  MkHealth source true (hours_before 48 0) sample_cutoff [MkInterval "recovered" (hours_before 40 0) (hours_before 30 0) 7].

Definition sample_history (gateway : list HistoricalGatewayRecord) (outcome : string) : HistoricalImpactInput :=
  MkImpactInput EnvironmentProduction HistoryModeRetained (MkCutoff sample_cutoff HistoryClockRealtime true) "203.0.113.20"
    (MkCoverage HistoryQueryComplete HistoryQueryComplete HistoryQueryComplete HistoryQueryComplete (hours_before 24 0) sample_cutoff)
    gateway (sample_auth_records outcome) (sample_history_health SourceGateway) (sample_history_health SourceAuth)
    [MkGap "00000000-0000-4000-8000-000000000004" SourceAuth 5 9 (hours_before 2 0) (hours_before 1 0) ReceiverGapResolvedExact] None.

(** The window with only failed logins is harmless, and one successful login blocks. *)
Lemma sample_harmless : historicalImpactReport (sample_history sample_gateway_records AuthOutcomeFailed) ≠ historicalImpactReport (sample_history sample_gateway_records AuthOutcomeSucceeded)
  ∧ harmless_history (sample_history sample_gateway_records AuthOutcomeFailed)
  ∧ hr_ReasonCode (historicalImpactReport (sample_history sample_gateway_records AuthOutcomeSucceeded)) = HistoryReasonAuthSucceeded.
Proof.
  assert (H : hr_ReasonCode (historicalImpactReport (sample_history sample_gateway_records AuthOutcomeSucceeded)) = HistoryReasonAuthSucceeded) by (vm_compute; reflexivity).
  assert (H' : hr_Decision (historicalImpactReport (sample_history sample_gateway_records AuthOutcomeFailed)) = HistoricalImpactAllowed) by (vm_compute; reflexivity).
  split_and!; [|by apply historicalImpactReport_allowed|done].
  intros Heq. rewrite <-Heq in H. destruct (ro_reason _ (historicalImpactReport_ok (sample_history sample_gateway_records AuthOutcomeFailed))) as [[[Hx _]|[_ Hx]] _].
  - rewrite H' in Hx. done.
  - rewrite H in Hx. done.
Qed.

(** ** The claims *)

(** C24. The gate allows a block exactly when the window of 24 hours before a sealed clock
    reading is proven harmless: every query was complete and what is retained encloses
    the window; the records are well formed, distinct, of the target and inside the
    window; every timestamp is trusted; every authentication failed and is bound to its
    request; neither source was degraded in the window; every receiver gap is resolved
    or outside the window; and outside retained history a verified import of the pinned
    data set stands for exactly these records. *)
Theorem historical_impact_exact input : impact_Allowed (EvaluateHistoricalImpact input) = true ↔ harmless_history input.
Proof. apply impact_Allowed_iff. Qed.

(** The report, its canonical bytes and its digest do not depend on the order in which
    records, intervals and gaps are given. *)
Theorem report_ignores_order x y : same_records x y → EvaluateHistoricalImpact x = EvaluateHistoricalImpact y.
Proof. intros H. unfold EvaluateHistoricalImpact. by rewrite (historicalImpactReport_perm x y). Qed.

Lemma report_ignores_order_witness :
  EvaluateHistoricalImpact (sample_history sample_gateway_records AuthOutcomeFailed) = EvaluateHistoricalImpact (sample_history (reverse sample_gateway_records) AuthOutcomeFailed).
Proof.
  apply (report_ignores_order (sample_history sample_gateway_records AuthOutcomeFailed) (sample_history (reverse sample_gateway_records) AuthOutcomeFailed)).
  constructor; [reflexivity..|symmetry; apply reverse_Permutation|reflexivity|reflexivity|split_and!; reflexivity|split_and!; reflexivity].
Defined.

(** Every evaluation, a refusal too, yields a sealed report: its decision and reason
    agree, its counters are safe integers, its digests are digests, its canonical bytes
    read back as the report, and its digest is theirs. *)
Theorem every_report_sealed input : let c := EvaluateHistoricalImpact input in
  report_ok (ch_value c) ∧ parse_document (chars (ch_canonical c)) = Some (canon (report_json (ch_value c))) ∧ ch_digest c = digest (ch_canonical c).
Proof.
  cbv zeta. rewrite EvaluateHistoricalImpact_eq. cbn [ch_value ch_canonical ch_digest]. pose proof (historicalImpactReport_ok input) as Hr.
  split_and!; [done| |reflexivity]. rewrite chars_implode. by apply parse_document_write, canon_simple, report_tidy.
Qed.
