(* ===== verification/NftCheck.v ===== *)
(** * The syntax check of a candidate ([internal/enforcement/nftcheck])

    The checker that runs [nft --version] and [nft --check -f -] on the canonical
    command.  What the two runs answer and what the contexts report afterwards are
    arguments. *)

From S2P Require Import Prelude GoStrings Regex Sha256 Netip Json JsonTree Policy PolicySpec JournalFrame NftRunner.
Local Open Scope Z_scope.

Definition GateVersion : string := "nft-syntax-check-v1".
Definition CheckBinaryPath : string := "/usr/sbin/nft".
Definition PinnedBaseContractDigest : string := "sha256:2d6476f6297f9b135032934bc557110541bae7eb2fe16fe29be70d20d0f4c488".
Definition CheckMaxCandidateBytes : Z := 256.
Definition CheckMaxBaseContractBytes : Z := 16 * 1024.
Definition CheckMaxProcessOutput : Z := 8 * 1024.

Definition versionArguments : list string := ["--version"].
Definition checkArguments : list string := ["--check"; "-f"; "-"].

(** ** Versions *)

(** [expectedVersionPattern]: the fixed prefix and a version as in a listing. *)
Definition version_prefix : list ascii := chars "nftables v".

Definition expectedVersionPattern (s : string) : bool :=
  match strip_prefix version_prefix (chars s) with Some l => nftVersionPattern (implode l) | None => false end.

(** The longest prefix without a space or a line feed: the version and its suffix
    have neither, and what may follow starts with one of them. *)
Fixpoint span_version (l : list ascii) : list ascii * list ascii :=
  match l with
  | c :: l1 => if bool_decide (c ∈ [" "; "010"]%char) then ([], l) else let '(v, r) := span_version l1 in (c :: v, r)
  | [] => ([], [])
  end.

(** [\n?$] *)
Definition drop_newline (l : list ascii) : list ascii :=
  match reverse l with c :: k => if bool_decide (c = "010"%char) then reverse k else l | [] => l end.

(** [(?: \([ -~]{1,128}\))?$] *)
Definition release_note (l : list ascii) : bool :=
  match l with
  | [] => true
  | s :: o :: rest =>
      bool_decide (s = " "%char) && bool_decide (o = "("%char)
      && match reverse rest with
         | c :: note => bool_decide (c = ")"%char) && (1 <=? length note)%nat && (length note <=? 128)%nat && forallb (between " " "~") note
         | [] => false
         end
  | _ => false
  end.

(** [observedVersionPattern.FindSubmatch]: the captured version. *)
Definition observed_version (stdout : string) : option string :=
  match strip_prefix version_prefix (chars stdout) with
  | None => None
  | Some l => let '(version, rest) := span_version l in
              if nftVersionPattern (implode version) && release_note (drop_newline rest) then Some (implode version) else None
  end.

Definition normalizeVersion (stdout stderr : string) : option string :=
  if negb (len stderr =? 0) || negb (utf8_valid stdout) then None
  else version ← observed_version stdout; Some ("nftables v" +:+ version).

(** ** Data *)

Inductive CheckErrorCode :=
| CErrorInvalidInput | CErrorCandidateInvalid | CErrorCandidateDigest | CErrorCandidateMismatch | CErrorBaseDigest | CErrorBaseContract
| CErrorRunnerUnavailable | CErrorInvocationMismatch | CErrorVersionCommand | CErrorVersionInvalid | CErrorVersionMismatch | CErrorOutputLimit
| CErrorSyntaxRejected | CErrorCancelled | CErrorTimeout | CErrorUnsupportedPlatform.

(** The code as text. *)
Definition check_code_text (c : CheckErrorCode) : string :=
  match c with
  | CErrorInvalidInput => "invalid_input" | CErrorCandidateInvalid => "canonical_candidate_invalid" | CErrorCandidateDigest => "canonical_digest_invalid"
  | CErrorCandidateMismatch => "canonical_digest_mismatch" | CErrorBaseDigest => "base_contract_digest_invalid" | CErrorBaseContract => "base_contract_mismatch"
  | CErrorRunnerUnavailable => "nft_runner_unavailable" | CErrorInvocationMismatch => "nft_invocation_mismatch" | CErrorVersionCommand => "nft_version_command_failed"
  | CErrorVersionInvalid => "nft_version_invalid" | CErrorVersionMismatch => "nft_version_mismatch" | CErrorOutputLimit => "nft_output_limit_exceeded"
  | CErrorSyntaxRejected => "nft_syntax_rejected" | CErrorCancelled => "nft_check_cancelled" | CErrorTimeout => "nft_check_timeout"
  | CErrorUnsupportedPlatform => "unsupported_platform"
  end.

Record CheckInput := MkCheckInput { ki_CanonicalBytes : string; ki_CanonicalDigest : string; ki_BaseContract : string; ki_BaseContractDigest : string }.

Record ProcessResult := MkProcessResult {
  ps_Path : string; ps_Arguments : list string; ps_ExitStatus : Z; ps_Stdout : string; ps_Stderr : string; ps_OutputOverflow : bool
}.

(** What one run reports: its result, whether the runner returned an error, and the
    error of the gate's context afterwards. *)
Record run_answer := MkAnswer { ra_result : ProcessResult; ra_failed : bool; ra_ctx : option ContextError }.

Record Evidence := MkSyntaxEvidence {
  sy_CanonicalDigest : string; sy_BaseContractDigest : string; sy_NFTVersion : string; sy_VersionExitStatus : Z; sy_VersionOutputDigest : string;
  sy_VersionOutputByteCount : Z; sy_SyntaxExitStatus : Z; sy_SyntaxOutputDigest : string; sy_SyntaxOutputByteCount : Z
}.

(** The fields of [initialEvidence] that never change are constants of [evidence_json]. *)
Definition initialEvidence : Evidence := MkSyntaxEvidence "" "" "" (-1) "" 0 (-1) "" 0.

(** [json.Marshal] of the evidence. *)
Definition evidence_json (e : Evidence) : json :=
  JObject
    [("GateVersion", JString GateVersion); ("CanonicalDigest", JString (sy_CanonicalDigest e)); ("BaseContractDigest", JString (sy_BaseContractDigest e));
     ("NFTBinaryPath", JString CheckBinaryPath); ("VersionArguments", JArray (JString <$> versionArguments)); ("SyntaxArguments", JArray (JString <$> checkArguments));
     ("NFTVersion", JString (sy_NFTVersion e)); ("VersionExitStatus", JNumber (chars (itoa (sy_VersionExitStatus e))));
     ("VersionOutputDigest", JString (sy_VersionOutputDigest e)); ("VersionOutputByteCount", JNumber (chars (itoa (sy_VersionOutputByteCount e))));
     ("SyntaxExitStatus", JNumber (chars (itoa (sy_SyntaxExitStatus e)))); ("SyntaxOutputDigest", JString (sy_SyntaxOutputDigest e));
     ("SyntaxOutputByteCount", JNumber (chars (itoa (sy_SyntaxOutputByteCount e))))].

(** Length prefixes keep the two streams apart. *)
Definition outputDigest (stdout stderr : string) : string :=
  let size s := implode (map chr (be_bytes 8 (len s))) in
  digest ("sentinelflow-nft-process-output-v1" +:+ String "000" "" +:+ size stdout +:+ stdout +:+ size stderr +:+ stderr).

Definition checkOutputTooLarge (stdout stderr : string) : bool := (CheckMaxProcessOutput <? len stdout) || (CheckMaxProcessOutput - len stdout <? len stderr).

Definition output_recorded (r : ProcessResult) : bool := negb (ps_OutputOverflow r) && negb (checkOutputTooLarge (ps_Stdout r) (ps_Stderr r)).

Definition populateVersionEvidence (e : Evidence) (r : ProcessResult) : Evidence :=
  let '(d, n) := if output_recorded r then (outputDigest (ps_Stdout r) (ps_Stderr r), u32 (len (ps_Stdout r) + len (ps_Stderr r)))
                 else (sy_VersionOutputDigest e, sy_VersionOutputByteCount e) in
  MkSyntaxEvidence (sy_CanonicalDigest e) (sy_BaseContractDigest e) (sy_NFTVersion e) (ps_ExitStatus r) d n (sy_SyntaxExitStatus e) (sy_SyntaxOutputDigest e) (sy_SyntaxOutputByteCount e).

Definition populateSyntaxEvidence (e : Evidence) (r : ProcessResult) : Evidence :=
  let '(d, n) := if output_recorded r then (outputDigest (ps_Stdout r) (ps_Stderr r), u32 (len (ps_Stdout r) + len (ps_Stderr r)))
                 else (sy_SyntaxOutputDigest e, sy_SyntaxOutputByteCount e) in
  MkSyntaxEvidence (sy_CanonicalDigest e) (sy_BaseContractDigest e) (sy_NFTVersion e) (sy_VersionExitStatus e) (sy_VersionOutputDigest e) (sy_VersionOutputByteCount e) (ps_ExitStatus r) d n.

(** ** The check *)

Definition envelope_byte (last : bool) (c : ascii) : bool :=
  negb ((126 <? code c) || (code c =? 0) || (code c =? 13) || (code c =? 9) || ((code c =? 10) && negb last) || ((code c <? 32) && negb (code c =? 10))).

Definition byte_order_mark : list ascii := ["239"; "187"; "191"]%char.

Definition validCanonicalEnvelope (value : string) : bool :=
  let l := chars value in
  if (len value =? 0) || (CheckMaxCandidateBytes <? len value) || negb (utf8_valid value)
     || bool_decide (take 3 l = byte_order_mark) || negb (bool_decide (last l = Some "010"%char)) then false
  else forallb (envelope_byte false) (take (length l - 1) l) && forallb (envelope_byte true) (drop (length l - 1) l).

Definition checkContextFailure (ctx : option ContextError) : option CheckErrorCode :=
  match ctx with Some DeadlineExceeded => Some CErrorTimeout | Some Canceled => Some CErrorCancelled | None => None end.

Definition validateProcessResult (answer : run_answer) (expectedArguments : list string) (versionCommand : bool) : option CheckErrorCode :=
  let result := ra_result answer in
  match checkContextFailure (ra_ctx answer) with
  | Some err => Some err
  | None =>
      if ps_OutputOverflow result || checkOutputTooLarge (ps_Stdout result) (ps_Stderr result) then Some CErrorOutputLimit
      else if negb (String.eqb (ps_Path result) CheckBinaryPath) || negb (bool_decide (ps_Arguments result = expectedArguments)) then Some CErrorInvocationMismatch
      else if ps_ExitStatus result <? 0 then Some CErrorRunnerUnavailable
      else if 0 <? ps_ExitStatus result then Some (if versionCommand then CErrorVersionCommand else CErrorSyntaxRejected)
      else if ra_failed answer then Some CErrorRunnerUnavailable
      else None
  end.

Definition set_canonical (e : Evidence) (d : string) : Evidence :=
  MkSyntaxEvidence d (sy_BaseContractDigest e) (sy_NFTVersion e) (sy_VersionExitStatus e) (sy_VersionOutputDigest e) (sy_VersionOutputByteCount e) (sy_SyntaxExitStatus e) (sy_SyntaxOutputDigest e) (sy_SyntaxOutputByteCount e).
Definition set_base (e : Evidence) (d : string) : Evidence :=
  MkSyntaxEvidence (sy_CanonicalDigest e) d (sy_NFTVersion e) (sy_VersionExitStatus e) (sy_VersionOutputDigest e) (sy_VersionOutputByteCount e) (sy_SyntaxExitStatus e) (sy_SyntaxOutputDigest e) (sy_SyntaxOutputByteCount e).
Definition set_version (e : Evidence) (v : string) : Evidence :=
  MkSyntaxEvidence (sy_CanonicalDigest e) (sy_BaseContractDigest e) v (sy_VersionExitStatus e) (sy_VersionOutputDigest e) (sy_VersionOutputByteCount e) (sy_SyntaxExitStatus e) (sy_SyntaxOutputDigest e) (sy_SyntaxOutputByteCount e).

Definition check_digest_pattern (s : string) : bool := match_string digest_pattern s.

Section checker.
(** [New] pinned the version; the runner answers each run once.  [check_run] also
    returns its copy of the input as the runner left it. *)
Context (expectedVersion : string) (before : option ContextError) (version_run : run_answer) (check_run : string → run_answer * string).

(** [Checker.Check] of a constructed checker: the evidence, and the error if any. *)
Definition syntax_Check (input : CheckInput) : Evidence * option CheckErrorCode :=
  let evidence := initialEvidence in
  match checkContextFailure before with
  | Some err => (evidence, Some err)
  | None =>
      let canonical := ki_CanonicalBytes input in
      if negb (validCanonicalEnvelope canonical) then (evidence, Some CErrorCandidateInvalid)
      else if negb (check_digest_pattern (ki_CanonicalDigest input)) then (evidence, Some CErrorCandidateDigest)
      else
        let evidence := set_canonical evidence (digest canonical) in
        if negb (String.eqb (sy_CanonicalDigest evidence) (ki_CanonicalDigest input)) then (evidence, Some CErrorCandidateMismatch)
        else if negb (String.eqb (ki_BaseContractDigest input) PinnedBaseContractDigest) || negb (check_digest_pattern (ki_BaseContractDigest input))
        then (evidence, Some CErrorBaseDigest)
        else if (len (ki_BaseContract input) =? 0) || (CheckMaxBaseContractBytes <? len (ki_BaseContract input)) then (evidence, Some CErrorBaseContract)
        else
          let evidence := set_base evidence (digest (ki_BaseContract input)) in
          if negb (String.eqb (sy_BaseContractDigest evidence) PinnedBaseContractDigest) then (evidence, Some CErrorBaseContract)
          else
            let evidence := populateVersionEvidence evidence (ra_result version_run) in
            match validateProcessResult version_run versionArguments true with
            | Some err => (evidence, Some err)
            | None =>
                match normalizeVersion (ps_Stdout (ra_result version_run)) (ps_Stderr (ra_result version_run)) with
                | None => (evidence, Some CErrorVersionInvalid)
                | Some version =>
                    let evidence := set_version evidence version in
                    if negb (String.eqb version expectedVersion) then (evidence, Some CErrorVersionMismatch)
                    else
                      let '(answer, checkInput) := check_run canonical in
                      let evidence := populateSyntaxEvidence evidence (ra_result answer) in
                      match validateProcessResult answer checkArguments false with
                      | Some err => (evidence, Some err)
                      | None =>
                          if negb (String.eqb (digest checkInput) (ki_CanonicalDigest input)) || negb (String.eqb (digest canonical) (ki_CanonicalDigest input))
                          then (evidence, Some CErrorCandidateMismatch) else (evidence, None)
                      end
                end
            end
  end.
End checker.
