(* ===== verification/NftCheckSpec.v ===== *)
(** * What a passed syntax check means

    A check passes exactly when the candidate and the base contract are the pinned
    bytes and both runs of the fixed binary were clean; the evidence then records
    them. *)

From S2P Require Import Prelude GoStrings Regex Sha256 Netip Json Policy PolicySpec JournalFrame NftRunner NftRunnerSpec NftCheck NftValidate NftValidateSpec.
Local Open Scope Z_scope.

(** ** One run *)

(** A run of the fixed binary with the expected arguments that exited with zero,
    within the output limit, and with neither an error nor a dead context. *)
Record clean_run (answer : run_answer) (arguments : list string) : Prop := MkClean {
  cr_ctx : ra_ctx answer = None;
  cr_ok : ra_failed answer = false;
  cr_path : ps_Path (ra_result answer) = CheckBinaryPath;
  cr_arguments : ps_Arguments (ra_result answer) = arguments;
  cr_exit : ps_ExitStatus (ra_result answer) = 0;
  cr_output : ps_OutputOverflow (ra_result answer) = false ∧ len (ps_Stdout (ra_result answer)) + len (ps_Stderr (ra_result answer)) <= CheckMaxProcessOutput
}.

Lemma checkOutputTooLarge_iff stdout stderr : checkOutputTooLarge stdout stderr = false ↔ len stdout + len stderr <= CheckMaxProcessOutput.
Proof. unfold checkOutputTooLarge. unfold len. rewrite orb_false_iff. lia. Qed.

Lemma validateProcessResult_iff answer arguments isVersion : validateProcessResult answer arguments isVersion = None ↔ clean_run answer arguments.
Proof.
  unfold validateProcessResult. destruct answer as [[path args exit out err over] failed ctx]. cbn [ra_result ra_failed ra_ctx ps_Path ps_Arguments ps_ExitStatus ps_Stdout ps_Stderr ps_OutputOverflow].
  split.
  - destruct ctx as [[]|]; cbn [checkContextFailure]; try done. destruct (over || _) eqn:Eo; [done|]. apply orb_false_iff in Eo as [-> Eo%checkOutputTooLarge_iff].
    destruct (_ || _) eqn:Ep; [done|]. apply orb_false_iff in Ep as [Ep%negb_false_iff%String.eqb_eq Ea%negb_false_iff%bool_decide_eq_true].
    destruct (Z.ltb_spec exit 0); [done|]. destruct (Z.ltb_spec 0 exit); [done|]. destruct failed; [done|]. intros _. constructor; cbn; try done. lia.
  - intros [Hc Hf Hp Ha He [Ho Hl]]. cbn in Hc, Hf, Hp, Ha, He, Ho, Hl. subst. cbn [checkContextFailure]. rewrite (proj2 (checkOutputTooLarge_iff _ _) Hl). cbn [orb].
    rewrite String.eqb_refl, bool_decide_true by done. reflexivity.
Qed.

(** ** The whole check *)

(** What a passed check establishes about the input and the two runs. *)
Record syntax_passed (expectedVersion : string) (before : option ContextError) (version_run check_run : run_answer) (left_input : string) (input : CheckInput) : Prop := MkSyntaxPassed {
  sp_alive : before = None;
  sp_envelope : validCanonicalEnvelope (ki_CanonicalBytes input) = true;
  sp_digest : ki_CanonicalDigest input = digest (ki_CanonicalBytes input);
  sp_base : ki_BaseContractDigest input = PinnedBaseContractDigest ∧ digest (ki_BaseContract input) = PinnedBaseContractDigest
    ∧ 0 < len (ki_BaseContract input) <= CheckMaxBaseContractBytes;
  sp_version : clean_run version_run versionArguments
    ∧ normalizeVersion (ps_Stdout (ra_result version_run)) (ps_Stderr (ra_result version_run)) = Some expectedVersion;
  sp_check : clean_run check_run checkArguments;
  sp_unchanged : digest left_input = digest (ki_CanonicalBytes input)
}.

(** The evidence of a passed check: what ran, on what, with which output. *)
Definition passed_evidence (expectedVersion : string) (version_run check_run : run_answer) (input : CheckInput) : Evidence :=
  let size r := u32 (len (ps_Stdout r) + len (ps_Stderr r)) in
  MkSyntaxEvidence (digest (ki_CanonicalBytes input)) PinnedBaseContractDigest expectedVersion
    0 (outputDigest (ps_Stdout (ra_result version_run)) (ps_Stderr (ra_result version_run))) (size (ra_result version_run))
    0 (outputDigest (ps_Stdout (ra_result check_run)) (ps_Stderr (ra_result check_run))) (size (ra_result check_run)).

Lemma clean_recorded answer arguments : clean_run answer arguments → output_recorded (ra_result answer) = true.
Proof. intros [_ _ _ _ _ [Ho Hl]]. unfold output_recorded. by rewrite Ho, (proj2 (checkOutputTooLarge_iff _ _) Hl). Qed.

Lemma pinned_digest_shape : check_digest_pattern PinnedBaseContractDigest = true.
Proof. vm_compute. reflexivity. Qed.

Lemma syntax_Check_iff expectedVersion before version_run check_run input e :
  let answer := check_run (ki_CanonicalBytes input) in
  syntax_Check expectedVersion before version_run check_run input = (e, None) ↔
  syntax_passed expectedVersion before version_run answer.1 answer.2 input ∧ e = passed_evidence expectedVersion version_run answer.1 input.
Proof.
  cbv zeta. unfold syntax_Check. destruct (check_run (ki_CanonicalBytes input)) as [answer left_input]. cbn [fst snd]. cbv zeta. split.
  - destruct before as [[]|]; cbn [checkContextFailure]; [by intros [=]..|].
    destruct (validCanonicalEnvelope _) eqn:Een; cbn [negb]; [|by intros [=]].
    destruct (check_digest_pattern (ki_CanonicalDigest input)); cbn [negb]; [|by intros [=]].
    cbn [sy_CanonicalDigest set_canonical]. destruct (String.eqb_spec (digest (ki_CanonicalBytes input)) (ki_CanonicalDigest input)) as [Ed|]; cbn [negb]; [|by intros [=]].
    destruct (_ || _) eqn:Eb; [by intros [=]|]. apply orb_false_iff in Eb as [Eb%negb_false_iff%String.eqb_eq _].
    destruct (_ || _) eqn:El; [by intros [=]|]. apply orb_false_iff in El.
    cbn [sy_BaseContractDigest set_base]. destruct (String.eqb_spec (digest (ki_BaseContract input)) PinnedBaseContractDigest) as [Ebd|]; cbn [negb]; [|by intros [=]].
    destruct (validateProcessResult version_run _ _) eqn:Ev; [by intros [=]|]. apply validateProcessResult_iff in Ev.
    destruct (normalizeVersion _ _) as [version|] eqn:En; [|by intros [=]].
    destruct (String.eqb_spec version expectedVersion) as [->|]; cbn [negb]; [|by intros [=]].
    destruct (validateProcessResult answer _ _) eqn:Ec; [by intros [=]|]. apply validateProcessResult_iff in Ec.
    destruct (_ || _) eqn:Eu; [by intros [=]|]. apply orb_false_iff in Eu as [Eu%negb_false_iff%String.eqb_eq _]. intros He.
    split; [constructor; try done; [unfold len in *; split_and!; try done; lia|congruence]|].
    apply (f_equal fst) in He. cbn [fst] in He. subst e. unfold populateSyntaxEvidence, populateVersionEvidence. rewrite (clean_recorded _ _ Ev), (clean_recorded _ _ Ec).
    unfold passed_evidence. by rewrite Ebd, (cr_exit _ _ Ev), (cr_exit _ _ Ec).
  - intros [[-> Hen Hd (Hb & Hbd & Hl) [Hv Hn] Hc Hu] ->]. cbn [checkContextFailure]. rewrite Hen. cbn [negb sy_CanonicalDigest set_canonical]. rewrite Hd.
    unfold check_digest_pattern at 1. rewrite digest_matches, String.eqb_refl. cbn [negb]. rewrite Hb, pinned_digest_shape, String.eqb_refl. cbn [negb orb].
    rewrite (proj2 (Z.eqb_neq _ _)), (proj2 (Z.ltb_ge _ _)) by lia. cbn [orb sy_BaseContractDigest set_base]. rewrite Hbd, String.eqb_refl. cbn [negb].
    rewrite (proj2 (validateProcessResult_iff _ _ _) Hv), Hn, String.eqb_refl. cbn [negb]. rewrite (proj2 (validateProcessResult_iff _ _ _) Hc), Hu, String.eqb_refl. cbn [negb orb].
    unfold populateSyntaxEvidence, populateVersionEvidence. rewrite (clean_recorded _ _ Hv), (clean_recorded _ _ Hc). unfold passed_evidence.
    by rewrite (cr_exit _ _ Hv), (cr_exit _ _ Hc).
Qed.

(** ** Built commands reach nft *)

(** The executor's rule for its input is at least as strict as the checker's. *)
Lemma mutation_envelope value : validMutationEnvelope value = true → validCanonicalEnvelope value = true.
Proof.
  unfold validMutationEnvelope, validCanonicalEnvelope. cbv zeta. change maxMutationBytes with CheckMaxCandidateBytes.
  destruct (_ || _) eqn:E; [done|]. intros Hb. rewrite !orb_false_iff in E. destruct E as ((((-> & ->) & ->) & ->) & _). cbn [orb]. rewrite orb_false_r.
  rewrite bool_decide_false; [exact Hb|]. intros Ht. apply andb_true_iff in Hb as [Hb1 Hb2].
  assert (Hc : "239"%char ∈ chars value) by (rewrite <- (take_drop 3 (chars value)), Ht; by left).
  rewrite <- (take_drop (length (chars value) - 1) (chars value)), elem_of_app in Hc. rewrite forallb_forall in Hb1, Hb2.
  destruct Hc as [Hc|Hc]; apply list_elem_of_In in Hc; [specialize (Hb1 _ Hc)|specialize (Hb2 _ Hc)]; done.
Qed.

Lemma command_envelope a token seconds : addr4_ok a = true → ttl_token token seconds → validCanonicalEnvelope (command_text a token true) = true.
Proof. intros Ha Ht. by eapply mutation_envelope, command_is_valid_mutation. Qed.

(** ** A passed check *)

Definition quiet_run (arguments : list string) (stdout : string) : run_answer :=
  MkAnswer (MkProcessResult CheckBinaryPath arguments 0 stdout "" false) false None.

Definition sample_banner : run_answer := quiet_run versionArguments ("nftables v1.0.9 (Old Doc Yak #3)" +:+ lf).

Definition sample_check_input : CheckInput :=
  MkCheckInput (command_text sample_target "30m" true) (digest (command_text sample_target "30m" true)) shipped_base PinnedBaseContractDigest.

Lemma sample_syntax_passed : syntax_passed "nftables v1.0.9" None sample_banner (quiet_run checkArguments "") (command_text sample_target "30m" true) sample_check_input.
Proof.
  constructor; [done| |done| | |..].
  - vm_compute. reflexivity.
  - split_and!; [done|exact shipped_base_digest|vm_compute; reflexivity|vm_compute; discriminate].
  - split; [|vm_compute; reflexivity]. by constructor.
  - by constructor.
  - reflexivity.
Qed.

(** ** The claim *)

(** The syntax check passes exactly when the context was alive, the candidate is one
    printable line with its digest, the base contract is the pinned one, both runs of
    the fixed binary were clean and with the fixed arguments, the banner is the pinned
    version, and the runner left the candidate as it was; the evidence then names the
    candidate, the contract, the version and the outputs of both runs. *)
Theorem syntax_check_exact expectedVersion before version_run check_run input e :
  let answer := check_run (ki_CanonicalBytes input) in
  syntax_Check expectedVersion before version_run check_run input = (e, None) ↔
  syntax_passed expectedVersion before version_run answer.1 answer.2 input ∧ e = passed_evidence expectedVersion version_run answer.1 input.
Proof. apply syntax_Check_iff. Qed.
