(* ===== verification/Worker.v ===== *)
(** * The generic worker ([internal/worker])

    The runner that leases one job, calls its handler and reports the outcome under
    the lease, with its backoff and its lease tokens.  What the clock, the store, the
    handler and the entropy answer are arguments; the calls that leave the process are
    returned as a list, in their order. *)

From S2P Require Import Prelude GoStrings Regex Sha256 GoTime Detection SignalContract Session.
Local Open Scope Z_scope.

Definition MaxLeaseDuration : duration := 60 * Second.

(** [^[a-z0-9][a-z0-9._-]{0,63}$] *)
Definition asciiIDPattern : pattern :=
  [exactly 1 (λ c, is_lower c || is_digit c);
   rep 0 63 (λ c, is_lower c || is_digit c || bool_decide (c = "."%char) || bool_decide (c = "_"%char) || bool_decide (c = "-"%char))].

(** ** Backoff ([backoff.go]) *)

Record BackoffPolicy := MkBackoff { bo_BaseDelay : duration; bo_MaxDelay : duration }.

Definition backoff_validate (p : BackoffPolicy) : bool := negb ((bo_BaseDelay p <=? 0) || (bo_MaxDelay p <=? 0) || (bo_MaxDelay p <? bo_BaseDelay p)).

(** The doubling loop.  A positive [int64] below the bound can be doubled at most 63
    times, so 64 rounds of fuel are enough; [None] is exhausted fuel. *)
Fixpoint delay_loop (fuel : nat) (p : BackoffPolicy) (attempt current : Z) (delay : duration) : option duration :=
  if (current <? attempt) && (delay <? bo_MaxDelay p) then
    match fuel with
    | O => None
    | S f => if bo_MaxDelay p / 2 <? delay then Some (bo_MaxDelay p) else delay_loop f p attempt (current + 1) (delay * 2)
    end
  else Some delay.

(** [Delay]; [None] is the error. *)
Definition backoff_Delay (p : BackoffPolicy) (attempt jitter : Z) : option duration :=
  if negb (backoff_validate p) then None
  else if attempt <? 1 then None
  else
    delay ← delay_loop 64 p attempt 1 (bo_BaseDelay p);
    let delay := if bo_MaxDelay p <? delay then bo_MaxDelay p else delay in
    let floor := if delay / 2 =? 0 then delay else delay / 2 in
    let span := delay - floor in
    if span =? 0 then Some floor else Some (floor + jitter mod (u64 (span + 1))).

(** ** Lease tokens ([random.go], [postgres.go]) *)

(** [uuidV4From] on the sixteen bytes read. *)
Definition uuidV4From (value : list Z) : string :=
  let value := set_byte 6 (λ b, Z.lor (Z.land b 15) 64) value in
  let value := set_byte 8 (λ b, Z.lor (Z.land b 63) 128) value in
  hex_of_bytes (take 4 value) +:+ "-" +:+ hex_of_bytes (take 2 (drop 4 value)) +:+ "-" +:+ hex_of_bytes (take 2 (drop 6 value)) +:+ "-"
  +:+ hex_of_bytes (take 2 (drop 8 value)) +:+ "-" +:+ hex_of_bytes (drop 10 value).

Definition validUUIDV4 (value : string) : bool :=
  match_string uuid_pattern value && bool_decide (chars value !! 14%nat = Some "4"%char)
  && existsb (λ c, bool_decide (chars value !! 19%nat = Some c)) ["8"; "9"; "a"; "b"]%char.

(** ** Jobs ([types.go]) *)

Definition isDispatch (kind : string) : bool := existsb (String.eqb kind) ["dispatch_add"; "dispatch_revoke"; "dispatch_inspect"].
Definition isGeneric (kind : string) : bool :=
  existsb (String.eqb kind) ["detect"; "correlate"; "analyze"; "validate"; "reconcile"; "retention"; "audit_recovery"].

Record Job := MkJob {
  jb_JobID : string; jb_Kind : string; jb_AggregateType : string; jb_AggregateID : string; jb_AggregateVersion : Z; jb_Attempt : Z; jb_MaxAttempts : Z
}.

Record LeasedJob := MkLeasedJob {
  lj_Job : Job; lj_State : string; lj_AvailableAt : time; lj_LeaseToken : string; lj_LeaseOwner : string; lj_LeaseGrantedAt : time; lj_LeaseExpiresAt : time
}.

Record LeaseRequest := MkLeaseRequest { lq_Now : time; lq_LeaseToken : string; lq_LeaseOwner : string; lq_LeaseExpiresAt : time }.

(** [FinishState] *)
Inductive FinishState := FinishCompleted | FinishRetry | FinishDead.

#[export] Instance FinishState_eq_dec : EqDecision FinishState.
Proof. solve_decision. Defined.

Record FinishRequest := MkFinish {
  fq_State : FinishState; fq_RetryAt : option time; fq_ErrorCode : string; fq_ErrorDigest : string; fq_Now : time; fq_JobID : string; fq_LeaseToken : string
}.

Inductive Outcome := OutcomeNone | OutcomeNoJob | OutcomeCompleted | OutcomeRetryScheduled | OutcomeDeadLettered | OutcomeLeaseLost.

Record RunResult := MkRunResult {
  rr_Outcome : Outcome; rr_JobID : string; rr_Kind : string; rr_Attempt : Z; rr_FailureCode : string; rr_RetryAt : option time
}.

Definition zero_result : RunResult := MkRunResult OutcomeNone "" "" 0 "" None.

Inductive WorkerError := ErrLeaseLost | ErrInvalidLease | ErrForbiddenJob | ErrCancelled | ErrDependency | ErrInvalidBackoff.

(** [NewRegistry] of the kinds with their handlers ([false] is a nil handler); [None]
    is the error, and the registry is the set of kinds it can call. *)
Definition NewRegistry (handlers : list (string * bool)) : option (gset string) :=
  if forallb (λ entry, isGeneric entry.1 && entry.2) handlers then Some (list_to_set handlers.*1) else None.

(** ** The store's guards ([postgres.go]) *)

Definition validateLeaseRequest (request : LeaseRequest) : bool :=
  negb (IsZero (lq_Now request) || IsZero (lq_LeaseExpiresAt request) || negb (After (lq_LeaseExpiresAt request) (lq_Now request))
        || (MaxLeaseDuration <? Sub (lq_LeaseExpiresAt request) (lq_Now request)) || negb (validUUIDV4 (lq_LeaseToken request))
        || negb (match_string asciiIDPattern (lq_LeaseOwner request))).

Definition validFailureEvidence (code digest : string) : bool := match_string asciiIDPattern code && match_string digest_pattern digest.

Definition validateFinishRequest (request : FinishRequest) : bool :=
  if IsZero (fq_Now request) || negb (match_string uuid_pattern (fq_JobID request)) || negb (validUUIDV4 (fq_LeaseToken request)) then false
  else
    match fq_State request with
    | FinishCompleted =>
        negb (bool_decide (is_Some (fq_RetryAt request)) || negb (String.eqb (fq_ErrorCode request) "") || negb (String.eqb (fq_ErrorDigest request) ""))
    | FinishRetry =>
        match fq_RetryAt request with
        | None => false
        | Some retryAt => negb (Before retryAt (fq_Now request) || negb (validFailureEvidence (fq_ErrorCode request) (fq_ErrorDigest request)))
        end
    | FinishDead => negb (bool_decide (is_Some (fq_RetryAt request)) || negb (validFailureEvidence (fq_ErrorCode request) (fq_ErrorDigest request)))
    end.

Definition finish_text (state : FinishState) : string := match state with FinishCompleted => "completed" | FinishRetry => "retry" | FinishDead => "dead" end.

(** [Finish] of the store: [row] is what the query answers (no row is [Some None], a
    failed query is [None]). *)
Definition store_Finish (request : FinishRequest) (row : option (option (string * string))) : option bool :=
  if negb (validateFinishRequest request) then None
  else
    match row with
    | None => None
    | Some None => Some false
    | Some (Some (jobID, state)) => if negb (String.eqb jobID (fq_JobID request)) || negb (String.eqb state (finish_text (fq_State request))) then None else Some true
    end.

(** [Lease] of the store, likewise. *)
Definition store_Lease (request : LeaseRequest) (row : option (option LeasedJob)) : option (option LeasedJob) :=
  if negb (validateLeaseRequest request) then None else row.

(** ** The runner ([runner.go]) *)

Record RunnerConfig := MkRunnerConfig { wc_LeaseOwner : string; wc_LeaseDuration : duration; wc_PollInterval : duration; wc_Backoff : BackoffPolicy }.

Definition worker_DefaultConfig (owner : string) : RunnerConfig :=
  MkRunnerConfig owner (30 * Second) (250 * Millisecond) (MkBackoff Second Minute).

Definition runner_config_validate (c : RunnerConfig) : bool :=
  if negb (match_string asciiIDPattern (wc_LeaseOwner c)) || (wc_LeaseDuration c <=? 0) || (MaxLeaseDuration <? wc_LeaseDuration c) || (wc_PollInterval c <=? 0)
  then false else backoff_validate (wc_Backoff c).

(** [postgresTime]: microseconds. *)
Definition postgresTime (t : time) : time := Truncate t Microsecond.

Definition validateLeasedJob (job : LeasedJob) (request : LeaseRequest) : bool :=
  let j := lj_Job job in
  let requestedDuration := Sub (lq_LeaseExpiresAt request) (lq_Now request) in
  negb (negb (match_string uuid_pattern (jb_JobID j)) || String.eqb (jb_AggregateType j) "" || negb (match_string asciiIDPattern (jb_AggregateType j))
        || negb (match_string uuid_pattern (jb_AggregateID j)) || (jb_AggregateVersion j <? 1) || negb (String.eqb (lj_State job) "leased")
        || negb (String.eqb (lj_LeaseToken job) (lq_LeaseToken request)) || negb (String.eqb (lj_LeaseOwner job) (lq_LeaseOwner request))
        || IsZero (lj_LeaseGrantedAt job) || negb (After (lj_LeaseExpiresAt job) (lj_LeaseGrantedAt job))
        || negb (Sub (lj_LeaseExpiresAt job) (lj_LeaseGrantedAt job) =? requestedDuration) || (requestedDuration <=? 0) || (MaxLeaseDuration <? requestedDuration)
        || (jb_Attempt j <? 1) || (jb_MaxAttempts j <? 1) || (jb_MaxAttempts j <? jb_Attempt j)).

(** What a handler does: succeed, fail with a classified failure (code and whether it
    is retryable; a nil [*HandlerFailure] is [None]), fail otherwise, or panic. *)
Inductive handler_answer := HandlerOk | HandlerFailure (failure : option (string * bool)) | HandlerOther | HandlerPanic.

(** [invoke], then [classifyHandlerFailure]: [None] is success. *)
Definition invoke (registry : gset string) (kind : string) (answer : handler_answer) : handler_answer :=
  if bool_decide (kind ∈ registry) then match answer with HandlerPanic => HandlerFailure (Some ("handler_panic", true)) | answer => answer end
  else HandlerFailure (Some ("unknown_job_kind", false)).

Definition classifyHandlerFailure (failure : handler_answer) : option (string * bool) :=
  match failure with
  | HandlerOk => None
  | HandlerFailure (Some (code, retryable)) => if match_string asciiIDPattern code then Some (code, retryable) else Some ("invalid_failure_code", false)
  | HandlerFailure None => Some ("invalid_failure_code", false)
  | HandlerOther | HandlerPanic => Some ("unclassified_handler_error", false)
  end.

Definition failureDigest (code : string) : string :=
  digest ("sentinelflow worker-failure-v1" +:+ String "010" "" +:+ code +:+ String "010" "").

(** What surrounds one run: whether the context was done at the gate, the clock, the
    token source, the store's lease answer, the handler, the contexts after it, the
    clock again, the jitter, and the store's finish answer. *)
Record surroundings := MkSurroundings {
  su_doneAtGate : bool; su_now : time; su_token : option string; su_lease : option (option LeasedJob); su_handler : handler_answer; su_done : bool;
  su_handlerDone : bool; su_completionNow : time; su_jitter : option Z; su_finish : option bool
}.

(** A call out of the process. *)
Inductive call := CallLease (request : LeaseRequest) | CallHandler (job : Job) | CallFinish (request : FinishRequest).

Section runner.
Context (config : RunnerConfig) (registry : gset string) (su : surroundings).

(** The request that reports the outcome of [handled], or the error before it. *)
Definition finish_request (job : LeasedJob) (completionNow : time) (handled : handler_answer) : (FinishRequest * RunResult) + (RunResult * WorkerError) :=
  let j := lj_Job job in
  let result outcome code retryAt := MkRunResult outcome (jb_JobID j) (jb_Kind j) (jb_Attempt j) code retryAt in
  match classifyHandlerFailure handled with
  | None => inl (MkFinish FinishCompleted None "" "" completionNow (jb_JobID j) (lj_LeaseToken job), result OutcomeCompleted "" None)
  | Some (code, retryable) =>
      let finish state retryAt := MkFinish state retryAt code (failureDigest code) completionNow (jb_JobID j) (lj_LeaseToken job) in
      if retryable && (jb_Attempt j <? jb_MaxAttempts j) then
        match su_jitter su with
        | None => inr (result OutcomeNone code None, ErrDependency)
        | Some jitter =>
            match backoff_Delay (wc_Backoff config) (jb_Attempt j) jitter with
            | None => inr (result OutcomeNone code None, ErrInvalidBackoff)
            | Some delay =>
                let retryAt := postgresTime (completionNow + delay) in
                inl (finish FinishRetry (Some retryAt), result OutcomeRetryScheduled code (Some retryAt))
            end
        end
      else inl (finish FinishDead None, result OutcomeDeadLettered code None)
  end.

(** The part of [RunOnce] after the lease. *)
Definition run_leased (job : LeasedJob) (leaseRequest : LeaseRequest) : list call * (RunResult * option WorkerError) :=
  let j := lj_Job job in
  let result := MkRunResult OutcomeNone (jb_JobID j) (jb_Kind j) (jb_Attempt j) "" None in
  if negb (validateLeasedJob job leaseRequest) then ([], (result, Some ErrInvalidLease))
  else if isDispatch (jb_Kind j) then ([], (result, Some ErrForbiddenJob))
  else
    let handled := invoke registry (jb_Kind j) (su_handler su) in
    let calls := if bool_decide (jb_Kind j ∈ registry) then [CallHandler j] else [] in
    if su_done su then (calls, (result, Some ErrCancelled))
    else
      let completionNow := postgresTime (su_completionNow su) in
      if su_handlerDone su || negb (Before completionNow (lj_LeaseExpiresAt job)) then
        (calls, (MkRunResult OutcomeLeaseLost (jb_JobID j) (jb_Kind j) (jb_Attempt j) "" None, Some ErrLeaseLost))
      else
        match finish_request job completionNow handled with
        | inr (result, err) => (calls, (result, Some err))
        | inl (finish, result) =>
            (calls ++ [CallFinish finish],
             match su_finish su with
             | None => (result, Some ErrDependency)
             | Some true => (result, None)
             | Some false => (MkRunResult OutcomeLeaseLost (rr_JobID result) (rr_Kind result) (rr_Attempt result) (rr_FailureCode result) (rr_RetryAt result), Some ErrLeaseLost)
             end)
        end.

(** [RunOnce]: the calls it makes, its result and its error. *)
Definition RunOnce : list call * (RunResult * option WorkerError) :=
  if su_doneAtGate su then ([], (zero_result, Some ErrCancelled))
  else
    let now := postgresTime (su_now su) in
    match su_token su with
    | None => ([], (zero_result, Some ErrDependency))
    | Some token =>
        if negb (validUUIDV4 token) then ([], (zero_result, Some ErrDependency))
        else
          let leaseRequest := MkLeaseRequest now token (wc_LeaseOwner config) (now + wc_LeaseDuration config) in
          match su_lease su with
          | None => ([CallLease leaseRequest], (zero_result, Some ErrDependency))
          | Some None => ([CallLease leaseRequest], (MkRunResult OutcomeNoJob "" "" 0 "" None, None))
          | Some (Some job) => let '(calls, answer) := run_leased job leaseRequest in (CallLease leaseRequest :: calls, answer)
          end
    end.
End runner.

(** What [Run] does after one [RunOnce]: stop quietly, stop with the error, go on at
    once, or wait for the poll interval first. *)
Inductive run_next := StopQuietly | StopWith (err : WorkerError) | GoOn | Poll.

Definition run_after (done : bool) (answer : RunResult * option WorkerError) : run_next :=
  match answer.2 with
  | Some err => if done then StopQuietly else match err with ErrLeaseLost => GoOn | err => StopWith err end
  | None => match rr_Outcome answer.1 with OutcomeNoJob => Poll | _ => GoOn end
  end.
