(* ===== verification/WorkerSpec.v ===== *)
(** * What the generic worker guarantees

    The backoff stays within its bounds and its loop ends; the runner calls a handler
    only for a valid lease of a kind it owns, and reports at most one outcome, under
    the lease and before it expires. *)

From S2P Require Import Prelude GoStrings Regex Sha256 GoTime Detection SignalContract Session SessionSpec Worker.
Local Open Scope Z_scope.

(** ** Backoff *)

(** The exponential delay of an attempt, capped. *)
Definition exponential (p : BackoffPolicy) (attempt : Z) : duration := Z.min (bo_MaxDelay p) (bo_BaseDelay p * 2 ^ (attempt - 1)).

Lemma delay_loop_value fuel p attempt current delay : 0 < delay <= bo_MaxDelay p → bo_MaxDelay p < delay * 2 ^ Z.of_nat fuel → 1 <= current <= attempt →
  delay_loop fuel p attempt current delay = Some (Z.min (bo_MaxDelay p) (delay * 2 ^ (attempt - current))).
Proof.
  revert current delay. induction fuel as [|f IH]; intros current delay Hd Hf Hc; cbn [delay_loop].
  - change (2 ^ Z.of_nat 0) with 1 in Hf. lia.
  - destruct (Z.ltb_spec current attempt) as [Hlt|Hge]; cbn [andb].
    2:{ replace (attempt - current) with 0 by lia. rewrite Z.pow_0_r. f_equal. lia. }
    assert (Hp : 2 ^ (attempt - current) = 2 * 2 ^ (attempt - (current + 1))).
    { replace (attempt - current) with (Z.succ (attempt - (current + 1))) by lia. apply Z.pow_succ_r. lia. }
    assert (1 <= 2 ^ (attempt - (current + 1))) by (change 1 with (2 ^ 0); apply Z.pow_le_mono_r; lia).
    destruct (Z.ltb_spec delay (bo_MaxDelay p)) as [Hm|Hm]; [|rewrite Hp; f_equal; nia].
    destruct (Z.ltb_spec (bo_MaxDelay p / 2) delay) as [Hh|Hh].
    + assert (bo_MaxDelay p < 2 * delay) by (pose proof (Z.mul_succ_div_gt (bo_MaxDelay p) 2); lia). rewrite Hp. f_equal. nia.
    + assert (2 * delay <= bo_MaxDelay p) by (pose proof (Z.mul_div_le (bo_MaxDelay p) 2); lia). rewrite IH.
      * f_equal. rewrite Hp. f_equal. lia.
      * lia.
      * rewrite Nat2Z.inj_succ, Z.pow_succ_r in Hf by lia. lia.
      * lia.
Qed.

Lemma backoff_Delay_value p attempt jitter : 0 < bo_BaseDelay p <= bo_MaxDelay p → bo_MaxDelay p < 2 ^ 63 → 1 <= attempt →
  let exp := exponential p attempt in let floor := if exp =? 1 then 1 else exp / 2 in
  0 < exp ∧ backoff_Delay p attempt jitter = Some (floor + jitter mod (exp - floor + 1)).
Proof.
  intros Hb Hm Ha. cbv zeta. assert (He : 0 < exponential p attempt).
  { unfold exponential. assert (0 < 2 ^ (attempt - 1)) by (apply Z.pow_pos_nonneg; lia). nia. }
  split; [done|]. unfold backoff_Delay, backoff_validate. assert (Hv : (bo_BaseDelay p <=? 0) = false ∧ (bo_MaxDelay p <=? 0) = false ∧ (bo_MaxDelay p <? bo_BaseDelay p) = false) by lia. destruct Hv as (-> & -> & ->). cbn [orb negb].
  rewrite (proj2 (Z.ltb_ge attempt 1)) by lia. rewrite delay_loop_value by (change (2 ^ Z.of_nat 64) with (2 ^ 64); lia).
  cbn [mbind option_bind]. fold (exponential p attempt). assert (exponential p attempt <= bo_MaxDelay p) by (unfold exponential; lia).
  rewrite (proj2 (Z.ltb_ge (bo_MaxDelay p) (exponential p attempt))) by lia. generalize dependent (exponential p attempt). intros e He He2.
  destruct (Z.eqb_spec e 1) as [->|Hne]; [change (Some 1 = Some (1 + jitter mod 1)); by rewrite Z.mod_1_r|].
  assert (0 < e / 2 < e) by (split; [apply Z.div_str_pos; lia|apply Z.div_lt; lia]).
  rewrite (proj2 (Z.eqb_neq (e / 2) 0)) by lia. rewrite (proj2 (Z.eqb_neq (e - e / 2) 0)) by lia. unfold u64. by rewrite (Z.mod_small (e - e / 2 + 1)) by lia.
Qed.

(** ** Lease tokens *)

Lemma hex_of_bytes_two a b : chars (hex_of_bytes [a; b]) = [hex_digit (a / 16); hex_digit (a mod 16); hex_digit (b / 16); hex_digit (b mod 16)].
Proof. unfold hex_of_bytes. by rewrite chars_implode. Qed.

Lemma version_byte b : is_byte b → is_byte (Z.lor (Z.land b 15) 64) ∧ Z.lor (Z.land b 15) 64 / 16 = 4.
Proof.
  intros Hb. unfold is_byte in *. assert (Hall : forallb (λ b, let c := Z.lor (Z.land b 15) 64 in (0 <=? c) && (c <? 256) && (c / 16 =? 4)) (map Z.of_nat (seq 0 256)) = true) by (vm_compute; reflexivity).
  rewrite forallb_forall in Hall. specialize (Hall b). cbv zeta in Hall. rewrite !andb_true_iff, Z.leb_le, Z.ltb_lt, Z.eqb_eq in Hall. destruct Hall as [[? ?] ?]; [|split; lia].
  apply in_map_iff. exists (Z.to_nat b). split; [lia|]. apply in_seq. lia.
Qed.

Lemma variant_byte b : is_byte b → is_byte (Z.lor (Z.land b 63) 128) ∧ 8 <= Z.lor (Z.land b 63) 128 / 16 <= 11.
Proof.
  intros Hb. unfold is_byte in *. assert (Hall : forallb (λ b, let c := Z.lor (Z.land b 63) 128 in (0 <=? c) && (c <? 256) && (8 <=? c / 16) && (c / 16 <=? 11)) (map Z.of_nat (seq 0 256)) = true) by (vm_compute; reflexivity).
  rewrite forallb_forall in Hall. specialize (Hall b). cbv zeta in Hall. rewrite !andb_true_iff, !Z.leb_le, Z.ltb_lt in Hall. destruct Hall as [[[? ?] ?] ?]; [|split; lia].
  apply in_map_iff. exists (Z.to_nat b). split; [lia|]. apply in_seq. lia.
Qed.

Lemma validUUIDV4_iff value : validUUIDV4 value = true ↔ match_string uuid_pattern value = true ∧ chars value !! 14%nat = Some "4"%char
  ∧ ∃ c, c ∈ ["8"; "9"; "a"; "b"]%char ∧ chars value !! 19%nat = Some c.
Proof.
  unfold validUUIDV4. rewrite !andb_true_iff, bool_decide_eq_true, existsb_exists. setoid_rewrite bool_decide_eq_true. setoid_rewrite list_elem_of_In. tauto.
Qed.

Lemma variant_digit d : 8 <= d <= 11 → hex_digit d ∈ ["8"; "9"; "a"; "b"]%char.
Proof. intros H. assert (d = 8 ∨ d = 9 ∨ d = 10 ∨ d = 11) as [->|[->|[->| ->]]] by lia; by repeat constructor. Qed.

Lemma uuidV4From_valid value : length value = 16%nat → Forall is_byte value → validUUIDV4 (uuidV4From value) = true.
Proof.
  intros Hl Hb. do 16 (destruct value as [|? value]; [done|]). destruct value; [|done].
  repeat match goal with H : Forall _ (_ :: _) |- _ => apply Forall_cons in H as [? H] end.
  apply validUUIDV4_iff. unfold uuidV4From, set_byte. cbn [alter list_alter]. split.
  { apply uuid_layout; [reflexivity|]. repeat (constructor; [first [assumption|by apply version_byte|by apply variant_byte]|]). constructor. }
  cbn [take drop]. rewrite !chars_app, !hex_of_bytes_two. unfold hex_of_bytes at 1 3. rewrite chars_implode. change (chars "-") with ["-"%char]. cbn [flat_map app lookup list_lookup].
  split; [f_equal; match goal with |- hex_digit (Z.lor (Z.land ?b 15) 64 / 16) = _ => rewrite (proj2 (version_byte b ltac:(assumption))) end; reflexivity|]. eexists. split; [|reflexivity]. by apply variant_digit, variant_byte.
Qed.

(** ** The runner *)

Section runner.
Context (config : RunnerConfig) (registry : gset string) (su : surroundings).

(** What a lease must be for the runner to act on it. *)
Record good_lease (job : LeasedJob) (request : LeaseRequest) : Prop := MkGoodLease {
  gl_id : match_string uuid_pattern (jb_JobID (lj_Job job)) = true;
  gl_token : lj_LeaseToken job = lq_LeaseToken request;
  gl_owner : lj_LeaseOwner job = lq_LeaseOwner request;
  gl_state : lj_State job = "leased";
  gl_span : Sub (lj_LeaseExpiresAt job) (lj_LeaseGrantedAt job) = Sub (lq_LeaseExpiresAt request) (lq_Now request);
  gl_attempt : 1 <= jb_Attempt (lj_Job job) <= jb_MaxAttempts (lj_Job job);
  gl_kind : isDispatch (jb_Kind (lj_Job job)) = false
}.

Lemma validateLeasedJob_good job request : validateLeasedJob job request = true → isDispatch (jb_Kind (lj_Job job)) = false → good_lease job request.
Proof.
  unfold validateLeasedJob. cbv zeta. rewrite negb_true_iff, !orb_false_iff, !negb_false_iff. intros H Hd. destruct_and! H.
  repeat match goal with H : String.eqb _ _ = true |- _ => apply String.eqb_eq in H end. constructor; try done; try lia.
Qed.

(** The outcome a handler's answer leads to. *)
Inductive outcome_of (job : Job) (handled : handler_answer) (now : time) : FinishState → option time → string → Prop :=
  | completed : handled = HandlerOk → outcome_of job handled now FinishCompleted None ""
  | retried code jitter delay : classifyHandlerFailure handled = Some (code, true) → jb_Attempt job < jb_MaxAttempts job →
      su_jitter su = Some jitter → backoff_Delay (wc_Backoff config) (jb_Attempt job) jitter = Some delay →
      outcome_of job handled now FinishRetry (Some (postgresTime (now + delay))) code
  | dead code retryable : classifyHandlerFailure handled = Some (code, retryable) → (retryable = false ∨ jb_MaxAttempts job <= jb_Attempt job) →
      outcome_of job handled now FinishDead None code.

Lemma classify_none handled : classifyHandlerFailure handled = None → handled = HandlerOk.
Proof. destruct handled as [|[[code retryable]|]| |]; cbn; [done| |done..]. by case_match. Qed.

Lemma finish_request_outcome job now handled finish result : finish_request config su job now handled = inl (finish, result) →
  outcome_of (lj_Job job) handled now (fq_State finish) (fq_RetryAt finish) (fq_ErrorCode finish)
  ∧ fq_Now finish = now ∧ fq_JobID finish = jb_JobID (lj_Job job) ∧ fq_LeaseToken finish = lj_LeaseToken job
  ∧ fq_ErrorDigest finish = (if decide (fq_State finish = FinishCompleted) then "" else failureDigest (fq_ErrorCode finish)).
Proof.
  unfold finish_request. cbv zeta. destruct (classifyHandlerFailure handled) as [[code retryable]|] eqn:Ec.
  2:{ intros [= <- <-]. cbn [fq_State fq_RetryAt fq_ErrorCode fq_Now fq_JobID fq_LeaseToken fq_ErrorDigest]. split_and!; try done. apply completed. by apply classify_none. }
  destruct (retryable && _) eqn:Er.
  - destruct (su_jitter su) as [jitter|] eqn:Ej; [|done]. destruct (backoff_Delay _ _ _) as [delay|] eqn:Ed; [|done].
    intros [= <- <-]. cbn [fq_State fq_RetryAt fq_ErrorCode fq_Now fq_JobID fq_LeaseToken fq_ErrorDigest]. apply andb_true_iff in Er as [-> Hlt].
    split_and!; try done. apply retried with (1 := Ec) (3 := Ej) (4 := Ed). lia.
  - intros [= <- <-]. cbn [fq_State fq_RetryAt fq_ErrorCode fq_Now fq_JobID fq_LeaseToken fq_ErrorDigest]. split_and!; try done.
    apply (dead _ _ _ _ retryable Ec). destruct retryable; [right|by left]. cbn [andb] in Er. lia.
Qed.
(** One report, made under a good lease: the calls are the lease, the handler when the
    kind has one, and the report, which carries the lease's token. *)
Record reported (calls : list call) (finish : FinishRequest) (job : LeasedJob) (request : LeaseRequest) : Prop := MkReported {
  rp_calls : calls = CallLease request :: (if bool_decide (jb_Kind (lj_Job job) ∈ registry) then [CallHandler (lj_Job job)] else []) ++ [CallFinish finish];
  rp_lease : good_lease job request;
  rp_request : validUUIDV4 (lq_LeaseToken request) = true ∧ lq_LeaseOwner request = wc_LeaseOwner config
    ∧ lq_LeaseExpiresAt request = lq_Now request + wc_LeaseDuration config;
  rp_identity : fq_JobID finish = jb_JobID (lj_Job job) ∧ fq_LeaseToken finish = lq_LeaseToken request;
  rp_time : fq_Now finish = postgresTime (su_completionNow su) ∧ fq_Now finish < lj_LeaseExpiresAt job ∧ su_done su = false ∧ su_handlerDone su = false;
  rp_outcome : outcome_of (lj_Job job) (invoke registry (jb_Kind (lj_Job job)) (su_handler su)) (fq_Now finish) (fq_State finish) (fq_RetryAt finish) (fq_ErrorCode finish);
  rp_digest : fq_ErrorDigest finish = if decide (fq_State finish = FinishCompleted) then "" else failureDigest (fq_ErrorCode finish)
}.

Lemma run_leased_reports job request finish : CallFinish finish ∈ (run_leased config registry su job request).1 →
  validUUIDV4 (lq_LeaseToken request) = true → lq_LeaseOwner request = wc_LeaseOwner config → lq_LeaseExpiresAt request = lq_Now request + wc_LeaseDuration config →
  reported (CallLease request :: (run_leased config registry su job request).1) finish job request.
Proof.
  intros H Ht Ho He. revert H. unfold run_leased. cbv zeta. set (kindOk := bool_decide _).
  assert (Hno : ∀ l, CallFinish finish ∈ (if kindOk then [CallHandler (lj_Job job)] else []) ++ l → CallFinish finish ∈ l).
  { intros l. destruct kindOk; cbn [app]; [|done]. rewrite elem_of_cons. by intros [[=]|?]. }
  assert (Hnone : CallFinish finish ∉ if kindOk then [CallHandler (lj_Job job)] else []).
  { intros Hin. rewrite <- (app_nil_r (if kindOk then _ else _)) in Hin. apply Hno in Hin. by rewrite elem_of_nil in Hin. }
  destruct (validateLeasedJob job request) eqn:Ev; cbn [negb fst]; [|by rewrite elem_of_nil].
  destruct (isDispatch _) eqn:Ed; cbn [fst]; [by rewrite elem_of_nil|].
  destruct (su_done su) eqn:Esd; cbn [fst].
  { by intros ?%Hnone. }
  destruct (su_handlerDone su) eqn:Ehd; cbn [orb].
  { by intros ?%Hnone. }
  destruct (Before _ _) eqn:Eb; cbn [negb fst].
  2:{ by intros ?%Hnone. }
  destruct (finish_request config su job _ _) as [[fin result]|[result err]] eqn:Ef; cbn [fst].
  2:{ by intros ?%Hnone. }
  intros Hin. apply Hno, list_elem_of_singleton in Hin. injection Hin as <-.
  destruct (finish_request_outcome _ _ _ _ _ Ef) as (Hout & Hnow & Hid & Htok & Hdig). pose proof (validateLeasedJob_good _ _ Ev Ed) as Hgood.
  unfold Before in Eb. constructor; try done.
  - by rewrite Hid, Htok, (gl_token _ _ Hgood).
  - rewrite Hnow. split_and!; try done. lia.
  - by rewrite Hnow.
Qed.

Lemma RunOnce_reports finish : CallFinish finish ∈ (RunOnce config registry su).1 →
  ∃ job request, su_lease su = Some (Some job) ∧ reported (RunOnce config registry su).1 finish job request.
Proof.
  unfold RunOnce. cbv zeta. destruct (su_doneAtGate su); cbn [fst]; [by rewrite elem_of_nil|].
  destruct (su_token su) as [token|]; cbn [fst]; [|by rewrite elem_of_nil].
  destruct (validUUIDV4 token) eqn:Et; cbn [negb fst]; [|by rewrite elem_of_nil].
  destruct (su_lease su) as [[job|]|] eqn:El; cbn [fst]; [|by rewrite elem_of_cons, elem_of_nil; intros [[=]|[]]..].
  set (request := MkLeaseRequest _ _ _ _). intros Hin. exists job, request. split; [done|].
  pose proof (run_leased_reports job request finish) as Hr. destruct (run_leased _ _ _ _ _) as [calls answer]. cbn [fst] in *.
  rewrite elem_of_cons in Hin. destruct Hin as [[=]|Hin]. by apply Hr.
Qed.
End runner.

(** ** The store accepts what the runner sends *)

Lemma config_iff c : runner_config_validate c = true ↔
  match_string asciiIDPattern (wc_LeaseOwner c) = true ∧ 0 < wc_LeaseDuration c <= MaxLeaseDuration ∧ 0 < wc_PollInterval c
  ∧ 0 < bo_BaseDelay (wc_Backoff c) <= bo_MaxDelay (wc_Backoff c).
Proof. unfold runner_config_validate, backoff_validate. destruct (match_string _ _); cbn [negb orb]; [|naive_solver]. case_match; rewrite ?negb_true_iff, ?orb_false_iff; lia. Qed.

Lemma classified_code handled code retryable : classifyHandlerFailure handled = Some (code, retryable) → match_string asciiIDPattern code = true.
Proof. destruct handled as [|[[c r]|]| |]; cbn; [done| |by intros [= <- <-]..]. case_match; [by intros [= <- <-]|]. by intros [= <- <-]. Qed.

Lemma failure_evidence handled code retryable : classifyHandlerFailure handled = Some (code, retryable) → validFailureEvidence code (failureDigest code) = true.
Proof. intros H. unfold validFailureEvidence. rewrite (classified_code _ _ _ H). apply digest_matches. Qed.

Lemma delay_nonneg p attempt jitter delay : backoff_Delay p attempt jitter = Some delay → bo_MaxDelay p < 2 ^ 63 → 0 <= delay.
Proof.
  intros H Hm. destruct (backoff_validate p) eqn:Ev; [|unfold backoff_Delay in H; by rewrite Ev in H].
  destruct (Z.ltb_spec attempt 1) as [Ha|Ha]; [unfold backoff_Delay in H; rewrite Ev in H; cbn [negb] in H; by rewrite (proj2 (Z.ltb_lt _ _) Ha) in H|].
  unfold backoff_validate in Ev. rewrite negb_true_iff, !orb_false_iff in Ev. pose proof (backoff_Delay_value p attempt jitter) as Hv. cbv zeta in Hv. destruct Hv as [He Hv]; [lia..|].
  rewrite Hv in H. injection H as <-. set (e := exponential p attempt) in *. set (f := if e =? 1 then 1 else e / 2).
  assert (0 <= f <= e). { subst f. destruct (Z.eqb_spec e 1); [lia|]. split; [apply Z.div_pos; lia|apply Z.div_le_upper_bound; lia]. }
  pose proof (Z.mod_pos_bound jitter (e - f + 1)). lia.
Qed.

Lemma outcome_accepted config su job handled now finish : outcome_of config su job handled now (fq_State finish) (fq_RetryAt finish) (fq_ErrorCode finish) →
  bo_MaxDelay (wc_Backoff config) < 2 ^ 63 → now mod Microsecond = 0 → now ≠ 0 →
  fq_Now finish = now → match_string uuid_pattern (fq_JobID finish) = true → validUUIDV4 (fq_LeaseToken finish) = true →
  fq_ErrorDigest finish = (if decide (fq_State finish = FinishCompleted) then "" else failureDigest (fq_ErrorCode finish)) →
  validateFinishRequest finish = true.
Proof.
  intros Ho Hm Hal Hz Hn Hid Ht Hd. unfold validateFinishRequest. rewrite Hn, Hid, Ht. unfold IsZero. rewrite (proj2 (Z.eqb_neq now 0)) by done. cbn [orb negb].
  destruct finish as [state retryAt code dig fnow fid ftok]. cbn [fq_State fq_RetryAt fq_ErrorCode fq_ErrorDigest] in *. subst dig.
  destruct Ho as [->|code jitter delay Hc Hlt Hj Hdel|code retryable Hc Hx].
  - reflexivity.
  - rewrite decide_False by done. rewrite (failure_evidence _ _ _ Hc). apply negb_true_iff, orb_false_iff. split; [|done].
    unfold Before, postgresTime. apply Z.ltb_ge. apply delay_nonneg in Hdel; [|done]. rewrite <- (Truncate_aligned now) at 1 by done. apply Truncate_mono. lia.
  - rewrite decide_False by done. by rewrite (failure_evidence _ _ _ Hc).
Qed.

Lemma lease_accepted config su request : runner_config_validate config = true → Microsecond <= su_now su →
  lq_Now request = postgresTime (su_now su) → validUUIDV4 (lq_LeaseToken request) = true → lq_LeaseOwner request = wc_LeaseOwner config →
  lq_LeaseExpiresAt request = lq_Now request + wc_LeaseDuration config → validateLeaseRequest request = true.
Proof.
  intros (Hown & Hdur & _)%config_iff Hnow Hn Ht Ho He. unfold validateLeaseRequest, IsZero, After, Sub. rewrite Ht, Ho, Hown, He.
  assert (0 < lq_Now request). { rewrite Hn. unfold postgresTime. by apply Truncate_micro. }
  unfold MaxLeaseDuration, Second in *. rewrite negb_true_iff, !orb_false_iff. split_and!; try done; lia.
Qed.

(** The calls of a run, in general: a lease, a handler of the registry, a report. *)
Lemma run_leased_shape config registry su job request : ∃ handled finishes,
  (run_leased config registry su job request).1 = (CallHandler <$> handled) ++ (CallFinish <$> finishes)
  ∧ Forall (λ j, isDispatch (jb_Kind j) = false ∧ jb_Kind j ∈ registry) handled.
Proof.
  unfold run_leased. cbv zeta. destruct (validateLeasedJob _ _); cbn [negb fst]; [|by exists [], []].
  destruct (isDispatch _) eqn:Ed; cbn [fst]; [by exists [], []|].
  set (handled := if bool_decide (jb_Kind (lj_Job job) ∈ registry) then [lj_Job job] else []).
  replace (if bool_decide _ then [CallHandler _] else []) with (CallHandler <$> handled) by (subst handled; by case_match).
  assert (Hh : Forall (λ j, isDispatch (jb_Kind j) = false ∧ jb_Kind j ∈ registry) handled).
  { subst handled. case_bool_decide; [|constructor]. by apply Forall_singleton. }
  clearbody handled. exists handled. destruct (su_done su); cbn [fst]; [exists []; by rewrite app_nil_r|].
  destruct (su_handlerDone su || _); cbn [fst]; [exists []; by rewrite app_nil_r|].
  destruct (finish_request _ _ _ _ _) as [[fin result]|[result err]]; cbn [fst]; [by exists [fin]|exists []; by rewrite app_nil_r].
Qed.

Lemma RunOnce_shape config registry su : ∃ leases handled finishes,
  (RunOnce config registry su).1 = (CallLease <$> leases) ++ (CallHandler <$> handled) ++ (CallFinish <$> finishes)
  ∧ Forall (λ q, lq_Now q = postgresTime (su_now su) ∧ validUUIDV4 (lq_LeaseToken q) = true ∧ lq_LeaseOwner q = wc_LeaseOwner config
      ∧ lq_LeaseExpiresAt q = lq_Now q + wc_LeaseDuration config) leases
  ∧ Forall (λ j, isDispatch (jb_Kind j) = false ∧ jb_Kind j ∈ registry) handled.
Proof.
  unfold RunOnce. cbv zeta. destruct (su_doneAtGate su); cbn [fst]; [by exists [], [], []|].
  destruct (su_token su) as [token|]; cbn [fst]; [|by exists [], [], []].
  destruct (validUUIDV4 token) eqn:Et; cbn [negb fst]; [|by exists [], [], []].
  set (request := MkLeaseRequest _ _ _ _). exists [request]. destruct (su_lease su) as [[job|]|]; cbn [fst]; [|exists [], []; split; [done|by rewrite Forall_singleton]..].
  destruct (run_leased_shape config registry su job request) as (handled & finishes & Hc & Hh). destruct (run_leased _ _ _ _ _) as [calls answer].
  cbn [fst] in *. subst calls. exists handled, finishes. by rewrite Forall_singleton.
Qed.

Lemma RunOnce_leases config registry su request : CallLease request ∈ (RunOnce config registry su).1 →
  lq_Now request = postgresTime (su_now su) ∧ validUUIDV4 (lq_LeaseToken request) = true ∧ lq_LeaseOwner request = wc_LeaseOwner config
  ∧ lq_LeaseExpiresAt request = lq_Now request + wc_LeaseDuration config.
Proof.
  destruct (RunOnce_shape config registry su) as (leases & handled & finishes & -> & Hl & _). rewrite !elem_of_app, !list_elem_of_fmap.
  intros [(q & [= ->] & Hin)|[(q & [=] & _)|(q & [=] & _)]]. rewrite Forall_forall in Hl. by apply Hl.
Qed.

Lemma RunOnce_handles config registry su job : CallHandler job ∈ (RunOnce config registry su).1 → isDispatch (jb_Kind job) = false ∧ jb_Kind job ∈ registry.
Proof.
  destruct (RunOnce_shape config registry su) as (leases & handled & finishes & -> & _ & Hh). rewrite !elem_of_app, !list_elem_of_fmap.
  intros [(q & [=] & _)|[(q & [= ->] & Hin)|(q & [=] & _)]]. rewrite Forall_forall in Hh. by apply Hh.
Qed.

Lemma finish_accepted config registry su finish : runner_config_validate config = true → bo_MaxDelay (wc_Backoff config) < 2 ^ 63 →
  Microsecond <= su_completionNow su → CallFinish finish ∈ (RunOnce config registry su).1 → validateFinishRequest finish = true.
Proof.
  intros Hc Hm Hnow Hin. destruct (RunOnce_reports _ _ _ _ Hin) as (job & request & _ & [_ Hg Hq [Hid Htok] [Hn _] Ho Hd]).
  eapply outcome_accepted; try done.
  - rewrite Hn. apply Truncate_micro.
  - rewrite Hn. unfold postgresTime. pose proof (proj2 (proj2 (Truncate_micro (su_completionNow su))) Hnow). lia.
  - rewrite Hid. apply Hg.
  - rewrite Htok. apply Hq.
Qed.

(** ** A sample run *)

Definition sample_worker : RunnerConfig := worker_DefaultConfig "worker-1".
Definition sample_now : time := 63900000000 * Second.
Definition sample_token : string := uuidV4From (map Z.of_nat (seq 0 16)).
Definition sample_job : LeasedJob :=
  MkLeasedJob (MkJob "00000000-0000-4000-8000-000000000001" "detect" "incident" "00000000-0000-4000-8000-000000000002" 1 2 5) "leased" sample_now sample_token
    "worker-1" sample_now (sample_now + 30 * Second).

(** The handler failed, and may be retried. *)
Definition sample_surroundings : surroundings :=
  MkSurroundings false sample_now (Some sample_token) (Some (Some sample_job)) (HandlerFailure (Some ("store_busy", true))) false false (sample_now + 5 * Second)
    (Some 12345678901234) (Some true).

Definition sample_finish : FinishRequest := Eval vm_compute in
  match (RunOnce sample_worker {["detect"]} sample_surroundings).1 with [_; _; CallFinish finish] => finish | _ => MkFinish FinishDead None "" "" 0 "" "" end.

Example sample_run_retries : (RunOnce sample_worker {["detect"]} sample_surroundings).1 !! 2%nat = Some (CallFinish sample_finish) ∧ fq_State sample_finish = FinishRetry.
Proof. split; vm_compute; reflexivity. Qed.

(** ** The claims *)

(** Backoff: for a valid policy and an attempt from one on, the doubling loop ends and
    the delay is the exponential delay of the attempt, capped by the maximum, with
    equal jitter: between half of it and all of it, and positive. *)
Theorem backoff_exact p attempt jitter : 0 < bo_BaseDelay p <= bo_MaxDelay p → bo_MaxDelay p < 2 ^ 63 → 1 <= attempt →
  ∃ delay, backoff_Delay p attempt jitter = Some delay ∧ 0 < delay <= bo_MaxDelay p
    ∧ exponential p attempt / 2 <= delay <= exponential p attempt.
Proof.
  intros Hb Hm Ha. destruct (backoff_Delay_value p attempt jitter Hb Hm Ha) as [He ->]. eexists. split; [reflexivity|].
  assert (exponential p attempt <= bo_MaxDelay p) by (unfold exponential; lia). set (e := exponential p attempt) in *.
  destruct (Z.eqb_spec e 1) as [E|E]; [rewrite E; change (1 - 1 + 1) with 1; rewrite Z.mod_1_r; change (1 / 2) with 0; lia|].
  assert (0 < e / 2 < e) by (split; [apply Z.div_str_pos; lia|apply Z.div_lt; lia]). pose proof (Z.mod_pos_bound jitter (e - e / 2 + 1)). lia.
Qed.

Lemma backoff_exact_witness : ∃ delay, backoff_Delay (MkBackoff Second Minute) 4 99 = Some delay ∧ 0 < delay <= Minute
  ∧ exponential (MkBackoff Second Minute) 4 / 2 <= delay <= exponential (MkBackoff Second Minute) 4.
Proof. apply (backoff_exact (MkBackoff Second Minute) 4 99); unfold Minute, Second; cbn; lia. Defined.

(** C25. The runner: a run reports at most one outcome, and only after a lease that answers
    its own request (token, owner, span, a uuid, an attempt within bounds) for a kind
    that is not a dispatch; the handler is called at most once, before the report; the
    report carries the lease's token, is made before the lease expires and while no
    context is done, and its state is the one the handler's answer leads to: completed,
    retried later when the failure is retryable and attempts are left, dead otherwise. *)
Theorem runner_reports_under_lease config registry su finish : CallFinish finish ∈ (RunOnce config registry su).1 →
  ∃ job request, su_lease su = Some (Some job) ∧ reported config registry su (RunOnce config registry su).1 finish job request.
Proof. apply RunOnce_reports. Qed.

Lemma runner_reports_under_lease_witness : ∃ job request, su_lease sample_surroundings = Some (Some job)
  ∧ reported sample_worker {["detect"]} sample_surroundings (RunOnce sample_worker {["detect"]} sample_surroundings).1 sample_finish job request.
Proof. apply (runner_reports_under_lease sample_worker {["detect"]} sample_surroundings sample_finish). apply (list_elem_of_lookup_2 _ 2), sample_run_retries. Defined.

(** C33. Runner and store together: with a valid configuration and clocks past the zero
    time, every request the runner sends passes the store's own guards, so that the
    store's answer is the database's, and only kinds of the registry reach a handler. *)
Theorem runner_requests_accepted config registry su request : runner_config_validate config = true → bo_MaxDelay (wc_Backoff config) < 2 ^ 63 →
  Microsecond <= su_now su → Microsecond <= su_completionNow su → request ∈ (RunOnce config registry su).1 →
  match request with
  | CallLease lease => ∀ row, store_Lease lease row = row
  | CallHandler job => isDispatch (jb_Kind job) = false ∧ jb_Kind job ∈ registry
  | CallFinish finish => validateFinishRequest finish = true ∧ store_Finish finish (Some (Some (fq_JobID finish, finish_text (fq_State finish)))) = Some true
  end.
Proof.
  intros Hc Hm Hn Hcn Hin. destruct request as [lease|job|finish].
  - intros row. destruct (RunOnce_leases _ _ _ _ Hin) as (? & ? & ? & ?). unfold store_Lease. by rewrite (lease_accepted config su lease).
  - by apply RunOnce_handles in Hin.
  - assert (Hv : validateFinishRequest finish = true) by (by apply (finish_accepted config registry su)). split; [done|]. unfold store_Finish. rewrite Hv, !String.eqb_refl. done.
Qed.

Lemma runner_requests_accepted_witness : validateFinishRequest sample_finish = true
  ∧ store_Finish sample_finish (Some (Some (fq_JobID sample_finish, finish_text (fq_State sample_finish)))) = Some true.
Proof.
  apply (runner_requests_accepted sample_worker {["detect"]} sample_surroundings (CallFinish sample_finish)); [vm_compute; reflexivity|vm_compute; reflexivity|vm_compute; discriminate..|].
  apply (list_elem_of_lookup_2 _ 2), sample_run_retries.
Defined.
