(* ===== verification/ValidationWorker.v ===== *)
(** * The validation worker ([internal/validationworker])

    The six gates in their order: the structured output, the command grammar, the
    consistency of policy, evidence and command, the protected networks, the owned
    schema with the syntax check, and the historical impact.  [evaluate] is the whole
    function; what the syntax checker answers is an argument of the runtime, and
    Unicode normalisation is a parameter. *)

From S2P Require Import Prelude GoSort GoStrings Regex Sha256 GoTime Netip NetPrefix Json JsonTree CanonicalJson Policy ResponsePolicy Detection Executor NftRunner NftValidate NftCheck.
From S2P Require Import Protected Consistency ValidationGates Snapshot History.
Local Open Scope Z_scope.

(** ** Data ([types.go]) *)

Definition MaxHistoricalGatewayRows : Z := 100000.
Definition MaxHistoricalAuthRows : Z := 100000.
Definition ValidationFailureNone : string := "none".
Definition ValidationAuditSucceeded : string := "validation_succeeded".
Definition ValidationAuditRejected : string := "validation_rejected".
Definition ValidationParserVersion : string := "nft-blacklist-parser-v1".
Definition ValidationValidatorVersion : string := "owned-schema-validator-v1".

(** [SignalBinding] has the fields of [SignalEvidenceBinding]. *)
Record EvidenceBinding := MkEvidenceBinding {
  eb_SourceIPv4 : string; eb_ServiceLabel : string; eb_SourceHealthDigest : string; eb_SourceHealthStatus : string; eb_SignalIDs : list string;
  eb_EventIDs : list string; eb_Signals : list SignalEvidenceBinding
}.

Record HistorySnapshot := MkHistorySnapshot {
  hs_Cutoff : localtime; hs_WindowStart : localtime; hs_CoverageComplete : bool; hs_GatewayRecords : list HistoricalGatewayRecord;
  hs_AuthRecords : list HistoricalAuthRecord
}.

Record PreparedSnapshot := MkPrepared {
  ss_ValidationAttemptID : string; ss_PolicyID : string; ss_ValidationID : string; ss_CommandCandidateID : string; ss_AnalysisID : string;
  ss_IncidentID : string; ss_IncidentVersion : Z; ss_GeneratedAt : localtime; ss_EvidenceSnapshotID : string; ss_EvidenceSnapshotDigest : string;
  ss_EvidenceCanonicalBytes : string; ss_AnalysisInputDigest : string; ss_OutputSchemaDigest : string; ss_PromptDigest : string;
  ss_AnalysisOutputDigest : string; ss_GeneratedCommandDigest : string; ss_StructuredOutput : string; ss_PolicyOutput : string;
  ss_CommandCandidateOutput : string; ss_Evidence : EvidenceBinding; ss_History : HistorySnapshot
}.

(** [ValidationState] *)
Definition StateValid : string := "valid".
Definition StateInvalid : string := "invalid".

Record GateRecord := MkGateRecord { gr_Order : Z; gr_Name : string; gr_Passed : bool; gr_ResultCode : string; gr_InputDigest : string; gr_ResultDigest : string }.

Record CandidateRecord := MkCandidateRecord {
  cc_SchemaVersion : string; cc_TargetIPv4 : string; cc_TimeoutToken : string; cc_TTLSeconds : Z; cc_GeneratedBytes : string; cc_GeneratedDigest : string;
  cc_CanonicalBytes : string; cc_CanonicalDigest : string
}.

Record PolicyRecord := MkPolicyRecord {
  pl_SchemaVersion : string; pl_PolicyID : string; pl_PolicyVersion : Z; pl_CanonicalBytes : string; pl_PolicyDigest : string; pl_TargetIPv4 : string;
  pl_TTLSeconds : Z; pl_Rationale : string
}.

Record ValidationRecord := MkValidationRecord {
  vd_CanonicalBytes : string; vd_SnapshotDigest : string; vd_PolicyDigest : string; vd_EvidenceSnapshotDigest : string; vd_AnalysisInputDigest : string;
  vd_AnalysisOutputSchemaDigest : string; vd_PromptDigest : string; vd_GeneratedCandidateDigest : string; vd_CanonicalArtifactDigest : string;
  vd_GrammarVersion : string; vd_ParserVersion : string; vd_ValidatorVersion : string; vd_BaseChainContractRawDigest : string; vd_LiveOwnedSchemaDigest : string;
  vd_ProtectedIPv4StaticDigest : string; vd_ProtectedIPv4EffectiveConfigDigest : string; vd_NFTBinaryDigest : string; vd_NFTVersion : string;
  vd_HistoricalImpactDigest : string; vd_TargetIPv4 : string; vd_TTLSeconds : Z; vd_SourceHealthStatus : string; vd_CreatedAt : localtime; vd_ValidUntil : localtime
}.

Record Mutation := MkWorkerMutation {
  mu_ValidationAttemptID : string; mu_AnalysisID : string; mu_IncidentID : string; mu_IncidentVersion : Z; mu_State : string; mu_FailureCode : string;
  mu_AuditAction : string; mu_EvidenceCanonicalBytes : string; mu_Gates : list GateRecord; mu_Candidate : option CandidateRecord;
  mu_Policy : option PolicyRecord; mu_Validation : option ValidationRecord
}.

(** ** The structured output ([output.go]) *)

Definition timeoutTokenPattern : pattern := candidate_ttlPattern.

Record stagedOutput := MkStaged {
  so_structured : analysisOutput; so_checkedPolicy : CheckedResponsePolicy; so_rationale : string; so_policyForParser : Policy; so_candidate : Candidate
}.

Definition MaxOutputDepth : Z := 16.

(** [decodeStrictJSON]: one document without duplicate names and of bounded depth. *)
Definition decodeStrictJSON {A} (dec : decoder A) (zero : A) (data : string) : option A :=
  if negb (utf8_valid data) then None
  else v ← parse_document (chars data); if negb (consumeJSON MaxOutputDepth 0 v) then None else dec v zero.

(** [utf8.RuneCountInString]: an invalid byte counts as one rune. *)
Fixpoint rune_count (fuel : nat) (l : list ascii) : Z :=
  match fuel, l with
  | S f, _ :: l1 => 1 + match utf8_decode l with Some (_, n) => rune_count f (drop n l) | None => rune_count f l1 end
  | _, _ => 0
  end.

Definition boundedText (value : string) (minimum maximum : Z) : bool :=
  let length := rune_count (length (chars value)) (chars value) in utf8_valid value && (minimum <=? length) && (length <=? maximum).

(** [float64] comparisons on the number as it was written: a decimal rounds to a
    negative float unless it is at least [-2^-1075], and above one only beyond
    [1 + 2^-53] (both ends round to even). *)
Definition decimal_exceeds (n : list ascii) (num den : Z) : bool :=
  let '(whole, fraction, exponent) := number_parts n in
  let mantissa := of_digits (map char_digit (whole ++ fraction)) in
  let scale := exponent - Z.of_nat (length fraction) in
  if 0 <=? scale then num <? mantissa * 10 ^ scale * den else num * 10 ^ (- scale) <? mantissa * den.

Definition is_negative (n : list ascii) : bool := match n with "-"%char :: _ => true | _ => false end.

Definition confidence_ok (n : list ascii) : bool :=
  if is_negative n then negb (decimal_exceeds n 1 (2 ^ 1075)) else negb (decimal_exceeds n (2 ^ 53 + 1) (2 ^ 53)).

Definition validClassification (value : string) : bool :=
  existsb (String.eqb value) ["credential_stuffing"; "brute_force"; "path_scan"; "request_burst"; "mixed"; "unknown"].

(** [validOrderedUUIDs] of this package. *)
Fixpoint uuids_after (previous : string) (values : list string) : bool :=
  match values with
  | [] => true
  | value :: values => if negb (match_string uuid_pattern value) || negb (String.ltb previous value) then false else uuids_after value values
  end.

Definition worker_validOrderedUUIDs (values : list string) (maximum : Z) : bool :=
  if (length values =? 0)%nat || ((0 <? maximum) && (maximum <? Z.of_nat (length values))) then false else uuids_after "" values.

Definition worker_validEvidenceIDs (values : list string) : bool := worker_validOrderedUUIDs values (Z.of_nat MaxEvidenceIDs).

Definition equalPolicyWire (left right : outputPolicy) : bool :=
  String.eqb (op_SchemaVersion left) (op_SchemaVersion right) && String.eqb (op_Action left) (op_Action right) && String.eqb (op_TargetIP left) (op_TargetIP right)
  && (op_TTLSeconds left =? op_TTLSeconds right) && String.eqb (op_Rationale left) (op_Rationale right)
  && equalStringSlices (elements (op_EvidenceIDs left)) (elements (op_EvidenceIDs right)).

Definition equalCandidateWire (left right : outputCandidate) : bool :=
  String.eqb (oc_SchemaVersion left) (oc_SchemaVersion right) && String.eqb (oc_TargetIP left) (oc_TargetIP right) && String.eqb (oc_Timeout left) (oc_Timeout right)
  && String.eqb (oc_Command left) (oc_Command right) && equalStringSlices (elements (oc_EvidenceIDs left)) (elements (oc_EvidenceIDs right)).

Definition zero_output_policy : outputPolicy := MkOutputPolicy "" "" "" 0 nil_slice "".
Definition zero_output_candidate : outputCandidate := MkOutputCandidate "" "" "" nil_slice "".

(** The bounds and the digest of the staged documents. *)
Definition staged_bytes_ok (s : PreparedSnapshot) : bool :=
  negb ((len (ss_StructuredOutput s) <? 2) || (1048576 <? len (ss_StructuredOutput s)) || (len (ss_PolicyOutput s) <? 2) || (64 * 1024 <? len (ss_PolicyOutput s))
        || (len (ss_CommandCandidateOutput s) <? 2) || (64 * 1024 <? len (ss_CommandCandidateOutput s))
        || negb (String.eqb (digest (ss_StructuredOutput s)) (ss_AnalysisOutputDigest s))).

Definition output_head_ok (output : analysisOutput) : bool :=
  String.eqb (ao_SchemaVersion output) AnalysisOutputSchemaV1 && boundedText (ao_IncidentSummary output) 1 1600 && validClassification (ao_Classification output)
  && confidence_ok (ao_Confidence output) && boundedText (ao_Uncertainty output) 0 800 && (length (elements (ao_FalsePositiveFactors output)) <=? 5)%nat
  && worker_validEvidenceIDs (elements (ao_EvidenceIDs output)).

Definition output_policy_schema_ok (output : analysisOutput) : bool :=
  let p := ao_Policy output in
  bool_decide (is_Some (canonical_ipv4 (op_TargetIP p))) && String.eqb (op_SchemaVersion p) PolicySchemaVersion && String.eqb (op_Action p) ActionBlockIP
  && (MinTTLSeconds <=? op_TTLSeconds p) && (op_TTLSeconds p <=? MaxTTLSeconds) && equalStringSlices (elements (op_EvidenceIDs p)) (elements (ao_EvidenceIDs output))
  && boundedText (op_Rationale p) 1 800.

Definition output_candidate_schema_ok (output : analysisOutput) : bool :=
  let c := ao_Candidate output in
  bool_decide (is_Some (canonical_ipv4 (oc_TargetIP c))) && String.eqb (oc_SchemaVersion c) CandidateSchemaVersion
  && String.eqb (oc_TargetIP c) (op_TargetIP (ao_Policy output)) && match_string timeoutTokenPattern (oc_Timeout c)
  && equalStringSlices (elements (oc_EvidenceIDs c)) (elements (ao_EvidenceIDs output)) && boundedText (oc_Command c) 1 MaxGeneratedBytes.

Section worker.
Context (nfc : string → string).

(** The response policy of an output. *)
Definition staged_policy (s : PreparedSnapshot) (output : analysisOutput) : ResponsePolicy :=
  MkResponsePolicy PolicySchemaVersion (ss_PolicyID s) 1 (ss_IncidentID s) (ss_AnalysisID s) (op_Action (ao_Policy output)) (op_TargetIP (ao_Policy output))
    (op_TTLSeconds (ao_Policy output)) (ss_EvidenceSnapshotDigest s) (elements (ao_EvidenceIDs output)) (digest (nfc (op_Rationale (ao_Policy output))))
    (ss_GeneratedAt s).

(** [checkStructuredOutput]: the staged output, or the code. *)
Definition checkStructuredOutput (s : PreparedSnapshot) : stagedOutput + string :=
  if negb (staged_bytes_ok s) then inr "structured_output_digest_mismatch"
  else
    match decodeStrictJSON decode_output zero_output (ss_StructuredOutput s) with
    | None => inr "structured_output_invalid"
    | Some output =>
        match decodeStrictJSON decode_output_policy zero_output_policy (ss_PolicyOutput s) with
        | None => inr "policy_output_mismatch"
        | Some policyChild =>
            if negb (equalPolicyWire policyChild (ao_Policy output)) then inr "policy_output_mismatch"
            else
              match decodeStrictJSON decode_output_candidate zero_output_candidate (ss_CommandCandidateOutput s) with
              | None => inr "command_output_mismatch"
              | Some candidateChild =>
                  if negb (equalCandidateWire candidateChild (ao_Candidate output)) then inr "command_output_mismatch"
                  else if negb (output_head_ok output) then inr "structured_output_invalid"
                  else if negb (forallb (λ factor, boundedText factor 1 240) (elements (ao_FalsePositiveFactors output))) then inr "structured_output_invalid"
                  else if negb (output_policy_schema_ok output) then inr "policy_schema_invalid"
                  else if negb (output_candidate_schema_ok output) then inr "command_schema_invalid"
                  else if negb (String.eqb (op_TargetIP (ao_Policy output)) (eb_SourceIPv4 (ss_Evidence s)))
                          || negb (equalStringSlices (elements (ao_EvidenceIDs output)) (eb_SignalIDs (ss_Evidence s))) then inr "evidence_binding_mismatch"
                  else if negb (String.eqb (digest (oc_Command (ao_Candidate output))) (ss_GeneratedCommandDigest s)) then inr "generated_command_digest_mismatch"
                  else
                    match CheckResponsePolicy (staged_policy s output) with
                    | Err _ => inr "policy_contract_invalid"
                    | Ok checked =>
                        inl (MkStaged output checked (nfc (op_Rationale (ao_Policy output)))
                          (MkPolicy (op_SchemaVersion (ao_Policy output)) (op_Action (ao_Policy output)) (op_TargetIP (ao_Policy output))
                             (op_TTLSeconds (ao_Policy output)) (elements (op_EvidenceIDs (ao_Policy output))))
                          (MkCandidate (oc_SchemaVersion (ao_Candidate output)) (oc_TargetIP (ao_Candidate output)) (oc_Timeout (ao_Candidate output))
                             (elements (oc_EvidenceIDs (ao_Candidate output))) (oc_Command (ao_Candidate output))))
                    end
              end
        end
    end.
End worker.

(** ** Gate records ([runtime.go]) *)

(** [^[a-z0-9][a-z0-9._-]{0,63}$] *)
Definition identifierPattern : pattern :=
  [exactly 1 (λ c, is_lower c || is_digit c);
   rep 0 63 (λ c, is_lower c || is_digit c || bool_decide (c = "."%char) || bool_decide (c = "_"%char) || bool_decide (c = "-"%char))].

Definition sanitizeCode (value : string) : string := if match_string identifierPattern value then value else "validation_failure".

(** [digestGateResult]: the domain, the name, and each value after a zero byte. *)
Definition digestGateResult (name : string) (values : list string) : string :=
  digest ("sentinelflow-validation-gate-result-v1" +:+ String "000" "" +:+ name +:+ String.concat "" (map (λ value, String "000" value) values)).

Definition digestSafeValue (value : json) : string := digest (implode (write_json value)).

Definition passedGate (order : Z) (name inputDigest resultDigest : string) : GateRecord := MkGateRecord order name true "ok" inputDigest resultDigest.

Definition failedGateWithResult (order : Z) (name code inputDigest resultDigest : string) : GateRecord :=
  let inputDigest := if negb (match_string digest_pattern inputDigest) then digest "" else inputDigest in
  let resultDigest := if negb (match_string digest_pattern resultDigest) then digestGateResult name [code; inputDigest] else resultDigest in
  MkGateRecord order name false (sanitizeCode code) inputDigest resultDigest.

Definition failedGate (order : Z) (name code inputDigest : string) : GateRecord :=
  failedGateWithResult order name code inputDigest (digestGateResult name [code; inputDigest]).

(** The codes of the packages as text. *)
Definition policy_code_text (c : ErrorCode) : string :=
  match c with
  | ErrorSyntax => "syntax_invalid" | ErrorTarget => "target_invalid" | ErrorTTL => "ttl_invalid" | ErrorSchema => "schema_invalid" | ErrorAction => "action_invalid"
  | ErrorEvidence => "evidence_invalid" | ErrorTargetMismatch => "target_mismatch" | ErrorTTLMismatch => "ttl_mismatch" | ErrorCandidateMismatch => "candidate_mismatch"
  end.

Definition validate_code_text (c : ValidateErrorCode) : string :=
  match c with
  | VErrorCandidateSyntax => "candidate_syntax_invalid" | VErrorTarget => "target_invalid" | VErrorTargetDenied => "target_not_authorized" | VErrorTTL => "ttl_invalid"
  | VErrorTTLMismatch => "ttl_policy_mismatch" | VErrorBaseContract => "base_contract_invalid" | VErrorLiveSchema => "live_schema_invalid"
  | VErrorSchemaDigest => "owned_schema_digest_mismatch"
  end.

Definition reason_text (r : ProtectedReason) : string :=
  match r with
  | ReasonAllowed => "allowed" | ReasonAllowedDemoException => "allowed_demo_rfc5737_exception" | ReasonConsistencyNotPassed => "consistency_not_passed"
  | ReasonInvalidTarget => "invalid_or_non_global_ipv4" | ReasonBuiltInProtected => "built_in_protected" | ReasonConfiguredCIDR => "configured_protected_cidr"
  | ReasonOrigin => "origin_address" | ReasonGateway => "gateway_address" | ReasonExecutor => "executor_address" | ReasonManagement => "management_address"
  | ReasonCurrentAdministratorPath => "current_administrator_path"
  end.

Definition policyFailureCode (err : ErrorCode) : string := sanitizeCode (policy_code_text err).
Definition nftValidationFailureCode (err : ValidateErrorCode) : string := sanitizeCode (validate_code_text err).

(** An error of the syntax checker has a code, or is of another type. *)
Definition nftCheckFailureCode (err : option CheckErrorCode) : string :=
  match err with Some code => sanitizeCode (check_code_text code) | None => "nft_syntax_check_failed" end.

Definition sameArtifacts (left : Artifact) (right : CandidateArtifact) : bool :=
  String.eqb (art_generatedDigest left) (ca_generatedDigest right) && String.eqb (art_canonicalDigest left) (ca_canonicalDigest right)
  && String.eqb (ast_TargetIPv4 (art_ast left)) (addr4_string (ca_target right)) && (ast_ttlSeconds (art_ast left) =? ca_ttlSeconds right)
  && String.eqb (ast_inputTTLToken (art_ast left)) (ca_inputTTLToken right) && String.eqb (art_canonicalToken left) (ca_canonicalToken right)
  && String.eqb (art_generatedBytes left) (ca_generated right) && String.eqb (art_canonicalBytes left) (ca_canonical right).

Definition candidateRecord (staged : stagedOutput) (artifact : Artifact) : CandidateRecord :=
  MkCandidateRecord CandidateSchemaVersion (ast_TargetIPv4 (art_ast artifact)) (cand_TimeoutToken (so_candidate staged)) (ast_ttlSeconds (art_ast artifact))
    (art_generatedBytes artifact) (art_generatedDigest artifact) (art_canonicalBytes artifact) (art_canonicalDigest artifact).

Definition policyRecord (staged : stagedOutput) (s : PreparedSnapshot) : PolicyRecord :=
  let value := crp_value (so_checkedPolicy staged) in
  MkPolicyRecord (rp_SchemaVersion value) (ss_PolicyID s) (rp_PolicyVersion value) (crp_canonical (so_checkedPolicy staged)) (crp_digest (so_checkedPolicy staged))
    (rp_TargetIPv4 value) (rp_TTLSeconds value) (so_rationale staged).

(** ** The runtime *)

(** The configuration and dependencies [evaluate] reads.  The syntax checker answers
    evidence and an error, which has a code or is of another type, or panics ([None]). *)
Record Runtime := MkRuntime {
  rt_Environment : string; rt_NFTBinaryDigest : string; rt_ExpectedNFTVersion : string; rt_ExpectedOutputSchemaDigest : string; rt_ExpectedPromptDigest : string;
  rt_protectedGate : ProtectedGate; rt_syntaxChecker : CheckInput → option (Evidence * option (option CheckErrorCode)); rt_baseContract : string; rt_liveSchema : string;
  rt_demoHistory : option VerifiedDemoHistoryBinding
}.

Definition consistencyEvidence (s : PreparedSnapshot) : EvidenceSnapshotBinding :=
  let e := ss_Evidence s in
  MkEvidence (ss_EvidenceSnapshotDigest s) (ss_IncidentID s) (ss_IncidentVersion s) (ss_AnalysisInputDigest s) (eb_SourceIPv4 e) (eb_SourceHealthDigest e)
    (eb_SourceHealthStatus e) (eb_SignalIDs e) (eb_EventIDs e) (eb_Signals e).

(** The input of the consistency gate. *)
Definition consistency_input (r : Runtime) (s : PreparedSnapshot) (staged : stagedOutput) (artifact : Artifact) : ConsistencyInput :=
  MkConsistencyInput (rt_ExpectedOutputSchemaDigest r) (MkSchemaGate SchemaGatePassed (ss_AnalysisOutputDigest s) (ss_OutputSchemaDigest s))
    (MkAnalysis (ss_AnalysisID s) (ss_IncidentID s) (ss_IncidentVersion s) (ss_AnalysisInputDigest s) (ss_OutputSchemaDigest s) (ss_StructuredOutput s))
    (so_checkedPolicy staged) artifact (consistencyEvidence s).

(** [HistoricalImpactInput{}] *)
Definition zero_impact_input : HistoricalImpactInput :=
  let t := zero_localtime in let health := MkHealth "" false t t [] in
  MkImpactInput "" "" zero_cutoff "" (MkCoverage "" "" "" "" t t) [] [] health health [] None.

(** The input of the history gate. *)
Definition history_input (s : PreparedSnapshot) (environment target : string) (demoHistory : option VerifiedDemoHistoryBinding) : HistoricalImpactInput :=
  let h := ss_History s in
  if negb (Equal (lt_instant (hs_WindowStart h)) (lt_instant (hs_Cutoff h) - HistoricalImpactLookback)) then zero_impact_input
  else
    let chosen :=
      match demoHistory with
      | Some b =>
          let cutoff := demo_HistoryCutoff b in
          if IsZero (lt_instant (cutoff_At cutoff)) || negb (Equal (lt_instant (cutoff_At cutoff)) (lt_instant (hs_Cutoff h))) then None
          else Some (HistoryModeVerifiedDemo, cutoff)
      | None =>
          match SealDatabaseHistoryCutoff (hs_Cutoff h) with
          | None => None
          | Some cutoff => if negb (Equal (lt_instant (hs_Cutoff h)) (lt_instant (ss_GeneratedAt s))) then None else Some (HistoryModeRetained, cutoff)
          end
      end in
    match chosen with
    | None => zero_impact_input
    | Some (mode, cutoff) =>
        let status := if negb (hs_CoverageComplete h) then HistoryQueryIncomplete else HistoryQueryComplete in
        let health source := MkHealth source (hs_CoverageComplete h) (hs_WindowStart h) (hs_Cutoff h) [] in
        MkImpactInput environment mode cutoff target (MkCoverage status status status status (hs_WindowStart h) (hs_Cutoff h))
          (hs_GatewayRecords h) (hs_AuthRecords h) (health SourceGateway) (health SourceAuth) [] demoHistory
    end.

Definition evaluateHistory (s : PreparedSnapshot) (environment target : string) (demoHistory : option VerifiedDemoHistoryBinding) : CheckedHistoricalImpact :=
  EvaluateHistoricalImpact (history_input s environment target demoHistory).

(** [strings.TrimPrefix] *)
Definition trim_prefix (s prefix : string) : string := match strip_prefix (chars prefix) (chars s) with Some l => implode l | None => s end.

(** The checks of the snapshot, one per gate. *)
Definition gate_check (gate : GateRecord) : ValidationCheck := MkCheck (gr_Name gate) "pass" "ok" (gr_InputDigest gate).

(** The validation snapshot of a candidate that passed. *)
Definition validation_snapshot (r : Runtime) (s : PreparedSnapshot) (staged : stagedOutput) (artifact : Artifact) (protected : ProtectedResult)
    (schemaProof : SchemaProof) (syntaxEvidence : Evidence) (history : CheckedHistoricalImpact) (gates : list GateRecord) : ValidationSnapshot :=
  MkValidationSnapshot ValidationSnapshotSchemaVersion (ss_ValidationID s) (crp_digest (so_checkedPolicy staged)) (ss_EvidenceSnapshotDigest s)
    (ss_AnalysisInputDigest s) (ss_OutputSchemaDigest s) (ss_PromptDigest s) (art_generatedDigest artifact) (art_canonicalDigest artifact)
    CandidateSchemaVersion ValidationParserVersion ValidationValidatorVersion (sp_baseContractDigest schemaProof) (sp_liveSchemaDigest schemaProof)
    (pr_StaticContractDigest protected) (pr_EffectiveConfigDigest protected) (rt_NFTBinaryDigest r) (trim_prefix (sy_NFTVersion syntaxEvidence) "nftables v")
    (ch_digest history) (map gate_check gates) (ss_GeneratedAt s)
    (MkLocal (lt_instant (ss_GeneratedAt s) + ValidationSnapshotLifetime) (lt_zone (ss_GeneratedAt s))).

(** The record of a checked snapshot: its bytes, and the values it was made of. *)
Definition validation_record (checked : CheckedValidationSnapshot) (v : ValidationSnapshot) (target : string) (ttl : Z) : ValidationRecord :=
  MkValidationRecord (cv_canonical checked) (cv_digest checked) (vs_PolicyDigest v) (vs_EvidenceSnapshotDigest v) (vs_AnalysisInputDigest v)
    (vs_AnalysisOutputSchemaDigest v) (vs_PromptDigest v) (vs_GeneratedCandidateDigest v) (vs_CanonicalArtifactDigest v) (vs_GrammarVersion v)
    (vs_ParserVersion v) (vs_ValidatorVersion v) (vs_BaseChainContractRawDigest v) (vs_LiveOwnedSchemaDigest v) (vs_ProtectedIPv4StaticDigest v)
    (vs_ProtectedIPv4EffectiveConfigDigest v) (vs_NFTBinaryDigest v) (vs_NFTVersion v) (vs_HistoricalImpactDigest v) target ttl SourceHealthComplete
    (vs_CreatedAt v) (vs_ValidUntil v).

(** The mutation at the start, and the ways it is filled. *)
Definition initial_mutation (s : PreparedSnapshot) : Mutation :=
  MkWorkerMutation (ss_ValidationAttemptID s) (ss_AnalysisID s) (ss_IncidentID s) (ss_IncidentVersion s) StateInvalid "validation_internal_failure"
    ValidationAuditRejected (ss_EvidenceCanonicalBytes s) [] None None None.

Definition add_gate (m : Mutation) (gate : GateRecord) : Mutation :=
  MkWorkerMutation (mu_ValidationAttemptID m) (mu_AnalysisID m) (mu_IncidentID m) (mu_IncidentVersion m) (mu_State m) (mu_FailureCode m) (mu_AuditAction m)
    (mu_EvidenceCanonicalBytes m) (mu_Gates m ++ [gate]) (mu_Candidate m) (mu_Policy m) (mu_Validation m).

Definition fail_gate (m : Mutation) (code : string) (gate : GateRecord) : Mutation :=
  MkWorkerMutation (mu_ValidationAttemptID m) (mu_AnalysisID m) (mu_IncidentID m) (mu_IncidentVersion m) (mu_State m) code (mu_AuditAction m)
    (mu_EvidenceCanonicalBytes m) (mu_Gates m ++ [gate]) (mu_Candidate m) (mu_Policy m) (mu_Validation m).

Definition add_records (m : Mutation) (candidate : CandidateRecord) (policy : PolicyRecord) : Mutation :=
  MkWorkerMutation (mu_ValidationAttemptID m) (mu_AnalysisID m) (mu_IncidentID m) (mu_IncidentVersion m) (mu_State m) (mu_FailureCode m) (mu_AuditAction m)
    (mu_EvidenceCanonicalBytes m) (mu_Gates m) (Some candidate) (Some policy) (mu_Validation m).

Definition replace_last (m : Mutation) (code : string) (gate : GateRecord) : Mutation :=
  MkWorkerMutation (mu_ValidationAttemptID m) (mu_AnalysisID m) (mu_IncidentID m) (mu_IncidentVersion m) (mu_State m) code (mu_AuditAction m)
    (mu_EvidenceCanonicalBytes m) (removelast (mu_Gates m) ++ [gate]) (mu_Candidate m) (mu_Policy m) (mu_Validation m).

Definition accept (m : Mutation) (validation : ValidationRecord) : Mutation :=
  MkWorkerMutation (mu_ValidationAttemptID m) (mu_AnalysisID m) (mu_IncidentID m) (mu_IncidentVersion m) StateValid ValidationFailureNone ValidationAuditSucceeded
    (mu_EvidenceCanonicalBytes m) (mu_Gates m) (mu_Candidate m) (mu_Policy m) (Some validation).

Definition check_id (n : nat) : string := nth n orderedValidationCheckIDs "".

(** What the deferred function leaves after a panic. *)
Definition recovered_mutation (s : PreparedSnapshot) : Mutation :=
  add_gate (initial_mutation s) (failedGate 1 (check_id 0) "validation_internal_failure" (ss_AnalysisOutputDigest s)).

Section evaluate.
Context (nfc : string → string) (r : Runtime) (s : PreparedSnapshot).

(** Gate 6 and the snapshot. *)
Definition evaluate_history (m : Mutation) (staged : stagedOutput) (artifact : Artifact) (protected : ProtectedResult) (schemaProof : SchemaProof)
    (syntaxEvidence : Evidence) : Mutation :=
  let history := evaluateHistory s (rt_Environment r) (pol_TargetIPv4 (so_policyForParser staged)) (rt_demoHistory r) in
  let historyInputDigest := if negb (match_string digest_pattern (hr_InputDigest (ch_value history))) then ch_digest history else hr_InputDigest (ch_value history) in
  if negb (impact_Allowed history) then
    let code := if String.eqb (hr_ReasonCode (ch_value history)) "" then "history_input_invalid" else hr_ReasonCode (ch_value history) in
    fail_gate m code (failedGateWithResult 6 (check_id 5) code historyInputDigest (ch_digest history))
  else
    let m := add_gate m (passedGate 6 (check_id 5) historyInputDigest (ch_digest history)) in
    let value := validation_snapshot r s staged artifact protected schemaProof syntaxEvidence history (mu_Gates m) in
    match CheckValidationSnapshot value with
    | Err _ => replace_last m "validation_snapshot_invalid" (failedGateWithResult 6 (check_id 5) "validation_snapshot_invalid" historyInputDigest (ch_digest history))
    | Ok checked => accept m (validation_record checked value (pr_TargetIPv4 protected) (ast_ttlSeconds (art_ast artifact)))
    end.

(** Gate 5: the owned schema and the syntax check. *)
Definition evaluate_syntax (m : Mutation) (staged : stagedOutput) (artifact : Artifact) (protected : ProtectedResult) : Mutation :=
  let reject code := fail_gate m code (failedGate 5 (check_id 4) code (art_canonicalDigest artifact)) in
  match Validate (MkValidateInput (cand_GeneratedBytes (so_candidate staged)) (pol_TTLSeconds (so_policyForParser staged)) (Some (authorize_from protected))
                    (rt_baseContract r) (rt_liveSchema r)) with
  | Err err => reject (nftValidationFailureCode err)
  | Ok validated =>
      if negb (sameArtifacts artifact (vr_artifact validated)) then reject "owned_schema_artifact_mismatch"
      else
        match rt_syntaxChecker r (MkCheckInput (art_canonicalBytes artifact) (art_canonicalDigest artifact) (rt_baseContract r) PinnedBaseContractDigest) with
        | None => recovered_mutation s
        | Some (syntaxEvidence, syntaxErr) =>
        let reject code := fail_gate m code (failedGateWithResult 5 (check_id 4) code (art_canonicalDigest artifact) (digestSafeValue (evidence_json syntaxEvidence))) in
        match syntaxErr with
        | Some err => reject (nftCheckFailureCode err)
        | None =>
            if negb (String.eqb (sy_NFTVersion syntaxEvidence) (rt_ExpectedNFTVersion r)) then reject "nft_version_mismatch"
            else
              let m := add_gate m (passedGate 5 (check_id 4) (art_canonicalDigest artifact) (digestSafeValue (evidence_json syntaxEvidence))) in
              evaluate_history m staged artifact protected (vr_schema validated) syntaxEvidence
        end
        end
  end.

(** Gates 3 and 4: consistency and the protected networks. *)
Definition evaluate_target (m : Mutation) (staged : stagedOutput) (artifact : Artifact) : Mutation :=
  let consistency := CheckConsistency nfc (consistency_input r s staged artifact) in
  let consistencyInput := digestGateResult (check_id 2) ["input"; crp_digest (so_checkedPolicy staged); art_canonicalDigest artifact; ss_EvidenceSnapshotDigest s] in
  if negb (String.eqb (cr_Status consistency) ConsistencyPassed) then
    fail_gate m (cr_FailureCode consistency) (failedGate 3 (check_id 2) (cr_FailureCode consistency) consistencyInput)
  else
    let m := add_gate m (passedGate 3 (check_id 2) consistencyInput
      (digestGateResult (check_id 2) ["ok"; cr_PolicyDigest consistency; cr_CanonicalCommandDigest consistency])) in
    let protected := Check (Some (rt_protectedGate r)) (MkProtectedInput (pol_TargetIPv4 (so_policyForParser staged)) consistency) in
    if negb (Allowed protected) then
      let code := reason_text (pr_Reason protected) in fail_gate m code (failedGate 4 (check_id 3) code (pg_effectiveDigest (rt_protectedGate r)))
    else
      let m := add_gate m (passedGate 4 (check_id 3) (pr_EffectiveConfigDigest protected)
        (digestGateResult (check_id 3) ["ok"; pr_StaticContractDigest protected; pr_EffectiveConfigDigest protected; pr_TargetIPv4 protected])) in
      evaluate_syntax m staged artifact protected.

(** Gate 2: the two parsers. *)
Definition evaluate_command (m : Mutation) (staged : stagedOutput) : Mutation :=
  match BuildArtifact (so_policyForParser staged) (so_candidate staged) with
  | Err err => let code := policyFailureCode err in fail_gate m code (failedGate 2 (check_id 1) code (ss_GeneratedCommandDigest s))
  | Ok artifact =>
      let reject code := fail_gate m code (failedGate 2 (check_id 1) code (art_generatedDigest artifact)) in
      match Canonicalize (cand_GeneratedBytes (so_candidate staged)) (pol_TTLSeconds (so_policyForParser staged)) with
      | Err err => reject (nftValidationFailureCode err)
      | Ok pureArtifact =>
          if negb (sameArtifacts artifact pureArtifact) then reject "parser_contract_mismatch"
          else
            let m := add_records m (candidateRecord staged artifact) (policyRecord staged s) in
            let m := add_gate m (passedGate 2 (check_id 1) (art_generatedDigest artifact) (digestGateResult (check_id 1) ["ok"; art_canonicalDigest artifact])) in
            evaluate_target m staged artifact
      end
  end.

(** [Runtime.evaluate] *)
Definition evaluate : Mutation :=
  let m := initial_mutation s in
  let reject code := fail_gate m code (failedGate 1 (check_id 0) code (ss_AnalysisOutputDigest s)) in
  match checkStructuredOutput nfc s with
  | inr code => reject code
  | inl staged =>
      if negb (String.eqb (ss_OutputSchemaDigest s) (rt_ExpectedOutputSchemaDigest r)) || negb (String.eqb (ss_PromptDigest s) (rt_ExpectedPromptDigest r))
      then reject "analysis_contract_digest_mismatch"
      else
        let m := add_gate m (passedGate 1 (check_id 0) (ss_AnalysisOutputDigest s) (digestGateResult (check_id 0) ["ok"; ss_AnalysisOutputDigest s])) in
        evaluate_command m staged
  end.
End evaluate.
