(* ===== verification/ValidationWorkerSpec.v ===== *)
(** * What the validation worker's verdict means

    The recorded gates are an ordered prefix of the six, with at most the last one
    failed; a valid verdict is reached only through every gate, and what it publishes
    is bound to what the gates checked. *)

From S2P Require Import Prelude GoSort GoStrings Regex Sha256 GoTime Netip NetPrefix Json JsonTree CanonicalJson Policy PolicySpec ResponsePolicy ResponsePolicySpec Detection Executor NftRunner NftValidate NftValidateSpec NftCheck NftCheckSpec.
From S2P Require Import Protected ProtectedSpec ProtectedShipped Consistency ConsistencySpec ValidationGates Snapshot SnapshotSpec History HistorySpec ValidationWorker.
Local Open Scope Z_scope.

(** ** The gates in order *)

(** The gate records of the six checks, by order and name. *)
Definition gate_keys : list (Z * string) := zip [1; 2; 3; 4; 5; 6] orderedValidationCheckIDs.
Definition gate_key (g : GateRecord) : Z * string := (gr_Order g, gr_Name g).

(** After [k] passed gates, before the verdict. *)
Record passed_so_far (s : PreparedSnapshot) (k : nat) (m : Mutation) : Prop := MkPassed {
  pf_gates : gate_key <$> mu_Gates m = take k gate_keys;
  pf_passed : Forall (λ g, gr_Passed g = true ∧ gr_ResultCode g = "ok") (mu_Gates m);
  pf_state : mu_State m = StateInvalid ∧ mu_AuditAction m = ValidationAuditRejected ∧ mu_Validation m = None;
  pf_records : (is_Some (mu_Candidate m) ↔ (2 <= k)%nat) ∧ (is_Some (mu_Policy m) ↔ (2 <= k)%nat);
  pf_ids : mu_ValidationAttemptID m = ss_ValidationAttemptID s ∧ mu_AnalysisID m = ss_AnalysisID s ∧ mu_IncidentID m = ss_IncidentID s
    ∧ mu_IncidentVersion m = ss_IncidentVersion s ∧ mu_EvidenceCanonicalBytes m = ss_EvidenceCanonicalBytes s
}.

(** A verdict on a snapshot: the gates are the first [k] of the six in their order, all
    but the last passed. *)
Record verdict_ok (s : PreparedSnapshot) (m : Mutation) : Prop := MkVerdict {
  vo_gates : ∃ k, (1 <= k <= 6)%nat ∧ gate_key <$> mu_Gates m = take k gate_keys ∧ ((3 <= k)%nat ↔ is_Some (mu_Candidate m)) ∧ ((3 <= k)%nat ↔ is_Some (mu_Policy m));
  vo_last : ∃ before final, mu_Gates m = before ++ [final] ∧ Forall (λ g, gr_Passed g = true ∧ gr_ResultCode g = "ok") before
    ∧ ((mu_State m = StateValid ∧ length before = 5%nat ∧ gr_Passed final = true ∧ mu_FailureCode m = ValidationFailureNone
        ∧ mu_AuditAction m = ValidationAuditSucceeded ∧ is_Some (mu_Validation m))
       ∨ (mu_State m = StateInvalid ∧ gr_Passed final = false ∧ gr_ResultCode final = sanitizeCode (mu_FailureCode m)
          ∧ mu_AuditAction m = ValidationAuditRejected ∧ mu_Validation m = None
          ∧ match_string identifierPattern (gr_ResultCode final) = true
          ∧ match_string digest_pattern (gr_InputDigest final) = true ∧ match_string digest_pattern (gr_ResultDigest final) = true));
  vo_ids : mu_ValidationAttemptID m = ss_ValidationAttemptID s ∧ mu_AnalysisID m = ss_AnalysisID s ∧ mu_IncidentID m = ss_IncidentID s
    ∧ mu_IncidentVersion m = ss_IncidentVersion s ∧ mu_EvidenceCanonicalBytes m = ss_EvidenceCanonicalBytes s
}.

Lemma initial_passed s : passed_so_far s 0 (initial_mutation s).
Proof. constructor; try done. cbn. split; (split; [intros [? [=]]|lia]). Qed.

Lemma take_key k : (k < 6)%nat → take (S k) gate_keys = take k gate_keys ++ [(Z.of_nat k + 1, check_id k)].
Proof. intros H. do 6 (destruct k as [|k]; [reflexivity|]). lia. Qed.

Lemma add_gate_passed s k m gate i d : passed_so_far s k m → (k < 6)%nat → k ≠ 1%nat → gate = passedGate (Z.of_nat k + 1) (check_id k) i d →
  passed_so_far s (S k) (add_gate m gate).
Proof.
  intros [Hg Hp Hs [Hc Hl] Hi] Hk Hk1 ->. constructor; cbn; try done.
  - rewrite fmap_app, Hg. change (gate_key <$> [_]) with [(Z.of_nat k + 1, check_id k)]. symmetry. by apply take_key.
  - apply Forall_app. split; [done|]. by apply Forall_singleton.
  - rewrite Hc, Hl. lia.
Qed.

Lemma failed_gate_ok order name code i d : let g := failedGateWithResult order name code i d in
  gate_key g = (order, name) ∧ gr_Passed g = false ∧ gr_ResultCode g = sanitizeCode code
  ∧ match_string identifierPattern (gr_ResultCode g) = true ∧ match_string digest_pattern (gr_InputDigest g) = true ∧ match_string digest_pattern (gr_ResultDigest g) = true.
Proof.
  cbv zeta. unfold failedGateWithResult. cbn [gate_key gr_Order gr_Name gr_Passed gr_ResultCode gr_InputDigest gr_ResultDigest].
  split_and!; try reflexivity.
  - unfold sanitizeCode. destruct (match_string identifierPattern code) eqn:E; [done|vm_compute; reflexivity].
  - destruct (match_string digest_pattern i) eqn:E; cbn [negb]; [done|apply digest_matches].
  - destruct (match_string digest_pattern d) eqn:E; cbn [negb]; [done|]. apply digest_matches.
Qed.

Lemma fail_gate_verdict s k m code gate i d : passed_so_far s k m → (k < 6)%nat →
  gate = failedGateWithResult (Z.of_nat k + 1) (check_id k) code i d → verdict_ok s (fail_gate m code gate).
Proof.
  intros [Hg Hp (Hs1 & Hs2 & Hs3) [Hc Hl] Hi] Hk ->. destruct (failed_gate_ok (Z.of_nat k + 1) (check_id k) code i d) as (H1 & H2 & H3 & H4 & H5 & H6).
  set (gate := failedGateWithResult _ _ _ _ _) in *. clearbody gate. constructor; cbn; try done.
  - exists (S k). split_and!; [lia|lia| |rewrite Hc; lia|rewrite Hl; lia]. rewrite fmap_app, Hg. change (gate_key <$> [gate]) with [gate_key gate]. rewrite H1. symmetry. by apply take_key.
  - exists (mu_Gates m), gate. split_and!; try done. right. by split_and!.
Qed.

Lemma replace_last_fail m g code gate : replace_last (add_gate m g) code gate = fail_gate m code gate.
Proof. unfold replace_last, fail_gate, add_gate. cbn. by rewrite removelast_last. Qed.

Lemma accept_verdict s m gate v i d : passed_so_far s 5 m → gate = passedGate 6 (check_id 5) i d → verdict_ok s (accept (add_gate m gate) v).
Proof.
  intros Hm ->. pose proof (add_gate_passed s 5 m _ i d Hm ltac:(lia) ltac:(lia) eq_refl) as [Hg _ _ [Hc Hl] _]. destruct Hm as [Hg5 Hp _ _ Hi].
  constructor; cbn in *; try done.
  - exists 6%nat. rewrite Hc, Hl. split_and!; try lia. done.
  - eexists (mu_Gates m), _. split_and!; [done|done|]. left. split_and!; try done. apply (f_equal length) in Hg5. by rewrite length_fmap in Hg5.
Qed.

Section stages.
Context (nfc : string → string) (r : Runtime) (s : PreparedSnapshot).

Lemma evaluate_history_verdict m staged artifact protected proof e : passed_so_far s 5 m → verdict_ok s (evaluate_history r s m staged artifact protected proof e).
Proof.
  intros Hm. unfold evaluate_history. cbv zeta. destruct (negb (impact_Allowed _)).
  - eapply (fail_gate_verdict s 5); [done|lia|reflexivity].
  - destruct (CheckValidationSnapshot _).
    + by eapply accept_verdict.
    + rewrite replace_last_fail. eapply (fail_gate_verdict s 5); [done|lia|reflexivity].
Qed.

Lemma recovered_verdict : verdict_ok s (recovered_mutation s).
Proof.
  change (recovered_mutation s) with (fail_gate (initial_mutation s) "validation_internal_failure" (failedGate 1 (check_id 0) "validation_internal_failure" (ss_AnalysisOutputDigest s))).
  eapply (fail_gate_verdict s 0); [apply initial_passed|lia|reflexivity].
Qed.

Lemma evaluate_syntax_verdict m staged artifact protected : passed_so_far s 4 m → verdict_ok s (evaluate_syntax r s m staged artifact protected).
Proof.
  intros Hm. unfold evaluate_syntax. cbv zeta. destruct (Validate _) as [validated|err]; [|eapply (fail_gate_verdict s 4); [done|lia|reflexivity]].
  destruct (negb (sameArtifacts _ _)); [eapply (fail_gate_verdict s 4); [done|lia|reflexivity]|].
  destruct (rt_syntaxChecker r _) as [[e [err|]]|]; [| |apply recovered_verdict]; [eapply (fail_gate_verdict s 4); [done|lia|reflexivity]|].
  destruct (negb _); [eapply (fail_gate_verdict s 4); [done|lia|reflexivity]|].
  apply evaluate_history_verdict. eapply add_gate_passed; [done|lia|lia|reflexivity].
Qed.

Lemma evaluate_target_verdict m staged artifact : passed_so_far s 2 m → verdict_ok s (evaluate_target nfc r s m staged artifact).
Proof.
  intros Hm. unfold evaluate_target. cbv zeta. destruct (negb _); [eapply (fail_gate_verdict s 2); [done|lia|reflexivity]|].
  set (m3 := add_gate m _). assert (Hm3 : passed_so_far s 3 m3) by (eapply add_gate_passed; [done|lia|lia|reflexivity]). clearbody m3.
  destruct (negb _); [eapply (fail_gate_verdict s 3); [done|lia|reflexivity]|].
  apply evaluate_syntax_verdict. eapply add_gate_passed; [done|lia|lia|reflexivity].
Qed.

Lemma records_passed m candidate policy i d : passed_so_far s 1 m → passed_so_far s 2 (add_gate (add_records m candidate policy) (passedGate 2 (check_id 1) i d)).
Proof.
  intros [Hg Hp Hs _ Hi]. constructor; cbn; try done.
  - rewrite fmap_app, Hg. reflexivity.
  - apply Forall_app. split; [done|]. by apply Forall_singleton.
Qed.

Lemma evaluate_command_verdict m staged : passed_so_far s 1 m → verdict_ok s (evaluate_command nfc r s m staged).
Proof.
  intros Hm. unfold evaluate_command. cbv zeta. destruct (BuildArtifact _ _) as [artifact|err]; [|eapply (fail_gate_verdict s 1); [done|lia|reflexivity]].
  destruct (Canonicalize _ _) as [pure|err]; [|eapply (fail_gate_verdict s 1); [done|lia|reflexivity]].
  destruct (negb _); [eapply (fail_gate_verdict s 1); [done|lia|reflexivity]|].
  apply evaluate_target_verdict. by apply records_passed.
Qed.

Lemma evaluate_verdict : verdict_ok s (evaluate nfc r s).
Proof.
  pose proof (initial_passed s) as Hm. unfold evaluate. cbv zeta.
  destruct (checkStructuredOutput nfc s) as [staged|code]; [|eapply (fail_gate_verdict s 0); [done|lia|reflexivity]].
  destruct (_ || _); [eapply (fail_gate_verdict s 0); [done|lia|reflexivity]|].
  apply evaluate_command_verdict. eapply add_gate_passed; [done|lia|lia|reflexivity].
Qed.
End stages.

(** ** What a valid verdict rests on *)

Lemma staged_policy_matches nfc s staged : checkStructuredOutput nfc s = inl staged →
  pol_TargetIPv4 (so_policyForParser staged) = rp_TargetIPv4 (crp_value (so_checkedPolicy staged))
  ∧ pol_TTLSeconds (so_policyForParser staged) = rp_TTLSeconds (crp_value (so_checkedPolicy staged)).
Proof.
  unfold checkStructuredOutput. destruct (negb (staged_bytes_ok s)); [done|]. destruct (decodeStrictJSON decode_output _ _) as [output|]; [|done].
  destruct (decodeStrictJSON decode_output_policy _ _) as [pol|]; [|done]. destruct (negb (equalPolicyWire _ _)); [done|].
  destruct (decodeStrictJSON decode_output_candidate _ _) as [cand|]; [|done]. destruct (negb (equalCandidateWire _ _)); [done|].
  destruct (negb (output_head_ok output)); [done|]. destruct (negb (forallb _ _)); [done|]. destruct (negb (output_policy_schema_ok output)); [done|].
  destruct (negb (output_candidate_schema_ok output)); [done|]. destruct (_ || _); [done|]. destruct (negb _); [done|].
  destruct (CheckResponsePolicy _) as [checked|] eqn:Ec; [|done]. intros H. apply (f_equal (λ x, match x with inl y => y | inr _ => staged end)) in H. cbn beta iota in H. subst staged.
  cbn [so_policyForParser so_checkedPolicy pol_TargetIPv4 pol_TTLSeconds]. apply CheckResponsePolicy_iff in Ec as [_ ->]; [done|]. unfold rp_typed. cbn. lia.
Qed.

Lemma built_generated p c artifact : BuildArtifact p c = Ok artifact → art_generatedBytes artifact = cand_GeneratedBytes c.
Proof.
  intros Hb. destruct (BuildArtifact_consistent _ _ _ Hb) as (a & newline & token & Hcon & Htok).
  rewrite (BuildArtifact_complete _ _ _ _ _ Hcon Htok) in Hb. apply (f_equal (from_ok artifact)) in Hb. cbn [from_ok] in Hb. by subst artifact.
Qed.

(** The input of the syntax check, and of the history gate. *)
Definition syntax_input (r : Runtime) (artifact : Artifact) : CheckInput :=
  MkCheckInput (art_canonicalBytes artifact) (art_canonicalDigest artifact) (rt_baseContract r) PinnedBaseContractDigest.

Section verdict.
Context (nfc : string → string) (r : Runtime) (s : PreparedSnapshot).

(** The published validation: the checked snapshot of the values the gates saw. *)
Definition published (m : Mutation) (staged : stagedOutput) (artifact : Artifact) (protected : ProtectedResult) (proof : SchemaProof) (e : Evidence) : Prop :=
  let history := evaluateHistory s (rt_Environment r) (pol_TargetIPv4 (so_policyForParser staged)) (rt_demoHistory r) in
  let value := validation_snapshot r s staged artifact protected proof e history (mu_Gates m) in
  ∃ checked, CheckValidationSnapshot value = Ok checked
    ∧ mu_Validation m = Some (validation_record checked value (pr_TargetIPv4 protected) (ast_ttlSeconds (art_ast artifact))).

Lemma fail_gate_invalid m code gate : mu_State m = StateInvalid → mu_State (fail_gate m code gate) ≠ StateValid.
Proof. intros H. change (mu_State (fail_gate m code gate)) with (mu_State m). by rewrite H. Qed.

Lemma accept_gates m v : mu_Gates (accept m v) = mu_Gates m.
Proof. reflexivity. Qed.

Lemma accept_validation m v : mu_Validation (accept m v) = Some v.
Proof. reflexivity. Qed.

Lemma accept_candidate m gate v : mu_Candidate (accept (add_gate m gate) v) = mu_Candidate m.
Proof. reflexivity. Qed.

Lemma accept_policy m gate v : mu_Policy (accept (add_gate m gate) v) = mu_Policy m.
Proof. reflexivity. Qed.

Lemma evaluate_history_valid m staged artifact protected proof e : mu_State m = StateInvalid → let final := evaluate_history r s m staged artifact protected proof e in
  mu_State final = StateValid →
  harmless_history (history_input s (rt_Environment r) (pol_TargetIPv4 (so_policyForParser staged)) (rt_demoHistory r))
  ∧ published final staged artifact protected proof e ∧ mu_Candidate final = mu_Candidate m ∧ mu_Policy final = mu_Policy m.
Proof.
  intros Hm. cbv zeta. unfold evaluate_history, published. cbv zeta.
  assert (Ha : impact_Allowed (evaluateHistory s (rt_Environment r) (pol_TargetIPv4 (so_policyForParser staged)) (rt_demoHistory r)) = true
    → harmless_history (history_input s (rt_Environment r) (pol_TargetIPv4 (so_policyForParser staged)) (rt_demoHistory r))) by apply impact_Allowed_iff.
  generalize dependent (evaluateHistory s (rt_Environment r) (pol_TargetIPv4 (so_policyForParser staged)) (rt_demoHistory r)). intros h Ha.
  destruct (impact_Allowed h); cbn [negb]; [|intros H; by apply fail_gate_invalid in H].
  match goal with |- context [add_gate m ?g] => generalize g end. intros gate.
  destruct (CheckValidationSnapshot _) as [checked|] eqn:Ec; [|rewrite replace_last_fail; intros H; by apply fail_gate_invalid in H].
  intros _. split; [by apply Ha|]. rewrite accept_gates, accept_validation. split; [by exists checked|by rewrite accept_candidate, accept_policy].
Qed.

Lemma evaluate_syntax_valid m staged artifact protected : mu_State m = StateInvalid → let final := evaluate_syntax r s m staged artifact protected in
  mu_State final = StateValid → ∃ validated e,
  Validate (MkValidateInput (cand_GeneratedBytes (so_candidate staged)) (pol_TTLSeconds (so_policyForParser staged)) (Some (authorize_from protected)) (rt_baseContract r) (rt_liveSchema r)) = Ok validated
  ∧ rt_syntaxChecker r (syntax_input r artifact) = Some (e, None) ∧ sy_NFTVersion e = rt_ExpectedNFTVersion r
  ∧ harmless_history (history_input s (rt_Environment r) (pol_TargetIPv4 (so_policyForParser staged)) (rt_demoHistory r))
  ∧ published final staged artifact protected (vr_schema validated) e ∧ mu_Candidate final = mu_Candidate m ∧ mu_Policy final = mu_Policy m.
Proof.
  intros Hm. cbv zeta. unfold evaluate_syntax. cbv zeta. destruct (Validate _) as [validated|err]; [|intros H; by apply fail_gate_invalid in H].
  destruct (negb (sameArtifacts _ _)); [intros H; by apply fail_gate_invalid in H|]. fold (syntax_input r artifact).
  destruct (rt_syntaxChecker r _) as [[e [err|]]|] eqn:Es; [intros H; by apply fail_gate_invalid in H| |done].
  destruct (String.eqb_spec (sy_NFTVersion e) (rt_ExpectedNFTVersion r)) as [Hv|]; cbn [negb]; [|intros H; by apply fail_gate_invalid in H].
  intros H. apply evaluate_history_valid in H as (? & ? & ? & ?); [|done]. by exists validated, e.
Qed.

(** Everything a valid verdict went through. *)
Record went_through (m : Mutation) (staged : stagedOutput) (artifact : Artifact) (protected : ProtectedResult) (validated : ValidateResult) (e : Evidence) : Prop := MkWent {
  wt_staged : checkStructuredOutput nfc s = inl staged;
  wt_contract : ss_OutputSchemaDigest s = rt_ExpectedOutputSchemaDigest r ∧ ss_PromptDigest s = rt_ExpectedPromptDigest r;
  wt_built : BuildArtifact (so_policyForParser staged) (so_candidate staged) = Ok artifact;
  wt_protected : protected = Check (Some (rt_protectedGate r)) (MkProtectedInput (pol_TargetIPv4 (so_policyForParser staged)) (CheckConsistency nfc (consistency_input r s staged artifact)));
  wt_allowed : Allowed protected = true;
  wt_validated : Validate (MkValidateInput (cand_GeneratedBytes (so_candidate staged)) (pol_TTLSeconds (so_policyForParser staged)) (Some (authorize_from protected)) (rt_baseContract r) (rt_liveSchema r)) = Ok validated;
  wt_syntax : rt_syntaxChecker r (syntax_input r artifact) = Some (e, None) ∧ sy_NFTVersion e = rt_ExpectedNFTVersion r;
  wt_history : harmless_history (history_input s (rt_Environment r) (pol_TargetIPv4 (so_policyForParser staged)) (rt_demoHistory r));
  wt_published : published m staged artifact protected (vr_schema validated) e;
  wt_records : mu_Candidate m = Some (candidateRecord staged artifact) ∧ mu_Policy m = Some (policyRecord staged s)
}.

Lemma evaluate_target_valid m staged artifact : mu_State m = StateInvalid → let final := evaluate_target nfc r s m staged artifact in
  let protected := Check (Some (rt_protectedGate r)) (MkProtectedInput (pol_TargetIPv4 (so_policyForParser staged)) (CheckConsistency nfc (consistency_input r s staged artifact))) in
  mu_State final = StateValid → Allowed protected = true ∧ ∃ validated e,
  Validate (MkValidateInput (cand_GeneratedBytes (so_candidate staged)) (pol_TTLSeconds (so_policyForParser staged)) (Some (authorize_from protected)) (rt_baseContract r) (rt_liveSchema r)) = Ok validated
  ∧ rt_syntaxChecker r (syntax_input r artifact) = Some (e, None) ∧ sy_NFTVersion e = rt_ExpectedNFTVersion r
  ∧ harmless_history (history_input s (rt_Environment r) (pol_TargetIPv4 (so_policyForParser staged)) (rt_demoHistory r))
  ∧ published final staged artifact protected (vr_schema validated) e ∧ mu_Candidate final = mu_Candidate m ∧ mu_Policy final = mu_Policy m.
Proof.
  intros Hm. cbv zeta. unfold evaluate_target. cbv zeta. generalize (CheckConsistency nfc (consistency_input r s staged artifact)). intros consistency.
  destruct (negb (String.eqb _ _)); [intros H; by apply fail_gate_invalid in H|]. generalize (Check (Some (rt_protectedGate r)) (MkProtectedInput (pol_TargetIPv4 (so_policyForParser staged)) consistency)).
  intros protected. destruct (Allowed protected); cbn [negb]; [|intros H; by apply fail_gate_invalid in H].
  match goal with |- context [add_gate (add_gate m ?g) ?h] => generalize h; generalize g end. intros g h H. split; [done|].
  by apply evaluate_syntax_valid in H.
Qed.

Lemma evaluate_valid : let m := evaluate nfc r s in mu_State m = StateValid → ∃ staged artifact protected validated e, went_through m staged artifact protected validated e.
Proof.
  cbv zeta. unfold evaluate. cbv zeta. destruct (checkStructuredOutput nfc s) as [staged|code] eqn:Es; [|intros H; by apply fail_gate_invalid in H].
  destruct (_ || _) eqn:Ed; [intros H; by apply fail_gate_invalid in H|]. apply orb_false_iff in Ed as [Ed1%negb_false_iff%String.eqb_eq Ed2%negb_false_iff%String.eqb_eq].
  match goal with |- context [add_gate (initial_mutation s) ?g] => generalize g end. intros g1. unfold evaluate_command. cbv zeta.
  destruct (BuildArtifact _ _) as [artifact|] eqn:Eb; [|intros H; by apply fail_gate_invalid in H].
  destruct (Canonicalize _ _) as [pure|]; [|intros H; by apply fail_gate_invalid in H]. destruct (negb (sameArtifacts _ _)); [intros H; by apply fail_gate_invalid in H|].
  match goal with |- context [add_gate (add_records ?m ?c ?p) ?g] => generalize g end. intros g2 H.
  apply evaluate_target_valid in H as (Ha & validated & e & H1 & H2 & H3 & H4 & H5 & H6 & H7); [|done].
  eexists staged, artifact, _, validated, e. by constructor.
Qed.

(** With a gate made from the pinned contract, the candidate was vetted. *)
Lemma went_through_vetted raw contract config m staged artifact protected validated e :
  accepted_contract raw contract → NewProtectedGate contract config = Ok (rt_protectedGate r) → went_through m staged artifact protected validated e →
  ∃ target, vetted nfc contract config (consistency_input r s staged artifact) validated target ∧ pol_TargetIPv4 (so_policyForParser staged) = addr4_string target.
Proof.
  intros Hacc Hg Hw. destruct (staged_policy_matches _ _ _ (wt_staged _ _ _ _ _ _ Hw)) as [Ht Httl]. pose proof (wt_built _ _ _ _ _ _ Hw) as Hb.
  pose proof (wt_validated _ _ _ _ _ _ Hw) as Hv. pose proof (wt_allowed _ _ _ _ _ _ Hw) as Ha. pose proof (wt_protected _ _ _ _ _ _ Hw) as Hp.
  set (input := consistency_input r s staged artifact) in *.
  assert (Hverdict : protected = protected_verdict nfc (rt_protectedGate r) input) by (rewrite Hp, Ht; reflexivity). clear Hp.
  assert (Hschema : ∃ proof, ValidateOwnedSchema (rt_baseContract r) (rt_liveSchema r) = Ok proof).
  { apply candidate_Validate_iff in Hv as (? & _ & _ & _ & Hs). by eexists. }
  destruct Hschema as [proof Hschema]. rewrite Hverdict in Ha.
  destruct (gates_complete nfc raw contract config (rt_protectedGate r) input _ _ _ _ proof Hacc Hg Hb Ha Hschema) as (result & target & Hr & Hvet).
  assert (Heq : validated = result).
  { unfold validate_candidate in Hr. change (ci_Candidate input) with artifact in Hr. change (ci_Policy input) with (so_checkedPolicy staged) in Hr.
    rewrite (built_generated _ _ _ Hb), <-Httl, <-Hverdict, Hv in Hr. by injection Hr. }
  subst result. exists target. split; [done|]. rewrite Ht. apply (vet_target _ _ _ _ _ _ Hvet).
Qed.
End verdict.

(** ** A valid verdict *)

(** [nftcheck.Checker] as the worker's syntax checker. *)
Definition nft_checker (expectedVersion : string) (before : option ContextError) (version_run : run_answer) (check_run : string → run_answer * string)
    (input : CheckInput) : option (Evidence * option (option CheckErrorCode)) :=
  let '(e, err) := syntax_Check expectedVersion before version_run check_run input in Some (e, Some <$> err).

Lemma nft_checker_passed expectedVersion before version_run check_run input e : nft_checker expectedVersion before version_run check_run input = Some (e, None) →
  let answer := check_run (ki_CanonicalBytes input) in syntax_passed expectedVersion before version_run answer.1 answer.2 input.
Proof.
  unfold nft_checker. destruct (syntax_Check _ _ _ _ _) as [e' err] eqn:E. destruct err; [done|]. intros _. by apply syntax_Check_iff in E as [E _].
Qed.

Definition worker_policy_json : string := Eval vm_compute in qq
  "{'schema_version':'response-policy-v1','action':'block_ip','target_ip':'203.0.113.20','ttl_seconds':1800,'evidence_ids':['00000000-0000-4000-8000-000000000001'],'rationale':'rationale'}".

Definition worker_candidate_json : string := Eval vm_compute in qq
  "{'schema_version':'nft-blacklist-v1','target_ip':'203.0.113.20','timeout':'1800s','evidence_ids':['00000000-0000-4000-8000-000000000001'],'command':'add element inet sentinelflow blacklist_ipv4 { 203.0.113.20 timeout 1800s }'}".

Definition worker_output : string := Eval vm_compute in
  qq "{'schema_version':'sentinelflow_analysis_v1','incident_summary':'login attempts','classification':'brute_force','confidence':0.9,'uncertainty':'low','false_positive_factors':[],'evidence_ids':['00000000-0000-4000-8000-000000000001'],'policy':"
  +:+ worker_policy_json +:+ qq ",'nftables_command_candidate':" +:+ worker_candidate_json +:+ "}".

Definition worker_time : localtime := MkLocal (63900000000 * Second) 0.

Definition worker_history : HistorySnapshot := MkHistorySnapshot worker_time (MkLocal (lt_instant worker_time - HistoricalImpactLookback) 0) true [] [].

Definition worker_snapshot : PreparedSnapshot := Eval vm_compute in
  MkPrepared sample_uuid sample_uuid sample_uuid sample_uuid sample_uuid sample_uuid 1 worker_time sample_uuid (ce_digest sample_checked_evidence) (ce_canonical sample_checked_evidence) (digest "input") (digest "schema")
    (digest "prompt") (digest worker_output) (digest (command_text sample_target "1800s" false)) worker_output worker_policy_json worker_candidate_json
    (MkEvidenceBinding "203.0.113.20" "gateway" PinnedProtectedIPv4Digest SourceHealthComplete [sample_uuid] [sample_uuid] [sample_signal]) worker_history.

Definition worker_runtime : Runtime :=
  MkRuntime "production" (digest "nft") "nftables v1.0.9" (digest "schema") (digest "prompt") (sample_gate [] [])
    (nft_checker "nftables v1.0.9" None sample_banner (λ stdin, (quiet_run checkArguments "", stdin))) shipped_base canonicalLiveSchema None.

Lemma worker_run_valid : mu_State (evaluate id worker_runtime worker_snapshot) = StateValid.
Proof. vm_compute. reflexivity. Qed.

(** ** The claims *)

(** C10. The verdict on any snapshot: the recorded gates are the first ones of the six in
    their order, every one but the last passed; the verdict is valid exactly when all six
    passed, and only then is a validation published and the audit action a success;
    otherwise the last gate failed, with a well-formed code that is the failure's and
    well-formed digests, and the candidate and policy are recorded exactly when the
    command grammar passed. *)
Theorem gates_in_order nfc r s : verdict_ok s (evaluate nfc r s).
Proof. apply evaluate_verdict. Qed.

(** C9. A valid verdict, end to end: the staged output was well formed and bound to the
    evidence, the parser built the command, which is the one canonical command for an
    unprotected global target that is the source of every signal; the syntax checker
    passed on exactly these bytes with clean runs of the pinned nft; the history of the
    target is harmless; and the published snapshot is the checked one of these values. *)
Theorem valid_verdict_vetted nfc r s raw expected contract config expectedVersion before version_run check_run :
  ParseProtectedContract raw expected = Ok contract → NewProtectedGate contract config = Ok (rt_protectedGate r) →
  rt_syntaxChecker r = nft_checker expectedVersion before version_run check_run → mu_State (evaluate nfc r s) = StateValid →
  ∃ staged artifact protected validated e target, went_through nfc r s (evaluate nfc r s) staged artifact protected validated e
    ∧ vetted nfc contract config (consistency_input r s staged artifact) validated target
    ∧ harmless_history (history_input s (rt_Environment r) (addr4_string target) (rt_demoHistory r))
    ∧ let answer := check_run (art_canonicalBytes artifact) in syntax_passed expectedVersion before version_run answer.1 answer.2 (syntax_input r artifact).
Proof.
  intros Hc Hg Hs Hv. destruct (evaluate_valid nfc r s Hv) as (staged & artifact & protected & validated & e & Hw). exists staged, artifact, protected, validated, e.
  destruct (went_through_vetted _ _ _ _ _ _ _ _ _ _ _ _ (ParseProtectedContract_accepted _ _ _ Hc) Hg Hw) as (target & Hvet & Ht). exists target.
  split; [done|]. split; [done|]. split; [rewrite <-Ht; apply Hw|].
  destruct (wt_syntax _ _ _ _ _ _ _ _ _ Hw) as [Hsy _]. rewrite Hs in Hsy. by apply nft_checker_passed in Hsy.
Qed.

Lemma valid_verdict_vetted_witness : ∃ staged artifact protected validated e target,
  went_through id worker_runtime worker_snapshot (evaluate id worker_runtime worker_snapshot) staged artifact protected validated e
  ∧ vetted id shipped_contract (sample_config [] []) (consistency_input worker_runtime worker_snapshot staged artifact) validated target
  ∧ harmless_history (history_input worker_snapshot (rt_Environment worker_runtime) (addr4_string target) (rt_demoHistory worker_runtime))
  ∧ syntax_passed "nftables v1.0.9" None sample_banner (quiet_run checkArguments "") (art_canonicalBytes artifact) (syntax_input worker_runtime artifact).
Proof.
  exact (valid_verdict_vetted id worker_runtime worker_snapshot shipped_file PinnedProtectedIPv4Digest shipped_contract (sample_config [] []) "nftables v1.0.9" None sample_banner
    (λ stdin, (quiet_run checkArguments "", stdin)) shipped_accepted sample_gate_ok eq_refl worker_run_valid).
Defined.
