(* ===== verification/ValidationRun.v ===== *)
(** * One run of the validation worker ([internal/validationworker/runtime.go])

    Leasing, preparing, evaluating and publishing, with the fall back to a
    mutation-free outcome when the publication is ambiguous.  What the clock, the
    store, the entropy and the contexts answer at each point are arguments; the calls
    to the store are returned as a list, in their order. *)

From S2P Require Import Prelude GoStrings Regex Sha256 GoTime Detection Session Worker NftRunner NftValidate NftCheck Protected Consistency ValidationGates Snapshot History ValidationWorker.
Local Open Scope Z_scope.

Definition ValidationAggregateType : string := "analysis_staging".
Definition MaxConcurrency : Z := 8.
Definition validationTimeoutCode : string := "validation_attempt_timeout".
Definition validationFinalizeTimeoutCode : string := "validation_finalize_timeout".
Definition validationFinalizeUnavailableCode : string := "validation_finalize_unavailable".
Definition maximumFinalizationReserve : duration := 5 * Second.

(** ** Construction *)

(** The fields of [Config] that [Runtime] does not hold. *)
Record WorkerConfig := MkWorkerConfig {
  wo_LeaseOwner : string; wo_LeaseDuration : duration; wo_PollInterval : duration; wo_MaxConcurrency : Z; wo_Backoff : BackoffPolicy
}.

Definition validConfig (c : WorkerConfig) (r : Runtime) : bool :=
  if negb (match_string identifierPattern (wo_LeaseOwner c)) || (wo_LeaseDuration c <=? 0) || (MaxLeaseDuration <? wo_LeaseDuration c)
     || (wo_PollInterval c <=? 0) || (wo_MaxConcurrency c <? 1) || (MaxConcurrency <? wo_MaxConcurrency c)
     || negb (match_string digest_pattern (rt_NFTBinaryDigest r)) || negb (match_string digest_pattern (rt_ExpectedOutputSchemaDigest r))
     || negb (match_string digest_pattern (rt_ExpectedPromptDigest r)) || negb (expectedVersionPattern (rt_ExpectedNFTVersion r))
     || negb (known_environment (rt_Environment r))
  then false else bool_decide (is_Some (backoff_Delay (wo_Backoff c) 1 0)).

(** ** The prepared snapshot *)

Definition signal_ok (s : PreparedSnapshot) (id : string) (signal : SignalEvidenceBinding) : bool :=
  String.eqb (se_SignalID signal) id && match_string digest_pattern (se_SignalDigest signal) && String.eqb (se_SourceIPv4 signal) (eb_SourceIPv4 (ss_Evidence s))
  && worker_validOrderedUUIDs (se_EventIDs signal) 0 && (String.eqb (se_SourceHealthStatus signal) SourceHealthComplete || String.eqb (se_SourceHealthStatus signal) "incomplete").

Definition prepared_fields_ok (s : PreparedSnapshot) : bool :=
  let e := ss_Evidence s in let h := ss_History s in
  match_string uuid_pattern (ss_ValidationAttemptID s) && match_string uuid_pattern (ss_PolicyID s) && match_string uuid_pattern (ss_ValidationID s)
  && match_string uuid_pattern (ss_CommandCandidateID s) && match_string uuid_pattern (ss_AnalysisID s) && match_string uuid_pattern (ss_IncidentID s)
  && negb (ss_IncidentVersion s =? 0) && negb (IsZero (lt_instant (ss_GeneratedAt s))) && match_string uuid_pattern (ss_EvidenceSnapshotID s)
  && match_string digest_pattern (ss_EvidenceSnapshotDigest s) && match_string digest_pattern (ss_AnalysisInputDigest s)
  && match_string digest_pattern (ss_OutputSchemaDigest s) && match_string digest_pattern (ss_PromptDigest s) && match_string digest_pattern (ss_AnalysisOutputDigest s)
  && match_string digest_pattern (ss_GeneratedCommandDigest s) && match_string digest_pattern (eb_SourceHealthDigest e)
  && (String.eqb (eb_SourceHealthStatus e) SourceHealthComplete || String.eqb (eb_SourceHealthStatus e) "incomplete")
  && worker_validEvidenceIDs (eb_SignalIDs e) && (length (eb_Signals e) =? length (eb_SignalIDs e))%nat && worker_validOrderedUUIDs (eb_EventIDs e) 0
  && (Z.of_nat (length (hs_GatewayRecords h)) <=? MaxHistoricalGatewayRows) && (Z.of_nat (length (hs_AuthRecords h)) <=? MaxHistoricalAuthRows)
  && negb (IsZero (lt_instant (hs_Cutoff h))) && Equal (lt_instant (hs_WindowStart h)) (lt_instant (hs_Cutoff h) - HistoricalImpactLookback).

Definition validPreparedSnapshot (s : PreparedSnapshot) : bool :=
  if negb (prepared_fields_ok s) then false
  else
    match ParseCanonicalEvidenceSnapshot (ss_EvidenceCanonicalBytes s) with
    | Err _ => false
    | Ok checked =>
        let evidence := ce_value checked in let e := ss_Evidence s in
        String.eqb (ce_digest checked) (ss_EvidenceSnapshotDigest s) && String.eqb (es_SnapshotID evidence) (ss_EvidenceSnapshotID s)
        && String.eqb (es_IncidentID evidence) (ss_IncidentID s) && (es_IncidentVersion evidence =? ss_IncidentVersion s)
        && String.eqb (es_SourceIPv4 evidence) (eb_SourceIPv4 e) && String.eqb (es_ServiceLabel evidence) (eb_ServiceLabel e)
        && String.eqb (es_SourceHealthDigest evidence) (eb_SourceHealthDigest e) && equalStringSlices (es_SignalIDs evidence) (eb_SignalIDs e)
        && equalStringSlices (es_EventIDs evidence) (eb_EventIDs e) && forallb (λ p, signal_ok s p.1 p.2) (zip (eb_SignalIDs e) (eb_Signals e))
    end.

(** ** One run *)

Definition handlerDeadline (job : LeasedJob) : time :=
  let duration := Sub (lj_LeaseExpiresAt job) (lj_LeaseGrantedAt job) in
  let reserve := Z.quot duration 5 in
  let reserve := if reserve <=? 0 then duration else reserve in
  let reserve := if maximumFinalizationReserve <? reserve then maximumFinalizationReserve else reserve in
  lj_LeaseExpiresAt job - reserve.

Inductive RunError := RunCancelled | RunInvalidConfig | RunInvalidLease | RunUnexpectedJobKind | RunLeaseLost | RunPersistence.

Definition validateLease (job : LeasedJob) (request : LeaseRequest) : option RunError :=
  let j := lj_Job job in
  let duration := Sub (lq_LeaseExpiresAt request) (lq_Now request) in
  if negb (match_string uuid_pattern (jb_JobID j)) || negb (String.eqb (jb_Kind j) "validate") || negb (String.eqb (jb_AggregateType j) ValidationAggregateType)
     || negb (match_string uuid_pattern (jb_AggregateID j)) || negb (jb_AggregateVersion j =? 1) || negb (String.eqb (lj_State job) "leased")
     || negb (String.eqb (lj_LeaseToken job) (lq_LeaseToken request)) || negb (String.eqb (lj_LeaseOwner job) (lq_LeaseOwner request))
     || IsZero (lj_LeaseGrantedAt job) || negb (After (lj_LeaseExpiresAt job) (lj_LeaseGrantedAt job))
     || negb (Sub (lj_LeaseExpiresAt job) (lj_LeaseGrantedAt job) =? duration) || (duration <=? 0) || (MaxLeaseDuration <? duration)
     || (jb_Attempt j <? 1) || (jb_MaxAttempts j <? 1) || (jb_MaxAttempts j <? jb_Attempt j)
  then Some (if negb (String.eqb (jb_Kind j) "validate") then RunUnexpectedJobKind else RunInvalidLease)
  else None.

Definition worker_failureDigest (code : string) : string :=
  digest ("sentinelflow validation-worker-failure-v1" +:+ String "010" "" +:+ code +:+ String "010" "").

Record ValidationResult := MkValidationResult {
  vx_Outcome : Outcome; vx_JobID : string; vx_AnalysisID : string; vx_Attempt : Z; vx_State : string; vx_FailureCode : string; vx_FailedGate : string; vx_RetryAt : option time
}.

Definition no_result : ValidationResult := MkValidationResult OutcomeNone "" "" 0 "" "" "" None.

Definition set_outcome (v : ValidationResult) (o : Outcome) : ValidationResult :=
  MkValidationResult o (vx_JobID v) (vx_AnalysisID v) (vx_Attempt v) (vx_State v) (vx_FailureCode v) (vx_FailedGate v) (vx_RetryAt v).

(** A call to the store; a finalisation carries a mutation or none. *)
Inductive store_call := StoreLease (request : LeaseRequest) | StorePrepare (job : Job) (token : string) | StoreFinalize (finish : FinishRequest) (mutation : option Mutation).

(** What [Finalize] answers: whether it finished, or an error, retryable or not. *)
Inductive finalize_answer := Finalized (finished : bool) | FinalizeFailed (retryable : bool).

Inductive prepare_answer := PrepareFailed | NotPrepared | PreparedWith (s : PreparedSnapshot).

(** The contexts ([ctx] and the one derived from it) at a point of the run. *)
Record contexts := MkContexts { cx_done : bool; cx_derivedDone : bool }.

(** The answers around the operational failure, and around one run. *)
Record failure_world := MkFailureWorld { fw_now : time; fw_done : bool; fw_jitter : option Z; fw_finalize : finalize_answer; fw_after : contexts; fw_afterAll : bool }.

Record run_world := MkRunWorld {
  rw_now : time; rw_token : option string; rw_lease : option (option LeasedJob); rw_prepare : prepare_answer; rw_afterPrepare : contexts; rw_afterEvaluate : contexts;
  rw_completedNow : time; rw_completedDone : bool; rw_finalize : finalize_answer; rw_afterFinalize : contexts; rw_failure : failure_world
}.

Section run.
Context (nfc : string → string) (c : WorkerConfig) (r : Runtime).

Definition answer : Type := list store_call * (ValidationResult * option RunError).

Definition finalizeOperationalFailure (w : failure_world) (job : LeasedJob) (result : ValidationResult) (code : string) : answer :=
  let j := lj_Job job in
  let now := postgresTime (fw_now w) in
  if fw_done w then ([], (result, Some RunCancelled))
  else if negb (Before now (lj_LeaseExpiresAt job)) then ([], (set_outcome result OutcomeLeaseLost, Some RunLeaseLost))
  else
    let failed outcome retryAt := MkValidationResult outcome (vx_JobID result) (vx_AnalysisID result) (vx_Attempt result) "" code "" retryAt in
    let finish state retryAt := MkFinish state retryAt code (worker_failureDigest code) now (jb_JobID j) (lj_LeaseToken job) in
    let publish request result :=
      ([StoreFinalize request None],
       match fw_finalize w with
       | FinalizeFailed _ => if cx_derivedDone (fw_after w) then (result, Some (if cx_done (fw_after w) then RunCancelled else RunLeaseLost)) else (result, Some RunPersistence)
       | Finalized false => (set_outcome result OutcomeLeaseLost, Some RunLeaseLost)
       | Finalized true => (result, None)
       end) in
    if jb_Attempt j <? jb_MaxAttempts j then
      match fw_jitter w with
      | None => ([], (failed OutcomeDeadLettered (vx_RetryAt result), Some RunPersistence))
      | Some jitter =>
          match backoff_Delay (wo_Backoff c) (jb_Attempt j) jitter with
          | None => ([], (failed OutcomeDeadLettered (vx_RetryAt result), Some RunInvalidConfig))
          | Some delay => let retryAt := postgresTime (now + delay) in publish (finish FinishRetry (Some retryAt)) (failed OutcomeRetryScheduled (Some retryAt))
          end
      end
    else publish (finish FinishDead None) (failed OutcomeDeadLettered (vx_RetryAt result)).

Definition finalizeAfterAmbiguousCompleted (w : failure_world) (job : LeasedJob) (result : ValidationResult) (code : string) : answer :=
  let '(calls, (fallback, err)) := finalizeOperationalFailure w job result code in
  match err with
  | None => (calls, (fallback, None))
  | Some e => if fw_afterAll w then (calls, (fallback, Some e)) else (calls, (set_outcome fallback OutcomeLeaseLost, Some RunLeaseLost))
  end.

Definition finalizeCompleted (w : run_world) (job : LeasedJob) (result : ValidationResult) (mutation : Mutation) : answer :=
  let now := postgresTime (rw_completedNow w) in
  if rw_completedDone w then ([], (result, Some RunCancelled))
  else if negb (Before now (lj_LeaseExpiresAt job)) then ([], (set_outcome result OutcomeLeaseLost, Some RunLeaseLost))
  else
    let publish := StoreFinalize (MkFinish FinishCompleted None "" "" now (jb_JobID (lj_Job job)) (lj_LeaseToken job)) (Some mutation) in
    match rw_finalize w with
    | FinalizeFailed retryable =>
        if cx_done (rw_afterFinalize w) then ([publish], (result, Some RunCancelled))
        else if cx_derivedDone (rw_afterFinalize w) then
          let '(calls, a) := finalizeAfterAmbiguousCompleted (rw_failure w) job result validationFinalizeTimeoutCode in (publish :: calls, a)
        else if retryable then
          let '(calls, a) := finalizeAfterAmbiguousCompleted (rw_failure w) job result validationFinalizeUnavailableCode in (publish :: calls, a)
        else ([publish], (result, Some RunPersistence))
    | Finalized false => ([publish], (set_outcome result OutcomeLeaseLost, Some RunLeaseLost))
    | Finalized true => ([publish], (set_outcome result OutcomeCompleted, None))
    end.

(** The gate that failed, of a mutation. *)
Definition failed_gate (m : Mutation) : string := match last (mu_Gates m) with Some g => if negb (gr_Passed g) then gr_Name g else "" | None => "" end.

(** [RunOnce] after a good lease: prepare, evaluate, publish. *)
Definition run_validated (w : run_world) (job : LeasedJob) (result : ValidationResult) : answer :=
  let fail code := finalizeOperationalFailure (rw_failure w) job result code in
  match rw_prepare w with
  | PrepareFailed =>
      if cx_done (rw_afterPrepare w) then ([], (result, Some RunCancelled))
      else if cx_derivedDone (rw_afterPrepare w) then fail validationTimeoutCode
      else fail "validation_snapshot_unavailable"
  | NotPrepared => ([], (set_outcome result OutcomeLeaseLost, Some RunLeaseLost))
  | PreparedWith snapshot =>
      if negb (String.eqb (ss_AnalysisID snapshot) (jb_AggregateID (lj_Job job))) || negb (validPreparedSnapshot snapshot) then fail "validation_snapshot_conflict"
      else
        let mutation := evaluate nfc r snapshot in
        if cx_done (rw_afterEvaluate w) then ([], (result, Some RunCancelled))
        else if cx_derivedDone (rw_afterEvaluate w) then fail validationTimeoutCode
        else
          finalizeCompleted w job
            (MkValidationResult (vx_Outcome result) (vx_JobID result) (vx_AnalysisID result) (vx_Attempt result) (mu_State mutation) (mu_FailureCode mutation)
               (failed_gate mutation) (vx_RetryAt result)) mutation
  end.

(** [RunOnce] *)
Definition validation_RunOnce (w : run_world) : answer :=
  let now := postgresTime (rw_now w) in
  match rw_token w with
  | None => ([], (no_result, Some RunPersistence))
  | Some token =>
      if negb (validUUIDV4 token) then ([], (no_result, Some RunPersistence))
      else
        let leaseRequest := MkLeaseRequest now token (wo_LeaseOwner c) (now + wo_LeaseDuration c) in
        match rw_lease w with
        | None => ([StoreLease leaseRequest], (no_result, Some RunPersistence))
        | Some None => ([StoreLease leaseRequest], (set_outcome no_result OutcomeNoJob, None))
        | Some (Some job) =>
            let j := lj_Job job in
            let result := MkValidationResult OutcomeNone (jb_JobID j) (jb_AggregateID j) (jb_Attempt j) "" "" "" None in
            match validateLease job leaseRequest with
            | Some err => ([StoreLease leaseRequest], (result, Some err))
            | None => let '(calls, a) := run_validated w job result in (StoreLease leaseRequest :: StorePrepare j (lj_LeaseToken job) :: calls, a)
            end
        end
  end.
End run.

(** What [loop] does after one run; [sleepFailed] is the clock's answer to the poll. *)
Definition loop_after (done sleepFailed : bool) (a : ValidationResult * option RunError) : option (option RunError) :=
  match a.2 with
  | Some err => if done then Some None else match err with RunLeaseLost => None | err => Some (Some err) end
  | None => match vx_Outcome a.1 with
            | OutcomeNoJob => if sleepFailed then Some (if done then None else Some RunPersistence) else None
            | _ => None
            end
  end.
