(* ===== verification/ValidationRunSpec.v ===== *)
(** * What one run of the validation worker may publish

    A verdict is published at most once, under the lease that was granted, and is the
    verdict of the six gates on the prepared snapshot; a run that cannot know whether
    its verdict was stored never reports success without the store's confirmation. *)

From S2P Require Import Prelude GoStrings Regex Sha256 GoTime Detection Session SessionSpec Worker WorkerSpec NftRunner NftValidate NftCheck Protected Consistency ValidationGates Snapshot SnapshotSpec History ResponsePolicySpec ValidationWorker ValidationWorkerSpec ValidationRun.
Local Open Scope Z_scope.

(** ** The time reserved for publishing *)

Lemma handlerDeadline_bounds job : lj_LeaseGrantedAt job < lj_LeaseExpiresAt job → lj_LeaseExpiresAt job - lj_LeaseGrantedAt job <= MaxLeaseDuration →
  lj_LeaseGrantedAt job <= handlerDeadline job < lj_LeaseExpiresAt job ∧ lj_LeaseExpiresAt job - handlerDeadline job <= maximumFinalizationReserve.
Proof.
  intros Hlt Hmax. unfold handlerDeadline. set (d := lj_LeaseExpiresAt job - lj_LeaseGrantedAt job) in *.
  assert (Hsub : Sub (lj_LeaseExpiresAt job) (lj_LeaseGrantedAt job) = d) by (unfold Sub, MaxLeaseDuration, Second in *; fold d; lia). rewrite Hsub. cbv zeta.
  assert (0 < d) by lia. rewrite Z.quot_div_nonneg by lia. assert (0 <= d / 5 < d) by (split; [apply Z.div_pos; lia|apply Z.div_lt; lia]).
  assert (0 < maximumFinalizationReserve) by reflexivity.
  destruct (Z.leb_spec (d / 5) 0); match goal with |- context [maximumFinalizationReserve <? ?x] => destruct (Z.ltb_spec maximumFinalizationReserve x) end; lia.
Qed.

(** ** Shapes of a run *)

(** A report under the lease. *)
Record fenced (job : LeasedJob) (now : time) (finish : FinishRequest) : Prop := MkFenced {
  fe_job : fq_JobID finish = jb_JobID (lj_Job job);
  fe_token : fq_LeaseToken finish = lj_LeaseToken job;
  fe_time : fq_Now finish = postgresTime now ∧ fq_Now finish < lj_LeaseExpiresAt job
}.

(** The mutation-free report: a later attempt while attempts are left, dead otherwise. *)
Definition fallback_state (c : WorkerConfig) (job : LeasedJob) (finish : FinishRequest) : Prop :=
  (fq_State finish = FinishRetry ∧ jb_Attempt (lj_Job job) < jb_MaxAttempts (lj_Job job)
     ∧ ∃ jitter delay, backoff_Delay (wo_Backoff c) (jb_Attempt (lj_Job job)) jitter = Some delay ∧ fq_RetryAt finish = Some (postgresTime (fq_Now finish + delay)))
  ∨ (fq_State finish = FinishDead ∧ jb_MaxAttempts (lj_Job job) <= jb_Attempt (lj_Job job) ∧ fq_RetryAt finish = None).

Definition outcome_for (state : FinishState) : Outcome := match state with FinishCompleted => OutcomeCompleted | FinishRetry => OutcomeRetryScheduled | FinishDead => OutcomeDeadLettered end.

Inductive fallback (c : WorkerConfig) (w : failure_world) (job : LeasedJob) : list store_call → ValidationResult * option RunError → Prop :=
  | fallback_none res err : fallback c w job [] (res, Some err)
  | fallback_call finish res err : fenced job (fw_now w) finish → fallback_state c job finish → fq_ErrorDigest finish = worker_failureDigest (fq_ErrorCode finish) →
      (err = None → fw_finalize w = Finalized true ∧ vx_Outcome res = outcome_for (fq_State finish) ∧ vx_State res = "" ∧ vx_FailedGate res = "" ∧ vx_FailureCode res = fq_ErrorCode finish) →
      fallback c w job [StoreFinalize finish None] (res, err).

Inductive publication (c : WorkerConfig) (w : run_world) (job : LeasedJob) (m : Mutation) : list store_call → ValidationResult * option RunError → Prop :=
  | publication_none res err : publication c w job m [] (res, Some err)
  | publication_done finish res err : fenced job (rw_completedNow w) finish → fq_State finish = FinishCompleted →
      (err = None → rw_finalize w = Finalized true ∧ vx_Outcome res = OutcomeCompleted ∧ vx_State res = mu_State m ∧ vx_FailedGate res = failed_gate m ∧ vx_FailureCode res = mu_FailureCode m) →
      publication c w job m [StoreFinalize finish (Some m)] (res, err)
  | publication_fallback finish calls a retryable : fenced job (rw_completedNow w) finish → fq_State finish = FinishCompleted →
      rw_finalize w = FinalizeFailed retryable → fallback c (rw_failure w) job calls a →
      publication c w job m (StoreFinalize finish (Some m) :: calls) a.

Section shapes.
Context (nfc : string → string) (c : WorkerConfig) (r : Runtime).

Lemma operational_fallback w job result code : fallback c w job (finalizeOperationalFailure c w job result code).1 (finalizeOperationalFailure c w job result code).2.
Proof.
  unfold finalizeOperationalFailure. cbv zeta. destruct (fw_done w); [apply fallback_none|]. unfold Before. destruct (Z.ltb_spec (postgresTime (fw_now w)) (lj_LeaseExpiresAt job)) as [Ht|]; cbn [negb]; [|apply fallback_none].
  destruct (Z.ltb_spec (jb_Attempt (lj_Job job)) (jb_MaxAttempts (lj_Job job))).
  - destruct (fw_jitter w) as [jitter|]; [|apply fallback_none]. destruct (backoff_Delay _ _ _) as [delay|] eqn:Ed; [|apply fallback_none]. cbn [fst snd].
    rewrite (surjective_pairing (match fw_finalize w with Finalized _ => _ | FinalizeFailed _ => _ end)).
    apply fallback_call; [by constructor|left; split_and!; try done; by exists jitter, delay|done|]. destruct (fw_finalize w) as [[]|?]; [done|done|]. by destruct (cx_derivedDone _).
  - cbn [fst snd]. rewrite (surjective_pairing (match fw_finalize w with Finalized _ => _ | FinalizeFailed _ => _ end)).
    apply fallback_call; [by constructor|right; by split_and!|done|]. destruct (fw_finalize w) as [[]|?]; [done|done|]. by destruct (cx_derivedDone _).
Qed.

Lemma ambiguous_fallback w job result code : let a := finalizeAfterAmbiguousCompleted c w job result code in fallback c w job a.1 a.2.
Proof.
  cbv zeta. pose proof (operational_fallback w job result code) as H. unfold finalizeAfterAmbiguousCompleted. destruct (finalizeOperationalFailure _ _ _ _ _) as [calls [res [err|]]]; [|done].
  cbn [fst snd] in H. assert (Hs : ∀ res' err', fallback c w job calls (res', Some err')).
  { intros res' err'. inversion H; [apply fallback_none|by apply fallback_call]. }
  destruct (fw_afterAll w); apply Hs.
Qed.

Lemma completed_publication w job result m :
  vx_State result = mu_State m ∧ vx_FailedGate result = failed_gate m ∧ vx_FailureCode result = mu_FailureCode m →
  let a := finalizeCompleted c w job result m in publication c w job m a.1 a.2.
Proof.
  intros Hr. cbv zeta. unfold finalizeCompleted. cbv zeta. destruct (rw_completedDone w); [apply publication_none|].
  unfold Before. destruct (Z.ltb_spec (postgresTime (rw_completedNow w)) (lj_LeaseExpiresAt job)); cbn [negb]; [|apply publication_none].
  destruct (rw_finalize w) as [[]|retryable] eqn:Ef; [by apply publication_done|by apply publication_done|].
  destruct (cx_done _); [by apply publication_done|]. destruct (cx_derivedDone _).
  - pose proof (ambiguous_fallback (rw_failure w) job result validationFinalizeTimeoutCode) as Hf. destruct (finalizeAfterAmbiguousCompleted _ _ _ _ _) as [calls a].
    by apply publication_fallback with retryable.
  - destruct retryable; [|by apply publication_done].
    pose proof (ambiguous_fallback (rw_failure w) job result validationFinalizeUnavailableCode) as Hf. destruct (finalizeAfterAmbiguousCompleted _ _ _ _ _) as [calls a].
    by apply publication_fallback with true.
Qed.

(** What a leased run does after [Prepare]: nothing, a report without a verdict, or the
    verdict of the gates on a valid snapshot of this analysis. *)
Inductive leased_run (w : run_world) (job : LeasedJob) : list store_call → ValidationResult * option RunError → Prop :=
  | leased_fallback calls a : (∀ s, rw_prepare w = PreparedWith s → (ss_AnalysisID s = jb_AggregateID (lj_Job job) ∧ validPreparedSnapshot s = true) → rw_afterEvaluate w = MkContexts false true) →
      fallback c (rw_failure w) job calls a → leased_run w job calls a
  | leased_publication s calls a : rw_prepare w = PreparedWith s → ss_AnalysisID s = jb_AggregateID (lj_Job job) → validPreparedSnapshot s = true →
      publication c w job (evaluate nfc r s) calls a → leased_run w job calls a.

Lemma run_validated_shape w job result : let a := run_validated nfc c r w job result in leased_run w job a.1 a.2.
Proof.
  cbv zeta. unfold run_validated. cbv zeta. destruct (rw_prepare w) as [| |s] eqn:Ep.
  - destruct (cx_done _); [apply leased_fallback; [by rewrite Ep|apply fallback_none]|].
    destruct (cx_derivedDone _); (apply leased_fallback; [by rewrite Ep|apply operational_fallback]).
  - apply leased_fallback; [by rewrite Ep|apply fallback_none].
  - destruct (String.eqb_spec (ss_AnalysisID s) (jb_AggregateID (lj_Job job))) as [Hid|Hid]; cbn [negb orb].
    2:{ apply leased_fallback; [rewrite Ep; by intros ? [= <-] [? _]|apply operational_fallback]. }
    destruct (validPreparedSnapshot s) eqn:Ev; cbn [negb].
    2:{ apply leased_fallback; [rewrite Ep; intros ? [= <-] [_ ?]; congruence|apply operational_fallback]. }
    remember (evaluate nfc r s) as m eqn:Em. destruct (rw_afterEvaluate w) as [[] derived] eqn:Ea; cbn [cx_done cx_derivedDone].
    + apply leased_publication with s; try done. apply publication_none.
    + destruct derived; [apply leased_fallback; [done|apply operational_fallback]|]. apply leased_publication with s; try done. rewrite <-Em. by apply completed_publication.
Qed.
End shapes.

(** ** Leases and whole runs *)

(** A lease the run acts on: it answers the request, is of this worker's kind, and its
    token is a UUID of version 4. *)
Record leased_for (c : WorkerConfig) (w : run_world) (job : LeasedJob) (request : LeaseRequest) : Prop := MkLeasedFor {
  lf_lease : rw_lease w = Some (Some job);
  lf_request : lq_Now request = postgresTime (rw_now w) ∧ lq_LeaseOwner request = wo_LeaseOwner c ∧ lq_LeaseExpiresAt request = lq_Now request + wo_LeaseDuration c;
  lf_token : lj_LeaseToken job = lq_LeaseToken request ∧ validUUIDV4 (lq_LeaseToken request) = true;
  lf_kind : jb_Kind (lj_Job job) = "validate" ∧ jb_AggregateType (lj_Job job) = ValidationAggregateType ∧ jb_AggregateVersion (lj_Job job) = 1;
  lf_ids : match_string uuid_pattern (jb_JobID (lj_Job job)) = true ∧ match_string uuid_pattern (jb_AggregateID (lj_Job job)) = true;
  lf_span : Sub (lj_LeaseExpiresAt job) (lj_LeaseGrantedAt job) = Sub (lq_LeaseExpiresAt request) (lq_Now request);
  lf_attempt : 1 <= jb_Attempt (lj_Job job) <= jb_MaxAttempts (lj_Job job)
}.

Lemma validateLease_ok job request : validateLease job request = None →
  match_string uuid_pattern (jb_JobID (lj_Job job)) = true ∧ jb_Kind (lj_Job job) = "validate" ∧ jb_AggregateType (lj_Job job) = ValidationAggregateType
  ∧ match_string uuid_pattern (jb_AggregateID (lj_Job job)) = true ∧ jb_AggregateVersion (lj_Job job) = 1 ∧ lj_LeaseToken job = lq_LeaseToken request
  ∧ (lj_LeaseGrantedAt job < lj_LeaseExpiresAt job ∧ lj_LeaseExpiresAt job - lj_LeaseGrantedAt job <= MaxLeaseDuration)
  ∧ Sub (lj_LeaseExpiresAt job) (lj_LeaseGrantedAt job) = Sub (lq_LeaseExpiresAt request) (lq_Now request) ∧ 1 <= jb_Attempt (lj_Job job) <= jb_MaxAttempts (lj_Job job).
Proof.
  unfold validateLease. cbv zeta. destruct (_ || _) eqn:E; [done|]. intros _. rewrite !orb_false_iff, !negb_false_iff in E. destruct_and! E.
  repeat match goal with H : String.eqb _ _ = true |- _ => apply String.eqb_eq in H end. unfold After, Sub, MaxLeaseDuration, Second in *. split_and!; try done; lia.
Qed.

Inductive run_shape (nfc : string → string) (c : WorkerConfig) (r : Runtime) (w : run_world) : list store_call → ValidationResult * option RunError → Prop :=
  | shape_nothing calls res err : (∃ leases, calls = StoreLease <$> leases) → run_shape nfc c r w calls (res, Some err)
  | shape_idle request res : rw_lease w = Some None → vx_Outcome res = OutcomeNoJob → run_shape nfc c r w [StoreLease request] (res, None)
  | shape_leased job request calls a : leased_for c w job request → leased_run nfc c r w job calls a →
      run_shape nfc c r w (StoreLease request :: StorePrepare (lj_Job job) (lj_LeaseToken job) :: calls) a.

Lemma RunOnce_run_shape nfc c r w : let a := validation_RunOnce nfc c r w in run_shape nfc c r w a.1 a.2.
Proof.
  cbv zeta. unfold validation_RunOnce. cbv zeta. destruct (rw_token w) as [token|]; [|apply shape_nothing; by exists []].
  destruct (validUUIDV4 token) eqn:Et; cbn [negb]; [|apply shape_nothing; by exists []]. set (request := MkLeaseRequest _ _ _ _).
  destruct (rw_lease w) as [[job|]|] eqn:El; [|by apply shape_idle|apply shape_nothing; by exists [request]].
  destruct (validateLease job request) eqn:Ev; [apply shape_nothing; by exists [request]|].
  set (result := MkValidationResult _ _ _ _ _ _ _ _). pose proof (run_validated_shape nfc c r w job result) as Hs. destruct (run_validated _ _ _ _ _ _) as [calls a].
  apply shape_leased; [|done]. apply validateLease_ok in Ev as (? & ? & ? & ? & ? & ? & ? & ? & ?). by constructor.
Qed.

(** The failed gate names one exactly when the verdict is not valid. *)
Lemma failed_gate_iff s m : verdict_ok s m → (mu_State m = StateValid ↔ failed_gate m = "").
Proof.
  intros [(k & Hk & Hkeys & _) (before & final & Hg & _ & Hcase) _]. unfold failed_gate. rewrite Hg, last_snoc.
  destruct Hcase as [(-> & _ & -> & _)|(-> & -> & _)]; cbn [negb]; [done|]. split; [done|]. intros Hname. exfalso.
  assert (Hin : gate_key final ∈ gate_keys).
  { rewrite <-(take_drop k gate_keys), <-Hkeys, Hg, fmap_app. apply elem_of_app. left. apply elem_of_app. right. by apply list_elem_of_singleton. }
  assert (Hall : Forall (λ key : Z * string, key.2 ≠ "") gate_keys) by (by repeat constructor). rewrite Forall_forall in Hall. by apply (Hall _ Hin).
Qed.

(** The run of a published verdict. *)
Record published_verdict (nfc : string → string) (c : WorkerConfig) (r : Runtime) (w : run_world) (calls : list store_call) (finish : FinishRequest) (m : Mutation) : Prop := MkPublishedVerdict {
  pv_run : ∃ job request s rest, calls = StoreLease request :: StorePrepare (lj_Job job) (lj_LeaseToken job) :: StoreFinalize finish (Some m) :: rest
    ∧ leased_for c w job request ∧ fenced job (rw_completedNow w) finish
    ∧ rw_prepare w = PreparedWith s ∧ ss_AnalysisID s = jb_AggregateID (lj_Job job) ∧ validPreparedSnapshot s = true ∧ m = evaluate nfc r s
    ∧ (rest = [] ∨ ∃ fallback_finish retryable, rest = [StoreFinalize fallback_finish None] ∧ rw_finalize w = FinalizeFailed retryable
         ∧ fenced job (fw_now (rw_failure w)) fallback_finish ∧ fallback_state c job fallback_finish);
  pv_state : fq_State finish = FinishCompleted
}.

Lemma shape_published nfc c r w calls a finish m : run_shape nfc c r w calls a → StoreFinalize finish (Some m) ∈ calls → published_verdict nfc c r w calls finish m.
Proof.
  intros Hs Hin. destruct Hs as [calls res err [leases ->]|request res _ _|job request calls a Hl Hrun].
  - apply list_elem_of_fmap in Hin as (? & [=] & _).
  - rewrite elem_of_cons, elem_of_nil in Hin. by destruct Hin as [[=]|[]].
  - rewrite !elem_of_cons in Hin. destruct Hin as [[=]|[[=]|Hin]].
    assert (Hfb : ∀ w' calls' a', fallback c w' job calls' a' → StoreFinalize finish (Some m) ∈ calls' → False).
    { intros w' calls' a' [? ?|? ? ? _ _ _ _] Hin'; [by rewrite elem_of_nil in Hin'|]. rewrite elem_of_cons, elem_of_nil in Hin'. by destruct Hin' as [[=]|[]]. }
    destruct Hrun as [calls a _ Hf|s calls a Hp Hid Hv Hpub]; [by destruct (Hfb _ _ _ Hf Hin)|].
    destruct Hpub as [res err|fin res err Hfe Hst _|fin calls a retryable Hfe Hst Hans Hf]; [by rewrite elem_of_nil in Hin|..];
      rewrite elem_of_cons in Hin; destruct Hin as [[= -> ->]|Hin]; [|by rewrite elem_of_nil in Hin| |by destruct (Hfb _ _ _ Hf Hin)]; (split; [|done]).
    + exists job, request, s, []. split_and!; try done. by left.
    + exists job, request, s, calls. split_and!; try done. destruct Hf as [? ?|f ? ? ? ? _ _]; [by left|right]. by exists f, retryable.
Qed.

Lemma shape_confirmed nfc c r w calls res : run_shape nfc c r w calls (res, None) →
  (vx_Outcome res = OutcomeNoJob ∧ rw_lease w = Some None)
  ∨ (vx_Outcome res = OutcomeCompleted ∧ rw_finalize w = Finalized true
     ∧ ∃ s finish, rw_prepare w = PreparedWith s ∧ last calls = Some (StoreFinalize finish (Some (evaluate nfc r s)))
       ∧ vx_State res = mu_State (evaluate nfc r s) ∧ vx_FailureCode res = mu_FailureCode (evaluate nfc r s) ∧ (vx_State res = StateValid ↔ vx_FailedGate res = ""))
  ∨ (fw_finalize (rw_failure w) = Finalized true ∧ vx_State res = ""
     ∧ ∃ finish, last calls = Some (StoreFinalize finish None) ∧ vx_Outcome res = outcome_for (fq_State finish) ∧ fq_State finish ≠ FinishCompleted).
Proof.
  intros Hs. remember (res, None) as a eqn:Ea. destruct Hs as [calls res' err _|request res' Hno Ho|job request calls a Hl Hrun]; [done|left; by injection Ea as ->|].
  assert (Hfb : ∀ pre calls', fallback c (rw_failure w) job calls' a → fw_finalize (rw_failure w) = Finalized true ∧ vx_State res = ""
     ∧ ∃ finish, last (pre ++ calls') = Some (StoreFinalize finish None) ∧ vx_Outcome res = outcome_for (fq_State finish) ∧ fq_State finish ≠ FinishCompleted).
  { intros pre calls' Hf. destruct Hf as [? ?|fin res' err _ Hst _ Hok]; [done|]. injection Ea as -> ->. destruct (Hok eq_refl) as (? & ? & ? & _ & _). split_and!; try done.
    exists fin. split; [apply last_snoc|]. split; [done|]. destruct Hst as [(-> & _)|(-> & _)]; done. }
  right. destruct Hrun as [calls a _ Hf|s calls a Hp Hid Hv Hpub]; [right; by apply (Hfb [_; _])|].
  destruct Hpub as [? ?|fin res' err _ _ Hok|fin calls a retryable _ _ _ Hf]; [done| |right; by apply (Hfb [_; _; _])].
  injection Ea as -> ->. destruct (Hok eq_refl) as (Hfin & Hout & Hst & Hgate & Hcode). left. split; [done|]. split; [done|]. exists s, fin.
  split; [done|]. split; [reflexivity|]. split; [done|]. split; [done|]. rewrite Hst, Hgate. apply (failed_gate_iff s), evaluate_verdict.
Qed.

(** ** A published verdict *)

Definition worker_config : WorkerConfig := MkWorkerConfig "validator-1" (60 * Second) Second 1 (MkBackoff Second Minute).

Definition worker_job : LeasedJob :=
  MkLeasedJob (MkJob sample_uuid "validate" ValidationAggregateType sample_uuid 1 1 3) "leased" sample_now sample_token "validator-1" sample_now (sample_now + 60 * Second).

(** The store could not say whether it stored the verdict; the fall back was stored. *)
Definition worker_world (finalized : finalize_answer) : run_world :=
  MkRunWorld sample_now (Some sample_token) (Some (Some worker_job)) (PreparedWith worker_snapshot) (MkContexts false false) (MkContexts false false)
    (sample_now + 20 * Second) false finalized (MkContexts false false)
    (MkFailureWorld (sample_now + 30 * Second) false (Some 7) (Finalized true) (MkContexts false false) false).

Definition published_finish : FinishRequest := MkFinish FinishCompleted None "" "" (postgresTime (sample_now + 20 * Second)) sample_uuid sample_token.

Lemma worker_snapshot_prepared : validPreparedSnapshot worker_snapshot = true.
Proof. vm_compute. reflexivity. Qed.

Lemma worker_lease_ok : validateLease worker_job (MkLeaseRequest (postgresTime sample_now) sample_token "validator-1" (postgresTime sample_now + 60 * Second)) = None.
Proof. vm_compute. reflexivity. Qed.

Lemma worker_publishes finalized : ∃ l rest, (validation_RunOnce id worker_config worker_runtime (worker_world finalized)).1 = l ++ StoreFinalize published_finish (Some (evaluate id worker_runtime worker_snapshot)) :: rest
  ∧ (finalized = Finalized true → (validation_RunOnce id worker_config worker_runtime (worker_world finalized)).2.2 = None).
Proof.
  unfold validation_RunOnce. cbv zeta. cbn [rw_token rw_lease rw_now worker_world]. change (validUUIDV4 sample_token) with true. cbn [negb].
  change (wo_LeaseOwner worker_config) with "validator-1". change (wo_LeaseDuration worker_config) with (60 * Second). rewrite worker_lease_ok.
  unfold run_validated. cbv zeta. cbn [rw_prepare worker_world]. rewrite worker_snapshot_prepared. change (negb (String.eqb _ _) || negb true) with false. cbn beta iota.
  remember (evaluate id worker_runtime worker_snapshot) as m eqn:Em. clear Em. cbn [rw_afterEvaluate cx_done cx_derivedDone worker_world]. unfold finalizeCompleted. cbv zeta.
  cbn [rw_completedNow rw_completedDone rw_finalize rw_afterFinalize cx_done cx_derivedDone worker_world]. change (negb (Before _ _)) with false. cbn beta iota.
  destruct finalized as [[]|[]]; cbn [fst snd].
  1,2,4: by eexists [_; _], [].
  destruct (finalizeAfterAmbiguousCompleted _ _ _ _ _) as [calls a]. by eexists [_; _], calls.
Qed.

(** ** The claims *)

(** C11. A verdict reaches the store at most once per run, right after the lease and the
    preparation; the lease answers the run's own request with its token, the report is
    made before the lease expires, and the verdict is that of the six gates on the valid
    prepared snapshot of the leased analysis.  Only a report without a verdict may
    follow, when the store failed to say whether it stored the verdict: a retry while
    attempts are left, dead otherwise. *)
Theorem verdict_published_once nfc c r w finish m :
  StoreFinalize finish (Some m) ∈ (validation_RunOnce nfc c r w).1 → published_verdict nfc c r w (validation_RunOnce nfc c r w).1 finish m.
Proof. apply (shape_published _ _ _ _ _ (validation_RunOnce nfc c r w).2), RunOnce_run_shape. Qed.

Lemma verdict_published_once_witness : published_verdict id worker_config worker_runtime (worker_world (FinalizeFailed true))
  (validation_RunOnce id worker_config worker_runtime (worker_world (FinalizeFailed true))).1 published_finish (evaluate id worker_runtime worker_snapshot).
Proof.
  apply (verdict_published_once id worker_config worker_runtime (worker_world (FinalizeFailed true)) published_finish (evaluate id worker_runtime worker_snapshot)).
  destruct (worker_publishes (FinalizeFailed true)) as (l & rest & -> & _). apply elem_of_app. right. by left.
Defined.

(** A run that returns without an error found no job, or the store confirmed its last
    report: a completed run published the verdict of the gates on the prepared snapshot
    and reports its state, with a failed gate exactly when the verdict is not valid; a
    run that scheduled a retry or gave up reports no state. *)
Theorem success_is_confirmed nfc c r w : (validation_RunOnce nfc c r w).2.2 = None →
  let res := (validation_RunOnce nfc c r w).2.1 in
  (vx_Outcome res = OutcomeNoJob ∧ rw_lease w = Some None)
  ∨ (vx_Outcome res = OutcomeCompleted ∧ rw_finalize w = Finalized true
     ∧ ∃ s finish, rw_prepare w = PreparedWith s ∧ last (validation_RunOnce nfc c r w).1 = Some (StoreFinalize finish (Some (evaluate nfc r s)))
       ∧ vx_State res = mu_State (evaluate nfc r s) ∧ vx_FailureCode res = mu_FailureCode (evaluate nfc r s) ∧ (vx_State res = StateValid ↔ vx_FailedGate res = ""))
  ∨ (fw_finalize (rw_failure w) = Finalized true ∧ vx_State res = ""
     ∧ ∃ finish, last (validation_RunOnce nfc c r w).1 = Some (StoreFinalize finish None) ∧ vx_Outcome res = outcome_for (fq_State finish) ∧ fq_State finish ≠ FinishCompleted).
Proof.
  pose proof (RunOnce_run_shape nfc c r w) as Hs. cbv zeta in *. destruct (validation_RunOnce nfc c r w) as [calls [res err]]. cbn [fst snd] in *. intros ->. by apply shape_confirmed in Hs.
Qed.

Lemma success_is_confirmed_witness : let w := worker_world (Finalized true) in let res := (validation_RunOnce id worker_config worker_runtime w).2.1 in
  (vx_Outcome res = OutcomeNoJob ∧ rw_lease w = Some None)
  ∨ (vx_Outcome res = OutcomeCompleted ∧ rw_finalize w = Finalized true
     ∧ ∃ s finish, rw_prepare w = PreparedWith s ∧ last (validation_RunOnce id worker_config worker_runtime w).1 = Some (StoreFinalize finish (Some (evaluate id worker_runtime s)))
       ∧ vx_State res = mu_State (evaluate id worker_runtime s) ∧ vx_FailureCode res = mu_FailureCode (evaluate id worker_runtime s) ∧ (vx_State res = StateValid ↔ vx_FailedGate res = ""))
  ∨ (fw_finalize (rw_failure w) = Finalized true ∧ vx_State res = ""
     ∧ ∃ finish, last (validation_RunOnce id worker_config worker_runtime w).1 = Some (StoreFinalize finish None) ∧ vx_Outcome res = outcome_for (fq_State finish) ∧ fq_State finish ≠ FinishCompleted).
Proof.
  apply (success_is_confirmed id worker_config worker_runtime (worker_world (Finalized true))).
  destruct (worker_publishes (Finalized true)) as (l & rest & _ & H). by apply H.
Defined.

(** The worker stops before its lease does: the deadline of the work lies within the
    lease, strictly before its end, and at most five seconds are kept for publishing. *)
Theorem work_ends_before_lease job request : validateLease job request = None →
  lj_LeaseGrantedAt job <= handlerDeadline job < lj_LeaseExpiresAt job ∧ lj_LeaseExpiresAt job - handlerDeadline job <= maximumFinalizationReserve.
Proof. intros (_ & _ & _ & _ & _ & _ & [H Hm] & _)%validateLease_ok. by apply handlerDeadline_bounds. Qed.

Lemma work_ends_before_lease_witness : lj_LeaseGrantedAt worker_job <= handlerDeadline worker_job < lj_LeaseExpiresAt worker_job
  ∧ lj_LeaseExpiresAt worker_job - handlerDeadline worker_job <= maximumFinalizationReserve.
Proof. exact (work_ends_before_lease worker_job _ worker_lease_ok). Defined.
