(* ===== verification/PolicyReader.v ===== *)
(** * Reading response policies back ([internal/policy/response_policy.go])

    [ParseCanonicalResponsePolicy] accepts the canonical bytes of a checked policy and
    nothing else; the file ends with that round trip. *)

From S2P Require Import Prelude GoSort GoStrings Regex Sha256 GoTime GoTimeParse Netip NetPrefix Policy PolicySpec ResponsePolicy ResponsePolicySpec Json JsonTree CanonicalJson CapabilitySpec Detection Protected ProtectedSpec Consistency ConsistencySpec Snapshot SnapshotSpec.
Local Open Scope Z_scope.

(** [responsePolicyWire] *)
Record responsePolicyWire := MkPolicyWire { pw_texts : texts; pw_policy_version : Z; pw_ttl_seconds : Z; pw_evidence_ids : slice string }.

Definition policy_text_names : list string :=
  ["schema_version"; "policy_id"; "incident_id"; "analysis_id"; "action"; "target_ipv4"; "evidence_snapshot_digest"; "rationale_digest"; "created_at"].

Definition decode_policy_wire : decoder responsePolicyWire := decode_object
  (map (λ name, (name, λ v w, x ← decode_string v (text (pw_texts w) name);
      Some (MkPolicyWire (set_text (pw_texts w) name x) (pw_policy_version w) (pw_ttl_seconds w) (pw_evidence_ids w)))) policy_text_names
   ++ [("policy_version", λ v w, x ← decode_uint 32 v (pw_policy_version w); Some (MkPolicyWire (pw_texts w) x (pw_ttl_seconds w) (pw_evidence_ids w)));
       ("ttl_seconds", λ v w, x ← decode_uint 32 v (pw_ttl_seconds w); Some (MkPolicyWire (pw_texts w) (pw_policy_version w) x (pw_evidence_ids w)));
       ("evidence_ids", λ v w, x ← decode_strings v (pw_evidence_ids w); Some (MkPolicyWire (pw_texts w) (pw_policy_version w) (pw_ttl_seconds w) x))]).

Definition policy_of_wire (w : responsePolicyWire) (createdAt : localtime) : ResponsePolicy :=
  let field := text (pw_texts w) in
  MkResponsePolicy (field "schema_version") (field "policy_id") (pw_policy_version w) (field "incident_id") (field "analysis_id") (field "action")
    (field "target_ipv4") (pw_ttl_seconds w) (field "evidence_snapshot_digest") (elements (pw_evidence_ids w)) (field "rationale_digest") createdAt.

(** [rejectDuplicateJSONNames], then the strict decoder, are one reading of the bytes. *)
Definition ParseCanonicalResponsePolicy (data : string) : result PolicyErrorCode CheckedResponsePolicy :=
  if (len data =? 0) || (MaxPolicyBytes <? len data) then Err PolicyErrorEncoding
  else
    match parse_document (chars data) with
    | None => Err PolicyErrorEncoding
    | Some v =>
        if negb (unique_names v) then Err PolicyErrorEncoding
        else
          match decode_policy_wire v (MkPolicyWire [] 0 0 nil_slice) with
          | None => Err PolicyErrorEncoding
          | Some wire =>
              match parse_rfc3339nano (text (pw_texts wire) "created_at") with
              | None => Err PolicyErrorCreatedAt
              | Some createdAt =>
                  checked ← CheckResponsePolicy (policy_of_wire wire createdAt);
                  if negb (String.eqb data (crp_canonical checked)) then Err PolicyErrorCanonical else Ok checked
              end
          end
    end.

(** ** The document *)

Definition policy_document (v : ResponsePolicy) : json :=
  JObject
    [("action", JString (rp_Action v)); ("analysis_id", JString (rp_AnalysisID v)); ("created_at", json_time (rp_CreatedAt v));
     ("evidence_ids", JArray (JString <$> rp_EvidenceIDs v)); ("evidence_snapshot_digest", JString (rp_EvidenceSnapshotDigest v));
     ("incident_id", JString (rp_IncidentID v)); ("policy_id", JString (rp_PolicyID v)); ("policy_version", json_uint (rp_PolicyVersion v));
     ("rationale_digest", JString (rp_RationaleDigest v)); ("schema_version", JString (rp_SchemaVersion v)); ("target_ipv4", JString (rp_TargetIPv4 v));
     ("ttl_seconds", json_uint (rp_TTLSeconds v))].

Lemma strings_write ids i : chars (appendJSONStrings i ids) ++ ["]"%char] = write_element_list (0 <? i)%nat (JString <$> ids).
Proof.
  revert i. induction ids as [|id ids IH]; intros i; [done|]. cbn [appendJSONStrings fmap list_fmap write_element_list]. rewrite !chars_app, <-!app_assoc, (IH (S i)).
  f_equal. by destruct (0 <? i)%nat.
Qed.

Lemma marshal_document v : 0 <= rp_PolicyVersion v < 2 ^ 32 → 0 <= rp_TTLSeconds v < 2 ^ 32 → rp_CreatedAt v = UTC (rp_CreatedAt v) →
  chars (marshalResponsePolicyJCS v) = write_json (policy_document v).
Proof.
  intros Hp Ht Hu. unfold marshalResponsePolicyJCS, policy_document, json_time, json_uint. rewrite !appendUint32_format by done. rewrite <-Hu, write_json_object.
  cbn [write_member_list]. rewrite write_json_array, <-(strings_write _ 0). cbn [write_json write_value]. unfold appendJSONString. rewrite !chars_app.
  repeat (rewrite <-?app_assoc; cbn [app]). reflexivity.
Qed.

(** ** The round trip *)

Lemma policy_simple v : policy_ok v → simple (policy_document v).
Proof.
  intros [Hs Hi Hv Hn Ha Hact Ht Httl He Hr Hev _ _]. pose proof (tidy_strings _ (evidence_plain _ Hev)) as Hl%tidy_simple.
  unfold policy_document, json_time, json_uint. rewrite Hs, Hact. unfold MinTTLSeconds, MaxTTLSeconds, MaxInt32 in *. cbn [simple foldr fst snd].
  split_and!; try done; auto using uuid_text_plain, digest_text_plain, ipv4_text_plain, time_plain; eexists; (split; [|done]); lia.
Qed.

Lemma policy_unique v : unique_names (policy_document v) = true.
Proof.
  unfold policy_document, json_time, json_uint. pose proof (unique_strings (rp_EvidenceIDs v)) as H. revert H. generalize (JArray (JString <$> rp_EvidenceIDs v)).
  intros a H. cbn [unique_names forallb snd]. by rewrite H.
Qed.

Lemma policy_decodes v : 0 <= rp_PolicyVersion v < 2 ^ 32 → 0 <= rp_TTLSeconds v < 2 ^ 32 →
  ∃ w, decode_policy_wire (policy_document v) (MkPolicyWire [] 0 0 nil_slice) = Some w
  ∧ (∀ t, policy_of_wire w t
      = MkResponsePolicy (rp_SchemaVersion v) (rp_PolicyID v) (rp_PolicyVersion v) (rp_IncidentID v) (rp_AnalysisID v) (rp_Action v) (rp_TargetIPv4 v)
          (rp_TTLSeconds v) (rp_EvidenceSnapshotDigest v) (rp_EvidenceIDs v) (rp_RationaleDigest v) t)
  ∧ text (pw_texts w) "created_at" = format_rfc3339nano (lt_instant (rp_CreatedAt v)).
Proof.
  intros Hv Ht. unfold policy_document, json_time, json_uint. destruct (decode_strings_print (rp_EvidenceIDs v)) as (s & Hs & Es).
  pose proof (decode_uint_print 32 (rp_PolicyVersion v) 0 Hv) as H1. pose proof (decode_uint_print 32 (rp_TTLSeconds v) 0 Ht) as H2.
  revert Hs H1 H2. generalize (JArray (JString <$> rp_EvidenceIDs v)), (JNumber (chars (format_uint (rp_PolicyVersion v)))), (JNumber (chars (format_uint (rp_TTLSeconds v)))).
  generalize (format_rfc3339nano (lt_instant (rp_CreatedAt v))). intros x a b c Hs H1 H2. eexists. split.
  - unfold decode_policy_wire, decode_object. rewrite !decode_fields_cons.
    lazy -[decode_strings decode_uint nil_slice]. rewrite Hs. lazy -[decode_strings decode_uint nil_slice]. rewrite H1. lazy -[decode_strings decode_uint nil_slice].
    rewrite H2. lazy -[decode_strings]. reflexivity.
  - rewrite <-Es. done.
Qed.

(** ** The canonical bytes are short *)

Lemma trim_zeros_length l : (length (trim_zeros l) ≤ length l)%nat.
Proof. destruct (trim_zeros_spec l) as [k Hk]. apply (f_equal length) in Hk. rewrite length_app, length_replicate in Hk. lia. Qed.

Lemma instant_bounded t : four_digit_year t → bounded 30 (format_rfc3339nano t).
Proof.
  intros Hy. split; [apply format_rfc3339nano_plain|]. unfold format_rfc3339nano. rewrite chars_implode, !length_app, seconds_text_length by done.
  pose proof (nanosecond_range t) as Hn. pose proof (trim_zeros_length (padded 9 (NanosecondOf t))) as Ht.
  rewrite padded_length in Ht by (unfold Second in Hn; simpl; lia). unfold fraction_text. destruct (_ =? 0); cbn [length]; lia.
Qed.

Lemma string_size n s : bounded n s → (length (write_json (JString s)) ≤ n + 2)%nat.
Proof. intros [Hp Hn]. cbn [write_json write_value]. rewrite json_string_plain by done. cbn [length]. rewrite length_app. cbn [length]. lia. Qed.

Lemma uint_size n z : 0 <= z < 10 ^ Z.of_nat n → (1 ≤ n)%nat → (length (write_json (JNumber (chars (format_uint z)))) ≤ n)%nat.
Proof. apply format_uint_bounded. Qed.

Lemma elements_size n es tail : Forall (λ e, length (write_json e) ≤ n)%nat es → (length (write_element_list tail es) ≤ (n + 1) * length es + 1)%nat.
Proof.
  intros H. revert tail. induction H as [|e es He _ IH]; intros tail; cbn [write_element_list length]; [lia|].
  fold write_element_list. specialize (IH true). rewrite !length_app. destruct tail; cbn [length]; lia.
Qed.

(** Each member within its bound. *)
Lemma members_size ms ns tail : Forall2 (λ m n, plain m.1 ∧ length (write_json m.2) ≤ n)%nat ms ns →
  (length (write_member_list tail ms) ≤ sum_list_with (λ m, length (chars m.1)) ms + sum_list ns + 4 * length ms + 1)%nat.
Proof.
  intros H. revert tail. induction H as [|[k v] n ms ns [Hk Hv] _ IH]; intros tail; cbn [write_member_list sum_list sum_list_with length fst snd] in *; [lia|].
  fold write_member_list. specialize (IH true). rewrite json_string_plain by done. rewrite !length_app. cbn [length]. rewrite !length_app. cbn [length].
  change (sum_list_with (λ m, length (chars m.1)) ((k, v) :: ms)) with (length (chars k) + sum_list_with (λ m, length (chars m.1)) ms)%nat.
  change (id n) with n. destruct tail; cbn [length]; lia.
Qed.

Lemma policy_size v : policy_ok v → utc_year_ok (rp_CreatedAt v) → (length (write_json (policy_document v)) ≤ 4000)%nat.
Proof.
  intros [Hs Hi Hv Hn Ha Hact Ht Httl He Hr ((_ & Hcount) & Hids & _) _ _] Hy. unfold policy_document. rewrite write_json_object. cbn [length].
  assert (Harr : (length (write_json (JArray (JString <$> rp_EvidenceIDs v))) ≤ 2000)%nat).
  { rewrite write_json_array. cbn [length]. pose proof (elements_size 38 (JString <$> rp_EvidenceIDs v) false) as Hel. rewrite length_fmap in Hel.
    assert (Hall : Forall (λ e, length (write_json e) ≤ 38)%nat (JString <$> rp_EvidenceIDs v)).
    { apply Forall_fmap. eapply Forall_impl; [exact Hids|]. intros id Hid. apply (string_size 36), uuid_bounded, Hid. }
    specialize (Hel Hall). unfold MaxEvidenceIDs in Hcount. lia. }
  revert Harr. generalize (JArray (JString <$> rp_EvidenceIDs v)). intros a Harr.
  pose proof (members_size
    [("action", JString (rp_Action v)); ("analysis_id", JString (rp_AnalysisID v)); ("created_at", json_time (rp_CreatedAt v));
     ("evidence_ids", a); ("evidence_snapshot_digest", JString (rp_EvidenceSnapshotDigest v));
     ("incident_id", JString (rp_IncidentID v)); ("policy_id", JString (rp_PolicyID v)); ("policy_version", json_uint (rp_PolicyVersion v));
     ("rationale_digest", JString (rp_RationaleDigest v)); ("schema_version", JString (rp_SchemaVersion v)); ("target_ipv4", JString (rp_TargetIPv4 v));
     ("ttl_seconds", json_uint (rp_TTLSeconds v))] [50; 38; 32; 2000; 73; 38; 38; 10; 73; 50; 17; 10]%nat false) as Hsize.
  eapply Nat.le_trans; [apply le_n_S, Hsize|vm_compute; lia]. unfold json_time, json_uint, MaxInt32, MinTTLSeconds, MaxTTLSeconds in *.
  rewrite Hs, Hact. repeat (apply Forall2_cons; split; [split; [done|]|]); cbn [fst snd];
    [apply (string_size 48); split; [by vm_compute|vm_compute; lia]|apply (string_size 36), uuid_bounded, Ha|apply (string_size 30), instant_bounded; unfold four_digit_year, utc_year_ok in *; lia|done
    |apply (string_size 71), digest_bounded, He|apply (string_size 36), uuid_bounded, Hn|apply (string_size 36), uuid_bounded, Hi|apply uint_size; [lia|lia]
    |apply (string_size 71), digest_bounded, Hr|apply (string_size 48); split; [by vm_compute|vm_compute; lia]|apply (string_size 15), ipv4_bounded, canonical_ipv4_is, Ht|apply uint_size; [lia|lia]|constructor].
Qed.

(** Freezing a policy read in UTC changes nothing. *)
Lemma policy_ok_freeze v : policy_ok v → utc_year_ok (rp_CreatedAt v) → policy_ok (freeze v).
Proof.
  intros [] Hy. split; try done. cbn. unfold LocalYear, UTC, utc_year_ok in *. cbn [lt_instant lt_zone]. by rewrite Z.mul_0_l, Z.add_0_r.
Qed.

Lemma policy_reads v c : rp_typed v → utc_year_ok (rp_CreatedAt v) → CheckResponsePolicy v = Ok c → ParseCanonicalResponsePolicy (crp_canonical c) = Ok c.
Proof.
  intros Ht Hy Hc. apply CheckResponsePolicy_iff in Hc as [Hv ->]; [|done]. pose proof (policy_ok_freeze v Hv Hy) as Hf.
  assert (Hcan : chars (crp_canonical (checked_of v)) = write_json (policy_document (freeze v))).
  { destruct Hf. unfold MinTTLSeconds, MaxTTLSeconds, MaxInt32 in *. apply marshal_document; [lia..|reflexivity]. }
  unfold ParseCanonicalResponsePolicy, MaxPolicyBytes. rewrite len_chars, Hcan. pose proof (policy_size (freeze v) Hf Hy) as Hlen.
  destruct (write_json_head _ (policy_simple _ Hf)) as (ch & l & Hhd & _). rewrite (proj2 (Z.eqb_neq _ _)) by (rewrite Hhd; cbn [length]; lia).
  rewrite (proj2 (Z.ltb_ge (8 * 1024) _)) by lia. cbn [orb]. rewrite (parse_document_write _ (policy_simple _ Hf)), policy_unique. cbn [negb].
  destruct (policy_decodes (freeze v)) as (w & -> & Hw & ->); [destruct Hf; unfold MinTTLSeconds, MaxTTLSeconds, MaxInt32 in *; lia..|].
  change (rp_CreatedAt (freeze v)) with (UTC (rp_CreatedAt v)). rewrite utc_parses by done. rewrite Hw.
  assert (Hck : CheckResponsePolicy (freeze v) = Ok (checked_of v)) by (apply CheckResponsePolicy_iff; [done|]; by split).
  change (MkResponsePolicy _ _ _ _ _ _ _ _ _ _ _ _) with (freeze v). rewrite Hck. cbn [mbind result_bind]. by rewrite String.eqb_refl.
Qed.

Lemma policy_only_canonical data c : ParseCanonicalResponsePolicy data = Ok c → data = crp_canonical c ∧ ∃ v, CheckResponsePolicy v = Ok c.
Proof.
  unfold ParseCanonicalResponsePolicy. destruct (_ || _); [done|]. destruct (parse_document _); [|done]. destruct (negb (unique_names _)); [done|].
  destruct (decode_policy_wire _ _) as [w|]; [|done]. destruct (parse_rfc3339nano _); [|done]. destruct (CheckResponsePolicy _) as [c'|] eqn:E; [|done].
  cbn [mbind result_bind]. destruct (String.eqb_spec data (crp_canonical c')) as [->|]; [|done]. cbn [negb]. intros H.
  assert (c = c') as -> by congruence. split; [done|by eexists].
Qed.
