(* ===== verification/Hil.v ===== *)
(** * Human decisions: types, reasons and the exact artifact ([internal/hil])

    [types.go], [jcs.go], [reason.go] and [artifact.go]: the session an administrator acts
    in, the canonical writer, the reason given for a decision, and the hand-off that binds
    a checked policy, its command, its evidence and its validation to one another.

    [time.Time] values are instants with a zone.  The Unicode normalization of
    [golang.org/x/text/unicode/norm] is a parameter.  Nil receivers, which the methods
    refuse with [ErrorConfiguration], are not modelled. *)

From S2P Require Import Prelude GoSort GoStrings Regex Sha256 GoTime GoTimeParse Netip Policy ResponsePolicy PolicyReader Json JsonTree CanonicalJson Detection Protected Consistency Executor NftValidate Snapshot Session Worker ValidationWorker.
Local Open Scope Z_scope.

Definition ChallengeSchemaVersion : string := "hil-challenge-v1".
Definition DecisionSchemaVersion : string := "hil-decision-v1".
Definition ReasonSchemaVersion : string := "hil-reason-v1".
Definition ResourcePolicy : string := "policy".
Definition ResourceEnforcementAction : string := "enforcement_action".
Definition ChallengeLifetime : duration := 5 * Minute.
Definition DecisionLifetime : duration := 5 * Minute.
Definition ReauthAfter : duration := 15 * Minute.
Definition MaxChallengeBytes : Z := 8 * 1024.
Definition MaxDecisionBytes : Z := 8 * 1024.
Definition MaxReasonBytes : Z := 4 * 1024.
Definition MaxReasonRunes : Z := 500.
Definition MinIdempotencyKeyBytes : Z := 16.
Definition MaxIdempotencyKeyBytes : Z := 256.
Definition NonceBytes : nat := 32.

Definition OperationApprove : string := "approve".
Definition OperationReject : string := "reject".
Definition hil_OperationRevoke : string := "revoke".
Definition DecisionApproved : string := "approved".
Definition DecisionRejected : string := "rejected".
Definition DecisionRevoked : string := "revoked".

Inductive HilErrorCode :=
| HErrorConfiguration | HErrorEncoding | HErrorCanonical | HErrorSchema | HErrorField | HErrorDigest | HErrorTime | HErrorReason
| HErrorArtifact | HErrorArtifactMismatch | HErrorValidationFailed | HErrorValidationStale | HErrorAuthentication | HErrorStepUpRequired
| HErrorChallengeExpired | HErrorChallengeMismatch | HErrorNonce | HErrorNonceUnavailable | HErrorIdempotency | HErrorConsumed
| HErrorConflict | HErrorEntropy.

(** ** Sessions and times ([types.go]) *)

(** [^[a-z0-9][a-z0-9._-]{0,127}$] *)
Definition is_actor_char (c : ascii) : bool := is_lower c || is_digit c || bool_decide (c ∈ ["."; "_"; "-"]%char).
Definition actorIDPattern : pattern := [exactly 1 (λ c, is_lower c || is_digit c); rep 0 127 is_actor_char].

Record SessionBinding := MkSessionBinding {
  sb_SessionID : string; sb_SessionDigest : string; sb_ActorID : string; sb_AuthenticatedAt : localtime; sb_ExpiresAt : localtime
}.

Definition normalizedTime (value : localtime) : option localtime :=
  if IsZero (lt_instant value) || (LocalYear value <? 1) || (9999 <? LocalYear value) then None else Some (UTC value).

Definition checkSession (value : SessionBinding) (now : localtime) : result HilErrorCode SessionBinding :=
  if negb (is_uuid (sb_SessionID value)) || negb (is_digest (sb_SessionDigest value)) || negb (match_string actorIDPattern (sb_ActorID value))
  then Err HErrorAuthentication
  else
    match normalizedTime (sb_AuthenticatedAt value) with
    | None => Err HErrorAuthentication
    | Some authenticatedAt =>
        match normalizedTime (sb_ExpiresAt value) with
        | None => Err HErrorAuthentication
        | Some expiresAt =>
            if negb (After (lt_instant expiresAt) (lt_instant authenticatedAt)) then Err HErrorAuthentication
            else
              match normalizedTime now with
              | None => Err HErrorAuthentication
              | Some now =>
                  if Before (lt_instant now) (lt_instant authenticatedAt) || negb (Before (lt_instant now) (lt_instant expiresAt)) then Err HErrorAuthentication
                  else if After (lt_instant now) (lt_instant authenticatedAt + ReauthAfter) then Err HErrorStepUpRequired
                  else Ok (MkSessionBinding (sb_SessionID value) (sb_SessionDigest value) (sb_ActorID value) authenticatedAt expiresAt)
              end
        end
    end.

Definition sameSession (left right : SessionBinding) : bool :=
  String.eqb (sb_SessionID left) (sb_SessionID right) && String.eqb (sb_SessionDigest left) (sb_SessionDigest right)
  && String.eqb (sb_ActorID left) (sb_ActorID right) && Equal (lt_instant (sb_AuthenticatedAt left)) (lt_instant (sb_AuthenticatedAt right))
  && Equal (lt_instant (sb_ExpiresAt left)) (lt_instant (sb_ExpiresAt right)).

Definition validPolicyOperation (value : string) : bool := String.eqb value OperationApprove || String.eqb value OperationReject.
Definition validOperation (value : string) : bool := validPolicyOperation value || String.eqb value hil_OperationRevoke.

Definition validDecision (operation value : string) : bool :=
  String.eqb operation OperationApprove && String.eqb value DecisionApproved
  || String.eqb operation OperationReject && String.eqb value DecisionRejected
  || String.eqb operation hil_OperationRevoke && String.eqb value DecisionRevoked.

Definition validChallengeBranch (operation resourceType : string) (originalAddDigest : option string) : bool :=
  if String.eqb operation OperationApprove || String.eqb operation OperationReject
  then String.eqb resourceType ResourcePolicy && bool_decide (originalAddDigest = None)
  else if String.eqb operation hil_OperationRevoke
  then String.eqb resourceType ResourceEnforcementAction && negb (bool_decide (originalAddDigest = None))
  else false.

Definition validDecisionBranch (operation decision resourceType : string) (originalAddDigest : option string) : bool :=
  validDecision operation decision && validChallengeBranch operation resourceType originalAddDigest.

Definition validCanonicalIPv4 (value : string) : bool := bool_decide (is_Some (canonical_ipv4 value)).

Definition minTime (first : time) (rest : list time) : time :=
  foldl (λ result candidate, if Before candidate result then candidate else result) first rest.

(** [digestBytes] is [digest]; a nonce is a list of bytes. *)
Definition digest_bytes (value : list Z) : string := digest (implode (map chr value)).

(** [makeUUID] with [formatUUID] on sixteen bytes of the entropy reader, which is the list of
    bytes it will deliver; what remains of it is returned. *)
Definition makeUUID (entropy : list Z) : result HilErrorCode (string * list Z) :=
  match ReadFull 16 entropy with
  | None => Err HErrorEntropy
  | Some (raw, rest) =>
      let raw := set_byte 8 (λ b, Z.lor (Z.land b 63) 128) (set_byte 6 (λ b, Z.lor (Z.land b 15) 64) raw) in
      Ok (hex_of_bytes (take 4 raw) +:+ "-" +:+ hex_of_bytes (take 2 (drop 4 raw)) +:+ "-" +:+ hex_of_bytes (take 2 (drop 6 raw)) +:+ "-"
          +:+ hex_of_bytes (take 2 (drop 8 raw)) +:+ "-" +:+ hex_of_bytes (drop 10 raw), rest)
  end.

(** ** Canonical JSON ([jcs.go]) *)

(** [utf8.DecodeRuneInString]: the replacement rune for an invalid byte. *)
Definition decode_rune (l : list ascii) : Z * nat := default (65533, 1%nat) (utf8_decode l).

Definition jcs_rune (r : Z) : list ascii :=
  if (r =? 34) || (r =? 92) then ["\"%char; chr r]
  else if r =? 8 then chars "\b"
  else if r =? 9 then chars "\t"
  else if r =? 10 then chars "\n"
  else if r =? 12 then chars "\f"
  else if r =? 13 then chars "\r"
  else if r <? 32 then ["\"; "u"; "0"; "0"]%char ++ [hex_digit (r / 16); hex_digit (r mod 16)]
  else utf8_encode r.

Fixpoint jcs_escape (fuel : nat) (l : list ascii) : list ascii :=
  match fuel, l with
  | S f, _ :: _ => let '(r, size) := decode_rune l in jcs_rune r ++ jcs_escape f (drop size l)
  | _, _ => []
  end.

Definition appendJCSString (value : string) : string := implode (dq :: jcs_escape (length (chars value)) (chars value) ++ [dq]).

Definition appendOptionalJCSString (value : option string) : string := match value with None => "null" | Some value => appendJCSString value end.

(** [decodeStrict] with [rejectDuplicateJSONNames]: every failure is the same error, so
    the two passes over the bytes are one parse. *)
Definition decodeStrict (data : string) (maximum : Z) (fields : schema) : result HilErrorCode slots :=
  if (len data =? 0) || (maximum <? len data) || negb (utf8_valid data) then Err HErrorEncoding
  else
    match parse_document (chars data) with
    | None => Err HErrorEncoding
    | Some v =>
        if negb (unique_names v) then Err HErrorEncoding
        else match decode_struct fields v with Some w => Ok w | None => Err HErrorEncoding end
    end.

(** ** Reasons ([reason.go]) *)

(** [norm.NFC] of [golang.org/x/text]: [String] and [IsNormalString]. *)
Class Normalizer := { NFC_String : string → string; NFC_IsNormalString : string → bool }.

Record Reason := MkReason { rs_SchemaVersion : string; rs_ReasonCode : string; rs_ReasonText : string }.
Record CheckedReason := MkCheckedReason { crs_value : Reason; crs_canonical : string; crs_digest : string }.

Definition validReasonCode (value : string) : bool :=
  existsb (String.eqb value) ["threat_confirmed"; "false_positive"; "business_exception"; "emergency_revoke"; "operator_request"; "other"].

Fixpoint runes (fuel : nat) (l : list ascii) : list Z :=
  match fuel, l with
  | S f, _ :: _ => let '(r, size) := decode_rune l in r :: runes f (drop size l)
  | _, _ => []
  end.

Definition runes_of (s : string) : list Z := runes (length (chars s)) (chars s).

(** [unicode.IsSpace] *)
Definition is_space_rune (r : Z) : bool :=
  bool_decide (r ∈ [9; 10; 11; 12; 13; 32; 133; 160; 5760; 8232; 8233; 8239; 8287; 12288]) || (8192 <=? r) && (r <=? 8202).

Definition marshalReasonJCS (value : Reason) : string :=
  qq "{'reason_code':" +:+ appendJCSString (rs_ReasonCode value) +:+ qq ",'reason_text':" +:+ appendJCSString (rs_ReasonText value)
  +:+ qq ",'schema_version':" +:+ appendJCSString (rs_SchemaVersion value) +:+ "}".

(** [strings.TrimSpace(text) == ''] when every rune of the text is a space. *)
Definition CheckReason `{Normalizer} (value : Reason) : result HilErrorCode CheckedReason :=
  if negb (String.eqb (rs_SchemaVersion value) ReasonSchemaVersion) then Err HErrorSchema
  else if negb (validReasonCode (rs_ReasonCode value)) || (len (rs_ReasonText value) =? 0) || (MaxReasonBytes <? len (rs_ReasonText value))
          || negb (utf8_valid (rs_ReasonText value)) then Err HErrorReason
  else
    let value := MkReason (rs_SchemaVersion value) (rs_ReasonCode value) (NFC_String (rs_ReasonText value)) in
    let points := runes_of (rs_ReasonText value) in
    if forallb is_space_rune points || (MaxReasonRunes <? Z.of_nat (length points)) then Err HErrorReason
    else if existsb (λ r, (r <=? 31) || (r =? 127)) points then Err HErrorReason
    else
      let canonical := marshalReasonJCS value in
      if MaxReasonBytes <? len canonical then Err HErrorReason else Ok (MkCheckedReason value canonical (digest canonical)).

Definition reasonWire : schema := [("reason_code", KString); ("reason_text", KString); ("schema_version", KString)].

Definition ParseCanonicalReason `{Normalizer} (data : string) : result HilErrorCode CheckedReason :=
  wire ← decodeStrict data MaxReasonBytes reasonWire;
  checked ← CheckReason (MkReason (get_string wire "schema_version") (get_string wire "reason_code") (get_string wire "reason_text"));
  if negb (NFC_IsNormalString (get_string wire "reason_text")) || negb (String.eqb data (crs_canonical checked)) then Err HErrorCanonical
  else Ok checked.

(** ** The exact artifact ([artifact.go]) *)

Record ExactArtifactInput := MkExactInput {
  xi_Policy : CheckedResponsePolicy; xi_Command : CandidateArtifact; xi_Evidence : CheckedEvidenceSnapshot; xi_Validation : CheckedValidationSnapshot
}.

(** Seconds since the Unix epoch and nanoseconds. *)
Record timeValue := MkTimeValue { tv_value : Z; tv_nanos : Z }.

Definition unixEpochSeconds : Z := 62135596800.
Definition freezeTime (value : localtime) : timeValue := MkTimeValue (lt_instant value / Second - unixEpochSeconds) (NanosecondOf (lt_instant value)).
Definition timeValue_Time (v : timeValue) : localtime := MkLocal ((tv_value v + unixEpochSeconds) * Second + tv_nanos v) 0.

Record ExactArtifact := MkExactArtifact {
  xa_policyID : string; xa_policyVersion : Z; xa_targetIPv4 : string; xa_ttlSeconds : Z; xa_policyDigest : string; xa_generatedDigest : string;
  xa_canonicalDigest : string; xa_evidenceSnapshotDigest : string; xa_validationSnapshotDigest : string; xa_validationCreatedAt : timeValue;
  xa_validationValidUntil : timeValue; xa_generatedBytes : string; xa_canonicalBytes : string
}.

Definition ValidationCreatedAt (a : ExactArtifact) : localtime := timeValue_Time (xa_validationCreatedAt a).
Definition ValidationValidUntil (a : ExactArtifact) : localtime := timeValue_Time (xa_validationValidUntil a).

Definition exact_FreshAt (a : ExactArtifact) (now : localtime) : bool :=
  match normalizedTime now with
  | None => false
  | Some now => negb (Before (lt_instant now) (lt_instant (ValidationCreatedAt a))) && Before (lt_instant now) (lt_instant (ValidationValidUntil a))
  end.

Definition sameTimeValue (left right : timeValue) : bool := (tv_value left =? tv_value right) && (tv_nanos left =? tv_nanos right).

Definition sameExactArtifact (left right : ExactArtifact) : bool :=
  String.eqb (xa_policyID left) (xa_policyID right) && (xa_policyVersion left =? xa_policyVersion right)
  && String.eqb (xa_targetIPv4 left) (xa_targetIPv4 right) && (xa_ttlSeconds left =? xa_ttlSeconds right)
  && String.eqb (xa_policyDigest left) (xa_policyDigest right) && String.eqb (xa_generatedDigest left) (xa_generatedDigest right)
  && String.eqb (xa_canonicalDigest left) (xa_canonicalDigest right)
  && String.eqb (xa_evidenceSnapshotDigest left) (xa_evidenceSnapshotDigest right)
  && String.eqb (xa_validationSnapshotDigest left) (xa_validationSnapshotDigest right)
  && sameTimeValue (xa_validationCreatedAt left) (xa_validationCreatedAt right)
  && sameTimeValue (xa_validationValidUntil left) (xa_validationValidUntil right)
  && String.eqb (xa_generatedBytes left) (xa_generatedBytes right) && String.eqb (xa_canonicalBytes left) (xa_canonicalBytes right).

Fixpoint sameStrings (xs ys : list string) : bool :=
  match xs, ys with
  | [], [] => true
  | x :: xs, y :: ys => String.eqb x y && sameStrings xs ys
  | _, _ => false
  end.

(** The rechecks of the command: its bytes, rebuilt from the policy's lifetime, and both digests. *)
Definition command_rechecked (generated canonical : string) (command rechecked : CandidateArtifact) : bool :=
  negb (len canonical =? 0) && String.eqb (ca_canonical rechecked) canonical
  && String.eqb (ca_generatedDigest rechecked) (ca_generatedDigest command) && String.eqb (ca_canonicalDigest rechecked) (ca_canonicalDigest command)
  && String.eqb (digest generated) (ca_generatedDigest command) && String.eqb (digest canonical) (ca_canonicalDigest command).

Definition exact_subject_matches (policyValue : ResponsePolicy) (checkedEvidence : CheckedEvidenceSnapshot) (command : CandidateArtifact) : bool :=
  let evidenceValue := ce_value checkedEvidence in
  String.eqb (rp_IncidentID policyValue) (es_IncidentID evidenceValue) && String.eqb (rp_TargetIPv4 policyValue) (es_SourceIPv4 evidenceValue)
  && String.eqb (rp_TargetIPv4 policyValue) (addr4_string (ca_target command)) && (rp_TTLSeconds policyValue =? ca_ttlSeconds command)
  && String.eqb (rp_EvidenceSnapshotDigest policyValue) (ce_digest checkedEvidence)
  && sameStrings (rp_EvidenceIDs policyValue) (es_SignalIDs evidenceValue).

Definition exact_validation_matches (validationValue : ValidationSnapshot) (policyDigest evidenceDigest : string) (command : CandidateArtifact) : bool :=
  String.eqb (vs_PolicyDigest validationValue) policyDigest && String.eqb (vs_EvidenceSnapshotDigest validationValue) evidenceDigest
  && String.eqb (vs_GeneratedCandidateDigest validationValue) (ca_generatedDigest command)
  && String.eqb (vs_CanonicalArtifactDigest validationValue) (ca_canonicalDigest command)
  && String.eqb (vs_GrammarVersion validationValue) CandidateSchemaVersion && String.eqb (vs_ParserVersion validationValue) ValidationParserVersion
  && String.eqb (vs_ValidatorVersion validationValue) ValidationValidatorVersion
  && String.eqb (vs_BaseChainContractRawDigest validationValue) PinnedBaseChainRawDigest
  && String.eqb (vs_LiveOwnedSchemaDigest validationValue) PinnedLiveSchemaDigest
  && String.eqb (vs_ProtectedIPv4StaticDigest validationValue) PinnedProtectedIPv4Digest.

Definition exact_of (policy : CheckedResponsePolicy) (command : CandidateArtifact) (evidence : CheckedEvidenceSnapshot) (validation : CheckedValidationSnapshot)
  : ExactArtifact :=
  let policyValue := crp_value policy in
  MkExactArtifact (rp_PolicyID policyValue) (rp_PolicyVersion policyValue) (rp_TargetIPv4 policyValue) (rp_TTLSeconds policyValue) (crp_digest policy)
    (ca_generatedDigest command) (ca_canonicalDigest command) (ce_digest evidence) (cv_digest validation) (freezeTime (vs_CreatedAt (cv_value validation)))
    (freezeTime (vs_ValidUntil (cv_value validation))) (ca_generated command) (ca_canonical command).

Definition CheckExactArtifact (input : ExactArtifactInput) : result HilErrorCode ExactArtifact :=
  match ParseCanonicalResponsePolicy (crp_canonical (xi_Policy input)) with
  | Err _ => Err HErrorArtifact
  | Ok checkedPolicy =>
      if negb (String.eqb (crp_digest checkedPolicy) (crp_digest (xi_Policy input))) then Err HErrorArtifact
      else
        match ParseCanonicalEvidenceSnapshot (ce_canonical (xi_Evidence input)) with
        | Err _ => Err HErrorArtifact
        | Ok checkedEvidence =>
            if negb (String.eqb (ce_digest checkedEvidence) (ce_digest (xi_Evidence input))) then Err HErrorArtifact
            else
              match ParseCanonicalValidationSnapshot (cv_canonical (xi_Validation input)) with
              | Err _ => Err HErrorValidationFailed
              | Ok checkedValidation =>
                  if negb (String.eqb (cv_digest checkedValidation) (cv_digest (xi_Validation input))) then Err HErrorValidationFailed
                  else
                    let command := xi_Command input in
                    match Canonicalize (ca_generated command) (rp_TTLSeconds (crp_value checkedPolicy)) with
                    | Err _ => Err HErrorArtifact
                    | Ok recheckedCommand =>
                        if negb (command_rechecked (ca_generated command) (ca_canonical command) command recheckedCommand) then Err HErrorArtifact
                        else if negb (exact_subject_matches (crp_value checkedPolicy) checkedEvidence command) then Err HErrorArtifactMismatch
                        else if negb (exact_validation_matches (cv_value checkedValidation) (crp_digest checkedPolicy) (ce_digest checkedEvidence) command)
                        then Err HErrorValidationFailed
                        else Ok (exact_of checkedPolicy command checkedEvidence checkedValidation)
                    end
              end
        end
  end.
