(* ===== verification/HilDecision.v ===== *)
(** * Human decisions: challenges and one-use decisions ([internal/hil])

    [challenge.go] and [decision.go]: the challenge an administrator answers, the decision
    that answers it, their canonical bytes, and the service that issues the one and
    consumes it into the other.

    The service's mutexes order the calls, so an operation is a function of the state it
    locks: the guard of a challenge, the nonce not yet taken, and the entropy not yet read.
    The clock is read at most once per call and its reading is an argument. *)

From S2P Require Import Prelude GoSort GoStrings Regex Sha256 Base64 GoTime GoTimeParse Netip Policy ResponsePolicy Json Session Hil.
Local Open Scope Z_scope.

Record Challenge := MkChallenge {
  ch_SchemaVersion : string; ch_ChallengeID : string; ch_SessionDigest : string; ch_Operation : string; ch_ResourceType : string; ch_ResourceID : string;
  ch_ResourceVersion : Z; ch_TargetIPv4 : string; ch_PolicyDigest : string; ch_GeneratedArtifactDigest : string; ch_CanonicalArtifactDigest : string;
  ch_OriginalAddDigest : option string; ch_EvidenceSnapshotDigest : string; ch_ValidationSnapshotDigest : string; ch_ValidationValidUntil : localtime;
  ch_NonceDigest : string; ch_AuthenticatedAt : localtime; ch_ReauthRequiredAfterSeconds : Z; ch_IssuedAt : localtime; ch_ExpiresAt : localtime
}.

Record CheckedChallenge := MkCheckedChallenge { cch_value : Challenge; cch_canonical : string; cch_digest : string }.

Definition marshalChallengeJCS (v : Challenge) : string :=
  qq "{'authenticated_at':" +:+ appendJCSString (format_rfc3339nano (lt_instant (ch_AuthenticatedAt v)))
  +:+ qq ",'canonical_artifact_digest':" +:+ appendJCSString (ch_CanonicalArtifactDigest v)
  +:+ qq ",'challenge_id':" +:+ appendJCSString (ch_ChallengeID v)
  +:+ qq ",'evidence_snapshot_digest':" +:+ appendJCSString (ch_EvidenceSnapshotDigest v)
  +:+ qq ",'expires_at':" +:+ appendJCSString (format_rfc3339nano (lt_instant (ch_ExpiresAt v)))
  +:+ qq ",'generated_artifact_digest':" +:+ appendJCSString (ch_GeneratedArtifactDigest v)
  +:+ qq ",'issued_at':" +:+ appendJCSString (format_rfc3339nano (lt_instant (ch_IssuedAt v)))
  +:+ qq ",'nonce_digest':" +:+ appendJCSString (ch_NonceDigest v)
  +:+ qq ",'operation':" +:+ appendJCSString (ch_Operation v)
  +:+ qq ",'original_add_digest':" +:+ appendOptionalJCSString (ch_OriginalAddDigest v)
  +:+ qq ",'policy_digest':" +:+ appendJCSString (ch_PolicyDigest v)
  +:+ qq ",'reauth_required_after_seconds':" +:+ appendUint32 (ch_ReauthRequiredAfterSeconds v)
  +:+ qq ",'resource_id':" +:+ appendJCSString (ch_ResourceID v)
  +:+ qq ",'resource_type':" +:+ appendJCSString (ch_ResourceType v)
  +:+ qq ",'resource_version':" +:+ appendUint32 (ch_ResourceVersion v)
  +:+ qq ",'schema_version':" +:+ appendJCSString (ch_SchemaVersion v)
  +:+ qq ",'session_digest':" +:+ appendJCSString (ch_SessionDigest v)
  +:+ qq ",'target_ipv4':" +:+ appendJCSString (ch_TargetIPv4 v)
  +:+ qq ",'validation_snapshot_digest':" +:+ appendJCSString (ch_ValidationSnapshotDigest v)
  +:+ qq ",'validation_valid_until':" +:+ appendJCSString (format_rfc3339nano (lt_instant (ch_ValidationValidUntil v))) +:+ "}".

(** The value with its times normalized, as it is kept. *)
Definition normalized_challenge (v : Challenge) : Challenge :=
  MkChallenge (ch_SchemaVersion v) (ch_ChallengeID v) (ch_SessionDigest v) (ch_Operation v) (ch_ResourceType v) (ch_ResourceID v) (ch_ResourceVersion v)
    (ch_TargetIPv4 v) (ch_PolicyDigest v) (ch_GeneratedArtifactDigest v) (ch_CanonicalArtifactDigest v) (ch_OriginalAddDigest v)
    (ch_EvidenceSnapshotDigest v) (ch_ValidationSnapshotDigest v) (UTC (ch_ValidationValidUntil v)) (ch_NonceDigest v) (UTC (ch_AuthenticatedAt v))
    (ch_ReauthRequiredAfterSeconds v) (UTC (ch_IssuedAt v)) (UTC (ch_ExpiresAt v)).

Definition optional_digest_ok (value : option string) : bool := match value with None => true | Some d => is_digest d end.

Definition CheckChallenge (value : Challenge) : result HilErrorCode CheckedChallenge :=
  if negb (String.eqb (ch_SchemaVersion value) ChallengeSchemaVersion) || negb (validOperation (ch_Operation value))
     || negb (validChallengeBranch (ch_Operation value) (ch_ResourceType value) (ch_OriginalAddDigest value)) then Err HErrorSchema
  else if negb (is_uuid (ch_ChallengeID value)) || negb (is_uuid (ch_ResourceID value)) || (ch_ResourceVersion value =? 0)
          || (2147483647 <? ch_ResourceVersion value) || negb (validCanonicalIPv4 (ch_TargetIPv4 value)) || String.eqb (ch_ResourceID value) ""
  then Err HErrorField
  else if negb (forallb is_digest [ch_SessionDigest value; ch_PolicyDigest value; ch_GeneratedArtifactDigest value; ch_CanonicalArtifactDigest value;
                  ch_EvidenceSnapshotDigest value; ch_ValidationSnapshotDigest value; ch_NonceDigest value]) then Err HErrorDigest
  else if negb (optional_digest_ok (ch_OriginalAddDigest value)) then Err HErrorDigest
  else if String.eqb (ch_Operation value) hil_OperationRevoke && negb (String.eqb (ch_GeneratedArtifactDigest value) (ch_CanonicalArtifactDigest value))
  then Err HErrorArtifactMismatch
  else if negb (ch_ReauthRequiredAfterSeconds value =? ReauthAfter / Second) then Err HErrorField
  else
    match normalizedTime (ch_AuthenticatedAt value), normalizedTime (ch_IssuedAt value), normalizedTime (ch_ExpiresAt value),
          normalizedTime (ch_ValidationValidUntil value) with
    | Some authenticatedAt, Some issuedAt, Some expiresAt, Some validationValidUntil =>
        if Before (lt_instant issuedAt) (lt_instant authenticatedAt) || After (lt_instant issuedAt) (lt_instant authenticatedAt + ReauthAfter)
           || negb (After (lt_instant expiresAt) (lt_instant issuedAt)) || After (lt_instant expiresAt) (lt_instant issuedAt + ChallengeLifetime)
           || After (lt_instant expiresAt) (lt_instant validationValidUntil) then Err HErrorTime
        else
          let value := normalized_challenge value in
          let canonical := marshalChallengeJCS value in
          if MaxChallengeBytes <? len canonical then Err HErrorEncoding else Ok (MkCheckedChallenge value canonical (digest canonical))
    | _, _, _, _ => Err HErrorTime
    end.

Definition challengeWire : schema :=
  [("authenticated_at", KString); ("canonical_artifact_digest", KString); ("challenge_id", KString); ("evidence_snapshot_digest", KString);
   ("expires_at", KString); ("generated_artifact_digest", KString); ("issued_at", KString); ("nonce_digest", KString); ("operation", KString);
   ("original_add_digest", KPointer); ("policy_digest", KString); ("reauth_required_after_seconds", KUint 32); ("resource_id", KString);
   ("resource_type", KString); ("resource_version", KUint 32); ("schema_version", KString); ("session_digest", KString); ("target_ipv4", KString);
   ("validation_snapshot_digest", KString); ("validation_valid_until", KString)].

Definition challenge_of_wire (wire : slots) (authenticatedAt issuedAt expiresAt validationValidUntil : localtime) : Challenge :=
  let field := get_string wire in
  MkChallenge (field "schema_version") (field "challenge_id") (field "session_digest") (field "operation") (field "resource_type") (field "resource_id")
    (get_uint wire "resource_version") (field "target_ipv4") (field "policy_digest") (field "generated_artifact_digest") (field "canonical_artifact_digest")
    (get_pointer wire "original_add_digest") (field "evidence_snapshot_digest") (field "validation_snapshot_digest") validationValidUntil (field "nonce_digest")
    authenticatedAt (get_uint wire "reauth_required_after_seconds") issuedAt expiresAt.

Definition ParseCanonicalChallenge (data : string) : result HilErrorCode CheckedChallenge :=
  wire ← decodeStrict data MaxChallengeBytes challengeWire;
  match parse_rfc3339nano (get_string wire "authenticated_at"), parse_rfc3339nano (get_string wire "issued_at"),
        parse_rfc3339nano (get_string wire "expires_at"), parse_rfc3339nano (get_string wire "validation_valid_until") with
  | Some authenticatedAt, Some issuedAt, Some expiresAt, Some validationValidUntil =>
      checked ← CheckChallenge (challenge_of_wire wire authenticatedAt issuedAt expiresAt validationValidUntil);
      if negb (String.eqb data (cch_canonical checked)) then Err HErrorCanonical else Ok checked
  | _, _, _, _ => Err HErrorTime
  end.

(** ** Decisions *)

Record Decision := MkDecision {
  de_SchemaVersion : string; de_DecisionID : string; de_ChallengeID : string; de_SessionDigest : string; de_Operation : string; de_Decision : string;
  de_ResourceType : string; de_ResourceID : string; de_ResourceVersion : Z; de_TargetIPv4 : string; de_PolicyDigest : string;
  de_GeneratedArtifactDigest : string; de_CanonicalArtifactDigest : string; de_OriginalAddDigest : option string; de_EvidenceSnapshotDigest : string;
  de_ValidationSnapshotDigest : string; de_ActorID : string; de_ReasonDigest : string; de_NonceDigest : string; de_IdempotencyKeyDigest : string;
  de_DecidedAt : localtime; de_DecisionValidUntil : localtime
}.

Record CheckedDecision := MkCheckedDecision {
  cd_value : Decision; cd_canonical : string; cd_digest : string; cd_reasonCanonical : string; cd_canonicalCommandBytes : string
}.

Definition AuthorizesAt (d : CheckedDecision) (now : localtime) : bool :=
  let v := cd_value d in
  if negb (String.eqb (de_Operation v) OperationApprove) || negb (String.eqb (de_Decision v) DecisionApproved)
     || negb (String.eqb (de_ResourceType v) ResourcePolicy) || negb (bool_decide (de_OriginalAddDigest v = None))
     || (len (cd_canonical d) =? 0) || (len (cd_reasonCanonical d) =? 0) || (len (cd_canonicalCommandBytes d) =? 0) then false
  else
    match normalizedTime now with
    | None => false
    | Some now =>
        negb (Before (lt_instant now) (lt_instant (de_DecidedAt v))) && Before (lt_instant now) (lt_instant (de_DecisionValidUntil v))
        && String.eqb (digest (cd_canonicalCommandBytes d)) (de_CanonicalArtifactDigest v)
        && String.eqb (digest (cd_reasonCanonical d)) (de_ReasonDigest v)
    end.

Definition marshalDecisionJCS (v : Decision) : string :=
  qq "{'actor_id':" +:+ appendJCSString (de_ActorID v)
  +:+ qq ",'canonical_artifact_digest':" +:+ appendJCSString (de_CanonicalArtifactDigest v)
  +:+ qq ",'challenge_id':" +:+ appendJCSString (de_ChallengeID v)
  +:+ qq ",'decided_at':" +:+ appendJCSString (format_rfc3339nano (lt_instant (de_DecidedAt v)))
  +:+ qq ",'decision':" +:+ appendJCSString (de_Decision v)
  +:+ qq ",'decision_id':" +:+ appendJCSString (de_DecisionID v)
  +:+ qq ",'decision_valid_until':" +:+ appendJCSString (format_rfc3339nano (lt_instant (de_DecisionValidUntil v)))
  +:+ qq ",'evidence_snapshot_digest':" +:+ appendJCSString (de_EvidenceSnapshotDigest v)
  +:+ qq ",'generated_artifact_digest':" +:+ appendJCSString (de_GeneratedArtifactDigest v)
  +:+ qq ",'idempotency_key_digest':" +:+ appendJCSString (de_IdempotencyKeyDigest v)
  +:+ qq ",'nonce_digest':" +:+ appendJCSString (de_NonceDigest v)
  +:+ qq ",'operation':" +:+ appendJCSString (de_Operation v)
  +:+ qq ",'original_add_digest':" +:+ appendOptionalJCSString (de_OriginalAddDigest v)
  +:+ qq ",'policy_digest':" +:+ appendJCSString (de_PolicyDigest v)
  +:+ qq ",'reason_digest':" +:+ appendJCSString (de_ReasonDigest v)
  +:+ qq ",'resource_id':" +:+ appendJCSString (de_ResourceID v)
  +:+ qq ",'resource_type':" +:+ appendJCSString (de_ResourceType v)
  +:+ qq ",'resource_version':" +:+ appendUint32 (de_ResourceVersion v)
  +:+ qq ",'schema_version':" +:+ appendJCSString (de_SchemaVersion v)
  +:+ qq ",'session_digest':" +:+ appendJCSString (de_SessionDigest v)
  +:+ qq ",'target_ipv4':" +:+ appendJCSString (de_TargetIPv4 v)
  +:+ qq ",'validation_snapshot_digest':" +:+ appendJCSString (de_ValidationSnapshotDigest v) +:+ "}".

Definition normalized_decision (v : Decision) : Decision :=
  MkDecision (de_SchemaVersion v) (de_DecisionID v) (de_ChallengeID v) (de_SessionDigest v) (de_Operation v) (de_Decision v) (de_ResourceType v)
    (de_ResourceID v) (de_ResourceVersion v) (de_TargetIPv4 v) (de_PolicyDigest v) (de_GeneratedArtifactDigest v) (de_CanonicalArtifactDigest v)
    (de_OriginalAddDigest v) (de_EvidenceSnapshotDigest v) (de_ValidationSnapshotDigest v) (de_ActorID v) (de_ReasonDigest v) (de_NonceDigest v)
    (de_IdempotencyKeyDigest v) (UTC (de_DecidedAt v)) (UTC (de_DecisionValidUntil v)).

Definition CheckDecision (value : Decision) : result HilErrorCode CheckedDecision :=
  if negb (String.eqb (de_SchemaVersion value) DecisionSchemaVersion) || negb (validOperation (de_Operation value))
     || negb (validDecisionBranch (de_Operation value) (de_Decision value) (de_ResourceType value) (de_OriginalAddDigest value)) then Err HErrorSchema
  else if negb (is_uuid (de_DecisionID value)) || negb (is_uuid (de_ChallengeID value)) || negb (is_uuid (de_ResourceID value))
          || (de_ResourceVersion value =? 0) || (2147483647 <? de_ResourceVersion value) || negb (validCanonicalIPv4 (de_TargetIPv4 value))
          || negb (match_string actorIDPattern (de_ActorID value)) then Err HErrorField
  else if negb (forallb is_digest [de_SessionDigest value; de_PolicyDigest value; de_GeneratedArtifactDigest value; de_CanonicalArtifactDigest value;
                  de_EvidenceSnapshotDigest value; de_ValidationSnapshotDigest value; de_ReasonDigest value; de_NonceDigest value;
                  de_IdempotencyKeyDigest value]) then Err HErrorDigest
  else if negb (optional_digest_ok (de_OriginalAddDigest value)) then Err HErrorDigest
  else if String.eqb (de_Operation value) hil_OperationRevoke && negb (String.eqb (de_GeneratedArtifactDigest value) (de_CanonicalArtifactDigest value))
  then Err HErrorArtifactMismatch
  else
    match normalizedTime (de_DecidedAt value), normalizedTime (de_DecisionValidUntil value) with
    | Some decidedAt, Some validUntil =>
        if negb (After (lt_instant validUntil) (lt_instant decidedAt)) || After (lt_instant validUntil) (lt_instant decidedAt + DecisionLifetime)
        then Err HErrorTime
        else
          let value := normalized_decision value in
          let canonical := marshalDecisionJCS value in
          if MaxDecisionBytes <? len canonical then Err HErrorEncoding else Ok (MkCheckedDecision value canonical (digest canonical) "" "")
    | _, _ => Err HErrorTime
    end.

Definition decisionWire : schema :=
  [("actor_id", KString); ("canonical_artifact_digest", KString); ("challenge_id", KString); ("decided_at", KString); ("decision", KString);
   ("decision_id", KString); ("decision_valid_until", KString); ("evidence_snapshot_digest", KString); ("generated_artifact_digest", KString);
   ("idempotency_key_digest", KString); ("nonce_digest", KString); ("operation", KString); ("original_add_digest", KPointer); ("policy_digest", KString);
   ("reason_digest", KString); ("resource_id", KString); ("resource_type", KString); ("resource_version", KUint 32); ("schema_version", KString);
   ("session_digest", KString); ("target_ipv4", KString); ("validation_snapshot_digest", KString)].

Definition decision_of_wire (wire : slots) (decidedAt validUntil : localtime) : Decision :=
  let field := get_string wire in
  MkDecision (field "schema_version") (field "decision_id") (field "challenge_id") (field "session_digest") (field "operation") (field "decision")
    (field "resource_type") (field "resource_id") (get_uint wire "resource_version") (field "target_ipv4") (field "policy_digest")
    (field "generated_artifact_digest") (field "canonical_artifact_digest") (get_pointer wire "original_add_digest") (field "evidence_snapshot_digest")
    (field "validation_snapshot_digest") (field "actor_id") (field "reason_digest") (field "nonce_digest") (field "idempotency_key_digest") decidedAt validUntil.

Definition ParseCanonicalDecision (data : string) : result HilErrorCode CheckedDecision :=
  wire ← decodeStrict data MaxDecisionBytes decisionWire;
  match parse_rfc3339nano (get_string wire "decided_at"), parse_rfc3339nano (get_string wire "decision_valid_until") with
  | Some decidedAt, Some validUntil =>
      checked ← CheckDecision (decision_of_wire wire decidedAt validUntil);
      if negb (String.eqb data (cd_canonical checked)) then Err HErrorCanonical else Ok checked
  | _, _ => Err HErrorTime
  end.

(** ** Issuing a challenge *)

Record boundChallenge := MkBound { bc_artifact : CheckedChallenge; bc_session : SessionBinding; bc_exact : ExactArtifact; bc_idempotencyKeyDigest : string }.

Record ChallengeRecord := MkChallengeRecord {
  cr_Artifact : CheckedChallenge; cr_SessionID : string; cr_ActorID : string; cr_IdempotencyKeyDigest : string; cr_CanonicalCommandBytes : string
}.

(** [OneUseChallenge]: what its mutex guards. *)
Record OneUseChallenge := MkGuard { gu_bound : boundChallenge; gu_consumed : option CheckedDecision; gu_fingerprint : string }.

Record IssuedChallenge := MkIssuedChallenge { ic_guard : OneUseChallenge; ic_nonce : list Z }.

Record IssueRequest := MkIssueRequest { iq_Operation : string; iq_Session : SessionBinding; iq_Artifact : ExactArtifact; iq_IdempotencyKey : string }.

Definition service_now (clock : localtime) : result HilErrorCode localtime :=
  match normalizedTime clock with Some now => Ok now | None => Err HErrorTime end.

Definition validExactArtifact (value : ExactArtifact) : bool :=
  is_uuid (xa_policyID value) && (0 <? xa_policyVersion value) && (xa_policyVersion value <=? 2147483647)
  && validCanonicalIPv4 (xa_targetIPv4 value) && is_digest (xa_policyDigest value) && is_digest (xa_generatedDigest value)
  && is_digest (xa_canonicalDigest value) && is_digest (xa_evidenceSnapshotDigest value) && is_digest (xa_validationSnapshotDigest value)
  && (0 <? len (xa_generatedBytes value)) && (0 <? len (xa_canonicalBytes value))
  && String.eqb (digest (xa_generatedBytes value)) (xa_generatedDigest value) && String.eqb (digest (xa_canonicalBytes value)) (xa_canonicalDigest value).

Definition validIdempotencyKey (value : string) : bool := (MinIdempotencyKeyBytes <=? len value) && (len value <=? MaxIdempotencyKeyBytes).

(** The challenge for an artifact, at [now] and until [expiresAt]. *)
Definition issued_value (challengeID nonceDigest operation : string) (session : SessionBinding) (exact : ExactArtifact) (now expiresAt : localtime) : Challenge :=
  MkChallenge ChallengeSchemaVersion challengeID (sb_SessionDigest session) operation ResourcePolicy (xa_policyID exact) (xa_policyVersion exact)
    (xa_targetIPv4 exact) (xa_policyDigest exact) (xa_generatedDigest exact) (xa_canonicalDigest exact) None (xa_evidenceSnapshotDigest exact)
    (xa_validationSnapshotDigest exact) (ValidationValidUntil exact) nonceDigest (sb_AuthenticatedAt session) (ReauthAfter / Second) now expiresAt.

(** [Issue]: the challenge and the entropy left. *)
Definition Issue (clock : localtime) (entropy : list Z) (request : IssueRequest) : result HilErrorCode (IssuedChallenge * list Z) :=
  now ← service_now clock;
  if negb (validPolicyOperation (iq_Operation request)) then Err HErrorField
  else
    session ← checkSession (iq_Session request) now;
    if negb (validIdempotencyKey (iq_IdempotencyKey request)) then Err HErrorIdempotency
    else
      let exact := iq_Artifact request in
      if negb (validExactArtifact exact) then Err HErrorArtifact
      else if negb (exact_FreshAt exact now) then Err HErrorValidationStale
      else
        let expiresAt := minTime (lt_instant now + ChallengeLifetime) [lt_instant (ValidationValidUntil exact); lt_instant (sb_ExpiresAt session)] in
        if negb (After expiresAt (lt_instant now)) then Err HErrorChallengeExpired
        else
          '(challengeID, entropy) ← makeUUID entropy;
          match ReadFull NonceBytes entropy with
          | None => Err HErrorEntropy
          | Some (nonce, entropy) =>
              checked ← CheckChallenge (issued_value challengeID (digest_bytes nonce) (iq_Operation request) session exact now (MkLocal expiresAt 0));
              Ok (MkIssuedChallenge (MkGuard (MkBound checked session exact (digest (iq_IdempotencyKey request))) None "") nonce, entropy)
          end.

(** [TakeNonce]: the nonce is handed out once. *)
Definition TakeNonce (i : IssuedChallenge) : result HilErrorCode string * IssuedChallenge :=
  if negb (length (ic_nonce i) =? NonceBytes)%nat then (Err HErrorNonceUnavailable, i)
  else (Ok (encode_token (ic_nonce i)), MkIssuedChallenge (ic_guard i) []).

Definition guard_Record (g : OneUseChallenge) : ChallengeRecord :=
  let bound := gu_bound g in
  MkChallengeRecord (bc_artifact bound) (sb_SessionID (bc_session bound)) (sb_ActorID (bc_session bound)) (bc_idempotencyKeyDigest bound)
    (xa_canonicalBytes (bc_exact bound)).

(** [base64.RawURLEncoding.DecodeString] is not strict: the text is encoded again. *)
Definition canonicalNonce (presented : string) : option (list Z) :=
  if negb (len presented =? 43) then None
  else
    match decode64 false (chars presented) with
    | Some decoded =>
        if negb (length decoded =? NonceBytes)%nat || negb (String.eqb (encode_token decoded) presented) then None else Some decoded
    | None => None
    end.

(** ** Consuming it *)

Record DecisionRequest := MkDecisionRequest {
  dq_Operation : string; dq_Session : SessionBinding; dq_Artifact : ExactArtifact; dq_Nonce : string; dq_IdempotencyKey : string; dq_Reason : Reason
}.

Definition fingerprint_text (actorID challengeDigest idempotencyDigest nonceDigest operation reasonDigest sessionDigest validationDigest : string) : string :=
  qq "{'actor_id':" +:+ appendJCSString actorID +:+ qq ",'challenge_digest':" +:+ appendJCSString challengeDigest
  +:+ qq ",'idempotency_key_digest':" +:+ appendJCSString idempotencyDigest +:+ qq ",'nonce_digest':" +:+ appendJCSString nonceDigest
  +:+ qq ",'operation':" +:+ appendJCSString operation +:+ qq ",'reason_digest':" +:+ appendJCSString reasonDigest
  +:+ qq ",'schema_version':'hil-decision-request-fingerprint-v1','session_digest':" +:+ appendJCSString sessionDigest
  +:+ qq ",'validation_snapshot_digest':" +:+ appendJCSString validationDigest +:+ "}".

Record fingerprinted := MkFingerprinted { fp_fingerprint : string; fp_reason : CheckedReason; fp_nonceDigest : string; fp_idempotencyDigest : string }.

Section service.
Context `{Normalizer}.

Definition decisionFingerprint (bound : boundChallenge) (request : DecisionRequest) : result HilErrorCode fingerprinted :=
  let session := dq_Session request in
  if negb (validPolicyOperation (dq_Operation request)) || negb (String.eqb (dq_Operation request) (ch_Operation (cch_value (bc_artifact bound))))
  then Err HErrorChallengeMismatch
  else if negb (validIdempotencyKey (dq_IdempotencyKey request)) then Err HErrorIdempotency
  else
    let idempotencyDigest := digest (dq_IdempotencyKey request) in
    if negb (String.eqb idempotencyDigest (bc_idempotencyKeyDigest bound)) then Err HErrorIdempotency
    else if negb (sameExactArtifact (bc_exact bound) (dq_Artifact request)) || negb (validExactArtifact (dq_Artifact request)) then Err HErrorArtifactMismatch
    else if negb (sameSession (bc_session bound) session) then Err HErrorAuthentication
    else
      match canonicalNonce (dq_Nonce request) with
      | None => Err HErrorNonce
      | Some nonce =>
          let nonceDigest := digest_bytes nonce in
          if negb (String.eqb nonceDigest (ch_NonceDigest (cch_value (bc_artifact bound)))) then Err HErrorNonce
          else
            checkedReason ← CheckReason (dq_Reason request);
            Ok (MkFingerprinted
                  (digest (fingerprint_text (sb_ActorID session) (cch_digest (bc_artifact bound)) idempotencyDigest nonceDigest (dq_Operation request)
                             (crs_digest checkedReason) (sb_SessionDigest session) (xa_validationSnapshotDigest (dq_Artifact request))))
                  checkedReason nonceDigest idempotencyDigest)
      end.

Definition decided_value (decisionID operation : string) (challenge : Challenge) (session : SessionBinding) (exact : ExactArtifact)
    (reasonDigest nonceDigest idempotencyDigest : string) (now validUntil : localtime) : Decision :=
  MkDecision DecisionSchemaVersion decisionID (ch_ChallengeID challenge) (sb_SessionDigest session) operation
    (if String.eqb operation OperationApprove then DecisionApproved else DecisionRejected) ResourcePolicy (xa_policyID exact) (xa_policyVersion exact)
    (xa_targetIPv4 exact) (xa_policyDigest exact) (xa_generatedDigest exact) (xa_canonicalDigest exact) None (xa_evidenceSnapshotDigest exact)
    (xa_validationSnapshotDigest exact) (sb_ActorID session) reasonDigest nonceDigest idempotencyDigest now validUntil.

(** The part of [Consume] under an unconsumed guard: the decision and the entropy left. *)
Definition decide_challenge (clock : localtime) (entropy : list Z) (bound : boundChallenge) (request : DecisionRequest) (f : fingerprinted)
  : result HilErrorCode (CheckedDecision * list Z) :=
  now ← service_now clock;
  let challengeValue := cch_value (bc_artifact bound) in
  if Before (lt_instant now) (lt_instant (ch_IssuedAt challengeValue)) then Err HErrorTime
  else if negb (Before (lt_instant now) (lt_instant (ch_ExpiresAt challengeValue))) then Err HErrorChallengeExpired
  else
    currentSession ← checkSession (dq_Session request) now;
    if negb (sameSession (bc_session bound) currentSession) then Err HErrorAuthentication
    else if negb (exact_FreshAt (dq_Artifact request) now) || negb (exact_FreshAt (bc_exact bound) now) then Err HErrorValidationStale
    else
      '(decisionID, entropy) ← makeUUID entropy;
      let validUntil := minTime (lt_instant now + DecisionLifetime)
        [lt_instant (ch_ExpiresAt challengeValue); lt_instant (ValidationValidUntil (bc_exact bound)); lt_instant (sb_ExpiresAt currentSession)] in
      if negb (After validUntil (lt_instant now)) then Err HErrorChallengeExpired
      else
        checked ← CheckDecision (decided_value decisionID (dq_Operation request) challengeValue currentSession (bc_exact bound) (crs_digest (fp_reason f))
                                   (fp_nonceDigest f) (fp_idempotencyDigest f) now (MkLocal validUntil 0));
        Ok (MkCheckedDecision (cd_value checked) (cd_canonical checked) (cd_digest checked) (crs_canonical (fp_reason f)) (xa_canonicalBytes (bc_exact bound)),
            entropy).

(** The outcome and the guard after the call.  [entropy] is what the reader will deliver to
    this call. *)
Definition Consume (clock : localtime) (entropy : list Z) (guard : OneUseChallenge) (request : DecisionRequest)
  : result HilErrorCode CheckedDecision * OneUseChallenge :=
  let bound := gu_bound guard in
  match gu_consumed guard with
  | Some consumed =>
      match decisionFingerprint bound request with
      | Ok f => if String.eqb (fp_fingerprint f) (gu_fingerprint guard) then (Ok consumed, guard) else (Err HErrorConflict, guard)
      | Err _ => (Err HErrorConflict, guard)
      end
  | None =>
      match decisionFingerprint bound request with
      | Err e => (Err e, guard)
      | Ok f =>
          match decide_challenge clock entropy bound request f with
          | Err e => (Err e, guard)
          | Ok (checked, _) => (Ok checked, MkGuard bound (Some checked) (fp_fingerprint f))
          end
      end
  end.

End service.
