(* ===== verification/HilSpec.v ===== *)
(** * What a human decision stands for

    Challenges and decisions are read back from their canonical bytes and from nothing
    else; a challenge yields one decision whatever is presented to it; an approval is
    bound to the artifact, the session and the nonce of its challenge and authorizes for
    exactly as long as all of them last; and what the validation worker has found valid
    can be put to an administrator. *)

From S2P Require Import Prelude GoSort GoStrings Regex Sha256 Base64 GoTime GoTimeParse Netip NetPrefix Policy PolicySpec ResponsePolicy ResponsePolicySpec Json JsonTree CanonicalJson Capability CapabilitySpec Detection Protected ProtectedSpec Consistency ConsistencySpec.
From S2P Require Import Executor NftValidate NftValidateSpec Snapshot SnapshotSpec PolicyReader Limiter Session SessionSpec Worker WorkerSpec ValidationWorker Hil HilDecision.
Local Open Scope Z_scope.

(** ** The writer on plain strings *)

Lemma jcs_rune_plain c : json_plain c = true → jcs_rune (code c) = [c].
Proof.
  intros Hc. apply json_plain_code in Hc as (Hr & Hq & Hb). unfold jcs_rune.
  assert (Hne : ∀ d, c ≠ d → code c ≠ code d) by (intros d Hd He; apply Hd, code_inj, He).
  pose proof (Hne dq Hq) as H1. pose proof (Hne "\"%char Hb) as H2. change (code dq) with 34 in H1. change (code "\"%char) with 92 in H2.
  rewrite !(proj2 (Z.eqb_neq _ _)), (proj2 (Z.ltb_ge _ _)) by lia. cbn [orb]. unfold utf8_encode. rewrite (proj2 (Z.ltb_lt _ _)) by lia. by rewrite chr_code.
Qed.

Lemma jcs_escape_plain l : forallb json_plain l = true → ∀ fuel, (length l ≤ fuel)%nat → jcs_escape fuel l = l.
Proof.
  induction l as [|c l IH]; intros Hp fuel Hf; [by destruct fuel|]. destruct fuel as [|f]; [cbn in Hf; lia|]. cbn [forallb] in Hp. apply andb_prop in Hp as [Hc Hp].
  cbn [jcs_escape]. unfold decode_rune. rewrite utf8_decode_ascii by (apply json_plain_code in Hc; lia). cbn [default from_option id drop].
  rewrite jcs_rune_plain, IH by (done || cbn in Hf; lia). done.
Qed.

Lemma appendJCSString_plain s : plain s → appendJCSString s = json_string s.
Proof. intros Hp. apply chars_inj. rewrite json_string_plain by done. unfold appendJCSString. by rewrite chars_implode, jcs_escape_plain. Qed.

Lemma hil_uuid_plain s : is_uuid s = true → plain s.
Proof. apply uuid_plain. Qed.

Lemma hil_digest_plain s : is_digest s = true → plain s.
Proof. apply digest_plain. Qed.

(** [decodeStrict] reads what the capability package's reader reads. *)
Lemma decodeStrict_strict data maximum fields w : strictDecode data maximum fields = Ok w → decodeStrict data maximum fields = Ok w.
Proof.
  unfold strictDecode, decodeStrict. destruct (_ || _); [done|]. destruct (parse_document _); [|done]. destruct (negb _); [done|]. destruct (decode_struct _ _); [|done]. by intros [= ->].
Qed.

Lemma normalizedTime_iff t u : normalizedTime t = Some u ↔ validSnapshotTime t = true ∧ u = UTC t.
Proof.
  unfold normalizedTime, validSnapshotTime. destruct (IsZero _); cbn [orb negb andb]; [split; [done|intros [? _]; done]|].
  destruct (Z.ltb_spec (LocalYear t) 1), (Z.leb_spec 1 (LocalYear t)); try lia; cbn [orb andb]; [split; [done|intros [? _]; done]|].
  destruct (Z.ltb_spec 9999 (LocalYear t)), (Z.leb_spec (LocalYear t) 9999); try lia; split; try done; [intros [? _]; done|intros [= <-]; done|intros [_ ->]; done].
Qed.

Lemma normalizedTime_valid t : validSnapshotTime t = true → normalizedTime t = Some (UTC t).
Proof. intros Ht. by apply normalizedTime_iff. Qed.

(** A time in UTC is its own normal form. *)
Lemma utc_normal t : lt_zone t = 0 → UTC t = t.
Proof. destruct t as [i z]. cbn. by intros ->. Qed.

Lemma valid_utc_year t : lt_zone t = 0 → validSnapshotTime t = true → utc_year_ok t.
Proof.
  unfold validSnapshotTime, utc_year_ok, LocalYear. intros ->. rewrite Z.mul_0_l, Z.add_0_r, !andb_true_iff, !Z.leb_le. tauto.
Qed.

Lemma instant_text_bounded t : utc_year_ok t → bounded 30 (format_rfc3339nano (lt_instant t)).
Proof. unfold utc_year_ok. intros Hy. apply instant_bounded. unfold four_digit_year. lia. Qed.

Lemma actorID_bounded s : match_string actorIDPattern s = true → bounded 128 s.
Proof. apply (match_bounded actorIDPattern). solve_within. Qed.

Lemma target_bounded s : validCanonicalIPv4 s = true → bounded 15 s.
Proof. intros H%bool_decide_eq_true. by apply ipv4_bounded, canonical_ipv4_is. Qed.

(** ** Challenges *)

(** A string or [null]. *)
Definition json_optional (o : option string) : json := match o with None => JNull | Some s => JString s end.

Definition challenge_members (v : Challenge) : list (string * json) :=
  [("authenticated_at", JString (format_rfc3339nano (lt_instant (ch_AuthenticatedAt v)))); ("canonical_artifact_digest", JString (ch_CanonicalArtifactDigest v));
   ("challenge_id", JString (ch_ChallengeID v)); ("evidence_snapshot_digest", JString (ch_EvidenceSnapshotDigest v));
   ("expires_at", JString (format_rfc3339nano (lt_instant (ch_ExpiresAt v)))); ("generated_artifact_digest", JString (ch_GeneratedArtifactDigest v));
   ("issued_at", JString (format_rfc3339nano (lt_instant (ch_IssuedAt v)))); ("nonce_digest", JString (ch_NonceDigest v)); ("operation", JString (ch_Operation v));
   ("original_add_digest", json_optional (ch_OriginalAddDigest v)); ("policy_digest", JString (ch_PolicyDigest v));
   ("reauth_required_after_seconds", JNumber (chars (format_uint (ch_ReauthRequiredAfterSeconds v)))); ("resource_id", JString (ch_ResourceID v));
   ("resource_type", JString (ch_ResourceType v)); ("resource_version", JNumber (chars (format_uint (ch_ResourceVersion v))));
   ("schema_version", JString (ch_SchemaVersion v)); ("session_digest", JString (ch_SessionDigest v)); ("target_ipv4", JString (ch_TargetIPv4 v));
   ("validation_snapshot_digest", JString (ch_ValidationSnapshotDigest v));
   ("validation_valid_until", JString (format_rfc3339nano (lt_instant (ch_ValidationValidUntil v))))].

(** What [CheckChallenge] demands. *)
Record challenge_ok (v : Challenge) : Prop := {
  co_schema : ch_SchemaVersion v = ChallengeSchemaVersion;
  co_branch : validChallengeBranch (ch_Operation v) (ch_ResourceType v) (ch_OriginalAddDigest v) = true;
  co_ids : is_uuid (ch_ChallengeID v) = true ∧ is_uuid (ch_ResourceID v) = true;
  co_version : 1 <= ch_ResourceVersion v <= 2147483647;
  co_target : validCanonicalIPv4 (ch_TargetIPv4 v) = true;
  co_digests : Forall (λ d, is_digest d = true) [ch_SessionDigest v; ch_PolicyDigest v; ch_GeneratedArtifactDigest v; ch_CanonicalArtifactDigest v;
    ch_EvidenceSnapshotDigest v; ch_ValidationSnapshotDigest v; ch_NonceDigest v];
  co_original : optional_digest_ok (ch_OriginalAddDigest v) = true;
  co_revoke : ch_Operation v = hil_OperationRevoke → ch_GeneratedArtifactDigest v = ch_CanonicalArtifactDigest v;
  co_reauth : ch_ReauthRequiredAfterSeconds v = 900;
  co_times : Forall (λ t, validSnapshotTime t = true) [ch_AuthenticatedAt v; ch_IssuedAt v; ch_ExpiresAt v; ch_ValidationValidUntil v];
  co_issued : lt_instant (ch_AuthenticatedAt v) <= lt_instant (ch_IssuedAt v) <= lt_instant (ch_AuthenticatedAt v) + ReauthAfter;
  co_expires : lt_instant (ch_IssuedAt v) < lt_instant (ch_ExpiresAt v) <= lt_instant (ch_IssuedAt v) + ChallengeLifetime;
  co_validation : lt_instant (ch_ExpiresAt v) <= lt_instant (ch_ValidationValidUntil v)
}.

Definition checked_challenge (v : Challenge) : CheckedChallenge :=
  let canonical := marshalChallengeJCS (normalized_challenge v) in MkCheckedChallenge (normalized_challenge v) canonical (digest canonical).

(** The branch fixes the operation and the resource type. *)
Lemma branch_cases op resource original : validChallengeBranch op resource original = true →
  (op = OperationApprove ∨ op = OperationReject) ∧ resource = ResourcePolicy ∧ original = None
  ∨ op = hil_OperationRevoke ∧ resource = ResourceEnforcementAction ∧ is_Some original.
Proof.
  unfold validChallengeBranch. destruct (String.eqb_spec op OperationApprove) as [->|]; cbn [orb].
  { rewrite andb_true_iff, String.eqb_eq, bool_decide_eq_true. intros [-> ->]. auto. }
  destruct (String.eqb_spec op OperationReject) as [->|].
  { rewrite andb_true_iff, String.eqb_eq, bool_decide_eq_true. intros [-> ->]. auto. }
  destruct (String.eqb_spec op hil_OperationRevoke) as [->|]; [|done].
  rewrite andb_true_iff, String.eqb_eq, negb_true_iff, bool_decide_eq_false. intros [-> Ho]. right. split_and!; [done..|]. by destruct original.
Qed.

Lemma branch_operation op resource original : validChallengeBranch op resource original = true → validOperation op = true.
Proof. intros [([->| ->] & _)|(-> & _)]%branch_cases; done. Qed.

Lemma branch_bounded op resource original : validChallengeBranch op resource original = true → bounded 7 op ∧ bounded 18 resource.
Proof. intros [([->| ->] & -> & _)|(-> & -> & _)]%branch_cases; split; (split; [by vm_compute|vm_compute; lia]). Qed.

Lemma CheckChallenge_iff v c : 0 <= ch_ResourceVersion v →
  CheckChallenge v = Ok c ↔ challenge_ok v ∧ len (marshalChallengeJCS (normalized_challenge v)) <= MaxChallengeBytes ∧ c = checked_challenge v.
Proof.
  intros H0. unfold CheckChallenge, Before, After. change (ReauthAfter / Second) with 900. split.
  - intros H. repeat match type of H with (if ?b then _ else _) = _ => destruct b eqn:?; [discriminate H|] end.
    destruct (normalizedTime (ch_AuthenticatedAt v)) as [t1|] eqn:E1; [|discriminate H]. destruct (normalizedTime (ch_IssuedAt v)) as [t2|] eqn:E2; [|discriminate H].
    destruct (normalizedTime (ch_ExpiresAt v)) as [t3|] eqn:E3; [|discriminate H]. destruct (normalizedTime (ch_ValidationValidUntil v)) as [t4|] eqn:E4; [|discriminate H].
    apply normalizedTime_iff in E1 as [E1 ->], E2 as [E2 ->], E3 as [E3 ->], E4 as [E4 ->]. cbn [UTC lt_instant] in H.
    destruct (_ || _) eqn:Et in H; [discriminate H|]. cbv zeta in H. destruct (_ <? _) eqn:El in H; [discriminate H|]. apply (f_equal (from_ok c)) in H. cbn [from_ok] in H.
    cbn [forallb] in *. breflect. destruct_and?. split; [|split; [lia|by rewrite <-H]]. split; try done; try tauto; try lia; repeat constructor; try done.
  - intros (Hv & Hl & ->). destruct Hv as [Hs Hb [Hi1 Hi2] Hr Ht Hd Ho Hrv Hra Htm Hi He Hva]. rewrite (branch_operation _ _ _ Hb), Hs, Hb, Hi1, Hi2, Ht, Ho, Hra.
    split_Forall. rewrite !normalizedTime_valid by done. cbn [forallb UTC lt_instant].
    repeat match goal with H : is_digest _ = true |- _ => rewrite H; clear H end.
    assert ((ch_ResourceID v =? "")%string = false) as -> by (apply String.eqb_neq; intros E; rewrite E in Hi2; discriminate Hi2).
    assert (((ch_Operation v =? hil_OperationRevoke)%string && negb (ch_GeneratedArtifactDigest v =? ch_CanonicalArtifactDigest v)%string) = false) as ->.
    { destruct (String.eqb_spec (ch_Operation v) hil_OperationRevoke) as [E|]; [|done]. by rewrite (Hrv E), String.eqb_refl. }
    rewrite String.eqb_refl, (proj2 (Z.eqb_neq (ch_ResourceVersion v) 0)), !(proj2 (Z.ltb_ge _ _)) by lia. cbn [negb orb andb].
    rewrite (proj2 (Z.ltb_lt (lt_instant (ch_IssuedAt v)) _)), (proj2 (Z.ltb_ge (lt_instant (ch_IssuedAt v) + _) _)) by lia. cbn [negb orb].
    rewrite !(proj2 (Z.ltb_ge _ _)) by lia. done.
Qed.

(** The four instants have years of four digits in UTC. *)
Definition challenge_years (v : Challenge) : Prop :=
  Forall utc_year_ok [ch_AuthenticatedAt v; ch_IssuedAt v; ch_ExpiresAt v; ch_ValidationValidUntil v].

Lemma optional_member k o : plain k → optional_digest_ok o = true →
  flat (k, json_optional o) ∧ (member_size (k, json_optional o) ≤ length (chars k) + 77)%nat.
Proof.
  intros Hk Ho. destruct o as [d|]; [|split; [by split|]; unfold member_size; simpl; lia].
  destruct (string_member k 71 d Hk (digest_bounded d Ho)). split; [done|cbn [json_optional]; lia].
Qed.

Ltac bound_members :=
  repeat (apply members_cons;
    [first [ apply string_member; [vm_compute; reflexivity|eauto using uuid_bounded, digest_bounded, actorID_bounded, target_bounded, instant_text_bounded]
           | apply optional_member; [vm_compute; reflexivity|assumption]
           | apply (uint_member _ 10); [vm_compute; reflexivity|simpl; lia|lia]]|]);
  apply members_nil.

Lemma challenge_members_ok v : challenge_ok v → challenge_years v →
  Forall flat (challenge_members v) ∧ (sum_list (member_size <$> challenge_members v) ≤ 2000)%nat.
Proof.
  intros [Hs Hb [Hi1 Hi2] Hr Ht Hd Ho _ Hra _ _ _ _] Hy. unfold challenge_years in Hy. split_Forall. destruct (branch_bounded _ _ _ Hb) as [Hb1 Hb2].
  assert (Hs' : bounded 16 (ch_SchemaVersion v)) by (rewrite Hs; split; [by vm_compute|vm_compute; lia]).
  enough (∃ n, (Forall flat (challenge_members v) ∧ (sum_list (member_size <$> challenge_members v) ≤ n)%nat) ∧ (n ≤ 2000)%nat) as (n & [? ?] & ?) by (split; [done|lia]).
  unfold challenge_members. eexists. split; [bound_members|]. vm_compute. lia.
Qed.

Lemma optional_write o : optional_digest_ok o = true → chars (appendOptionalJCSString o) = write_value (json_optional o).
Proof. destruct o as [d|]; [|done]. intros Hd. cbn [appendOptionalJCSString json_optional write_value]. by rewrite appendJCSString_plain by apply digest_plain, Hd. Qed.

Lemma challenge_write v : challenge_ok v → chars (marshalChallengeJCS v) = write_object (challenge_members v).
Proof.
  intros [Hs Hb [Hi1 Hi2] Hr Ht Hd Ho _ Hra _ _ _ _]. split_Forall. destruct (branch_bounded _ _ _ Hb) as [[Hb1 _] [Hb2 _]]. destruct (target_bounded _ Ht) as [Ht' _].
  assert (Hs' : plain (ch_SchemaVersion v)) by (rewrite Hs; by vm_compute).
  unfold marshalChallengeJCS. rewrite !appendUint32_format by lia. rewrite !chars_app, optional_write by done.
  rewrite !appendJCSString_plain by auto using hil_uuid_plain, hil_digest_plain, time_plain. rewrite write_object_end. reflexivity.
Qed.

Lemma challenge_decodes v : challenge_ok v → decode_struct challengeWire (JObject (challenge_members v)) = Some (rev (challenge_members v)).
Proof.
  intros Hv. pose proof (co_version _ Hv). pose proof (co_reauth _ Hv) as Hra.
  assert (parse_uint 32 (implode (chars (format_uint (ch_ResourceVersion v)))) = Some (ch_ResourceVersion v)) as Hp by (rewrite implode_chars; apply parse_format_uint; lia).
  assert (parse_uint 32 (implode (chars (format_uint (ch_ReauthRequiredAfterSeconds v)))) = Some (ch_ReauthRequiredAfterSeconds v)) as Hq
    by (rewrite implode_chars; apply parse_format_uint; lia).
  clear Hra. unfold challenge_members, json_optional. destruct (ch_OriginalAddDigest v);
    cbn -[parse_uint implode chars format_uint format_rfc3339nano]; rewrite Hp; cbn -[parse_uint implode chars format_uint format_rfc3339nano]; rewrite Hq; reflexivity.
Qed.

Lemma decoded_uint n : 0 <= n < 2 ^ 32 → default 0 (parse_uint 64 (implode (chars (format_uint n)))) = n.
Proof. intros Hn. by rewrite implode_chars, parse_format_uint by lia. Qed.

Lemma challenge_of_members v t1 t2 t3 t4 : challenge_ok v →
  challenge_of_wire (rev (challenge_members v)) t1 t2 t3 t4
  = MkChallenge (ch_SchemaVersion v) (ch_ChallengeID v) (ch_SessionDigest v) (ch_Operation v) (ch_ResourceType v) (ch_ResourceID v) (ch_ResourceVersion v)
      (ch_TargetIPv4 v) (ch_PolicyDigest v) (ch_GeneratedArtifactDigest v) (ch_CanonicalArtifactDigest v) (ch_OriginalAddDigest v) (ch_EvidenceSnapshotDigest v)
      (ch_ValidationSnapshotDigest v) t4 (ch_NonceDigest v) t1 (ch_ReauthRequiredAfterSeconds v) t2 t3.
Proof.
  intros Hv. pose proof (co_version _ Hv). pose proof (co_reauth _ Hv). unfold challenge_of_wire. f_equal; try reflexivity.
  - by apply decoded_uint; lia.
  - unfold get_pointer. change (slot _ _) with (Some (json_optional (ch_OriginalAddDigest v))). by destruct (ch_OriginalAddDigest v).
  - by apply decoded_uint; lia.
Qed.

Lemma challenge_ok_normalized v : challenge_ok v → challenge_years v → challenge_ok (normalized_challenge v).
Proof.
  intros [Hs Hb Hi Hr Ht Hd Ho Hrv Hra Htm Hi' He Hva] Hy. unfold challenge_years in Hy. split_Forall. split; try done; repeat constructor; first [assumption|by apply utc_valid].
Qed.

Lemma challenge_length v : challenge_ok v → challenge_years v → len (marshalChallengeJCS v) <= 2002.
Proof.
  intros Hv Hy. destruct (challenge_members_ok v Hv Hy) as [Hf Hs]. rewrite len_chars, challenge_write by done. pose proof (write_object_length _ Hf). lia.
Qed.

Lemma challenge_years_normalized v : challenge_years v → challenge_years (normalized_challenge v).
Proof. unfold challenge_years. intros H. split_Forall. do 4 (constructor; [assumption|]). constructor. Qed.

Lemma CheckChallenge_accepts v : challenge_ok v → challenge_years v → CheckChallenge v = Ok (checked_challenge v).
Proof.
  intros Hv Hy. apply CheckChallenge_iff; [destruct (co_version _ Hv); lia|]. split; [done|]. split; [|done].
  pose proof (challenge_length _ (challenge_ok_normalized v Hv Hy) (challenge_years_normalized v Hy)). unfold MaxChallengeBytes. lia.
Qed.

Lemma challenge_reads v c : 0 <= ch_ResourceVersion v → challenge_years v → CheckChallenge v = Ok c → ParseCanonicalChallenge (cch_canonical c) = Ok c.
Proof.
  intros H0 Hy Hc. apply CheckChallenge_iff in Hc as (Hv & _ & ->); [|done]. pose proof (challenge_ok_normalized v Hv Hy) as Hn.
  pose proof (challenge_years_normalized v Hy) as Hny. destruct (challenge_members_ok _ Hn Hny) as [Hf Hs]. unfold ParseCanonicalChallenge. cbn [checked_challenge cch_canonical].
  rewrite (decodeStrict_strict _ _ _ (rev (challenge_members (normalized_challenge v)))).
  2:{ eapply strictDecode_write; [by apply challenge_write|exact Hf|unfold MaxChallengeBytes; lia|apply (bool_decide_eq_true_1 _); vm_compute; reflexivity|by apply challenge_decodes]. }
  cbn [mbind result_bind]. unfold challenge_years in Hy. split_Forall.
  change (get_string _ "authenticated_at") with (format_rfc3339nano (lt_instant (ch_AuthenticatedAt v))).
  change (get_string _ "issued_at") with (format_rfc3339nano (lt_instant (ch_IssuedAt v))).
  change (get_string _ "expires_at") with (format_rfc3339nano (lt_instant (ch_ExpiresAt v))).
  change (get_string _ "validation_valid_until") with (format_rfc3339nano (lt_instant (ch_ValidationValidUntil v))).
  rewrite !utc_parses by done. rewrite challenge_of_members by done.
  pose proof (CheckChallenge_accepts (normalized_challenge v) Hn Hny) as Hck. change (MkChallenge _ _ _ _ _ _ _ _ _ _ _ _ _ _ _ _ _ _ _ _) with (normalized_challenge v).
  rewrite Hck. cbn [mbind result_bind]. by rewrite String.eqb_refl.
Qed.

Lemma challenge_only_canonical data c : ParseCanonicalChallenge data = Ok c → data = cch_canonical c ∧ ∃ v, CheckChallenge v = Ok c.
Proof.
  unfold ParseCanonicalChallenge. destruct (decodeStrict _ _ _) as [w|]; [|done]. cbn [mbind result_bind].
  destruct (parse_rfc3339nano _); [|done]. destruct (parse_rfc3339nano _); [|done]. destruct (parse_rfc3339nano _); [|done]. destruct (parse_rfc3339nano _); [|done].
  destruct (CheckChallenge _) as [c'|] eqn:E; [|done]. cbn [mbind result_bind]. destruct (String.eqb_spec data (cch_canonical c')) as [->|]; [|done].
  cbn [negb]. intros H. apply (f_equal (from_ok c)) in H. cbn [from_ok] in H. subst c'. split; [done|by eexists].
Qed.

(** ** Decisions *)

Definition decision_members (v : Decision) : list (string * json) :=
  [("actor_id", JString (de_ActorID v)); ("canonical_artifact_digest", JString (de_CanonicalArtifactDigest v)); ("challenge_id", JString (de_ChallengeID v));
   ("decided_at", JString (format_rfc3339nano (lt_instant (de_DecidedAt v)))); ("decision", JString (de_Decision v)); ("decision_id", JString (de_DecisionID v));
   ("decision_valid_until", JString (format_rfc3339nano (lt_instant (de_DecisionValidUntil v)))); ("evidence_snapshot_digest", JString (de_EvidenceSnapshotDigest v));
   ("generated_artifact_digest", JString (de_GeneratedArtifactDigest v)); ("idempotency_key_digest", JString (de_IdempotencyKeyDigest v));
   ("nonce_digest", JString (de_NonceDigest v)); ("operation", JString (de_Operation v)); ("original_add_digest", json_optional (de_OriginalAddDigest v));
   ("policy_digest", JString (de_PolicyDigest v)); ("reason_digest", JString (de_ReasonDigest v)); ("resource_id", JString (de_ResourceID v));
   ("resource_type", JString (de_ResourceType v)); ("resource_version", JNumber (chars (format_uint (de_ResourceVersion v))));
   ("schema_version", JString (de_SchemaVersion v)); ("session_digest", JString (de_SessionDigest v)); ("target_ipv4", JString (de_TargetIPv4 v));
   ("validation_snapshot_digest", JString (de_ValidationSnapshotDigest v))].

(** What [CheckDecision] demands. *)
Record decision_ok (v : Decision) : Prop := {
  do_schema : de_SchemaVersion v = DecisionSchemaVersion;
  do_branch : validDecisionBranch (de_Operation v) (de_Decision v) (de_ResourceType v) (de_OriginalAddDigest v) = true;
  do_ids : Forall (λ id, is_uuid id = true) [de_DecisionID v; de_ChallengeID v; de_ResourceID v];
  do_version : 1 <= de_ResourceVersion v <= 2147483647;
  do_target : validCanonicalIPv4 (de_TargetIPv4 v) = true;
  do_actor : match_string actorIDPattern (de_ActorID v) = true;
  do_digests : Forall (λ d, is_digest d = true) [de_SessionDigest v; de_PolicyDigest v; de_GeneratedArtifactDigest v; de_CanonicalArtifactDigest v;
    de_EvidenceSnapshotDigest v; de_ValidationSnapshotDigest v; de_ReasonDigest v; de_NonceDigest v; de_IdempotencyKeyDigest v];
  do_original : optional_digest_ok (de_OriginalAddDigest v) = true;
  do_revoke : de_Operation v = hil_OperationRevoke → de_GeneratedArtifactDigest v = de_CanonicalArtifactDigest v;
  do_times : validSnapshotTime (de_DecidedAt v) = true ∧ validSnapshotTime (de_DecisionValidUntil v) = true;
  do_lifetime : lt_instant (de_DecidedAt v) < lt_instant (de_DecisionValidUntil v) <= lt_instant (de_DecidedAt v) + DecisionLifetime
}.

Definition checked_decision (v : Decision) : CheckedDecision :=
  let canonical := marshalDecisionJCS (normalized_decision v) in MkCheckedDecision (normalized_decision v) canonical (digest canonical) "" "".

Definition decision_years (v : Decision) : Prop := utc_year_ok (de_DecidedAt v) ∧ utc_year_ok (de_DecisionValidUntil v).

Lemma CheckDecision_iff v c : 0 <= de_ResourceVersion v →
  CheckDecision v = Ok c ↔ decision_ok v ∧ len (marshalDecisionJCS (normalized_decision v)) <= MaxDecisionBytes ∧ c = checked_decision v.
Proof.
  intros H0. unfold CheckDecision, After. split.
  - intros H. repeat match type of H with (if ?b then _ else _) = _ => destruct b eqn:?; [discriminate H|] end.
    destruct (normalizedTime (de_DecidedAt v)) as [t1|] eqn:E1; [|discriminate H]. destruct (normalizedTime (de_DecisionValidUntil v)) as [t2|] eqn:E2; [|discriminate H].
    apply normalizedTime_iff in E1 as [E1 ->], E2 as [E2 ->]. cbn [UTC lt_instant] in H.
    destruct (_ || _) eqn:Et in H; [discriminate H|]. cbv zeta in H. destruct (_ <? _) eqn:El in H; [discriminate H|]. apply (f_equal (from_ok c)) in H. cbn [from_ok] in H.
    cbn [forallb] in *. breflect. destruct_and?. split; [|split; [lia|by rewrite <-H]]. split; try done; try tauto; try lia; repeat constructor; try done.
  - intros (Hv & Hl & ->). destruct Hv as [Hs Hb Hi Hr Ht Ha Hd Ho Hrv [Htm1 Htm2] Hlt].
    assert (Hop : validOperation (de_Operation v) = true) by (apply andb_prop in Hb as [_ Hb]; by eapply branch_operation).
    rewrite Hop, Hs, Hb, Ht, Ha, Ho. split_Forall. rewrite !normalizedTime_valid by done. cbn [forallb UTC lt_instant].
    repeat match goal with H : is_digest _ = true |- _ => rewrite H; clear H | H : is_uuid _ = true |- _ => rewrite H; clear H end.
    assert (((de_Operation v =? hil_OperationRevoke)%string && negb (de_GeneratedArtifactDigest v =? de_CanonicalArtifactDigest v)%string) = false) as ->.
    { destruct (String.eqb_spec (de_Operation v) hil_OperationRevoke) as [E|]; [|done]. by rewrite (Hrv E), String.eqb_refl. }
    rewrite String.eqb_refl, (proj2 (Z.eqb_neq (de_ResourceVersion v) 0)), (proj2 (Z.ltb_ge 2147483647 _)) by lia. cbn [negb orb andb].
    rewrite (proj2 (Z.ltb_lt _ _)), !(proj2 (Z.ltb_ge _ _)) by lia. done.
Qed.

Lemma decision_bounded op decision resource original : validDecisionBranch op decision resource original = true →
  bounded 7 op ∧ bounded 8 decision ∧ bounded 18 resource.
Proof.
  unfold validDecisionBranch. intros [Hd Hb]%andb_prop. destruct (branch_bounded _ _ _ Hb) as [H1 H2]. split_and!; try done.
  unfold validDecision in Hd. rewrite !orb_true_iff, !andb_true_iff, !String.eqb_eq in Hd. destruct Hd as [[[_ ->]|[_ ->]]|[_ ->]]; (split; [by vm_compute|vm_compute; lia]).
Qed.

Lemma decision_members_ok v : decision_ok v → decision_years v →
  Forall flat (decision_members v) ∧ (sum_list (member_size <$> decision_members v) ≤ 2000)%nat.
Proof.
  intros [Hs Hb Hi Hr Ht Ha Hd Ho _ _ _] [Hy1 Hy2]. split_Forall. destruct (decision_bounded _ _ _ _ Hb) as (Hb1 & Hb2 & Hb3).
  assert (Hs' : bounded 16 (de_SchemaVersion v)) by (rewrite Hs; split; [by vm_compute|vm_compute; lia]).
  enough (∃ n, (Forall flat (decision_members v) ∧ (sum_list (member_size <$> decision_members v) ≤ n)%nat) ∧ (n ≤ 2000)%nat) as (n & [? ?] & ?) by (split; [done|lia]).
  unfold decision_members. eexists. split; [bound_members|]. vm_compute. lia.
Qed.

Lemma decision_write v : decision_ok v → chars (marshalDecisionJCS v) = write_object (decision_members v).
Proof.
  intros [Hs Hb Hi Hr Ht Ha Hd Ho _ _ _]. split_Forall. destruct (decision_bounded _ _ _ _ Hb) as ([Hb1 _] & [Hb2 _] & [Hb3 _]).
  destruct (target_bounded _ Ht) as [Ht' _]. destruct (actorID_bounded _ Ha) as [Ha' _]. assert (Hs' : plain (de_SchemaVersion v)) by (rewrite Hs; by vm_compute).
  unfold marshalDecisionJCS. rewrite !appendUint32_format by lia. rewrite !chars_app, optional_write by done.
  rewrite !appendJCSString_plain by auto using hil_uuid_plain, hil_digest_plain, time_plain. rewrite write_object_end. reflexivity.
Qed.

Lemma decision_decodes v : decision_ok v → decode_struct decisionWire (JObject (decision_members v)) = Some (rev (decision_members v)).
Proof.
  intros Hv. pose proof (do_version _ Hv).
  assert (parse_uint 32 (implode (chars (format_uint (de_ResourceVersion v)))) = Some (de_ResourceVersion v)) as Hp by (rewrite implode_chars; apply parse_format_uint; lia).
  unfold decision_members, json_optional. destruct (de_OriginalAddDigest v); cbn -[parse_uint implode chars format_uint format_rfc3339nano]; rewrite Hp; reflexivity.
Qed.

Lemma decision_of_members v t1 t2 : decision_ok v →
  decision_of_wire (rev (decision_members v)) t1 t2
  = MkDecision (de_SchemaVersion v) (de_DecisionID v) (de_ChallengeID v) (de_SessionDigest v) (de_Operation v) (de_Decision v) (de_ResourceType v)
      (de_ResourceID v) (de_ResourceVersion v) (de_TargetIPv4 v) (de_PolicyDigest v) (de_GeneratedArtifactDigest v) (de_CanonicalArtifactDigest v)
      (de_OriginalAddDigest v) (de_EvidenceSnapshotDigest v) (de_ValidationSnapshotDigest v) (de_ActorID v) (de_ReasonDigest v) (de_NonceDigest v)
      (de_IdempotencyKeyDigest v) t1 t2.
Proof.
  intros Hv. pose proof (do_version _ Hv). unfold decision_of_wire. f_equal; try reflexivity.
  - by apply decoded_uint; lia.
  - unfold get_pointer. change (slot _ _) with (Some (json_optional (de_OriginalAddDigest v))). by destruct (de_OriginalAddDigest v).
Qed.

Lemma decision_ok_normalized v : decision_ok v → decision_years v → decision_ok (normalized_decision v).
Proof. intros [Hs Hb Hi Hr Ht Ha Hd Ho Hrv [Ht1 Ht2] Hl] [Hy1 Hy2]. split; try done. split; by apply utc_valid. Qed.

Lemma CheckDecision_accepts v : decision_ok v → decision_years v → CheckDecision v = Ok (checked_decision v).
Proof.
  intros Hv Hy. apply CheckDecision_iff; [destruct (do_version _ Hv); lia|]. split; [done|]. split; [|done].
  pose proof (decision_ok_normalized v Hv Hy) as Hn. destruct (decision_members_ok _ Hn Hy) as [Hf Hs]. rewrite len_chars, decision_write by done.
  pose proof (write_object_length _ Hf). unfold MaxDecisionBytes. lia.
Qed.

Lemma decision_reads v c : 0 <= de_ResourceVersion v → decision_years v → CheckDecision v = Ok c → ParseCanonicalDecision (cd_canonical c) = Ok c.
Proof.
  intros H0 Hy Hc. apply CheckDecision_iff in Hc as (Hv & _ & ->); [|done]. pose proof (decision_ok_normalized v Hv Hy) as Hn.
  destruct (decision_members_ok _ Hn Hy) as [Hf Hs]. unfold ParseCanonicalDecision. cbn [checked_decision cd_canonical].
  rewrite (decodeStrict_strict _ _ _ (rev (decision_members (normalized_decision v)))).
  2:{ eapply strictDecode_write; [by apply decision_write|exact Hf|unfold MaxDecisionBytes; lia|apply (bool_decide_eq_true_1 _); vm_compute; reflexivity|by apply decision_decodes]. }
  cbn [mbind result_bind]. destruct Hy as [Hy1 Hy2].
  change (get_string _ "decided_at") with (format_rfc3339nano (lt_instant (de_DecidedAt v))).
  change (get_string _ "decision_valid_until") with (format_rfc3339nano (lt_instant (de_DecisionValidUntil v))).
  rewrite !utc_parses by done. rewrite decision_of_members by done.
  pose proof (CheckDecision_accepts (normalized_decision v) Hn (conj Hy1 Hy2)) as Hck.
  change (MkDecision _ _ _ _ _ _ _ _ _ _ _ _ _ _ _ _ _ _ _ _ _ _) with (normalized_decision v).
  rewrite Hck. cbn [mbind result_bind]. by rewrite String.eqb_refl.
Qed.

Lemma decision_only_canonical data c : ParseCanonicalDecision data = Ok c → data = cd_canonical c ∧ ∃ v, CheckDecision v = Ok c.
Proof.
  unfold ParseCanonicalDecision. destruct (decodeStrict _ _ _) as [w|]; [|done]. cbn [mbind result_bind].
  destruct (parse_rfc3339nano _); [|done]. destruct (parse_rfc3339nano _); [|done].
  destruct (CheckDecision _) as [c'|] eqn:E; [|done]. cbn [mbind result_bind]. destruct (String.eqb_spec data (cd_canonical c')) as [->|]; [|done].
  cbn [negb]. intros H. apply (f_equal (from_ok c)) in H. cbn [from_ok] in H. subst c'. split; [done|by eexists].
Qed.
