(* ===== verification/HilServiceSpec.v ===== *)
(** * One decision per challenge, bound and limited in time

    The service of [internal/hil] over its whole life: a challenge is issued, attempts to
    answer it arrive in any number and order, and at most one decision comes of it. *)

From S2P Require Import Prelude GoSort GoStrings Regex Sha256 Base64 GoTime GoTimeParse Netip NetPrefix Policy PolicySpec ResponsePolicy ResponsePolicySpec Json JsonTree CanonicalJson CapabilitySpec Detection Protected ProtectedSpec Consistency ConsistencySpec.
From S2P Require Import Executor NftValidate NftValidateSpec Snapshot SnapshotSpec PolicyReader Limiter Session SessionSpec Worker WorkerSpec Hil HilDecision HilSpec.
Local Open Scope Z_scope.

(** ** Sessions, times and artifacts *)

Record session_live (value : SessionBinding) (now : localtime) : Prop := {
  sl_names : is_uuid (sb_SessionID value) = true ∧ is_digest (sb_SessionDigest value) = true ∧ match_string actorIDPattern (sb_ActorID value) = true;
  sl_times : validSnapshotTime (sb_AuthenticatedAt value) = true ∧ validSnapshotTime (sb_ExpiresAt value) = true ∧ validSnapshotTime now = true;
  sl_span : lt_instant (sb_AuthenticatedAt value) <= lt_instant now < lt_instant (sb_ExpiresAt value);
  sl_recent : lt_instant now <= lt_instant (sb_AuthenticatedAt value) + ReauthAfter
}.

Definition normalized_session (value : SessionBinding) : SessionBinding :=
  MkSessionBinding (sb_SessionID value) (sb_SessionDigest value) (sb_ActorID value) (UTC (sb_AuthenticatedAt value)) (UTC (sb_ExpiresAt value)).

Lemma normalizedTime_none t : normalizedTime t = None ↔ validSnapshotTime t = false.
Proof.
  destruct (normalizedTime t) as [u|] eqn:E; [apply normalizedTime_iff in E as [E _]; rewrite E; done|]. split; [|done]. intros _.
  destruct (validSnapshotTime t) eqn:Ev; [|done]. by rewrite normalizedTime_valid in E.
Qed.

Lemma checkSession_iff value now s : checkSession value now = Ok s ↔ session_live value now ∧ s = normalized_session value.
Proof.
  unfold checkSession, Before, After. split.
  - destruct (_ || _) eqn:E0; [done|]. breflect. destruct (normalizedTime (sb_AuthenticatedAt value)) as [a|] eqn:E1; [|done].
    destruct (normalizedTime (sb_ExpiresAt value)) as [x|] eqn:E2; [|done]. destruct (negb _) eqn:E3; [done|]. destruct (normalizedTime now) as [n|] eqn:E4; [|done].
    apply normalizedTime_iff in E1 as [E1 ->], E2 as [E2 ->], E4 as [E4 ->]. cbn [UTC lt_instant] in *. destruct (_ || _) eqn:E5; [done|]. destruct (lt_instant (sb_AuthenticatedAt value) + ReauthAfter <? lt_instant now) eqn:E6; [done|].
    intros [= <-]. breflect. split; [|done]. split; [tauto|done|lia|lia].
  - intros [[(H1 & H2 & H3) (H4 & H5 & H6) H7 H8] ->]. rewrite H1, H2, H3, !normalizedTime_valid by done. cbn [negb orb UTC lt_instant].
    rewrite (proj2 (Z.ltb_lt (lt_instant (sb_AuthenticatedAt value)) (lt_instant (sb_ExpiresAt value)))), (proj2 (Z.ltb_ge (lt_instant now) (lt_instant (sb_AuthenticatedAt value)))),
      (proj2 (Z.ltb_lt (lt_instant now) (lt_instant (sb_ExpiresAt value)))), (proj2 (Z.ltb_ge (_ + _) _)) by lia. done.
Qed.

Lemma checkSession_live value now : is_ok (checkSession value now) = true → session_live value now.
Proof. destruct (checkSession value now) as [s|] eqn:E; [|done]. by apply checkSession_iff in E as [E _]. Qed.

Lemma service_now_iff clock now : service_now clock = Ok now ↔ validSnapshotTime clock = true ∧ now = UTC clock.
Proof.
  unfold service_now. rewrite <-normalizedTime_iff. destruct (normalizedTime clock) as [t|]; split; try done; congruence.
Qed.

Lemma minTime_cons a b l : minTime a (b :: l) = minTime (Z.min a b) l.
Proof. unfold minTime. cbn [foldl]. f_equal. unfold Before. destruct (Z.ltb_spec b a); lia. Qed.

Lemma minTime_nil a : minTime a [] = a.
Proof. done. Qed.

Lemma timeValue_round t : timeValue_Time (freezeTime t) = UTC t.
Proof.
  unfold timeValue_Time, freezeTime, UTC, NanosecondOf. cbn [tv_value tv_nanos]. f_equal. pose proof (Z.div_mod (lt_instant t) Second ltac:(done)). lia.
Qed.

Lemma sameExactArtifact_iff l r : sameExactArtifact l r = true ↔ l = r.
Proof.
  split; [|intros ->; destruct r as [? ? ? ? ? ? ? ? ? [] [] ? ?]; unfold sameExactArtifact, sameTimeValue; by rewrite !String.eqb_refl, !Z.eqb_refl].
  unfold sameExactArtifact, sameTimeValue. rewrite !andb_true_iff, !String.eqb_eq, !Z.eqb_eq.
  destruct l as [? ? ? ? ? ? ? ? ? [] [] ? ?], r as [? ? ? ? ? ? ? ? ? [] [] ? ?]. cbn. intuition congruence.
Qed.

Lemma sameSession_iff l r : sameSession l r = true ↔ sb_SessionID l = sb_SessionID r ∧ sb_SessionDigest l = sb_SessionDigest r ∧ sb_ActorID l = sb_ActorID r
  ∧ lt_instant (sb_AuthenticatedAt l) = lt_instant (sb_AuthenticatedAt r) ∧ lt_instant (sb_ExpiresAt l) = lt_instant (sb_ExpiresAt r).
Proof. unfold sameSession, Equal. rewrite !andb_true_iff, !String.eqb_eq, !Z.eqb_eq. tauto. Qed.

Lemma exact_FreshAt_iff a now : exact_FreshAt a now = true ↔ validSnapshotTime now = true
  ∧ lt_instant (ValidationCreatedAt a) <= lt_instant now < lt_instant (ValidationValidUntil a).
Proof.
  unfold exact_FreshAt. destruct (normalizedTime now) as [t|] eqn:E; [|apply normalizedTime_none in E; rewrite E; split; [done|intros [? _]; done]].
  apply normalizedTime_iff in E as [-> ->]. unfold Before. cbn [UTC lt_instant]. rewrite andb_true_iff, negb_true_iff, Z.ltb_ge, Z.ltb_lt. tauto.
Qed.

Record exact_ok (a : ExactArtifact) : Prop := {
  xo_id : is_uuid (xa_policyID a) = true; xo_version : 0 < xa_policyVersion a <= 2147483647; xo_target : validCanonicalIPv4 (xa_targetIPv4 a) = true;
  xo_digests : Forall (λ d, is_digest d = true) [xa_policyDigest a; xa_generatedDigest a; xa_canonicalDigest a; xa_evidenceSnapshotDigest a; xa_validationSnapshotDigest a];
  xo_bytes : 0 < len (xa_generatedBytes a) ∧ 0 < len (xa_canonicalBytes a);
  xo_bound : digest (xa_generatedBytes a) = xa_generatedDigest a ∧ digest (xa_canonicalBytes a) = xa_canonicalDigest a
}.

Lemma validExactArtifact_iff a : validExactArtifact a = true ↔ exact_ok a.
Proof.
  unfold validExactArtifact. rewrite !andb_true_iff, !String.eqb_eq, !Z.ltb_lt, Z.leb_le. split.
  - intros H. destruct_and!. split; try done. repeat constructor; done.
  - intros [H1 H2 H3 H4 [H5 H6] [H7 H8]]. split_Forall. split_and!; try done; lia.
Qed.

(** ** Issuing *)

(** How long a challenge lasts: five minutes, the validation, the session. *)
Definition challenge_end (clock : localtime) (request : IssueRequest) : time :=
  Z.min (Z.min (lt_instant clock + ChallengeLifetime) (lt_instant (ValidationValidUntil (iq_Artifact request)))) (lt_instant (sb_ExpiresAt (iq_Session request))).

(** The challenge of a request. *)
Definition challenge_value (clock : localtime) (request : IssueRequest) (challengeID : string) (nonce : list Z) : Challenge :=
  issued_value challengeID (digest_bytes nonce) (iq_Operation request) (normalized_session (iq_Session request)) (iq_Artifact request) (UTC clock)
    (MkLocal (challenge_end clock request) 0).

Definition issued_bound (clock : localtime) (request : IssueRequest) (challengeID : string) (nonce : list Z) : boundChallenge :=
  MkBound (checked_challenge (challenge_value clock request challengeID nonce)) (normalized_session (iq_Session request)) (iq_Artifact request)
    (digest (iq_IdempotencyKey request)).

(** What an issued challenge rests on. *)
Record issuable (clock : localtime) (request : IssueRequest) : Prop := {
  ib_operation : iq_Operation request = OperationApprove ∨ iq_Operation request = OperationReject;
  ib_session : session_live (iq_Session request) (UTC clock);
  ib_key : MinIdempotencyKeyBytes <= len (iq_IdempotencyKey request) <= MaxIdempotencyKeyBytes;
  ib_exact : exact_ok (iq_Artifact request);
  ib_fresh : lt_instant (ValidationCreatedAt (iq_Artifact request)) <= lt_instant clock < lt_instant (ValidationValidUntil (iq_Artifact request))
}.

Lemma validPolicyOperation_iff op : validPolicyOperation op = true ↔ op = OperationApprove ∨ op = OperationReject.
Proof. unfold validPolicyOperation. by rewrite orb_true_iff, !String.eqb_eq. Qed.

Lemma validIdempotencyKey_iff key : validIdempotencyKey key = true ↔ MinIdempotencyKeyBytes <= len key <= MaxIdempotencyKeyBytes.
Proof. unfold validIdempotencyKey. by rewrite andb_true_iff, !Z.leb_le. Qed.

Lemma makeUUID_entropy entropy id rest : makeUUID entropy = Ok (id, rest) → ∃ raw, entropy = raw ++ rest ∧ length raw = 16%nat ∧ id = uuidV4From raw.
Proof.
  unfold makeUUID, ReadFull. destruct (_ <? 16)%nat eqn:E; [done|]. intros [= <- <-]. exists (take 16 entropy). split; [by rewrite take_drop|].
  apply Nat.ltb_ge in E. split; [rewrite length_take; lia|]. reflexivity.
Qed.

Lemma makeUUID_total entropy : (16 ≤ length entropy)%nat → makeUUID entropy = Ok (uuidV4From (take 16 entropy), drop 16 entropy).
Proof. intros H. unfold makeUUID, ReadFull. rewrite (proj2 (Nat.ltb_ge _ _)) by lia. reflexivity. Qed.

Lemma Issue_ok clock entropy request issued rest : Issue clock entropy request = Ok (issued, rest) →
  issuable clock request ∧ ∃ raw, entropy = raw ++ ic_nonce issued ++ rest ∧ length raw = 16%nat ∧ length (ic_nonce issued) = NonceBytes
    ∧ challenge_ok (challenge_value clock request (uuidV4From raw) (ic_nonce issued))
    ∧ ic_guard issued = MkGuard (issued_bound clock request (uuidV4From raw) (ic_nonce issued)) None "".
Proof.
  unfold Issue. destruct (service_now clock) as [now|] eqn:En; [|done]. apply service_now_iff in En as [Hc ->]. cbn [mbind result_bind].
  destruct (validPolicyOperation _) eqn:Eo; [|done]. apply validPolicyOperation_iff in Eo. cbn [negb].
  destruct (checkSession _ _) as [session|] eqn:Es; [|done]. apply checkSession_iff in Es as [Hs ->]. cbn [mbind result_bind].
  destruct (validIdempotencyKey _) eqn:Ek; [|done]. apply validIdempotencyKey_iff in Ek. cbn [negb].
  destruct (validExactArtifact _) eqn:Ex; [|done]. apply validExactArtifact_iff in Ex. cbn [negb].
  destruct (exact_FreshAt _ _) eqn:Ef; [|done]. apply exact_FreshAt_iff in Ef as [_ Ef]. cbn [negb UTC lt_instant] in *.
  rewrite !minTime_cons, minTime_nil. cbn [normalized_session sb_ExpiresAt UTC lt_instant]. fold (challenge_end clock request).
  destruct (After _ _); cbn [negb]; [|done]. destruct (makeUUID entropy) as [[id e1]|] eqn:Eu; [|done]. cbn [mbind result_bind].
  apply makeUUID_entropy in Eu as (raw & -> & Hraw & ->). unfold ReadFull. destruct (_ <? NonceBytes)%nat eqn:El; [done|]. apply Nat.ltb_ge in El.
  change (issued_value _ _ _ _ _ _ _) with (challenge_value clock request (uuidV4From raw) (take NonceBytes e1)).
  destruct (CheckChallenge _) as [checked|] eqn:Ec; [|done]. apply CheckChallenge_iff in Ec as (Hok & _ & ->); [|destruct (xo_version _ Ex); cbn; lia].
  cbn [mbind result_bind]. intros H. apply (f_equal (λ x, match x with Ok y => y | Err _ => (issued, rest) end)) in H. cbn beta iota in H.
  apply pair_equal_spec in H as [<- <-]. split; [by split|]. exists raw. cbn [ic_nonce ic_guard]. split_and!; try done; [by rewrite take_drop|rewrite length_take; lia].
Qed.

Lemma challenge_value_years clock request id nonce : challenge_ok (challenge_value clock request id nonce) → challenge_years (challenge_value clock request id nonce).
Proof.
  intros Hv. pose proof (co_times _ Hv) as Ht. unfold challenge_years. split_Forall. do 4 (constructor; [by apply valid_utc_year|]). constructor.
Qed.

(** The challenge is checked whenever the request is issuable. *)
Lemma issuable_challenge clock request id nonce : validSnapshotTime clock = true → utc_year_ok clock → issuable clock request →
  utc_year_ok (sb_AuthenticatedAt (iq_Session request)) → validSnapshotTime (ValidationValidUntil (iq_Artifact request)) = true →
  is_uuid id = true → challenge_ok (challenge_value clock request id nonce).
Proof.
  intros Hc Hy [Hop [(Hn1 & Hn2 & Hn3) (Ht1 & Ht2 & Ht3) Hsp Hre] Hk [Hid Hver Htg Hd _ _] Hf] Hya Hvu Hu. cbn [UTC lt_instant] in *. split_Forall.
  pose proof (valid_utc_year (ValidationValidUntil (iq_Artifact request)) eq_refl Hvu) as Hyv. assert (Hend : lt_instant clock < challenge_end clock request <= lt_instant clock + ChallengeLifetime
    ∧ challenge_end clock request <= lt_instant (ValidationValidUntil (iq_Artifact request))) by (unfold challenge_end, ChallengeLifetime, Minute, Second; lia).
  split; cbn; try done; try lia.
  - by destruct Hop as [->| ->].
  - repeat constructor; try done. apply digest_is_digest.
  - destruct Hop as [->| ->]; discriminate.
  - assert (He : validSnapshotTime (MkLocal (challenge_end clock request) 0) = true).
    { unfold validSnapshotTime, LocalYear, IsZero, utc_year_ok in *. cbn [lt_instant lt_zone] in *. rewrite Z.mul_0_l, Z.add_0_r.
      pose proof (Year_mono (lt_instant clock) (challenge_end clock request) ltac:(lia)). pose proof (Year_mono (challenge_end clock request) (lt_instant (ValidationValidUntil (iq_Artifact request))) ltac:(lia)).
      rewrite (proj2 (Z.leb_le _ _)), (proj2 (Z.leb_le _ _)) by lia. destruct (Z.eqb_spec (challenge_end clock request) 0) as [E|]; [|done].
      exfalso. apply andb_prop in Hc as [[Hc _]%andb_prop _]. rewrite negb_true_iff, Z.eqb_neq in Hc. assert (Hneg : lt_instant clock <= -1) by lia. apply Year_mono in Hneg.
      change (Year (-1)) with 0 in Hneg. lia. }
    repeat constructor; try done; by apply utc_valid.
  - exact (proj2 Hend).
Qed.

Lemma Issue_total clock entropy request : validSnapshotTime clock = true → utc_year_ok clock → issuable clock request →
  utc_year_ok (sb_AuthenticatedAt (iq_Session request)) → validSnapshotTime (ValidationValidUntil (iq_Artifact request)) = true →
  (48 ≤ length entropy)%nat → Forall is_byte entropy →
  ∃ issued rest, Issue clock entropy request = Ok (issued, rest).
Proof.
  intros Hc Hy Hib Hya Hvu Hl Hb. pose proof (Forall_take _ 16 _ Hb) as Hraw.
  assert (Hid : is_uuid (uuidV4From (take 16 entropy)) = true) by (apply (validUUIDV4_iff (uuidV4From (take 16 entropy))), uuidV4From_valid; [rewrite length_take; lia|done]).
  pose proof (issuable_challenge clock request _ (take NonceBytes (drop 16 entropy)) Hc Hy Hib Hya Hvu Hid) as Hok.
  pose proof (CheckChallenge_accepts _ Hok (challenge_value_years _ _ _ _ Hok)) as Hck.
  unfold Issue. rewrite (proj2 (service_now_iff clock (UTC clock))) by done. cbn [mbind result_bind].
  rewrite (proj2 (validPolicyOperation_iff _) (ib_operation _ _ Hib)). cbn [negb].
  rewrite (proj2 (checkSession_iff _ _ _) (conj (ib_session _ _ Hib) eq_refl)). cbn [mbind result_bind].
  rewrite (proj2 (validIdempotencyKey_iff _) (ib_key _ _ Hib)), (proj2 (validExactArtifact_iff _) (ib_exact _ _ Hib)). cbn [negb].
  rewrite (proj2 (exact_FreshAt_iff _ _)) by (split; [by apply utc_valid|apply (ib_fresh _ _ Hib)]). cbn [negb].
  rewrite !minTime_cons, minTime_nil. cbn [normalized_session sb_ExpiresAt UTC lt_instant]. fold (challenge_end clock request).
  assert (After (challenge_end clock request) (lt_instant clock) = true) as ->.
  { apply Z.ltb_lt. pose proof (ib_fresh _ _ Hib). pose proof (sl_span _ _ (ib_session _ _ Hib)). cbn [UTC lt_instant] in *. unfold challenge_end, ChallengeLifetime, Minute, Second. lia. }
  cbn [negb]. rewrite makeUUID_total by lia. cbn [mbind result_bind]. unfold ReadFull.
  rewrite (proj2 (Nat.ltb_ge _ _)) by (rewrite length_drop; unfold NonceBytes; lia).
  change (issued_value _ _ _ _ _ _ _) with (challenge_value clock request (uuidV4From (take 16 entropy)) (take NonceBytes (drop 16 entropy))).
  rewrite Hck. cbn [mbind result_bind]. by eexists _, _.
Qed.

(** ** Consuming *)

Section consume.
Context `{Normalizer}.

(** The request answers the challenge. *)
Record answers (bound : boundChallenge) (request : DecisionRequest) (f : fingerprinted) : Prop := {
  an_operation : (dq_Operation request = OperationApprove ∨ dq_Operation request = OperationReject) ∧ dq_Operation request = ch_Operation (cch_value (bc_artifact bound));
  an_key : MinIdempotencyKeyBytes <= len (dq_IdempotencyKey request) <= MaxIdempotencyKeyBytes ∧ digest (dq_IdempotencyKey request) = bc_idempotencyKeyDigest bound;
  an_exact : dq_Artifact request = bc_exact bound ∧ exact_ok (bc_exact bound);
  an_session : sameSession (bc_session bound) (dq_Session request) = true;
  an_nonce : ∃ nonce, canonicalNonce (dq_Nonce request) = Some nonce ∧ digest_bytes nonce = ch_NonceDigest (cch_value (bc_artifact bound));
  an_reason : CheckReason (dq_Reason request) = Ok (fp_reason f);
  an_digests : fp_nonceDigest f = ch_NonceDigest (cch_value (bc_artifact bound)) ∧ fp_idempotencyDigest f = bc_idempotencyKeyDigest bound;
  an_fingerprint : fp_fingerprint f = digest (fingerprint_text (sb_ActorID (bc_session bound)) (cch_digest (bc_artifact bound)) (bc_idempotencyKeyDigest bound)
    (ch_NonceDigest (cch_value (bc_artifact bound))) (ch_Operation (cch_value (bc_artifact bound))) (crs_digest (fp_reason f)) (sb_SessionDigest (bc_session bound))
    (xa_validationSnapshotDigest (bc_exact bound)))
}.

Lemma decisionFingerprint_iff bound request f : decisionFingerprint bound request = Ok f ↔ answers bound request f.
Proof.
  unfold decisionFingerprint. cbv zeta. split.
  - destruct (_ || _) eqn:E0; [done|]. apply orb_false_iff in E0 as [E0%negb_false_iff E1%negb_false_iff]. apply validPolicyOperation_iff in E0. apply String.eqb_eq in E1.
    destruct (validIdempotencyKey _) eqn:E2; [|done]. apply validIdempotencyKey_iff in E2. cbn [negb].
    destruct (String.eqb_spec (digest (dq_IdempotencyKey request)) (bc_idempotencyKeyDigest bound)) as [E3|]; [|done]. cbn [negb].
    destruct (_ || _) eqn:E4; [done|]. apply orb_false_iff in E4 as [E4%negb_false_iff E5%negb_false_iff]. apply sameExactArtifact_iff in E4. apply validExactArtifact_iff in E5.
    destruct (sameSession _ _) eqn:E6; [|done]. cbn [negb]. destruct (canonicalNonce _) as [nonce|] eqn:E7; [|done].
    destruct (String.eqb_spec (digest_bytes nonce) (ch_NonceDigest (cch_value (bc_artifact bound)))) as [E8|]; [|done]. cbn [negb].
    destruct (CheckReason _) as [reason|] eqn:E9; [|done]. cbn [mbind result_bind]. intros Hf. apply (f_equal (from_ok f)) in Hf. cbn [from_ok] in Hf. subst f.
    cbn [fp_reason fp_nonceDigest fp_idempotencyDigest fp_fingerprint]. pose proof (proj1 (sameSession_iff _ _) E6) as (_ & Hd & Ha & _).
    rewrite E3, E8, E1, <-E4, <-Hd, <-Ha. split; cbn [fp_reason fp_nonceDigest fp_idempotencyDigest fp_fingerprint]; try done; [by rewrite E4|by exists nonce].
  - intros [[H1 H2] [H3 H4] [H5 H6] H7 (nonce & H8 & H9) H10 [H11 H12] H13]. pose proof (proj1 (sameSession_iff _ _) H7) as (_ & Hd & Ha & _).
    rewrite (proj2 (validPolicyOperation_iff _) H1), (proj2 (String.eqb_eq _ _) H2), (proj2 (validIdempotencyKey_iff _) H3), (proj2 (String.eqb_eq _ _) H4). cbn [negb orb].
    rewrite H5, (proj2 (sameExactArtifact_iff _ _) eq_refl), (proj2 (validExactArtifact_iff _) H6), H7. cbn [negb orb].
    rewrite H8, (proj2 (String.eqb_eq _ _) H9), H10. cbn [negb mbind result_bind]. rewrite H4, H9, H2, <-Hd, <-Ha, <-H13, <-H11, <-H12. by destruct f.
Qed.
(** How long a decision lasts: five minutes, the challenge, the validation, the session. *)
Definition decision_end (clock : localtime) (bound : boundChallenge) (session : SessionBinding) : time :=
  Z.min (Z.min (Z.min (lt_instant clock + DecisionLifetime) (lt_instant (ch_ExpiresAt (cch_value (bc_artifact bound)))))
    (lt_instant (ValidationValidUntil (bc_exact bound)))) (lt_instant (sb_ExpiresAt session)).

Definition decision_value (clock : localtime) (bound : boundChallenge) (request : DecisionRequest) (f : fingerprinted) (decisionID : string) : Decision :=
  decided_value decisionID (dq_Operation request) (cch_value (bc_artifact bound)) (normalized_session (dq_Session request)) (bc_exact bound) (crs_digest (fp_reason f))
    (fp_nonceDigest f) (fp_idempotencyDigest f) (UTC clock) (MkLocal (decision_end clock bound (dq_Session request)) 0).

Definition decided (clock : localtime) (bound : boundChallenge) (request : DecisionRequest) (f : fingerprinted) (decisionID : string) : CheckedDecision :=
  let checked := checked_decision (decision_value clock bound request f decisionID) in
  MkCheckedDecision (cd_value checked) (cd_canonical checked) (cd_digest checked) (crs_canonical (fp_reason f)) (xa_canonicalBytes (bc_exact bound)).

(** When the challenge can be decided. *)
Record timely (clock : localtime) (bound : boundChallenge) (session : SessionBinding) : Prop := {
  ti_challenge : lt_instant (ch_IssuedAt (cch_value (bc_artifact bound))) <= lt_instant clock < lt_instant (ch_ExpiresAt (cch_value (bc_artifact bound)));
  ti_session : session_live session (UTC clock);
  ti_fresh : lt_instant (ValidationCreatedAt (bc_exact bound)) <= lt_instant clock < lt_instant (ValidationValidUntil (bc_exact bound))
}.

Lemma decide_challenge_ok clock entropy bound request f d rest : answers bound request f → decide_challenge clock entropy bound request f = Ok (d, rest) →
  validSnapshotTime clock = true ∧ timely clock bound (dq_Session request) ∧ ∃ raw, entropy = raw ++ rest ∧ length raw = 16%nat
    ∧ decision_ok (decision_value clock bound request f (uuidV4From raw)) ∧ d = decided clock bound request f (uuidV4From raw).
Proof.
  intros Ha. unfold decide_challenge. destruct (service_now clock) as [now|] eqn:En; [|done]. apply service_now_iff in En as [Hc ->]. cbn [mbind result_bind UTC lt_instant].
  unfold Before. destruct (Z.ltb_spec (lt_instant clock) (lt_instant (ch_IssuedAt (cch_value (bc_artifact bound))))); [done|].
  destruct (Z.ltb_spec (lt_instant clock) (lt_instant (ch_ExpiresAt (cch_value (bc_artifact bound))))); [|done]. cbn [negb].
  destruct (checkSession _ _) as [session|] eqn:Es; [|done]. apply checkSession_iff in Es as [Hs ->]. cbn [mbind result_bind].
  destruct (sameSession _ _); [|done]. cbn [negb]. destruct (_ || _) eqn:Ef; [done|]. apply orb_false_iff in Ef as [_ Ef%negb_false_iff]. apply exact_FreshAt_iff in Ef as [_ Ef].
  destruct (makeUUID entropy) as [[id e1]|] eqn:Eu; [|done]. apply makeUUID_entropy in Eu as (raw & -> & Hraw & ->). cbn [mbind result_bind].
  rewrite !minTime_cons, minTime_nil. cbn [normalized_session sb_ExpiresAt UTC lt_instant]. fold (decision_end clock bound (dq_Session request)).
  destruct (After _ _); [|done]. cbn [negb].
  change (decided_value _ _ _ _ _ _ _ _ _ _) with (decision_value clock bound request f (uuidV4From raw)).
  destruct (CheckDecision _) as [checked|] eqn:Ec; [|done].
  apply CheckDecision_iff in Ec as (Hok & _ & ->); [|destruct (an_exact _ _ _ Ha) as [_ Hx]; destruct (xo_version _ Hx); cbn; lia].
  cbn [mbind result_bind]. intros Hd. apply (f_equal (λ x, match x with Ok y => y | Err _ => (d, rest) end)) in Hd. cbn beta iota in Hd. apply pair_equal_spec in Hd as [<- <-].
  split; [done|]. split; [split; [lia|done|exact Ef]|]. by exists raw.
Qed.

(** One attempt on an unconsumed guard. *)
Lemma Consume_fresh clock entropy bound fingerprint request out g : Consume clock entropy (MkGuard bound None fingerprint) request = (out, g) →
  (∃ e, out = Err e ∧ g = MkGuard bound None fingerprint)
  ∨ ∃ f raw rest, answers bound request f ∧ validSnapshotTime clock = true ∧ timely clock bound (dq_Session request) ∧ entropy = raw ++ rest ∧ length raw = 16%nat
    ∧ decision_ok (decision_value clock bound request f (uuidV4From raw))
    ∧ let d := decided clock bound request f (uuidV4From raw) in out = Ok d ∧ g = MkGuard bound (Some d) (fp_fingerprint f).
Proof.
  unfold Consume. cbn [gu_bound gu_consumed]. destruct (decisionFingerprint bound request) as [f|e] eqn:Ef; [|intros [= <- <-]; left; by eexists].
  apply decisionFingerprint_iff in Ef. destruct (decide_challenge _ _ _ _ _) as [[d rest]|e] eqn:Ed; [|intros [= <- <-]; left; by eexists].
  apply (decide_challenge_ok _ _ _ _ _ _ _ Ef) in Ed as (Hc & Ht & raw & -> & Hraw & Hok & ->). intros Hg. apply pair_equal_spec in Hg as [<- <-].
  right. exists f, raw, rest. done.
Qed.


(** Attempts in the order in which the guard's mutex admits them. *)
Record attempt := MkAttempt { at_clock : localtime; at_entropy : list Z; at_request : DecisionRequest }.

Fixpoint consume_all (guard : OneUseChallenge) (attempts : list attempt) : list (result HilErrorCode CheckedDecision) * OneUseChallenge :=
  match attempts with
  | [] => ([], guard)
  | a :: attempts =>
      let '(out, guard) := Consume (at_clock a) (at_entropy a) guard (at_request a) in
      let '(outs, guard) := consume_all guard attempts in (out :: outs, guard)
  end.


End consume.

(** ** Answers that are accepted *)




Lemma CheckReason_digest `{Normalizer} reason checked : CheckReason reason = Ok checked → crs_digest checked = digest (crs_canonical checked) ∧ 0 < len (crs_canonical checked).
Proof.
  unfold CheckReason. destruct (negb _); [done|]. destruct (_ || _); [done|]. cbv zeta. destruct (_ || _); [done|]. destruct (existsb _ _); [done|]. destruct (_ <? _); [done|].
  intros Hc. apply (f_equal (from_ok checked)) in Hc. cbn [from_ok] in Hc. subst checked. cbn [crs_digest crs_canonical]. split; [done|].
  unfold marshalReasonJCS. rewrite len_chars, chars_app, length_app. change (chars (qq _)) with (chars (qq "{'reason_code':")). cbn. lia.
Qed.


Section outcomes.
Context `{Normalizer}.



Lemma decided_bound clock request id nonce a f id' : let bound := issued_bound clock request id nonce in
  decision_ok (decision_value (at_clock a) bound (at_request a) f id') → answers bound (at_request a) f → timely (at_clock a) bound (dq_Session (at_request a)) →
  decision_years (decision_value (at_clock a) bound (at_request a) f id').
Proof. cbv zeta. intros Hok _ _. destruct (do_times _ Hok) as [H1 H2]. split; by apply valid_utc_year. Qed.

(** When a decision authorizes. *)
Lemma decided_authorizes clock bound request f id t : answers bound request f → decision_ok (decision_value clock bound request f id) →
  AuthorizesAt (decided clock bound request f id) t = true ↔
  dq_Operation request = OperationApprove ∧ validSnapshotTime t = true
  ∧ lt_instant clock <= lt_instant t < decision_end clock bound (dq_Session request).
Proof.
  intros Ha Hok. unfold AuthorizesAt. cbn [decided cd_value cd_canonical cd_reasonCanonical cd_canonicalCommandBytes]. set (v := decision_value clock bound request f id) in *.
  destruct (an_exact _ _ _ Ha) as [_ Hx]. destruct (xo_bytes _ Hx) as [_ Hb]. destruct (xo_bound _ Hx) as [_ Hd]. destruct (CheckReason_digest _ _ (an_reason _ _ _ Ha)) as [Hr Hrl].
  assert (Hcan : (len (marshalDecisionJCS (normalized_decision v)) =? 0) = false).
  { apply Z.eqb_neq. unfold marshalDecisionJCS. rewrite len_chars, chars_app, length_app. change (chars (qq _)) with (chars (qq "{'actor_id':")). cbn [chars length qq]. cbn. lia. }
  change (cd_value (checked_decision v)) with (normalized_decision v). change (cd_canonical (checked_decision v)) with (marshalDecisionJCS (normalized_decision v)). rewrite Hcan.
  change (de_Operation (normalized_decision v)) with (dq_Operation request).
  change (de_Decision (normalized_decision v)) with (if String.eqb (dq_Operation request) OperationApprove then DecisionApproved else DecisionRejected).
  change (de_ResourceType (normalized_decision v)) with ResourcePolicy. change (de_OriginalAddDigest (normalized_decision v)) with (@None string).
  change (de_CanonicalArtifactDigest (normalized_decision v)) with (xa_canonicalDigest (bc_exact bound)). change (de_ReasonDigest (normalized_decision v)) with (crs_digest (fp_reason f)).
  change (lt_instant (de_DecidedAt (normalized_decision v))) with (lt_instant clock). change (lt_instant (de_DecisionValidUntil (normalized_decision v))) with (decision_end clock bound (dq_Session request)).
  rewrite Hd, Hr, !String.eqb_refl, (proj2 (Z.eqb_neq (len (crs_canonical _)) 0)), (proj2 (Z.eqb_neq (len (xa_canonicalBytes _)) 0)) by lia.
  rewrite (bool_decide_eq_true_2 (@None string = None)) by done.
  destruct (String.eqb_spec (dq_Operation request) OperationApprove) as [->|Hne]; cbn [negb orb]; [|by split; [|intros [? _]]].
  rewrite String.eqb_refl. cbn [negb orb]. destruct (normalizedTime t) as [u|] eqn:Et; [|apply normalizedTime_none in Et; rewrite Et; split; [done|intros (_ & ? & _); done]].
  apply normalizedTime_iff in Et as [-> ->]. unfold Before. cbn [UTC lt_instant]. rewrite !andb_true_iff, negb_true_iff, Z.ltb_ge, Z.ltb_lt. tauto.
Qed.
End outcomes.

(** ** From issue to decision *)

Section life.
Context `{Normalizer} (clock : localtime) (entropy : list Z) (request : IssueRequest) (issued : IssuedChallenge) (rest : list Z).
Hypothesis Hissue : Issue clock entropy request = Ok (issued, rest).

(** The decision of a challenge lasts as long as the challenge. *)
Lemma decision_lasts clock' id nonce session : lt_instant clock <= lt_instant clock' → lt_instant (sb_ExpiresAt session) = lt_instant (sb_ExpiresAt (iq_Session request)) →
  decision_end clock' (issued_bound clock request id nonce) session = challenge_end clock request.
Proof.
  intros Hle He. unfold decision_end. change (lt_instant (ch_ExpiresAt _)) with (challenge_end clock request). change (bc_exact _) with (iq_Artifact request).
  rewrite He. unfold challenge_end, ChallengeLifetime, DecisionLifetime. lia.
Qed.

(** What the decision binds. *)
Record bound_to (request : IssueRequest) (nonce : list Z) (dr : DecisionRequest) (d : CheckedDecision) : Prop := {
  bt_request : dq_Operation dr = iq_Operation request ∧ dq_Artifact dr = iq_Artifact request ∧ sameSession (iq_Session request) (dq_Session dr) = true
    ∧ digest (dq_IdempotencyKey dr) = digest (iq_IdempotencyKey request);
  bt_nonce : ∃ presented, canonicalNonce (dq_Nonce dr) = Some presented ∧ digest_bytes presented = digest_bytes nonce;
  bt_command : cd_canonicalCommandBytes d = xa_canonicalBytes (iq_Artifact request) ∧ de_CanonicalArtifactDigest (cd_value d) = digest (cd_canonicalCommandBytes d);
  bt_policy : de_PolicyDigest (cd_value d) = xa_policyDigest (iq_Artifact request) ∧ de_ResourceID (cd_value d) = xa_policyID (iq_Artifact request)
    ∧ de_ResourceVersion (cd_value d) = xa_policyVersion (iq_Artifact request) ∧ de_TargetIPv4 (cd_value d) = xa_targetIPv4 (iq_Artifact request)
    ∧ de_EvidenceSnapshotDigest (cd_value d) = xa_evidenceSnapshotDigest (iq_Artifact request)
    ∧ de_ValidationSnapshotDigest (cd_value d) = xa_validationSnapshotDigest (iq_Artifact request);
  bt_actor : de_ActorID (cd_value d) = sb_ActorID (iq_Session request) ∧ de_SessionDigest (cd_value d) = sb_SessionDigest (iq_Session request);
  bt_reason : ∃ reason, CheckReason (dq_Reason dr) = Ok reason ∧ cd_reasonCanonical d = crs_canonical reason ∧ de_ReasonDigest (cd_value d) = digest (crs_canonical reason)
}.

Lemma consumed_decision clock' entropy' dr d final : Consume clock' entropy' (ic_guard issued) dr = (Ok d, final) →
  lt_instant clock <= lt_instant clock' < challenge_end clock request ∧ bound_to request (ic_nonce issued) dr d
  ∧ ∀ t, AuthorizesAt d t = true ↔ iq_Operation request = OperationApprove ∧ validSnapshotTime t = true ∧ lt_instant clock' <= lt_instant t < challenge_end clock request.
Proof.
  destruct (Issue_ok _ _ _ _ _ Hissue) as (Hib & raw & -> & Hraw & Hnl & Hok & Hg). rewrite Hg. intros Hc.
  apply Consume_fresh in Hc as [(e & [=] & _)|(f & raw' & rest' & Ha & Hv & Ht & _ & _ & Hdo & Hd & _)]. injection Hd as Hd. subst d.
  destruct (ti_challenge _ _ _ Ht) as [Ht1 Ht2]. change (lt_instant (ch_IssuedAt _)) with (lt_instant clock) in Ht1. change (lt_instant (ch_ExpiresAt _)) with (challenge_end clock request) in Ht2.
  split; [done|]. pose proof (proj1 (sameSession_iff _ _) (an_session _ _ _ Ha)) as (Hs1 & Hs2 & Hs3 & Hs4 & Hs5). destruct (an_exact _ _ _ Ha) as [Hx Hxo].
  destruct (an_operation _ _ _ Ha) as [_ Hop]. split.
  - destruct (CheckReason_digest _ _ (an_reason _ _ _ Ha)) as [Hr _].
    split.
    + split_and!; [exact Hop|exact Hx|apply sameSession_iff; split_and!; assumption|exact (proj2 (an_key _ _ _ Ha))].
    + exact (an_nonce _ _ _ Ha).
    + split; [reflexivity|symmetry; exact (proj2 (xo_bound _ Hxo))].
    + split_and!; reflexivity.
    + split; symmetry; assumption.
    + exists (fp_reason f). split; [exact (an_reason _ _ _ Ha)|]. split; [done|exact Hr].
  - intros t. rewrite (decided_authorizes clock' (issued_bound clock request (uuidV4From raw) (ic_nonce issued)) dr f (uuidV4From raw') t Ha Hdo).
    rewrite decision_lasts by done. change (ch_Operation _) with (iq_Operation request) in Hop. by rewrite Hop.
Qed.


End life.

(** ** A challenge, answered *)

(** Normalization leaves the texts of the sample as they are. *)
Definition sample_normalizer : Normalizer := {| NFC_String := λ s, s; NFC_IsNormalString := λ _, true |}.

Definition hil_time (seconds : Z) : localtime := MkLocal ((63900000000 + seconds) * Second) 0.

Definition sample_exact : ExactArtifact := Eval vm_compute in
  let command := "add element inet sentinelflow blacklist_ipv4 { 203.0.113.20 timeout 30m }" +:+ lf in
  MkExactArtifact "00000000-0000-4000-8000-000000000001" 1 "203.0.113.20" 1800 (digest "policy") (digest command) (digest command) (digest "evidence") (digest "validation")
    (freezeTime (hil_time 0)) (freezeTime (hil_time 300)) command command.

Definition sample_session : SessionBinding := Eval vm_compute in
  MkSessionBinding "00000000-0000-4000-8000-000000000002" (digest "session") "operator-1" (hil_time (-120)) (hil_time 28680).

Definition sample_issue_request : IssueRequest := MkIssueRequest OperationApprove sample_session sample_exact "idempotency-key-1".

Definition sample_entropy : list Z := map Z.of_nat (seq 0 48).

Definition sample_issued : IssuedChallenge := Eval vm_compute in
  match Issue (hil_time 60) sample_entropy sample_issue_request with Ok (issued, _) => issued | Err _ => MkIssuedChallenge (MkGuard (MkBound (MkCheckedChallenge (issued_value "" "" "" sample_session sample_exact (hil_time 0) (hil_time 0)) "" "") sample_session sample_exact "") None "") [] end.

Lemma sample_issue_ok : Issue (hil_time 60) sample_entropy sample_issue_request = Ok (sample_issued, []).
Proof. vm_compute. reflexivity. Qed.

Definition sample_reason (text : string) : Reason := MkReason ReasonSchemaVersion "threat_confirmed" text.

Definition sample_answer (text : string) : DecisionRequest :=
  MkDecisionRequest OperationApprove sample_session sample_exact (encode_token (ic_nonce sample_issued)) "idempotency-key-1" (sample_reason text).

Definition sample_attempts : list attempt :=
  [MkAttempt (hil_time 70) (replicate 16 7) (sample_answer ""); MkAttempt (hil_time 80) (replicate 16 7) (sample_answer "credential stuffing");
   MkAttempt (hil_time 400) [] (sample_answer "credential stuffing"); MkAttempt (hil_time 90) (replicate 16 9) (sample_answer "second thoughts")].

Definition sample_decisions : list (result HilErrorCode CheckedDecision) * OneUseChallenge := Eval vm_compute in
  consume_all (H := sample_normalizer) (ic_guard sample_issued) sample_attempts.


Example sample_decisions_shape : map is_ok sample_decisions.1 = [false; true; true; false].
Proof. reflexivity. Qed.

Definition sample_decision : result HilErrorCode CheckedDecision * OneUseChallenge := Eval vm_compute in
  Consume (H := sample_normalizer) (hil_time 80) (replicate 16 7) (ic_guard sample_issued) (sample_answer "credential stuffing").

Lemma sample_decision_ok : Consume (H := sample_normalizer) (hil_time 80) (replicate 16 7) (ic_guard sample_issued) (sample_answer "credential stuffing") = sample_decision.
Proof. vm_compute. reflexivity. Qed.

Definition sample_decision_value : Decision := Eval vm_compute in
  match sample_decision.1 with Ok d => cd_value d | Err _ => decided_value "" "" (cch_value (bc_artifact (gu_bound (ic_guard sample_issued)))) sample_session sample_exact "" "" "" (hil_time 0) (hil_time 0) end.

Definition sample_checked_decision : CheckedDecision := Eval vm_compute in
  match CheckDecision sample_decision_value with Ok c => c | Err _ => checked_decision sample_decision_value end.

Lemma sample_decision_checked : CheckDecision sample_decision_value = Ok sample_checked_decision.
Proof. vm_compute. reflexivity. Qed.

(** [CheckDecision] alone attaches neither reason nor command. *)
Lemma parsed_reason w c : CheckDecision w = Ok c → cd_reasonCanonical c = "".
Proof.
  unfold CheckDecision. repeat match goal with |- (if ?b then _ else _) = _ → _ => destruct b; [done|] end. destruct (normalizedTime _); [|done]. destruct (normalizedTime _); [|done].
  destruct (_ || _); [done|]. cbv zeta. destruct (_ <? _); [done|]. intros Hc. apply (f_equal (from_ok c)) in Hc. cbn [from_ok] in Hc. by subst c.
Qed.

(** ** The claims *)



(** C13. A decision taken on an issued challenge: the request had the challenge's operation,
    artifact, session, idempotency key and nonce; the decision names exactly that artifact,
    policy, evidence and validation, that actor and the reason given; and it authorizes the
    command exactly when it is an approval, from the moment it was taken until the end of
    the challenge, which is at most five minutes and neither outlives the validation nor
    the session. *)
Theorem approval_bound_and_timed `{Normalizer} clock entropy request issued rest clock' entropy' dr d final :
  Issue clock entropy request = Ok (issued, rest) → Consume clock' entropy' (ic_guard issued) dr = (Ok d, final) →
  lt_instant clock <= lt_instant clock' < challenge_end clock request ∧ bound_to request (ic_nonce issued) dr d
  ∧ (∀ t, AuthorizesAt d t = true ↔
       iq_Operation request = OperationApprove ∧ validSnapshotTime t = true ∧ lt_instant clock' <= lt_instant t < challenge_end clock request)
  ∧ challenge_end clock request <= lt_instant clock + 5 * Minute
  ∧ challenge_end clock request <= lt_instant (ValidationValidUntil (iq_Artifact request)) ∧ challenge_end clock request <= lt_instant (sb_ExpiresAt (iq_Session request)).
Proof.
  intros Hi Hc. destruct (consumed_decision _ _ _ _ _ Hi _ _ _ _ _ Hc) as (H1 & H2 & H3). split_and!; try done; try apply H1; unfold challenge_end, ChallengeLifetime; lia.
Qed.

Lemma approval_bound_and_timed_witness : ∃ d, sample_decision.1 = Ok d ∧ (AuthorizesAt d (hil_time 299) = true ↔ OperationApprove = OperationApprove
  ∧ validSnapshotTime (hil_time 299) = true ∧ lt_instant (hil_time 80) <= lt_instant (hil_time 299) < challenge_end (hil_time 60) sample_issue_request).
Proof.
  eexists. split; [reflexivity|].
  exact (proj1 (proj2 (proj2 (approval_bound_and_timed (H := sample_normalizer) (hil_time 60) sample_entropy sample_issue_request sample_issued [] (hil_time 80) (replicate 16 7)
    (sample_answer "credential stuffing") _ sample_decision.2 sample_issue_ok sample_decision_ok))) (hil_time 299)).
Defined.



(** Decisions on paper: the canonical bytes of a checked decision, when its times have
    four-digit years in UTC, are read back as the decision, no other bytes are, and a
    decision that was only read never authorizes anything. *)
Theorem decision_round_trip v c : 0 <= de_ResourceVersion v → decision_years v → CheckDecision v = Ok c →
  ParseCanonicalDecision (cd_canonical c) = Ok c ∧ ∀ data c', ParseCanonicalDecision data = Ok c' → data = cd_canonical c' ∧ ∀ t, AuthorizesAt c' t = false.
Proof.
  intros H0 Hy Hc. split; [by eapply decision_reads|]. intros data c' Hp. pose proof (decision_only_canonical _ _ Hp) as [-> (w & Hw)]. split; [done|]. intros t.
  assert (cd_reasonCanonical c' = "") as Hr by (by eapply parsed_reason). unfold AuthorizesAt. rewrite Hr. change (len "" =? 0) with true. by rewrite !orb_true_r.
Qed.

Lemma decision_round_trip_witness : ∃ c, CheckDecision sample_decision_value = Ok c ∧ ParseCanonicalDecision (cd_canonical c) = Ok c.
Proof.
  assert (H0 : 0 <= de_ResourceVersion sample_decision_value) by (vm_compute; discriminate).
  assert (Hy : decision_years sample_decision_value) by (vm_compute; split; split; discriminate).
  exists sample_checked_decision. split; [exact sample_decision_checked|exact (proj1 (decision_round_trip _ _ H0 Hy sample_decision_checked))].
Defined.
