(* ===== verification/HilReview.v ===== *)
(** * From a valid verdict to an administrator's decision

    What the validation worker publishes with a valid verdict is an artifact
    [hil.CheckExactArtifact] accepts, and a challenge can be issued for it as long as the
    validation is fresh. *)

From S2P Require Import Prelude GoSort GoStrings Regex Sha256 Base64 GoTime GoTimeParse Netip NetPrefix Json JsonTree CanonicalJson Policy PolicySpec ResponsePolicy ResponsePolicySpec Detection Executor NftRunner NftValidate NftValidateSpec NftCheck NftCheckSpec.
From S2P Require Import Protected ProtectedSpec ProtectedShipped Consistency ConsistencySpec ValidationGates Snapshot SnapshotSpec History HistorySpec ValidationWorker ValidationWorkerSpec ValidationRun ValidationRunSpec PolicyReader Session Worker Hil HilDecision HilSpec HilServiceSpec.
Local Open Scope Z_scope.

(** ** What the staged output says *)

Lemma staged_checked nfc s staged : checkStructuredOutput nfc s = inl staged → ∃ output,
  CheckResponsePolicy (staged_policy nfc s output) = Ok (so_checkedPolicy staged)
  ∧ op_TargetIP (ao_Policy output) = eb_SourceIPv4 (ss_Evidence s) ∧ elements (ao_EvidenceIDs output) = eb_SignalIDs (ss_Evidence s).
Proof.
  unfold checkStructuredOutput. destruct (negb (staged_bytes_ok s)); [done|]. destruct (decodeStrictJSON decode_output _ _) as [output|]; [|done].
  destruct (decodeStrictJSON decode_output_policy _ _) as [pol|]; [|done]. destruct (negb (equalPolicyWire _ _)); [done|].
  destruct (decodeStrictJSON decode_output_candidate _ _) as [cand|]; [|done]. destruct (negb (equalCandidateWire _ _)); [done|].
  destruct (negb (output_head_ok output)); [done|]. destruct (negb (forallb _ _)); [done|]. destruct (negb (output_policy_schema_ok output)); [done|].
  destruct (negb (output_candidate_schema_ok output)); [done|]. destruct (_ || _) eqn:Eb; [done|]. destruct (negb (String.eqb (digest _) _)); [done|].
  destruct (CheckResponsePolicy _) as [checked|] eqn:Ec; [|done]. intros H. apply (f_equal (λ x, match x with inl y => y | inr _ => staged end)) in H. cbn beta iota in H. subst staged.
  exists output. apply orb_false_iff in Eb as [E1%negb_false_iff%String.eqb_eq E2%negb_false_iff]. split; [done|]. split; [done|]. by apply equalStringSlices_iff.
Qed.

Lemma prepared_evidence s : validPreparedSnapshot s = true → ∃ checked, ParseCanonicalEvidenceSnapshot (ss_EvidenceCanonicalBytes s) = Ok checked
  ∧ ce_digest checked = ss_EvidenceSnapshotDigest s ∧ es_IncidentID (ce_value checked) = ss_IncidentID s
  ∧ es_SourceIPv4 (ce_value checked) = eb_SourceIPv4 (ss_Evidence s) ∧ es_SignalIDs (ce_value checked) = eb_SignalIDs (ss_Evidence s).
Proof.
  unfold validPreparedSnapshot. destruct (negb _); [done|]. destruct (ParseCanonicalEvidenceSnapshot _) as [checked|]; [|done]. cbv zeta. intros H. exists checked. split; [done|].
  repeat (apply andb_prop in H as [H ?]). repeat match goal with H : String.eqb _ _ = true |- _ => apply String.eqb_eq in H | H : equalStringSlices _ _ = true |- _ => apply equalStringSlices_iff in H end.
  done.
Qed.

Lemma sameStrings_iff xs ys : sameStrings xs ys = true ↔ xs = ys.
Proof.
  revert ys. induction xs as [|x xs IH]; intros [|y ys]; cbn [sameStrings]; try done. rewrite andb_true_iff, String.eqb_eq, IH. split; [by intros [-> ->]|by intros [= -> ->]].
Qed.

Lemma static_digest raw contract config g input : accepted_contract raw contract → NewProtectedGate contract config = Ok g →
  pr_StaticContractDigest (Check (Some g) input) = PinnedProtectedIPv4Digest.
Proof.
  intros Hacc Hg. destruct (NewProtectedGate_parts _ _ _ Hg) as (Hct & _). rewrite <-(acc_digest _ _ Hacc), <-Hct. unfold Check. cbv zeta.
  destruct (_ || _); [reflexivity|]. destruct (parseCanonicalIPv4 _); [|reflexivity]. destruct (negb _); [reflexivity|].
  destruct (pg_runtime g !! _); [reflexivity|]. destruct (List.find _ _); [reflexivity|]. by destruct (match_entries _ _ _ _) as [[? ?]|[|]].
Qed.

(** A candidate and its digests. *)
Lemma Canonicalize_bound generated ttl c : Canonicalize generated ttl = Ok c →
  ca_generated c = generated ∧ ca_generatedDigest c = digest generated ∧ ca_canonicalDigest c = digest (ca_canonical c) ∧ 0 < len generated ∧ 0 < len (ca_canonical c) ∧ ca_ttlSeconds c = ttl.
Proof.
  unfold Canonicalize. destruct (_ || _); [done|]. destruct (_ || _) eqn:El; [done|]. destruct (existsb _ _); [done|].
  destruct (candidate_submatches _) as [[target token]|]; [|done]. destruct (canonical_ipv4 _); [|done]. destruct (negb (is_global_unicast _)); [done|].
  destruct (parseTTL _) as [seconds|]; [|done]. cbn [mbind result_bind]. destruct (Z.eqb_spec seconds ttl) as [->|]; [|done]. cbn [negb].
  destruct (canonicalTTL _) as [ct|]; [|done]. cbn [mbind result_bind]. cbv zeta. intros H. apply (f_equal (from_ok c)) in H. cbn [from_ok] in H. subst c.
  cbn [ca_generated ca_generatedDigest ca_canonicalDigest ca_canonical ca_ttlSeconds]. split_and!; try done.
  - rewrite !orb_false_iff in El. destruct El as [[[El _] _] _]. apply Z.eqb_neq in El. unfold len in *. lia.
Qed.

(** ** The artifact of a valid verdict *)

(** The input of [CheckExactArtifact] is what the verdict published. *)
Record published_as (m : Mutation) (input : ExactArtifactInput) : Prop := {
  pa_policy : ∃ p, mu_Policy m = Some p ∧ pl_CanonicalBytes p = crp_canonical (xi_Policy input) ∧ pl_PolicyDigest p = crp_digest (xi_Policy input);
  pa_command : ∃ c, mu_Candidate m = Some c ∧ cc_GeneratedBytes c = ca_generated (xi_Command input) ∧ cc_GeneratedDigest c = ca_generatedDigest (xi_Command input)
    ∧ cc_CanonicalBytes c = ca_canonical (xi_Command input) ∧ cc_CanonicalDigest c = ca_canonicalDigest (xi_Command input);
  pa_evidence : mu_EvidenceCanonicalBytes m = ce_canonical (xi_Evidence input);
  pa_validation : ∃ v, mu_Validation m = Some v ∧ vd_CanonicalBytes v = cv_canonical (xi_Validation input) ∧ vd_SnapshotDigest v = cv_digest (xi_Validation input)
}.

(** The acceptance of four checked values that agree. *)
Lemma CheckExactArtifact_accepts policy command evidence validation ttl :
  ParseCanonicalResponsePolicy (crp_canonical policy) = Ok policy → ParseCanonicalEvidenceSnapshot (ce_canonical evidence) = Ok evidence →
  ParseCanonicalValidationSnapshot (cv_canonical validation) = Ok validation → Canonicalize (ca_generated command) ttl = Ok command → ttl = rp_TTLSeconds (crp_value policy) →
  exact_subject_matches (crp_value policy) evidence command = true →
  exact_validation_matches (cv_value validation) (crp_digest policy) (ce_digest evidence) command = true →
  CheckExactArtifact (MkExactInput policy command evidence validation) = Ok (exact_of policy command evidence validation).
Proof.
  intros Hp He Hv Hc -> Hs Hm. unfold CheckExactArtifact. cbn [xi_Policy xi_Evidence xi_Validation xi_Command]. rewrite Hp, He, Hv, !String.eqb_refl. cbn [negb]. cbv zeta. rewrite Hc.
  destruct (Canonicalize_bound _ _ _ Hc) as (_ & H1 & H2 & _ & H3 & _). unfold command_rechecked. rewrite !String.eqb_refl, <-H1, <-H2, !String.eqb_refl.
  rewrite (proj2 (Z.eqb_neq _ _)) by lia. cbn [negb andb]. by rewrite Hs, Hm.
Qed.

Section verdict.
Context (nfc : string → string) (r : Runtime) (s : PreparedSnapshot) (raw : string) (contract : ProtectedContract) (config : ProtectedConfig).
Hypothesis Hcontract : accepted_contract raw contract.
Hypothesis Hgate : NewProtectedGate contract config = Ok (rt_protectedGate r).
Hypothesis Hprepared : validPreparedSnapshot s = true.
Hypothesis Hyear : utc_year_ok (ss_GeneratedAt s) ∧ utc_year_ok (MkLocal (lt_instant (ss_GeneratedAt s) + ValidationSnapshotLifetime) (lt_zone (ss_GeneratedAt s))).

(** The policy of the staged output. *)
Lemma staged_policy_facts staged : checkStructuredOutput nfc s = inl staged → let p := crp_value (so_checkedPolicy staged) in
  ParseCanonicalResponsePolicy (crp_canonical (so_checkedPolicy staged)) = Ok (so_checkedPolicy staged) ∧ is_digest (crp_digest (so_checkedPolicy staged)) = true ∧ policy_ok p
  ∧ rp_IncidentID p = ss_IncidentID s ∧ rp_TargetIPv4 p = eb_SourceIPv4 (ss_Evidence s) ∧ rp_EvidenceSnapshotDigest p = ss_EvidenceSnapshotDigest s
  ∧ rp_EvidenceIDs p = eb_SignalIDs (ss_Evidence s).
Proof.
  intros Hs. cbv zeta. destruct (staged_checked _ _ _ Hs) as (output & Hpolicy & Hsource & Hsignals).
  pose proof (policy_reads (staged_policy nfc s output) (so_checkedPolicy staged) ltac:(unfold rp_typed; cbn; lia) (proj1 Hyear) Hpolicy) as Hpr.
  apply CheckResponsePolicy_iff in Hpolicy as [Hok Hpv]; [|unfold rp_typed; cbn; lia]. split; [done|]. rewrite Hpv. split; [apply digest_matches|].
  change (crp_value (checked_of _)) with (freeze (staged_policy nfc s output)). split; [apply policy_ok_freeze; [done|exact (proj1 Hyear)]|]. split_and!; [reflexivity|exact Hsource|reflexivity|exact Hsignals].
Qed.

(** The validation published with the verdict. *)
Lemma published_facts m staged artifact protected proof e : published r s m staged artifact protected proof e → ∃ validation v h,
  ParseCanonicalValidationSnapshot (cv_canonical validation) = Ok validation ∧ is_digest (cv_digest validation) = true
  ∧ cv_value validation = freeze_validation (validation_snapshot r s staged artifact protected proof e h (mu_Gates m))
  ∧ validSnapshotTime (vs_ValidUntil (cv_value validation)) = true
  ∧ mu_Validation m = Some v ∧ vd_CanonicalBytes v = cv_canonical validation ∧ vd_SnapshotDigest v = cv_digest validation.
Proof.
  intros (validation & Hval & Hm). set (h := evaluateHistory s (rt_Environment r) (pol_TargetIPv4 (so_policyForParser staged)) (rt_demoHistory r)) in *.
  exists validation, (validation_record validation (validation_snapshot r s staged artifact protected proof e h (mu_Gates m)) (pr_TargetIPv4 protected) (ast_ttlSeconds (art_ast artifact))), h.
  clearbody h. set (value := validation_snapshot r s staged artifact protected proof e h (mu_Gates m)) in *.
  pose proof (validation_reads value validation (proj1 Hyear) (proj2 Hyear) Hval) as Hvr. apply CheckValidationSnapshot_iff in Hval as (Hvv & _ & Hvd).
  assert (Hcv : cv_value validation = freeze_validation value) by (rewrite Hvd; reflexivity).
  assert (Hcvd : is_digest (cv_digest validation) = true) by (rewrite Hvd; apply digest_matches). clear Hvd.
  split_and!; try done. rewrite Hcv. change (vs_ValidUntil (freeze_validation value)) with (UTC (vs_ValidUntil value)). apply utc_valid; [apply (vval_times _ Hvv)|exact (proj2 Hyear)].
Qed.

(** The command that was validated is the recorded one. *)
Lemma validated_command m staged artifact protected validated e : went_through nfc r s m staged artifact protected validated e →
  let c := vr_artifact validated in let p := crp_value (so_checkedPolicy staged) in
  Canonicalize (ca_generated c) (rp_TTLSeconds p) = Ok c ∧ ca_ttlSeconds c = rp_TTLSeconds p ∧ addr4_string (ca_target c) = rp_TargetIPv4 p
  ∧ art_generatedBytes artifact = ca_generated c ∧ art_generatedDigest artifact = ca_generatedDigest c ∧ art_canonicalBytes artifact = ca_canonical c
  ∧ art_canonicalDigest artifact = ca_canonicalDigest c ∧ vr_schema validated = MkSchemaProof PinnedBaseChainRawDigest PinnedLiveSchemaDigest canonicalLiveSchema.
Proof.
  intros Hw. cbv zeta. destruct (went_through_vetted nfc r s raw contract config m staged artifact protected validated e Hcontract Hgate Hw) as (target & Hvet & Htarget).
  destruct (staged_policy_matches _ _ _ (wt_staged _ _ _ _ _ _ _ _ _ Hw)) as [Htgt Httl].
  pose proof (wt_validated _ _ _ _ _ _ _ _ _ Hw) as Hv. apply candidate_Validate_iff in Hv as (_ & _ & Hcan & _ & _). cbn [vi_GeneratedCandidate vi_PolicyTTLSeconds] in Hcan.
  destruct (Canonicalize_bound _ _ _ Hcan) as (Hgen & _ & _ & _ & _ & Hct). rewrite <-Hgen in Hcan. rewrite Httl in Hcan, Hct.
  destruct (vet_command _ _ _ _ _ _ Hvet) as (token & _ & _ & _ & Hb1 & Hb2 & Hb3 & _). change (ci_Candidate _) with artifact in Hb1, Hb2, Hb3.
  destruct (vet_artifact _ _ _ _ _ _ Hvet) as [Hat _]. split_and!; try done; [by rewrite Hat, <-Htgt|rewrite Hgen; apply (built_generated _ _ _ (wt_built _ _ _ _ _ _ _ _ _ Hw))|apply (vet_schema _ _ _ _ _ _ Hvet)].
Qed.

Lemma exact_of_ok policy command evidence validation ttl v : policy_ok (crp_value policy) → is_digest (crp_digest policy) = true → Canonicalize (ca_generated command) ttl = Ok command →
  CheckEvidenceSnapshot v = Ok evidence → is_digest (cv_digest validation) = true → exact_ok (exact_of policy command evidence validation).
Proof.
  intros Hp Hpd Hc He Hv. destruct (Canonicalize_bound _ _ _ Hc) as (_ & Hgd & Hcd & Hgl & Hcl & _).
  assert (Hed : is_digest (ce_digest evidence) = true).
  { unfold CheckEvidenceSnapshot in He. repeat match type of He with (if ?b then _ else _) = _ => destruct b; [discriminate He|] end. cbv zeta in He.
    destruct (marshalSnapshotJCS _) as [canonical|]; [|discriminate He]. destruct (_ <? _); [discriminate He|]. apply (f_equal (from_ok evidence)) in He. cbn [from_ok] in He. subst evidence.
    apply digest_matches. }
  unfold exact_of. cbv zeta. split; cbn [xa_policyID xa_policyVersion xa_targetIPv4 xa_policyDigest xa_generatedDigest xa_canonicalDigest xa_evidenceSnapshotDigest
    xa_validationSnapshotDigest xa_generatedBytes xa_canonicalBytes].
  - apply (po_id _ Hp).
  - pose proof (po_version _ Hp). unfold MaxInt32 in *. lia.
  - apply bool_decide_eq_true, (po_target _ Hp).
  - rewrite Hgd, Hcd. repeat constructor; try done; apply digest_matches.
  - done.
  - done.
Qed.

Lemma went_through_reviewable m staged artifact protected validated e : verdict_ok s m → went_through nfc r s m staged artifact protected validated e →
  ∃ evidence validation, let input := MkExactInput (so_checkedPolicy staged) (vr_artifact validated) evidence validation in
    let exact := exact_of (so_checkedPolicy staged) (vr_artifact validated) evidence validation in
    published_as m input ∧ CheckExactArtifact input = Ok exact ∧ exact_ok exact
    ∧ ValidationCreatedAt exact = UTC (ss_GeneratedAt s) ∧ validSnapshotTime (ValidationValidUntil exact) = true
    ∧ lt_instant (ValidationValidUntil exact) = lt_instant (ss_GeneratedAt s) + ValidationSnapshotLifetime.
Proof.
  intros Hver Hw. destruct (staged_policy_facts _ (wt_staged _ _ _ _ _ _ _ _ _ Hw)) as (Hpr & Hpd & Hpok & Hp1 & Hp2 & Hp3 & Hp4).
  destruct (prepared_evidence s Hprepared) as (evidence & Hev & Hevd & Hinc & Hsrc & Hsig). destruct (evidence_only_canonical _ _ Hev) as [Hevb (ev & Hevc)].
  destruct (published_facts _ _ _ _ _ _ (wt_published _ _ _ _ _ _ _ _ _ Hw)) as (validation & v & h & Hvr & Hvd & Hcv & Hvt & Hm1 & Hm2 & Hm3).
  destruct (validated_command _ _ _ _ _ _ Hw) as (Hcan & Hct & Hat & Hgb & Hb3 & Hb1 & Hb2 & Hschema).
  assert (Hstatic : pr_StaticContractDigest protected = PinnedProtectedIPv4Digest) by (rewrite (wt_protected _ _ _ _ _ _ _ _ _ Hw); by eapply static_digest).
  destruct (vo_ids _ _ Hver) as (_ & _ & _ & _ & Hmb). destruct (wt_records _ _ _ _ _ _ _ _ _ Hw) as [Hmc Hmp]. exists evidence, validation. cbv zeta.
  split; [|split; [|split; [|split; [|split]]]].
  - split; [by exists (policyRecord staged s)| |by rewrite Hmb|by exists v]. exists (candidateRecord staged artifact). split_and!; [exact Hmc|exact Hgb|exact Hb3|exact Hb1|exact Hb2].
  - eapply CheckExactArtifact_accepts; [exact Hpr|by rewrite <-Hevb|exact Hvr|exact Hcan|done| |].
    + unfold exact_subject_matches. cbv zeta. rewrite Hp1, Hinc, Hp2, Hsrc, Hat, Hp2, Hct, Hp3, Hevd, Hp4, Hsig, !String.eqb_refl, Z.eqb_refl. by apply sameStrings_iff.
    + rewrite Hcv. unfold exact_validation_matches. cbn [freeze_validation validation_snapshot vs_PolicyDigest vs_EvidenceSnapshotDigest vs_GeneratedCandidateDigest vs_CanonicalArtifactDigest
        vs_GrammarVersion vs_ParserVersion vs_ValidatorVersion vs_BaseChainContractRawDigest vs_LiveOwnedSchemaDigest vs_ProtectedIPv4StaticDigest].
      rewrite Hschema, Hstatic, Hb2, Hb3, Hevd. cbn [sp_baseContractDigest sp_liveSchemaDigest]. by rewrite !String.eqb_refl.
  - by eapply exact_of_ok.
  - change (ValidationCreatedAt _) with (timeValue_Time (freezeTime (vs_CreatedAt (cv_value validation)))). rewrite timeValue_round, Hcv. reflexivity.
  - change (ValidationValidUntil _) with (timeValue_Time (freezeTime (vs_ValidUntil (cv_value validation)))). rewrite timeValue_round. apply utc_valid; [done|]. rewrite Hcv. exact (proj2 Hyear).
  - change (ValidationValidUntil _) with (timeValue_Time (freezeTime (vs_ValidUntil (cv_value validation)))). rewrite timeValue_round, Hcv. reflexivity.
Qed.
End verdict.

(** ** The claim *)

(** C14. A valid verdict can be put to an administrator: what the worker publishes - policy,
    command, evidence and validation - is accepted as one exact artifact, fresh from the
    verdict for exactly five minutes; and during that time a challenge to approve or reject
    it is issued to any administrator with a live session, a recent login and an
    idempotency key of the right size. *)
Theorem valid_verdict_reviewable nfc r s raw expected contract config :
  ParseProtectedContract raw expected = Ok contract → NewProtectedGate contract config = Ok (rt_protectedGate r) → validPreparedSnapshot s = true →
  utc_year_ok (ss_GeneratedAt s) → utc_year_ok (MkLocal (lt_instant (ss_GeneratedAt s) + 5 * Minute) (lt_zone (ss_GeneratedAt s))) →
  mu_State (evaluate nfc r s) = StateValid →
  ∃ input exact, published_as (evaluate nfc r s) input ∧ CheckExactArtifact input = Ok exact
    ∧ (∀ now, exact_FreshAt exact now = true ↔ validSnapshotTime now = true ∧ lt_instant (ss_GeneratedAt s) <= lt_instant now < lt_instant (ss_GeneratedAt s) + 5 * Minute)
    ∧ ∀ clock entropy operation session key, operation = OperationApprove ∨ operation = OperationReject → session_live session (UTC clock) →
        MinIdempotencyKeyBytes <= len key <= MaxIdempotencyKeyBytes → exact_FreshAt exact clock = true → utc_year_ok clock → utc_year_ok (sb_AuthenticatedAt session) →
        (48 ≤ length entropy)%nat → Forall is_byte entropy → ∃ issued rest, Issue clock entropy (MkIssueRequest operation session exact key) = Ok (issued, rest).
Proof.
  intros Hc Hg Hp Hy1 Hy2 Hv. destruct (evaluate_valid nfc r s Hv) as (staged & artifact & protected & validated & e & Hw).
  destruct (went_through_reviewable nfc r s raw contract config (ParseProtectedContract_accepted _ _ _ Hc) Hg Hp (conj Hy1 Hy2) _ _ _ _ _ _ (evaluate_verdict nfc r s) Hw)
    as (evidence & validation & Hpub & Hx & Hok & Hcr & Hvu & Hun). eexists _, _. split; [exact Hpub|]. split; [exact Hx|].
  assert (Hfresh : ∀ now, exact_FreshAt (exact_of (so_checkedPolicy staged) (vr_artifact validated) evidence validation) now = true
    ↔ validSnapshotTime now = true ∧ lt_instant (ss_GeneratedAt s) <= lt_instant now < lt_instant (ss_GeneratedAt s) + 5 * Minute).
  { intros now. rewrite exact_FreshAt_iff, Hcr, Hun. reflexivity. }
  split; [exact Hfresh|]. intros clock entropy operation session key Hop Hs Hk Hf Hy Hya Hl Hb. destruct (proj1 (Hfresh clock) Hf) as [Hvc Ht].
  apply Issue_total; try done. split; try done. cbn [iq_Artifact]. rewrite Hcr, Hun. exact Ht.
Qed.

Lemma valid_verdict_reviewable_witness : ∃ input exact, published_as (evaluate id worker_runtime worker_snapshot) input ∧ CheckExactArtifact input = Ok exact
  ∧ ∃ issued rest, Issue (hil_time 60) sample_entropy (MkIssueRequest OperationReject sample_session exact "idempotency-key-1") = Ok (issued, rest).
Proof.
  assert (Hy1 : utc_year_ok (ss_GeneratedAt worker_snapshot)) by (vm_compute; split; discriminate).
  assert (Hy2 : utc_year_ok (MkLocal (lt_instant (ss_GeneratedAt worker_snapshot) + 5 * Minute) (lt_zone (ss_GeneratedAt worker_snapshot)))) by (vm_compute; split; discriminate).
  destruct (valid_verdict_reviewable id worker_runtime worker_snapshot shipped_file PinnedProtectedIPv4Digest shipped_contract (sample_config [] [])
    shipped_accepted sample_gate_ok worker_snapshot_prepared Hy1 Hy2 worker_run_valid) as (input & exact & Hpub & Hx & Hfresh & Hissue).
  exists input, exact. split; [exact Hpub|]. split; [exact Hx|].
  apply (Hissue (hil_time 60) sample_entropy OperationReject sample_session "idempotency-key-1" (or_intror eq_refl)).
  - apply checkSession_live. vm_compute. reflexivity.
  - vm_compute. split; discriminate.
  - apply Hfresh. split; [vm_compute; reflexivity|vm_compute; split; [discriminate|reflexivity]].
  - vm_compute. split; discriminate.
  - vm_compute. split; discriminate.
  - vm_compute. lia.
  - apply Forall_forall. intros x Hx'%list_elem_of_fmap. destruct Hx' as (n & -> & Hn%elem_of_seq). unfold is_byte. lia.
Defined.
