(* ===== verification/LifecycleArtifact.v ===== *)
(** * Lifecycle artifacts ([internal/lifecycleartifact])

    The artifacts of what follows an enforcement: the read-only inspection, the short-lived
    authorization that is bound to one inspection, and the one deletion a revocation may
    carry.  All of [types.go], [canonical.go], [inspect.go], [authorization.go] and
    [revoke.go]; the [String] methods, which print a fixed text, are left out.

    A [time.Time] is an instant with a zone; its monotonic reading, which [Round(0)] strips,
    does not exist here.

    The second half shows that texts and times are read back, compares the artifacts this
    package accepts with those the executor accepts, and says what an inspection
    authorization is bound to.  Names this package shares with the packages compared with
    it are redefined here, and theirs are qualified. *)

From S2P Require Import Prelude GoStrings Regex Sha256 Json GoTime Netip Policy.
From S2P Require Import PolicySpec ResponsePolicy Capability CapabilitySpec GoTimeParse Snapshot SnapshotSpec HilSpec.
Local Open Scope Z_scope.

Definition InspectSchemaVersion : string := "nft-inspect-v1".
Definition InspectionOperation : string := "inspect".
Definition AuthorizationSchemaVersion : string := "inspection-authorization-v1".
Definition RevokeSchemaVersion : string := "nft-revoke-v1".
Definition MaxInspectArtifactBytes : Z := 4 * 1024.
Definition MaxAuthorizationBytes : Z := 8 * 1024.
Definition MaxRevokeArtifactBytes : Z := 257.
Definition MaxAuthorizationValidity : duration := 5 * Minute.

Definition PurposeReconciliation : string := "reconciliation".
Definition PurposeExpiryConfirmation : string := "expiry_confirmation".
Definition PurposeOperatorStatus : string := "operator_status".

Inductive LifecycleErrorCode :=
| LErrorEncoding | LErrorCanonical | LErrorSchema | LErrorIdentity | LErrorDigest | LErrorArtifact | LErrorBinding | LErrorTime | LErrorUnchecked.

Record InspectInput := MkInspectInput {
  ii_ActionID : string; ii_TargetIPv4 : string; ii_OriginalAddDigest : string; ii_OwnedSchemaDigest : string; ii_Purpose : string
}.

Record InspectValue := MkInspectValue {
  iv_SchemaVersion : string; iv_Operation : string; iv_ActionID : string; iv_TargetIPv4 : string; iv_OriginalAddDigest : string;
  iv_OwnedSchemaDigest : string; iv_Purpose : string
}.

Record CheckedInspectArtifact := MkCheckedInspect { ci_value : InspectValue; ci_canonical : string; ci_digest : string }.

Record InspectionAuthorizationInput := MkAuthorizationInput {
  ai_AuthorizationID : string; ai_PolicyID : string; ai_PolicyVersion : Z; ai_OriginalAuthorizationDigest : string; ai_EvidenceSnapshotDigest : string;
  ai_ValidationSnapshotDigest : string; ai_SchedulerID : string; ai_RequestedAt : localtime; ai_ValidUntil : localtime; ai_IdempotencyKeyDigest : string;
  ai_Inspect : CheckedInspectArtifact
}.

Record InspectionAuthorizationValue := MkAuthorizationValue {
  av_SchemaVersion : string; av_AuthorizationID : string; av_Purpose : string; av_ActionID : string; av_PolicyID : string; av_PolicyVersion : Z;
  av_TargetIPv4 : string; av_OriginalAddDigest : string; av_OriginalAuthorizationDigest : string; av_EvidenceSnapshotDigest : string;
  av_ValidationSnapshotDigest : string; av_ArtifactDigest : string; av_OwnedSchemaDigest : string; av_SchedulerID : string; av_RequestedAt : localtime;
  av_ValidUntil : localtime; av_IdempotencyKeyDigest : string
}.

Record CheckedInspectionAuthorization := MkCheckedAuthorization {
  cia_value : InspectionAuthorizationValue; cia_canonical : string; cia_digest : string; cia_inspect : CheckedInspectArtifact
}.

Record RevokeValue := MkRevokeValue { rv_SchemaVersion : string; rv_TargetIPv4 : string }.
Record CheckedRevokeArtifact := MkCheckedRevoke { crv_value : RevokeValue; crv_canonical : string; crv_digest : string }.

#[export] Instance RevokeValue_eq_dec : EqDecision RevokeValue.
Proof. solve_decision. Defined.

(** ** Canonical encoding ([canonical.go]) *)

(** [^[a-z0-9][a-z0-9._-]{0,127}$] *)
Definition is_scheduler_char (c : ascii) : bool := is_lower c || is_digit c || bool_decide (c ∈ ["."; "_"; "-"]%char).
Definition schedulerPattern : pattern := [exactly 1 (λ c, is_lower c || is_digit c); rep 0 127 is_scheduler_char].

(** [json.Marshal] of a string. *)
Definition appendJCSString (value : string) : string := json_string value.
Definition appendUint (value : Z) : string := format_uint value.

Definition validCanonicalIPv4 (value : string) : bool := bool_decide (is_Some (canonical_ipv4 value)).

Definition validPurpose (value : string) : bool :=
  String.eqb value PurposeReconciliation || String.eqb value PurposeExpiryConfirmation || String.eqb value PurposeOperatorStatus.

Definition normalizeTime (value : localtime) : option localtime :=
  if IsZero (lt_instant value) || (LocalYear value <? 1) || (9999 <? LocalYear value) then None
  else
    let value := UTC value in
    if (LocalYear value <? 1) || (9999 <? LocalYear value) then None else Some value.

(** [strings.HasPrefix], [strings.HasSuffix], [strings.TrimPrefix], [strings.TrimSuffix] *)
Definition HasPrefix (s prefix : string) : bool := bool_decide (take (length (chars prefix)) (chars s) = chars prefix).
Definition HasSuffix (s suffix : string) : bool :=
  (length (chars suffix) <=? length (chars s))%nat && bool_decide (drop (length (chars s) - length (chars suffix)) (chars s) = chars suffix).
Definition TrimPrefix (s prefix : string) : string := if HasPrefix s prefix then implode (drop (length (chars prefix)) (chars s)) else s.
Definition TrimSuffix (s suffix : string) : string :=
  if HasSuffix s suffix then implode (take (length (chars s) - length (chars suffix)) (chars s)) else s.

(** Whole seconds keep an explicit [.000Z]; other fractions are the shortest exact ones. *)
Definition formatCanonicalTime (value : time) : string :=
  let formatted := format_rfc3339nano value in
  if negb (bool_decide ("."%char ∈ chars formatted)) then TrimSuffix formatted "Z" +:+ ".000Z" else formatted.

Definition parseCanonicalTime (value : string) : option localtime :=
  if negb (HasSuffix value "Z") then None
  else
    parsed ← parse_rfc3339nano value;
    parsed ← normalizeTime parsed;
    if String.eqb (formatCanonicalTime (lt_instant parsed)) value then Some parsed else None.

(** [strictDecode] with [rejectDuplicateNames] and [scanJSON]: every failure is the same
    error, so the two passes over the bytes are one parse. *)
Definition strictDecode (data : string) (maximum : Z) (fields : schema) : result LifecycleErrorCode slots :=
  if (len data =? 0) || (maximum <? len data) || negb (utf8_valid data) then Err LErrorEncoding
  else
    match parse_document (chars data) with
    | None => Err LErrorEncoding
    | Some v =>
        if negb (unique_names v) then Err LErrorEncoding
        else match decode_struct fields v with Some w => Ok w | None => Err LErrorEncoding end
    end.

(** ** Inspections ([inspect.go]) *)

Definition validateInspectValue (value : InspectValue) : result LifecycleErrorCode unit :=
  if negb (String.eqb (iv_SchemaVersion value) InspectSchemaVersion) || negb (String.eqb (iv_Operation value) InspectionOperation) then Err LErrorSchema
  else if negb (is_uuid (iv_ActionID value)) then Err LErrorIdentity
  else if negb (validCanonicalIPv4 (iv_TargetIPv4 value)) then Err LErrorArtifact
  else if negb (is_digest (iv_OriginalAddDigest value)) || negb (is_digest (iv_OwnedSchemaDigest value)) then Err LErrorDigest
  else if negb (validPurpose (iv_Purpose value)) then Err LErrorArtifact
  else Ok tt.

Definition marshalInspect (value : InspectValue) : string :=
  qq "{'action_id':" +:+ appendJCSString (iv_ActionID value)
  +:+ qq ",'operation':'inspect','original_add_digest':" +:+ appendJCSString (iv_OriginalAddDigest value)
  +:+ qq ",'owned_schema_digest':" +:+ appendJCSString (iv_OwnedSchemaDigest value)
  +:+ qq ",'purpose':" +:+ appendJCSString (iv_Purpose value)
  +:+ qq ",'schema_version':'nft-inspect-v1','target_ipv4':" +:+ appendJCSString (iv_TargetIPv4 value) +:+ "}".

Definition CheckInspectArtifact (input : InspectInput) : result LifecycleErrorCode CheckedInspectArtifact :=
  let value := MkInspectValue InspectSchemaVersion InspectionOperation (ii_ActionID input) (ii_TargetIPv4 input) (ii_OriginalAddDigest input)
                 (ii_OwnedSchemaDigest input) (ii_Purpose input) in
  _ ← validateInspectValue value;
  let canonical := marshalInspect value in
  Ok (MkCheckedInspect value canonical (digest canonical)).

Definition inspectWire : schema :=
  [("schema_version", KString); ("operation", KString); ("action_id", KString); ("target_ipv4", KString); ("original_add_digest", KString);
   ("owned_schema_digest", KString); ("purpose", KString)].

Definition ParseCanonicalInspectArtifact (data : string) : result LifecycleErrorCode CheckedInspectArtifact :=
  wire ← strictDecode data MaxInspectArtifactBytes inspectWire;
  if negb (String.eqb (get_string wire "schema_version") InspectSchemaVersion) || negb (String.eqb (get_string wire "operation") InspectionOperation)
  then Err LErrorSchema
  else
    checked ← CheckInspectArtifact (MkInspectInput (get_string wire "action_id") (get_string wire "target_ipv4") (get_string wire "original_add_digest")
                (get_string wire "owned_schema_digest") (get_string wire "purpose"));
    if negb (String.eqb data (ci_canonical checked)) then Err LErrorCanonical else Ok checked.

Definition validCheckedInspect (value : CheckedInspectArtifact) : bool :=
  match validateInspectValue (ci_value value) with
  | Err _ => false
  | Ok _ =>
      let canonical := marshalInspect (ci_value value) in
      negb (String.eqb (ci_canonical value) "") && String.eqb canonical (ci_canonical value) && is_digest (ci_digest value)
      && String.eqb (digest canonical) (ci_digest value)
  end.

(** ** Inspection authorizations ([authorization.go]) *)

Definition validateAuthorizationValue (value : InspectionAuthorizationValue) : result LifecycleErrorCode unit :=
  if negb (String.eqb (av_SchemaVersion value) AuthorizationSchemaVersion) then Err LErrorSchema
  else if negb (is_uuid (av_AuthorizationID value)) || negb (is_uuid (av_ActionID value)) || negb (is_uuid (av_PolicyID value)) then Err LErrorIdentity
  else if (av_PolicyVersion value =? 0) || (MaxInt32 <? av_PolicyVersion value) then Err LErrorSchema
  else if negb (validPurpose (av_Purpose value)) || negb (validCanonicalIPv4 (av_TargetIPv4 value))
          || negb (match_string schedulerPattern (av_SchedulerID value)) then Err LErrorSchema
  else if negb (forallb is_digest [av_OriginalAddDigest value; av_OriginalAuthorizationDigest value; av_EvidenceSnapshotDigest value;
                  av_ValidationSnapshotDigest value; av_ArtifactDigest value; av_OwnedSchemaDigest value; av_IdempotencyKeyDigest value])
  then Err LErrorDigest
  else
    match normalizeTime (av_RequestedAt value), normalizeTime (av_ValidUntil value) with
    | Some requestedAt, Some validUntil =>
        if negb (Equal (lt_instant requestedAt) (lt_instant (av_RequestedAt value))) || negb (Equal (lt_instant validUntil) (lt_instant (av_ValidUntil value)))
           || negb (After (lt_instant validUntil) (lt_instant requestedAt))
           || After (lt_instant validUntil) (lt_instant requestedAt + MaxAuthorizationValidity)
        then Err LErrorTime else Ok tt
    | _, _ => Err LErrorTime
    end.

Definition marshalAuthorization (value : InspectionAuthorizationValue) : string :=
  qq "{'action_id':" +:+ appendJCSString (av_ActionID value)
  +:+ qq ",'artifact_digest':" +:+ appendJCSString (av_ArtifactDigest value)
  +:+ qq ",'authorization_id':" +:+ appendJCSString (av_AuthorizationID value)
  +:+ qq ",'evidence_snapshot_digest':" +:+ appendJCSString (av_EvidenceSnapshotDigest value)
  +:+ qq ",'idempotency_key_digest':" +:+ appendJCSString (av_IdempotencyKeyDigest value)
  +:+ qq ",'original_add_digest':" +:+ appendJCSString (av_OriginalAddDigest value)
  +:+ qq ",'original_authorization_digest':" +:+ appendJCSString (av_OriginalAuthorizationDigest value)
  +:+ qq ",'owned_schema_digest':" +:+ appendJCSString (av_OwnedSchemaDigest value)
  +:+ qq ",'policy_id':" +:+ appendJCSString (av_PolicyID value)
  +:+ qq ",'policy_version':" +:+ appendUint (av_PolicyVersion value)
  +:+ qq ",'purpose':" +:+ appendJCSString (av_Purpose value)
  +:+ qq ",'requested_at':" +:+ appendJCSString (formatCanonicalTime (lt_instant (av_RequestedAt value)))
  +:+ qq ",'scheduler_id':" +:+ appendJCSString (av_SchedulerID value)
  +:+ qq ",'schema_version':'inspection-authorization-v1','target_ipv4':" +:+ appendJCSString (av_TargetIPv4 value)
  +:+ qq ",'valid_until':" +:+ appendJCSString (formatCanonicalTime (lt_instant (av_ValidUntil value)))
  +:+ qq ",'validation_snapshot_digest':" +:+ appendJCSString (av_ValidationSnapshotDigest value) +:+ "}".

(** The value of an authorization: what the inspection says is taken from the inspection. *)
Definition authorization_value (input : InspectionAuthorizationInput) (requestedAt validUntil : localtime) : InspectionAuthorizationValue :=
  let inspect := ci_value (ai_Inspect input) in
  MkAuthorizationValue AuthorizationSchemaVersion (ai_AuthorizationID input) (iv_Purpose inspect) (iv_ActionID inspect) (ai_PolicyID input)
    (ai_PolicyVersion input) (iv_TargetIPv4 inspect) (iv_OriginalAddDigest inspect) (ai_OriginalAuthorizationDigest input)
    (ai_EvidenceSnapshotDigest input) (ai_ValidationSnapshotDigest input) (ci_digest (ai_Inspect input)) (iv_OwnedSchemaDigest inspect)
    (ai_SchedulerID input) requestedAt validUntil (ai_IdempotencyKeyDigest input).

Definition CheckInspectionAuthorization (input : InspectionAuthorizationInput) : result LifecycleErrorCode CheckedInspectionAuthorization :=
  if negb (validCheckedInspect (ai_Inspect input)) then Err LErrorUnchecked
  else
    match normalizeTime (ai_RequestedAt input), normalizeTime (ai_ValidUntil input) with
    | Some requestedAt, Some validUntil =>
        if negb (After (lt_instant validUntil) (lt_instant requestedAt))
           || After (lt_instant validUntil) (lt_instant requestedAt + MaxAuthorizationValidity) then Err LErrorTime
        else
          let value := authorization_value input requestedAt validUntil in
          _ ← validateAuthorizationValue value;
          let canonical := marshalAuthorization value in
          Ok (MkCheckedAuthorization value canonical (digest canonical) (ai_Inspect input))
    | _, _ => Err LErrorTime
    end.

Definition authorizationWire : schema :=
  [("schema_version", KString); ("authorization_id", KString); ("purpose", KString); ("action_id", KString); ("policy_id", KString);
   ("policy_version", KUint 32); ("target_ipv4", KString); ("original_add_digest", KString); ("original_authorization_digest", KString);
   ("evidence_snapshot_digest", KString); ("validation_snapshot_digest", KString); ("artifact_digest", KString); ("owned_schema_digest", KString);
   ("scheduler_id", KString); ("requested_at", KString); ("valid_until", KString); ("idempotency_key_digest", KString)].

Definition wire_names_inspection (wire : slots) (inspect : CheckedInspectArtifact) : bool :=
  let field := get_string wire in
  let inspectValue := ci_value inspect in
  String.eqb (field "purpose") (iv_Purpose inspectValue) && String.eqb (field "action_id") (iv_ActionID inspectValue)
  && String.eqb (field "target_ipv4") (iv_TargetIPv4 inspectValue) && String.eqb (field "original_add_digest") (iv_OriginalAddDigest inspectValue)
  && String.eqb (field "artifact_digest") (ci_digest inspect) && String.eqb (field "owned_schema_digest") (iv_OwnedSchemaDigest inspectValue).

Definition authorization_of_wire (wire : slots) (requestedAt validUntil : localtime) (inspect : CheckedInspectArtifact) : InspectionAuthorizationInput :=
  let field := get_string wire in
  MkAuthorizationInput (field "authorization_id") (field "policy_id") (get_uint wire "policy_version") (field "original_authorization_digest")
    (field "evidence_snapshot_digest") (field "validation_snapshot_digest") (field "scheduler_id") requestedAt validUntil
    (field "idempotency_key_digest") inspect.

Definition ParseCanonicalInspectionAuthorization (data : string) (inspect : CheckedInspectArtifact)
  : result LifecycleErrorCode CheckedInspectionAuthorization :=
  if negb (validCheckedInspect inspect) then Err LErrorUnchecked
  else
    wire ← strictDecode data MaxAuthorizationBytes authorizationWire;
    if negb (String.eqb (get_string wire "schema_version") AuthorizationSchemaVersion) then Err LErrorSchema
    else
      match parseCanonicalTime (get_string wire "requested_at"), parseCanonicalTime (get_string wire "valid_until") with
      | Some requestedAt, Some validUntil =>
          if negb (wire_names_inspection wire inspect) then Err LErrorBinding
          else
            checked ← CheckInspectionAuthorization (authorization_of_wire wire requestedAt validUntil inspect);
            if negb (String.eqb data (cia_canonical checked)) then Err LErrorCanonical else Ok checked
      | _, _ => Err LErrorTime
      end.

(** ** Revocations ([revoke.go]) *)

Definition revokePrefix : string := "delete element inet sentinelflow blacklist_ipv4 { ".
Definition revokeSuffix : string := " }" +:+ lf.

Definition CheckRevokeArtifact (targetIPv4 : string) : result LifecycleErrorCode CheckedRevokeArtifact :=
  if negb (validCanonicalIPv4 targetIPv4) then Err LErrorArtifact
  else
    let canonical := revokePrefix +:+ targetIPv4 +:+ revokeSuffix in
    if MaxRevokeArtifactBytes <? len canonical then Err LErrorArtifact
    else Ok (MkCheckedRevoke (MkRevokeValue RevokeSchemaVersion targetIPv4) canonical (digest canonical)).

Definition ParseCanonicalRevokeArtifact (data : string) : result LifecycleErrorCode CheckedRevokeArtifact :=
  if (len data =? 0) || (MaxRevokeArtifactBytes <? len data) || negb (utf8_valid data) || bool_decide ("000"%char ∈ chars data) then Err LErrorEncoding
  else if negb (HasPrefix data revokePrefix) || negb (HasSuffix data revokeSuffix) then Err LErrorArtifact
  else
    checked ← CheckRevokeArtifact (TrimSuffix (TrimPrefix data revokePrefix) revokeSuffix);
    if negb (String.eqb data (crv_canonical checked)) then Err LErrorCanonical else Ok checked.

Example format_vectors : map formatCanonicalTime [63919936806000000000; 63919936806050000000] = ["2026-07-18T02:00:06.000Z"; "2026-07-18T02:00:06.05Z"].
Proof. vm_compute. reflexivity. Qed.

Example parse_vectors_canonical : map (λ s, bool_decide (is_Some (parseCanonicalTime s)))
  ["2026-07-18T02:00:06.000Z"; "2026-07-18T02:00:06Z"; "2026-07-18T02:00:06.05Z"; "2026-07-18T02:00:06.050Z"; "2026-07-18T02:00:06.05+00:00"; "0001-01-01T00:00:00.000Z"]
  = [true; false; true; false; false; false].
Proof. vm_compute. reflexivity. Qed.

(** * Correctness of lifecycle artifacts *)

(** ** Prefixes and suffixes *)

Lemma HasPrefix_iff s p : HasPrefix s p = true ↔ ∃ r, s = p +:+ r.
Proof.
  unfold HasPrefix. rewrite bool_decide_eq_true. split.
  - intros H. exists (implode (drop (length (chars p)) (chars s))). apply chars_inj. rewrite chars_app, chars_implode. rewrite <-H at 1. by rewrite take_drop.
  - intros [r ->]. rewrite chars_app. by rewrite take_app_length.
Qed.

Lemma TrimPrefix_app p r : TrimPrefix (p +:+ r) p = r.
Proof. unfold TrimPrefix. rewrite (proj2 (HasPrefix_iff _ _)) by eauto. rewrite chars_app, drop_app_length. apply implode_chars. Qed.

Lemma HasSuffix_iff s x : HasSuffix s x = true ↔ ∃ r, s = r +:+ x.
Proof.
  unfold HasSuffix. rewrite andb_true_iff, Nat.leb_le, bool_decide_eq_true. split.
  - intros [_ H]. exists (implode (take (length (chars s) - length (chars x)) (chars s))). apply chars_inj. rewrite chars_app, chars_implode. symmetry. etransitivity; [|apply (take_drop (length (chars s) - length (chars x)))].
    by f_equal.
  - intros [r ->]. rewrite chars_app, length_app. split; [lia|]. by rewrite Nat.add_sub, drop_app_length.
Qed.

Lemma TrimSuffix_app r x : TrimSuffix (r +:+ x) x = r.
Proof. unfold TrimSuffix. rewrite (proj2 (HasSuffix_iff _ _)) by eauto. rewrite chars_app, length_app, Nat.add_sub, take_app_length. apply implode_chars. Qed.

(** ** Times *)

(** The instants [normalizeTime] accepts. *)
Definition time_ok (t : localtime) : Prop := validSnapshotTime t = true ∧ utc_year_ok t.

Lemma normalizeTime_iff t u : normalizeTime t = Some u ↔ time_ok t ∧ u = UTC t.
Proof.
  assert (normalizeTime t = if validSnapshotTime t && ((1 <=? Year (lt_instant t)) && (Year (lt_instant t) <=? 9999)) then Some (UTC t) else None) as ->.
  { unfold normalizeTime, validSnapshotTime. change (LocalYear (UTC t)) with (Year (lt_instant t + 0 * Second)). rewrite Z.mul_0_l, Z.add_0_r, !Z.ltb_antisym.
    by destruct (IsZero _), (1 <=? LocalYear t), (LocalYear t <=? 9999), (1 <=? Year _), (Year _ <=? 9999). }
  unfold time_ok, utc_year_ok. rewrite <-!Z.leb_le. destruct (validSnapshotTime t), (1 <=? Year _), (Year _ <=? 9999); naive_solver.
Qed.

Lemma normalizeTime_ok t : time_ok t → normalizeTime t = Some (UTC t).
Proof. intros H. by apply normalizeTime_iff. Qed.

Lemma time_ok_UTC t : time_ok t → time_ok (UTC t).
Proof. intros [Hv Hy]. split; [by apply utc_valid|done]. Qed.

(** The fraction a canonical time shows. *)
Definition canonical_fraction (n : Z) : list ascii := if n =? 0 then chars ".000" else fraction_text n.

(** Nothing but the fraction shows a dot. *)
Lemma seconds_text_dot t : "."%char ∉ seconds_text t.
Proof.
  assert (Hp : ∀ w n, Forall (λ c, c ≠ "."%char) (padded w n)).
  { intros w n. eapply Forall_impl; [apply padded_digits|]. by intros c Hc ->. }
  enough (H : Forall (λ c, c ≠ "."%char) (seconds_text t)) by (intros Hin; by eapply Forall_forall in H).
  unfold seconds_text, year_text. destruct (civil (day_number t)) as [[y m] d].
  destruct (y <? 0); repeat first [apply Hp | apply Forall_app; split | apply Forall_cons; split; [done|]].
Qed.

Lemma dot_fraction t : bool_decide ("."%char ∈ chars (format_rfc3339nano t)) = negb (NanosecondOf t =? 0).
Proof.
  unfold format_rfc3339nano, fraction_text. rewrite chars_implode. destruct (NanosecondOf t =? 0); cbn [negb].
  - apply bool_decide_eq_false_2. rewrite elem_of_app. intros [H|H]; [by apply seconds_text_dot in H|]. by apply list_elem_of_singleton in H.
  - apply bool_decide_eq_true_2. apply elem_of_app. right. by left.
Qed.

Lemma formatCanonicalTime_text t : formatCanonicalTime t = implode (seconds_text t ++ canonical_fraction (NanosecondOf t) ++ ["Z"%char]).
Proof.
  unfold formatCanonicalTime, canonical_fraction. rewrite dot_fraction, negb_involutive. unfold format_rfc3339nano, fraction_text.
  destruct (NanosecondOf t =? 0); [|done]. apply chars_inj.
  change (seconds_text t ++ [] ++ ["Z"%char]) with (seconds_text t ++ chars "Z").
  rewrite implode_app, implode_chars, TrimSuffix_app, chars_app, !chars_implode. reflexivity.
Qed.

Lemma read_canonical_fraction n : 0 <= n < Second → read_fraction (canonical_fraction n ++ ["Z"%char]) = (n, ["Z"%char]).
Proof.
  intros Hn. unfold canonical_fraction. destruct (n =? 0) eqn:E; breflect; [subst n; vm_compute; reflexivity|by apply read_fraction_text].
Qed.

Lemma parse_formatCanonicalTime t : four_digit_year t → parse_rfc3339nano (formatCanonicalTime t) = Some (MkLocal t 0).
Proof.
  intros Hy. rewrite formatCanonicalTime_text. apply parse_with_fraction; [done|]. apply read_canonical_fraction, nanosecond_range.
Qed.

Lemma formatCanonicalTime_Z t : HasSuffix (formatCanonicalTime t) "Z" = true.
Proof.
  apply HasSuffix_iff. rewrite formatCanonicalTime_text, app_assoc, implode_app. by eexists.
Qed.

Lemma canonical_time_reads t : time_ok t → parseCanonicalTime (formatCanonicalTime (lt_instant t)) = Some (UTC t).
Proof.
  intros Ht. destruct (Ht) as [_ Hy]. unfold parseCanonicalTime. rewrite formatCanonicalTime_Z. cbn [negb].
  rewrite parse_formatCanonicalTime by (unfold four_digit_year, utc_year_ok in *; lia). cbn [mbind option_bind].
  change (MkLocal (lt_instant t) 0) with (UTC t). rewrite normalizeTime_ok by by apply time_ok_UTC. cbn [mbind option_bind UTC lt_instant].
  by rewrite String.eqb_refl.
Qed.

Lemma parseCanonicalTime_ok s t : parseCanonicalTime s = Some t → s = formatCanonicalTime (lt_instant t) ∧ time_ok t ∧ lt_zone t = 0.
Proof.
  unfold parseCanonicalTime. destruct (HasSuffix s "Z"); [|done]. cbn [negb]. destruct (parse_rfc3339nano s) as [p|]; [|done]. cbn [mbind option_bind].
  destruct (normalizeTime p) as [q|] eqn:E; [|done]. cbn [mbind option_bind]. apply normalizeTime_iff in E as [Hp ->].
  destruct (String.eqb_spec (formatCanonicalTime (lt_instant (UTC p))) s) as [<-|]; [|done]. intros [= <-]. split; [done|]. split; [by apply time_ok_UTC|done].
Qed.

Lemma canonical_time_bounded t : time_ok t → bounded 30 (formatCanonicalTime (lt_instant t)).
Proof.
  intros [_ Hy]. pose proof (instant_text_bounded t Hy) as [Hp Hl]. rewrite formatCanonicalTime_text. unfold canonical_fraction.
  unfold format_rfc3339nano, fraction_text in *. destruct (NanosecondOf (lt_instant t) =? 0); [|split; done].
  unfold bounded, plain in *. rewrite chars_implode in *. cbn [app] in *. rewrite forallb_app in *. apply andb_prop in Hp as [Hp _]. split; [by rewrite Hp|].
  rewrite length_app in *. rewrite seconds_text_length by (unfold four_digit_year, utc_year_ok in *; lia). vm_compute. lia.
Qed.

(** ** Revocations *)

Definition checked_revoke (a : addr4) : CheckedRevokeArtifact :=
  MkCheckedRevoke (MkRevokeValue RevokeSchemaVersion (addr4_string a)) (delete_text a) (digest (delete_text a)).

Lemma validCanonicalIPv4_iff s : validCanonicalIPv4 s = true ↔ is_ipv4 s.
Proof. unfold validCanonicalIPv4. rewrite bool_decide_eq_true. apply canonical_ipv4_is. Qed.

Lemma delete_text_len a : addr4_ok a = true → 53 <= len (delete_text a) <= 68.
Proof.
  intros Ha. pose proof (addr4_string_len a Ha). assert (0 <= len (addr4_string a)) by (unfold len; lia).
  assert (len (delete_text a) = 53 + len (addr4_string a)) by (unfold delete_text; rewrite !len_app; unfold len; simpl; lia). lia.
Qed.

Lemma CheckRevokeArtifact_iff target c : CheckRevokeArtifact target = Ok c ↔ ∃ a, addr4_ok a = true ∧ target = addr4_string a ∧ c = checked_revoke a.
Proof.
  unfold CheckRevokeArtifact, revokePrefix, revokeSuffix. destruct (validCanonicalIPv4 target) eqn:E; cbn [negb].
  - apply validCanonicalIPv4_iff in E as (a & Ha & ->). change ("delete element inet sentinelflow blacklist_ipv4 { " +:+ _) with (delete_text a).
    pose proof (delete_text_len a Ha). cbv zeta. rewrite (proj2 (Z.ltb_ge _ _)) by (unfold MaxRevokeArtifactBytes; lia). split.
    + intros H'. exists a. split_and!; [done..|]. apply (f_equal (from_ok c)) in H'. cbn [from_ok] in H'. by rewrite <-H'.
    + intros (b & Hb & Hab & ->). unfold checked_revoke, delete_text. by rewrite <-Hab.
  - split; [discriminate 1|]. intros (a & Ha & -> & _). rewrite (proj2 (validCanonicalIPv4_iff _)) in E by by exists a. done.
Qed.

(** The bytes of a deletion: printable ASCII and a line feed. *)
Lemma delete_text_bytes a : addr4_ok a = true → Forall (λ c, 10 <= code c < 128) (chars (delete_text a)).
Proof.
  intros Ha. destruct (addr_quad a Ha) as [_ Hq]. unfold delete_text. rewrite !chars_app.
  apply Forall_app; split; [apply (bool_decide_eq_true_1 _); vm_compute; reflexivity|]. apply Forall_app; split; [|apply (bool_decide_eq_true_1 _); vm_compute; reflexivity].
  apply forallb_Forall in Hq. eapply Forall_impl; [exact Hq|]. intros c. unfold is_quad. rewrite orb_true_iff, bool_decide_eq_true. intros [Hc| ->]; [|vm_compute; split; congruence].
  apply is_digit_code in Hc. lia.
Qed.

Lemma ParseCanonicalRevokeArtifact_iff data c : ParseCanonicalRevokeArtifact data = Ok c ↔ ∃ a, addr4_ok a = true ∧ data = delete_text a ∧ c = checked_revoke a.
Proof.
  split.
  - unfold ParseCanonicalRevokeArtifact. intros H. pass_guards H. inv_bind H. pass_guards H. apply (f_equal (from_ok c)) in H. cbn [from_ok] in H. subst c.
    apply CheckRevokeArtifact_iff in Hbind as (b & Hb & _ & ->). bsplit. exists b. split_and!; try done.
  - intros (a & Ha & -> & ->). pose proof (delete_text_len a Ha). pose proof (delete_text_bytes a Ha) as Hb. unfold ParseCanonicalRevokeArtifact, MaxRevokeArtifactBytes.
    rewrite (proj2 (Z.eqb_neq _ 0)), (proj2 (Z.ltb_ge _ _)) by lia. rewrite utf8_valid_bytes by (eapply Forall_impl; [exact Hb|]; intros c' Hc'; apply Hc').
    rewrite bool_decide_eq_false_2. 2:{ intros Hin. eapply Forall_forall in Hb; [|exact Hin]. vm_compute in Hb. destruct Hb as [Hb _]. by apply Hb. } cbn [negb orb].
    assert (Hd : delete_text a = revokePrefix +:+ (addr4_string a +:+ revokeSuffix)) by reflexivity.
    rewrite (proj2 (HasPrefix_iff _ _)) by eauto. rewrite (proj2 (HasSuffix_iff _ _)) by (exists (revokePrefix +:+ addr4_string a); apply chars_inj; rewrite Hd, !chars_app; by rewrite <-!app_assoc).
    cbn [negb orb]. replace (TrimSuffix _ _) with (addr4_string a) by (by rewrite Hd, TrimPrefix_app, TrimSuffix_app).
    rewrite (proj2 (CheckRevokeArtifact_iff (addr4_string a) (checked_revoke a))) by eauto.
    cbn [mbind result_bind checked_revoke crv_canonical]. by rewrite String.eqb_refl.
Qed.

(** ** Inspections *)

(** The inspection the executor's capabilities carry. *)
Definition as_inspection (v : InspectValue) : InspectArtifact :=
  MkInspectArtifact (iv_SchemaVersion v) (iv_ActionID v) (iv_TargetIPv4 v) (iv_OriginalAddDigest v) (iv_OwnedSchemaDigest v) (iv_Purpose v).

Definition inspect_value (i : InspectArtifact) : InspectValue :=
  MkInspectValue InspectSchemaVersion InspectionOperation (ia_ActionID i) (ia_TargetIPv4 i) (ia_OriginalAddDigest i) (ia_OwnedSchemaDigest i) (ia_Purpose i).

Definition checked_inspect (i : InspectArtifact) : CheckedInspectArtifact :=
  MkCheckedInspect (inspect_value i) (marshalInspection i) (digest (marshalInspection i)).

Lemma validPurpose_iff s : validPurpose s = true ↔ s ∈ purposes.
Proof.
  unfold validPurpose, purposes. rewrite !orb_true_iff, !String.eqb_eq, !elem_of_cons, elem_of_nil. unfold PurposeReconciliation, PurposeExpiryConfirmation, PurposeOperatorStatus. tauto.
Qed.

Lemma validateInspectValue_iff v : validateInspectValue v = Ok tt ↔ iv_Operation v = InspectionOperation ∧ inspection_ok (as_inspection v).
Proof.
  unfold validateInspectValue. split.
  - intros H. pass_guards H. bsplit. split; [done|]. split; try done; [by apply validCanonicalIPv4_iff|by apply validPurpose_iff].
  - intros [Ho [Hs Ha Hd Hw Ht Hp]]. cbn [as_inspection ia_SchemaVersion ia_ActionID ia_OriginalAddDigest ia_OwnedSchemaDigest ia_TargetIPv4 ia_Purpose] in *.
    rewrite Ho, Hs, Ha, Hd, Hw, (proj2 (validCanonicalIPv4_iff _) Ht), (proj2 (validPurpose_iff _) Hp). done.
Qed.

Lemma inspect_value_as v : validateInspectValue v = Ok tt → inspect_value (as_inspection v) = v.
Proof. intros [Ho [Hs _ _ _ _ _]]%validateInspectValue_iff. destruct v. cbn in *. by subst. Qed.

Lemma validCheckedInspect_iff c : validCheckedInspect c = true ↔ ∃ i, inspection_ok i ∧ c = checked_inspect i.
Proof.
  unfold validCheckedInspect. split.
  - destruct (validateInspectValue (ci_value c)) as [[]|] eqn:E; [|done]. intros H. exists (as_inspection (ci_value c)).
    pose proof (inspect_value_as _ E) as Hv. apply validateInspectValue_iff in E as [_ Hi]. split; [done|]. cbv zeta in H. bsplit.
    unfold checked_inspect. rewrite Hv. change (marshalInspection _) with (marshalInspect (ci_value c)). destruct c as [v text sum]. cbn [ci_value ci_canonical ci_digest] in *. by subst.
  - intros (i & Hi & ->). cbn [checked_inspect ci_value ci_canonical ci_digest].
    rewrite (proj2 (validateInspectValue_iff (inspect_value i))). 2:{ split; [done|]. destruct Hi as [Hs ? ? ? ? ?]. by split. }
    cbv zeta. change (marshalInspect _) with (marshalInspection i). rewrite !String.eqb_refl, digest_is_digest. by cbn.
Qed.

Definition inspection_of (input : InspectInput) : InspectArtifact :=
  MkInspectArtifact InspectSchemaVersion (ii_ActionID input) (ii_TargetIPv4 input) (ii_OriginalAddDigest input) (ii_OwnedSchemaDigest input) (ii_Purpose input).

Lemma CheckInspectArtifact_iff input c : CheckInspectArtifact input = Ok c ↔ inspection_ok (inspection_of input) ∧ c = checked_inspect (inspection_of input).
Proof.
  unfold CheckInspectArtifact. cbv zeta. set (v := MkInspectValue _ _ _ _ _ _ _). split.
  - intros H. inv_bind H. destruct a. apply validateInspectValue_iff in Hbind as [_ Hi]. split; [exact Hi|]. apply (f_equal (from_ok c)) in H. cbn [from_ok] in H. by rewrite <-H.
  - intros [Hi ->]. rewrite (proj2 (validateInspectValue_iff v) (conj eq_refl Hi)). done.
Qed.

Lemma lifecycle_strict data maximum fields w : Capability.strictDecode data maximum fields = Ok w → strictDecode data maximum fields = Ok w.
Proof.
  unfold Capability.strictDecode, strictDecode. destruct (_ || _); [done|]. destruct (parse_document _) as [v|]; [|done]. destruct (negb _); [done|]. destruct (decode_struct _ _); [|done]. by intros [= ->].
Qed.

Lemma ParseCanonicalInspectArtifact_iff data c : ParseCanonicalInspectArtifact data = Ok c ↔ ∃ i, inspection_ok i ∧ data = marshalInspection i ∧ c = checked_inspect i.
Proof.
  split.
  - unfold ParseCanonicalInspectArtifact. intros H. inv_bind H. pass_guards H. inv_bind H. pass_guards H. apply (f_equal (from_ok c)) in H. cbn [from_ok] in H. subst c.
    match goal with Hc : CheckInspectArtifact _ = _ |- _ => apply CheckInspectArtifact_iff in Hc as [Hi ->] end. bsplit. eexists. by split_and!.
  - intros (i & Hi & -> & ->). destruct (inspection_members_ok i Hi) as [Hf Hs]. unfold ParseCanonicalInspectArtifact.
    rewrite (lifecycle_strict _ _ _ (rev (inspection_members i))).
    2:{ eapply strictDecode_write; [apply inspection_write|exact Hf|unfold MaxInspectArtifactBytes; lia|apply (bool_decide_eq_true_1 _); vm_compute; reflexivity|reflexivity]. }
    cbn [mbind result_bind]. change (get_string _ "schema_version") with InspectSchemaVersion. change (get_string _ "operation") with InspectionOperation. rewrite !String.eqb_refl. cbn [negb orb].
    set (input := MkInspectInput _ _ _ _ _). assert (inspection_of input = i) as Hin by (destruct i as [schema ? ? ? ? ?]; unfold inspection_of; f_equal; symmetry; apply (io_schema _ Hi)).
    rewrite (proj2 (CheckInspectArtifact_iff input (checked_inspect i))) by (by rewrite Hin). cbn [mbind result_bind checked_inspect ci_canonical]. by rewrite String.eqb_refl.
Qed.

(** Both packages read the same inspections and the same deletions. *)
Lemma inspections_agree data i : parseInspection data = Ok i ↔ ∃ c, ParseCanonicalInspectArtifact data = Ok c ∧ as_inspection (ci_value c) = i.
Proof.
  split.
  - intros [Hi ->]%parseInspection_ok. exists (checked_inspect i). split; [apply ParseCanonicalInspectArtifact_iff; eauto|].
    destruct i as [schema ? ? ? ? ?]. pose proof (io_schema _ Hi) as Hs. cbn in Hs. by subst.
  - intros (c & (j & Hj & -> & ->)%ParseCanonicalInspectArtifact_iff & <-). rewrite parseInspection_marshal by done.
    destruct j as [schema ? ? ? ? ?]. pose proof (io_schema _ Hj) as Hs. cbn in Hs. by subst.
Qed.

Lemma deletions_agree data target : checkRevokeArtifact data target = Ok tt ↔ ∃ c, ParseCanonicalRevokeArtifact data = Ok c ∧ rv_TargetIPv4 (crv_value c) = target.
Proof.
  rewrite checkRevokeArtifact_iff. split.
  - intros (a & Ha & -> & ->). exists (checked_revoke a). split; [apply ParseCanonicalRevokeArtifact_iff; eauto|done].
  - intros (c & (a & Ha & -> & ->)%ParseCanonicalRevokeArtifact_iff & <-). by exists a.
Qed.

(** ** Inspection authorizations *)

Lemma scheduler_bounded s : match_string schedulerPattern s = true → bounded 128 s.
Proof. apply (match_bounded schedulerPattern). solve_within. Qed.

Definition authorization_members (v : InspectionAuthorizationValue) : list (string * json) :=
  [("action_id", JString (av_ActionID v)); ("artifact_digest", JString (av_ArtifactDigest v)); ("authorization_id", JString (av_AuthorizationID v));
   ("evidence_snapshot_digest", JString (av_EvidenceSnapshotDigest v)); ("idempotency_key_digest", JString (av_IdempotencyKeyDigest v));
   ("original_add_digest", JString (av_OriginalAddDigest v)); ("original_authorization_digest", JString (av_OriginalAuthorizationDigest v));
   ("owned_schema_digest", JString (av_OwnedSchemaDigest v)); ("policy_id", JString (av_PolicyID v));
   ("policy_version", JNumber (chars (format_uint (av_PolicyVersion v)))); ("purpose", JString (av_Purpose v));
   ("requested_at", JString (formatCanonicalTime (lt_instant (av_RequestedAt v)))); ("scheduler_id", JString (av_SchedulerID v));
   ("schema_version", JString "inspection-authorization-v1"); ("target_ipv4", JString (av_TargetIPv4 v));
   ("valid_until", JString (formatCanonicalTime (lt_instant (av_ValidUntil v)))); ("validation_snapshot_digest", JString (av_ValidationSnapshotDigest v))].

Lemma authorization_write v : chars (marshalAuthorization v) = write_object (authorization_members v).
Proof. unfold marshalAuthorization. rewrite !chars_app, write_object_end. reflexivity. Qed.

(** What [validateAuthorizationValue] demands. *)
Record authorization_ok (v : InspectionAuthorizationValue) : Prop := {
  ao_schema : av_SchemaVersion v = AuthorizationSchemaVersion;
  ao_ids : Forall (λ s, is_uuid s = true) [av_AuthorizationID v; av_ActionID v; av_PolicyID v];
  ao_version : 1 <= av_PolicyVersion v <= MaxInt32;
  ao_purpose : av_Purpose v ∈ purposes;
  ao_target : is_ipv4 (av_TargetIPv4 v);
  ao_scheduler : match_string schedulerPattern (av_SchedulerID v) = true;
  ao_digests : Forall (λ s, is_digest s = true) [av_OriginalAddDigest v; av_OriginalAuthorizationDigest v; av_EvidenceSnapshotDigest v;
    av_ValidationSnapshotDigest v; av_ArtifactDigest v; av_OwnedSchemaDigest v; av_IdempotencyKeyDigest v];
  ao_times : time_ok (av_RequestedAt v) ∧ time_ok (av_ValidUntil v);
  ao_lifetime : lt_instant (av_RequestedAt v) < lt_instant (av_ValidUntil v) <= lt_instant (av_RequestedAt v) + MaxAuthorizationValidity
}.

Lemma validateAuthorizationValue_iff v : 0 <= av_PolicyVersion v → validateAuthorizationValue v = Ok tt ↔ authorization_ok v.
Proof.
  intros H0. unfold validateAuthorizationValue, After, Equal. split.
  - intros H. pass_guards H. destruct (normalizeTime (av_RequestedAt v)) as [t1|] eqn:E1; [|discriminate H]. destruct (normalizeTime (av_ValidUntil v)) as [t2|] eqn:E2; [|discriminate H].
    apply normalizeTime_iff in E1 as [E1 ->], E2 as [E2 ->]. cbn [UTC lt_instant] in H. pass_guards H. cbn [forallb] in *. bsplit.
    split; try done; try lia; try (repeat constructor; done); [by apply validPurpose_iff|by apply validCanonicalIPv4_iff].
  - intros [Hs Hi Hv Hp Ht Hsc Hd [Ht1 Ht2] Hl]. rewrite !normalizeTime_ok by done. cbn [UTC lt_instant forallb].
    rewrite Hs, Hsc, (proj2 (validPurpose_iff _) Hp), (proj2 (validCanonicalIPv4_iff _) Ht), !Z.eqb_refl. split_Forall.
    repeat match goal with H : is_digest _ = true |- _ => rewrite H; clear H | H : is_uuid _ = true |- _ => rewrite H; clear H end.
    rewrite (proj2 (Z.eqb_neq (av_PolicyVersion v) 0)), (proj2 (Z.ltb_ge MaxInt32 _)) by lia. cbn [negb orb andb String.eqb].
    rewrite String.eqb_refl, (proj2 (Z.ltb_lt _ _)), (proj2 (Z.ltb_ge _ _)) by lia. done.
Qed.

Lemma authorization_members_ok v : authorization_ok v →
  Forall flat (authorization_members v) ∧ (sum_list (member_size <$> authorization_members v) ≤ 2000)%nat.
Proof.
  intros [Hs Hi Hv Hp Ht Hsc Hd [Ht1 Ht2] _]. unfold MaxInt32 in Hv. split_Forall.
  assert (Hs' : bounded 27 "inspection-authorization-v1") by (split; [by vm_compute|vm_compute; lia]).
  pose proof (canonical_time_bounded _ Ht1). pose proof (canonical_time_bounded _ Ht2). pose proof (scheduler_bounded _ Hsc). pose proof (purpose_bounded _ Hp). pose proof (ipv4_bounded _ Ht).
  enough (∃ n, (Forall flat (authorization_members v) ∧ (sum_list (member_size <$> authorization_members v) ≤ n)%nat) ∧ (n ≤ 2000)%nat) as (n & [? ?] & ?) by (split; [done|lia]).
  unfold authorization_members. eexists. split; [bound_members|]. vm_compute. lia.
Qed.

(** What an authorization says of the inspection it is for. *)
Definition names_inspection (v : InspectionAuthorizationValue) (c : CheckedInspectArtifact) : Prop :=
  av_Purpose v = iv_Purpose (ci_value c) ∧ av_ActionID v = iv_ActionID (ci_value c) ∧ av_TargetIPv4 v = iv_TargetIPv4 (ci_value c)
  ∧ av_OriginalAddDigest v = iv_OriginalAddDigest (ci_value c) ∧ av_OwnedSchemaDigest v = iv_OwnedSchemaDigest (ci_value c)
  ∧ av_ArtifactDigest v = digest (ci_canonical c).

Definition checked_authorization (input : InspectionAuthorizationInput) : CheckedInspectionAuthorization :=
  let value := authorization_value input (UTC (ai_RequestedAt input)) (UTC (ai_ValidUntil input)) in
  MkCheckedAuthorization value (marshalAuthorization value) (digest (marshalAuthorization value)) (ai_Inspect input).

Lemma CheckInspectionAuthorization_iff input c : 0 <= ai_PolicyVersion input → CheckInspectionAuthorization input = Ok c ↔
  validCheckedInspect (ai_Inspect input) = true ∧ time_ok (ai_RequestedAt input) ∧ time_ok (ai_ValidUntil input)
  ∧ authorization_ok (cia_value (checked_authorization input)) ∧ c = checked_authorization input.
Proof.
  intros H0. unfold CheckInspectionAuthorization, After. split.
  - intros H. pass_guards H. destruct (normalizeTime (ai_RequestedAt input)) as [t1|] eqn:E1; [|discriminate H]. destruct (normalizeTime (ai_ValidUntil input)) as [t2|] eqn:E2; [|discriminate H].
    apply normalizeTime_iff in E1 as [E1 ->], E2 as [E2 ->]. pass_guards H. cbv zeta in H. inv_bind H. destruct a. apply validateAuthorizationValue_iff in Hbind; [|exact H0].
    apply (f_equal (from_ok c)) in H. cbn [from_ok] in H. bsplit. split_and!; try done.
  - intros (Hi & H1 & H2 & Hv & ->). rewrite Hi, !normalizeTime_ok by done. cbn [negb UTC lt_instant].
    destruct (ao_lifetime _ Hv) as [Hl Hl']. cbn [checked_authorization cia_value authorization_value av_RequestedAt av_ValidUntil UTC lt_instant] in Hl, Hl'.
    rewrite (proj2 (Z.ltb_lt _ _)), (proj2 (Z.ltb_ge _ _)) by lia. cbn [negb orb]. cbv zeta.
    change (authorization_value _ _ _) with (cia_value (checked_authorization input)). rewrite (proj2 (validateAuthorizationValue_iff (cia_value (checked_authorization input)) H0) Hv). done.
Qed.

Lemma authorization_decodes v : authorization_ok v → decode_struct authorizationWire (JObject (authorization_members v)) = Some (rev (authorization_members v)).
Proof.
  intros Hv. pose proof (ao_version _ Hv) as Hr. unfold MaxInt32 in Hr.
  assert (parse_uint 32 (implode (chars (format_uint (av_PolicyVersion v)))) = Some (av_PolicyVersion v)) as Hp by (rewrite implode_chars; apply parse_format_uint; lia).
  unfold authorization_members. cbn -[parse_uint implode chars format_uint formatCanonicalTime]. rewrite Hp. reflexivity.
Qed.

Lemma authorization_of_members v t1 t2 i : authorization_ok v →
  authorization_of_wire (rev (authorization_members v)) t1 t2 i
  = MkAuthorizationInput (av_AuthorizationID v) (av_PolicyID v) (av_PolicyVersion v) (av_OriginalAuthorizationDigest v) (av_EvidenceSnapshotDigest v)
      (av_ValidationSnapshotDigest v) (av_SchedulerID v) t1 t2 (av_IdempotencyKeyDigest v) i.
Proof.
  intros Hv. pose proof (ao_version _ Hv) as Hr. unfold MaxInt32 in Hr. unfold authorization_of_wire. f_equal; try reflexivity. by apply decoded_uint; lia.
Qed.

Lemma wire_names_iff v c : wire_names_inspection (rev (authorization_members v)) c = true ↔
  av_Purpose v = iv_Purpose (ci_value c) ∧ av_ActionID v = iv_ActionID (ci_value c) ∧ av_TargetIPv4 v = iv_TargetIPv4 (ci_value c)
  ∧ av_OriginalAddDigest v = iv_OriginalAddDigest (ci_value c) ∧ av_ArtifactDigest v = ci_digest c ∧ av_OwnedSchemaDigest v = iv_OwnedSchemaDigest (ci_value c).
Proof.
  unfold wire_names_inspection. cbv zeta. rewrite !andb_true_iff, !String.eqb_eq.
  change (get_string _ "purpose") with (av_Purpose v). change (get_string _ "action_id") with (av_ActionID v). change (get_string _ "target_ipv4") with (av_TargetIPv4 v).
  change (get_string _ "original_add_digest") with (av_OriginalAddDigest v). change (get_string _ "artifact_digest") with (av_ArtifactDigest v).
  change (get_string _ "owned_schema_digest") with (av_OwnedSchemaDigest v). tauto.
Qed.

(** Reading the bytes of an authorization for any inspection. *)
Lemma authorization_read_for v other : authorization_ok v →
  ParseCanonicalInspectionAuthorization (marshalAuthorization v) other =
  if negb (validCheckedInspect other) then Err LErrorUnchecked
  else if negb (wire_names_inspection (rev (authorization_members v)) other) then Err LErrorBinding
  else
    checked ← CheckInspectionAuthorization (MkAuthorizationInput (av_AuthorizationID v) (av_PolicyID v) (av_PolicyVersion v) (av_OriginalAuthorizationDigest v)
                (av_EvidenceSnapshotDigest v) (av_ValidationSnapshotDigest v) (av_SchedulerID v) (UTC (av_RequestedAt v)) (UTC (av_ValidUntil v)) (av_IdempotencyKeyDigest v) other);
    if negb (String.eqb (marshalAuthorization v) (cia_canonical checked)) then Err LErrorCanonical else Ok checked.
Proof.
  intros Hv. destruct (authorization_members_ok v Hv) as [Hf Hs]. destruct (ao_times v Hv) as [H1 H2]. unfold ParseCanonicalInspectionAuthorization.
  rewrite (lifecycle_strict _ _ _ (rev (authorization_members v))).
  2:{ eapply strictDecode_write; [apply authorization_write|exact Hf|unfold MaxAuthorizationBytes; lia|apply (bool_decide_eq_true_1 _); vm_compute; reflexivity|by apply authorization_decodes]. }
  cbn [mbind result_bind]. change (get_string _ "schema_version") with AuthorizationSchemaVersion. rewrite String.eqb_refl.
  change (get_string _ "requested_at") with (formatCanonicalTime (lt_instant (av_RequestedAt v))).
  change (get_string _ "valid_until") with (formatCanonicalTime (lt_instant (av_ValidUntil v))).
  by rewrite !canonical_time_reads, authorization_of_members by done.
Qed.

Lemma authorization_reads input c : 0 <= ai_PolicyVersion input → CheckInspectionAuthorization input = Ok c →
  ParseCanonicalInspectionAuthorization (cia_canonical c) (ai_Inspect input) = Ok c.
Proof.
  intros H0 (Hi & H1 & H2 & Hv & ->)%CheckInspectionAuthorization_iff; [|done]. set (v := cia_value (checked_authorization input)) in *.
  change (cia_canonical _) with (marshalAuthorization v). rewrite authorization_read_for by done. rewrite Hi, (proj2 (wire_names_iff v (ai_Inspect input))) by (split_and!; reflexivity). cbn [negb].
  set (input' := MkAuthorizationInput _ _ _ _ _ _ _ _ _ _ _). rewrite (proj2 (CheckInspectionAuthorization_iff input' (checked_authorization input) H0)).
  - cbn [mbind result_bind]. change (cia_canonical _) with (marshalAuthorization v). by rewrite String.eqb_refl.
  - split_and!; [exact Hi|by do 2 apply time_ok_UTC|by do 2 apply time_ok_UTC|exact Hv|reflexivity].
Qed.

(** The inspection an authorization names is the only one it can be read for. *)
Lemma authorization_only input c other c' : 0 <= ai_PolicyVersion input → CheckInspectionAuthorization input = Ok c →
  ParseCanonicalInspectionAuthorization (cia_canonical c) other = Ok c' → other = ai_Inspect input ∧ c' = c.
Proof.
  intros H0 Hc H. pose proof (authorization_reads _ _ H0 Hc) as Hr. apply CheckInspectionAuthorization_iff in Hc as (Hi & H1 & H2 & Hv & ->); [|done].
  set (v := cia_value (checked_authorization input)) in *. enough (other = ai_Inspect input) as -> by (split; [done|congruence]).
  change (cia_canonical _) with (marshalAuthorization v) in H. rewrite authorization_read_for in H by done. pass_guards H. breflect.
  apply validCheckedInspect_iff in Hi as (i & Hi & Hei). match goal with Ho : validCheckedInspect other = true |- _ => apply validCheckedInspect_iff in Ho as (j & Hj & ->) end.
  match goal with Hw : wire_names_inspection _ _ = true |- _ => apply wire_names_iff in Hw as (E1 & E2 & E3 & E4 & _ & E5) end.
  subst v. cbn [checked_authorization cia_value authorization_value av_Purpose av_ActionID av_TargetIPv4 av_OriginalAddDigest av_OwnedSchemaDigest] in *. rewrite Hei in *.
  cbn [checked_inspect ci_value inspect_value iv_Purpose iv_ActionID iv_TargetIPv4 iv_OriginalAddDigest iv_OwnedSchemaDigest] in *.
  destruct (io_schema _ Hi), (io_schema _ Hj). destruct i, j. cbn in *. by subst.
Qed.

(** ** The claims *)

Definition lifecycle_time (seconds : Z) : localtime := MkLocal ((63900000000 + seconds) * Second) 0.

Definition sample_inspection : CheckedInspectArtifact := Eval vm_compute in
  checked_inspect (MkInspectArtifact InspectSchemaVersion "00000000-0000-4000-8000-000000000003" "203.0.113.20" (digest "add") (digest "schema") PurposeReconciliation).

Definition sample_authorization_input : InspectionAuthorizationInput := Eval vm_compute in
  MkAuthorizationInput "00000000-0000-4000-8000-000000000004" "00000000-0000-4000-8000-000000000005" 1 (digest "authorization") (digest "evidence") (digest "validation")
    "reconciler-1" (lifecycle_time 0) (lifecycle_time 300) (digest "key") sample_inspection.

Definition sample_authorization : CheckedInspectionAuthorization := Eval vm_compute in checked_authorization sample_authorization_input.

Lemma sample_authorization_ok : CheckInspectionAuthorization sample_authorization_input = Ok sample_authorization.
Proof. vm_compute. reflexivity. Qed.

Example sample_refused : CheckInspectionAuthorization (MkAuthorizationInput "00000000-0000-4000-8000-000000000004" "00000000-0000-4000-8000-000000000005" 1
  (ai_OriginalAuthorizationDigest sample_authorization_input) (ai_EvidenceSnapshotDigest sample_authorization_input) (ai_ValidationSnapshotDigest sample_authorization_input)
  "reconciler-1" (lifecycle_time 0) (lifecycle_time 301) (ai_IdempotencyKeyDigest sample_authorization_input) sample_inspection) = Err LErrorTime.
Proof. vm_compute. reflexivity. Qed.

(** C37. The two packages agree on their common languages: the bytes the executor takes as the
    deletion of an address, or as an inspection, are exactly those this package reads, and
    both read the same target and the same fields. *)
Theorem lifecycle_artifacts_agree data :
  (∀ target, checkRevokeArtifact data target = Ok tt ↔ ∃ c, ParseCanonicalRevokeArtifact data = Ok c ∧ rv_TargetIPv4 (crv_value c) = target)
  ∧ (∀ i, parseInspection data = Ok i ↔ ∃ c, ParseCanonicalInspectArtifact data = Ok c ∧ as_inspection (ci_value c) = i).
Proof. split; [apply deletions_agree|apply inspections_agree]. Qed.

(** C36. An inspection authorization is for one inspection: it names the purpose, action,
    target, original command, schema and bytes of the inspection it was made for, lasts
    more than nothing and at most five minutes, is read back from its bytes for that
    inspection, and its bytes are refused for every other inspection. *)
Theorem inspection_authorization_exact input c : 0 <= ai_PolicyVersion input → CheckInspectionAuthorization input = Ok c →
  names_inspection (cia_value c) (ai_Inspect input)
  ∧ lt_instant (ai_RequestedAt input) < lt_instant (av_ValidUntil (cia_value c)) <= lt_instant (ai_RequestedAt input) + 5 * Minute
  ∧ ParseCanonicalInspectionAuthorization (cia_canonical c) (ai_Inspect input) = Ok c
  ∧ ∀ other c', ParseCanonicalInspectionAuthorization (cia_canonical c) other = Ok c' → other = ai_Inspect input ∧ c' = c.
Proof.
  intros H0 Hc. split_and!; [| | |by apply authorization_reads|by intros other c'; apply authorization_only].
  all: apply CheckInspectionAuthorization_iff in Hc as (Hi & _ & _ & Hv & ->); [|done]; try apply (ao_lifetime _ Hv).
  apply validCheckedInspect_iff in Hi as (i & _ & Hi). unfold names_inspection. cbn [checked_authorization cia_value authorization_value av_Purpose av_ActionID av_TargetIPv4
    av_OriginalAddDigest av_OwnedSchemaDigest av_ArtifactDigest]. by rewrite Hi.
Qed.

Lemma inspection_authorization_exact_witness : ParseCanonicalInspectionAuthorization (cia_canonical sample_authorization) sample_inspection = Ok sample_authorization
  ∧ lt_instant (av_ValidUntil (cia_value sample_authorization)) <= lt_instant (lifecycle_time 0) + 5 * Minute.
Proof.
  assert (H0 : 0 <= ai_PolicyVersion sample_authorization_input) by (vm_compute; discriminate).
  destruct (inspection_authorization_exact sample_authorization_input sample_authorization H0 sample_authorization_ok) as (_ & [_ Hl] & Hr & _). split; [exact Hr|exact Hl].
Defined.
