(* ===== verification/Revocation.v ===== *)
(** * Revocation: challenges and decisions bound to one deletion ([internal/hil/revocation_binding.go])

    The revoke-only path of the human decision: the lifecycle state a revocation starts
    from, the challenge bound to it, and the decision bound to both.  Every step checks its
    checked inputs again from their canonical bytes instead of trusting the wrappers.

    The second half shows what a bound revocation challenge and a bound revocation decision
    establish, when the decision revokes, and that a revocation that starts from a checked
    binding completes. *)

From S2P Require Import Prelude GoStrings Regex Sha256 Json GoTime Netip Policy ResponsePolicy.
From S2P Require Import Capability CapabilitySpec GoTimeParse Snapshot SnapshotSpec Hil HilDecision HilSpec HilServiceSpec LifecycleArtifact.
Local Open Scope Z_scope.

Record RevocationBindingInput := MkRevocationInput {
  ri_ActionID : string; ri_ActionVersion : Z; ri_TargetIPv4 : string; ri_OriginalAddDigest : string; ri_PolicyDigest : string;
  ri_EvidenceSnapshotDigest : string; ri_ValidationSnapshotDigest : string; ri_EligibilityValidUntil : localtime; ri_Session : SessionBinding;
  ri_IdempotencyKeyDigest : string; ri_Artifact : CheckedRevokeArtifact
}.

Record CheckedRevocationBinding := MkRevocationBinding {
  rb_actionID : string; rb_actionVersion : Z; rb_targetIPv4 : string; rb_originalAddDigest : string; rb_policyDigest : string;
  rb_evidenceSnapshotDigest : string; rb_validationSnapshotDigest : string; rb_eligibilityValidUntil : localtime; rb_session : SessionBinding;
  rb_idempotencyKeyDigest : string; rb_artifact : CheckedRevokeArtifact
}.

Definition recheckRevokeArtifact (value : CheckedRevokeArtifact) : result HilErrorCode CheckedRevokeArtifact :=
  let canonical := crv_canonical value in
  match ParseCanonicalRevokeArtifact canonical with
  | Err _ => Err HErrorArtifact
  | Ok parsed =>
      if (len canonical =? 0) || negb (String.eqb (crv_digest parsed) (crv_digest value)) || negb (String.eqb (crv_canonical parsed) canonical)
         || negb (bool_decide (crv_value parsed = crv_value value)) then Err HErrorArtifact
      else Ok parsed
  end.

Definition normalizeRevocationSession (value : SessionBinding) : result HilErrorCode SessionBinding :=
  if negb (is_uuid (sb_SessionID value)) || negb (is_digest (sb_SessionDigest value)) || negb (match_string actorIDPattern (sb_ActorID value))
  then Err HErrorAuthentication
  else
    match normalizedTime (sb_AuthenticatedAt value), normalizedTime (sb_ExpiresAt value) with
    | Some authenticatedAt, Some expiresAt =>
        if negb (After (lt_instant expiresAt) (lt_instant authenticatedAt)) then Err HErrorAuthentication
        else Ok (MkSessionBinding (sb_SessionID value) (sb_SessionDigest value) (sb_ActorID value) authenticatedAt expiresAt)
    | _, _ => Err HErrorAuthentication
    end.

Definition CheckRevocationBinding (input : RevocationBindingInput) : result HilErrorCode CheckedRevocationBinding :=
  artifact ← recheckRevokeArtifact (ri_Artifact input);
  if negb (is_uuid (ri_ActionID input)) || (ri_ActionVersion input =? 0) || (2147483647 <? ri_ActionVersion input)
     || negb (Hil.validCanonicalIPv4 (ri_TargetIPv4 input)) then Err HErrorField
  else if negb (forallb is_digest [ri_OriginalAddDigest input; ri_PolicyDigest input; ri_EvidenceSnapshotDigest input; ri_ValidationSnapshotDigest input;
                  ri_IdempotencyKeyDigest input]) then Err HErrorDigest
  else
    match normalizedTime (ri_EligibilityValidUntil input) with
    | None => Err HErrorTime
    | Some eligibleUntil =>
        session ← normalizeRevocationSession (ri_Session input);
        if negb (String.eqb (rv_TargetIPv4 (crv_value artifact)) (ri_TargetIPv4 input)) then Err HErrorArtifactMismatch
        else Ok (MkRevocationBinding (ri_ActionID input) (ri_ActionVersion input) (ri_TargetIPv4 input) (ri_OriginalAddDigest input) (ri_PolicyDigest input)
               (ri_EvidenceSnapshotDigest input) (ri_ValidationSnapshotDigest input) eligibleUntil session (ri_IdempotencyKeyDigest input) artifact)
    end.

Definition recheckRevocationBinding (value : CheckedRevocationBinding) : result HilErrorCode CheckedRevocationBinding :=
  CheckRevocationBinding (MkRevocationInput (rb_actionID value) (rb_actionVersion value) (rb_targetIPv4 value) (rb_originalAddDigest value)
    (rb_policyDigest value) (rb_evidenceSnapshotDigest value) (rb_validationSnapshotDigest value) (rb_eligibilityValidUntil value) (rb_session value)
    (rb_idempotencyKeyDigest value) (rb_artifact value)).

(** ** The challenge of a revocation *)

Record CheckedRevocationChallenge := MkRevocationChallenge { rc_challenge : CheckedChallenge; rc_binding : CheckedRevocationBinding }.

Definition recheckChallenge (value : CheckedChallenge) : result HilErrorCode CheckedChallenge :=
  let canonical := cch_canonical value in
  match ParseCanonicalChallenge canonical with
  | Err _ => Err HErrorArtifact
  | Ok parsed =>
      if (len canonical =? 0) || negb (String.eqb (cch_digest parsed) (cch_digest value)) || negb (String.eqb (cch_canonical parsed) canonical)
         || negb (String.eqb (marshalChallengeJCS (cch_value value)) canonical) then Err HErrorArtifact
      else Ok parsed
  end.

(** The challenge names the bound action, target, deletion, digests and horizon. *)
Definition challenge_names_binding (value : Challenge) (originalAddDigest : string) (b : CheckedRevocationBinding) : bool :=
  String.eqb (ch_ResourceID value) (rb_actionID b) && (ch_ResourceVersion value =? rb_actionVersion b) && String.eqb (ch_TargetIPv4 value) (rb_targetIPv4 b)
  && String.eqb (ch_PolicyDigest value) (rb_policyDigest b) && String.eqb (ch_GeneratedArtifactDigest value) (crv_digest (rb_artifact b))
  && String.eqb (ch_CanonicalArtifactDigest value) (crv_digest (rb_artifact b)) && String.eqb originalAddDigest (rb_originalAddDigest b)
  && String.eqb (ch_EvidenceSnapshotDigest value) (rb_evidenceSnapshotDigest b) && String.eqb (ch_ValidationSnapshotDigest value) (rb_validationSnapshotDigest b)
  && Equal (lt_instant (ch_ValidationValidUntil value)) (lt_instant (rb_eligibilityValidUntil b)).

Definition BindRevocationChallenge (binding : CheckedRevocationBinding) (challenge : CheckedChallenge) : result HilErrorCode CheckedRevocationChallenge :=
  checkedBinding ← recheckRevocationBinding binding;
  checkedChallenge ← recheckChallenge challenge;
  let value := cch_value checkedChallenge in
  match ch_OriginalAddDigest value with
  | None => Err HErrorChallengeMismatch
  | Some originalAddDigest =>
      if negb (String.eqb (ch_Operation value) hil_OperationRevoke) || negb (String.eqb (ch_ResourceType value) ResourceEnforcementAction)
      then Err HErrorChallengeMismatch
      else
        session ← checkSession (rb_session checkedBinding) (ch_IssuedAt value);
        if negb (sameSession session (rb_session checkedBinding)) || negb (String.eqb (ch_SessionDigest value) (sb_SessionDigest session))
           || negb (Equal (lt_instant (ch_AuthenticatedAt value)) (lt_instant (sb_AuthenticatedAt session)))
           || After (lt_instant (ch_ExpiresAt value)) (lt_instant (sb_ExpiresAt session)) then Err HErrorAuthentication
        else
          let eligibilityValidUntil := lt_instant (rb_eligibilityValidUntil checkedBinding) in
          if negb (After eligibilityValidUntil (lt_instant (ch_IssuedAt value)))
             || After eligibilityValidUntil (lt_instant (ch_IssuedAt value) + ChallengeLifetime)
             || After eligibilityValidUntil (lt_instant (sb_ExpiresAt session)) then Err HErrorTime
          else if negb (challenge_names_binding value originalAddDigest checkedBinding) then Err HErrorArtifactMismatch
          else if negb (After (lt_instant (ch_ExpiresAt value)) (lt_instant (ch_IssuedAt value)))
                  || After (lt_instant (ch_ExpiresAt value)) eligibilityValidUntil then Err HErrorTime
          else Ok (MkRevocationChallenge checkedChallenge checkedBinding)
  end.

(** ** The decision of a revocation *)

Record CheckedRevocationDecision := MkRevocationDecision {
  rd_decision : CheckedDecision; rd_challengeDigest : string; rd_binding : CheckedRevocationBinding; rd_reasonCanonical : string
}.

Definition RevokesAt (d : CheckedRevocationDecision) (now : localtime) : bool :=
  let value := cd_value (rd_decision d) in
  let bytes := crv_canonical (rb_artifact (rd_binding d)) in
  match normalizedTime now with
  | None => false
  | Some now =>
      String.eqb (de_Operation value) hil_OperationRevoke && String.eqb (de_Decision value) DecisionRevoked
      && String.eqb (de_ResourceType value) ResourceEnforcementAction && negb (bool_decide (de_OriginalAddDigest value = None))
      && (0 <? len (rd_reasonCanonical d)) && (0 <? len bytes)
      && negb (Before (lt_instant now) (lt_instant (de_DecidedAt value))) && Before (lt_instant now) (lt_instant (de_DecisionValidUntil value))
      && Before (lt_instant now) (lt_instant (rb_eligibilityValidUntil (rd_binding d)))
      && String.eqb (digest (rd_reasonCanonical d)) (de_ReasonDigest value) && String.eqb (digest bytes) (de_CanonicalArtifactDigest value)
      && String.eqb (de_GeneratedArtifactDigest value) (de_CanonicalArtifactDigest value)
  end.

Definition recheckDecision (value : CheckedDecision) : result HilErrorCode CheckedDecision :=
  let canonical := cd_canonical value in
  match ParseCanonicalDecision canonical with
  | Err _ => Err HErrorArtifact
  | Ok parsed =>
      if (len canonical =? 0) || negb (String.eqb (cd_digest parsed) (cd_digest value)) || negb (String.eqb (cd_canonical parsed) canonical)
         || negb (String.eqb (marshalDecisionJCS (cd_value value)) canonical) then Err HErrorArtifact
      else Ok parsed
  end.

Definition recheckReason `{Normalizer} (value : CheckedReason) : result HilErrorCode CheckedReason :=
  let canonical := crs_canonical value in
  match ParseCanonicalReason canonical with
  | Err _ => Err HErrorReason
  | Ok parsed =>
      if (len canonical =? 0) || negb (String.eqb (crs_digest parsed) (crs_digest value)) || negb (String.eqb (crs_canonical parsed) canonical)
         || negb (String.eqb (marshalReasonJCS (crs_value value)) canonical) then Err HErrorReason
      else Ok parsed
  end.

(** The decision repeats what the challenge asked. *)
Definition decision_repeats (d : Decision) (originalAddDigest : string) (c : Challenge) : bool :=
  String.eqb (de_ResourceID d) (ch_ResourceID c) && (de_ResourceVersion d =? ch_ResourceVersion c) && String.eqb (de_TargetIPv4 d) (ch_TargetIPv4 c)
  && String.eqb (de_PolicyDigest d) (ch_PolicyDigest c) && String.eqb (de_GeneratedArtifactDigest d) (ch_GeneratedArtifactDigest c)
  && String.eqb (de_CanonicalArtifactDigest d) (ch_CanonicalArtifactDigest c) && bool_decide (Some originalAddDigest = ch_OriginalAddDigest c)
  && String.eqb (de_EvidenceSnapshotDigest d) (ch_EvidenceSnapshotDigest c) && String.eqb (de_ValidationSnapshotDigest d) (ch_ValidationSnapshotDigest c).

Definition BindRevocationDecision `{Normalizer} (challenge : CheckedRevocationChallenge) (decision : CheckedDecision) (reason : CheckedReason)
  : result HilErrorCode CheckedRevocationDecision :=
  checkedChallenge ← BindRevocationChallenge (rc_binding challenge) (rc_challenge challenge);
  checkedDecision ← recheckDecision decision;
  checkedReason ← recheckReason reason;
  let c := cch_value (rc_challenge checkedChallenge) in
  let b := rc_binding checkedChallenge in
  let d := cd_value checkedDecision in
  match de_OriginalAddDigest d with
  | None => Err HErrorChallengeMismatch
  | Some originalAddDigest =>
      if negb (String.eqb (de_Operation d) hil_OperationRevoke) || negb (String.eqb (de_Decision d) DecisionRevoked)
         || negb (String.eqb (de_ResourceType d) ResourceEnforcementAction) || negb (String.eqb (de_ChallengeID d) (ch_ChallengeID c))
      then Err HErrorChallengeMismatch
      else if negb (String.eqb (de_SessionDigest d) (ch_SessionDigest c)) then Err HErrorAuthentication
      else if negb (String.eqb (de_ActorID d) (sb_ActorID (rb_session b))) || negb (String.eqb (de_SessionDigest d) (sb_SessionDigest (rb_session b)))
      then Err HErrorAuthentication
      else if negb (String.eqb (de_NonceDigest d) (ch_NonceDigest c)) then Err HErrorNonce
      else if negb (decision_repeats d originalAddDigest c) then Err HErrorArtifactMismatch
      else if negb (String.eqb (de_ReasonDigest d) (crs_digest checkedReason)) then Err HErrorReason
      else if negb (String.eqb (de_IdempotencyKeyDigest d) (rb_idempotencyKeyDigest b)) then Err HErrorIdempotency
      else if Before (lt_instant (de_DecidedAt d)) (lt_instant (ch_IssuedAt c)) then Err HErrorTime
      else if negb (Before (lt_instant (de_DecidedAt d)) (lt_instant (ch_ExpiresAt c)))
              || negb (Before (lt_instant (de_DecidedAt d)) (lt_instant (rb_eligibilityValidUntil b))) then Err HErrorChallengeExpired
      else if After (lt_instant (de_DecisionValidUntil d)) (lt_instant (ch_ExpiresAt c))
              || After (lt_instant (de_DecisionValidUntil d)) (lt_instant (rb_eligibilityValidUntil b)) then Err HErrorTime
      else Ok (MkRevocationDecision checkedDecision (cch_digest (rc_challenge checkedChallenge)) b (crs_canonical checkedReason))
  end.

(** * Correctness of revocations *)

(** ** Checking again *)

Lemma recheckRevokeArtifact_iff v p : recheckRevokeArtifact v = Ok p ↔ p = v ∧ ∃ a, addr4_ok a = true ∧ v = checked_revoke a.
Proof.
  unfold recheckRevokeArtifact. cbv zeta. split.
  - destruct (ParseCanonicalRevokeArtifact _) as [q|] eqn:E; [|done]. apply ParseCanonicalRevokeArtifact_iff in E as (a & Ha & Hd & ->). intros H. pass_guards H. bsplit.
    apply (f_equal (from_ok p)) in H. cbn [from_ok] in H. subst p. enough (v = checked_revoke a) as -> by eauto.
    destruct v as [value text sum]. cbn [checked_revoke crv_value crv_canonical crv_digest] in *. by subst.
  - intros (-> & a & Ha & ->). rewrite (proj2 (ParseCanonicalRevokeArtifact_iff _ (checked_revoke a))) by eauto.
    pose proof (delete_text_len a Ha). cbn [checked_revoke crv_value crv_canonical crv_digest]. rewrite (proj2 (Z.eqb_neq _ 0)), !String.eqb_refl, bool_decide_eq_true_2 by (done || lia). done.
Qed.

Lemma recheckChallenge_reads v c : 0 <= ch_ResourceVersion v → challenge_years v → CheckChallenge v = Ok c → recheckChallenge c = Ok c.
Proof.
  intros H0 Hy Hc. unfold recheckChallenge. cbv zeta. rewrite (challenge_reads _ _ H0 Hy Hc). apply CheckChallenge_iff in Hc as (_ & _ & ->); [|done].
  cbn [checked_challenge cch_canonical cch_digest cch_value]. rewrite !String.eqb_refl. by destruct (len _ =? 0) eqn:E.
Qed.

Lemma recheckDecision_reads v c : 0 <= de_ResourceVersion v → decision_years v → CheckDecision v = Ok c → recheckDecision c = Ok c.
Proof.
  intros H0 Hy Hc. unfold recheckDecision. cbv zeta. rewrite (decision_reads _ _ H0 Hy Hc). apply CheckDecision_iff in Hc as (_ & _ & ->); [|done].
  cbn [checked_decision cd_canonical cd_digest cd_value]. rewrite !String.eqb_refl. by destruct (len _ =? 0) eqn:E.
Qed.

Section reasons.
Context `{Normalizer}.

Lemma CheckReason_shape v r : CheckReason v = Ok r → crs_canonical r = marshalReasonJCS (crs_value r) ∧ crs_digest r = digest (crs_canonical r).
Proof.
  unfold CheckReason. intros Hc. pass_guards Hc. cbv zeta in Hc. pass_guards Hc. apply (f_equal (from_ok r)) in Hc. cbn [from_ok] in Hc. by subst r.
Qed.

Lemma ParseCanonicalReason_shape data r : ParseCanonicalReason data = Ok r → data = crs_canonical r ∧ crs_canonical r = marshalReasonJCS (crs_value r) ∧ crs_digest r = digest data.
Proof.
  unfold ParseCanonicalReason. intros Hp. inv_bind Hp. inv_bind Hp. pass_guards Hp. apply (f_equal (from_ok r)) in Hp. cbn [from_ok] in Hp. subst.
  match goal with Hc : CheckReason _ = _ |- _ => apply CheckReason_shape in Hc as [H1 H2] end. bsplit. by subst data.
Qed.

Lemma recheckReason_ok r p : recheckReason r = Ok p → 0 < len (crs_canonical p) ∧ crs_digest p = digest (crs_canonical p) ∧ crs_canonical p = crs_canonical r.
Proof.
  unfold recheckReason. cbv zeta. destruct (ParseCanonicalReason _) as [q|] eqn:E; [|done]. apply ParseCanonicalReason_shape in E as (Hd & _ & Hs). intros Hr. pass_guards Hr. bsplit.
  apply (f_equal (from_ok p)) in Hr. cbn [from_ok] in Hr. subst q. rewrite <-Hd. split_and!; [|done..]. assert (0 <= len (crs_canonical r)) by (unfold len; lia). lia.
Qed.

Lemma recheckReason_reads data r : ParseCanonicalReason data = Ok r → recheckReason r = Ok r.
Proof.
  intros Hp. pose proof (ParseCanonicalReason_shape _ _ Hp) as (-> & Hm & Hd). unfold recheckReason. cbv zeta. rewrite Hp, <-Hm, !String.eqb_refl.
  assert (len (crs_canonical r) =? 0 = false) as ->; [|done]. rewrite Hm. reflexivity.
Qed.
End reasons.

(** ** Bindings *)

(** What [CheckRevocationBinding] demands. *)
Record binding_ok (i : RevocationBindingInput) : Prop := {
  bi_artifact : ∃ a, addr4_ok a = true ∧ ri_Artifact i = checked_revoke a ∧ ri_TargetIPv4 i = addr4_string a;
  bi_action : is_uuid (ri_ActionID i) = true;
  bi_version : ri_ActionVersion i ≠ 0 ∧ ri_ActionVersion i <= 2147483647;
  bi_digests : Forall (λ d, is_digest d = true) [ri_OriginalAddDigest i; ri_PolicyDigest i; ri_EvidenceSnapshotDigest i; ri_ValidationSnapshotDigest i; ri_IdempotencyKeyDigest i];
  bi_eligible : validSnapshotTime (ri_EligibilityValidUntil i) = true;
  bi_session : is_uuid (sb_SessionID (ri_Session i)) = true ∧ is_digest (sb_SessionDigest (ri_Session i)) = true ∧ match_string actorIDPattern (sb_ActorID (ri_Session i)) = true;
  bi_times : validSnapshotTime (sb_AuthenticatedAt (ri_Session i)) = true ∧ validSnapshotTime (sb_ExpiresAt (ri_Session i)) = true;
  bi_span : lt_instant (sb_AuthenticatedAt (ri_Session i)) < lt_instant (sb_ExpiresAt (ri_Session i))
}.

Definition binding_of (i : RevocationBindingInput) : CheckedRevocationBinding :=
  MkRevocationBinding (ri_ActionID i) (ri_ActionVersion i) (ri_TargetIPv4 i) (ri_OriginalAddDigest i) (ri_PolicyDigest i) (ri_EvidenceSnapshotDigest i)
    (ri_ValidationSnapshotDigest i) (UTC (ri_EligibilityValidUntil i)) (normalized_session (ri_Session i)) (ri_IdempotencyKeyDigest i) (ri_Artifact i).

Lemma normalizeRevocationSession_iff v s : normalizeRevocationSession v = Ok s ↔
  (is_uuid (sb_SessionID v) = true ∧ is_digest (sb_SessionDigest v) = true ∧ match_string actorIDPattern (sb_ActorID v) = true)
  ∧ (validSnapshotTime (sb_AuthenticatedAt v) = true ∧ validSnapshotTime (sb_ExpiresAt v) = true) ∧ lt_instant (sb_AuthenticatedAt v) < lt_instant (sb_ExpiresAt v) ∧ s = normalized_session v.
Proof.
  unfold normalizeRevocationSession, After. split.
  - intros H. pass_guards H. destruct (normalizedTime (sb_AuthenticatedAt v)) as [t1|] eqn:E1; [|discriminate H]. destruct (normalizedTime (sb_ExpiresAt v)) as [t2|] eqn:E2; [|discriminate H].
    apply normalizedTime_iff in E1 as [E1 ->], E2 as [E2 ->]. pass_guards H. bsplit. apply (f_equal (from_ok s)) in H. cbn [from_ok] in H. by split_and!.
  - intros ((H1 & H2 & H3) & [H4 H5] & H6 & ->). rewrite H1, H2, H3, !normalizedTime_valid by done. cbn [negb orb UTC lt_instant]. by rewrite (proj2 (Z.ltb_lt _ _)).
Qed.

Lemma CheckRevocationBinding_iff i b : CheckRevocationBinding i = Ok b ↔ binding_ok i ∧ b = binding_of i.
Proof.
  unfold CheckRevocationBinding. split.
  - intros H. inv_bind H. apply recheckRevokeArtifact_iff in Hbind as (-> & x & Hx & Ha). pass_guards H. destruct (normalizedTime _) as [t|] eqn:E; [|discriminate H].
    apply normalizedTime_iff in E as [E ->]. inv_bind H. apply normalizeRevocationSession_iff in Hbind as (H1 & H2 & H3 & ->). pass_guards H. cbn [forallb] in *. bsplit.
    apply (f_equal (from_ok b)) in H. cbn [from_ok] in H. split; [|by rewrite <-H].
    split; try done; try (by split_and!); try (repeat constructor; done). exists x. split_and!; [done..|]. rewrite Ha in *. cbn [checked_revoke crv_value rv_TargetIPv4] in *. congruence.
  - intros [[(x & Hx & Ha & Ht) Hu Hv Hd He Hs Htm Hsp] ->]. split_Forall. rewrite (proj2 (recheckRevokeArtifact_iff _ (ri_Artifact i))) by eauto. cbn [mbind result_bind forallb].
    assert (Hil.validCanonicalIPv4 (ri_TargetIPv4 i) = true) as -> by (apply bool_decide_eq_true_2, canonical_ipv4_is; by exists x).
    repeat match goal with H : is_digest _ = true |- _ => rewrite H; clear H end.
    rewrite Hu, (proj2 (Z.eqb_neq _ 0)), (proj2 (Z.ltb_ge 2147483647 _)) by lia. cbn [negb orb andb]. rewrite normalizedTime_valid by done.
    rewrite (proj2 (normalizeRevocationSession_iff _ _) (conj Hs (conj Htm (conj Hsp eq_refl)))). cbn [mbind result_bind].
    replace (rv_TargetIPv4 _) with (ri_TargetIPv4 i) by (by rewrite Ha, Ht). by rewrite String.eqb_refl.
Qed.

Definition input_of (b : CheckedRevocationBinding) : RevocationBindingInput :=
  MkRevocationInput (rb_actionID b) (rb_actionVersion b) (rb_targetIPv4 b) (rb_originalAddDigest b) (rb_policyDigest b) (rb_evidenceSnapshotDigest b)
    (rb_validationSnapshotDigest b) (rb_eligibilityValidUntil b) (rb_session b) (rb_idempotencyKeyDigest b) (rb_artifact b).

Lemma recheckRevocationBinding_iff v b : recheckRevocationBinding v = Ok b ↔ binding_ok (input_of v) ∧ b = binding_of (input_of v).
Proof. apply CheckRevocationBinding_iff. Qed.

(** The years in UTC that make a binding checkable again. *)
Definition binding_years (i : RevocationBindingInput) : Prop :=
  utc_year_ok (ri_EligibilityValidUntil i) ∧ utc_year_ok (sb_AuthenticatedAt (ri_Session i)) ∧ utc_year_ok (sb_ExpiresAt (ri_Session i)).

Lemma binding_stable i b : binding_years i → CheckRevocationBinding i = Ok b → recheckRevocationBinding b = Ok b.
Proof.
  intros (Hy1 & Hy2 & Hy3) [[Ha Hu Hv Hd He Hs [Ht1 Ht2] Hsp] ->]%CheckRevocationBinding_iff. apply recheckRevocationBinding_iff. split; [|done].
  split; try done; [by apply utc_valid|split; by apply utc_valid].
Qed.

(** ** Bound challenges *)

(** What [BindRevocationChallenge] demands of a challenge. *)
Record challenge_bound (b : CheckedRevocationBinding) (v : Challenge) : Prop := {
  cb_kind : ch_Operation v = hil_OperationRevoke ∧ ch_ResourceType v = ResourceEnforcementAction ∧ ch_OriginalAddDigest v = Some (rb_originalAddDigest b);
  cb_session : session_live (rb_session b) (ch_IssuedAt v);
  cb_same : ch_SessionDigest v = sb_SessionDigest (rb_session b) ∧ lt_instant (ch_AuthenticatedAt v) = lt_instant (sb_AuthenticatedAt (rb_session b));
  cb_action : ch_ResourceID v = rb_actionID b ∧ ch_ResourceVersion v = rb_actionVersion b ∧ ch_TargetIPv4 v = rb_targetIPv4 b;
  cb_artifact : ch_GeneratedArtifactDigest v = crv_digest (rb_artifact b) ∧ ch_CanonicalArtifactDigest v = crv_digest (rb_artifact b);
  cb_digests : ch_PolicyDigest v = rb_policyDigest b ∧ ch_EvidenceSnapshotDigest v = rb_evidenceSnapshotDigest b ∧ ch_ValidationSnapshotDigest v = rb_validationSnapshotDigest b;
  cb_horizon : lt_instant (ch_ValidationValidUntil v) = lt_instant (rb_eligibilityValidUntil b);
  cb_life : lt_instant (ch_IssuedAt v) < lt_instant (ch_ExpiresAt v) <= lt_instant (rb_eligibilityValidUntil b);
  cb_eligible : lt_instant (rb_eligibilityValidUntil b) <= lt_instant (ch_IssuedAt v) + ChallengeLifetime ∧ lt_instant (rb_eligibilityValidUntil b) <= lt_instant (sb_ExpiresAt (rb_session b))
}.

Lemma BindRevocationChallenge_iff binding challenge x : BindRevocationChallenge binding challenge = Ok x ↔
  ∃ b c, recheckRevocationBinding binding = Ok b ∧ recheckChallenge challenge = Ok c ∧ challenge_bound b (cch_value c) ∧ x = MkRevocationChallenge c b.
Proof.
  unfold BindRevocationChallenge, challenge_names_binding, After, Equal. split.
  - intros H. inv_bind H. inv_bind H. match goal with Hb : recheckRevocationBinding _ = Ok ?b', Hc : recheckChallenge _ = Ok ?c' |- _ => exists b', c' end. split_and!; try done.
    all: cbv zeta in H; destruct (ch_OriginalAddDigest _) as [original|] eqn:Eo; [|discriminate H]; pass_guards H; inv_bind H.
    all: match goal with Hs : checkSession _ _ = _ |- _ => apply checkSession_iff in Hs as [Hs ->] end; pass_guards H.
    + bsplit. cbn [normalized_session sb_SessionDigest sb_AuthenticatedAt sb_ExpiresAt UTC lt_instant] in *. split; try done; try (by split_and!); [|lia..]. split_and!; [done..|]. congruence.
    + apply (f_equal (from_ok x)) in H. by cbn [from_ok] in H.
  - intros (b & c & Hb & Hc & [(K1 & K2 & K3) Hs [S1 S2] (A1 & A2 & A3) [G1 G2] (D1 & D2 & D3) Hh Hl [He1 He2]] & ->). rewrite Hb. cbn [mbind result_bind]. rewrite Hc. cbn [mbind result_bind]. cbv zeta.
    rewrite K3, K1, K2, !String.eqb_refl. cbn [negb orb]. rewrite (proj2 (checkSession_iff _ _ _) (conj Hs eq_refl)). cbn [mbind result_bind].
    assert (sameSession (normalized_session (rb_session b)) (rb_session b) = true) as -> by (apply sameSession_iff; by split_and!).
    cbn [normalized_session sb_SessionDigest sb_AuthenticatedAt sb_ExpiresAt UTC lt_instant]. rewrite S1, S2, A1, A2, A3, G1, G2, D1, D2, D3, Hh, !String.eqb_refl, !Z.eqb_refl. cbn [negb orb andb].
    repeat first [rewrite (proj2 (Z.ltb_lt _ _)) by lia | rewrite (proj2 (Z.ltb_ge _ _)) by lia]. done.
Qed.

(** ** Bound decisions *)

Section decisions.
Context `{Normalizer}.

(** What [BindRevocationDecision] demands of a decision on a bound challenge. *)
Record decision_bound (b : CheckedRevocationBinding) (c : Challenge) (r : CheckedReason) (d : Decision) : Prop := {
  db_kind : de_Operation d = hil_OperationRevoke ∧ de_Decision d = DecisionRevoked ∧ de_ResourceType d = ResourceEnforcementAction;
  db_challenge : de_ChallengeID d = ch_ChallengeID c ∧ de_NonceDigest d = ch_NonceDigest c;
  db_session : de_SessionDigest d = sb_SessionDigest (rb_session b) ∧ de_ActorID d = sb_ActorID (rb_session b);
  db_action : de_ResourceID d = rb_actionID b ∧ de_ResourceVersion d = rb_actionVersion b ∧ de_TargetIPv4 d = rb_targetIPv4 b ∧ de_OriginalAddDigest d = Some (rb_originalAddDigest b);
  db_artifact : de_GeneratedArtifactDigest d = crv_digest (rb_artifact b) ∧ de_CanonicalArtifactDigest d = crv_digest (rb_artifact b);
  db_digests : de_PolicyDigest d = rb_policyDigest b ∧ de_EvidenceSnapshotDigest d = rb_evidenceSnapshotDigest b ∧ de_ValidationSnapshotDigest d = rb_validationSnapshotDigest b;
  db_reason : de_ReasonDigest d = crs_digest r;
  db_key : de_IdempotencyKeyDigest d = rb_idempotencyKeyDigest b;
  db_decided : lt_instant (ch_IssuedAt c) <= lt_instant (de_DecidedAt d) < lt_instant (ch_ExpiresAt c);
  db_until : lt_instant (de_DecisionValidUntil d) <= lt_instant (ch_ExpiresAt c)
}.

Lemma BindRevocationDecision_iff challenge decision reason x : BindRevocationDecision challenge decision reason = Ok x ↔
  ∃ b c d r, BindRevocationChallenge (rc_binding challenge) (rc_challenge challenge) = Ok (MkRevocationChallenge c b) ∧ recheckDecision decision = Ok d ∧ recheckReason reason = Ok r
    ∧ decision_bound b (cch_value c) r (cd_value d) ∧ x = MkRevocationDecision d (cch_digest c) b (crs_canonical r).
Proof.
  unfold BindRevocationDecision, decision_repeats, After, Before. split.
  - intros Hx. inv_bind Hx. destruct a as [c b]. inv_bind Hx. inv_bind Hx. exists b, c. do 2 eexists. split_and!; [done..| |].
    all: match goal with Hc : BindRevocationChallenge _ _ = _ |- _ => apply BindRevocationChallenge_iff in Hc as (b' & c' & _ & _ & Hcb & Heq) end; injection Heq as <- <-.
    all: cbn [rc_challenge rc_binding] in Hx; cbv zeta in Hx; destruct (de_OriginalAddDigest _) as [original|] eqn:Eo; [|discriminate Hx]; pass_guards Hx.
    + destruct Hcb as [(K1 & K2 & K3) Hs [S1 S2] (A1 & A2 & A3) [G1 G2] (D1 & D2 & D3) Hh Hl [He1 He2]]. bsplit. split; try done; try lia; split_and!; try done; congruence.
    + apply (f_equal (from_ok x)) in Hx. by cbn [from_ok] in Hx.
  - intros (b & c & d & r & Hc & Hd & Hr & [(K1 & K2 & K3) [C1 C2] [S1 S2] (A1 & A2 & A3 & A4) [G1 G2] (D1 & D2 & D3) Hre Hk Hde Hu] & ->).
    rewrite Hc. cbn [mbind result_bind]. rewrite Hd. cbn [mbind result_bind]. rewrite Hr. cbn [mbind result_bind rc_challenge rc_binding]. cbv zeta.
    apply BindRevocationChallenge_iff in Hc as (b' & c' & _ & _ & Hcb & Heq). injection Heq as <- <-.
    destruct Hcb as [(K1' & K2' & K3') Hs [S1' S2'] (A1' & A2' & A3') [G1' G2'] (D1' & D2' & D3') Hh Hl [He1 He2]].
    rewrite A4, K1, K2, K3, C1, S1, S2, S1', C2, A1, A2, A3, A1', A2', A3', G1, G2, G1', G2', D1, D2, D3, D1', D2', D3', K3', Hre, Hk, !String.eqb_refl, Z.eqb_refl, bool_decide_eq_true_2 by done.
    cbn [negb orb andb]. repeat first [rewrite (proj2 (Z.ltb_lt _ _)) by lia | rewrite (proj2 (Z.ltb_ge _ _)) by lia]. done.
Qed.

(** When a bound decision revokes. *)
Lemma RevokesAt_iff challenge decision reason x t : BindRevocationDecision challenge decision reason = Ok x →
  RevokesAt x t = true ↔ validSnapshotTime t = true ∧ lt_instant (de_DecidedAt (cd_value (rd_decision x))) <= lt_instant t < lt_instant (de_DecisionValidUntil (cd_value (rd_decision x))).
Proof.
  intros (b & c & d & r & Hc & Hd & Hr & Hdb & ->)%BindRevocationDecision_iff. apply recheckReason_ok in Hr as (Hlr & Hdr & _).
  apply BindRevocationChallenge_iff in Hc as (b' & c' & Hb & _ & Hcb & Heq). injection Heq as <- <-. apply recheckRevocationBinding_iff in Hb as [Hb Hbe].
  destruct (bi_artifact _ Hb) as (a & Ha & Hart & _). assert (Hra : rb_artifact b = checked_revoke a) by (rewrite Hbe; exact Hart). pose proof (delete_text_len a Ha).
  destruct Hdb as [(K1 & K2 & K3) _ _ (_ & _ & _ & A4) [G1 G2] _ Hre _ _ Hu], Hcb as [_ _ _ _ _ _ _ Hl _]. rewrite Hra in G1, G2. cbn [checked_revoke crv_digest] in G1, G2.
  unfold RevokesAt. cbn [rd_decision rd_binding rd_reasonCanonical]. cbv zeta. rewrite K1, K2, K3, A4, Hre, Hdr, G1, G2, Hra, !String.eqb_refl. cbn [checked_revoke crv_canonical].
  rewrite (proj2 (Z.ltb_lt 0 (len (crs_canonical r)))), (proj2 (Z.ltb_lt 0 (len (delete_text a)))) by lia. rewrite bool_decide_eq_false_2 by done. cbn [negb andb]. unfold Before.
  destruct (normalizedTime t) as [u|] eqn:E.
  - apply normalizedTime_iff in E as [E ->]. cbn [UTC lt_instant]. rewrite !andb_true_iff, negb_true_iff, Z.ltb_ge, !Z.ltb_lt. split; [intros Ht; destruct_and!; split; [done|lia]|intros [_ ?]; split_and!; done || lia].
  - split; [done|]. intros [Hv _]. by rewrite normalizedTime_valid in E.
Qed.
End decisions.

(** ** A revocation from start to end *)

Definition revoke_challenge (b : CheckedRevocationBinding) (id nonceDigest : string) (issuedAt expiresAt : localtime) : Challenge :=
  MkChallenge ChallengeSchemaVersion id (sb_SessionDigest (rb_session b)) hil_OperationRevoke ResourceEnforcementAction (rb_actionID b) (rb_actionVersion b) (rb_targetIPv4 b)
    (rb_policyDigest b) (crv_digest (rb_artifact b)) (crv_digest (rb_artifact b)) (Some (rb_originalAddDigest b)) (rb_evidenceSnapshotDigest b) (rb_validationSnapshotDigest b)
    (rb_eligibilityValidUntil b) nonceDigest (sb_AuthenticatedAt (rb_session b)) (ReauthAfter / Second) issuedAt expiresAt.

Definition revoke_decision (b : CheckedRevocationBinding) (c : Challenge) (id reasonDigest : string) (decidedAt validUntil : localtime) : Decision :=
  MkDecision DecisionSchemaVersion id (ch_ChallengeID c) (sb_SessionDigest (rb_session b)) hil_OperationRevoke DecisionRevoked ResourceEnforcementAction (rb_actionID b)
    (rb_actionVersion b) (rb_targetIPv4 b) (rb_policyDigest b) (crv_digest (rb_artifact b)) (crv_digest (rb_artifact b)) (Some (rb_originalAddDigest b))
    (rb_evidenceSnapshotDigest b) (rb_validationSnapshotDigest b) (sb_ActorID (rb_session b)) reasonDigest (ch_NonceDigest c) (rb_idempotencyKeyDigest b) decidedAt validUntil.

(** The times of a revocation: a recent login, a challenge within the eligibility and a
    decision within the challenge. *)
Record schedule (b : CheckedRevocationBinding) (issuedAt expiresAt decidedAt validUntil : localtime) : Prop := {
  sd_ok : Forall time_ok [issuedAt; expiresAt; decidedAt; validUntil];
  sd_login : lt_instant (sb_AuthenticatedAt (rb_session b)) <= lt_instant issuedAt <= lt_instant (sb_AuthenticatedAt (rb_session b)) + ReauthAfter;
  sd_challenge : lt_instant issuedAt < lt_instant expiresAt <= lt_instant (rb_eligibilityValidUntil b);
  sd_eligible : lt_instant (rb_eligibilityValidUntil b) <= lt_instant issuedAt + ChallengeLifetime ∧ lt_instant (rb_eligibilityValidUntil b) <= lt_instant (sb_ExpiresAt (rb_session b));
  sd_decision : lt_instant issuedAt <= lt_instant decidedAt < lt_instant validUntil ∧ lt_instant validUntil <= lt_instant expiresAt
}.

Section completion.
Context `{Normalizer} (i : RevocationBindingInput) (b : CheckedRevocationBinding).
Hypothesis version_nonneg : 0 <= ri_ActionVersion i.
Hypothesis years : binding_years i.
Hypothesis checked : CheckRevocationBinding i = Ok b.

Lemma bound_facts : binding_ok i ∧ b = binding_of i ∧ ∃ a, addr4_ok a = true ∧ rb_artifact b = checked_revoke a ∧ rb_targetIPv4 b = addr4_string a.
Proof.
  pose proof checked as [Hb Hbe]%CheckRevocationBinding_iff. split_and!; [done..|]. destruct (bi_artifact _ Hb) as (a & Ha & Hart & Htg). exists a. by rewrite Hbe.
Qed.

Lemma revoke_challenge_ok id nonce issuedAt expiresAt decidedAt validUntil : is_uuid id = true → is_digest nonce = true → schedule b issuedAt expiresAt decidedAt validUntil →
  challenge_ok (revoke_challenge b id nonce issuedAt expiresAt) ∧ challenge_years (revoke_challenge b id nonce issuedAt expiresAt).
Proof.
  intros Hid Hn [Hok Hlog Hch [He1 He2] _]. destruct bound_facts as (Hb & Hbe & a & Ha & Hart & Htg). destruct years as (Y1 & Y2 & Y3). split_Forall.
  pose proof (bi_digests _ Hb) as Hd. split_Forall. destruct (bi_session _ Hb) as (I1 & I2 & I3), (bi_times _ Hb) as [T1 T2], (bi_version _ Hb) as [V1 V2].
  pose proof (bi_action _ Hb). pose proof (bi_eligible _ Hb). unfold time_ok in *. destruct_and?. unfold revoke_challenge, challenge_years. rewrite Hart. cbn [checked_revoke crv_digest].
  pose proof (digest_is_digest (delete_text a)). assert (Hil.validCanonicalIPv4 (rb_targetIPv4 b) = true) by (rewrite Htg; apply bool_decide_eq_true_2, canonical_ipv4_is; by exists a).
  rewrite Hbe in *. cbn [binding_of rb_actionVersion rb_session rb_eligibilityValidUntil normalized_session sb_AuthenticatedAt sb_ExpiresAt UTC lt_instant] in *. split.
  - split; cbn [ch_SchemaVersion ch_Operation ch_ResourceType ch_OriginalAddDigest ch_ChallengeID ch_ResourceID ch_ResourceVersion ch_TargetIPv4 ch_SessionDigest ch_PolicyDigest
      ch_GeneratedArtifactDigest ch_CanonicalArtifactDigest ch_EvidenceSnapshotDigest ch_ValidationSnapshotDigest ch_NonceDigest ch_ReauthRequiredAfterSeconds ch_AuthenticatedAt
      ch_IssuedAt ch_ExpiresAt ch_ValidationValidUntil UTC lt_instant]; try done; try lia.
    + repeat (constructor; [done|]). constructor.
    + constructor; [by apply utc_valid|]. do 2 (constructor; [done|]). constructor; [by apply utc_valid|]. constructor.
  - repeat (constructor; [done|]). constructor.
Qed.

Lemma revoke_decision_ok c id reason issuedAt expiresAt decidedAt validUntil : is_uuid id = true → is_uuid (ch_ChallengeID c) = true → is_digest (ch_NonceDigest c) = true →
  is_digest reason = true → schedule b issuedAt expiresAt decidedAt validUntil →
  decision_ok (revoke_decision b c id reason decidedAt validUntil) ∧ decision_years (revoke_decision b c id reason decidedAt validUntil).
Proof.
  intros Hid Hci Hn Hr [Hok _ Hch [He1 He2] Hde]. destruct bound_facts as (Hb & Hbe & a & Ha & Hart & Htg). split_Forall.
  pose proof (bi_digests _ Hb) as Hd. split_Forall. destruct (bi_session _ Hb) as (I1 & I2 & I3), (bi_version _ Hb) as [V1 V2].
  pose proof (bi_action _ Hb). unfold time_ok in *. destruct_and?. unfold revoke_decision, decision_years. rewrite Hart. cbn [checked_revoke crv_digest].
  pose proof (digest_is_digest (delete_text a)). assert (Hil.validCanonicalIPv4 (rb_targetIPv4 b) = true) by (rewrite Htg; apply bool_decide_eq_true_2, canonical_ipv4_is; by exists a).
  rewrite Hbe in *. cbn [binding_of rb_actionVersion] in *. split; [|done].
  split; cbn [de_SchemaVersion de_Operation de_Decision de_ResourceType de_OriginalAddDigest de_ResourceVersion de_TargetIPv4 de_ActorID de_SessionDigest de_PolicyDigest
    de_GeneratedArtifactDigest de_CanonicalArtifactDigest de_DecidedAt de_DecisionValidUntil]; try done; try (unfold DecisionLifetime, ChallengeLifetime in *; lia);
    repeat (constructor; [done|]); constructor.
Qed.

(** The challenge of a scheduled revocation is checked and bound. *)
Lemma revoke_challenge_binds id nonce issuedAt expiresAt decidedAt validUntil : is_uuid id = true → is_digest nonce = true → schedule b issuedAt expiresAt decidedAt validUntil →
  let v := revoke_challenge b id nonce issuedAt expiresAt in
  CheckChallenge v = Ok (checked_challenge v) ∧ BindRevocationChallenge b (checked_challenge v) = Ok (MkRevocationChallenge (checked_challenge v) b).
Proof.
  intros Hid Hn Hsd v. destruct (revoke_challenge_ok id nonce _ _ _ _ Hid Hn Hsd) as [Hv Hy]. fold v in Hv, Hy. pose proof (CheckChallenge_accepts v Hv Hy) as Hck. split; [done|].
  assert (0 <= ch_ResourceVersion v) as H0 by (destruct (co_version _ Hv); lia). apply BindRevocationChallenge_iff. exists b, (checked_challenge v).
  split_and!; [by eapply binding_stable|by apply (recheckChallenge_reads v)| |done]. destruct Hsd as [Hok Hlog Hch [He1 He2] _]. split_Forall. unfold time_ok in *. destruct_and?.
  destruct bound_facts as (Hb & Hbe & _). destruct years as (Y1 & Y2 & Y3), (bi_times _ Hb) as [T1 T2], (bi_session _ Hb) as (I1 & I2 & I3).
  split; try done. split; try change (lt_instant (ch_IssuedAt _)) with (lt_instant issuedAt); try lia; [by rewrite Hbe|]. rewrite Hbe. split_and!; by apply utc_valid.
Qed.

(** ... and so is the decision on it. *)
Lemma revocation_binds id nonce issuedAt expiresAt id' data r decidedAt validUntil : is_uuid id = true → is_digest nonce = true → is_uuid id' = true →
  ParseCanonicalReason data = Ok r → schedule b issuedAt expiresAt decidedAt validUntil →
  let v := revoke_challenge b id nonce issuedAt expiresAt in
  let w := revoke_decision b v id' (crs_digest r) decidedAt validUntil in
  CheckDecision w = Ok (checked_decision w) ∧ ∃ x, BindRevocationDecision (MkRevocationChallenge (checked_challenge v) b) (checked_decision w) r = Ok x ∧ rd_decision x = checked_decision w.
Proof.
  intros Hid Hn Hid' Hr Hsd v w. destruct (revoke_challenge_binds id nonce _ _ _ _ Hid Hn Hsd) as [_ Hb]. fold v in Hb.
  assert (Hrd : is_digest (crs_digest r) = true) by (apply ParseCanonicalReason_shape in Hr as (_ & _ & ->); apply digest_is_digest).
  destruct (revoke_decision_ok v id' (crs_digest r) _ _ _ _ Hid' Hid Hn Hrd Hsd) as [Hw Hy]. fold w in Hw, Hy. pose proof (CheckDecision_accepts w Hw Hy) as Hck. split; [done|].
  assert (0 <= de_ResourceVersion w) as H0 by (destruct (do_version _ Hw); lia).
  exists (MkRevocationDecision (checked_decision w) (cch_digest (checked_challenge v)) b (crs_canonical r)). split; [|reflexivity]. apply BindRevocationDecision_iff.
  exists b, (checked_challenge v), (checked_decision w), r. split_and!; [exact Hb|by apply (recheckDecision_reads w)|by eapply recheckReason_reads| |reflexivity].
  destruct Hsd as [_ _ Hch _ [Hde1 Hde2]]. split; try done; cbn; lia.
Qed.
End completion.

(** ** A sample *)

Definition sample_revocation : RevocationBindingInput := Eval vm_compute in
  MkRevocationInput "00000000-0000-4000-8000-000000000003" 2 "203.0.113.20" (digest "add") (digest "policy") (digest "evidence") (digest "validation") (hil_time 300)
    sample_session (digest "key") (checked_revoke (Addr4 203 0 113 20)).

Definition sample_binding : CheckedRevocationBinding := Eval vm_compute in binding_of sample_revocation.

Lemma sample_binding_checked : CheckRevocationBinding sample_revocation = Ok sample_binding.
Proof. vm_compute. reflexivity. Qed.

Definition sample_revoke_reason : CheckedReason := Eval vm_compute in
  match CheckReason (H := sample_normalizer) (MkReason ReasonSchemaVersion "emergency_revoke" "wrong address") with
  | Ok r => r
  | Err _ => MkCheckedReason (sample_reason "") "" ""
  end.

Lemma sample_revoke_reason_read : ParseCanonicalReason (H := sample_normalizer) (crs_canonical sample_revoke_reason) = Ok sample_revoke_reason.
Proof. vm_compute. reflexivity. Qed.

Definition sample_bound : CheckedRevocationChallenge := Eval vm_compute in
  MkRevocationChallenge (checked_challenge (revoke_challenge sample_binding "00000000-0000-4000-8000-000000000006" (rb_policyDigest sample_binding) (hil_time 60) (hil_time 299))) sample_binding.

Definition sample_revoke_decision : CheckedDecision := Eval vm_compute in
  checked_decision (revoke_decision sample_binding (cch_value (rc_challenge sample_bound)) "00000000-0000-4000-8000-000000000007" (crs_digest sample_revoke_reason) (hil_time 80) (hil_time 299)).

Definition sample_revoked : CheckedRevocationDecision := Eval vm_compute in
  MkRevocationDecision sample_revoke_decision (cch_digest (rc_challenge sample_bound)) sample_binding (crs_canonical sample_revoke_reason).

Lemma sample_revoked_bound : BindRevocationDecision (H := sample_normalizer) sample_bound sample_revoke_decision sample_revoke_reason = Ok sample_revoked.
Proof. vm_compute. reflexivity. Qed.

Example sample_revokes : map (λ s, RevokesAt sample_revoked (hil_time s)) [79; 80; 298; 299] = [false; true; true; false].
Proof. vm_compute. reflexivity. Qed.

(** ** The claims *)

(** C15. A bound revocation decision deletes one address and nothing else: its artifact is the
    deletion of the target, whose digest both the challenge and the decision carry; it is
    for the bound action, its original command, policy, evidence and validation, taken by
    the session's actor for the reason given, no later than twenty minutes after the login;
    it revokes exactly from the moment it was taken until it ends, which is no later than the
    eligibility and the session end; and it never authorizes an addition. *)
Theorem revocation_bound_and_timed `{Normalizer} challenge decision reason x : BindRevocationDecision challenge decision reason = Ok x →
  let d := cd_value (rd_decision x) in
  let b := rd_binding x in
  (∃ a, addr4_ok a = true ∧ crv_canonical (rb_artifact b) = delete_text a ∧ de_TargetIPv4 d = addr4_string a
     ∧ de_CanonicalArtifactDigest d = digest (delete_text a) ∧ de_GeneratedArtifactDigest d = digest (delete_text a))
  ∧ (de_ResourceID d = rb_actionID b ∧ de_ResourceVersion d = rb_actionVersion b ∧ de_OriginalAddDigest d = Some (rb_originalAddDigest b)
     ∧ de_PolicyDigest d = rb_policyDigest b ∧ de_EvidenceSnapshotDigest d = rb_evidenceSnapshotDigest b ∧ de_ValidationSnapshotDigest d = rb_validationSnapshotDigest b)
  ∧ (de_ActorID d = sb_ActorID (rb_session b) ∧ de_SessionDigest d = sb_SessionDigest (rb_session b) ∧ de_ReasonDigest d = digest (crs_canonical reason)
     ∧ lt_instant (sb_AuthenticatedAt (rb_session b)) <= lt_instant (de_DecidedAt d) <= lt_instant (sb_AuthenticatedAt (rb_session b)) + 20 * Minute)
  ∧ (∀ t, RevokesAt x t = true ↔ validSnapshotTime t = true ∧ lt_instant (de_DecidedAt d) <= lt_instant t < lt_instant (de_DecisionValidUntil d))
  ∧ lt_instant (de_DecisionValidUntil d) <= lt_instant (rb_eligibilityValidUntil b) <= lt_instant (sb_ExpiresAt (rb_session b))
  ∧ ∀ t, AuthorizesAt (rd_decision x) t = false.
Proof.
  intros Hx d b. pose proof (λ t, RevokesAt_iff _ _ _ _ t Hx) as Ht. apply BindRevocationDecision_iff in Hx as (b' & c & d' & r & Hc & Hd & Hr & Hdb & ->). subst d b. cbn [rd_decision rd_binding] in *.
  apply recheckReason_ok in Hr as (_ & Hdr & Hrr). apply BindRevocationChallenge_iff in Hc as (b & c' & Hb & _ & Hcb & Heq). injection Heq as <- <-.
  apply recheckRevocationBinding_iff in Hb as [Hb Hbe]. destruct (bi_artifact _ Hb) as (a & Ha & Hart & Htg).
  assert (Hra : rb_artifact b' = checked_revoke a) by (rewrite Hbe; exact Hart). assert (Hrt : rb_targetIPv4 b' = addr4_string a) by (rewrite Hbe; exact Htg).
  destruct Hdb as [(K1 & _) _ [S1 S2] (A1 & A2 & A3 & A4) [G1 G2] (D1 & D2 & D3) Hre _ Hde Hu], Hcb as [_ Hs _ _ _ _ _ Hl [He1 He2]]. destruct Hs as [_ _ Hsp Hrec].
  rewrite Hra in G1, G2. unfold ChallengeLifetime, ReauthAfter in *. split; [exists a; split_and!; [done|by rewrite Hra|congruence|done|done]|]. split; [by split_and!|].
  split; [split_and!; [done|done|congruence|lia|lia]|]. split; [done|]. split; [lia|]. intros t. unfold AuthorizesAt. by rewrite K1.
Qed.

Lemma revocation_bound_and_timed_witness : AuthorizesAt (rd_decision sample_revoked) (hil_time 80) = false
  ∧ (RevokesAt sample_revoked (hil_time 80) = true ↔ validSnapshotTime (hil_time 80) = true ∧ lt_instant (hil_time 80) <= lt_instant (hil_time 80) < lt_instant (hil_time 299)).
Proof.
  destruct (revocation_bound_and_timed (H := sample_normalizer) sample_bound sample_revoke_decision sample_revoke_reason sample_revoked sample_revoked_bound) as (_ & _ & _ & Ht & _ & Ha).
  split; [exact (Ha (hil_time 80))|exact (Ht (hil_time 80))].
Defined.

(** C35. A revocation completes: from a checked binding whose times have four-digit years in UTC,
    the challenge for it, issued on a recent login within the eligibility, is accepted and
    bound; the decision on that challenge, taken in time for a reason that was read, is
    accepted and bound; and it revokes from then until its end. *)
Theorem revocation_completes `{Normalizer} i b id nonce issuedAt expiresAt id' data r decidedAt validUntil :
  0 <= ri_ActionVersion i → binding_years i → CheckRevocationBinding i = Ok b → is_uuid id = true → is_digest nonce = true → is_uuid id' = true →
  ParseCanonicalReason data = Ok r → schedule b issuedAt expiresAt decidedAt validUntil →
  ∃ c bound d x, CheckChallenge (revoke_challenge b id nonce issuedAt expiresAt) = Ok c ∧ BindRevocationChallenge b c = Ok bound
    ∧ CheckDecision (revoke_decision b (revoke_challenge b id nonce issuedAt expiresAt) id' (crs_digest r) decidedAt validUntil) = Ok d
    ∧ BindRevocationDecision bound d r = Ok x
    ∧ ∀ t, RevokesAt x t = true ↔ validSnapshotTime t = true ∧ lt_instant decidedAt <= lt_instant t < lt_instant validUntil.
Proof.
  intros H0 Hy Hb Hid Hn Hid' Hr Hsd. destruct (revoke_challenge_binds i b H0 Hy Hb id nonce _ _ _ _ Hid Hn Hsd) as [Hc1 Hc2].
  destruct (revocation_binds i b H0 Hy Hb id nonce _ _ id' data r _ _ Hid Hn Hid' Hr Hsd) as (Hd1 & x & Hd2 & Hx). do 3 eexists. exists x. split_and!; [exact Hc1|exact Hc2|exact Hd1|exact Hd2|].
  intros t. rewrite (RevokesAt_iff _ _ _ _ t Hd2), Hx. done.
Qed.

Lemma revocation_completes_witness : ∃ x, ∀ t, RevokesAt x t = true ↔ validSnapshotTime t = true ∧ lt_instant (hil_time 80) <= lt_instant t < lt_instant (hil_time 299).
Proof.
  assert (H0 : 0 <= ri_ActionVersion sample_revocation) by (vm_compute; discriminate).
  assert (Hy : binding_years sample_revocation) by (vm_compute; split_and!; discriminate).
  assert (Hsd : schedule sample_binding (hil_time 60) (hil_time 299) (hil_time 80) (hil_time 299)).
  { split; [|vm_compute; split; discriminate|vm_compute; split; [reflexivity|discriminate]|vm_compute; split; discriminate|vm_compute; split; [split; [discriminate|reflexivity]|discriminate]].
    repeat (apply Forall_cons; split; [split; [vm_compute; reflexivity|vm_compute; split; discriminate]|]). apply Forall_nil_2. }
  destruct (revocation_completes (H := sample_normalizer) sample_revocation sample_binding "00000000-0000-4000-8000-000000000006" (rb_policyDigest sample_binding) (hil_time 60) (hil_time 299)
    "00000000-0000-4000-8000-000000000007" (crs_canonical sample_revoke_reason) sample_revoke_reason (hil_time 80) (hil_time 299) H0 Hy sample_binding_checked eq_refl eq_refl eq_refl
    sample_revoke_reason_read Hsd) as (c & bound & d & x & _ & _ & _ & _ & Hx). exists x. exact Hx.
Defined.
